(* ===== verification/_CoqProject ===== *)
-Q . S2P
Prelude.v
Spinlock.v
Mem.v
KString.v
Division.v
Heap.v
HeapFacts.v
HeapProps.v
HeapInterface.v
Checksum.v
Netbuf.v
Pmm.v
PmmFacts.v
PmmProps.v
PmmSteps.v
PmmInit.v
Task.v
Paging.v
Vmm.v
MmCalls.v
FrameMem.v
Spaces.v
Layout.v
UserSpace.v
SpaceOps.v
SpaceMap.v
SpaceNew.v
SpaceClone.v
SpaceProps.v
VmmInit.v
MmProps.v
SpaceExamples.v
TaskQueue.v
Process.v
Sync.v
TaskFacts.v
TaskProps.v
TaskSteps.v
TaskExit.v
ProcessProps.v
SchedulerProps.v
SyncProps.v
FsState.v
Pipe.v
PipeProps.v
PipeRuns.v
Ramfs.v
Vfs.v
FsCalls.v
RamfsFacts.v
RamfsTree.v
RamfsUnlink.v
RamfsView.v
RamfsProps.v
VfsProps.v
FdProps.v
SchedulerExamples.v
FsExamples.v
NetBytes.v
NetState.v
Netdev.v
Arp.v
Ip.v
Icmp.v
Udp.v
NetInput.v
NetSend.v
NetProps.v
NetShape.v
RouteProps.v
UdpProps.v
ReassProps.v
ArpProps.v
NetTypes.v
NetExamples.v
Blockdev.v
Ata.v
AtaProps.v
BlockProps.v
BlockExamples.v
