(* ===== verification/Prelude.v ===== *)
(** * CastorOS: a verification development of the kernel core

    CastorOS is a small operating-system kernel in C for i686, x86-64 and
    ARM64.  This library translates its core into executable definitions and
    proves what they do.  Paths below are relative to src/src/.

    ** The parts and how they are modelled

    Integers are [Z] with the wrap-around of their C type written out ([u8],
    [u16], [u32], [u64], [s32], and [uptr] for the pointer width of an
    [arch]).  A function that may dereference an invalid pointer, loop for
    ever or panic returns an [option]; [None] is that outcome and the theorems
    show when it does not occur.  What a part needs from code outside it is a
    type class: [TaskResources] (page directories, stacks, user stacks and
    descriptor tables of tasks), [PageProvider] (mapping of heap pages), the allocator interface
    of [HeapInterface] and [ObjHeap] with [ObjHeapLaws] (allocation of whole
    objects).  Each class has an instance on which the witnesses evaluate.

    - [Prelude]: integers, page macros (include/types.h), tactics, list facts.
    - [Spinlock]: kernel/sync/spinlock.c; the multi-CPU step relation is in
      its module [SMP].
    - [Mem], [KString], [Division]: lib/string.c on byte memory, and the
      64-bit division of lib/libgcc_stub.c.
    - [Heap]: mm/heap.c, the block chain in memory.  [HeapFacts] relates it
      to a list of cells, [HeapProps] derives the further properties,
      [HeapInterface] is what clients of the allocator rely on.
    - [Checksum], [Netbuf]: net/checksum.c and net/netbuf.c.
    - [Pmm]: mm/pmm.c, bitmap, reference counts, protected frames, zones,
      huge pages and both initialisations.  [PmmFacts], [PmmProps],
      [PmmSteps] and [PmmInit] hold the proofs, [SpaceExamples] the witnesses.
    - [Task], [Process]: kernel/task.c with the creation of kernel threads
      and user processes, and the fork, kill and wait calls of
      kernel/syscalls/process.c, as transformations of a state [sched] with
      the pool, the ready queue threaded through it, the lock and the log of
      resource calls.  A context switch is the end of an operation: the
      operation returns which task runs next.  [TaskQueue], [TaskFacts],
      [TaskProps], [TaskSteps], [TaskExit], [ProcessProps] and
      [SchedulerProps] hold the proofs.
    - [Sync]: kernel/sync/mutex.c and semaphore.c over the scheduler.  A call
      that has to wait ends its turn with the switch it makes ([Blocks]) and
      is entered again when the task runs.  Proofs in [SyncProps].
    - [FsState]: the data of the file layer, objects by address, the
      statics, the reference counts of nodes (fs/vfs.c), and the monad [K] of its functions; mutexes are those of
      [Sync].  [runs] says that a function returns, with its result and new
      data, in every environment in which a task runs and the locks it takes
      are free.
    - [Ramfs]: fs/ramfs.c.  [RamfsFacts], [RamfsTree], [RamfsUnlink] and
      [RamfsView] prove each operation against the tree invariant [tree_ok]
      and the abstract view of a file system; [RamfsProps] has the
      specification [fs_spec].
    - [Vfs]: fs/vfs.c.  [VfsProps] has the reference
      resolution of paths over their components.
    - [Pipe]: fs/pipe.c, reads and writes split at their waits.  [PipeProps]
      reads the ring as a list, [PipeRuns] interleaves any users of a pipe, up
      to and after the free by the last closer.
    - [FsCalls]: kernel/fd_table.c and kernel/syscalls/fs.c.
      [FdProps] shows what a program sees through a descriptor.
    - [Paging]: arch/i686/mm/paging.c, the two-level tables in the physical
      memory of [Pmm]; the state [mmu] has the page-table register and the
      translation cache, a map from page numbers to entries.
    - [Vmm]: mm/vmm.c on i686, over [Paging], [Pmm] and the task pool.
      [MmCalls]: kernel/syscalls/mm.c.
    - [UserSpace]: user loads and stores.  The processor looks in its cache
      and else walks the tables; it may fill the cache from the tables and
      drop entries at any time; a store that faults runs the page-fault
      handler of arch/i686/interrupt/isr.c and is tried again.  The bits for
      accessed and dirty pages, which nothing reads, are not set.
    - [Spaces] has the ghost state of the proofs: who owns which frame, which
      directory has which tables and pages.  [FrameMem] and [Layout]
      relate it to memory and to reference counts; [SpaceOps],
      [SpaceMap], [SpaceNew], [SpaceClone] and [VmmInit] prove
      each operation against it, [SpaceProps] has the abstract machine of
      address spaces, [MmProps] the system calls, [SpaceExamples] a machine.
    - [NetBytes], [NetState]: byte order, header fields and the state of the
      network stack, [net]: devices with their descriptor rings, ARP cache,
      routes, reassembly slots, ICMP and UDP state, the heap with the packet
      buffers of [Netbuf], the clock.  [Netdev] (net/netdev.c,
      net/ethernet.c and the transmit ring of drivers/x86/e1000.c), [Arp],
      [Ip], [Icmp] and [Udp] (the files of net/ of those names) and
      [NetInput] (ip_input, ethernet_input and the receive loop of the
      driver) follow the calls of the code, down to the buffer that a
      descriptor points to.  tcp_input and the receive callbacks of UDP
      blocks are parameters: the theorems on runs assume that they act on
      the stack through its own calls only.  A section under a lock is one
      step.  The receive loop runs against a schedule that says what the
      device writes into the ring between its turns; the device makes no
      progress while the driver polls a transmit descriptor.
      [NetSend] and [NetProps] follow a datagram from one
      machine to another and show where an oversized packet fails,
      [NetShape] what the layers leave unchanged and the end of the receive
      loop, [RouteProps], [UdpProps], [ArpProps] and
      [ReassProps] each component, [NetTypes] the ranges of the fields,
      [NetExamples] the witnesses.
    - [Blockdev]: fs/blockdev.c and fs/partition.c, the registry, requests,
      partition devices over any device, the tables of an MBR and a GPT.
      [Ata]: drivers/x86/ata.c over the port instructions, a class [Ports].
      [AtaProps] states the ATA protocol of a disk ([AtaLaws]) and shows that
      the driver is a [BlockDriverLaws], the interface against which
      [BlockProps] proves partitions and tables; [BlockExamples] detects,
      parses and uses a small disk.
    - The Examples files: witnesses, and histories in which
      the code departs from its documentation.

    ** What the theorems show

    Memory: every history of page-frame operations returns and keeps counters
    and bitmap in agreement, and protected frames used where no huge page with
    a protected frame is freed; allocation and release have exact effects;
    kmalloc equals a first-fit allocator of disjoint cells as long as
    last_block is right, and kfree releases exactly one cell; memset and
    memmove equal their byte-wise definitions.  Address spaces: vmm_init
    registers and protects the boot directory and extends the direct map;
    forks that share pages until they are written, exits, mappings, loads and
    stores in any order behave as if every process had its own memory; and
    mmap, munmap and brk change exactly the caller's pages, for ranges that do
    not wrap and a break that grows into unmapped pages.  Tasks: every run
    from task_init, with threads and processes being created, is consistent,
    scheduling is round-robin and starves nobody, exit codes reach the parent.
    Synchronisation: mutual exclusion and the balance of semaphores in every
    interleaving.  Files: every ramfs call in range refines its specification
    and keeps a tree, failing for lack of memory only when one of its own
    requests is refused; paths resolve as their components say; what is
    written through a descriptor is read back; a pipe is a bounded FIFO
    channel in every interleaving.  Network: packets with a stored checksum
    verify and single-word changes are detected; a datagram that one machine
    sends is queued, with the padding of its frame behind it, at the bound
    block of the other; the fragments of a packet are put together in whatever
    order they arrive; the route table is a finite map searched by longest
    prefix; the ARP cache has one live entry per address and answers with the
    last update; no UDP address belongs to two blocks and a free port is found
    when there is one; the receive loop ends when the device stops; every
    entry point keeps the tables and fields of the stack within their C types.
    Disks: partitions that lie inside their parents and do not overlap are
    independent arrays of sectors, over any driver and in particular over the
    ATA driver, whose port accesses transfer exactly the sectors asked for;
    partition tables are parsed as they are written.  A theorem about a defect
    states a reachable history and its wrong outcome.

    ** Fuel and bounds

    Loops over lists and tables recurse on the list.  Where the recursion is
    on fuel the caller passes a bound that the proofs show to suffice: the
    walk along a path and the chunks of a write the length of what is left,
    the ready queue and heap chain the number of blocks, a pipe's read or
    write loop the turns its semaphore allows.  The receive loop of the
    driver has as many turns as its schedule is long; it ends when these are
    more than the 32 descriptors of the ring and those the device completes
    meanwhile.  The search
    for an ephemeral port gets the 16384 ports of its range.  Requests to a
    partition get one more than its nesting depth, and a disk is polled
    100000 times as in the code; the detection of a disk, whose wait the
    code does not bound, takes fuel as an argument.  A spinning
    [spinlock_lock] gets one turn, since on one CPU with interrupts off a lock that is taken
    never becomes free.  Hypotheses of the form [x + n < 2 ^ 32] mark where
    the C code would wrap.

    ** Not modelled

    Device drivers other than the E1000 rings and ATA disks, boot, exception entry and the parts of arch/ that access
    registers: hardware behaviour that the sources do not determine.  Log
    output.  The console shell and user programs.  The page tables of x86-64
    and ARM64 and their branches of mm/vmm.c, TCP, sockets, DHCP and DNS, FAT32, devfs, procfs, shmfs, the
    ELF loader, formatted printing, and the register contexts
    and user stacks of new tasks are further work.  User
    buffers are values: faults on user pointers are outside the model. *)

From Stdlib Require Export ZArith Lia Bool.
From stdpp Require Export base numbers list gmap option.

Open Scope Z_scope.

(** ** Target architectures (the ARCH_* macros of the build) *)

Inductive arch := I686 | X86_64 | ARM64.

#[export] Instance arch_eq_dec : EqDecision arch.
Proof. solve_decision. Defined.

(** ** Machine integers

    A w-bit unsigned integer is a [Z] in [0, 2^w); the C conversion to that
    type is reduction modulo [2^w]. *)

Definition u8 (z : Z) : Z := z mod 2 ^ 8.
Definition u16 (z : Z) : Z := z mod 2 ^ 16.
Definition u32 (z : Z) : Z := z mod 2 ^ 32.
Definition u64 (z : Z) : Z := z mod 2 ^ 64.

(** Two's complement reading of a 32-bit pattern. *)
Definition s32 (z : Z) : Z :=
  let r := z mod 2 ^ 32 in if r <? 2 ^ 31 then r else r - 2 ^ 32.

(** Width of [uintptr_t] and [size_t] (include/types.h). *)
Definition ptr_bits (a : arch) : Z :=
  match a with I686 => 32 | X86_64 | ARM64 => 64 end.

Definition uptr (a : arch) (z : Z) : Z := z mod 2 ^ ptr_bits a.

(** [sizeof(void * )]. *)
Definition ptr_size (a : arch) : Z :=
  match a with I686 => 4 | X86_64 | ARM64 => 8 end.

Definition PAGE_SIZE : Z := 4096.
Definition PAGE_SHIFT : Z := 12.

Definition KERNEL_VIRTUAL_BASE (a : arch) : Z :=
  match a with
  | I686 => 0x80000000
  | X86_64 => 0xFFFF800000000000
  | ARM64 => 0xFFFF000000000000
  end.

Definition PAGE_MASK (a : arch) : Z :=
  match a with I686 => 0xFFFFF000 | X86_64 | ARM64 => 0xFFFFFFFFFFFFF000 end.

Definition VIRT_TO_PHYS (a : arch) (v : Z) : Z :=
  uptr a (uptr a v - KERNEL_VIRTUAL_BASE a).
Definition PHYS_TO_VIRT (a : arch) (p : Z) : Z :=
  uptr a (uptr a p + KERNEL_VIRTUAL_BASE a).

Definition PAGE_ALIGN_DOWN (a : arch) (v : Z) : Z := Z.land v (PAGE_MASK a).
Definition PAGE_ALIGN_UP (a : arch) (v : Z) : Z :=
  Z.land (uptr a (v + PAGE_SIZE - 1)) (PAGE_MASK a).

(** ** Automation *)

(** Turns boolean comparisons in the context and the goal into the
    propositions they decide. *)
Ltac zify_bool :=
  repeat match goal with
  | H : (_ <? _) = true |- _ => apply Z.ltb_lt in H
  | H : (_ <? _) = false |- _ => apply Z.ltb_ge in H
  | H : (_ <=? _) = true |- _ => apply Z.leb_le in H
  | H : (_ <=? _) = false |- _ => apply Z.leb_gt in H
  | H : (_ =? _) = true |- _ => apply Z.eqb_eq in H
  | H : (_ =? _) = false |- _ => apply Z.eqb_neq in H
  | H : _ && _ = true |- _ => apply andb_true_iff in H; destruct H
  | H : _ || _ = false |- _ => apply orb_false_iff in H; destruct H
  | H : _ && _ = false |- _ =>
      apply andb_false_iff in H; rewrite ?Z.leb_gt, ?Z.ltb_ge, ?Z.eqb_neq in H
  | H : _ || _ = true |- _ =>
      apply orb_true_iff in H; rewrite ?Z.leb_le, ?Z.ltb_lt, ?Z.eqb_eq in H
  | H : negb _ = true |- _ => apply negb_true_iff in H
  | H : negb _ = false |- _ => apply negb_false_iff in H
  end.

(** Splits the first [if] of the goal on its boolean condition. *)
Ltac case_if :=
  match goal with
  | |- context [if ?b then _ else _] =>
      let E := fresh "Hif" in destruct b eqn:E
  end; zify_bool.

Ltac case_if_in H :=
  match type of H with
  | context [if ?b then _ else _] =>
      let E := fresh "Hif" in destruct b eqn:E
  end; zify_bool.

(** Case analysis on every [if] of the goal, closed by arithmetic. *)
Ltac zcases := repeat case_if; try done; try lia.

Create HintDb castor.

(** ** Generic lemmas on words *)

Lemma u32_small z : 0 <= z < 2 ^ 32 -> u32 z = z.
Proof. apply Z.mod_small. Qed.

Lemma s32_small z : 0 <= z < 2 ^ 31 -> s32 z = z.
Proof. intros Hz. unfold s32. rewrite Z.mod_small by lia. by rewrite (proj2 (Z.ltb_lt _ _)) by lia. Qed.

Lemma u32_range z : 0 <= u32 z < 2 ^ 32.
Proof. apply Z.mod_pos_bound. lia. Qed.

Lemma u64_small z : 0 <= z < 2 ^ 64 -> u64 z = z.
Proof. apply Z.mod_small. Qed.

Lemma ptr_bits_pos a : 0 < ptr_bits a.
Proof. destruct a; simpl; lia. Qed.

Lemma uptr_small a z : 0 <= z < 2 ^ ptr_bits a -> uptr a z = z.
Proof. apply Z.mod_small. Qed.

Lemma uptr_range a z : 0 <= uptr a z < 2 ^ ptr_bits a.
Proof. apply Z.mod_pos_bound. pose proof (ptr_bits_pos a). lia. Qed.

(** Masking a [w]-bit value with the complement of [2^k - 1] rounds it down
    to a multiple of [2^k]. *)
Lemma land_high_mask w k z :
  0 <= k <= w -> 0 <= z < 2 ^ w ->
  Z.land z (2 ^ w - 2 ^ k) = z - z mod 2 ^ k.
Proof.
  intros Hk Hz.
  assert (2 ^ w = 2 ^ k * 2 ^ (w - k)) as E by (rewrite <- Z.pow_add_r by lia; f_equal; lia).
  pose proof (Z.div_mod z (2 ^ k) ltac:(lia)) as D.
  replace (2 ^ w - 2 ^ k) with (Z.shiftl (Z.ones (w - k)) k).
  2:{ rewrite Z.shiftl_mul_pow2, Z.ones_equiv by lia. nia. }
  replace (z - z mod 2 ^ k) with (Z.shiftl (Z.shiftr z k) k).
  2:{ rewrite Z.shiftl_mul_pow2, Z.shiftr_div_pow2 by lia. lia. }
  assert (Z.land (Z.shiftr z k) (Z.ones (w - k)) = Z.shiftr z k) as L.
  { rewrite Z.land_ones by lia. apply Z.mod_small. rewrite Z.shiftr_div_pow2 by lia.
    split; [apply Z.div_pos; lia|]. apply Z.div_lt_upper_bound; lia. }
  rewrite <- L. rewrite Z.shiftl_land. apply Z.bits_inj'. intros i Hi.
  rewrite !Z.land_spec. rewrite !Z.shiftl_spec by lia.
  destruct (decide (i < k)).
  - rewrite !(Z.testbit_neg_r _ (i - k)) by lia. by rewrite !andb_false_r.
  - rewrite Z.shiftr_spec by lia. do 2 f_equal. lia.
Qed.

(** Rounding up by adding [2^k - 1] and masking. *)
Lemma align_up_mask w k z :
  0 <= k <= w -> 0 <= z -> z + 2 ^ k - 1 < 2 ^ w ->
  let r := Z.land (z + 2 ^ k - 1) (2 ^ w - 2 ^ k) in
  r mod 2 ^ k = 0 /\ z <= r < z + 2 ^ k.
Proof.
  intros Hk Hz Hlt. simpl. assert (0 < 2 ^ k) by lia.
  rewrite land_high_mask by lia.
  pose proof (Z.mod_pos_bound (z + 2 ^ k - 1) (2 ^ k) ltac:(lia)).
  split; [|lia].
  pose proof (Z.div_mod (z + 2 ^ k - 1) (2 ^ k) ltac:(lia)) as D.
  replace (z + 2 ^ k - 1 - (z + 2 ^ k - 1) mod 2 ^ k)
    with ((z + 2 ^ k - 1) / 2 ^ k * 2 ^ k) by lia.
  apply Z.mod_mul. lia.
Qed.

Lemma PAGE_MASK_eq a : PAGE_MASK a = 2 ^ ptr_bits a - 2 ^ 12.
Proof. by destruct a. Qed.

Lemma PAGE_ALIGN_UP_spec a v :
  0 <= v -> v + PAGE_SIZE - 1 < 2 ^ ptr_bits a ->
  PAGE_ALIGN_UP a v mod PAGE_SIZE = 0 /\ v <= PAGE_ALIGN_UP a v < v + PAGE_SIZE.
Proof.
  intros Hv Hlt. unfold PAGE_ALIGN_UP, PAGE_SIZE in *. rewrite uptr_small by lia.
  rewrite PAGE_MASK_eq. apply (align_up_mask (ptr_bits a) 12 v); [|lia|lia].
  destruct a; simpl; lia.
Qed.

Lemma mod_pos_le a b : 0 <= a -> 0 < b -> 0 <= a mod b <= a.
Proof. intros. pose proof (Z.mod_pos_bound a b). pose proof (Z.mod_le a b). lia. Qed.

(** ** Bits of bounded words *)

Lemma word_range_bits n w : 0 <= n -> 0 <= w ->
  (forall i, n <= i -> Z.testbit w i = false) -> w < 2 ^ n.
Proof.
  intros Hn Hw Hb. destruct (decide (w = 0)) as [->|]; [lia|].
  destruct (decide (Z.log2 w < n)) as [Hl|Hl].
  - apply Z.log2_lt_pow2; lia.
  - pose proof (Z.bit_log2 w ltac:(lia)) as Hbit. rewrite Hb in Hbit by lia. done.
Qed.

Lemma word_high_bits n w i : 0 <= w < 2 ^ n -> n <= i -> Z.testbit w i = false.
Proof.
  intros Hw Hi. destruct (decide (0 <= i)); [|apply Z.testbit_neg_r; lia].
  destruct (decide (w = 0)) as [->|]; [apply Z.bits_0|].
  apply Z.bits_above_log2; [lia|]. apply Z.log2_lt_pow2; [lia|].
  eapply Z.lt_le_trans; [apply Hw|]. apply Z.pow_le_mono_r; lia.
Qed.

(** Complementing the low [n] bits. *)
Lemma ones_lxor n r : 0 <= n -> 0 <= r < 2 ^ n -> Z.lxor (Z.ones n) r = Z.ones n - r.
Proof.
  intros Hn Hr. rewrite Z.sub_nocarry_ldiff.
  - apply Z.bits_inj'. intros i Hi. rewrite Z.lxor_spec, Z.ldiff_spec, Z.testbit_ones_nonneg by lia.
    destruct (i <? n) eqn:E; [done|]. zify_bool. by rewrite (word_high_bits n) by lia.
  - apply Z.bits_inj'. intros i Hi. rewrite Z.ldiff_spec, Z.bits_0, Z.testbit_ones_nonneg by lia.
    destruct (i <? n) eqn:E; [apply andb_false_r|]. zify_bool. by rewrite (word_high_bits n) by lia.
Qed.

(** ** Counting *)

(** Number of [i] in [0, n) on which [f] holds. *)
Fixpoint cnt (f : Z -> bool) (n : nat) : Z :=
  match n with
  | O => 0
  | S n => cnt f n + (if f (Z.of_nat n) then 1 else 0)
  end.

Lemma cnt_range f n : 0 <= cnt f n <= Z.of_nat n.
Proof. induction n as [|n IH]; simpl; [lia|]. case_if; lia. Qed.

Lemma cnt_ext f g n : (forall i, 0 <= i < Z.of_nat n -> f i = g i) -> cnt f n = cnt g n.
Proof.
  induction n as [|n IH]; simpl; intros H; [done|]. rewrite IH by (intros; apply H; lia).
  by rewrite H by lia.
Qed.

Lemma cnt_flip f g n i : 0 <= i < Z.of_nat n -> f i = true -> g i = false ->
  (forall j, 0 <= j < Z.of_nat n -> j <> i -> f j = g j) -> cnt f n = cnt g n + 1.
Proof.
  induction n as [|n IH]; simpl; intros Hi Hf Hg He; [lia|].
  destruct (decide (i = Z.of_nat n)) as [->|].
  - rewrite Hf, Hg. rewrite (cnt_ext f g) by (intros; apply He; lia). lia.
  - rewrite IH; [rewrite (He (Z.of_nat n)) by lia; lia|lia|done|done|]. intros; apply He; lia.
Qed.

Lemma cnt_pos f n i : 0 <= i < Z.of_nat n -> f i = true -> 0 < cnt f n.
Proof.
  induction n as [|n IH]; simpl; intros Hi Hf; [lia|]. pose proof (cnt_range f n).
  destruct (decide (i = Z.of_nat n)) as [->|]; [rewrite Hf; lia|].
  specialize (IH ltac:(lia) Hf). case_if; lia.
Qed.

Lemma cnt_zero f n : cnt f n = 0 -> forall i, 0 <= i < Z.of_nat n -> f i = false.
Proof.
  intros H0 i Hi. destruct (f i) eqn:E; [|done]. pose proof (cnt_pos f n i Hi E). lia.
Qed.
