(* ===== verification/Spinlock.v ===== *)
(** * Spinlocks and interrupt masking

    Models src/kernel/sync/spinlock.c and the interrupt-flag helpers of
    src/include/kernel/interrupt.h.  A lock pointer is [option Z]: [None] is
    the C [NULL], [Some v] a lock whose word holds [v].  The spin loop is run
    with fuel; [spin_alone] shows that one turn decides it when no other CPU
    touches the word, which is the setting the sequential components use
    through [lock_irqsave]/[unlock_irqrestore].  [Module SMP] interleaves any
    number of CPUs on one word and proves mutual exclusion by rule induction
    on the step relation. *)

From S2P Require Import Prelude.

(** ** The interrupt flag *)

(** [interrupts_disable]: returns the previous flag and clears it. *)
Definition interrupts_disable (flag : bool) : bool * bool := (flag, false).

Definition interrupts_enable (flag : bool) : bool := true.

(** [interrupts_restore]: re-enables interrupts, never disables them. *)
Definition interrupts_restore (flag state : bool) : bool :=
  if state then interrupts_enable flag else flag.

(** ** The lock word *)

Definition SPINLOCK_UNLOCKED : Z := 0.
Definition SPINLOCK_LOCKED : Z := 1.

(** The atomic exchange: old value, new contents of the word. *)
Definition atomic_xchg (addr new_value : Z) : Z * Z := (addr, new_value).

Definition spinlock_init (lock : option Z) : option Z :=
  match lock with
  | None => None
  | Some _ => Some SPINLOCK_UNLOCKED
  end.

Definition spinlock_try_lock (lock : option Z) : bool * option Z :=
  match lock with
  | None => (false, None)
  | Some v =>
      let '(old, v') := atomic_xchg v SPINLOCK_LOCKED in
      (old =? SPINLOCK_UNLOCKED, Some v')
  end.

(** The spin loop; [None] when [fuel] turns did not acquire the lock. *)
Fixpoint spinlock_spin (fuel : nat) (lock : option Z) : option (option Z) :=
  match fuel with
  | O => None
  | S fuel =>
      let '(ok, lock) := spinlock_try_lock lock in
      if ok then Some lock else spinlock_spin fuel lock
  end.

Definition spinlock_lock (fuel : nat) (lock : option Z) : option (option Z) :=
  match lock with
  | None => Some None
  | Some _ => spinlock_spin fuel lock
  end.

Definition spinlock_unlock (lock : option Z) : option Z :=
  match lock with
  | None => None
  | Some v => Some (atomic_xchg v SPINLOCK_UNLOCKED).2
  end.

Definition spinlock_is_locked (lock : option Z) : bool :=
  match lock with
  | None => false
  | Some v => v =? SPINLOCK_LOCKED
  end.

(** Results: the saved flag, the lock, the CPU's interrupt flag. *)
Definition spinlock_lock_irqsave (fuel : nat) (lock : option Z) (flag : bool)
    : option (bool * option Z * bool) :=
  match lock with
  | None => Some (false, None, flag)
  | Some _ =>
      let '(prev, flag) := interrupts_disable flag in
      lock ← spinlock_lock fuel lock;
      Some (prev, lock, flag)
  end.

Definition spinlock_unlock_irqrestore (lock : option Z) (flag irq_state : bool)
    : option Z * bool :=
  let lock := match lock with None => None | Some _ => spinlock_unlock lock end in
  (lock, interrupts_restore flag irq_state).

(** ** The view of a sequential component

    A component that owns one static spinlock keeps [lockst]: the word of its
    lock and the CPU's interrupt flag.  [lock_irqsave] is [None] when the lock
    is already held: the caller would spin for ever. *)

Record lockst := LockSt { lk_word : Z; lk_irq : bool }.

Definition lock_irqsave (s : lockst) : option (bool * lockst) :=
  r ← spinlock_lock_irqsave 1 (Some (lk_word s)) (lk_irq s);
  match r with
  | (prev, Some w, flag) => Some (prev, LockSt w flag)
  | _ => None
  end.

Definition unlock_irqrestore (s : lockst) (irq_state : bool) : lockst :=
  match spinlock_unlock_irqrestore (Some (lk_word s)) (lk_irq s) irq_state with
  | (Some w, flag) => LockSt w flag
  | (None, flag) => LockSt (lk_word s) flag
  end.

Definition lock_free (s : lockst) : Prop := lk_word s = SPINLOCK_UNLOCKED.

Lemma try_lock_word v :
  spinlock_try_lock (Some v) = (v =? 0, Some SPINLOCK_LOCKED).
Proof. done. Qed.

(** Spinning alone: either the first turn succeeds or none does. *)
Lemma spin_alone fuel v :
  spinlock_spin (S fuel) (Some v) =
    if v =? SPINLOCK_UNLOCKED then Some (Some SPINLOCK_LOCKED) else None.
Proof.
  simpl. destruct (v =? SPINLOCK_UNLOCKED) eqn:E; [done|].
  clear E. induction fuel as [|fuel IH]; [done|apply IH].
Qed.

Lemma lock_irqsave_free s :
  lock_free s ->
  lock_irqsave s = Some (lk_irq s, LockSt SPINLOCK_LOCKED false).
Proof. destruct s as [w f]. unfold lock_free. simpl. intros ->. done. Qed.

Lemma lock_irqsave_held s : ~ lock_free s -> lock_irqsave s = None.
Proof.
  destruct s as [w f]. unfold lock_free. simpl. intros H.
  unfold lock_irqsave. simpl.
  destruct (w =? SPINLOCK_UNLOCKED) eqn:E; [zify_bool; done|done].
Qed.

(** Leaving the section with the flag saved on entry gives the state of
    before, whether interrupts were on or off. *)
Lemma lock_section_restores s :
  lock_free s -> unlock_irqrestore (LockSt SPINLOCK_LOCKED false) (lk_irq s) = s.
Proof. destruct s as [w []]; unfold lock_free; simpl; by intros ->. Qed.

#[export] Hint Resolve lock_irqsave_free lock_section_restores : castor.

(** ** Several CPUs on one lock *)

Module SMP.

(** Where a CPU is with respect to the lock. *)
Inductive phase := Outside | Spinning | Critical.

Record smp := Smp { word : option Z; cpus : gmap nat phase }.

Definition initial (n : nat) : smp :=
  Smp (spinlock_init (Some 1))
      (list_to_map ((fun i => (i, Outside)) <$> seq 0 n)).

(** One atomic action of one CPU. *)
Inductive step : smp -> smp -> Prop :=
| step_call s i :
    cpus s !! i = Some Outside ->
    step s (Smp (word s) (<[i := Spinning]> (cpus s)))
| step_try s i ok w :
    cpus s !! i = Some Spinning ->
    spinlock_try_lock (word s) = (ok, w) ->
    step s (Smp w (<[i := if (ok : bool) then Critical else Spinning]> (cpus s)))
| step_unlock s i :
    cpus s !! i = Some Critical ->
    step s (Smp (spinlock_unlock (word s)) (<[i := Outside]> (cpus s))).

Inductive reachable (n : nat) : smp -> Prop :=
| reach_init : reachable n (initial n)
| reach_step s s' : reachable n s -> step s s' -> reachable n s'.

Definition inv (s : smp) : Prop :=
  (word s = Some SPINLOCK_UNLOCKED /\ forall i, cpus s !! i <> Some Critical) \/
  (word s = Some SPINLOCK_LOCKED /\
   exists i, cpus s !! i = Some Critical /\
     forall j, cpus s !! j = Some Critical -> j = i).

Lemma initial_outside n i p : cpus (initial n) !! i = Some p -> p = Outside.
Proof.
  simpl. intros H. apply elem_of_list_to_map_2 in H.
  apply list_elem_of_fmap in H as (k & [=-> ->] & _). done.
Qed.

Lemma inv_initial n : inv (initial n).
Proof. left. split; [done|]. intros i H. by apply initial_outside in H. Qed.

Lemma inv_step s s' : inv s -> step s s' -> inv s'.
Proof.
  intros Hinv Hst. destruct Hst as [s i Hi|s i ok w Hi Ht|s i Hi]; unfold inv in *; simpl.
  - destruct Hinv as [[Hw Hn]|[Hw (k & Hk & Hu)]]; [left|right]; split; try done.
    + intros j. destruct (decide (i = j)) as [->|]; simplify_map_eq; [done|apply Hn].
    + exists k. split; [destruct (decide (i = k)) as [->|]; by simplify_map_eq|].
      intros j. destruct (decide (i = j)) as [->|]; simplify_map_eq; [done|apply Hu].
  - right. destruct Hinv as [[Hw Hn]|[Hw (k & Hk & Hu)]]; rewrite Hw in Ht;
      simplify_eq/=; (split; [done|]).
    + exists i. split; [by simplify_map_eq|]. intros j.
      destruct (decide (i = j)) as [->|]; simplify_map_eq; [done|]. intros Hj. by apply Hn in Hj.
    + exists k. split; [destruct (decide (i = k)) as [->|]; by simplify_map_eq|].
      intros j. destruct (decide (i = j)) as [->|]; simplify_map_eq; [done|apply Hu].
  - left. destruct Hinv as [[Hw Hn]|[Hw (k & Hk & Hu)]]; [by apply Hn in Hi|].
    rewrite Hw. split; [done|]. intros j. apply Hu in Hi as ->.
    destruct (decide (k = j)) as [->|]; simplify_map_eq; [done|]. intros Hj. by apply Hu in Hj.
Qed.

Lemma inv_reachable n s : reachable n s -> inv s.
Proof. induction 1; eauto using inv_initial, inv_step. Qed.

(** C37: Mutual exclusion: in every reachable state of any number of CPUs at most
    one CPU is past [spinlock_lock] and not yet past [spinlock_unlock], the
    word reads as locked exactly when there is one, and when there is none the
    next attempt of any CPU that spins succeeds. *)
Theorem spinlock_mutual_exclusion n s :
  reachable n s ->
  (forall i j, cpus s !! i = Some Critical -> cpus s !! j = Some Critical -> i = j) /\
  (spinlock_is_locked (word s) = true <-> exists i, cpus s !! i = Some Critical) /\
  ((forall i, cpus s !! i <> Some Critical) -> (spinlock_try_lock (word s)).1 = true).
Proof.
  intros Hr. destruct (inv_reachable _ _ Hr) as [[Hw Hn]|[Hw (k & Hk & Hu)]]; rewrite Hw.
  - split; [intros i j Hi; by apply Hn in Hi|]. split; [|done]. split; [done|intros [i Hi]; by apply Hn in Hi].
  - split; [intros i j Hi Hj; by rewrite (Hu _ Hi), (Hu _ Hj)|]. split; [by split; [exists k|]|]. intros Hn. by apply Hn in Hk.
Qed.

(** CPU 0 of two enters, CPU 1 tries in vain, CPU 0 leaves, CPU 1 enters. *)
Definition pair_of (w : Z) (p0 p1 : phase) : smp := Smp (Some w) (<[0%nat := p0]> {[1%nat := p1]}).
Definition handed_over : smp := pair_of SPINLOCK_LOCKED Outside Critical.

Lemma reach_to n s s1 s2 : reachable n s -> step s s1 -> s1 = s2 -> reachable n s2.
Proof. intros Hr Hs <-. by apply (reach_step n s). Qed.

Lemma handed_over_reachable : reachable 2 handed_over.
Proof.
  eapply (reach_to 2 (pair_of SPINLOCK_UNLOCKED Outside Spinning)); [|by eapply (step_try (pair_of SPINLOCK_UNLOCKED Outside Spinning) 1 true)|by vm_compute].
  eapply (reach_to 2 (pair_of SPINLOCK_LOCKED Critical Spinning)); [|by eapply (step_unlock (pair_of SPINLOCK_LOCKED Critical Spinning) 0)|by vm_compute].
  eapply (reach_to 2 (pair_of SPINLOCK_LOCKED Critical Spinning)); [|by eapply (step_try (pair_of SPINLOCK_LOCKED Critical Spinning) 1 false)|by vm_compute].
  eapply (reach_to 2 (pair_of SPINLOCK_LOCKED Critical Outside)); [|by eapply (step_call (pair_of SPINLOCK_LOCKED Critical Outside) 1)|by vm_compute].
  eapply (reach_to 2 (pair_of SPINLOCK_UNLOCKED Spinning Outside)); [|by eapply (step_try (pair_of SPINLOCK_UNLOCKED Spinning Outside) 0 true)|by vm_compute].
  eapply (reach_to 2 (initial 2)); [apply reach_init|by eapply (step_call (initial 2) 0)|by vm_compute].
Qed.

Lemma spinlock_mutual_exclusion_witness :
  spinlock_is_locked (word handed_over) = true /\
  forall j, cpus handed_over !! j = Some Critical -> j = 1%nat.
Proof.
  destruct (spinlock_mutual_exclusion 2 handed_over handed_over_reachable) as (Hu & Hw & _).
  split; [apply Hw; by exists 1%nat|]. intros j Hj. by apply (Hu j 1%nat).
Defined.

End SMP.
