(* ===== verification/Mem.v ===== *)
(** * Byte memory and the mem* routines

    Models [memset], [memcpy], [memcmp] and [memmove] of src/lib/string.c on
    a byte-addressed memory.  The C routines copy unaligned edges byte by
    byte and the middle by 32-bit words, four at a time; each loop is a
    definition of its own.  The theorems show that they implement the plain
    byte-by-byte specifications [filled] and [copied], [memmove] for every
    overlap of source and destination. *)

From S2P Require Import Prelude.

(** ** Memory *)

Abbreviation mem := (gmap Z Z).

(** A byte load; bytes never written read as zero. *)
Definition rd (m : mem) (p : Z) : Z := u8 (default 0 (m !! p)).

Definition wr (m : mem) (p v : Z) : mem := <[p := u8 v]> m.

(** Little-endian 32-bit loads and stores. *)
Definition rd32 (m : mem) (p : Z) : Z :=
  rd m p + 2 ^ 8 * rd m (p + 1) + 2 ^ 16 * rd m (p + 2) + 2 ^ 24 * rd m (p + 3).

Definition wr32 (m : mem) (p v : Z) : mem :=
  wr (wr (wr (wr m p v) (p + 1) (Z.shiftr v 8)) (p + 2) (Z.shiftr v 16))
     (p + 3) (Z.shiftr v 24).

Lemma rd_range m p : 0 <= rd m p < 256.
Proof. unfold rd, u8. change (2 ^ 8) with 256. apply Z.mod_pos_bound. lia. Qed.

Lemma rd_wr m p q v : rd (wr m p v) q = if p =? q then u8 v else rd m q.
Proof.
  unfold rd, wr. destruct (p =? q) eqn:E; zify_bool.
  - subst. rewrite lookup_insert_eq. simpl. unfold u8. by rewrite Z.mod_mod.
  - by rewrite lookup_insert_ne.
Qed.

Lemma rd_wr32 m p q v :
  rd (wr32 m p v) q =
    if (p <=? q) && (q <? p + 4) then u8 (Z.shiftr v (8 * (q - p))) else rd m q.
Proof.
  unfold wr32. rewrite !rd_wr.
  destruct ((p <=? q) && (q <? p + 4)) eqn:E; zify_bool.
  - assert (q - p = 0 \/ q - p = 1 \/ q - p = 2 \/ q - p = 3) as Hq by lia.
    destruct Hq as [Hq | [Hq | [Hq | Hq]]]; rewrite Hq; zcases.
  - zcases.
Qed.

Lemma u8_shiftr_rd32 m p k :
  0 <= k < 4 -> u8 (Z.shiftr (rd32 m p) (8 * k)) = rd m (p + k).
Proof.
  intros Hk. rewrite Z.shiftr_div_pow2 by lia. unfold rd32, u8.
  pose proof (rd_range m p). pose proof (rd_range m (p + 1)).
  pose proof (rd_range m (p + 2)). pose proof (rd_range m (p + 3)).
  assert (k = 0 \/ k = 1 \/ k = 2 \/ k = 3) as [-> | [-> | [-> | ->]]] by lia.
  - change (2 ^ (8 * 0)) with 1. replace (p + 0) with p by lia. Z.to_euclidean_division_equations. lia.
  - change (2 ^ (8 * 1)) with 256. Z.to_euclidean_division_equations. lia.
  - change (2 ^ (8 * 2)) with 65536. Z.to_euclidean_division_equations. lia.
  - change (2 ^ (8 * 3)) with 16777216. Z.to_euclidean_division_equations. lia.
Qed.

(** ** Specifications *)

(** [m'] is [m] with [n] bytes from [p] set to [v]. *)
Definition filled (m m' : mem) (p v n : Z) : Prop :=
  forall q, rd m' q = if (p <=? q) && (q <? p + n) then v else rd m q.

(** [m'] is [m] with the [n] bytes at [s] copied to [d]. *)
Definition copied (m m' : mem) (d s n : Z) : Prop :=
  forall q, rd m' q = if (d <=? q) && (q <? d + n) then rd m (s + (q - d)) else rd m q.

(** ** memset *)

(** while ((p & 3) && num > 0) { *p++ = v; num--; } *)
Fixpoint memset_head (num : nat) (m : mem) (p v : Z) : mem * Z * nat :=
  match num with
  | O => (m, p, O)
  | S n => if Z.land p 3 =? 0 then (m, p, num) else memset_head n (wr m p v) (p + 1) v
  end.

(** while (count--) *p32++ = v32; *)
Fixpoint memset_words (count : nat) (m : mem) (p v32 : Z) : mem * Z :=
  match count with
  | O => (m, p)
  | S c => memset_words c (wr32 m p v32) (p + 4) v32
  end.

(** while (count >= 4) { four words }, then the word loop. *)
Fixpoint memset_words4 (count : nat) (m : mem) (p v32 : Z) : mem * Z :=
  match count with
  | S (S (S (S c))) =>
      let m := wr32 m p v32 in
      let m := wr32 m (p + 4) v32 in
      let m := wr32 m (p + 8) v32 in
      let m := wr32 m (p + 12) v32 in
      memset_words4 c m (p + 16) v32
  | _ => memset_words count m p v32
  end.

(** while (num--) *p++ = v; *)
Fixpoint memset_bytes (num : nat) (m : mem) (p v : Z) : mem :=
  match num with
  | O => m
  | S n => memset_bytes n (wr m p v) (p + 1) v
  end.

(** The replicated byte of the word loop:
    v | (v << 8) | (v << 16) | (v << 24). *)
Definition memset_word (v : Z) : Z :=
  u32 (Z.lor (Z.lor (Z.lor v (Z.shiftl v 8)) (Z.shiftl v 16)) (Z.shiftl v 24)).

Definition memset (m : mem) (ptr value : Z) (num : nat) : mem :=
  let v := u8 value in
  let '(m, p, num) := memset_head num m ptr v in
  let '(m, p, num) :=
    if (4 <=? num)%nat then
      let '(m, p) := memset_words4 (num / 4)%nat m p (memset_word v) in
      (m, p, (num mod 4)%nat)
    else (m, p, num) in
  memset_bytes num m p v.

Lemma filled_nil m p v : filled m m p v 0.
Proof. intros q. case_if; [lia|done]. Qed.

Lemma filled_app m m1 m2 p v j k :
  0 <= j -> 0 <= k -> filled m m1 p v j -> filled m1 m2 (p + j) v k -> filled m m2 p v (j + k).
Proof.
  intros Hj Hk H1 H2 q. rewrite H2, H1. zcases.
Qed.

Lemma filled_byte m p v : 0 <= v < 256 -> filled m (wr m p v) p v 1.
Proof.
  intros Hv q. rewrite rd_wr. unfold u8. rewrite Z.mod_small by lia. zcases.
Qed.

Lemma memset_word_byte v k :
  0 <= v < 256 -> 0 <= k < 4 -> u8 (Z.shiftr (memset_word v) (8 * k)) = v.
Proof.
  intros Hv Hk.
  assert (forallb (fun v => forallb (fun k => u8 (Z.shiftr (memset_word v) (8 * k)) =? v)
            (seqZ 0 4)) (seqZ 0 256) = true) as H by (vm_compute; reflexivity).
  rewrite forallb_forall in H. specialize (H v). rewrite forallb_forall in H.
  apply Z.eqb_eq, H; apply list_elem_of_In, elem_of_seqZ; lia.
Qed.

Lemma filled_word m p v : 0 <= v < 256 -> filled m (wr32 m p (memset_word v)) p v 4.
Proof.
  intros Hv q. rewrite rd_wr32. destruct ((p <=? q) && (q <? p + 4)) eqn:E; [|done].
  apply memset_word_byte; lia.
Qed.

Lemma memset_head_spec num : forall m p v m' p' num',
  0 <= v < 256 -> memset_head num m p v = (m', p', num') ->
  exists k, p' = p + Z.of_nat k /\ (num = k + num')%nat /\ filled m m' p v (Z.of_nat k).
Proof.
  induction num as [|n IH]; intros m p v m' p' num' Hv H; simpl in H.
  - simplify_eq. exists O. split_and!; [lia|lia|apply filled_nil].
  - case_if_in H; [simplify_eq; exists O; split_and!; [lia|lia|apply filled_nil]|].
    apply IH in H as (k & -> & -> & Hf); [|done]. exists (S k).
    split_and!; [lia|lia|].
    replace (Z.of_nat (S k)) with (1 + Z.of_nat k) by lia.
    eapply filled_app; [lia|lia|by apply filled_byte|done].
Qed.

Lemma memset_words_spec count : forall m p v m' p',
  0 <= v < 256 -> memset_words count m p (memset_word v) = (m', p') ->
  p' = p + 4 * Z.of_nat count /\ filled m m' p v (4 * Z.of_nat count).
Proof.
  induction count as [|c IH]; intros m p v m' p' Hv H; simpl in H.
  - simplify_eq. split; [lia|apply filled_nil].
  - apply IH in H as [-> Hf]; [|done]. split; [lia|].
    replace (4 * Z.of_nat (S c)) with (4 + 4 * Z.of_nat c) by lia.
    eapply filled_app; [lia|lia|by apply filled_word|done].
Qed.

(** The unrolled loop does what the simple word loop does. *)
Lemma memset_words4_eq n : forall count m p v32,
  (count <= n)%nat -> memset_words4 count m p v32 = memset_words count m p v32.
Proof.
  induction n as [|n IH]; intros count m p v32 Hc.
  - by destruct count; [|lia].
  - destruct count as [|[|[|[|c]]]]; try done. simpl. rewrite IH by lia.
    f_equal; [|lia]. repeat (f_equal; try lia).
Qed.

Lemma memset_bytes_spec num : forall m p v,
  0 <= v < 256 -> filled m (memset_bytes num m p v) p v (Z.of_nat num).
Proof.
  induction num as [|n IH]; intros m p v Hv; simpl; [apply filled_nil|].
  replace (Z.of_nat (S n)) with (1 + Z.of_nat n) by lia.
  eapply filled_app; [lia|lia|by apply filled_byte|by apply IH].
Qed.

Lemma memset_filled m ptr value num :
  filled m (memset m ptr value num) ptr (u8 value) (Z.of_nat num).
Proof.
  assert (0 <= u8 value < 256) as Hv by (apply (Z.mod_pos_bound value 256); lia).
  unfold memset. destruct (memset_head num m ptr (u8 value)) as [[m1 p1] n1] eqn:E1.
  apply memset_head_spec in E1 as (k & -> & -> & H1); [|done].
  rewrite Nat2Z.inj_add. eapply filled_app; [lia|lia|exact H1|].
  destruct (4 <=? n1)%nat eqn:E4; [|by apply memset_bytes_spec].
  rewrite (memset_words4_eq (n1 / 4)) by lia.
  destruct (memset_words _ _ _ _) as [m2 p2] eqn:E2.
  apply memset_words_spec in E2 as [-> H2]; [|done].
  replace (Z.of_nat n1) with (4 * Z.of_nat (n1 / 4) + Z.of_nat (n1 mod 4))
    by (pose proof (Nat.div_mod_eq n1 4); lia).
  eapply filled_app; [lia|lia|exact H2|by apply memset_bytes_spec].
Qed.

(** ** memcpy *)

(** while ((d & 3) && num > 0) { *d++ = *s++; num--; } *)
Fixpoint memcpy_head (num : nat) (m : mem) (d s : Z) : mem * Z * Z * nat :=
  match num with
  | O => (m, d, s, O)
  | S n =>
      if Z.land d 3 =? 0 then (m, d, s, num)
      else memcpy_head n (wr m d (rd m s)) (d + 1) (s + 1)
  end.

(** while (count--) *d32++ = *s32++; *)
Fixpoint memcpy_words (count : nat) (m : mem) (d s : Z) : mem * Z * Z :=
  match count with
  | O => (m, d, s)
  | S c => memcpy_words c (wr32 m d (rd32 m s)) (d + 4) (s + 4)
  end.

Fixpoint memcpy_words4 (count : nat) (m : mem) (d s : Z) : mem * Z * Z :=
  match count with
  | S (S (S (S c))) =>
      let m := wr32 m d (rd32 m s) in
      let m := wr32 m (d + 4) (rd32 m (s + 4)) in
      let m := wr32 m (d + 8) (rd32 m (s + 8)) in
      let m := wr32 m (d + 12) (rd32 m (s + 12)) in
      memcpy_words4 c m (d + 16) (s + 16)
  | _ => memcpy_words count m d s
  end.

(** while (num--) *d++ = *s++; *)
Fixpoint memcpy_bytes (num : nat) (m : mem) (d s : Z) : mem :=
  match num with
  | O => m
  | S n => memcpy_bytes n (wr m d (rd m s)) (d + 1) (s + 1)
  end.

Definition memcpy (m : mem) (dest src : Z) (num : nat) : mem :=
  let '(m, d, s, num) :=
    if Z.land (Z.lxor dest src) 3 =? 0 then
      let '(m, d, s, num) := memcpy_head num m dest src in
      if (4 <=? num)%nat then
        let '(m, d, s) := memcpy_words4 (num / 4)%nat m d s in
        (m, d, s, (num mod 4)%nat)
      else (m, d, s, num)
    else (m, dest, src, num) in
  memcpy_bytes num m d s.

(** ** memcmp *)

Fixpoint memcmp (m : mem) (p1 p2 : Z) (num : nat) : Z :=
  match num with
  | O => 0
  | S n =>
      if rd m p1 =? rd m p2 then memcmp m (p1 + 1) (p2 + 1) n
      else rd m p1 - rd m p2
  end.

(** ** memmove *)

(** while ((d & 3) && num > 0) { *--d = *--s; num--; } *)
Fixpoint memmove_tail (num : nat) (m : mem) (d s : Z) : mem * Z * Z * nat :=
  match num with
  | O => (m, d, s, O)
  | S n =>
      if Z.land d 3 =? 0 then (m, d, s, num)
      else memmove_tail n (wr m (d - 1) (rd m (s - 1))) (d - 1) (s - 1)
  end.

Fixpoint memmove_words (count : nat) (m : mem) (d s : Z) : mem * Z * Z :=
  match count with
  | O => (m, d, s)
  | S c => memmove_words c (wr32 m (d - 4) (rd32 m (s - 4))) (d - 4) (s - 4)
  end.

Fixpoint memmove_words4 (count : nat) (m : mem) (d s : Z) : mem * Z * Z :=
  match count with
  | S (S (S (S c))) =>
      let d := d - 16 in
      let s := s - 16 in
      let m := wr32 m (d + 12) (rd32 m (s + 12)) in
      let m := wr32 m (d + 8) (rd32 m (s + 8)) in
      let m := wr32 m (d + 4) (rd32 m (s + 4)) in
      let m := wr32 m d (rd32 m s) in
      memmove_words4 c m d s
  | _ => memmove_words count m d s
  end.

Fixpoint memmove_bytes (num : nat) (m : mem) (d s : Z) : mem :=
  match num with
  | O => m
  | S n => memmove_bytes n (wr m (d - 1) (rd m (s - 1))) (d - 1) (s - 1)
  end.

Definition memmove (m : mem) (dest src : Z) (num : nat) : mem :=
  if (dest <? src) || (src + Z.of_nat num <=? dest) then memcpy m dest src num
  else
    let d := dest + Z.of_nat num in
    let s := src + Z.of_nat num in
    let '(m, d, s, num) :=
      if Z.land (Z.lxor d s) 3 =? 0 then
        let '(m, d, s, num) := memmove_tail num m d s in
        if (4 <=? num)%nat then
          let '(m, d, s) := memmove_words4 (num / 4)%nat m d s in
          (m, d, s, (num mod 4)%nat)
        else (m, d, s, num)
      else (m, d, s, num) in
    memmove_bytes num m d s.

(** ** Forward copies *)

(** The places a forward copy of [n] bytes may be used: the destination is
    at or below the source, or beyond its end. *)
Definition fwd_safe (d s n : Z) : Prop := d <= s \/ s + n <= d.

Lemma copied_nil m d s : copied m m d s 0.
Proof. intros q. zcases. Qed.

Lemma copied_byte m d s : copied m (wr m d (rd m s)) d s 1.
Proof.
  intros q. rewrite rd_wr. unfold u8. pose proof (rd_range m s).
  rewrite Z.mod_small by lia. zcases. f_equal; lia.
Qed.

Lemma copied_word m d s : copied m (wr32 m d (rd32 m s)) d s 4.
Proof.
  intros q. rewrite rd_wr32. destruct ((d <=? q) && (q <? d + 4)) eqn:E; [|done].
  apply u8_shiftr_rd32. lia.
Qed.

Lemma copied_app m m1 m2 d s j k :
  0 <= j -> 0 <= k -> fwd_safe d s (j + k) ->
  copied m m1 d s j -> copied m1 m2 (d + j) (s + j) k -> copied m m2 d s (j + k).
Proof.
  unfold fwd_safe. intros Hj Hk Hs H1 H2 q. rewrite H2.
  repeat case_if; rewrite H1; zcases. f_equal; lia.
Qed.

Lemma memcpy_head_spec num : forall m d s m' d' s' num',
  fwd_safe d s (Z.of_nat num) -> memcpy_head num m d s = (m', d', s', num') ->
  exists k, d' = d + Z.of_nat k /\ s' = s + Z.of_nat k /\ (num = k + num')%nat /\
    copied m m' d s (Z.of_nat k).
Proof.
  induction num as [|n IH]; intros m d s m' d' s' num' Hs H; simpl in H.
  - simplify_eq. exists O. split_and!; try lia. apply copied_nil.
  - case_if_in H; [simplify_eq; exists O; split_and!; try lia; apply copied_nil|].
    apply IH in H as (k & -> & -> & -> & Hf); [|unfold fwd_safe in *; lia].
    exists (S k). split_and!; try lia.
    replace (Z.of_nat (S k)) with (1 + Z.of_nat k) by lia.
    eapply copied_app; [lia|lia|unfold fwd_safe in *; lia|apply copied_byte|done].
Qed.

Lemma memcpy_words_spec count : forall m d s m' d' s',
  fwd_safe d s (4 * Z.of_nat count) -> memcpy_words count m d s = (m', d', s') ->
  d' = d + 4 * Z.of_nat count /\ s' = s + 4 * Z.of_nat count /\
  copied m m' d s (4 * Z.of_nat count).
Proof.
  induction count as [|c IH]; intros m d s m' d' s' Hs H; simpl in H.
  - simplify_eq. split_and!; try lia. apply copied_nil.
  - apply IH in H as (-> & -> & Hf); [|unfold fwd_safe in *; lia]. split_and!; try lia.
    replace (4 * Z.of_nat (S c)) with (4 + 4 * Z.of_nat c) by lia.
    eapply copied_app; [lia|lia|unfold fwd_safe in *; lia|apply copied_word|done].
Qed.

Lemma memcpy_words4_eq n : forall count m d s,
  (count <= n)%nat -> memcpy_words4 count m d s = memcpy_words count m d s.
Proof.
  induction n as [|n IH]; intros count m d s Hc.
  - by destruct count; [|lia].
  - destruct count as [|[|[|[|c]]]]; try done. simpl. rewrite IH by lia.
    repeat (f_equal; try lia).
Qed.

Lemma memcpy_bytes_spec num : forall m d s,
  fwd_safe d s (Z.of_nat num) -> copied m (memcpy_bytes num m d s) d s (Z.of_nat num).
Proof.
  induction num as [|n IH]; intros m d s Hs; simpl; [apply copied_nil|].
  replace (Z.of_nat (S n)) with (1 + Z.of_nat n) by lia.
  eapply copied_app; [lia|lia|unfold fwd_safe in *; lia|apply copied_byte|].
  apply IH. unfold fwd_safe in *. lia.
Qed.

Lemma memcpy_copied m dest src num :
  fwd_safe dest src (Z.of_nat num) ->
  copied m (memcpy m dest src num) dest src (Z.of_nat num).
Proof.
  intros Hs. unfold memcpy. case_if; [|by apply memcpy_bytes_spec].
  destruct (memcpy_head num m dest src) as [[[m1 d1] s1] n1] eqn:E1.
  apply memcpy_head_spec in E1 as (k & -> & -> & -> & H1); [|done].
  rewrite Nat2Z.inj_add in *. unfold fwd_safe in *.
  destruct (4 <=? n1)%nat eqn:E4.
  - rewrite (memcpy_words4_eq (n1 / 4)) by lia.
    destruct (memcpy_words _ _ _ _) as [[m2 d2] s2] eqn:E2.
    pose proof (Nat.div_mod_eq n1 4).
    apply memcpy_words_spec in E2 as (-> & -> & H2); [|unfold fwd_safe; lia].
    eapply copied_app; [lia|lia|unfold fwd_safe; lia|exact H1|].
    replace (Z.of_nat n1) with (4 * Z.of_nat (n1 / 4) + Z.of_nat (n1 mod 4)) by lia.
    eapply copied_app; [lia|lia|unfold fwd_safe; lia|exact H2|].
    apply memcpy_bytes_spec. unfold fwd_safe. lia.
  - eapply copied_app; [lia|lia|unfold fwd_safe; lia|exact H1|].
    apply memcpy_bytes_spec. unfold fwd_safe. lia.
Qed.

(** ** Backward copies *)

Lemma copied_app_back m m1 m2 d s j k :
  0 <= j -> 0 <= k -> s <= d ->
  copied m m1 (d - j) (s - j) j -> copied m1 m2 (d - j - k) (s - j - k) k ->
  copied m m2 (d - (j + k)) (s - (j + k)) (j + k).
Proof.
  intros Hj Hk Hs H1 H2 q. rewrite H2. repeat case_if; rewrite H1; zcases; f_equal; lia.
Qed.

Lemma copied_nil_back m d s : copied m m (d - 0) (s - 0) 0.
Proof. apply copied_nil. Qed.

Lemma memmove_tail_spec num : forall m d s m' d' s' num',
  s <= d -> memmove_tail num m d s = (m', d', s', num') ->
  exists k, d' = d - Z.of_nat k /\ s' = s - Z.of_nat k /\ (num = k + num')%nat /\
    copied m m' (d - Z.of_nat k) (s - Z.of_nat k) (Z.of_nat k).
Proof.
  induction num as [|n IH]; intros m d s m' d' s' num' Hs H; simpl in H.
  - simplify_eq. exists O. split_and!; try lia. apply copied_nil.
  - case_if_in H; [simplify_eq; exists O; split_and!; try lia; apply copied_nil|].
    apply IH in H as (k & -> & -> & -> & Hf); [|lia].
    exists (S k). split_and!; try lia.
    replace (Z.of_nat (S k)) with (1 + Z.of_nat k) by lia.
    eapply copied_app_back; [lia|lia|lia|apply copied_byte|done].
Qed.

Lemma memmove_words_spec count : forall m d s m' d' s',
  s <= d -> memmove_words count m d s = (m', d', s') ->
  d' = d - 4 * Z.of_nat count /\ s' = s - 4 * Z.of_nat count /\
  copied m m' (d - 4 * Z.of_nat count) (s - 4 * Z.of_nat count) (4 * Z.of_nat count).
Proof.
  induction count as [|c IH]; intros m d s m' d' s' Hs H; simpl in H.
  - simplify_eq. split_and!; try lia. apply copied_nil.
  - apply IH in H as (-> & -> & Hf); [|lia]. split_and!; try lia.
    replace (4 * Z.of_nat (S c)) with (4 + 4 * Z.of_nat c) by lia.
    eapply copied_app_back; [lia|lia|lia|apply copied_word|done].
Qed.

Lemma memmove_words4_eq n : forall count m d s,
  (count <= n)%nat -> memmove_words4 count m d s = memmove_words count m d s.
Proof.
  induction n as [|n IH]; intros count m d s Hc.
  - by destruct count; [|lia].
  - destruct count as [|[|[|[|c]]]]; try done. simpl. rewrite IH by lia.
    replace (d - 16 + 12) with (d - 4) by lia. replace (s - 16 + 12) with (s - 4) by lia.
    replace (d - 16 + 8) with (d - 4 - 4) by lia. replace (s - 16 + 8) with (s - 4 - 4) by lia.
    replace (d - 16 + 4) with (d - 4 - 4 - 4) by lia. replace (s - 16 + 4) with (s - 4 - 4 - 4) by lia.
    replace (d - 16) with (d - 4 - 4 - 4 - 4) by lia. by replace (s - 16) with (s - 4 - 4 - 4 - 4) by lia.
Qed.

Lemma memmove_bytes_spec num : forall m d s,
  s <= d ->
  copied m (memmove_bytes num m d s) (d - Z.of_nat num) (s - Z.of_nat num) (Z.of_nat num).
Proof.
  induction num as [|n IH]; intros m d s Hs; simpl; [apply copied_nil|].
  replace (Z.of_nat (S n)) with (1 + Z.of_nat n) by lia.
  eapply copied_app_back; [lia|lia|lia|apply copied_byte|]. apply IH. lia.
Qed.

(** The overlapping branch of [memmove], from the end pointers. *)
Lemma memmove_back m d s num :
  s <= d ->
  copied m
    (let '(m, d, s, num) :=
       if Z.land (Z.lxor d s) 3 =? 0 then
         let '(m, d, s, num) := memmove_tail num m d s in
         if (4 <=? num)%nat then
           let '(m, d, s) := memmove_words4 (num / 4)%nat m d s in
           (m, d, s, (num mod 4)%nat)
         else (m, d, s, num)
       else (m, d, s, num) in
     memmove_bytes num m d s)
    (d - Z.of_nat num) (s - Z.of_nat num) (Z.of_nat num).
Proof.
  intros Hs. case_if; [|by apply memmove_bytes_spec].
  destruct (memmove_tail num m d s) as [[[m1 d1] s1] n1] eqn:E1.
  apply memmove_tail_spec in E1 as (k & -> & -> & -> & H1); [|done].
  rewrite Nat2Z.inj_add.
  destruct (4 <=? n1)%nat eqn:E4.
  - rewrite (memmove_words4_eq (n1 / 4)) by lia.
    destruct (memmove_words _ _ _ _) as [[m2 d2] s2] eqn:E2.
    pose proof (Nat.div_mod_eq n1 4).
    apply memmove_words_spec in E2 as (-> & -> & H2); [|lia].
    eapply copied_app_back; [lia|lia|lia|exact H1|].
    replace (Z.of_nat n1) with (4 * Z.of_nat (n1 / 4) + Z.of_nat (n1 mod 4)) by lia.
    eapply copied_app_back; [lia|lia|lia|exact H2|]. apply memmove_bytes_spec. lia.
  - eapply copied_app_back; [lia|lia|lia|exact H1|]. apply memmove_bytes_spec. lia.
Qed.

(** ** Theorems *)

(** C15: Equivalence with the byte-by-byte specification: [memset] sets exactly the [num] bytes
    from [ptr] to the low byte of [value]; [memmove] moves exactly [num]
    bytes, reading the source as it was before the call, however source and
    destination overlap and whatever their alignments are. *)
Theorem memset_memmove_correct m p q v n :
  filled m (memset m p v n) p (u8 v) (Z.of_nat n) /\
  copied m (memmove m p q n) p q (Z.of_nat n).
Proof.
  split; [apply memset_filled|]. unfold memmove. case_if.
  - apply memcpy_copied. unfold fwd_safe. lia.
  - pose proof (memmove_back m (p + Z.of_nat n) (q + Z.of_nat n) n) as Hb.
    replace (p + Z.of_nat n - Z.of_nat n) with p in Hb by lia.
    replace (q + Z.of_nat n - Z.of_nat n) with q in Hb by lia. apply Hb. lia.
Qed.

Lemma memcmp_zero m p1 p2 num :
  memcmp m p1 p2 num = 0 <->
  forall i, 0 <= i < Z.of_nat num -> rd m (p1 + i) = rd m (p2 + i).
Proof.
  revert p1 p2. induction num as [|n IH]; intros p1 p2; simpl; [split; [lia|done]|].
  destruct (rd m p1 =? rd m p2) eqn:E; zify_bool.
  - rewrite IH. split; intros H i Hi.
    + destruct (decide (i = 0)) as [->|]; [by rewrite !Z.add_0_r|].
      replace (p1 + i) with (p1 + 1 + (i - 1)) by lia.
      replace (p2 + i) with (p2 + 1 + (i - 1)) by lia. apply H. lia.
    + rewrite <- !Z.add_assoc. apply H. lia.
  - split; [lia|]. intros Heq. specialize (Heq 0 ltac:(lia)). by rewrite !Z.add_0_r in Heq.
Qed.
