(* ===== verification/KString.v ===== *)
(** * C strings and number printing

    Models the string routines of src/lib/string.c on the byte memory of
    [Mem].  A loop that runs to the terminating NUL takes fuel and is [None]
    when the fuel runs out; the lemmas show that the length of the string
    plus one is enough.  Characters are bytes; the C code only compares them
    for equality, with ['\0'] and with ASCII letters, so the signedness of
    [char] plays no part. *)

From S2P Require Import Prelude Mem.

(** [l] are the characters of the NUL-terminated string at [p]. *)
Fixpoint cstr (m : mem) (p : Z) (l : list Z) : Prop :=
  match l with
  | [] => rd m p = 0
  | c :: l => rd m p = c /\ c <> 0 /\ cstr m (p + 1) l
  end.

(** Writes a list of bytes from [p] on. *)
Fixpoint wr_list (m : mem) (p : Z) (l : list Z) : mem :=
  match l with
  | [] => m
  | c :: l => wr_list (wr m p c) (p + 1) l
  end.

(** ** Scanning and comparing *)

Fixpoint strlen_loop (fuel : nat) (m : mem) (str len : Z) : option Z :=
  match fuel with
  | O => None
  | S fuel => if rd m (str + len) =? 0 then Some len else strlen_loop fuel m str (len + 1)
  end.

Definition strlen (fuel : nat) (m : mem) (str : Z) : option Z := strlen_loop fuel m str 0.

Fixpoint strcmp (fuel : nat) (m : mem) (s1 s2 : Z) : option Z :=
  match fuel with
  | O => None
  | S fuel =>
      if negb (rd m s1 =? 0) && (rd m s1 =? rd m s2) then strcmp fuel m (s1 + 1) (s2 + 1)
      else Some (rd m s1 - rd m s2)
  end.

Fixpoint strncmp (m : mem) (s1 s2 : Z) (n : nat) : Z :=
  match n with
  | O => 0
  | S n =>
      if negb (rd m s1 =? 0) && (rd m s1 =? rd m s2) then strncmp m (s1 + 1) (s2 + 1) n
      else rd m s1 - rd m s2
  end.

Definition to_lower (c : Z) : Z := if (65 <=? c) && (c <=? 90) then c + (97 - 65) else c.

Fixpoint strcasecmp (fuel : nat) (m : mem) (s1 s2 : Z) : option Z :=
  match fuel with
  | O => None
  | S fuel =>
      if negb (rd m s1 =? 0) && negb (rd m s2 =? 0) then
        let c1 := to_lower (rd m s1) in
        let c2 := to_lower (rd m s2) in
        if negb (c1 =? c2) then Some (c1 - c2) else strcasecmp fuel m (s1 + 1) (s2 + 1)
      else Some (to_lower (rd m s1) - to_lower (rd m s2))
  end.

Definition toupper (c : Z) : Z := if (97 <=? c) && (c <=? 122) then c - (97 - 65) else c.
Definition tolower (c : Z) : Z := if (65 <=? c) && (c <=? 90) then c + (97 - 65) else c.

(** [strchr] and [strrchr] return an address, 0 for [NULL]. *)
Fixpoint strchr (fuel : nat) (m : mem) (str c : Z) : option Z :=
  match fuel with
  | O => None
  | S fuel =>
      if rd m str =? 0 then Some (if u8 c =? 0 then str else 0)
      else if rd m str =? u8 c then Some str
      else strchr fuel m (str + 1) c
  end.

Fixpoint strrchr_loop (fuel : nat) (m : mem) (str c last : Z) : option Z :=
  match fuel with
  | O => None
  | S fuel =>
      if rd m str =? 0 then Some (if u8 c =? 0 then str else last)
      else strrchr_loop fuel m (str + 1) c (if rd m str =? u8 c then str else last)
  end.

Definition strrchr (fuel : nat) (m : mem) (str c : Z) : option Z := strrchr_loop fuel m str c 0.

(** ** Copying *)

(** while (( *dest++ = *src++)); *)
Fixpoint strcpy (fuel : nat) (m : mem) (dest src : Z) : option mem :=
  match fuel with
  | O => None
  | S fuel =>
      let c := rd m src in
      let m := wr m dest c in
      if c =? 0 then Some m else strcpy fuel m (dest + 1) (src + 1)
  end.

(** while ( *dest) dest++; *)
Fixpoint str_end (fuel : nat) (m : mem) (dest : Z) : option Z :=
  match fuel with
  | O => None
  | S fuel => if rd m dest =? 0 then Some dest else str_end fuel m (dest + 1)
  end.

Definition strcat (fuel : nat) (m : mem) (dest src : Z) : option mem :=
  e ← str_end fuel m dest; strcpy fuel m e src.

(** The padding loop of [strncpy]. *)
Fixpoint strncpy_pad (m : mem) (dest : Z) (n : nat) : mem :=
  match n with
  | O => m
  | S n => strncpy_pad (wr m dest 0) (dest + 1) n
  end.

Fixpoint strncpy (m : mem) (dest src : Z) (n : nat) : mem :=
  match n with
  | O => m
  | S n' =>
      if rd m src =? 0 then strncpy_pad m dest n
      else strncpy (wr m dest (rd m src)) (dest + 1) (src + 1) n'
  end.

(** ** strtok *)

(** Whether the character [c] is one of the delimiters at [d]. *)
Fixpoint is_delim (fuel : nat) (m : mem) (c d : Z) : option bool :=
  match fuel with
  | O => None
  | S fuel =>
      if rd m d =? 0 then Some false
      else if c =? rd m d then Some true
      else is_delim fuel m c (d + 1)
  end.

(** Skips delimiters; the address of the first other character or of the NUL. *)
Fixpoint strtok_skip (fuel : nat) (m : mem) (saved delim : Z) : option Z :=
  match fuel with
  | O => None
  | S fuel' =>
      if rd m saved =? 0 then Some saved
      else
        b ← is_delim fuel m (rd m saved) delim;
        if (b : bool) then strtok_skip fuel' m (saved + 1) delim else Some saved
  end.

(** Runs to the end of the token; new memory and [saved_str] (0 for [NULL]). *)
Fixpoint strtok_end (fuel : nat) (m : mem) (saved delim : Z) : option (mem * Z) :=
  match fuel with
  | O => None
  | S fuel' =>
      if rd m saved =? 0 then Some (m, 0)
      else
        b ← is_delim fuel m (rd m saved) delim;
        if (b : bool) then Some (wr m saved 0, saved + 1)
        else strtok_end fuel' m (saved + 1) delim
  end.

(** [saved] is the static [saved_str]; the result is the token (0 for
    [NULL]), the memory and the new [saved_str]. *)
Definition strtok (fuel : nat) (m : mem) (saved str delim : Z) : option (Z * mem * Z) :=
  let saved := if negb (str =? 0) then str else saved in
  if saved =? 0 then Some (0, m, saved)
  else
    saved ← strtok_skip fuel m saved delim;
    if rd m saved =? 0 then Some (0, m, 0)
    else
      '(m, saved') ← strtok_end fuel m saved delim;
      Some (saved, m, saved').

(** ** Number printing *)

(** do { temp[i++] = '0' + value % 10; value /= 10; } while (value > 0);
    [temp] as a list, most recent digit first, which is the order in which
    the reversing loop copies it out. *)
Fixpoint dec_digits (fuel : nat) (value : Z) (temp : list Z) : option (list Z) :=
  match fuel with
  | O => None
  | S fuel =>
      let temp := (48 + value mod 10) :: temp in
      let value := value / 10 in
      if 0 <? value then dec_digits fuel value temp else Some temp
  end.

Definition uint_to_str (fuel : nat) (m : mem) (value buffer : Z) : option mem :=
  if value =? 0 then Some (wr (wr m buffer 48) (buffer + 1) 0)
  else
    temp ← dec_digits fuel value [];
    Some (wr (wr_list m buffer temp) (buffer + Z.of_nat (length temp)) 0).

(** The fuel is the size of the C array [temp]. *)
Definition uint32_to_str (m : mem) (value buffer : Z) : option mem := uint_to_str 11 m value buffer.
Definition uint64_to_str (m : mem) (value buffer : Z) : option mem := uint_to_str 21 m value buffer.

Definition int32_to_str (m : mem) (value buffer : Z) : option mem :=
  if value <? 0 then uint32_to_str (wr m buffer 45) (u32 (- value)) (buffer + 1)
  else uint32_to_str m (u32 value) buffer.

Definition int64_to_str (m : mem) (value buffer : Z) : option mem :=
  if value <? 0 then uint64_to_str (wr m buffer 45) (u64 (- value)) (buffer + 1)
  else uint64_to_str m (u64 value) buffer.

(** hex[d] for the lower- or upper-case digit string. *)
Definition hex_char (uppercase : bool) (d : Z) : Z :=
  if d <? 10 then 48 + d else (if uppercase then 65 else 97) + (d - 10).

(** while (value > 0 && i < room) { temp[i++] = hex[value & 0xF]; value >>= 4; } *)
Fixpoint hex_digits (room : nat) (uppercase : bool) (value : Z) (temp : list Z) : list Z :=
  match room with
  | O => temp
  | S room =>
      if 0 <? value
      then hex_digits room uppercase (Z.shiftr value 4) (hex_char uppercase (Z.land value 0xF) :: temp)
      else temp
  end.

Definition uint_to_hex (room : nat) (m : mem) (value buffer : Z) (uppercase : bool) : mem :=
  if value =? 0 then wr (wr m buffer 48) (buffer + 1) 0
  else
    let temp := hex_digits room uppercase value [] in
    wr (wr_list m buffer temp) (buffer + Z.of_nat (length temp)) 0.

Definition uint32_to_hex := uint_to_hex 8.
Definition uint64_to_hex := uint_to_hex 16.
Definition int32_to_hex (m : mem) (value buffer : Z) (uppercase : bool) : mem :=
  uint32_to_hex m (u32 value) buffer uppercase.
Definition int64_to_hex (m : mem) (value buffer : Z) (uppercase : bool) : mem :=
  uint64_to_hex m (u64 value) buffer uppercase.

(** for (int j = 0; j < min_digits && j < 8; j++) buffer[j] = '0'; *)
Definition zeros (min_digits : Z) : list Z :=
  replicate (Z.to_nat (Z.min min_digits 8)) 48.

(** while (i < min_digits && i < 8) temp[i++] = '0'; *)
Fixpoint hex_pad (room : nat) (min_digits : Z) (temp : list Z) : list Z :=
  match room with
  | O => temp
  | S room =>
      let i := Z.of_nat (length temp) in
      if (i <? min_digits) && (i <? 8) then hex_pad room min_digits (48 :: temp) else temp
  end.

(** The helper behind [%x] and [%X]. *)
Definition uint32_to_hex_simple (m : mem) (value buffer : Z) (uppercase : bool) (min_digits : Z) : mem :=
  if value =? 0 then
    wr (wr_list m buffer (zeros min_digits)) (buffer + (if 0 <? min_digits then min_digits else 1)) 0
  else
    let temp := hex_pad 8 min_digits (hex_digits 8 uppercase value []) in
    wr (wr_list m buffer temp) (buffer + Z.of_nat (length temp)) 0.

(** ** Lemmas on strings *)

Lemma cstr_ext m m' p p' l :
  (forall i, 0 <= i <= Z.of_nat (length l) -> rd m' (p' + i) = rd m (p + i)) ->
  cstr m p l -> cstr m' p' l.
Proof.
  revert p p'. induction l as [|c l IH]; intros p p' H; simpl in *.
  - intros <-. specialize (H 0 ltac:(lia)). by rewrite !Z.add_0_r in H.
  - intros (<- & Hc & Hl). pose proof (H 0 ltac:(lia)) as H0. rewrite !Z.add_0_r in H0.
    split_and!; [done|done|]. apply (IH (p + 1)); [|done].
    intros i Hi. rewrite <- !Z.add_assoc. apply H. lia.
Qed.

Lemma cstr_byte m p l i c : cstr m p l -> l !! i = Some c -> rd m (p + Z.of_nat i) = c /\ c <> 0.
Proof.
  revert p i. induction l as [|a l IH]; intros p i; [done|]. intros (Hp & Ha & Hl).
  destruct i as [|i]; simpl; intros ?; simplify_eq.
  - by rewrite Z.add_0_r.
  - apply (IH _ _ Hl) in H as [<- ?]. split; [f_equal; lia|done].
Qed.

Lemma cstr_nul m p l : cstr m p l -> rd m (p + Z.of_nat (length l)) = 0.
Proof.
  revert p. induction l as [|a l IH]; intros p; simpl; [by rewrite Z.add_0_r|].
  intros (_ & _ & Hl). apply IH in Hl. rewrite <- Hl. f_equal. lia.
Qed.

Lemma strlen_spec m p l fuel :
  cstr m p l -> (length l < fuel)%nat -> strlen fuel m p = Some (Z.of_nat (length l)).
Proof.
  unfold strlen. intros Hc Hf.
  assert (forall k, 0 <= k -> cstr m (p + k) l ->
    strlen_loop fuel m p k = Some (k + Z.of_nat (length l))) as G.
  { clear Hc. revert fuel Hf. induction l as [|c l IH]; intros [|fuel] Hf k Hk; simpl in *; try lia.
    - intros ->. simpl. f_equal. lia.
    - intros (-> & Hc & Hl). apply Z.eqb_neq in Hc as ->. rewrite (IH fuel); [f_equal; lia|lia|lia|].
      by rewrite Z.add_assoc. }
  rewrite (G 0); [done|lia|by rewrite Z.add_0_r].
Qed.

(** Lexicographic order on byte strings, a proper prefix being smaller. *)
Fixpoint str_compare (l1 l2 : list Z) : comparison :=
  match l1, l2 with
  | [], [] => Eq
  | [], _ => Lt
  | _, [] => Gt
  | a :: l1, b :: l2 => match a ?= b with Eq => str_compare l1 l2 | c => c end
  end.

Lemma str_compare_eq l1 l2 : str_compare l1 l2 = Eq <-> l1 = l2.
Proof.
  revert l2. induction l1 as [|a l1 IH]; intros [|b l2]; simpl; try (split; congruence).
  destruct (Z.compare_spec a b) as [->|H|H].
  - rewrite IH. split; congruence.
  - split; [done|]. intros [=]. lia.
  - split; [done|]. intros [=]. lia.
Qed.

Lemma strcmp_compare m : forall l1 l2 p1 p2 fuel,
  cstr m p1 l1 -> cstr m p2 l2 -> (length l1 < fuel)%nat ->
  exists r, strcmp fuel m p1 p2 = Some r /\ (r ?= 0) = str_compare l1 l2.
Proof.
  induction l1 as [|a l1 IH]; intros l2 p1 p2 [|fuel] H1 H2 Hf; simpl in *; try lia.
  - rewrite H1. simpl. eexists; split; [done|]. pose proof (rd_range m p2).
    destruct l2 as [|b l2]; simpl in *; [by rewrite H2|].
    destruct H2 as (<- & ? & ?). apply Z.compare_lt_iff. lia.
  - destruct H1 as (E1 & Ha & H1). pose proof (rd_range m p1). rewrite E1 in *.
    apply Z.eqb_neq in Ha as Ha'. rewrite Ha'. simpl.
    destruct l2 as [|b l2]; simpl in H2.
    + rewrite H2, Ha'. eexists; split; [done|]. apply Z.compare_gt_iff. lia.
    + destruct H2 as (E2 & Hb & H2). rewrite E2.
      destruct (Z.compare_spec a b) as [->|Hlt|Hgt].
      * rewrite Z.eqb_refl. apply IH; [done|done|lia].
      * assert ((a =? b) = false) as -> by (apply Z.eqb_neq; lia).
        eexists; split; [done|]. apply Z.compare_lt_iff. lia.
      * assert ((a =? b) = false) as -> by (apply Z.eqb_neq; lia).
        eexists; split; [done|]. apply Z.compare_gt_iff. lia.
Qed.

Lemma strcpy_copied : forall l m dest src fuel,
  cstr m src l -> (length l < fuel)%nat ->
  fwd_safe dest src (Z.of_nat (length l) + 1) ->
  exists m', strcpy fuel m dest src = Some m' /\
    copied m m' dest src (Z.of_nat (length l) + 1).
Proof.
  induction l as [|c l IH]; intros m dest src [|fuel] Hc Hf Hs; simpl in *; try lia.
  - rewrite Hc. simpl. eexists; split; [done|]. rewrite <- Hc. apply copied_byte.
  - destruct Hc as (E & Hne & Hl). rewrite E. apply Z.eqb_neq in Hne as ->.
    set (m1 := wr m dest c).
    assert (copied m m1 dest src 1) as H1 by (unfold m1; rewrite <- E; apply copied_byte).
    unfold fwd_safe in *.
    destruct (IH m1 (dest + 1) (src + 1) fuel) as (m' & -> & H2); [|lia|unfold fwd_safe; lia|].
    { apply (cstr_ext m _ (src + 1)); [|done]. intros i Hi. rewrite H1. zcases. }
    exists m'. split; [done|].
    replace (Z.of_nat (S (length l)) + 1) with (1 + (Z.of_nat (length l) + 1)) by lia.
    eapply copied_app; [lia|lia|unfold fwd_safe; lia|done|done].
Qed.

Lemma copied_cstr m m' d s l :
  copied m m' d s (Z.of_nat (length l) + 1) -> cstr m s l -> cstr m' d l.
Proof. intros Hc. apply cstr_ext. intros i Hi. rewrite Hc. zcases. f_equal. lia. Qed.

Lemma str_end_spec m : forall l p fuel,
  cstr m p l -> (length l < fuel)%nat -> str_end fuel m p = Some (p + Z.of_nat (length l)).
Proof.
  induction l as [|c l IH]; intros p [|fuel] Hc Hf; simpl in *; try lia.
  - rewrite Hc. simpl. f_equal. lia.
  - destruct Hc as (-> & Hne & Hl). apply Z.eqb_neq in Hne as ->.
    rewrite (IH (p + 1) fuel) by (done || lia). f_equal. lia.
Qed.

Lemma cstr_app m : forall l1 l2 p,
  (forall i c, l1 !! i = Some c -> rd m (p + Z.of_nat i) = c /\ c <> 0) ->
  cstr m (p + Z.of_nat (length l1)) l2 -> cstr m p (l1 ++ l2).
Proof.
  induction l1 as [|c l1 IH]; intros l2 p H1 H2; simpl in *; [by rewrite Z.add_0_r in H2|].
  destruct (H1 O c) as [E Hc]; [done|]. rewrite Z.add_0_r in E. split_and!; [done|done|].
  apply IH; [|by rewrite <- Z.add_assoc; replace (1 + Z.of_nat (length l1)) with (Z.of_nat (S (length l1))) by lia].
  intros i d Hi. rewrite <- Z.add_assoc.
  replace (1 + Z.of_nat i) with (Z.of_nat (S i)) by lia. by apply H1.
Qed.

(** ** Lemmas on number printing *)

Lemma rd_wr_list l : forall m p q,
  rd (wr_list m p l) q =
    if (p <=? q) && (q <? p + Z.of_nat (length l))
    then u8 (default 0 (l !! Z.to_nat (q - p))) else rd m q.
Proof.
  induction l as [|c l IH]; intros m p q; simpl; [zcases|].
  rewrite IH, rd_wr. destruct (decide (p = q)) as [->|Hne].
  - rewrite Z.eqb_refl, Z.sub_diag. change (Z.to_nat 0) with O. simpl. zcases.
  - apply Z.eqb_neq in Hne as Hb. rewrite Hb. zify_bool.
    destruct ((p + 1 <=? q) && (q <? p + 1 + Z.of_nat (length l))) eqn:E.
    + replace (Z.to_nat (q - p)) with (S (Z.to_nat (q - (p + 1)))) by lia. zcases.
    + zcases.
Qed.

(** A NUL-terminated list of non-zero bytes reads back as the string. *)
Lemma cstr_wr_list l : forall m p,
  Forall (fun c => 0 < c < 256) l ->
  cstr (wr (wr_list m p l) (p + Z.of_nat (length l)) 0) p l.
Proof.
  intros m p Hl. rewrite <- (app_nil_r l) at 3. apply cstr_app.
  - intros i c Hi. pose proof (lookup_lt_Some _ _ _ Hi).
    rewrite Forall_lookup in Hl. specialize (Hl _ _ Hi). simpl in Hl.
    rewrite rd_wr, rd_wr_list.
    replace (Z.to_nat (p + Z.of_nat i - p)) with i by lia. rewrite Hi. simpl.
    unfold u8. rewrite (Z.mod_small c) by lia. zcases.
  - simpl. rewrite rd_wr, Z.eqb_refl. done.
Qed.

(** The number a list of decimal digit characters denotes. *)
Definition dec_value (l : list Z) : Z := fold_left (fun acc c => acc * 10 + (c - 48)) l 0.

Definition is_digit (c : Z) : Prop := 48 <= c <= 57.

Lemma dec_value_snoc l c : dec_value (l ++ [c]) = dec_value l * 10 + (c - 48).
Proof. unfold dec_value. by rewrite fold_left_app. Qed.

Lemma dec_digits_spec k : forall fuel value temp,
  (k <= fuel)%nat -> 0 < value < 10 ^ Z.of_nat k ->
  exists ds, dec_digits fuel value temp = Some (ds ++ temp) /\ dec_value ds = value /\
    Forall is_digit ds /\ (1 <= length ds <= k)%nat /\ head ds <> Some 48.
Proof.
  induction k as [|k IH]; intros fuel value temp Hk Hv.
  - change (10 ^ Z.of_nat 0) with 1 in Hv. lia.
  - destruct fuel as [|fuel]; [lia|]. simpl.
    rewrite Nat2Z.inj_succ, Z.pow_succ_r in Hv by lia.
    pose proof (Z.div_mod value 10 ltac:(lia)). pose proof (Z.mod_pos_bound value 10 ltac:(lia)).
    case_if.
    + destruct (IH fuel (value / 10) (48 + value mod 10 :: temp)) as (ds & -> & Hd & Hf & Hl & Hh);
        [lia|split; [lia|apply Z.div_lt_upper_bound; lia]|].
      exists (ds ++ [48 + value mod 10]). rewrite <- app_assoc. split_and!; try done.
      * rewrite dec_value_snoc, Hd. lia.
      * apply Forall_app. split; [done|]. repeat constructor; unfold is_digit; lia.
      * rewrite length_app. simpl. lia.
      * rewrite length_app. simpl. lia.
      * destruct ds; [simpl in Hl; lia|done].
    + exists [48 + value mod 10]. simpl. unfold dec_value. simpl.
      split_and!; try done; try lia.
      * repeat constructor; unfold is_digit; lia.
      * intros [=]. lia.
Qed.

(** What a printing routine leaves in memory: at [buffer] the digits of
    [value], without leading zeros, in at most [room] characters plus the
    NUL, and nothing changed elsewhere. *)
Definition prints_dec (m m' : mem) (buffer value : Z) (room : nat) : Prop :=
  exists ds, cstr m' buffer ds /\ dec_value ds = value /\ Forall is_digit ds /\
    (1 <= length ds <= room)%nat /\ (head ds = Some 48 -> value = 0) /\
    forall q, q < buffer \/ buffer + Z.of_nat room < q -> rd m' q = rd m q.

Lemma uint_to_str_spec room fuel m value buffer :
  (1 <= room <= fuel)%nat -> 0 <= value < 10 ^ Z.of_nat room ->
  exists m', uint_to_str fuel m value buffer = Some m' /\ prints_dec m m' buffer value room.
Proof.
  intros Hr Hv. unfold uint_to_str. destruct (value =? 0) eqn:E; zify_bool.
  - subst. eexists; split; [done|]. exists [48]. split_and!; try done; try (simpl; lia).
    + apply (cstr_wr_list [48] m buffer). repeat constructor; lia.
    + repeat constructor; lia.
    + intros q Hq. rewrite !rd_wr. zcases.
  - destruct (dec_digits_spec room fuel value []) as (ds & -> & Hd & Hf & Hl & Hh); [lia|lia|].
    rewrite app_nil_r. simpl. eexists; split; [done|]. exists ds. split_and!; try done; try lia.
    + apply cstr_wr_list. eapply Forall_impl; [|exact Hf]. unfold is_digit. intros c Hc. lia.
    + intros q Hq. rewrite rd_wr, rd_wr_list. zcases.
Qed.

(** ** Theorems *)

(** [strcmp] terminates on NUL-terminated strings and the
    sign of its result is the lexicographic order of the two strings; it is 0
    exactly for equal strings. *)
Theorem strcmp_correct m p1 p2 l1 l2 fuel :
  cstr m p1 l1 -> cstr m p2 l2 -> (length l1 < fuel)%nat ->
  exists r, strcmp fuel m p1 p2 = Some r /\ (r ?= 0) = str_compare l1 l2 /\ (r = 0 <-> l1 = l2).
Proof.
  intros H1 H2 Hf. destruct (strcmp_compare m l1 l2 p1 p2 fuel H1 H2 Hf) as (r & -> & Hr).
  exists r. split_and!; [done|done|]. by rewrite <- str_compare_eq, <- Hr, Z.compare_eq_iff.
Qed.

(** [strcat] on two strings whose storage does not overlap
    leaves the concatenation at [dest], returns with fuel for the longer
    string, and changes no byte outside the appended part. *)
Theorem strcat_correct m dest src l1 l2 fuel :
  cstr m dest l1 -> cstr m src l2 ->
  (length l1 < fuel)%nat -> (length l2 < fuel)%nat ->
  dest + Z.of_nat (length l1 + length l2) < src \/ src + Z.of_nat (length l2) < dest ->
  exists m', strcat fuel m dest src = Some m' /\ cstr m' dest (l1 ++ l2) /\ cstr m' src l2 /\
    forall q, q < dest + Z.of_nat (length l1) \/ dest + Z.of_nat (length l1 + length l2) < q ->
      rd m' q = rd m q.
Proof.
  intros H1 H2 Hf1 Hf2 Hd. unfold strcat. rewrite (str_end_spec m l1) by done. simpl.
  destruct (strcpy_copied l2 m (dest + Z.of_nat (length l1)) src fuel) as (m' & -> & Hc);
    [done|done|unfold fwd_safe; lia|].
  exists m'. split_and!; [done| | |].
  - apply cstr_app; [|by eapply copied_cstr]. intros i c Hi.
    pose proof (lookup_lt_Some _ _ _ Hi). destruct (cstr_byte _ _ _ _ _ H1 Hi) as [<- ?].
    split; [|done]. rewrite Hc. zcases.
  - eapply cstr_ext; [|exact H2]. intros i Hi. rewrite Hc. zcases.
  - intros q Hq. rewrite Hc. zcases.
Qed.

(** Every unsigned 32-bit and 64-bit value is printed in decimal
    and reads back as itself; the digits fit the C arrays [temp[11]] and
    [temp[21]], have no leading zero, and only the buffer changes. *)
Theorem uint_to_str_roundtrip m v32 v64 buffer :
  0 <= v32 < 2 ^ 32 -> 0 <= v64 < 2 ^ 64 ->
  (exists m', uint32_to_str m v32 buffer = Some m' /\ prints_dec m m' buffer v32 10) /\
  (exists m', uint64_to_str m v64 buffer = Some m' /\ prints_dec m m' buffer v64 20).
Proof. intros H1 H2. split; apply uint_to_str_spec; lia. Qed.

(** The helper behind [%x] prints nothing for the value 0 when
    no zero padding is asked for: the first byte of the buffer keeps whatever
    it held before, where [uint32_to_hex] writes the digit '0'; and with a
    width of 32 or more it writes past a 32-byte buffer. *)
Theorem hex_simple_zero_unwritten m buffer uppercase w :
  rd (uint32_to_hex_simple m 0 buffer uppercase 0) buffer = rd m buffer /\
  rd (uint32_to_hex m 0 buffer uppercase) buffer = 48 /\
  (32 <= w -> rd (uint32_to_hex_simple (wr m (buffer + w) 1) 0 buffer uppercase w) (buffer + w) = 0).
Proof.
  split_and!.
  - unfold uint32_to_hex_simple. simpl. rewrite rd_wr. zcases.
  - unfold uint32_to_hex, uint_to_hex. simpl. rewrite !rd_wr. zcases.
  - intros Hw. unfold uint32_to_hex_simple. simpl. destruct (0 <? w) eqn:E; zify_bool; [|lia].
    rewrite rd_wr, Z.eqb_refl. done.
Qed.

(** Strings [ab] at 16 and [abc] at 64. *)
Definition two_strings : mem := wr_list (wr_list ∅ 16 [97; 98; 0]) 64 [97; 98; 99; 0].

Lemma two_strings_cstr : cstr two_strings 16 [97; 98] /\ cstr two_strings 64 [97; 98; 99].
Proof. split; repeat split; vm_compute; done. Qed.

Lemma strcmp_correct_witness :
  exists r, strcmp 4 two_strings 16 64 = Some r /\ (r ?= 0) = Lt.
Proof.
  destruct (strcmp_correct two_strings 16 64 [97; 98] [97; 98; 99] 4) as (r & E & C & _).
  - apply two_strings_cstr.
  - apply two_strings_cstr.
  - simpl. lia.
  - exists r. split; [exact E|]. rewrite C. reflexivity.
Defined.

Lemma strcat_correct_witness :
  exists m', strcat 4 two_strings 16 64 = Some m' /\ cstr m' 16 [97; 98; 97; 98; 99].
Proof.
  destruct (strcat_correct two_strings 16 64 [97; 98] [97; 98; 99] 4) as (m' & E & C & _).
  - apply two_strings_cstr.
  - apply two_strings_cstr.
  - simpl. lia.
  - simpl. lia.
  - left. simpl. lia.
  - exists m'. split; [exact E|exact C].
Defined.

Lemma uint_to_str_roundtrip_witness :
  exists m', uint32_to_str ∅ 1024 16 = Some m' /\ prints_dec ∅ m' 16 1024 10.
Proof. exact (proj1 (uint_to_str_roundtrip ∅ 1024 1024 16 ltac:(lia) ltac:(lia))). Defined.

Lemma hex_simple_zero_unwritten_witness :
  rd (uint32_to_hex_simple (wr ∅ (16 + 40) 1) 0 16 false 40) (16 + 40) = 0.
Proof. apply (proj2 (proj2 (hex_simple_zero_unwritten ∅ 16 false 40))). lia. Defined.
