(* ===== verification/Division.v ===== *)
(** * 64-bit division for 32-bit targets

    Models src/lib/libgcc_stub.c, the routines the compiler calls for 64-bit
    division on i686.  Both run the same 64-turn shift-and-subtract loop and
    return one of its two accumulators. *)

From S2P Require Import Prelude.

(** [turns] turns of the loop from counter [i]; quotient and remainder. *)
Fixpoint div_loop (turns : nat) (i n d q r : Z) : Z * Z :=
  match turns with
  | O => (q, r)
  | S turns =>
      let r := Z.lor (u64 (Z.shiftl r 1)) (Z.land (Z.shiftr n (63 - i)) 1) in
      let '(q, r) :=
        if d <=? r then (Z.lor q (u64 (Z.shiftl 1 (63 - i))), u64 (r - d)) else (q, r) in
      div_loop turns (i + 1) n d q r
  end.

Definition __udivdi3 (n d : Z) : Z := (div_loop 64 0 n d 0 0).1.
Definition __umoddi3 (n d : Z) : Z := (div_loop 64 0 n d 0 0).2.

(** ** One turn *)

(** The [i] leading bits of [n]. *)
Definition lead (n i : Z) : Z := n / 2 ^ (64 - i).

Lemma lead_succ n i : 0 <= i < 64 -> lead n (i + 1) = 2 * lead n i + Z.land (Z.shiftr n (63 - i)) 1.
Proof.
  intros Hi. unfold lead. change 1 with (Z.ones 1) at 2. rewrite Z.land_ones, Z.shiftr_div_pow2 by lia.
  replace (64 - (i + 1)) with (63 - i) by lia. replace (2 ^ (64 - i)) with (2 ^ (63 - i) * 2).
  2: { replace (64 - i) with (Z.succ (63 - i)) by lia. rewrite Z.pow_succ_r by lia. lia. }
  rewrite <- Z.div_div by lia. change (2 ^ 1) with 2.
  pose proof (Z.div_mod (n / 2 ^ (63 - i)) 2). lia.
Qed.

Lemma lead_bound n i : 0 <= n < 2 ^ 64 -> 0 <= i <= 64 -> 0 <= lead n i < 2 ^ i.
Proof.
  intros Hn Hi. unfold lead. split; [apply Z.div_pos; lia|]. apply Z.div_lt_upper_bound; [lia|].
  rewrite <- Z.pow_add_r by lia. replace (64 - i + i) with 64 by lia. lia.
Qed.

Lemma lor_low_bit x b : 0 <= x -> 0 <= b < 2 -> Z.lor (2 * x) b = 2 * x + b.
Proof.
  intros Hx Hb. assert (b = 0 \/ b = 1) as [-> | ->] by lia; [rewrite Z.lor_0_r; lia|].
  rewrite <- Z.lxor_lor, <- Z.add_nocarry_lxor; [done|..]; apply Z.bits_inj'; intros i Hi;
    rewrite Z.land_spec, Z.bits_0; destruct (decide (i = 0)) as [->|];
    rewrite ?Z.testbit_even_0; try done; by rewrite (Z.bits_above_log2 1 i), andb_false_r by (simpl; lia).
Qed.

(** A bit above which [q] is a multiple of a larger power. *)
Lemma lor_free_bit q k : 0 <= k -> 0 <= q -> Z.lor (q * 2 ^ (k + 1)) (2 ^ k) = q * 2 ^ (k + 1) + 2 ^ k.
Proof.
  intros Hk Hq. replace (q * 2 ^ (k + 1)) with (Z.shiftl (2 * q) k).
  2: { rewrite Z.shiftl_mul_pow2, Z.pow_add_r by lia. lia. }
  replace (2 ^ k) with (Z.shiftl 1 k) at 1 by (rewrite Z.shiftl_mul_pow2; lia).
  rewrite <- Z.shiftl_lor, lor_low_bit by lia. rewrite !Z.shiftl_mul_pow2 by lia. lia.
Qed.

(** Quotient and remainder after a further digit of the dividend. *)
Lemma div_digit N d b : 0 < d -> 0 <= b < 2 ->
  let r := 2 * (N mod d) + b in
  (2 * N + b) / d = 2 * (N / d) + (if d <=? r then 1 else 0) /\
  (2 * N + b) mod d = if d <=? r then r - d else r.
Proof.
  intros Hd Hb r. subst r. pose proof (Z.div_mod N d ltac:(lia)) as E. pose proof (Z.mod_pos_bound N d Hd) as B.
  destruct (d <=? 2 * (N mod d) + b) eqn:C; zify_bool.
  - split; symmetry; [eapply (Z.div_unique _ _ _ (2 * (N mod d) + b - d))|eapply (Z.mod_unique _ _ (2 * (N / d) + 1))]; lia.
  - split; symmetry; [eapply (Z.div_unique _ _ _ (2 * (N mod d) + b))|eapply (Z.mod_unique _ _ (2 * (N / d)))]; lia.
Qed.

(** The loop invariant: after [i] turns the accumulators hold the quotient
    (in the upper [i] bits) and the remainder of the [i] leading bits. *)
Lemma div_loop_spec turns n d :
  0 <= n < 2 ^ 64 -> 0 < d < 2 ^ 64 -> forall i, i + Z.of_nat turns = 64 -> 0 <= i ->
  div_loop turns i n d (lead n i / d * 2 ^ (64 - i)) (lead n i mod d) = (n / d, n mod d).
Proof.
  intros Hn Hd. induction turns as [|turns IH]; intros i Hi Hi0; cbn [div_loop].
  - replace i with 64 by lia. unfold lead. change (2 ^ (64 - 64)) with 1. by rewrite Z.div_1_r, Z.mul_1_r.
  - pose proof (lead_succ n i ltac:(lia)) as Hs. pose proof (lead_bound n i Hn ltac:(lia)) as Hb.
    pose proof (lead_bound n (i + 1) Hn ltac:(lia)) as Hb1.
    set (b := Z.land (Z.shiftr n (63 - i)) 1) in *.
    assert (Hb01 : 0 <= b < 2) by (subst b; change 1 with (Z.ones 1); rewrite Z.land_ones by lia; apply Z.mod_pos_bound; lia).
    pose proof (Z.mod_pos_bound (lead n i) d ltac:(lia)) as Hm.
    pose proof (Z.mod_le (lead n i) d ltac:(lia) ltac:(lia)) as Hml.
    assert (H64 : 2 ^ (i + 1) <= 2 ^ 64) by (apply Z.pow_le_mono_r; lia).
    replace (Z.shiftl (lead n i mod d) 1) with (2 * (lead n i mod d)) by (rewrite Z.shiftl_mul_pow2; lia).
    rewrite u64_small, lor_low_bit by lia.
    destruct (div_digit (lead n i) d b ltac:(lia) Hb01) as [Hq Hr]. rewrite <- Hs in Hq, Hr.
    assert (Hp : 2 ^ (64 - i) = 2 * 2 ^ (63 - i)) by (rewrite <- (Z.pow_succ_r 2 (63 - i)) by lia; f_equal; lia).
    specialize (IH (i + 1) ltac:(lia) ltac:(lia)). replace (64 - (i + 1)) with (63 - i) in IH by lia.
    destruct (d <=? 2 * (lead n i mod d) + b) eqn:C; zify_bool; rewrite <- IH; f_equal; try (rewrite Hr; apply u64_small; lia).
    + rewrite Z.shiftl_1_l, u64_small by (split; [lia|apply Z.pow_lt_mono_r; lia]).
      replace (64 - i) with (63 - i + 1) by lia. rewrite lor_free_bit by (try apply Z.div_pos; lia).
      rewrite Hq, Z.pow_add_r by lia. lia.
    + rewrite Hq, Hp. lia.
    + by rewrite Hr.
Qed.

(** Shift-and-subtract division is division: for every 64-bit dividend and
    every non-zero 64-bit divisor [__udivdi3] returns the quotient and
    [__umoddi3] the remainder, no intermediate value overflowing. *)
Theorem udivmod_correct n d :
  0 <= n < 2 ^ 64 -> 0 < d < 2 ^ 64 -> __udivdi3 n d = n / d /\ __umoddi3 n d = n mod d.
Proof.
  intros Hn Hd. unfold __udivdi3, __umoddi3.
  assert (E : div_loop 64 0 n d 0 0 = (n / d, n mod d)).
  { rewrite <- (div_loop_spec 64 n d Hn Hd 0) by lia. unfold lead. change (2 ^ (64 - 0)) with (2 ^ 64).
    by rewrite (Z.div_small n), Z.div_0_l, Z.mod_0_l by lia. }
  by rewrite E.
Qed.

Lemma udivmod_correct_witness :
  __udivdi3 (2 ^ 64 - 1) (2 ^ 63 + 1) = (2 ^ 64 - 1) / (2 ^ 63 + 1) /\
  __umoddi3 (2 ^ 64 - 1) (2 ^ 63 + 1) = (2 ^ 64 - 1) mod (2 ^ 63 + 1).
Proof. apply udivmod_correct; lia. Defined.
