(* ===== verification/Heap.v ===== *)
(** * The kernel heap

    Models src/mm/heap.c and src/include/mm/heap.h for the three targets.
    The headers ([heap_block_t]) live in a map from addresses to headers, the
    payload bytes in a byte memory; the invariant [wf] shows that headers and
    payloads of the chain never overlap, which is what makes the split of one
    memory into two sound.  A header that was never written reads as zeros,
    as the pages of the heap do.  Frames and page tables, which [expand] uses
    on i686, come in through the class [PageProvider].  An operation is
    [None] when it would not return: the lock is already held, or a corrupted
    chain makes the scan run for ever. *)

From S2P Require Import Prelude Spinlock Mem.

(** ** Data *)

Record heap_block := HeapBlock {
  hb_size : Z;
  hb_is_free : bool;
  hb_next : Z;
  hb_prev : Z;
  hb_magic : Z
}.

Definition HEAP_MAGIC : Z := 0xDEADBEEF.

(** [sizeof(heap_block_t)]: 5 fields of 4 bytes, or 5 of 8 with padding. *)
Definition sizeof_heap_block (a : arch) : Z :=
  match a with I686 => 20 | X86_64 | ARM64 => 40 end.

(** What [expand] asks of the physical and virtual memory managers. *)
Class PageProvider (P : Type) := {
  pp_alloc_frame : P -> option Z * P;
  pp_free_frame : Z -> P -> P;
  pp_map_page : Z -> Z -> P -> bool * P;
  pp_unmap_page : Z -> P -> Z * P
}.

(** The static variables of heap.c and the memory they point into. *)
Record heap (P : Type) := Heap {
  heap_start : Z;
  heap_end : Z;
  heap_max : Z;
  first_block : Z;
  last_block : Z;
  heap_lock : lockst;
  blocks : gmap Z heap_block;
  hmem : mem;
  hpages : P
}.
Arguments Heap {P}.
Arguments heap_start {P}.
Arguments heap_end {P}.
Arguments heap_max {P}.
Arguments first_block {P}.
Arguments last_block {P}.
Arguments heap_lock {P}.
Arguments blocks {P}.
Arguments hmem {P}.
Arguments hpages {P}.

Section heap_ops.
Context {P : Type} `{!PageProvider P}.
Implicit Types (h : heap P) (b : Z).

(** *** Field updates *)

Definition set_heap_end h v := Heap (heap_start h) v (heap_max h) (first_block h) (last_block h) (heap_lock h) (blocks h) (hmem h) (hpages h).
Definition set_first_block h v := Heap (heap_start h) (heap_end h) (heap_max h) v (last_block h) (heap_lock h) (blocks h) (hmem h) (hpages h).
Definition set_last_block h v := Heap (heap_start h) (heap_end h) (heap_max h) (first_block h) v (heap_lock h) (blocks h) (hmem h) (hpages h).
Definition set_heap_lock h v := Heap (heap_start h) (heap_end h) (heap_max h) (first_block h) (last_block h) v (blocks h) (hmem h) (hpages h).
Definition set_blocks h v := Heap (heap_start h) (heap_end h) (heap_max h) (first_block h) (last_block h) (heap_lock h) v (hmem h) (hpages h).
Definition set_hmem h v := Heap (heap_start h) (heap_end h) (heap_max h) (first_block h) (last_block h) (heap_lock h) (blocks h) v (hpages h).
Definition set_hpages h (v : P) : heap P := Heap (heap_start h) (heap_end h) (heap_max h) (first_block h) (last_block h) (heap_lock h) (blocks h) (hmem h) v.

(** Reading and writing the header at an address. *)
Definition get_block h b : heap_block :=
  default (HeapBlock 0 false 0 0 0) (blocks h !! b).
Definition put_block h b (v : heap_block) : heap P := set_blocks h (<[b := v]> (blocks h)).

Definition set_size h b v :=
  let k := get_block h b in put_block h b (HeapBlock v (hb_is_free k) (hb_next k) (hb_prev k) (hb_magic k)).
Definition set_is_free h b v :=
  let k := get_block h b in put_block h b (HeapBlock (hb_size k) v (hb_next k) (hb_prev k) (hb_magic k)).
Definition set_next h b v :=
  let k := get_block h b in put_block h b (HeapBlock (hb_size k) (hb_is_free k) v (hb_prev k) (hb_magic k)).
Definition set_prev h b v :=
  let k := get_block h b in put_block h b (HeapBlock (hb_size k) (hb_is_free k) (hb_next k) v (hb_magic k)).

(** *** expand *)

(** The clean-up loop: unmap and free the first [n] pages from [virt]. *)
Fixpoint expand_undo (n : nat) (virt : Z) (p : P) : P :=
  match n with
  | O => p
  | S n =>
      let '(phys, p) := pp_unmap_page virt p in
      let p := if negb (phys =? 0) then pp_free_frame phys p else p in
      expand_undo n (virt + PAGE_SIZE) p
  end.

(** The i686 loop: [i] pages from [old] are mapped, [n] remain. *)
Fixpoint expand_pages (n i : nat) (old : Z) (p : P) : bool * P :=
  match n with
  | O => (true, p)
  | S n =>
      match pp_alloc_frame p with
      | (None, p) => (false, expand_undo i old p)
      | (Some frame, p) =>
          match pp_map_page (old + Z.of_nat i * PAGE_SIZE) frame p with
          | (false, p) => (false, expand_undo i old (pp_free_frame frame p))
          | (true, p) => expand_pages n (S i) old p
          end
      end
  end.

Definition expand (a : arch) h (size : Z) : bool * heap P :=
  let pages := uptr a (size + PAGE_SIZE - 1) / PAGE_SIZE in
  let new_heap_end := uptr a (heap_end h + pages * PAGE_SIZE) in
  if heap_max h <? new_heap_end then (false, h)
  else
    match a with
    | X86_64 =>
        if 0x40000000 <? VIRT_TO_PHYS a new_heap_end then (false, h)
        else
          let h := set_hmem h (memset (hmem h) (heap_end h) 0 (Z.to_nat (pages * PAGE_SIZE))) in
          (true, set_heap_end h new_heap_end)
    | ARM64 =>
        if 0x100000000 <? VIRT_TO_PHYS a new_heap_end then (false, h)
        else
          let h := set_hmem h (memset (hmem h) (heap_end h) 0 (Z.to_nat (pages * PAGE_SIZE))) in
          (true, set_heap_end h new_heap_end)
    | I686 =>
        let '(ok, p) := expand_pages (Z.to_nat pages) 0 (heap_end h) (hpages h) in
        let h := set_hpages h p in
        if ok then (true, set_heap_end h new_heap_end) else (false, h)
    end.

(** *** coalesce and split *)

(** Merging backwards: [Some] is the new state, [None] the early return on a
    bad magic number. *)
Definition coalesce_next (a : arch) h b : option (heap P) :=
  let next := hb_next (get_block h b) in
  if negb (next =? 0) && hb_is_free (get_block h next) then
    if negb (hb_magic (get_block h next) =? HEAP_MAGIC) then None
    else
      let h := if next =? last_block h then set_last_block h b else h in
      let h := set_size h b (uptr a (hb_size (get_block h b) + (sizeof_heap_block a + hb_size (get_block h next)))) in
      let h := set_next h b (hb_next (get_block h (hb_next (get_block h b)))) in
      let n := hb_next (get_block h b) in
      Some (if negb (n =? 0) then set_prev h n b else h)
  else Some h.

Definition coalesce_prev (a : arch) h b : heap P :=
  let prev := hb_prev (get_block h b) in
  if negb (prev =? 0) && hb_is_free (get_block h prev) then
    if negb (hb_magic (get_block h prev) =? HEAP_MAGIC) then h
    else
      let h := if b =? last_block h then set_last_block h prev else h in
      let h := set_size h prev (uptr a (hb_size (get_block h prev) + (sizeof_heap_block a + hb_size (get_block h b)))) in
      let h := set_next h prev (hb_next (get_block h b)) in
      let n := hb_next (get_block h b) in
      if negb (n =? 0) then set_prev h n prev else h
  else h.

Definition coalesce (a : arch) h b : heap P :=
  if negb (hb_magic (get_block h b) =? HEAP_MAGIC) then h
  else
    match coalesce_next a h b with
    | None => h
    | Some h => coalesce_prev a h b
    end.

Definition split (a : arch) h b (size : Z) : heap P :=
  if negb (hb_magic (get_block h b) =? HEAP_MAGIC) then h
  else if uptr a (size + sizeof_heap_block a + 16) <=? hb_size (get_block h b) then
    let new := uptr a (b + sizeof_heap_block a + size) in
    let k := get_block h b in
    let h := put_block h new
      (HeapBlock (uptr a (hb_size k - size - sizeof_heap_block a)) true (hb_next k) b HEAP_MAGIC) in
    let n := hb_next (get_block h b) in
    let h := if negb (n =? 0) then set_prev h n new else h in
    let h := set_next h b new in
    set_size h b size
  else h.

(** *** heap_init *)

(** [None] is the PANIC of a failed first expansion. *)
Definition heap_init (a : arch) (start size : Z) (lock : lockst) (m : mem) (p : P) : option (heap P) :=
  let s := PAGE_ALIGN_UP a start in
  let h := Heap s s (uptr a (s + size)) 0 0 (LockSt SPINLOCK_UNLOCKED (lk_irq lock)) ∅ m p in
  match expand a h PAGE_SIZE with
  | (false, _) => None
  | (true, h) =>
      let h := set_first_block h (heap_start h) in
      let h := put_block h (heap_start h)
        (HeapBlock (PAGE_SIZE - sizeof_heap_block a) true 0 0 HEAP_MAGIC) in
      Some (set_last_block h (heap_start h))
  end.

(** *** kmalloc *)

Inductive scan_result :=
| ScanFound (h : heap P) (ptr : Z)
| ScanCorrupt
| ScanEnd
| ScanFuel.

(** The first-fit loop from block [b]. *)
Fixpoint kmalloc_scan (fuel : nat) (a : arch) h b (size : Z) : scan_result :=
  match fuel with
  | O => ScanFuel
  | S fuel =>
      if b =? 0 then ScanEnd
      else if b <? KERNEL_VIRTUAL_BASE a then ScanCorrupt
      else if negb (hb_magic (get_block h b) =? HEAP_MAGIC) then ScanCorrupt
      else if hb_is_free (get_block h b) && (size <=? hb_size (get_block h b)) then
        let h := set_is_free h b false in
        let h := split a h b size in
        ScanFound h (uptr a (b + sizeof_heap_block a))
      else kmalloc_scan fuel a h (hb_next (get_block h b)) size
  end.

Definition heap_unlock h (irq_state : bool) : heap P :=
  set_heap_lock h (unlock_irqrestore (heap_lock h) irq_state).

(** Creating the block that a successful expansion makes room for. *)
Definition kmalloc_append (a : arch) h (old : Z) : heap P * Z :=
  let h := put_block h old
    (HeapBlock (uptr a (heap_end h - old - sizeof_heap_block a)) false 0 (last_block h) HEAP_MAGIC) in
  let h := if negb (last_block h =? 0) then set_next h (last_block h) old else h in
  (set_last_block h old, uptr a (old + sizeof_heap_block a)).

(** Rounding the request: size = (size + 3) & ~3. *)
Definition align4 (a : arch) (size : Z) : Z :=
  Z.land (uptr a (size + 3)) (2 ^ ptr_bits a - 4).

(** One more turn than there are headers: a chain without cycles ends within it. *)
Definition scan_fuel h : nat := S (size (blocks h)).

Definition kmalloc (a : arch) h (size : Z) : option (Z * heap P) :=
  if size =? 0 then Some (0, h)
  else
    '(irq_state, l) ← lock_irqsave (heap_lock h);
    let h := set_heap_lock h l in
    if first_block h =? 0 then Some (0, heap_unlock h irq_state)
    else if (first_block h <? KERNEL_VIRTUAL_BASE a) ||
            negb (hb_magic (get_block h (first_block h)) =? HEAP_MAGIC)
    then Some (0, heap_unlock h irq_state)
    else
      let size := align4 a size in
      match kmalloc_scan (scan_fuel h) a h (first_block h) size with
      | ScanFuel => None
      | ScanCorrupt => Some (0, heap_unlock h irq_state)
      | ScanFound h ptr => Some (ptr, heap_unlock h irq_state)
      | ScanEnd =>
          let old := heap_end h in
          match expand a h (uptr a (size + sizeof_heap_block a)) with
          | (false, h) => Some (0, heap_unlock h irq_state)
          | (true, h) =>
              let '(h, ptr) := kmalloc_append a h old in
              Some (ptr, heap_unlock h irq_state)
          end
      end.

(** *** kfree, krealloc, kcalloc *)

Definition kfree (a : arch) h (ptr : Z) : option (heap P) :=
  if ptr =? 0 then Some h
  else
    '(irq_state, l) ← lock_irqsave (heap_lock h);
    let h := set_heap_lock h l in
    let b := uptr a (ptr - sizeof_heap_block a) in
    if negb (hb_magic (get_block h b) =? HEAP_MAGIC) then Some (heap_unlock h irq_state)
    else
      let h := set_is_free h b true in
      let h := coalesce a h b in
      Some (heap_unlock h irq_state).

Definition krealloc (a : arch) h (ptr size : Z) : option (Z * heap P) :=
  if ptr =? 0 then kmalloc a h size
  else if size =? 0 then h ← kfree a h ptr; Some (0, h)
  else
    '(irq_state, l) ← lock_irqsave (heap_lock h);
    let h := set_heap_lock h l in
    let b := uptr a (ptr - sizeof_heap_block a) in
    if negb (hb_magic (get_block h b) =? HEAP_MAGIC) then Some (0, heap_unlock h irq_state)
    else if size <=? hb_size (get_block h b) then Some (ptr, heap_unlock h irq_state)
    else
      let old_size := hb_size (get_block h b) in
      let h := heap_unlock h irq_state in
      '(new_ptr, h) ← kmalloc a h size;
      if negb (new_ptr =? 0) then
        let h := set_hmem h (memcpy (hmem h) new_ptr ptr (Z.to_nat old_size)) in
        h ← kfree a h ptr;
        Some (new_ptr, h)
      else Some (new_ptr, h).

Definition kcalloc (a : arch) h (num size : Z) : option (Z * heap P) :=
  if negb (num =? 0) && ((2 ^ ptr_bits a - 1) / num <? size) then Some (0, h)
  else
    let total := uptr a (num * size) in
    '(ptr, h) ← kmalloc a h total;
    if negb (ptr =? 0) then Some (ptr, set_hmem h (memset (hmem h) ptr 0 (Z.to_nat total)))
    else Some (ptr, h).

(** *** Aligned allocation *)

(** A pointer stored in and loaded from the payload memory, little endian. *)
Definition wr_ptr (a : arch) (m : mem) (p v : Z) : mem :=
  match a with
  | I686 => wr32 m p v
  | X86_64 | ARM64 => wr32 (wr32 m p v) (p + 4) (Z.shiftr v 32)
  end.

Definition rd_ptr (a : arch) (m : mem) (p : Z) : Z :=
  match a with
  | I686 => rd32 m p
  | X86_64 | ARM64 => rd32 m p + 2 ^ 32 * rd32 m (p + 4)
  end.

Definition kmalloc_aligned (a : arch) h (size alignment : Z) : option (Z * heap P) :=
  if (size =? 0) || (alignment =? 0) then Some (0, h)
  else if negb (Z.land alignment (alignment - 1) =? 0) then Some (0, h)
  else
    let alignment := if alignment <? ptr_size a then ptr_size a else alignment in
    let extra := uptr a (alignment - 1 + ptr_size a) in
    '(raw, h) ← kmalloc a h (uptr a (size + extra));
    if raw =? 0 then Some (0, h)
    else
      let raw_addr := uptr a (raw + ptr_size a) in
      let aligned_addr := Z.land (uptr a (raw_addr + alignment - 1)) (2 ^ ptr_bits a - alignment) in
      let h := set_hmem h (wr_ptr a (hmem h) (uptr a (aligned_addr - ptr_size a)) raw) in
      Some (aligned_addr, h).

Definition kfree_aligned (a : arch) h (ptr : Z) : option (heap P) :=
  if ptr =? 0 then Some h
  else kfree a h (rd_ptr a (hmem h) (uptr a (ptr - ptr_size a))).

(** *** Statistics *)

Record heap_info := HeapInfo {
  hi_total : Z; hi_used : Z; hi_free : Z; hi_max : Z;
  hi_block_count : Z; hi_free_block_count : Z
}.

(** The counters of the walk: used and free payload, used and free metadata,
    number of blocks and of free blocks. *)
Record heap_tally := HeapTally {
  t_used : Z; t_free : Z; t_used_metadata : Z; t_free_metadata : Z;
  t_block_count : Z; t_free_block_count : Z
}.

Fixpoint heap_walk (fuel : nat) (a : arch) h b (t : heap_tally) : option heap_tally :=
  match fuel with
  | O => None
  | S fuel =>
      if b =? 0 then Some t
      else
        let k := get_block h b in
        let meta := sizeof_heap_block a in
        let t :=
          if hb_is_free k then
            HeapTally (t_used t) (uptr a (t_free t + hb_size k)) (t_used_metadata t)
              (uptr a (t_free_metadata t + meta)) (u32 (t_block_count t + 1)) (u32 (t_free_block_count t + 1))
          else
            HeapTally (uptr a (t_used t + hb_size k)) (t_free t) (uptr a (t_used_metadata t + meta))
              (t_free_metadata t) (u32 (t_block_count t + 1)) (t_free_block_count t) in
        heap_walk fuel a h (hb_next k) t
  end.

Definition heap_get_info (a : arch) h : option (heap_info * heap P) :=
  '(irq_state, l) ← lock_irqsave (heap_lock h);
  let h := set_heap_lock h l in
  t ← heap_walk (scan_fuel h) a h (first_block h) (HeapTally 0 0 0 0 0 0);
  let total := uptr a (heap_end h - heap_start h) in
  let h := heap_unlock h irq_state in
  Some (HeapInfo total (uptr a (t_used t + t_used_metadata t)) (uptr a (t_free t + t_free_metadata t))
          (uptr a (heap_max h - heap_start h)) (t_block_count t) (t_free_block_count t), h).

End heap_ops.
