(* ===== verification/HeapFacts.v ===== *)
(** * Correctness of the kernel heap

    The chain of headers is related to a list of cells (payload size, free
    flag) laid end to end from [heap_start] to [heap_end]: [repr] says that
    the headers in memory are the doubly linked list of such a layout, [wf]
    adds that the layout tiles the heap exactly.  The abstract allocator on
    cell lists ([first_fit], [take_block], [release]) is the specification
    that [kmalloc] and [kfree] are shown to refine. *)

From S2P Require Import Prelude Spinlock Mem Heap.

(** ** Layouts *)

Abbreviation cell := (Z * bool)%type.

Definition cell_ok (c : cell) : Prop := 0 <= c.1 /\ c.1 mod 4 = 0.

(** Bytes taken by a layout, headers included. *)
Fixpoint extent (a : arch) (cs : list cell) : Z :=
  match cs with
  | [] => 0
  | c :: cs => sizeof_heap_block a + c.1 + extent a cs
  end.

(** The headers of the layout [cs] starting at [cur]: [prev] is the back link
    of the first one and [nxt] the forward link of the last one. *)
Fixpoint repr (a : arch) (B : gmap Z heap_block) (prev cur : Z) (cs : list cell) (nxt : Z) : Prop :=
  match cs with
  | [] => True
  | c :: cs' =>
      let e := cur + sizeof_heap_block a + c.1 in
      B !! cur = Some (HeapBlock c.1 c.2 (match cs' with [] => nxt | _ => e end) prev HEAP_MAGIC) /\
      repr a B cur e cs' nxt
  end.

(** Address of the last header ([prev] when there is none). *)
Fixpoint last_addr (a : arch) (prev cur : Z) (cs : list cell) : Z :=
  match cs with
  | [] => prev
  | c :: cs => last_addr a cur (cur + sizeof_heap_block a + c.1) cs
  end.

(** ** The abstract allocator *)

(** The first free cell of at least [n] bytes, with what is before and after. *)
Fixpoint first_fit (n : Z) (cs : list cell) : option (list cell * Z * list cell) :=
  match cs with
  | [] => None
  | (sz, f) :: cs =>
      if f && (n <=? sz) then Some ([], sz, cs)
      else
        match first_fit n cs with
        | Some (pre, s, post) => Some ((sz, f) :: pre, s, post)
        | None => None
        end
  end.

(** What an allocation of [n] bytes makes of a free cell of [sz]. *)
Definition take_block (a : arch) (n sz : Z) : list cell :=
  if n + sizeof_heap_block a + 16 <=? sz
  then [(n, false); (sz - n - sizeof_heap_block a, true)]
  else [(sz, false)].

(** Merging a freed cell with a free successor, and with a free predecessor. *)
Definition merge_next (a : arch) (sz : Z) (post : list cell) : Z * list cell :=
  match post with
  | (s, true) :: post => (sz + (sizeof_heap_block a + s), post)
  | _ => (sz, post)
  end.

Definition merge_prev (a : arch) (pre : list cell) (sz : Z) (post : list cell) : list cell :=
  match reverse pre with
  | (s, true) :: rpre => reverse rpre ++ (s + (sizeof_heap_block a + sz), true) :: post
  | _ => pre ++ (sz, true) :: post
  end.

(** Freeing the cell [sz] between [pre] and [post]. *)
Definition release (a : arch) (pre : list cell) (sz : Z) (post : list cell) : list cell :=
  let '(sz, post) := merge_next a sz post in merge_prev a pre sz post.

(** No two neighbouring free cells. *)
Fixpoint coalesced (cs : list cell) : Prop :=
  match cs with
  | (_, true) :: (((_, true) :: _) as cs') => False
  | _ :: cs' => coalesced cs'
  | [] => True
  end.

(** ** Well-formed heaps *)

Section facts.
Context {P : Type} `{!PageProvider P}.
Implicit Types (h : heap P) (B : gmap Z heap_block) (cs : list cell).

Record wf (a : arch) h cs : Prop := {
  wf_ne : cs <> [];
  wf_repr : repr a (blocks h) 0 (heap_start h) cs 0;
  wf_end : heap_start h + extent a cs = heap_end h;
  wf_cells : Forall cell_ok cs;
  wf_first : first_block h = heap_start h;
  wf_base : KERNEL_VIRTUAL_BASE a <= heap_start h;
  wf_aligned : heap_start h mod 4 = 0 /\ heap_end h mod 4096 = 0;
  wf_max : heap_end h <= heap_max h < 2 ^ ptr_bits a
}.

(** [last_block] really is the last block. *)
Definition last_ok (a : arch) h cs : Prop := last_block h = last_addr a 0 (heap_start h) cs.

(** *** Layout lemmas *)

Lemma hdr_pos a : 20 <= sizeof_heap_block a <= 40.
Proof. destruct a; simpl; lia. Qed.

Lemma hdr_mod4 a : sizeof_heap_block a mod 4 = 0.
Proof. by destruct a. Qed.

Lemma base_pos a : 2 ^ 31 <= KERNEL_VIRTUAL_BASE a.
Proof. destruct a; simpl; lia. Qed.

Lemma extent_app a cs1 cs2 : extent a (cs1 ++ cs2) = extent a cs1 + extent a cs2.
Proof. induction cs1 as [|c cs1 IH]; simpl; [done|]. rewrite IH. lia. Qed.

Lemma extent_nonneg a cs : Forall cell_ok cs -> 0 <= extent a cs.
Proof.
  induction 1 as [|c cs [Hc _] _ IH]; simpl; [lia|]. pose proof (hdr_pos a). lia.
Qed.

Lemma extent_mod4 a cs : Forall cell_ok cs -> extent a cs mod 4 = 0.
Proof.
  induction 1 as [|c cs [_ Hc] _ IH]; simpl; [done|]. pose proof (hdr_mod4 a).
  Z.to_euclidean_division_equations. lia.
Qed.

Lemma repr_frame a B B' cs : forall prev cur nxt,
  Forall cell_ok cs ->
  (forall q, cur <= q < cur + extent a cs -> B' !! q = B !! q) ->
  repr a B prev cur cs nxt -> repr a B' prev cur cs nxt.
Proof.
  induction cs as [|c cs IH]; intros prev cur nxt Hok Hf; simpl; [done|].
  apply Forall_cons_1 in Hok as [[Hc _] Hok]. pose proof (hdr_pos a).
  pose proof (extent_nonneg a cs Hok). simpl in Hf.
  intros [Hb Hr]. split; [rewrite Hf by lia; done|].
  apply IH; [done| |done]. intros q Hq. apply Hf. lia.
Qed.

Lemma repr_app a B cs1 cs2 : forall prev cur nxt,
  repr a B prev cur (cs1 ++ cs2) nxt <->
  repr a B prev cur cs1 (match cs2 with [] => nxt | _ => cur + extent a cs1 end) /\
  repr a B (last_addr a prev cur cs1) (cur + extent a cs1) cs2 nxt.
Proof.
  induction cs1 as [|c cs1 IH]; intros prev cur nxt; simpl.
  - rewrite Z.add_0_r. tauto.
  - rewrite IH. rewrite !Z.add_assoc.
    replace (match cs1 ++ cs2 with [] => nxt | _ => cur + sizeof_heap_block a + c.1 end)
      with (match cs1 with
            | [] => match cs2 with [] => nxt | _ => cur + sizeof_heap_block a + c.1 + extent a cs1 end
            | _ => cur + sizeof_heap_block a + c.1 end); [tauto|].
    destruct cs1; [|done]. destruct cs2; [done|]. simpl. lia.
Qed.

Lemma last_addr_snoc a cs c prev cur :
  last_addr a prev cur (cs ++ [c]) = cur + extent a cs.
Proof.
  revert prev cur. induction cs as [|d cs IH]; intros prev cur; simpl; [lia|].
  rewrite IH. lia.
Qed.

Lemma last_addr_app a cs1 cs2 prev cur :
  last_addr a prev cur (cs1 ++ cs2) = last_addr a (last_addr a prev cur cs1) (cur + extent a cs1) cs2.
Proof.
  revert prev cur. induction cs1 as [|d cs1 IH]; intros prev cur; simpl; [by rewrite Z.add_0_r|].
  rewrite IH. f_equal. lia.
Qed.

(** Changing the back link of the first header of a layout. *)
Lemma repr_relink a B B' p p' cs : forall cur nxt,
  Forall cell_ok cs ->
  repr a B p cur cs nxt ->
  (forall k, cs <> [] -> B !! cur = Some k ->
     B' !! cur = Some (HeapBlock (hb_size k) (hb_is_free k) (hb_next k) p' (hb_magic k))) ->
  (forall q, cur < q < cur + extent a cs -> B' !! q = B !! q) ->
  repr a B' p' cur cs nxt.
Proof.
  destruct cs as [|c cs]; intros cur nxt Hok Hr Hc Hf; simpl in *; [done|].
  apply Forall_cons_1 in Hok as [[Hc0 _] Hok]. pose proof (hdr_pos a).
  destruct Hr as [Hb Hr]. split; [by rewrite (Hc _ ltac:(done) Hb)|].
  eapply repr_frame; [done| |done]. intros q Hq. apply Hf.
  pose proof (extent_nonneg a cs Hok). lia.
Qed.

(** Header addresses of a layout. *)
Fixpoint addrs (a : arch) (cur : Z) (cs : list cell) : list Z :=
  match cs with
  | [] => []
  | c :: cs => cur :: addrs a (cur + sizeof_heap_block a + c.1) cs
  end.

Lemma addrs_range a cs : forall cur q,
  Forall cell_ok cs -> q ∈ addrs a cur cs -> cur <= q < cur + extent a cs.
Proof.
  induction cs as [|c cs IH]; intros cur q Hok Hq; simpl in *; [by apply not_elem_of_nil in Hq|].
  apply Forall_cons_1 in Hok as [[Hc _] Hok]. pose proof (hdr_pos a).
  pose proof (extent_nonneg a cs Hok). apply elem_of_cons in Hq as [->|Hq]; [lia|].
  apply IH in Hq; [lia|done].
Qed.

Lemma addrs_NoDup a cs cur : Forall cell_ok cs -> NoDup (addrs a cur cs).
Proof.
  revert cur. induction cs as [|c cs IH]; intros cur Hok; simpl; [constructor|].
  apply Forall_cons_1 in Hok as [[Hc _] Hok]. pose proof (hdr_pos a).
  constructor; [|by apply IH]. intros Hq. apply addrs_range in Hq; [lia|done].
Qed.

Lemma addrs_dom a B cs : forall prev cur nxt q,
  repr a B prev cur cs nxt -> q ∈ addrs a cur cs -> q ∈ dom B.
Proof.
  induction cs as [|c cs IH]; intros prev cur nxt q Hr Hq; simpl in *; [by apply not_elem_of_nil in Hq|].
  destruct Hr as [Hb Hr]. apply elem_of_cons in Hq as [->|Hq]; [by apply elem_of_dom; eauto|eauto].
Qed.

Lemma length_addrs a cs cur : length (addrs a cur cs) = length cs.
Proof. revert cur. induction cs as [|c cs IH]; intros cur; simpl; [done|]. by rewrite IH. Qed.

(** There are no more cells than headers, so the fuel of a scan suffices. *)
Lemma repr_size a B prev cur cs nxt :
  Forall cell_ok cs -> repr a B prev cur cs nxt -> (length cs <= size B)%nat.
Proof.
  intros Hok Hr. rewrite <- (length_addrs a cs cur), <- size_dom.
  rewrite <- (size_list_to_set (C := gset Z)) by by apply addrs_NoDup.
  apply subseteq_size. intros q Hq. apply elem_of_list_to_set in Hq.
  by eapply addrs_dom.
Qed.

(** *** First fit *)

Lemma first_fit_Some n cs pre sz post :
  first_fit n cs = Some (pre, sz, post) ->
  cs = pre ++ (sz, true) :: post /\ n <= sz /\ Forall (fun c => c.2 = true -> c.1 < n) pre.
Proof.
  revert pre. induction cs as [|[s f] cs IH]; intros pre H; simpl in H; [done|].
  case_if_in H.
  - simplify_eq. split_and!; [done|done|constructor].
  - destruct (first_fit n cs) as [[[pre' s'] post']|] eqn:E; simplify_eq.
    destruct (IH pre' eq_refl) as (-> & Hle & Hall). split_and!; [done|done|].
    constructor; [|done]. simpl. intros ->. by destruct Hif.
Qed.

Lemma first_fit_None n cs :
  first_fit n cs = None -> Forall (fun c => c.2 = true -> c.1 < n) cs.
Proof.
  induction cs as [|[s f] cs IH]; intros H; simpl in H; [constructor|].
  case_if_in H; [done|]. destruct (first_fit n cs) as [[[? ?] ?]|]; [done|].
  constructor; [|by apply IH]. simpl. intros ->. by destruct Hif.
Qed.

Lemma get_block_Some h b k : blocks h !! b = Some k -> get_block h b = k.
Proof. unfold get_block. by intros ->. Qed.

Lemma kmalloc_scan_spec a h n cs : forall prev cur fuel,
  Forall cell_ok cs -> repr a (blocks h) prev cur cs 0 -> KERNEL_VIRTUAL_BASE a <= cur ->
  (length cs < fuel)%nat ->
  kmalloc_scan fuel a h (match cs with [] => 0 | _ => cur end) n =
    match first_fit n cs with
    | Some (pre, sz, post) =>
        let b := cur + extent a pre in
        ScanFound (split a (set_is_free h b false) b n) (uptr a (b + sizeof_heap_block a))
    | None => ScanEnd
    end.
Proof.
  induction cs as [|[sz f] cs IH]; intros prev cur [|fuel] Hok Hr Hb Hf; simpl in *; try lia; [done|].
  apply Forall_cons_1 in Hok as [[Hc _] Hok]. simpl in Hc. destruct Hr as [Hk Hr].
  pose proof (base_pos a). pose proof (hdr_pos a).
  assert ((cur =? 0) = false) as -> by lia.
  assert ((cur <? KERNEL_VIRTUAL_BASE a) = false) as -> by lia.
  rewrite (get_block_Some _ _ _ Hk). simpl.
  destruct (f && (n <=? sz)) eqn:E; simpl; [by rewrite !Z.add_0_r|].
  replace (match cs with [] => 0 | _ => cur + sizeof_heap_block a + sz end)
    with (match cs with [] => 0 | _ => cur + sizeof_heap_block a + sz end) by done.
  rewrite (IH cur); [|done|done|lia|lia].
  destruct (first_fit n cs) as [[[pre s] post]|]; [|done]. simpl.
  by replace (cur + (sizeof_heap_block a + sz + extent a pre))
    with (cur + sizeof_heap_block a + sz + extent a pre) by lia.
Qed.

(** *** Field updates on a known header *)

Definition with_size (k : heap_block) (v : Z) : heap_block :=
  HeapBlock v (hb_is_free k) (hb_next k) (hb_prev k) (hb_magic k).
Definition with_free (k : heap_block) (v : bool) : heap_block :=
  HeapBlock (hb_size k) v (hb_next k) (hb_prev k) (hb_magic k).
Definition with_next (k : heap_block) (v : Z) : heap_block :=
  HeapBlock (hb_size k) (hb_is_free k) v (hb_prev k) (hb_magic k).
Definition with_prev (k : heap_block) (v : Z) : heap_block :=
  HeapBlock (hb_size k) (hb_is_free k) (hb_next k) v (hb_magic k).

Lemma get_put_eq h b k : get_block (put_block h b k) b = k.
Proof. unfold get_block. simpl. by rewrite lookup_insert_eq. Qed.
Lemma get_put_ne h b c k : b <> c -> get_block (put_block h b k) c = get_block h c.
Proof. intros. unfold get_block. simpl. by rewrite lookup_insert_ne. Qed.
Lemma get_set_last h v c : get_block (set_last_block h v) c = get_block h c.
Proof. done. Qed.

Lemma set_size_put h b v : set_size h b v = put_block h b (with_size (get_block h b) v).
Proof. done. Qed.
Lemma set_is_free_put h b v : set_is_free h b v = put_block h b (with_free (get_block h b) v).
Proof. done. Qed.
Lemma set_next_put h b v : set_next h b v = put_block h b (with_next (get_block h b) v).
Proof. done. Qed.
Lemma set_prev_put h b v : set_prev h b v = put_block h b (with_prev (get_block h b) v).
Proof. done. Qed.

(** Computes header reads through the updates of a straight-line sequence;
    the disequalities of the addresses are in the context. *)
Ltac read_blocks :=
  repeat first
    [ rewrite set_size_put | rewrite set_is_free_put | rewrite set_next_put
    | rewrite set_prev_put | rewrite get_set_last | rewrite get_put_eq
    | rewrite get_put_ne by congruence
    | match goal with
      | H : blocks ?h !! ?b = Some _ |- context [get_block ?h ?b] => rewrite (get_block_Some h b _ H)
      end
    | progress (cbn [hb_size hb_is_free hb_next hb_prev hb_magic with_size with_free with_next with_prev]) ].

(** Reduces a sequence of updates to one record. *)
Ltac collapse_heap :=
  cbv [put_block set_last_block set_blocks]; 
  cbn [heap_start heap_end heap_max first_block last_block heap_lock blocks hmem hpages].

(** Looks an address up in a map of nested updates. *)
Ltac read_map :=
  cbn [put_block set_blocks blocks set_last_block];
  repeat first [rewrite lookup_insert_eq | rewrite lookup_insert_ne by congruence]; try done.

(** *** Splitting *)

(** The header map after the taken block [b] was split at [new]. *)
Lemma split_blocks a h b sz nx pv n kn new :
  new = b + sizeof_heap_block a + n ->
  blocks h !! b = Some (HeapBlock sz true nx pv HEAP_MAGIC) ->
  0 <= n -> b + sizeof_heap_block a + sz < 2 ^ ptr_bits a -> 2 ^ 31 <= b ->
  n + sizeof_heap_block a + 16 <= sz ->
  (nx <> 0 -> blocks h !! nx = Some kn /\ nx <> b /\ nx <> new) ->
  exists B', split a (set_is_free h b false) b n = set_blocks h B' /\
    B' !! b = Some (HeapBlock n false new pv HEAP_MAGIC) /\
    B' !! new = Some (HeapBlock (sz - n - sizeof_heap_block a) true nx b HEAP_MAGIC) /\
    (nx <> 0 -> B' !! nx = Some (with_prev kn new)) /\
    (forall q, q <> b -> q <> new -> q <> nx -> B' !! q = blocks h !! q).
Proof.
  intros Hnew Hb Hn Hw Hb31 Hs Hnx. pose proof (hdr_pos a).
  assert (new <> b) as Hnb by lia.
  unfold split. read_blocks. rewrite Z.eqb_refl. cbn [negb].
  rewrite (uptr_small a (n + sizeof_heap_block a + 16)) by lia.
  assert ((n + sizeof_heap_block a + 16 <=? sz) = true) as -> by lia.
  rewrite (uptr_small a (b + sizeof_heap_block a + n)) by lia. rewrite <- Hnew.
  rewrite (uptr_small a (sz - n - sizeof_heap_block a)) by lia.
  read_blocks. destruct (nx =? 0) eqn:E; zify_bool; cbn [negb].
  - read_blocks. eexists. split; [reflexivity|]. split_and!; [read_map|read_map|done|].
    intros q Hq1 Hq2 _. read_map.
  - destruct (Hnx E) as (Hk & Hne1 & Hne2). read_blocks.
    eexists. split; [reflexivity|]. split_and!; [read_map|read_map|intros _; read_map|].
    intros q Hq1 Hq2 Hq3. read_map.
Qed.

Lemma wf_set_blocks a h cs cs' B' :
  wf a h cs -> cs' <> [] -> repr a B' 0 (heap_start h) cs' 0 ->
  extent a cs' = extent a cs -> Forall cell_ok cs' -> wf a (set_blocks h B') cs'.
Proof.
  intros [] Hne Hr He Hc. split; try done. simpl. congruence.
Qed.

Lemma wf_cell_range a h pre c post :
  wf a h (pre ++ c :: post) ->
  let b := heap_start h + extent a pre in
  2 ^ 31 <= b /\ 0 <= c.1 /\ 0 <= extent a pre /\ 0 <= extent a post /\
  b + sizeof_heap_block a + c.1 + extent a post = heap_end h /\ heap_end h < 2 ^ ptr_bits a.
Proof.
  intros [_ _ He Hok _ Hbase _ Hmax]. simpl.
  apply Forall_app in Hok as [Hpre [[Hc _] Hpost]%Forall_cons_1].
  pose proof (base_pos a). pose proof (extent_nonneg a pre Hpre).
  pose proof (extent_nonneg a post Hpost).
  rewrite extent_app in He. simpl in He. lia.
Qed.

(** The forward link of a cell points at the next header. *)
Lemma repr_next a B prev cur c post :
  repr a B prev cur (c :: post) 0 ->
  let nx := match post with [] => 0 | _ => cur + sizeof_heap_block a + c.1 end in
  B !! cur = Some (HeapBlock c.1 c.2 nx prev HEAP_MAGIC) /\
  (nx <> 0 -> exists d post', post = d :: post' /\ nx = cur + sizeof_heap_block a + c.1 /\
     B !! nx = Some (HeapBlock d.1 d.2
       (match post' with [] => 0 | _ => nx + sizeof_heap_block a + d.1 end) cur HEAP_MAGIC)).
Proof.
  simpl. intros [Hb Hr]. split; [done|]. destruct post as [|d post]; [done|].
  intros _. exists d, post. by destruct Hr as [Hd _].
Qed.

Lemma take_block_ok a n sz :
  0 <= n <= sz -> n mod 4 = 0 -> cell_ok (sz, true) ->
  Forall cell_ok (take_block a n sz) /\
  extent a (take_block a n sz) = sizeof_heap_block a + sz /\ take_block a n sz <> [].
Proof.
  intros Hn Hm [H1 H2]. simpl in *. pose proof (hdr_pos a). pose proof (hdr_mod4 a).
  unfold take_block. case_if; simpl; split_and!; try done; try lia.
  - repeat constructor; simpl; try lia. Z.to_euclidean_division_equations. lia.
  - repeat constructor; simpl; lia.
Qed.

(** Taking the free cell [sz] for [n] bytes: the memory then represents the
    layout with the cell replaced by [take_block]. *)
Lemma take_wf a h pre sz post n :
  let b := heap_start h + extent a pre in
  wf a h (pre ++ (sz, true) :: post) -> 0 <= n <= sz -> n mod 4 = 0 ->
  exists B', split a (set_is_free h b false) b n = set_blocks h B' /\
    wf a (set_blocks h B') (pre ++ take_block a n sz ++ post).
Proof.
  intros b Hwf Hn Hm. pose proof (wf_cell_range _ _ _ _ _ Hwf) as Hrg. fold b in Hrg. simpl in Hrg.
  pose proof (wf_cells _ _ _ Hwf) as Hok. pose proof (wf_repr _ _ _ Hwf) as Hr.
  apply Forall_app in Hok as [Hpre [Hc Hpost]%Forall_cons_1].
  apply repr_app in Hr as [Hr1 Hr2]. fold b in Hr2.
  pose proof (repr_next _ _ _ _ _ _ Hr2) as [Hb Hnx]. destruct Hr2 as [_ Hr3].
  simpl in Hb, Hnx, Hr3. pose proof (hdr_pos a).
  destruct (take_block_ok a n sz Hn Hm Hc) as (Ht1 & Ht2 & Ht3).
  pose proof (wf_base _ _ _ Hwf) as Hbase. pose proof (base_pos a) as Hpos.
  assert (exists B', split a (set_is_free h b false) b n = set_blocks h B' /\
    (forall q, heap_start h <= q < b -> B' !! q = blocks h !! q) /\
    repr a B' (last_addr a 0 (heap_start h) pre) b (take_block a n sz ++ post) 0) as (B' & E & HB & HR).
  2:{ exists B'. split; [done|]. apply (wf_set_blocks _ _ _ _ _ Hwf).
      - by destruct pre, (take_block a n sz).
      - apply repr_app. split; [|done].
        destruct (take_block a n sz ++ post) eqn:Et; [by destruct (take_block a n sz)|].
        apply (repr_frame a (blocks h)); [done| |done]. intros q Hq. apply HB. lia.
      - rewrite !extent_app, Ht2. simpl. lia.
      - by rewrite !Forall_app. }
  unfold take_block in *. destruct (n + sizeof_heap_block a + 16 <=? sz) eqn:Es; zify_bool.
  - destruct (split_blocks a h b sz (match post with [] => 0 | _ => b + sizeof_heap_block a + sz end)
      (last_addr a 0 (heap_start h) pre) n
      (get_block h (b + sizeof_heap_block a + sz)) (b + sizeof_heap_block a + n))
      as (B' & E & H1 & H2 & H3 & H4); try done; try lia.
    { intros Hne. destruct (Hnx Hne) as (d & post' & -> & Hx & Hd).
      split; [|lia]. by rewrite (get_block_Some _ _ _ Hd). }
    exists B'. split_and!; [done| |].
    + intros q Hq. apply H4; try lia. destruct post; lia.
    + simpl. split; [done|]. split.
      { rewrite H2. do 2 f_equal. destruct post; [done|]. lia. }
      replace (b + sizeof_heap_block a + n + sizeof_heap_block a + (sz - n - sizeof_heap_block a))
        with (b + sizeof_heap_block a + sz) by lia.
      apply (repr_relink a (blocks h) _ b); [done|done| |].
      * intros k Hne Hk. destruct post as [|d post']; [done|].
        specialize (H3 ltac:(lia)). rewrite (get_block_Some _ _ _ Hk) in H3. done.
      * intros q Hq. destruct post as [|d post']; simpl in *; [lia|]. apply H4; lia.
  - exists (<[b := HeapBlock sz false (match post with [] => 0 | _ => b + sizeof_heap_block a + sz end)
      (last_addr a 0 (heap_start h) pre) HEAP_MAGIC]> (blocks h)). split_and!.
    + unfold split. read_blocks. rewrite Z.eqb_refl. cbn [negb].
      rewrite (uptr_small a (n + sizeof_heap_block a + 16)) by (destruct a; simpl in *; lia).
      assert ((n + sizeof_heap_block a + 16 <=? sz) = false) as -> by lia. done.
    + intros q Hq. rewrite lookup_insert_ne by lia. done.
    + simpl. split; [by rewrite lookup_insert_eq|].
      apply (repr_frame a (blocks h)); [done| |done]. intros q Hq. rewrite lookup_insert_ne by lia. done.
Qed.

(** *** Coalescing *)

(** [B'] is [B] after header [x] (payload [sx], flag [fx], back link [px])
    absorbed its successor (payload [sy], forward link [ny]). *)
Definition absorbs (a : arch) B B' (x px sx : Z) (fx : bool) (sy ny : Z) : Prop :=
  B' !! x = Some (HeapBlock (sx + (sizeof_heap_block a + sy)) fx ny px HEAP_MAGIC) /\
  (forall kn, ny <> 0 -> B !! ny = Some kn -> B' !! ny = Some (with_prev kn x)) /\
  (forall q, q <> x -> q <> ny -> B' !! q = B !! q).

Lemma absorb_wf a h B' l pre sx fx sy fy post :
  let x := heap_start h + extent a pre in
  let y := x + sizeof_heap_block a + sx in
  let ny := match post with [] => 0 | _ => y + sizeof_heap_block a + sy end in
  wf a h (pre ++ (sx, fx) :: (sy, fy) :: post) ->
  absorbs a (blocks h) B' x (last_addr a 0 (heap_start h) pre) sx fx sy ny ->
  wf a (set_last_block (set_blocks h B') l) (pre ++ (sx + (sizeof_heap_block a + sy), fx) :: post).
Proof.
  intros x y ny Hwf (H1 & H2 & H3).
  pose proof (wf_cell_range _ _ _ _ _ Hwf) as Hrg. fold x in Hrg. simpl in Hrg.
  pose proof (wf_cells _ _ _ Hwf) as Hok. pose proof (wf_repr _ _ _ Hwf) as Hr.
  pose proof (wf_base _ _ _ Hwf) as Hbase. pose proof (base_pos a) as Hpos.
  apply Forall_app in Hok as [Hpre [[Hx Hx4] [[Hy Hy4] Hpost]%Forall_cons_1]%Forall_cons_1].
  simpl in Hx, Hx4, Hy, Hy4. pose proof (hdr_pos a). pose proof (hdr_mod4 a).
  pose proof (extent_nonneg a post Hpost).
  apply repr_app in Hr as [Hr1 Hr2]. fold x in Hr1, Hr2. destruct Hr2 as [Hbx [Hby Hr3]].
  simpl in Hbx, Hby, Hr3. fold y in Hby, Hr3.
  assert (wf a (set_blocks h B') (pre ++ (sx + (sizeof_heap_block a + sy), fx) :: post)) as [];
    [|by split].
  apply (wf_set_blocks _ _ _ _ _ Hwf).
  - by destruct pre.
  - apply repr_app. fold x. split.
    + apply (repr_frame a (blocks h)); [done| |done]. intros q Hq. apply H3; [lia|].
      unfold ny, y. destruct post; lia.
    + simpl. split.
      { rewrite H1. do 2 f_equal. unfold ny, y. destruct post; lia. }
      replace (x + sizeof_heap_block a + (sx + (sizeof_heap_block a + sy)))
        with (y + sizeof_heap_block a + sy) by (unfold y; lia).
      apply (repr_relink a (blocks h) _ y); [done|done| |].
      * intros k Hne Hk. destruct post as [|d post]; [done|]. apply (H2 k); [unfold ny, y; lia|done].
      * intros q Hq. apply H3; [unfold y in *; lia|]. unfold ny. destruct post; simpl in *; lia.
  - rewrite !extent_app. simpl. lia.
  - apply Forall_app. split; [done|]. constructor; [|done]. split; simpl; [lia|].
    Z.to_euclidean_division_equations. lia.
Qed.

(** [coalesce_next] on a free successor absorbs it. *)
Lemma coalesce_next_blocks a h b pv s1 y s2 n2 pv2 :
  blocks h !! b = Some (HeapBlock s1 true y pv HEAP_MAGIC) ->
  blocks h !! y = Some (HeapBlock s2 true n2 pv2 HEAP_MAGIC) ->
  y <> 0 -> y <> b -> n2 <> b -> n2 <> y ->
  0 <= s1 + (sizeof_heap_block a + s2) < 2 ^ ptr_bits a ->
  exists B', coalesce_next a h b =
      Some (set_last_block (set_blocks h B') (if y =? last_block h then b else last_block h)) /\
    absorbs a (blocks h) B' b pv s1 true s2 n2.
Proof.
  intros Hb Hy Hy0 Hyb Hn1 Hn2 Hw. unfold coalesce_next. read_blocks.
  assert ((y =? 0) = false) as -> by lia. rewrite Z.eqb_refl. cbn [negb andb].
  destruct (y =? last_block h) eqn:El; read_blocks; rewrite (uptr_small a) by done;
    destruct (n2 =? 0) eqn:E; zify_bool; cbn [negb]; read_blocks;
    (eexists; split; [collapse_heap; reflexivity|]);
    (split_and!; [read_map|intros kn Hk0 Hkn; try done; read_blocks; read_map|intros q ? ?; read_map]).
Qed.

Lemma coalesce_prev_blocks a h b pv s1 p1 s2 n2 f2 :
  blocks h !! pv = Some (HeapBlock s1 true b p1 HEAP_MAGIC) ->
  blocks h !! b = Some (HeapBlock s2 f2 n2 pv HEAP_MAGIC) ->
  pv <> 0 -> pv <> b -> n2 <> b -> n2 <> pv ->
  0 <= s1 + (sizeof_heap_block a + s2) < 2 ^ ptr_bits a ->
  exists B', coalesce_prev a h b =
      set_last_block (set_blocks h B') (if b =? last_block h then pv else last_block h) /\
    absorbs a (blocks h) B' pv p1 s1 true s2 n2.
Proof.
  intros Hp Hb Hp0 Hpb Hn1 Hn2 Hw. unfold coalesce_prev. read_blocks.
  assert ((pv =? 0) = false) as -> by lia. rewrite Z.eqb_refl. cbn [negb andb].
  destruct (b =? last_block h) eqn:El; read_blocks; rewrite (uptr_small a) by done;
    destruct (n2 =? 0) eqn:E; zify_bool; cbn [negb]; read_blocks;
    (eexists; split; [collapse_heap; reflexivity|]);
    (split_and!; [read_map|intros kn Hk0 Hkn; try done; read_blocks; read_map|intros q ? ?; read_map]).
Qed.

Lemma heap_eta h : set_last_block (set_blocks h (blocks h)) (last_block h) = h.
Proof. by destruct h. Qed.

Lemma last_addr_ge a c cs : forall prev cur, Forall cell_ok (c :: cs) -> cur <= last_addr a prev cur (c :: cs).
Proof.
  revert c. induction cs as [|d cs IH]; intros c prev cur Hok; [simpl; lia|].
  apply Forall_cons_1 in Hok as [[Hc _] Hok]. pose proof (hdr_pos a).
  change (cur <= last_addr a cur (cur + sizeof_heap_block a + c.1) (d :: cs)).
  etransitivity; [|by apply IH]. lia.
Qed.

(** Absorbing a cell keeps track of the last block. *)
Lemma absorb_last a h pre sx fx sy fy post :
  let x := heap_start h + extent a pre in
  let y := x + sizeof_heap_block a + sx in
  wf a h (pre ++ (sx, fx) :: (sy, fy) :: post) ->
  last_ok a h (pre ++ (sx, fx) :: (sy, fy) :: post) ->
  (if y =? last_block h then x else last_block h) =
    last_addr a 0 (heap_start h) (pre ++ (sx + (sizeof_heap_block a + sy), fx) :: post).
Proof.
  intros x y Hwf Hl. pose proof (wf_cells _ _ _ Hwf) as Hok. pose proof (hdr_pos a).
  apply Forall_app in Hok as [Hpre [[Hx _] [[Hy _] Hpost]%Forall_cons_1]%Forall_cons_1].
  simpl in Hx, Hy. unfold last_ok in Hl. rewrite Hl, !last_addr_app. fold x. simpl. fold y.
  replace (x + sizeof_heap_block a + (sx + (sizeof_heap_block a + sy)))
    with (y + sizeof_heap_block a + sy) by (unfold y; lia).
  destruct post as [|d post]; simpl last_addr at 1; [by rewrite Z.eqb_refl|].
  pose proof (last_addr_ge a d post y (y + sizeof_heap_block a + sy) Hpost) as Hge.
  assert ((y =? last_addr a y (y + sizeof_heap_block a + sy) (d :: post)) = false) as E by lia.
  simpl in E |- *. by rewrite E.
Qed.

Lemma free_wf a h pre sz f post :
  let b := heap_start h + extent a pre in
  wf a h (pre ++ (sz, f) :: post) -> wf a (set_is_free h b true) (pre ++ (sz, true) :: post).
Proof.
  intros b Hwf. pose proof (wf_cell_range _ _ _ _ _ Hwf) as Hrg. fold b in Hrg. simpl in Hrg.
  pose proof (wf_cells _ _ _ Hwf) as Hok. pose proof (wf_repr _ _ _ Hwf) as Hr.
  apply Forall_app in Hok as [Hpre [Hc Hpost]%Forall_cons_1].
  apply repr_app in Hr as [Hr1 [Hb Hr3]]. fold b in Hb, Hr3. simpl in Hr3. pose proof (hdr_pos a).
  rewrite set_is_free_put, (get_block_Some _ _ _ Hb). simpl.
  apply (wf_set_blocks _ _ _ _ _ Hwf); [by destruct pre| |by rewrite !extent_app|].
  - apply repr_app. fold b. split.
    + apply (repr_frame a (blocks h)); [done| |done]. intros q Hq. rewrite lookup_insert_ne by lia. done.
    + simpl. split; [by rewrite lookup_insert_eq|].
      apply (repr_frame a (blocks h)); [done| |done]. intros q Hq. rewrite lookup_insert_ne by lia. done.
  - apply Forall_app. split; [done|]. by constructor.
Qed.

Lemma coalesce_next_wf a h pre sz post :
  let b := heap_start h + extent a pre in
  let '(sz', post') := merge_next a sz post in
  wf a h (pre ++ (sz, true) :: post) ->
  exists B' l', coalesce_next a h b = Some (set_last_block (set_blocks h B') l') /\
    wf a (set_last_block (set_blocks h B') l') (pre ++ (sz', true) :: post') /\
    (last_ok a h (pre ++ (sz, true) :: post) ->
     l' = last_addr a 0 (heap_start h) (pre ++ (sz', true) :: post')).
Proof.
  intros b. destruct (merge_next a sz post) as [sz' post'] eqn:Em. intros Hwf.
  pose proof (wf_cell_range _ _ _ _ _ Hwf) as Hrg. fold b in Hrg. simpl in Hrg.
  pose proof (wf_cells _ _ _ Hwf) as Hok. pose proof (wf_repr _ _ _ Hwf) as Hr.
  apply Forall_app in Hok as [Hpre [[Hc _] Hpost]%Forall_cons_1]. simpl in Hc.
  apply repr_app in Hr as [_ Hr]. fold b in Hr. pose proof (hdr_pos a).
  assert (forall k, blocks h !! b = Some k -> hb_is_free (get_block h (hb_next k)) = false \/ hb_next k = 0 ->
    coalesce_next a h b = Some h) as Hskip.
  { intros k Hk Hf. unfold coalesce_next. rewrite (get_block_Some _ _ _ Hk).
    destruct Hf as [->| ->]; [by rewrite andb_false_r|done]. }
  destruct post as [|[s2 [|]] post]; simpl in Em; simplify_eq.
  - exists (blocks h), (last_block h). rewrite heap_eta. destruct Hr as [Hb _]. split_and!; [|done|done].
    apply (Hskip _ Hb). by right.
  - destruct Hr as [Hb [Hy _]]. simpl in Hb, Hy. pose proof (wf_cell_range _ _ _ _ _ Hwf).
    apply Forall_cons_1 in Hpost as [[Hs2 _] Hpost]. simpl in Hs2. simpl in Hrg.
    pose proof (extent_nonneg a post' Hpost).
    destruct (coalesce_next_blocks a h b _ _ _ _ _ _ Hb Hy) as (B' & E & Ha); try lia;
      [destruct post'; lia|destruct post'; lia|].
    exists B', (if (b + sizeof_heap_block a + sz =? last_block h) then b else last_block h).
    split_and!; [done|by eapply absorb_wf|]. intros Hl. by eapply absorb_last.
  - destruct Hr as [Hb [Hy _]]. simpl in Hb, Hy.
    exists (blocks h), (last_block h). rewrite heap_eta. split_and!; [|done|done].
    apply (Hskip _ Hb). left. simpl. by rewrite (get_block_Some _ _ _ Hy).
Qed.

Lemma coalesce_prev_wf a h pre sz post :
  let b := heap_start h + extent a pre in
  wf a h (pre ++ (sz, true) :: post) ->
  exists B' l', coalesce_prev a h b = set_last_block (set_blocks h B') l' /\
    wf a (set_last_block (set_blocks h B') l') (merge_prev a pre sz post) /\
    (last_ok a h (pre ++ (sz, true) :: post) ->
     l' = last_addr a 0 (heap_start h) (merge_prev a pre sz post)).
Proof.
  intros b Hwf. unfold merge_prev. pose proof (hdr_pos a).
  pose proof (wf_base _ _ _ Hwf) as Hbase. pose proof (base_pos a) as Hpos.
  pose proof (wf_repr _ _ _ Hwf) as Hr. apply repr_app in Hr as [Hr1 Hr2]. fold b in Hr1, Hr2.
  destruct Hr2 as [Hb _]. simpl in Hb.
  destruct pre as [|[s f] rpre _] using rev_ind.
  - exists (blocks h), (last_block h). rewrite heap_eta. split_and!; [|done|done].
    unfold coalesce_prev. rewrite (get_block_Some _ _ _ Hb). done.
  - rewrite reverse_app. simpl. rewrite last_addr_snoc in Hb.
    apply repr_app in Hr1 as [_ [Hp _]]. simpl in Hp.
    destruct f.
    + rewrite reverse_involutive. rewrite <- app_assoc in Hwf |- *. simpl in Hwf |- *.
      pose proof (wf_cell_range _ _ _ _ _ Hwf) as Hrg. simpl in Hrg.
      assert (b = heap_start h + extent a rpre + sizeof_heap_block a + s) as Hbe
        by (unfold b; rewrite extent_app; simpl; lia).
      pose proof (wf_cells _ _ _ Hwf) as Hok.
      apply Forall_app in Hok as [Hpre [[Hc _] [[Hs _] Hpost]%Forall_cons_1]%Forall_cons_1].
      simpl in Hc, Hs. pose proof (extent_nonneg a post Hpost).
      destruct (coalesce_prev_blocks a h b _ _ _ _ _ _ Hp Hb) as (B' & E & Ha); try lia;
        [destruct post; lia|destruct post; lia|].
      exists B', (if (b =? last_block h) then heap_start h + extent a rpre else last_block h).
      rewrite Hbe in Ha |- *. split_and!; [by rewrite <- Hbe|by eapply absorb_wf|].
      intros Hl. by eapply absorb_last.
    + exists (blocks h), (last_block h). rewrite heap_eta. split_and!; [|done|done].
      unfold coalesce_prev. rewrite (get_block_Some _ _ _ Hb). cbn [hb_prev].
      rewrite (get_block_Some _ _ _ Hp). cbn [hb_is_free]. by rewrite andb_false_r.
Qed.

(** *** Growing the heap *)

(** The page provider grants [n] frames and maps them from [virt] on. *)
Fixpoint granted (n : nat) (virt : Z) (p : P) : bool :=
  match n with
  | O => true
  | S n =>
      match pp_alloc_frame p with
      | (None, _) => false
      | (Some frame, p) => let '(ok, p) := pp_map_page virt frame p in ok && granted n (virt + PAGE_SIZE) p
      end
  end.

(** The heap has room for [k] more pages: below [heap_max], inside the
    direct map of the 64-bit targets, granted by the page provider on i686. *)
Definition can_grow (a : arch) h (k : Z) : bool :=
  let e := heap_end h + k * PAGE_SIZE in
  (e <=? heap_max h) &&
  match a with
  | I686 => granted (Z.to_nat k) (heap_end h) (hpages h)
  | X86_64 => VIRT_TO_PHYS a e <=? 0x40000000
  | ARM64 => VIRT_TO_PHYS a e <=? 0x100000000
  end.

Definition pages_for (n : Z) : Z := (n + PAGE_SIZE - 1) / PAGE_SIZE.

Lemma expand_pages_granted n : forall i old p,
  (expand_pages n i old p).1 = granted n (old + Z.of_nat i * PAGE_SIZE) p.
Proof.
  induction n as [|n IH]; intros i old p; [done|]. cbn [expand_pages granted].
  destruct (pp_alloc_frame p) as [[f|] p1]; [|done].
  destruct (pp_map_page _ f p1) as [[|] p2]; [|done]. rewrite IH. simpl. f_equal. lia.
Qed.

Lemma expand_can_grow a h sz :
  0 <= sz -> heap_end h + sz + PAGE_SIZE - 1 < 2 ^ ptr_bits a -> 0 <= heap_end h ->
  (expand a h sz).1 = can_grow a h (pages_for sz).
Proof.
  intros Hsz Hw He. unfold expand, can_grow, pages_for.
  rewrite (uptr_small a (sz + PAGE_SIZE - 1)) by (unfold PAGE_SIZE in *; lia).
  set (k := (sz + PAGE_SIZE - 1) / PAGE_SIZE).
  assert (0 <= k /\ sz <= k * PAGE_SIZE < sz + PAGE_SIZE) as Hk.
  { unfold k, PAGE_SIZE. Z.to_euclidean_division_equations. lia. }
  rewrite (uptr_small a (heap_end h + k * PAGE_SIZE)) by (unfold PAGE_SIZE in *; lia).
  rewrite Z.leb_antisym. destruct (heap_max h <? _) eqn:E; [done|]. cbn [negb andb]. destruct a.
  - pose proof (expand_pages_granted (Z.to_nat k) 0 (heap_end h) (hpages h)) as Hg.
    rewrite Z.add_0_r in Hg. rewrite <- Hg. by destruct (expand_pages _ _ _ _) as [[|] p].
  - rewrite Z.leb_antisym. by case_if.
  - rewrite Z.leb_antisym. by case_if.
Qed.

Lemma expand_true a h sz h' :
  expand a h sz = (true, h') ->
  0 <= sz -> heap_end h + sz + PAGE_SIZE - 1 < 2 ^ ptr_bits a -> 0 <= heap_end h ->
  exists k m' p', k = pages_for sz /\ 0 <= k /\ sz <= k * PAGE_SIZE < sz + PAGE_SIZE /\ heap_end h + k * PAGE_SIZE <= heap_max h /\
    (forall q, q < heap_end h -> rd m' q = rd (hmem h) q) /\
    h' = set_heap_end (set_hpages (set_hmem h m') p') (heap_end h + k * PAGE_SIZE).
Proof.
  intros H Hsz Hw He. unfold expand in H.
  rewrite (uptr_small a (sz + PAGE_SIZE - 1)) in H by (unfold PAGE_SIZE in *; lia).
  set (k := (sz + PAGE_SIZE - 1) / PAGE_SIZE) in *.
  assert (0 <= k /\ sz <= k * PAGE_SIZE < sz + PAGE_SIZE) as Hk.
  { unfold k, PAGE_SIZE. Z.to_euclidean_division_equations. lia. }
  rewrite (uptr_small a (heap_end h + k * PAGE_SIZE)) in H by (unfold PAGE_SIZE in *; lia).
  case_if_in H; [done|].
  destruct a.
  - destruct (expand_pages _ _ _ _) as [ok p']. case_if_in H; [|done]. simplify_eq.
    exists k, (hmem h), p'. destruct h. by split_and!; try lia.
  - case_if_in H; [done|]. simplify_eq.
    exists k, (memset (hmem h) (heap_end h) 0 (Z.to_nat (k * PAGE_SIZE))), (hpages h).
    split; [reflexivity|]. split_and!; try lia; [|reflexivity]. intros q Hq. rewrite memset_filled. zcases.
  - case_if_in H; [done|]. simplify_eq.
    exists k, (memset (hmem h) (heap_end h) 0 (Z.to_nat (k * PAGE_SIZE))), (hpages h).
    split; [reflexivity|]. split_and!; try lia; [|reflexivity]. intros q Hq. rewrite memset_filled. zcases.
Qed.

Lemma expand_false a h sz h' :
  expand a h sz = (false, h') -> exists p', h' = set_hpages h p'.
Proof.
  assert (h = set_hpages h (hpages h)) as Heta by by destruct h.
  unfold expand. intros H. case_if_in H; [simplify_eq; eauto|]. destruct a.
  - destruct (expand_pages _ _ _ _) as [ok p']. case_if_in H; [done|]. simplify_eq. eauto.
  - case_if_in H; [|done]. simplify_eq. eauto.
  - case_if_in H; [|done]. simplify_eq. eauto.
Qed.

(** Extending a layout by one cell: the old last header is relinked. *)
Lemma repr_snoc a B B' cs c d prev cur nxt :
  Forall cell_ok (cs ++ [c]) -> 
  repr a B prev cur (cs ++ [c]) nxt ->
  let x := cur + extent a cs in
  let e := cur + extent a (cs ++ [c]) in
  (forall k, B !! x = Some k -> B' !! x = Some (with_next k e)) ->
  (forall q, cur <= q < e -> q <> x -> B' !! q = B !! q) ->
  B' !! e = Some (HeapBlock d.1 d.2 0 x HEAP_MAGIC) ->
  repr a B' prev cur ((cs ++ [c]) ++ [d]) 0.
Proof.
  intros Hok Hr x e H1 H2 H3. pose proof (hdr_pos a).
  apply Forall_app in Hok as [Hcs [[Hc _] _]%Forall_cons_1].
  apply repr_app in Hr as [Hr1 [Hx _]]. fold x in Hr1, Hx.
  pose proof (extent_nonneg a cs Hcs).
  assert (e = x + sizeof_heap_block a + c.1) as He by (unfold e, x; rewrite extent_app; simpl; lia).
  apply repr_app. split.
  - apply repr_app. fold x. split.
    + apply (repr_frame a B); [done| |done]. intros q Hq. apply H2; lia.
    + simpl. split; [|done]. by rewrite (H1 _ Hx).
  - rewrite last_addr_snoc. fold x e. simpl. done.
Qed.

Lemma append_wf a h cs k m p :
  wf a h cs -> last_ok a h cs -> 0 <= k -> sizeof_heap_block a <= k * PAGE_SIZE ->
  heap_end h + k * PAGE_SIZE <= heap_max h ->
  let h1 := set_heap_end (set_hpages (set_hmem h m) p) (heap_end h + k * PAGE_SIZE) in
  let sz := k * PAGE_SIZE - sizeof_heap_block a in
  exists h2, kmalloc_append a h1 (heap_end h) = (h2, heap_end h + sizeof_heap_block a) /\
    wf a h2 (cs ++ [(sz, false)]) /\ last_ok a h2 (cs ++ [(sz, false)]) /\
    hmem h2 = m /\ hpages h2 = p /\ heap_lock h2 = heap_lock h /\
    heap_end h2 = heap_end h + k * PAGE_SIZE /\ heap_start h2 = heap_start h.
Proof.
  intros Hwf Hl Hk Hh Hmax h1 sz. pose proof (hdr_pos a). pose proof (hdr_mod4 a).
  pose proof (wf_base _ _ _ Hwf) as Hbase. pose proof (base_pos a) as Hpos.
  pose proof (wf_cells _ _ _ Hwf) as Hok. pose proof (wf_repr _ _ _ Hwf) as Hr.
  pose proof (wf_end _ _ _ Hwf) as He. pose proof (wf_max _ _ _ Hwf) as Hm.
  destruct (wf_aligned _ _ _ Hwf) as [Ha1 Ha2].
  pose proof (wf_ne _ _ _ Hwf) as Hne. unfold last_ok in Hl.
  destruct cs as [|c cs _] using rev_ind; [done|]. rewrite last_addr_snoc in Hl.
  pose proof (extent_nonneg a _ Hok).
  assert (heap_end h = heap_start h + extent a cs + sizeof_heap_block a + c.1) as Hend.
  { rewrite <- He, extent_app. simpl. lia. }
  apply Forall_app in Hok as Hok'. destruct Hok' as [Hcs [[Hc _] _]%Forall_cons_1].
  pose proof (extent_nonneg a _ Hcs).
  set (x := heap_start h + extent a cs) in *.
  assert (blocks h !! x = Some (HeapBlock c.1 c.2 0 (last_addr a 0 (heap_start h) cs) HEAP_MAGIC)) as Hx
    by (apply repr_app in Hr as [_ [Hx _]]; done).
  unfold kmalloc_append. cbn [heap_end set_heap_end last_block put_block set_blocks h1].
  cbn [set_hpages set_hmem last_block]. rewrite Hl.
  assert ((x =? 0) = false) as -> by lia. cbn [negb].
  rewrite (uptr_small a) by lia.
  rewrite (uptr_small a (heap_end h + sizeof_heap_block a)) by lia.
  eexists. split; [reflexivity|]. split_and!; try done.
  - split; simpl; try done.
    + destruct cs; done.
    + apply (repr_snoc a (blocks h) _ cs c _ _ _ 0); [done|done| | |].
      * fold x. intros kk Hkk. rewrite Hx in Hkk. simplify_eq.
        rewrite lookup_insert_eq. unfold get_block. simpl.
        rewrite lookup_insert_ne by lia. rewrite Hx, He. done.
      * fold x. rewrite He. intros q Hq1 Hq2. rewrite !lookup_insert_ne by lia. done.
      * rewrite He. fold x. rewrite lookup_insert_ne by lia.
        rewrite lookup_insert_eq. simpl. do 2 f_equal. unfold sz. lia.
    + rewrite extent_app. simpl. rewrite <- He. unfold sz. lia.
    + apply Forall_app. split; [done|]. repeat constructor; simpl; unfold sz, PAGE_SIZE in *; [lia|].
      Z.to_euclidean_division_equations. lia.
    + exact (wf_first _ _ _ Hwf).
    + split; [done|]. unfold PAGE_SIZE. rewrite Z.mod_add by lia. done.
    + lia.
  - unfold last_ok. simpl. rewrite last_addr_snoc. lia.
Qed.

(** *** Live allocations *)

(** Payload ranges (address, length) of the used cells. *)
Fixpoint live (a : arch) (cur : Z) (cs : list cell) : list (Z * Z) :=
  match cs with
  | [] => []
  | (sz, f) :: cs =>
      let rest := live a (cur + sizeof_heap_block a + sz) cs in
      if f then rest else (cur + sizeof_heap_block a, sz) :: rest
  end.

Lemma live_app a cs1 cs2 cur :
  live a cur (cs1 ++ cs2) = live a cur cs1 ++ live a (cur + extent a cs1) cs2.
Proof.
  revert cur. induction cs1 as [|[sz f] cs1 IH]; intros cur; simpl; [by rewrite Z.add_0_r|].
  rewrite IH. replace (cur + (sizeof_heap_block a + sz + extent a cs1))
    with (cur + sizeof_heap_block a + sz + extent a cs1) by lia. by destruct f.
Qed.

Lemma live_range a cs cur r :
  Forall cell_ok cs -> r ∈ live a cur cs ->
  cur + sizeof_heap_block a <= r.1 /\ r.1 + r.2 <= cur + extent a cs.
Proof.
  revert cur. induction cs as [|[sz f] cs IH]; intros cur Hok Hr; simpl in *; [by apply not_elem_of_nil in Hr|].
  apply Forall_cons_1 in Hok as [[Hc _] Hok]. simpl in Hc. pose proof (hdr_pos a).
  pose proof (extent_nonneg a cs Hok).
  destruct f; [|apply elem_of_cons in Hr as [->|Hr]; [simpl; lia|]]; apply IH in Hr; try done; lia.
Qed.

Lemma take_live a cur n sz post :
  live a cur (take_block a n sz ++ post) =
    (cur + sizeof_heap_block a, if n + sizeof_heap_block a + 16 <=? sz then n else sz)
      :: live a (cur + sizeof_heap_block a + sz) post.
Proof.
  unfold take_block. case_if; simpl; [|done]. do 2 f_equal. lia.
Qed.

Lemma release_live a cur pre sz post :
  live a cur (release a pre sz post) =
    live a cur pre ++ live a (cur + extent a pre + sizeof_heap_block a + sz) post.
Proof.
  unfold release. destruct (merge_next a sz post) as [sz' post'] eqn:Em.
  assert (live a (cur + extent a pre + sizeof_heap_block a + sz') post' =
          live a (cur + extent a pre + sizeof_heap_block a + sz) post) as <-.
  { destruct post as [|[s2 [|]] post]; simpl in Em; simplify_eq; simpl; [done| |done]. f_equal. lia. }
  unfold merge_prev. destruct pre as [|[s f] rpre _] using rev_ind.
  - simpl. by rewrite Z.add_0_r.
  - rewrite reverse_app. simpl. destruct f; simpl.
    + rewrite reverse_involutive, !live_app, extent_app. simpl. rewrite app_nil_r. f_equal. f_equal. lia.
    + rewrite <- app_assoc, !live_app, extent_app. simpl. rewrite <- app_assoc. simpl.
      f_equal. f_equal. f_equal. lia.
Qed.

(** *** Coalescing invariant *)

Lemma coalesced_cons c cs : coalesced (c :: cs) -> coalesced cs.
Proof. destruct c as [s [|]], cs as [|[s' [|]] cs]; simpl; tauto. Qed.

(** A layout is coalesced when its two halves are and they do not meet in
    two free cells. *)
Lemma coalesced_app cs1 cs2 :
  coalesced (cs1 ++ cs2) <->
  coalesced cs1 /\ coalesced cs2 /\
  ~ (exists s1 s2 : Z, list.last cs1 = Some (s1, true) /\ head cs2 = Some (s2, true)).
Proof.
  induction cs1 as [|c cs1 IH]; simpl.
  - split; [|tauto]. intros H. split_and!; [done|done|]. by intros (s1 & s2 & ? & ?).
  - destruct cs1 as [|d cs1].
    + simpl. destruct c as [s [|]], cs2 as [|[s' [|]] cs2]; simpl;
        (split;
         [intros Hc; split_and!; try done; intros (s1 & s2 & ? & ?); simplify_eq
         |intros (_ & H2 & H3); first [done | exfalso; apply H3; eauto]]).
    + rewrite last_cons_cons. destruct c as [s [|]], d as [s' [|]]; simpl in *; tauto.
Qed.

Lemma coalesced_take a n pre sz post :
  coalesced (pre ++ (sz, true) :: post) -> coalesced (pre ++ take_block a n sz ++ post).
Proof.
  rewrite !(coalesced_app pre). intros (H1 & H2 & H3). pose proof (coalesced_cons _ _ H2) as H4.
  split_and!; [done| |].
  - unfold take_block. case_if; simpl; [by destruct post as [|[? [|]] ?]|done].
  - unfold take_block. case_if; simpl; by intros (s1 & s2 & ? & ?).
Qed.

Lemma coalesced_release a pre sz f post :
  coalesced (pre ++ (sz, f) :: post) -> coalesced (release a pre sz post).
Proof.
  rewrite coalesced_app. intros (H1 & H2 & H3). pose proof (coalesced_cons _ _ H2) as H4.
  unfold release. destruct (merge_next a sz post) as [sz' post'] eqn:Em.
  assert (forall s, coalesced ((s, true) :: post')) as H5.
  { intros s. destruct post as [|[s2 [|]] post]; simpl in Em; simplify_eq; simpl; [done| |done].
    destruct post' as [|[? [|]] ?]; simpl in *; try done. }
  unfold merge_prev. destruct pre as [|[s g] rpre _] using rev_ind; [apply H5|].
  rewrite reverse_app. simpl. destruct g.
  - rewrite reverse_involutive. apply coalesced_app in H1 as (H1 & _ & H6).
    apply coalesced_app. split_and!; [done|apply H5|].
    intros (s1 & s2 & Hl & Hh). apply H6. eauto.
  - apply coalesced_app. split_and!; [done|apply H5|].
    intros (s1 & s2 & Hl & Hh). rewrite last_snoc in Hl. done.
Qed.

(** *** kmalloc and kfree on well-formed heaps *)

Lemma align4_spec a n :
  0 < n -> n + 3 < 2 ^ ptr_bits a -> n <= align4 a n < n + 4 /\ align4 a n mod 4 = 0.
Proof.
  intros Hn Hw. unfold align4. rewrite uptr_small by lia.
  pose proof (ptr_bits_pos a).
  destruct (align_up_mask (ptr_bits a) 2 n) as [H1 H2]; [destruct a; simpl; lia|lia|lia|].
  change (2 ^ 2) with 4 in *. replace (n + 4 - 1) with (n + 3) in * by lia. lia.
Qed.

Lemma wf_set_lock a h cs l : wf a h cs -> wf a (set_heap_lock h l) cs.
Proof. intros []. by split. Qed.

Lemma wf_set_pages a h cs p : wf a h cs -> wf a (set_hpages h p) cs.
Proof. intros []. by split. Qed.

(** The guards of [kmalloc] and the start of its scan. *)
Lemma kmalloc_unfold a h cs n :
  wf a h cs -> lock_free (heap_lock h) -> 0 < n ->
  let h1 := set_heap_lock h (LockSt SPINLOCK_LOCKED false) in
  kmalloc a h n =
    match first_fit (align4 a n) cs with
    | Some (pre, sz, post) =>
        let b := heap_start h + extent a pre in
        Some (uptr a (b + sizeof_heap_block a),
              heap_unlock (split a (set_is_free h1 b false) b (align4 a n)) (lk_irq (heap_lock h)))
    | None =>
        match expand a h1 (uptr a (align4 a n + sizeof_heap_block a)) with
        | (false, h2) => Some (0, heap_unlock h2 (lk_irq (heap_lock h)))
        | (true, h2) =>
            let '(h3, ptr) := kmalloc_append a h2 (heap_end h) in
            Some (ptr, heap_unlock h3 (lk_irq (heap_lock h)))
        end
    end.
Proof.
  intros Hwf Hl Hn h1. unfold kmalloc. assert ((n =? 0) = false) as -> by lia.
  rewrite lock_irqsave_free by done. cbn [mbind option_bind]. fold h1.
  pose proof (wf_base _ _ _ Hwf) as Hbase. pose proof (base_pos a) as Hpos.
  pose proof (wf_repr _ _ _ Hwf) as Hr. pose proof (wf_cells _ _ _ Hwf) as Hok.
  assert (first_block h1 = heap_start h) as -> by apply (wf_first _ _ _ Hwf).
  assert ((heap_start h =? 0) = false) as -> by lia.
  assert ((heap_start h <? KERNEL_VIRTUAL_BASE a) = false) as -> by lia.
  assert (hb_magic (get_block h1 (heap_start h)) = HEAP_MAGIC) as ->.
  { pose proof (wf_ne _ _ _ Hwf). destruct cs as [|c cs]; [done|]. destruct Hr as [Hb _].
    unfold get_block. simpl. by rewrite Hb. }
  rewrite Z.eqb_refl. cbn [negb orb].
  pose proof (kmalloc_scan_spec a h1 (align4 a n) cs 0 (heap_start h) (scan_fuel h1)) as Hs.
  pose proof (wf_ne _ _ _ Hwf). destruct cs as [|c cs]; [done|].
  rewrite Hs; [|done|done|done|].
  - by destruct (first_fit (align4 a n) (c :: cs)) as [[[pre sz] post]|].
  - unfold scan_fuel. simpl. pose proof (repr_size _ _ _ _ _ _ Hok Hr). simpl in *. lia.
Qed.

Lemma unlock_restores h h' :
  lock_free (heap_lock h) -> heap_lock h' = LockSt SPINLOCK_LOCKED false ->
  heap_lock (heap_unlock h' (lk_irq (heap_lock h))) = heap_lock h.
Proof. intros Hl Hh. unfold heap_unlock. simpl. rewrite Hh. by apply lock_section_restores. Qed.

Lemma kmalloc_fit a h cs n pre sz post :
  wf a h cs -> lock_free (heap_lock h) -> 0 < n -> n + 3 < 2 ^ ptr_bits a ->
  first_fit (align4 a n) cs = Some (pre, sz, post) ->
  exists h', kmalloc a h n = Some (heap_start h + extent a pre + sizeof_heap_block a, h') /\
    wf a h' (pre ++ take_block a (align4 a n) sz ++ post) /\
    heap_lock h' = heap_lock h /\ hmem h' = hmem h /\ heap_start h' = heap_start h /\
    heap_end h' = heap_end h.
Proof.
  intros Hwf Hl Hn Hw Hf. rewrite (kmalloc_unfold a h cs n) by done. rewrite Hf.
  destruct (first_fit_Some _ _ _ _ _ Hf) as (-> & Hle & _).
  destruct (align4_spec a n Hn Hw) as [Ha1 Ha2].
  pose proof (wf_cell_range _ _ _ _ _ Hwf) as Hrg. simpl in Hrg. pose proof (hdr_pos a).
  destruct (take_wf a (set_heap_lock h (LockSt SPINLOCK_LOCKED false)) pre sz post (align4 a n))
    as (B' & E & Hwf'); [by apply wf_set_lock|lia|done|].
  cbn zeta in *. change (heap_start (set_heap_lock h _)) with (heap_start h) in E.
  rewrite E, uptr_small by lia. eexists. split; [reflexivity|].
  split_and!; try done; [by apply wf_set_lock|by apply unlock_restores].
Qed.

Lemma kmalloc_grow a h cs n :
  wf a h cs -> lock_free (heap_lock h) -> 0 < n -> last_ok a h cs ->
  heap_end h + n + sizeof_heap_block a + PAGE_SIZE + 3 < 2 ^ ptr_bits a ->
  first_fit (align4 a n) cs = None ->
  exists r h', kmalloc a h n = Some (r, h') /\ heap_lock h' = heap_lock h /\
    heap_start h' = heap_start h /\
    (forall q, q < heap_end h -> rd (hmem h') q = rd (hmem h) q) /\
    ((r = 0 /\ can_grow a h (pages_for (align4 a n + sizeof_heap_block a)) = false /\ wf a h' cs /\ last_ok a h' cs) \/
     (exists sz, align4 a n <= sz /\ can_grow a h (pages_for (align4 a n + sizeof_heap_block a)) = true /\
        sz = pages_for (align4 a n + sizeof_heap_block a) * PAGE_SIZE - sizeof_heap_block a /\
        r = heap_end h + sizeof_heap_block a /\
        wf a h' (cs ++ [(sz, false)]) /\ last_ok a h' (cs ++ [(sz, false)]))).
Proof.
  intros Hwf Hl Hn Hlast Hw Hf. rewrite (kmalloc_unfold a h cs n) by done. rewrite Hf.
  pose proof (wf_base _ _ _ Hwf) as Hbase. pose proof (base_pos a) as Hpos.
  pose proof (extent_nonneg a cs (wf_cells _ _ _ Hwf)) as He.
  pose proof (wf_end _ _ _ Hwf) as Hend. unfold PAGE_SIZE in Hw. pose proof (hdr_pos a).
  destruct (align4_spec a n Hn) as [Ha1 Ha2]; [lia|].
  rewrite uptr_small by lia.
  set (h1 := set_heap_lock h _).
  pose proof (expand_can_grow a h1 (align4 a n + sizeof_heap_block a)) as Hg. unfold PAGE_SIZE in Hg at 1.
  specialize (Hg ltac:(lia) ltac:(unfold h1; simpl; lia) ltac:(unfold h1; simpl; lia)).
  change (can_grow a h1) with (can_grow a h) in Hg.
  destruct (expand a h1 _) as [[|] h2] eqn:Ex; cbn [fst] in Hg; rewrite <- Hg.
  - apply expand_true in Ex as (k & m' & p' & Hkp & Hk & Hks & Hkm & Hmm & ->);
      [|lia|unfold PAGE_SIZE, h1; simpl; lia|unfold h1; simpl; lia].
    destruct (append_wf a h1 cs k m' p') as (h3 & E & Hwf3 & Hl3 & Hm3 & Hp3 & Hlk3 & He3 & Hs3);
      [by apply wf_set_lock|done|done|lia|done|].
    change (heap_end h1) with (heap_end h) in *. rewrite E.
    eexists _, _. split; [reflexivity|]. split_and!.
    + by apply unlock_restores.
    + exact Hs3.
    + simpl. rewrite Hm3. exact Hmm.
    + right. exists (k * PAGE_SIZE - sizeof_heap_block a). split_and!; [lia|done|by rewrite Hkp|done|by apply wf_set_lock|].
      unfold last_ok in *. simpl. done.
  - apply expand_false in Ex as (p' & ->). eexists _, _. split; [reflexivity|]. split_and!; try done.
    + by apply unlock_restores.
    + left. split_and!; [done|done| |done]. apply wf_set_lock, wf_set_pages, wf_set_lock, Hwf.
Qed.

Lemma kfree_spec a h pre sz f post :
  let ptr := heap_start h + extent a pre + sizeof_heap_block a in
  wf a h (pre ++ (sz, f) :: post) -> lock_free (heap_lock h) ->
  exists h', kfree a h ptr = Some h' /\ wf a h' (release a pre sz post) /\
    (last_ok a h (pre ++ (sz, f) :: post) -> last_ok a h' (release a pre sz post)) /\
    heap_lock h' = heap_lock h /\ hmem h' = hmem h /\ heap_start h' = heap_start h.
Proof.
  intros ptr Hwf Hl. pose proof (wf_cell_range _ _ _ _ _ Hwf) as Hrg. simpl in Hrg.
  pose proof (hdr_pos a). unfold kfree, ptr. assert ((ptr =? 0) = false) as E0 by (unfold ptr; lia).
  unfold ptr in E0. rewrite E0. rewrite lock_irqsave_free by done. cbn [mbind option_bind].
  set (h1 := set_heap_lock h _).
  replace (heap_start h + extent a pre + sizeof_heap_block a - sizeof_heap_block a)
    with (heap_start h + extent a pre) by lia.
  rewrite uptr_small by lia. set (b := heap_start h + extent a pre) in *.
  assert (wf a h1 (pre ++ (sz, f) :: post)) as Hwf1 by by apply wf_set_lock.
  assert (hb_magic (get_block h1 b) = HEAP_MAGIC) as Hmg.
  { pose proof (wf_repr _ _ _ Hwf1) as Hr. apply repr_app in Hr as [_ [Hb _]].
    by rewrite (get_block_Some h1 b _ Hb). }
  rewrite Hmg, Z.eqb_refl. cbn [negb].
  pose proof (free_wf a h1 pre sz f post Hwf1) as Hwf2. set (h2 := set_is_free h1 _ true) in Hwf2.
  change (set_is_free h1 b true) with h2.
  unfold coalesce. assert (hb_magic (get_block h2 b) = HEAP_MAGIC) as Hmg2.
  { unfold h2. rewrite set_is_free_put. change (heap_start h1) with (heap_start h). fold b.
    rewrite get_put_eq. exact Hmg. }
  rewrite Hmg2, Z.eqb_refl. cbn [negb].
  pose proof (coalesce_next_wf a h2 pre sz post) as Hn. unfold release.
  destruct (merge_next a sz post) as [sz' post'].
  destruct (Hn Hwf2) as (B1 & l1 & E1 & Hwf3 & Hl1).
  change (heap_start h2) with (heap_start h) in E1. fold b in E1. rewrite E1.
  destruct (coalesce_prev_wf a _ pre sz' post' Hwf3) as (B2 & l2 & E2 & Hwf4 & Hl2).
  change (heap_start (set_last_block (set_blocks h2 B1) l1)) with (heap_start h) in E2.
  fold b in E2. rewrite E2. eexists. split; [reflexivity|].
  split_and!; try done; [by apply wf_set_lock| |by apply unlock_restores].
  intros Hlast. apply Hl2. apply Hl1. unfold last_ok in *. simpl. rewrite Hlast.
  by rewrite !last_addr_app.
Qed.

(** *** Refinement theorems *)

Lemma live_split a cs cur ptr sz :
  (ptr, sz) ∈ live a cur cs ->
  exists pre post, cs = pre ++ (sz, false) :: post /\ ptr = cur + extent a pre + sizeof_heap_block a.
Proof.
  revert cur. induction cs as [|[s f] cs IH]; intros cur Hin; simpl in Hin; [by apply not_elem_of_nil in Hin|].
  destruct f; [|apply elem_of_cons in Hin as [Heq|Hin]].
  - apply IH in Hin as (pre & post & -> & ->). exists ((s, true) :: pre), post. simpl. split; [done|lia].
  - simplify_eq. exists [], cs. simpl. split; [done|lia].
  - apply IH in Hin as (pre & post & -> & ->). exists ((s, false) :: pre), post. simpl. split; [done|lia].
Qed.

(** The cells before and after an allocation keep clear of it. *)
Lemma live_around a cs1 c cs2 cur r :
  Forall cell_ok (cs1 ++ c :: cs2) ->
  r ∈ live a cur cs1 ++ live a (cur + extent a cs1 + sizeof_heap_block a + c.1) cs2 ->
  r.1 + r.2 <= cur + extent a cs1 \/ cur + extent a cs1 + sizeof_heap_block a + c.1 <= r.1.
Proof.
  intros [Ho1 [Hc Ho2]%Forall_cons_1]%Forall_app [Hr|Hr]%elem_of_app; apply live_range in Hr; try done.
  - lia.
  - pose proof (hdr_pos a). lia.
Qed.

Definition ranges_disjoint (r : Z * Z) (n : Z * Z) : Prop := r.1 + r.2 <= n.1 \/ n.1 + n.2 <= r.1.

(** What an allocation of [n] bytes that returned [r] did to the layout. *)
Definition allocated (a : arch) (start n r : Z) cs cs' : Prop :=
  exists sz, n <= sz /\ r mod 4 = 0 /\
    live a start cs' ≡ₚ (r, sz) :: live a start cs /\
    Forall (fun x => ranges_disjoint x (r, sz)) (live a start cs) /\
    (coalesced cs -> coalesced cs').

Lemma allocated_fit a n start pre sz post :
  0 <= n <= sz -> start mod 4 = 0 -> Forall cell_ok (pre ++ (sz, true) :: post) ->
  allocated a start n (start + extent a pre + sizeof_heap_block a)
    (pre ++ (sz, true) :: post) (pre ++ take_block a n sz ++ post).
Proof.
  intros Hn Hs Hok. pose proof (hdr_pos a). pose proof (hdr_mod4 a).
  apply Forall_app in Hok as Hok'. destruct Hok' as [Hpre [Hc Hpost]%Forall_cons_1].
  exists (if n + sizeof_heap_block a + 16 <=? sz then n else sz). split_and!.
  - zcases.
  - pose proof (extent_mod4 a pre Hpre). Z.to_euclidean_division_equations. lia.
  - rewrite !(live_app a pre), take_live. simpl. by rewrite Permutation_middle.
  - rewrite live_app. simpl. apply Forall_forall. intros x Hx%list_elem_of_In.
    apply (live_around a pre (sz, true) post) in Hx; [|done]. unfold ranges_disjoint.
    simpl in *. case_if; lia.
  - apply coalesced_take.
Qed.

Lemma allocated_grow a n start cs sz :
  n <= sz -> start mod 4 = 0 -> Forall cell_ok cs ->
  allocated a start n (start + extent a cs + sizeof_heap_block a) cs (cs ++ [(sz, false)]).
Proof.
  intros Hn Hs Hok. pose proof (hdr_pos a). pose proof (hdr_mod4 a).
  exists sz. split_and!; [done| | | |].
  - pose proof (extent_mod4 a cs Hok). Z.to_euclidean_division_equations. lia.
  - rewrite live_app. simpl. by rewrite <- Permutation_cons_append.
  - apply Forall_forall. intros x Hx%list_elem_of_In. apply live_range in Hx; [|done]. unfold ranges_disjoint. simpl. lia.
  - intros Hc. apply coalesced_app. split_and!; [done|done|]. intros (s1 & s2 & _ & [=]).
Qed.

(** The specification of an allocation: the address and the new layout, or
    nothing.  The request is rounded up to a multiple of 4; the first free
    cell that fits is taken (and split if it is larger), else the heap grows
    by as many pages as the request needs. *)
Definition kmalloc_layout (a : arch) h (n : Z) cs : option (Z * list cell) :=
  let n := (n + 3) / 4 * 4 in
  match first_fit n cs with
  | Some (pre, sz, post) => Some (heap_start h + extent a pre + sizeof_heap_block a, pre ++ take_block a n sz ++ post)
  | None =>
      let k := pages_for (n + sizeof_heap_block a) in
      if can_grow a h k
      then Some (heap_end h + sizeof_heap_block a, cs ++ [(k * PAGE_SIZE - sizeof_heap_block a, false)])
      else None
  end.

Lemma align4_round a n : 0 < n -> n + 3 < 2 ^ ptr_bits a -> align4 a n = (n + 3) / 4 * 4.
Proof. intros Hn Hw. destruct (align4_spec a n Hn Hw). Z.to_euclidean_division_equations. lia. Qed.

Lemma kmalloc_exact a h cs n :
  wf a h cs -> lock_free (heap_lock h) -> 0 < n ->
  heap_end h + n + sizeof_heap_block a + PAGE_SIZE + 3 < 2 ^ ptr_bits a ->
  (first_fit (align4 a n) cs = None -> last_ok a h cs) ->
  exists r h' cs', kmalloc a h n = Some (r, h') /\ heap_lock h' = heap_lock h /\ wf a h' cs' /\
    match kmalloc_layout a h n cs with
    | Some (p, l) => r = p /\ r <> 0 /\ cs' = l /\ allocated a (heap_start h) n r cs l
    | None => r = 0 /\ cs' = cs
    end /\
    heap_start h' = heap_start h /\ (forall q, q < heap_end h -> rd (hmem h') q = rd (hmem h) q).
Proof.
  intros Hwf Hl Hn Hw Hlast. pose proof (wf_base _ _ _ Hwf). pose proof (base_pos a).
  pose proof (extent_nonneg a cs (wf_cells _ _ _ Hwf)). pose proof (wf_end _ _ _ Hwf) as Hend.
  destruct (wf_aligned _ _ _ Hwf) as [Hal _]. unfold PAGE_SIZE in Hw. pose proof (hdr_pos a).
  destruct (align4_spec a n Hn) as [Ha1 Ha2]; [lia|].
  assert (forall r cs', allocated a (heap_start h) (align4 a n) r cs cs' ->
    allocated a (heap_start h) n r cs cs') as Hweak.
  { intros r cs' (sz & ? & ?). exists sz. split; [lia|done]. }
  unfold kmalloc_layout. rewrite <- (align4_round a n) by lia. cbv zeta.
  destruct (first_fit (align4 a n) cs) as [[[pre sz] post]|] eqn:Ef.
  - destruct (kmalloc_fit a h cs n pre sz post) as (h' & E & Hwf' & Hlk & Hmm & Hst & _); try done; [lia|].
    destruct (first_fit_Some _ _ _ _ _ Ef) as (-> & Hle & _).
    pose proof (wf_cell_range _ _ _ _ _ Hwf) as Hrg. simpl in Hrg.
    eexists _, h', _. split_and!; [done|done|exact Hwf'|done|lia|done| |done|by rewrite Hmm].
    apply Hweak, allocated_fit; [lia|done|apply (wf_cells _ _ _ Hwf)].
  - destruct (kmalloc_grow a h cs n)
      as (r & h' & E & Hlk & Hst & Hmm & [(-> & Hg & Hwf' & _)|(sz & Hsz & Hg & Hsze & -> & Hwf' & _)]);
      try done; [by apply Hlast| |].
    + rewrite Hg. exists 0, h', cs. by split_and!.
    + rewrite Hg. eexists _, h', _. split_and!; [done|done|exact Hwf'|done|lia|by rewrite Hsze| |done|done].
      rewrite <- Hsze, <- Hend. apply Hweak, allocated_grow; [done|done|apply (wf_cells _ _ _ Hwf)].
Qed.

Lemma kmalloc_spec a h cs n :
  wf a h cs -> lock_free (heap_lock h) -> 0 < n ->
  heap_end h + n + sizeof_heap_block a + PAGE_SIZE + 3 < 2 ^ ptr_bits a ->
  (first_fit (align4 a n) cs = None -> last_ok a h cs) ->
  exists r h' cs', kmalloc a h n = Some (r, h') /\ heap_lock h' = heap_lock h /\ wf a h' cs' /\
    ((r = 0 /\ cs' = cs) \/ (r <> 0 /\ allocated a (heap_start h) n r cs cs')) /\
    heap_start h' = heap_start h /\ (forall q, q < heap_end h -> rd (hmem h') q = rd (hmem h) q).
Proof.
  intros Hwf Hl Hn Hw Hlast.
  destruct (kmalloc_exact a h cs n Hwf Hl Hn Hw Hlast) as (r & h' & cs' & E & Hlk & Hwf' & Hr & Hst & Hmm).
  exists r, h', cs'. split_and!; try done. destruct (kmalloc_layout a h n cs) as [[p l]|]; [right|by left].
  by destruct Hr as (-> & ? & -> & ?).
Qed.

Lemma kfree_live a h cs ptr sz :
  wf a h cs -> lock_free (heap_lock h) -> (ptr, sz) ∈ live a (heap_start h) cs ->
  exists h' cs', kfree a h ptr = Some h' /\ wf a h' cs' /\
    live a (heap_start h) cs ≡ₚ (ptr, sz) :: live a (heap_start h) cs' /\
    (coalesced cs -> coalesced cs') /\ (last_ok a h cs -> last_ok a h' cs') /\
    heap_lock h' = heap_lock h /\ hmem h' = hmem h /\ heap_start h' = heap_start h.
Proof.
  intros Hwf Hl Hin. apply live_split in Hin as (pre & post & -> & ->).
  destruct (kfree_spec a h pre sz false post Hwf Hl) as (h' & E & Hwf' & Hlast & Hlk & Hm & Hst).
  exists h', (release a pre sz post). split_and!; try done.
  - rewrite release_live, live_app. simpl. by rewrite <- Permutation_middle.
  - apply coalesced_release.
Qed.

(** C4: [kmalloc] refines the first-fit allocator [kmalloc_layout]: it
    returns, gives the lock and the interrupt flag back and keeps the chain
    well formed.  It takes the first free block that fits, or grows the heap
    by the pages needed, and the 4-aligned block of at least [n] bytes that it
    hands out overlaps no live allocation, the live allocations being the old
    ones and the new one, free blocks staying coalesced.  NULL is returned
    exactly when no free block fits and the heap cannot grow.  Two things are
    required: the sizes do not wrap, and, where the heap has to grow,
    [last_block] is the last block (splitting the last block breaks this). *)
Theorem kmalloc_refines a h cs n :
  wf a h cs -> lock_free (heap_lock h) -> 0 < n ->
  heap_end h + n + sizeof_heap_block a + PAGE_SIZE + 3 < 2 ^ ptr_bits a ->
  (first_fit (align4 a n) cs = None -> last_ok a h cs) ->
  exists r h' cs', kmalloc a h n = Some (r, h') /\ heap_lock h' = heap_lock h /\ wf a h' cs' /\
    match kmalloc_layout a h n cs with
    | Some (p, l) => r = p /\ r <> 0 /\ cs' = l /\ allocated a (heap_start h) n r cs l
    | None => r = 0 /\ cs' = cs
    end.
Proof.
  intros Hwf Hl Hn Hw Hlast.
  destruct (kmalloc_exact a h cs n Hwf Hl Hn Hw Hlast) as (r & h' & cs' & E & Hlk & Hwf' & Hr & _). by exists r, h', cs'.
Qed.

(** C18: [kfree] of a live pointer releases exactly that
    allocation: the chain stays well formed, the other live allocations stay
    where they are, the payload memory, the lock and the interrupt flag are
    as before, freed neighbours are merged (the layout is coalesced again)
    and [last_block] still is the last block if it was. *)
Theorem kfree_refines a h cs ptr sz :
  wf a h cs -> lock_free (heap_lock h) -> (ptr, sz) ∈ live a (heap_start h) cs ->
  exists h' cs', kfree a h ptr = Some h' /\ wf a h' cs' /\
    live a (heap_start h) cs ≡ₚ (ptr, sz) :: live a (heap_start h) cs' /\
    (coalesced cs -> coalesced cs') /\ (last_ok a h cs -> last_ok a h' cs') /\
    heap_lock h' = heap_lock h /\ hmem h' = hmem h /\ heap_start h' = heap_start h.
Proof. apply kfree_live. Qed.

End facts.
