(* ===== verification/HeapProps.v ===== *)
(** * Further properties of the kernel heap

    [heap_init] establishes the invariant of [HeapFacts]; aligned allocation,
    reallocation and the statistics of src/mm/heap.c; and two defects: the
    stale [last_block] after a split, which ends in overlapping live blocks,
    and the missing overflow checks for huge requests.  [CountingPages] is a
    concrete page provider for the evaluations. *)

From S2P Require Import Prelude Spinlock Mem Heap HeapFacts.

(** A page provider that numbers its frames and never runs out. *)
Definition CountingPages : PageProvider Z := {|
  pp_alloc_frame p := (Some (p * PAGE_SIZE), p + 1);
  pp_free_frame _ p := p;
  pp_map_page _ _ p := (true, p);
  pp_unmap_page _ p := (0, p)
|}.

Section props.
Context {P : Type} `{!PageProvider P}.
Implicit Types (h : heap P) (cs : list cell).

(** *** Initialisation *)

(** If [heap_init] does not panic, the heap is well formed:
    one free block of a page less its header, which is first and last block,
    and the lock is free. *)
Theorem heap_init_wf a start sz lock m (p : P) h :
  heap_init a start sz lock m p = Some h ->
  KERNEL_VIRTUAL_BASE a <= start -> 0 <= sz -> start + 3 * PAGE_SIZE + sz < 2 ^ ptr_bits a ->
  let cs := [(PAGE_SIZE - sizeof_heap_block a, true)] in
  wf a h cs /\ last_ok a h cs /\ lock_free (heap_lock h) /\ coalesced cs /\
  heap_start h = PAGE_ALIGN_UP a start /\ heap_max h = heap_start h + sz /\
  heap_end h = heap_start h + PAGE_SIZE.
Proof.
  intros H Hb Hs Hw cs. unfold PAGE_SIZE in Hw. pose proof (base_pos a) as Hpos.
  destruct (PAGE_ALIGN_UP_spec a start) as [Ha1 Ha2]; [lia|unfold PAGE_SIZE; lia|].
  unfold PAGE_SIZE in Ha1, Ha2. unfold heap_init in H. set (s := PAGE_ALIGN_UP a start) in *.
  destruct (expand a _ PAGE_SIZE) as [[|] h1] eqn:Ex; [|done].
  apply expand_true in Ex as (k & m' & p' & _ & Hk & Hks & Hkm & _ & ->);
    [|unfold PAGE_SIZE; lia|simpl; unfold PAGE_SIZE; lia|simpl; lia].
  unfold PAGE_SIZE in Hks. assert (k = 1) as -> by lia. simplify_eq. simpl in *.
  rewrite uptr_small in * by lia. pose proof (hdr_pos a).
  split_and!; try done; try lia.
  split; simpl; try done.
  - split; [by rewrite lookup_insert_eq|done].
  - unfold PAGE_SIZE. lia.
  - repeat constructor; simpl; [unfold PAGE_SIZE; lia|by destruct a].
  - lia.
  - unfold PAGE_SIZE. Z.to_euclidean_division_equations. lia.
  - unfold PAGE_SIZE in *. lia.
Qed.

(** *** Aligned allocation *)

Lemma rd32_range m p : 0 <= rd32 m p < 2 ^ 32.
Proof.
  unfold rd32. pose proof (rd_range m p). pose proof (rd_range m (p + 1)).
  pose proof (rd_range m (p + 2)). pose proof (rd_range m (p + 3)). lia.
Qed.

Lemma rd32_wr32 m p v : rd32 (wr32 m p v) p = v mod 2 ^ 32.
Proof.
  unfold rd32. rewrite !rd_wr32. repeat (case_if; [|lia]).
  replace (8 * (p - p)) with 0 by lia. replace (8 * (p + 1 - p)) with 8 by lia.
  replace (8 * (p + 2 - p)) with 16 by lia. replace (8 * (p + 3 - p)) with 24 by lia.
  rewrite !Z.shiftr_div_pow2 by lia. unfold u8. change (2 ^ 0) with 1.
  change (2 ^ 8) with 256. change (2 ^ 16) with 65536. change (2 ^ 24) with 16777216.
  change (2 ^ 32) with 4294967296. Z.to_euclidean_division_equations. lia.
Qed.

Lemma rd_ptr_wr_ptr a m p v : 0 <= v < 2 ^ ptr_bits a -> rd_ptr a (wr_ptr a m p v) p = v.
Proof.
  intros Hv. assert (forall m q w, q <> p -> p + 4 = q -> rd32 (wr32 m q w) p = rd32 m p) as Hf.
  { intros m' q w _ <-. unfold rd32. rewrite !rd_wr32. repeat (case_if; [lia|]). done. }
  destruct a; simpl in *.
  - rewrite rd32_wr32. apply Z.mod_small. lia.
  - rewrite (Hf _ (p + 4)) by lia. rewrite !rd32_wr32, Z.shiftr_div_pow2 by lia.
    rewrite (Z.mod_small (v / 2 ^ 32)) by (split; [apply Z.div_pos; lia|apply Z.div_lt_upper_bound; lia]).
    pose proof (Z.div_mod v (2 ^ 32)). lia.
  - rewrite (Hf _ (p + 4)) by lia. rewrite !rd32_wr32, Z.shiftr_div_pow2 by lia.
    rewrite (Z.mod_small (v / 2 ^ 32)) by (split; [apply Z.div_pos; lia|apply Z.div_lt_upper_bound; lia]).
    pose proof (Z.div_mod v (2 ^ 32)). lia.
Qed.

Lemma land_pred_pow2 k : 0 <= k -> Z.land (2 ^ k) (2 ^ k - 1) = 0.
Proof.
  intros Hk. replace (2 ^ k - 1) with (Z.ones k) by (rewrite Z.ones_equiv; lia).
  rewrite Z.land_ones by lia. apply Z.mod_same. lia.
Qed.

(** The alignment in use: at least the size of a pointer. *)
Lemma min_alignment a k :
  0 <= k -> exists j, 0 <= j /\ k <= j <= Z.max k 3 /\
    (if 2 ^ k <? ptr_size a then ptr_size a else 2 ^ k) = 2 ^ j /\ ptr_size a <= 2 ^ j.
Proof.
  intros Hk. case_if.
  - exists (match a with I686 => 2 | _ => 3 end).
    assert (k < 3) by (destruct (decide (k < 3)); [done|];
      assert (2 ^ 3 <= 2 ^ k) by (apply Z.pow_le_mono_r; lia); destruct a; simpl in *; lia).
    assert (k = 0 \/ k = 1 \/ k = 2) as [-> | [-> | ->]] by lia; destruct a; simpl in *; lia.
  - exists k. lia.
Qed.

(** [kmalloc_aligned] with a power-of-two alignment: when the
    underlying [kmalloc] gives a block [raw] of the requested size inside the
    address space, the result is a multiple of the alignment, lies with its
    [size] bytes inside that block behind the saved pointer, and
    [kfree_aligned] on it frees exactly [raw]. *)
Theorem kmalloc_aligned_correct a h h1 k sz raw :
  0 <= k <= ptr_bits a - 2 -> 0 < sz ->
  let al := if 2 ^ k <? ptr_size a then ptr_size a else 2 ^ k in
  let request := sz + (al - 1 + ptr_size a) in
  kmalloc a h request = Some (raw, h1) -> 0 < raw -> raw + request < 2 ^ ptr_bits a ->
  exists r h2, kmalloc_aligned a h sz (2 ^ k) = Some (r, h2) /\
    r mod 2 ^ k = 0 /\ raw + ptr_size a <= r /\ r + sz <= raw + request /\
    kfree_aligned a h2 r = kfree a h2 raw /\ blocks h2 = blocks h1.
Proof.
  intros Hk Hsz al request Hm Hraw Hw.
  assert (4 <= ptr_size a <= 8) as Hps by (destruct a; simpl; lia).
  destruct (min_alignment a k) as (j & Hj & Hjk & Haj & Hjp); [lia|]. fold al in Haj.
  assert (j <= ptr_bits a) as Hjb by (destruct a; simpl in *; lia).
  unfold kmalloc_aligned. assert (0 < 2 ^ k) by lia. assert (0 < 2 ^ j) by lia.
  assert (((sz =? 0) || (2 ^ k =? 0)) = false) as -> by lia.
  rewrite land_pred_pow2 by lia. cbn [negb Z.eqb]. fold al. unfold request in *. rewrite Haj in *.
  rewrite (uptr_small a (2 ^ j - 1 + ptr_size a)) by lia.
  rewrite (uptr_small a (sz + (2 ^ j - 1 + ptr_size a))) by lia.
  rewrite Hm. cbn [mbind option_bind]. assert ((raw =? 0) = false) as -> by lia.
  rewrite (uptr_small a (raw + ptr_size a)) by lia.
  rewrite (uptr_small a (raw + ptr_size a + 2 ^ j - 1)) by lia.
  destruct (align_up_mask (ptr_bits a) j (raw + ptr_size a)) as [Hm1 Hm2]; [lia|lia|lia|].
  set (r := Z.land _ _) in *. eexists r, _. split; [reflexivity|]. split_and!; try lia.
  - assert (2 ^ j = 2 ^ k * 2 ^ (j - k)) as E by (rewrite <- Z.pow_add_r by lia; f_equal; lia).
    apply Z.mod_divide; [lia|]. apply Z.mod_divide in Hm1; [|lia].
    eapply Z.divide_trans; [|exact Hm1]. rewrite E. apply Z.divide_factor_l.
  - unfold kfree_aligned. assert ((r =? 0) = false) as -> by lia. simpl.
    rewrite rd_ptr_wr_ptr by lia. done.
  - done.
Qed.

(** *** Reallocation *)

Lemma wf_set_mem a h cs m : wf a h cs -> wf a (set_hmem h m) cs.
Proof. intros []. by split. Qed.

Lemma relock h irq :
  lock_free (heap_lock h) -> irq = lk_irq (heap_lock h) ->
  heap_unlock (set_heap_lock h (LockSt SPINLOCK_LOCKED false)) irq = h.
Proof.
  intros Hl ->. unfold heap_unlock. simpl. rewrite lock_section_restores by done. by destruct h.
Qed.

Lemma live_header a h cs ptr sz :
  wf a h cs -> (ptr, sz) ∈ live a (heap_start h) cs ->
  exists nx pv, blocks h !! (ptr - sizeof_heap_block a) = Some (HeapBlock sz false nx pv HEAP_MAGIC) /\
    2 ^ 31 <= ptr - sizeof_heap_block a /\ 0 <= sz /\ ptr + sz <= heap_end h.
Proof.
  intros Hwf (pre & post & -> & ->)%live_split.
  pose proof (wf_cell_range _ _ _ _ _ Hwf) as Hrg. simpl in Hrg. pose proof (hdr_pos a).
  pose proof (wf_repr _ _ _ Hwf) as Hr. apply repr_app in Hr as [_ [Hb _]]. simpl in Hb.
  replace (heap_start h + extent a pre + sizeof_heap_block a - sizeof_heap_block a)
    with (heap_start h + extent a pre) by lia.
  eexists _, _. split_and!; [exact Hb|lia|lia|lia].
Qed.

(** [krealloc] to a larger size: the result is either NULL,
    with every allocation and every byte of the old heap untouched, or a new
    block of at least [n] bytes that starts with the bytes of the old one,
    which is freed; no other allocation changes. *)
Theorem krealloc_grows a h cs ptr old n :
  wf a h cs -> lock_free (heap_lock h) -> (ptr, old) ∈ live a (heap_start h) cs -> old < n ->
  heap_end h + n + sizeof_heap_block a + PAGE_SIZE + 3 < 2 ^ ptr_bits a ->
  (first_fit (align4 a n) cs = None -> last_ok a h cs) ->
  exists r h' cs', krealloc a h ptr n = Some (r, h') /\ wf a h' cs' /\ heap_lock h' = heap_lock h /\
    ((r = 0 /\ cs' = cs /\ (forall q, q < heap_end h -> rd (hmem h') q = rd (hmem h) q)) \/
     (r <> 0 /\ exists sz, n <= sz /\
        (r, sz) :: live a (heap_start h) cs ≡ₚ (ptr, old) :: live a (heap_start h) cs' /\
        forall i, 0 <= i < old -> rd (hmem h') (r + i) = rd (hmem h) (ptr + i))).
Proof.
  intros Hwf Hl Hin Hn Hw Hlast.
  destruct (live_header _ _ _ _ _ Hwf Hin) as (nx & pv & Hb & Hb1 & Hold & Hpe).
  pose proof (hdr_pos a). pose proof (wf_max _ _ _ Hwf).
  unfold krealloc. assert ((ptr =? 0) = false) as -> by lia. assert ((n =? 0) = false) as -> by lia.
  rewrite lock_irqsave_free by done. cbn [mbind option_bind]. rewrite uptr_small by lia.
  set (h1 := set_heap_lock h _).
  assert (get_block h1 (ptr - sizeof_heap_block a) = HeapBlock old false nx pv HEAP_MAGIC) as ->
    by by apply get_block_Some.
  cbn [hb_magic hb_size]. rewrite Z.eqb_refl. cbn [negb].
  assert ((n <=? old) = false) as -> by lia. unfold h1. rewrite relock by done.
  destruct (kmalloc_spec a h cs n) as (r & h2 & cs2 & E & Hlk & Hwf2 & Hr & Hst & Hmm); [done|done|lia|done|done|].
  rewrite E. cbn [mbind option_bind].
  destruct Hr as [[-> ->]|(Hr0 & sz & Hsz & _ & Hperm & Hdis & _)]; cbn [negb Z.eqb].
  - exists 0, h2, cs. split_and!; try done. left. done.
  - assert ((r =? 0) = false) as -> by lia. cbn [negb].
    set (h3 := set_hmem h2 _).
    assert ((ptr, old) ∈ live a (heap_start h) cs2) as Hin2 by (rewrite Hperm; by apply elem_of_cons; right).
    destruct (kfree_live a h3 cs2 ptr old) as (h4 & cs4 & E4 & Hwf4 & Hp4 & _ & _ & Hlk4 & Hm4 & _).
    { by apply wf_set_mem. } { unfold h3. simpl. by rewrite Hlk. } { unfold h3. simpl. by rewrite Hst. }
    rewrite E4. cbn [mbind option_bind]. exists r, h4, cs4. split_and!; try done.
    { rewrite Hlk4. exact Hlk. }
    right. split; [done|]. exists sz. split_and!; [done| |].
    + rewrite <- Hperm. unfold h3 in Hp4. simpl in Hp4. by rewrite Hst in Hp4.
    + intros i Hi. rewrite Hm4. unfold h3. simpl.
      rewrite Forall_forall in Hdis. specialize (Hdis (ptr, old)).
      rewrite <- list_elem_of_In in Hdis. specialize (Hdis Hin). unfold ranges_disjoint in Hdis. simpl in Hdis.
      rewrite memcpy_copied by (unfold fwd_safe; rewrite Z2Nat.id by lia; lia).
      rewrite Z2Nat.id by lia. case_if; [|lia].
      replace (ptr + (r + i - r)) with (ptr + i) by lia. apply Hmm. lia.
Qed.

(** *** Statistics *)

(** The counters over a layout, without wrap-around. *)
Fixpoint tally (a : arch) (cs : list cell) (t : heap_tally) : heap_tally :=
  match cs with
  | [] => t
  | (sz, f) :: cs =>
      let meta := sizeof_heap_block a in
      tally a cs
        (if (f : bool) then
           HeapTally (t_used t) (t_free t + sz) (t_used_metadata t) (t_free_metadata t + meta)
             (t_block_count t + 1) (t_free_block_count t + 1)
         else
           HeapTally (t_used t + sz) (t_free t) (t_used_metadata t + meta) (t_free_metadata t)
             (t_block_count t + 1) (t_free_block_count t))
  end.

Definition tally_total (t : heap_tally) : Z :=
  t_used t + t_free t + t_used_metadata t + t_free_metadata t.

Definition tally_nonneg (t : heap_tally) : Prop :=
  0 <= t_used t /\ 0 <= t_free t /\ 0 <= t_used_metadata t /\ 0 <= t_free_metadata t /\
  0 <= t_free_block_count t <= t_block_count t.

Lemma tally_spec a cs : forall t,
  Forall cell_ok cs -> tally_nonneg t ->
  tally_nonneg (tally a cs t) /\ tally_total (tally a cs t) = tally_total t + extent a cs /\
  t_block_count (tally a cs t) = t_block_count t + Z.of_nat (length cs) /\
  t_free_block_count (tally a cs t) =
    t_free_block_count t + Z.of_nat (length (filter (fun c : cell => c.2 = true) cs)).
Proof.
  induction cs as [|[sz f] cs IH]; intros t Hok Ht; simpl; [split_and!; [done|lia|lia|lia]|].
  apply Forall_cons_1 in Hok as [[Hc _] Hok]. simpl in Hc. pose proof (hdr_pos a).
  unfold tally_nonneg, tally_total in *. rewrite filter_cons.
  destruct f; [rewrite decide_True by done|rewrite decide_False by done];
    (match goal with |- context [tally a cs ?t'] => destruct (IH t') as (H1 & H2 & H3 & H4) end;
       [done|cbn [t_used t_free t_used_metadata t_free_metadata t_block_count t_free_block_count]; lia|]);
    cbn [t_used t_free t_used_metadata t_free_metadata t_block_count t_free_block_count length] in *; lia.
Qed.

Lemma heap_walk_spec a h cs : forall prev cur fuel t,
  Forall cell_ok cs -> repr a (blocks h) prev cur cs 0 -> 0 < cur -> (length cs < fuel)%nat ->
  tally_nonneg t -> tally_total t + extent a cs < 2 ^ ptr_bits a ->
  t_block_count t + Z.of_nat (length cs) < 2 ^ 32 ->
  heap_walk fuel a h (match cs with [] => 0 | _ => cur end) t = Some (tally a cs t).
Proof.
  induction cs as [|[sz f] cs IH]; intros prev cur [|fuel] t Hok Hr Hc0 Hf Ht Hw Hw2; simpl in *; try lia; [done|].
  apply Forall_cons_1 in Hok as [[Hc _] Hok]. simpl in Hc. destruct Hr as [Hb Hr].
  pose proof (hdr_pos a). pose proof (extent_nonneg a cs Hok).
  assert ((cur =? 0) = false) as -> by lia. rewrite (get_block_Some _ _ _ Hb).
  cbn [hb_is_free hb_size hb_next]. unfold tally_nonneg, tally_total in Ht, Hw.
  destruct f; rewrite !uptr_small, !u32_small by lia;
    (eapply IH; [done|done|lia|lia| | |]);
    unfold tally_nonneg, tally_total;
    cbn [t_used t_free t_used_metadata t_free_metadata t_block_count t_free_block_count]; lia.
Qed.

(** [heap_get_info] terminates and accounts for every byte:
    used plus free, metadata included, is the size of the heap; the counts
    are those of the chain; the heap is not changed. *)
Theorem heap_get_info_accounts a h cs :
  wf a h cs -> lock_free (heap_lock h) -> Z.of_nat (length cs) < 2 ^ 32 ->
  exists info, heap_get_info a h = Some (info, h) /\
    hi_used info + hi_free info = hi_total info /\ hi_total info = heap_end h - heap_start h /\
    hi_block_count info = Z.of_nat (length cs) /\
    hi_free_block_count info = Z.of_nat (length (filter (fun c : cell => c.2 = true) cs)).
Proof.
  intros Hwf Hl Hlen. unfold heap_get_info. rewrite lock_irqsave_free by done. cbn [mbind option_bind].
  set (h1 := set_heap_lock h _).
  pose proof (wf_cells _ _ _ Hwf) as Hok. pose proof (wf_repr _ _ _ Hwf) as Hr.
  pose proof (wf_base _ _ _ Hwf) as Hbase. pose proof (base_pos a) as Hpos.
  pose proof (extent_nonneg a cs Hok) as Hext.
  pose proof (wf_end _ _ _ Hwf) as Hend. pose proof (wf_max _ _ _ Hwf) as Hmax.
  set (t0 := HeapTally 0 0 0 0 0 0). assert (tally_nonneg t0) as Ht0 by (unfold tally_nonneg; simpl; lia).
  pose proof (heap_walk_spec a h1 cs 0 (heap_start h) (scan_fuel h1) t0) as Hs.
  destruct (tally_spec a cs t0 Hok Ht0) as (H1 & H2 & H3 & H4).
  assert (first_block h1 = match cs with [] => 0 | _ => heap_start h end) as ->.
  { pose proof (wf_ne _ _ _ Hwf). destruct cs; [done|]. apply (wf_first _ _ _ Hwf). }
  rewrite Hs; [|done|done|lia| |done|unfold tally_total; simpl; lia|simpl; lia].
  2:{ unfold scan_fuel. pose proof (repr_size _ _ _ _ _ _ Hok Hr). simpl. lia. }
  cbn [mbind option_bind].
  assert (heap_unlock h1 (lk_irq (heap_lock h)) = h) as -> by (unfold h1; by apply relock).
  unfold tally_nonneg, tally_total in *. simpl in H2, H3, H4.
  eexists. split; [reflexivity|]. cbn [hi_used hi_free hi_total hi_block_count hi_free_block_count].
  rewrite !uptr_small by (unfold h1; simpl; lia). unfold h1. simpl. lia.
Qed.

End props.

(** ** Concrete heaps *)

Section concrete.
#[local] Existing Instance CountingPages.

(** A one-megabyte heap on i686, as the kernel sets it up at boot. *)
Definition boot_heap : option (heap Z) :=
  heap_init I686 0x80400000 0x100000 (LockSt SPINLOCK_UNLOCKED true) ∅ 1.

Definition the_heap (o : option (heap Z)) : heap Z :=
  default (Heap 0 0 0 0 0 (LockSt 0 false) ∅ ∅ 0) o.

(** The heap after one allocation of 100 bytes. *)
Definition heap_100 : heap Z :=
  the_heap (snd <$> kmalloc I686 (the_heap boot_heap) 100).

Lemma boot_heap_wf :
  wf I686 (the_heap boot_heap) [(4076, true)] /\ last_ok I686 (the_heap boot_heap) [(4076, true)].
Proof.
  split; [|by vm_compute].
  split; try (vm_compute; done). repeat constructor; simpl; lia.
Qed.

Lemma heap_100_wf :
  wf I686 heap_100 [(100, false); (3956, true)] /\ lock_free (heap_lock heap_100).
Proof.
  split; [|by vm_compute].
  split; try (vm_compute; done). repeat constructor; simpl; lia.
Qed.

(** C39: The defect of [split]: when the block it cuts is the last
    one, [last_block] is not moved to the new last block, so that the next
    [kmalloc] that grows the heap unlinks the cut-off part.  Five calls after
    boot, with every pointer freed at most once, the allocator hands out a
    block of 4000 bytes that contains the 3000 bytes of a block that was
    never freed. *)
Theorem kmalloc_overlaps_live_block :
  exists h1 h2 h3 h4 h5 h6 p1 p2 p3 p4,
    kmalloc I686 (the_heap boot_heap) 100 = Some (p1, h1) /\
    kmalloc I686 h1 3000 = Some (p2, h2) /\
    kmalloc I686 h2 5000 = Some (p3, h3) /\
    kfree I686 h3 p3 = Some h4 /\ kfree I686 h4 p1 = Some h5 /\
    kmalloc I686 h5 4000 = Some (p4, h6) /\
    hb_is_free (get_block h6 (p2 - 20)) = false /\ hb_size (get_block h6 (p2 - 20)) = 3000 /\
    p4 < p2 /\ p2 + 3000 < p4 + 4000.
Proof.
  do 6 eexists. eexists 0x80400014, _, _, _.
  split_and!; [vm_compute; reflexivity ..| | |]; vm_compute; done.
Qed.

(** Huge requests are not refused: rounding up wraps around, so
    [kmalloc(0xFFFFFFFF)] returns a block of size 0, and for
    [kmalloc(0xFFFFF000)] the page count wraps to 0, so that a header is
    written at [heap_end], outside the heap, and a pointer behind it is
    returned. *)
Theorem kmalloc_huge_wraps :
  exists h1 h2 p1 p2,
    kmalloc I686 (the_heap boot_heap) 0xFFFFFFFF = Some (p1, h1) /\ p1 <> 0 /\
    hb_size (get_block h1 (p1 - 20)) = 0 /\
    kmalloc I686 (the_heap boot_heap) 0xFFFFF000 = Some (p2, h2) /\ p2 <> 0 /\
    p2 - 20 = heap_end (the_heap boot_heap) /\ heap_end h2 = heap_end (the_heap boot_heap).
Proof.
  eexists _, _, _, _.
  split_and!; [vm_compute; reflexivity| | |vm_compute; reflexivity| | |]; vm_compute; done.
Qed.

(** *** Witnesses *)

(** 10000 bytes do not fit the one free block: the heap grows by 3 pages. *)
Lemma kmalloc_refines_witness :
  exists h', kmalloc I686 (the_heap boot_heap) 10000 = Some (0x80401014, h') /\
    heap_lock h' = heap_lock (the_heap boot_heap) /\ wf I686 h' [(4076, true); (12268, false)] /\
    allocated I686 (heap_start (the_heap boot_heap)) 10000 0x80401014 [(4076, true)] [(4076, true); (12268, false)].
Proof.
  destruct (kmalloc_refines I686 (the_heap boot_heap) [(4076, true)] 10000) as (r & h' & cs' & E & Hl & Hwf & Hr).
  - apply boot_heap_wf.
  - vm_compute. reflexivity.
  - lia.
  - vm_compute. reflexivity.
  - intros _. apply boot_heap_wf.
  - assert (kmalloc_layout I686 (the_heap boot_heap) 10000 [(4076, true)] =
      Some (0x80401014, [(4076, true); (12268, false)])) as El by (vm_compute; reflexivity).
    rewrite El in Hr. destruct Hr as (-> & _ & -> & Ha). exists h'. split_and!; assumption.
Defined.

Lemma kfree_refines_witness :
  exists h' cs', kfree I686 heap_100 0x80400014 = Some h' /\ wf I686 h' cs' /\
    live I686 (heap_start heap_100) [(100, false); (3956, true)] ≡ₚ
      (0x80400014, 100) :: live I686 (heap_start heap_100) cs' /\
    (coalesced [(100, false); (3956, true)] -> coalesced cs') /\
    (last_ok I686 heap_100 [(100, false); (3956, true)] -> last_ok I686 h' cs') /\
    heap_lock h' = heap_lock heap_100 /\ hmem h' = hmem heap_100 /\ heap_start h' = heap_start heap_100.
Proof.
  apply (kfree_refines I686 heap_100 [(100, false); (3956, true)] 0x80400014 100).
  - apply heap_100_wf.
  - apply heap_100_wf.
  - apply list_elem_of_In. vm_compute. by left.
Defined.

Lemma heap_init_wf_witness :
  let h := the_heap boot_heap in
  wf I686 h [(PAGE_SIZE - 20, true)] /\ last_ok I686 h [(PAGE_SIZE - 20, true)] /\
  lock_free (heap_lock h) /\ coalesced [(PAGE_SIZE - 20, true)] /\
  heap_start h = PAGE_ALIGN_UP I686 0x80400000 /\ heap_max h = heap_start h + 0x100000 /\
  heap_end h = heap_start h + PAGE_SIZE.
Proof.
  apply (heap_init_wf I686 0x80400000 0x100000 (LockSt SPINLOCK_UNLOCKED true) ∅ 1 (the_heap boot_heap)).
  - vm_compute. reflexivity.
  - vm_compute. discriminate.
  - lia.
  - vm_compute. reflexivity.
Defined.

Lemma kmalloc_aligned_correct_witness :
  exists r h2, kmalloc_aligned I686 (the_heap boot_heap) 200 (2 ^ 6) = Some (r, h2) /\
    r mod 2 ^ 6 = 0 /\ 0x80400014 + 4 <= r /\ r + 200 <= 0x80400014 + 267 /\
    kfree_aligned I686 h2 r = kfree I686 h2 0x80400014 /\
    blocks h2 = blocks (the_heap (snd <$> kmalloc I686 (the_heap boot_heap) 267)).
Proof.
  apply (kmalloc_aligned_correct I686 (the_heap boot_heap)
    (the_heap (snd <$> kmalloc I686 (the_heap boot_heap) 267)) 6 200 0x80400014).
  - simpl. lia.
  - lia.
  - vm_compute. reflexivity.
  - lia.
  - vm_compute. reflexivity.
Defined.

Lemma krealloc_grows_witness :
  exists r h' cs', krealloc I686 heap_100 0x80400014 500 = Some (r, h') /\
    wf I686 h' cs' /\ heap_lock h' = heap_lock heap_100 /\
    ((r = 0 /\ cs' = [(100, false); (3956, true)] /\
      (forall q, q < heap_end heap_100 -> rd (hmem h') q = rd (hmem heap_100) q)) \/
     (r <> 0 /\ exists sz, 500 <= sz /\
        (r, sz) :: live I686 (heap_start heap_100) [(100, false); (3956, true)] ≡ₚ
          (0x80400014, 100) :: live I686 (heap_start heap_100) cs' /\
        forall i, 0 <= i < 100 -> rd (hmem h') (r + i) = rd (hmem heap_100) (0x80400014 + i))).
Proof.
  apply (krealloc_grows I686 heap_100 [(100, false); (3956, true)] 0x80400014 100 500).
  - apply heap_100_wf.
  - apply heap_100_wf.
  - apply list_elem_of_In. vm_compute. by left.
  - lia.
  - vm_compute. reflexivity.
  - vm_compute. discriminate.
Defined.

Lemma heap_get_info_accounts_witness :
  exists info, heap_get_info I686 heap_100 = Some (info, heap_100) /\
    hi_used info + hi_free info = hi_total info /\
    hi_total info = heap_end heap_100 - heap_start heap_100 /\
    hi_block_count info = 2 /\
    hi_free_block_count info = 1.
Proof.
  apply (heap_get_info_accounts I686 heap_100 [(100, false); (3956, true)]).
  - apply heap_100_wf.
  - apply heap_100_wf.
  - vm_compute. reflexivity.
Defined.

End concrete.
