(* ===== verification/HeapInterface.v ===== *)
(** * The heap as its clients see it

    [KHeap] is the part of include/mm/heap.h that other components call, and
    [KHeapLaws] what it promises them in terms of the list of live blocks.
    The implementation of heap.c is an instance: its laws are discharged by
    the refinement lemmas of the heap.  A call is only covered when the state
    is [kh_ready] for the request: growing the heap after a split of its last
    block is not (see [kmalloc_overlaps_live_block]). *)

From S2P Require Import Prelude Spinlock Mem Heap HeapFacts HeapProps.

(** A live block: address and length. *)
Abbreviation block := (Z * Z)%type.

Class KHeap (H : Type) := {
  kh_malloc : H -> Z -> option (Z * H);
  kh_free : H -> Z -> option H;
  kh_mem : H -> mem;
  kh_set_mem : H -> mem -> H
}.

(** Two memories agree on a block. *)
Definition same_block (m m' : mem) (b : block) : Prop :=
  forall q, b.1 <= q < b.1 + b.2 -> rd m' q = rd m q.

Class KHeapLaws (H : Type) `{!KHeap H} := {
  kh_live : H -> list block -> Prop;
  kh_ready : H -> Z -> Prop;
  kh_limit : Z;
  law_malloc : forall h L n, kh_live h L -> kh_ready h n ->
    exists r h', kh_malloc h n = Some (r, h') /\ Forall (same_block (kh_mem h) (kh_mem h')) L /\
      ((r = 0 /\ kh_live h' L) \/
       (0 < r /\ exists sz L', n <= sz /\ r + sz < kh_limit /\ kh_live h' L' /\ L' ≡ₚ (r, sz) :: L /\
          Forall (fun b => ranges_disjoint b (r, sz)) L));
  law_free : forall h L ptr sz, kh_live h L -> (ptr, sz) ∈ L ->
    exists h' L', kh_free h ptr = Some h' /\ kh_live h' L' /\ L ≡ₚ (ptr, sz) :: L' /\ kh_mem h' = kh_mem h;
  law_mem_get : forall h m, kh_mem (kh_set_mem h m) = m;
  law_mem_live : forall h L m, kh_live h L -> kh_live (kh_set_mem h m) L;
  law_mem_ready : forall h n m, kh_ready h n -> kh_ready (kh_set_mem h m) n
}.

(** ** The implementation *)

(** A heap at a target. *)
Record arch_heap (a : arch) (P : Type) := ArchHeap { the_heap_of : heap P }.
Arguments ArchHeap {a P}.
Arguments the_heap_of {a P}.

Section instance.
Context (a : arch) {P : Type} `{!PageProvider P}.

#[export] Instance heap_KHeap : KHeap (arch_heap a P) := {
  kh_malloc h n := r ← kmalloc a (the_heap_of h) n; Some (r.1, ArchHeap r.2);
  kh_free h ptr := r ← kfree a (the_heap_of h) ptr; Some (ArchHeap r);
  kh_mem h := hmem (the_heap_of h);
  kh_set_mem h m := ArchHeap (set_hmem (the_heap_of h) m)
}.

Definition heap_live (h : arch_heap a P) (L : list block) : Prop :=
  exists cs, wf a (the_heap_of h) cs /\ lock_free (heap_lock (the_heap_of h)) /\
             L = live a (heap_start (the_heap_of h)) cs.

Definition heap_ready (h : arch_heap a P) (n : Z) : Prop :=
  0 < n /\ heap_end (the_heap_of h) + n + sizeof_heap_block a + PAGE_SIZE + 3 < 2 ^ ptr_bits a /\
  forall cs, wf a (the_heap_of h) cs -> first_fit (align4 a n) cs = None -> last_ok a (the_heap_of h) cs.

Lemma heap_law_malloc h L n : heap_live h L -> heap_ready h n ->
  exists r h', kh_malloc h n = Some (r, h') /\ Forall (same_block (kh_mem h) (kh_mem h')) L /\
    ((r = 0 /\ heap_live h' L) \/
     (0 < r /\ exists sz L', n <= sz /\ r + sz < 2 ^ ptr_bits a /\ heap_live h' L' /\ L' ≡ₚ (r, sz) :: L /\
        Forall (fun b => ranges_disjoint b (r, sz)) L)).
Proof.
  intros (cs & Hwf & Hl & ->) (Hn & Hb & Hr).
  destruct (kmalloc_spec a (the_heap_of h) cs n Hwf Hl Hn Hb (Hr cs Hwf))
    as (r & h' & cs' & E & Hlk & Hwf' & Hcase & Hst & Hm).
  exists r, (ArchHeap h'). simpl. rewrite E. split; [done|]. split.
  - apply Forall_forall. intros b Hbin%list_elem_of_In q Hq. apply Hm.
    apply live_range in Hbin; [|apply (wf_cells _ _ _ Hwf)]. pose proof (wf_end _ _ _ Hwf). lia.
  - destruct Hcase as [[-> ->]|(Hr0 & sz & Hsz & _ & Hp & Hd & _)].
    + left. split; [done|]. exists cs. simpl. rewrite Hlk, Hst. done.
    + assert ((r, sz) ∈ live a (heap_start h') cs') as Hin by (rewrite Hst, Hp; by left).
      apply live_range in Hin; [|apply (wf_cells _ _ _ Hwf')]. simpl in Hin.
      pose proof (wf_end _ _ _ Hwf'). pose proof (wf_max _ _ _ Hwf'). pose proof (wf_base _ _ _ Hwf').
      pose proof (base_pos a). pose proof (hdr_pos a).
      right. split; [lia|]. exists sz, (live a (heap_start h') cs'). split; [done|]. split; [lia|].
      split; [exists cs'; simpl; by rewrite Hlk|]. rewrite Hst. done.
Qed.

Lemma heap_law_free h L ptr sz : heap_live h L -> (ptr, sz) ∈ L ->
  exists h' L', kh_free h ptr = Some h' /\ heap_live h' L' /\ L ≡ₚ (ptr, sz) :: L' /\ kh_mem h' = kh_mem h.
Proof.
  intros (cs & Hwf & Hl & ->) Hin.
  destruct (kfree_live a (the_heap_of h) cs ptr sz Hwf Hl Hin)
    as (h' & cs' & E & Hwf' & Hp & _ & _ & Hlk & Hm & Hst).
  exists (ArchHeap h'), (live a (heap_start h') cs'). simpl. rewrite E. split; [done|].
  split; [exists cs'; simpl; by rewrite Hlk|]. by rewrite Hst.
Qed.

Lemma wf_set_hmem (h : heap P) m cs : wf a (set_hmem h m) cs <-> wf a h cs.
Proof.
  split; [|by apply wf_set_mem]. intros Hwf. apply wf_set_mem with (m := hmem h) in Hwf. by destruct h.
Qed.

#[export] Instance heap_KHeapLaws : KHeapLaws (arch_heap a P).
Proof.
  refine {| kh_live := heap_live; kh_ready := heap_ready; kh_limit := 2 ^ ptr_bits a;
            law_malloc := heap_law_malloc; law_free := heap_law_free |}.
  - done.
  - intros h L m (cs & Hwf & Hl & ->). exists cs. split; [by apply wf_set_hmem|done].
  - intros h n m (Hn & Hb & Hr). split; [done|]. split; [done|].
    intros cs Hwf. exact (Hr cs (proj1 (wf_set_hmem _ _ _) Hwf)).
Defined.

End instance.

Lemma kh_malloc_inv a {P} `{!PageProvider P} (h : heap P) n r h' :
  kh_malloc (ArchHeap (a := a) h) n = Some (r, h') -> h' = ArchHeap (default h (snd <$> kmalloc a h n)).
Proof. simpl. destruct (kmalloc a h n) as [[r0 h0]|]; [|done]. simpl. by intros [= <- <-]. Qed.

(** ** The layout of a heap is determined by its headers *)

Section unique.
Context {P : Type} `{!PageProvider P}.

Lemma repr_unique a B cs : forall prev cur cs', 0 < cur ->
  Forall cell_ok cs -> Forall cell_ok cs' -> (cs = [] <-> cs' = []) ->
  repr a B prev cur cs 0 -> repr a B prev cur cs' 0 -> cs = cs'.
Proof.
  induction cs as [|c cs IH]; intros prev cur cs' Hc Hok Hok' Hne H1 H2.
  { symmetry. by apply Hne. }
  destruct cs' as [|c' cs']; [by apply Hne|].
  destruct H1 as [E1 H1], H2 as [E2 H2]. apply Forall_cons_1 in Hok as [[Hc1 _] Hok].
  apply Forall_cons_1 in Hok' as [[Hc2 _] Hok']. pose proof (hdr_pos a).
  rewrite E1 in E2. injection E2 as Es Ef En. destruct c as [sz f], c' as [sz' f']. simpl in *. subst sz' f'.
  f_equal. apply (IH cur (cur + sizeof_heap_block a + sz)); try done; [lia|].
  destruct cs, cs'; try done; lia.
Qed.

Lemma wf_unique a (h : heap P) cs cs' : wf a h cs -> wf a h cs' -> cs = cs'.
Proof.
  intros H1 H2. eapply (repr_unique a (blocks h) cs 0 (heap_start h) cs').
  - pose proof (wf_base _ _ _ H1). pose proof (base_pos a). lia.
  - apply (wf_cells _ _ _ H1).
  - apply (wf_cells _ _ _ H2).
  - split; intros ->; exfalso; [by apply (wf_ne _ _ _ H1)|by apply (wf_ne _ _ _ H2)].
  - apply (wf_repr _ _ _ H1).
  - apply (wf_repr _ _ _ H2).
Qed.

(** A request that fits a free block of the layout is covered. *)
Lemma ready_fit a (h : heap P) cs n :
  wf a h cs -> 0 < n -> heap_end h + n + sizeof_heap_block a + PAGE_SIZE + 3 < 2 ^ ptr_bits a ->
  first_fit (align4 a n) cs <> None -> heap_ready a (ArchHeap h) n.
Proof.
  intros Hwf Hn Hb Hf. split; [done|]. split; [done|]. intros cs' Hwf' Hnone.
  rewrite (wf_unique a h cs' cs Hwf' Hwf) in Hnone. done.
Qed.

End unique.
