(* ===== verification/Checksum.v ===== *)
(** * The Internet checksum

    Models src/net/checksum.c over the byte memory; 16-bit loads and stores
    are little-endian, as on the three targets.  The fold loop runs with
    fuel; [checksum_fold_spec] shows that three turns decide it for every
    32-bit sum.  The theorems: a packet whose checksum field is filled in
    verifies, whatever its length, and a changed 16-bit word is noticed. *)

From S2P Require Import Prelude Mem.

Definition rd16 (m : mem) (p : Z) : Z := rd m p + 256 * rd m (p + 1).
Definition wr16 (m : mem) (p v : Z) : mem := wr (wr m p v) (p + 1) (Z.shiftr v 8).

(** [n] turns of the 16-bit loop from [ptr]. *)
Fixpoint checksum_words (n : nat) (m : mem) (sum ptr : Z) : Z :=
  match n with
  | O => sum
  | S n => checksum_words n m (u32 (sum + rd16 m ptr)) (ptr + 2)
  end.

(** The loop runs while [len > 1]; an odd last byte is the low byte of a
    word whose other byte is 0. *)
Definition checksum_partial (m : mem) (sum data len : Z) : Z :=
  let n := Z.to_nat (len / 2) in
  let sum := checksum_words n m sum data in
  let len := len - 2 * Z.of_nat n in
  if len =? 1 then u32 (sum + rd m (data + 2 * Z.of_nat n)) else sum.

Fixpoint checksum_fold (fuel : nat) (sum : Z) : option Z :=
  match fuel with
  | O => None
  | S fuel =>
      if Z.shiftr sum 16 =? 0 then Some sum
      else checksum_fold fuel (u32 (Z.land sum 0xFFFF + Z.shiftr sum 16))
  end.

Definition checksum_finish (sum : Z) : option Z :=
  sum ← checksum_fold 3 sum; Some (u16 (Z.lxor (Z.ones 32) sum)).

Definition checksum (m : mem) (data len : Z) : option Z :=
  checksum_finish (checksum_partial m 0 data len).

Definition checksum_verify (m : mem) (data len : Z) : option bool :=
  sum ← checksum_fold 3 (checksum_partial m 0 data len); Some (sum =? 0xFFFF).

(** ** Facts *)

Lemma rd16_range m p : 0 <= rd16 m p < 2 ^ 16.
Proof. unfold rd16. pose proof (rd_range m p). pose proof (rd_range m (p + 1)). lia. Qed.

Lemma u8_shift v : 0 <= v < 2 ^ 16 -> u8 v + 256 * u8 (Z.shiftr v 8) = v.
Proof.
  intros Hv. unfold u8. rewrite Z.shiftr_div_pow2 by lia. change (2 ^ 8) with 256.
  pose proof (Z.div_mod v 256 ltac:(lia)). rewrite (Z.mod_small (v / 256)); [lia|].
  split; [apply Z.div_pos; lia|apply Z.div_lt_upper_bound; lia].
Qed.

Lemma rd_wr16 m p v q :
  rd (wr16 m p v) q = if q =? p then u8 v else if q =? p + 1 then u8 (Z.shiftr v 8) else rd m q.
Proof. unfold wr16. rewrite !rd_wr. repeat case_if; (done || lia). Qed.

Lemma rd16_wr16 m p v : 0 <= v < 2 ^ 16 -> rd16 (wr16 m p v) p = v.
Proof.
  intros Hv. unfold rd16. rewrite !rd_wr16, Z.eqb_refl, (proj2 (Z.eqb_neq (p + 1) p)), Z.eqb_refl by lia.
  by apply u8_shift.
Qed.

Lemma rd16_wr16_ne m p v q : q + 2 <= p \/ p + 2 <= q -> rd16 (wr16 m p v) q = rd16 m q.
Proof.
  intros H. unfold rd16. rewrite !rd_wr16.
  rewrite !(proj2 (Z.eqb_neq _ _)) by lia. done.
Qed.

(** One turn: the value modulo 65535 is kept, zero stays zero. *)
Lemma fold_turn sum : 0 <= sum < 2 ^ 32 ->
  let t := Z.land sum 0xFFFF + Z.shiftr sum 16 in
  0 <= t <= 131070 /\ t mod 65535 = sum mod 65535 /\ (t = 0 <-> sum = 0) /\ (sum <= 131070 -> t < 2 ^ 16).
Proof.
  intros Hs. cbv zeta. change 0xFFFF with (Z.ones 16). rewrite Z.land_ones, Z.shiftr_div_pow2 by lia.
  pose proof (Z.div_mod sum (2 ^ 16) ltac:(lia)) as D. pose proof (Z.mod_pos_bound sum (2 ^ 16) ltac:(lia)).
  set (q := sum / 2 ^ 16) in *. set (r := sum mod 2 ^ 16) in *.
  assert (0 <= q < 2 ^ 16).
  { unfold q. split; [apply Z.div_pos; lia|apply Z.div_lt_upper_bound; lia]. }
  clearbody q r. subst sum. split; [lia|]. split; [|lia].
  replace (2 ^ 16 * q + r) with (r + q + q * 65535) by lia. by rewrite Z_mod_plus_full.
Qed.

Lemma shiftr16_zero sum : 0 <= sum < 2 ^ 32 -> (Z.shiftr sum 16 =? 0) = (sum <? 2 ^ 16).
Proof.
  intros Hs. rewrite Z.shiftr_div_pow2 by lia. apply Bool.eq_iff_eq_true. rewrite Z.eqb_eq, Z.ltb_lt.
  pose proof (Z.div_mod sum (2 ^ 16) ltac:(lia)). pose proof (Z.mod_pos_bound sum (2 ^ 16) ltac:(lia)).
  split; intros; [lia|]. apply Z.div_small. lia.
Qed.

Lemma checksum_fold_step fuel sum : 0 <= sum < 2 ^ 32 ->
  checksum_fold (S fuel) sum =
    if sum <? 2 ^ 16 then Some sum else checksum_fold fuel (Z.land sum 0xFFFF + Z.shiftr sum 16).
Proof.
  intros Hs. cbn [checksum_fold]. rewrite shiftr16_zero by done. case_if; [done|].
  destruct (fold_turn sum Hs) as (Ht & _). by rewrite u32_small by lia.
Qed.

Lemma checksum_fold_spec sum : 0 <= sum < 2 ^ 32 ->
  exists r, checksum_fold 3 sum = Some r /\ 0 <= r < 2 ^ 16 /\ r mod 65535 = sum mod 65535 /\
            (r = 0 <-> sum = 0).
Proof.
  intros Hs. rewrite checksum_fold_step by done. case_if; [exists sum; split_and!; (done || lia)|].
  destruct (fold_turn sum Hs) as (H1 & H2 & H3 & _). set (t := Z.land sum 0xFFFF + Z.shiftr sum 16) in *.
  rewrite checksum_fold_step by lia. case_if; [exists t; split_and!; (done || apply H3 || lia)|].
  destruct (fold_turn t ltac:(lia)) as (G1 & G2 & G3 & G4). specialize (G4 ltac:(lia)).
  set (w := Z.land t 0xFFFF + Z.shiftr t 16) in *.
  rewrite checksum_fold_step by lia. rewrite (proj2 (Z.ltb_lt _ _)) by lia.
  exists w. split; [done|]. split; [lia|]. split; [congruence|]. rewrite G3, H3. done.
Qed.

Lemma complement16 r : 0 <= r < 2 ^ 16 -> u16 (Z.lxor (Z.ones 32) r) = 65535 - r.
Proof.
  intros Hr. rewrite ones_lxor by lia. unfold u16.
  replace (Z.ones 32 - r) with (65535 - r + 65535 * 2 ^ 16) by (change (Z.ones 32) with (2 ^ 32 - 1); lia).
  rewrite Z.mod_add by lia. apply Z.mod_small. lia.
Qed.

(** ** The sum without wrap-around *)

Fixpoint wsum (n : nat) (m : mem) (ptr : Z) : Z :=
  match n with
  | O => 0
  | S n => rd16 m ptr + wsum n m (ptr + 2)
  end.

Definition packet_sum (m : mem) (data len : Z) : Z :=
  wsum (Z.to_nat (len / 2)) m data + (if Z.odd len then rd m (data + 2 * (len / 2)) else 0).

Lemma wsum_range n m : forall ptr, 0 <= wsum n m ptr <= 65535 * Z.of_nat n.
Proof.
  induction n as [|n IH]; intros ptr; cbn [wsum]; [lia|].
  pose proof (rd16_range m ptr). specialize (IH (ptr + 2)). lia.
Qed.

Lemma checksum_words_sum n m : forall sum ptr, 0 <= sum -> sum + wsum n m ptr < 2 ^ 32 ->
  checksum_words n m sum ptr = sum + wsum n m ptr.
Proof.
  induction n as [|n IH]; intros sum ptr Hs Hb; cbn [checksum_words wsum] in *; [lia|].
  pose proof (rd16_range m ptr). pose proof (wsum_range n m (ptr + 2)).
  rewrite u32_small by lia. rewrite IH; lia.
Qed.

Lemma wsum_wr16 n m v : forall ptr k, 0 <= k < Z.of_nat n -> 0 <= v < 2 ^ 16 ->
  wsum n (wr16 m (ptr + 2 * k) v) ptr = wsum n m ptr - rd16 m (ptr + 2 * k) + v.
Proof.
  induction n as [|n IH]; intros ptr k Hk Hv; cbn [wsum]; [lia|].
  destruct (decide (k = 0)) as [->|Hne].
  - rewrite Z.mul_0_r, Z.add_0_r, rd16_wr16 by done.
    assert (forall j q, ptr + 2 <= q -> wsum j (wr16 m ptr v) q = wsum j m q) as Hrest.
    { clear. induction j as [|j IHj]; intros q Hq; cbn [wsum]; [done|].
      rewrite rd16_wr16_ne, IHj by lia. done. }
    rewrite Hrest by lia. lia.
  - rewrite rd16_wr16_ne by lia. replace (ptr + 2 * k) with (ptr + 2 + 2 * (k - 1)) by lia.
    rewrite IH by lia. lia.
Qed.

Lemma len_parity len : 0 <= len ->
  len = 2 * (len / 2) + (if Z.odd len then 1 else 0) /\ 0 <= len / 2.
Proof.
  intros Hl. pose proof (Z.div_mod len 2 ltac:(lia)). rewrite Zmod_odd in *.
  split; [lia|apply Z.div_pos; lia].
Qed.

(** A packet of at most 128 KiB never overflows the 32-bit accumulator. *)
Lemma packet_sum_range m data len : 0 <= len <= 131072 -> 0 <= packet_sum m data len < 2 ^ 32.
Proof.
  intros Hl. destruct (len_parity len ltac:(lia)) as [E Hd]. unfold packet_sum.
  pose proof (wsum_range (Z.to_nat (len / 2)) m data). pose proof (rd_range m (data + 2 * (len / 2))).
  destruct (Z.odd len); lia.
Qed.

Lemma checksum_partial_sum m data len : 0 <= len <= 131072 ->
  checksum_partial m 0 data len = packet_sum m data len.
Proof.
  intros Hl. destruct (len_parity len ltac:(lia)) as [E Hd].
  pose proof (packet_sum_range m data len Hl) as Hr.
  unfold checksum_partial, packet_sum in *. cbv zeta. rewrite Z2Nat.id by done.
  pose proof (wsum_range (Z.to_nat (len / 2)) m data). pose proof (rd_range m (data + 2 * (len / 2))).
  rewrite checksum_words_sum by (destruct (Z.odd len); lia).
  destruct (Z.odd len).
  - rewrite (proj2 (Z.eqb_eq _ _)) by lia. rewrite u32_small; lia.
  - rewrite (proj2 (Z.eqb_neq _ _)) by lia. lia.
Qed.

Lemma packet_sum_wr16 m data len k v :
  0 <= len -> 0 <= k < len / 2 -> 0 <= v < 2 ^ 16 ->
  packet_sum (wr16 m (data + 2 * k) v) data len = packet_sum m data len - rd16 m (data + 2 * k) + v.
Proof.
  intros Hl Hk Hv. destruct (len_parity len Hl) as [E Hd]. unfold packet_sum.
  rewrite wsum_wr16 by (rewrite ?Z2Nat.id; lia). rewrite rd_wr16.
  rewrite !(proj2 (Z.eqb_neq _ _)) by lia. lia.
Qed.

Lemma checksum_verify_spec m data len : 0 <= len <= 131072 ->
  checksum_verify m data len =
    Some ((packet_sum m data len mod 65535 =? 0) && (0 <? packet_sum m data len)).
Proof.
  intros Hl. unfold checksum_verify. rewrite checksum_partial_sum by done.
  pose proof (packet_sum_range m data len Hl) as Hr. set (S := packet_sum m data len) in *.
  destruct (checksum_fold_spec S Hr) as (r & -> & Hb & Hm & Hz). cbn [mbind option_bind]. f_equal.
  rewrite <- Hm. apply Bool.eq_iff_eq_true. rewrite andb_true_iff, !Z.eqb_eq, Z.ltb_lt.
  split; [intros ->; split; [done|lia]|]. intros [H0 Hp]. assert (r <> 0) by lia.
  pose proof (Z.div_mod r 65535 ltac:(lia)). assert (0 < r / 65535 < 2); [|lia].
  split; [|apply Z.div_lt_upper_bound; lia]. apply Z.div_str_pos. lia.
Qed.

(** C38: The checksum round trip.  For every packet of up to
    128 KiB, of even or odd length, whose checksum field (any 16-bit aligned
    field) is zero: [checksum] returns a value, and the packet with that
    value stored in the field passes [checksum_verify]. *)
Theorem checksum_roundtrip m data len k :
  0 <= len <= 131072 -> 0 <= k < len / 2 -> rd16 m (data + 2 * k) = 0 ->
  exists c, checksum m data len = Some c /\ 0 <= c < 2 ^ 16 /\
    checksum_verify (wr16 m (data + 2 * k) c) data len = Some true.
Proof.
  intros Hl Hk Hz. unfold checksum, checksum_finish. rewrite checksum_partial_sum by done.
  pose proof (packet_sum_range m data len Hl) as Hr.
  destruct (checksum_fold_spec _ Hr) as (r & -> & Hb & Hm & H0). cbn [mbind option_bind].
  rewrite complement16 by done. exists (65535 - r). split; [done|]. split; [lia|].
  rewrite checksum_verify_spec, packet_sum_wr16, Hz by lia. f_equal.
  set (S := packet_sum m data len) in *. apply andb_true_iff. rewrite Z.eqb_eq, Z.ltb_lt. split; [|lia].
  rewrite Zplus_mod, Z.sub_0_r, <- Hm, <- Zplus_mod.
  by replace (r + (65535 - r)) with 65535 by lia.
Qed.

(** Error detection.  If a packet verifies, overwriting one 16-bit
    word of it with a different value makes verification fail, except for the
    two representations of zero, 0x0000 and 0xFFFF, which one's complement
    arithmetic cannot tell apart. *)
Theorem checksum_detects m data len k w :
  0 <= len <= 131072 -> 0 <= k < len / 2 -> 0 <= w < 2 ^ 16 ->
  checksum_verify m data len = Some true -> w <> rd16 m (data + 2 * k) ->
  w mod 65535 <> 0 \/ rd16 m (data + 2 * k) mod 65535 <> 0 ->
  checksum_verify (wr16 m (data + 2 * k) w) data len = Some false.
Proof.
  intros Hl Hk Hw Hv Hne Hnz. rewrite checksum_verify_spec in * by done. injection Hv as Hv.
  apply andb_true_iff in Hv as [Hv _]. apply Z.eqb_eq in Hv. f_equal.
  rewrite packet_sum_wr16 by lia. pose proof (rd16_range m (data + 2 * k)) as Hold.
  set (S := packet_sum m data len) in *. set (o := rd16 m (data + 2 * k)) in *.
  apply andb_false_iff. left. apply Z.eqb_neq. intros H0. apply Z.mod_divide in H0; [|lia].
  apply Z.mod_divide in Hv; [|lia]. destruct H0 as [a H0], Hv as [b Hv].
  assert (w - o = (a - b) * 65535) as Hd by lia.
  assert (a - b = 1 \/ a - b = -1 \/ a - b = 0) as [E|[E|E]] by lia; rewrite E in Hd.
  - assert (w = 65535 /\ o = 0) as [-> ->] by lia. destruct Hnz; done.
  - assert (w = 0 /\ o = 65535) as [-> ->] by lia. destruct Hnz; done.
  - lia.
Qed.

(** An 8-byte packet with its checksum field in bytes 2 and 3. *)
Definition sample_packet : mem := wr (wr (wr (wr ∅ 100 0x12) 101 0x34) 104 0xFF) 107 0x80.

Lemma checksum_roundtrip_witness :
  exists c, checksum sample_packet 100 8 = Some c /\ 0 <= c < 2 ^ 16 /\
    checksum_verify (wr16 sample_packet (100 + 2 * 1) c) 100 8 = Some true.
Proof.
  apply (checksum_roundtrip sample_packet 100 8 1); [lia|vm_compute; split; [discriminate|reflexivity]|].
  vm_compute. reflexivity.
Defined.

Definition sealed_packet : mem := wr16 sample_packet (100 + 2 * 1) (default 0 (checksum sample_packet 100 8)).

Lemma checksum_detects_witness :
  checksum_verify (wr16 sealed_packet (100 + 2 * 0) 0x3413) 100 8 = Some false.
Proof.
  apply (checksum_detects sealed_packet 100 8 0 0x3413);
    [lia|vm_compute; split; [discriminate|reflexivity]|lia|vm_compute; reflexivity
    |vm_compute; discriminate|left; vm_compute; discriminate].
Defined.
