(* ===== verification/Netbuf.v ===== *)
(** * Network buffers

    Models src/net/netbuf.c and src/include/net/netbuf.h over the heap
    interface [KHeap].  A [netbuf_t] is a record of its fields together with
    the address of the structure; the fields [src_ip] and [src_port], which
    netbuf.c never touches, are left out.  [None] as a buffer is the C NULL. *)

From S2P Require Import Prelude Mem Heap HeapFacts HeapProps HeapInterface.

Definition NETBUF_MAX_SIZE : Z := 2048.
Definition NETBUF_HEADROOM : Z := 128.

Record netbuf := Netbuf {
  nb_self : Z;
  nb_head : Z; nb_data : Z; nb_tail : Z; nb_end : Z;
  nb_len : Z; nb_total_size : Z;
  nb_mac_header : Z; nb_network_header : Z; nb_transport_header : Z;
  nb_dev : Z; nb_next : Z
}.

(** [sizeof(netbuf_t)], padding included. *)
Definition sizeof_netbuf (a : arch) : Z :=
  match a with I686 => 52 | X86_64 | ARM64 => 88 end.

Definition set_window (b : netbuf) (data tail len : Z) : netbuf :=
  Netbuf (nb_self b) (nb_head b) data tail (nb_end b) len (nb_total_size b)
    (nb_mac_header b) (nb_network_header b) (nb_transport_header b) (nb_dev b) (nb_next b).
Definition set_dev (b : netbuf) (d : Z) : netbuf :=
  Netbuf (nb_self b) (nb_head b) (nb_data b) (nb_tail b) (nb_end b) (nb_len b) (nb_total_size b)
    (nb_mac_header b) (nb_network_header b) (nb_transport_header b) d (nb_next b).

Section ops.
Context (a : arch) {H : Type} `{!KHeap H}.

Definition netbuf_alloc (h : H) (size : Z) : option (option netbuf * H) :=
  let total_size := u32 (NETBUF_HEADROOM + size) in
  let total_size := if NETBUF_MAX_SIZE <? total_size then NETBUF_MAX_SIZE else total_size in
  '(buf, h) ← kh_malloc h (sizeof_netbuf a);
  if buf =? 0 then Some (None, h)
  else
    '(head, h) ← kh_malloc h total_size;
    if head =? 0 then h ← kh_free h buf; Some (None, h)
    else
      let h := kh_set_mem h (memset (kh_mem h) head 0 (Z.to_nat total_size)) in
      let data := uptr a (head + NETBUF_HEADROOM) in
      Some (Some (Netbuf buf head data data (uptr a (head + total_size)) 0 total_size 0 0 0 0 0), h).

Definition netbuf_free (h : H) (buf : option netbuf) : option H :=
  match buf with
  | None => Some h
  | Some b =>
      h ← (if negb (nb_head b =? 0) then kh_free h (nb_head b) else Some h);
      kh_free h (nb_self b)
  end.

(** The operations below return the pointer they return in C (0 for NULL)
    and the buffer. *)
Definition netbuf_push (buf : option netbuf) (len : Z) : Z * option netbuf :=
  match buf with
  | None => (0, None)
  | Some b =>
      if nb_data b - nb_head b <? s32 len then (0, Some b)
      else
        let b := set_window b (uptr a (nb_data b - len)) (nb_tail b) (u32 (nb_len b + len)) in
        (nb_data b, Some b)
  end.

Definition netbuf_pull (buf : option netbuf) (len : Z) : Z * option netbuf :=
  match buf with
  | None => (0, None)
  | Some b =>
      if nb_len b <? len then (0, Some b)
      else
        let b := set_window b (uptr a (nb_data b + len)) (nb_tail b) (u32 (nb_len b - len)) in
        (nb_data b, Some b)
  end.

Definition netbuf_put (buf : option netbuf) (len : Z) : Z * option netbuf :=
  match buf with
  | None => (0, None)
  | Some b =>
      if nb_end b - nb_tail b <? s32 len then (0, Some b)
      else
        let old_tail := nb_tail b in
        (old_tail, Some (set_window b (nb_data b) (uptr a (nb_tail b + len)) (u32 (nb_len b + len))))
  end.

Definition netbuf_clone (h : H) (buf : option netbuf) : option (option netbuf * H) :=
  match buf with
  | None => Some (None, h)
  | Some b =>
      '(new_buf, h) ← netbuf_alloc h (nb_len b);
      match new_buf with
      | None => Some (None, h)
      | Some n =>
          let h := kh_set_mem h (memcpy (kh_mem h) (nb_data n) (nb_data b) (Z.to_nat (nb_len b))) in
          let n := set_window n (nb_data n) (uptr a (nb_data n + nb_len b)) (nb_len b) in
          Some (Some (set_dev n (nb_dev b)), h)
      end
  end.

Definition netbuf_reset (buf : option netbuf) : option netbuf :=
  match buf with
  | None => None
  | Some b =>
      let data := uptr a (nb_head b + NETBUF_HEADROOM) in
      Some (Netbuf (nb_self b) (nb_head b) data data (nb_end b) 0 (nb_total_size b) 0 0 0 (nb_dev b) (nb_next b))
  end.

Definition netbuf_headroom (buf : option netbuf) : Z :=
  match buf with None => 0 | Some b => u32 (nb_data b - nb_head b) end.
Definition netbuf_tailroom (buf : option netbuf) : Z :=
  match buf with None => 0 | Some b => u32 (nb_end b - nb_tail b) end.

End ops.

(** ** The window invariant *)

(** head <= data <= tail <= end inside the block of [total_size] bytes. *)
Record nb_wf (a : arch) (b : netbuf) : Prop := {
  wf_head : 0 < nb_head b;
  wf_order : nb_head b <= nb_data b <= nb_tail b /\ nb_tail b <= nb_end b;
  wf_len : nb_len b = nb_tail b - nb_data b;
  wf_size : nb_end b = nb_head b + nb_total_size b;
  wf_bound : NETBUF_HEADROOM <= nb_total_size b <= NETBUF_MAX_SIZE;
  wf_top : nb_end b < 2 ^ ptr_bits a
}.

Lemma wf_addr a b x : nb_wf a b -> nb_head b <= x <= nb_end b -> uptr a x = x.
Proof. intros [] Hx. apply uptr_small. lia. Qed.

(** Window arithmetic on a well-formed buffer, as offsets
    from the start of the block.  For lengths below 2^31: [netbuf_push]
    succeeds exactly when the headroom is large enough, [netbuf_put] exactly
    when the tailroom is, [netbuf_pull] exactly when the data is long enough;
    each moves the one pointer it should, refuses by returning NULL with the
    buffer unchanged, and keeps the buffer well formed.  A pushed header can
    be pulled again, giving the same buffer. *)
Theorem netbuf_window_ops a b n :
  nb_wf a b -> 0 <= n < 2 ^ 31 ->
  (if nb_data b - nb_head b <? n then netbuf_push a (Some b) n = (0, Some b)
   else exists b', netbuf_push a (Some b) n = (nb_data b - n, Some b') /\ nb_wf a b' /\
          nb_data b' = nb_data b - n /\ nb_tail b' = nb_tail b /\ nb_head b' = nb_head b /\
          netbuf_pull a (Some b') n = (nb_data b, Some b)) /\
  (if nb_end b - nb_tail b <? n then netbuf_put a (Some b) n = (0, Some b)
   else exists b', netbuf_put a (Some b) n = (nb_tail b, Some b') /\ nb_wf a b' /\
          nb_data b' = nb_data b /\ nb_tail b' = nb_tail b + n) /\
  (if nb_len b <? n then netbuf_pull a (Some b) n = (0, Some b)
   else exists b', netbuf_pull a (Some b) n = (nb_data b + n, Some b') /\ nb_wf a b' /\
          nb_data b' = nb_data b + n /\ nb_tail b' = nb_tail b) /\
  netbuf_headroom (Some b) = nb_data b - nb_head b /\ netbuf_tailroom (Some b) = nb_end b - nb_tail b.
Proof.
  intros Hwf Hn. pose proof Hwf as [H1 H2 H3 H4 H5 H6]. unfold NETBUF_HEADROOM, NETBUF_MAX_SIZE in *.
  unfold netbuf_push, netbuf_put, netbuf_pull, netbuf_headroom, netbuf_tailroom. rewrite s32_small by done.
  split_and!.
  - case_if; [done|]. rewrite (wf_addr a b) by (done || lia). rewrite (u32_small (nb_len b + n)) by lia. eexists. split; [done|].
    split_and!; [constructor; simpl; unfold NETBUF_HEADROOM, NETBUF_MAX_SIZE; lia|done|done|done|]. simpl.
    rewrite (proj2 (Z.ltb_ge _ _)) by lia. rewrite (wf_addr a b) by (done || lia). rewrite (u32_small (nb_len b + n - n)) by lia.
    replace (nb_data b - n + n) with (nb_data b) by lia. replace (nb_len b + n - n) with (nb_len b) by lia. by destruct b.
  - case_if; [done|]. rewrite (wf_addr a b) by (done || lia). rewrite (u32_small (nb_len b + n)) by lia. eexists. split; [done|].
    split_and!; [constructor; simpl; unfold NETBUF_HEADROOM, NETBUF_MAX_SIZE; lia|done|done].
  - case_if; [done|]. rewrite (wf_addr a b) by (done || lia). rewrite (u32_small (nb_len b - n)) by lia. eexists. split; [done|].
    split_and!; [constructor; simpl; unfold NETBUF_HEADROOM, NETBUF_MAX_SIZE; lia|done|done].
  - apply u32_small. lia.
  - apply u32_small. lia.
Qed.

(** The headroom test compares with [(int)len]: a length of
    2 GB or more is negative there, so [netbuf_push] accepts it on every
    target and leaves [data] outside the block. *)
Theorem netbuf_push_huge_accepted a b n :
  nb_wf a b -> 2 ^ 31 <= n <= 2 ^ 32 - 4096 ->
  exists b', netbuf_push a (Some b) n = (nb_data b', Some b') /\
    ~ (nb_head b <= nb_data b' <= nb_end b).
Proof.
  intros [H1 H2 H3 H4 H5 H6] Hn. unfold NETBUF_HEADROOM, NETBUF_MAX_SIZE in *.
  unfold netbuf_push. assert (s32 n < 0) as Hs.
  { unfold s32. rewrite Z.mod_small by lia. rewrite (proj2 (Z.ltb_ge _ _)) by lia. lia. }
  rewrite (proj2 (Z.ltb_ge _ _)) by lia. eexists. split; [done|]. simpl. unfold uptr.
  assert (2 ^ 32 <= 2 ^ ptr_bits a) by (apply Z.pow_le_mono_r; destruct a; simpl; lia).
  destruct (decide (n <= nb_data b)) as [Hle|Hgt].
  - rewrite Z.mod_small by lia. lia.
  - replace (nb_data b - n) with (nb_data b - n + 2 ^ ptr_bits a + (-1) * 2 ^ ptr_bits a) by lia.
    rewrite Z.mod_add by lia. rewrite Z.mod_small by lia. lia.
Qed.

(** ** Allocation, release, copies *)

Section laws.
Context (a : arch) {H : Type} `{!KHeap H} `{!KHeapLaws H}.
Hypothesis Hlimit : kh_limit <= 2 ^ ptr_bits a.

(** The two requests of [netbuf_alloc] are covered by the heap's promise. *)
Definition alloc_ready (h : H) (total : Z) : Prop :=
  kh_ready h (sizeof_netbuf a) /\
  forall r h', kh_malloc h (sizeof_netbuf a) = Some (r, h') -> kh_ready h' total.

Definition alloc_size (size : Z) : Z := Z.min NETBUF_MAX_SIZE (NETBUF_HEADROOM + size).

(** A fresh buffer: well formed, empty, zeroed, in two blocks of its own. *)
Definition fresh_netbuf (h h' : H) (L : list block) (size : Z) (b : netbuf) : Prop :=
  exists s1 s2 L', nb_wf a b /\ nb_total_size b = alloc_size size /\
    nb_data b = nb_head b + NETBUF_HEADROOM /\ nb_len b = 0 /\
    kh_live h' L' /\ L' ≡ₚ (nb_head b, s2) :: (nb_self b, s1) :: L /\ nb_total_size b <= s2 /\
    Forall (fun x => ranges_disjoint x (nb_head b, s2)) ((nb_self b, s1) :: L) /\
    (forall q, nb_head b <= q < nb_end b -> rd (kh_mem h') q = 0).

Lemma alloc_total size : 0 <= size < 2 ^ 32 - NETBUF_HEADROOM ->
  (if NETBUF_MAX_SIZE <? u32 (NETBUF_HEADROOM + size) then NETBUF_MAX_SIZE else u32 (NETBUF_HEADROOM + size))
  = alloc_size size.
Proof. unfold alloc_size, NETBUF_MAX_SIZE, NETBUF_HEADROOM. intros Hs. rewrite u32_small by lia. case_if; lia. Qed.

Lemma same_block_trans m1 m2 m3 b : same_block m1 m2 b -> same_block m2 m3 b -> same_block m1 m3 b.
Proof. intros H1 H2 q Hq. by rewrite H2, H1. Qed.

Lemma same_blocks_trans m1 m2 m3 L :
  Forall (same_block m1 m2) L -> Forall (same_block m2 m3) L -> Forall (same_block m1 m3) L.
Proof.
  intros H1 H2. apply Forall_forall. intros b Hb. eapply same_block_trans.
  - by apply (proj1 (Forall_forall _ _) H1).
  - by apply (proj1 (Forall_forall _ _) H2).
Qed.

(** Filling inside one block leaves the disjoint ones alone. *)
Lemma filled_other m m' p v n sz L :
  filled m m' p v n -> n <= sz -> Forall (fun x => ranges_disjoint x (p, sz)) L -> Forall (same_block m m') L.
Proof.
  intros Hf Hn Hd. apply Forall_forall. intros b Hb q Hq. rewrite Hf.
  pose proof (proj1 (Forall_forall _ _) Hd b Hb) as Hdb. unfold ranges_disjoint in Hdb. simpl in Hdb.
  case_if; [lia|done].
Qed.

Lemma netbuf_alloc_spec h L size :
  kh_live h L -> 0 <= size < 2 ^ 32 - NETBUF_HEADROOM -> alloc_ready h (alloc_size size) ->
  exists r h', netbuf_alloc a h size = Some (r, h') /\ Forall (same_block (kh_mem h) (kh_mem h')) L /\
    match r with
    | None => exists L', kh_live h' L' /\ L' ≡ₚ L
    | Some b => fresh_netbuf h h' L size b
    end.
Proof.
  intros HL Hs [Hr1 Hr2]. unfold netbuf_alloc. rewrite alloc_total by done. cbv zeta.
  assert (128 <= alloc_size size <= 2048) as Hts by (unfold alloc_size, NETBUF_MAX_SIZE, NETBUF_HEADROOM; lia).
  destruct (law_malloc h L _ HL Hr1) as (r1 & h1 & E1 & M1 & C1). rewrite E1. cbn [mbind option_bind].
  specialize (Hr2 _ _ E1). destruct C1 as [[-> HL1]|(Hp1 & s1 & L1 & Hs1 & Ht1 & HL1 & P1 & D1)].
  { rewrite Z.eqb_refl. exists None, h1. split; [done|]. split; [done|]. by exists L. }
  rewrite (proj2 (Z.eqb_neq r1 0)) by lia.
  destruct (law_malloc h1 L1 _ HL1 Hr2) as (r2 & h2 & E2 & M2 & C2). rewrite E2. cbn [mbind option_bind].
  rewrite P1 in M2. apply Forall_cons_1 in M2 as [M2s M2].
  destruct C2 as [[-> HL2]|(Hp2 & s2 & L2 & Hs2 & Ht2 & HL2 & P2 & D2)].
  - rewrite Z.eqb_refl.
    destruct (law_free h2 L1 r1 s1 HL2) as (h3 & L3 & E3 & HL3 & P3 & M3); [rewrite P1; by left|].
    rewrite E3. cbn [mbind option_bind]. exists None, h3. split; [done|]. rewrite M3.
    split; [by eapply same_blocks_trans|]. exists L3. split; [done|].
    apply (Permutation_cons_inv (a := (r1, s1))). by rewrite <- P3, P1.
  - rewrite (proj2 (Z.eqb_neq r2 0)) by lia. eexists _, _. split; [reflexivity|]. rewrite law_mem_get.
    pose proof (memset_filled (kh_mem h2) r2 0 (Z.to_nat (alloc_size size))) as Hfill.
    rewrite Z2Nat.id in Hfill by lia. rewrite P1 in D2.
    pose proof (filled_other _ _ _ _ _ _ _ Hfill Hs2 D2) as Hoth.
    split.
    { apply Forall_cons_1 in Hoth as [_ Hoth]. eapply same_blocks_trans; [exact M1|].
      by eapply same_blocks_trans. }
    rewrite !uptr_small by (unfold NETBUF_HEADROOM; lia).
    exists s1, s2, L2. simpl. unfold NETBUF_HEADROOM in *. split_and!; try done.
    + constructor; simpl; unfold NETBUF_HEADROOM, NETBUF_MAX_SIZE; lia.
    + by apply law_mem_live.
    + by rewrite P2, P1.
    + intros q Hq. rewrite law_mem_get, Hfill. case_if; [done|lia].
Qed.

(** Allocation.  [netbuf_alloc] either returns a well-formed empty buffer of
    the requested size (capped at 2048 bytes) in two fresh heap blocks, with
    128 bytes of headroom and all bytes zero, or NULL; in the second case
    nothing is leaked: the structure already allocated has been freed.  No
    other live block changes. *)
Theorem netbuf_alloc_correct h L size :
  kh_live h L -> 0 <= size < 2 ^ 32 - NETBUF_HEADROOM -> alloc_ready h (alloc_size size) ->
  exists r h', netbuf_alloc a h size = Some (r, h') /\ Forall (same_block (kh_mem h) (kh_mem h')) L /\
    match r with
    | None => exists L', kh_live h' L' /\ L' ≡ₚ L
    | Some b => fresh_netbuf h h' L size b
    end.
Proof. apply netbuf_alloc_spec. Qed.

Lemma copied_in m m' d s n : copied m m' d s n -> 0 <= n ->
  forall i, 0 <= i < n -> rd m' (d + i) = rd m (s + i).
Proof. intros Hc Hn i Hi. rewrite Hc. case_if; [f_equal; lia|lia]. Qed.

(** Copies.  A clone of a well-formed buffer that lives in a heap block of
    its own has the same length and bytes, and is well formed whenever the
    data fits behind the fixed headroom (at most 1920 bytes).  Data longer
    than that, which [netbuf_push] into the headroom allows, is copied past
    the end of the new block: the clone's tail lies behind its end. *)
Theorem netbuf_clone_correct h L b sz :
  kh_live h L -> nb_wf a b -> (nb_head b, sz) ∈ L -> nb_total_size b <= sz ->
  alloc_ready h (alloc_size (nb_len b)) ->
  exists r h', netbuf_clone a h (Some b) = Some (r, h') /\
    match r with
    | None => True
    | Some n => nb_len n = nb_len b /\
        (forall i, 0 <= i < nb_len b -> rd (kh_mem h') (nb_data n + i) = rd (kh_mem h) (nb_data b + i)) /\
        (nb_len b <= 1920 -> nb_wf a n) /\
        (1920 < nb_len b -> nb_end n < nb_data n + nb_len b /\
           rd (kh_mem h') (nb_end n) = rd (kh_mem h) (nb_data b + 1920))
    end.
Proof.
  intros HL Hwf Hin Hsz Hr. pose proof Hwf as [W1 W2 W3 W4 W5 W6]. unfold NETBUF_HEADROOM, NETBUF_MAX_SIZE in *.
  destruct (netbuf_alloc_spec h L (nb_len b) HL) as (r & h' & E & Msame & Hres);
    [unfold NETBUF_HEADROOM; lia|done|].
  unfold netbuf_clone. rewrite E. cbn [mbind option_bind]. destruct r as [n|]; [|by eexists _, _].
  eexists _, _. split; [reflexivity|]. rewrite law_mem_get. cbv iota.
  destruct Hres as (s1 & s2 & L' & N & Nt & Nd & Nl & HL' & P & Ns & D & Z0).
  pose proof N as [V1 V2 V3 V4 V5 V6]. unfold alloc_size, NETBUF_HEADROOM, NETBUF_MAX_SIZE in *.
  apply Forall_cons_1 in D as [_ D].
  pose proof (proj1 (Forall_forall _ _) D _ (proj1 (list_elem_of_In _ _) Hin)) as Dis.
  pose proof (proj1 (Forall_forall _ _) Msame _ (proj1 (list_elem_of_In _ _) Hin)) as Src.
  unfold ranges_disjoint in Dis. unfold same_block in Src. simpl in Dis, Src.
  assert (copied (kh_mem h') (memcpy (kh_mem h') (nb_data n) (nb_data b) (Z.to_nat (nb_len b)))
            (nb_data n) (nb_data b) (nb_len b)) as Hc.
  { pose proof (memcpy_copied (kh_mem h') (nb_data n) (nb_data b) (Z.to_nat (nb_len b))) as Hc.
    rewrite Z2Nat.id in Hc by lia. apply Hc. unfold fwd_safe. lia. }
  assert (forall i, 0 <= i < nb_len b ->
    rd (memcpy (kh_mem h') (nb_data n) (nb_data b) (Z.to_nat (nb_len b))) (nb_data n + i) =
    rd (kh_mem h) (nb_data b + i)) as Hbytes.
  { intros i Hi. rewrite (copied_in _ _ _ _ _ Hc) by lia. apply Src. lia. }
  simpl. split; [done|]. split; [exact Hbytes|]. split.
  - intros Hle. rewrite (uptr_small a (nb_data n + nb_len b)) by lia.
    constructor; simpl; unfold NETBUF_HEADROOM, NETBUF_MAX_SIZE; lia.
  - intros Hgt. split; [lia|]. replace (nb_end n) with (nb_data n + 1920) by lia. apply Hbytes. lia.
Qed.

End laws.

(** On the heap of heap.c both requests are covered when both fit. *)
Lemma alloc_ready_fit a {P} `{!PageProvider P} (h h' : heap P) cs cs' total :
  default h (snd <$> kmalloc a h (sizeof_netbuf a)) = h' -> wf a h cs -> heap_end h + sizeof_netbuf a + sizeof_heap_block a + PAGE_SIZE + 3 < 2 ^ ptr_bits a ->
  first_fit (align4 a (sizeof_netbuf a)) cs <> None ->
  wf a h' cs' -> 0 < total -> heap_end h' + total + sizeof_heap_block a + PAGE_SIZE + 3 < 2 ^ ptr_bits a ->
  first_fit (align4 a total) cs' <> None ->
  alloc_ready a (ArchHeap (a := a) h) total.
Proof.
  intros E Hwf Hb Hf Hwf' Ht Hb' Hf'. split.
  - apply (ready_fit a h cs); try done. by destruct a.
  - intros r h2 ->%kh_malloc_inv. rewrite E. by apply (ready_fit a h' cs').
Qed.

(** ** A buffer on the boot heap of i686 *)

Section concrete.
#[local] Existing Instance CountingPages.

Abbreviation machine := (arch_heap I686 Z).

(** The states of a run: boot, a buffer for 8 bytes, 5 bytes put. *)
Definition nb_h0 : heap Z := Eval vm_compute in the_heap boot_heap.
Definition nb_heap0 : machine := ArchHeap nb_h0.
Definition nb_res : option (option netbuf * machine) := Eval vm_compute in netbuf_alloc I686 nb_heap0 8.
Definition nb_buf0 : netbuf := Eval vm_compute in default (Netbuf 0 0 0 0 0 0 0 0 0 0 0 0) (r ← nb_res; r.1).
Definition nb_h1 : heap Z := Eval vm_compute in the_heap (r ← nb_res; Some (the_heap_of r.2)).
Definition nb_heap1 : machine := ArchHeap nb_h1.
Definition nb_buf1 : netbuf := Eval vm_compute in default nb_buf0 (netbuf_put I686 (Some nb_buf0) 5).2.
(** The heaps after the first request of an allocation in each state. *)
Definition nb_heap_a : heap Z := Eval vm_compute in default nb_h0 (snd <$> kmalloc I686 nb_h0 (sizeof_netbuf I686)).
Definition nb_heap_b : heap Z := Eval vm_compute in default nb_h1 (snd <$> kmalloc I686 nb_h1 (sizeof_netbuf I686)).

Lemma nb_h0_wf : wf I686 nb_h0 [(4076, true)].
Proof. split; try (vm_compute; done). repeat constructor; simpl; lia. Qed.
Lemma nb_h1_wf : wf I686 nb_h1 [(52, false); (136, false); (3848, true)].
Proof. split; try (vm_compute; done). repeat constructor; simpl; lia. Qed.
Lemma nb_heap_a_wf : wf I686 nb_heap_a [(52, false); (4004, true)].
Proof. split; try (vm_compute; done). repeat constructor; simpl; lia. Qed.
Lemma nb_heap_b_wf : wf I686 nb_heap_b [(52, false); (136, false); (52, false); (3776, true)].
Proof. split; try (vm_compute; done). repeat constructor; simpl; lia. Qed.

Lemma nb_heap0_live : kh_live nb_heap0 [].
Proof. exists [(4076, true)]. split; [exact nb_h0_wf|]. split; by vm_compute. Qed.

Lemma nb_heap1_live : kh_live nb_heap1 [(0x80400014, 52); (0x8040005C, 136)].
Proof. exists [(52, false); (136, false); (3848, true)]. split; [exact nb_h1_wf|]. split; by vm_compute. Qed.

Lemma nb_heap0_ready : alloc_ready I686 nb_heap0 (alloc_size 8).
Proof. refine (alloc_ready_fit I686 nb_h0 nb_heap_a _ _ _ _ nb_h0_wf _ _ nb_heap_a_wf _ _ _); by vm_compute. Qed.

Lemma nb_heap1_ready : alloc_ready I686 nb_heap1 (alloc_size (nb_len nb_buf1)).
Proof. refine (alloc_ready_fit I686 nb_h1 nb_heap_b _ _ _ _ nb_h1_wf _ _ nb_heap_b_wf _ _ _); by vm_compute. Qed.

Lemma nb_buf1_wf : nb_wf I686 nb_buf1.
Proof. split; vm_compute; (done || split; done || (split; [split|]; done)). Qed.

Lemma i686_limit : @kh_limit machine _ _ <= 2 ^ ptr_bits I686.
Proof. by vm_compute. Qed.

Lemma netbuf_window_ops_witness :
  exists b', netbuf_push I686 (Some nb_buf1) 14 = (nb_data nb_buf1 - 14, Some b') /\ nb_wf I686 b' /\
    netbuf_pull I686 (Some b') 14 = (nb_data nb_buf1, Some nb_buf1).
Proof.
  destruct (netbuf_window_ops I686 nb_buf1 14 nb_buf1_wf ltac:(lia)) as [Hp _].
  assert ((nb_data nb_buf1 - nb_head nb_buf1 <? 14) = false) as E by (vm_compute; reflexivity).
  rewrite E in Hp. destruct Hp as (b' & H1 & H2 & _ & _ & _ & H3).
  exists b'. split; [exact H1|]. split; [exact H2|exact H3].
Defined.

Lemma netbuf_push_huge_accepted_witness :
  exists b', netbuf_push I686 (Some nb_buf1) (2 ^ 31) = (nb_data b', Some b') /\
    ~ (nb_head nb_buf1 <= nb_data b' <= nb_end nb_buf1).
Proof. apply (netbuf_push_huge_accepted I686 nb_buf1 (2 ^ 31) nb_buf1_wf). lia. Defined.

Lemma netbuf_alloc_correct_witness :
  exists r h', netbuf_alloc I686 nb_heap0 8 = Some (r, h') /\
    Forall (same_block (kh_mem nb_heap0) (kh_mem h')) [] /\
    match r with
    | None => exists L', kh_live h' L' /\ L' ≡ₚ []
    | Some b => fresh_netbuf I686 nb_heap0 h' [] 8 b
    end.
Proof.
  apply (netbuf_alloc_correct I686).
  - exact i686_limit.
  - exact nb_heap0_live.
  - unfold NETBUF_HEADROOM. lia.
  - exact nb_heap0_ready.
Defined.

Lemma netbuf_clone_correct_witness :
  exists r h', netbuf_clone I686 nb_heap1 (Some nb_buf1) = Some (r, h') /\
    match r with None => True | Some n => nb_len n = 5 end.
Proof.
  destruct (netbuf_clone_correct I686 (H := machine) i686_limit nb_heap1 _ nb_buf1 136 nb_heap1_live nb_buf1_wf)
    as (r & h' & E & R).
  - apply list_elem_of_In. right. left. vm_compute. reflexivity.
  - vm_compute. discriminate.
  - exact nb_heap1_ready.
  - exists r, h'. split; [exact E|]. destruct r as [n|]; [|exact I]. destruct R as [R _]. rewrite R. vm_compute. reflexivity.
Defined.

End concrete.
