(* ===== verification/Pmm.v ===== *)
(** * The physical memory manager

    Models src/mm/pmm.c and src/include/mm/pmm.h: the frame bitmap (32-bit
    words), the 16-bit reference counts, the table of protected frames, the
    counters and the search hint, with every operation that changes them and
    both initialisations.  Physical addresses and frame numbers are 64-bit on
    every target.  [None] as the result of an operation means that the PMM
    lock is already held.  The memory a frame occupies is a byte memory
    indexed by kernel virtual address. *)

From S2P Require Import Prelude Spinlock Mem.

(** ** Data and address arithmetic (include/mm/mm_types.h) *)

Definition PADDR_INVALID : Z := 2 ^ 64 - 1.
Definition PFN_INVALID : Z := 2 ^ 64 - 1.

Definition PADDR_TO_PFN (pa : Z) : Z := Z.shiftr pa PAGE_SHIFT.
Definition PFN_TO_PADDR (pfn : Z) : Z := u64 (Z.shiftl pfn PAGE_SHIFT).
Definition PADDR_ALIGN_DOWN (pa : Z) : Z := Z.land pa (2 ^ 64 - PAGE_SIZE).
Definition PADDR_ALIGN_UP (pa : Z) : Z := Z.land (u64 (pa + PAGE_SIZE - 1)) (2 ^ 64 - PAGE_SIZE).
Definition IS_PADDR_ALIGNED (pa : Z) : bool := Z.land pa (PAGE_SIZE - 1) =? 0.

Definition MAX_PROTECTED_FRAMES : Z := 65536.
Definition HUGE_PAGE_SIZE : Z := 2 * 1024 * 1024.

Inductive pmm_zone := ZONE_DMA | ZONE_NORMAL | ZONE_HIGH | ZONE_COUNT.

Record protected_frame := ProtectedFrame { pf_frame : Z; pf_refcount : Z }.

Record pmm_info := PmmInfo {
  pi_total_frames : Z; pi_free_frames : Z; pi_used_frames : Z;
  pi_reserved_frames : Z; pi_kernel_frames : Z; pi_bitmap_frames : Z
}.

(** The static variables.  [protected_frames] holds the first
    [protected_frame_count] entries of the C table. *)
Record pmm := Pmm {
  frame_bitmap : list Z;
  bitmap_size : Z;
  total_frames : Z;
  info : pmm_info;
  last_free_index : Z;
  pmm_lock : lockst;
  protected_frames : list protected_frame;
  frame_refcount : list Z;
  pmm_data_end_virt : Z;
  heap_reserved_phys_start : Z;
  heap_reserved_phys_end : Z;
  pmem : mem
}.

Definition set_frame_bitmap (s : pmm) v := Pmm v (bitmap_size s) (total_frames s) (info s) (last_free_index s) (pmm_lock s) (protected_frames s) (frame_refcount s) (pmm_data_end_virt s) (heap_reserved_phys_start s) (heap_reserved_phys_end s) (pmem s).
Definition set_info (s : pmm) v := Pmm (frame_bitmap s) (bitmap_size s) (total_frames s) v (last_free_index s) (pmm_lock s) (protected_frames s) (frame_refcount s) (pmm_data_end_virt s) (heap_reserved_phys_start s) (heap_reserved_phys_end s) (pmem s).
Definition set_last_free_index (s : pmm) v := Pmm (frame_bitmap s) (bitmap_size s) (total_frames s) (info s) v (pmm_lock s) (protected_frames s) (frame_refcount s) (pmm_data_end_virt s) (heap_reserved_phys_start s) (heap_reserved_phys_end s) (pmem s).
Definition set_pmm_lock (s : pmm) v := Pmm (frame_bitmap s) (bitmap_size s) (total_frames s) (info s) (last_free_index s) v (protected_frames s) (frame_refcount s) (pmm_data_end_virt s) (heap_reserved_phys_start s) (heap_reserved_phys_end s) (pmem s).
Definition set_protected (s : pmm) v := Pmm (frame_bitmap s) (bitmap_size s) (total_frames s) (info s) (last_free_index s) (pmm_lock s) v (frame_refcount s) (pmm_data_end_virt s) (heap_reserved_phys_start s) (heap_reserved_phys_end s) (pmem s).
Definition set_refcounts (s : pmm) v := Pmm (frame_bitmap s) (bitmap_size s) (total_frames s) (info s) (last_free_index s) (pmm_lock s) (protected_frames s) v (pmm_data_end_virt s) (heap_reserved_phys_start s) (heap_reserved_phys_end s) (pmem s).
Definition set_heap_reserved (s : pmm) v w := Pmm (frame_bitmap s) (bitmap_size s) (total_frames s) (info s) (last_free_index s) (pmm_lock s) (protected_frames s) (frame_refcount s) (pmm_data_end_virt s) v w (pmem s).
Definition set_pmem (s : pmm) v := Pmm (frame_bitmap s) (bitmap_size s) (total_frames s) (info s) (last_free_index s) (pmm_lock s) (protected_frames s) (frame_refcount s) (pmm_data_end_virt s) (heap_reserved_phys_start s) (heap_reserved_phys_end s) v.

(** The counter updates [free_frames += d; used_frames -= d], 64-bit. *)
Definition count_freed (s : pmm) (d : Z) : pmm :=
  let i := info s in
  set_info s (PmmInfo (pi_total_frames i) (u64 (pi_free_frames i + d)) (u64 (pi_used_frames i - d))
                (pi_reserved_frames i) (pi_kernel_frames i) (pi_bitmap_frames i)).
(** [free_frames += d] alone. *)
Definition count_free_only (s : pmm) (d : Z) : pmm :=
  let i := info s in
  set_info s (PmmInfo (pi_total_frames i) (u64 (pi_free_frames i + d)) (pi_used_frames i)
                (pi_reserved_frames i) (pi_kernel_frames i) (pi_bitmap_frames i)).

(** ** The bitmap *)

(** A word of the bitmap and a reference count; reads outside give 0. *)
Definition bitmap_word (s : pmm) (i : Z) : Z := default 0 (frame_bitmap s !! Z.to_nat i).
Definition refcount (s : pmm) (idx : Z) : Z := default 0 (frame_refcount s !! Z.to_nat idx).
Definition set_refcount (s : pmm) (idx v : Z) : pmm :=
  set_refcounts s (<[Z.to_nat idx := u16 v]> (frame_refcount s)).

Definition set_frame (s : pmm) (idx : Z) : pmm :=
  let bitmap_idx := idx / 32 in
  let bit_idx := idx mod 32 in
  if bitmap_size s <=? bitmap_idx then s
  else set_frame_bitmap s
         (<[Z.to_nat bitmap_idx := Z.lor (bitmap_word s bitmap_idx) (Z.shiftl 1 bit_idx)]> (frame_bitmap s)).

Definition clear_frame (s : pmm) (idx : Z) : pmm :=
  set_frame_bitmap s
    (<[Z.to_nat (idx / 32) :=
         Z.land (bitmap_word s (idx / 32)) (Z.lxor (Z.ones 32) (Z.shiftl 1 (idx mod 32)))]> (frame_bitmap s)).

Definition test_frame (s : pmm) (idx : Z) : bool :=
  let bitmap_idx := idx / 32 in
  let bit_idx := idx mod 32 in
  if bitmap_size s <=? bitmap_idx then false
  else negb (Z.land (bitmap_word s bitmap_idx) (Z.shiftl 1 bit_idx) =? 0).

(** The bit loop on word [w] of index [i], from [bit] on. *)
Fixpoint find_in_word (n : nat) (w i bit total : Z) : option Z :=
  match n with
  | O => None
  | S n =>
      if (Z.land w (Z.shiftl 1 bit) =? 0) && (i * 32 + bit <? total) then Some (i * 32 + bit)
      else find_in_word n w i (bit + 1) total
  end.

(** The word loop over [n] words from index [i]; the word and the frame found. *)
Fixpoint find_in_words (n : nat) (s : pmm) (i : Z) : option (Z * Z) :=
  match n with
  | O => None
  | S n =>
      let w := bitmap_word s i in
      match (if w =? 0xFFFFFFFF then None else find_in_word 32 w i 0 (total_frames s)) with
      | Some idx => Some (i, idx)
      | None => find_in_words n s (i + 1)
      end
  end.

(** First from the hint to the end, then from the start to the hint. *)
Definition find_free_frame (s : pmm) : Z * pmm :=
  let l := last_free_index s in
  match find_in_words (Z.to_nat (bitmap_size s - l)) s l with
  | Some (i, idx) => (idx, set_last_free_index s i)
  | None =>
      if 0 <? l then
        match find_in_words (Z.to_nat l) s 0 with
        | Some (i, idx) => (idx, set_last_free_index s i)
        | None => (PFN_INVALID, s)
        end
      else (PFN_INVALID, s)
  end.

(** ** Locking *)

Definition pmm_enter (s : pmm) : option (bool * pmm) :=
  '(irq_state, l) ← lock_irqsave (pmm_lock s); Some (irq_state, set_pmm_lock s l).
Definition pmm_leave (s : pmm) (irq_state : bool) : pmm :=
  set_pmm_lock s (unlock_irqrestore (pmm_lock s) irq_state).

(** ** Protected frames *)

(** Index of the entry for a frame. *)
Fixpoint find_protected_index (l : list protected_frame) (frame : Z) : option nat :=
  match l with
  | [] => None
  | e :: l =>
      if pf_frame e =? frame then Some O
      else match find_protected_index l frame with Some i => Some (S i) | None => None end
  end.

Definition find_protected_frame_unsafe (s : pmm) (frame : Z) : option nat :=
  find_protected_index (protected_frames s) frame.

Definition is_protected (s : pmm) (frame : Z) : bool :=
  match find_protected_frame_unsafe s frame with Some _ => true | None => false end.

Definition pmm_protect_frame (s : pmm) (frame : Z) : option pmm :=
  if (frame =? 0) || (frame =? PADDR_INVALID) then Some s
  else
    let frame := if IS_PADDR_ALIGNED frame then frame else PADDR_ALIGN_DOWN frame in
    '(irq_state, s) ← pmm_enter s;
    let idx := PADDR_TO_PFN frame in
    let s :=
      if (idx <? total_frames s) && negb (test_frame s idx) then
        let s := set_frame s idx in
        let s := count_freed s (-1) in
        set_refcount s idx 1
      else s in
    let s :=
      match find_protected_frame_unsafe s frame with
      | Some i =>
          set_protected s (alter (fun e => ProtectedFrame (pf_frame e) (u32 (pf_refcount e + 1))) i
                             (protected_frames s))
      | None =>
          if Z.of_nat (length (protected_frames s)) <? MAX_PROTECTED_FRAMES
          then set_protected s (protected_frames s ++ [ProtectedFrame frame 1])
          else s
      end in
    Some (pmm_leave s irq_state).

(** Entry [i] of the table, the count after the decrement of an entry, and
    the removal by moving the last entry into the hole. *)
Definition remove_entry (l : list protected_frame) (i : nat) : list protected_frame :=
  let count := (length l - 1)%nat in
  match l !! count with
  | Some e => take count (<[i := e]> l)
  | None => l
  end.

Definition pmm_unprotect_frame (s : pmm) (frame : Z) : option pmm :=
  if (frame =? 0) || (frame =? PADDR_INVALID) then Some s
  else
    let frame := if IS_PADDR_ALIGNED frame then frame else PADDR_ALIGN_DOWN frame in
    '(irq_state, s) ← pmm_enter s;
    match find_protected_frame_unsafe s frame with
    | None => Some (pmm_leave s irq_state)
    | Some i =>
        let rc := default 0 (pf_refcount <$> protected_frames s !! i) in
        let rc := if rc =? 0 then 0 else rc - 1 in
        let l := alter (fun e => ProtectedFrame (pf_frame e) rc) i (protected_frames s) in
        let s := set_protected s (if rc =? 0 then remove_entry l i else l) in
        Some (pmm_leave s irq_state)
    end.

Definition pmm_is_frame_protected (s : pmm) (frame : Z) : option (bool * pmm) :=
  if (frame =? 0) || (frame =? PADDR_INVALID) then Some (false, s)
  else
    let frame := if IS_PADDR_ALIGNED frame then frame else PADDR_ALIGN_DOWN frame in
    '(irq_state, s) ← pmm_enter s;
    Some (is_protected s frame, pmm_leave s irq_state).

(** ** Single frames *)

(** The target's check of a freshly allocated address, [true] when it fails. *)
Definition alloc_out_of_range (a : arch) (addr : Z) : bool :=
  match a with
  | I686 => 0x80000000 <=? addr
  | ARM64 => (addr <? 0x40000000) || (0x60000000 <=? addr)
  | X86_64 => false
  end.

(** Zeroing [n] frames at a physical address through the direct map. *)
Definition zero_frames (a : arch) (s : pmm) (addr n : Z) : pmm :=
  set_pmem s (memset (pmem s) (PHYS_TO_VIRT a addr) 0 (Z.to_nat (uptr a (n * PAGE_SIZE)))).

Definition pmm_alloc_frame (a : arch) (s : pmm) : option (Z * pmm) :=
  '(irq_state, s) ← pmm_enter s;
  let '(idx, s) := find_free_frame s in
  if idx =? PFN_INVALID then Some (PADDR_INVALID, pmm_leave s irq_state)
  else if test_frame s idx then Some (PADDR_INVALID, pmm_leave s irq_state)
  else
    let s := set_frame s idx in
    let s := count_freed s (-1) in
    let s := set_refcount s idx 1 in
    if negb (test_frame s idx) then
      let s := count_freed s 1 in
      Some (PADDR_INVALID, pmm_leave s irq_state)
    else
      let addr := PFN_TO_PADDR idx in
      if alloc_out_of_range a addr then
        let s := clear_frame s idx in
        let s := match a with ARM64 => set_refcount s idx 0 | _ => s end in
        let s := count_freed s 1 in
        Some (PADDR_INVALID, pmm_leave s irq_state)
      else if is_protected s addr then
        let s := clear_frame s idx in
        let s := set_refcount s idx 0 in
        let s := count_freed s 1 in
        Some (PADDR_INVALID, pmm_leave s irq_state)
      else
        let s := zero_frames a s addr 1 in
        Some (addr, pmm_leave s irq_state).

Definition pmm_alloc_frame_zone (a : arch) (s : pmm) (zone : pmm_zone) : option (Z * pmm) :=
  pmm_alloc_frame a s.

Definition pmm_free_frame (s : pmm) (frame : Z) : option pmm :=
  if (frame =? 0) || (frame =? PADDR_INVALID) then Some s
  else if negb (IS_PADDR_ALIGNED frame) then Some s
  else
    let idx := PADDR_TO_PFN frame in
    '(irq_state, s) ← pmm_enter s;
    if total_frames s <=? idx then Some (pmm_leave s irq_state)
    else if negb (test_frame s idx) then Some (pmm_leave s irq_state)
    else if is_protected s frame then Some (pmm_leave s irq_state)
    else
      let s' := if refcount s idx =? 0 then s else set_refcount s idx (refcount s idx - 1) in
      if negb (refcount s idx =? 0) && (0 <? refcount s' idx) then Some (pmm_leave s' irq_state)
      else
        let s := s' in
        let s := clear_frame s idx in
        let s := count_freed s 1 in
        let bitmap_idx := idx / 32 in
        let s := if bitmap_idx <? last_free_index s then set_last_free_index s bitmap_idx else s in
        Some (pmm_leave s irq_state).

(** [i * PAGE_SIZE] is computed in [size_t]. *)
Fixpoint free_frames_from (a : arch) (n : nat) (s : pmm) (frame i : Z) : option pmm :=
  match n with
  | O => Some s
  | S n =>
      s ← pmm_free_frame s (u64 (frame + uptr a (i * PAGE_SIZE)));
      free_frames_from a n s frame (i + 1)
  end.

Definition pmm_free_frames (a : arch) (s : pmm) (frame count : Z) : option pmm :=
  free_frames_from a (Z.to_nat count) s frame 0.

(** ** Contiguous frames *)

Definition DMA_ZONE_LIMIT : Z := 0x01000000.
Definition NORMAL_ZONE_LIMIT (a : arch) : Z :=
  match a with I686 => 0x38000000 | X86_64 | ARM64 => PADDR_INVALID end.

Definition get_zone_range (a : arch) (s : pmm) (zone : pmm_zone) : Z * Z :=
  let '(start, stop) :=
    match zone with
    | ZONE_DMA => (0, DMA_ZONE_LIMIT)
    | ZONE_NORMAL => (DMA_ZONE_LIMIT, NORMAL_ZONE_LIMIT a)
    | ZONE_HIGH =>
        match a with
        | I686 => (NORMAL_ZONE_LIMIT a, 0x80000000)
        | X86_64 | ARM64 => (0, PADDR_INVALID)
        end
    | ZONE_COUNT => (0, PFN_TO_PADDR (total_frames s))
    end in
  let max_addr := PFN_TO_PADDR (total_frames s) in
  (start, if (max_addr <? stop) || (stop =? PADDR_INVALID) then max_addr else stop).

(** The search loop for [count] consecutive free frames over the [n] frames
    from [i]; [accept] is the extra test made once a run is long enough.
    Returns the final [found_start] and [consecutive]. *)
Fixpoint find_run (n : nat) (s : pmm) (accept : Z -> bool) (count i found consecutive : Z) : Z * Z :=
  match n with
  | O => (found, consecutive)
  | S n =>
      if negb (test_frame s i) then
        let found := if consecutive =? 0 then i else found in
        let consecutive := consecutive + 1 in
        if (count <=? consecutive) && accept found then (found, consecutive)
        else find_run n s accept count (i + 1) found consecutive
      else find_run n s accept count (i + 1) PFN_INVALID 0
  end.

(** The loop that takes [n] frames from [idx]. *)
Fixpoint take_frames (n : nat) (s : pmm) (idx : Z) : pmm :=
  match n with
  | O => s
  | S n =>
      let s := set_frame s idx in
      let s := set_refcount s idx 1 in
      let s := count_freed s (-1) in
      take_frames n s (idx + 1)
  end.

Definition pmm_alloc_frames_zone (a : arch) (s : pmm) (count : Z) (zone : pmm_zone) : option (Z * pmm) :=
  if count =? 0 then Some (PADDR_INVALID, s)
  else
    let '(zone_start, zone_end) := get_zone_range a s zone in
    let start_frame := PADDR_TO_PFN zone_start in
    let end_frame := PADDR_TO_PFN zone_end in
    let end_frame := if total_frames s <? end_frame then total_frames s else end_frame in
    if end_frame <=? start_frame then Some (PADDR_INVALID, s)
    else
      '(irq_state, s) ← pmm_enter s;
      let '(found_start, consecutive) :=
        find_run (Z.to_nat (end_frame - start_frame)) s
          (fun found => PFN_TO_PADDR (u64 (found + count)) <=? zone_end)
          count start_frame PFN_INVALID 0 in
      if (consecutive <? count) || (found_start =? PFN_INVALID)
      then Some (PADDR_INVALID, pmm_leave s irq_state)
      else
        let s := take_frames (Z.to_nat count) s found_start in
        let addr := PFN_TO_PADDR found_start in
        let s := zero_frames a s addr count in
        Some (addr, pmm_leave s irq_state).

Definition pmm_alloc_frames (a : arch) (s : pmm) (count : Z) : option (Z * pmm) :=
  if count =? 0 then Some (PADDR_INVALID, s)
  else if count =? 1 then pmm_alloc_frame a s
  else
    '(irq_state, s) ← pmm_enter s;
    let '(start_pfn, consecutive) :=
      find_run (Z.to_nat (total_frames s)) s (fun _ => true) count 0 PFN_INVALID 0 in
    if consecutive <? count then Some (PADDR_INVALID, pmm_leave s irq_state)
    else
      let s := take_frames (Z.to_nat count) s start_pfn in
      let addr := PFN_TO_PADDR start_pfn in
      let s := zero_frames a s addr count in
      Some (addr, pmm_leave s irq_state).

(** ** Queries and the heap reservation *)

Definition pmm_get_info (s : pmm) : pmm_info := info s.

(** [bitmap] is the address of [frame_bitmap]; the fallback is for a PMM that
    has not been initialised. *)
Definition pmm_get_bitmap_end (a : arch) (s : pmm) (bitmap : Z) : Z :=
  if negb (pmm_data_end_virt s =? 0) then pmm_data_end_virt s
  else
    let bitmap_bytes := Z.land (u64 (u64 (total_frames s + 31) / 32 * 4 + PAGE_SIZE - 1)) (PAGE_MASK a) in
    uptr a (Z.land (u64 (bitmap + bitmap_bytes + PAGE_SIZE - 1)) (PAGE_MASK a)).

(** The loop over the [n] frames from [f]. *)
Fixpoint reserve_frames (n : nat) (s : pmm) (f : Z) : pmm :=
  match n with
  | O => s
  | S n =>
      let s :=
        if negb (test_frame s f) then
          set_refcount (count_freed (set_frame s f) (-1)) f 1
        else s in
      reserve_frames n s (f + 1)
  end.

Definition pmm_set_heap_reserved_range (a : arch) (s : pmm) (heap_virt_start heap_virt_end : Z) : pmm :=
  if (KERNEL_VIRTUAL_BASE a <=? heap_virt_start) && (heap_virt_start <? heap_virt_end) then
    let s := set_heap_reserved s (VIRT_TO_PHYS a heap_virt_start) (VIRT_TO_PHYS a heap_virt_end) in
    let start_frame := PADDR_TO_PFN (heap_reserved_phys_start s) in
    let end_frame := PADDR_TO_PFN (PADDR_ALIGN_UP (heap_reserved_phys_end s)) in
    reserve_frames (Z.to_nat (Z.min end_frame (total_frames s) - start_frame)) s start_frame
  else s.

(** ** Huge pages *)

Definition frames_needed : Z := HUGE_PAGE_SIZE / PAGE_SIZE.

(** No frame of the [n] from [idx] is in use. *)
Fixpoint all_free (n : nat) (s : pmm) (idx : Z) : bool :=
  match n with
  | O => true
  | S n => if test_frame s idx then false else all_free n s (idx + 1)
  end.

(** The search over 2 MB boundaries; [n] bounds the iterations. *)
Fixpoint find_huge_from (n : nat) (s : pmm) (start zone_end : Z) : Z :=
  match n with
  | O => PFN_INVALID
  | S n =>
      if start + frames_needed <=? zone_end then
        if all_free (Z.to_nat frames_needed) s start then start
        else find_huge_from n s (start + frames_needed) zone_end
      else PFN_INVALID
  end.

Definition find_huge_page_frames (s : pmm) (zone_start zone_end : Z) : Z :=
  let aligned_start :=
    Z.land (u64 (zone_start + frames_needed - 1)) (2 ^ 64 - frames_needed) in
  find_huge_from (Z.to_nat (zone_end / frames_needed + 1)) s aligned_start zone_end.

Definition pmm_alloc_huge_page (a : arch) (s : pmm) : option (Z * pmm) :=
  '(irq_state, s) ← pmm_enter s;
  let start_pfn := find_huge_page_frames s 0 (total_frames s) in
  if start_pfn =? PFN_INVALID then Some (PADDR_INVALID, pmm_leave s irq_state)
  else
    let s := take_frames (Z.to_nat frames_needed) s start_pfn in
    let addr := PFN_TO_PADDR start_pfn in
    let s := zero_frames a s addr frames_needed in
    Some (addr, pmm_leave s irq_state).

Definition pmm_alloc_huge_page_zone (a : arch) (s : pmm) (zone : pmm_zone) : option (Z * pmm) :=
  let '(zone_start, zone_end) := get_zone_range a s zone in
  let start_frame := PADDR_TO_PFN zone_start in
  let end_frame := PADDR_TO_PFN zone_end in
  let end_frame := if total_frames s <? end_frame then total_frames s else end_frame in
  if end_frame <=? start_frame then Some (PADDR_INVALID, s)
  else
    '(irq_state, s) ← pmm_enter s;
    let start_pfn := find_huge_page_frames s start_frame end_frame in
    if start_pfn =? PFN_INVALID then Some (PADDR_INVALID, pmm_leave s irq_state)
    else
      let s := take_frames (Z.to_nat frames_needed) s start_pfn in
      let addr := PFN_TO_PADDR start_pfn in
      let s := zero_frames a s addr frames_needed in
      Some (addr, pmm_leave s irq_state).

Definition pmm_is_huge_page_aligned (addr : Z) : bool := Z.land addr (HUGE_PAGE_SIZE - 1) =? 0.

(** The loop that releases [n] frames from [idx]. *)
Fixpoint release_frames (n : nat) (s : pmm) (idx : Z) : pmm :=
  match n with
  | O => s
  | S n =>
      let s :=
        if negb (test_frame s idx) then s
        else if 1 <? refcount s idx then set_refcount s idx (refcount s idx - 1)
        else count_freed (clear_frame (set_refcount s idx 0) idx) 1 in
      release_frames n s (idx + 1)
  end.

Definition pmm_free_huge_page (s : pmm) (huge_page : Z) : option pmm :=
  if negb (pmm_is_huge_page_aligned huge_page) then Some s
  else if (huge_page =? 0) || (huge_page =? PADDR_INVALID) then Some s
  else
    let start_pfn := PADDR_TO_PFN huge_page in
    if total_frames s <? start_pfn + frames_needed then Some s
    else
      '(irq_state, s) ← pmm_enter s;
      let s := release_frames (Z.to_nat frames_needed) s start_pfn in
      let bitmap_idx := start_pfn / 32 in
      let s := if bitmap_idx <? last_free_index s then set_last_free_index s bitmap_idx else s in
      Some (pmm_leave s irq_state).

(** ** Reference counts *)

(** The table pointer is null until the initialisation; the model has the
    empty list for it. *)
Definition refcount_null (s : pmm) : bool :=
  match frame_refcount s with [] => true | _ => false end.

Definition ref_arg_invalid (frame : Z) : bool :=
  (frame =? 0) || (frame =? PADDR_INVALID) || negb (IS_PADDR_ALIGNED frame).

Definition pmm_frame_ref_inc (s : pmm) (frame : Z) : option (Z * pmm) :=
  if ref_arg_invalid frame then Some (0, s)
  else
    let idx := PADDR_TO_PFN frame in
    if total_frames s <=? idx then Some (0, s)
    else if refcount_null s then Some (0, s)
    else
      '(irq_state, s) ← pmm_enter s;
      if refcount s idx =? 0xFFFF then Some (0xFFFF, pmm_leave s irq_state)
      else
        let s := set_refcount s idx (refcount s idx + 1) in
        Some (refcount s idx, pmm_leave s irq_state).

Definition pmm_frame_ref_dec (s : pmm) (frame : Z) : option (Z * pmm) :=
  if ref_arg_invalid frame then Some (0, s)
  else
    let idx := PADDR_TO_PFN frame in
    if total_frames s <=? idx then Some (0, s)
    else if refcount_null s then Some (0, s)
    else
      '(irq_state, s) ← pmm_enter s;
      if refcount s idx =? 0 then Some (0, pmm_leave s irq_state)
      else
        let s := set_refcount s idx (refcount s idx - 1) in
        Some (refcount s idx, pmm_leave s irq_state).

Definition pmm_frame_get_refcount (s : pmm) (frame : Z) : option (Z * pmm) :=
  if ref_arg_invalid frame then Some (0, s)
  else
    let idx := PADDR_TO_PFN frame in
    if total_frames s <=? idx then Some (0, s)
    else if refcount_null s then Some (1, s)
    else
      '(irq_state, s) ← pmm_enter s;
      Some (refcount s idx, pmm_leave s irq_state).

(** ** The consistency check *)

(** Free and used frames among the [n] frames from [i]. *)
Fixpoint tally_frames (n : nat) (s : pmm) (i counted_free counted_used : Z) : Z * Z :=
  match n with
  | O => (counted_free, counted_used)
  | S n =>
      if test_frame s i then tally_frames n s (i + 1) counted_free (counted_used + 1)
      else tally_frames n s (i + 1) (counted_free + 1) counted_used
  end.

(** The verdict; the other checks of the function only print warnings. *)
Definition pmm_verify_consistency (s : pmm) : option (bool * pmm) :=
  '(irq_state, s) ← pmm_enter s;
  let '(counted_free, counted_used) := tally_frames (Z.to_nat (total_frames s)) s 0 0 0 in
  let consistent := true in
  let consistent := if counted_free =? pi_free_frames (info s) then consistent else false in
  let consistent := if counted_used =? pi_used_frames (info s) then consistent else false in
  let consistent := if counted_free + counted_used =? total_frames s then consistent else false in
  let consistent :=
    if existsb (fun e => total_frames s <=? PADDR_TO_PFN (pf_frame e)) (protected_frames s)
    then false else consistent in
  Some (consistent, pmm_leave s irq_state).

(** ** Initialisation *)

(** An entry of the boot loader's memory map, of either format, and a boot
    module. *)
Record boot_mmap_entry := BootMmapEntry { bm_base : Z; bm_length : Z; bm_type : Z }.
Record boot_module := BootModule { mod_start : Z; mod_end : Z }.

Definition BOOT_MEM_USABLE : Z := 1.
Definition MULTIBOOT_MEMORY_AVAILABLE : Z := 1.
Definition MULTIBOOT_INFO_MODS : Z := 0x8.
Definition MULTIBOOT_INFO_MEM_MAP : Z := 0x40.

(** What [pmm_init] reads of the multiboot structure: the memory map and the
    module table at the addresses it gives, already decoded. *)
Record multiboot_info := MultibootInfo {
  mb_flags : Z; mb_mmap : list boot_mmap_entry; mb_mods : list boot_module
}.
Record boot_info := BootInfo {
  bi_valid : bool; bi_mmap : list boot_mmap_entry; bi_modules : list boot_module
}.

(** [PAGE_ALIGN_UP] at a 64-bit operand: the mask has the target's width. *)
Definition PAGE_ALIGN_UP64 (a : arch) (x : Z) : Z := Z.land (u64 (x + PAGE_SIZE - 1)) (PAGE_MASK a).

Definition clamp_2gb (a : arch) (stop : Z) : Z :=
  match a with I686 => if 0x80000000 <? stop then 0x80000000 else stop | _ => stop end.

(** The highest end of a usable region; [clamp] is the target's limit. *)
Fixpoint max_usable (clamp : Z -> Z) (l : list boot_mmap_entry) (max_addr : Z) : Z :=
  match l with
  | [] => max_addr
  | e :: l =>
      let max_addr :=
        if bm_type e =? BOOT_MEM_USABLE then
          let stop := clamp (u64 (bm_base e + bm_length e)) in
          if max_addr <? stop then stop else max_addr
        else max_addr in
      max_usable clamp l max_addr
  end.

(** [for (f = f0; f < f0 + n; f++) if (f < total_frames) set_frame(f)]. *)
Fixpoint mark_frames (n : nat) (s : pmm) (f : Z) : pmm :=
  match n with
  | O => s
  | S n => mark_frames n (if f <? total_frames s then set_frame s f else s) (f + 1)
  end.

(** The loop that frees a region; [guard] is the bound the loop tests. *)
Fixpoint free_region (guard : pmm -> Z -> bool) (n : nat) (s : pmm) (f : Z) : pmm :=
  match n with
  | O => s
  | S n =>
      free_region guard n (if guard s f then count_free_only (clear_frame s f) 1 else s) (f + 1)
  end.

Fixpoint free_regions (guard : pmm -> Z -> bool) (clamp : Z -> Z) (kernel_end refcount_end : Z)
    (l : list boot_mmap_entry) (s : pmm) : pmm :=
  match l with
  | [] => s
  | e :: l =>
      let s :=
        if bm_type e =? BOOT_MEM_USABLE then
          let start := PADDR_ALIGN_UP (bm_base e) in
          let stop := clamp (PADDR_ALIGN_DOWN (u64 (bm_base e + bm_length e))) in
          let start := if start <? kernel_end then kernel_end else start in
          let start := if start <? refcount_end then refcount_end else start in
          if start <? stop
          then free_region guard (Z.to_nat (PADDR_TO_PFN stop - PADDR_TO_PFN start)) s (PADDR_TO_PFN start)
          else s
        else s in
      free_regions guard clamp kernel_end refcount_end l s
  end.

(** Modules are taken out of the free frames. *)
Fixpoint take_module (n : nat) (s : pmm) (f : Z) : pmm :=
  match n with
  | O => s
  | S n =>
      take_module n
        (if (f <? total_frames s) && negb (test_frame s f)
         then count_free_only (set_frame s f) (-1) else s) (f + 1)
  end.

Fixpoint take_modules (l : list boot_module) (s : pmm) : pmm :=
  match l with
  | [] => s
  | m :: l =>
      let start_frame := PADDR_TO_PFN (PADDR_ALIGN_DOWN (mod_start m)) in
      let end_frame := PADDR_TO_PFN (PADDR_ALIGN_UP (mod_end m)) in
      take_modules l (take_module (Z.to_nat (end_frame - start_frame)) s start_frame)
  end.

(** The counts of the first [total_frames] frames, from the bitmap. *)
Fixpoint init_refcounts (n : nat) (s : pmm) (i : Z) : pmm :=
  match n with
  | O => s
  | S n => init_refcounts n (set_refcount s i (if test_frame s i then 1 else 0)) (i + 1)
  end.

(** The addresses of the tables that follow the kernel image: the physical
    ends of the kernel, of the bitmap and of the counts, and the bitmap's start. *)
Record layout := Layout {
  ly_kernel_start : Z; ly_kernel_end : Z; ly_bitmap_virt : Z;
  ly_bitmap_bytes : Z; ly_bitmap_start : Z; ly_bitmap_end : Z;
  ly_refcount_bytes : Z; ly_refcount_end : Z
}.

Definition table_layout (a : arch) (kernel_start kernel_end kernel_end_virt total : Z) : layout :=
  let bitmap_bytes := PAGE_ALIGN_UP64 a (u64 (total + 31) / 32 * 4) in
  let bitmap_virt := PAGE_ALIGN_UP a kernel_end_virt in
  let bitmap_phys_start := VIRT_TO_PHYS a bitmap_virt in
  let bitmap_end_phys := PAGE_ALIGN_UP64 a (bitmap_phys_start + bitmap_bytes) in
  let refcount_bytes := PAGE_ALIGN_UP64 a (u64 (total * 2)) in
  let refcount_end_phys := PAGE_ALIGN_UP64 a (bitmap_end_phys + refcount_bytes) in
  Layout kernel_start kernel_end bitmap_virt bitmap_bytes bitmap_phys_start bitmap_end_phys
    refcount_bytes refcount_end_phys.

(** The state after the tables are set up: everything in use, all counts 0. *)
Definition tables_ready (a : arch) (s : pmm) (ly : layout) (total : Z) : pmm :=
  Pmm (repeat 0xFFFFFFFF (Z.to_nat (ly_bitmap_bytes ly / 4))) (ly_bitmap_bytes ly / 4) total
    (PmmInfo total 0 0 0 0 0) (last_free_index s) (LockSt SPINLOCK_UNLOCKED (lk_irq (pmm_lock s)))
    (protected_frames s) (repeat 0 (Z.to_nat (ly_refcount_bytes ly / 2)))
    (PHYS_TO_VIRT a (ly_refcount_end ly)) (heap_reserved_phys_start s) (heap_reserved_phys_end s) (pmem s).

(** The counters and the reference counts, once the bitmap is final. *)
Definition finish_init (s : pmm) (ly : layout) : pmm :=
  let i := info s in
  let kernel_frames := PADDR_TO_PFN (u64 (ly_kernel_end ly - ly_kernel_start ly)) in
  let bitmap_frames := PADDR_TO_PFN (u64 (ly_bitmap_end ly - ly_bitmap_start ly)) in
  let refcount_frames := PADDR_TO_PFN (u64 (ly_refcount_end ly - ly_bitmap_end ly)) in
  let s := set_info s (PmmInfo (pi_total_frames i) (pi_free_frames i)
                         (u64 (total_frames s - pi_free_frames i))
                         (u64 (kernel_frames + bitmap_frames + refcount_frames))
                         kernel_frames bitmap_frames) in
  init_refcounts (Z.to_nat (total_frames s)) s 0.

(** [_kernel_end] is the linker's symbol; [None] is the panic. *)
Definition pmm_init (a : arch) (kernel_end_sym : Z) (mbi : multiboot_info) (s : pmm) : option pmm :=
  if Z.land (mb_flags mbi) MULTIBOOT_INFO_MEM_MAP =? 0 then None
  else
    let kernel_end := PAGE_ALIGN_UP a (VIRT_TO_PHYS a kernel_end_sym) in
    let max_addr := max_usable (clamp_2gb a) (mb_mmap mbi) 0 in
    let total := max_addr / PAGE_SIZE in
    let ly := table_layout a 0x100000 kernel_end kernel_end_sym total in
    let s := tables_ready a s ly total in
    let refcount_start_frame := PADDR_TO_PFN (ly_bitmap_end ly) in
    let refcount_end_frame := PADDR_TO_PFN (ly_refcount_end ly) in
    let s := mark_frames (Z.to_nat (refcount_end_frame - refcount_start_frame)) s refcount_start_frame in
    let s := free_regions (fun _ _ => true) (clamp_2gb a) kernel_end (ly_refcount_end ly) (mb_mmap mbi) s in
    let s :=
      if negb (Z.land (mb_flags mbi) MULTIBOOT_INFO_MODS =? 0) then take_modules (mb_mods mbi) s else s in
    Some (finish_init s ly).

Definition pmm_init_boot_info (a : arch) (kernel_start_sym kernel_end_sym : Z) (bi : boot_info) (s : pmm)
    : option pmm :=
  if negb (bi_valid bi) then None
  else match bi_mmap bi with
  | [] => None
  | _ =>
    let kernel_phys_start := match a with ARM64 => kernel_start_sym | _ => 0x100000 end in
    let kernel_phys_end :=
      match a with
      | ARM64 => PAGE_ALIGN_UP a kernel_end_sym
      | _ => PAGE_ALIGN_UP a (VIRT_TO_PHYS a kernel_end_sym)
      end in
    let max_addr := max_usable id (bi_mmap bi) 0 in
    if max_addr =? 0 then None
    else
      let total := max_addr / PAGE_SIZE in
      let kernel_end_virt :=
        match a with ARM64 => PHYS_TO_VIRT a kernel_phys_end | _ => kernel_end_sym end in
      let ly := table_layout a kernel_phys_start kernel_phys_end kernel_end_virt total in
      let s := tables_ready a s ly total in
      let refcount_start_frame := PADDR_TO_PFN (ly_bitmap_end ly) in
      let refcount_end_frame := PADDR_TO_PFN (ly_refcount_end ly) in
      let s := mark_frames (Z.to_nat (refcount_end_frame - refcount_start_frame)) s refcount_start_frame in
      let s := free_regions (fun s f => f <? total_frames s) id kernel_phys_end (ly_refcount_end ly)
                 (bi_mmap bi) s in
      let s := take_modules (bi_modules bi) s in
      Some (finish_init s ly)
  end.
