(* ===== verification/PmmFacts.v ===== *)
(** * Facts on the physical memory manager

    The bitmap as the set of used frames, the invariant of the PMM state
    (shape of the tables, counters equal to what the bitmap counts), the
    effect of taking and dropping one frame, the searches, and the invariant
    of the protected-frame table. *)

From S2P Require Import Prelude Spinlock Mem Pmm.

(** ** Bits of a word *)

Lemma land_bit_zero w b : 0 <= b -> (Z.land w (Z.shiftl 1 b) =? 0) = negb (Z.testbit w b).
Proof.
  intros Hb. destruct (Z.testbit w b) eqn:E; simpl.
  - apply Z.eqb_neq. intros H0.
    assert (Z.testbit (Z.land w (Z.shiftl 1 b)) b = true) as Ht; [|by rewrite H0, Z.bits_0 in Ht].
    rewrite Z.land_spec, E, Z.shiftl_spec, Z.sub_diag by lia. done.
  - apply Z.eqb_eq. apply Z.bits_inj'. intros i Hi. rewrite Z.bits_0, Z.land_spec.
    destruct (decide (i = b)) as [->|]; [by rewrite E|].
    rewrite Z.shiftl_1_l, Z.pow2_bits_false by done. apply andb_false_r.
Qed.

(** The two updates of a bitmap word. *)
Lemma testbit_set w b i : 0 <= b -> 0 <= i ->
  Z.testbit (Z.lor w (Z.shiftl 1 b)) i = (b =? i) || Z.testbit w i.
Proof.
  intros Hb Hi. rewrite Z.lor_spec, Z.shiftl_1_l, orb_comm.
  rewrite Z.pow2_bits_eqb by done. done.
Qed.

Lemma testbit_clear w b i : 0 <= b < 32 -> 0 <= i < 32 ->
  Z.testbit (Z.land w (Z.lxor (Z.ones 32) (Z.shiftl 1 b))) i = negb (b =? i) && Z.testbit w i.
Proof.
  intros Hb Hi. rewrite Z.land_spec, Z.lxor_spec, Z.shiftl_1_l.
  rewrite Z.pow2_bits_eqb, Z.ones_spec_low by lia. rewrite andb_comm. done.
Qed.

Lemma set_word_range w b : 0 <= w < 2 ^ 32 -> 0 <= b < 32 -> 0 <= Z.lor w (Z.shiftl 1 b) < 2 ^ 32.
Proof.
  intros Hw Hb. assert (0 <= Z.lor w (Z.shiftl 1 b)) as H0.
  { apply Z.lor_nonneg. split; [lia|]. apply Z.shiftl_nonneg. lia. }
  split; [done|]. apply word_range_bits; [lia|done|]. intros i Hi.
  rewrite testbit_set by lia. rewrite (word_high_bits 32) by lia.
  destruct (b =? i) eqn:E; [zify_bool; lia|done].
Qed.

Lemma clear_word_range w v : 0 <= w < 2 ^ 32 -> 0 <= Z.land w v < 2 ^ 32.
Proof.
  intros Hw. assert (0 <= Z.land w v) as H0 by (apply Z.land_nonneg; lia).
  split; [done|]. apply word_range_bits; [lia|done|]. intros i Hi.
  rewrite Z.land_spec, (word_high_bits 32) by lia. done.
Qed.

(** ** Shape of the tables *)

Record shape (s : pmm) : Prop := {
  sh_len : Z.of_nat (length (frame_bitmap s)) = bitmap_size s;
  sh_words : Forall (fun w => 0 <= w < 2 ^ 32) (frame_bitmap s);
  sh_total : 0 <= total_frames s <= 32 * bitmap_size s;
  sh_max : total_frames s < 2 ^ 52;
  sh_rclen : total_frames s <= Z.of_nat (length (frame_refcount s));
  sh_rcs : Forall (fun r => 0 <= r < 2 ^ 16) (frame_refcount s);
  sh_hint : 0 <= last_free_index s <= bitmap_size s
}.

Lemma idx_word_bit i : i = i / 32 * 32 + i mod 32.
Proof. pose proof (Z.div_mod i 32). lia. Qed.

Lemma bitmap_word_range s i : shape s -> 0 <= bitmap_word s i < 2 ^ 32.
Proof.
  intros Hs. unfold bitmap_word. destruct (frame_bitmap s !! Z.to_nat i) as [w|] eqn:E; simpl; [|lia].
  eapply (Forall_lookup_1 (fun w => 0 <= w < 2 ^ 32)); [apply Hs|done].
Qed.

(** [test_frame] reads one bit. *)
Lemma test_frame_bit s i : 0 <= i ->
  test_frame s i = (i / 32 <? bitmap_size s) && Z.testbit (bitmap_word s (i / 32)) (i mod 32).
Proof.
  intros Hi. unfold test_frame. rewrite land_bit_zero by (pose proof (Z.mod_pos_bound i 32); lia).
  rewrite negb_involutive. case_if; [by rewrite (proj2 (Z.ltb_ge _ _)) by lia|].
  by rewrite (proj2 (Z.ltb_lt _ _)) by lia.
Qed.

Lemma bitmap_word_insert s j w i : 0 <= j < bitmap_size s -> shape s -> 0 <= i ->
  bitmap_word (set_frame_bitmap s (<[Z.to_nat j := w]> (frame_bitmap s))) i =
    if j =? i then w else bitmap_word s i.
Proof.
  intros Hj Hs Hi. pose proof (sh_len s Hs). unfold bitmap_word. simpl. case_if.
  - subst. rewrite list_lookup_insert_eq by lia. done.
  - rewrite list_lookup_insert_ne by lia. done.
Qed.

Lemma frame_in_words s i : shape s -> 0 <= i < total_frames s -> 0 <= i / 32 < bitmap_size s.
Proof.
  intros Hs Hi. pose proof (sh_total s Hs). split; [apply Z.div_pos; lia|].
  apply Z.div_lt_upper_bound; lia.
Qed.

Lemma test_set_frame s i j : shape s -> 0 <= i < total_frames s -> 0 <= j ->
  test_frame (set_frame s i) j = (i =? j) || test_frame s j.
Proof.
  intros Hs Hi Hj. pose proof (frame_in_words s i Hs Hi) as Hw. unfold set_frame.
  rewrite (proj2 (Z.leb_gt _ _)) by lia. rewrite !test_frame_bit by done. simpl.
  rewrite bitmap_word_insert by (try done; apply Z.div_pos; lia).
  pose proof (Z.mod_pos_bound i 32 ltac:(lia)). pose proof (Z.mod_pos_bound j 32 ltac:(lia)).
  pose proof (idx_word_bit i). pose proof (idx_word_bit j). case_if.
  - rewrite testbit_set by lia. rewrite Hif. rewrite (proj2 (Z.ltb_lt (j / 32) _)) by lia. simpl.
    f_equal. apply Bool.eq_iff_eq_true. rewrite !Z.eqb_eq. lia.
  - replace (i =? j) with false; [done|]. symmetry. apply Z.eqb_neq. congruence.
Qed.

Lemma test_clear_frame s i j : shape s -> 0 <= i < total_frames s -> 0 <= j ->
  test_frame (clear_frame s i) j = negb (i =? j) && test_frame s j.
Proof.
  intros Hs Hi Hj. pose proof (frame_in_words s i Hs Hi) as Hw. unfold clear_frame.
  rewrite !test_frame_bit by done. simpl.
  rewrite bitmap_word_insert by (try done; apply Z.div_pos; lia).
  pose proof (Z.mod_pos_bound i 32 ltac:(lia)). pose proof (Z.mod_pos_bound j 32 ltac:(lia)).
  pose proof (idx_word_bit i). pose proof (idx_word_bit j). case_if.
  - rewrite testbit_clear by lia. rewrite Hif. rewrite (proj2 (Z.ltb_lt (j / 32) _)) by lia. simpl.
    f_equal. f_equal. apply Bool.eq_iff_eq_true. rewrite !Z.eqb_eq. lia.
  - replace (i =? j) with false; [done|]. symmetry. apply Z.eqb_neq. congruence.
Qed.

Lemma shape_set_frame s i : shape s -> 0 <= i -> shape (set_frame s i).
Proof.
  intros Hs Hi. unfold set_frame. case_if; [done|]. pose proof (bitmap_word_range s (i / 32) Hs).
  destruct Hs. constructor; simpl; try done; [by rewrite length_insert|].
  apply Forall_insert; [done|]. apply set_word_range; [done|]. apply Z.mod_pos_bound. lia.
Qed.

Lemma shape_clear_frame s i : shape s -> shape (clear_frame s i).
Proof.
  intros Hs. pose proof (bitmap_word_range s (i / 32) Hs).
  destruct Hs. constructor; simpl; try done; [by rewrite length_insert|].
  apply Forall_insert; [done|]. by apply clear_word_range.
Qed.

Lemma shape_set_refcount s i v : shape s -> shape (set_refcount s i v).
Proof.
  intros []. constructor; simpl; try done; [by rewrite length_insert|].
  apply Forall_insert; [done|]. apply Z.mod_pos_bound. lia.
Qed.

Lemma set_frame_total s i : total_frames (set_frame s i) = total_frames s.
Proof. unfold set_frame. by case_if. Qed.
Lemma set_frame_info s i : info (set_frame s i) = info s.
Proof. unfold set_frame. by case_if. Qed.
Lemma set_frame_refcounts s i : frame_refcount (set_frame s i) = frame_refcount s.
Proof. unfold set_frame. by case_if. Qed.
Lemma set_frame_protected s i : protected_frames (set_frame s i) = protected_frames s.
Proof. unfold set_frame. by case_if. Qed.
Lemma set_frame_lock s i : pmm_lock (set_frame s i) = pmm_lock s.
Proof. unfold set_frame. by case_if. Qed.
Lemma set_frame_pmem s i : pmem (set_frame s i) = pmem s.
Proof. unfold set_frame. by case_if. Qed.
Lemma set_frame_hint s i : last_free_index (set_frame s i) = last_free_index s.
Proof. unfold set_frame. by case_if. Qed.
Lemma set_frame_bsize s i : bitmap_size (set_frame s i) = bitmap_size s.
Proof. unfold set_frame. by case_if. Qed.

Create Rewrite HintDb pmm.
#[export] Hint Rewrite set_frame_total set_frame_info set_frame_refcounts set_frame_protected
  set_frame_lock set_frame_pmem set_frame_hint set_frame_bsize : pmm.

(** ** Counting free frames *)

Definition frame_free (s : pmm) (i : Z) : bool := negb (test_frame s i).
Definition nfree (s : pmm) : Z := cnt (frame_free s) (Z.to_nat (total_frames s)).

Lemma nfree_range s : shape s -> 0 <= nfree s <= total_frames s.
Proof. intros Hs. pose proof (sh_total s Hs). unfold nfree. pose proof (cnt_range (frame_free s) (Z.to_nat (total_frames s))). lia. Qed.

(** The counters say what the bitmap says. *)
Record inv (s : pmm) : Prop := {
  inv_shape : shape s;
  inv_free : pi_free_frames (info s) = nfree s;
  inv_used : pi_used_frames (info s) = total_frames s - nfree s;
  inv_total : pi_total_frames (info s) = total_frames s
}.

(** One frame goes from free to used: bit, counters and reference count, the
    latter two in either order. *)
Definition taken (s s' : pmm) (i : Z) : Prop :=
  (forall j, 0 <= j -> test_frame s' j = (i =? j) || test_frame s j) /\
  (forall j, 0 <= j -> refcount s' j = if i =? j then 1 else refcount s j).

Definition take_frame (s : pmm) (i : Z) : pmm := set_refcount (count_freed (set_frame s i) (-1)) i 1.
Definition drop_frame (s : pmm) (i : Z) : pmm := count_freed (clear_frame s i) 1.

Lemma take_frame_alt s i : count_freed (set_refcount (set_frame s i) i 1) (-1) = take_frame s i.
Proof. done. Qed.

Lemma refcount_set s i v j : 0 <= i < total_frames s -> shape s -> 0 <= j ->
  refcount (set_refcount s i v) j = if i =? j then u16 v else refcount s j.
Proof.
  intros Hi Hs Hj. pose proof (sh_rclen s Hs). unfold refcount, set_refcount. simpl. case_if.
  - subst. rewrite list_lookup_insert_eq by lia. done.
  - rewrite list_lookup_insert_ne by lia. done.
Qed.

Lemma refcount_range s i : shape s -> 0 <= refcount s i < 2 ^ 16.
Proof.
  intros Hs. unfold refcount. destruct (frame_refcount s !! Z.to_nat i) as [w|] eqn:E; simpl; [|lia].
  eapply (Forall_lookup_1 (fun w => 0 <= w < 2 ^ 16)); [apply Hs|done].
Qed.

Lemma test_take_frame s i j : shape s -> 0 <= i < total_frames s -> 0 <= j ->
  test_frame (take_frame s i) j = (i =? j) || test_frame s j.
Proof. intros. change (test_frame (take_frame s i) j) with (test_frame (set_frame s i) j). by apply test_set_frame. Qed.

Lemma test_drop_frame s i j : shape s -> 0 <= i < total_frames s -> 0 <= j ->
  test_frame (drop_frame s i) j = negb (i =? j) && test_frame s j.
Proof. intros. change (test_frame (drop_frame s i) j) with (test_frame (clear_frame s i) j). by apply test_clear_frame. Qed.

Lemma refcount_take_frame s i j : shape s -> 0 <= i < total_frames s -> 0 <= j ->
  refcount (take_frame s i) j = if i =? j then 1 else refcount s j.
Proof.
  intros Hs Hi Hj. unfold take_frame. rewrite refcount_set; simpl; autorewrite with pmm; try done.
  - case_if; [done|]. unfold refcount. simpl. by autorewrite with pmm.
  - pose proof (shape_set_frame s i Hs ltac:(lia)) as []. by constructor.
Qed.

Lemma taken_take s i : shape s -> 0 <= i < total_frames s -> taken s (take_frame s i) i.
Proof. split; intros; [by apply test_take_frame|by apply refcount_take_frame]. Qed.

Lemma shape_count_freed s d : shape s -> shape (count_freed s d).
Proof. intros []. by constructor. Qed.

Lemma shape_take_frame s i : shape s -> 0 <= i -> shape (take_frame s i).
Proof. intros. apply shape_set_refcount, shape_count_freed. by apply shape_set_frame. Qed.

Lemma shape_drop_frame s i : shape s -> shape (drop_frame s i).
Proof. intros. apply shape_count_freed. by apply shape_clear_frame. Qed.

(** The counters after a one-frame update. *)
Lemma inv_bump s d n :
  shape s -> -1 <= d <= 1 -> 0 <= nfree s - d <= total_frames s ->
  pi_free_frames (info s) = nfree s - d -> pi_used_frames (info s) = total_frames s - (nfree s - d) ->
  pi_total_frames (info s) = total_frames s -> n = nfree s -> inv (count_freed s d).
Proof.
  intros Hs Hd Hr Hf Hu Ht ->. pose proof (nfree_range s Hs). pose proof (sh_max s Hs).
  constructor; [by apply shape_count_freed| | |done]; simpl; change (nfree (count_freed s d)) with (nfree s).
  - rewrite Hf. rewrite u64_small; lia.
  - rewrite Hu. rewrite u64_small; lia.
Qed.

Lemma frame_pos s i : shape s -> 0 <= i < total_frames s -> 0 <= i < Z.of_nat (Z.to_nat (total_frames s)).
Proof. lia. Qed.

Lemma nfree_set_frame s i : shape s -> 0 <= i < total_frames s -> test_frame s i = false ->
  nfree s = nfree (set_frame s i) + 1.
Proof.
  intros Hs Hi Ht. unfold nfree. rewrite set_frame_total.
  transitivity (cnt (fun j => negb ((i =? j) || test_frame s j)) (Z.to_nat (total_frames s)) + 1).
  - apply (cnt_flip _ _ _ i); [lia| | |].
    + unfold frame_free. by rewrite Ht.
    + by rewrite Z.eqb_refl.
    + intros j _ Hj. unfold frame_free. by rewrite (proj2 (Z.eqb_neq i j)).
  - f_equal. apply cnt_ext. intros j Hj. unfold frame_free. by rewrite test_set_frame by (done || lia).
Qed.

Lemma nfree_clear_frame s i : shape s -> 0 <= i < total_frames s -> test_frame s i = true ->
  nfree (clear_frame s i) = nfree s + 1.
Proof.
  intros Hs Hi Ht. unfold nfree. simpl.
  transitivity (cnt (fun j => negb (negb (i =? j) && test_frame s j)) (Z.to_nat (total_frames s))).
  - apply cnt_ext. intros j Hj. unfold frame_free. by rewrite test_clear_frame by (done || lia).
  - apply (cnt_flip _ _ _ i); [lia| | |].
    + by rewrite Z.eqb_refl.
    + unfold frame_free. by rewrite Ht.
    + intros j _ Hj. unfold frame_free. by rewrite (proj2 (Z.eqb_neq i j)).
Qed.

Lemma inv_set_refcount s i v : inv s -> inv (set_refcount s i v).
Proof. intros []. constructor; try done. by apply shape_set_refcount. Qed.

Lemma inv_take_frame s i : inv s -> 0 <= i < total_frames s -> test_frame s i = false ->
  inv (take_frame s i).
Proof.
  intros [Hs Hf Hu Ht] Hi Hfr. apply inv_set_refcount.
  pose proof (nfree_set_frame s i Hs Hi Hfr). pose proof (nfree_range s Hs).
  pose proof (shape_set_frame s i Hs ltac:(lia)) as Hs'. pose proof (nfree_range _ Hs').
  eapply inv_bump; [done|lia| | | | |done]; autorewrite with pmm in *; lia.
Qed.

Lemma inv_drop_frame s i : inv s -> 0 <= i < total_frames s -> test_frame s i = true ->
  inv (drop_frame s i).
Proof.
  intros [Hs Hf Hu Ht] Hi Hfr. pose proof (nfree_clear_frame s i Hs Hi Hfr) as Hn. pose proof (nfree_range s Hs).
  pose proof (shape_clear_frame s i Hs) as Hs'. pose proof (nfree_range _ Hs').
  eapply inv_bump; [done|lia| | | | |done]; simpl in *; lia.
Qed.

(** ** The search for a free frame *)

Lemma find_in_word_some n w i : forall bit total idx, 0 <= bit ->
  find_in_word n w i bit total = Some idx ->
  exists b, bit <= b < bit + Z.of_nat n /\ idx = i * 32 + b /\ idx < total /\ Z.testbit w b = false.
Proof.
  induction n as [|n IH]; intros bit total idx Hb; simpl; [done|].
  rewrite land_bit_zero by done. destruct (negb (Z.testbit w bit) && (i * 32 + bit <? total)) eqn:E.
  - intros [= <-]. zify_bool. exists bit. repeat split; try lia. done.
  - intros H. apply IH in H as (b & ? & ? & ? & ?); [|lia]. exists b. repeat split; (done || lia).
Qed.

Lemma find_in_word_none n w i : forall bit total, 0 <= bit ->
  find_in_word n w i bit total = None ->
  forall b, bit <= b < bit + Z.of_nat n -> i * 32 + b < total -> Z.testbit w b = true.
Proof.
  induction n as [|n IH]; intros bit total Hb; simpl; [lia|].
  rewrite land_bit_zero by done. destruct (negb (Z.testbit w bit) && (i * 32 + bit <? total)) eqn:E; [done|].
  intros H b Hbb Ht. destruct (decide (b = bit)) as [->|].
  - destruct (Z.testbit w bit); [done|]. simpl in E. zify_bool. lia.
  - eapply (IH (bit + 1) total); [lia|done|lia|done].
Qed.

Lemma test_frame_of s i b : 0 <= i < bitmap_size s -> 0 <= b < 32 ->
  test_frame s (i * 32 + b) = Z.testbit (bitmap_word s i) b.
Proof.
  intros Hi Hb. rewrite test_frame_bit by lia.
  rewrite Z.div_add_l, (Z.div_small b), Z.add_0_r by lia.
  rewrite Z.add_comm, Z.mod_add, Z.mod_small by lia.
  by rewrite (proj2 (Z.ltb_lt _ _)) by lia.
Qed.

Lemma find_in_words_some n s : forall i k idx,
  0 <= i -> i + Z.of_nat n <= bitmap_size s -> find_in_words n s i = Some (k, idx) ->
  i <= k < i + Z.of_nat n /\ 0 <= idx < total_frames s /\ test_frame s idx = false.
Proof.
  induction n as [|n IH]; intros i k idx Hi Hn; cbn -[find_in_word]; [done|].
  destruct (if bitmap_word s i =? 0xFFFFFFFF then None
            else find_in_word 32 (bitmap_word s i) i 0 (total_frames s)) as [x|] eqn:E.
  - intros [= <- <-]. case_if_in E; [done|].
    apply find_in_word_some in E as (b & Hb & -> & Ht & Hbit); [|lia].
    rewrite test_frame_of by lia. repeat split; (done || lia).
  - intros H. apply IH in H; [|lia|lia]. repeat split; (apply H || lia).
Qed.

Lemma find_in_words_none n s : forall i,
  0 <= i -> i + Z.of_nat n <= bitmap_size s -> find_in_words n s i = None ->
  forall j b, i <= j < i + Z.of_nat n -> 0 <= b < 32 -> j * 32 + b < total_frames s ->
  test_frame s (j * 32 + b) = true.
Proof.
  induction n as [|n IH]; intros i Hi Hn; cbn -[find_in_word]; [lia|].
  destruct (if bitmap_word s i =? 0xFFFFFFFF then None
            else find_in_word 32 (bitmap_word s i) i 0 (total_frames s)) as [x|] eqn:E; [done|].
  intros H j b Hj Hb Ht. destruct (decide (j = i)) as [->|].
  - rewrite test_frame_of by lia. case_if_in E.
    + rewrite Hif. change 0xFFFFFFFF with (Z.ones 32). apply Z.ones_spec_low. lia.
    + eapply find_in_word_none; [|exact E| |done]; lia.
  - eapply (IH (i + 1)); try done; lia.
Qed.

Definition no_free_frame (s : pmm) : Prop :=
  forall i, 0 <= i < total_frames s -> test_frame s i = true.

Lemma all_words_used s :
  shape s -> (forall j b, 0 <= j < bitmap_size s -> 0 <= b < 32 -> j * 32 + b < total_frames s ->
              test_frame s (j * 32 + b) = true) -> no_free_frame s.
Proof.
  intros Hs H i Hi. rewrite (idx_word_bit i). pose proof (frame_in_words s i Hs Hi).
  apply H; [done|apply Z.mod_pos_bound; lia|]. rewrite <- idx_word_bit. lia.
Qed.

Lemma find_free_frame_spec s idx s' :
  shape s -> find_free_frame s = (idx, s') ->
  exists l, 0 <= l <= bitmap_size s /\ s' = set_last_free_index s l /\
    ((idx = PFN_INVALID /\ no_free_frame s) \/
     (0 <= idx < total_frames s /\ test_frame s idx = false)).
Proof.
  intros Hs. pose proof (sh_hint s Hs) as Hl. unfold find_free_frame.
  destruct (find_in_words _ s (last_free_index s)) as [[k x]|] eqn:E1.
  - intros [= <- <-]. apply find_in_words_some in E1 as (? & ? & ?); [|lia|lia].
    exists k. split; [lia|]. split; [done|]. by right.
  - pose proof (fun P Q => find_in_words_none _ _ _ P Q E1) as H1. specialize (H1 ltac:(lia) ltac:(lia)).
    assert (s = set_last_free_index s (last_free_index s)) as Hid by (by destruct s).
    case_if; [destruct (find_in_words _ s 0) as [[k x]|] eqn:E2|]; intros [= <- <-].
    + apply find_in_words_some in E2 as (? & ? & ?); [|lia|lia].
      exists k. split; [lia|]. split; [done|]. by right.
    + pose proof (fun P Q => find_in_words_none _ _ _ P Q E2) as H2. specialize (H2 ltac:(lia) ltac:(lia)).
      exists (last_free_index s). split; [done|]. split; [done|]. left. split; [done|].
      apply all_words_used; [done|]. intros j b Hj Hb Ht.
      destruct (decide (j < last_free_index s)); [apply H2|apply H1]; lia.
    + exists (last_free_index s). split; [done|]. split; [done|]. left. split; [done|].
      apply all_words_used; [done|]. intros j b Hj Hb Ht. apply H1; lia.
Qed.

(** ** Entering and leaving *)

Lemma pmm_enter_free s : lock_free (pmm_lock s) ->
  pmm_enter s = Some (lk_irq (pmm_lock s), set_pmm_lock s (LockSt SPINLOCK_LOCKED false)).
Proof. intros H. unfold pmm_enter. by rewrite lock_irqsave_free. Qed.

(** Whatever happened inside, leaving with the saved flag restores the lock
    state of the entry. *)
Lemma pmm_leave_restores s t :
  lock_free (pmm_lock s) -> pmm_lock t = LockSt SPINLOCK_LOCKED false ->
  pmm_leave t (lk_irq (pmm_lock s)) = set_pmm_lock t (pmm_lock s).
Proof.
  destruct s as [? ? ? ? ? [w f] ? ? ? ? ? ?]. unfold lock_free. simpl. intros -> Ht.
  unfold pmm_leave. rewrite Ht. by destruct f.
Qed.

Lemma inv_lock s l : inv s -> inv (set_pmm_lock s l).
Proof. intros [[]]. by constructor. Qed.
Lemma inv_hint s l : inv s -> 0 <= l <= bitmap_size s -> inv (set_last_free_index s l).
Proof. intros [[]]. by constructor. Qed.
Lemma inv_pmem s m : inv s -> inv (set_pmem s m).
Proof. intros [[]]. by constructor. Qed.
Lemma inv_protected s l : inv s -> inv (set_protected s l).
Proof. intros [[]]. by constructor. Qed.

(** ** The table of protected frames *)

Definition frame_base (f : Z) : Z := f - f mod PAGE_SIZE.

(** The protection count of a frame, 0 when the table has no entry. *)
Definition prot_count (l : list protected_frame) (f : Z) : Z :=
  match find_protected_index l f with
  | Some i => default 0 (pf_refcount <$> l !! i)
  | None => 0
  end.

Record prot_ok (s : pmm) : Prop := {
  po_nodup : NoDup (pf_frame <$> protected_frames s);
  po_entry : Forall (fun e => 0 <= pf_frame e < 2 ^ 64 /\ pf_frame e mod PAGE_SIZE = 0 /\
                              0 < pf_refcount e < 2 ^ 32) (protected_frames s);
  po_used : forall e, e ∈ protected_frames s -> PADDR_TO_PFN (pf_frame e) < total_frames s ->
              test_frame s (PADDR_TO_PFN (pf_frame e)) = true
}.

Lemma find_protected_some l f i :
  find_protected_index l f = Some i -> exists e, l !! i = Some e /\ pf_frame e = f.
Proof.
  revert i. induction l as [|e l IH]; simpl; intros i; [done|]. case_if.
  - intros [= <-]. by exists e.
  - destruct (find_protected_index l f) as [k|]; [|done]. intros [= <-]. by apply IH.
Qed.

Lemma find_protected_none l f : find_protected_index l f = None -> f ∉ (pf_frame <$> l).
Proof.
  induction l as [|e l IH]; simpl; [intros _; apply not_elem_of_nil|]. case_if; [done|].
  destruct (find_protected_index l f); [done|]. intros _.
  rewrite elem_of_cons. intros [->|H]; [done|]. by apply IH.
Qed.

Lemma prot_count_in l e : NoDup (pf_frame <$> l) -> e ∈ l -> prot_count l (pf_frame e) = pf_refcount e.
Proof.
  intros Hnd He. unfold prot_count.
  destruct (find_protected_index l (pf_frame e)) as [i|] eqn:E.
  - apply find_protected_some in E as (e' & Hl & Hf). rewrite Hl. simpl.
    apply list_elem_of_lookup in He as [j Hj].
    assert (i = j) as ->.
    { eapply (NoDup_lookup (pf_frame <$> l)); [done| |].
      - rewrite list_lookup_fmap, Hl. simpl. by rewrite Hf.
      - by rewrite list_lookup_fmap, Hj. }
    congruence.
  - apply find_protected_none in E. exfalso. apply E. by apply list_elem_of_fmap_2.
Qed.

Lemma prot_count_notin l f : f ∉ (pf_frame <$> l) -> prot_count l f = 0.
Proof.
  intros H. unfold prot_count. destruct (find_protected_index l f) as [i|] eqn:E; [|done].
  apply find_protected_some in E as (e & Hl & <-). exfalso. apply H, list_elem_of_fmap_2.
  by eapply list_elem_of_lookup_2.
Qed.

Lemma is_protected_spec s f : prot_ok s -> is_protected s f = (0 <? prot_count (protected_frames s) f).
Proof.
  intros Hp. unfold is_protected, find_protected_frame_unsafe, prot_count.
  destruct (find_protected_index _ f) as [i|] eqn:E; [|done].
  apply find_protected_some in E as (e & Hl & _). rewrite Hl. simpl.
  pose proof (Forall_lookup_1 _ _ _ _ (po_entry s Hp) Hl) as (? & ? & ?).
  symmetry. apply Z.ltb_lt. lia.
Qed.

Lemma is_protected_in s f : is_protected s f = true -> exists e, e ∈ protected_frames s /\ pf_frame e = f.
Proof.
  unfold is_protected, find_protected_frame_unsafe.
  destruct (find_protected_index _ f) as [i|] eqn:E; [|done].
  apply find_protected_some in E as (e & Hl & <-). intros _. exists e. split; [|done].
  by eapply list_elem_of_lookup_2.
Qed.

Lemma is_protected_out s e : e ∈ protected_frames s -> is_protected s (pf_frame e) = true.
Proof.
  intros He. unfold is_protected, find_protected_frame_unsafe.
  destruct (find_protected_index _ _) eqn:E; [done|].
  apply find_protected_none in E. exfalso. apply E. by apply list_elem_of_fmap_2.
Qed.

(** Counts of a permuted table. *)
Lemma prot_count_perm l l' f : NoDup (pf_frame <$> l) -> l ≡ₚ l' -> prot_count l f = prot_count l' f.
Proof.
  intros Hnd Hp. assert (NoDup (pf_frame <$> l')) as Hnd' by (by rewrite <- Hp).
  destruct (decide (f ∈ (pf_frame <$> l))) as [Hin|Hout].
  - apply list_elem_of_fmap in Hin as (e & -> & He). rewrite prot_count_in by done.
    rewrite prot_count_in; [done|done|]. by rewrite <- Hp.
  - rewrite prot_count_notin by done. rewrite prot_count_notin; [done|]. by rewrite <- Hp.
Qed.

Lemma prot_count_cons e l f :
  prot_count (e :: l) f = if pf_frame e =? f then pf_refcount e else prot_count l f.
Proof.
  unfold prot_count. simpl. destruct (pf_frame e =? f); [done|].
  by destruct (find_protected_index l f).
Qed.

(** Moving the last entry into the hole removes exactly one entry. *)
Lemma remove_entry_perm l i e : l !! i = Some e -> e :: remove_entry l i ≡ₚ l.
Proof.
  intros Hi. destruct l as [|x l _] using rev_ind; [done|].
  unfold remove_entry. rewrite length_app. simpl. rewrite Nat.add_sub.
  rewrite lookup_app_r, Nat.sub_diag by lia. simpl.
  pose proof (lookup_lt_Some _ _ _ Hi) as Hlt. rewrite length_app in Hlt. simpl in Hlt.
  destruct (decide (i = length l)) as [->|Hne].
  - rewrite lookup_app_r, Nat.sub_diag in Hi by lia. simplify_eq/=.
    rewrite insert_app_r_alt, take_app_length' by (rewrite ?Nat.sub_diag; lia).
    by rewrite Permutation_cons_append.
  - rewrite lookup_app_l in Hi by lia.
    rewrite insert_app_l, take_app_length' by (rewrite ?length_insert; lia).
    rewrite insert_take_drop by lia.
    rewrite <- (take_drop_middle l i e Hi) at 3.
    transitivity (take i l ++ e :: x :: drop (S i) l); [apply Permutation_middle|].
    rewrite <- app_assoc. apply Permutation_app_head. simpl.
    constructor. apply Permutation_cons_append.
Qed.
