(* ===== verification/PmmProps.v ===== *)
(** * Correctness of the physical memory manager

    Behaviour of every operation of the PMM on every branch: single frames
    and their reference counts, contiguous and huge allocations, the
    protected frames, the consistency check; preservation of the invariant
    by all of them; and the initialisation. *)

From S2P Require Import Prelude Spinlock Mem Pmm PmmFacts.

(** ** Addresses and frame numbers *)

Lemma aligned_spec f : IS_PADDR_ALIGNED f = (f mod PAGE_SIZE =? 0).
Proof.
  unfold IS_PADDR_ALIGNED. change (PAGE_SIZE - 1) with (Z.ones 12).
  by rewrite Z.land_ones by lia.
Qed.

Lemma pfn_spec f : PADDR_TO_PFN f = f / PAGE_SIZE.
Proof. unfold PADDR_TO_PFN. by rewrite Z.shiftr_div_pow2. Qed.

Lemma paddr_spec i : 0 <= i < 2 ^ 52 -> PFN_TO_PADDR i = i * PAGE_SIZE.
Proof.
  intros Hi. unfold PFN_TO_PADDR. rewrite Z.shiftl_mul_pow2 by (unfold PAGE_SHIFT; lia).
  apply u64_small. unfold PAGE_SHIFT, PAGE_SIZE in *. lia.
Qed.

Lemma align_down_spec f : 0 <= f < 2 ^ 64 -> PADDR_ALIGN_DOWN f = frame_base f.
Proof. intros Hf. apply (land_high_mask 64 12); lia. Qed.

Lemma align_up_spec f : 0 <= f -> f + PAGE_SIZE <= 2 ^ 64 ->
  PADDR_ALIGN_UP f = frame_base (f + PAGE_SIZE - 1).
Proof.
  intros Hf Hb. unfold PADDR_ALIGN_UP. unfold PAGE_SIZE in *.
  rewrite u64_small by lia. apply (land_high_mask 64 12); lia.
Qed.

Lemma normalise_spec f : 0 <= f < 2 ^ 64 ->
  (if IS_PADDR_ALIGNED f then f else PADDR_ALIGN_DOWN f) = frame_base f.
Proof.
  intros Hf. rewrite aligned_spec, align_down_spec by done. unfold frame_base. case_if; [lia|done].
Qed.

Lemma frame_base_aligned f : frame_base f mod PAGE_SIZE = 0.
Proof.
  unfold frame_base, PAGE_SIZE. pose proof (Z.div_mod f 4096 ltac:(lia)).
  replace (f - f mod 4096) with (f / 4096 * 4096) by lia. apply Z.mod_mul. lia.
Qed.

Lemma frame_base_range f : 0 <= f < 2 ^ 64 -> 0 <= frame_base f < 2 ^ 64.
Proof.
  unfold frame_base, PAGE_SIZE. pose proof (Z.mod_pos_bound f 4096 ltac:(lia)).
  pose proof (Z.mod_le f 4096). lia.
Qed.

Lemma pfn_of_paddr i : PADDR_TO_PFN (i * PAGE_SIZE) = i.
Proof. rewrite pfn_spec. unfold PAGE_SIZE. apply Z.div_mul. lia. Qed.

Lemma paddr_of_pfn f : f mod PAGE_SIZE = 0 -> PADDR_TO_PFN f * PAGE_SIZE = f.
Proof. rewrite pfn_spec. unfold PAGE_SIZE. intros. pose proof (Z.div_mod f 4096). lia. Qed.

Lemma pfn_nonneg f : 0 <= f -> 0 <= PADDR_TO_PFN f.
Proof. intros. rewrite pfn_spec. apply Z.div_pos; [done|]. unfold PAGE_SIZE. lia. Qed.

(** ** Frame conditions *)

Definition same_used (s s' : pmm) : Prop := forall j, 0 <= j -> test_frame s' j = test_frame s j.

(** The protected table only needs its frames to stay used. *)
Lemma prot_ok_mono s s' :
  prot_ok s -> protected_frames s' = protected_frames s -> total_frames s' = total_frames s ->
  (forall j, 0 <= j -> test_frame s j = true ->
     is_protected s (j * PAGE_SIZE) = true -> test_frame s' j = true) ->
  prot_ok s'.
Proof.
  intros [Hn He Hu] Hp Ht Hm. constructor; rewrite Hp; [done|done|].
  intros e Hin Hlt. rewrite Ht in Hlt.
  pose proof (proj1 (Forall_forall _ _) He e (proj1 (list_elem_of_In _ _) Hin)) as (Hr & Ha & _).
  apply Hm; [apply pfn_nonneg; lia|by apply Hu|].
  rewrite paddr_of_pfn by done. by apply is_protected_out.
Qed.

Lemma same_used_prot s s' :
  prot_ok s -> protected_frames s' = protected_frames s -> total_frames s' = total_frames s ->
  same_used s s' -> prot_ok s'.
Proof. intros Hp H1 H2 H3. eapply prot_ok_mono; [done..|]. intros j Hj Ht _. by rewrite H3. Qed.

Lemma taken_prot s s' i :
  prot_ok s -> protected_frames s' = protected_frames s -> total_frames s' = total_frames s ->
  taken s s' i -> prot_ok s'.
Proof.
  intros Hp H1 H2 [H3 _]. eapply prot_ok_mono; [done..|]. intros j Hj Ht _.
  rewrite H3, Ht by done. apply orb_true_r.
Qed.

(** A free frame is not protected. *)
Lemma free_not_protected s i :
  prot_ok s -> 0 <= i < total_frames s -> test_frame s i = false -> is_protected s (i * PAGE_SIZE) = false.
Proof.
  intros Hp Hi Hf. destruct (is_protected s (i * PAGE_SIZE)) eqn:E; [|done].
  apply is_protected_in in E as (e & He & Hfe). pose proof (po_used s Hp e He) as Hu.
  rewrite Hfe, pfn_of_paddr in Hu. rewrite Hu in Hf by lia. done.
Qed.

(** What every operation keeps: the invariants, the lock and interrupt state
    of the caller, the number of frames. *)
Definition keeps (s s' : pmm) : Prop :=
  inv s' /\ prot_ok s' /\ pmm_lock s' = pmm_lock s /\ total_frames s' = total_frames s.

Lemma keeps_refl s : inv s -> prot_ok s -> keeps s s.
Proof. done. Qed.

Lemma keeps_trans s1 s2 s3 : keeps s1 s2 -> keeps s2 s3 -> keeps s1 s3.
Proof. intros (? & ? & ? & ?) (? & ? & ? & ?). split_and!; (done || congruence). Qed.

(** What an operation keeps in any state, whether or not every protected
    frame is in use. *)
Definition respects (s s' : pmm) : Prop :=
  inv s' /\ (prot_ok s -> prot_ok s') /\ pmm_lock s' = pmm_lock s /\ total_frames s' = total_frames s.

Lemma respects_refl s : inv s -> respects s s.
Proof. done. Qed.

Lemma respects_trans s1 s2 s3 : respects s1 s2 -> respects s2 s3 -> respects s1 s3.
Proof. intros (? & ? & ? & ?) (? & ? & ? & ?). split_and!; (auto || congruence). Qed.

Lemma respects_keeps s s' : prot_ok s -> respects s s' -> keeps s s'.
Proof. intros Hp (? & ? & ? & ?). split_and!; auto. Qed.

(** ** Allocating one frame *)

Definition zeroed (a : arch) (s s' : pmm) (addr n : Z) : Prop :=
  filled (pmem s) (pmem s') (PHYS_TO_VIRT a addr) 0 (n * PAGE_SIZE).

Lemma zero_frames_filled a s addr n : 0 <= n * PAGE_SIZE < 2 ^ ptr_bits a ->
  zeroed a s (zero_frames a s addr n) addr n.
Proof.
  intros Hn. unfold zeroed, zero_frames. simpl. rewrite uptr_small by done.
  pose proof (memset_filled (pmem s) (PHYS_TO_VIRT a addr) 0 (Z.to_nat (n * PAGE_SIZE))) as H.
  rewrite Z2Nat.id in H by lia. exact H.
Qed.

(** The frame the search found was taken and given back. *)
Lemma take_drop_same s i : shape s -> 0 <= i < total_frames s -> test_frame s i = false ->
  same_used s (drop_frame (take_frame s i) i).
Proof.
  intros Hs Hi Hf j Hj. rewrite test_drop_frame; [|by apply shape_take_frame; [|lia]| |done].
  2:{ simpl. by rewrite set_frame_total. }
  rewrite test_take_frame by done. destruct (i =? j) eqn:E; [|done]. zify_bool. subst. by rewrite Hf.
Qed.

(** The body of [pmm_alloc_frame] between the lock operations, once a free
    frame has been found. *)
Definition alloc_taken (a : arch) (s : pmm) (i : Z) : Z * pmm :=
  let s := take_frame s i in
  if alloc_out_of_range a (i * PAGE_SIZE) then
    (PADDR_INVALID, count_freed (match a with ARM64 => set_refcount (clear_frame s i) i 0 | _ => clear_frame s i end) 1)
  else (i * PAGE_SIZE, zero_frames a s (i * PAGE_SIZE) 1).

(** What is done with a free frame that is protected. *)
Definition give_back (s : pmm) (i : Z) : pmm :=
  count_freed (set_refcount (clear_frame (take_frame s i) i) i 0) 1.

Lemma pmm_alloc_frame_cases a s :
  inv s -> lock_free (pmm_lock s) ->
  exists l, 0 <= l <= bitmap_size s /\
  ((no_free_frame s /\ pmm_alloc_frame a s = Some (PADDR_INVALID, set_last_free_index s l)) \/
   (exists i, 0 <= i < total_frames s /\ test_frame s i = false /\
      pmm_alloc_frame a s =
        Some (if negb (alloc_out_of_range a (i * PAGE_SIZE)) && is_protected s (i * PAGE_SIZE)
              then (PADDR_INVALID, give_back (set_last_free_index s l) i)
              else alloc_taken a (set_last_free_index s l) i))).
Proof.
  intros Hi Hl. unfold pmm_alloc_frame. rewrite pmm_enter_free by done. simpl.
  set (sl := set_pmm_lock s _).
  assert (inv sl) as Hisl by (by apply inv_lock).
  destruct (find_free_frame sl) as [idx sf] eqn:Ef.
  apply find_free_frame_spec in Ef as (l & Hlr & -> & Hcase); [|apply Hisl].
  exists l. split; [done|]. destruct Hcase as [[-> Hnone]|[Hidx Hfree]].
  - left. split; [done|]. rewrite Z.eqb_refl. do 2 f_equal. by apply pmm_leave_restores.
  - right. exists idx. split; [done|]. split; [done|].
    pose proof (sh_max s (inv_shape s Hi)) as Hmax. simpl in Hidx.
    rewrite (proj2 (Z.eqb_neq idx PFN_INVALID)) by (unfold PFN_INVALID; lia).
    change (test_frame (set_last_free_index sl l) idx) with (test_frame sl idx). rewrite Hfree.
    fold (take_frame (set_last_free_index sl l) idx).
    assert (shape (set_last_free_index sl l)) as Hsh by (apply inv_shape; by apply inv_hint).
    rewrite (test_take_frame (set_last_free_index sl l) idx idx) by (done || lia).
    rewrite Z.eqb_refl. simpl negb. cbv iota.
    rewrite (paddr_spec idx) by lia. unfold alloc_taken.
    replace (is_protected (take_frame (set_last_free_index sl l) idx) (idx * PAGE_SIZE)) with (is_protected s (idx * PAGE_SIZE)).
    2:{ unfold is_protected, find_protected_frame_unsafe. simpl. by rewrite set_frame_protected. }
    destruct (alloc_out_of_range a (idx * PAGE_SIZE)) eqn:Er; [|destruct (is_protected s (idx * PAGE_SIZE))];
      cbn [negb andb]; do 2 f_equal; cbv zeta.
    + rewrite (pmm_leave_restores s); [|done|by destruct a; simpl; rewrite set_frame_lock].
      unfold take_frame, set_frame. simpl. by destruct a; case_if.
    + rewrite (pmm_leave_restores s); [|done|by simpl; rewrite set_frame_lock].
      unfold give_back, take_frame, set_frame. simpl. by case_if.
    + rewrite (pmm_leave_restores s); [|done|by simpl; rewrite set_frame_lock].
      unfold take_frame, set_frame. simpl. by case_if.
Qed.

Lemma pmm_alloc_frame_run a s :
  inv s -> prot_ok s -> lock_free (pmm_lock s) ->
  exists l, 0 <= l <= bitmap_size s /\
  ((no_free_frame s /\ pmm_alloc_frame a s = Some (PADDR_INVALID, set_last_free_index s l)) \/
   (exists i, 0 <= i < total_frames s /\ test_frame s i = false /\
      pmm_alloc_frame a s =
        Some ((alloc_taken a (set_last_free_index s l) i).1,
              (alloc_taken a (set_last_free_index s l) i).2))).
Proof.
  intros Hi Hp Hl. destruct (pmm_alloc_frame_cases a s Hi Hl) as (l & Hlr & [H|(i & Hr & Hf & He)]);
    exists l; (split; [done|]); [by left|right].
  exists i. split; [done|]. split; [done|]. rewrite He, (free_not_protected s) by done.
  rewrite andb_false_r. by rewrite <- surjective_pairing.
Qed.

(** Result of an allocation attempt of one frame. *)
Definition alloc_result (a : arch) (s s' : pmm) (r : Z) : Prop :=
  (r = PADDR_INVALID /\ same_used s s' /\ pmem s' = pmem s /\
     (no_free_frame s \/
      exists i, 0 <= i < total_frames s /\ test_frame s i = false /\
                alloc_out_of_range a (i * PAGE_SIZE) = true)) \/
  (exists i, r = i * PAGE_SIZE /\ 0 <= i < total_frames s /\ test_frame s i = false /\
     taken s s' i /\ alloc_out_of_range a r = false /\ is_protected s r = false /\
     zeroed a s s' r 1).

Lemma ptr_bits_ge a : 32 <= ptr_bits a.
Proof. destruct a; simpl; lia. Qed.

Lemma page_in_ptr a n : 0 <= n < 2 ^ 20 -> 0 <= n * PAGE_SIZE < 2 ^ ptr_bits a.
Proof.
  intros Hn. unfold PAGE_SIZE. split; [lia|]. apply (Z.lt_le_trans _ (2 ^ 32)); [lia|].
  apply Z.pow_le_mono_r; [lia|]. apply ptr_bits_ge.
Qed.

Lemma alloc_taken_good a s i :
  inv s -> 0 <= i < total_frames s -> test_frame s i = false ->
  let '(r, s') := alloc_taken a s i in
  respects s s' /\ (prot_ok s -> alloc_result a s s' r).
Proof.
  intros Hi Hr Hf. pose proof (inv_shape s Hi) as Hs. unfold alloc_taken.
  pose proof (inv_take_frame s i Hi Hr Hf) as Hit.
  assert (total_frames (take_frame s i) = total_frames s) as Ht by (simpl; by rewrite set_frame_total).
  assert (protected_frames (take_frame s i) = protected_frames s) as Hpr by (simpl; by rewrite set_frame_protected).
  assert (test_frame (take_frame s i) i = true) as Hti by (rewrite test_take_frame, Z.eqb_refl by (done || lia); done).
  destruct (alloc_out_of_range a (i * PAGE_SIZE)) eqn:Er.
  - set (s' := count_freed _ 1).
    assert (same_used s s') as Hsame.
    { intros j Hj. rewrite <- (take_drop_same s i) by done. by destruct a. }
    assert (inv s') as His'.
    { pose proof (inv_drop_frame _ i Hit ltac:(lia) Hti) as H. destruct a; try exact H.
      by apply (inv_set_refcount _ i 0) in H. }
    split.
    { split; [done|]. split; [intros Hp; eapply same_used_prot; [done| | |done]; destruct a; simpl; by autorewrite with pmm|].
      destruct a; simpl; by autorewrite with pmm. }
    intros Hp. left. split; [done|]. split; [done|]. split; [destruct a; simpl; by autorewrite with pmm|].
    right. by exists i.
  - split.
    { split; [by apply inv_pmem|]. split; [|simpl; by autorewrite with pmm].
      intros Hp. eapply taken_prot; [done| | |]; [by simpl in *..|]. apply (taken_take s i); done. }
    intros Hp. right. exists i. split; [done|]. split; [done|]. split; [done|]. split; [by apply taken_take|].
    split; [done|]. split; [by apply free_not_protected|].
    pose proof (zero_frames_filled a (take_frame s i) (i * PAGE_SIZE) 1 (page_in_ptr a 1 ltac:(lia))) as Hz.
    unfold zeroed in *. simpl in Hz |- *. by rewrite set_frame_pmem in Hz |- *.
Qed.

Lemma give_back_respects s i : inv s -> 0 <= i < total_frames s -> test_frame s i = false -> respects s (give_back s i).
Proof.
  intros Hi Hr Hf. pose proof (inv_take_frame s i Hi Hr Hf) as Hit.
  assert (test_frame (take_frame s i) i = true) as Hti.
  { rewrite test_take_frame, Z.eqb_refl; [done|apply Hi|done|lia]. }
  pose proof (inv_drop_frame _ i Hit ltac:(simpl; by rewrite set_frame_total) Hti) as H.
  split; [by apply (inv_set_refcount _ i 0) in H|].
  split; [|simpl; by autorewrite with pmm]. intros Hp. eapply same_used_prot; [done|simpl; by autorewrite with pmm..|].
  intros j Hj. rewrite <- (take_drop_same s i) by (done || apply Hi). done.
Qed.

Lemma pmm_alloc_frame_respects a s :
  inv s -> lock_free (pmm_lock s) -> exists r s', pmm_alloc_frame a s = Some (r, s') /\ respects s s'.
Proof.
  intros Hi Hl. destruct (pmm_alloc_frame_cases a s Hi Hl) as (l & Hlr & [[Hn He]|(i & Hr & Hf & He)]).
  - eexists _, _. split; [done|]. split; [by apply inv_hint|]. split; [|done]. intros Hp. by eapply same_used_prot.
  - assert (respects s (set_last_free_index s l)) as H1.
    { split; [by apply inv_hint|]. split; [|done]. intros Hp. by eapply same_used_prot. }
    destruct (negb _ && _); [eexists _, _; split; [done|]|].
    + eapply respects_trans; [exact H1|]. by apply give_back_respects; [apply H1|..].
    + pose proof (alloc_taken_good a (set_last_free_index s l) i (proj1 H1) Hr Hf) as Hg.
      destruct (alloc_taken a _ i) as [r s']. eexists _, _. split; [done|]. eapply respects_trans; [exact H1|]. apply Hg.
Qed.

Lemma pmm_alloc_frame_spec a s :
  inv s -> prot_ok s -> lock_free (pmm_lock s) ->
  exists r s', pmm_alloc_frame a s = Some (r, s') /\ keeps s s' /\ alloc_result a s s' r.
Proof.
  intros Hi Hp Hl. destruct (pmm_alloc_frame_run a s Hi Hp Hl) as (l & Hlr & [[Hn He]|(i & Hr & Hf & He)]).
  - exists PADDR_INVALID, (set_last_free_index s l). split; [done|]. split.
    { split; [by apply inv_hint|]. split; [by eapply same_used_prot|done]. }
    left. repeat split; try done. by left.
  - pose proof (alloc_taken_good a (set_last_free_index s l) i) as Hg.
    destruct (alloc_taken a (set_last_free_index s l) i) as [r s'].
    exists r, s'. split; [done|]. assert (prot_ok (set_last_free_index s l)) as Hp' by (by eapply same_used_prot).
    destruct Hg as [Hk Hg]; [by apply inv_hint|done|done|]. split; [by apply (respects_keeps (set_last_free_index s l))|by apply Hg].
Qed.

(** Functional behaviour of [pmm_alloc_frame] on every
    target.  With the lock free the call returns, keeps the invariant of the
    counters and of the protected table, and releases the lock with the
    interrupt flag it found.  Either it returns the address of a frame that
    was free and not protected, which is now used with reference count 1 and
    zero-filled, no other frame or byte changing; or it returns
    [PADDR_INVALID], no frame and no byte changing, and then no frame is free
    or a free frame lies outside the range the target can address. *)
Theorem pmm_alloc_frame_correct a s :
  inv s -> prot_ok s -> lock_free (pmm_lock s) ->
  exists r s', pmm_alloc_frame a s = Some (r, s') /\ keeps s s' /\ alloc_result a s s' r.
Proof. apply pmm_alloc_frame_spec. Qed.

(** ** Freeing one frame *)

(** The frames [pmm_free_frame] acts on. *)
Definition freeable (s : pmm) (f : Z) : bool :=
  negb ((f =? 0) || (f =? PADDR_INVALID)) && (f mod PAGE_SIZE =? 0) &&
  (PADDR_TO_PFN f <? total_frames s) && test_frame s (PADDR_TO_PFN f) && negb (is_protected s f).

Lemma set_pmm_lock_id s t : set_pmm_lock (set_pmm_lock s t) (pmm_lock s) = s.
Proof. by destruct s. Qed.

(** What a call leaves: one reference less, and the frame free when that was
    the last. *)
Definition release_one (s : pmm) (i : Z) : pmm :=
  let s1 := if refcount s i =? 0 then s else set_refcount s i (refcount s i - 1) in
  if 1 <? refcount s i then s1
  else
    let s2 := drop_frame s1 i in
    if i / 32 <? last_free_index s2 then set_last_free_index s2 (i / 32) else s2.

Lemma refcount_lock s l i : refcount (set_pmm_lock s l) i = refcount s i.
Proof. done. Qed.

Lemma pmm_free_frame_run s f :
  inv s -> lock_free (pmm_lock s) -> 0 <= f < 2 ^ 64 ->
  pmm_free_frame s f = Some (if freeable s f then release_one s (PADDR_TO_PFN f) else s).
Proof.
  intros Hi Hl Hf. unfold pmm_free_frame, freeable.
  destruct ((f =? 0) || (f =? PADDR_INVALID)) eqn:E0; [done|]. simpl.
  rewrite aligned_spec. destruct (f mod PAGE_SIZE =? 0) eqn:Ea; simpl; [|done].
  rewrite pmm_enter_free by done. simpl.
  pose proof (pfn_nonneg f ltac:(lia)) as Hn. set (i := PADDR_TO_PFN f) in *.
  change (test_frame (set_pmm_lock s _) i) with (test_frame s i).
  change (is_protected (set_pmm_lock s _) f) with (is_protected s f).
  destruct (total_frames s <=? i) eqn:Et; zify_bool.
  { rewrite (proj2 (Z.ltb_ge i _)) by lia. simpl. by rewrite pmm_leave_restores, set_pmm_lock_id. }
  rewrite (proj2 (Z.ltb_lt i _)) by lia. simpl.
  destruct (test_frame s i) eqn:Eu; simpl; [|by rewrite pmm_leave_restores, set_pmm_lock_id].
  destruct (is_protected s f) eqn:Ep; simpl; [by rewrite pmm_leave_restores, set_pmm_lock_id|].
  rewrite !refcount_lock. pose proof (refcount_range s i (inv_shape s Hi)) as Hrc.
  unfold release_one. destruct (refcount s i =? 0) eqn:Er; simpl; zify_bool.
  - rewrite Er. simpl. case_if; f_equal; by rewrite (pmm_leave_restores s).
  - rewrite refcount_set; [|done|by apply (inv_lock s), Hi|lia]. rewrite Z.eqb_refl.
    unfold u16. rewrite Z.mod_small by lia. 
    destruct (1 <? refcount s i) eqn:E1; zify_bool.
    + rewrite (proj2 (Z.ltb_lt 0 _)) by lia. f_equal. by rewrite (pmm_leave_restores s).
    + rewrite (proj2 (Z.ltb_ge 0 _)) by lia. simpl. case_if; f_equal; by rewrite (pmm_leave_restores s).
Qed.

Lemma freeable_frame s f : freeable s f = true -> 0 <= f ->
  0 <= PADDR_TO_PFN f < total_frames s /\ test_frame s (PADDR_TO_PFN f) = true /\
  is_protected s f = false /\ PADDR_TO_PFN f * PAGE_SIZE = f.
Proof.
  intros H Hf. unfold freeable in H. apply andb_true_iff in H as [H Hp].
  apply andb_true_iff in H as [H Hu]. apply andb_true_iff in H as [H Ht].
  apply andb_true_iff in H as [_ Ha]. zify_bool. pose proof (pfn_nonneg f Hf).
  repeat split; try done. by apply paddr_of_pfn.
Qed.

Lemma release_one_effect s i : inv s -> 0 <= i < total_frames s -> test_frame s i = true ->
  let s' := release_one s i in
  inv s' /\ protected_frames s' = protected_frames s /\ total_frames s' = total_frames s /\
  pmm_lock s' = pmm_lock s /\ pmem s' = pmem s /\
  (forall j, 0 <= j -> refcount s' j = if i =? j then Z.max 0 (refcount s j - 1) else refcount s j) /\
  (forall j, 0 <= j -> test_frame s' j = if i =? j then 1 <? refcount s i else test_frame s j).
Proof.
  intros Hi Hr Hu. pose proof (inv_shape s Hi) as Hs. pose proof (refcount_range s i Hs) as Hrc.
  unfold release_one. set (s1 := if refcount s i =? 0 then s else set_refcount s i (refcount s i - 1)).
  assert (inv s1) as Hi1 by (unfold s1; case_if; [done|by apply inv_set_refcount]).
  assert (forall j, test_frame s1 j = test_frame s j) as Ht1 by (intros; unfold s1; by case_if).
  assert (forall j, 0 <= j -> refcount s1 j = if i =? j then Z.max 0 (refcount s j - 1) else refcount s j) as Hr1.
  { intros j Hj. unfold s1. case_if.
    - case_if; [subst; lia|done].
    - rewrite refcount_set by done. case_if; [|done]. subst. unfold u16. rewrite Z.mod_small; lia. }
  assert (total_frames s1 = total_frames s /\ protected_frames s1 = protected_frames s /\
          pmm_lock s1 = pmm_lock s /\ pmem s1 = pmem s) as (E1 & E2 & E3 & E4) by (unfold s1; by case_if).
  destruct (1 <? refcount s i) eqn:E; zify_bool.
  { split_and!; try done. intros j Hj. rewrite Ht1. case_if; [by subst|done]. }
  pose proof (inv_drop_frame s1 i Hi1 ltac:(lia) ltac:(by rewrite Ht1)) as Hd.
  pose proof (fun j => test_drop_frame s1 i j (inv_shape _ Hi1) ltac:(lia)) as Htd.
  assert (forall j, 0 <= j -> test_frame (drop_frame s1 i) j = if i =? j then false else test_frame s j) as Htd'.
  { intros j Hj. rewrite Htd, Ht1 by done. by destruct (i =? j). }
  pose proof (sh_hint _ (inv_shape _ Hd)). case_if.
  - split; [apply inv_hint; [done|]; pose proof (Z.div_pos i 32); lia|]. split_and!; done.
  - split_and!; done.
Qed.

Lemma release_one_respects s f :
  inv s -> 0 <= f -> freeable s f = true -> respects s (release_one s (PADDR_TO_PFN f)).
Proof.
  intros Hi Hf E. apply freeable_frame in E as (Hr & Hu & Hnp & Hb); [|lia].
  destruct (release_one_effect s _ Hi Hr Hu) as (H1 & H2 & H3 & H4 & H5 & H6 & H7).
  split; [done|]. split; [|done]. intros Hp. eapply prot_ok_mono; [done..|].
  intros j Hj Htj Hpj. rewrite H7 by done. case_if; [|done].
  subst j. rewrite Hb in Hpj. congruence.
Qed.

Lemma release_one_keeps s f :
  inv s -> prot_ok s -> 0 <= f -> freeable s f = true -> keeps s (release_one s (PADDR_TO_PFN f)).
Proof. intros Hi Hp Hf E. apply respects_keeps; [done|]. by apply release_one_respects. Qed.

(** C35: Functional behaviour of [pmm_free_frame].  A call on an
    aligned, in-range, used and unprotected frame gives up one reference:
    the frame stays used while other references remain (copy on write) and
    becomes free with the last one; every other call changes nothing.  The
    invariants hold afterwards, the lock is released, memory is untouched. *)
Theorem pmm_free_frame_correct s f :
  inv s -> prot_ok s -> lock_free (pmm_lock s) -> 0 <= f < 2 ^ 64 ->
  exists s', pmm_free_frame s f = Some s' /\ keeps s s' /\ pmem s' = pmem s /\
    if freeable s f then
      let i := PADDR_TO_PFN f in
      (forall j, 0 <= j -> refcount s' j = if i =? j then Z.max 0 (refcount s j - 1) else refcount s j) /\
      (forall j, 0 <= j -> test_frame s' j = if i =? j then 1 <? refcount s i else test_frame s j)
    else s' = s.
Proof.
  intros Hi Hp Hl Hf. eexists. split; [by apply pmm_free_frame_run|].
  destruct (freeable s f) eqn:E; [|done]. split; [by apply release_one_keeps; [..|lia|]|].
  apply freeable_frame in E as (Hr & Hu & _); [|lia].
  by destruct (release_one_effect s _ Hi Hr Hu) as (_ & _ & _ & _ & H5 & H6 & H7).
Qed.

(** ** Reference counts *)

Definition ref_target (s : pmm) (f : Z) : bool :=
  negb (ref_arg_invalid f) && (PADDR_TO_PFN f <? total_frames s) && negb (refcount_null s).

Lemma pmm_frame_ref_inc_run s f : inv s -> lock_free (pmm_lock s) -> 0 <= f < 2 ^ 64 ->
  pmm_frame_ref_inc s f =
    Some (if ref_target s f then
            let i := PADDR_TO_PFN f in
            if refcount s i =? 0xFFFF then (0xFFFF, s)
            else (refcount s i + 1, set_refcount s i (refcount s i + 1))
          else (0, s)).
Proof.
  intros Hi Hl Hf. unfold pmm_frame_ref_inc, ref_target.
  destruct (ref_arg_invalid f); [done|]. simpl. pose proof (pfn_nonneg f ltac:(lia)).
  destruct (total_frames s <=? PADDR_TO_PFN f) eqn:Et; zify_bool.
  { by rewrite (proj2 (Z.ltb_ge (PADDR_TO_PFN f) _)) by lia. }
  rewrite (proj2 (Z.ltb_lt (PADDR_TO_PFN f) _)) by lia. simpl.
  destruct (refcount_null s); [done|]. simpl. rewrite pmm_enter_free by done. simpl.
  rewrite !refcount_lock. pose proof (refcount_range s (PADDR_TO_PFN f) (inv_shape s Hi)).
  destruct (refcount s (PADDR_TO_PFN f) =? 65535) eqn:E; zify_bool.
  - by rewrite pmm_leave_restores, set_pmm_lock_id.
  - rewrite refcount_set; [|simpl; lia|by apply (inv_lock s), Hi|lia].
    rewrite Z.eqb_refl. unfold u16. rewrite Z.mod_small by lia.
    do 2 f_equal. by rewrite (pmm_leave_restores s).
Qed.

Lemma pmm_frame_ref_dec_run s f : inv s -> lock_free (pmm_lock s) -> 0 <= f < 2 ^ 64 ->
  pmm_frame_ref_dec s f =
    Some (if ref_target s f then
            let i := PADDR_TO_PFN f in
            if refcount s i =? 0 then (0, s)
            else (refcount s i - 1, set_refcount s i (refcount s i - 1))
          else (0, s)).
Proof.
  intros Hi Hl Hf. unfold pmm_frame_ref_dec, ref_target.
  destruct (ref_arg_invalid f); [done|]. simpl. pose proof (pfn_nonneg f ltac:(lia)).
  destruct (total_frames s <=? PADDR_TO_PFN f) eqn:Et; zify_bool.
  { by rewrite (proj2 (Z.ltb_ge (PADDR_TO_PFN f) _)) by lia. }
  rewrite (proj2 (Z.ltb_lt (PADDR_TO_PFN f) _)) by lia. simpl.
  destruct (refcount_null s); [done|]. simpl. rewrite pmm_enter_free by done. simpl.
  rewrite !refcount_lock. pose proof (refcount_range s (PADDR_TO_PFN f) (inv_shape s Hi)).
  destruct (refcount s (PADDR_TO_PFN f) =? 0) eqn:E; zify_bool.
  - by rewrite pmm_leave_restores, set_pmm_lock_id.
  - rewrite refcount_set; [|simpl; lia|by apply (inv_lock s), Hi|lia].
    rewrite Z.eqb_refl. unfold u16. rewrite Z.mod_small by lia.
    do 2 f_equal. by rewrite (pmm_leave_restores s).
Qed.

(** [k] calls of an operation in sequence. *)
Fixpoint times (k : nat) (op : pmm -> option pmm) (s : pmm) : option pmm :=
  match k with
  | O => Some s
  | S k => s ← op s; times k op s
  end.

Definition share (f : Z) (s : pmm) : option pmm := r ← pmm_frame_ref_inc s f; Some r.2.
Definition unshare (f : Z) (s : pmm) : option pmm := pmm_free_frame s f.

(** The state as far as sharing a frame is concerned. *)
Definition sharable (s : pmm) (f n : Z) : Prop :=
  inv s /\ lock_free (pmm_lock s) /\ freeable s f = true /\ refcount s (PADDR_TO_PFN f) = n.

Lemma freeable_ref_target s f : inv s -> 0 <= f -> freeable s f = true -> ref_target s f = true.
Proof.
  intros Hi Hf H. pose proof (freeable_frame s f H Hf) as (Hr & _). unfold freeable in H. unfold ref_target, ref_arg_invalid.
  apply andb_true_iff in H as [H _]. apply andb_true_iff in H as [H _].
  apply andb_true_iff in H as [H ->]. apply andb_true_iff in H as [H Ha].
  rewrite aligned_spec, Ha, orb_false_r, H. unfold refcount_null.
  pose proof (sh_rclen s (inv_shape s Hi)). destruct (frame_refcount s); [simpl in *; lia|done].
Qed.

Lemma share_step s f n : sharable s f n -> 0 <= f < 2 ^ 64 -> n < 65535 ->
  exists s', share f s = Some s' /\ sharable s' f (n + 1).
Proof.
  intros (Hi & Hl & Hf & Hn) Hr Hb. unfold share. rewrite pmm_frame_ref_inc_run by done.
  rewrite freeable_ref_target by (done || lia). cbv zeta. rewrite Hn.
  rewrite (proj2 (Z.eqb_neq n _)) by lia. eexists. split; [done|].
  pose proof (refcount_range s (PADDR_TO_PFN f) (inv_shape s Hi)).
  pose proof (freeable_frame s f Hf ltac:(lia)) as (Hri & _).
  split; [by apply inv_set_refcount|]. split; [done|]. split; [done|].
  simpl. rewrite refcount_set, Z.eqb_refl by (done || lia || apply Hi). unfold u16. apply Z.mod_small. lia.
Qed.

Lemma share_times k f : forall s n, sharable s f n -> 0 <= f < 2 ^ 64 -> n + Z.of_nat k <= 65535 ->
  exists s', times k (share f) s = Some s' /\ sharable s' f (n + Z.of_nat k).
Proof.
  induction k as [|k IH]; intros s n Hs Hf Hn; cbn [times].
  - exists s. split; [done|]. by rewrite Z.add_0_r.
  - destruct (share_step s f n Hs Hf ltac:(lia)) as (s1 & -> & Hs1). simpl.
    destruct (IH s1 (n + 1) Hs1 Hf ltac:(lia)) as (s2 & -> & Hs2). exists s2. split; [done|].
    replace (n + Z.of_nat (S k)) with (n + 1 + Z.of_nat k) by lia. exact Hs2.
Qed.

Lemma unshare_step s f n : sharable s f n -> 0 <= f < 2 ^ 64 -> 1 < n ->
  exists s', unshare f s = Some s' /\ sharable s' f (n - 1).
Proof.
  intros (Hi & Hl & Hf & Hn) Hr Hb. unfold unshare. rewrite pmm_free_frame_run, Hf by done.
  pose proof (freeable_frame s f Hf ltac:(lia)) as (Hri & Hu & _).
  eexists. split; [done|]. unfold sharable.
  destruct (release_one_effect s _ Hi Hri Hu) as (H1 & H2 & H3 & H4 & H5 & H6 & H7).
  split; [done|]. rewrite H4. split; [done|]. rewrite H6, Z.eqb_refl by lia. split; [|lia].
  unfold freeable, is_protected, find_protected_frame_unsafe in *.
  rewrite H2, H3, H7, Z.eqb_refl by lia. rewrite (proj2 (Z.ltb_lt 1 _)) by lia.
  by rewrite Hu in Hf.
Qed.

Lemma unshare_times k f : forall s n, sharable s f n -> 0 <= f < 2 ^ 64 -> Z.of_nat k < n ->
  exists s', times k (unshare f) s = Some s' /\ sharable s' f (n - Z.of_nat k).
Proof.
  induction k as [|k IH]; intros s n Hs Hf Hn; cbn [times].
  - exists s. split; [done|]. by rewrite Z.sub_0_r.
  - destruct (unshare_step s f n Hs Hf ltac:(lia)) as (s1 & -> & Hs1). simpl.
    destruct (IH s1 (n - 1) Hs1 Hf ltac:(lia)) as (s2 & -> & Hs2). exists s2. split; [done|].
    replace (n - Z.of_nat (S k)) with (n - 1 - Z.of_nat k) by lia. exact Hs2.
Qed.

(** C36: Copy-on-write sharing.  A frame with one owner that is shared
    [k] times ([pmm_frame_ref_inc]) stays allocated through the next [k]
    calls of [pmm_free_frame] and is free after one more: no owner's release
    takes the frame away from another, and none leaks it. *)
Theorem cow_sharing s f k :
  inv s -> lock_free (pmm_lock s) -> 0 <= f < 2 ^ 64 -> freeable s f = true ->
  refcount s (PADDR_TO_PFN f) = 1 -> Z.of_nat k < 65535 ->
  exists s1 s2,
    (s ← times k (share f) s; times k (unshare f) s) = Some s1 /\
    test_frame s1 (PADDR_TO_PFN f) = true /\
    unshare f s1 = Some s2 /\ test_frame s2 (PADDR_TO_PFN f) = false /\
    pi_free_frames (info s2) = pi_free_frames (info s1) + 1.
Proof.
  intros Hi Hl Hf Hfr Hrc Hk.
  destruct (share_times k f s 1) as (s0 & E0 & H0); [by split_and!|done|lia|].
  destruct (unshare_times k f s0 (1 + Z.of_nat k) H0 Hf ltac:(lia)) as (s1 & E1 & (Hi1 & Hl1 & Hf1 & Hn1)).
  replace (1 + Z.of_nat k - Z.of_nat k) with 1 in Hn1 by lia.
  pose proof (freeable_frame s1 f Hf1 ltac:(lia)) as (Hri & Hu & _).
  exists s1. eexists. rewrite E0. simpl. split; [done|]. split; [done|].
  unfold unshare. rewrite pmm_free_frame_run, Hf1 by done. split; [done|].
  destruct (release_one_effect s1 _ Hi1 Hri Hu) as (H1 & _ & _ & _ & _ & _ & H7).
  rewrite H7, Z.eqb_refl, Hn1 by lia. split; [done|].
  unfold release_one. rewrite Hn1. simpl.
  assert (0 <= pi_free_frames (info s1) < 2 ^ 53).
  { rewrite (inv_free s1 Hi1). pose proof (nfree_range s1 (inv_shape s1 Hi1)).
    pose proof (sh_max s1 (inv_shape s1 Hi1)). lia. }
  case_if; simpl; apply u64_small; lia.
Qed.

(** ** Contiguous allocations *)

Definition in_range (i n j : Z) : bool := (i <=? j) && (j <? i + n).

(** The [n] frames from [i] were taken, with reference count 1. *)
Definition range_taken (s s' : pmm) (i n : Z) : Prop :=
  (forall j, 0 <= j -> test_frame s' j = in_range i n j || test_frame s j) /\
  (forall j, 0 <= j -> refcount s' j = if in_range i n j then 1 else refcount s j).

Definition run_free (s : pmm) (i n : Z) : Prop :=
  forall j, i <= j < i + n -> test_frame s j = false.

(** The fields [take_frames] leaves alone. *)
Definition same_rest (s s' : pmm) : Prop :=
  total_frames s' = total_frames s /\ protected_frames s' = protected_frames s /\
  pmm_lock s' = pmm_lock s /\ pmem s' = pmem s.

Lemma take_frames_spec n : forall s i,
  inv s -> 0 <= i -> i + Z.of_nat n <= total_frames s -> run_free s i (Z.of_nat n) ->
  inv (take_frames n s i) /\ range_taken s (take_frames n s i) i (Z.of_nat n) /\
  same_rest s (take_frames n s i).
Proof.
  induction n as [|n IH]; intros s i Hi H0 Hn Hf; cbn [take_frames].
  - split; [done|]. split; [|done]. split; intros j Hj; unfold in_range.
    + destruct (i <=? j) eqn:E; simpl; [|done]. rewrite (proj2 (Z.ltb_ge _ _)) by (zify_bool; lia). done.
    + case_if; [lia|done].
  - rewrite take_frame_alt. assert (test_frame s i = false) as Hfi by (apply Hf; lia).
    pose proof (inv_shape s Hi) as Hs. assert (0 <= i < total_frames s) as Hri by lia.
    assert (same_rest s (take_frame s i)) as (R1 & R2 & R3 & R4) by (unfold same_rest; simpl; by autorewrite with pmm).
    destruct (IH (take_frame s i) (i + 1)) as (H1 & [H2 H3] & (G1 & G2 & G3 & G4)).
    + by apply inv_take_frame.
    + lia.
    + lia.
    + intros j Hj. rewrite test_take_frame by (done || lia). rewrite (proj2 (Z.eqb_neq _ _)) by lia.
      apply Hf. lia.
    + split; [done|]. split; [|unfold same_rest; split_and!; congruence].
      split; intros j Hj.
      * rewrite H2, test_take_frame by done. unfold in_range.
        destruct (test_frame s j); [by rewrite !orb_true_r|]. rewrite !orb_false_r.
        apply Bool.eq_iff_eq_true. rewrite orb_true_iff, !andb_true_iff, !Z.leb_le, !Z.ltb_lt, Z.eqb_eq. lia.
      * rewrite H3, refcount_take_frame by done. unfold in_range. 
        destruct (i =? j) eqn:E; zify_bool; repeat case_if; (done || lia).
Qed.

Lemma find_run_spec n s accept count : forall i found c,
  0 <= c < count -> c = 0 \/ found = i - c -> run_free s (i - c) c ->
  (forall k, i - c <= k -> k + count <= i + Z.of_nat n -> accept k = true) ->
  let '(fd, c') := find_run n s accept count i found c in
  (count <= c' /\ i - c <= fd /\ fd + count <= i + Z.of_nat n /\ run_free s fd count) \/
  (c' < count /\ forall k, i - c <= k -> k + count <= i + Z.of_nat n -> ~ run_free s k count).
Proof.
  induction n as [|n IH]; intros i found c Hc Hfd Hfree Hacc; cbn [find_run].
  { right. split; [lia|]. intros k Hk1 Hk2. lia. }
  destruct (test_frame s i) eqn:Et; simpl negb; cbv iota.
  - specialize (IH (i + 1) PFN_INVALID 0). destruct (find_run n s accept count (i + 1) PFN_INVALID 0) as [fd c'].
    destruct IH as [(A & B & C & D)|(A & B)]; [lia|by left|intros j Hj; lia|intros k ? ?; apply Hacc; lia| |].
    + left. split_and!; try lia. done.
    + right. split; [done|]. intros k Hk1 Hk2 Hrf. destruct (decide (i + 1 <= k)) as [Hle|Hnle].
      * eapply (B k); [lia|lia|done].
      * specialize (Hrf i ltac:(lia)). congruence.
  - assert ((if c =? 0 then i else found) = i - c) as -> by (case_if; lia).
    assert (run_free s (i - c) (c + 1)) as Hfree'.
    { intros j Hj. destruct (decide (j = i)) as [->|]; [done|]. apply Hfree. lia. }
    destruct (count <=? c + 1) eqn:Ec; zify_bool.
    + rewrite Hacc by lia. simpl. left. split_and!; try lia. by replace count with (c + 1) by lia.
    + simpl. specialize (IH (i + 1) (i - c) (c + 1)).
      replace (i + 1 - (c + 1)) with (i - c) in IH by lia.
      destruct (find_run n s accept count (i + 1) (i - c) (c + 1)) as [fd c'].
      destruct IH as [(A & B & C & D)|(A & B)]; [lia|by right|done|intros k ? ?; apply Hacc; lia| |].
      * left. split_and!; try lia. done.
      * right. split; [done|]. intros k Hk1 Hk2. apply B; lia.
Qed.

(** Result of an allocation of [count] contiguous frames among those of
    number [lo] to [hi]. *)
Definition run_result (a : arch) (s s' : pmm) (r count lo hi : Z) : Prop :=
  (r = PADDR_INVALID /\ s' = s /\ forall k, lo <= k -> k + count <= hi -> ~ run_free s k count) \/
  (exists i, r = i * PAGE_SIZE /\ lo <= i /\ i + count <= hi /\ run_free s i count /\
     range_taken s s' i count /\ zeroed a s s' r count).

Definition addressable (a : arch) (s : pmm) : Prop := total_frames s * PAGE_SIZE < 2 ^ ptr_bits a.

(** Taking a free run, zeroing it and leaving. *)
Lemma take_run a s i count :
  inv s -> lock_free (pmm_lock s) -> addressable a s ->
  0 <= i -> 0 <= count -> i + count <= total_frames s -> run_free s i count ->
  let s' := pmm_leave (zero_frames a (take_frames (Z.to_nat count)
              (set_pmm_lock s (LockSt SPINLOCK_LOCKED false)) i) (i * PAGE_SIZE) count) (lk_irq (pmm_lock s)) in
  respects s s' /\ range_taken s s' i count /\
  zeroed a s s' (i * PAGE_SIZE) count.
Proof.
  intros Hi Hl Ha H0 Hc Hn Hf. cbv zeta. set (sl := set_pmm_lock s _).
  destruct (take_frames_spec (Z.to_nat count) sl i) as (H1 & H2 & (G1 & G2 & G3 & G4)); [by apply inv_lock|done|simpl; lia| |].
  { rewrite Z2Nat.id by lia. exact Hf. }
  rewrite Z2Nat.id in H2 by lia. rewrite (pmm_leave_restores s) by done.
  split.
  { split; [by apply inv_lock, inv_pmem|]. split; [|by split].
    intros Hp. eapply prot_ok_mono; [exact Hp|exact G2|exact G1|]. intros j Hj Ht _.
    etransitivity; [apply (proj1 H2 j Hj)|].
    change (test_frame sl j) with (test_frame s j). rewrite Ht. apply orb_true_r. }
  split; [exact H2|].
  pose proof (zero_frames_filled a (take_frames (Z.to_nat count) sl i) (i * PAGE_SIZE) count) as Hz.
  unfold addressable, PAGE_SIZE in *. specialize (Hz ltac:(lia)). unfold zeroed in *. by rewrite G4 in Hz.
Qed.

Lemma pmm_alloc_frames_spec a s count :
  inv s -> lock_free (pmm_lock s) -> addressable a s -> 2 <= count ->
  exists r s', pmm_alloc_frames a s count = Some (r, s') /\
    respects s s' /\
    run_result a s s' r count 0 (total_frames s).
Proof.
  intros Hi Hl Ha Hc. unfold pmm_alloc_frames.
  rewrite (proj2 (Z.eqb_neq count 0)), (proj2 (Z.eqb_neq count 1)) by lia.
  rewrite pmm_enter_free by done. simpl. pose proof (sh_total s (inv_shape s Hi)).
  pose proof (find_run_spec (Z.to_nat (total_frames s)) (set_pmm_lock s (LockSt SPINLOCK_LOCKED false))
                (fun _ => true) count 0 PFN_INVALID 0 ltac:(lia) (or_introl eq_refl)) as Hr.
  destruct (find_run _ _ _ count 0 PFN_INVALID 0) as [fd c].
  destruct Hr as [(A & B & C & D)|(A & B)]; [intros j Hj; lia|done| |].
  - rewrite (proj2 (Z.ltb_ge c count)) by lia. pose proof (sh_max s (inv_shape s Hi)).
    rewrite paddr_spec by lia. eexists _, _. split; [done|].
    destruct (take_run a s fd count) as (P1 & P2 & P3); try done; try lia.
    split; [done|]. right. exists fd.
    split; [done|]. split; [lia|]. split; [lia|]. done.
  - rewrite (proj2 (Z.ltb_lt c count)) by lia. eexists _, s. rewrite pmm_leave_restores, set_pmm_lock_id by done.
    split; [done|]. split; [done|]. left. split; [done|]. split; [done|].
    intros k Hk1 Hk2. apply (B k); lia.
Qed.

(** Contiguous allocation.  For two frames or more
    [pmm_alloc_frames] returns the address of a run of [count] frames that
    were all free, takes exactly that run with reference count 1 and zeroes
    it; when it returns [PADDR_INVALID] the state is unchanged and memory has
    no run of [count] free frames: the one-pass search misses none. *)
Theorem pmm_alloc_frames_correct a s count :
  inv s -> prot_ok s -> lock_free (pmm_lock s) -> addressable a s -> 2 <= count ->
  exists r s', pmm_alloc_frames a s count = Some (r, s') /\
    keeps s s' /\
    run_result a s s' r count 0 (total_frames s).
Proof.
  intros Hi Hp Hl Ha Hc. destruct (pmm_alloc_frames_spec a s count Hi Hl Ha Hc) as (r & s' & E & K & R).
  exists r, s'. split; [done|]. split; [by apply respects_keeps|done].
Qed.

(** First frame of a zone and the frame after its last. *)
Definition zone_lo (a : arch) (zone : pmm_zone) : Z :=
  match zone, a with
  | ZONE_DMA, _ => 0
  | ZONE_NORMAL, _ => 4096
  | ZONE_HIGH, I686 => 229376
  | _, _ => 0
  end.

Definition zone_hi (a : arch) (s : pmm) (zone : pmm_zone) : Z :=
  match zone, a with
  | ZONE_DMA, _ => Z.min 4096 (total_frames s)
  | ZONE_NORMAL, I686 => Z.min 229376 (total_frames s)
  | ZONE_HIGH, I686 => Z.min 524288 (total_frames s)
  | _, _ => total_frames s
  end.

Lemma get_zone_range_spec a s zone : shape s ->
  get_zone_range a s zone = (zone_lo a zone * PAGE_SIZE, zone_hi a s zone * PAGE_SIZE).
Proof.
  intros Hs. pose proof (sh_total s Hs). pose proof (sh_max s Hs).
  unfold get_zone_range. rewrite paddr_spec by lia.
  unfold zone_lo, zone_hi, NORMAL_ZONE_LIMIT, DMA_ZONE_LIMIT, PADDR_INVALID, PAGE_SIZE.
  destruct zone, a; f_equal; case_if; zify_bool; lia.
Qed.

Lemma zone_hi_total a s zone : shape s -> 0 <= zone_lo a zone /\ 0 <= zone_hi a s zone <= total_frames s.
Proof. intros Hs. pose proof (sh_total s Hs). unfold zone_lo, zone_hi. destruct zone, a; lia. Qed.

Lemma pmm_alloc_frames_zone_spec a s count zone :
  inv s -> lock_free (pmm_lock s) -> addressable a s -> 1 <= count ->
  exists r s', pmm_alloc_frames_zone a s count zone = Some (r, s') /\
    respects s s' /\
    run_result a s s' r count (zone_lo a zone) (zone_hi a s zone).
Proof.
  intros Hi Hl Ha Hc. unfold pmm_alloc_frames_zone. rewrite (proj2 (Z.eqb_neq count 0)) by lia.
  pose proof (inv_shape s Hi) as Hs. rewrite get_zone_range_spec by done.
  pose proof (zone_hi_total a s zone Hs) as [Hlo Hhi]. pose proof (sh_max s Hs).
  rewrite !pfn_of_paddr. set (lo := zone_lo a zone) in *. set (hi := zone_hi a s zone) in *.
  replace (if total_frames s <? hi then total_frames s else hi) with hi by (case_if; lia).
  destruct (hi <=? lo) eqn:Eh; zify_bool.
  { eexists _, s. split; [done|]. split; [done|]. left.
    split; [done|]. split; [done|]. intros. lia. }
  rewrite pmm_enter_free by done. cbn [mbind option_bind].
  set (sl := set_pmm_lock s _). set (acc := fun found => PFN_TO_PADDR (u64 (found + count)) <=? hi * PAGE_SIZE).
  pose proof (find_run_spec (Z.to_nat (hi - lo)) sl acc count lo PFN_INVALID 0 ltac:(lia) (or_introl eq_refl)) as Hr.
  destruct (find_run _ sl acc count lo PFN_INVALID 0) as [fd c].
  destruct Hr as [(A & B & C & D)|(A & B)]; [intros j Hj; lia| | |].
  { intros k Hk1 Hk2. unfold acc. rewrite u64_small, paddr_spec by lia. apply Z.leb_le. unfold PAGE_SIZE. lia. }
  - rewrite (proj2 (Z.ltb_ge c count)), (proj2 (Z.eqb_neq fd _)) by (unfold PFN_INVALID; lia).
    cbn [orb]. rewrite paddr_spec by lia. eexists _, _. split; [done|].
    destruct (take_run a s fd count) as (P1 & P2 & P3); try done; try lia.
    split; [done|]. right. exists fd.
    split; [done|]. split; [lia|]. split; [lia|]. done.
  - rewrite (proj2 (Z.ltb_lt c count)) by lia. eexists _, s. cbn [orb].
    unfold sl. rewrite pmm_leave_restores, set_pmm_lock_id by done.
    split; [done|]. split; [done|]. left. split; [done|]. split; [done|].
    intros k Hk1 Hk2. apply (B k); lia.
Qed.

(** Zoned contiguous allocation.  [pmm_alloc_frames_zone]
    gives a zeroed run of frames wholly inside the zone (for [ZONE_DMA] below
    16 MB), or [PADDR_INVALID] with the state unchanged and then the zone has
    no free run of that length. *)
Theorem pmm_alloc_frames_zone_correct a s count zone :
  inv s -> prot_ok s -> lock_free (pmm_lock s) -> addressable a s -> 1 <= count ->
  exists r s', pmm_alloc_frames_zone a s count zone = Some (r, s') /\
    keeps s s' /\
    run_result a s s' r count (zone_lo a zone) (zone_hi a s zone).
Proof.
  intros Hi Hp Hl Ha Hc. destruct (pmm_alloc_frames_zone_spec a s count zone Hi Hl Ha Hc) as (r & s' & E & K & R).
  exists r, s'. split; [done|]. split; [by apply respects_keeps|done].
Qed.

(** ** Huge pages *)

Lemma all_free_spec n s : forall i, all_free n s i = true <-> run_free s i (Z.of_nat n).
Proof.
  induction n as [|n IH]; intros i; cbn [all_free].
  - split; [intros _ j Hj; lia|done].
  - destruct (test_frame s i) eqn:E.
    + split; [done|]. intros H. specialize (H i ltac:(lia)). congruence.
    + rewrite IH. split; intros H j Hj.
      * destruct (decide (j = i)) as [->|]; [done|]. apply H. lia.
      * apply H. lia.
Qed.

Definition huge_aligned (i : Z) : Prop := i mod frames_needed = 0.

Lemma find_huge_from_spec n s hi : forall start,
  0 <= start -> huge_aligned start -> hi - start < frames_needed * Z.of_nat n -> hi < PFN_INVALID ->
  let r := find_huge_from n s start hi in
  (r <> PFN_INVALID /\ start <= r /\ huge_aligned r /\ r + frames_needed <= hi /\ run_free s r frames_needed) \/
  (r = PFN_INVALID /\
   forall k, start <= k -> huge_aligned k -> k + frames_needed <= hi -> ~ run_free s k frames_needed).
Proof.
  unfold huge_aligned. change frames_needed with 512.
  induction n as [|n IH]; intros start H0 Hal Hn Hhi; cbn [find_huge_from].
  - right. split; [done|]. intros. lia.
  - change frames_needed with 512 in *. destruct (start + 512 <=? hi) eqn:E; zify_bool.
    2:{ right. split; [done|]. intros. lia. }
    pose proof (all_free_spec (Z.to_nat 512) s start) as Haf. change (Z.of_nat (Z.to_nat 512)) with 512 in Haf.
    destruct (all_free (Z.to_nat 512) s start) eqn:Ea.
    + left. split_and!; try lia. by apply Haf.
    + assert ((start + 512) mod 512 = 0) as Hal'.
      { rewrite <- (Z.mul_1_l 512) at 1. by rewrite Z.mod_add by lia. }
      destruct (IH (start + 512) ltac:(lia) Hal' ltac:(lia) Hhi) as [(A & B & C & D & G)|(A & B)].
      * left. split_and!; try done; lia.
      * right. split; [done|]. intros k Hk1 Hk2 Hk3 Hrf.
        destruct (decide (k = start)) as [->|Hne]; [by apply Haf in Hrf|].
        apply (B k); try done. pose proof (Z.div_mod k 512). pose proof (Z.div_mod start 512). lia.
Qed.

Lemma round_up_512 x : 0 <= x -> x < 2 ^ 53 ->
  let y := Z.land (u64 (x + frames_needed - 1)) (2 ^ 64 - frames_needed) in
  x <= y /\ huge_aligned y /\ (forall k, x <= k -> huge_aligned k -> y <= k).
Proof.
  intros Hx Hb. unfold huge_aligned. change frames_needed with (2 ^ 9). rewrite u64_small by lia. cbv zeta.
  rewrite (land_high_mask 64 9) by lia. set (z := x + 2 ^ 9 - 1).
  pose proof (Z.div_mod z (2 ^ 9) ltac:(lia)). pose proof (Z.mod_pos_bound z (2 ^ 9) ltac:(lia)).
  split; [lia|]. split.
  - replace (z - z mod 2 ^ 9) with (z / 2 ^ 9 * 2 ^ 9) by lia. by rewrite Z.mod_mul by lia.
  - intros k Hk Hal. pose proof (Z.div_mod k (2 ^ 9) ltac:(lia)). lia.
Qed.

Lemma find_huge_spec s lo hi : 0 <= lo -> 0 <= hi < 2 ^ 52 -> lo < 2 ^ 53 ->
  let r := find_huge_page_frames s lo hi in
  (r <> PFN_INVALID /\ lo <= r /\ huge_aligned r /\ r + frames_needed <= hi /\ run_free s r frames_needed) \/
  (r = PFN_INVALID /\
   forall k, lo <= k -> huge_aligned k -> k + frames_needed <= hi -> ~ run_free s k frames_needed).
Proof.
  intros Hlo Hhi Hb. unfold find_huge_page_frames. cbv zeta.
  destruct (round_up_512 lo Hlo Hb) as (R1 & R2 & R3). set (y := Z.land _ _) in *.
  assert (0 <= hi / frames_needed) by (apply Z.div_pos; [lia|done]).
  pose proof (Z.div_mod hi frames_needed ltac:(done)).
  pose proof (Z.mod_pos_bound hi frames_needed ltac:(done)).
  destruct (find_huge_from_spec (Z.to_nat (hi / frames_needed + 1)) s hi y) as [(A & B & C & D & G)|(A & B)];
    [lia|done|rewrite Z2Nat.id by lia; lia|unfold PFN_INVALID; lia| |].
  - left. split_and!; try done. lia.
  - right. split; [done|]. intros k Hk1 Hk2. apply B; [|done]. by apply R3.
Qed.

(** Result of a huge-page allocation among the frames [lo] to [hi]. *)
Definition huge_result (a : arch) (s s' : pmm) (r lo hi : Z) : Prop :=
  (r = PADDR_INVALID /\ s' = s /\
   forall k, lo <= k -> huge_aligned k -> k + frames_needed <= hi -> ~ run_free s k frames_needed) \/
  (exists i, r = i * PAGE_SIZE /\ r mod HUGE_PAGE_SIZE = 0 /\ lo <= i /\ i + frames_needed <= hi /\
     run_free s i frames_needed /\ range_taken s s' i frames_needed /\ zeroed a s s' r frames_needed).

Lemma huge_paddr i : huge_aligned i -> (i * PAGE_SIZE) mod HUGE_PAGE_SIZE = 0.
Proof.
  intros H. unfold huge_aligned in H. change HUGE_PAGE_SIZE with (512 * PAGE_SIZE).
  rewrite Z.mul_mod_distr_r by done. change frames_needed with 512 in H. by rewrite H.
Qed.

(** The part the two entry points share: search, take, zero, leave. *)
Lemma huge_body a s lo hi :
  inv s -> lock_free (pmm_lock s) -> addressable a s ->
  0 <= lo < 2 ^ 53 -> 0 <= hi <= total_frames s ->
  let sl := set_pmm_lock s (LockSt SPINLOCK_LOCKED false) in
  let start := find_huge_page_frames sl lo hi in
  exists r s',
    (if start =? PFN_INVALID then Some (PADDR_INVALID, pmm_leave sl (lk_irq (pmm_lock s)))
     else Some (PFN_TO_PADDR start,
                pmm_leave (zero_frames a (take_frames (Z.to_nat frames_needed) sl start)
                             (PFN_TO_PADDR start) frames_needed) (lk_irq (pmm_lock s))))
    = Some (r, s') /\
    respects s s' /\ huge_result a s s' r lo hi.
Proof.
  intros Hi Hl Ha Hlo Hhi. pose proof (sh_max s (inv_shape s Hi)). cbv zeta.
  destruct (find_huge_spec (set_pmm_lock s (LockSt SPINLOCK_LOCKED false)) lo hi)
    as [(A & B & C & D & G)|(A & B)]; [lia|lia|lia| |].
  - set (i := find_huge_page_frames _ lo hi) in *. change frames_needed with 512 in *.
    rewrite (proj2 (Z.eqb_neq i PFN_INVALID)) by done. rewrite paddr_spec by lia. eexists _, _. split; [done|].
    destruct (take_run a s i 512) as (P1 & P2 & P3); try done; try lia.
    split; [done|]. right. exists i.
    split; [done|]. split; [by apply huge_paddr|]. done.
  - rewrite A, Z.eqb_refl. rewrite pmm_leave_restores, set_pmm_lock_id by done.
    eexists _, s. split; [done|]. split; [done|]. by left.
Qed.

Lemma pmm_alloc_huge_page_spec a s zone :
  inv s -> lock_free (pmm_lock s) -> addressable a s ->
  (exists r s', pmm_alloc_huge_page a s = Some (r, s') /\
     respects s s' /\ huge_result a s s' r 0 (total_frames s)) /\
  (exists r s', pmm_alloc_huge_page_zone a s zone = Some (r, s') /\
     respects s s' /\
     huge_result a s s' r (zone_lo a zone) (zone_hi a s zone)).
Proof.
  intros Hi Hl Ha. pose proof (inv_shape s Hi) as Hs.
  pose proof (sh_total s Hs). pose proof (sh_max s Hs).
  split.
  - unfold pmm_alloc_huge_page. rewrite pmm_enter_free by done. apply huge_body; (done || lia).
  - unfold pmm_alloc_huge_page_zone. rewrite get_zone_range_spec by done.
    pose proof (zone_hi_total a s zone Hs) as [Hlo Hhi]. rewrite !pfn_of_paddr.
    set (hi := zone_hi a s zone) in *.
    replace (if total_frames s <? hi then total_frames s else hi) with hi by (case_if; lia).
    destruct (hi <=? zone_lo a zone) eqn:Eh; zify_bool.
    + eexists _, s. split; [done|]. split; [done|]. left.
      split; [done|]. split; [done|]. intros. change frames_needed with 512 in *. lia.
    + rewrite pmm_enter_free by done. apply huge_body; (done || lia).
Qed.

(** Huge pages.  [pmm_alloc_huge_page] and its zoned variant return a zeroed
    2 MB-aligned run of 512 frames that were free, inside the zone; they fail,
    changing nothing, only when the zone has no aligned free run. *)
Theorem pmm_alloc_huge_page_correct a s zone :
  inv s -> prot_ok s -> lock_free (pmm_lock s) -> addressable a s ->
  (exists r s', pmm_alloc_huge_page a s = Some (r, s') /\
     keeps s s' /\ huge_result a s s' r 0 (total_frames s)) /\
  (exists r s', pmm_alloc_huge_page_zone a s zone = Some (r, s') /\
     keeps s s' /\
     huge_result a s s' r (zone_lo a zone) (zone_hi a s zone)).
Proof.
  intros Hi Hp Hl Ha. destruct (pmm_alloc_huge_page_spec a s zone Hi Hl Ha) as [(r & s' & E & K & R) (r' & t & E' & K' & R')].
  split; [exists r, s'|exists r', t]; (split; [done|]); (split; [by apply respects_keeps|done]).
Qed.
