(* ===== verification/PmmSteps.v ===== *)
(** * The protected-frame table and sequences of PMM operations

    [pmm_protect_frame]/[pmm_unprotect_frame] as a counted set, the remaining
    operations, and the invariant over every sequence of calls: [pmm_step]
    has one rule per public operation and the invariant is preserved by rule
    induction.  The last part shows what [pmm_free_huge_page] does to a
    protected frame. *)

From S2P Require Import Prelude Spinlock Mem Pmm PmmFacts PmmProps.

(** ** Counted set *)

Definition entry_ok (e : protected_frame) : Prop :=
  0 <= pf_frame e < 2 ^ 64 /\ pf_frame e mod PAGE_SIZE = 0 /\ 0 < pf_refcount e < 2 ^ 32.

Definition table_ok (l : list protected_frame) : Prop := NoDup (pf_frame <$> l) /\ Forall entry_ok l.

Lemma table_ok_perm l l' : l ≡ₚ l' -> table_ok l -> table_ok l'.
Proof. intros Hp [Hn Hf]. split; [by rewrite <- Hp|by rewrite <- Hp]. Qed.

Lemma delete_alter_same {A} (g : A -> A) (l : list A) i : delete i (alter g i l) = delete i l.
Proof. revert i. induction l as [|x l IH]; intros [|i]; try done. simpl. f_equal. apply IH. Qed.

Lemma alter_perm {A} (g : A -> A) (l : list A) i e :
  l !! i = Some e -> l ≡ₚ e :: delete i l /\ alter g i l ≡ₚ g e :: delete i l.
Proof.
  intros Hi. split; [by apply delete_Permutation|].
  rewrite <- (delete_alter_same g l i). apply delete_Permutation.
  rewrite list_lookup_alter_eq. by rewrite Hi.
Qed.

Definition add_entry (l : list protected_frame) (f : Z) : list protected_frame :=
  match find_protected_index l f with
  | Some i => alter (fun e => ProtectedFrame (pf_frame e) (u32 (pf_refcount e + 1))) i l
  | None =>
      if Z.of_nat (length l) <? MAX_PROTECTED_FRAMES then l ++ [ProtectedFrame f 1] else l
  end.

Definition sub_entry (l : list protected_frame) (f : Z) : list protected_frame :=
  match find_protected_index l f with
  | None => l
  | Some i =>
      let rc := default 0 (pf_refcount <$> l !! i) in
      let rc := if rc =? 0 then 0 else rc - 1 in
      let l := alter (fun e => ProtectedFrame (pf_frame e) rc) i l in
      if rc =? 0 then remove_entry l i else l
  end.

(** Adding is possible: the frame has an entry whose count is not at its
    maximum, or the table has room. *)
Definition can_add (l : list protected_frame) (f : Z) : Prop :=
  (0 < prot_count l f /\ prot_count l f < 2 ^ 32 - 1) \/
  (prot_count l f = 0 /\ Z.of_nat (length l) < MAX_PROTECTED_FRAMES).

Lemma table_entry l i e f : table_ok l -> find_protected_index l f = Some i -> l !! i = Some e ->
  pf_frame e = f /\ prot_count l f = pf_refcount e /\ entry_ok e.
Proof.
  intros [Hn Hf] E Hl. pose proof (find_protected_some l f i E) as (e' & Hl' & Hfe).
  assert (e' = e) as -> by congruence. split; [done|].
  split; [|by eapply (Forall_lookup_1 entry_ok)].
  unfold prot_count. rewrite E, Hl. done.
Qed.

Lemma prot_count_fresh l f : f ∉ (pf_frame <$> l) ->
  forall g r, prot_count (ProtectedFrame f r :: l) g = if f =? g then r else prot_count l g.
Proof. intros _ g r. apply prot_count_cons. Qed.

(** Replacing one entry's count. *)
Lemma alter_count l i e r :
  table_ok l -> l !! i = Some e -> 0 < r < 2 ^ 32 ->
  let l' := alter (fun e => ProtectedFrame (pf_frame e) r) i l in
  table_ok l' /\ forall g, prot_count l' g = if pf_frame e =? g then r else prot_count l g.
Proof.
  intros Hok Hi Hr. cbv zeta.
  destruct (alter_perm (fun e => ProtectedFrame (pf_frame e) r) l i e Hi) as [Hp Hp'].
  set (l' := alter _ i l) in *. simpl in Hp'.
  pose proof (table_ok_perm _ _ Hp Hok) as [Hn Hf]. apply Forall_cons_1 in Hf as [He Hf].
  assert (table_ok (ProtectedFrame (pf_frame e) r :: delete i l)) as Hok'.
  { split; [done|]. constructor; [|done]. destruct He as (? & ? & ?). split_and!; simpl; (done || lia). }
  split; [by eapply table_ok_perm; [symmetry|]|]. intros g.
  rewrite (prot_count_perm l' _ g (proj1 (table_ok_perm _ _ (symmetry Hp') Hok')) Hp').
  rewrite (prot_count_perm l _ g (proj1 Hok) Hp). rewrite !prot_count_cons. simpl. by case_if.
Qed.

Lemma add_entry_spec l f :
  table_ok l -> 0 <= f < 2 ^ 64 -> f mod PAGE_SIZE = 0 -> can_add l f ->
  table_ok (add_entry l f) /\
  forall g, prot_count (add_entry l f) g = prot_count l g + (if f =? g then 1 else 0).
Proof.
  intros Hok Hf Ha Hc. unfold add_entry. destruct (find_protected_index l f) as [i|] eqn:E.
  - pose proof (find_protected_some l f i E) as (e & Hl & _).
    destruct (table_entry l i e f Hok E Hl) as (Hfe & Hpc & (_ & _ & Hr)).
    assert (pf_refcount e + 1 < 2 ^ 32) as Hlt by (unfold can_add in Hc; lia).
    replace (alter _ i l) with (alter (fun e => ProtectedFrame (pf_frame e) (prot_count l f + 1)) i l).
    2:{ apply list_alter_ext; [|done]. intros x Hx. assert (x = e) as -> by congruence.
        rewrite u32_small, Hpc by lia. done. }
    destruct (alter_count l i e (prot_count l f + 1) Hok Hl) as [H1 H2]; [lia|].
    split; [done|]. intros g. rewrite H2, Hfe. case_if; [by subst|lia].
  - pose proof (find_protected_none l f E) as Hni. pose proof (prot_count_notin l f Hni) as H0.
    destruct Hc as [Hc|[_ Hc]]; [lia|]. rewrite (proj2 (Z.ltb_lt _ _)) by done.
    assert (ProtectedFrame f 1 :: l ≡ₚ l ++ [ProtectedFrame f 1]) as Hp by apply Permutation_cons_append.
    assert (table_ok (ProtectedFrame f 1 :: l)) as Hok'.
    { destruct Hok as [Hn Hfo]. split; [by constructor|]. constructor; [|done]. split_and!; simpl; (done || lia). }
    split; [by eapply table_ok_perm|]. intros g.
    rewrite <- (prot_count_perm _ _ g (proj1 Hok') Hp), prot_count_cons. simpl. case_if; [subst; lia|lia].
Qed.

Lemma sub_entry_spec l f :
  table_ok l ->
  table_ok (sub_entry l f) /\
  forall g, prot_count (sub_entry l f) g = if f =? g then Z.max 0 (prot_count l g - 1) else prot_count l g.
Proof.
  intros Hok. unfold sub_entry. destruct (find_protected_index l f) as [i|] eqn:E.
  2:{ split; [done|]. intros g. case_if; [|done]. subst g.
      rewrite (prot_count_notin l f (find_protected_none l f E)). done. }
  pose proof (find_protected_some l f i E) as (e & Hl & _).
  destruct (table_entry l i e f Hok E Hl) as (Hfe & Hpc & (_ & _ & Hr)).
  rewrite Hl. simpl. rewrite (proj2 (Z.eqb_neq (pf_refcount e) 0)) by lia.
  destruct (pf_refcount e - 1 =? 0) eqn:E1; zify_bool.
  - set (h := fun e0 => ProtectedFrame (pf_frame e0) (pf_refcount e - 1)).
    assert (remove_entry (alter h i l) i ≡ₚ delete i l) as Hp.
    { apply (Permutation_cons_inv (a := h e)). destruct (alter_perm h l i e Hl) as [_ <-].
      apply remove_entry_perm. rewrite list_lookup_alter_eq. by rewrite Hl. }
    destruct (alter_perm h l i e Hl) as [Hp1 _].
    pose proof (table_ok_perm _ _ Hp1 Hok) as [Hn Hfo].
    assert (table_ok (delete i l)) as Hok'.
    { split; [by inversion Hn|by apply Forall_cons_1 in Hfo as [_ ?]]. }
    pose proof (table_ok_perm _ _ (symmetry Hp) Hok') as Hok''. split; [done|]. intros g.
    rewrite (prot_count_perm _ _ g (proj1 Hok'') Hp).
    rewrite (prot_count_perm _ _ g (proj1 Hok) Hp1), prot_count_cons, Hfe. case_if; [|done]. subst g.
    rewrite prot_count_notin; [lia|]. apply NoDup_cons_1_1 in Hn. by rewrite <- Hfe.
  - destruct (alter_count l i e (pf_refcount e - 1) Hok Hl) as [H1 H2]; [lia|].
    split; [done|]. intros g. rewrite H2, Hfe. case_if; [subst g; lia|done].
Qed.

(** ** Protecting and unprotecting *)

Lemma prot_ok_table s : prot_ok s -> table_ok (protected_frames s).
Proof. intros []. by split. Qed.

Lemma pmm_protect_frame_run s f : inv s -> lock_free (pmm_lock s) -> 0 < f < PADDR_INVALID ->
  pmm_protect_frame s f =
    Some (let b := frame_base f in let i := PADDR_TO_PFN b in
          let s1 := if (i <? total_frames s) && negb (test_frame s i) then take_frame s i else s in
          set_protected s1 (add_entry (protected_frames s) b)).
Proof.
  intros Hi Hl Hf. unfold PADDR_INVALID in Hf. unfold pmm_protect_frame.
  rewrite (proj2 (Z.eqb_neq f 0)), (proj2 (Z.eqb_neq f PADDR_INVALID)) by (unfold PADDR_INVALID; lia).
  cbn [orb]. rewrite normalise_spec, pmm_enter_free by (done || lia). cbn [mbind option_bind].
  set (b := frame_base f). set (i := PADDR_TO_PFN b). set (sl := set_pmm_lock s _).
  change (test_frame sl i) with (test_frame s i). change (total_frames sl) with (total_frames s).
  unfold add_entry. unfold find_protected_frame_unsafe.
  unfold take_frame, set_refcount, count_freed, set_frame, sl. cbn [bitmap_size set_pmm_lock].
  destruct ((i <? total_frames s) && negb (test_frame s i)), (bitmap_size s <=? i / 32);
    destruct (find_protected_index (protected_frames s) b) eqn:Ef; cbn; rewrite ?Ef; cbn;
    try destruct (Z.of_nat (length (protected_frames s)) <? MAX_PROTECTED_FRAMES);
    f_equal; by apply (pmm_leave_restores s).
Qed.

Lemma pmm_unprotect_frame_run s f : lock_free (pmm_lock s) -> 0 < f < PADDR_INVALID ->
  pmm_unprotect_frame s f = Some (set_protected s (sub_entry (protected_frames s) (frame_base f))).
Proof.
  intros Hl Hf. unfold PADDR_INVALID in Hf. unfold pmm_unprotect_frame.
  rewrite (proj2 (Z.eqb_neq f 0)), (proj2 (Z.eqb_neq f PADDR_INVALID)) by (unfold PADDR_INVALID; lia).
  cbn [orb]. rewrite normalise_spec, pmm_enter_free by (done || lia). cbn [mbind option_bind].
  unfold find_protected_frame_unsafe, sub_entry. simpl protected_frames.
  destruct (find_protected_index _ (frame_base f)); f_equal; rewrite (pmm_leave_restores s) by done.
  - done.
  - by destruct s.
Qed.

Lemma pmm_is_frame_protected_run s f : prot_ok s -> lock_free (pmm_lock s) -> 0 < f < PADDR_INVALID ->
  pmm_is_frame_protected s f = Some (0 <? prot_count (protected_frames s) (frame_base f), s).
Proof.
  intros Hp Hl Hf. unfold PADDR_INVALID in Hf. unfold pmm_is_frame_protected.
  rewrite (proj2 (Z.eqb_neq f 0)), (proj2 (Z.eqb_neq f PADDR_INVALID)) by (unfold PADDR_INVALID; lia).
  cbn [orb]. rewrite normalise_spec, pmm_enter_free by (done || lia). cbn [mbind option_bind].
  rewrite <- is_protected_spec by done. by rewrite pmm_leave_restores, set_pmm_lock_id.
Qed.

Lemma prot_ok_of_table s l :
  table_ok l -> (forall e, e ∈ l -> PADDR_TO_PFN (pf_frame e) < total_frames s ->
                   test_frame s (PADDR_TO_PFN (pf_frame e)) = true) -> prot_ok (set_protected s l).
Proof. intros [Hn Hf] Hu. by constructor. Qed.

Lemma count_in_table l g : table_ok l -> 0 < prot_count l g -> exists e, e ∈ l /\ pf_frame e = g.
Proof.
  intros Hok Hg. destruct (decide (g ∈ (pf_frame <$> l))) as [Hin|Hout].
  - apply list_elem_of_fmap in Hin as (e & -> & He). by exists e.
  - rewrite prot_count_notin in Hg by done. lia.
Qed.

Lemma table_count l e : table_ok l -> e ∈ l -> 0 < prot_count l (pf_frame e).
Proof.
  intros [Hn Hf] He. rewrite prot_count_in by done.
  pose proof (proj1 (Forall_forall _ _) Hf e (proj1 (list_elem_of_In _ _) He)) as (_ & _ & ?). lia.
Qed.

(** Protecting in any state: the frame is in use afterwards. *)
Lemma protect_effect s f :
  inv s -> lock_free (pmm_lock s) -> 0 < f < PADDR_INVALID ->
  exists s', pmm_protect_frame s f = Some s' /\ inv s' /\ total_frames s' = total_frames s /\
    pmm_lock s' = pmm_lock s /\ protected_frames s' = add_entry (protected_frames s) (frame_base f) /\
    (forall j, 0 <= j -> test_frame s' j =
       ((PADDR_TO_PFN (frame_base f) =? j) && (j <? total_frames s)) || test_frame s j).
Proof.
  intros Hi Hl Hf. rewrite pmm_protect_frame_run by done. cbv zeta.
  assert (0 <= f < 2 ^ 64) as Hf64 by (unfold PADDR_INVALID in Hf; lia).
  pose proof (frame_base_range f Hf64) as Hbr. set (b := frame_base f) in *. set (i := PADDR_TO_PFN b).
  pose proof (pfn_nonneg b ltac:(lia)) as Hin. fold i in Hin.
  eexists. split; [done|]. destruct ((i <? total_frames s) && negb (test_frame s i)) eqn:E; zify_bool.
  - split; [by apply inv_protected, inv_take_frame|]. simpl. autorewrite with pmm. split_and!; try done.
    intros j Hj. change (test_frame (set_protected (take_frame s i) (add_entry (protected_frames s) b)) j) with (test_frame (take_frame s i) j).
    rewrite test_take_frame by (try apply inv_shape; done || lia).
    destruct (i =? j) eqn:Ej; zify_bool; [|done]. subst j. by rewrite (proj2 (Z.ltb_lt _ _)) by lia.
  - split; [by apply inv_protected|]. split_and!; try done. intros j Hj.
    change (test_frame (set_protected s (add_entry (protected_frames s) b)) j) with (test_frame s j).
    destruct (i =? j) eqn:Ej; [|done]. zify_bool. subst j.
    destruct (i <? total_frames s) eqn:Et; [|done]. destruct E as [E|E]; [zify_bool; lia|].
    apply negb_false_iff in E. by rewrite E.
Qed.

(** A full table stays as it is. *)
Lemma add_entry_any l f : table_ok l -> 0 <= f < 2 ^ 64 -> f mod PAGE_SIZE = 0 -> prot_count l f < 2 ^ 32 - 1 ->
  table_ok (add_entry l f) /\
  exists b, 0 <= b <= 1 /\ (b = 1 \/ MAX_PROTECTED_FRAMES <= Z.of_nat (length l)) /\ forall x, prot_count (add_entry l f) x = prot_count l x + (if f =? x then b else 0).
Proof.
  intros Hok Hf Ha Hc. destruct (decide (can_add l f)) as [Hadd|Hno].
  - destruct (add_entry_spec l f Hok Hf Ha Hadd) as [H1 H2]. split; [done|]. exists 1. split; [lia|]. split; [by left|done].
  - unfold add_entry. destruct (find_protected_index l f) as [i|] eqn:Ei.
    + destruct (find_protected_some l f i Ei) as (e & Hl & _). destruct (table_entry l i e f Hok Ei Hl) as (_ & Hp & _ & _ & Hr).
      exfalso. apply Hno. left. lia.
    + case_if; [exfalso; apply Hno; right; split; [by apply prot_count_notin, find_protected_none|lia]|].
      split; [done|]. exists 0. split; [lia|]. split; [right; lia|]. intros x. case_if; lia.
Qed.

Lemma add_entry_length l f : (length l <= length (add_entry l f))%nat.
Proof.
  unfold add_entry. destruct (find_protected_index l f); [by rewrite length_alter|]. case_if; [|done].
  rewrite length_app. simpl. lia.
Qed.

Lemma protect_prot_ok s f s' :
  inv s -> lock_free (pmm_lock s) -> 0 < f < PADDR_INVALID -> prot_ok s ->
  prot_count (protected_frames s) (frame_base f) < 2 ^ 32 - 1 ->
  pmm_protect_frame s f = Some s' -> prot_ok s'.
Proof.
  intros Hi Hl Hf Hp Hc E. destruct (protect_effect s f Hi Hl Hf) as (s1 & E1 & H1 & H2 & H3 & H5 & H4).
  simplify_eq. assert (0 <= f < 2 ^ 64) as Hf64 by (unfold PADDR_INVALID in Hf; lia).
  pose proof (frame_base_range f Hf64) as Hbr.
  destruct (add_entry_any (protected_frames s) _ (prot_ok_table s Hp) Hbr (frame_base_aligned f) Hc) as (A1 & b & Hb & _ & A2).
  rewrite <- H5 in *. constructor; [apply A1..|]. intros e He Hlt. rewrite H2 in Hlt.
  pose proof (proj1 (Forall_forall _ _) (proj2 A1) e (proj1 (list_elem_of_In _ _) He)) as (Hr & _).
  pose proof (pfn_nonneg (pf_frame e) ltac:(lia)). rewrite H4 by done.
  pose proof (table_count _ e A1 He) as Hcnt. specialize (A2 (pf_frame e)). case_if_in A2.
  - rewrite Hif, Z.eqb_refl, (proj2 (Z.ltb_lt _ _)) by lia. done.
  - destruct (count_in_table (protected_frames s) (pf_frame e)) as (e' & He' & Hfe); [by apply prot_ok_table|lia|].
    rewrite <- Hfe in *. rewrite (po_used s Hp e' He') by lia. apply orb_true_r.
Qed.

Lemma can_add_count l f : can_add l f -> prot_count l f < 2 ^ 32 - 1.
Proof. unfold can_add. lia. Qed.

Lemma protect_keeps s f :
  inv s -> prot_ok s -> lock_free (pmm_lock s) -> 0 < f < PADDR_INVALID ->
  can_add (protected_frames s) (frame_base f) ->
  exists s', pmm_protect_frame s f = Some s' /\ keeps s s' /\
    protected_frames s' = add_entry (protected_frames s) (frame_base f) /\
    (forall j, 0 <= j -> test_frame s' j =
       ((PADDR_TO_PFN (frame_base f) =? j) && (j <? total_frames s)) || test_frame s j).
Proof.
  intros Hi Hp Hl Hf Hc. destruct (protect_effect s f Hi Hl Hf) as (s' & E & H1 & H2 & H3 & H5 & H4).
  exists s'. split; [done|]. split; [|done]. split_and!; try done.
  by apply (protect_prot_ok s f); [..|apply can_add_count|].
Qed.

Lemma unprotect_keeps s f :
  inv s -> prot_ok s -> lock_free (pmm_lock s) -> 0 < f < PADDR_INVALID ->
  keeps s (set_protected s (sub_entry (protected_frames s) (frame_base f))).
Proof.
  intros Hi Hp Hl Hf. split; [by apply inv_protected|]. split; [|done].
  destruct (sub_entry_spec (protected_frames s) (frame_base f) (prot_ok_table s Hp)) as [A1 A2].
  apply prot_ok_of_table; [done|]. intros e He Hlt.
  pose proof (table_count _ e A1 He) as Hcnt. rewrite A2 in Hcnt.
  destruct (count_in_table (protected_frames s) (pf_frame e)) as (e' & He' & Hfe);
    [by apply prot_ok_table|case_if_in Hcnt; lia|].
  rewrite <- Hfe in *. by apply (po_used s Hp e' He').
Qed.

(** Protection is a counted set of page frames.  Protecting an
    address adds one to the count of the frame that contains it and to no
    other, marks that frame used, and the frame is then reported protected;
    unprotecting takes one away (never below zero), the swap with the last
    entry losing nothing, and the frame stays protected exactly while a
    count remains.  Both keep the invariants. *)
Theorem protection_counted_set s f :
  inv s -> prot_ok s -> lock_free (pmm_lock s) -> 0 < f < PADDR_INVALID ->
  can_add (protected_frames s) (frame_base f) ->
  (exists s', pmm_protect_frame s f = Some s' /\ keeps s s' /\
     (forall g, prot_count (protected_frames s') g =
                prot_count (protected_frames s) g + (if frame_base f =? g then 1 else 0)) /\
     (PADDR_TO_PFN (frame_base f) < total_frames s -> test_frame s' (PADDR_TO_PFN (frame_base f)) = true) /\
     pmm_is_frame_protected s' f = Some (true, s')) /\
  (exists s', pmm_unprotect_frame s f = Some s' /\ keeps s s' /\
     (forall g, prot_count (protected_frames s') g =
                if frame_base f =? g then Z.max 0 (prot_count (protected_frames s) g - 1)
                else prot_count (protected_frames s) g) /\
     pmm_is_frame_protected s' f =
       Some (1 <? prot_count (protected_frames s) (frame_base f), s')).
Proof.
  intros Hi Hp Hl Hf Hc. assert (0 <= f < 2 ^ 64) as Hf64 by (unfold PADDR_INVALID in Hf; lia).
  pose proof (frame_base_range f Hf64) as Hbr. split.
  - destruct (protect_keeps s f Hi Hp Hl Hf Hc) as (s' & E & Hk & Hpf & Ht). exists s'. split; [done|]. split; [done|].
    destruct (add_entry_spec _ _ (prot_ok_table s Hp) Hbr (frame_base_aligned f) Hc) as [A1 A2].
    rewrite <- Hpf in *. split; [done|]. split.
    + intros Hlt. rewrite Ht by (apply pfn_nonneg; lia). rewrite Z.eqb_refl, (proj2 (Z.ltb_lt _ _)) by lia. done.
    + destruct Hk as (_ & Hp' & Hl' & _). rewrite pmm_is_frame_protected_run by (done || by rewrite Hl').
      rewrite A2, Z.eqb_refl. rewrite (proj2 (Z.ltb_lt _ _)); [done|]. destruct Hc as [[? ?]|[-> ?]]; lia.
  - rewrite pmm_unprotect_frame_run by done. eexists. split; [done|].
    pose proof (unprotect_keeps s f Hi Hp Hl Hf) as Hk. split; [done|].
    destruct (sub_entry_spec _ (frame_base f) (prot_ok_table s Hp)) as [A1 A2]. split; [done|].
    rewrite pmm_is_frame_protected_run by (done || apply Hk). simpl. rewrite A2, Z.eqb_refl.
    do 2 f_equal. apply Bool.eq_iff_eq_true. rewrite !Z.ltb_lt. lia.
Qed.

(** ** Freeing huge pages, reserving the heap *)

Definition released (s s' : pmm) (i n : Z) : Prop :=
  forall j, 0 <= j ->
    test_frame s' j = test_frame s j && negb (in_range i n j && (refcount s j <=? 1)).

Lemma release_frames_spec n : forall s i,
  inv s -> 0 <= i -> i + Z.of_nat n <= total_frames s ->
  inv (release_frames n s i) /\ released s (release_frames n s i) i (Z.of_nat n) /\
  same_rest s (release_frames n s i).
Proof.
  induction n as [|n IH]; intros s i Hi H0 Hn; cbn [release_frames].
  { split; [done|]. split; [|done]. intros j Hj. unfold in_range.
    destruct ((i <=? j) && (j <? i + Z.of_nat 0)) eqn:E; [zify_bool; lia|]. simpl. by rewrite andb_true_r. }
  pose proof (inv_shape s Hi) as Hs. set (s1 := if negb (test_frame s i) then s else _).
  assert (inv s1 /\ same_rest s s1 /\
    (forall j, 0 <= j -> test_frame s1 j = test_frame s j && negb ((i =? j) && (refcount s j <=? 1))) /\
    (forall j, 0 <= j -> j <> i -> refcount s1 j = refcount s j)) as (H1 & (R1 & R2 & R3 & R4) & H2 & H3).
  { unfold s1. destruct (test_frame s i) eqn:Et; simpl.
    2:{ split_and!; try done. intros j Hj. destruct (i =? j) eqn:E; [|by rewrite andb_true_r].
        zify_bool. subst j. by rewrite Et. }
    destruct (1 <? refcount s i) eqn:Er; zify_bool.
    - split; [by apply inv_set_refcount|]. split; [done|]. split; intros j Hj.
      + destruct (i =? j) eqn:E; [|by rewrite andb_true_r]. zify_bool. subst j.
        rewrite (proj2 (Z.leb_gt _ _)) by lia. by rewrite andb_true_r.
      + intros Hne. rewrite refcount_set by (done || lia). by rewrite (proj2 (Z.eqb_neq i j)) by lia.
    - assert (inv (set_refcount s i 0)) as Hi0 by (by apply inv_set_refcount).
      split; [apply (inv_drop_frame (set_refcount s i 0)); simpl; (done || lia)|]. split; [done|]. split; intros j Hj.
      + change (test_frame (count_freed (clear_frame (set_refcount s i 0) i) 1) j) with (test_frame (clear_frame s i) j). rewrite test_clear_frame by (done || lia).
        destruct (i =? j) eqn:E; simpl; [|by rewrite andb_true_r]. zify_bool. subst j.
        rewrite (proj2 (Z.leb_le _ _)) by lia. by rewrite andb_false_r.
      + intros Hne. change (refcount (count_freed (clear_frame (set_refcount s i 0) i) 1) j) with (refcount (set_refcount s i 0) j).
        rewrite refcount_set by (done || lia). by rewrite (proj2 (Z.eqb_neq i j)) by lia. }
  destruct (IH s1 (i + 1) H1 ltac:(lia) ltac:(lia)) as (G1 & G2 & (Q1 & Q2 & Q3 & Q4)).
  split; [done|]. split; [|unfold same_rest; split_and!; congruence].
  intros j Hj. rewrite G2, H2 by done. unfold in_range. destruct (decide (j = i)) as [->|Hne].
  - rewrite Z.eqb_refl, (proj2 (Z.leb_gt (i + 1) i)), (proj2 (Z.leb_le i i)), (proj2 (Z.ltb_lt i (i + _))) by lia.
    simpl. by rewrite andb_true_r.
  - rewrite H3 by done. rewrite (proj2 (Z.eqb_neq i j)) by lia. simpl. rewrite andb_true_r. do 3 f_equal.
    apply Bool.eq_iff_eq_true. rewrite !andb_true_iff, !Z.leb_le, !Z.ltb_lt. lia.
Qed.

Lemma reserve_frames_spec n : forall s i,
  inv s -> 0 <= i -> i + Z.of_nat n <= total_frames s ->
  inv (reserve_frames n s i) /\ same_rest s (reserve_frames n s i) /\
  (forall j, 0 <= j -> test_frame (reserve_frames n s i) j = in_range i (Z.of_nat n) j || test_frame s j).
Proof.
  induction n as [|n IH]; intros s i Hi H0 Hn; cbn [reserve_frames].
  { split; [done|]. split; [done|]. intros j Hj. unfold in_range.
    destruct ((i <=? j) && (j <? i + Z.of_nat 0)) eqn:E; [zify_bool; lia|done]. }
  pose proof (inv_shape s Hi) as Hs. fold (take_frame s i).
  set (s1 := if negb (test_frame s i) then take_frame s i else s).
  assert (inv s1 /\ same_rest s s1 /\
    (forall j, 0 <= j -> test_frame s1 j = (i =? j) || test_frame s j)) as (H1 & (R1 & R2 & R3 & R4) & H2).
  { unfold s1. destruct (test_frame s i) eqn:Et; simpl.
    - split_and!; try done. intros j Hj. destruct (i =? j) eqn:E; [|done]. zify_bool. by subst j.
    - split; [apply inv_take_frame; (done || lia)|]. split; [unfold same_rest; simpl; by autorewrite with pmm|].
      intros j Hj. apply test_take_frame; (done || lia). }
  destruct (IH s1 (i + 1) H1 ltac:(lia) ltac:(lia)) as (G1 & (Q1 & Q2 & Q3 & Q4) & G2).
  split; [done|]. split; [unfold same_rest; split_and!; congruence|].
  intros j Hj. rewrite G2, H2 by done. unfold in_range.
  destruct (test_frame s j); [by rewrite !orb_true_r|]. rewrite !orb_false_r.
  apply Bool.eq_iff_eq_true. rewrite orb_true_iff, !andb_true_iff, !Z.leb_le, !Z.ltb_lt, Z.eqb_eq. lia.
Qed.

(** No frame of the huge page is protected. *)
Definition huge_unprotected (s : pmm) (h : Z) : Prop :=
  forall i, in_range (PADDR_TO_PFN h) frames_needed i = true -> is_protected s (i * PAGE_SIZE) = false.

Lemma pmm_free_huge_page_effect s h :
  inv s -> lock_free (pmm_lock s) -> 0 <= h < 2 ^ 64 ->
  exists s', pmm_free_huge_page s h = Some s' /\ inv s' /\ (prot_ok s -> huge_unprotected s h -> prot_ok s') /\
    pmm_lock s' = pmm_lock s /\ total_frames s' = total_frames s.
Proof.
  intros Hi Hl Hh. unfold pmm_free_huge_page.
  destruct (negb (pmm_is_huge_page_aligned h)); [by exists s|].
  destruct ((h =? 0) || (h =? PADDR_INVALID)); [by exists s|].
  destruct (total_frames s <? PADDR_TO_PFN h + frames_needed) eqn:Et; [by exists s|]. zify_bool.
  rewrite pmm_enter_free by done. cbn [mbind option_bind]. pose proof (pfn_nonneg h ltac:(lia)) as Hn.
  unfold huge_unprotected. set (i := PADDR_TO_PFN h) in *.
  assert (Z.of_nat (Z.to_nat frames_needed) = frames_needed) as Hn512 by done.
  generalize dependent (Z.to_nat frames_needed). intros n Hn512.
  destruct (release_frames_spec n (set_pmm_lock s (LockSt SPINLOCK_LOCKED false)) i)
    as (G1 & G2 & (Q1 & Q2 & Q3 & Q4)); [by apply inv_lock|done|rewrite Hn512; simpl; lia|].
  set (s1 := release_frames n _ i) in *. rewrite Hn512 in G2. clear Hn512.
  set (s2 := if i / 32 <? last_free_index s1 then _ else s1).
  assert (inv s2 /\ same_rest s1 s2 /\ same_used s1 s2) as (H1 & (R1 & R2 & R3 & R4) & H2).
  { unfold s2. pose proof (sh_hint _ (inv_shape _ G1)). case_if; [|done].
    split; [|done]. apply inv_hint; [done|]. pose proof (Z.div_pos i 32). lia. }
  eexists. split; [done|]. rewrite (pmm_leave_restores s); [|done|by rewrite R3, Q3].
  split; [by apply inv_lock|]. split; [|split; [done|by simpl; rewrite R1, Q1]].
  intros Hp Hu. eapply prot_ok_mono; [exact Hp|by simpl; rewrite R2, Q2|by simpl; rewrite R1, Q1|].
  intros j Hj Ht Hpj. change (test_frame (set_pmm_lock s2 _) j) with (test_frame s2 j).
  rewrite H2, G2 by done. change (test_frame (set_pmm_lock s _) j) with (test_frame s j). rewrite Ht.
  destruct (in_range i frames_needed j) eqn:Er; [|done]. rewrite Hu in Hpj by done. done.
Qed.

Lemma set_heap_reserved_respects a s v w :
  inv s -> respects s (pmm_set_heap_reserved_range a s v w).
Proof.
  intros Hi. unfold pmm_set_heap_reserved_range.
  destruct ((KERNEL_VIRTUAL_BASE a <=? v) && (v <? w)); [|done]. cbv zeta. simpl heap_reserved_phys_start.
  set (s1 := set_heap_reserved s _ _). simpl heap_reserved_phys_end.
  assert (inv s1) as Hi1 by (destruct Hi as [[]]; by constructor).
  pose proof (pfn_nonneg (VIRT_TO_PHYS a v) (proj1 (uptr_range a _))) as H0.
  set (i := PADDR_TO_PFN (VIRT_TO_PHYS a v)) in *. set (e := Z.min _ (total_frames s1)).
  destruct (decide (i <= total_frames s)) as [Hle|Hgt].
  - assert (i + Z.of_nat (Z.to_nat (e - i)) <= total_frames s1) by (simpl in *; lia).
    destruct (reserve_frames_spec (Z.to_nat (e - i)) s1 i Hi1 H0 ltac:(done)) as (G1 & (Q1 & Q2 & Q3 & Q4) & G2).
    split; [done|]. split; [|split; [by rewrite Q3|by rewrite Q1]].
    intros Hp. eapply (prot_ok_mono s); [done|done|done|]. intros j Hj Ht _. rewrite G2 by done.
    change (test_frame s1 j) with (test_frame s j). rewrite Ht. apply orb_true_r.
  - replace (Z.to_nat (e - i)) with O by (simpl in *; lia). cbn [reserve_frames].
    split; [done|]. split; [|done]. intros Hp. by eapply same_used_prot.
Qed.

Lemma ref_inc_respects s f : inv s -> lock_free (pmm_lock s) -> 0 <= f < 2 ^ 64 ->
  exists r s', pmm_frame_ref_inc s f = Some (r, s') /\ respects s s'.
Proof.
  intros Hi Hl Hf. rewrite pmm_frame_ref_inc_run by done. cbv zeta.
  destruct (ref_target s f); [|by eexists _, _]. case_if; [by eexists _, _|].
  eexists _, _. split; [done|]. split; [by apply inv_set_refcount|]. split; [|done]. intros Hp. by eapply same_used_prot.
Qed.

Lemma ref_dec_respects s f : inv s -> lock_free (pmm_lock s) -> 0 <= f < 2 ^ 64 ->
  exists r s', pmm_frame_ref_dec s f = Some (r, s') /\ respects s s'.
Proof.
  intros Hi Hl Hf. rewrite pmm_frame_ref_dec_run by done. cbv zeta.
  destruct (ref_target s f); [|by eexists _, _]. case_if; [by eexists _, _|].
  eexists _, _. split; [done|]. split; [by apply inv_set_refcount|]. split; [|done]. intros Hp. by eapply same_used_prot.
Qed.

Lemma free_frame_respects s f : inv s -> lock_free (pmm_lock s) -> 0 <= f < 2 ^ 64 ->
  exists s', pmm_free_frame s f = Some s' /\ respects s s'.
Proof.
  intros Hi Hl Hf. eexists. split; [by apply pmm_free_frame_run|].
  destruct (freeable s f) eqn:E; [|done]. apply release_one_respects; (done || lia).
Qed.

Lemma free_frames_respects a n f : forall s i, inv s -> lock_free (pmm_lock s) ->
  exists s', free_frames_from a n s f i = Some s' /\ respects s s'.
Proof.
  induction n as [|n IH]; intros s i Hi Hl; cbn [free_frames_from]; [by exists s|].
  destruct (free_frame_respects s (u64 (f + uptr a (i * PAGE_SIZE))) Hi Hl) as (s1 & -> & K1).
  { apply Z.mod_pos_bound. lia. }
  pose proof K1 as (Hi1 & _ & Hl1 & _). cbn [mbind option_bind].
  destruct (IH s1 (i + 1) Hi1) as (s2 & -> & K2); [by rewrite Hl1|].
  exists s2. split; [done|]. by eapply respects_trans.
Qed.

(** ** Every sequence of calls *)

(** The calls of the public interface that change the state. *)
Inductive pmm_call :=
| CallAlloc | CallAllocZone (z : pmm_zone)
| CallAllocFrames (n : Z) | CallAllocFramesZone (n : Z) (z : pmm_zone)
| CallAllocHuge | CallAllocHugeZone (z : pmm_zone)
| CallFree (f : Z) | CallFreeFrames (f n : Z) | CallFreeHuge (h : Z)
| CallRefInc (f : Z) | CallRefDec (f : Z)
| CallProtect (f : Z) | CallUnprotect (f : Z)
| CallReserve (v w : Z).

(** Arguments of the type of the parameter. *)
Definition call_typed (c : pmm_call) : Prop :=
  match c with
  | CallAllocFrames n | CallAllocFramesZone n _ => 0 <= n
  | CallFree f | CallRefInc f | CallRefDec f | CallProtect f | CallUnprotect f | CallFreeHuge f => 0 <= f < 2 ^ 64
  | _ => True
  end.

Section steps.
Context (a : arch).

(** The call; [None] if it does not return. *)
Definition pmm_do (c : pmm_call) (s : pmm) : option pmm :=
  match c with
  | CallAlloc => snd <$> pmm_alloc_frame a s
  | CallAllocZone z => snd <$> pmm_alloc_frame_zone a s z
  | CallAllocFrames n => snd <$> pmm_alloc_frames a s n
  | CallAllocFramesZone n z => snd <$> pmm_alloc_frames_zone a s n z
  | CallAllocHuge => snd <$> pmm_alloc_huge_page a s
  | CallAllocHugeZone z => snd <$> pmm_alloc_huge_page_zone a s z
  | CallFree f => pmm_free_frame s f
  | CallFreeFrames f n => pmm_free_frames a s f n
  | CallFreeHuge h => pmm_free_huge_page s h
  | CallRefInc f => snd <$> pmm_frame_ref_inc s f
  | CallRefDec f => snd <$> pmm_frame_ref_dec s f
  | CallProtect f => pmm_protect_frame s f
  | CallUnprotect f => pmm_unprotect_frame s f
  | CallReserve v w => Some (pmm_set_heap_reserved_range a s v w)
  end.

Fixpoint pmm_calls (cs : list pmm_call) (s : pmm) : option pmm :=
  match cs with
  | [] => Some s
  | c :: cs => pmm_do c s ≫= pmm_calls cs
  end.

(** The two calls that do not respect protection are left out: freeing a
    huge page of which a frame is protected, and protecting a frame
    [2^32 - 1] times over. *)
Definition careful (c : pmm_call) (s : pmm) : Prop :=
  match c with
  | CallFreeHuge h => huge_unprotected s h
  | CallProtect f => prot_count (protected_frames s) (frame_base f) < 2 ^ 32 - 1
  | _ => True
  end.

Fixpoint careful_calls (cs : list pmm_call) (s : pmm) : Prop :=
  match cs with
  | [] => True
  | c :: cs => careful c s /\ forall s', pmm_do c s = Some s' -> careful_calls cs s'
  end.

Definition good (s : pmm) : Prop := inv s /\ prot_ok s /\ lock_free (pmm_lock s) /\ addressable a s.

(** What a call guarantees: the counters, the lock, and, if it is careful,
    the protected frames. *)
Definition call_keeps (c : pmm_call) (s s' : pmm) : Prop :=
  inv s' /\ (prot_ok s -> careful c s -> prot_ok s') /\ pmm_lock s' = pmm_lock s /\ total_frames s' = total_frames s.

Lemma respects_call c s s' : respects s s' -> call_keeps c s s'.
Proof. intros (? & ? & ? & ?). by split_and!; auto. Qed.

(** The call returns a pair of which the state is kept. *)
Lemma call_pair {A} c s (o : option (A * pmm)) :
  (exists r s', o = Some (r, s') /\ respects s s') -> exists s', snd <$> o = Some s' /\ call_keeps c s s'.
Proof. intros (r & s' & -> & K). exists s'. split; [done|]. by apply respects_call. Qed.

Lemma call_unit c s o : (exists s', o = Some s' /\ respects s s') -> exists s', o = Some s' /\ call_keeps c s s'.
Proof. intros (s' & -> & K). exists s'. split; [done|]. by apply respects_call. Qed.

Lemma protection_argument f : 0 <= f < 2 ^ 64 -> ((f =? 0) || (f =? PADDR_INVALID)) = false -> 0 < f < PADDR_INVALID.
Proof. unfold PADDR_INVALID. intros. zify_bool. lia. Qed.

Lemma pmm_alloc_frames_respects s n : inv s -> lock_free (pmm_lock s) -> addressable a s -> 0 <= n ->
  exists r s', pmm_alloc_frames a s n = Some (r, s') /\ respects s s'.
Proof.
  intros Hi Hl Ha H. destruct (decide (2 <= n)) as [Hn|Hn].
  - destruct (pmm_alloc_frames_spec a s n Hi Hl Ha Hn) as (r & s' & ? & ? & _). by exists r, s'.
  - unfold pmm_alloc_frames. case_if; [by exists PADDR_INVALID, s|]. case_if; [|lia]. by apply pmm_alloc_frame_respects.
Qed.

Lemma pmm_alloc_frames_zone_respects s n z : inv s -> lock_free (pmm_lock s) -> addressable a s -> 0 <= n ->
  exists r s', pmm_alloc_frames_zone a s n z = Some (r, s') /\ respects s s'.
Proof.
  intros Hi Hl Ha H. destruct (decide (1 <= n)) as [Hn|Hn].
  - destruct (pmm_alloc_frames_zone_spec a s n z Hi Hl Ha Hn) as (r & s' & ? & ? & _). by exists r, s'.
  - replace n with 0 by lia. by exists PADDR_INVALID, s.
Qed.

Lemma protect_call s f : inv s -> lock_free (pmm_lock s) -> 0 <= f < 2 ^ 64 ->
  exists s', pmm_protect_frame s f = Some s' /\ call_keeps (CallProtect f) s s'.
Proof.
  intros Hi Hl Hf. destruct ((f =? 0) || (f =? PADDR_INVALID)) eqn:E.
  - exists s. split; [|done]. unfold pmm_protect_frame. by rewrite E.
  - apply protection_argument in E; [|done]. destruct (protect_effect s f Hi Hl E) as (s' & R & H1 & H2 & H3 & _).
    exists s'. split; [done|]. split_and!; try done. intros Hp Hc. by apply (protect_prot_ok s f).
Qed.

Lemma unprotect_call s f : inv s -> lock_free (pmm_lock s) -> 0 <= f < 2 ^ 64 ->
  exists s', pmm_unprotect_frame s f = Some s' /\ call_keeps (CallUnprotect f) s s'.
Proof.
  intros Hi Hl Hf. destruct ((f =? 0) || (f =? PADDR_INVALID)) eqn:E.
  - exists s. split; [|done]. unfold pmm_unprotect_frame. by rewrite E.
  - apply protection_argument in E; [|done]. rewrite pmm_unprotect_frame_run by done. eexists. split; [done|].
    split; [by apply inv_protected|]. split; [|done]. intros Hp _. by apply unprotect_keeps.
Qed.

Lemma pmm_do_keeps c s : inv s -> lock_free (pmm_lock s) -> addressable a s -> call_typed c ->
  exists s', pmm_do c s = Some s' /\ call_keeps c s s'.
Proof.
  intros Hi Hl Ha Hc. destruct c; simpl in Hc |- *.
  - by apply call_pair, pmm_alloc_frame_respects.
  - by apply call_pair, pmm_alloc_frame_respects.
  - by apply call_pair, pmm_alloc_frames_respects.
  - by apply call_pair, pmm_alloc_frames_zone_respects.
  - apply call_pair. destruct (pmm_alloc_huge_page_spec a s ZONE_DMA Hi Hl Ha) as [(r & s' & ? & ? & _) _]. by exists r, s'.
  - apply call_pair. destruct (pmm_alloc_huge_page_spec a s z Hi Hl Ha) as [_ (r & s' & ? & ? & _)]. by exists r, s'.
  - by apply call_unit, free_frame_respects.
  - by apply call_unit, free_frames_respects.
  - by apply pmm_free_huge_page_effect.
  - by apply call_pair, ref_inc_respects.
  - by apply call_pair, ref_dec_respects.
  - by apply protect_call.
  - by apply unprotect_call.
  - eexists. split; [done|]. apply respects_call. by apply set_heap_reserved_respects.
Qed.

Lemma pmm_calls_keep cs : forall s,
  inv s -> lock_free (pmm_lock s) -> addressable a s -> Forall call_typed cs ->
  exists s', pmm_calls cs s = Some s' /\ inv s' /\ lock_free (pmm_lock s') /\ addressable a s' /\
    (prot_ok s -> careful_calls cs s -> prot_ok s').
Proof.
  induction cs as [|c cs IH]; intros s Hi Hl Ha Hc; [by exists s|].
  apply Forall_cons_1 in Hc as [Hc Hcs]. destruct (pmm_do_keeps c s Hi Hl Ha Hc) as (s1 & E & K1 & K2 & K3 & K4).
  cbn [pmm_calls careful_calls]. rewrite E. cbn [mbind option_bind].
  destruct (IH s1 K1) as (s' & E' & H1 & H2 & H3 & H4); [by rewrite K3|unfold addressable; by rewrite K4|done|].
  exists s'. split_and!; try done. intros Hp [C1 C2]. apply H4; auto.
Qed.

(** C3: System invariant of the PMM.  Every sequence of calls of the public
    operations from a good state, with any arguments of their types, returns;
    afterwards the free and used counters equal what the bitmap holds, the
    tables keep their shape and the lock is free again.  Every protected frame
    is then marked used too, provided no call of the sequence freed a huge
    page of which a frame was protected and no frame was protected more than
    [2^32 - 1] times. *)
Theorem pmm_reachable_good cs s :
  good s -> Forall call_typed cs ->
  exists s', pmm_calls cs s = Some s' /\ inv s' /\ lock_free (pmm_lock s') /\ addressable a s' /\
    (careful_calls cs s -> prot_ok s').
Proof.
  intros (Hi & Hp & Hl & Ha) Hc. destruct (pmm_calls_keep cs s Hi Hl Ha Hc) as (s' & ? & ? & ? & ? & ?).
  exists s'. split_and!; auto.
Qed.

End steps.

(** ** The consistency check *)

Lemma cnt_head f n : cnt f (S n) = (if f 0 then 1 else 0) + cnt (fun j => f (j + 1)) n.
Proof.
  induction n as [|n IH]; [simpl; by rewrite Z.add_0_r|].
  change (cnt f (S (S n))) with (cnt f (S n) + (if f (Z.of_nat (S n)) then 1 else 0)).
  rewrite IH. cbn [cnt]. replace (Z.of_nat n + 1) with (Z.of_nat (S n)) by lia. rewrite Z.add_assoc. done.
Qed.

Lemma tally_frames_spec n s : forall i cf cu,
  tally_frames n s i cf cu =
    (cf + cnt (fun j => frame_free s (i + j)) n, cu + (Z.of_nat n - cnt (fun j => frame_free s (i + j)) n)).
Proof.
  induction n as [|n IH]; intros i cf cu; cbn [tally_frames]; [f_equal; simpl; lia|].
  rewrite cnt_head, Z.add_0_r. 
  assert (cnt (fun j => frame_free s (i + (j + 1))) n = cnt (fun j => frame_free s (i + 1 + j)) n) as ->.
  { apply cnt_ext. intros. f_equal. lia. }
  unfold frame_free at 1 3. destruct (test_frame s i); simpl negb; rewrite IH; f_equal; lia.
Qed.

(** The consistency check decides what it is meant to: it reports
    consistency exactly when the two counters equal the bitmap's counts and
    every protected frame is in range, and it changes nothing. *)
Theorem pmm_verify_consistency_correct s :
  shape s -> lock_free (pmm_lock s) ->
  exists b, pmm_verify_consistency s = Some (b, s) /\
    (b = true <-> pi_free_frames (info s) = nfree s /\
                  pi_used_frames (info s) = total_frames s - nfree s /\
                  forall e, e ∈ protected_frames s -> PADDR_TO_PFN (pf_frame e) < total_frames s).
Proof.
  intros Hs Hl. pose proof (sh_total s Hs). unfold pmm_verify_consistency.
  rewrite pmm_enter_free by done. cbn [mbind option_bind]. rewrite tally_frames_spec.
  eexists. rewrite pmm_leave_restores, set_pmm_lock_id by done. split; [done|]. simpl.
  rewrite !Z2Nat.id by lia.
  change (cnt _ (Z.to_nat (total_frames s))) with (nfree s).
  rewrite (proj2 (Z.eqb_eq (nfree s + (total_frames s - nfree s)) _)) by lia.
  set (ex := existsb _ _).
  assert (ex = false <-> forall e, e ∈ protected_frames s -> PADDR_TO_PFN (pf_frame e) < total_frames s) as <-.
  { unfold ex. rewrite <- not_true_iff_false, existsb_exists. split.
    - intros Hn e He. destruct (decide (PADDR_TO_PFN (pf_frame e) < total_frames s)); [done|].
      exfalso. apply Hn. exists e. split; [by apply list_elem_of_In|]. apply Z.leb_le. lia.
    - intros Ha (e & He & Hle). apply list_elem_of_In, Ha in He. apply Z.leb_le in Hle. lia. }
  destruct ex; [by split; [|intros (_ & _ & ?)]|].
  repeat case_if; split; intros; repeat split; try (done || lia).
Qed.
