(* ===== verification/PmmInit.v ===== *)
(** * Initialisation of the physical memory manager

    Both [pmm_init] (multiboot) and [pmm_init_boot_info] run the same phases
    on the memory map: size the tables, mark everything used, free the usable
    regions above the kernel and the tables, take the modules back, set the
    counters and reference counts.  The theorems say which frames are free
    afterwards and that the invariant of the running system holds. *)

From S2P Require Import Prelude Spinlock Mem Pmm PmmFacts PmmProps PmmSteps.

(** ** The invariant while the bitmap is built: only the free counter counts *)

Record pinv (s : pmm) : Prop := {
  pinv_shape : shape s;
  pinv_free : pi_free_frames (info s) = nfree s;
  pinv_total : pi_total_frames (info s) = total_frames s
}.

(** The fields the phases leave alone. *)
Definition same_static (s s' : pmm) : Prop :=
  total_frames s' = total_frames s /\ protected_frames s' = protected_frames s /\
  pmm_lock s' = pmm_lock s /\ pmm_data_end_virt s' = pmm_data_end_virt s.

Lemma same_static_trans s1 s2 s3 : same_static s1 s2 -> same_static s2 s3 -> same_static s1 s3.
Proof. intros (? & ? & ? & ?) (? & ? & ? & ?). unfold same_static. split_and!; congruence. Qed.

Lemma set_frame_data_end s i : pmm_data_end_virt (set_frame s i) = pmm_data_end_virt s.
Proof. unfold set_frame. by case_if. Qed.

Lemma same_static_set s i : same_static s (set_frame s i).
Proof. unfold same_static. rewrite set_frame_data_end. by autorewrite with pmm. Qed.

Lemma pinv_count s d : shape s -> 0 <= nfree s - d -> -1 <= d <= 1 ->
  pi_free_frames (info s) = nfree s - d -> pi_total_frames (info s) = total_frames s ->
  pinv (count_free_only s d).
Proof.
  intros Hs Hd Hd1 Hf Ht. pose proof (nfree_range s Hs). pose proof (sh_max s Hs).
  constructor; [destruct Hs; by constructor| |done]. simpl.
  change (nfree (count_free_only s d)) with (nfree s). rewrite Hf. rewrite u64_small; lia.
Qed.

Lemma pinv_clear s i : pinv s -> 0 <= i < total_frames s -> test_frame s i = true ->
  pinv (count_free_only (clear_frame s i) 1).
Proof.
  intros [Hs Hf Ht] Hi Hu. pose proof (nfree_clear_frame s i Hs Hi Hu) as Hn. pose proof (nfree_range s Hs).
  apply pinv_count; [by apply shape_clear_frame|lia|lia| |done]. simpl. lia.
Qed.

Lemma pinv_set s i : pinv s -> 0 <= i < total_frames s -> test_frame s i = false ->
  pinv (count_free_only (set_frame s i) (-1)).
Proof.
  intros [Hs Hf Ht] Hi Hu. pose proof (nfree_set_frame s i Hs Hi Hu) as Hn.
  pose proof (shape_set_frame s i Hs ltac:(lia)) as Hs'. pose proof (nfree_range _ Hs').
  apply pinv_count; [done|lia|lia| |]; autorewrite with pmm; [lia|done].
Qed.

(** ** Freeing the regions *)

Lemma free_region_spec guard n : forall s f,
  pinv s -> 0 <= f -> f + Z.of_nat n <= total_frames s ->
  (forall t j, total_frames t = total_frames s -> j < total_frames s -> guard t j = true) ->
  (forall j, f <= j < f + Z.of_nat n -> test_frame s j = true) ->
  pinv (free_region guard n s f) /\ same_static s (free_region guard n s f) /\
  (forall j, 0 <= j -> test_frame (free_region guard n s f) j =
                       negb (in_range f (Z.of_nat n) j) && test_frame s j).
Proof.
  induction n as [|n IH]; intros s f Hp Hf Hn Hg Hu; cbn [free_region].
  { split; [done|]. split; [done|]. intros j Hj. unfold in_range.
    destruct ((f <=? j) && (j <? f + Z.of_nat 0)) eqn:E; [zify_bool; lia|done]. }
  rewrite Hg by (done || lia). set (s1 := count_free_only (clear_frame s f) 1).
  assert (forall j, 0 <= j -> test_frame s1 j = negb (f =? j) && test_frame s j) as Ht1.
  { intros j Hj. change (test_frame s1 j) with (test_frame (clear_frame s f) j).
    apply test_clear_frame; [by apply pinv_shape|lia|done]. }
  destruct (IH s1 (f + 1)) as (H1 & H2 & H3).
  - apply pinv_clear; [done|lia|]. apply Hu. lia.
  - lia.
  - simpl. lia.
  - intros t j Ht Hj. apply Hg; done.
  - intros j Hj. rewrite Ht1, (proj2 (Z.eqb_neq f j)) by lia. simpl. apply Hu. lia.
  - split; [done|]. split; [done|]. intros j Hj. rewrite H3, Ht1 by done. rewrite andb_assoc. f_equal.
    unfold in_range. rewrite <- negb_orb. f_equal. apply Bool.eq_iff_eq_true.
    rewrite orb_true_iff, !andb_true_iff, !Z.leb_le, !Z.ltb_lt, Z.eqb_eq. lia.
Qed.

Section regions.
Context (guard : pmm -> Z -> bool) (clamp : Z -> Z) (kernel_end refcount_end : Z).

(** The frames of a region that are freed, as computed by the loop. *)
Definition region_start (e : boot_mmap_entry) : Z :=
  let start := PADDR_ALIGN_UP (bm_base e) in
  let start := if start <? kernel_end then kernel_end else start in
  if start <? refcount_end then refcount_end else start.
Definition region_stop (e : boot_mmap_entry) : Z :=
  clamp (PADDR_ALIGN_DOWN (u64 (bm_base e + bm_length e))).
Definition in_region (e : boot_mmap_entry) (i : Z) : bool :=
  (bm_type e =? BOOT_MEM_USABLE) && (region_start e <? region_stop e) &&
  in_range (PADDR_TO_PFN (region_start e)) (PADDR_TO_PFN (region_stop e) - PADDR_TO_PFN (region_start e)) i.

Definition in_regions (l : list boot_mmap_entry) (i : Z) : bool := existsb (fun e => in_region e i) l.

(** No two entries of the map free the same frame. *)
Fixpoint regions_disjoint (l : list boot_mmap_entry) : Prop :=
  match l with
  | [] => True
  | e :: l => (forall i, in_region e i = true -> in_regions l i = false) /\ regions_disjoint l
  end.

Lemma region_start_nonneg e : 0 <= region_start e.
Proof.
  assert (0 <= PADDR_ALIGN_UP (bm_base e)) by (apply Z.land_nonneg; right; done).
  unfold region_start. cbv zeta. destruct (PADDR_ALIGN_UP (bm_base e) <? kernel_end) eqn:E; case_if; lia.
Qed.

Lemma in_regions_bound l T j :
  (forall e, e ∈ l -> bm_type e = BOOT_MEM_USABLE -> PADDR_TO_PFN (region_stop e) <= T) ->
  in_regions l j = true -> j < T.
Proof.
  intros Hb Hin. apply existsb_exists in Hin as (e & He & Hr). unfold in_region in Hr.
  apply andb_true_iff in Hr as [Hr Hj]. apply andb_true_iff in Hr as [Ht _].
  apply andb_true_iff in Hj as [_ Hj]. zify_bool.
  specialize (Hb e (proj2 (list_elem_of_In _ _) He) Ht). lia.
Qed.

Lemma free_regions_spec l : forall s,
  pinv s ->
  (forall t j, total_frames t = total_frames s -> j < total_frames s -> guard t j = true) ->
  (forall e, e ∈ l -> bm_type e = BOOT_MEM_USABLE -> PADDR_TO_PFN (region_stop e) <= total_frames s) ->
  regions_disjoint l ->
  (forall j, 0 <= j -> in_regions l j = true -> test_frame s j = true) ->
  let s' := free_regions guard clamp kernel_end refcount_end l s in
  pinv s' /\ same_static s s' /\
  (forall j, 0 <= j -> test_frame s' j = negb (in_regions l j) && test_frame s j).
Proof.
  induction l as [|e l IH]; intros s Hp Hg Hb Hd Hu; cbn [free_regions].
  { split; [done|]. split; [done|]. done. }
  fold (region_start e). fold (region_stop e).
  set (s1 := if bm_type e =? BOOT_MEM_USABLE then _ else s).
  pose proof (Hb e ltac:(by left)) as Hst. pose proof (region_start_nonneg e) as Hs0. destruct Hd as [Hd1 Hd2].
  assert (pinv s1 /\ same_static s s1 /\
    (forall j, 0 <= j -> test_frame s1 j = negb (in_region e j) && test_frame s j)) as (H1 & H2 & H3).
  { unfold s1, in_region in *. destruct (bm_type e =? BOOT_MEM_USABLE) eqn:Et; cbn [andb negb]; [|done].
    destruct (region_start e <? region_stop e) eqn:Er; cbn [andb negb];
      [|split; [exact Hp|split; [split_and!; reflexivity|intros; reflexivity]]]. zify_bool. specialize (Hst Et).
    set (lo := PADDR_TO_PFN (region_start e)) in *. set (hi := PADDR_TO_PFN (region_stop e)) in *.
    assert (lo <= hi) by (unfold lo, hi; rewrite !pfn_spec; apply Z.div_le_mono; (done || lia)).
    assert (0 <= lo) by (by apply pfn_nonneg).
    destruct (free_region_spec guard (Z.to_nat (hi - lo)) s lo) as (A & B & C); [done|lia|lia|done| |].
    - intros j Hj. apply Hu; [lia|]. simpl. apply orb_true_iff. left. unfold in_region.
      fold lo hi. rewrite (proj2 (Z.eqb_eq _ _) Et), (proj2 (Z.ltb_lt _ _)) by lia. simpl. unfold in_range.
      apply andb_true_iff. rewrite Z.leb_le, Z.ltb_lt. lia.
    - rewrite Z2Nat.id in C by lia. done. }
  pose proof H2 as (T1 & _). destruct (IH s1) as (G1 & G2 & G3).
  - done.
  - intros t j Ht Hj. apply Hg; congruence.
  - intros e' He'. rewrite T1. apply Hb. by right.
  - done.
  - intros j Hj Hin. rewrite H3 by done. destruct (in_region e j) eqn:Ee.
    + rewrite (Hd1 j Ee) in Hin. done.
    + apply Hu; [done|]. simpl. by rewrite Ee, Hin.
  - split; [done|]. split; [by eapply same_static_trans|]. intros j Hj. rewrite G3, H3 by done. simpl.
    rewrite negb_orb, andb_assoc, (andb_comm (negb (in_regions l j))). done.
Qed.

End regions.

(** ** Taking the modules back *)

Lemma take_module_spec n : forall s f, pinv s -> 0 <= f ->
  pinv (take_module n s f) /\ same_static s (take_module n s f) /\
  (forall j, 0 <= j -> test_frame (take_module n s f) j =
     (in_range f (Z.of_nat n) j && (j <? total_frames s)) || test_frame s j).
Proof.
  induction n as [|n IH]; intros s f Hp Hf; cbn [take_module].
  { split; [done|]. split; [done|]. intros j Hj. unfold in_range.
    destruct ((f <=? j) && (j <? f + Z.of_nat 0)) eqn:E; [zify_bool; lia|done]. }
  set (s1 := if _ && _ then _ else s). pose proof (pinv_shape s Hp) as Hs.
  assert (pinv s1 /\ same_static s s1 /\
    (forall j, 0 <= j -> test_frame s1 j = ((f =? j) && (j <? total_frames s)) || test_frame s j)) as (H1 & H2 & H3).
  { unfold s1. destruct ((f <? total_frames s) && negb (test_frame s f)) eqn:E.
    - zify_bool. split; [apply pinv_set; (done || lia)|]. split; [apply same_static_set|].
      intros j Hj. change (test_frame (count_free_only _ _) j) with (test_frame (set_frame s f) j).
      rewrite test_set_frame by (done || lia). destruct (f =? j) eqn:Ej; [|done].
      zify_bool. subst. by rewrite (proj2 (Z.ltb_lt _ _)) by lia.
    - split; [done|]. split; [done|]. intros j Hj. destruct (f =? j) eqn:Ej; [|done]. zify_bool. subst.
      destruct (j <? total_frames s) eqn:El; [|done]. destruct (test_frame s j); [done|]. zify_bool. lia. }
  destruct (IH s1 (f + 1) H1 ltac:(lia)) as (G1 & G2 & G3). pose proof H2 as (T1 & _).
  split; [done|]. split; [by eapply same_static_trans|]. intros j Hj. rewrite G3, H3, T1 by done.
  rewrite orb_assoc. f_equal. unfold in_range. rewrite <- andb_orb_distrib_l. f_equal.
  apply Bool.eq_iff_eq_true. rewrite orb_true_iff, !andb_true_iff, !Z.leb_le, !Z.ltb_lt, Z.eqb_eq. lia.
Qed.

Definition in_module (m : boot_module) (i : Z) : bool :=
  in_range (PADDR_TO_PFN (PADDR_ALIGN_DOWN (mod_start m)))
    (PADDR_TO_PFN (PADDR_ALIGN_UP (mod_end m)) - PADDR_TO_PFN (PADDR_ALIGN_DOWN (mod_start m))) i.
Definition in_modules (l : list boot_module) (i : Z) : bool := existsb (fun m => in_module m i) l.

Lemma take_modules_spec l : forall s, pinv s -> Forall (fun m => 0 <= mod_start m) l ->
  pinv (take_modules l s) /\ same_static s (take_modules l s) /\
  (forall j, 0 <= j < total_frames s -> test_frame (take_modules l s) j = in_modules l j || test_frame s j).
Proof.
  induction l as [|m l IH]; intros s Hp Hm; cbn [take_modules]; [done|].
  apply Forall_cons_1 in Hm as [Hm0 Hm].
  set (lo := PADDR_TO_PFN (PADDR_ALIGN_DOWN (mod_start m))). set (hi := PADDR_TO_PFN (PADDR_ALIGN_UP (mod_end m))).
  assert (0 <= lo) as Hlo by (apply pfn_nonneg, Z.land_nonneg; lia).
  destruct (take_module_spec (Z.to_nat (hi - lo)) s lo Hp Hlo) as (H1 & H2 & H3).
  destruct (IH _ H1 Hm) as (G1 & G2 & G3). pose proof H2 as (T1 & _).
  split; [done|]. split; [by eapply same_static_trans|]. intros j Hj. rewrite G3, H3 by (rewrite ?T1; lia).
  rewrite (proj2 (Z.ltb_lt j _)), andb_true_r by lia. simpl. rewrite orb_assoc. f_equal.
  rewrite orb_comm. f_equal. unfold in_module. fold lo hi. unfold in_range.
  apply Bool.eq_iff_eq_true. rewrite !andb_true_iff, !Z.leb_le, !Z.ltb_lt. lia.
Qed.

(** ** Tables and counters *)

Lemma align_up64_spec a x : 0 <= x -> x + PAGE_SIZE <= 2 ^ ptr_bits a ->
  PAGE_ALIGN_UP64 a x = frame_base (x + PAGE_SIZE - 1).
Proof.
  intros Hx Hb. assert (2 ^ ptr_bits a <= 2 ^ 64) by (destruct a; simpl; lia). unfold PAGE_SIZE in *.
  unfold PAGE_ALIGN_UP64, PAGE_SIZE. rewrite u64_small by lia.
  destruct a; unfold PAGE_MASK; [apply (land_high_mask 32 12)|apply (land_high_mask 64 12)..]; simpl in Hb; lia.
Qed.

Lemma align_up64_ge a x : 0 <= x -> x + PAGE_SIZE <= 2 ^ ptr_bits a -> x <= PAGE_ALIGN_UP64 a x.
Proof.
  intros. rewrite align_up64_spec by done. unfold frame_base, PAGE_SIZE.
  pose proof (Z.mod_pos_bound (x + 4096 - 1) 4096). lia.
Qed.

Lemma align_up64_mul4 a x : 0 <= x -> x + PAGE_SIZE <= 2 ^ ptr_bits a -> PAGE_ALIGN_UP64 a x mod 4 = 0.
Proof.
  intros. rewrite align_up64_spec by done. pose proof (frame_base_aligned (x + PAGE_SIZE - 1)) as E.
  unfold PAGE_SIZE in *. set (y := frame_base _) in *. apply Z.mod_divide; [done|].
  apply Z.mod_divide in E; [|done]. destruct E as [k ->]. exists (k * 1024). lia.
Qed.

Lemma repeat_lookup {A} (x : A) n i : (i < n)%nat -> repeat x n !! i = Some x.
Proof. revert i. induction n as [|n IH]; intros [|i] H; simpl; try lia; [done|]. apply IH. lia. Qed.

Lemma Forall_repeat_intro {A} (P : A -> Prop) x n : P x -> Forall P (repeat x n).
Proof. intros Hx. induction n; simpl; by constructor. Qed.

Section tables.
Context (a : arch) (s0 : pmm) (ly : layout) (total : Z).
Hypothesis Htotal : 0 <= total < 2 ^ 52.
Hypothesis Hbytes : (total + 31) / 32 * 4 <= ly_bitmap_bytes ly /\ ly_bitmap_bytes ly mod 4 = 0.
Hypothesis Hrcs : total * 2 <= ly_refcount_bytes ly.
Hypothesis Hhint : last_free_index s0 = 0.

Lemma tables_ready_shape : shape (tables_ready a s0 ly total).
Proof.
  destruct Hbytes as [Hb H4]. pose proof (Z.div_mod (ly_bitmap_bytes ly) 4 ltac:(lia)).
  pose proof (Z.div_mod (total + 31) 32 ltac:(lia)). pose proof (Z.mod_pos_bound (total + 31) 32 ltac:(lia)).
  pose proof (Z.div_mod (ly_refcount_bytes ly) 2 ltac:(lia)).
  pose proof (Z.mod_pos_bound (ly_refcount_bytes ly) 2 ltac:(lia)).
  constructor; simpl; rewrite ?repeat_length; try lia; apply Forall_repeat_intro; lia.
Qed.

Lemma tables_ready_used j : 0 <= j < total -> test_frame (tables_ready a s0 ly total) j = true.
Proof.
  intros Hj. pose proof tables_ready_shape as Hs. pose proof (frame_in_words _ j Hs Hj) as Hw.
  rewrite test_frame_bit by lia. rewrite (proj2 (Z.ltb_lt _ _)) by lia. unfold bitmap_word. simpl in *.
  rewrite repeat_lookup by lia. simpl. change 0xFFFFFFFF with (Z.ones 32).
  apply Z.ones_spec_low, Z.mod_pos_bound. lia.
Qed.

Lemma tables_ready_pinv : pinv (tables_ready a s0 ly total).
Proof.
  pose proof tables_ready_shape as Hs. constructor; [done| |done]. simpl. symmetry. unfold nfree. simpl.
  rewrite (cnt_ext _ (fun _ => false)).
  - generalize (Z.to_nat total). intros n. induction n as [|n IH]; simpl; [done|]. by rewrite IH.
  - intros i Hi. unfold frame_free. by rewrite tables_ready_used by lia.
Qed.

End tables.

(** Marking frames of a bitmap that is full changes nothing but keeps it so. *)
Lemma mark_frames_spec n : forall s f, pinv s -> 0 <= f ->
  (forall j, 0 <= j < total_frames s -> test_frame s j = true) ->
  pinv (mark_frames n s f) /\ same_static s (mark_frames n s f) /\
  (forall j, 0 <= j < total_frames s -> test_frame (mark_frames n s f) j = true).
Proof.
  induction n as [|n IH]; intros s f Hp Hf Hu; cbn [mark_frames]; [done|].
  set (s1 := if f <? total_frames s then set_frame s f else s). pose proof (pinv_shape s Hp) as Hs.
  assert (pinv s1 /\ same_static s s1 /\ (forall j, 0 <= j < total_frames s -> test_frame s1 j = true)) as (H1 & H2 & H3).
  { unfold s1. destruct (f <? total_frames s) eqn:E; [|done]. zify_bool.
    assert (forall j, 0 <= j -> test_frame (set_frame s f) j = test_frame s j) as Ht.
    { intros j Hj. rewrite test_set_frame by (done || lia). destruct (f =? j) eqn:Ej; [|done].
      zify_bool. subst. symmetry. apply Hu. lia. }
    split; [|split; [apply same_static_set|intros j Hj; rewrite Ht by lia; by apply Hu]].
    destruct Hp as [? Hfr Htt]. constructor; autorewrite with pmm; [by apply shape_set_frame| |done].
    rewrite Hfr. unfold nfree. rewrite set_frame_total. apply cnt_ext. intros i Hi. unfold frame_free. by rewrite Ht by lia. }
  pose proof H2 as (T1 & _). destruct (IH s1 (f + 1) H1 ltac:(lia)) as (G1 & G2 & G3); [by rewrite T1|].
  split; [done|]. split; [by eapply same_static_trans|]. by rewrite T1 in G3.
Qed.

Lemma init_refcounts_spec n : forall s i, inv s -> 0 <= i -> i + Z.of_nat n <= total_frames s ->
  inv (init_refcounts n s i) /\ same_static s (init_refcounts n s i) /\
  (forall j, test_frame (init_refcounts n s i) j = test_frame s j) /\
  (forall j, 0 <= j -> refcount (init_refcounts n s i) j =
     if in_range i (Z.of_nat n) j then (if test_frame s j then 1 else 0) else refcount s j).
Proof.
  induction n as [|n IH]; intros s i Hi H0 Hn; cbn [init_refcounts].
  { split_and!; try done. intros j Hj. unfold in_range. case_if; [lia|done]. }
  set (s1 := set_refcount s i _). assert (inv s1) as Hi1 by (by apply inv_set_refcount).
  destruct (IH s1 (i + 1) Hi1 ltac:(lia) ltac:(simpl; lia)) as (G1 & G2 & G3 & G4).
  split; [done|]. split; [done|]. split; [done|]. intros j Hj. rewrite G4 by done.
  change (test_frame s1 j) with (test_frame s j). unfold s1. rewrite refcount_set by (done || lia || by apply inv_shape).
  unfold in_range. destruct (i =? j) eqn:E; zify_bool.
  - subst j. rewrite (proj2 (Z.leb_gt (i + 1) i)), (proj2 (Z.leb_le i i)), (proj2 (Z.ltb_lt i (i + Z.of_nat (S n)))) by lia. simpl. by destruct (test_frame s i).
  - assert ((i + 1 <=? j) && (j <? i + 1 + Z.of_nat n) = (i <=? j) && (j <? i + Z.of_nat (S n))) as ->; [|done].
    apply Bool.eq_iff_eq_true. rewrite !andb_true_iff, !Z.leb_le, !Z.ltb_lt. lia.
Qed.

(** The counters set at the end. *)
Lemma finish_init_spec s ly : pinv s ->
  let s' := finish_init s ly in
  inv s' /\ same_static s s' /\ (forall j, test_frame s' j = test_frame s j) /\
  (forall j, 0 <= j < total_frames s -> refcount s' j = if test_frame s j then 1 else 0).
Proof.
  intros [Hs Hf Ht]. unfold finish_init. cbv zeta. set (s1 := set_info s _).
  pose proof (sh_total s Hs). pose proof (sh_max s Hs). pose proof (nfree_range s Hs).
  assert (inv s1) as Hi1.
  { constructor; [destruct Hs; by constructor|done| |done]. simpl.
    change (nfree s1) with (nfree s). rewrite Hf. apply u64_small. lia. }
  destruct (init_refcounts_spec (Z.to_nat (total_frames s1)) s1 0 Hi1 ltac:(lia) ltac:(simpl; lia)) as (G1 & G2 & G3 & G4).
  split; [done|]. split; [done|]. split; [done|]. intros j Hj. rewrite G4 by lia. unfold in_range.
  case_if; [done|]. simpl in *. lia.
Qed.

(** ** The highest usable address *)

Definition monotone (clamp : Z -> Z) : Prop := forall x y, x <= y -> clamp x <= clamp y.

Lemma clamp_2gb_mono a : monotone (clamp_2gb a).
Proof. intros x y Hxy. unfold clamp_2gb. destruct a; repeat case_if; lia. Qed.

Lemma max_usable_ge clamp l : forall m, m <= max_usable clamp l m.
Proof.
  induction l as [|e l IH]; intros m; cbn [max_usable]; [lia|].
  etransitivity; [|apply IH]. repeat case_if; lia.
Qed.

Lemma max_usable_entry clamp l : forall m e, e ∈ l -> bm_type e = BOOT_MEM_USABLE ->
  clamp (u64 (bm_base e + bm_length e)) <= max_usable clamp l m.
Proof.
  induction l as [|x l IH]; intros m e He Ht; [by apply not_elem_of_nil in He|].
  cbn [max_usable]. apply elem_of_cons in He as [<-|He]; [|by apply IH].
  rewrite (proj2 (Z.eqb_eq _ _) Ht). etransitivity; [|apply max_usable_ge]. case_if; lia.
Qed.

Lemma region_stop_total clamp l e : monotone clamp -> e ∈ l -> bm_type e = BOOT_MEM_USABLE ->
  PADDR_TO_PFN (region_stop clamp e) <= max_usable clamp l 0 / PAGE_SIZE.
Proof.
  intros Hc He Ht. rewrite pfn_spec. apply Z.div_le_mono; [done|].
  etransitivity; [|by apply (max_usable_entry clamp l 0 e)]. apply Hc.
  assert (0 <= u64 (bm_base e + bm_length e) < 2 ^ 64) by (apply Z.mod_pos_bound; lia).
  rewrite align_down_spec by done. unfold frame_base.
  pose proof (Z.mod_pos_bound (u64 (bm_base e + bm_length e)) PAGE_SIZE ltac:(done)). lia.
Qed.

(** ** All phases *)

Definition build (a : arch) (s0 : pmm) (ly : layout) (total : Z) (guard : pmm -> Z -> bool)
    (clamp : Z -> Z) (mmap : list boot_mmap_entry) (mods : list boot_module) : pmm :=
  let s := tables_ready a s0 ly total in
  let f0 := PADDR_TO_PFN (ly_bitmap_end ly) in
  let s := mark_frames (Z.to_nat (PADDR_TO_PFN (ly_refcount_end ly) - f0)) s f0 in
  let s := free_regions guard clamp (ly_kernel_end ly) (ly_refcount_end ly) mmap s in
  finish_init (take_modules mods s) ly.

Section build.
Context (a : arch) (s0 : pmm) (guard : pmm -> Z -> bool) (clamp : Z -> Z)
  (mmap : list boot_mmap_entry) (mods : list boot_module) (kernel_start kernel_end kernel_end_virt : Z).
Let max_addr := max_usable clamp mmap 0.
Let total := max_addr / PAGE_SIZE.
Let ly := table_layout a kernel_start kernel_end kernel_end_virt total.
Hypothesis Hclamp : monotone clamp.
Hypothesis Hguard : forall t j, j < total_frames t -> guard t j = true.
Hypothesis Hmax : max_addr < 2 ^ ptr_bits a.
Hypothesis Hhint : last_free_index s0 = 0.
Hypothesis Hdisj : regions_disjoint clamp kernel_end (ly_refcount_end ly) mmap.
Hypothesis Hmods : Forall (fun m => 0 <= mod_start m) mods.

Lemma total_bounds : 0 <= total /\ total * PAGE_SIZE <= max_addr /\ total < 2 ^ 52.
Proof.
  pose proof (max_usable_ge clamp mmap 0) as H0. fold max_addr in H0. unfold total, PAGE_SIZE.
  pose proof (Z.div_mod max_addr 4096 ltac:(lia)). pose proof (Z.mod_pos_bound max_addr 4096 ltac:(lia)).
  assert (2 ^ ptr_bits a <= 2 ^ 64) by (destruct a; simpl; lia).
  split; [apply Z.div_pos; lia|]. split; [lia|]. apply Z.div_lt_upper_bound; lia.
Qed.

Lemma table_bytes :
  ((total + 31) / 32 * 4 <= ly_bitmap_bytes ly /\ ly_bitmap_bytes ly mod 4 = 0) /\
  total * 2 <= ly_refcount_bytes ly.
Proof.
  destruct total_bounds as (H0 & H1 & H2). unfold ly. simpl.
  assert (total * 4096 < 2 ^ ptr_bits a) as Hb by (unfold PAGE_SIZE in H1; lia).
  assert (0 <= (total + 31) / 32 <= total + 1).
  { split; [apply Z.div_pos; lia|]. apply Z.div_le_upper_bound; lia. }
  assert (total * 4 + 4 + 4096 <= 2 ^ ptr_bits a) by (destruct a; simpl in *; lia).
  rewrite !u64_small by lia. split; [split|].
  - apply align_up64_ge; unfold PAGE_SIZE; lia.
  - apply align_up64_mul4; unfold PAGE_SIZE; lia.
  - apply align_up64_ge; unfold PAGE_SIZE; lia.
Qed.

Lemma build_spec :
  let s := build a s0 ly total guard clamp mmap mods in
  inv s /\ total_frames s = total /\ protected_frames s = protected_frames s0 /\ lock_free (pmm_lock s) /\
  (forall i, 0 <= i < total -> test_frame s i =
     negb (in_regions clamp kernel_end (ly_refcount_end ly) mmap i) || in_modules mods i) /\
  (forall i, 0 <= i < total -> refcount s i = if test_frame s i then 1 else 0).
Proof.
  destruct total_bounds as (B0 & B1 & B2). destruct table_bytes as [Tb Tr]. unfold build. cbv zeta.
  set (t0 := tables_ready a s0 ly total).
  assert (pinv t0) as P0 by (by apply tables_ready_pinv).
  assert (forall j, 0 <= j < total -> test_frame t0 j = true) as U0 by (intros; by apply tables_ready_used).
  set (n1 := Z.to_nat _). set (f1 := PADDR_TO_PFN (ly_bitmap_end ly)).
  assert (0 <= f1) as Hf1.
  { apply pfn_nonneg, Z.land_nonneg. right. by destruct a. }
  destruct (mark_frames_spec n1 t0 f1 P0 Hf1 U0) as (P1 & S1 & U1).
  set (t1 := mark_frames n1 t0 f1) in *. pose proof S1 as (T1 & _). change (total_frames t0) with total in *.
  destruct (free_regions_spec guard clamp kernel_end (ly_refcount_end ly) mmap t1 P1) as (P2 & S2 & U2).
  { intros t j Ht Hj. apply Hguard. lia. }
  { intros e He Ht. rewrite T1. by apply region_stop_total. }
  { done. }
  { intros j Hj Hin. apply U1. split; [done|]. rewrite <- T1. eapply in_regions_bound; [|done].
    intros e He Ht. rewrite T1. by apply region_stop_total. }
  change (ly_kernel_end ly) with kernel_end.
  set (t2 := free_regions _ _ _ _ _ t1) in *. pose proof S2 as (T2 & _).
  destruct (take_modules_spec mods t2 P2 Hmods) as (P3 & S3 & U3).
  set (t3 := take_modules mods t2) in *. pose proof S3 as (T3 & _).
  destruct (finish_init_spec t3 ly P3) as (I4 & S4 & U4 & R4).
  pose proof (same_static_trans _ _ _ S1 (same_static_trans _ _ _ S2 (same_static_trans _ _ _ S3 S4))) as (V1 & V2 & V3 & _).
  split; [done|]. split; [done|]. split; [done|]. split; [by rewrite V3|].
  assert (total_frames t3 = total) as Tt by congruence. split.
  - intros i Hi. rewrite U4, U3, U2, U1 by lia. rewrite andb_true_r. apply orb_comm.
  - intros i Hi. rewrite R4, U4 by lia. done.
Qed.

End build.

(** ** The two entry points *)

(** Free exactly the frames of usable regions above kernel and tables that no
    module occupies; reference count 1 for the others. *)
Definition init_frames (a : arch) (s : pmm) (ly : layout) (clamp : Z -> Z)
    (mmap : list boot_mmap_entry) (mods : list boot_module) : Prop :=
  (forall i, 0 <= i < total_frames s -> test_frame s i =
     negb (in_regions clamp (ly_kernel_end ly) (ly_refcount_end ly) mmap i) || in_modules mods i) /\
  (forall i, 0 <= i < total_frames s -> refcount s i = if test_frame s i then 1 else 0) /\
  (forall i, 0 <= i < total_frames s ->
     i < PADDR_TO_PFN (ly_kernel_end ly) \/ i < PADDR_TO_PFN (ly_refcount_end ly) -> test_frame s i = true).

Lemma in_region_above clamp ke re l i :
  in_regions clamp ke re l i = true -> PADDR_TO_PFN ke <= i /\ PADDR_TO_PFN re <= i.
Proof.
  intros Hin. apply existsb_exists in Hin as (e & _ & Hr). unfold in_region in Hr.
  apply andb_true_iff in Hr as [_ Hj]. apply andb_true_iff in Hj as [Hj _]. zify_bool.
  assert (ke <= region_start ke re e /\ re <= region_start ke re e) as [? ?].
  { unfold region_start. cbv zeta. destruct (PADDR_ALIGN_UP (bm_base e) <? ke) eqn:E; case_if; lia. }
  assert (forall x y, x <= y -> PADDR_TO_PFN x <= PADDR_TO_PFN y) as Hm.
  { intros x y Hxy. rewrite !pfn_spec. by apply Z.div_le_mono. }
  split; (etransitivity; [|exact Hj]); by apply Hm.
Qed.

Lemma init_frames_intro a s ly clamp mmap mods :
  (forall i, 0 <= i < total_frames s -> test_frame s i =
     negb (in_regions clamp (ly_kernel_end ly) (ly_refcount_end ly) mmap i) || in_modules mods i) ->
  (forall i, 0 <= i < total_frames s -> refcount s i = if test_frame s i then 1 else 0) ->
  init_frames a s ly clamp mmap mods.
Proof.
  intros H1 H2. split; [done|]. split; [done|]. intros i Hi Hlow. rewrite H1 by done.
  destruct (in_regions _ _ _ mmap i) eqn:E; [|done]. apply in_region_above in E. lia.
Qed.

Lemma good_of_build a s s0 :
  inv s -> protected_frames s = protected_frames s0 -> protected_frames s0 = [] ->
  lock_free (pmm_lock s) -> addressable a s -> good a s.
Proof.
  intros Hi Hp H0 Hl Ha. split; [done|]. split; [|done]. constructor; rewrite Hp, H0.
  - constructor.
  - constructor.
  - intros e He. by apply not_elem_of_nil in He.
Qed.

Definition boot_layout (a : arch) (kernel_start_sym kernel_end_sym : Z) (bi : boot_info) : layout :=
  let kernel_phys_end :=
    match a with ARM64 => PAGE_ALIGN_UP a kernel_end_sym
    | _ => PAGE_ALIGN_UP a (VIRT_TO_PHYS a kernel_end_sym) end in
  table_layout a (match a with ARM64 => kernel_start_sym | _ => 0x100000 end) kernel_phys_end
    (match a with ARM64 => PHYS_TO_VIRT a kernel_phys_end | _ => kernel_end_sym end)
    (max_usable id (bi_mmap bi) 0 / PAGE_SIZE).

(** The entry point runs the phases on its layout. *)
Lemma pmm_init_boot_info_build a ks ke bi s0 :
  bi_valid bi = true -> max_usable id (bi_mmap bi) 0 <> 0 ->
  pmm_init_boot_info a ks ke bi s0 =
    Some (build a s0 (boot_layout a ks ke bi) (max_usable id (bi_mmap bi) 0 / PAGE_SIZE)
            (fun s f => f <? total_frames s) id (bi_mmap bi) (bi_modules bi)).
Proof.
  intros Hv Hnz. unfold pmm_init_boot_info. rewrite Hv. cbn [negb].
  destruct (bi_mmap bi) as [|e0 l0] eqn:El; [by destruct Hnz|]. rewrite <- El in *.
  rewrite (proj2 (Z.eqb_neq _ _) Hnz). unfold build, boot_layout. by destruct a.
Qed.

Lemma build_good a s0 guard clamp mmap mods ks ke kv (ly := table_layout a ks ke kv (max_usable clamp mmap 0 / PAGE_SIZE)) :
  monotone clamp -> (forall t j, j < total_frames t -> guard t j = true) ->
  max_usable clamp mmap 0 < 2 ^ ptr_bits a -> last_free_index s0 = 0 -> protected_frames s0 = [] ->
  regions_disjoint clamp ke (ly_refcount_end ly) mmap -> Forall (fun m => 0 <= mod_start m) mods ->
  let s := build a s0 ly (max_usable clamp mmap 0 / PAGE_SIZE) guard clamp mmap mods in
  good a s /\ total_frames s = max_usable clamp mmap 0 / PAGE_SIZE /\ init_frames a s ly clamp mmap mods.
Proof.
  intros Hc Hg Hmax Hh Hp0 Hd Hm. cbv zeta.
  destruct (build_spec a s0 guard clamp mmap mods ks ke kv Hc Hg Hmax Hh Hd Hm) as (B1 & B2 & B3 & B4 & B5 & B6).
  destruct (total_bounds a clamp mmap ks ke kv Hmax Hd) as (C1 & C2 & C3). fold ly in B1, B2, B3, B4, B5, B6.
  set (s := build _ _ _ _ _ _ _ _) in *. clearbody s. rewrite <- B2 in *.
  split; [|split; [reflexivity|by apply init_frames_intro]].
  apply (good_of_build a s s0); try assumption. unfold addressable. lia.
Qed.

(** Initialisation from the portable boot information.  With a
    memory map that has usable memory, whose usable regions do not overlap,
    [pmm_init_boot_info] returns a good PMM state: the invariants of the
    running system hold.  A frame is free exactly when it lies in a usable
    region above the kernel image and the PMM's own tables and in no boot
    module; the other frames have reference count 1, and no frame of the
    kernel or of the tables is free. *)
Theorem pmm_init_boot_info_correct a ks ke bi s0 :
  bi_valid bi = true -> max_usable id (bi_mmap bi) 0 <> 0 ->
  max_usable id (bi_mmap bi) 0 < 2 ^ ptr_bits a ->
  last_free_index s0 = 0 -> protected_frames s0 = [] ->
  regions_disjoint id (ly_kernel_end (boot_layout a ks ke bi)) (ly_refcount_end (boot_layout a ks ke bi)) (bi_mmap bi) ->
  Forall (fun m => 0 <= mod_start m) (bi_modules bi) ->
  exists s, pmm_init_boot_info a ks ke bi s0 = Some s /\ good a s /\
    total_frames s = max_usable id (bi_mmap bi) 0 / PAGE_SIZE /\
    init_frames a s (boot_layout a ks ke bi) id (bi_mmap bi) (bi_modules bi).
Proof.
  intros Hv Hnz Hmax Hh Hp0 Hd Hm. rewrite pmm_init_boot_info_build by done.
  eexists. split; [reflexivity|]. unfold boot_layout in *.
  apply build_good; try assumption; [by intros x y|]. intros t j Hj. by apply Z.ltb_lt.
Qed.

(** [pmm_init] reads the modules only with the flag set. *)
Definition mb_modules (mbi : multiboot_info) : list boot_module :=
  if negb (Z.land (mb_flags mbi) MULTIBOOT_INFO_MODS =? 0) then mb_mods mbi else [].

Definition mb_layout (a : arch) (kernel_end_sym : Z) (mbi : multiboot_info) : layout :=
  table_layout a 0x100000 (PAGE_ALIGN_UP a (VIRT_TO_PHYS a kernel_end_sym)) kernel_end_sym
    (max_usable (clamp_2gb a) (mb_mmap mbi) 0 / PAGE_SIZE).

Lemma pmm_init_build a ke mbi s0 :
  Z.land (mb_flags mbi) MULTIBOOT_INFO_MEM_MAP <> 0 ->
  pmm_init a ke mbi s0 =
    Some (build a s0 (mb_layout a ke mbi) (max_usable (clamp_2gb a) (mb_mmap mbi) 0 / PAGE_SIZE)
            (fun _ _ => true) (clamp_2gb a) (mb_mmap mbi) (mb_modules mbi)).
Proof.
  intros Hf. unfold pmm_init, mb_modules. rewrite (proj2 (Z.eqb_neq _ _) Hf).
  unfold build, mb_layout. cbv zeta. by case_if.
Qed.

(** Initialisation from multiboot.  The same for [pmm_init]: on
    i686 the map is cut at 2 GB; with disjoint usable regions the result is
    a good state whose free frames are those of the usable regions above
    kernel and tables outside the modules. *)
Theorem pmm_init_correct a ke mbi s0 :
  Z.land (mb_flags mbi) MULTIBOOT_INFO_MEM_MAP <> 0 ->
  max_usable (clamp_2gb a) (mb_mmap mbi) 0 < 2 ^ ptr_bits a ->
  last_free_index s0 = 0 -> protected_frames s0 = [] ->
  regions_disjoint (clamp_2gb a) (ly_kernel_end (mb_layout a ke mbi)) (ly_refcount_end (mb_layout a ke mbi)) (mb_mmap mbi) ->
  Forall (fun m => 0 <= mod_start m) (mb_modules mbi) ->
  exists s, pmm_init a ke mbi s0 = Some s /\ good a s /\
    total_frames s = max_usable (clamp_2gb a) (mb_mmap mbi) 0 / PAGE_SIZE /\
    init_frames a s (mb_layout a ke mbi) (clamp_2gb a) (mb_mmap mbi) (mb_modules mbi).
Proof.
  intros Hf Hmax Hh Hp0 Hd Hm. rewrite pmm_init_build by done.
  eexists. split; [reflexivity|]. unfold mb_layout in *.
  apply build_good; try assumption; [apply clamp_2gb_mono|]. intros t j Hj. reflexivity.
Qed.
