(* ===== verification/Task.v ===== *)
(** * Tasks and the scheduler

    Models src/kernel/task.c: the pool of task control blocks, the ready
    queue (a doubly linked list threaded through the blocks), the scheduler,
    the timer tick, exit, sleep, block and wake-up.  A [task_t *] is the index
    of the block in [task_pool]; [None] is [NULL].  The block keeps the fields
    these operations read or write; the name, the working directory, the saved
    registers and the user-space layout are data they only carry along.
    What a task owns outside the pool (kernel stack, descriptor table, page
    directory) lives in a world [W] reached through the class
    [TaskResources].  An operation is [None] when it does not return: the
    lock is already held, or it halts. *)

From S2P Require Import Prelude Spinlock.

(** ** Data *)

Inductive task_state :=
| TASK_UNUSED | TASK_READY | TASK_RUNNING | TASK_BLOCKED | TASK_ZOMBIE | TASK_TERMINATED.

#[global] Instance task_state_eq_dec : EqDecision task_state.
Proof. solve_decision. Defined.

Definition MAX_TASKS : Z := 256.
Definition DEFAULT_PRIORITY : Z := 10.
Definition DEFAULT_TIME_SLICE : Z := 10.
Definition KERNEL_STACK_SIZE : Z := 8 * 1024.
Definition UINT32_MAX : Z := 0xFFFFFFFF.

Record task := Task {
  t_pid : Z;
  t_state : task_state;
  t_priority : Z;
  t_time_slice : Z;
  t_runtime_ms : Z;
  t_sleep_until_ms : Z;
  t_kernel_stack_base : Z;
  t_kernel_stack : Z;
  t_is_user_process : bool;
  t_page_dir_phys : Z;
  t_fd_table : Z;
  t_parent : option nat;
  t_exit_code : Z;
  t_exit_signaled : bool;
  t_exit_signal : Z;
  t_next : option nat;
  t_prev : option nat
}.

(** [memset(task, 0, sizeof(task_t))]; [TASK_UNUSED] is 0. *)
Definition null_task : task :=
  Task 0 TASK_UNUSED 0 0 0 0 0 0 false 0 0 None 0 false 0 None None.

Definition t_set_state (st : task_state) (t : task) : task :=
  Task (t_pid t) st (t_priority t) (t_time_slice t) (t_runtime_ms t) (t_sleep_until_ms t)
    (t_kernel_stack_base t) (t_kernel_stack t) (t_is_user_process t) (t_page_dir_phys t)
    (t_fd_table t) (t_parent t) (t_exit_code t) (t_exit_signaled t) (t_exit_signal t)
    (t_next t) (t_prev t).
Definition t_set_next (n : option nat) (t : task) : task :=
  Task (t_pid t) (t_state t) (t_priority t) (t_time_slice t) (t_runtime_ms t) (t_sleep_until_ms t)
    (t_kernel_stack_base t) (t_kernel_stack t) (t_is_user_process t) (t_page_dir_phys t)
    (t_fd_table t) (t_parent t) (t_exit_code t) (t_exit_signaled t) (t_exit_signal t)
    n (t_prev t).
Definition t_set_prev (p : option nat) (t : task) : task :=
  Task (t_pid t) (t_state t) (t_priority t) (t_time_slice t) (t_runtime_ms t) (t_sleep_until_ms t)
    (t_kernel_stack_base t) (t_kernel_stack t) (t_is_user_process t) (t_page_dir_phys t)
    (t_fd_table t) (t_parent t) (t_exit_code t) (t_exit_signaled t) (t_exit_signal t)
    (t_next t) p.
Definition t_set_parent (p : option nat) (t : task) : task :=
  Task (t_pid t) (t_state t) (t_priority t) (t_time_slice t) (t_runtime_ms t) (t_sleep_until_ms t)
    (t_kernel_stack_base t) (t_kernel_stack t) (t_is_user_process t) (t_page_dir_phys t)
    (t_fd_table t) p (t_exit_code t) (t_exit_signaled t) (t_exit_signal t)
    (t_next t) (t_prev t).
Definition t_set_runtime (v : Z) (t : task) : task :=
  Task (t_pid t) (t_state t) (t_priority t) (t_time_slice t) v (t_sleep_until_ms t)
    (t_kernel_stack_base t) (t_kernel_stack t) (t_is_user_process t) (t_page_dir_phys t)
    (t_fd_table t) (t_parent t) (t_exit_code t) (t_exit_signaled t) (t_exit_signal t)
    (t_next t) (t_prev t).
Definition t_set_sleep (v : Z) (t : task) : task :=
  Task (t_pid t) (t_state t) (t_priority t) (t_time_slice t) (t_runtime_ms t) v
    (t_kernel_stack_base t) (t_kernel_stack t) (t_is_user_process t) (t_page_dir_phys t)
    (t_fd_table t) (t_parent t) (t_exit_code t) (t_exit_signaled t) (t_exit_signal t)
    (t_next t) (t_prev t).
(** The resources [sys_fork] gives its child. *)
Definition t_set_child (user : bool) (prio dir stack top fds : Z) (parent : option nat) (t : task) : task :=
  Task (t_pid t) (t_state t) prio DEFAULT_TIME_SLICE (t_runtime_ms t) (t_sleep_until_ms t)
    stack top user dir fds parent (t_exit_code t) (t_exit_signaled t) (t_exit_signal t)
    (t_next t) (t_prev t).
(** The resources a new thread or process gets. *)
Definition t_set_resources (user : bool) (dir stack top fds : Z) (t : task) : task :=
  Task (t_pid t) (t_state t) (t_priority t) (t_time_slice t) (t_runtime_ms t) (t_sleep_until_ms t)
    stack top user dir fds (t_parent t) (t_exit_code t) (t_exit_signaled t) (t_exit_signal t)
    (t_next t) (t_prev t).
Definition t_set_exit (code : Z) (signaled : bool) (signal : Z) (t : task) : task :=
  Task (t_pid t) (t_state t) (t_priority t) (t_time_slice t) (t_runtime_ms t) (t_sleep_until_ms t)
    (t_kernel_stack_base t) (t_kernel_stack t) (t_is_user_process t) (t_page_dir_phys t)
    (t_fd_table t) (t_parent t) code signaled signal (t_next t) (t_prev t).

(** What the scheduler asks of the heap, the descriptor tables, the virtual
    memory manager and the CPU; an allocation that fails gives 0.
    [tr_close_fds] closes every open descriptor
    of a table and frees the table; [tr_setup_user_stack] maps the user stack
    in a page directory; [tr_open_stdio] puts /dev/console, if there is one,
    on the first three descriptors of a table. *)
Class TaskResources (W : Type) := {
  tr_kfree : Z -> W -> W;
  tr_close_fds : Z -> W -> W;
  tr_free_page_directory : Z -> W -> W;
  tr_set_kernel_stack : Z -> W -> W;
  tr_sync_current_dir : Z -> W -> W;
  tr_kmalloc : Z -> W -> Z * W;
  tr_clone_page_directory : Z -> W -> Z * W;
  tr_fd_table_init : Z -> W -> W;
  tr_fd_table_copy : Z -> Z -> W -> Z * W;
  tr_page_directory : W -> Z;
  tr_setup_user_stack : Z -> W -> bool * W;
  tr_open_stdio : Z -> W -> W
}.

(** The static variables of task.c, the lock apart. *)
Record tcore (W : Type) := TCore {
  task_pool : list task;
  current_task : option nat;
  ready_queue_head : option nat;
  ready_queue_tail : option nat;
  next_pid : Z;
  active_task_count : Z;
  idle_task : option nat;
  scheduler_initialized : bool;
  pending_cleanup_task : option nat;
  tick_count : Z;
  world : W
}.
Arguments TCore {W}.
Arguments task_pool {W}.
Arguments current_task {W}.
Arguments ready_queue_head {W}.
Arguments ready_queue_tail {W}.
Arguments next_pid {W}.
Arguments active_task_count {W}.
Arguments idle_task {W}.
Arguments scheduler_initialized {W}.
Arguments pending_cleanup_task {W}.
Arguments tick_count {W}.
Arguments world {W}.

Record sched (W : Type) := Sched { core : tcore W; task_lock : lockst }.
Arguments Sched {W}.
Arguments core {W}.
Arguments task_lock {W}.

Section tcore.
Context {W : Type}.
Implicit Types (c : tcore W) (s : sched W).

Definition set_pool c (p : list task) : tcore W :=
  TCore p (current_task c) (ready_queue_head c) (ready_queue_tail c) (next_pid c)
    (active_task_count c) (idle_task c) (scheduler_initialized c) (pending_cleanup_task c)
    (tick_count c) (world c).
Definition set_current c (t : option nat) : tcore W :=
  TCore (task_pool c) t (ready_queue_head c) (ready_queue_tail c) (next_pid c)
    (active_task_count c) (idle_task c) (scheduler_initialized c) (pending_cleanup_task c)
    (tick_count c) (world c).
Definition set_head c (t : option nat) : tcore W :=
  TCore (task_pool c) (current_task c) t (ready_queue_tail c) (next_pid c)
    (active_task_count c) (idle_task c) (scheduler_initialized c) (pending_cleanup_task c)
    (tick_count c) (world c).
Definition set_tail c (t : option nat) : tcore W :=
  TCore (task_pool c) (current_task c) (ready_queue_head c) t (next_pid c)
    (active_task_count c) (idle_task c) (scheduler_initialized c) (pending_cleanup_task c)
    (tick_count c) (world c).
Definition set_next_pid c (v : Z) : tcore W :=
  TCore (task_pool c) (current_task c) (ready_queue_head c) (ready_queue_tail c) v
    (active_task_count c) (idle_task c) (scheduler_initialized c) (pending_cleanup_task c)
    (tick_count c) (world c).
Definition set_active c (v : Z) : tcore W :=
  TCore (task_pool c) (current_task c) (ready_queue_head c) (ready_queue_tail c) (next_pid c)
    v (idle_task c) (scheduler_initialized c) (pending_cleanup_task c)
    (tick_count c) (world c).
Definition set_pending c (t : option nat) : tcore W :=
  TCore (task_pool c) (current_task c) (ready_queue_head c) (ready_queue_tail c) (next_pid c)
    (active_task_count c) (idle_task c) (scheduler_initialized c) t
    (tick_count c) (world c).
Definition set_tick c (v : Z) : tcore W :=
  TCore (task_pool c) (current_task c) (ready_queue_head c) (ready_queue_tail c) (next_pid c)
    (active_task_count c) (idle_task c) (scheduler_initialized c) (pending_cleanup_task c)
    v (world c).
Definition set_world c (w : W) : tcore W :=
  TCore (task_pool c) (current_task c) (ready_queue_head c) (ready_queue_tail c) (next_pid c)
    (active_task_count c) (idle_task c) (scheduler_initialized c) (pending_cleanup_task c)
    (tick_count c) w.

(** [*task], and writing through the pointer. *)
Definition tget c (i : nat) : task := default null_task (task_pool c !! i).
Definition tupd c (i : nat) (f : task -> task) : tcore W :=
  set_pool c (<[i := f (tget c i)]> (task_pool c)).

(** A section under [task_lock], the interrupt flag saved and restored. *)
Definition with_task_lock {A} (f : tcore W -> A * tcore W) s : option (A * sched W) :=
  '(irq_state, l) ← lock_irqsave (task_lock s);
  let '(r, c) := f (core s) in
  Some (r, Sched c (unlock_irqrestore l irq_state)).

Definition irq_disable s : bool * sched W :=
  let '(prev_state, flag) := interrupts_disable (lk_irq (task_lock s)) in
  (prev_state, Sched (core s) (LockSt (lk_word (task_lock s)) flag)).
Definition irq_restore s (prev_state : bool) : sched W :=
  Sched (core s) (LockSt (lk_word (task_lock s))
                    (interrupts_restore (lk_irq (task_lock s)) prev_state)).
Definition on_core s (f : tcore W -> tcore W) : sched W := Sched (f (core s)) (task_lock s).

(** ** The ready queue *)

(** The linked-list part of [ready_queue_add]. *)
Definition queue_append (task : nat) c : tcore W :=
  let c := tupd c task (t_set_next None) in
  let c := tupd c task (t_set_prev (ready_queue_tail c)) in
  let c := match ready_queue_tail c with
           | Some q => tupd c q (t_set_next (Some task))
           | None => set_head c (Some task)
           end in
  set_tail c (Some task).

Definition ready_queue_add (task : option nat) s : option (sched W) :=
  match task with
  | None => Some s
  | Some t =>
      match t_state (tget (core s) t) with
      | TASK_UNUSED | TASK_ZOMBIE | TASK_TERMINATED => Some s
      | TASK_READY => '(_, s) ← with_task_lock (fun c => (tt, queue_append t c)) s; Some s
      | _ => Some s
      end
  end.

Definition queue_unlink (task : nat) c : tcore W :=
  let t := tget c task in
  let c := match t_prev t with
           | Some p => tupd c p (t_set_next (t_next t))
           | None => set_head c (t_next t)
           end in
  let t := tget c task in
  let c := match t_next t with
           | Some n => tupd c n (t_set_prev (t_prev t))
           | None => set_tail c (t_prev t)
           end in
  let c := tupd c task (t_set_next None) in
  tupd c task (t_set_prev None).

Definition ready_queue_remove (task : option nat) s : option (sched W) :=
  match task with
  | None => Some s
  | Some t => '(_, s) ← with_task_lock (fun c => (tt, queue_unlink t c)) s; Some s
  end.

Definition queue_pop c : option nat * tcore W :=
  match ready_queue_head c with
  | None => (None, c)
  | Some t =>
      let c := set_head c (t_next (tget c t)) in
      let c := match ready_queue_head c with
               | Some h => tupd c h (t_set_prev None)
               | None => set_tail c None
               end in
      let c := tupd c t (t_set_next None) in
      (Some t, tupd c t (t_set_prev None))
  end.

Definition ready_queue_pop s : option (option nat * sched W) := with_task_lock queue_pop s.

(** ** Task control blocks *)

(** The first index from [i] on whose block satisfies [p]; [n] blocks are left. *)
Fixpoint find_task (p : task -> bool) (n : nat) c (i : nat) : option nat :=
  match n with
  | O => None
  | S n => if p (tget c i) then Some i else find_task p n c (S i)
  end.

Definition is_state (st : task_state) (t : task) : bool := bool_decide (t_state t = st).

(** The block [task_alloc] hands out. *)
Definition fresh_task (pid : Z) : task :=
  Task pid TASK_READY DEFAULT_PRIORITY DEFAULT_TIME_SLICE 0 0 0 0 false 0 0 None 0 false 0 None None.

Definition task_alloc s : option (option nat * sched W) :=
  with_task_lock (fun c =>
    match find_task (is_state TASK_UNUSED) (Z.to_nat MAX_TASKS) c 0 with
    | None => (None, c)
    | Some i =>
        let c := tupd c i (fun _ => fresh_task (next_pid c)) in
        let c := set_next_pid c (u32 (next_pid c + 1)) in
        (Some i, set_active c (u32 (active_task_count c + 1)))
    end) s.

Definition task_get_by_pid (pid : Z) s : option (option nat * sched W) :=
  with_task_lock (fun c =>
    (find_task (fun t => negb (is_state TASK_UNUSED t) && (t_pid t =? pid))
       (Z.to_nat MAX_TASKS) c 0, c)) s.

Definition task_get_current s : option nat := current_task (core s).

Definition task_get_count s : option (Z * sched W) :=
  with_task_lock (fun c => (active_task_count c, c)) s.

(** Clearing the block, under the lock. *)
Definition clear_block (task : nat) c : unit * tcore W :=
  let c := tupd c task (fun _ => null_task) in
  let c := tupd c task (t_set_state TASK_UNUSED) in
  (tt, set_active c (u32 (active_task_count c - 1))).

Section resources.
Context `{!TaskResources W}.

(** The releases that [task_free] and the deferred clean-up both do. *)
Definition free_stack_and_fds (kernel_stack_base fd_table : Z) (w : W) : W :=
  let w := if kernel_stack_base =? 0 then w else tr_kfree kernel_stack_base w in
  if fd_table =? 0 then w else tr_close_fds fd_table w.
Definition free_directory (is_user : bool) (page_dir_phys : Z) (w : W) : W :=
  if is_user && negb (page_dir_phys =? 0) then tr_free_page_directory page_dir_phys w else w.

Definition task_free (task : option nat) s : option (sched W) :=
  match task with
  | None => Some s
  | Some i =>
      let t := tget (core s) i in
      let s := on_core s (fun c => set_world c
                 (free_stack_and_fds (t_kernel_stack_base t) (t_fd_table t) (world c))) in
      let s := on_core s (fun c => set_world c
                 (free_directory (t_is_user_process t) (t_page_dir_phys t) (world c))) in
      '(_, s) ← with_task_lock (clear_block i) s;
      Some s
  end.

(** ** The scheduler *)

(** The task left over from an earlier call, now that its stack is not in use. *)
Definition cleanup_pending s : option (sched W) :=
  match pending_cleanup_task (core s) with
  | None => Some s
  | Some i =>
      let s := on_core s (fun c => set_pending c None) in
      let t := tget (core s) i in
      '(_, s) ← with_task_lock (clear_block i) s;
      let s := on_core s (fun c => set_world c
                 (free_stack_and_fds (t_kernel_stack_base t) (t_fd_table t) (world c))) in
      Some (on_core s (fun c => set_world c
              (free_directory (t_is_user_process t) (t_page_dir_phys t) (world c))))
  end.

(** [prev_task && prev_task != idle_task && prev_task->state == st] *)
Definition prev_is (prev_task : option nat) (st : task_state) s : bool :=
  match prev_task with
  | Some p => bool_decide (prev_task <> idle_task (core s)) && is_state st (tget (core s) p)
  | None => false
  end.

(** A task that is still running goes back to the queue. *)
Definition requeue_prev (prev_task : option nat) s : option (sched W) :=
  match prev_task with
  | Some p =>
      if prev_is prev_task TASK_RUNNING s then
        ready_queue_add prev_task (on_core s (fun c => tupd c p (t_set_state TASK_READY)))
      else Some s
  | None => Some s
  end.

(** The choice of the next task, which becomes the current one. *)
Definition run_next s : option (nat * sched W) :=
  '(popped, s) ← ready_queue_pop s;
  next_task ← match popped with Some n => Some n | None => idle_task (core s) end;
  let s := on_core s (fun c => set_current (tupd c next_task (t_set_state TASK_RUNNING)) (Some next_task)) in
  let t := tget (core s) next_task in
  Some (next_task,
        if t_is_user_process t
        then on_core s (fun c => set_world c (tr_set_kernel_stack (t_kernel_stack t) (world c)))
        else s).

(** The result is the context switch done at the end, if any: the task left
    ([None] after [task_exit]) and the task entered.  After a switch the CPU
    runs on the saved context of the new task, with interrupts off until that
    context restores its own flag. *)
Definition task_schedule s : option (option (option nat * nat) * sched W) :=
  if negb (scheduler_initialized (core s)) then Some (None, s)
  else
    let '(prev_state, s) := irq_disable s in
    s ← cleanup_pending s;
    let prev_task := current_task (core s) in
    let should_free_prev_task := prev_is prev_task TASK_TERMINATED s in
    s ← requeue_prev prev_task s;
    '(next_task, s) ← run_next s;
    let t := tget (core s) next_task in
    if bool_decide (prev_task = Some next_task) then Some (None, irq_restore s prev_state)
    else
      let s := if t_is_user_process t
               then on_core s (fun c => set_world c (tr_sync_current_dir (t_page_dir_phys t) (world c)))
               else s in
      let s := if should_free_prev_task then on_core s (fun c => set_pending c prev_task) else s in
      Some (Some (prev_task, next_task), s).

Definition task_yield s := task_schedule s.

(** The pass over the pool in [task_timer_tick]: due sleepers become ready
    and are collected, in pool order; [n] blocks are left. *)
Fixpoint wake_due (now : Z) (n : nat) (i : nat) c : list nat * tcore W :=
  match n with
  | O => ([], c)
  | S n =>
      let t := tget c i in
      if is_state TASK_BLOCKED t && (0 <? t_sleep_until_ms t) && (t_sleep_until_ms t <=? now) then
        let c := tupd c i (fun t => t_set_state TASK_READY (t_set_sleep 0 t)) in
        let '(l, c) := wake_due now n (S i) c in
        (i :: l, c)
      else wake_due now n (S i) c
  end.

Fixpoint add_all (l : list nat) s : option (sched W) :=
  match l with
  | [] => Some s
  | i :: l => s ← ready_queue_add (Some i) s; add_all l s
  end.

(** [frequency] and [now] are what the timer driver reports. *)
Definition task_timer_tick (frequency now : Z) s : option (sched W) :=
  match current_task (core s) with
  | Some cur =>
      if negb (scheduler_initialized (core s)) then Some s
      else
        let tick_ms := 1000 / frequency in
        let s := on_core s (fun c =>
                   tupd c cur (fun t => t_set_runtime (u64 (t_runtime_ms t + tick_ms)) t)) in
        '(tasks_to_wake, s) ← with_task_lock (wake_due now (Z.to_nat MAX_TASKS) 0) s;
        s ← add_all tasks_to_wake s;
        let s := on_core s (fun c => set_tick c (u32 (tick_count c + 1))) in
        Some (if t_time_slice (tget (core s) cur) <=? tick_count (core s)
              then on_core s (fun c => set_tick c 0) else s)
  | None => Some s
  end.

(** ** Task control *)

(** The pass over the pool in [task_exit]: zombie children of [cur] are
    collected, the other children lose their parent; [n] blocks are left. *)
Fixpoint part_children (cur : nat) (n : nat) (i : nat) c : list nat * tcore W :=
  match n with
  | O => ([], c)
  | S n =>
      let t := tget c i in
      if is_state TASK_UNUSED t then part_children cur n (S i) c
      else if bool_decide (t_parent t = Some cur) then
        if is_state TASK_ZOMBIE t then
          let '(l, c) := part_children cur n (S i) c in (i :: l, c)
        else part_children cur n (S i) (tupd c i (t_set_parent None))
      else part_children cur n (S i) c
  end.

Fixpoint free_all (l : list nat) s : option (sched W) :=
  match l with
  | [] => Some s
  | i :: l => s ← task_free (Some i) s; free_all l s
  end.

(** [task->parent && task->parent->state != TASK_UNUSED] *)
Definition has_parent c (i : nat) : bool :=
  match t_parent (tget c i) with
  | Some p => negb (is_state TASK_UNUSED (tget c p))
  | None => false
  end.

Definition task_exit (exit_code : Z) s : option (option (option nat * nat) * sched W) :=
  let '(_, s) := irq_disable s in
  cur ← current_task (core s);
  let s := on_core s (fun c => tupd c cur
             (fun t => t_set_exit exit_code false (t_exit_signal t) t)) in
  '(zombie_children, s) ← with_task_lock (part_children cur (Z.to_nat MAX_TASKS) 0) s;
  s ← free_all zombie_children s;
  let st := if has_parent (core s) cur then TASK_ZOMBIE else TASK_TERMINATED in
  let s := on_core s (fun c => tupd c cur (t_set_state st)) in
  task_schedule (on_core s (fun c => set_current c None)).

(** [now] is [timer_get_uptime_ms()]. *)
Definition task_sleep (ms now : Z) s : option (option (option nat * nat) * sched W) :=
  match current_task (core s) with
  | None => Some (None, s)
  | Some cur =>
      if ms =? 0 then Some (None, s)
      else
        let '(prev_state, s) := irq_disable s in
        let wake_time := u64 (now + ms) in
        let s := on_core s (fun c => tupd c cur (fun t => t_set_state TASK_BLOCKED (t_set_sleep wake_time t))) in
        '(switch, s) ← task_schedule s;
        Some (switch, match switch with None => irq_restore s prev_state | Some _ => s end)
  end.

Definition task_block s : option (option (option nat * nat) * sched W) :=
  match current_task (core s) with
  | None => Some (None, s)
  | Some cur =>
      let '(prev_state, s) := irq_disable s in
      let s := on_core s (fun c => tupd c cur (t_set_state TASK_BLOCKED)) in
      '(switch, s) ← task_schedule s;
      Some (switch, match switch with None => irq_restore s prev_state | Some _ => s end)
  end.

Definition task_wakeup s : option (sched W) :=
  '(task_to_wake, s) ← with_task_lock (fun c =>
      match find_task (fun t => is_state TASK_BLOCKED t && (t_sleep_until_ms t =? 0))
              (Z.to_nat MAX_TASKS) c 0 with
      | Some i => (Some i, tupd c i (t_set_state TASK_READY))
      | None => (None, c)
      end) s;
  match task_to_wake with
  | Some i => ready_queue_add (Some i) s
  | None => Some s
  end.

(** ** Initialisation *)

(** [stack] is what [kmalloc] returns for the idle stack, 0 when it fails. *)
Definition idle_block (stack page_dir : Z) : task :=
  Task 0 TASK_READY UINT32_MAX DEFAULT_TIME_SLICE 0 0 stack
    (if stack =? 0 then 0 else stack + KERNEL_STACK_SIZE) false
    (if stack =? 0 then 0 else page_dir) 0 None 0 false 0 None None.

Definition task_create_idle (stack page_dir : Z) c : bool * tcore W :=
  let c := TCore (task_pool c) (current_task c) (ready_queue_head c) (ready_queue_tail c)
             (next_pid c) (active_task_count c) (Some 0%nat) (scheduler_initialized c)
             (pending_cleanup_task c) (tick_count c) (world c) in
  let c := tupd c 0 (fun _ => idle_block stack page_dir) in
  if stack =? 0 then (false, c) else (true, set_active c (u32 (active_task_count c + 1))).

Definition task_init (stack page_dir : Z) s : sched W :=
  let c := core s in
  let c := TCore (repeat null_task (Z.to_nat MAX_TASKS)) None None None 1 0 (idle_task c)
             (scheduler_initialized c) (pending_cleanup_task c) (tick_count c) (world c) in
  let '(ok, c) := task_create_idle stack page_dir c in
  let c := if ok
           then TCore (task_pool c) (current_task c) (ready_queue_head c) (ready_queue_tail c)
                  (next_pid c) (active_task_count c) (idle_task c) true
                  (pending_cleanup_task c) (tick_count c) (world c)
           else c in
  Sched c (LockSt SPINLOCK_UNLOCKED (lk_irq (task_lock s))).

End resources.
End tcore.

#[global] Arguments tget {W} c i : simpl never.
#[global] Arguments tupd {W} c i f : simpl never.
