(* ===== verification/Paging.v ===== *)
(** * Page tables of the i686 target

    Models src/arch/i686/mm/paging.c: two levels of 1024 32-bit entries that
    live in the frames of the physical memory manager and are accessed
    through the direct map at [PHYS_TO_VIRT].  The processor's part is the
    page-table base register [cr3] and the translation cache [tlb], which
    holds entries the processor has walked to, by page number; [invlpg]
    drops one of them and a write to [cr3] all.  [None] as the result of an
    operation means that the PMM lock is already held. *)

From S2P Require Import Prelude Spinlock Mem Pmm.

(** ** Entries *)

Definition PAGE_PRESENT : Z := 0x001.
Definition PAGE_WRITE : Z := 0x002.
Definition PAGE_USER : Z := 0x004.
Definition PAGE_CACHE_DISABLE : Z := 0x010.
Definition PAGE_EXEC : Z := 0x100.
Definition PAGE_COW : Z := 0x200.

Definition HAL_PAGE_PRESENT : Z := 1.
Definition HAL_PAGE_WRITE : Z := 2.
Definition HAL_PAGE_USER : Z := 4.
Definition HAL_PAGE_NOCACHE : Z := 8.
Definition HAL_PAGE_EXEC : Z := 16.
Definition HAL_PAGE_COW : Z := 32.
Definition HAL_PAGE_DIRTY : Z := 64.
Definition HAL_PAGE_ACCESSED : Z := 128.
Definition HAL_PAGE_WRITECOMB : Z := 256.

Definition HAL_ADDR_SPACE_INVALID : Z := PADDR_INVALID.
Definition HAL_ADDR_SPACE_CURRENT : Z := 0.

(** [x & m] as a condition. *)
Definition flag (x m : Z) : bool := negb (Z.land x m =? 0).
(** [if (c) r |= m]. *)
Definition set_if (c : bool) (m r : Z) : Z := if c then Z.lor r m else r.
(** [x & ~m] in 32 bits. *)
Definition clear_bits (x m : Z) : Z := Z.land x (Z.lxor (Z.ones 32) m).

Definition i686_pde_index (virt : Z) : Z := Z.shiftr virt 22.
Definition i686_pte_index (virt : Z) : Z := Z.land (Z.shiftr virt 12) 0x3FF.
Definition i686_get_frame (entry : Z) : Z := Z.land entry 0xFFFFF000.
Definition i686_is_present (entry : Z) : bool := flag entry PAGE_PRESENT.

Definition i686_validate_pte_format (entry : Z) : bool :=
  if negb (i686_is_present entry) then true else negb (flag (i686_get_frame entry) (PAGE_SIZE - 1)).

Definition i686_validate_pde_format (entry : Z) : bool :=
  if negb (i686_is_present entry) then true else negb (flag (i686_get_frame entry) (PAGE_SIZE - 1)).

Definition hal_flags_to_i686 (hal_flags : Z) : Z :=
  set_if (flag hal_flags HAL_PAGE_COW) PAGE_COW
    (set_if (flag hal_flags HAL_PAGE_NOCACHE) PAGE_CACHE_DISABLE
       (set_if (flag hal_flags HAL_PAGE_USER) PAGE_USER
          (set_if (flag hal_flags HAL_PAGE_WRITE) PAGE_WRITE
             (set_if (flag hal_flags HAL_PAGE_PRESENT) PAGE_PRESENT 0)))).

Definition i686_flags_to_hal (i686_flags : Z) : Z :=
  set_if (flag i686_flags 0x20) HAL_PAGE_ACCESSED
    (set_if (flag i686_flags 0x40) HAL_PAGE_DIRTY
       (set_if (flag i686_flags PAGE_COW) HAL_PAGE_COW
          (set_if (flag i686_flags PAGE_CACHE_DISABLE) HAL_PAGE_NOCACHE
             (set_if (flag i686_flags PAGE_USER) HAL_PAGE_USER
                (set_if (flag i686_flags PAGE_WRITE) HAL_PAGE_WRITE
                   (set_if (flag i686_flags PAGE_PRESENT) HAL_PAGE_PRESENT 0)))))).

(** ** The machine *)

Record mmu := Mmu { pm : pmm; cr3 : Z; tlb : gmap Z Z }.

Definition set_pm (s : mmu) (p : pmm) : mmu := Mmu p (cr3 s) (tlb s).
Definition set_tlb (s : mmu) (t : gmap Z Z) : mmu := Mmu (pm s) (cr3 s) t.

(** The kernel's view of a physical frame, and entry [i] of a table in it. *)
Definition kva (phys : Z) : Z := PHYS_TO_VIRT I686 phys.
Definition pte_in (p : pmm) (table i : Z) : Z := rd32 (pmem p) (kva table + 4 * i).
Definition put_pte (p : pmm) (table i v : Z) : pmm := set_pmem p (wr32 (pmem p) (kva table + 4 * i) v).
Definition pte_of (s : mmu) (table i : Z) : Z := pte_in (pm s) table i.
Definition set_pte (s : mmu) (table i v : Z) : mmu := set_pm s (put_pte (pm s) table i v).

Definition hal_mmu_flush_tlb (s : mmu) (virt : Z) : mmu := set_tlb s (delete (Z.shiftr virt 12) (tlb s)).
Definition hal_mmu_flush_tlb_all (s : mmu) : mmu := set_tlb s ∅.
Definition hal_mmu_switch_space (s : mmu) (page_table_phys : Z) : mmu := Mmu (pm s) (u32 page_table_phys) ∅.
Definition hal_mmu_get_current_page_table (s : mmu) : Z := cr3 s.
Definition hal_mmu_current_space (s : mmu) : Z := hal_mmu_get_current_page_table s.

(** The physical address of the directory of a space. *)
Definition get_page_directory (s : mmu) (space : Z) : Z :=
  if (space =? HAL_ADDR_SPACE_CURRENT) || (space =? 0) then hal_mmu_get_current_page_table s else space.

(** ** Queries and changes of one mapping *)

(** The table and index of a present entry for [virt]. *)
Definition pt_walk (s : mmu) (space virt : Z) : option (Z * Z) :=
  let dir := get_page_directory s space in
  let pde := pte_of s dir (i686_pde_index (u32 virt)) in
  if negb (i686_is_present pde) then None
  else
    let table := i686_get_frame pde in
    let pt_idx := i686_pte_index (u32 virt) in
    if negb (i686_is_present (pte_of s table pt_idx)) then None else Some (table, pt_idx).

Definition hal_mmu_query (s : mmu) (space virt : Z) : option (Z * Z) :=
  '(table, pt_idx) ← pt_walk s space virt;
  let pte := pte_of s table pt_idx in
  Some (i686_get_frame pte, i686_flags_to_hal (Z.land pte 0xFFF)).

Definition hal_mmu_protect (s : mmu) (space virt set_flags clear_flags : Z) : bool * mmu :=
  match pt_walk s space virt with
  | None => (false, s)
  | Some (table, pt_idx) =>
      let pte := pte_of s table pt_idx in
      let current_flags := Z.lor (Z.land pte 0xFFF) (hal_flags_to_i686 set_flags) in
      let current_flags := clear_bits current_flags (hal_flags_to_i686 clear_flags) in
      (true, set_pte s table pt_idx (Z.lor (i686_get_frame pte) current_flags))
  end.

(** The table for [virt], created when the directory has none. *)
Definition map_table (s : mmu) (dir pd_idx i686_flags : Z) : option (option Z * mmu) :=
  let pde := pte_of s dir pd_idx in
  if negb (i686_is_present pde) then
    '(table_phys, p) ← pmm_alloc_frame I686 (pm s);
    let s := set_pm s p in
    if table_phys =? PADDR_INVALID then Some (None, s)
    else
      let s := set_pm s (set_pmem (pm s) (memset (pmem (pm s)) (kva table_phys) 0 (Z.to_nat PAGE_SIZE))) in
      let pde_flags := Z.lor PAGE_PRESENT PAGE_WRITE in
      let pde_flags := set_if (flag i686_flags PAGE_USER) PAGE_USER pde_flags in
      Some (Some table_phys, set_pte s dir pd_idx (Z.lor (u32 table_phys) pde_flags))
  else
    let s := if flag i686_flags PAGE_USER && negb (flag pde PAGE_USER)
             then set_pte s dir pd_idx (Z.lor pde PAGE_USER) else s in
    Some (Some (i686_get_frame pde), s).

Definition hal_mmu_map (s : mmu) (space virt phys flags : Z) : option (bool * mmu) :=
  if flag (Z.lor (u32 virt) (u32 phys)) (PAGE_SIZE - 1) then Some (false, s)
  else
    let i686_flags := hal_flags_to_i686 flags in
    '(table, s) ← map_table s (get_page_directory s space) (i686_pde_index (u32 virt)) i686_flags;
    match table with
    | None => Some (false, s)
    | Some table => Some (true, set_pte s table (i686_pte_index (u32 virt)) (Z.lor (u32 phys) i686_flags))
    end.

Definition hal_mmu_unmap (s : mmu) (space virt : Z) : Z * mmu :=
  if flag (u32 virt) (PAGE_SIZE - 1) then (PADDR_INVALID, s)
  else match pt_walk s space virt with
       | None => (PADDR_INVALID, s)
       | Some (table, pt_idx) => (i686_get_frame (pte_of s table pt_idx), set_pte s table pt_idx 0)
       end.

Definition hal_mmu_virt_to_phys (s : mmu) (virt : Z) : Z :=
  match hal_mmu_query s HAL_ADDR_SPACE_CURRENT virt with Some (phys, _) => phys | None => PADDR_INVALID end.

(** ** Address spaces *)

(** for (i = 512; i < 1024; i++) new_dir->entries[i] = src->entries[i]; with
    the source given by its kernel address. *)
Fixpoint copy_kernel_entries (n : nat) (s : mmu) (new_dir src_virt i : Z) : mmu :=
  match n with
  | O => s
  | S n => copy_kernel_entries n (set_pte s new_dir i (rd32 (pmem (pm s)) (src_virt + 4 * i))) new_dir src_virt (i + 1)
  end.

Definition hal_mmu_create_space (s : mmu) (boot_page_directory : Z) : option (Z * mmu) :=
  '(dir_phys, p) ← pmm_alloc_frame I686 (pm s);
  let s := set_pm s p in
  if dir_phys =? PADDR_INVALID then Some (HAL_ADDR_SPACE_INVALID, s)
  else
    let s := set_pm s (set_pmem (pm s) (memset (pmem (pm s)) (kva dir_phys) 0 (Z.to_nat PAGE_SIZE))) in
    Some (dir_phys, copy_kernel_entries 512 s dir_phys boot_page_directory 512).

(** ** Huge pages, as 512 pages *)

Definition HUGE_PAGE_SIZE_2MB : Z := 2 * 1024 * 1024.
Definition is_huge_page_aligned (addr : Z) : bool := negb (flag addr (HUGE_PAGE_SIZE_2MB - 1)).

(** The pages before [i], unmapped again. *)
Fixpoint unmap_pages (n : nat) (s : mmu) (space virt j : Z) : mmu :=
  match n with
  | O => s
  | S n => unmap_pages n (hal_mmu_unmap s space (u32 (virt + j * PAGE_SIZE))).2 space virt (j + 1)
  end.

Fixpoint map_pages (n : nat) (s : mmu) (space virt phys flags i : Z) : option (bool * mmu) :=
  match n with
  | O => Some (true, s)
  | S n =>
      '(mapped, s) ← hal_mmu_map s space (u32 (virt + i * PAGE_SIZE)) (u64 (phys + i * PAGE_SIZE)) flags;
      if negb mapped then Some (false, unmap_pages (Z.to_nat i) s space virt 0)
      else map_pages n s space virt phys flags (i + 1)
  end.

Definition hal_mmu_map_huge (s : mmu) (space virt phys flags : Z) : option (bool * mmu) :=
  if negb (is_huge_page_aligned (u32 virt)) || negb (is_huge_page_aligned (u32 phys)) then Some (false, s)
  else map_pages 512 s space virt phys flags 0.

Definition hal_mmu_unmap_huge (s : mmu) (space virt : Z) : Z * mmu :=
  if negb (is_huge_page_aligned (u32 virt)) then (PADDR_INVALID, s)
  else match hal_mmu_query s space virt with
       | None => (PADDR_INVALID, s)
       | Some (first_phys, _) => (first_phys, unmap_pages 512 s space virt 0)
       end.

(** ** Faults *)

Record hal_page_fault_info := FaultInfo {
  fi_fault_addr : Z; fi_raw_error : Z; fi_is_present : bool; fi_is_write : bool;
  fi_is_user : bool; fi_is_exec : bool; fi_is_reserved : bool
}.

Definition hal_mmu_parse_fault_with_error (fault_addr error_code : Z) : hal_page_fault_info :=
  FaultInfo fault_addr error_code (flag error_code 0x01) (flag error_code 0x02) (flag error_code 0x04)
    (flag error_code 0x10) (flag error_code 0x08).
