(* ===== verification/Vmm.v ===== *)
(** * The virtual memory manager

    Models src/mm/vmm.c as built for the i686 target: the directories in use,
    mappings in the current and in other directories, copy-on-write cloning
    and faults, release of a directory, and the window for device memory.
    [boot_page_directory] is the directory the boot code leaves, a linker
    symbol.  [current_dir] of the source is [kva (current_dir_phys s)].
    [None] as the result of an operation means that a lock is already held. *)

From S2P Require Import Prelude Spinlock Mem Pmm Task Paging.

Definition KERNEL_PDE_START : Z := 512.
Definition KERNEL_PDE_END : Z := 1024.
Definition MAX_PAGE_DIRECTORIES : Z := 64.
Definition MMIO_VIRT_BASE : Z := 0xF0000000.
Definition MMIO_VIRT_END : Z := 0xFFC00000.

(** [active_page_directories] holds the first [active_pd_count] entries. *)
Record vmm := Vmm {
  hw : mmu;
  current_dir_phys : Z;
  vmm_lock : lockst;
  active_page_directories : list Z;
  mmio_next_virt : Z;
  pat_initialized : bool
}.

Definition set_hw (s : vmm) (h : mmu) : vmm :=
  Vmm h (current_dir_phys s) (vmm_lock s) (active_page_directories s) (mmio_next_virt s) (pat_initialized s).
Definition set_current (s : vmm) (d : Z) : vmm :=
  Vmm (hw s) d (vmm_lock s) (active_page_directories s) (mmio_next_virt s) (pat_initialized s).
Definition set_vmm_lock (s : vmm) (l : lockst) : vmm :=
  Vmm (hw s) (current_dir_phys s) l (active_page_directories s) (mmio_next_virt s) (pat_initialized s).
Definition set_active (s : vmm) (l : list Z) : vmm :=
  Vmm (hw s) (current_dir_phys s) (vmm_lock s) l (mmio_next_virt s) (pat_initialized s).
Definition set_mmio (s : vmm) (v : Z) : vmm :=
  Vmm (hw s) (current_dir_phys s) (vmm_lock s) (active_page_directories s) v (pat_initialized s).

(** A section under [vmm_lock]; every return inside it unlocks first. *)
Definition vmm_locked {A} (s : vmm) (body : vmm -> option (A * vmm)) : option (A * vmm) :=
  '(irq_state, l) ← lock_irqsave (vmm_lock s);
  '(r, s) ← body (set_vmm_lock s l);
  Some (r, set_vmm_lock s (unlock_irqrestore (vmm_lock s) irq_state)).

(** ** Flags *)

Definition vmm_flags_to_hal (vmm_flags : Z) : Z :=
  set_if (flag vmm_flags PAGE_EXEC) HAL_PAGE_EXEC
    (set_if (flag vmm_flags PAGE_COW) HAL_PAGE_COW
       (set_if (flag vmm_flags PAGE_CACHE_DISABLE) HAL_PAGE_NOCACHE
          (set_if (flag vmm_flags PAGE_USER) HAL_PAGE_USER
             (set_if (flag vmm_flags PAGE_WRITE) HAL_PAGE_WRITE
                (set_if (flag vmm_flags PAGE_PRESENT) HAL_PAGE_PRESENT 0))))).

Definition hal_flags_to_vmm (hal_flags : Z) : Z :=
  set_if (flag hal_flags HAL_PAGE_COW) PAGE_COW
    (set_if (flag hal_flags HAL_PAGE_NOCACHE) PAGE_CACHE_DISABLE
       (set_if (flag hal_flags HAL_PAGE_USER) PAGE_USER
          (set_if (flag hal_flags HAL_PAGE_WRITE) PAGE_WRITE
             (set_if (flag hal_flags HAL_PAGE_PRESENT) PAGE_PRESENT 0)))).

(** ** Directories in use *)

Definition is_active_page_directory (s : vmm) (frame : Z) : bool :=
  existsb (fun d => d =? frame) (active_page_directories s).

Definition protect_phys_frame (p : pmm) (frame : Z) : option pmm :=
  if (frame =? 0) || (frame =? PADDR_INVALID) then Some p else pmm_protect_frame p frame.
Definition unprotect_phys_frame (p : pmm) (frame : Z) : option pmm :=
  if (frame =? 0) || (frame =? PADDR_INVALID) then Some p else pmm_unprotect_frame p frame.

Fixpoint protect_directory_range (n : nat) (h : mmu) (dir i : Z) : option mmu :=
  match n with
  | O => Some h
  | S n =>
      let e := pte_of h dir i in
      h ← (if i686_is_present e && negb (i686_get_frame e =? 0)
           then p ← protect_phys_frame (pm h) (i686_get_frame e); Some (set_pm h p) else Some h);
      protect_directory_range n h dir (i + 1)
  end.

Fixpoint release_directory_range (n : nat) (h : mmu) (dir i : Z) (clear_entries : bool) : option mmu :=
  match n with
  | O => Some h
  | S n =>
      let e := pte_of h dir i in
      h ← (if i686_is_present e then
             h ← (if i686_get_frame e =? 0 then Some h
                  else p ← unprotect_phys_frame (pm h) (i686_get_frame e); Some (set_pm h p));
             Some (if clear_entries then set_pte h dir i 0 else h)
           else Some h);
      release_directory_range n h dir (i + 1) clear_entries
  end.

Definition register_page_directory (s : vmm) (dir_phys : Z) : option vmm :=
  if MAX_PAGE_DIRECTORIES <=? Z.of_nat (length (active_page_directories s)) then Some s
  else if is_active_page_directory s dir_phys then Some s
  else
    p ← protect_phys_frame (pm (hw s)) dir_phys;
    Some (set_active (set_hw s (set_pm (hw s) p)) (active_page_directories s ++ [dir_phys])).

(** The entry found is overwritten with the last one. *)
Definition replace_last (l : list Z) (i : nat) : list Z :=
  let count := (length l - 1)%nat in
  match l !! count with Some d => take count (<[i := d]> l) | None => l end.

Definition unregister_page_directory (s : vmm) (dir_phys : Z) : option vmm :=
  match list_find (fun d => d = dir_phys) (active_page_directories s) with
  | None => Some s
  | Some (i, _) =>
      p ← unprotect_phys_frame (pm (hw s)) dir_phys;
      Some (set_active (set_hw s (set_pm (hw s) p)) (replace_last (active_page_directories s) i))
  end.

(** ** Mapping pages *)

Definition vmm_flush_tlb (h : mmu) (virt : Z) : mmu :=
  if virt =? 0 then hal_mmu_flush_tlb_all h else hal_mmu_flush_tlb h virt.

Definition vmm_get_page_directory (s : vmm) : Z := current_dir_phys s.

Section vmm.
Variable boot_page_directory : Z.

(** An entry of the boot directory. *)
Definition boot_pde (h : mmu) (i : Z) : Z := rd32 (pmem (pm h)) (boot_page_directory + 4 * i).
Definition set_boot_pde (h : mmu) (i v : Z) : mmu :=
  set_pm h (set_pmem (pm h) (wr32 (pmem (pm h)) (boot_page_directory + 4 * i) v)).

Definition vmm_map_page (s : vmm) (virt phys flags : Z) : option (bool * vmm) :=
  if flag (Z.lor virt phys) (PAGE_SIZE - 1) then Some (false, s)
  else vmm_locked s (fun s =>
    '(result, h) ← hal_mmu_map (hw s) HAL_ADDR_SPACE_CURRENT virt phys (vmm_flags_to_hal flags);
    let h :=
      if (result : bool) then
        let h := hal_mmu_flush_tlb h virt in
        if KERNEL_VIRTUAL_BASE I686 <=? virt then
          let pd := i686_pde_index virt in
          let e := pte_of h (current_dir_phys s) pd in
          if negb (boot_page_directory =? kva (current_dir_phys s)) && i686_is_present e
          then set_boot_pde h pd e else h
        else h
      else h in
    Some (result, set_hw s h)).

Definition vmm_unmap_page (s : vmm) (virt : Z) : option (unit * vmm) :=
  if flag virt (PAGE_SIZE - 1) then Some (tt, s)
  else vmm_locked s (fun s =>
    let '(_, h) := hal_mmu_unmap (hw s) HAL_ADDR_SPACE_CURRENT virt in
    Some (tt, set_hw s (hal_mmu_flush_tlb h virt))).

(** The space argument for a directory. *)
Definition space_of (s : vmm) (dir_phys : Z) : Z :=
  if dir_phys =? current_dir_phys s then HAL_ADDR_SPACE_CURRENT else dir_phys.

Definition vmm_map_page_in_directory (s : vmm) (dir_phys virt phys flags : Z) : option (bool * vmm) :=
  if flag (Z.lor virt phys) (PAGE_SIZE - 1) then Some (false, s)
  else vmm_locked s (fun s =>
    '(result, h) ← hal_mmu_map (hw s) (space_of s dir_phys) virt phys (vmm_flags_to_hal flags);
    let h := if result && (dir_phys =? current_dir_phys s) then hal_mmu_flush_tlb h virt else h in
    Some (result, set_hw s h)).

Definition vmm_unmap_page_in_directory (s : vmm) (dir_phys virt : Z) : option (Z * vmm) :=
  if flag virt (PAGE_SIZE - 1) then Some (0, s)
  else vmm_locked s (fun s =>
    let space := space_of s dir_phys in
    match hal_mmu_query (hw s) space virt with
    | None => Some (0, s)
    | Some (old_phys, _) =>
        let '(_, h) := hal_mmu_unmap (hw s) space virt in
        let h := if dir_phys =? current_dir_phys s then hal_mmu_flush_tlb h virt else h in
        Some (u32 old_phys, set_hw s h)
    end).

Definition vmm_virt_to_phys (s : vmm) (virt : Z) : option (Z * vmm) :=
  vmm_locked s (fun s =>
    match hal_mmu_query (hw s) HAL_ADDR_SPACE_CURRENT virt with
    | None => Some (0, s)
    | Some (phys, _) => Some (Z.lor (u32 phys) (Z.land virt (PAGE_SIZE - 1)), s)
    end).

(** ** Switching *)

Definition vmm_sync_current_dir (s : vmm) (dir_phys : Z) : option (unit * vmm) :=
  if dir_phys =? 0 then Some (tt, s)
  else vmm_locked s (fun s => Some (tt, set_current s dir_phys)).

Definition vmm_switch_page_directory (s : vmm) (dir_phys : Z) : option (unit * vmm) :=
  if dir_phys =? 0 then Some (tt, s)
  else vmm_locked s (fun s =>
    let s := set_current s dir_phys in
    Some (tt, set_hw s (hal_mmu_switch_space (hw s) dir_phys))).

(** ** Faults *)

Definition vmm_handle_kernel_page_fault (s : vmm) (addr : Z) : bool * vmm :=
  if addr <? KERNEL_VIRTUAL_BASE I686 then (false, s)
  else
    let pd_idx := Z.shiftr addr 22 in
    let e := boot_pde (hw s) pd_idx in
    if flag e PAGE_PRESENT
    then (true, set_hw s (vmm_flush_tlb (set_pte (hw s) (current_dir_phys s) pd_idx e) addr))
    else (false, s).

(** Write permission back on a page that is shared no more. *)
Definition cow_restore (h : mmu) (addr : Z) : mmu :=
  hal_mmu_flush_tlb (hal_mmu_protect h HAL_ADDR_SPACE_CURRENT addr HAL_PAGE_WRITE HAL_PAGE_COW).2 addr.

(** A private copy of [old_frame] in [new_frame], mapped in its place. *)
Definition cow_copy (h : mmu) (addr old_frame new_frame hal_flags : Z) : option mmu :=
  let h := set_pm h (set_pmem (pm h) (memcpy (pmem (pm h)) (kva new_frame) (kva old_frame) (Z.to_nat PAGE_SIZE))) in
  let new_flags := Z.lor (clear_bits hal_flags HAL_PAGE_COW) HAL_PAGE_WRITE in
  let page_addr := clear_bits addr (PAGE_SIZE - 1) in
  let '(_, h) := hal_mmu_unmap h HAL_ADDR_SPACE_CURRENT page_addr in
  '(_, h) ← hal_mmu_map h HAL_ADDR_SPACE_CURRENT page_addr new_frame new_flags;
  let h := hal_mmu_flush_tlb h addr in
  '(_, p) ← pmm_frame_ref_dec (pm h) old_frame;
  Some (set_pm h p).

Definition vmm_handle_cow_page_fault (s : vmm) (addr error_code : Z) : option (bool * vmm) :=
  if negb (Z.land error_code 0x3 =? 0x3) then Some (false, s)
  else vmm_locked s (fun s =>
    match hal_mmu_query (hw s) HAL_ADDR_SPACE_CURRENT addr with
    | None => Some (false, s)
    | Some (old_frame, hal_flags) =>
        if negb (flag hal_flags HAL_PAGE_COW) then Some (false, s)
        else if (old_frame =? PADDR_INVALID) || (old_frame =? 0) then Some (false, s)
        else
          '(refcount, p) ← pmm_frame_get_refcount (pm (hw s)) old_frame;
          let h := set_pm (hw s) p in
          if (refcount =? 0) || (refcount =? 1) then Some (true, set_hw s (cow_restore h addr))
          else
            '(new_frame, p) ← pmm_alloc_frame I686 (pm h);
            let h := set_pm h p in
            if new_frame =? PADDR_INVALID then Some (false, set_hw s h)
            else h ← cow_copy h addr old_frame new_frame hal_flags; Some (true, set_hw s h)
    end).

(** ** Creating and releasing directories *)

Definition vmm_create_page_directory (s : vmm) : option (Z * vmm) :=
  vmm_locked s (fun s =>
    '(new_space, h) ← hal_mmu_create_space (hw s) boot_page_directory;
    if new_space =? HAL_ADDR_SPACE_INVALID then Some (0, set_hw s h)
    else
      h ← protect_directory_range 512 h (u32 new_space) KERNEL_PDE_START;
      s ← register_page_directory (set_hw s h) (u32 new_space);
      Some (u32 new_space, s)).

(** Only tasks that run or may run again use their directory. *)
Definition is_page_directory_in_use (pool : list task) (dir_phys : Z) : bool :=
  existsb (fun t => match t_state t with
                    | TASK_UNUSED | TASK_ZOMBIE | TASK_TERMINATED => false
                    | _ => t_page_dir_phys t =? dir_phys
                    end) pool.

(** The pages of one table. *)
Fixpoint free_table_pages (n : nat) (h : mmu) (table j : Z) : option mmu :=
  match n with
  | O => Some h
  | S n =>
      let e := pte_of h table j in
      let frame := i686_get_frame e in
      h ← (if i686_is_present e && negb ((frame =? 0) || (0x80000000 <=? frame))
           then p ← pmm_free_frame (pm h) frame; Some (set_pm h p) else Some h);
      free_table_pages n h table (j + 1)
  end.

Fixpoint free_user_tables (n : nat) (h : mmu) (dir i : Z) : option mmu :=
  match n with
  | O => Some h
  | S n =>
      let e := pte_of h dir i in
      let table := i686_get_frame e in
      h ← (if i686_is_present e then
             if table =? 0 then Some (set_pte h dir i 0)
             else
               h ← free_table_pages 1024 h table 0;
               p ← unprotect_phys_frame (pm h) table;
               p ← pmm_free_frame p table;
               Some (set_pte (set_pm h p) dir i 0)
           else Some h);
      free_user_tables n h dir (i + 1)
  end.

Definition vmm_free_page_directory (pool : list task) (s : vmm) (dir_phys : Z) : option (unit * vmm) :=
  if dir_phys =? 0 then Some (tt, s)
  else if dir_phys =? current_dir_phys s then Some (tt, s)
  else if dir_phys =? VIRT_TO_PHYS I686 boot_page_directory then Some (tt, s)
  else if is_page_directory_in_use pool dir_phys then Some (tt, s)
  else vmm_locked s (fun s =>
    h ← free_user_tables 512 (hw s) dir_phys 0;
    h ← release_directory_range 512 h dir_phys KERNEL_PDE_START true;
    let s := set_hw s h in
    s ← (if is_active_page_directory s dir_phys then unregister_page_directory s dir_phys else Some s);
    p ← pmm_free_frame (pm (hw s)) dir_phys;
    Some (tt, set_hw s (set_pm (hw s) p))).

(** ** Cloning *)

(** The entries of one table: writable pages become read-only and
    copy-on-write in both tables; every page gets one more reference. *)
Fixpoint clone_table (n : nat) (h : mmu) (src_table new_table j : Z) : option mmu :=
  match n with
  | O => Some h
  | S n =>
      let e := pte_of h src_table j in
      h ← (if i686_is_present e then
             let src_frame := i686_get_frame e in
             let flags := Z.land e 0xFFF in
             let '(flags, h) :=
               if flag flags PAGE_WRITE then
                 let flags := Z.lor (clear_bits flags PAGE_WRITE) PAGE_COW in
                 (flags, set_pte h src_table j (Z.lor src_frame flags))
               else (flags, h) in
             let h := set_pte h new_table j (Z.lor src_frame flags) in
             '(_, p) ← pmm_frame_ref_inc (pm h) src_frame;
             Some (set_pm h p)
           else Some (set_pte h new_table j 0));
      clone_table n h src_table new_table (j + 1)
  end.

(** The user half: whether it failed, and [last_successful_pde]. *)
Fixpoint clone_user_tables (n : nat) (h : mmu) (src_dir new_dir i last : Z) : option (bool * Z * mmu) :=
  match n with
  | O => Some (false, last, h)
  | S n =>
      let e := pte_of h src_dir i in
      if i686_is_present e then
        let src_table := i686_get_frame e in
        if (0x80000000 <=? src_table) || (src_table =? 0) then Some (true, last, h)
        else
          '(new_table, p) ← pmm_alloc_frame I686 (pm h);
          let h := set_pm h p in
          if new_table =? PADDR_INVALID then Some (true, last, h)
          else
            h ← clone_table 1024 h src_table new_table 0;
            let pde_flags := Z.land (pte_of h src_dir i) 0xFFF in
            let h := set_pte h new_dir i (Z.lor (u32 new_table) pde_flags) in
            p ← protect_phys_frame (pm h) new_table;
            clone_user_tables n (set_pm h p) src_dir new_dir (i + 1) (i + 1)
      else clone_user_tables n h src_dir new_dir (i + 1) last
  end.

Definition vmm_clone_page_directory (pool : list task) (s : vmm) (src_dir_phys : Z) : option (Z * vmm) :=
  if (src_dir_phys =? 0) || (0x80000000 <=? src_dir_phys) then Some (0, s)
  else
    '(new_dir_phys, p) ← pmm_alloc_frame I686 (pm (hw s));
    let s := set_hw s (set_pm (hw s) p) in
    if new_dir_phys =? PADDR_INVALID then Some (0, s)
    else if new_dir_phys =? src_dir_phys then
      p ← pmm_free_frame (pm (hw s)) new_dir_phys;
      Some (0, set_hw s (set_pm (hw s) p))
    else
      '(r, s) ← vmm_locked s (fun s =>
        let h := hw s in
        let h := set_pm h (set_pmem (pm h) (memset (pmem (pm h)) (kva new_dir_phys) 0 (Z.to_nat PAGE_SIZE))) in
        let h := copy_kernel_entries 512 h new_dir_phys (kva src_dir_phys) 512 in
        h ← protect_directory_range 512 h new_dir_phys KERNEL_PDE_START;
        '(clone_failed, last, h) ← clone_user_tables 512 h src_dir_phys new_dir_phys 0 0;
        let h := if (src_dir_phys =? current_dir_phys s) && (0 <? last) then vmm_flush_tlb h 0 else h in
        let s := set_hw s h in
        if (clone_failed : bool) then Some (0, s)
        else
          s ← register_page_directory s (u32 new_dir_phys);
          Some (u32 new_dir_phys, s));
      if r =? 0 then
        '(_, s) ← vmm_free_page_directory pool s (u32 new_dir_phys); Some (0, s)
      else Some (r, s).

(** ** Empty tables *)

Fixpoint table_empty (n : nat) (h : mmu) (table pt : Z) : bool :=
  match n with
  | O => true
  | S n => if i686_is_present (pte_of h table pt) then false else table_empty n h table (pt + 1)
  end.

Fixpoint cleanup_tables (n : nat) (h : mmu) (dir pd : Z) : option mmu :=
  match n with
  | O => Some h
  | S n =>
      let pde := pte_of h dir pd in
      h ← (if i686_is_present pde && table_empty 1024 h (i686_get_frame pde) 0 then
             let h := set_pte h dir pd 0 in
             p ← pmm_free_frame (pm h) (i686_get_frame pde); Some (set_pm h p)
           else Some h);
      cleanup_tables n h dir (pd + 1)
  end.

Definition vmm_cleanup_empty_page_tables (s : vmm) (dir_phys start_virt end_virt : Z) : option (unit * vmm) :=
  if (dir_phys =? 0) || (end_virt <=? start_virt) then Some (tt, s)
  else if (KERNEL_VIRTUAL_BASE I686 <=? start_virt) || (KERNEL_VIRTUAL_BASE I686 <? end_virt) then Some (tt, s)
  else vmm_locked s (fun s =>
    let start_pde := i686_pde_index start_virt in
    let end_pde := i686_pde_index (end_virt - 1) in
    h ← cleanup_tables (Z.to_nat (end_pde - start_pde + 1)) (hw s) dir_phys start_pde;
    Some (tt, set_hw s h)).

(** ** Device memory *)

Fixpoint mmio_unmap (n : nat) (h : mmu) (virt j : Z) : mmu :=
  match n with
  | O => h
  | S n => mmio_unmap n (hal_mmu_unmap h HAL_ADDR_SPACE_CURRENT (u32 (virt + j * PAGE_SIZE))).2 virt (j + 1)
  end.

Fixpoint mmio_map (n : nat) (h : mmu) (virt_start phys_start hal_flags i : Z) : option (bool * mmu) :=
  match n with
  | O => Some (true, h)
  | S n =>
      let virt := u32 (virt_start + i * PAGE_SIZE) in
      '(mapped, h) ← hal_mmu_map h HAL_ADDR_SPACE_CURRENT virt (u32 (phys_start + i * PAGE_SIZE)) hal_flags;
      if negb mapped then Some (false, mmio_unmap (Z.to_nat i) h virt_start 0)
      else mmio_map n (hal_mmu_flush_tlb h virt) virt_start phys_start hal_flags (i + 1)
  end.

(** [vmm_map_mmio] and [vmm_map_framebuffer] differ in the flags. *)
Definition map_window (s : vmm) (phys_addr size hal_flags : Z) : option (Z * vmm) :=
  vmm_locked s (fun s =>
    let phys_start := PAGE_ALIGN_DOWN I686 phys_addr in
    let phys_end := PAGE_ALIGN_UP I686 (u32 (phys_addr + size)) in
    let num_pages := u32 (phys_end - phys_start) / PAGE_SIZE in
    let virt_start := mmio_next_virt s in
    if MMIO_VIRT_END <? u32 (virt_start + u32 (num_pages * PAGE_SIZE)) then Some (0, s)
    else
      '(mapped, h) ← mmio_map (Z.to_nat num_pages) (hw s) virt_start phys_start hal_flags 0;
      let s := set_hw s h in
      if negb mapped then Some (0, s)
      else
        Some (u32 (virt_start + (phys_addr - phys_start)),
              set_mmio s (u32 (virt_start + num_pages * PAGE_SIZE)))).

Definition vmm_map_mmio (s : vmm) (phys_addr size : Z) : option (Z * vmm) :=
  if size =? 0 then Some (0, s)
  else map_window s phys_addr size (Z.lor (Z.lor HAL_PAGE_PRESENT HAL_PAGE_WRITE) HAL_PAGE_NOCACHE).

Definition vmm_map_framebuffer (s : vmm) (phys_addr size : Z) : option (Z * vmm) :=
  if size =? 0 then Some (0, s)
  else map_window s phys_addr size
         (Z.lor (Z.lor HAL_PAGE_PRESENT HAL_PAGE_WRITE)
            (if pat_initialized s then HAL_PAGE_WRITECOMB else HAL_PAGE_NOCACHE)).

Fixpoint unmap_window (n : nat) (h : mmu) (virt : Z) : mmu :=
  match n with
  | O => h
  | S n => unmap_window n (hal_mmu_flush_tlb (hal_mmu_unmap h HAL_ADDR_SPACE_CURRENT virt).2 virt) (virt + PAGE_SIZE)
  end.

Definition vmm_unmap_mmio (s : vmm) (virt_addr size : Z) : option (unit * vmm) :=
  if (size =? 0) || (virt_addr <? MMIO_VIRT_BASE) || (MMIO_VIRT_END <=? virt_addr) then Some (tt, s)
  else vmm_locked s (fun s =>
    let virt_start := PAGE_ALIGN_DOWN I686 virt_addr in
    let virt_end := PAGE_ALIGN_UP I686 (u32 (virt_addr + size)) in
    Some (tt, set_hw s (unmap_window (Z.to_nat ((virt_end - virt_start) / PAGE_SIZE)) (hw s) virt_start))).

(** ** Start *)

Fixpoint fill_table (n : nat) (h : mmu) (table phys_base pte : Z) : mmu :=
  match n with
  | O => h
  | S n =>
      let phys_addr := u32 (phys_base + Z.shiftl pte 12) in
      fill_table n (set_pte h table pte (Z.lor (Z.lor phys_addr PAGE_PRESENT) PAGE_WRITE)) table phys_base (pte + 1)
  end.

(** The direct map, one table of 4 MB after the other, until memory for a
    table fails. *)
Fixpoint extend_direct_map (n : nat) (h : mmu) (dir pde : Z) : option mmu :=
  match n with
  | O => Some h
  | S n =>
      if i686_is_present (pte_of h dir pde) then extend_direct_map n h dir (pde + 1)
      else
        '(table_phys, p) ← pmm_alloc_frame I686 (pm h);
        let h := set_pm h p in
        if table_phys =? PADDR_INVALID then Some h
        else if 0x1000000 <=? table_phys then
          p ← pmm_free_frame (pm h) table_phys; Some (set_pm h p)
        else
          let h := fill_table 1024 h table_phys (u32 (Z.shiftl (pde - 512) 22)) 0 in
          let h := set_pte h dir pde (Z.lor (Z.lor (u32 table_phys) PAGE_PRESENT) PAGE_WRITE) in
          extend_direct_map n (vmm_flush_tlb h 0) dir (pde + 1)
  end.

Definition vmm_init (s : vmm) : option vmm :=
  let current := VIRT_TO_PHYS I686 boot_page_directory in
  let s := set_current (set_vmm_lock s (LockSt SPINLOCK_UNLOCKED (lk_irq (vmm_lock s)))) current in
  let s := if hal_mmu_get_current_page_table (hw s) =? current then s
           else set_hw s (hal_mmu_switch_space (hw s) current) in
  let max_phys := u32 (pi_total_frames (pmm_get_info (pm (hw s))) * PAGE_SIZE) in
  let max_phys := if 0x80000000 <? max_phys then 0x80000000 else max_phys in
  let end_pde := 512 + Z.shiftr (u32 (max_phys + 0x3FFFFF)) 22 in
  h ← extend_direct_map (Z.to_nat (end_pde - 516)) (hw s) current 516;
  s ← register_page_directory (set_hw s h) current;
  h ← protect_directory_range 512 (hw s) current KERNEL_PDE_START;
  Some (set_hw s h).

(** ** The address-space interface of the page tables *)

Definition hal_mmu_clone_space (pool : list task) (s : vmm) (src : Z) : option (Z * vmm) :=
  if src =? HAL_ADDR_SPACE_INVALID then Some (HAL_ADDR_SPACE_INVALID, s)
  else
    let src_phys := if src =? HAL_ADDR_SPACE_CURRENT then hal_mmu_get_current_page_table (hw s) else src in
    '(new_dir_phys, s) ← vmm_clone_page_directory pool s src_phys;
    Some (if new_dir_phys =? 0 then HAL_ADDR_SPACE_INVALID else new_dir_phys, s).

Definition hal_mmu_destroy_space (pool : list task) (s : vmm) (space : Z) : option vmm :=
  if (space =? HAL_ADDR_SPACE_INVALID) || (space =? 0) then Some s
  else if space =? hal_mmu_current_space (hw s) then Some s
  else '(_, s) ← vmm_free_page_directory pool s space; Some s.

End vmm.
