(* ===== verification/MmCalls.v ===== *)
(** * Memory system calls

    Models src/kernel/syscalls/mm.c on the i686 target.  The current task is
    the record [proc] of the fields the calls use.  The file of a mapping is
    the descriptor's access mode with the size of the node and what
    [vfs_read] returns at an offset. *)

From S2P Require Import Prelude Spinlock Mem Pmm Task Paging Vmm.

Definition MMAP_REGION_START : Z := 0x40000000.
Definition MMAP_REGION_END : Z := 0x70000000.
Definition USER_SPACE_END : Z := 0x80000000.
Definition PROT_READ : Z := 0x1.
Definition PROT_WRITE : Z := 0x2.
Definition MAP_PRIVATE : Z := 0x02.
Definition MAP_ANONYMOUS : Z := 0x20.

(** [(uint32_t)-1]. *)
Definition MM_FAILED : Z := 0xFFFFFFFF.

Record proc := Proc {
  pr_is_user_process : bool;
  pr_page_dir_phys : Z;
  pr_heap_start : Z;
  pr_heap_end : Z;
  pr_heap_max : Z
}.

Definition set_heap_end (c : proc) (v : Z) : proc :=
  Proc (pr_is_user_process c) (pr_page_dir_phys c) (pr_heap_start c) v (pr_heap_max c).

(** The turns of for (page = start; page < start + length; page += PAGE_SIZE),
    the bound computed in 32 bits. *)
Definition turns_of (start length : Z) : nat := Z.to_nat ((u32 (start + length) - start) / PAGE_SIZE).

Definition on_pmm (s : vmm) (f : pmm -> option pmm) : option vmm :=
  p ← f (pm (hw s)); Some (set_hw s (set_pm (hw s) p)).

(** [memset((void * )PHYS_TO_VIRT(phys), 0, PAGE_SIZE)]. *)
Definition clear_page (s : vmm) (phys : Z) : vmm :=
  set_hw s (set_pm (hw s) (set_pmem (pm (hw s)) (memset (pmem (pm (hw s))) (kva phys) 0 (Z.to_nat PAGE_SIZE)))).

(** A page that is unmapped gives its frame back. *)
Definition drop_page (s : vmm) (dir page : Z) : option vmm :=
  '(phys, s) ← vmm_unmap_page_in_directory s dir page;
  if phys =? 0 then Some s else on_pmm s (fun p => pmm_free_frame p phys).

Fixpoint drop_pages (n : nat) (s : vmm) (dir page : Z) : option vmm :=
  match n with
  | O => Some s
  | S n => s ← drop_page s dir page; drop_pages n s dir (page + PAGE_SIZE)
  end.

(** A zeroed frame, with [fill] stored in it, mapped at [page]; [false] when
    memory for the page or for its table fails. *)
Definition new_page (s : vmm) (dir page flags : Z) (fill : mem -> Z -> mem) : option (bool * vmm) :=
  '(phys, p) ← pmm_alloc_frame I686 (pm (hw s));
  let s := set_hw s (set_pm (hw s) p) in
  if phys =? PADDR_INVALID then Some (false, s)
  else
    let s := clear_page s phys in
    let s := set_hw s (set_pm (hw s) (set_pmem (pm (hw s)) (fill (pmem (pm (hw s))) (kva phys)))) in
    '(mapped, s) ← vmm_map_page_in_directory s dir page (u32 phys) flags;
    if (mapped : bool) then Some (true, s)
    else s ← on_pmm s (fun p => pmm_free_frame p phys); Some (false, s).

(** ** brk *)

(** The pages from [page] on; the address reached. *)
Fixpoint grow_heap (n : nat) (s : vmm) (dir page : Z) : option (bool * Z * vmm) :=
  match n with
  | O => Some (true, page, s)
  | S n =>
      '(mapped, s) ← new_page s dir page (Z.lor (Z.lor PAGE_PRESENT PAGE_WRITE) PAGE_USER) (fun m _ => m);
      if (mapped : bool) then grow_heap n s dir (page + PAGE_SIZE) else Some (false, page, s)
  end.

Definition sys_brk (c : option proc) (s : vmm) (addr : Z) : option (Z * option proc * vmm) :=
  match c with
  | None => Some (MM_FAILED, c, s)
  | Some current =>
      if negb (pr_is_user_process current) then Some (MM_FAILED, c, s)
      else if addr =? 0 then Some (u32 (pr_heap_end current), c, s)
      else if addr <? pr_heap_start current then Some (MM_FAILED, c, s)
      else if pr_heap_max current <? addr then Some (MM_FAILED, c, s)
      else
        let old_end_aligned := PAGE_ALIGN_UP I686 (u32 (pr_heap_end current)) in
        let new_end_aligned := PAGE_ALIGN_UP I686 addr in
        if old_end_aligned <? new_end_aligned then
          '(all, reached, s) ← grow_heap (Z.to_nat ((new_end_aligned - old_end_aligned) / PAGE_SIZE)) s
                                 (pr_page_dir_phys current) old_end_aligned;
          if (all : bool) then Some (addr, Some (set_heap_end current addr), s)
          else Some (u32 reached, Some (set_heap_end current reached), s)
        else
          s ← drop_pages (Z.to_nat ((old_end_aligned - new_end_aligned) / PAGE_SIZE)) s
                (pr_page_dir_phys current) new_end_aligned;
          Some (addr, Some (set_heap_end current addr), s)
  end.

(** ** mmap *)

Fixpoint is_vaddr_range_free (n : nat) (h : mmu) (dir addr : Z) : bool :=
  match n with
  | O => true
  | S n =>
      let pde := pte_of h dir (Z.shiftr addr 22) in
      let pt_idx := Z.land (Z.shiftr addr 12) 0x3FF in
      if flag pde PAGE_PRESENT && flag (pte_of h (Z.land pde (PAGE_MASK I686)) pt_idx) PAGE_PRESENT then false
      else is_vaddr_range_free n h dir (addr + PAGE_SIZE)
  end.

(** The linear search from [start] over [n] pages. *)
Fixpoint search_vaddr (n : nat) (h : mmu) (dir start length : Z) : Z :=
  match n with
  | O => 0
  | S n =>
      if is_vaddr_range_free (turns_of start length) h dir start then start
      else search_vaddr n h dir (start + PAGE_SIZE) length
  end.

Definition find_free_vaddr (h : mmu) (dir hint length : Z) : Z :=
  let start := PAGE_ALIGN_UP I686 hint in
  if negb (hint =? 0) && (MMAP_REGION_START <=? start) && (u32 (start + length) <=? MMAP_REGION_END) &&
     is_vaddr_range_free (turns_of start length) h dir start then start
  else
    search_vaddr (Z.to_nat ((MMAP_REGION_END - length - MMAP_REGION_START) / PAGE_SIZE + 1)) h dir MMAP_REGION_START length.

(** The pages from [page] on, [done] of them mapped; on failure those are
    dropped again.  [fill] stores the contents of a page. *)
Fixpoint mmap_pages (n : nat) (s : vmm) (dir vaddr done flags : Z) (fill : Z -> mem -> Z -> mem) : option (Z * vmm) :=
  match n with
  | O => Some (vaddr, s)
  | S n =>
      '(mapped, s) ← new_page s dir (vaddr + done * PAGE_SIZE) flags (fill done);
      if (mapped : bool) then mmap_pages n s dir vaddr (done + 1) flags fill
      else s ← drop_pages (Z.to_nat done) s dir vaddr; Some (MM_FAILED, s)
  end.

Definition do_mmap_anonymous (s : vmm) (dir vaddr length page_flags : Z) : option (Z * vmm) :=
  mmap_pages (turns_of vaddr length) s dir vaddr 0 page_flags (fun _ m _ => m).

Record mapped_file := MappedFile {
  mf_regular : bool;
  mf_flags : Z;
  mf_size : Z;
  mf_read : Z -> Z -> list Z
}.

Fixpoint store_bytes (l : list Z) (m : mem) (p : Z) : mem :=
  match l with [] => m | c :: l => store_bytes l (wr m p c) (p + 1) end.

(** Page [k] of the mapping holds the file from its offset on, zeros behind
    its end. *)
Definition file_page (f : mapped_file) (offset k : Z) (m : mem) (p : Z) : mem :=
  let file_offset := u32 (offset + k * PAGE_SIZE) in
  if file_offset <? mf_size f then
    let read_size := if mf_size f <? u32 (file_offset + PAGE_SIZE) then mf_size f - file_offset else PAGE_SIZE in
    store_bytes (mf_read f file_offset read_size) m p
  else m.

Definition do_mmap_file (s : vmm) (dir vaddr length page_flags : Z) (f : mapped_file) (offset : Z) : option (Z * vmm) :=
  mmap_pages (turns_of vaddr length) s dir vaddr 0 page_flags (file_page f offset).

(** The checks on the file of a mapping that is not anonymous. *)
Definition file_allowed (fd prot flags : Z) (file : option mapped_file) : option mapped_file :=
  if fd <? 0 then None
  else
    f ← file;
    if negb (mf_regular f) then None
    else
      let access_mode := Z.land (mf_flags f) 3 in
      let can_read := (access_mode =? 0) || (access_mode =? 2) in
      let can_write := (access_mode =? 1) || (access_mode =? 2) in
      if flag prot PROT_READ && negb can_read then None
      else if flag prot PROT_WRITE && negb (flag flags MAP_PRIVATE) && negb can_write then None
      else Some f.

(** [file] is the entry of descriptor [fd]. *)
Definition sys_mmap (c : option proc) (s : vmm) (addr length prot flags fd offset : Z) (file : option mapped_file)
    : option (Z * vmm) :=
  match c with
  | None => Some (MM_FAILED, s)
  | Some current =>
      if negb (pr_is_user_process current) then Some (MM_FAILED, s)
      else
        let length := PAGE_ALIGN_UP I686 length in
        if length =? 0 then Some (MM_FAILED, s)
        else if MMAP_REGION_END - MMAP_REGION_START <? length then Some (MM_FAILED, s)
        else if flag offset (PAGE_SIZE - 1) then Some (MM_FAILED, s)
        else
          let is_anonymous := flag flags MAP_ANONYMOUS in
          let source := if is_anonymous then None else file_allowed fd prot flags file in
          if negb is_anonymous && match source with None => true | Some _ => false end then Some (MM_FAILED, s)
          else
            let vaddr := find_free_vaddr (hw s) (pr_page_dir_phys current) addr length in
            if vaddr =? 0 then Some (MM_FAILED, s)
            else
              let page_flags := set_if (flag prot PROT_WRITE) PAGE_WRITE (Z.lor PAGE_PRESENT PAGE_USER) in
              match source with
              | None => do_mmap_anonymous s (pr_page_dir_phys current) vaddr length page_flags
              | Some f => do_mmap_file s (pr_page_dir_phys current) vaddr length page_flags f offset
              end
  end.

Definition sys_munmap (c : option proc) (s : vmm) (addr length : Z) : option (Z * vmm) :=
  match c with
  | None => Some (MM_FAILED, s)
  | Some current =>
      if negb (pr_is_user_process current) then Some (MM_FAILED, s)
      else
        let aligned_addr := PAGE_ALIGN_DOWN I686 addr in
        let length := PAGE_ALIGN_UP I686 (u32 (length + (addr - aligned_addr))) in
        if length =? 0 then Some (0, s)
        else if (USER_SPACE_END <=? aligned_addr) || (USER_SPACE_END <? u32 (aligned_addr + length)) then Some (MM_FAILED, s)
        else
          s ← drop_pages (turns_of aligned_addr length) s (pr_page_dir_phys current) aligned_addr;
          Some (0, s)
  end.
