(* ===== verification/FrameMem.v ===== *)
(** * Frames in memory

    Reads and writes through the direct map, seen frame by frame: entries of
    tables are 32-bit words of a frame, and a change of one frame leaves the
    others as they were.  Then the flags of entries. *)

From S2P Require Import Prelude Spinlock Mem Pmm PmmFacts PmmProps Task Paging.

(** ** Frames *)

(** A frame the direct map reaches. *)
Definition is_frame (f : Z) : Prop := f mod PAGE_SIZE = 0 /\ 0 <= f < 2 ^ 31.

Lemma kva_frame f : is_frame f -> kva f = f + 2 ^ 31.
Proof.
  intros [_ Hf]. unfold kva, PHYS_TO_VIRT, uptr. change (ptr_bits I686) with 32. change (KERNEL_VIRTUAL_BASE I686) with (2 ^ 31).
  rewrite (Z.mod_small f), Z.mod_small by lia. done.
Qed.

(** Distinct frames do not overlap. *)
Lemma frames_apart f g : is_frame f -> is_frame g -> f <> g -> f + PAGE_SIZE <= g \/ g + PAGE_SIZE <= f.
Proof.
  intros [Hf _] [Hg _] Hne. apply Z.mod_divide in Hf as [a ->]; [|done]. apply Z.mod_divide in Hg as [b ->]; [|done].
  unfold PAGE_SIZE in *. assert (a <> b) by congruence. lia.
Qed.

(** The two memories hold the same bytes in a frame. *)
Definition same_frame (m m' : mem) (f : Z) : Prop :=
  forall o, 0 <= o < PAGE_SIZE -> rd m' (kva f + o) = rd m (kva f + o).

Lemma same_frame_refl m f : same_frame m m f.
Proof. by intros o Ho. Qed.

Lemma same_frame_trans m m1 m2 f : same_frame m m1 f -> same_frame m1 m2 f -> same_frame m m2 f.
Proof. intros H1 H2 o Ho. by rewrite H2, H1. Qed.

Lemma filled_frame m m' f g v : is_frame f -> is_frame g -> f <> g -> filled m m' (kva f) v PAGE_SIZE -> same_frame m m' g.
Proof.
  intros Hf Hg Hne Hfl o Ho. rewrite Hfl, !kva_frame by done. destruct (frames_apart f g Hf Hg Hne); zcases.
Qed.

Lemma copied_other m m' f g src : is_frame f -> is_frame g -> f <> g -> copied m m' (kva f) src PAGE_SIZE -> same_frame m m' g.
Proof.
  intros Hf Hg Hne Hc o Ho. rewrite Hc, !kva_frame by done. destruct (frames_apart f g Hf Hg Hne); zcases.
Qed.

Lemma wr_other m f g o v : is_frame f -> is_frame g -> f <> g -> 0 <= o < PAGE_SIZE -> same_frame m (wr m (kva f + o) v) g.
Proof.
  intros Hf Hg Hne Ho o' Ho'. rewrite rd_wr, !kva_frame by done. destruct (frames_apart f g Hf Hg Hne); zcases.
Qed.

(** ** Entries *)

Definition word (m : mem) (t i : Z) : Z := rd32 m (kva t + 4 * i).
Definition put_word (m : mem) (t i v : Z) : mem := wr32 m (kva t + 4 * i) v.

Lemma rd32_bound m p : 0 <= rd32 m p < 2 ^ 32.
Proof.
  unfold rd32. pose proof (rd_range m p). pose proof (rd_range m (p + 1)).
  pose proof (rd_range m (p + 2)). pose proof (rd_range m (p + 3)). lia.
Qed.

Lemma word_range m t i : 0 <= word m t i < 2 ^ 32.
Proof. apply rd32_bound. Qed.

Lemma rd32_same m p v : 0 <= v < 2 ^ 32 -> rd32 (wr32 m p v) p = v.
Proof.
  intros Hv. unfold rd32. rewrite !rd_wr32. zcases. unfold u8.
  replace (8 * (p - p)) with 0 by lia. replace (8 * (p + 1 - p)) with 8 by lia.
  replace (8 * (p + 2 - p)) with 16 by lia. replace (8 * (p + 3 - p)) with 24 by lia.
  rewrite Z.shiftr_0_r, !Z.shiftr_div_pow2 by lia.
  change (2 ^ 8) with 256. change (2 ^ 16) with 65536. change (2 ^ 24) with 16777216. Z.to_euclidean_division_equations. lia.
Qed.

Lemma rd32_ext m m' p : (forall k, 0 <= k < 4 -> rd m' (p + k) = rd m (p + k)) -> rd32 m' p = rd32 m p.
Proof.
  intros He. unfold rd32. rewrite !He by lia. specialize (He 0 ltac:(lia)). rewrite Z.add_0_r in He. by rewrite He.
Qed.

Lemma word_same m m' t i : same_frame m m' t -> 0 <= i < 1024 -> word m' t i = word m t i.
Proof.
  intros Hs Hi. apply rd32_ext. intros k Hk. rewrite <- !Z.add_assoc. apply Hs. unfold PAGE_SIZE. lia.
Qed.

Lemma put_word_other m f g i v : is_frame f -> is_frame g -> f <> g -> 0 <= i < 1024 -> same_frame m (put_word m f i v) g.
Proof.
  intros Hf Hg Hne Hi o Ho. unfold put_word. rewrite rd_wr32, !kva_frame by done. unfold PAGE_SIZE in *.
  destruct (frames_apart f g Hf Hg Hne); unfold PAGE_SIZE in *; zcases.
Qed.

Lemma put_word_word m t i j v : 0 <= i -> 0 <= j -> 0 <= v < 2 ^ 32 ->
  word (put_word m t i v) t j = if i =? j then v else word m t j.
Proof.
  intros Hi Hj Hv. unfold word, put_word. case_if; [subst; by apply rd32_same|].
  apply rd32_ext. intros k Hk. rewrite rd_wr32. zcases.
Qed.

Lemma filled_word_zero m m' t i : filled m m' (kva t) 0 PAGE_SIZE -> 0 <= i < 1024 -> word m' t i = 0.
Proof.
  intros Hf Hi. assert (E : forall k, 0 <= k < PAGE_SIZE -> rd m' (kva t + k) = 0) by (intros k Hk; rewrite Hf; zcases).
  unfold word, rd32. rewrite <- !Z.add_assoc, !E by (unfold PAGE_SIZE; lia). done.
Qed.

(** ** Frames and flags of an entry *)

Lemma mask_split e : 0 <= e < 2 ^ 32 -> i686_get_frame e = e - e mod PAGE_SIZE /\ Z.land e 0xFFF = e mod PAGE_SIZE.
Proof.
  intros He. unfold i686_get_frame, PAGE_SIZE. change 0xFFF with (Z.ones 12). rewrite Z.land_ones by lia. split; [|done].
  change 4294963200 with (2 ^ 32 - 2 ^ 12). by rewrite land_high_mask by lia.
Qed.

Lemma flags_range e : 0 <= e mod PAGE_SIZE < PAGE_SIZE.
Proof. by apply Z.mod_pos_bound. Qed.

Lemma frame_of_entry e : 0 <= e < 2 ^ 32 -> i686_get_frame e mod PAGE_SIZE = 0 /\ 0 <= i686_get_frame e <= e.
Proof.
  intros He. destruct (mask_split e He) as [-> _]. pose proof (flags_range e). unfold PAGE_SIZE in *. Z.to_euclidean_division_equations. lia.
Qed.

Lemma lor_flags f fl : f mod PAGE_SIZE = 0 -> 0 <= fl < PAGE_SIZE -> Z.lor f fl = f + fl.
Proof.
  intros Hf Hfl. pose proof (Z.add_lor_land f fl) as E. replace (Z.land f fl) with 0 in E; [lia|].
  replace fl with (Z.land (Z.ones 12) fl) by (rewrite Z.land_comm, Z.land_ones by lia; apply Z.mod_small; exact Hfl).
  rewrite Z.land_assoc, Z.land_ones by lia. unfold PAGE_SIZE in Hf. change (2 ^ 12) with 4096. by rewrite Hf.
Qed.

Lemma entry_made f fl : f mod PAGE_SIZE = 0 -> 0 <= f < 2 ^ 32 -> 0 <= fl < PAGE_SIZE ->
  0 <= Z.lor f fl < 2 ^ 32 /\ i686_get_frame (Z.lor f fl) = f /\ Z.lor f fl mod PAGE_SIZE = fl.
Proof.
  intros Hf Hr Hfl. rewrite lor_flags by done. assert (H32 : 0 <= f + fl < 2 ^ 32) by (unfold PAGE_SIZE in *; Z.to_euclidean_division_equations; lia).
  assert (Hm : (f + fl) mod PAGE_SIZE = fl) by (rewrite <- Z.add_mod_idemp_l, Hf by done; by apply Z.mod_small).
  destruct (mask_split _ H32) as [-> _]. rewrite Hm. lia.
Qed.

Lemma flag_mod e m : 0 <= m < PAGE_SIZE -> flag e m = flag (e mod PAGE_SIZE) m.
Proof.
  intros Hm. unfold flag. replace (Z.land (e mod PAGE_SIZE) m) with (Z.land e m); [done|].
  change PAGE_SIZE with (2 ^ 12). rewrite <- Z.land_ones by lia. rewrite <- Z.land_assoc. f_equal.
  rewrite Z.land_comm, Z.land_ones by lia. symmetry. by apply Z.mod_small.
Qed.

(** A check of all flag values. *)
Lemma all_flags (P : Z -> bool) : forallb P (seqZ 0 4096) = true -> forall e, P (e mod PAGE_SIZE) = true.
Proof.
  intros Hall e. rewrite forallb_forall in Hall. apply Hall. apply list_elem_of_In, elem_of_seqZ. pose proof (flags_range e).
  unfold PAGE_SIZE in *. lia.
Qed.

(** What the operations do to the flags of an entry. *)
Definition shared_flags (fl : Z) : Z := if flag fl PAGE_WRITE then Z.lor (clear_bits fl PAGE_WRITE) PAGE_COW else fl.
Definition restored_flags (fl : Z) : Z := clear_bits (Z.lor fl (hal_flags_to_i686 HAL_PAGE_WRITE)) (hal_flags_to_i686 HAL_PAGE_COW).
Definition copied_flags (fl : Z) : Z :=
  hal_flags_to_i686 (Z.lor (clear_bits (i686_flags_to_hal fl) HAL_PAGE_COW) HAL_PAGE_WRITE).

(** Whether a program may write to the page, at once or after a fault. *)
Definition may_write (e : Z) : bool := flag e PAGE_WRITE || flag e PAGE_COW.

(** Present and user are kept; the flags fit. *)
Definition keeps_access (fl fl' : Z) : bool :=
  Bool.eqb (flag fl' PAGE_PRESENT) (flag fl PAGE_PRESENT) && Bool.eqb (flag fl' PAGE_USER) (flag fl PAGE_USER) &&
  (0 <=? fl') && (fl' <? 4096).

Lemma keeps_access_iff fl fl' : keeps_access fl fl' = true ->
  flag fl' PAGE_PRESENT = flag fl PAGE_PRESENT /\ flag fl' PAGE_USER = flag fl PAGE_USER /\ 0 <= fl' < PAGE_SIZE.
Proof.
  unfold keeps_access, PAGE_SIZE. intros H. repeat (apply andb_true_iff in H as [H ?]). zify_bool.
  split_and!; [by apply Bool.eqb_prop|by apply Bool.eqb_prop|lia|lia].
Qed.

Lemma shared_flags_ok e : let fl := e mod PAGE_SIZE in
  keeps_access fl (shared_flags fl) = true /\ flag (shared_flags fl) PAGE_WRITE = false /\
  may_write (shared_flags fl) = may_write fl.
Proof.
  pose proof (all_flags (fun fl => keeps_access fl (shared_flags fl) && negb (flag (shared_flags fl) PAGE_WRITE) &&
    Bool.eqb (may_write (shared_flags fl)) (may_write fl)) ltac:(vm_compute; reflexivity) e) as H. cbn beta in H.
  apply andb_true_iff in H as [H H3]. apply andb_true_iff in H as [H1 H2]. apply negb_true_iff in H2.
  split_and!; [done|done|by apply Bool.eqb_prop].
Qed.

Lemma restored_flags_ok e : let fl := e mod PAGE_SIZE in
  keeps_access fl (restored_flags fl) = true /\ flag (restored_flags fl) PAGE_WRITE = true /\ flag (restored_flags fl) PAGE_COW = false.
Proof.
  pose proof (all_flags (fun fl => keeps_access fl (restored_flags fl) && flag (restored_flags fl) PAGE_WRITE &&
    negb (flag (restored_flags fl) PAGE_COW)) ltac:(vm_compute; reflexivity) e) as H. cbn beta in H.
  apply andb_true_iff in H as [H H3]. apply andb_true_iff in H as [H1 H2]. by apply negb_true_iff in H3.
Qed.

Lemma copied_flags_ok e : let fl := e mod PAGE_SIZE in
  keeps_access fl (copied_flags fl) = true /\ flag (copied_flags fl) PAGE_WRITE = true /\ flag (copied_flags fl) PAGE_COW = false.
Proof.
  pose proof (all_flags (fun fl => keeps_access fl (copied_flags fl) && flag (copied_flags fl) PAGE_WRITE &&
    negb (flag (copied_flags fl) PAGE_COW)) ltac:(vm_compute; reflexivity) e) as H. cbn beta in H.
  apply andb_true_iff in H as [H H3]. apply andb_true_iff in H as [H1 H2]. by apply negb_true_iff in H3.
Qed.
