(* ===== verification/Spaces.v ===== *)
(** * Who owns which frame

    The ghost state of the address-space proofs: every frame that belongs to
    an address space has a role, the tables and pages of all directories are
    finite maps, and pages that an operation holds while it runs are kept
    apart ([lrefs]).  [acct] ties the roles to the physical memory manager:
    a data frame has as many references as there are pages that map it. *)

From S2P Require Import Prelude Spinlock Mem Pmm PmmFacts PmmProps PmmSteps Task Paging FrameMem.

Inductive role := RDir | RTable | RData | RLimbo.

#[global] Instance role_eq_dec : EqDecision role.
Proof. solve_decision. Defined.

(** [tables] by directory and index, [pages] by directory and page number.
    [kern] are the frames of the kernel's own tables. *)
Record spaces := Spaces {
  own : gmap Z role;
  tables : gmap (Z * Z) Z;
  pages : gmap (Z * Z) Z;
  lrefs : gmap (Z * Z) Z;
  kern : gset Z
}.

Definition with_own (g : spaces) (o : gmap Z role) : spaces := Spaces o (tables g) (pages g) (lrefs g) (kern g).
Definition with_lrefs (g : spaces) (l : gmap (Z * Z) Z) : spaces := Spaces (own g) (tables g) (pages g) l (kern g).
Definition with_pages (g : spaces) (l : gmap (Z * Z) Z) : spaces := Spaces (own g) (tables g) l (lrefs g) (kern g).

(** ** Counting *)

(** The entries of [m] that map frame [f]. *)
Definition uses_of (m : gmap (Z * Z) Z) (f : Z) : Z :=
  Z.of_nat (size (filter (fun kv : (Z * Z) * Z => i686_get_frame kv.2 = f) m)).
Definition uses (g : spaces) (f : Z) : Z := uses_of (pages g) f + uses_of (lrefs g) f.

Lemma uses_nonneg m f : 0 <= uses_of m f.
Proof. unfold uses_of. lia. Qed.

Lemma uses_empty f : uses_of ∅ f = 0.
Proof. unfold uses_of. by rewrite map_filter_empty, map_size_empty. Qed.

Lemma uses_insert m k e f : m !! k = None -> uses_of (<[k := e]> m) f = uses_of m f + (if i686_get_frame e =? f then 1 else 0).
Proof.
  intros Hk. unfold uses_of. case_if.
  - rewrite map_filter_insert_True by done. rewrite map_size_insert_None; [lia|]. apply map_lookup_filter_None. by left.
  - rewrite map_filter_insert_False by done. rewrite delete_id by done. lia.
Qed.

Lemma uses_delete m k e f : m !! k = Some e -> uses_of (delete k m) f = uses_of m f - (if i686_get_frame e =? f then 1 else 0).
Proof.
  intros Hk. rewrite <- (insert_delete_id m k e Hk) at 2. rewrite uses_insert by apply lookup_delete_eq. lia.
Qed.

Lemma uses_replace m k e e' f : m !! k = Some e -> i686_get_frame e' = i686_get_frame e -> uses_of (<[k := e']> m) f = uses_of m f.
Proof.
  intros Hk He. rewrite <- insert_delete_eq, uses_insert by apply lookup_delete_eq. rewrite (uses_delete _ _ e) by done.
  rewrite He. lia.
Qed.

Lemma uses_pos m k e : m !! k = Some e -> 0 < uses_of m (i686_get_frame e).
Proof.
  intros Hk. pose proof (uses_nonneg (delete k m) (i686_get_frame e)). rewrite (uses_delete _ _ e) in * by done.
  rewrite Z.eqb_refl in *. lia.
Qed.

Lemma uses_some m f : 0 < uses_of m f -> exists k e, m !! k = Some e /\ i686_get_frame e = f.
Proof.
  unfold uses_of. intros Hp. destruct (map_choose (filter (fun kv : (Z * Z) * Z => i686_get_frame kv.2 = f) m)) as (k & e & Hke).
  - intros E. rewrite E, map_size_empty in Hp. lia.
  - apply map_lookup_filter_Some in Hke as [Hk He]. by exists k, e.
Qed.

Lemma uses_union m1 m2 f : m1 ##ₘ m2 -> uses_of (m1 ∪ m2) f = uses_of m1 f + uses_of m2 f.
Proof.
  intros Hd. unfold uses_of. rewrite map_filter_union by done. rewrite map_size_disj_union; [lia|].
  apply map_disjoint_filter. done.
Qed.

(** ** The accounts *)

Definition pfn (f : Z) : Z := PADDR_TO_PFN f.

(** A frame of the memory, other than the first, that is in use. *)
Definition frame_at (p : pmm) (f : Z) : Prop :=
  f mod PAGE_SIZE = 0 /\ 0 < pfn f < total_frames p /\ test_frame p (pfn f) = true.

Definition prot_limit (r : role) : Z := match r with RData => 0 | _ => 1 end.
Definition protections (p : pmm) (f : Z) : Z := prot_count (protected_frames p) f.

Record acct (p : pmm) (g : spaces) : Prop := Acct {
  ac_inv : inv p;
  ac_prot : prot_ok p;
  ac_lock : lock_free (pmm_lock p);
  ac_total : total_frames p <= 2 ^ 19;
  ac_zero : test_frame p 0 = true;
  ac_own : forall f r, own g !! f = Some r ->
    frame_at p f /\ refcount p (pfn f) = (if decide (r = RData) then uses g f else 1) /\ protections p f <= prot_limit r;
  ac_used : forall f, own g !! f = Some RData -> 0 < uses g f;
  ac_refs : forall k e, pages g !! k = Some e \/ lrefs g !! k = Some e -> own g !! i686_get_frame e = Some RData;
  ac_kern : forall k, k ∈ kern g -> own g !! k = None /\ k mod PAGE_SIZE = 0 /\ 0 < k < 2 ^ 32 /\
    (pfn k < total_frames p -> test_frame p (pfn k) = true)
}.

Lemma frame_at_frame p f : total_frames p <= 2 ^ 19 -> frame_at p f -> is_frame f /\ 0 < f.
Proof.
  intros Ht (Ha & Hr & _). pose proof (paddr_of_pfn f Ha) as E. unfold pfn, PAGE_SIZE in *. split; [split; [done|lia]|lia].
Qed.

Lemma own_frame p g f r : acct p g -> own g !! f = Some r -> is_frame f /\ 0 < f.
Proof. intros Ha Hf. destruct (ac_own _ _ Ha f r Hf) as [Hfr _]. eapply frame_at_frame; [apply Ha|done]. Qed.

Lemma pfn_inj f f' : f mod PAGE_SIZE = 0 -> f' mod PAGE_SIZE = 0 -> pfn f = pfn f' -> f = f'.
Proof. intros H1 H2 E. rewrite <- (paddr_of_pfn f H1), <- (paddr_of_pfn f' H2). unfold pfn in E. by rewrite E. Qed.

Lemma prot_nonneg p f : prot_ok p -> 0 <= protections p f.
Proof.
  intros Hp. unfold protections. destruct (decide (f ∈ (pf_frame <$> protected_frames p))) as [Hi|Hn].
  - apply list_elem_of_fmap in Hi as (e & -> & He). rewrite prot_count_in by (done || apply Hp).
    pose proof (proj1 (Forall_forall _ _) (po_entry _ Hp) e (proj1 (list_elem_of_In _ _) He)) as (_ & _ & ?). lia.
  - by rewrite prot_count_notin.
Qed.

(** ** Allocation *)

(** The invariants of the manager and a new frame as limbo. *)
Definition add_own (g : spaces) (f : Z) (r : role) : spaces := with_own g (<[f := r]> (own g)).
Definition del_own (g : spaces) (f : Z) : spaces := with_own g (delete f (own g)).

Lemma free_unowned p g i : acct p g -> 0 <= i < total_frames p -> test_frame p i = false ->
  let f := i * PAGE_SIZE in
  is_frame f /\ 0 < f /\ pfn f = i /\ own g !! f = None /\ f ∉ kern g /\ protections p f = 0.
Proof.
  intros Ha Hi Ht f. assert (Hp : pfn f = i) by apply pfn_of_paddr. pose proof (ac_total _ _ Ha).
  assert (i <> 0) by (intros ->; pose proof (ac_zero _ _ Ha); congruence).
  split_and!; [split; [by apply Z.mod_mul|unfold f, PAGE_SIZE; lia]|unfold f, PAGE_SIZE; lia|done|..].
  - destruct (own g !! f) as [r|] eqn:E; [|done]. destruct (ac_own _ _ Ha f r E) as [(_ & _ & Hu) _]. rewrite Hp in Hu. congruence.
  - intros Hk. destruct (ac_kern _ _ Ha f Hk) as (_ & _ & _ & Hu). rewrite Hp in Hu. rewrite Hu in Ht by lia. done.
  - pose proof (free_not_protected p i (ac_prot _ _ Ha) Hi Ht) as Hn. rewrite is_protected_spec in Hn by apply Ha.
    zify_bool. pose proof (prot_nonneg p f (ac_prot _ _ Ha)). unfold protections, f in *. lia.
Qed.

(** The accounts depend on the manager through usage, counts and protection. *)
Lemma acct_view p p' g : acct p g -> inv p' -> prot_ok p' -> lock_free (pmm_lock p') -> total_frames p' = total_frames p ->
  (forall j, 0 <= j -> test_frame p' j = test_frame p j) -> (forall j, 0 <= j -> refcount p' j = refcount p j) ->
  (forall f r, own g !! f = Some r -> protections p' f <= prot_limit r) ->
  acct p' g.
Proof.
  intros [A1 A2 A3 A4 A5 A6 A7 A8 A9] H1 H2 H3 H4 H5 H6 H7. split; try done.
  - by rewrite H4.
  - by rewrite H5.
  - intros f r Hf. destruct (A6 f r Hf) as ((F1 & F2 & F3) & F4 & F5). unfold frame_at. rewrite H4, H5, H6 by lia. auto.
  - intros k Hk. destruct (A9 k Hk) as (F1 & F2 & F3 & F4). rewrite H4. split_and!; try done; try lia. intros Hlt.
    rewrite H5; [auto|]. apply pfn_nonneg. lia.
Qed.

Lemma alloc_acct p g : acct p g ->
  exists r p', pmm_alloc_frame I686 p = Some (r, p') /\ protected_frames p' = protected_frames p /\
    (r = PADDR_INVALID /\ no_free_frame p /\ acct p' g /\ pmem p' = pmem p \/
     r <> PADDR_INVALID /\ is_frame r /\ 0 < r /\ own g !! r = None /\ r ∉ kern g /\ protections p r = 0 /\
     acct p' (add_own g r RLimbo) /\ filled (pmem p) (pmem p') (kva r) 0 PAGE_SIZE).
Proof.
  intros Ha. pose proof Ha as [A1 A2 A3 A4 A5 A6 A7 A8 A9].
  destruct (pmm_alloc_frame_run I686 p A1 A2 A3) as (l & Hl & [[Hnone E]|(i & Hi & Ht & E)]); rewrite E; eexists _, _; (split; [done|]).
  - split; [done|]. left. split_and!; [done|done| |done]. apply (acct_view p); try done; [by apply inv_hint|by eapply same_used_prot|].
    intros f r Hf. apply (A6 f r Hf).
  - destruct (free_unowned p g i Ha Hi Ht) as (F1 & F2 & F3 & F4 & F5 & F6). set (f := i * PAGE_SIZE) in *.
    assert (Er : alloc_out_of_range I686 f = false) by (cbn; apply Z.leb_gt; destruct F1; lia).
    unfold alloc_taken. fold f. rewrite Er. cbn [fst snd]. set (p0 := set_last_free_index p l).
    assert (Hi0 : inv p0) by (by apply inv_hint). assert (Hs0 : shape p0) by apply Hi0.
    assert (Htk := taken_take p0 i Hs0 Hi). set (p1 := take_frame p0 i) in *.
    assert (Et : total_frames p1 = total_frames p) by (cbn; by rewrite set_frame_total).
    assert (Ep : protected_frames p1 = protected_frames p) by (cbn; by rewrite set_frame_protected).
    split; [done|]. right. assert (Hne : f <> PADDR_INVALID) by (destruct F1; unfold PADDR_INVALID; lia).
    split_and!; try done.
    + destruct Htk as [Hu Hc]. change (own (add_own g f RLimbo)) with (<[f := RLimbo]> (own g)) in *. split; cbn [own pages lrefs kern add_own with_own].
      * apply inv_pmem, inv_take_frame; [done|done|exact Ht].
      * eapply (taken_prot p0); [by eapply same_used_prot|done|cbn; by rewrite set_frame_total|by split].
      * cbn. by rewrite set_frame_lock.
      * cbn. by rewrite set_frame_total.
      * change (test_frame p1 0 = true). rewrite Hu by lia. change (test_frame p0 0) with (test_frame p 0). by rewrite A5, orb_true_r.
      * intros f' r Hf'. unfold frame_at. cbn [total_frames zero_frames set_pmem]. change (refcount (zero_frames I686 p1 f 1)) with (refcount p1).
        change (test_frame (zero_frames I686 p1 f 1)) with (test_frame p1). change (protections (zero_frames I686 p1 f 1) f') with (prot_count (protected_frames p1) f').
        rewrite Et, Ep. apply lookup_insert_Some in Hf' as [[<- <-]|[Hne' Hf']].
        -- rewrite F3, Hu, Hc, Z.eqb_refl by lia. destruct F1 as [F1 _]. cbn. unfold protections in F6. rewrite F6.
           assert (i <> 0) by (intros ->; unfold f in F2; lia). split_and!; [done|lia|lia|done|done|lia].
        -- destruct (A6 f' r Hf') as ((G1 & G2 & G3) & G4 & G5). rewrite Hu, Hc by lia.
           rewrite (proj2 (Z.eqb_neq i (pfn f'))) by (intros Ei; apply Hne'; apply pfn_inj; [apply F1|done|by rewrite F3]).
           cbn [orb]. done.
      * intros f' Hf'. apply lookup_insert_Some in Hf' as [[_ ?]|[_ Hf']]; [done|by apply A7].
      * intros k e Hk. pose proof (A8 k e Hk) as Hd. rewrite lookup_insert_ne; [done|]. intros ->. congruence.
      * intros k Hk. destruct (A9 k Hk) as (G1 & G2 & G3 & G4). rewrite lookup_insert_ne by (intros ->; done).
        cbn. rewrite set_frame_total. split_and!; try done; try lia. intros Hlt. change (test_frame p1 (pfn k) = true).
        rewrite Hu by (apply pfn_nonneg; lia). change (test_frame p0 (pfn k)) with (test_frame p (pfn k)). by rewrite G4, orb_true_r.
    + pose proof (zero_frames_filled I686 p1 f 1 (page_in_ptr I686 1 ltac:(lia))) as Hz. unfold zeroed in Hz.
      replace (pmem p1) with (pmem p) in Hz by (cbn; by rewrite set_frame_pmem). exact Hz.
Qed.

(** The counter of free frames, which [pmm_get_info] reports. *)
Definition frees (p : pmm) : Z := pi_free_frames (info p).

Lemma no_free_count p : no_free_frame p -> nfree p = 0.
Proof.
  intros Hn. unfold nfree. rewrite (cnt_ext _ (fun _ => false)); [|intros i Hi; unfold frame_free; rewrite Hn by lia; done].
  induction (Z.to_nat (total_frames p)) as [|n IH]; [done|]. cbn [cnt]. by rewrite IH.
Qed.

Lemma alloc_free p g f p' : acct p g -> pmm_alloc_frame I686 p = Some (f, p') ->
  (f = PADDR_INVALID -> frees p = 0) /\ (f <> PADDR_INVALID -> frees p' = frees p - 1).
Proof.
  intros Ha E. pose proof (ac_inv _ _ Ha) as Hi. pose proof (inv_free _ Hi) as Hf. unfold frees.
  destruct (pmm_alloc_frame_run I686 p Hi (ac_prot _ _ Ha) (ac_lock _ _ Ha)) as (l & Hl & [[Hnone E']|(i & Hir & Ht & E')]); rewrite E' in E; injection E as <- <-.
  - split; [|done]. intros _. by rewrite Hf, no_free_count.
  - destruct (free_unowned p g i Ha Hir Ht) as (F1 & F2 & _). assert (Er : alloc_out_of_range I686 (i * PAGE_SIZE) = false) by (cbn; apply Z.leb_gt; destruct F1; lia).
    unfold alloc_taken. rewrite Er. cbn [fst snd]. split; [intros Ef; destruct F1; unfold PADDR_INVALID in Ef; lia|]. intros _.
    set (p0 := set_last_free_index p l). assert (Hi0 : inv p0) by (by apply inv_hint).
    change (pi_free_frames (info (take_frame p0 i)) = pi_free_frames (info p) - 1). rewrite (inv_free _ (inv_take_frame p0 i Hi0 Hir Ht)), Hf.
    pose proof (nfree_set_frame p0 i (inv_shape _ Hi0) Hir Ht) as Hn. change (nfree p0) with (nfree p) in Hn. change (nfree (take_frame p0 i)) with (nfree (set_frame p0 i)). lia.
Qed.

(** ** Changes of one frame's account *)

Lemma acct_at p p' g g' f0 :
  acct p g -> inv p' -> prot_ok p' -> lock_free (pmm_lock p') -> total_frames p' = total_frames p ->
  f0 mod PAGE_SIZE = 0 -> 0 < pfn f0 -> f0 ∉ kern g \/ own g' !! f0 = None /\ test_frame p' (pfn f0) = true -> kern g' = kern g ->
  (forall j, 0 <= j -> j <> pfn f0 -> test_frame p' j = test_frame p j /\ refcount p' j = refcount p j) ->
  (forall f, f <> f0 -> own g' !! f = own g !! f /\ uses g' f = uses g f /\ protections p' f = protections p f) ->
  (forall r, own g' !! f0 = Some r ->
     frame_at p' f0 /\ refcount p' (pfn f0) = (if decide (r = RData) then uses g' f0 else 1) /\
     protections p' f0 <= prot_limit r /\ (r = RData -> 0 < uses g' f0)) ->
  (forall k e, pages g' !! k = Some e \/ lrefs g' !! k = Some e -> own g' !! i686_get_frame e = Some RData) ->
  acct p' g'.
Proof.
  intros [A1 A2 A3 A4 A5 A6 A7 A8 A9] H1 H2 H3 H4 Ha Hp Hk0 Hk H5 H6 H7 H8. split; try done.
  - by rewrite H4.
  - by rewrite (proj1 (H5 0 ltac:(lia) ltac:(lia))).
  - intros f r Hf. destruct (decide (f = f0)) as [->|Hne]; [destruct (H7 r Hf) as (? & ? & ? & _); auto|].
    destruct (H6 f Hne) as (Eo & Eu & Ep). rewrite Eo in Hf. destruct (A6 f r Hf) as ((F1 & F2 & F3) & F4 & F5).
    assert (Hj : pfn f <> pfn f0) by (intros E; apply Hne; by apply pfn_inj). destruct (H5 (pfn f) ltac:(lia) Hj) as [Et Er].
    unfold frame_at. rewrite H4, Et, Er, Eu, Ep. auto.
  - intros f Hf. destruct (decide (f = f0)) as [->|Hne]; [by apply (H7 RData Hf)|].
    destruct (H6 f Hne) as (Eo & -> & _). rewrite Eo in Hf. by apply A7.
  - intros k. rewrite Hk. intros Hin. destruct (A9 k Hin) as (F1 & F2 & F3 & F4). rewrite H4. destruct (decide (k = f0)) as [->|Hne].
    + destruct Hk0 as [|[? ?]]; [done|]. split_and!; try done; lia.
    + destruct (H6 k Hne) as (-> & _). split_and!; try done; try lia. intros Hlt.
      rewrite (proj1 (H5 (pfn k) ltac:(apply pfn_nonneg; lia) ltac:(intros E; apply Hne; by apply pfn_inj))). auto.
Qed.

Lemma acct_freeable p g f r : acct p g -> own g !! f = Some r -> protections p f = 0 -> freeable p f = true.
Proof.
  intros Ha Hf Hp. destruct (ac_own _ _ Ha f r Hf) as [(F1 & F2 & F3) _]. destruct (own_frame _ _ _ _ Ha Hf) as [[_ Hr] H0].
  unfold freeable. rewrite is_protected_spec by apply Ha. unfold protections in Hp. rewrite Hp.
  rewrite (proj2 (Z.eqb_neq f 0)), (proj2 (Z.eqb_neq f PADDR_INVALID)) by (unfold PADDR_INVALID; lia).
  rewrite F1. unfold pfn in *. rewrite F3. rewrite (proj2 (Z.ltb_lt _ _)) by lia. done.
Qed.

(** What a release leaves of the manager. *)
Lemma free_run p g f r : acct p g -> own g !! f = Some r -> protections p f = 0 ->
  exists p', pmm_free_frame p f = Some p' /\ keeps p p' /\ protected_frames p' = protected_frames p /\ pmem p' = pmem p /\
    (forall j, 0 <= j -> refcount p' j = if pfn f =? j then Z.max 0 (refcount p j - 1) else refcount p j) /\
    (forall j, 0 <= j -> test_frame p' j = if pfn f =? j then 1 <? refcount p (pfn f) else test_frame p j).
Proof.
  intros Ha Hf Hp. pose proof (acct_freeable _ _ _ _ Ha Hf Hp) as Hfr. destruct (own_frame _ _ _ _ Ha Hf) as [[_ Hr] H0].
  pose proof Ha as [A1 A2 A3 _ _ _ _ _ _]. rewrite pmm_free_frame_run, Hfr by (done || lia). eexists. split; [done|].
  split; [apply release_one_keeps; (done || lia)|]. apply freeable_frame in Hfr as (F1 & F2 & _); [|lia].
  destruct (release_one_effect p _ A1 F1 F2) as (_ & E1 & _ & _ & E2 & E3 & E4). done.
Qed.

(** A reference held in limbo is given up. *)
Definition drop_ref (g : spaces) (k : Z * Z) (f : Z) : spaces :=
  let g1 := with_lrefs g (delete k (lrefs g)) in if uses g f =? 1 then del_own g1 f else g1.

Lemma drop_ref_uses g k e f' : lrefs g !! k = Some e ->
  uses (drop_ref g k (i686_get_frame e)) f' = uses g f' - (if i686_get_frame e =? f' then 1 else 0).
Proof. intros Hk. unfold drop_ref, uses. case_if; cbn; rewrite (uses_delete _ _ e) by done; lia. Qed.

Lemma ref_uses g k e : lrefs g !! k = Some e -> 0 < uses g (i686_get_frame e).
Proof. intros Hk. unfold uses. pose proof (uses_pos _ _ _ Hk). pose proof (uses_nonneg (pages g) (i686_get_frame e)). lia. Qed.

Lemma drop_ref_refs p g k e : acct p g -> lrefs g !! k = Some e ->
  forall k' e', pages (drop_ref g k (i686_get_frame e)) !! k' = Some e' \/ lrefs (drop_ref g k (i686_get_frame e)) !! k' = Some e' ->
    own (drop_ref g k (i686_get_frame e)) !! i686_get_frame e' = Some RData.
Proof.
  intros Ha Hk k' e' Hk'. set (f := i686_get_frame e).
  assert (Hd : own g !! i686_get_frame e' = Some RData).
  { apply (ac_refs _ _ Ha k' e'). destruct Hk' as [Hk'|Hk']; [left|right]; unfold drop_ref in Hk'; case_if_in Hk'; cbn in Hk'; try done;
      by apply lookup_delete_Some in Hk' as [_ ?]. }
  unfold drop_ref. fold f. case_if; cbn; [|done]. destruct (decide (f = i686_get_frame e')) as [E|Hne]; [|by rewrite lookup_delete_ne].
  exfalso. assert (Hu : 0 < uses (drop_ref g k f) f).
  { unfold uses. destruct Hk' as [Hk'|Hk']; pose proof (uses_pos _ _ _ Hk') as Hp; rewrite <- E in Hp; fold f in Hp;
      pose proof (uses_nonneg (pages (drop_ref g k f)) f); pose proof (uses_nonneg (lrefs (drop_ref g k f)) f); lia. }
  unfold f in Hu. rewrite (drop_ref_uses _ _ e) in Hu by done. rewrite Z.eqb_refl in Hu. unfold f in *. lia.
Qed.

Lemma drop_ref_own g k f f' : f' <> f -> own (drop_ref g k f) !! f' = own g !! f'.
Proof. intros Hne. unfold drop_ref. case_if; cbn; [by rewrite lookup_delete_ne|done]. Qed.

Lemma free_data p g k e : acct p g -> lrefs g !! k = Some e ->
  exists p', pmm_free_frame p (i686_get_frame e) = Some p' /\ acct p' (drop_ref g k (i686_get_frame e)) /\
    protected_frames p' = protected_frames p /\ pmem p' = pmem p.
Proof.
  intros Ha Hk. set (f := i686_get_frame e). pose proof (ac_refs _ _ Ha k e (or_intror Hk)) as Hf. fold f in Hf.
  destruct (ac_own _ _ Ha f _ Hf) as ((F1 & F2 & F3) & F4 & F5). rewrite decide_True in F4 by done. cbn in F5. pose proof (prot_nonneg p f (ac_prot _ _ Ha)).
  destruct (free_run p g f _ Ha Hf ltac:(lia)) as (p' & E & (K1 & K2 & K3 & K4) & Ep & Em & Er & Et). exists p'. split_and!; try done.
  pose proof (ref_uses _ _ _ Hk) as Hu. fold f in Hu.
  apply (acct_at p p' g _ f); try done; [by rewrite K3; apply Ha|lia|left; intros Hin; destruct (ac_kern _ _ Ha f Hin) as [? _]; congruence|unfold drop_ref; by case_if|..].
  - intros j Hj Hne. rewrite Er, Et by done. by rewrite (proj2 (Z.eqb_neq (pfn f) j)) by congruence.
  - intros f' Hne. split_and!; [by apply drop_ref_own| |unfold protections; by rewrite Ep].
    unfold f. rewrite (drop_ref_uses _ _ e) by done. rewrite (proj2 (Z.eqb_neq _ f')) by (unfold f in Hne; congruence). lia.
  - intros r Hr. unfold drop_ref in Hr. case_if_in Hr; cbn in Hr; [by rewrite lookup_delete_eq in Hr|]. rewrite Hf in Hr. injection Hr as <-.
    unfold frame_at. rewrite Er, Et, Z.eqb_refl, K4 by lia. rewrite decide_True by done. rewrite F4.
    unfold f. rewrite (drop_ref_uses _ _ e), Z.eqb_refl by done. fold f. split_and!; [done|lia|lia|apply Z.ltb_lt; lia|lia|unfold protections; by rewrite Ep|lia].
  - by apply (drop_ref_refs p).
Qed.

(** A frame that belongs to nobody but the running operation. *)
Lemma free_limbo p g f : acct p g -> own g !! f = Some RLimbo -> protections p f = 0 ->
  exists p', pmm_free_frame p f = Some p' /\ acct p' (del_own g f) /\ protected_frames p' = protected_frames p /\ pmem p' = pmem p.
Proof.
  intros Ha Hf Hp. destruct (ac_own _ _ Ha f _ Hf) as ((F1 & F2 & F3) & F4 & F5).
  destruct (free_run p g f _ Ha Hf Hp) as (p' & E & (K1 & K2 & K3 & K4) & Ep & Em & Er & Et). exists p'. split_and!; try done.
  apply (acct_at p p' g _ f); try done; [by rewrite K3; apply Ha|lia|left; intros Hin; destruct (ac_kern _ _ Ha f Hin) as [? _]; congruence|..].
  - intros j Hj Hne. rewrite Er, Et by done. by rewrite (proj2 (Z.eqb_neq (pfn f) j)) by congruence.
  - intros f' Hne. cbn. rewrite lookup_delete_ne by done. split_and!; [done|done|unfold protections; by rewrite Ep].
  - intros r Hr. cbn in Hr. by rewrite lookup_delete_eq in Hr.
  - intros k e Hk. pose proof (ac_refs _ _ Ha k e Hk) as Hd. cbn. rewrite lookup_delete_ne; [done|]. intros E'. rewrite E' in Hf. congruence.
Qed.

Lemma acct_ref_target p g f r : acct p g -> own g !! f = Some r -> ref_target p f = true.
Proof.
  intros Ha Hf. destruct (ac_own _ _ Ha f r Hf) as [(F1 & F2 & F3) _]. destruct (own_frame _ _ _ _ Ha Hf) as [[_ Hr] H0].
  unfold ref_target, ref_arg_invalid. rewrite aligned_spec, F1. unfold pfn in *.
  rewrite (proj2 (Z.eqb_neq f 0)), (proj2 (Z.eqb_neq f PADDR_INVALID)) by (unfold PADDR_INVALID; lia).
  rewrite (proj2 (Z.ltb_lt _ _)) by lia. unfold refcount_null. pose proof (sh_rclen p (inv_shape _ (ac_inv _ _ Ha))).
  destruct (frame_refcount p); [cbn in *; lia|done].
Qed.

Lemma set_refcount_keeps p i v : inv p -> prot_ok p -> keeps p (set_refcount p i v).
Proof. intros Hi Hp. split; [by apply inv_set_refcount|]. split; [by eapply same_used_prot|done]. Qed.

(** The account of a data frame after its count is set. *)
Lemma recount p g g' f n : acct p g -> own g !! f = Some RData -> own g' = own g -> kern g' = kern g ->
  (forall f', f' <> f -> uses g' f' = uses g f') -> uses g' f = n -> 0 < n < 2 ^ 16 ->
  (forall k e, pages g' !! k = Some e \/ lrefs g' !! k = Some e -> own g !! i686_get_frame e = Some RData) ->
  acct (set_refcount p (pfn f) n) g'.
Proof.
  intros Ha Hf Ho Hk Hu Hn Hr Hrefs. destruct (ac_own _ _ Ha f _ Hf) as ((F1 & F2 & F3) & F4 & F5).
  destruct (set_refcount_keeps p (pfn f) n (ac_inv _ _ Ha) (ac_prot _ _ Ha)) as (K1 & K2 & K3 & K4).
  assert (Hrc : forall j, 0 <= j -> refcount (set_refcount p (pfn f) n) j = if pfn f =? j then n else refcount p j).
  { intros j Hj. rewrite refcount_set by (lia || apply Ha). case_if; [|done]. unfold u16. apply Z.mod_small. lia. }
  apply (acct_at p _ g g' f); try done; [by rewrite K3; apply Ha|lia|left; intros Hin; destruct (ac_kern _ _ Ha f Hin) as [? _]; congruence|..].
  - intros j Hj Hne. rewrite Hrc by done. by rewrite (proj2 (Z.eqb_neq (pfn f) j)) by congruence.
  - intros f' Hne. rewrite Ho. split_and!; [done|by apply Hu|done].
  - intros r E. rewrite Ho, Hf in E. injection E as <-. rewrite Hrc, Z.eqb_refl, decide_True by (done || lia).
    split_and!; [exact (conj F1 (conj F2 F3))|done|done|lia].
  - intros k e Hke. rewrite Ho. by apply Hrefs with k.
Qed.

Lemma share_ref p g k e : acct p g -> own g !! i686_get_frame e = Some RData -> lrefs g !! k = None -> uses g (i686_get_frame e) < 65535 ->
  exists r p', pmm_frame_ref_inc p (i686_get_frame e) = Some (r, p') /\ acct p' (with_lrefs g (<[k := e]> (lrefs g))) /\
    protected_frames p' = protected_frames p /\ pmem p' = pmem p.
Proof.
  intros Ha Hf Hk Hu. set (f := i686_get_frame e) in *. destruct (ac_own _ _ Ha f _ Hf) as (_ & F4 & _). rewrite decide_True in F4 by done.
  destruct (own_frame _ _ _ _ Ha Hf) as [[_ Hr] H0]. pose proof (ac_used _ _ Ha f Hf).
  rewrite pmm_frame_ref_inc_run by (apply Ha || lia). rewrite (acct_ref_target _ _ _ _ Ha Hf). cbn zeta. fold (pfn f).
  rewrite F4, (proj2 (Z.eqb_neq _ _)) by lia. eexists _, _. split; [done|]. split; [|done].
  apply (recount p g); try done; cbn; [|unfold uses; cbn; rewrite uses_insert by done; fold f; rewrite Z.eqb_refl; unfold uses; lia|unfold uses in *; lia|].
  - intros f' Hne. unfold uses. cbn. rewrite uses_insert by done. fold f. rewrite (proj2 (Z.eqb_neq f f')) by congruence. lia.
  - intros k' e' [Hk'|Hk']; [by apply (ac_refs _ _ Ha k'); left|]. apply lookup_insert_Some in Hk' as [[_ <-]|[_ Hk']]; [done|].
    by apply (ac_refs _ _ Ha k'); right.
Qed.

Lemma unshare_ref p g k e : acct p g -> lrefs g !! k = Some e -> 1 < uses g (i686_get_frame e) ->
  exists r p', pmm_frame_ref_dec p (i686_get_frame e) = Some (r, p') /\ acct p' (with_lrefs g (delete k (lrefs g))) /\
    protected_frames p' = protected_frames p /\ pmem p' = pmem p.
Proof.
  intros Ha Hk Hu. set (f := i686_get_frame e) in *. pose proof (ac_refs _ _ Ha k e (or_intror Hk)) as Hf. fold f in Hf.
  destruct (ac_own _ _ Ha f _ Hf) as (_ & F4 & _). rewrite decide_True in F4 by done.
  destruct (own_frame _ _ _ _ Ha Hf) as [[_ Hr] H0]. pose proof (refcount_range p (pfn f) (inv_shape _ (ac_inv _ _ Ha))) as Hrc.
  rewrite pmm_frame_ref_dec_run by (apply Ha || lia). rewrite (acct_ref_target _ _ _ _ Ha Hf). cbn zeta. fold (pfn f).
  rewrite F4 in *. rewrite (proj2 (Z.eqb_neq _ _)) by lia. eexists _, _. split; [done|]. split; [|done].
  assert (Hd : forall f', uses (with_lrefs g (delete k (lrefs g))) f' = uses g f' - (if f =? f' then 1 else 0)).
  { intros f'. unfold uses. cbn. rewrite (uses_delete _ _ e) by done. fold f. lia. }
  apply (recount p g); try done; [|by rewrite Hd, Z.eqb_refl|lia|].
  - intros f' Hne. rewrite Hd, (proj2 (Z.eqb_neq f f')) by congruence. lia.
  - intros k' e' [Hk'|Hk']; [by apply (ac_refs _ _ Ha k'); left|]. cbn in Hk'. apply lookup_delete_Some in Hk' as [_ Hk'].
    by apply (ac_refs _ _ Ha k'); right.
Qed.

(** ** Protection *)

Lemma frame_base_id f : f mod PAGE_SIZE = 0 -> frame_base f = f.
Proof. intros E. unfold frame_base. rewrite E. lia. Qed.

Lemma protect_any p f : inv p -> prot_ok p -> lock_free (pmm_lock p) -> f mod PAGE_SIZE = 0 -> 0 < f < 2 ^ 32 ->
  (pfn f < total_frames p -> test_frame p (pfn f) = true) -> protections p f < 2 ^ 32 - 1 ->
  exists l b, pmm_protect_frame p f = Some (set_protected p l) /\ prot_ok (set_protected p l) /\ 0 <= b <= 1 /\
    (length (protected_frames p) <= length l)%nat /\ (b = 1 \/ MAX_PROTECTED_FRAMES <= Z.of_nat (length (protected_frames p))) /\
    forall x, protections (set_protected p l) x = protections p x + (if f =? x then b else 0).
Proof.
  intros Hi Hp Hl Ha Hf Hu Hc. destruct (add_entry_any _ f (prot_ok_table _ Hp) ltac:(lia) Ha Hc) as (H1 & b & Hb & Hfull & H2).
  exists (add_entry (protected_frames p) f), b. rewrite pmm_protect_frame_run by (done || unfold PADDR_INVALID; lia). cbn zeta.
  rewrite frame_base_id by done. fold (pfn f). split_and!; [| |lia|lia|apply add_entry_length|done|done].
  - do 2 f_equal. destruct (pfn f <? total_frames p) eqn:E; [|done]. zify_bool. by rewrite Hu by lia.
  - apply prot_ok_of_table; [done|]. intros e He Hlt. pose proof (table_count _ _ H1 He) as Hpos. rewrite H2 in Hpos.
    case_if_in Hpos; [rewrite <- Hif in *; auto|]. destruct (count_in_table _ _ (prot_ok_table _ Hp) ltac:(rewrite Z.add_0_r in Hpos; exact Hpos)) as (e' & He' & Efe).
    rewrite <- Efe in *. by apply (po_used _ Hp).
Qed.

Lemma protect_owned p g f r : acct p g -> own g !! f = Some r -> r <> RData -> protections p f = 0 ->
  exists p', pmm_protect_frame p f = Some p' /\ acct p' g /\ pmem p' = pmem p /\ protections p' f <= 1 /\
    forall x, x <> f -> protections p' x = protections p x.
Proof.
  intros Ha Hf Hr Hp. destruct (own_frame _ _ _ _ Ha Hf) as [[Hal Hlt] H0]. destruct (ac_own _ _ Ha f r Hf) as [(F1 & F2 & F3) _].
  destruct (protect_any p f (ac_inv _ _ Ha) (ac_prot _ _ Ha) (ac_lock _ _ Ha) Hal ltac:(lia) ltac:(auto) ltac:(lia)) as (l & b & E & Hok & Hb & Hlen & Hfull & Hx).
  assert (Hother : forall x, x <> f -> protections (set_protected p l) x = protections p x).
  { intros x Hne. rewrite Hx, (proj2 (Z.eqb_neq f x)) by congruence. lia. }
  assert (Hself : protections (set_protected p l) f <= 1) by (rewrite Hx, Z.eqb_refl; lia).
  eexists. split; [exact E|]. split_and!; try done. apply (acct_view p); try done; [apply inv_protected, Ha|apply Ha|].
  intros f' r' Hf'. destruct (decide (f' = f)) as [->|Hne]; [|rewrite Hother by done; by apply (ac_own _ _ Ha f' r')].
  assert (r' = r) as -> by congruence. by destruct r.
Qed.

(** The frame is protected, unless the table of protected frames is full. *)
Definition held (p : pmm) (f : Z) : Prop :=
  0 < protections p f \/ MAX_PROTECTED_FRAMES <= Z.of_nat (length (protected_frames p)).

(** Protecting frames in use: the bitmap stays, no protection is lost. *)
Definition protects (p p' : pmm) : Prop :=
  total_frames p' = total_frames p /\ (forall j, test_frame p' j = test_frame p j) /\ forall f, held p f -> held p' f.

Lemma protects_refl p : protects p p.
Proof. done. Qed.

Lemma protects_trans p1 p2 p3 : protects p1 p2 -> protects p2 p3 -> protects p1 p3.
Proof. intros (A1 & A2 & A3) (B1 & B2 & B3). split_and!; [congruence|intros j; by rewrite B2|auto]. Qed.

Lemma protect_kern p g k : acct p g -> k ∈ kern g -> protections p k < 2 ^ 32 - 1 ->
  exists p', pmm_protect_frame p k = Some p' /\ acct p' g /\ pmem p' = pmem p /\
    (forall x, protections p x <= protections p' x <= protections p x + (if k =? x then 1 else 0)) /\
    protects p p' /\ held p' k.
Proof.
  intros Ha Hk Hc. destruct (ac_kern _ _ Ha k Hk) as (K1 & K2 & K3 & K4).
  destruct (protect_any p k (ac_inv _ _ Ha) (ac_prot _ _ Ha) (ac_lock _ _ Ha) K2 K3 K4 Hc) as (l & b & E & Hok & Hb & Hlen & Hfull & Hx).
  eexists. split; [exact E|]. split_and!; try done; [|intros x; rewrite Hx; case_if; lia| |].
  2:{ split; [done|]. split; [done|]. intros x [Hx0|Hx0]; [left; rewrite Hx; case_if; lia|right; simpl; lia]. }
  2:{ unfold held. rewrite Hx, Z.eqb_refl. pose proof (prot_nonneg p k (ac_prot _ _ Ha)). destruct Hfull; [left; lia|right; simpl; lia]. }
  apply (acct_view p); try done; [apply inv_protected, Ha|apply Ha|]. intros f r Hf. rewrite Hx.
  rewrite (proj2 (Z.eqb_neq k f)) by congruence. rewrite Z.add_0_r. by apply (ac_own _ _ Ha f r).
Qed.

(** Protection of a used frame leaves the counters. *)
Lemma protect_info p g f p' : acct p g -> (exists r, own g !! f = Some r) \/ f ∈ kern g -> protections p f < 2 ^ 32 - 1 -> pmm_protect_frame p f = Some p' -> frees p' = frees p.
Proof.
  intros Ha Hf Hc E. assert (Hk : f mod PAGE_SIZE = 0 /\ 0 < f < 2 ^ 32 /\ (pfn f < total_frames p -> test_frame p (pfn f) = true)).
  { destruct Hf as [[r Hf]|Hf]; [|by destruct (ac_kern _ _ Ha f Hf)]. destruct (own_frame _ _ _ _ Ha Hf) as [[? ?] ?]. destruct (ac_own _ _ Ha f r Hf) as [(? & ? & ?) _]. split_and!; auto; lia. }
  destruct Hk as (K1 & K2 & K3). destruct (protect_any p f (ac_inv _ _ Ha) (ac_prot _ _ Ha) (ac_lock _ _ Ha) K1 K2 K3 Hc) as (l & b & E' & _).
  rewrite E' in E. by injection E as <-.
Qed.

Lemma ref_inc_info p f r p' : pmm_frame_ref_inc p f = Some (r, p') -> frees p' = frees p.
Proof.
  unfold pmm_frame_ref_inc. repeat case_if; try (intros [= <- <-]; done). unfold pmm_enter. destruct (lock_irqsave (pmm_lock p)) as [[i l]|]; cbn [mbind option_bind]; [|done].
  case_if; by intros [= <- <-].
Qed.

Lemma unprotect_acct p g f : acct p g -> f mod PAGE_SIZE = 0 -> 0 < f < 2 ^ 32 ->
  exists p', pmm_unprotect_frame p f = Some p' /\ acct p' g /\ pmem p' = pmem p /\
    forall x, protections p' x = if f =? x then Z.max 0 (protections p x - 1) else protections p x.
Proof.
  intros Ha Hal Hf. assert (Hf' : 0 < f < PADDR_INVALID) by (unfold PADDR_INVALID; lia).
  rewrite pmm_unprotect_frame_run by (done || apply Ha). rewrite frame_base_id by done. eexists. split; [done|].
  destruct (unprotect_keeps p f (ac_inv _ _ Ha) (ac_prot _ _ Ha) (ac_lock _ _ Ha) Hf') as (K1 & K2 & K3 & K4). rewrite frame_base_id in * by done.
  destruct (sub_entry_spec (protected_frames p) f (prot_ok_table _ (ac_prot _ _ Ha))) as [_ Hx].
  split_and!; [|done|done]. apply (acct_view p); try done; [by rewrite K3; apply Ha|]. intros f' r Hfr.
  destruct (ac_own _ _ Ha f' r Hfr) as (_ & _ & Hlim). unfold protections in *. cbn [protected_frames set_protected]. rewrite Hx.
  case_if; [|done]. assert (0 <= prot_limit r) by (by destruct r). lia.
Qed.

(** ** Roles *)

(** A change of the maps that keeps every frame's account. *)
Lemma acct_ghost p g g' : acct p g ->
  (forall f r', own g' !! f = Some r' -> exists r, own g !! f = Some r /\ (r = RData <-> r' = RData) /\ protections p f <= prot_limit r') ->
  (forall f, own g !! f = None -> own g' !! f = None) -> kern g' = kern g ->
  (forall f, uses g' f = uses g f) ->
  (forall k e, pages g' !! k = Some e \/ lrefs g' !! k = Some e -> exists k', pages g !! k' = Some e \/ lrefs g !! k' = Some e) ->
  (forall f, own g !! f = Some RData -> own g' !! f = Some RData) ->
  acct p g'.
Proof.
  intros [A1 A2 A3 A4 A5 A6 A7 A8 A9] H1 H2 H3 H4 H5 H6. split; try done.
  - intros f r' Hf. destruct (H1 f r' Hf) as (r & Hr & Hiff & Hlim). destruct (A6 f r Hr) as (F1 & F2 & F3). split_and!; [done| |done].
    rewrite F2, H4. destruct (decide (r = RData)) as [E|E], (decide (r' = RData)) as [E'|E']; try done; tauto.
  - intros f Hf. rewrite H4. destruct (H1 f _ Hf) as (r & Hr & Hiff & _). apply A7. rewrite Hr. f_equal. tauto.
  - intros k e Hk. destruct (H5 k e Hk) as (k' & Hk'). apply H6. by apply (A8 k').
  - intros k. rewrite H3. intros Hk. destruct (A9 k Hk) as (F1 & ?). split; [by apply H2|done].
Qed.
