(* ===== verification/Layout.v ===== *)
(** * Address spaces in memory

    How the tables and pages of the ghost state lie in memory: the entries of
    a directory point to its tables, the entries of a table are the pages of
    the directory, and the kernel half of every directory points to tables of
    the kernel.  [bd] is the frame of the boot directory. *)

From S2P Require Import Prelude Spinlock Mem Pmm PmmFacts PmmProps PmmSteps Task Paging FrameMem Spaces.

(** ** The relation *)

Definition entry_ok (w : Z) (o : option Z) : Prop :=
  match o with Some e => w = e /\ flag e PAGE_PRESENT = true | None => flag w PAGE_PRESENT = false end.

(** A directory entry admits the user's accesses to the pages below it. *)
Definition user_ok (g : spaces) (d i w : Z) : Prop :=
  forall j e, 0 <= j < 1024 -> pages g !! (d, 1024 * i + j) = Some e -> flag e PAGE_USER = true -> flag w PAGE_USER = true.

Definition pde_ok (g : spaces) (d i w : Z) : Prop :=
  match tables g !! (d, i) with
  | Some t => flag w PAGE_PRESENT = true /\ flag w PAGE_WRITE = true /\ i686_get_frame w = t /\ user_ok g d i w
  | None => flag w PAGE_PRESENT = false
  end.

Definition kernel_ok (g : spaces) (w : Z) : Prop :=
  flag w PAGE_PRESENT = true -> i686_get_frame w = 0 \/ i686_get_frame w ∈ kern g.

(** A directory in limbo may have tables: it is being built or released. *)
Definition dir_like (o : option role) : Prop := o = Some RDir \/ o = Some RLimbo.

Section layout.
Variable bd : Z.

Record layout (m : mem) (g : spaces) : Prop := Layout {
  ly_frames : forall f r, own g !! f = Some r -> is_frame f;
  ly_bd : is_frame bd /\ own g !! bd = None;
  ly_dir : forall d i, own g !! d = Some RDir -> 0 <= i < 512 -> pde_ok g d i (word m d i);
  ly_kern : forall d i, own g !! d = Some RDir -> 512 <= i < 1024 -> kernel_ok g (word m d i);
  ly_boot : forall i, 512 <= i < 1024 -> kernel_ok g (word m bd i);
  ly_table : forall d i t, tables g !! (d, i) = Some t -> dir_like (own g !! d) /\ own g !! t = Some RTable /\ 0 <= i < 512;
  ly_page : forall d i t j, tables g !! (d, i) = Some t -> 0 <= j < 1024 -> entry_ok (word m t j) (pages g !! (d, 1024 * i + j));
  ly_inj : forall k k' t, tables g !! k = Some t -> tables g !! k' = Some t -> k = k';
  ly_in : forall d v e, pages g !! (d, v) = Some e -> 0 <= v < 2 ^ 19 /\ is_Some (tables g !! (d, v / 1024))
}.

(** The frames whose contents matter to the layout. *)
Definition structural (g : spaces) (f : Z) : Prop := own g !! f = Some RDir \/ own g !! f = Some RTable \/ f = bd.

Lemma layout_mem m m' g : layout m g -> (forall f, structural g f -> same_frame m m' f) -> layout m' g.
Proof.
  intros [L1 L2 L3 L4 L5 L6 L7 L8 L9] Hs. split; try done.
  - intros d i Hd Hi. rewrite (word_same m) by (lia || apply Hs; by left). by apply L3.
  - intros d i Hd Hi. rewrite (word_same m) by (lia || apply Hs; by left). by apply L4.
  - intros i Hi. rewrite (word_same m) by (lia || apply Hs; by right; right). by apply L5.
  - intros d i t j Ht Hj. rewrite (word_same m); [by apply L7|apply Hs; right; left; apply (L6 d i t Ht)|lia].
Qed.

Lemma structural_frame m g f : layout m g -> structural g f -> is_frame f.
Proof. intros Hl [H|[H| ->]]; [by eapply ly_frames|by eapply ly_frames|apply (ly_bd _ _ Hl)]. Qed.

(** A frame that is not structural may be written. *)
Lemma layout_other m m' g f : layout m g -> is_frame f -> own g !! f <> Some RDir -> own g !! f <> Some RTable -> f <> bd ->
  (forall f', is_frame f' -> f' <> f -> same_frame m m' f') -> layout m' g.
Proof.
  intros Hl Hf H1 H2 H3 Hs. apply (layout_mem m); [done|]. intros f' Hf'. apply Hs; [by eapply structural_frame|].
  intros ->. by destruct Hf' as [|[|]].
Qed.

(** ** Page numbers *)

Lemma page_split i j : 0 <= i -> 0 <= j < 1024 -> (1024 * i + j) / 1024 = i /\ (1024 * i + j) mod 1024 = j.
Proof. intros Hi Hj. Z.to_euclidean_division_equations. lia. Qed.

Lemma page_join v : 1024 * (v / 1024) + v mod 1024 = v.
Proof. Z.to_euclidean_division_equations. lia. Qed.

Lemma user_page v : 0 <= v < 2 ^ 19 -> 0 <= v / 1024 < 512 /\ 0 <= v mod 1024 < 1024.
Proof. intros Hv. Z.to_euclidean_division_equations. lia. Qed.

Lemma virt_indices virt : 0 <= virt < 2 ^ 32 ->
  i686_pde_index (u32 virt) = virt / PAGE_SIZE / 1024 /\ i686_pte_index (u32 virt) = (virt / PAGE_SIZE) mod 1024.
Proof.
  intros Hv. rewrite u32_small by done. unfold i686_pde_index, i686_pte_index, PAGE_SIZE.
  change 0x3FF with (Z.ones 10). rewrite Z.land_ones, !Z.shiftr_div_pow2 by lia.
  change (2 ^ 22) with (4096 * 1024). rewrite <- Z.div_div by lia. done.
Qed.

(** ** One entry *)

Definition set_page (g : spaces) (k : Z * Z) (o : option Z) : spaces := with_pages g (partial_alter (fun _ => o) k (pages g)).

Lemma set_page_lookup g k o k' : pages (set_page g k o) !! k' = if decide (k' = k) then o else pages g !! k'.
Proof. cbn. destruct (decide (k' = k)) as [->|Hne]; [apply lookup_partial_alter_eq|by rewrite lookup_partial_alter_ne]. Qed.

Lemma pages_table m g d v e : layout m g -> pages g !! (d, v) = Some e ->
  0 <= v < 2 ^ 19 /\ exists t, tables g !! (d, v / 1024) = Some t /\ own g !! t = Some RTable /\ word m t (v mod 1024) = e /\ flag e PAGE_PRESENT = true.
Proof.
  intros Hl Hp. destruct (ly_in _ _ Hl d v e Hp) as [Hv [t Ht]]. split; [done|]. exists t. destruct (user_page v Hv) as [Hi Hj].
  pose proof (ly_page _ _ Hl d _ t _ Ht Hj) as Hw. rewrite page_join, Hp in Hw. destruct Hw as [Hw Hpr]. split_and!; try done.
  by apply (ly_table _ _ Hl _ _ _ Ht).
Qed.

Lemma pages_range m g k e : layout m g -> pages g !! k = Some e -> 0 <= e < 2 ^ 32.
Proof.
  intros Hl Hp. destruct k as [d v]. destruct (pages_table _ _ _ _ _ Hl Hp) as (_ & t & _ & _ & <- & _). apply word_range.
Qed.

Lemma set_page_layout m g d i t j w o : layout m g -> tables g !! (d, i) = Some t -> 0 <= j < 1024 -> 0 <= w < 2 ^ 32 -> entry_ok w o ->
  (forall e, o = Some e -> own g !! d = Some RDir -> flag e PAGE_USER = true -> flag (word m d i) PAGE_USER = true) ->
  layout (put_word m t j w) (set_page g (d, 1024 * i + j) o).
Proof.
  intros Hl Ht Hj Hw Ho Hu. pose proof Hl as [L1 L2 L3 L4 L5 L6 L7 L8 L9]. destruct (L6 d i t Ht) as (Hd & Hot & Hi).
  assert (Hft : is_frame t) by (by eapply L1).
  assert (Hsame : forall f, is_frame f -> f <> t -> same_frame m (put_word m t j w) f).
  { intros f Hf Hne. apply put_word_other; [done|done|congruence|lia]. }
  split; cbn [own tables kern set_page with_pages]; try done.
  - intros d' i' Hd' Hi'. rewrite (word_same m) by first [lia|apply Hsame; [by eapply L1|intros ->; congruence]].
    pose proof (L3 d' i' Hd' Hi') as Hp. unfold pde_ok in *. cbn [tables set_page with_pages].
    destruct (tables g !! (d', i')) as [t'|] eqn:Et; [|done]. destruct Hp as (P1 & P2 & P3 & P4). split_and!; try done.
    intros j' e Hj' He Hfl. rewrite set_page_lookup in He. destruct (decide _) as [E|]; [|by eapply P4].
    injection E as -> Ev. assert (i' = i) as -> by lia. by eapply Hu.
  - intros d' i' Hd' Hi'. rewrite (word_same m) by first [lia|apply Hsame; [by eapply L1|intros ->; congruence]]. by apply L4.
  - intros i' Hi'. rewrite (word_same m) by first [lia|apply Hsame; [apply L2|intros ->; destruct L2; congruence]]. by apply L5.
  - intros d' i' t' j' Ht' Hj'. rewrite set_page_lookup. destruct (decide (t' = t)) as [->|Hne].
    + pose proof (L8 _ _ _ Ht' Ht) as E. injection E as -> ->. rewrite put_word_word by lia.
      destruct (Z.eqb_spec j j') as [->|Hne]; [by rewrite decide_True by done|].
      rewrite decide_False by (intros E; injection E as E; lia). by apply L7.
    + rewrite (word_same m) by first [lia|apply Hsame; [eapply L1; by apply (L6 _ _ _ Ht')|done]].
      rewrite decide_False; [by apply L7|]. intros E. injection E as -> E. pose proof (L6 _ _ _ Ht') as (_ & _ & Hi').
      assert (i' = i) as -> by lia. congruence.
  - intros d' v e He. rewrite set_page_lookup in He. destruct (decide _) as [E|]; [|by eapply L9].
    injection E as -> ->. destruct (page_split i j ltac:(lia) Hj) as [-> _]. split; [lia|by exists t].
Qed.

(** ** Directories and tables *)

(** An entry of a directory is rewritten. *)
Lemma dir_word_layout m g d i w : layout m g -> own g !! d = Some RDir -> 0 <= i < 1024 -> 0 <= w < 2 ^ 32 ->
  (i < 512 -> pde_ok g d i w) -> (512 <= i -> kernel_ok g w) -> layout (put_word m d i w) g.
Proof.
  intros Hl Hd Hi Hw H1 H2. pose proof Hl as [L1 L2 L3 L4 L5 L6 L7 L8 L9]. assert (Hfd : is_frame d) by (by eapply L1).
  assert (Hsame : forall f, is_frame f -> f <> d -> same_frame m (put_word m d i w) f).
  { intros f Hf Hne. by apply put_word_other; [..|congruence|]. }
  assert (Hdir : forall d' i', own g !! d' = Some RDir -> 0 <= i' < 1024 ->
    word (put_word m d i w) d' i' = if decide (d' = d /\ i' = i) then w else word m d' i').
  { intros d' i' Hd' Hi'. destruct (decide (d' = d)) as [->|Hne].
    - rewrite put_word_word by lia. destruct (Z.eqb_spec i i') as [->|]; [by rewrite decide_True|rewrite decide_False by naive_solver; done].
    - rewrite decide_False by naive_solver. apply word_same; [|done]. apply Hsame; [by eapply L1|done]. }
  split; try done.
  - intros d' i' Hd' Hi'. rewrite Hdir by (done || lia). destruct (decide _) as [[-> ->]|]; [apply H1; lia|by apply L3].
  - intros d' i' Hd' Hi'. rewrite Hdir by (done || lia). destruct (decide _) as [[-> ->]|]; [apply H2; lia|by apply L4].
  - intros i' Hi'. rewrite (word_same m) by first [lia|apply Hsame; [apply L2|intros ->; destruct L2; congruence]]. by apply L5.
  - intros d' i' t j Ht Hj. destruct (L6 _ _ _ Ht) as (_ & Ho & _).
    rewrite (word_same m) by first [lia|apply Hsame; [by eapply L1|intros ->; congruence]]. by apply L7.
Qed.

(** A table in limbo becomes table [i] of directory [d]. *)
Definition link (g : spaces) (d i t : Z) : spaces :=
  Spaces (<[t := RTable]> (own g)) (<[(d, i) := t]> (tables g)) (pages g) (lrefs g) (kern g).

Lemma link_layout m m' g d i t : layout m g -> dir_like (own g !! d) -> own g !! t = Some RLimbo -> t <> d -> 0 <= i < 512 ->
  tables g !! (d, i) = None -> (forall i', tables g !! (t, i') = None) -> (forall j, 0 <= j < 1024 -> flag (word m' t j) PAGE_PRESENT = false) ->
  (forall f, structural g f -> f <> d -> same_frame m m' f) ->
  (own g !! d = Some RDir ->
     (forall i', 0 <= i' < 1024 -> i' <> i -> word m' d i' = word m d i') /\
     flag (word m' d i) PAGE_PRESENT = true /\ flag (word m' d i) PAGE_WRITE = true /\ i686_get_frame (word m' d i) = t) ->
  layout m' (link g d i t).
Proof.
  intros [L1 L2 L3 L4 L5 L6 L7 L8 L9] Hd Ht Htd Hi Hno Hnt Hz Hs Hw.
  assert (Ho : forall f, f <> t -> <[t := RTable]> (own g) !! f = own g !! f) by (intros f Hne; by rewrite lookup_insert_ne).
  assert (Hnp : forall v, v / 1024 = i -> pages g !! (d, v) = None).
  { intros v Hv. destruct (pages g !! (d, v)) as [e|] eqn:E; [|done]. destruct (L9 d v e E) as [_ [t' Ht']]. rewrite Hv in Ht'. congruence. }
  assert (Hold : forall k t', tables g !! k = Some t' -> t' <> t).
  { intros [d' i'] t' Hk ->. destruct (L6 _ _ _ Hk) as (_ & ? & _). congruence. }
  assert (Hdw : forall d' i', own g !! d' = Some RDir -> 0 <= i' < 1024 -> (d', i') <> (d, i) -> word m' d' i' = word m d' i').
  { intros d' i' Hd' Hi' Hne. destruct (decide (d' = d)) as [->|]; [apply (proj1 (Hw Hd')); congruence|].
    apply word_same; [|done]. apply Hs; [by left|done]. }
  split; cbn [own tables pages kern link].
  - intros f r Hf. destruct (decide (f = t)) as [->|Hne]; [by eapply L1|rewrite Ho in Hf by done; by eapply L1].
  - rewrite Ho; [done|]. intros ->. destruct L2. congruence.
  - intros d' i' Hd' Hi'. destruct (decide (d' = t)) as [->|Hne]; [by rewrite lookup_insert_eq in Hd'|]. rewrite Ho in Hd' by done.
    unfold pde_ok, link. cbn [tables]. destruct (decide ((d', i') = (d, i))) as [E|Hne'].
    + injection E as -> ->. rewrite lookup_insert_eq. destruct (Hw Hd') as (_ & P1 & P2 & P3). split_and!; try done.
      intros j e Hj He. cbn in He. rewrite Hnp in He; [done|]. apply page_split; lia.
    + rewrite lookup_insert_ne by done. rewrite Hdw by (done || lia). apply (L3 d' i' Hd' Hi').
  - intros d' i' Hd' Hi'. destruct (decide (d' = t)) as [->|Hne]; [by rewrite lookup_insert_eq in Hd'|]. rewrite Ho in Hd' by done.
    rewrite Hdw; [by apply L4|done|lia|]. intros E. injection E as -> ->. lia.
  - intros i' Hi'. rewrite (word_same m); [by apply L5| |lia]. apply Hs; [by right; right|]. intros E. destruct L2 as [_ L2].
    rewrite E in L2. destruct Hd; congruence.
  - intros d' i' t' Hk. apply lookup_insert_Some in Hk as [[E <-]|[Hne Hk]].
    + injection E as <- <-. rewrite Ho, lookup_insert_eq by congruence. done.
    + destruct (L6 _ _ _ Hk) as (? & ? & ?). rewrite !Ho; [done|by apply (Hold _ _ Hk)|]. intros ->. by rewrite Hnt in Hk.
  - intros d' i' t' j Hk Hj. apply lookup_insert_Some in Hk as [[E <-]|[Hne Hk]].
    + injection E as <- <-. rewrite Hnp by (apply page_split; lia). by apply Hz.
    + rewrite (word_same m); [by apply L7| |lia]. destruct (L6 _ _ _ Hk) as (_ & Htab & _).
      apply Hs; [by right; left|]. intros ->. destruct Hd; congruence.
  - intros k k' t' Hk Hk'. apply lookup_insert_Some in Hk as [[<- <-]|[Hne Hk]]; apply lookup_insert_Some in Hk' as [[<- E]|[Hne' Hk']];
      [done|by destruct (Hold _ _ Hk')|by destruct (Hold _ _ Hk)|by eapply L8].
  - intros d' v e He. destruct (L9 _ _ _ He) as [Hv [t' Ht']]. split; [done|]. destruct (decide ((d', v / 1024) = (d, i))) as [E|Hne].
    + rewrite E, lookup_insert_eq. by eexists.
    + rewrite lookup_insert_ne by done. by eexists.
Qed.

(** ** Roles *)

Definition loose (o : option role) : Prop := o = None \/ o = Some RData \/ o = Some RLimbo.

(** A change of role that no structure depends on. *)
Lemma own_layout m g o' : layout m g -> (forall f r, o' !! f = Some r -> is_frame f) -> o' !! bd = None ->
  (forall f, o' !! f = Some RDir <-> own g !! f = Some RDir) -> (forall f, own g !! f = Some RTable -> o' !! f = Some RTable) ->
  (forall d i t, tables g !! (d, i) = Some t -> own g !! d = Some RLimbo -> dir_like (o' !! d)) ->
  layout m (with_own g o').
Proof.
  intros [L1 L2 L3 L4 L5 L6 L7 L8 L9] H1 H2 H3 H4 H5. split; cbn [own tables pages kern with_own]; try done.
  - split; [apply L2|done].
  - intros d i Hd Hi. by apply (L3 d i); [apply H3|].
  - intros d i Hd Hi. by apply (L4 d i); [apply H3|].
  - intros d i t Ht. destruct (L6 _ _ _ Ht) as (Hd & Htab & Hi). split_and!; [|by apply H4|lia|lia].
    destruct Hd as [Hd|Hd]; [left; by apply H3|by eapply H5].
Qed.

Lemma role_layout m g f r : layout m g -> is_frame f -> f <> bd -> loose (own g !! f) -> r = RData \/ r = RLimbo ->
  (forall i, tables g !! (f, i) = None) -> layout m (add_own g f r).
Proof.
  intros Hl Hf Hb Hlo Hr Hno. pose proof Hl as [L1 L2 _ _ _ _ _ _ _]. apply own_layout; [done|..].
  - intros f' r' Hf'. apply lookup_insert_Some in Hf' as [[<- _]|[_ Hf']]; [done|by eapply L1].
  - rewrite lookup_insert_ne by done. apply L2.
  - intros f'. destruct (decide (f' = f)) as [->|Hne]; [|by rewrite lookup_insert_ne]. rewrite lookup_insert_eq.
    split; intros E; [destruct Hr; congruence|destruct Hlo as [|[|]]; congruence].
  - intros f' Hf'. rewrite lookup_insert_ne; [done|]. intros ->. destruct Hlo as [|[|]]; congruence.
  - intros d i t Ht Hd. rewrite lookup_insert_ne; [by right|]. intros <-. by rewrite Hno in Ht.
Qed.

Lemma del_layout m g f : layout m g -> loose (own g !! f) -> (forall i, tables g !! (f, i) = None) -> layout m (del_own g f).
Proof.
  intros Hl Hlo Hno. pose proof Hl as [L1 L2 _ _ _ _ _ _ _]. apply own_layout; [done|..].
  - intros f' r' Hf'. apply lookup_delete_Some in Hf' as [_ Hf']. by eapply L1.
  - destruct (decide (f = bd)) as [->|]; [apply lookup_delete_eq|]. rewrite lookup_delete_ne by done. apply L2.
  - intros f'. destruct (decide (f' = f)) as [->|Hne]; [|by rewrite lookup_delete_ne]. rewrite lookup_delete_eq.
    split; intros E; [done|destruct Hlo as [|[|]]; congruence].
  - intros f' Hf'. rewrite lookup_delete_ne; [done|]. intros ->. destruct Hlo as [|[|]]; congruence.
  - intros d i t Ht Hd. rewrite lookup_delete_ne; [by right|]. intros <-. by rewrite Hno in Ht.
Qed.

Lemma lrefs_layout m g l : layout m g -> layout m (with_lrefs g l).
Proof. intros [L1 L2 L3 L4 L5 L6 L7 L8 L9]. by split. Qed.

Lemma drop_ref_layout m g k f : layout m g -> own g !! f = Some RData -> layout m (drop_ref g k f).
Proof.
  intros Hl Hf. unfold drop_ref. case_if; [|by apply lrefs_layout]. apply del_layout; [by apply lrefs_layout|by right; left|].
  intros i. cbn. destruct (tables g !! (f, i)) as [t|] eqn:E; [|done]. destruct (ly_table _ _ Hl _ _ _ E) as ([|] & _); congruence.
Qed.

(** A directory is taken apart, or is finished. *)
Lemma dir_to_limbo m g d : layout m g -> own g !! d = Some RDir -> layout m (add_own g d RLimbo).
Proof.
  intros [L1 L2 L3 L4 L5 L6 L7 L8 L9] Hd. split; cbn [own tables pages kern add_own with_own]; try done.
  - intros f r Hf. apply lookup_insert_Some in Hf as [[<- _]|[_ Hf]]; by eapply L1.
  - rewrite lookup_insert_ne; [done|]. intros <-. destruct L2. congruence.
  - intros d' i Hd' Hi. apply lookup_insert_Some in Hd' as [[_ ?]|[_ Hd']]; [done|by apply (L3 d' i)].
  - intros d' i Hd' Hi. apply lookup_insert_Some in Hd' as [[_ ?]|[_ Hd']]; [done|by apply (L4 d' i)].
  - intros d' i t Ht. destruct (L6 _ _ _ Ht) as (Hdl & Htab & Hi). split_and!; [|rewrite lookup_insert_ne; [done|congruence]|lia|lia].
    destruct (decide (d' = d)) as [->|]; [right; by rewrite lookup_insert_eq|by rewrite lookup_insert_ne].
Qed.

Lemma limbo_to_dir m g d : layout m g -> own g !! d = Some RLimbo -> (forall i, 0 <= i < 512 -> pde_ok g d i (word m d i)) ->
  (forall i, 512 <= i < 1024 -> kernel_ok g (word m d i)) -> layout m (add_own g d RDir).
Proof.
  intros [L1 L2 L3 L4 L5 L6 L7 L8 L9] Hd H1 H2. split; cbn [own tables pages kern add_own with_own]; try done.
  - intros f r Hf. apply lookup_insert_Some in Hf as [[<- _]|[_ Hf]]; by eapply L1.
  - rewrite lookup_insert_ne; [done|]. intros <-. destruct L2. congruence.
  - intros d' i Hd' Hi. apply lookup_insert_Some in Hd' as [[<- _]|[_ Hd']]; [by apply H1|by apply (L3 d' i)].
  - intros d' i Hd' Hi. apply lookup_insert_Some in Hd' as [[<- _]|[_ Hd']]; [by apply H2|by apply (L4 d' i)].
  - intros d' i t Ht. destruct (L6 _ _ _ Ht) as (Hdl & Htab & Hi). split_and!; [|rewrite lookup_insert_ne; [done|congruence]|lia|lia].
    destruct (decide (d' = d)) as [->|]; [left; by rewrite lookup_insert_eq|by rewrite lookup_insert_ne].
Qed.

(** ** Taking a table apart *)

(** The pages of table [i] of directory [d]. *)
Definition below (d i : Z) (kv : (Z * Z) * Z) : Prop := kv.1.1 = d /\ kv.1.2 / 1024 = i.

#[global] Instance below_dec d i kv : Decision (below d i kv).
Proof. unfold below. apply _. Defined.

Definition unlink (g : spaces) (d i t : Z) : spaces :=
  Spaces (<[t := RLimbo]> (own g)) (delete (d, i) (tables g)) (filter (fun kv => ~ below d i kv) (pages g))
    (filter (below d i) (pages g)) (kern g).

Lemma unlink_pages g d i t d' v : pages (unlink g d i t) !! (d', v) = if decide (d' = d /\ v / 1024 = i) then None else pages g !! (d', v).
Proof.
  cbn. destruct (decide _) as [Hd|Hn].
  - apply map_lookup_filter_None. right. intros e _ Hb. apply Hb. exact Hd.
  - destruct (pages g !! (d', v)) as [e|] eqn:E.
    + apply map_lookup_filter_Some. by split.
    + apply map_lookup_filter_None. by left.
Qed.

Lemma unlink_layout m g d i t : layout m g -> own g !! d = Some RLimbo -> tables g !! (d, i) = Some t -> layout m (unlink g d i t).
Proof.
  intros [L1 L2 L3 L4 L5 L6 L7 L8 L9] Hd Ht. destruct (L6 _ _ _ Ht) as (_ & Htab & Hi).
  assert (Hne : forall f r, own g !! f = Some r -> r <> RTable -> <[t := RLimbo]> (own g) !! f = own g !! f).
  { intros f r Hf Hr. rewrite lookup_insert_ne; [done|]. congruence. }
  assert (Hdir : forall f, <[t := RLimbo]> (own g) !! f = Some RDir -> own g !! f = Some RDir /\ f <> d).
  { intros f Hf. apply lookup_insert_Some in Hf as [[_ ?]|[_ Hf]]; [done|]. split; [done|congruence]. }
  split; cbn [own tables kern unlink].
  - intros f r Hf. apply lookup_insert_Some in Hf as [[<- _]|[_ Hf]]; by eapply L1.
  - rewrite lookup_insert_ne; [done|]. intros ->. destruct L2. congruence.
  - intros d' i' Hd' Hi'. apply Hdir in Hd' as [Hd' Hdd]. pose proof (L3 d' i' Hd' Hi') as Hp. unfold pde_ok in *. cbn [tables unlink].
    rewrite lookup_delete_ne by congruence. destruct (tables g !! (d', i')) as [t'|]; [|done]. destruct Hp as (P1 & P2 & P3 & P4).
    split_and!; try done. intros j e Hj He. rewrite unlink_pages, decide_False in He by naive_solver. by eapply P4.
  - intros d' i' Hd' Hi'. apply Hdir in Hd' as [Hd' _]. by apply (L4 d' i').
  - done.
  - intros d' i' t' Hk. apply lookup_delete_Some in Hk as [Hkk Hk]. destruct (L6 _ _ _ Hk) as (Hdl & Ho & Hi').
    split; [destruct Hdl as [E|E]; unfold dir_like; rewrite (Hne _ _ E) by done; auto|]. split; [|done].
    rewrite lookup_insert_ne; [done|]. intros ->. apply Hkk. by eapply L8.
  - intros d' i' t' j Hk Hj. apply lookup_delete_Some in Hk as [Hkk Hk]. rewrite unlink_pages, decide_False; [by apply L7|].
    intros [-> E]. destruct (L6 _ _ _ Hk) as (_ & _ & Hi'). rewrite (proj1 (page_split i' j ltac:(lia) Hj)) in E. congruence.
  - intros k k' t' Hk Hk'. apply lookup_delete_Some in Hk as [_ Hk]. apply lookup_delete_Some in Hk' as [_ Hk']. by eapply L8.
  - intros d' v e He. rewrite unlink_pages in He. destruct (decide _) as [|Hn]; [done|]. destruct (L9 _ _ _ He) as [Hv [t' Ht']].
    split; [done|]. rewrite lookup_delete_ne; [by exists t'|]. intros E. injection E as -> ->. by apply Hn.
Qed.

End layout.

(** ** Accounts of the changes of an address space

    The ghost changes of Layout, seen by the accounts of Spaces, and the
    rights of shared pages: a page that is writable is mapped once. *)

Lemma acct_pmem p g m : acct p g -> acct (set_pmem p m) g.
Proof. intros [A1 A2 A3 A4 A5 A6 A7 A8 A9]. split; try done; [by apply inv_pmem|by eapply same_used_prot]. Qed.

(** The maps are the same but for roles other than data. *)
Lemma acct_roles p g g' : acct p g -> kern g' = kern g -> pages g' = pages g -> lrefs g' = lrefs g ->
  (forall f r', own g' !! f = Some r' -> exists r, own g !! f = Some r /\ (r = RData <-> r' = RData)) ->
  (forall f, own g !! f = None -> own g' !! f = None) -> (forall f, own g !! f = Some RData -> own g' !! f = Some RData) ->
  acct p g'.
Proof.
  intros Ha H1 H2 H3 H4 H5 H6. apply (acct_ghost p g); try done.
  - intros f r' Hf. destruct (H4 f r' Hf) as (r & Hr & Hiff). exists r. split_and!; [done|done|].
    destruct (ac_own _ _ Ha f r Hr) as (_ & _ & Hlim). destruct r, r'; cbn in *; try lia; exfalso; clear -Hiff; intuition discriminate.
  - intros f. unfold uses. by rewrite H2, H3.
  - intros k e. rewrite H2, H3. by exists k.
Qed.

Lemma acct_role p g f r r' : acct p g -> own g !! f = Some r -> r <> RData -> r' <> RData -> acct p (add_own g f r').
Proof.
  intros Ha Hf Hr Hr'. apply (acct_roles p g); try done; cbn.
  - intros f' r1 Hf'. apply lookup_insert_Some in Hf' as [[<- <-]|[_ Hf']]; [by exists r|by exists r1].
  - intros f' Hf'. rewrite lookup_insert_ne; [done|]. congruence.
  - intros f' Hf'. rewrite lookup_insert_ne; [done|]. congruence.
Qed.

Lemma acct_link p g d i t : acct p g -> own g !! t = Some RLimbo -> acct p (link g d i t).
Proof. intros Ha Ht. apply (acct_roles p (add_own g t RTable)); try done; [by eapply acct_role|]. intros f r Hf. by exists r. Qed.

(** Entries of equal frames. *)
Lemma acct_refs p g g' : acct p g -> own g' = own g -> kern g' = kern g -> (forall f, uses g' f = uses g f) ->
  (forall k e, pages g' !! k = Some e \/ lrefs g' !! k = Some e -> own g !! i686_get_frame e = Some RData) -> acct p g'.
Proof.
  intros [A1 A2 A3 A4 A5 A6 A7 A8 A9] H1 H2 H3 H4. split; try done.
  - intros f r. rewrite H1, H3. apply A6.
  - intros f. rewrite H1, H3. apply A7.
  - intros k e. rewrite H1. apply H4.
  - intros k. rewrite H1, H2. apply A9.
Qed.

Lemma acct_unlink p g d i t : acct p g -> lrefs g = ∅ -> own g !! t = Some RTable -> acct p (unlink g d i t).
Proof.
  intros Ha Hl Ht. apply (acct_refs p (add_own g t RLimbo)); [by eapply acct_role|done|done|..].
  - intros f. unfold uses. cbn. rewrite Hl, uses_empty. rewrite Z.add_comm, <- uses_union by apply map_disjoint_filter_complement.
    rewrite map_filter_union_complement. lia.
  - intros k e Hk. change (own (add_own g t RLimbo) !! i686_get_frame e) with (<[t := RLimbo]> (own g) !! i686_get_frame e).
    assert (Hp : pages g !! k = Some e) by (destruct Hk as [Hk|Hk]; by apply map_lookup_filter_Some in Hk as [Hk _]).
    pose proof (ac_refs _ _ Ha k e (or_introl Hp)). rewrite lookup_insert_ne; [done|congruence].
Qed.

Lemma uses_set_page g k o f : uses (set_page g k o) f = uses g f - match pages g !! k with Some e => if i686_get_frame e =? f then 1 else 0 | None => 0 end
  + match o with Some e => if i686_get_frame e =? f then 1 else 0 | None => 0 end.
Proof.
  unfold uses. cbn. set (m := pages g). assert (Hd : uses_of (delete k m) f = uses_of m f - match m !! k with Some e => if i686_get_frame e =? f then 1 else 0 | None => 0 end).
  { destruct (m !! k) as [e|] eqn:E; [by apply uses_delete|]. rewrite delete_id by done. lia. }
  destruct o as [e|].
  - change (partial_alter (fun _ => Some e) k m) with (<[k := e]> m). rewrite <- insert_delete_eq, uses_insert by apply lookup_delete_eq. lia.
  - change (partial_alter (fun _ => None) k m) with (delete k m). lia.
Qed.

Lemma refs_set_page g k o k' e : pages (set_page g k o) !! k' = Some e -> o = Some e \/ pages g !! k' = Some e.
Proof. rewrite set_page_lookup. destruct (decide _); auto. Qed.

Lemma acct_reflag p g k e e' : acct p g -> pages g !! k = Some e -> i686_get_frame e' = i686_get_frame e -> acct p (set_page g k (Some e')).
Proof.
  intros Ha Hk He. apply (acct_refs p g); try done.
  - intros f. rewrite uses_set_page, Hk, He. lia.
  - intros k' e1 [H|H]; [|by apply (ac_refs _ _ Ha k'); right]. apply refs_set_page in H as [E|H]; [|by apply (ac_refs _ _ Ha k'); left].
    injection E as <-. rewrite He. by apply (ac_refs _ _ Ha k); left.
Qed.

(** A page leaves its directory and is held by the running operation. *)
Definition hold (g : spaces) (k : Z * Z) (e : Z) : spaces := with_lrefs (set_page g k None) (<[k := e]> (lrefs g)).

Lemma acct_hold p g k e : acct p g -> pages g !! k = Some e -> lrefs g = ∅ -> acct p (hold g k e).
Proof.
  intros Ha Hk Hl. apply (acct_refs p g); try done.
  - intros f. pose proof (uses_set_page g k None f) as E. rewrite Hk in E. unfold uses in *. cbn in *.
    rewrite uses_insert by (by rewrite Hl). lia.
  - intros k' e1 [H|H]; cbn in H.
    + apply (refs_set_page g k None) in H as [?|H]; [done|]. by apply (ac_refs _ _ Ha k'); left.
    + apply lookup_insert_Some in H as [[_ <-]|[_ H]]; [by apply (ac_refs _ _ Ha k); left|by apply (ac_refs _ _ Ha k'); right].
Qed.

(** A frame in limbo becomes the page [k]. *)
Definition adopt (g : spaces) (k : Z * Z) (e : Z) : spaces := set_page (add_own g (i686_get_frame e) RData) k (Some e).

Lemma unused p g f : acct p g -> own g !! f <> Some RData -> uses g f = 0.
Proof.
  intros Ha Hf. unfold uses. destruct (decide (0 < uses_of (pages g) f)) as [Hp|Hp]; [|destruct (decide (0 < uses_of (lrefs g) f)) as [Hq|Hq]].
  - apply uses_some in Hp as (k & e & Hk & <-). destruct Hf. by apply (ac_refs _ _ Ha k); left.
  - apply uses_some in Hq as (k & e & Hk & <-). destruct Hf. by apply (ac_refs _ _ Ha k); right.
  - pose proof (uses_nonneg (pages g) f). pose proof (uses_nonneg (lrefs g) f). lia.
Qed.

Lemma acct_adopt p g k e : acct p g -> own g !! i686_get_frame e = Some RLimbo -> protections p (i686_get_frame e) = 0 -> pages g !! k = None ->
  acct p (adopt g k e).
Proof.
  intros Ha Hf Hp Hk. set (f := i686_get_frame e) in *. destruct (ac_own _ _ Ha f _ Hf) as ((F1 & F2 & F3) & F4 & F5).
  rewrite decide_False in F4 by done. assert (Hu0 : uses g f = 0) by (apply (unused p); [done|congruence]).
  assert (Hu : forall f', uses (adopt g k e) f' = uses g f' + (if f =? f' then 1 else 0)).
  { intros f'. unfold adopt. rewrite uses_set_page. cbn [pages add_own with_own]. rewrite Hk. fold f. unfold uses. cbn. lia. }
  apply (acct_at p p g _ f Ha (ac_inv _ _ Ha) (ac_prot _ _ Ha) (ac_lock _ _ Ha) eq_refl F1); try done; [lia|left; intros Hin; destruct (ac_kern _ _ Ha f Hin) as [? _]; congruence|..].
  - intros f' Hne. rewrite Hu, (proj2 (Z.eqb_neq f f')) by congruence. cbn. fold f. rewrite lookup_insert_ne by done. split_and!; [done|lia|done].
  - intros r Hr. cbn in Hr. fold f in Hr. rewrite lookup_insert_eq in Hr. injection Hr as <-. rewrite decide_True, Hu, Z.eqb_refl by done.
    cbn [prot_limit]. split_and!; [exact (conj F1 (conj F2 F3))|lia|lia|lia].
  - intros k' e' Hk'. cbn. fold f. destruct (decide (i686_get_frame e' = f)) as [->|Hne]; [apply lookup_insert_eq|].
    rewrite lookup_insert_ne by congruence. destruct Hk' as [H|H]; [|by apply (ac_refs _ _ Ha k'); right].
    unfold adopt in H. apply refs_set_page in H as [E|H]; [by injection E as <-|by apply (ac_refs _ _ Ha k'); left].
Qed.

(** One more page maps a data frame. *)
Lemma share_page p g k e : acct p g -> own g !! i686_get_frame e = Some RData -> pages g !! k = None -> uses g (i686_get_frame e) < 65535 ->
  exists r p', pmm_frame_ref_inc p (i686_get_frame e) = Some (r, p') /\ acct p' (set_page g k (Some e)) /\
    protected_frames p' = protected_frames p /\ pmem p' = pmem p.
Proof.
  intros Ha Hf Hk Hu. set (f := i686_get_frame e) in *. destruct (ac_own _ _ Ha f _ Hf) as (_ & F4 & _). rewrite decide_True in F4 by done.
  destruct (own_frame _ _ _ _ Ha Hf) as [[_ Hr] H0]. pose proof (ac_used _ _ Ha f Hf).
  rewrite pmm_frame_ref_inc_run by (apply Ha || lia). rewrite (acct_ref_target _ _ _ _ Ha Hf). cbn zeta. fold (pfn f).
  rewrite F4, (proj2 (Z.eqb_neq _ _)) by lia. eexists _, _. split; [done|]. split; [|done].
  assert (Hs : forall f', uses (set_page g k (Some e)) f' = uses g f' + (if f =? f' then 1 else 0)).
  { intros f'. rewrite uses_set_page, Hk. fold f. lia. }
  apply (recount p g); try done; [|by rewrite Hs, Z.eqb_refl|lia|].
  - intros f' Hne. rewrite Hs, (proj2 (Z.eqb_neq f f')) by congruence. lia.
  - intros k' e' [Hk'|Hk']; [|by apply (ac_refs _ _ Ha k'); right]. apply refs_set_page in Hk' as [E|Hk']; [by injection E as <-|].
    by apply (ac_refs _ _ Ha k'); left.
Qed.
