(* ===== verification/UserSpace.v ===== *)
(** * User memory

    The processor's accesses to user memory and the page-fault handler of
    src/arch/i686/interrupt/isr.c, what a program sees of an address space,
    and the invariant of the virtual memory manager. *)

From S2P Require Import Prelude Spinlock Mem Pmm PmmFacts PmmProps PmmSteps Task Paging Vmm FrameMem Spaces Layout.

(** ** Accesses *)

(** The processor's walk: the entry of a page, with the rights that both
    levels grant. *)
Definition cpu_walk (h : mmu) (v : Z) : option Z :=
  let pde := pte_of h (cr3 h) (v / 1024) in
  if negb (flag pde PAGE_PRESENT) then None
  else
    let pte := pte_of h (i686_get_frame pde) (v mod 1024) in
    if negb (flag pte PAGE_PRESENT) then None
    else
      let pte := if flag pde PAGE_USER then pte else clear_bits pte PAGE_USER in
      Some (if flag pde PAGE_WRITE then pte else clear_bits pte PAGE_WRITE).

Definition cpu_entry (h : mmu) (v : Z) : option Z :=
  match tlb h !! v with Some e => Some e | None => cpu_walk h v end.

(** The processor may cache what it finds, and drop it again. *)
Definition cpu_fill (h : mmu) (v : Z) : mmu :=
  match cpu_entry h v with Some e => set_tlb h (<[v := e]> (tlb h)) | None => h end.
Definition cpu_evict (h : mmu) (v : Z) : mmu := set_tlb h (delete v (tlb h)).

Definition page_fault_handler (s : vmm) (boot_page_directory faulting_address err_code : Z) : option (bool * vmm) :=
  let '(handled, s) := vmm_handle_kernel_page_fault boot_page_directory s faulting_address in
  if handled then Some (true, s) else vmm_handle_cow_page_fault s faulting_address err_code.

(** A byte of user memory, as the processor reads it. *)
Definition user_load (s : vmm) (a : Z) : option Z :=
  e ← cpu_entry (hw s) (a / PAGE_SIZE);
  if flag e PAGE_USER then Some (rd (pmem (pm (hw s))) (kva (i686_get_frame e) + a mod PAGE_SIZE)) else None.

Definition store_try (s : vmm) (a c : Z) : option vmm :=
  e ← cpu_entry (hw s) (a / PAGE_SIZE);
  if flag e PAGE_USER && flag e PAGE_WRITE
  then Some (set_hw s (set_pm (hw s) (set_pmem (pm (hw s))
               (wr (pmem (pm (hw s))) (kva (i686_get_frame e) + a mod PAGE_SIZE) c))))
  else None.

(** A store that faults is tried again after the handler; [false] when the
    handler gives up. *)
Definition user_store (s : vmm) (boot_page_directory a c : Z) : option (bool * vmm) :=
  match store_try s a c with
  | Some s => Some (true, s)
  | None =>
      let err_code := match cpu_entry (hw s) (a / PAGE_SIZE) with Some _ => 7 | None => 6 end in
      '(handled, s) ← page_fault_handler s boot_page_directory a err_code;
      if (handled : bool) then match store_try s a c with Some s => Some (true, s) | None => Some (false, s) end
      else Some (false, s)
  end.

(** ** What a program sees *)

(** The bytes of a page and whether the program may write to it. *)
Record apage := APage { ap_bytes : list Z; ap_write : bool }.

Definition page_bytes (m : mem) (f : Z) : list Z := (fun o => rd m (kva f + o)) <$> seqZ 0 PAGE_SIZE.
Definition apage_of (m : mem) (e : Z) : apage := APage (page_bytes m (i686_get_frame e)) (may_write e).

(** Address spaces by directory, pages by page number. *)
Abbreviation aspaces := (gmap Z (gmap Z apage)).

(** A byte is stored in a page that may be written. *)
Definition stored (A : aspaces) (d a c : Z) (A' : aspaces) : Prop :=
  exists F p, A !! d = Some F /\ F !! (a / PAGE_SIZE) = Some p /\ ap_write p = true /\
    A' = <[d := <[a / PAGE_SIZE := APage (<[Z.to_nat (a mod PAGE_SIZE) := c]> (ap_bytes p)) true]> F]> A.

Definition unwritable (A : aspaces) (d a : Z) : Prop :=
  forall F p, A !! d = Some F -> F !! (a / PAGE_SIZE) = Some p -> ap_write p = false.

Definition shows (m : mem) (g : spaces) (A : aspaces) : Prop :=
  forall d, match A !! d with
            | Some F => own g !! d = Some RDir /\ forall v, F !! v = apage_of m <$> pages g !! (d, v)
            | None => own g !! d <> Some RDir
            end.

(** ** The invariant *)

Record rights (g : spaces) : Prop := Rights {
  rt_alone : forall k e k' e', pages g !! k = Some e -> flag e PAGE_WRITE = true -> pages g !! k' = Some e' ->
    i686_get_frame e' = i686_get_frame e -> k' = k;
  rt_same : forall d v e d' v' e', pages g !! (d, v) = Some e -> pages g !! (d', v') = Some e' ->
    i686_get_frame e' = i686_get_frame e -> v' = v;
  rt_user : forall k e, pages g !! k = Some e -> flag e PAGE_USER = true
}.

Definition tlb_ok (h : mmu) (g : spaces) : Prop :=
  forall v e, tlb h !! v = Some e -> 0 <= v < 2 ^ 19 -> own g !! cr3 h = Some RDir -> pages g !! (cr3 h, v) = Some e.

Section userspace.
Variable bd : Z.

Record hinv (h : mmu) (g : spaces) : Prop := HInv {
  hi_acct : acct (pm h) g;
  hi_lay : layout bd (pmem (pm h)) g;
  hi_rights : rights g;
  hi_bd : bd ∈ kern g
}.

(** Directories are protected while they are registered. *)
Definition active_ok (p : pmm) (active : list Z) (g : spaces) : Prop :=
  NoDup active /\ (forall x, x ∈ active -> own g !! x = Some RDir \/ x ∈ kern g) /\
  forall d, own g !! d = Some RDir -> protections p d <= if decide (d ∈ active) then 1 else 0.

Record vinv (s : vmm) (g : spaces) : Prop := VInv {
  vi_h : hinv (hw s) g;
  vi_lrefs : lrefs g = ∅;
  vi_limbo : forall f, own g !! f <> Some RLimbo;
  vi_current : cr3 (hw s) = current_dir_phys s;
  vi_cur : own g !! cr3 (hw s) = Some RDir \/ cr3 (hw s) = bd;
  vi_tlb : tlb_ok (hw s) g;
  vi_lock : lock_free (vmm_lock s);
  vi_active : active_ok (pm (hw s)) (active_page_directories s) g
}.

Definition good (s : vmm) (A : aspaces) : Prop := exists g, vinv s g /\ shows (pmem (pm (hw s))) g A.
End userspace.

(** ** The view *)

Lemma page_bytes_eq m m' f f' : (forall o, 0 <= o < PAGE_SIZE -> rd m' (kva f + o) = rd m (kva f' + o)) -> page_bytes m' f = page_bytes m f'.
Proof.
  intros He. unfold page_bytes. apply list_fmap_ext. intros i o Ho. apply lookup_seqZ in Ho as [-> Hi]. apply He. lia.
Qed.

Lemma page_bytes_same m m' f : same_frame m m' f -> page_bytes m' f = page_bytes m f.
Proof. apply page_bytes_eq. Qed.

Lemma page_bytes_at m f o : 0 <= o < PAGE_SIZE -> page_bytes m f !! Z.to_nat o = Some (rd m (kva f + o)).
Proof.
  intros Ho. unfold page_bytes. rewrite list_lookup_fmap. rewrite lookup_seqZ_lt by (unfold PAGE_SIZE in *; lia). cbn.
  by rewrite Z2Nat.id, Z.add_0_l by lia.
Qed.

Lemma page_bytes_length m f : length (page_bytes m f) = Z.to_nat PAGE_SIZE.
Proof. unfold page_bytes. by rewrite length_fmap, length_seqZ. Qed.

Lemma apage_same m m' e e' : i686_get_frame e' = i686_get_frame e -> may_write e' = may_write e ->
  same_frame m m' (i686_get_frame e) -> apage_of m' e' = apage_of m e.
Proof. intros H1 H2 H3. unfold apage_of. by rewrite H1, H2, (page_bytes_same m). Qed.

(** The view depends on the pages of the directories. *)
Lemma shows_ext m m' g g' A : shows m g A -> (forall d, own g' !! d = Some RDir <-> own g !! d = Some RDir) ->
  (forall d v, own g !! d = Some RDir -> apage_of m' <$> pages g' !! (d, v) = apage_of m <$> pages g !! (d, v)) -> shows m' g' A.
Proof.
  intros Hs Ho Hp d. specialize (Hs d). destruct (A !! d) as [F|]; [|by rewrite Ho]. destruct Hs as [Hd Hv].
  split; [by apply Ho|]. intros v. by rewrite Hv, Hp.
Qed.

Lemma shows_dir m g A d : shows m g A -> own g !! d = Some RDir -> exists F, A !! d = Some F /\ forall v, F !! v = apage_of m <$> pages g !! (d, v).
Proof. intros Hs Hd. specialize (Hs d). destruct (A !! d) as [F|]; [|done]. exists F. split; [done|apply Hs]. Qed.

Lemma shows_some m g A d F : shows m g A -> A !! d = Some F -> own g !! d = Some RDir /\ forall v, F !! v = apage_of m <$> pages g !! (d, v).
Proof. intros Hs Hd. specialize (Hs d). by rewrite Hd in Hs. Qed.

#[global] Opaque page_bytes.
