(* ===== verification/SpaceOps.v ===== *)
(** * Pages of one address space

    Walks, faults on shared pages, and mapping and unmapping of single
    pages, against the invariant of UserSpace. *)

From S2P Require Import Prelude Spinlock Mem Pmm PmmFacts PmmProps PmmSteps Task Paging Vmm FrameMem Spaces Layout UserSpace.

(** ** Sections under the lock *)

Lemma vmm_locked_run {A} s (body : vmm -> option (A * vmm)) r s' : lock_free (vmm_lock s) ->
  body (set_vmm_lock s (LockSt SPINLOCK_LOCKED false)) = Some (r, s') -> vmm_lock s' = LockSt SPINLOCK_LOCKED false ->
  vmm_locked s body = Some (r, set_vmm_lock s' (vmm_lock s)).
Proof.
  intros Hl Hb Hs. unfold vmm_locked. rewrite lock_irqsave_free by done. cbn -[unlock_irqrestore]. rewrite Hb. cbn -[unlock_irqrestore]. rewrite Hs.
  by rewrite lock_section_restores.
Qed.

Lemma locked_hw {A} s (body : vmm -> option (A * vmm)) r h : lock_free (vmm_lock s) ->
  body (set_vmm_lock s (LockSt SPINLOCK_LOCKED false)) = Some (r, set_hw (set_vmm_lock s (LockSt SPINLOCK_LOCKED false)) h) ->
  vmm_locked s body = Some (r, set_hw s h).
Proof. intros Hl Hb. by rewrite (vmm_locked_run _ _ _ _ Hl Hb eq_refl). Qed.

Lemma set_hw_same s : set_hw s (hw s) = s.
Proof. by destruct s. Qed.

Lemma set_pm_twice h p q : set_pm (set_pm h p) q = set_pm h q.
Proof. done. Qed.

Lemma pm_set_pm h p : pm (set_pm h p) = p.
Proof. done. Qed.

Lemma opt_bind {A C} (f : A -> option C) x : Some x ≫= f = f x.
Proof. done. Qed.

(** ** Rights *)

Lemma rights_set g k e' : rights g -> flag e' PAGE_USER = true ->
  (forall k' e1, k' <> k -> pages g !! k' = Some e1 -> i686_get_frame e1 = i686_get_frame e' ->
     flag e' PAGE_WRITE = false /\ flag e1 PAGE_WRITE = false /\ k'.2 = k.2) ->
  rights (set_page g k (Some e')).
Proof.
  intros [R1 R2 R3] Hu Hk. split.
  - intros k1 e1 k2 e2. rewrite !set_page_lookup. destruct (decide (k1 = k)) as [->|H1], (decide (k2 = k)) as [->|H2]; try done.
    + intros E Hw Hp Hf. injection E as <-. destruct (Hk k2 e2 H2 Hp Hf) as (? & _). congruence.
    + intros Hp Hw E Hf. injection E as <-. destruct (Hk k1 e1 H1 Hp (eq_sym Hf)) as (_ & ? & _). congruence.
    + by apply R1.
  - intros d v e1 d' v' e2. rewrite !set_page_lookup. destruct (decide ((d, v) = k)) as [E1|H1], (decide ((d', v') = k)) as [E2|H2]; subst; try done.
    + by injection E2 as <- <-.
    + intros E Hp Hf. injection E as <-. by destruct (Hk _ _ H2 Hp Hf) as (_ & _ & ?).
    + intros Hp E Hf. injection E as <-. by destruct (Hk _ _ H1 Hp (eq_sym Hf)) as (_ & _ & ?).
    + by apply R2.
  - intros k1 e1. rewrite set_page_lookup. destruct (decide (k1 = k)); [intros E; by injection E as <-|apply R3].
Qed.

Lemma rights_sub g g' : rights g -> (forall k e, pages g' !! k = Some e -> pages g !! k = Some e) -> rights g'.
Proof.
  intros [R1 R2 R3] Hs. split.
  - intros k e k' e' H1 H2 H3 H4. by apply (R1 k e k' e'); auto.
  - intros d v e d' v' e' H1 H2 H3. apply (R2 d v e d' v' e'); auto.
  - intros k e Hk. eauto.
Qed.

(** Two pages that share a frame. *)
Lemma uses_two g k e k' e' : pages g !! k = Some e -> pages g !! k' = Some e' -> k <> k' -> i686_get_frame e' = i686_get_frame e ->
  2 <= uses g (i686_get_frame e).
Proof.
  intros Hk Hk' Hne Hf. pose proof (uses_set_page g k None (i686_get_frame e)) as E. rewrite Hk, Z.eqb_refl in E.
  assert (Hp : pages (set_page g k None) !! k' = Some e') by (rewrite set_page_lookup, decide_False; [done|congruence]).
  pose proof (uses_pos _ _ _ Hp) as Hpos. rewrite Hf in Hpos. pose proof (uses_nonneg (lrefs g) (i686_get_frame e)).
  unfold uses in *. cbn [lrefs set_page with_pages] in *. cbn [pages] in *. lia.
Qed.

(** ** Walks *)

Section ops.
Variable bd : Z.

Lemma dir_space h d : get_page_directory h (if d =? cr3 h then HAL_ADDR_SPACE_CURRENT else d) = d \/ d = 0.
Proof.
  unfold get_page_directory, hal_mmu_get_current_page_table, HAL_ADDR_SPACE_CURRENT. destruct (Z.eqb_spec d (cr3 h)) as [->|]; [by left|].
  destruct (Z.eqb_spec d 0); [by right|]. by left.
Qed.

Definition walks (h : mmu) (g : spaces) (space d virt : Z) : Prop :=
  let v := virt / PAGE_SIZE in
  match pages g !! (d, v) with
  | Some e => exists t, tables g !! (d, v / 1024) = Some t /\ own g !! t = Some RTable /\ pt_walk h space virt = Some (t, v mod 1024) /\
      pte_of h t (v mod 1024) = e
  | None => pt_walk h space virt = None
  end.

Lemma virt_page virt : 0 <= virt < 2 ^ 31 -> 0 <= virt / PAGE_SIZE < 2 ^ 19.
Proof. unfold PAGE_SIZE. intros Hv. Z.to_euclidean_division_equations. lia. Qed.

Lemma walk_page h g space d virt : layout bd (pmem (pm h)) g -> get_page_directory h space = d -> own g !! d = Some RDir ->
  0 <= virt < 2 ^ 31 -> walks h g space d virt.
Proof.
  intros Hl Hs Hd Hv. pose proof (virt_page virt Hv) as Hp. destruct (user_page _ Hp) as [Hi Hj]. unfold walks, pt_walk. rewrite Hs.
  destruct (virt_indices virt ltac:(lia)) as [-> ->]. set (v := virt / PAGE_SIZE) in *.
  pose proof (ly_dir _ _ _ Hl d (v / 1024) Hd Hi) as Hpde. unfold pde_ok in Hpde.
  change (word (pmem (pm h)) d (v / 1024)) with (pte_of h d (v / 1024)) in Hpde. unfold i686_is_present.
  destruct (tables g !! (d, v / 1024)) as [t|] eqn:Et.
  - destruct Hpde as (P1 & _ & P3 & _). rewrite P1, P3. cbn [negb]. pose proof (ly_page _ _ _ Hl d _ t _ Et Hj) as He.
    rewrite page_join in He. change (word (pmem (pm h)) t (v mod 1024)) with (pte_of h t (v mod 1024)) in He.
    destruct (pages g !! (d, v)) as [e|].
    + destruct He as [Hw He]. rewrite Hw, He. exists t. split_and!; try done. by apply (ly_table _ _ _ Hl _ _ _ Et).
    + cbn in He. by rewrite He.
  - rewrite Hpde. cbn [negb]. destruct (pages g !! (d, v)) as [e|] eqn:Ep; [|done].
    destruct (ly_in _ _ _ Hl _ _ _ Ep) as [_ [t Ht]]. congruence.
Qed.

(** The processor walks to the same entry. *)
Lemma cpu_walk_page h g v : layout bd (pmem (pm h)) g -> rights g -> own g !! cr3 h = Some RDir -> 0 <= v < 2 ^ 19 ->
  cpu_walk h v = pages g !! (cr3 h, v).
Proof.
  intros Hl Hr Hd Hv. destruct (user_page _ Hv) as [Hi Hj]. unfold cpu_walk. set (d := cr3 h) in *.
  pose proof (ly_dir _ _ _ Hl d (v / 1024) Hd Hi) as Hpde. unfold pde_ok in Hpde.
  change (word (pmem (pm h)) d (v / 1024)) with (pte_of h d (v / 1024)) in Hpde.
  destruct (tables g !! (d, v / 1024)) as [t|] eqn:Et.
  - destruct Hpde as (P1 & P2 & P3 & P4). rewrite P1, P2, P3. cbn [negb]. pose proof (ly_page _ _ _ Hl d _ t _ Et Hj) as He.
    rewrite page_join in He. change (word (pmem (pm h)) t (v mod 1024)) with (pte_of h t (v mod 1024)) in He.
    destruct (pages g !! (d, v)) as [e|] eqn:Ep; [|cbn in He; by rewrite He].
    destruct He as [-> He]. rewrite He. cbn [negb]. rewrite (P4 (v mod 1024) e); [done|done|by rewrite page_join|by eapply rt_user].
  - rewrite Hpde. cbn [negb]. destruct (pages g !! (d, v)) as [e|] eqn:Ep; [|done].
    destruct (ly_in _ _ _ Hl _ _ _ Ep) as [_ [t Ht]]. congruence.
Qed.

Lemma cpu_entry_page h g v : hinv bd h g -> tlb_ok h g -> own g !! cr3 h = Some RDir -> 0 <= v < 2 ^ 19 ->
  cpu_entry h v = pages g !! (cr3 h, v).
Proof.
  intros [_ Hl Hr _] Ht Hd Hv. unfold cpu_entry. destruct (tlb h !! v) as [e|] eqn:E; [by rewrite (Ht v e E Hv Hd)|].
  by apply cpu_walk_page.
Qed.

(** ** Writing one entry *)

Lemma table_write m g t j w f r : layout bd m g -> own g !! t = Some RTable -> 0 <= j < 1024 -> own g !! f = Some r -> r <> RTable ->
  same_frame m (put_word m t j w) f.
Proof.
  intros Hl Ht Hj Hf Hr. apply put_word_other; [by eapply ly_frames|by eapply ly_frames|congruence|done].
Qed.

Lemma hinv_reflag h g d v t e e' : hinv bd h g -> own g !! d = Some RDir -> pages g !! (d, v) = Some e -> tables g !! (d, v / 1024) = Some t ->
  0 <= e' < 2 ^ 32 -> i686_get_frame e' = i686_get_frame e -> flag e' PAGE_PRESENT = true -> flag e' PAGE_USER = true ->
  (flag e' PAGE_WRITE = true -> forall k' e1, pages g !! k' = Some e1 -> i686_get_frame e1 = i686_get_frame e -> k' = (d, v)) ->
  hinv bd (set_pte h t (v mod 1024) e') (set_page g (d, v) (Some e')).
Proof.
  intros [Ha Hl Hr Hb] Hd Hp Ht He Hf Hpr Hu Hw. destruct (ly_in _ _ _ Hl _ _ _ Hp) as [Hv _]. destruct (user_page _ Hv) as [Hi Hj]. split; [..|done].
  - apply acct_pmem. by eapply acct_reflag.
  - rewrite <- (page_join v) at 2. apply set_page_layout; try done. intros e0 E0 _ _. injection E0 as <-.
    pose proof (ly_dir _ _ _ Hl d (v / 1024) Hd Hi) as Hpde. unfold pde_ok in Hpde. rewrite Ht in Hpde. destruct Hpde as (_ & _ & _ & Hpu).
    apply (Hpu (v mod 1024) e); [done|by rewrite page_join|by eapply rt_user].
  - apply rights_set; [done|done|]. intros k' e1 Hne Hk' Hf'. rewrite Hf in Hf'. destruct k' as [d' v']. split_and!.
    + destruct (flag e' PAGE_WRITE) eqn:Ew; [|done]. destruct Hne. by eapply Hw.
    + destruct (flag e1 PAGE_WRITE) eqn:Ew; [|done]. destruct Hne. symmetry. by eapply (rt_alone _ Hr (d', v') e1 (d, v) e).
    + by eapply (rt_same _ Hr d v e d' v' e1).
Qed.

Lemma shows_reflag h g d v t e e' A : hinv bd h g -> shows (pmem (pm h)) g A -> pages g !! (d, v) = Some e -> own g !! t = Some RTable ->
  i686_get_frame e' = i686_get_frame e -> may_write e' = may_write e ->
  shows (pmem (pm (set_pte h t (v mod 1024) e'))) (set_page g (d, v) (Some e')) A.
Proof.
  intros [Ha Hl Hr Hb] Hs Hp Ht Hf Hw. destruct (ly_in _ _ _ Hl _ _ _ Hp) as [Hv _]. destruct (user_page _ Hv) as [Hi Hj].
  assert (Hdata : forall k e1, pages g !! k = Some e1 -> same_frame (pmem (pm h)) (put_word (pmem (pm h)) t (v mod 1024) e') (i686_get_frame e1)).
  { intros k e1 Hk. eapply table_write; [done|done|done|by apply (ac_refs _ _ Ha k); left|done]. }
  apply (shows_ext (pmem (pm h)) _ g); [done|done|]. intros d' v' _. rewrite set_page_lookup. destruct (decide _) as [E|_].
  - injection E as -> ->. rewrite Hp. cbn. f_equal. apply apage_same; [done|done|]. by apply (Hdata (d, v)).
  - destruct (pages g !! (d', v')) as [e1|] eqn:E1; [|done]. cbn. f_equal. apply apage_same; [done|done|]. by apply (Hdata (d', v')).
Qed.

Lemma vinv_hw s g h' g' : vinv bd s g -> hinv bd h' g' -> lrefs g' = ∅ -> (forall f, own g' !! f <> Some RLimbo) ->
  cr3 h' = cr3 (hw s) -> tlb_ok h' g' -> kern g' = kern g -> (forall d, own g' !! d = Some RDir <-> own g !! d = Some RDir) ->
  protected_frames (pm h') = protected_frames (pm (hw s)) -> vinv bd (set_hw s h') g'.
Proof.
  intros [V1 V2 V3 V4 V5 V6 V7 (V8 & V9 & V10)] H1 H2 H3 H4 H5 H6 H7 H8. split; try done; cbn.
  - by rewrite H4.
  - rewrite H4, H7. done.
  - split_and!; [done|intros x Hx; rewrite H7, H6; auto|]. intros d. rewrite H7. unfold protections. rewrite H8. apply V10.
Qed.

Lemma tlb_flush h g h' g' v : tlb_ok h g -> cr3 h' = cr3 h -> tlb h' = delete v (tlb h) ->
  (own g' !! cr3 h = Some RDir -> own g !! cr3 h = Some RDir) ->
  (forall v', v' <> v -> pages g' !! (cr3 h, v') = pages g !! (cr3 h, v')) -> tlb_ok h' g'.
Proof.
  intros Ht Hc Htl Ho Hp v' e Hv' Hr. rewrite Hc. rewrite Htl in Hv'. apply lookup_delete_Some in Hv' as [Hne Hv']. intros Hd.
  rewrite Hp by congruence. apply Ht; auto.
Qed.

(** ** Entries that come and go *)

Lemma hinv_hold h g d v t e : hinv bd h g -> lrefs g = ∅ -> pages g !! (d, v) = Some e -> tables g !! (d, v / 1024) = Some t ->
  hinv bd (set_pte h t (v mod 1024) 0) (hold g (d, v) e).
Proof.
  intros [Ha Hl Hr Hb] He Hp Ht. destruct (ly_in _ _ _ Hl _ _ _ Hp) as [Hv _]. destruct (user_page _ Hv) as [Hi Hj]. split; [..|done].
  - apply acct_pmem. by apply acct_hold.
  - apply lrefs_layout. rewrite <- (page_join v) at 2. by apply set_page_layout.
  - apply (rights_sub g); [done|]. intros k e1 Hk. cbn in Hk. by apply (refs_set_page g (d, v) None) in Hk as [?|?].
Qed.

Lemma no_tables m g f : layout bd m g -> ~ dir_like (own g !! f) -> forall i, tables g !! (f, i) = None.
Proof. intros Hl Hf i. destruct (tables g !! (f, i)) as [t|] eqn:E; [|done]. destruct Hf. by eapply ly_table. Qed.

Lemma hinv_adopt h g d v t e : hinv bd h g -> pages g !! (d, v) = None -> tables g !! (d, v / 1024) = Some t -> 0 <= v < 2 ^ 19 ->
  own g !! i686_get_frame e = Some RLimbo -> (forall i, tables g !! (i686_get_frame e, i) = None) -> protections (pm h) (i686_get_frame e) = 0 ->
  0 <= e < 2 ^ 32 -> flag e PAGE_PRESENT = true -> flag e PAGE_USER = true ->
  (own g !! d = Some RDir -> flag (word (pmem (pm h)) d (v / 1024)) PAGE_USER = true) ->
  hinv bd (set_pte h t (v mod 1024) e) (adopt g (d, v) e).
Proof.
  intros [Ha Hl Hr Hb] Hp Ht Hv Hf Hnt Hpr He Hpre Hu Hpu. destruct (user_page _ Hv) as [Hi Hj]. split; [..|done].
  - apply acct_pmem. by apply acct_adopt.
  - rewrite <- (page_join v) at 2. unfold adopt. assert (Hfd : i686_get_frame e <> d).
    { intros <-. by rewrite Hnt in Ht. }
    apply set_page_layout; try done.
    + apply role_layout; [done|by eapply ly_frames|intros E; destruct (ly_bd _ _ _ Hl); congruence|by right; right|by left|done].
    + intros e0 E0 Hd _. cbn in Hd. rewrite lookup_insert_ne in Hd by done. auto.
  - apply (rights_set (add_own g (i686_get_frame e) RData)); [|done|].
    + apply (rights_sub g); [done|]. by intros k e1.
    + intros k' e1 _ Hk' Hfe. cbn in Hk'. pose proof (ac_refs _ _ Ha k' e1 (or_introl Hk')) as Hd. rewrite Hfe in Hd. congruence.
Qed.

(** ** Frames in limbo *)

Lemma hinv_limbo_mem h g f m' : hinv bd h g -> own g !! f = Some RLimbo -> (forall f', is_frame f' -> f' <> f -> same_frame (pmem (pm h)) m' f') ->
  hinv bd (set_pm h (set_pmem (pm h) m')) g.
Proof.
  intros [Ha Hl Hr Hb] Hf Hs. split; try done; [by apply acct_pmem|].
  apply (layout_other bd (pmem (pm h)) _ _ f); try done; try congruence; [by eapply ly_frames|].
  intros ->. destruct (ly_bd _ _ _ Hl). congruence.
Qed.

Lemma shows_other m m' g A : shows m g A -> (forall k e, pages g !! k = Some e -> same_frame m m' (i686_get_frame e)) -> shows m' g A.
Proof.
  intros Hs Hd. apply (shows_ext m _ g); [done|done|]. intros d v _. destruct (pages g !! (d, v)) as [e|] eqn:E; [|done].
  cbn. f_equal. apply apage_same; [done|done|]. by apply (Hd (d, v)).
Qed.

(** The outcome of an allocation. *)
Definition fresh (h : mmu) (g : spaces) (f : Z) (p' : pmm) : Prop :=
  f <> PADDR_INVALID /\ is_frame f /\ 0 < f /\ f <> bd /\ own g !! f = None /\ (forall i, tables g !! (f, i) = None) /\ protections p' f = 0 /\
  hinv bd (set_pm h p') (add_own g f RLimbo) /\ filled (pmem (pm h)) (pmem p') (kva f) 0 PAGE_SIZE /\
  forall f', is_frame f' -> f' <> f -> same_frame (pmem (pm h)) (pmem p') f'.

Lemma hinv_alloc h g : hinv bd h g -> exists f p', pmm_alloc_frame I686 (pm h) = Some (f, p') /\ protected_frames p' = protected_frames (pm h) /\
  (f = PADDR_INVALID /\ no_free_frame (pm h) /\ hinv bd (set_pm h p') g /\ pmem p' = pmem (pm h) \/ fresh h g f p').
Proof.
  intros [Ha Hl Hr Hb]. destruct (alloc_acct _ _ Ha) as (f & p' & E & Ep & Hc). exists f, p'. split_and!; try done.
  destruct Hc as [(-> & Hn & Ha' & Em)|(F1 & F2 & F3 & F4 & F5 & F6 & Ha' & Hf)].
  - left. split_and!; try done. split; try done. cbn. by rewrite Em.
  - right. assert (Hnt : forall i, tables g !! (f, i) = None) by (apply (no_tables (pmem (pm h))); [done|intros [|]; congruence]).
    assert (Hs : forall f', is_frame f' -> f' <> f -> same_frame (pmem (pm h)) (pmem p') f') by (intros f' Hf' Hne; eapply filled_frame; [exact F2|done|congruence|done]).
    assert (f <> bd) by (intros ->; done).
    unfold fresh. split_and!; try done; [unfold protections in *; by rewrite Ep|]. split; cbn; try done.
    + apply (layout_other bd (pmem (pm h)) _ _ f); try done; [|by cbn; rewrite lookup_insert_eq|by cbn; rewrite lookup_insert_eq].
      apply role_layout; try done; [by left|by right].
    + apply (rights_sub g); [done|]. by intros k e.
Qed.

Lemma fresh_shows h g f p' A : hinv bd h g -> fresh h g f p' -> shows (pmem (pm h)) g A -> shows (pmem p') (add_own g f RLimbo) A.
Proof.
  intros [Ha Hl Hr Hb] (F1 & F2 & F3 & Fb & F4 & F5 & F6 & F7 & F8 & F9) Hs. apply (shows_ext (pmem (pm h)) _ g); [done|..].
  - intros d. cbn. destruct (decide (d = f)) as [->|]; [rewrite lookup_insert_eq, F4; done|by rewrite lookup_insert_ne].
  - intros d v _. cbn. destruct (pages g !! (d, v)) as [e|] eqn:E; [|done]. cbn. f_equal. apply apage_same; [done|done|].
    pose proof (ac_refs _ _ Ha (d, v) e (or_introl E)) as Hd. apply F9; [by eapply ly_frames|congruence].
Qed.

(** ** Faults on shared pages *)

Lemma cow_flag e : 0 <= e < 2 ^ 32 -> flag (i686_flags_to_hal (Z.land e 0xFFF)) HAL_PAGE_COW = flag e PAGE_COW.
Proof.
  intros He. destruct (mask_split e He) as [_ ->]. rewrite (flag_mod e) by done.
  pose proof (all_flags (fun fl => Bool.eqb (flag (i686_flags_to_hal fl) HAL_PAGE_COW) (flag fl PAGE_COW)) ltac:(vm_compute; reflexivity) e) as H.
  by apply Bool.eqb_prop.
Qed.

Lemma flag_made f fl m : f mod PAGE_SIZE = 0 -> 0 <= f < 2 ^ 32 -> 0 <= fl < PAGE_SIZE -> 0 <= m < PAGE_SIZE -> flag (Z.lor f fl) m = flag fl m.
Proof. intros Hf Hr Hfl Hm. rewrite flag_mod by done. by rewrite (proj2 (proj2 (entry_made f fl Hf Hr Hfl))). Qed.

(** An entry for frame [f] with flags made from those of [e]. *)
Lemma made_entry e f fl' : 0 <= e < 2 ^ 32 -> is_frame f -> flag e PAGE_PRESENT = true -> flag e PAGE_USER = true ->
  keeps_access (e mod PAGE_SIZE) fl' = true ->
  let e' := Z.lor f fl' in
  0 <= e' < 2 ^ 32 /\ i686_get_frame e' = f /\ flag e' PAGE_PRESENT = true /\ flag e' PAGE_USER = true /\
  flag e' PAGE_WRITE = flag fl' PAGE_WRITE /\ flag e' PAGE_COW = flag fl' PAGE_COW.
Proof.
  intros He [Hf Hr] Hp Hu Hk e'. destruct (keeps_access_iff _ _ Hk) as (K1 & K2 & K3).
  destruct (entry_made f fl' Hf ltac:(lia) K3) as (E1 & E2 & E3). unfold e'. rewrite !flag_made by (done || lia).
  rewrite K1, K2, <- !flag_mod by done. done.
Qed.

Lemma get_refcount_own p g f r : acct p g -> own g !! f = Some r -> pmm_frame_get_refcount p f = Some (refcount p (pfn f), p).
Proof.
  intros Ha Hf. pose proof (acct_ref_target _ _ _ _ Ha Hf) as Ht. unfold ref_target in Ht. unfold pmm_frame_get_refcount.
  apply andb_true_iff in Ht as [Ht H3]. apply andb_true_iff in Ht as [H1 H2]. apply negb_true_iff in H1, H3. rewrite H1, H3.
  apply Z.ltb_lt in H2. rewrite (proj2 (Z.leb_gt _ _)) by done. rewrite pmm_enter_free by apply Ha. cbn -[pmm_leave].
  rewrite pmm_leave_restores by (done || apply Ha). by rewrite set_pmm_lock_id.
Qed.

Lemma shiftr_page a : Z.shiftr a 12 = a / PAGE_SIZE.
Proof. by rewrite Z.shiftr_div_pow2. Qed.

Lemma query_page h g space d virt : layout bd (pmem (pm h)) g -> get_page_directory h space = d -> own g !! d = Some RDir -> 0 <= virt < 2 ^ 31 ->
  hal_mmu_query h space virt =
    (fun e => (i686_get_frame e, i686_flags_to_hal (Z.land e 0xFFF))) <$> pages g !! (d, virt / PAGE_SIZE).
Proof.
  intros Hl Hs Hd Hv. pose proof (walk_page h g space d virt Hl Hs Hd Hv) as Hw. unfold walks in Hw. unfold hal_mmu_query.
  destruct (pages g !! _) as [e|]; [|by rewrite Hw]. destruct Hw as (t & _ & _ & -> & He). cbn. by rewrite He.
Qed.

(** A page that is mapped once. *)
Lemma mapped_once g k e : pages g !! k = Some e -> uses g (i686_get_frame e) = 1 ->
  forall k' e1, pages g !! k' = Some e1 -> i686_get_frame e1 = i686_get_frame e -> k' = k.
Proof.
  intros Hk Hu k' e1 Hk' Hf. destruct (decide (k' = k)) as [|Hne]; [done|].
  pose proof (uses_two g k e k' e1 Hk Hk' ltac:(congruence) Hf). lia.
Qed.

Lemma cow_restore_ok h g addr e : hinv bd h g -> own g !! cr3 h = Some RDir -> 0 <= addr < 2 ^ 31 ->
  let v := addr / PAGE_SIZE in
  pages g !! (cr3 h, v) = Some e -> uses g (i686_get_frame e) = 1 ->
  exists t e', cow_restore h addr = hal_mmu_flush_tlb (set_pte h t (v mod 1024) e') addr /\ own g !! t = Some RTable /\
    hinv bd (set_pte h t (v mod 1024) e') (set_page g (cr3 h, v) (Some e')) /\ i686_get_frame e' = i686_get_frame e /\ flag e' PAGE_WRITE = true.
Proof.
  intros Hh Hd Ha v Hp Hu. pose proof Hh as [Hac Hl Hr Hb]. pose proof (walk_page h g HAL_ADDR_SPACE_CURRENT (cr3 h) addr Hl eq_refl Hd Ha) as Hw.
  unfold walks in Hw. fold v in Hw. rewrite Hp in Hw. destruct Hw as (t & Ht & Hto & Hwk & He). pose proof (pages_range _ _ _ _ _ Hl Hp) as Her.
  destruct (pages_table _ _ _ _ _ _ Hl Hp) as (_ & _ & _ & _ & _ & Hpr). pose proof (rt_user _ Hr _ _ Hp) as Hus.
  destruct (restored_flags_ok e) as (K1 & K2 & K3). destruct (mask_split e Her) as [_ Hm].
  assert (Hf : is_frame (i686_get_frame e)) by (eapply ly_frames; [done|by apply (ac_refs _ _ Hac (cr3 h, v)); left]).
  destruct (made_entry e _ _ Her Hf Hpr Hus K1) as (M1 & M2 & M3 & M4 & M5 & M6).
  exists t, (Z.lor (i686_get_frame e) (restored_flags (e mod PAGE_SIZE))). split_and!; try done.
  - unfold cow_restore, hal_mmu_protect. rewrite Hwk, He. cbn [snd]. by rewrite Hm.
  - apply (hinv_reflag h g (cr3 h) v t e); try done. intros _. by apply mapped_once.
  - by rewrite M5.
Qed.

(** ** Mapping a frame *)

Lemma hinv_link h g d i t w : hinv bd h g -> own g !! d = Some RDir -> own g !! t = Some RLimbo -> (forall i', tables g !! (t, i') = None) ->
  0 <= i < 512 -> tables g !! (d, i) = None -> (forall j, 0 <= j < 1024 -> word (pmem (pm h)) t j = 0) -> 0 <= w < 2 ^ 32 ->
  flag w PAGE_PRESENT = true -> flag w PAGE_WRITE = true -> i686_get_frame w = t ->
  hinv bd (set_pte h d i w) (link g d i t).
Proof.
  intros [Ha Hl Hr Hb] Hd Ht Hnt Hi Hn Hz Hw W1 W2 W3. assert (Hft : is_frame t) by (by eapply ly_frames).
  assert (Hfd : is_frame d) by (by eapply ly_frames). assert (Htd : t <> d) by congruence. split; [..|done].
  - apply acct_pmem. by apply acct_link.
  - apply (link_layout bd (pmem (pm h)) (put_word (pmem (pm h)) d i w)); try done.
    + by left.
    + intros j Hj. rewrite (word_same (pmem (pm h))); [by rewrite Hz|by apply put_word_other; [..|lia]|done].
    + intros f Hf Hne. apply put_word_other; [done|by eapply structural_frame|congruence|lia].
    + intros _. rewrite put_word_word by lia. rewrite Z.eqb_refl. split; [|done].
      intros i' Hi' Hne. rewrite put_word_word by lia. by rewrite (proj2 (Z.eqb_neq i i')) by congruence.
  - apply (rights_sub g); [done|]. by intros k e.
Qed.

Lemma hal_flags_range x : 0 <= hal_flags_to_i686 x < PAGE_SIZE.
Proof.
  unfold hal_flags_to_i686. destruct (flag x HAL_PAGE_COW), (flag x HAL_PAGE_NOCACHE), (flag x HAL_PAGE_USER), (flag x HAL_PAGE_WRITE), (flag x HAL_PAGE_PRESENT);
    vm_compute; split; congruence.
Qed.

Lemma aligned_lor a b : a mod PAGE_SIZE = 0 -> b mod PAGE_SIZE = 0 -> flag (Z.lor a b) (PAGE_SIZE - 1) = false.
Proof.
  intros Ha Hb. unfold flag. change (PAGE_SIZE - 1) with (Z.ones 12). rewrite Z.land_lor_distr_l, !Z.land_ones by lia.
  unfold PAGE_SIZE in *. change (2 ^ 12) with 4096. by rewrite Ha, Hb.
Qed.

Lemma page_zeroed m f : filled m (memset m (kva f) 0 (Z.to_nat PAGE_SIZE)) (kva f) 0 PAGE_SIZE.
Proof. pose proof (memset_filled m (kva f) 0 (Z.to_nat PAGE_SIZE)) as H. by rewrite Z2Nat.id in H by done. Qed.

(** The table for a page: the one there is, or a new one. *)
Definition table_for (h : mmu) (g : spaces) (d i : Z) (h' : mmu) (g' : spaces) (t : Z) : Prop :=
  hinv bd h' g' /\ tables g' !! (d, i) = Some t /\ flag (word (pmem (pm h')) d i) PAGE_USER = true /\
  (g' = g \/ own g !! t = None /\ is_frame t /\ 0 < t /\ g' = link (add_own g t RLimbo) d i t) /\
  (forall f' r, own g !! f' = Some r -> f' <> d -> same_frame (pmem (pm h)) (pmem (pm h')) f') /\
  cr3 h' = cr3 h /\ tlb h' = tlb h /\ protected_frames (pm h') = protected_frames (pm h).

Lemma map_table_new h g d i f p' m2 : hinv bd h g -> own g !! d = Some RDir -> 0 <= i < 512 -> tables g !! (d, i) = None -> fresh h g f p' ->
  protected_frames p' = protected_frames (pm h) -> filled (pmem p') m2 (kva f) 0 PAGE_SIZE ->
  let h1 := set_pm h (set_pmem p' m2) in
  table_for h g d i (set_pte h1 d i (Z.lor (u32 f) 7)) (link (add_own g f RLimbo) d i f) f.
Proof.
  intros Hh Hd Hi Hn (F1 & F2 & F3 & Fb & F4 & F5 & F6 & F7 & F8 & F9) Hpf Hms h1. pose proof F2 as [Fa Fr]. rewrite u32_small by lia.
  destruct (entry_made f 7 Fa ltac:(lia) ltac:(done)) as (E1 & E2 & E3). assert (Hne : f <> d) by congruence.
  assert (Hs1 : forall f', is_frame f' -> f' <> f -> same_frame (pmem p') (pmem (pm h1)) f').
  { intros f' Hf' Hn'. eapply filled_frame; [exact F2|done|congruence|exact Hms]. }
  assert (Hh1 : hinv bd h1 (add_own g f RLimbo)) by (apply (hinv_limbo_mem (set_pm h p') _ f m2 F7); [by cbn; rewrite lookup_insert_eq|done]).
  assert (Hd1 : own (add_own g f RLimbo) !! d = Some RDir) by (cbn; by rewrite lookup_insert_ne).
  unfold table_for. split_and!; try done.
  - apply hinv_link; try done; [by cbn; rewrite lookup_insert_eq| |by rewrite flag_made by (done || lia)|by rewrite flag_made by (done || lia)].
    intros j Hj. by eapply filled_word_zero.
  - cbn. apply lookup_insert_eq.
  - change (flag (word (put_word (pmem (pm h1)) d i (Z.lor f 7)) d i) PAGE_USER = true). rewrite put_word_word, Z.eqb_refl by lia.
    by rewrite flag_made by (done || lia).
  - by right.
  - intros f' r Hf' Hnd. assert (Hff : is_frame f') by (destruct Hh as [_ Hl _ _]; by eapply ly_frames). assert (f' <> f) by congruence.
    eapply same_frame_trans; [by apply F9|]. eapply same_frame_trans; [by apply Hs1|].
    apply put_word_other; [destruct Hh as [_ Hl _ _]; by eapply ly_frames|done|congruence|lia].
Qed.

(** Setting the user bit of an entry. *)
Lemma user_bit w : 0 <= w < 2 ^ 32 ->
  0 <= Z.lor w PAGE_USER < 2 ^ 32 /\ i686_get_frame (Z.lor w PAGE_USER) = i686_get_frame w /\
  flag (Z.lor w PAGE_USER) PAGE_PRESENT = flag w PAGE_PRESENT /\ flag (Z.lor w PAGE_USER) PAGE_WRITE = flag w PAGE_WRITE /\
  flag (Z.lor w PAGE_USER) PAGE_USER = true.
Proof.
  intros Hwr. destruct (frame_of_entry w Hwr) as [G1 G2].
  assert (Hw' : Z.lor w PAGE_USER = Z.lor (i686_get_frame w) (Z.lor (w mod PAGE_SIZE) PAGE_USER)).
  { rewrite Z.lor_assoc. f_equal. destruct (mask_split w Hwr) as [Ew _]. rewrite lor_flags; [lia|done|apply flags_range]. }
  pose proof (all_flags (fun fl => (0 <=? Z.lor fl PAGE_USER) && (Z.lor fl PAGE_USER <? 4096) &&
    Bool.eqb (flag (Z.lor fl PAGE_USER) PAGE_PRESENT) (flag fl PAGE_PRESENT) && Bool.eqb (flag (Z.lor fl PAGE_USER) PAGE_WRITE) (flag fl PAGE_WRITE) &&
    flag (Z.lor fl PAGE_USER) PAGE_USER) ltac:(vm_compute; reflexivity) w) as Hall. cbn beta in Hall.
  apply andb_true_iff in Hall as [Hall A5]. apply andb_true_iff in Hall as [Hall A4]. apply andb_true_iff in Hall as [Hall A3].
  apply andb_true_iff in Hall as [A1 A2]. apply Bool.eqb_prop in A3, A4. zify_bool.
  assert (Hr : 0 <= Z.lor (w mod PAGE_SIZE) PAGE_USER < PAGE_SIZE) by (unfold PAGE_SIZE in *; lia). rewrite Hw'.
  destruct (entry_made (i686_get_frame w) _ G1 ltac:(lia) Hr) as (E1 & E2 & E3).
  assert (Hfm : forall k, 0 <= k < PAGE_SIZE -> flag (Z.lor (i686_get_frame w) (Z.lor (w mod PAGE_SIZE) PAGE_USER)) k =
    flag (Z.lor (w mod PAGE_SIZE) PAGE_USER) k) by (intros k Hk; apply flag_made; (done || lia)).
  rewrite !Hfm, A3, A4, <- !flag_mod by done. done.
Qed.

Lemma map_table_user h g d i t : hinv bd h g -> own g !! d = Some RDir -> 0 <= i < 512 -> tables g !! (d, i) = Some t ->
  table_for h g d i (set_pte h d i (Z.lor (word (pmem (pm h)) d i) PAGE_USER)) g t.
Proof.
  intros [Ha Hl Hr Hb] Hd Hi Et. destruct (user_bit (word (pmem (pm h)) d i) (word_range _ _ _)) as (U1 & U2 & U3 & U4 & U5).
  pose proof (ly_dir _ _ _ Hl d i Hd Hi) as Hp. unfold pde_ok in Hp. rewrite Et in Hp. destruct Hp as (P1 & P2 & P3 & P4).
  set (w' := Z.lor _ PAGE_USER) in *. unfold table_for. split_and!; try done; [split; try done| |by left|].
  - by apply acct_pmem.
  - apply dir_word_layout; try done; [lia| |lia]. intros _. unfold pde_ok. rewrite Et, U2, U3, U4. split_and!; try done. by intros j e Hj He _.
  - change (flag (word (put_word (pmem (pm h)) d i w') d i) PAGE_USER = true). by rewrite put_word_word, Z.eqb_refl by lia.
  - intros f' r Hf' Hnd. apply put_word_other; [by eapply ly_frames|by eapply ly_frames|congruence|lia].
Qed.

Lemma map_table_ok h g d i fl : hinv bd h g -> own g !! d = Some RDir -> 0 <= i < 512 -> flag fl PAGE_USER = true ->
  exists o h', map_table h d i fl = Some (o, h') /\
    match o with
    | Some t => exists g', table_for h g d i h' g' t
    | None => hinv bd h' g /\ pmem (pm h') = pmem (pm h) /\ tables g !! (d, i) = None /\ no_free_frame (pm h) /\ cr3 h' = cr3 h /\ tlb h' = tlb h /\
        protected_frames (pm h') = protected_frames (pm h)
    end.
Proof.
  intros Hh Hd Hi Hfl. pose proof Hh as [Ha Hl Hr Hb]. pose proof (ly_dir _ _ _ Hl d i Hd Hi) as Hp. unfold map_table, i686_is_present.
  change (pte_of h d i) with (word (pmem (pm h)) d i). unfold pde_ok in Hp. pose proof (word_range (pmem (pm h)) d i) as Hwr.
  set (w := word (pmem (pm h)) d i) in *. destruct (tables g !! (d, i)) as [t|] eqn:Et.
  - destruct Hp as (P1 & P2 & P3 & P4). rewrite P1, P3, Hfl. cbn [negb andb]. eexists _, _. split; [done|]. cbn beta iota. exists g.
    destruct (flag w PAGE_USER) eqn:Eu; cbn [negb].
    + unfold table_for. split_and!; try done. by left.
    + by apply (map_table_user h g d i t).
  - rewrite Hp. cbn [negb]. destruct (hinv_alloc h g Hh) as (f & p' & E & Epf & [(-> & Hno & Hh' & Em)|Hfr]); rewrite E; cbn -[memset].
    + eexists _, _. split; [done|]. cbn beta iota. split_and!; done.
    + pose proof Hfr as (F1 & _). rewrite (proj2 (Z.eqb_neq _ _)) by done. eexists _, _. split; [done|]. cbn beta iota. rewrite Hfl. eexists.
      exact (map_table_new h g d i f p' _ Hh Hd Hi Et Hfr Epf (page_zeroed _ _)).
Qed.

(** What a successful mapping of frame [i686_get_frame e] at page [v] leaves. *)
Definition mapped (h : mmu) (g : spaces) (d v e : Z) (h' : mmu) (g' : spaces) : Prop :=
  hinv bd h' g' /\ pages g' = <[(d, v) := e]> (pages g) /\ lrefs g' = lrefs g /\ kern g' = kern g /\
  own g' !! i686_get_frame e = Some RData /\
  (forall f, f <> i686_get_frame e -> own g' !! f = own g !! f \/ own g !! f = None /\ own g' !! f = Some RTable) /\
  (forall f r, own g !! f = Some r -> r = RData \/ r = RLimbo -> same_frame (pmem (pm h)) (pmem (pm h')) f).

Lemma map_ok h g space d virt f flags : hinv bd h g -> get_page_directory h space = d -> own g !! d = Some RDir ->
  0 <= virt < 2 ^ 31 -> virt mod PAGE_SIZE = 0 -> pages g !! (d, virt / PAGE_SIZE) = None ->
  own g !! f = Some RLimbo -> (forall i, tables g !! (f, i) = None) -> protections (pm h) f = 0 ->
  let fl := hal_flags_to_i686 flags in
  flag fl PAGE_PRESENT = true -> flag fl PAGE_USER = true ->
  exists r h', hal_mmu_map h space virt f flags = Some (r, h') /\ cr3 h' = cr3 h /\ tlb h' = tlb h /\
    protected_frames (pm h') = protected_frames (pm h) /\
    if r then exists g', mapped h g d (virt / PAGE_SIZE) (Z.lor f fl) h' g'
    else hinv bd h' g /\ pmem (pm h') = pmem (pm h) /\ tables g !! (d, virt / PAGE_SIZE / 1024) = None /\ no_free_frame (pm h).
Proof.
  intros Hh Hs Hd Hv Hva Hp Hf Hnt Hpr fl Hpre Hus. pose proof Hh as [Ha Hl Hr Hb]. pose proof (ly_frames _ _ _ Hl _ _ Hf) as Hff. pose proof Hff as [Hfa Hfr].
  destruct (entry_made f fl Hfa ltac:(lia) (hal_flags_range flags)) as (E1 & E2 & E3). set (v := virt / PAGE_SIZE) in *.
  pose proof (virt_page virt Hv) as Hvp. fold v in Hvp. destruct (user_page v Hvp) as [Hi Hj]. unfold hal_mmu_map. fold fl. rewrite !(u32_small f), (u32_small virt), aligned_lor by (done || lia).
  destruct (virt_indices virt ltac:(lia)) as [I1 I2]. rewrite (u32_small virt) in I1, I2 by lia. rewrite I1, I2, Hs. fold v.
  destruct (map_table_ok h g d (v / 1024) fl Hh Hd Hi Hus) as ([t|] & h1 & E & Hc); rewrite E; cbn -[PAGE_SIZE]; eexists _, _; (split; [done|]).
  - destruct Hc as (g1 & T1 & T2 & T3 & T4 & T5 & T6 & T7 & T8). split_and!; try done. exists (adopt g1 (d, v) (Z.lor f fl)).
    assert (Hpg : pages g1 = pages g /\ lrefs g1 = lrefs g /\ kern g1 = kern g) by (destruct T4 as [->|(_ & _ & _ & ->)]; done).
    destruct Hpg as (G1 & G2 & G3). assert (Ho1 : own g1 !! f = Some RLimbo /\ forall i, tables g1 !! (f, i) = None).
    { destruct T4 as [->|(Ht & _ & _ & ->)]; [done|]. cbn. rewrite !lookup_insert_ne by congruence. split; [done|].
      intros i. rewrite lookup_insert_ne by congruence. done. }
    unfold mapped. rewrite E2. split_and!; try done.
    + apply hinv_adopt; rewrite ?E2; try done; [by rewrite G1|apply Ho1|apply Ho1|unfold protections in *; by rewrite T8|by rewrite flag_made by (done || lia || apply hal_flags_range)|by rewrite flag_made by (done || lia || apply hal_flags_range)].
    + cbn. by rewrite G1.
    + cbn. rewrite E2. apply lookup_insert_eq.
    + intros f' Hne. cbn. rewrite E2, lookup_insert_ne by congruence. destruct T4 as [->|(Ht & _ & _ & ->)]; [by left|].
      cbn. destruct (decide (f' = t)) as [->|]; [right; by rewrite lookup_insert_eq|left; by rewrite !lookup_insert_ne].
    + intros f' r Hf' Hrr. eapply same_frame_trans; [eapply T5; [done|intros ->; destruct Hrr; congruence]|].
      destruct T1 as [_ Hl1 _ _]. pose proof (ly_table _ _ _ Hl1 _ _ _ T2) as (_ & Ht1 & _).
      apply put_word_other; [exact (ly_frames _ _ _ Hl1 _ _ Ht1)|exact (ly_frames _ _ _ Hl _ _ Hf')| |lia]. intros <-.
      destruct T4 as [->|(Ht & _ & _ & ->)]; [destruct Hrr; congruence|congruence].
  - destruct Hc as (C1 & C2 & C3 & C4 & C5 & C6 & C7). split_and!; done.
Qed.

(** ** Unmapping *)

Lemma unmap_ok h g space d virt : hinv bd h g -> lrefs g = ∅ -> get_page_directory h space = d -> own g !! d = Some RDir ->
  0 <= virt < 2 ^ 31 -> virt mod PAGE_SIZE = 0 ->
  match pages g !! (d, virt / PAGE_SIZE) with
  | Some e => exists h', hal_mmu_unmap h space virt = (i686_get_frame e, h') /\ hinv bd h' (hold g (d, virt / PAGE_SIZE) e) /\
      cr3 h' = cr3 h /\ tlb h' = tlb h /\ protected_frames (pm h') = protected_frames (pm h) /\
      forall f r, own g !! f = Some r -> r <> RTable -> same_frame (pmem (pm h)) (pmem (pm h')) f
  | None => hal_mmu_unmap h space virt = (PADDR_INVALID, h)
  end.
Proof.
  intros Hh Hlr Hs Hd Hv Hva. pose proof Hh as [Ha Hl Hr Hb]. pose proof (walk_page h g space d virt Hl Hs Hd Hv) as Hw. unfold walks in Hw.
  unfold hal_mmu_unmap. rewrite u32_small by lia. pose proof (aligned_lor virt virt Hva Hva) as Hal. rewrite Z.lor_diag in Hal. rewrite Hal.
  set (v := virt / PAGE_SIZE) in *. destruct (pages g !! (d, v)) as [e|] eqn:Ep; [|by rewrite Hw].
  destruct Hw as (t & Ht & Hto & -> & He). rewrite He. eexists. split; [done|]. split; [by apply hinv_hold|]. split_and!; try done.
  intros f r Hf Hrr. destruct (ly_in _ _ _ Hl _ _ _ Ep) as [Hv' _]. destruct (user_page v Hv') as [_ Hj]. by eapply table_write.
Qed.

(** ** A private copy *)

Lemma page_start addr : 0 <= addr < 2 ^ 31 ->
  let a := clear_bits addr (PAGE_SIZE - 1) in 0 <= a < 2 ^ 31 /\ a mod PAGE_SIZE = 0 /\ a / PAGE_SIZE = addr / PAGE_SIZE.
Proof.
  intros Ha. cbn zeta. change (clear_bits addr (PAGE_SIZE - 1)) with (i686_get_frame addr). destruct (mask_split addr ltac:(lia)) as [-> _].
  pose proof (flags_range addr). unfold PAGE_SIZE in *. Z.to_euclidean_division_equations. lia.
Qed.

Lemma copied_bytes m m' f f' o : copied m m' (kva f) (kva f') PAGE_SIZE -> 0 <= o < PAGE_SIZE -> rd m' (kva f + o) = rd m (kva f' + o).
Proof.
  intros Hc Ho. rewrite Hc.
  rewrite (proj2 (Z.leb_le _ _)), (proj2 (Z.ltb_lt _ _)) by lia. cbn. f_equal. lia.
Qed.

Definition cow_copied (h : mmu) (g : spaces) (v e nf : Z) (h' : mmu) (g' : spaces) (e' : Z) : Prop :=
  hinv bd h' g' /\ lrefs g' = ∅ /\ kern g' = kern g /\ pages g' = <[(cr3 h, v) := e']> (pages g) /\
  own g' !! nf = Some RData /\ (forall f, f <> nf -> own g' !! f = own g !! f \/ own g !! f = None /\ own g' !! f = Some RTable) /\
  i686_get_frame e' = nf /\ flag e' PAGE_WRITE = true /\
  (forall o, 0 <= o < PAGE_SIZE -> rd (pmem (pm h')) (kva nf + o) = rd (pmem (pm h)) (kva (i686_get_frame e) + o)) /\
  (forall f, own g !! f = Some RData -> same_frame (pmem (pm h)) (pmem (pm h')) f) /\
  cr3 h' = cr3 h /\ tlb h' = delete v (tlb h) /\ protected_frames (pm h') = protected_frames (pm h).

Lemma copied_hal e : 0 <= e < 2 ^ 32 ->
  hal_flags_to_i686 (Z.lor (clear_bits (i686_flags_to_hal (Z.land e 0xFFF)) HAL_PAGE_COW) HAL_PAGE_WRITE) = copied_flags (e mod PAGE_SIZE).
Proof. intros He. by rewrite (proj2 (mask_split e He)). Qed.

(** The page is unmapped and the new frame mapped in its place. *)
Lemma swap_page h g addr e nf : hinv bd h g -> lrefs g = ∅ -> own g !! cr3 h = Some RDir -> 0 <= addr < 2 ^ 31 ->
  let k := (cr3 h, addr / PAGE_SIZE) in let page_addr := clear_bits addr (PAGE_SIZE - 1) in
  pages g !! k = Some e -> own g !! nf = Some RLimbo -> (forall i, tables g !! (nf, i) = None) -> protections (pm h) nf = 0 ->
  exists h2 h3 g3 e', hal_mmu_unmap h HAL_ADDR_SPACE_CURRENT page_addr = (i686_get_frame e, h2) /\
    hal_mmu_map h2 HAL_ADDR_SPACE_CURRENT page_addr nf
      (Z.lor (clear_bits (i686_flags_to_hal (Z.land e 0xFFF)) HAL_PAGE_COW) HAL_PAGE_WRITE) = Some (true, h3) /\
    hinv bd h3 g3 /\ pages g3 = <[k := e']> (pages g) /\ lrefs g3 = {[k := e]} /\ kern g3 = kern g /\ own g3 !! nf = Some RData /\
    (forall f, f <> nf -> own g3 !! f = own g !! f \/ own g !! f = None /\ own g3 !! f = Some RTable) /\
    i686_get_frame e' = nf /\ flag e' PAGE_WRITE = true /\
    (forall f r, own g !! f = Some r -> r = RData \/ r = RLimbo -> same_frame (pmem (pm h)) (pmem (pm h3)) f) /\
    cr3 h3 = cr3 h /\ tlb h3 = tlb h /\ protected_frames (pm h3) = protected_frames (pm h).
Proof.
  intros Hh Hlr Hd Ha k pa Hp Hnf Hnt Hpr. pose proof Hh as [Hac Hl Hr Hb]. pose proof (pages_range _ _ _ _ _ Hl Hp) as Her.
  pose proof (ly_frames _ _ _ Hl _ _ Hnf) as Hfn. destruct (page_start addr Ha) as (A1 & A2 & A3). fold pa in A1, A2, A3.
  pose proof (unmap_ok h g HAL_ADDR_SPACE_CURRENT (cr3 h) pa Hh Hlr eq_refl Hd A1 A2) as Hum. rewrite A3 in Hum. fold k in Hum. rewrite Hp in Hum.
  destruct Hum as (h2 & E2 & Hh2 & U1 & U2 & U3 & U4).
  destruct (copied_flags_ok e) as (K1 & K2 & _). destruct (pages_table _ _ _ _ _ _ Hl Hp) as (_ & t & Ht & _ & _ & Hpre). pose proof (rt_user _ Hr _ _ Hp) as Hus.
  pose proof (keeps_access_iff _ _ K1) as (Q1 & Q2 & _). rewrite <- flag_mod in Q1, Q2 by done.
  destruct (made_entry e nf _ Her Hfn Hpre Hus K1) as (_ & M2 & _ & _ & M5 & _).
  destruct (map_ok h2 (hold g k e) HAL_ADDR_SPACE_CURRENT (cr3 h) pa nf (Z.lor (clear_bits (i686_flags_to_hal (Z.land e 0xFFF)) HAL_PAGE_COW) HAL_PAGE_WRITE))
    as (r & h3 & Em & N1 & N2 & N3 & Hm); try done; [by cbn; rewrite A3, lookup_partial_alter_eq|unfold protections in *; by rewrite U3|by rewrite copied_hal, Q1|by rewrite copied_hal, Q2|].
  rewrite A3, copied_hal in Hm by done. fold k in Hm. destruct r; [|destruct Hm as (_ & _ & Hno & _); cbn in Hno; congruence].
  destruct Hm as (g3 & X1 & X2 & X3 & X4 & X5 & X6 & X7). rewrite M2 in *.
  exists h2, h3, g3, (Z.lor nf (copied_flags (e mod PAGE_SIZE))). split_and!; try done.
  - rewrite X2. cbn. change (partial_alter (fun _ => None) k (pages g)) with (delete k (pages g)). apply insert_delete_eq.
  - rewrite X3. cbn. by rewrite Hlr.
  - by rewrite M5.
  - intros f r Hf Hrr. eapply same_frame_trans; [eapply (U4 f); [done|by destruct Hrr as [->| ->]]|by eapply (X7 f)].
  - by rewrite N1.
  - by rewrite N2.
  - by rewrite N3.
Qed.

Lemma cow_copy_ok h g addr e nf : hinv bd h g -> lrefs g = ∅ -> own g !! cr3 h = Some RDir -> 0 <= addr < 2 ^ 31 ->
  let v := addr / PAGE_SIZE in
  pages g !! (cr3 h, v) = Some e -> 1 < uses g (i686_get_frame e) ->
  own g !! nf = Some RLimbo -> (forall i, tables g !! (nf, i) = None) -> protections (pm h) nf = 0 ->
  exists h' g' e', cow_copy h addr (i686_get_frame e) nf (i686_flags_to_hal (Z.land e 0xFFF)) = Some h' /\ cow_copied h g v e nf h' g' e'.
Proof.
  intros Hh Hlr Hd Ha v Hp Hu Hnf Hnt Hpr. pose proof Hh as [Hac Hl Hr Hb].
  pose proof (ac_refs _ _ Hac _ _ (or_introl Hp)) as Hof. pose proof (ly_frames _ _ _ Hl _ _ Hof) as Hff. pose proof (ly_frames _ _ _ Hl _ _ Hnf) as Hfn.
  assert (Hne : nf <> i686_get_frame e) by congruence. set (f := i686_get_frame e) in *. unfold cow_copy.
  pose proof (memcpy_copied (pmem (pm h)) (kva nf) (kva f) (Z.to_nat PAGE_SIZE)) as Hcp. rewrite Z2Nat.id in Hcp by done.
  set (m1 := memcpy (pmem (pm h)) (kva nf) (kva f) (Z.to_nat PAGE_SIZE)) in *. clearbody m1.
  assert (Hc : copied (pmem (pm h)) m1 (kva nf) (kva f) PAGE_SIZE).
  { apply Hcp. unfold fwd_safe. rewrite !kva_frame by done. destruct (frames_apart nf f Hfn Hff Hne); lia. }
  assert (Hs1 : forall f', is_frame f' -> f' <> nf -> same_frame (pmem (pm h)) m1 f').
  { intros f' Hf' Hn'. eapply copied_other; [exact Hfn|done|congruence|exact Hc]. }
  pose proof (hinv_limbo_mem h g nf m1 Hh Hnf Hs1) as Hh1. set (h1 := set_pm h (set_pmem (pm h) m1)) in *.
  destruct (swap_page h1 g addr e nf Hh1 Hlr Hd Ha Hp Hnf Hnt Hpr) as (h2 & h3 & g3 & e' & -> & Em & X1 & X2 & X3 & X4 & X5 & X6 & M2 & M5 & X7 & N1 & N2 & N3).
  change (cr3 h1) with (cr3 h) in *. fold v in X2, X3. rewrite Em. cbn [mbind option_bind]. pose proof X1 as [Hac3 Hl3 Hr3 Hb3].
  assert (Hu3 : 1 < uses g3 f).
  { assert (Eu : uses g3 f = uses g f); [|lia]. unfold uses. rewrite X2, X3, Hlr, <- insert_empty, <- (insert_delete_eq (pages g)), !uses_insert by (done || apply lookup_delete_eq).
    rewrite (uses_delete _ _ e), M2, uses_empty by done. fold f. rewrite (proj2 (Z.eqb_neq nf f)), Z.eqb_refl by done. lia. }
  destruct (unshare_ref (pm h3) g3 (cr3 h, v) e Hac3) as (rr & p4 & Ed & Hac4 & Ep4 & Em4); [rewrite X3; apply lookup_insert_eq|done|].
  fold f in Ed. change (pm (hal_mmu_flush_tlb h3 addr)) with (pm h3). rewrite Ed. cbn [mbind option_bind].
  eexists _, (with_lrefs g3 (delete (cr3 h, v) (lrefs g3))), e'. split; [done|]. unfold cow_copied. split_and!; cbn [own pages lrefs kern with_lrefs]; try done.
  - split; cbn; [done|rewrite Em4; by apply lrefs_layout|by apply (rights_sub g3)|done].
  - rewrite X3. apply delete_singleton_eq.
  - intros o Ho. cbn. fold f. rewrite Em4, <- (copied_bytes _ _ _ _ o Hc Ho). apply (X7 nf RLimbo); auto.
  - intros f' Hf'. cbn. rewrite Em4. eapply same_frame_trans; [apply Hs1; [exact (ly_frames _ _ _ Hl _ _ Hf')|congruence]|]. apply (X7 f' RData); auto.
  - cbn. rewrite N2, shiftr_page. done.
  - cbn. by rewrite Ep4, N3.
Qed.

(** ** The fault handler *)

#[local] Opaque cow_copy cow_restore hal_mmu_query pmm_alloc_frame pmm_frame_get_refcount.

(** The state after an operation that keeps what programs see. *)
Definition continues (s : vmm) (A : aspaces) (s' : vmm) (g' : spaces) : Prop :=
  vinv bd s' g' /\ shows (pmem (pm (hw s'))) g' A /\ cr3 (hw s') = cr3 (hw s) /\
  protected_frames (pm (hw s')) = protected_frames (pm (hw s)) /\ active_page_directories s' = active_page_directories s.

Lemma cow_restore_step s g A addr e : vinv bd s g -> shows (pmem (pm (hw s))) g A -> own g !! cr3 (hw s) = Some RDir -> 0 <= addr < 2 ^ 31 ->
  pages g !! (cr3 (hw s), addr / PAGE_SIZE) = Some e -> flag e PAGE_COW = true -> uses g (i686_get_frame e) = 1 ->
  exists g' e', continues s A (set_hw s (cow_restore (hw s) addr)) g' /\ pages g' !! (cr3 (hw s), addr / PAGE_SIZE) = Some e' /\ flag e' PAGE_WRITE = true.
Proof.
  intros Hv Hs Hd Ha Hp Hc Hu. destruct (cow_restore_ok (hw s) g addr e (vi_h _ _ _ Hv) Hd Ha Hp Hu) as (t & e' & -> & Ht & Hh' & Hf & Hw).
  set (v := addr / PAGE_SIZE) in *. exists (set_page g (cr3 (hw s), v) (Some e')), e'.
  split; [|split; [by rewrite set_page_lookup, decide_True|done]]. split_and!; try done.
  - apply (vinv_hw s g); try done; try apply Hv.
    + destruct Hh' as [H1 H2 H3 H4]. by split.
    + eapply (tlb_flush (hw s) g _ _ v); try done; [apply Hv|by cbn; rewrite shiftr_page|]. intros v' Hne. by rewrite set_page_lookup, decide_False by congruence.
  - apply (shows_reflag (hw s) g _ _ _ e); try done; [apply Hv|]. unfold may_write. by rewrite Hw, Hc, orb_true_r.
Qed.

Lemma cow_copy_step s g A addr e nf p1 : vinv bd s g -> shows (pmem (pm (hw s))) g A -> own g !! cr3 (hw s) = Some RDir -> 0 <= addr < 2 ^ 31 ->
  pages g !! (cr3 (hw s), addr / PAGE_SIZE) = Some e -> flag e PAGE_COW = true -> 1 < uses g (i686_get_frame e) ->
  fresh (hw s) g nf p1 -> protected_frames p1 = protected_frames (pm (hw s)) ->
  exists h' g' e', cow_copy (set_pm (hw s) p1) addr (i686_get_frame e) nf (i686_flags_to_hal (Z.land e 0xFFF)) = Some h' /\
    continues s A (set_hw s h') g' /\ pages g' !! (cr3 (hw s), addr / PAGE_SIZE) = Some e' /\ flag e' PAGE_WRITE = true.
Proof.
  intros Hv Hs Hd Ha Hp Hc Hu Hfr Hpf. pose proof Hfr as (F1 & F2 & F3 & Fb & F4 & F5 & F6 & F7 & F8 & F9).
  set (h1 := set_pm (hw s) p1) in *. set (g1 := add_own g nf RLimbo) in *. pose proof (fresh_shows _ _ _ _ _ (vi_h _ _ _ Hv) Hfr Hs) as Hs1.
  assert (Hd1 : own g1 !! cr3 (hw s) = Some RDir) by (cbn; rewrite lookup_insert_ne; [done|congruence]).
  destruct (cow_copy_ok h1 g1 addr e nf F7 (vi_lrefs _ _ _ Hv) Hd1 Ha Hp Hu) as (h' & g' & e' & E & C1 & C2 & C3 & C4 & C5 & C6 & C7 & C8 & C9 & C10 & C11 & C12 & C13);
    [by cbn; rewrite lookup_insert_eq|done|done|].
  change (cr3 h1) with (cr3 (hw s)) in *. set (v := addr / PAGE_SIZE) in *. exists h', g', e'. split; [exact E|]. clear E.
  assert (Hp' : pages g' !! (cr3 (hw s), v) = Some e') by (rewrite C4; apply lookup_insert_eq). split; [|done].
  assert (Ho : forall f r, r <> RTable -> r <> RData -> own g' !! f = Some r <-> own g1 !! f = Some r /\ f <> nf).
  { intros f r Hr1 Hr2. destruct (decide (f = nf)) as [->|Hne]; [rewrite C5; split; [congruence|by intros [_ ?]]|].
    destruct (C6 f Hne) as [->|[-> ->]]; [tauto|split; [congruence|by intros [? _]]]. }
  assert (Hdir : forall d, own g' !! d = Some RDir <-> own g !! d = Some RDir).
  { intros d. rewrite Ho by done. cbn. destruct (decide (d = nf)) as [->|]; [rewrite F4; split; [by intros []|done]|rewrite lookup_insert_ne by done; tauto]. }
  split_and!; try done.
  - apply (vinv_hw s g); try done; [|eapply (tlb_flush (hw s) g _ _ v); try done; [apply Hv|]|cbn; by rewrite C13].
    + intros f Hf. apply Ho in Hf as [Hf Hne]; [|done|done]. cbn in Hf. rewrite lookup_insert_ne in Hf by done. by apply (vi_limbo _ _ _ Hv f).
    + intros v' Hne. rewrite C4. by rewrite lookup_insert_ne by congruence.
  - apply (shows_ext (pmem p1) _ g1); [done|intros d; rewrite Hdir; cbn; destruct (decide (d = nf)) as [->|]; [by rewrite lookup_insert_eq, F4|by rewrite lookup_insert_ne]|].
    intros d v' _. rewrite C4. destruct (decide ((d, v') = (cr3 (hw s), v))) as [Ek|Hne].
    + rewrite Ek, lookup_insert_eq. change (pages g1) with (pages g). rewrite Hp. cbn. f_equal. unfold apage_of. rewrite C7.
      f_equal; [by apply page_bytes_eq|]. unfold may_write. by rewrite C8, Hc, orb_true_r.
    + rewrite lookup_insert_ne by done. destruct (pages g1 !! (d, v')) as [e1|] eqn:E1; [|done]. cbn. f_equal. apply apage_same; [done|done|].
      apply C10. destruct F7 as [Ha1 _ _ _]. by apply (ac_refs _ _ Ha1 (d, v')); left.
  - cbn. by rewrite C13.
Qed.

Lemma cow_fault_ok s g A addr code : vinv bd s g -> shows (pmem (pm (hw s))) g A -> own g !! cr3 (hw s) = Some RDir -> 0 <= addr < 2 ^ 31 ->
  exists r s' g', vmm_handle_cow_page_fault s addr code = Some (r, s') /\ continues s A s' g' /\
    match pages g !! (cr3 (hw s), addr / PAGE_SIZE) with
    | Some e =>
        if (Z.land code 3 =? 3) && flag e PAGE_COW
        then if r then exists e', pages g' !! (cr3 (hw s), addr / PAGE_SIZE) = Some e' /\ flag e' PAGE_WRITE = true
             else no_free_frame (pm (hw s)) /\ g' = g
        else r = false /\ g' = g
    | None => r = false /\ g' = g
    end.
Proof.
  intros Hv Hs Hd Ha. pose proof (vi_h _ _ _ Hv) as Hh. pose proof Hh as [Hac Hl Hr Hb]. unfold vmm_handle_cow_page_fault.
  assert (Hsame : continues s A s g) by (by split_and!). destruct (Z.land code 3 =? 3); cbn [negb andb];
    [|exists false, s, g; destruct (pages g !! _); auto].
  pose proof (query_page (hw s) g HAL_ADDR_SPACE_CURRENT (cr3 (hw s)) addr Hl eq_refl Hd Ha) as Hq.
  set (v := addr / PAGE_SIZE) in *. destruct (pages g !! (cr3 (hw s), v)) as [e|] eqn:Hp; cbn in Hq.
  2: { exists false, s, g. split; [|done]. rewrite <- (set_hw_same s) at 2. apply locked_hw; [apply Hv|]. cbn. by rewrite Hq. }
  pose proof (pages_range _ _ _ _ _ Hl Hp) as Her. pose proof (ac_refs _ _ Hac _ _ (or_introl Hp)) as Hof. destruct (flag e PAGE_COW) eqn:Hc.
  2: { exists false, s, g. split; [|done]. rewrite <- (set_hw_same s) at 2. apply locked_hw; [apply Hv|]. cbn -[flag]. rewrite Hq. cbn -[flag]. by rewrite cow_flag, Hc. }
  destruct (own_frame _ _ _ _ Hac Hof) as [[_ Hfr] Hf0]. destruct (ac_own _ _ Hac _ _ Hof) as (_ & Hrc & _). rewrite decide_True in Hrc by done.
  pose proof (ac_used _ _ Hac _ Hof) as Hup.
  assert (Hstart : (i686_get_frame e =? PADDR_INVALID) || (i686_get_frame e =? 0) = false).
  { rewrite (proj2 (Z.eqb_neq _ _)), (proj2 (Z.eqb_neq _ _)) by (unfold PADDR_INVALID; lia). done. }
  destruct (decide (uses g (i686_get_frame e) = 1)) as [Hu|Hu].
  - destruct (cow_restore_step s g A addr e Hv Hs Hd Ha Hp Hc Hu) as (g' & e' & Hcont & Hp' & Hw).
    exists true, (set_hw s (cow_restore (hw s) addr)), g'. split; [|split; [done|by exists e']]. apply locked_hw; [apply Hv|].
    cbn -[flag]. rewrite Hq. cbn -[flag PADDR_INVALID]. rewrite cow_flag, Hc, Hstart by done. cbn -[cow_restore].
    rewrite (get_refcount_own _ _ _ _ Hac Hof). cbn -[cow_restore]. rewrite Hrc, Hu. cbn -[cow_restore]. by destruct s as [[? ? ?] ? ? ? ? ?].
  - destruct (hinv_alloc (hw s) g Hh) as (nf & p1 & Ea & Epf & Hcase).
    assert (Hrun : forall r h', (if nf =? PADDR_INVALID then Some (false, set_pm (hw s) p1)
        else h ← cow_copy (set_pm (hw s) p1) addr (i686_get_frame e) nf (i686_flags_to_hal (Z.land e 0xFFF)); Some (true, h)) = Some (r, h') ->
      vmm_handle_cow_page_fault s addr 3 = Some (r, set_hw s h')).
    { intros r h' E. apply locked_hw; [apply Hv|]. cbn -[flag]. rewrite Hq. cbn -[flag PADDR_INVALID]. rewrite cow_flag, Hc, Hstart by done. cbn -[cow_copy].
      rewrite (get_refcount_own _ _ _ _ Hac Hof). cbn -[cow_copy]. rewrite Hrc.
      rewrite (proj2 (Z.eqb_neq (uses _ _) 0)), (proj2 (Z.eqb_neq (uses _ _) 1)) by lia. cbn -[cow_copy PADDR_INVALID]. rewrite Ea. cbn -[cow_copy PADDR_INVALID].
      change (set_pm (set_pm (hw s) (pm (hw s))) p1) with (set_pm (hw s) p1). destruct (nf =? PADDR_INVALID); [by injection E as <- <-|].
      destruct (cow_copy _ _ _ _ _) as [h2|]; [|done]. cbn in E. by injection E as <- <-. }
    change (vmm_locked s _) with (vmm_handle_cow_page_fault s addr 3). destruct Hcase as [(Enf & Hno & Hh' & Em)|Hfr'].
    + exists false, (set_hw s (set_pm (hw s) p1)), g. split; [apply Hrun; by rewrite Enf|]. split; [|done]. split_and!; try done; [|by cbn; rewrite Em].
      apply (vinv_hw s g); try done; apply Hv.
    + destruct (cow_copy_step s g A addr e nf p1 Hv Hs Hd Ha Hp Hc ltac:(lia) Hfr' Epf) as (h' & g' & e' & E & Hcont & Hp' & Hw).
      exists true, (set_hw s h'), g'. split; [|split; [done|by exists e']]. apply Hrun. pose proof Hfr' as (F1 & _).
      rewrite (proj2 (Z.eqb_neq _ _)), E by done. done.
Qed.

(** ** Loads and stores of a program *)

Lemma kernel_fault_user s B a : a < 2 ^ 31 -> vmm_handle_kernel_page_fault B s a = (false, s).
Proof. intros Ha. unfold vmm_handle_kernel_page_fault. by rewrite (proj2 (Z.ltb_lt _ _)). Qed.

Lemma offset_range a : 0 <= a mod PAGE_SIZE < PAGE_SIZE.
Proof. by apply Z.mod_pos_bound. Qed.

Lemma page_bytes_wr m f o c : 0 <= o < PAGE_SIZE -> 0 <= c < 256 ->
  page_bytes (wr m (kva f + o) c) f = <[Z.to_nat o := c]> (page_bytes m f).
Proof.
  intros Ho Hc. apply list_eq. intros i. destruct (decide (Z.of_nat i < PAGE_SIZE)) as [Hi|Hi].
  - rewrite <- (Nat2Z.id i) at 1. rewrite page_bytes_at by lia. rewrite rd_wr. case_if.
    + assert (i = Z.to_nat o) as -> by lia. rewrite list_lookup_insert_eq by (rewrite page_bytes_length; lia). unfold u8. by rewrite Z.mod_small.
    + rewrite list_lookup_insert_ne by lia. rewrite <- (Nat2Z.id i) at 2. by rewrite page_bytes_at by lia.
  - rewrite !lookup_ge_None_2; [done|rewrite length_insert|]; rewrite page_bytes_length; unfold PAGE_SIZE in *; lia.
Qed.

Lemma user_load_ok s g A a F : vinv bd s g -> shows (pmem (pm (hw s))) g A -> A !! cr3 (hw s) = Some F -> 0 <= a < 2 ^ 31 ->
  user_load s a = p ← F !! (a / PAGE_SIZE); ap_bytes p !! Z.to_nat (a mod PAGE_SIZE).
Proof.
  intros Hv Hs HF Ha. destruct (shows_some _ _ _ _ _ Hs HF) as [Hd HFv]. pose proof (vi_h _ _ _ Hv) as Hh. unfold user_load.
  rewrite (cpu_entry_page _ g) by (done || apply Hv || by apply virt_page). rewrite HFv.
  destruct (pages g !! _) as [e|] eqn:Hp; [|done]. cbn -[PAGE_SIZE]. destruct Hh as [_ _ Hr _]. rewrite (rt_user _ Hr _ _ Hp).
  by rewrite page_bytes_at by apply offset_range.
Qed.

Lemma store_try_ok s g A a c e : vinv bd s g -> shows (pmem (pm (hw s))) g A -> own g !! cr3 (hw s) = Some RDir -> 0 <= a < 2 ^ 31 -> 0 <= c < 256 ->
  pages g !! (cr3 (hw s), a / PAGE_SIZE) = Some e -> flag e PAGE_WRITE = true ->
  exists s' A', store_try s a c = Some s' /\ stored A (cr3 (hw s)) a c A' /\ continues s A' s' g.
Proof.
  intros Hv Hs Hd Ha Hc Hp Hw. pose proof (vi_h _ _ _ Hv) as Hh. pose proof Hh as [Hac Hl Hr Hb]. pose proof (virt_page a Ha) as Hvp.
  destruct (shows_dir _ _ _ _ Hs Hd) as (F & HF & HFv). unfold store_try. rewrite (cpu_entry_page _ g) by (done || apply Hv). rewrite Hp.
  cbn -[PAGE_SIZE]. rewrite (rt_user _ Hr _ _ Hp), Hw. cbn [andb]. set (v := a / PAGE_SIZE) in *. set (f := i686_get_frame e).
  pose proof (ac_refs _ _ Hac _ _ (or_introl Hp)) as Hof. fold f in Hof. pose proof (ly_frames _ _ _ Hl _ _ Hof) as Hff.
  eexists _, _. split; [done|]. split.
  { exists F, (apage_of (pmem (pm (hw s))) e). fold v. rewrite HFv, Hp. split_and!; try done. unfold apage_of, may_write. cbn. by rewrite Hw. }
  assert (Hoth : forall f', is_frame f' -> f' <> f -> same_frame (pmem (pm (hw s))) (wr (pmem (pm (hw s))) (kva f + a mod PAGE_SIZE) c) f').
  { intros f' Hf' Hne. apply wr_other; [done|done|congruence|apply offset_range]. }
  assert (Hmw : may_write e = true) by (unfold may_write; by rewrite Hw).
  split_and!; try done.
  - apply (vinv_hw s g); try done; try apply Hv. split; [by apply acct_pmem| |done|done].
    apply (layout_other bd (pmem (pm (hw s))) _ _ f); try done; try congruence. intros E. rewrite E in Hof. destruct (ly_bd _ _ _ Hl). congruence.
  - intros d. destruct (decide (d = cr3 (hw s))) as [->|Hne].
    + rewrite lookup_insert_eq. split; [done|]. intros v'. destruct (decide (v' = v)) as [->|Hne].
      * rewrite lookup_insert_eq, Hp. cbn -[PAGE_SIZE]. unfold apage_of. fold f. rewrite page_bytes_wr by (done || apply offset_range). by rewrite Hmw.
      * rewrite lookup_insert_ne, HFv by done. destruct (pages g !! (_, v')) as [e1|] eqn:E1; [|done]. cbn. f_equal. symmetry. apply apage_same; [done|done|].
        apply Hoth; [eapply ly_frames; [done|by apply (ac_refs _ _ Hac (cr3 (hw s), v')); left]|]. intros Ef.
        pose proof (rt_alone _ Hr _ _ _ _ Hp Hw E1 Ef). congruence.
    + rewrite lookup_insert_ne by done. specialize (Hs d). destruct (A !! d) as [F'|]; [|done]. destruct Hs as [Hd' Hv']. split; [done|].
      intros v'. rewrite Hv'. destruct (pages g !! (d, v')) as [e1|] eqn:E1; [|done]. cbn. f_equal. symmetry. apply apage_same; [done|done|].
      apply Hoth; [eapply ly_frames; [done|by apply (ac_refs _ _ Hac (d, v')); left]|]. intros Ef.
      pose proof (rt_alone _ Hr _ _ _ _ Hp Hw E1 Ef). congruence.
Qed.

Lemma store_try_fault s g a c : vinv bd s g -> own g !! cr3 (hw s) = Some RDir -> 0 <= a < 2 ^ 31 ->
  (forall e, pages g !! (cr3 (hw s), a / PAGE_SIZE) = Some e -> flag e PAGE_WRITE = false) -> store_try s a c = None.
Proof.
  intros Hv Hd Ha Hw. unfold store_try. rewrite (cpu_entry_page _ g) by (done || apply Hv || by apply virt_page).
  destruct (pages g !! _) as [e|]; [|done]. cbn -[PAGE_SIZE]. rewrite (Hw e) by done. by rewrite andb_false_r.
Qed.

Lemma user_store_ok s g A B a c : vinv bd s g -> shows (pmem (pm (hw s))) g A -> own g !! cr3 (hw s) = Some RDir -> 0 <= a < 2 ^ 31 -> 0 <= c < 256 ->
  exists r s' g' A', user_store s B a c = Some (r, s') /\ continues s A' s' g' /\
    if r then stored A (cr3 (hw s)) a c A' else A' = A /\ (unwritable A (cr3 (hw s)) a \/ no_free_frame (pm (hw s))).
Proof.
  intros Hv Hs Hd Ha Hc. pose proof (vi_h _ _ _ Hv) as Hh. pose proof Hh as [Hac Hl Hr Hb]. unfold user_store, page_fault_handler.
  rewrite (cpu_entry_page _ g) by (done || apply Hv || by apply virt_page). set (k := (cr3 (hw s), a / PAGE_SIZE)).
  assert (Hunw : (forall e, pages g !! k = Some e -> may_write e = false) -> unwritable A (cr3 (hw s)) a).
  { intros Hmw F p HF Hpg. destruct (shows_some _ _ _ _ _ Hs HF) as [_ HFv]. rewrite HFv in Hpg. fold k in Hpg.
    destruct (pages g !! k) as [e|]; [|done]. injection Hpg as <-. by apply Hmw. }
  destruct (pages g !! k) as [e|] eqn:Hp; [destruct (flag e PAGE_WRITE) eqn:Hw|].
  - destruct (store_try_ok s g A a c e Hv Hs Hd Ha Hc Hp Hw) as (s' & A' & -> & Hst & Hcont). by exists true, s', g, A'.
  - rewrite (store_try_fault s g) by (done || by intros e1 E1; fold k in E1; congruence). rewrite kernel_fault_user by lia.
    destruct (cow_fault_ok s g A a 7 Hv Hs Hd Ha) as (r & s1 & g1 & -> & Hcont & Hcase). fold k in Hcase. rewrite Hp in Hcase. cbn -[flag] in Hcase |- *.
    destruct (flag e PAGE_COW) eqn:Hcw; [destruct r|].
    + destruct Hcase as (e' & Hp' & Hw'). destruct Hcont as (V1 & V2 & V3 & V4 & V5). unfold k in Hp'. rewrite <- V3 in Hp'.
      assert (Hd1 : own g1 !! cr3 (hw s1) = Some RDir) by (destruct (pages_table _ _ _ _ _ _ (hi_lay _ _ _ (vi_h _ _ _ V1)) Hp') as (_ & t & Ht & _);
        destruct (ly_table _ _ _ (hi_lay _ _ _ (vi_h _ _ _ V1)) _ _ _ Ht) as ([E|E] & _); [done|by destruct (vi_limbo _ _ _ V1 (cr3 (hw s1)))]).
      destruct (store_try_ok s1 g1 A a c e' V1 V2 Hd1 Ha Hc Hp' Hw') as (s2 & A' & -> & Hst & W1 & W2 & W3 & W4 & W5).
      rewrite V3 in Hst. exists true, s2, g1, A'. split; [done|]. split; [|done]. split_and!; try done; [by rewrite W3|by rewrite W4|by rewrite W5].
    + destruct Hcase as [Hno ->]. exists false, s1, g, A. auto.
    + destruct Hcase as [-> ->]. exists false, s1, g, A. split_and!; try done. left. apply Hunw. intros e1 E1. injection E1 as <-.
      unfold may_write. by rewrite Hw, Hcw.
  - rewrite (store_try_fault s g) by (done || by intros e1 E1; fold k in E1; congruence). rewrite kernel_fault_user by lia.
    destruct (cow_fault_ok s g A a 6 Hv Hs Hd Ha) as (r & s1 & g1 & -> & Hcont & Hcase). fold k in Hcase. rewrite Hp in Hcase.
    destruct Hcase as [-> ->]. exists false, s1, g, A. split_and!; try done. left. by apply Hunw.
Qed.

End ops.
