(* ===== verification/SpaceMap.v ===== *)
(** * Pages that system calls map and unmap

    [new_page] and [drop_page] of MmCalls against the invariant. *)

From S2P Require Import Prelude Spinlock Mem Pmm PmmFacts PmmProps PmmSteps Task Paging Vmm MmCalls FrameMem Spaces Layout UserSpace.
From S2P Require Import SpaceOps.

(** [fill] leaves the bytes [l] in a page of zeros. *)
Definition fills (fill : mem -> Z -> mem) (l : list Z) : Prop :=
  forall m f, is_frame f -> (forall o, 0 <= o < PAGE_SIZE -> rd m (kva f + o) = 0) ->
    page_bytes (fill m (kva f)) f = l /\ forall f', is_frame f' -> f' <> f -> same_frame m (fill m (kva f)) f'.

(** The flags of user pages. *)
Definition page_flags (w : bool) : Z := set_if w PAGE_WRITE (Z.lor PAGE_PRESENT PAGE_USER).

Section map.
Variable bd : Z.

Lemma space_dir s g d : vinv bd s g -> own g !! d = Some RDir -> get_page_directory (hw s) (space_of s d) = d.
Proof.
  intros Hv Hd. destruct (own_frame _ _ _ _ (hi_acct _ _ _ (vi_h _ _ _ Hv)) Hd) as [_ H0]. unfold space_of. rewrite <- (vi_current _ _ _ Hv).
  destruct (dir_space (hw s) d) as [E|E]; [done|lia].
Qed.

(** The cache after a change of page [v] of directory [d]. *)
Lemma tlb_change s g d v h' g' : vinv bd s g -> cr3 h' = cr3 (hw s) ->
  tlb h' = (if d =? current_dir_phys s then delete v (tlb (hw s)) else tlb (hw s)) ->
  (forall f, own g' !! f = Some RDir <-> own g !! f = Some RDir) ->
  (forall k, k <> (d, v) -> pages g' !! k = pages g !! k) -> tlb_ok h' g'.
Proof.
  intros Hv Hc Ht Ho Hp. pose proof (vi_tlb _ _ _ Hv) as Hok. rewrite <- (vi_current _ _ _ Hv) in Ht. destruct (Z.eqb_spec d (cr3 (hw s))) as [->|Hne].
  - apply (tlb_flush (hw s) g h' g' v Hok Hc Ht); [apply Ho|]. intros v' Hn. apply Hp. congruence.
  - intros v' e Hv' Hr. rewrite Hc. rewrite Ht in Hv'. intros Hd. rewrite Hp by congruence. apply Hok; [done|done|by apply Ho].
Qed.

(** The view after a change of one page. *)
Lemma shows_set m m' g g' A d F v : shows m g A -> A !! d = Some F -> (forall f, own g' !! f = Some RDir <-> own g !! f = Some RDir) ->
  (forall k, k <> (d, v) -> pages g' !! k = pages g !! k) ->
  (forall k e1, pages g !! k = Some e1 -> same_frame m m' (i686_get_frame e1)) ->
  shows m' g' (<[d := partial_alter (fun _ => apage_of m' <$> pages g' !! (d, v)) v F]> A).
Proof.
  intros Hs HF Ho Hp Hsame d'. destruct (shows_some _ _ _ _ _ Hs HF) as [Hd HFv].
  assert (Hold : forall d1 v1, (d1, v1) <> (d, v) -> apage_of m' <$> pages g' !! (d1, v1) = apage_of m <$> pages g !! (d1, v1)).
  { intros d1 v1 Hne. rewrite Hp by done. destruct (pages g !! (d1, v1)) as [e1|] eqn:E; [|done]. cbn. f_equal.
    apply apage_same; [done|done|by eapply Hsame]. }
  destruct (decide (d' = d)) as [->|Hne].
  - rewrite lookup_insert_eq. split; [by apply Ho|]. intros v'. destruct (decide (v' = v)) as [->|Hne]; [by rewrite lookup_partial_alter_eq|].
    by rewrite lookup_partial_alter_ne, HFv, Hold by congruence.
  - rewrite lookup_insert_ne by done. specialize (Hs d'). destruct (A !! d') as [F'|]; [|by rewrite Ho]. destruct Hs as [Hd' HF'].
    split; [by apply Ho|]. intros v'. by rewrite HF', Hold by congruence.
Qed.

Lemma page_start_of v : 0 <= v < 2 ^ 19 -> 0 <= v * PAGE_SIZE < 2 ^ 31 /\ (v * PAGE_SIZE) mod PAGE_SIZE = 0 /\ v * PAGE_SIZE / PAGE_SIZE = v.
Proof. intros Hv. unfold PAGE_SIZE. rewrite Z.mod_mul, Z.div_mul by lia. lia. Qed.

(** ** Mapping under the lock *)

Lemma map_in_directory s d v f flags r h' : lock_free (vmm_lock s) -> 0 <= v < 2 ^ 19 -> is_frame f ->
  hal_mmu_map (hw s) (space_of s d) (v * PAGE_SIZE) f (vmm_flags_to_hal flags) = Some (r, h') ->
  vmm_map_page_in_directory s d (v * PAGE_SIZE) f flags =
    Some (r, set_hw s (if r && (d =? current_dir_phys s) then hal_mmu_flush_tlb h' (v * PAGE_SIZE) else h')).
Proof.
  intros Hl Hv [Hfa _] E. destruct (page_start_of v Hv) as (P1 & P2 & P3). unfold vmm_map_page_in_directory. rewrite aligned_lor by done.
  apply locked_hw; [done|]. change (space_of (set_vmm_lock s _) d) with (space_of s d). cbn [hw set_vmm_lock]. rewrite E. done.
Qed.

(** A mapping takes at most a frame for a table. *)
Lemma map_free h g space virt f flags r h' : acct (pm h) g -> hal_mmu_map h space virt f flags = Some (r, h') -> frees (pm h) - 1 <= frees (pm h').
Proof.
  intros Ha. unfold hal_mmu_map. case_if; [intros [= <- <-]; lia|]. set (d := get_page_directory _ _). set (i := i686_pde_index _). set (fl := hal_flags_to_i686 _).
  assert (Ht : forall o h1, map_table h d i fl = Some (o, h1) -> frees (pm h) - 1 <= frees (pm h1)).
  { intros o h1. unfold map_table. destruct (negb (i686_is_present _)).
    - destruct (pmm_alloc_frame I686 (pm h)) as [[t p]|] eqn:Ea; [rewrite opt_bind|done]. destruct (alloc_free _ _ _ _ Ha Ea) as [A1 A2]. destruct (alloc_acct _ _ Ha) as (t' & p' & Ea' & _ & Hc).
      rewrite Ea in Ea'. injection Ea' as <- <-. destruct (Z.eqb_spec t PADDR_INVALID) as [->|Hne].
      + intros [= <- <-]. specialize (A1 eq_refl). destruct Hc as [(_ & _ & Ha' & _)|(? & _)]; [|done]. cbn [pm set_pm].
        pose proof (nfree_range _ (inv_shape _ (ac_inv _ _ Ha'))). pose proof (inv_free _ (ac_inv _ _ Ha')). unfold frees in *. lia.
      + intros [= <- <-]. change (frees (pm h) - 1 <= frees p). rewrite A2 by done. lia.
    - intros [= <- <-]. case_if; [change (frees (pm h) - 1 <= frees (pm h))|]; lia. }
  destruct (map_table h d i fl) as [[[t|] h1]|]; [rewrite opt_bind|rewrite opt_bind|done]; intros [= <- <-]; exact (Ht _ _ eq_refl).
Qed.

(** ** A new page *)

Lemma page_flags_entry w : let fl := hal_flags_to_i686 (vmm_flags_to_hal (page_flags w)) in
  0 <= fl < PAGE_SIZE /\ flag fl PAGE_PRESENT = true /\ flag fl PAGE_USER = true /\ may_write fl = w.
Proof. by destruct w. Qed.

(** The frame of [new_page] before it is mapped: in limbo, with its contents. *)
Lemma filled_page h g f p' m fill l A : hinv bd h g -> shows (pmem (pm h)) g A -> fresh bd h g f p' -> fills fill l ->
  filled (pmem p') m (kva f) 0 PAGE_SIZE ->
  let h2 := set_pm h (set_pmem p' (fill m (kva f))) in
  hinv bd h2 (add_own g f RLimbo) /\ page_bytes (pmem (pm h2)) f = l /\ shows (pmem (pm h2)) (add_own g f RLimbo) A /\
  forall f', is_frame f' -> f' <> f -> same_frame (pmem (pm h)) (pmem (pm h2)) f'.
Proof.
  intros Hh Hs Hfr Hfl Hz h2. pose proof Hfr as (F1 & F2 & F3 & Fb & F4 & F5 & F6 & F7 & F8 & F9).
  assert (H0 : forall o, 0 <= o < PAGE_SIZE -> rd m (kva f + o) = 0).
  { intros o Ho. rewrite Hz. by rewrite (proj2 (Z.leb_le _ _)), (proj2 (Z.ltb_lt _ _)) by lia. }
  destruct (Hfl m f F2 H0) as [Hl Ho].
  assert (Hoth : forall f', is_frame f' -> f' <> f -> same_frame (pmem p') (fill m (kva f)) f').
  { intros f' Hf' Hne. eapply same_frame_trans; [eapply filled_frame; [exact F2|done|congruence|exact Hz]|by apply Ho]. }
  assert (Hh2 : hinv bd h2 (add_own g f RLimbo)).
  { apply (hinv_limbo_mem bd (set_pm h p') _ f (fill m (kva f)) F7); [by cbn; rewrite lookup_insert_eq|done]. }
  split_and!; try done.
  - apply (shows_other (pmem p')); [by apply (fresh_shows bd h)|]. intros k e Hk. destruct F7 as [Ha1 Hl1 _ _].
    pose proof (ac_refs _ _ Ha1 k e (or_introl Hk)) as Hd. apply Hoth; [exact (ly_frames _ _ _ Hl1 _ _ Hd)|]. intros E. rewrite E in Hd. cbn in Hd. by rewrite lookup_insert_eq in Hd.
  - intros f' Hf' Hne. eapply same_frame_trans; [by apply F9|by apply Hoth].
Qed.

Lemma undo_own g f r : own g !! f = None -> del_own (add_own g f r) f = g.
Proof. intros Hf. destruct g as [o t p l k]. unfold del_own, add_own, with_own. cbn in *. by rewrite delete_insert_id. Qed.

(** A frame that is given back before it was used. *)
Lemma give_back s g f p' h' A : vinv bd s g -> own g !! f = None -> (forall i, tables g !! (f, i) = None) -> hinv bd h' (add_own g f RLimbo) -> protections (pm h') f = 0 ->
  shows (pmem (pm h')) (add_own g f RLimbo) A -> cr3 h' = cr3 (hw s) -> tlb h' = tlb (hw s) -> protected_frames (pm h') = protected_frames (pm (hw s)) ->
  pmm_free_frame (pm h') f = Some p' -> continues bd s A (set_hw s (set_pm h' p')) g.
Proof.
  intros Hv Hf Hnt [Ha Hl Hr Hb] Hp Hs Hc Ht Hpf E.
  destruct (free_limbo (pm h') _ f Ha) as (p2 & E2 & Ha2 & Ep & Em); [by cbn; rewrite lookup_insert_eq|done|]. assert (p2 = p') as -> by congruence.
  rewrite undo_own in Ha2 by done. split_and!; try done; [| |cbn; by rewrite Ep].
  - apply (vinv_hw bd s g); try done; try apply Hv; [| |cbn; by rewrite Ep].
    + split; cbn; [done|rewrite Em|apply (rights_sub (add_own g f RLimbo)); [done|by intros k e]|apply Hb].
      rewrite <- (undo_own g f RLimbo) by done. apply del_layout; [done|right; right; cbn; apply lookup_insert_eq|done].
    + intros v e Hv' Hr' Hd. cbn in *. rewrite Hc in *. rewrite Ht in Hv'. by apply (vi_tlb _ _ _ Hv).
  - cbn. rewrite Em. apply (shows_ext (pmem (pm h')) _ (add_own g f RLimbo)); try done. intros d. cbn.
    destruct (decide (d = f)) as [->|]; [by rewrite lookup_insert_eq, Hf|by rewrite lookup_insert_ne].
Qed.

(** The state after the frame is mapped. *)
Lemma mapped_step s g h2 f d v F A w l h' g' : vinv bd s g -> own g !! f = None -> A !! d = Some F -> is_frame f ->
  let e := Z.lor f (hal_flags_to_i686 (vmm_flags_to_hal (page_flags w))) in
  hinv bd h2 (add_own g f RLimbo) -> shows (pmem (pm h2)) (add_own g f RLimbo) A -> page_bytes (pmem (pm h2)) f = l ->
  mapped bd h2 (add_own g f RLimbo) d v e h' g' -> cr3 h' = cr3 (hw s) -> tlb h' = tlb (hw s) -> protected_frames (pm h') = protected_frames (pm (hw s)) ->
  0 <= v < 2 ^ 19 ->
  continues bd s (<[d := <[v := APage l w]> F]> A)
    (set_hw s (if d =? current_dir_phys s then hal_mmu_flush_tlb h' (v * PAGE_SIZE) else h')) g'.
Proof.
  intros Hv Hf HF Hff e Hh2 Hs Hl (M1 & M2 & M3 & M4 & M5 & M6 & M7) Hc Ht Hpf Hvr. destruct (page_flags_entry w) as (E1 & E2 & E3 & E4).
  destruct (entry_made f _ (proj1 Hff) ltac:(destruct Hff; lia) E1) as (_ & Ee & _). fold e in Ee. rewrite Ee in *.
  destruct (page_start_of v Hvr) as (_ & _ & Pv). set (h3 := if d =? current_dir_phys s then _ else _).
  assert (H3 : hinv bd h3 g' /\ cr3 h3 = cr3 (hw s) /\ pm h3 = pm h' /\ tlb h3 = if d =? current_dir_phys s then delete v (tlb (hw s)) else tlb (hw s)).
  { unfold h3. case_if; [|done]. cbn. rewrite shiftr_page, Pv, Ht. destruct M1 as [? ? ? ?]. by split_and!. }
  destruct H3 as (H3 & Hc3 & Hpm & Ht3).
  assert (Hown : forall f', own g' !! f' = Some RDir <-> own g !! f' = Some RDir).
  { intros f'. destruct (decide (f' = f)) as [->|Hne]; [rewrite M5, Hf; done|]. destruct (M6 f' Hne) as [->|[Hn ->]]; cbn in *; rewrite lookup_insert_ne in * by done; [done|].
    rewrite Hn. done. }
  assert (Hpg : forall k, k <> (d, v) -> pages g' !! k = pages g !! k) by (intros k Hk; rewrite M2; cbn; by rewrite lookup_insert_ne).
  assert (Hap : apage_of (pmem (pm h')) e = APage l w).
  { unfold apage_of. rewrite Ee. f_equal; [|unfold may_write, e; rewrite !flag_made by (done || apply Hff || destruct Hff; lia); exact E4].
    rewrite <- Hl. apply page_bytes_same. apply (M7 f RLimbo); [by cbn; rewrite lookup_insert_eq|by right]. }
  split_and!; try done; cbn [hw set_hw].
  - apply (vinv_hw bd s g); try done; [by rewrite M3; apply Hv| |by apply (tlb_change s g d v)|by rewrite Hpm].
    intros f' Hl'. destruct (decide (f' = f)) as [->|Hne]; [congruence|]. destruct (M6 f' Hne) as [E|[_ E]]; rewrite E in Hl'; [|done].
    cbn in Hl'. rewrite lookup_insert_ne in Hl' by done. by apply (vi_limbo _ _ _ Hv f').
  - rewrite Hpm. pose proof (shows_set (pmem (pm h2)) (pmem (pm h')) (add_own g f RLimbo) g' A d F v Hs HF) as Hset.
    rewrite M2, lookup_insert_eq in Hset. cbn [fmap option_fmap option_map] in Hset. rewrite Hap in Hset. apply Hset.
    + intros f'. rewrite Hown. cbn. destruct (decide (f' = f)) as [->|]; [by rewrite lookup_insert_eq, Hf|by rewrite lookup_insert_ne].
    + intros k Hk. by rewrite lookup_insert_ne by congruence.
    + intros k e1 Hk. destruct Hh2 as [Ha2 _ _ _]. apply (M7 _ RData); [by apply (ac_refs _ _ Ha2 k); left|by left].
  - by rewrite Hpm.
Qed.

Lemma new_page_ok s g A d F v w fill l : vinv bd s g -> shows (pmem (pm (hw s))) g A -> A !! d = Some F -> 0 <= v < 2 ^ 19 -> F !! v = None ->
  fills fill l ->
  exists r s' g', new_page s d (v * PAGE_SIZE) (page_flags w) fill = Some (r, s') /\
    continues bd s (if r then <[d := <[v := APage l w]> F]> A else A) s' g' /\ (if r then frees (pm (hw s)) - 2 <= frees (pm (hw s')) else frees (pm (hw s)) < 2).
Proof.
  intros Hv Hs HF Hvr Hnone Hfl. pose proof (vi_h _ _ _ Hv) as Hh. destruct (shows_some _ _ _ _ _ Hs HF) as [Hd HFv].
  destruct (page_start_of v Hvr) as (P1 & P2 & P3). unfold new_page.
  destruct (hinv_alloc bd (hw s) g Hh) as (f & p' & Ea & Epf & [(-> & Hno & Hh' & Em)|Hfr]); rewrite Ea; cbn [mbind option_bind]; destruct (alloc_free _ _ _ _ (hi_acct _ _ _ Hh) Ea) as [Hfull Hfree].
  - exists false, (set_hw s (set_pm (hw s) p')), g. split; [done|]. split; [|rewrite Hfull by done; lia]. split_and!; try done; [apply (vinv_hw bd s g); try done; apply Hv|by cbn; rewrite Em].
  - pose proof Hfr as (F1 & F2 & F3 & Fb & F4 & F5 & F6 & _). rewrite (proj2 (Z.eqb_neq f _)) by done. unfold clear_page.
    pose proof (page_zeroed (pmem p') f) as Hz. cbn [hw set_hw pm set_pm pmem set_pmem]. set (m := memset (pmem p') _ _ _) in *. clearbody m.
    destruct (filled_page _ _ _ _ _ _ _ _ Hh Hs Hfr Hfl Hz) as (Hh2 & Hl & Hs2 & _). set (h2 := set_pm (hw s) (set_pmem p' (fill m (kva f)))) in *.
    change (set_hw _ (set_pm _ _)) with (set_hw s h2). assert (u32 f = f) as -> by (destruct F2; apply u32_small; lia).
    assert (Hp2 : pages (add_own g f RLimbo) !! (d, v * PAGE_SIZE / PAGE_SIZE) = None) by (rewrite P3; specialize (HFv v); rewrite Hnone in HFv; cbn; by destruct (pages g !! (d, v))).
    destruct (page_flags_entry w) as (E1 & E2 & E3 & E4).
    destruct (map_ok bd h2 (add_own g f RLimbo) (space_of s d) d (v * PAGE_SIZE) f (vmm_flags_to_hal (page_flags w)) Hh2) as (r & h' & Emap & Nc & Nt & Npf & Hcase);
      try done; [exact (space_dir s g d Hv Hd)|by cbn; rewrite lookup_insert_ne by congruence|by cbn; rewrite lookup_insert_eq|].
    pose proof (map_in_directory (set_hw s h2) d v f (page_flags w) r h' (vi_lock _ _ _ Hv) Hvr F2 Emap) as Hmd. rewrite Hmd. cbn [mbind option_bind].
    rewrite P3 in Hcase. destruct r; cbn [andb].
    + destruct Hcase as (g' & Hm). eexists true, _, g'. split; [done|]. specialize (Hfree F1). pose proof (map_free _ _ _ _ _ _ _ _ (hi_acct _ _ _ Hh2) Emap) as Hmf. change (frees (pm h2)) with (frees p') in Hmf.
      split; [|cbn [hw set_hw]; destruct (d =? current_dir_phys (set_hw s h2)); [change (frees (pm (hw s)) - 2 <= frees (pm h'))|]; lia]. exact (mapped_step s g h2 f d v F A w l h' g' Hv F4 HF F2 Hh2 Hs2 Hl Hm Nc Nt (eq_trans Npf Epf) Hvr).
    + destruct Hcase as (Hh' & Em & _ & Hno). assert (Hpr : protections (pm h') f = 0) by (unfold protections in *; by rewrite Npf).
      destruct (free_limbo (pm h') _ f (hi_acct _ _ _ Hh')) as (p3 & E3' & _); [by cbn; rewrite lookup_insert_eq|done|].
      unfold on_pmm. cbn [hw set_hw]. rewrite E3'. cbn [mbind option_bind]. eexists false, _, g. split; [done|].
      split; [|apply no_free_count in Hno; rewrite <- (inv_free _ (ac_inv _ _ (hi_acct _ _ _ Hh2))) in Hno; change (frees p' = 0) in Hno; specialize (Hfree F1); lia].
      exact (give_back s g f p3 h' A Hv F4 F5 Hh' Hpr ltac:(by rewrite Em) Nc Nt (eq_trans Npf Epf) E3').
Qed.

(** ** A page given up *)

Lemma drop_ref_pages g k f : pages (drop_ref g k f) = pages g.
Proof. unfold drop_ref. by case_if. Qed.

Lemma drop_ref_lrefs g k f : lrefs (drop_ref g k f) = delete k (lrefs g).
Proof. unfold drop_ref. by case_if. Qed.

Lemma drop_ref_kern g k f : kern (drop_ref g k f) = kern g.
Proof. unfold drop_ref. by case_if. Qed.

Lemma drop_ref_role g k f f' r : own g !! f = Some RData -> r <> RData -> own (drop_ref g k f) !! f' = Some r <-> own g !! f' = Some r.
Proof.
  intros Hf Hr. destruct (decide (f' = f)) as [->|Hne]; [|by rewrite drop_ref_own].
  unfold drop_ref. case_if; cbn; [rewrite lookup_delete_eq|]; split; congruence.
Qed.

Lemma drop_page_ok s g A d F v : vinv bd s g -> shows (pmem (pm (hw s))) g A -> A !! d = Some F -> 0 <= v < 2 ^ 19 ->
  exists s' g', drop_page s d (v * PAGE_SIZE) = Some s' /\ continues bd s (<[d := delete v F]> A) s' g'.
Proof.
  intros Hv Hs HF Hvr. pose proof (vi_h _ _ _ Hv) as Hh. pose proof Hh as [Ha Hl Hr Hb]. destruct (shows_some _ _ _ _ _ Hs HF) as [Hd HFv].
  destruct (page_start_of v Hvr) as (P1 & P2 & P3). pose proof (space_dir s g d Hv Hd) as Hsp. unfold drop_page, vmm_unmap_page_in_directory.
  pose proof (aligned_lor _ _ P2 P2) as Hal. rewrite Z.lor_diag in Hal. rewrite Hal.
  pose proof (query_page bd (hw s) g _ d _ Hl Hsp Hd P1) as Hq. pose proof (unmap_ok bd (hw s) g _ d _ Hh (vi_lrefs _ _ _ Hv) Hsp Hd P1 P2) as Hu.
  rewrite P3 in Hq, Hu. destruct (pages g !! (d, v)) as [e|] eqn:Hp; cbn in Hq.
  2: { rewrite (locked_hw s _ 0 (hw s)); [|apply Hv|cbn [hw set_vmm_lock]; change (space_of (set_vmm_lock s _) d) with (space_of s d); by rewrite Hq].
       exists s, g. rewrite set_hw_same. split; [done|]. rewrite delete_id by (by rewrite HFv, Hp). by rewrite insert_id. }
  destruct Hu as (h1 & Eu & Hh1 & U1 & U2 & U3 & U4). set (f := i686_get_frame e) in *. pose proof (ac_refs _ _ Ha _ _ (or_introl Hp)) as Hof. fold f in Hof.
  destruct (own_frame _ _ _ _ Ha Hof) as [[_ Hfr] H0]. set (h2 := if d =? current_dir_phys s then hal_mmu_flush_tlb h1 (v * PAGE_SIZE) else h1).
  rewrite (locked_hw s _ (u32 f) h2); [|apply Hv|cbn [hw set_vmm_lock]; change (space_of (set_vmm_lock s _) d) with (space_of s d); by rewrite Hq, Eu].
  rewrite u32_small by lia. cbn [mbind option_bind]. rewrite (proj2 (Z.eqb_neq f 0)) by lia. unfold on_pmm. cbn [hw set_hw].
  assert (Hpm : pm h2 = pm h1) by (unfold h2; by case_if). rewrite Hpm.
  destruct (free_data (pm h1) (hold g (d, v) e) (d, v) e (hi_acct _ _ _ Hh1)) as (p3 & E3 & Ha3 & Ep3 & Em3); [cbn; apply lookup_insert_eq|]. fold f in E3, Ha3.
  rewrite E3. cbn [mbind option_bind]. set (g3 := drop_ref (hold g (d, v) e) (d, v) f) in *. eexists _, g3. split; [done|].
  assert (Hc2 : cr3 h2 = cr3 (hw s)) by (unfold h2; case_if; cbn; done).
  assert (Hrole : forall f' r, r <> RData -> own g3 !! f' = Some r <-> own g !! f' = Some r) by (intros f' r Hrr; unfold g3; by rewrite drop_ref_role).
  assert (Hpg : pages g3 = delete (d, v) (pages g)) by (unfold g3; by rewrite drop_ref_pages).
  split_and!; try done; cbn [hw set_hw pm set_pm].
  - apply (vinv_hw bd s g); try done.
    + split; cbn [pm set_pm]; [done|rewrite Em3; apply drop_ref_layout; [apply Hh1|done]| |unfold g3; by rewrite drop_ref_kern].
      apply (rights_sub g); [done|]. intros k e1. rewrite Hpg. intros Hk. by apply lookup_delete_Some in Hk as [_ Hk].
    + unfold g3. rewrite drop_ref_lrefs. cbn. rewrite (vi_lrefs _ _ _ Hv). apply delete_insert_id. apply lookup_empty.
    + intros f' Hf'. apply Hrole in Hf'; [|done]. by apply (vi_limbo _ _ _ Hv f').
    + apply (tlb_change s g d v); try done; [|by intros f'; apply Hrole|intros k Hk; by rewrite Hpg, lookup_delete_ne].
      cbn. unfold h2. case_if; cbn; [by rewrite shiftr_page, P3, U2|done].
    + unfold g3. by rewrite drop_ref_kern.
    + intros f'. by apply Hrole.
    + cbn. by rewrite Ep3, U3.
  - rewrite Em3. pose proof (shows_set (pmem (pm (hw s))) (pmem (pm h1)) g g3 A d F v Hs HF) as Hset. rewrite Hpg, lookup_delete_eq in Hset. apply Hset.
    + intros f'. by apply Hrole.
    + intros k Hk. by rewrite lookup_delete_ne.
    + intros k e1 Hk. apply (U4 _ RData); [by apply (ac_refs _ _ Ha k); left|done].
  - cbn. by rewrite Ep3, U3.
Qed.

End map.

(** ** Release of an address space

    [vmm_free_page_directory] against the invariant: the pages of every table
    give their references back, the tables and the directory their frames. *)

Section free.
Variable bd : Z.

(** Roles other than data are the same. *)
Definition same_roles (g g' : spaces) : Prop := forall f r, r <> RData -> own g' !! f = Some r <-> own g !! f = Some r.

Lemma same_roles_trans g1 g2 g3 : same_roles g1 g2 -> same_roles g2 g3 -> same_roles g1 g3.
Proof. intros H1 H2 f r Hr. by rewrite (H2 f r Hr), (H1 f r Hr). Qed.

(** ** The pages of a table *)

(** The references held are the entries of table [t] from [j] on. *)
Definition holds (m : mem) (g : spaces) (d i t j : Z) : Prop :=
  forall k e, lrefs g !! k = Some e <->
    exists j', j <= j' < 1024 /\ k = (d, 1024 * i + j') /\ e = word m t j' /\ flag e PAGE_PRESENT = true.

Lemma unlink_holds m g d i t : layout bd m g -> tables g !! (d, i) = Some t -> holds m (unlink g d i t) d i t 0.
Proof.
  intros Hl Ht [d' v] e. cbn. rewrite map_lookup_filter_Some. unfold below. cbn. destruct (ly_table _ _ _ Hl _ _ _ Ht) as (_ & _ & Hi). split.
  - intros [Hp [-> Hv]]. destruct (pages_table _ _ _ _ _ _ Hl Hp) as (Hvr & t' & Ht' & _ & Hw & Hpr). rewrite Hv in Ht'. assert (t' = t) as -> by congruence.
    exists (v mod 1024). destruct (user_page v Hvr) as [_ Hj]. split_and!; try done; [lia|lia|]. by rewrite <- Hv, page_join.
  - intros (j & Hj & E & -> & Hpr). injection E as -> ->. pose proof (ly_page _ _ _ Hl d i t j Ht Hj) as He.
    destruct (page_split i j ltac:(lia) Hj) as [-> _]. split; [|done]. destruct (pages g !! _) as [e|]; cbn in He; [by destruct He as [-> _]|congruence].
Qed.

Definition released (h : mmu) (g : spaces) (h' : mmu) (g' : spaces) : Prop :=
  hinv bd h' g' /\ pages g' = pages g /\ tables g' = tables g /\ kern g' = kern g /\ same_roles g g' /\
  pmem (pm h') = pmem (pm h) /\ cr3 h' = cr3 h /\ tlb h' = tlb h /\ protected_frames (pm h') = protected_frames (pm h).

Lemma free_table_pages_ok d i t n : forall h g j, hinv bd h g -> 0 <= j -> j + Z.of_nat n = 1024 -> holds (pmem (pm h)) g d i t j ->
  exists h' g', free_table_pages n h t j = Some h' /\ released h g h' g' /\ lrefs g' = ∅.
Proof.
  induction n as [|n IH]; intros h g j Hh Hj Hn Hhold; unfold holds in *; cbn [free_table_pages].
  - exists h, g. split; [done|]. split; [by split_and!|]. apply map_empty. intros k. destruct (lrefs g !! k) as [e|] eqn:E; [|done].
    apply Hhold in E as (j' & Hj' & _). lia.
  - pose proof Hh as [Ha Hl Hr Hb]. change (pte_of h t j) with (word (pmem (pm h)) t j). set (e := word (pmem (pm h)) t j). unfold i686_is_present.
    destruct (flag e PAGE_PRESENT) eqn:Hpr; cbn [andb].
    + assert (Hk : lrefs g !! (d, 1024 * i + j) = Some e) by (apply Hhold; exists j; split_and!; (done || lia)).
      pose proof (ac_refs _ _ Ha _ _ (or_intror Hk)) as Hof. destruct (own_frame _ _ _ _ Ha Hof) as [[_ Hfr] H0].
      rewrite (proj2 (Z.eqb_neq _ 0)), (proj2 (Z.leb_gt 0x80000000 _)) by lia. cbn [orb negb].
      destruct (free_data (pm h) g _ e Ha Hk) as (p' & -> & Ha' & Ep & Em). cbn [mbind option_bind].
      set (g1 := drop_ref g (d, 1024 * i + j) (i686_get_frame e)) in *.
      assert (Hh1 : hinv bd (set_pm h p') g1).
      { split; cbn; [done|rewrite Em; by apply drop_ref_layout|apply (rights_sub g); [done|intros k e1; unfold g1; by rewrite drop_ref_pages]|unfold g1; by rewrite drop_ref_kern]. }
      destruct (IH (set_pm h p') g1 (j + 1) Hh1) as (h' & g' & E & (R1 & R2 & R3 & R4 & R5 & R6 & R7 & R8 & R9) & Rl); [lia|lia| |].
      { cbn. rewrite Em. intros k e1. unfold g1. rewrite drop_ref_lrefs, lookup_delete_Some, Hhold. split.
        - intros (Hne & j' & Hj' & -> & -> & Hp'). exists j'. split_and!; try done; try lia. destruct (decide (j' = j)) as [->|]; [done|lia].
        - intros (j' & Hj' & -> & -> & Hp'). split; [intros E; injection E; lia|]. exists j'. split_and!; (done || lia). }
      exists h', g'. split; [done|]. split; [|done]. split_and!; try done.
      * rewrite R2. apply drop_ref_pages.
      * rewrite R3. unfold g1, drop_ref. by case_if.
      * rewrite R4. apply drop_ref_kern.
      * eapply same_roles_trans; [|done]. intros f r Hrr. unfold g1. by apply drop_ref_role.
      * by rewrite R6.
      * by rewrite R9.
    + cbn [mbind option_bind]. apply (IH h g (j + 1)); [done|lia|lia|]. intros k e1. rewrite Hhold. split.
      * intros (j' & Hj' & -> & -> & Hp'). exists j'. split_and!; try done; try lia. destruct (decide (j' = j)) as [->|]; [unfold e in Hpr; congruence|lia].
      * intros (j' & Hj' & H). exists j'. split; [lia|done].
Qed.

(** ** The tables of a directory *)

(** Another directory's part of the maps. *)
Definition keeps_others (h : mmu) (g : spaces) (d : Z) (h' : mmu) (g' : spaces) : Prop :=
  (forall d' v, d' <> d -> pages g' !! (d', v) = pages g !! (d', v)) /\ kern g' = kern g /\
  (forall f, own g' !! f = Some RDir <-> own g !! f = Some RDir) /\
  (forall f, own g' !! f = Some RLimbo <-> own g !! f = Some RLimbo) /\
  (forall f, is_frame f -> f <> d -> same_frame (pmem (pm h)) (pmem (pm h')) f) /\
  cr3 h' = cr3 h /\ tlb h' = tlb h /\
  forall f, protections (pm h') f <= protections (pm h) f.

Lemma keeps_others_refl h g d : keeps_others h g d h g.
Proof. by split_and!. Qed.

Lemma keeps_others_trans d h1 g1 h2 g2 h3 g3 : keeps_others h1 g1 d h2 g2 -> keeps_others h2 g2 d h3 g3 -> keeps_others h1 g1 d h3 g3.
Proof.
  intros (A1 & A2 & A3 & A4 & A5 & A6 & A7 & A8) (B1 & B2 & B3 & B4 & B5 & B6 & B7 & B8). split_and!.
  - intros d' v Hd. by rewrite B1, A1.
  - by rewrite B2.
  - intros f. by rewrite B3.
  - intros f. by rewrite B4.
  - intros f Hf Hne. eapply same_frame_trans; [by apply A5|by apply B5].
  - by rewrite B6.
  - by rewrite B7.
  - intros f. specialize (A8 f). specialize (B8 f). lia.
Qed.

(** A word of a directory in limbo. *)
Lemma limbo_word h g d i w : hinv bd h g -> own g !! d = Some RLimbo -> 0 <= i < 1024 ->
  hinv bd (set_pte h d i w) g /\ keeps_others h g d (set_pte h d i w) g.
Proof.
  intros Hh Hd Hi. assert (Hf : is_frame d) by (destruct Hh as [_ Hl _ _]; by eapply ly_frames).
  assert (Hs : forall f, is_frame f -> f <> d -> same_frame (pmem (pm h)) (put_word (pmem (pm h)) d i w) f) by (intros f Hff Hne; apply put_word_other; (done || congruence)).
  split; [exact (hinv_limbo_mem bd h g d _ Hh Hd Hs)|]. by split_and!.
Qed.

Lemma frame_not_special f : is_frame f -> 0 < f -> (f =? 0) || (f =? PADDR_INVALID) = false.
Proof. intros [_ Hf] H0. rewrite !(proj2 (Z.eqb_neq _ _)) by (unfold PADDR_INVALID; lia). done. Qed.

(** One table: its pages, its protection and its frame. *)
Lemma free_table h g d i t : hinv bd h g -> lrefs g = ∅ -> own g !! d = Some RLimbo -> tables g !! (d, i) = Some t ->
  exists h1 p2 p3 g', free_table_pages 1024 h t 0 = Some h1 /\ unprotect_phys_frame (pm h1) t = Some p2 /\ pmm_free_frame p2 t = Some p3 /\
    hinv bd (set_pm h1 p3) g' /\ lrefs g' = ∅ /\ keeps_others h g d (set_pm h1 p3) g' /\ pmem p3 = pmem (pm h) /\
    tables g' = delete (d, i) (tables g) /\ (forall v, pages g' !! (d, v) = if decide (v / 1024 = i) then None else pages g !! (d, v)).
Proof.
  intros Hh Hlr Hd Ht. pose proof Hh as [Ha Hl Hr Hb]. destruct (ly_table _ _ _ Hl _ _ _ Ht) as (_ & Hto & Hi).
  assert (Hnt : forall i', tables g !! (t, i') = None) by (apply (no_tables bd (pmem (pm h))); [done|intros [|]; congruence]).
  assert (Hh1 : hinv bd h (unlink g d i t)).
  { split; [by apply acct_unlink|by apply unlink_layout| |done]. apply (rights_sub g); [done|]. intros k e Hk. cbn in Hk. by apply map_lookup_filter_Some in Hk as [Hk _]. }
  destruct (free_table_pages_ok d i t 1024 h (unlink g d i t) 0 Hh1 ltac:(lia) ltac:(lia) (unlink_holds _ _ _ _ _ Hl Ht))
    as (h1 & g2 & E1 & (R1 & R2 & R3 & R4 & R5 & R6 & R7 & R8 & R9) & Rl).
  pose proof R1 as [Ha2 Hl2 Hr2 Hb2]. assert (Hto2 : own g2 !! t = Some RLimbo) by (apply R5; [done|cbn; apply lookup_insert_eq]).
  destruct (own_frame _ _ _ _ Ha2 Hto2) as [Hft H0]. pose proof Hft as [Hta Htr].
  destruct (unprotect_acct (pm h1) g2 t Ha2 Hta ltac:(lia)) as (p2 & E2 & Ha3 & Em2 & Hpr).
  destruct (ac_own _ _ Ha2 _ _ Hto2) as (_ & _ & Hlim). cbn in Hlim.
  destruct (free_limbo p2 g2 t Ha3 Hto2) as (p3 & E3 & Ha4 & Ep3 & Em3); [rewrite Hpr, Z.eqb_refl; lia|].
  exists h1, p2, p3, (del_own g2 t). split; [done|]. split; [unfold unprotect_phys_frame; by rewrite frame_not_special|]. split; [done|].
  assert (Em : pmem p3 = pmem (pm h)) by (by rewrite Em3, Em2, R6).
  assert (Hrole : forall f r, r <> RData -> r <> RTable -> own (del_own g2 t) !! f = Some r <-> own g !! f = Some r).
  { intros f r Hr1 Hr2'. cbn. destruct (decide (f = t)) as [->|Hne]; [rewrite lookup_delete_eq, Hto; split; congruence|].
    rewrite lookup_delete_ne by done. rewrite (R5 f r Hr1). cbn. by rewrite lookup_insert_ne. }
  unfold keeps_others. split_and!; try done.
  - split; cbn [pm set_pm]; [done| |apply (rights_sub g2); [done|by intros k e]|done].
    rewrite Em3, Em2. apply del_layout; [done|by right; right|]. intros i'. rewrite R3. cbn. destruct (decide ((d, i) = (t, i'))) as [E|]; [congruence|].
    rewrite lookup_delete_ne by done. apply Hnt.
  - intros d' v Hne. change (pages (del_own g2 t)) with (pages g2). rewrite R2, unlink_pages, decide_False by naive_solver. done.
  - intros f. by apply Hrole.
  - intros f. by apply Hrole.
  - intros f Hf _. cbn [pm set_pm]. rewrite Em. apply same_frame_refl.
  - intros f. cbn. unfold protections in *. rewrite Ep3. specialize (Hpr f). rewrite Hpr, R9.
    pose proof (prot_nonneg (pm h) f (ac_prot _ _ Ha)) as Hnn. unfold protections in Hnn. case_if; lia.
  - intros v. change (pages (del_own g2 t)) with (pages g2). rewrite R2, unlink_pages. destruct (decide (v / 1024 = i)); [by rewrite decide_True|by rewrite decide_False by naive_solver].
Qed.

Lemma free_user_tables_ok d n : forall h g i, hinv bd h g -> lrefs g = ∅ -> own g !! d = Some RLimbo -> 0 <= i -> i + Z.of_nat n = 512 ->
  (forall j, i <= j < 512 -> pde_ok g d j (word (pmem (pm h)) d j)) -> (forall j, j < i -> tables g !! (d, j) = None) ->
  exists h' g', free_user_tables n h d i = Some h' /\ hinv bd h' g' /\ lrefs g' = ∅ /\ keeps_others h g d h' g' /\
    (forall j, tables g' !! (d, j) = None) /\ forall j, 512 <= j < 1024 -> word (pmem (pm h')) d j = word (pmem (pm h)) d j.
Proof.
  induction n as [|n IH]; intros h g i Hh Hlr Hd Hi Hn Hpde Hdone; cbn [free_user_tables].
  { exists h, g. split_and!; try done. intros j. destruct (decide (j < 512)) as [|Hge]; [apply Hdone; lia|].
    destruct (tables g !! (d, j)) as [t|] eqn:E; [|done]. destruct Hh as [_ Hl _ _]. destruct (ly_table _ _ _ Hl _ _ _ E) as (_ & _ & ?). lia. }
  change (pte_of h d i) with (word (pmem (pm h)) d i). pose proof (Hpde i ltac:(lia)) as Hp. unfold pde_ok in Hp. unfold i686_is_present.
  destruct (tables g !! (d, i)) as [t|] eqn:Ht.
  - destruct Hp as (P1 & P2 & P3 & P4). rewrite P1, P3. destruct (free_table h g d i t Hh Hlr Hd Ht) as (h1 & p2 & p3 & g1 & -> & E2 & E3 & Hh1 & Hl1 & Hk1 & Em & Ht1 & Hp1).
    assert (Hto : own g !! t = Some RTable) by (destruct Hh as [_ Hl _ _]; by apply (ly_table _ _ _ Hl _ _ _ Ht)).
    destruct (own_frame _ _ _ _ (hi_acct _ _ _ Hh) Hto) as [_ H0]. rewrite (proj2 (Z.eqb_neq t 0)) by lia. cbn [mbind option_bind]. rewrite E2. cbn [mbind option_bind]. rewrite E3. cbn [mbind option_bind].
    assert (Hd1 : own g1 !! d = Some RLimbo) by (by apply Hk1).
    destruct (limbo_word (set_pm h1 p3) g1 d i 0 Hh1 Hd1 ltac:(lia)) as [Hh2 Hk2]. set (h2 := set_pte (set_pm h1 p3) d i 0) in *.
    assert (Hw : forall j, 0 <= j < 1024 -> j <> i -> word (pmem (pm h2)) d j = word (pmem (pm h)) d j).
    { intros j Hj Hne. change (word (put_word (pmem p3) d i 0) d j = word (pmem (pm h)) d j). rewrite put_word_word by lia.
      rewrite (proj2 (Z.eqb_neq i j)) by congruence. by rewrite Em. }
    destruct (IH h2 g1 (i + 1) Hh2 Hl1 Hd1) as (h' & g' & E & Hh' & Hl' & Hk' & Hnt & Hw'); [lia|lia|..].
    + intros j Hj. rewrite Hw by lia. pose proof (Hpde j ltac:(lia)) as Hpj. unfold pde_ok in *. rewrite Ht1, lookup_delete_ne by (intros Ej; injection Ej; lia).
      destruct (tables g !! (d, j)) as [t'|]; [|done]. destruct Hpj as (J1 & J2 & J3 & J4). split_and!; try done.
      intros j' e Hj' He. rewrite Hp1 in He. destruct (decide _); [done|]. by eapply J4.
    + intros j Hj. rewrite Ht1. destruct (decide (j = i)) as [->|]; [apply lookup_delete_eq|]. rewrite lookup_delete_ne by congruence. apply Hdone. lia.
    + exists h', g'. split_and!; try done; [|intros j Hj; rewrite Hw' by done; apply Hw; lia].
      eapply keeps_others_trans; [exact Hk1|]. eapply keeps_others_trans; [exact Hk2|done].
  - rewrite Hp. cbn [mbind option_bind]. apply IH; try done; [lia|lia|intros j Hj; apply Hpde; lia|].
    intros j Hj. destruct (decide (j = i)) as [->|]; [done|apply Hdone; lia].
Qed.

(** ** The kernel half *)

Lemma hinv_pm h g p' : hinv bd h g -> acct p' g -> pmem p' = pmem (pm h) -> hinv bd (set_pm h p') g.
Proof. intros [H1 H2 H3 H4] Ha Hm. split; try done. cbn. by rewrite Hm. Qed.

Lemma release_range_ok d g n : forall h i, hinv bd h g -> own g !! d = Some RLimbo -> 0 <= i -> i + Z.of_nat n <= 1024 ->
  (forall j, i <= j < i + Z.of_nat n -> kernel_ok g (word (pmem (pm h)) d j)) ->
  exists h', release_directory_range n h d i true = Some h' /\ hinv bd h' g /\ keeps_others h g d h' g /\
    forall f, f ∉ kern g -> protections (pm h') f = protections (pm h) f.
Proof.
  induction n as [|n IH]; intros h i Hh Hd Hi Hn Hk; cbn [release_directory_range].
  { exists h. by split_and!. }
  change (pte_of h d i) with (word (pmem (pm h)) d i). pose proof (Hk i ltac:(lia)) as Hki. unfold i686_is_present.
  assert (Hnext : forall h1, hinv bd h1 g -> keeps_others h g d h1 g -> (forall f, f ∉ kern g -> protections (pm h1) f = protections (pm h) f) ->
    (forall j, i + 1 <= j < 1024 -> word (pmem (pm h1)) d j = word (pmem (pm h)) d j) ->
    exists h', release_directory_range n h1 d (i + 1) true = Some h' /\ hinv bd h' g /\ keeps_others h g d h' g /\
      forall f, f ∉ kern g -> protections (pm h') f = protections (pm h) f).
  { intros h1 Hh1 Hk1 Hp1 Hw1. destruct (IH h1 (i + 1) Hh1 Hd) as (h' & E & Hh' & Hk' & Hp'); [lia|lia|intros j Hj; rewrite Hw1 by lia; apply Hk; lia|].
    exists h'. split_and!; try done; [by eapply keeps_others_trans|]. intros f Hf. by rewrite Hp', Hp1. }
  destruct (flag (word (pmem (pm h)) d i) PAGE_PRESENT) eqn:Hpr; [|by apply Hnext].
  assert (Hclear : forall p1, acct p1 g -> pmem p1 = pmem (pm h) -> (forall f, protections p1 f <= protections (pm h) f) ->
    (forall f, f ∉ kern g -> protections p1 f = protections (pm h) f) ->
    exists h', release_directory_range n (set_pte (set_pm h p1) d i 0) d (i + 1) true = Some h' /\ hinv bd h' g /\ keeps_others h g d h' g /\
      forall f, f ∉ kern g -> protections (pm h') f = protections (pm h) f).
  { intros p1 Ha1 Em1 Hle Heq. destruct (limbo_word (set_pm h p1) g d i 0 (hinv_pm _ _ _ Hh Ha1 Em1) Hd ltac:(lia)) as [H1 H2]. apply Hnext; try done.
    - eapply keeps_others_trans; [|exact H2]. unfold keeps_others. split_and!; try done. intros f _ _. cbn. rewrite Em1. apply same_frame_refl.
    - intros j Hj. change (word (put_word (pmem p1) d i 0) d j = word (pmem (pm h)) d j). rewrite put_word_word by lia. by rewrite (proj2 (Z.eqb_neq i j)), Em1 by lia. }
  destruct (Hki Hpr) as [E0|Hin].
  - rewrite E0. cbn. destruct h as [p c t]. apply (Hclear p); try done. apply (hi_acct _ _ _ Hh).
  - destruct (ac_kern _ _ (hi_acct _ _ _ Hh) _ Hin) as (_ & K2 & K3 & _). set (f := i686_get_frame _) in *. rewrite (proj2 (Z.eqb_neq f 0)) by lia.
    unfold unprotect_phys_frame. rewrite (proj2 (Z.eqb_neq f 0)), (proj2 (Z.eqb_neq f PADDR_INVALID)) by (unfold PADDR_INVALID; lia). cbn [orb].
    destruct (unprotect_acct (pm h) g f (hi_acct _ _ _ Hh) K2 K3) as (p1 & -> & Ha1 & Em1 & Hp1). cbn [mbind option_bind]. apply (Hclear p1); try done.
    + intros f'. rewrite Hp1. pose proof (prot_nonneg (pm h) f' (ac_prot _ _ (hi_acct _ _ _ Hh))). case_if; lia.
    + intros f' Hf'. rewrite Hp1. case_if; [congruence|done].
Qed.

(** ** The list of directories *)

Lemma is_active_spec s d : is_active_page_directory s d = bool_decide (d ∈ active_page_directories s).
Proof.
  unfold is_active_page_directory. induction (active_page_directories s) as [|x l IH]; [done|]. cbn. rewrite IH.
  destruct (Z.eqb_spec x d) as [->|Hne]; cbn; symmetry.
  - apply bool_decide_eq_true. by left.
  - apply bool_decide_ext. rewrite elem_of_cons. naive_solver.
Qed.

Lemma replace_last_spec l i d : NoDup l -> l !! i = Some d -> NoDup (replace_last l i) /\ forall x, x ∈ replace_last l i <-> x ∈ l /\ x <> d.
Proof.
  intros Hnd Hi. destruct l as [|z l _] using rev_ind; [done|]. unfold replace_last. rewrite length_app. cbn [length]. replace (length l + 1 - 1)%nat with (length l) by lia.
  rewrite lookup_app_r, Nat.sub_diag by lia. cbn. apply list.NoDup_app in Hnd as (Hl & Hz & _). destruct (decide (i < length l)%nat) as [Hlt|Hge].
  - rewrite lookup_app_l in Hi by done. rewrite insert_app_l, take_app_length' by (done || by rewrite length_insert).
    apply list_elem_of_split_length in Hi as (a & b & -> & ->). rewrite insert_app_r_alt, Nat.sub_diag by lia. cbn [insert list_insert].
    assert (Hp : a ++ d :: b ≡ₚ d :: (a ++ b)) by solve_Permutation. assert (Hq : a ++ z :: b ≡ₚ z :: (a ++ b)) by solve_Permutation.
    rewrite Hq. rewrite Hp in Hl. apply list.NoDup_cons in Hl as [Hd Hab]. assert (Hzab : z ∉ d :: (a ++ b)).
    { intros Hin. apply (Hz z); [by rewrite Hp|by left]. }
    rewrite not_elem_of_cons in Hzab. split; [apply list.NoDup_cons; naive_solver|]. intros x. rewrite Hq, (elem_of_app (a ++ d :: b)), Hp, !elem_of_cons, elem_of_nil. naive_solver.
  - apply lookup_lt_Some in Hi as Hle. rewrite length_app in Hle. cbn in Hle. assert (i = length l) as -> by lia. rewrite lookup_app_r, Nat.sub_diag in Hi by lia. injection Hi as ->.
    rewrite insert_app_r_alt, Nat.sub_diag by lia. cbn. rewrite take_app_length. split; [done|]. intros x. rewrite elem_of_app, list_elem_of_singleton. split.
    + intros Hx. split; [by left|]. intros ->. apply (Hz d Hx). by left.
    + naive_solver.
Qed.

Lemma unregister_ok s g d : hinv bd (hw s) g -> NoDup (active_page_directories s) -> own g !! d = Some RLimbo ->
  protections (pm (hw s)) d <= (if decide (d ∈ active_page_directories s) then 1 else 0) ->
  exists p l, (if is_active_page_directory s d then unregister_page_directory s d else Some s) = Some (set_active (set_hw s (set_pm (hw s) p)) l) /\
    hinv bd (set_pm (hw s) p) g /\ protections p d = 0 /\ pmem p = pmem (pm (hw s)) /\ (forall f, f <> d -> protections p f = protections (pm (hw s)) f) /\
    NoDup l /\ forall x, x ∈ l <-> x ∈ active_page_directories s /\ x <> d.
Proof.
  intros Hh Hnd Hd Hp. rewrite is_active_spec. pose proof Hh as [Ha Hl Hr Hb]. pose proof (prot_nonneg (pm (hw s)) d (ac_prot _ _ Ha)) as Hnn.
  case_bool_decide as Hin.
  - rewrite decide_True in Hp by done. unfold unregister_page_directory. destruct (list_find_elem_of (fun x => x = d) _ d Hin eq_refl) as [[i x] Hf].
    rewrite Hf. apply list_find_Some in Hf as (Hi & -> & _). destruct (own_frame _ _ _ _ Ha Hd) as [Hfd H0]. unfold unprotect_phys_frame.
    rewrite frame_not_special by done. destruct (unprotect_acct (pm (hw s)) g d Ha (proj1 Hfd) ltac:(destruct Hfd; lia)) as (p & -> & Ha' & Em & Hpr). cbn [mbind option_bind].
    destruct (replace_last_spec _ _ _ Hnd Hi) as [H1 H2]. exists p, (replace_last (active_page_directories s) i). split_and!; try done.
    + by apply hinv_pm.
    + rewrite Hpr, Z.eqb_refl. lia.
    + intros f Hne. rewrite Hpr. by rewrite (proj2 (Z.eqb_neq d f)) by congruence.
  - rewrite decide_False in Hp by done. exists (pm (hw s)), (active_page_directories s). split; [by destruct s as [[? ? ?] ? ? ? ? ?]|]. split_and!; try done; [lia|].
    intros x. split; [|by intros []]. intros Hx. split; [done|]. by intros ->.
Qed.

(** ** The directory *)

Variable B : Z.
Hypothesis HB : VIRT_TO_PHYS I686 B = bd.

Definition freed (s : vmm) (A : aspaces) (d : Z) (s' : vmm) (g' : spaces) : Prop :=
  vinv bd s' g' /\ shows (pmem (pm (hw s'))) g' (delete d A) /\ cr3 (hw s') = cr3 (hw s) /\
  forall f, protections (pm (hw s')) f <= protections (pm (hw s)) f.

Lemma hinv_limbo h g d : hinv bd h g -> own g !! d = Some RDir -> hinv bd h (add_own g d RLimbo).
Proof.
  intros [H1 H2 H3 H4] Hd. split; [by eapply acct_role|by apply dir_to_limbo| |done]. apply (rights_sub g); [done|]. by intros k e.
Qed.

(** What is left when the directory's frame goes. *)
Lemma freed_step s g A d h g1 p l p4 : vinv bd s g -> shows (pmem (pm (hw s))) g A -> own g !! d = Some RDir -> d <> cr3 (hw s) ->
  keeps_others (hw s) (add_own g d RLimbo) d h g1 -> lrefs g1 = ∅ -> (forall j, tables g1 !! (d, j) = None) ->
  hinv bd (set_pm h p) g1 -> pmem p = pmem (pm h) -> protections p d = 0 -> (forall f, f <> d -> protections p f = protections (pm h) f) ->
  NoDup l -> (forall x, x ∈ l <-> x ∈ active_page_directories s /\ x <> d) -> pmm_free_frame p d = Some p4 ->
  freed s A d (set_active (set_hw s (set_pm h p4)) l) (del_own g1 d).
Proof.
  intros Hv Hs Hd Hne (K1 & K2 & K3 & K4 & K5 & K6 & K7 & K8) Hlr Hnt Hh1 Em Hp0 Hpo Hnd Hl E4. pose proof Hh1 as [Ha1 Hl1 Hr1 Hb1].
  assert (Hd1 : own g1 !! d = Some RLimbo) by (apply K4; cbn; apply lookup_insert_eq).
  destruct (free_limbo p g1 d Ha1 Hd1 Hp0) as (p4' & E4' & Ha4 & Ep4 & Em4). assert (p4' = p4) as -> by congruence.
  assert (Hdir : forall f, own (del_own g1 d) !! f = Some RDir <-> own g !! f = Some RDir /\ f <> d).
  { intros f. cbn. destruct (decide (f = d)) as [->|Hf]; [rewrite lookup_delete_eq; split; [done|by intros []]|]. rewrite lookup_delete_ne, K3 by done. cbn.
    rewrite lookup_insert_ne by done. tauto. }
  assert (Hprot : forall f, protections p4 f <= protections (pm (hw s)) f).
  { intros f. unfold protections in *. rewrite Ep4. destruct (decide (f = d)) as [->|Hf]; [pose proof (prot_nonneg (pm (hw s)) d (ac_prot _ _ (hi_acct _ _ _ (vi_h _ _ _ Hv)))) as Hnn; unfold protections in Hnn; lia|].
    rewrite Hpo by done. apply K8. }
  assert (Hh4 : hinv bd (set_pm h p4) (del_own g1 d)).
  { split; cbn [pm set_pm]; [done|rewrite Em4; apply del_layout; [done|by right; right|done]| |done]. apply (rights_sub g1); [done|]. by intros k e. }
  destruct (vi_active _ _ _ Hv) as (_ & A2 & A3).
  split_and!; cbn [hw set_hw set_active pm set_pm]; try done.
  - split; cbn [hw set_hw set_active vmm_lock current_dir_phys active_page_directories cr3 tlb set_pm pm]; try done.
    + intros f Hf. cbn in Hf. apply lookup_delete_Some in Hf as [Hfd Hf]. apply K4 in Hf. cbn in Hf. rewrite lookup_insert_ne in Hf by done. by apply (vi_limbo _ _ _ Hv f).
    + rewrite K6. apply Hv.
    + rewrite K6. destruct (vi_cur _ _ _ Hv) as [Hc|Hc]; [left; apply Hdir; done|by right].
    + intros v e Hte Hvr Hc. cbn in Hte, Hc |- *. rewrite K6, K7 in *. apply (Hdir (cr3 (hw s))) in Hc as [Hc _]. rewrite K1 by done. by apply (vi_tlb _ _ _ Hv).
    + apply Hv.
    + split_and!; [done| |].
      * intros x Hx. apply Hl in Hx as [Hx Hxd]. destruct (A2 x Hx) as [Hx'|Hx']; [left; by apply Hdir|right; cbn; by rewrite K2].
      * intros d' Hd'. apply Hdir in Hd' as [Hd' Hdd]. specialize (A3 d' Hd'). specialize (Hprot d'). destruct (decide (d' ∈ l)) as [Hin|Hin]; case_decide as Hin'; try lia.
        destruct Hin. by apply Hl.
  - intros d'. specialize (Hs d'). destruct (decide (d' = d)) as [->|Hdd].
    + rewrite lookup_delete_eq. intros Hx. by apply Hdir in Hx as [_ ?].
    + rewrite lookup_delete_ne by done. destruct (A !! d') as [F|]; [|intros Hx; by apply Hdir in Hx as [? _]]. destruct Hs as [Hd' HF]. split; [by apply Hdir|].
      intros v. change (pages (del_own g1 d)) with (pages g1). rewrite HF, K1 by done. change (pages (add_own g d RLimbo)) with (pages g).
      destruct (pages g !! (d', v)) as [e|] eqn:Ep; [|done]. cbn. f_equal. symmetry. apply apage_same; [done|done|].
      destruct (vi_h _ _ _ Hv) as [Ha Hly _ _]. pose proof (ac_refs _ _ Ha _ _ (or_introl Ep)) as Hof. rewrite Em4, Em. apply K5; [exact (ly_frames _ _ _ Hly _ _ Hof)|congruence].
Qed.

Lemma free_directory_ok s g A d pool : vinv bd s g -> shows (pmem (pm (hw s))) g A -> own g !! d = Some RDir -> d <> cr3 (hw s) ->
  is_page_directory_in_use pool d = false ->
  exists s' g', vmm_free_page_directory B pool s d = Some (tt, s') /\ freed s A d s' g'.
Proof.
  intros Hv Hs Hd Hne Hpool. pose proof (vi_h _ _ _ Hv) as Hh. pose proof Hh as [Ha Hl Hr Hb]. destruct (own_frame _ _ _ _ Ha Hd) as [Hfd H0].
  assert (Hbd : d <> bd) by (intros ->; destruct (ly_bd _ _ _ Hl); congruence). unfold vmm_free_page_directory.
  rewrite HB, Hpool, <- (vi_current _ _ _ Hv). rewrite !(proj2 (Z.eqb_neq _ _)) by (done || lia).
  pose proof (hinv_limbo _ _ _ Hh Hd) as Hh0. set (g0 := add_own g d RLimbo) in *. assert (Hd0 : own g0 !! d = Some RLimbo) by (cbn; apply lookup_insert_eq).
  destruct (free_user_tables_ok d 512 (hw s) g0 0 Hh0 (vi_lrefs _ _ _ Hv) Hd0 ltac:(lia) ltac:(lia)) as (h1 & g1 & E1 & Hh1 & Hl1 & Hk1 & Hnt & Hw).
  { intros j Hj. exact (ly_dir _ _ _ Hl d j Hd Hj). }
  { intros j Hj. destruct (tables g0 !! (d, j)) as [t|] eqn:Et; [|done]. destruct (ly_table _ _ _ Hl _ _ _ Et) as (_ & _ & ?). lia. }
  assert (Hd1 : own g1 !! d = Some RLimbo) by (by apply Hk1).
  destruct (release_range_ok d g1 512 h1 512 Hh1 Hd1 ltac:(lia) ltac:(lia)) as (h2 & E2 & Hh2 & Hk2 & Hp2).
  { intros j Hj. rewrite Hw by lia. unfold kernel_ok. rewrite (proj1 (proj2 Hk1)). by apply (ly_kern _ _ _ Hl d j Hd). }
  pose proof (keeps_others_trans _ _ _ _ _ _ _ Hk1 Hk2) as Hk. destruct (vi_active _ _ _ Hv) as (A1 & A2 & A3).
  destruct (unregister_ok (set_hw (set_vmm_lock s (LockSt SPINLOCK_LOCKED false)) h2) g1 d Hh2 A1 Hd1) as (p & l & E3 & Hh3 & Hp0 & Em & Hpo & Hnd & Hmem).
  { cbn. destruct Hk as (_ & _ & _ & _ & _ & _ & _ & K8). specialize (K8 d). specialize (A3 d Hd). case_decide; lia. }
  destruct (free_limbo p g1 d (hi_acct _ _ _ Hh3) Hd1 Hp0) as (p4 & E4 & _).
  eexists _, (del_own g1 d). split.
  - erewrite vmm_locked_run; [done|apply Hv| |]; cbn [hw set_vmm_lock]; [rewrite E1; cbn [mbind option_bind]; change KERNEL_PDE_START with 512; rewrite E2; cbn [mbind option_bind]; rewrite E3; cbn [mbind option_bind hw set_hw set_active set_pm pm]; rewrite E4; done|done].
  - exact (freed_step s g A d h2 g1 p l p4 Hv Hs Hd Hne Hk Hl1 Hnt Hh3 Em Hp0 Hpo Hnd Hmem E4).
Qed.

End free.
