(* ===== verification/SpaceNew.v ===== *)
(** * New address spaces

    The kernel half of a new directory and its registration;
    [vmm_create_page_directory] against the invariant. *)

From S2P Require Import Prelude Spinlock Mem Pmm PmmFacts PmmProps PmmSteps Task Paging Vmm FrameMem Spaces Layout UserSpace SpaceOps SpaceMap.

Section new.
Variable bd : Z.

(** ** The kernel half *)

Lemma copy_kernel_ok d src g n : forall h i, hinv bd h g -> own g !! d = Some RLimbo -> is_frame src -> src <> d -> 0 <= i -> i + Z.of_nat n <= 1024 ->
  let h' := copy_kernel_entries n h d (kva src) i in
  hinv bd h' g /\ keeps_others h g d h' g /\ protected_frames (pm h') = protected_frames (pm h) /\
  forall j, 0 <= j < 1024 -> word (pmem (pm h')) d j = if decide (i <= j < i + Z.of_nat n) then word (pmem (pm h)) src j else word (pmem (pm h)) d j.
Proof.
  induction n as [|n IH]; intros h i Hh Hd Hs Hne Hi Hn; cbn [copy_kernel_entries].
  - split_and!; try done. intros j Hj. by rewrite decide_False by lia.
  - set (w := rd32 _ _). change w with (word (pmem (pm h)) src i) in *. destruct (limbo_word bd h g d i (word (pmem (pm h)) src i) Hh Hd ltac:(lia)) as [H1 H2].
    set (h1 := set_pte h d i _) in *. destruct (IH h1 (i + 1) H1 Hd Hs Hne ltac:(lia) ltac:(lia)) as (I1 & I2 & I3 & I4). split_and!; try done.
    + by eapply keeps_others_trans.
    + intros j Hj. rewrite I4 by done. assert (Hsrc : word (pmem (pm h1)) src j = word (pmem (pm h)) src j).
      { apply word_same; [|done]. by apply H2. }
      rewrite Hsrc. change (word (pmem (pm h1)) d j) with (word (put_word (pmem (pm h)) d i (word (pmem (pm h)) src i)) d j).
      rewrite put_word_word by (lia || apply word_range). destruct (Z.eqb_spec i j) as [->|Hij].
      * rewrite decide_False, decide_True by lia. done.
      * destruct (decide (i + 1 <= j < _)); [by rewrite decide_True by lia|by rewrite decide_False by lia].
Qed.

Lemma protect_range_ok g d n : forall h i, hinv bd h g -> (forall j, i <= j < i + Z.of_nat n -> kernel_ok g (word (pmem (pm h)) d j)) ->
  (forall f, protections (pm h) f + Z.of_nat n < 2 ^ 32 - 1) ->
  exists p', protect_directory_range n h d i = Some (set_pm h p') /\ hinv bd (set_pm h p') g /\ pmem p' = pmem (pm h) /\
    (forall f, f ∉ kern g -> protections p' f = protections (pm h) f) /\
    (forall f, protections (pm h) f <= protections p' f <= protections (pm h) f + Z.of_nat n) /\ frees p' = frees (pm h) /\
    protects (pm h) p' /\
    (forall j, i <= j < i + Z.of_nat n -> flag (word (pmem (pm h)) d j) PAGE_PRESENT = true -> i686_get_frame (word (pmem (pm h)) d j) <> 0 ->
       held p' (i686_get_frame (word (pmem (pm h)) d j))).
Proof.
  induction n as [|n IH]; intros h i Hh Hk Hp; cbn [protect_directory_range].
  { exists (pm h). split; [by destruct h|]. split; [apply hinv_pm; [done|apply Hh|done]|]. split_and!; try done; [intros f; lia|intros j; lia]. }
  change (pte_of h d i) with (word (pmem (pm h)) d i). pose proof (Hk i ltac:(lia)) as Hki. unfold i686_is_present.
  assert (Hskip : (flag (word (pmem (pm h)) d i) PAGE_PRESENT = true -> i686_get_frame (word (pmem (pm h)) d i) = 0) -> exists p', protect_directory_range n h d (i + 1) = Some (set_pm h p') /\ hinv bd (set_pm h p') g /\ pmem p' = pmem (pm h) /\
    (forall f, f ∉ kern g -> protections p' f = protections (pm h) f) /\ (forall f, protections (pm h) f <= protections p' f <= protections (pm h) f + Z.of_nat (S n)) /\ frees p' = frees (pm h) /\ protects (pm h) p' /\
    (forall j, i <= j < i + Z.of_nat (S n) -> flag (word (pmem (pm h)) d j) PAGE_PRESENT = true -> i686_get_frame (word (pmem (pm h)) d j) <> 0 ->
       held p' (i686_get_frame (word (pmem (pm h)) d j)))).
  { intros Hno. destruct (IH h (i + 1) Hh) as (p' & E & I1 & I2 & I3 & I4 & I5 & I6 & I7); [intros j Hj; apply Hk; lia|intros f; specialize (Hp f); lia|].
    exists p'. split_and!; try done; [intros f; specialize (I4 f); lia|].
    intros j Hj Hpr Hz. destruct (decide (j = i)) as [->|]; [by rewrite Hno in Hz|]. apply I7; (done || lia). }
  destruct (flag _ PAGE_PRESENT) eqn:Hpr; [|by apply Hskip]. destruct (Hki Hpr) as [E0|Hin]; [rewrite E0; by apply Hskip|]. clear Hskip.
  destruct (ac_kern _ _ (hi_acct _ _ _ Hh) _ Hin) as (_ & K2 & K3 & _). set (f := i686_get_frame _) in *. unfold protect_phys_frame.
  rewrite (proj2 (Z.eqb_neq f 0)), (proj2 (Z.eqb_neq f PADDR_INVALID)) by (unfold PADDR_INVALID; lia). cbn [andb orb negb].
  destruct (protect_kern (pm h) g f (hi_acct _ _ _ Hh) Hin) as (p1 & Ep1 & Ha1 & Em1 & Hp1 & Hpp1 & Hh1); [specialize (Hp f); lia|].
  pose proof (protect_info _ _ _ _ (hi_acct _ _ _ Hh) (or_intror Hin) ltac:(specialize (Hp f); lia) Ep1) as Hf1. rewrite Ep1. cbn [mbind option_bind].
  destruct (IH (set_pm h p1) (i + 1)) as (p' & E & I1 & I2 & I3 & I4 & I5 & I6 & I7).
  - by apply hinv_pm.
  - intros j Hj. cbn. rewrite Em1. apply Hk. lia.
  - intros f'. cbn. specialize (Hp f'). specialize (Hp1 f'). case_if_in Hp1; lia.
  - exists p'. split_and!; try done.
    + cbn in I2. by rewrite I2.
    + intros f' Hf'. rewrite I3 by done. cbn. specialize (Hp1 f'). case_if_in Hp1; [congruence|lia].
    + intros f'. specialize (I4 f'). specialize (Hp1 f'). cbn in I4. case_if_in Hp1; lia.
    + by rewrite I5.
    + by eapply protects_trans.
    + intros j Hj Hprj Hz. cbn in I7. rewrite Em1 in I7. destruct (decide (j = i)) as [->|]; [by apply I6|]. apply I7; (done || lia).
Qed.

Lemma copy_kernel_info d src n : forall h i, info (pm (copy_kernel_entries n h d src i)) = info (pm h).
Proof. induction n as [|n IH]; intros h i; cbn [copy_kernel_entries]; [done|]. by rewrite IH. Qed.

(** ** Registration *)

Lemma tlb_same h g h' g' : tlb_ok h g -> cr3 h' = cr3 h -> tlb h' = tlb h -> (own g' !! cr3 h = Some RDir -> own g !! cr3 h = Some RDir) ->
  (forall v, pages g' !! (cr3 h, v) = pages g !! (cr3 h, v)) -> tlb_ok h' g'.
Proof. intros Ht Hc Htl Ho Hp v e. rewrite Hc, Htl, Hp. intros Hv Hr Hd. apply Ht; auto. Qed.


Lemma vinv_new s g d h g1 l : vinv bd s g -> hinv bd h g1 -> lrefs g1 = ∅ -> (forall f, own g1 !! f <> Some RLimbo) -> cr3 h = cr3 (hw s) -> tlb_ok h g1 ->
  kern g1 = kern g -> (forall f, own g1 !! f = Some RDir <-> own g !! f = Some RDir \/ f = d) ->
  (forall f, own g !! f = Some RDir -> protections (pm h) f <= protections (pm (hw s)) f) ->
  NoDup l -> (forall x, x ∈ l -> x ∈ active_page_directories s \/ x = d) -> (forall x, x ∈ active_page_directories s -> x ∈ l) ->
  protections (pm h) d <= (if decide (d ∈ l) then 1 else 0) -> vinv bd (set_active (set_hw s h) l) g1.
Proof.
  intros [V1 V2 V3 V4 V5 V6 V7 (V8 & V9 & V10)] H1 H2 H3 H4 H5 H6 H7 H8 H9 H10 H11 H12. split; try done; cbn.
  - by rewrite H4.
  - rewrite H4. destruct V5 as [V5|V5]; [left; apply H7; by left|by right].
  - split_and!; [done| |].
    + intros x Hx. rewrite H6. destruct (H10 x Hx) as [Hx'| ->]; [destruct (V9 x Hx'); [left; apply H7; by left|by right]|left; apply H7; by right].
    + intros d' Hd'. destruct (decide (d' = d)) as [->|Hne]; [done|]. apply H7 in Hd' as [Hd'|?]; [|done].
      specialize (H8 d' Hd'). specialize (V10 d' Hd'). destruct (decide (d' ∈ active_page_directories s)) as [Hin|Hin].
      * rewrite decide_True by (by apply H11). lia.
      * destruct (decide (d' ∈ l)); lia.
Qed.

(** The new directory is in the ghost state; what registration leaves. *)
Lemma register_ok s h g1 d : hinv bd h g1 -> own g1 !! d = Some RDir -> d ∉ active_page_directories s -> NoDup (active_page_directories s) -> protections (pm h) d = 0 ->
  exists p l, register_page_directory (set_hw s h) d = Some (set_active (set_hw s (set_pm h p)) l) /\ hinv bd (set_pm h p) g1 /\ pmem p = pmem (pm h) /\
    (forall f, f <> d -> protections p f = protections (pm h) f) /\ NoDup l /\
    (forall x, x ∈ l -> x ∈ active_page_directories s \/ x = d) /\ (forall x, x ∈ active_page_directories s -> x ∈ l) /\
    protections p d <= (if decide (d ∈ l) then 1 else 0).
Proof.
  intros Hh Hd Hn Hnd Hp. unfold register_page_directory. cbn [active_page_directories set_hw].
  assert (Hno : exists p l, Some (set_hw s h) = Some (set_active (set_hw s (set_pm h p)) l) /\ hinv bd (set_pm h p) g1 /\ pmem p = pmem (pm h) /\
    (forall f, f <> d -> protections p f = protections (pm h) f) /\ NoDup l /\
    (forall x, x ∈ l -> x ∈ active_page_directories s \/ x = d) /\ (forall x, x ∈ active_page_directories s -> x ∈ l) /\
    protections p d <= (if decide (d ∈ l) then 1 else 0)).
  { exists (pm h), (active_page_directories s). split; [by destruct h|]. rewrite decide_False by done. split; [apply hinv_pm; [done|apply Hh|done]|]. split_and!; try done; try lia. by left. }
  case_if; [exact Hno|]. rewrite is_active_spec. rewrite bool_decide_eq_false_2 by done. clear Hno. cbn [hw set_hw].
  destruct (own_frame _ _ _ _ (hi_acct _ _ _ Hh) Hd) as [Hf H0]. unfold protect_phys_frame. rewrite frame_not_special by done.
  destruct (protect_owned (pm h) g1 d RDir (hi_acct _ _ _ Hh) Hd ltac:(done) Hp) as (p & -> & Ha & Em & H1 & Ho). cbn [mbind option_bind].
  exists p, (active_page_directories s ++ [d]). split; [done|]. rewrite decide_True by (apply elem_of_app; right; by left). split_and!; try done.
  - by apply hinv_pm.
  - apply list.NoDup_app. split_and!; [done| |apply NoDup_singleton]. intros x Hx. rewrite list_elem_of_singleton. by intros ->.
  - intros x. rewrite elem_of_app, list_elem_of_singleton. done.
  - intros x Hx. apply elem_of_app. by left.
Qed.

(** ** A directory with the kernel half of another *)

Record new_dir (h : mmu) (g : spaces) (A : aspaces) (d : Z) (h3 : mmu) : Prop := NewDir {
  nd_inv : hinv bd h3 (add_own g d RLimbo);
  nd_shows : shows (pmem (pm h3)) (add_own g d RLimbo) A;
  nd_user : forall j, 0 <= j < 512 -> word (pmem (pm h3)) d j = 0;
  nd_kern : forall j, 512 <= j < 1024 -> kernel_ok g (word (pmem (pm h3)) d j);
  nd_cr3 : cr3 h3 = cr3 h;
  nd_tlb : tlb h3 = tlb h;
  nd_prot : forall f, f ∉ kern g -> protections (pm h3) f = protections (pm h) f;
  nd_bound : forall f, protections (pm h3) f <= protections (pm h) f + 512;
  nd_fresh : own g !! d = None /\ is_frame d /\ 0 < d /\ d ∉ kern g /\ forall i, tables g !! (d, i) = None;
  nd_zero : protections (pm h3) d = 0
}.

Lemma new_dir_ok h g A d p1 m src : hinv bd h g -> shows (pmem (pm h)) g A -> fresh bd h g d p1 -> protected_frames p1 = protected_frames (pm h) ->
  filled (pmem p1) m (kva d) 0 PAGE_SIZE -> is_frame src -> src <> d -> (forall j, 512 <= j < 1024 -> kernel_ok g (word (pmem (pm h)) src j)) ->
  (forall f, protections (pm h) f + 512 < 2 ^ 32 - 1) ->
  let h2 := copy_kernel_entries 512 (set_pm h (set_pmem p1 m)) d (kva src) 512 in
  exists p3, protect_directory_range 512 h2 d KERNEL_PDE_START = Some (set_pm h2 p3) /\ new_dir h g A d (set_pm h2 p3) /\ frees p3 = frees p1.
Proof.
  intros Hh Hs Hfr Hpf Hz Hsrc Hne Hk Hb h2. pose proof Hfr as (F1 & F2 & F3 & Fb & F4 & F5 & F6 & F7 & F8 & F9).
  assert (Hs1 : forall f, is_frame f -> f <> d -> same_frame (pmem p1) m f) by (intros f Hf Hn; eapply filled_frame; [exact F2|done|congruence|exact Hz]).
  assert (Hd : own (add_own g d RLimbo) !! d = Some RLimbo) by (cbn; apply lookup_insert_eq).
  pose proof (hinv_limbo_mem bd (set_pm h p1) _ d m F7 Hd Hs1) as Hh1. set (h1 := set_pm h (set_pmem p1 m)) in *.
  destruct (copy_kernel_ok d src _ 512 h1 512 Hh1 Hd Hsrc Hne ltac:(lia) ltac:(lia)) as (Hh2 & Hk2 & Hp2 & Hw2). fold h2 in Hh2, Hk2, Hp2, Hw2.
  assert (Hdk : d ∉ kern g) by (intros Hin; destruct (ac_kern _ _ (hi_acct _ _ _ F7) d Hin) as [? _]; congruence).
  assert (Hwk : forall j, 512 <= j < 1024 -> kernel_ok g (word (pmem (pm h2)) d j)).
  { intros j Hj. rewrite Hw2, decide_True by lia. rewrite (word_same (pmem (pm h))); [by apply Hk| |lia]. eapply same_frame_trans; [by apply F9|by apply Hs1]. }
  assert (Hb2 : forall f, protections (pm h2) f = protections (pm h) f) by (intros f; unfold protections; rewrite Hp2; cbn; by rewrite Hpf).
  destruct (protect_range_ok (add_own g d RLimbo) d 512 h2 512 Hh2) as (p3 & E3 & Hh3 & Em3 & Hk3 & Hb3 & Hf3 & _); [intros j Hj; apply Hwk; lia|intros f; rewrite Hb2; specialize (Hb f); lia|].
  exists p3. split; [exact E3|]. split; [|rewrite Hf3; unfold frees, h2; by rewrite copy_kernel_info]. clear E3 Hf3. clearbody h2. destruct Hk2 as (_ & _ & _ & _ & K5 & K6 & K7 & _). cbn [set_pm pm cr3 tlb] in *.
  split; cbn [set_pm pm cr3 tlb]; try done.
  - rewrite Em3. apply (shows_other (pmem p1)); [by eapply fresh_shows|]. intros k e Hke. pose proof (ac_refs _ _ (hi_acct _ _ _ F7) k e (or_introl Hke)) as Hof.
    assert (i686_get_frame e <> d) by (intros E; rewrite E in Hof; congruence). pose proof (ly_frames _ _ _ (hi_lay _ _ _ F7) _ _ Hof).
    eapply same_frame_trans; [by apply Hs1|by apply K5].
  - intros j Hj. rewrite Em3, Hw2, decide_False by lia. by eapply filled_word_zero; [exact Hz|lia].
  - intros j Hj. rewrite Em3. by apply Hwk.
  - intros f Hf. rewrite Hk3 by done. apply Hb2.
  - intros f. specialize (Hb3 f). rewrite Hb2 in Hb3. lia.
  - rewrite Hk3, Hb2 by done. unfold protections in *. by rewrite <- Hpf.
Qed.

(** The directory joins the ghost state. *)
Lemma dir_done h g d : hinv bd h g -> own g !! d = Some RLimbo -> (forall i, 0 <= i < 512 -> pde_ok g d i (word (pmem (pm h)) d i)) ->
  (forall i, 512 <= i < 1024 -> kernel_ok g (word (pmem (pm h)) d i)) -> hinv bd h (add_own g d RDir).
Proof.
  intros [H1 H2 H3 H4] Hd Hu Hk. split; [by eapply acct_role|by apply limbo_to_dir| |done]. apply (rights_sub g); [done|]. by intros k e.
Qed.

Lemma shows_add m g A d F : shows m g A -> own g !! d <> Some RDir -> (forall v, F !! v = apage_of m <$> pages g !! (d, v)) -> shows m (add_own g d RDir) (<[d := F]> A).
Proof.
  intros Hs Hd HF d'. cbn. destruct (decide (d' = d)) as [->|Hne]; [by rewrite !lookup_insert_eq|]. rewrite !lookup_insert_ne by done. apply Hs.
Qed.

Lemma no_pages m g d : layout bd m g -> (forall i, tables g !! (d, i) = None) -> forall v, pages g !! (d, v) = None.
Proof.
  intros Hl Hn v. destruct (pages g !! (d, v)) as [e|] eqn:E; [|done]. destruct (ly_in _ _ _ Hl _ _ _ E) as [_ [t Ht]]. by rewrite Hn in Ht.
Qed.

(** ** Creation *)

Variable B : Z.
Hypothesis HB : kva bd = B.

Definition made (s : vmm) (A : aspaces) (r : Z) (F : gmap Z apage) (s' : vmm) (g' : spaces) : Prop :=
  vinv bd s' g' /\ cr3 (hw s') = cr3 (hw s) /\ (forall f, protections (pm (hw s')) f <= protections (pm (hw s)) f + 512) /\
  if decide (r = 0) then shows (pmem (pm (hw s'))) g' A
  else A !! r = None /\ shows (pmem (pm (hw s'))) g' (<[r := F]> A).

Lemma create_ok s g A : vinv bd s g -> shows (pmem (pm (hw s))) g A -> (forall f, protections (pm (hw s)) f + 512 < 2 ^ 32 - 1) ->
  exists r s' g', vmm_create_page_directory B s = Some (r, s') /\ made s A r ∅ s' g' /\ (r = 0 -> no_free_frame (pm (hw s))).
Proof.
  intros Hv Hs Hb. pose proof (vi_h _ _ _ Hv) as Hh. pose proof Hh as [Ha Hl Hr Hbd].
  destruct (hinv_alloc bd (hw s) g Hh) as (d & p1 & E1 & Epf & [(-> & Hno & Hh' & Em)|Hfr]).
  - exists 0, (set_hw s (set_pm (hw s) p1)), g. split.
    + apply locked_hw; [apply Hv|]. unfold hal_mmu_create_space. cbn [hw set_vmm_lock]. rewrite E1. done.
    + split; [|done]. unfold made. rewrite decide_True by done. split_and!; try done; [apply (vinv_hw bd s g); try done; apply Hv| |by cbn; rewrite Em].
      intros f. unfold protections. cbn. rewrite Epf. lia.
  - pose proof Hfr as (F1 & F2 & F3 & Fb & F4 & F5 & F6 & _). pose proof (page_zeroed (pmem p1) d) as Hz.
    destruct (new_dir_ok (hw s) g A d p1 _ bd Hh Hs Hfr Epf Hz (proj1 (ly_bd _ _ _ Hl)) ltac:(congruence) (ly_boot _ _ _ Hl) Hb) as (p3 & E3 & N & _). rewrite HB in E3, N.
    set (h2 := copy_kernel_entries 512 _ _ _ _) in *. set (L := LockSt SPINLOCK_LOCKED false).
    assert (Hrun : forall s2, register_page_directory (set_hw (set_vmm_lock s L) (set_pm h2 p3)) d = Some s2 -> vmm_lock s2 = L ->
      vmm_create_page_directory B s = Some (d, set_vmm_lock s2 (vmm_lock s))).
    { intros s2 E2 Hl2. apply vmm_locked_run; [apply Hv| |exact Hl2]. unfold hal_mmu_create_space. cbn [hw set_vmm_lock]. rewrite E1. cbn [mbind option_bind].
      rewrite (proj2 (Z.eqb_neq d PADDR_INVALID)) by done. cbn [mbind option_bind]. rewrite (proj2 (Z.eqb_neq d HAL_ADDR_SPACE_INVALID)) by done.
      rewrite u32_small by (destruct F2; lia). fold L. cbn [pm set_pm set_hw pmem set_pmem].
      change (set_pm (set_pm (hw s) p1) ?q) with (set_pm (hw s) q). fold h2. rewrite E3. cbn [mbind option_bind]. rewrite E2. reflexivity. }
    clear E1 E3 Hz. clearbody h2. destruct N as [N1 N2 N3 N4 N5 N6 N7 N8 (_ & _ & _ & Nk & _) N10].
    set (h3 := set_pm h2 p3) in *. assert (Hd1 : own (add_own g d RLimbo) !! d = Some RLimbo) by (cbn; apply lookup_insert_eq).
    assert (Hd3 : hinv bd h3 (add_own (add_own g d RLimbo) d RDir)).
    { apply dir_done; try done. intros i Hi. unfold pde_ok. cbn [tables add_own with_own]. rewrite F5, N3 by done. done. }
    set (g3 := add_own (add_own g d RLimbo) d RDir) in *. assert (Hown : forall f, f <> d -> own g3 !! f = own g !! f) by (intros f Hf; cbn; by rewrite !lookup_insert_ne).
    assert (Hdd : own g3 !! d = Some RDir) by (cbn; apply lookup_insert_eq). destruct (vi_active _ _ _ Hv) as (A1 & A2 & _).
    assert (Hact : d ∉ active_page_directories s) by (intros Hin; destruct (A2 d Hin); congruence).
    destruct (register_ok (set_vmm_lock s L) h3 g3 d Hd3 Hdd Hact A1 N10) as (p & l & E4 & R1 & R2 & R3 & R4 & R5 & R6 & R7).
    exists d, (set_active (set_hw s (set_pm h3 p)) l), g3. split; [|split; [|lia]].
    + by rewrite (Hrun _ E4).
    + unfold made. rewrite decide_False by lia. cbn [hw set_active set_hw]. split_and!.
      * apply (vinv_new s g d); try done.
        -- apply Hv.
        -- intros f Hf. destruct (decide (f = d)) as [->|Hne]; [congruence|]. rewrite Hown in Hf by done. by apply (vi_limbo _ _ _ Hv f).
        -- apply (tlb_same (hw s) g); try done; [apply Hv|]. intros Hc. destruct (decide (cr3 (hw s) = d)) as [E|Hne]; [destruct (vi_cur _ _ _ Hv); congruence|by rewrite Hown in Hc].
        -- intros f. destruct (decide (f = d)) as [->|Hne]; [rewrite Hdd; split; [by right|done]|]. rewrite Hown by done. split; [by left|by intros [|]].
        -- intros f Hf. assert (f <> d) by congruence. cbn. rewrite R3 by done. rewrite N7; [lia|]. intros Hin. destruct (ac_kern _ _ Ha f Hin). congruence.
      * done.
      * intros f. cbn. destruct (decide (f = d)) as [->|Hne]; [|rewrite R3 by done; apply N8].
        pose proof (prot_nonneg (pm (hw s)) d (ac_prot _ _ Ha)). destruct (decide (d ∈ l)); lia.
      * specialize (Hs d). destruct (A !! d) as [F|]; [destruct Hs; congruence|done].
      * cbn. rewrite R2. apply shows_add; [done|by rewrite Hd1|]. intros v. rewrite lookup_empty. cbn [pages add_own with_own]. by rewrite (no_pages (pmem (pm (hw s))) g d Hl F5).
Qed.

End new.
