(* ===== verification/SpaceClone.v ===== *)
(** * Cloned address spaces

    [vmm_clone_page_directory], the memory part of fork, against the
    invariant: the child sees the parent's pages, which both map read-only
    and copy-on-write from then on. *)

From S2P Require Import Prelude Spinlock Mem Pmm PmmFacts PmmProps PmmSteps Task Paging Vmm FrameMem Spaces Layout UserSpace SpaceOps SpaceMap SpaceNew.

(** ** How often a frame is mapped *)

(** Pages of one frame have one number, so directories bound them. *)
Lemma uses_bound g f (D : gset Z) : rights g -> (forall d v e, pages g !! (d, v) = Some e -> d ∈ D) -> uses_of (pages g) f <= Z.of_nat (size D).
Proof.
  intros [_ Hs _] HD. unfold uses_of. set (m := filter _ (pages g)).
  assert (Hm : forall d v e, m !! (d, v) = Some e -> d ∈ D /\ pages g !! (d, v) = Some e /\ i686_get_frame e = f).
  { intros d v e E. apply map_lookup_filter_Some in E as [E1 E2]. split; [by eapply HD|done]. }
  set (l := (fun kv : (Z * Z) * Z => kv.1.1) <$> map_to_list m).
  assert (Hnd : NoDup l).
  { apply NoDup_fmap_2_strong; [|apply NoDup_map_to_list]. intros [[d v] e] [[d' v'] e'] H1 H2 E. cbn in E. subst d'.
    apply elem_of_map_to_list in H1, H2. destruct (Hm _ _ _ H1) as (_ & P1 & E1). destruct (Hm _ _ _ H2) as (_ & P2 & E2).
    assert (v' = v) as -> by (eapply (Hs d v e d v' e'); [done|done|congruence]). congruence. }
  assert (Hsub : list_to_set l ⊆ D).
  { intros d Hd. apply elem_of_list_to_set, list_elem_of_fmap in Hd as ([[d' v] e] & -> & Hi). apply elem_of_map_to_list in Hi. by apply (Hm _ _ _ Hi). }
  apply subseteq_size in Hsub. rewrite size_list_to_set in Hsub by done. unfold l in Hsub. rewrite length_fmap, length_map_to_list in Hsub. lia.
Qed.

(** ** Pages that look the same *)

Definition same_page (o o' : option Z) : Prop :=
  match o, o' with
  | Some e, Some e' => i686_get_frame e' = i686_get_frame e /\ may_write e' = may_write e
  | None, None => True
  | _, _ => False
  end.

Lemma same_page_refl o : same_page o o.
Proof. by destruct o. Qed.

Lemma same_page_trans o1 o2 o3 : same_page o1 o2 -> same_page o2 o3 -> same_page o1 o3.
Proof. destruct o1, o2, o3; cbn; try done. intros [-> ->] [-> ->]. done. Qed.

Section clone.
Variable bd : Z.

(** ** One entry *)

Lemma shared_entry e : 0 <= e < 2 ^ 32 -> is_frame (i686_get_frame e) -> flag e PAGE_PRESENT = true -> flag e PAGE_USER = true ->
  let e' := Z.lor (i686_get_frame e) (shared_flags (e mod PAGE_SIZE)) in
  0 <= e' < 2 ^ 32 /\ i686_get_frame e' = i686_get_frame e /\ flag e' PAGE_PRESENT = true /\ flag e' PAGE_USER = true /\
  flag e' PAGE_WRITE = false /\ may_write e' = may_write e /\ (flag e PAGE_WRITE = false -> e' = e).
Proof.
  intros He Hf Hp Hu e'. destruct (shared_flags_ok e) as (K1 & K2 & K3). destruct (made_entry e _ _ He Hf Hp Hu K1) as (M1 & M2 & M3 & M4 & M5 & M6).
  fold e' in M1, M2, M3, M4, M5, M6. split; [done|]. split_and!; try done.
  - by rewrite M5.
  - unfold may_write in *. rewrite M5, M6, K3. by rewrite <- !flag_mod.
  - intros Hw. unfold e', shared_flags. rewrite <- flag_mod, Hw by done. destruct (mask_split e He) as [E _].
    rewrite lor_flags; [lia|apply Hf|apply flags_range].
Qed.

(** The parent's entry loses its write permission. *)
Lemma share_parent h g d v t e : hinv bd h g -> own g !! d = Some RDir -> pages g !! (d, v) = Some e -> tables g !! (d, v / 1024) = Some t ->
  let e' := Z.lor (i686_get_frame e) (shared_flags (e mod PAGE_SIZE)) in
  hinv bd (if flag e PAGE_WRITE then set_pte h t (v mod 1024) e' else h) (set_page g (d, v) (Some e')).
Proof.
  intros Hh Hd Hp Ht e'. pose proof Hh as [Ha Hl Hr Hb]. pose proof (pages_range _ _ _ _ _ Hl Hp) as Her. pose proof (ac_refs _ _ Ha _ _ (or_introl Hp)) as Hof.
  destruct (pages_table _ _ _ _ _ _ Hl Hp) as (_ & _ & _ & _ & _ & Hpr).
  destruct (shared_entry e Her (ly_frames _ _ _ Hl _ _ Hof) Hpr (rt_user _ Hr _ _ Hp)) as (S1 & S2 & S3 & S4 & S5 & S6 & S7). fold e' in S1, S2, S3, S4, S5, S6, S7.
  destruct (flag e PAGE_WRITE) eqn:Hw.
  - apply (hinv_reflag bd h g d v t e); try done. congruence.
  - rewrite S7 by done. replace (set_page g (d, v) (Some e)) with g; [done|]. destruct g as [o tb pg l k]. unfold set_page, with_pages. cbn in *. f_equal.
    symmetry. exact (insert_id pg (d, v) e Hp).
Qed.

(** The child's entry, and one more reference to the frame. *)
Lemma share_child h g d d' v t t' e : hinv bd h g -> lrefs g = ∅ -> pages g !! (d, v) = Some e -> flag e PAGE_WRITE = false -> tables g !! (d', v / 1024) = Some t' ->
  own g !! d' = Some RLimbo -> pages g !! (d', v) = None -> tables g !! (d, v / 1024) = Some t -> uses g (i686_get_frame e) < 65535 ->
  exists r p', pmm_frame_ref_inc (pm (set_pte h t' (v mod 1024) e)) (i686_get_frame e) = Some (r, p') /\
    hinv bd (set_pm (set_pte h t' (v mod 1024) e) p') (set_page g (d', v) (Some e)) /\
    protected_frames p' = protected_frames (pm h) /\ pmem p' = put_word (pmem (pm h)) t' (v mod 1024) e.
Proof.
  intros Hh Hlr Hp Hw Ht' Hd' Hp' Ht Hu. pose proof Hh as [Ha Hl Hr Hb]. pose proof (ac_refs _ _ Ha _ _ (or_introl Hp)) as Hof.
  destruct (pages_table _ _ _ _ _ _ Hl Hp) as (Hv & _ & _ & _ & _ & Hpr). destruct (user_page v Hv) as [Hi Hj]. pose proof (pages_range _ _ _ _ _ Hl Hp) as Her.
  destruct (share_page (pm (set_pte h t' (v mod 1024) e)) g (d', v) e (acct_pmem _ _ _ Ha) Hof Hp' Hu) as (r & p' & E & Ha' & Ep & Em).
  exists r, p'. split; [done|]. split; [|done]. split; cbn [pm set_pm]; [done| | |done].
  - rewrite Em. rewrite <- (page_join v) at 2. apply set_page_layout; try done. intros e0 _ Hdir. congruence.
  - apply rights_set; [done|by eapply rt_user|]. intros [d1 v1] e1 Hne Hk Hf. split_and!; [done| |by eapply (rt_same _ Hr d v e d1 v1 e1)].
    destruct (flag e1 PAGE_WRITE) eqn:Ew; [|done]. pose proof (rt_alone _ Hr _ _ _ _ Hk Ew Hp (eq_sym Hf)) as E1. injection E1 as <- <-. congruence.
Qed.

(** ** One table *)

Record table_cloned (d d' i j : Z) (h : mmu) (g : spaces) (h' : mmu) (g' : spaces) : Prop := TableCloned {
  tc_inv : hinv bd h' g';
  tc_lrefs : lrefs g' = ∅;
  tc_kern : kern g' = kern g;
  tc_own : own g' = own g;
  tc_tables : tables g' = tables g;
  tc_same : forall k, k.1 <> d' -> same_page (pages g !! k) (pages g' !! k);
  tc_other : forall k, k.1 <> d' -> k.1 <> d -> pages g' !! k = pages g !! k;
  tc_child : forall j', j <= j' < 1024 -> pages g' !! (d', 1024 * i + j') = pages g' !! (d, 1024 * i + j');
  tc_rest : forall d1 v, v / 1024 <> i \/ v mod 1024 < j -> pages g' !! (d1, v) = pages g !! (d1, v);
  tc_mem : forall f r, own g !! f = Some r -> r <> RTable -> same_frame (pmem (pm h)) (pmem (pm h')) f;
  tc_cr3 : cr3 h' = cr3 h;
  tc_tlb : tlb h' = tlb h;
  tc_prot : protected_frames (pm h') = protected_frames (pm h)
}.

(** A step at entry [j] and the rest of the table. *)
Lemma table_cloned_step d d' i j h g h1 g1 h' g' : d <> d' -> 0 <= i -> 0 <= j < 1024 ->
  kern g1 = kern g -> own g1 = own g -> tables g1 = tables g ->
  same_page (pages g !! (d, 1024 * i + j)) (pages g1 !! (d, 1024 * i + j)) -> pages g1 !! (d', 1024 * i + j) = pages g1 !! (d, 1024 * i + j) ->
  (forall d1 v, v <> 1024 * i + j -> pages g1 !! (d1, v) = pages g !! (d1, v)) ->
  (forall d1 v, d1 <> d -> d1 <> d' -> pages g1 !! (d1, v) = pages g !! (d1, v)) ->
  (forall f r, own g !! f = Some r -> r <> RTable -> same_frame (pmem (pm h)) (pmem (pm h1)) f) ->
  cr3 h1 = cr3 h -> tlb h1 = tlb h -> protected_frames (pm h1) = protected_frames (pm h) ->
  table_cloned d d' i (j + 1) h1 g1 h' g' -> table_cloned d d' i j h g h' g'.
Proof.
  intros Hdd Hi Hj Hk Ho Ht Hs1 Hc1 Hr1 Hx1 Hm1 Hcr Htl Hpr [T1 T2 T3 T4 T5 T6 T7 T8 T9 T10 T11 T12 T13].
  destruct (page_split i j Hi Hj) as [Pi Pj]. split; try done.
  - by rewrite T3.
  - by rewrite T4.
  - by rewrite T5.
  - intros [d1 v] Hd1. eapply same_page_trans; [|by apply T6]. destruct (decide (v = 1024 * i + j)) as [->|Hne]; [|rewrite Hr1 by done; apply same_page_refl].
    cbn in Hd1. destruct (decide (d1 = d)) as [->|]; [done|]. rewrite Hx1 by done. apply same_page_refl.
  - intros [d1 v] H1 H2. rewrite T7 by done. by apply Hx1.
  - intros j' Hj'. destruct (decide (j' = j)) as [->|Hne]; [|apply T8; lia].
    rewrite !T9 by (right; lia). done.
  - intros d1 v Hv. rewrite T9 by (destruct Hv; [by left|right; lia]). apply Hr1. intros ->. rewrite Pi, Pj in Hv. lia.
  - intros f r Hf Hr. eapply same_frame_trans; [by eapply Hm1|]. eapply T10; [by rewrite Ho|done].
  - by rewrite T11.
  - by rewrite T12.
  - by rewrite T13.
Qed.

Lemma clone_table_ok d d' i t t' (D : gset Z) n : forall h g j, hinv bd h g -> lrefs g = ∅ -> own g !! d = Some RDir -> own g !! d' = Some RLimbo ->
  tables g !! (d, i) = Some t -> tables g !! (d', i) = Some t' -> 0 <= j -> j + Z.of_nat n = 1024 ->
  (forall j', j <= j' < 1024 -> pages g !! (d', 1024 * i + j') = None) ->
  (forall d1 v e, pages g !! (d1, v) = Some e -> d1 ∈ D) -> d' ∈ D -> Z.of_nat (size D) < 65535 ->
  exists h' g', clone_table n h t t' j = Some h' /\ table_cloned d d' i j h g h' g'.
Proof.
  induction n as [|n IH]; intros h g j Hh Hlr Hd Hd' Ht Ht' Hj Hn Hnone HD Hd'D Hsz; cbn [clone_table].
  { exists h, g. split; [done|]. split; try done. intros k _. apply same_page_refl. intros j' Hj'. lia. }
  pose proof Hh as [Ha Hl Hr Hb]. destruct (ly_table _ _ _ Hl _ _ _ Ht) as (_ & Hto & Hi). destruct (ly_table _ _ _ Hl _ _ _ Ht') as (_ & Hto' & _).
  assert (Hdd : d <> d') by congruence. set (v := 1024 * i + j) in *. destruct (page_split i j ltac:(lia) ltac:(lia)) as [Pi Pj]. fold v in Pi, Pj.
  change (pte_of h t j) with (word (pmem (pm h)) t j). pose proof (ly_page _ _ _ Hl d i t j Ht ltac:(lia)) as He. fold v in He. pose proof (Hnone j ltac:(lia)) as Hnv. fold v in Hnv.
  assert (Hwr : forall tt m w, layout bd m g -> own g !! tt = Some RTable -> forall f r, own g !! f = Some r -> r <> RTable -> same_frame m (put_word m tt j w) f).
  { intros tt m w Hlm Htt f r Hf Hrr. eapply table_write; [exact Hlm|done|lia|done|done]. }
  unfold i686_is_present. destruct (pages g !! (d, v)) as [e|] eqn:Hp.
  - destruct He as [-> Hpr]. rewrite Hpr. cbv zeta. pose proof (pages_range _ _ _ _ _ Hl Hp) as Her. rewrite (proj2 (mask_split e Her)).
    pose proof (ac_refs _ _ Ha _ _ (or_introl Hp)) as Hof.
    pose proof (shared_entry e Her (ly_frames _ _ _ Hl _ _ Hof) Hpr (rt_user _ Hr _ _ Hp)) as (S1 & S2 & S3 & S4 & S5 & S6 & S7).
    pose proof (share_parent h g d v t e Hh Hd Hp ltac:(by rewrite Pi)) as Hh1. rewrite Pj in Hh1. set (e' := Z.lor (i686_get_frame e) (shared_flags (e mod PAGE_SIZE))) in *.
    set (h1 := if flag e PAGE_WRITE then set_pte h t j e' else h) in *. set (g1 := set_page g (d, v) (Some e')) in *.
    assert (Hrew : (if flag (e mod PAGE_SIZE) PAGE_WRITE then (Z.lor (clear_bits (e mod PAGE_SIZE) PAGE_WRITE) PAGE_COW, set_pte h t j (Z.lor (i686_get_frame e) (Z.lor (clear_bits (e mod PAGE_SIZE) PAGE_WRITE) PAGE_COW)))
      else (e mod PAGE_SIZE, h)) = (shared_flags (e mod PAGE_SIZE), h1)).
    { unfold h1, e', shared_flags. rewrite <- flag_mod by done. by destruct (flag e PAGE_WRITE). }
    rewrite Hrew. fold e'. clear Hrew.
    assert (Hp1 : pages g1 !! (d, v) = Some e') by (unfold g1; by rewrite set_page_lookup, decide_True).
    assert (Hu : uses g1 (i686_get_frame e') < 65535).
    { unfold uses. change (lrefs g1) with (lrefs g). rewrite Hlr, uses_empty. pose proof (uses_bound g1 (i686_get_frame e') D (hi_rights _ _ _ Hh1)) as Hub.
      assert (Hg1D : forall d1 v1 e1, pages g1 !! (d1, v1) = Some e1 -> d1 ∈ D); [|specialize (Hub Hg1D); lia].
      intros d1 v1 e1. unfold g1. rewrite set_page_lookup. case_decide as Ek; [injection Ek as -> ->; intros _; by eapply HD|apply HD]. }
    destruct (share_child h1 g1 d d' v t t' e' Hh1 Hlr Hp1 S5 ltac:(by rewrite Pi) Hd') as (r & p2 & E2 & Hh2 & Epf & Em); [|by rewrite Pi|done|].
    { unfold g1. rewrite set_page_lookup, decide_False by congruence. done. }
    rewrite Pj in E2, Hh2, Em. rewrite <- S2. rewrite E2. cbn [mbind option_bind]. set (h2 := set_pm (set_pte h1 t' j e') p2) in *. set (g2 := set_page g1 (d', v) (Some e')) in *.
    assert (Hg2 : forall d1 v1, pages g2 !! (d1, v1) = if decide (v1 = v /\ (d1 = d \/ d1 = d')) then Some e' else pages g !! (d1, v1)).
    { intros d1 v1. unfold g2, g1. rewrite !set_page_lookup. repeat case_decide; naive_solver. }
    destruct (IH h2 g2 (j + 1)) as (h' & g' & E & Htc); try done; try lia.
    + intros j' Hj'. rewrite Hg2, decide_False by (unfold v; lia). apply Hnone. lia.
    + intros d1 v1 e1. rewrite Hg2. case_decide as Ek; [|apply HD]. intros _. destruct Ek as [_ [->| ->]]; [by eapply HD|done].
    + exists h', g'. split; [done|]. apply (table_cloned_step d d' i j h g h2 g2); try done; try lia; fold v.
      * rewrite Hp, Hg2, decide_True by auto. done.
      * rewrite !Hg2, !decide_True by auto. done.
      * intros d1 v1 Hv1. by rewrite Hg2, decide_False by naive_solver.
      * intros d1 v1 H1 H2. by rewrite Hg2, decide_False by naive_solver.
      * intros f rr Hf Hrr. cbn [h2 set_pm pm]. rewrite Em. eapply same_frame_trans with (m1 := pmem (pm h1)).
        -- unfold h1. destruct (flag e PAGE_WRITE); [by eapply Hwr|apply same_frame_refl].
        -- eapply table_write; [exact (hi_lay _ _ _ Hh1)|done|lia|done|done].
      * unfold h2, h1. cbn. by destruct (flag e PAGE_WRITE).
      * unfold h2, h1. cbn. by destruct (flag e PAGE_WRITE).
      * cbn. rewrite Epf. unfold h1. by destruct (flag e PAGE_WRITE).
  - cbn in He. rewrite He. cbn [mbind option_bind]. set (h1 := set_pte h t' j 0).
    assert (Hg : set_page g (d', v) None = g).
    { destruct g as [o tb pg l k]. unfold set_page, with_pages. cbn in *. f_equal. exact (delete_id pg (d', v) Hnv). }
    assert (Hh1 : hinv bd h1 g).
    { split; [by apply acct_pmem| |done|done]. rewrite <- Hg. exact (set_page_layout bd _ g d' i t' j 0 None Hl Ht' ltac:(lia) ltac:(lia) eq_refl ltac:(done)). }
    destruct (IH h1 g (j + 1)) as (h' & g' & E & Htc); try done; try lia; [intros j' Hj'; apply Hnone; lia|].
    exists h', g'. split; [done|]. apply (table_cloned_step d d' i j h g h1 g); try done; try lia; fold v.
    + apply same_page_refl.
    + by rewrite Hnv, Hp.
    + intros f r Hf Hrr. by eapply Hwr.
Qed.

Lemma clone_table_info n : forall h t t' j h', clone_table n h t t' j = Some h' -> frees (pm h') = frees (pm h).
Proof.
  induction n as [|n IH]; intros h t t' j h'; cbn [clone_table]; [by intros [= <-]|]. case_if.
  - set (x := if flag _ PAGE_WRITE then _ else _). assert (Hx : frees (pm x.2) = frees (pm h)) by (unfold x; by case_if). destruct x as [fl h1]. cbn [snd] in Hx.
    destruct (pmm_frame_ref_inc _ _) as [[r p]|] eqn:Er; cbn [mbind option_bind]; [|done]. intros E. apply IH in E. apply ref_inc_info in Er. rewrite E. cbn [pm set_pm]. by rewrite Er.
  - rewrite opt_bind. intros E. by apply IH in E.
Qed.

(** ** All tables *)

(** The child has the parent's tables up to [i]. *)
Record child_at (d d' i : Z) (m : mem) (g : spaces) : Prop := ChildAt {
  ca_pde : forall i', 0 <= i' < i -> pde_ok g d' i' (word m d' i');
  ca_zero : forall i', i <= i' < 512 -> word m d' i' = 0 /\ tables g !! (d', i') = None;
  ca_pages : forall v, 0 <= v < 2 ^ 19 -> v / 1024 < i -> pages g !! (d', v) = pages g !! (d, v)
}.

Record cloned (d d' : Z) (h : mmu) (g : spaces) (h' : mmu) (g' : spaces) : Prop := Cloned {
  cl_inv : hinv bd h' g';
  cl_lrefs : lrefs g' = ∅;
  cl_kern : kern g' = kern g;
  cl_own : forall f, own g' !! f = own g !! f \/ own g !! f = None /\ own g' !! f = Some RTable;
  cl_same : forall k, k.1 <> d' -> same_page (pages g !! k) (pages g' !! k);
  cl_other : forall k, k.1 <> d' -> k.1 <> d -> pages g' !! k = pages g !! k;
  cl_mem : forall f r, own g !! f = Some r -> r <> RTable -> f <> d' -> same_frame (pmem (pm h)) (pmem (pm h')) f;
  cl_word : forall j, 512 <= j < 1024 -> word (pmem (pm h')) d' j = word (pmem (pm h)) d' j;
  cl_cr3 : cr3 h' = cr3 h;
  cl_tlb : tlb h' = tlb h;
  cl_prot : forall f, own g' !! f = own g !! f -> protections (pm h') f = protections (pm h) f
}.

Lemma cloned_refl d d' h g : hinv bd h g -> lrefs g = ∅ -> cloned d d' h g h g.
Proof. intros Hh Hl. split; try done; [by left|]. intros k _. apply same_page_refl. Qed.

Lemma cloned_trans d d' h1 g1 h2 g2 h3 g3 : cloned d d' h1 g1 h2 g2 -> cloned d d' h2 g2 h3 g3 -> cloned d d' h1 g1 h3 g3.
Proof.
  intros [A1 A2 A3 A4 A5 A6 A7 A8 A9 A10 A11] [B1 B2 B3 B4 B5 B6 B7 B8 B9 B10 B11]. split; try done.
  - by rewrite B3.
  - intros f. destruct (B4 f) as [->|[E ->]]; [apply A4|]. destruct (A4 f) as [E'|[_ E']]; [right; split; [congruence|done]|congruence].
  - intros k Hk. eapply same_page_trans; [by apply A5|by apply B5].
  - intros k H1 H2. by rewrite B6, A6.
  - intros f r Hf Hr Hd. eapply same_frame_trans; [by eapply A7|]. eapply B7; [|exact Hr|done]. destruct (A4 f) as [->|[? _]]; [done|congruence].
  - intros j Hj. by rewrite B8, A8.
  - by rewrite B9.
  - by rewrite B10.
  - intros f Hf. assert (E : own g2 !! f = own g1 !! f).
    { destruct (A4 f) as [|[E1 E2]]; [done|]. destruct (B4 f) as [E3|[E3 _]]; congruence. }
    rewrite B11 by congruence. by apply A11.
Qed.

Lemma link_limbo h g d i t : hinv bd h g -> own g !! d = Some RLimbo -> own g !! t = Some RLimbo -> t <> d -> (forall i', tables g !! (t, i') = None) ->
  0 <= i < 512 -> tables g !! (d, i) = None -> (forall j, 0 <= j < 1024 -> word (pmem (pm h)) t j = 0) -> hinv bd h (link g d i t).
Proof.
  intros [Ha Hl Hr Hb] Hd Ht Hne Hnt Hi Hn Hz. split; [by apply acct_link| |by apply (rights_sub g)|done].
  apply (link_layout bd (pmem (pm h))); try done; [by right|intros j Hj; by rewrite Hz|intros Hx; congruence].
Qed.

(** A table of the child: allocated, filled, linked and protected. *)
Lemma clone_one d d' i t (D : gset Z) h g tn p1 : hinv bd h g -> lrefs g = ∅ -> own g !! d = Some RDir -> own g !! d' = Some RLimbo ->
  0 <= i < 512 -> tables g !! (d, i) = Some t -> child_at d d' i (pmem (pm h)) g -> (forall d1 v e, pages g !! (d1, v) = Some e -> d1 ∈ D) -> d' ∈ D ->
  Z.of_nat (size D) < 65535 -> fresh bd h g tn p1 -> protected_frames p1 = protected_frames (pm h) ->
  exists h3 g3 p5, clone_table 1024 (set_pm h p1) t tn 0 = Some h3 /\
    let w := Z.lor (u32 tn) (Z.land (pte_of h3 d i) 0xFFF) in
    protect_phys_frame (pm (set_pte h3 d' i w)) tn = Some p5 /\
    cloned d d' h g (set_pm (set_pte h3 d' i w) p5) g3 /\ child_at d d' (i + 1) (pmem p5) g3 /\ frees p5 = frees p1.
Proof.
  intros Hh Hlr Hd Hd' Hi Ht [C1 C2 C3] HD Hd'D Hsz (F1 & F2 & F3 & Fb & F4 & F5 & F6 & F7 & F8 & F9) Hpf.
  assert (Hdd : d <> d') by congruence. assert (Hntd : tn <> d' /\ tn <> d) by (split; congruence). destruct Hntd as [Hnd' Hnd].
  destruct (C2 i ltac:(lia)) as [Hz Hnt]. pose proof (hi_lay _ _ _ Hh) as Hl.
  assert (Hh2 : hinv bd (set_pm h p1) (link (add_own g tn RLimbo) d' i tn)).
  { apply link_limbo; try done; [by cbn; rewrite lookup_insert_ne|by cbn; rewrite lookup_insert_eq|]. intros j Hj. by eapply filled_word_zero. }
  set (h1 := set_pm h p1) in *. set (g2 := link (add_own g tn RLimbo) d' i tn) in *.
  assert (Ho2 : forall f, f <> tn -> own g2 !! f = own g !! f) by (intros f Hf; cbn; by rewrite !lookup_insert_ne).
  assert (Hot : own g2 !! tn = Some RTable) by (cbn; apply lookup_insert_eq).
  assert (Hnone : forall v, v / 1024 = i -> pages g !! (d', v) = None).
  { intros v Hv. destruct (pages g !! (d', v)) as [e|] eqn:E; [|done]. destruct (ly_in _ _ _ Hl _ _ _ E) as [_ [t1 Ht1]]. rewrite Hv in Ht1. congruence. }
  destruct (clone_table_ok d d' i t tn D 1024 h1 g2 0 Hh2 Hlr) as (h3 & g3 & E3 & [T1 T2 T3 T4 T5 T6 T7 T8 T9 T10 T11 T12 T13]); try done; try lia.
  { by rewrite Ho2. } { by rewrite Ho2. } { cbn. rewrite lookup_insert_ne; [done|congruence]. } { cbn. apply lookup_insert_eq. }
  { intros j' Hj'. apply Hnone. apply page_split; lia. }
  assert (Hd3 : own g3 !! d = Some RDir) by (by rewrite T4, Ho2). assert (Hd'3 : own g3 !! d' = Some RLimbo) by (by rewrite T4, Ho2).
  set (w := Z.lor (u32 tn) (Z.land (pte_of h3 d i) 0xFFF)) in *. destruct (limbo_word bd h3 g3 d' i w T1 Hd'3 ltac:(lia)) as [H4 K4]. set (h4 := set_pte h3 d' i w) in *.
  assert (Hp4 : protections (pm h4) tn = 0) by (unfold protections in *; cbn; by rewrite T13).
  destruct (protect_owned (pm h4) g3 tn RTable (hi_acct _ _ _ H4) ltac:(by rewrite T4) ltac:(done) Hp4) as (p5 & E5 & Ha5 & Em5 & Hp5 & Ho5).
  exists h3, g3, p5. split; [done|]. split; [unfold protect_phys_frame; by rewrite frame_not_special|].
  assert (Hmem : forall f r, own g !! f = Some r -> r <> RTable -> f <> d' -> same_frame (pmem (pm h)) (pmem p5) f).
  { intros f r Hf Hr Hne. assert (f <> tn) by congruence. pose proof (ly_frames _ _ _ Hl _ _ Hf) as Hff. eapply same_frame_trans; [by apply F9|].
    eapply same_frame_trans; [eapply (T10 f r); [by rewrite Ho2|done]|]. rewrite Em5. by apply K4. }
  assert (Hw3 : forall j, 0 <= j < 1024 -> word (pmem (pm h3)) d' j = word (pmem (pm h)) d' j).
  { intros j Hj. apply word_same; [|done]. eapply same_frame_trans; [apply F9; [exact (ly_frames _ _ _ Hl _ _ Hd')|congruence]|]. eapply (T10 d' RLimbo); [by rewrite Ho2|done]. }
  assert (Hwr : 0 <= w < 2 ^ 32 /\ i686_get_frame w = tn /\ forall k, 0 <= k < PAGE_SIZE -> flag w k = flag (word (pmem (pm h3)) d i) k).
  { unfold w. rewrite u32_small by (destruct F2; lia). change (pte_of h3 d i) with (word (pmem (pm h3)) d i). rewrite (proj2 (mask_split _ (word_range _ _ _))).
    destruct (entry_made tn _ (proj1 F2) ltac:(destruct F2; lia) (flags_range (word (pmem (pm h3)) d i))) as (W1 & W2 & _). split_and!; try done; try lia.
    intros k Hk. rewrite flag_made by (done || apply F2 || apply flags_range || destruct F2; lia). symmetry. by apply flag_mod. }
  destruct Hwr as (W1 & W2 & W3).
  assert (Hw5 : forall j, 0 <= j < 1024 -> word (pmem p5) d' j = if i =? j then w else word (pmem (pm h)) d' j).
  { intros j Hj. rewrite Em5. change (pmem (pm h4)) with (put_word (pmem (pm h3)) d' i w). rewrite put_word_word by lia. case_if; [done|by apply Hw3]. }
  split; [|split].
  - split; cbn [set_pm pm cr3 tlb]; try done.
    + by apply hinv_pm.
    + intros f. rewrite T4. destruct (decide (f = tn)) as [->|]; [right; by rewrite F4|left; by apply Ho2].
    + intros j Hj. rewrite Hw5 by lia. by rewrite (proj2 (Z.eqb_neq i j)) by lia.
    + intros f Hf. destruct (decide (f = tn)) as [->|Hne]; [rewrite T4, Hot, F4 in Hf; done|]. rewrite Ho5 by done. unfold protections. cbn. rewrite T13. cbn. by rewrite Hpf.
  - assert (Htab : forall i', i' <> i -> tables g3 !! (d', i') = tables g !! (d', i')) by (intros i' Hne; rewrite T5; cbn; rewrite lookup_insert_ne; congruence).
    assert (Hti : tables g3 !! (d', i) = Some tn) by (rewrite T5; cbn; apply lookup_insert_eq). split.
    + intros i' Hi'. rewrite Hw5 by lia. destruct (Z.eqb_spec i i') as [<-|Hne].
      * unfold pde_ok. rewrite Hti, !W3 by done. pose proof (ly_dir _ _ _ (hi_lay _ _ _ T1) d i Hd3 Hi) as Hpd. unfold pde_ok in Hpd.
        replace (tables g3 !! (d, i)) with (Some t) in Hpd by (rewrite T5; cbn; rewrite lookup_insert_ne; [done|congruence]). destruct Hpd as (Q1 & Q2 & _ & Q4).
        split_and!; try done. intros j e Hj He Hu. rewrite W3 by done. rewrite T8 in He by lia. by eapply Q4.
      * pose proof (C1 i' ltac:(lia)) as Hpd. unfold pde_ok in *. rewrite Htab by done. destruct (tables g !! (d', i')) as [t1|]; [|done].
        destruct Hpd as (Q1 & Q2 & Q3 & Q4). split_and!; try done. intros j e Hj He. rewrite T9 in He by (left; rewrite (proj1 (page_split i' j ltac:(lia) Hj)); done). by eapply Q4.
    + intros i' Hi'. rewrite Hw5 by lia. rewrite (proj2 (Z.eqb_neq i i')), Htab by lia. apply C2. lia.
    + intros v Hv Hvi. destruct (decide (v / 1024 = i)) as [Hq|Hq].
      * destruct (user_page v Hv) as [_ Hj]. rewrite <- (page_join v), Hq. apply T8. lia.
      * rewrite !T9 by (by left). apply C3; [done|lia].
  - assert (Hof : exists r, own g3 !! tn = Some r) by (exists RTable; by rewrite T4). rewrite (protect_info _ _ _ _ (hi_acct _ _ _ H4) (or_introl Hof) ltac:(lia) E5). by apply clone_table_info in E3.
Qed.

Lemma clone_user_tables_ok d d' (D : gset Z) n : forall h g i last, hinv bd h g -> lrefs g = ∅ -> own g !! d = Some RDir -> own g !! d' = Some RLimbo ->
  0 <= i -> i + Z.of_nat n = 512 -> child_at d d' i (pmem (pm h)) g -> (forall d1 v e, pages g !! (d1, v) = Some e -> d1 ∈ D) -> d' ∈ D ->
  Z.of_nat (size D) < 65535 ->
  exists r last' h' g' i', clone_user_tables n h d d' i last = Some (r, last', h') /\ cloned d d' h g h' g' /\
    child_at d d' i' (pmem (pm h')) g' /\ 0 <= i' <= 512 /\ (r = false -> i' = 512) /\ (0 < last -> 0 < last') /\
    (last' <= 0 -> forall k, k.1 <> d' -> pages g' !! k = pages g !! k) /\ (r = true -> frees (pm h) < Z.of_nat n).
Proof.
  induction n as [|n IH]; intros h g i last Hh Hlr Hd Hd' Hi Hn Hca HD Hd'D Hsz; cbn [clone_user_tables].
  { exists false, last, h, g, i. split; [done|]. split; [by apply cloned_refl|]. split_and!; (done || lia). }
  pose proof (hi_lay _ _ _ Hh) as Hl. change (pte_of h d i) with (word (pmem (pm h)) d i). pose proof (ly_dir _ _ _ Hl d i Hd ltac:(lia)) as Hpde. unfold pde_ok in Hpde.
  unfold i686_is_present. destruct (tables g !! (d, i)) as [t|] eqn:Ht.
  - destruct Hpde as (P1 & P2 & P3 & P4). rewrite P1, P3. destruct (ly_table _ _ _ Hl _ _ _ Ht) as (_ & Hto & _).
    destruct (own_frame _ _ _ _ (hi_acct _ _ _ Hh) Hto) as [[_ Htf] Ht0]. rewrite (proj2 (Z.leb_gt 0x80000000 t)), (proj2 (Z.eqb_neq t 0)) by lia. cbn [orb].
    destruct (hinv_alloc bd h g Hh) as (tn & p1 & Ea & Epf & [(-> & Hno & Hh' & Em)|Hfr]); rewrite Ea; cbn [mbind option_bind]; destruct (alloc_free _ _ _ _ (hi_acct _ _ _ Hh) Ea) as [Hfull Hfree].
    + specialize (Hfull eq_refl). exists true, last, (set_pm h p1), g, i. split; [done|]. cbn [pm set_pm]. rewrite Em. split_and!; try done; try lia.
      split; try done; [by left|intros k _; apply same_page_refl| | |]; cbn [set_pm pm]; rewrite ?Em; try done.
      intros f _. unfold protections. by rewrite Epf.
    + pose proof Hfr as (F1 & _). rewrite (proj2 (Z.eqb_neq tn _)) by done.
      destruct (clone_one d d' i t D h g tn p1 Hh Hlr Hd Hd' ltac:(lia) Ht Hca HD Hd'D Hsz Hfr Epf) as (h3 & g3 & p5 & E3 & E5 & Hcl & Hca' & Hf5).
      rewrite E3. cbn [mbind option_bind]. set (w := Z.lor (u32 tn) _) in *. rewrite E5. cbn [mbind option_bind]. set (h5 := set_pm (set_pte h3 d' i w) p5) in *.
      assert (Hcl' := Hcl). destruct Hcl' as [L1 L2 L3 L4 L5 L6 L7 L8 L9 L10 L11].
      assert (Hst : forall f r, own g !! f = Some r -> own g3 !! f = Some r) by (intros f r Hf; destruct (L4 f) as [->|[? _]]; congruence).
      assert (HD3 : forall d1 v e, pages g3 !! (d1, v) = Some e -> d1 ∈ D).
      { intros d1 v e He. destruct (decide (d1 = d')) as [->|Hne]; [done|]. pose proof (L5 (d1, v) Hne) as Hsp. rewrite He in Hsp.
        destruct (pages g !! (d1, v)) as [e0|] eqn:E0; [by eapply HD|done]. }
      destruct (IH h5 g3 (i + 1) (i + 1) L1 L2) as (r & last' & h' & g' & i' & E & Hc2 & Hca2 & Hi' & Hr & Hlast & _ & Hfr2); auto; try lia.
      exists r, last', h', g', i'. split; [done|]. split; [by eapply cloned_trans|]. specialize (Hfree F1). split_and!; try done; try lia.
      intros Hrt. specialize (Hfr2 Hrt). cbn [h5 pm set_pm] in Hfr2. lia.
  - rewrite Hpde. destruct Hca as [C1 C2 C3].
    destruct (IH h g (i + 1) last) as (r & last' & h' & g' & i' & E & Hc2 & Hca2 & Hi' & Hr & Hlast & Hl2 & Hfr2); try done; try lia; [|exists r, last', h', g', i'; split_and!; try done; try lia; intros Hrt; specialize (Hfr2 Hrt); lia].
    destruct (C2 i ltac:(lia)) as [Hz Hnt]. split.
    + intros i' Hi'. destruct (decide (i' = i)) as [->|]; [|apply C1; lia]. unfold pde_ok. by rewrite Hnt, Hz.
    + intros i' Hi'. apply C2. lia.
    + intros v Hv Hvi. destruct (decide (v / 1024 = i)) as [Hq|Hq]; [|apply C3; [done|lia]].
      assert (Hno : forall d1, tables g !! (d1, i) = None -> pages g !! (d1, v) = None).
      { intros d1 Hd1. destruct (pages g !! (d1, v)) as [e|] eqn:E; [|done]. destruct (ly_in _ _ _ Hl _ _ _ E) as [_ [t1 Ht1]]. rewrite Hq in Ht1. congruence. }
      by rewrite !Hno.
Qed.

(** ** Fork *)

(** The child is complete, or its part is a directory all the same. *)
Lemma child_dir d d' i h g : hinv bd h g -> own g !! d' = Some RLimbo -> child_at d d' i (pmem (pm h)) g -> 0 <= i <= 512 ->
  (forall j, 512 <= j < 1024 -> kernel_ok g (word (pmem (pm h)) d' j)) -> hinv bd h (add_own g d' RDir).
Proof.
  intros Hh Hd' [C1 C2 C3] Hi Hk. apply dir_done; try done. intros i' Hi'. destruct (decide (i' < i)) as [|]; [apply C1; lia|].
  destruct (C2 i' ltac:(lia)) as [Hz Hn]. unfold pde_ok. by rewrite Hn, Hz.
Qed.

Variable B : Z.
Hypothesis HB : kva bd = B.

Lemma boot_frame : is_frame bd -> VIRT_TO_PHYS I686 B = bd.
Proof.
  intros Hf. rewrite <- HB, kva_frame by done. destruct Hf as [_ Hr]. unfold VIRT_TO_PHYS, uptr. change (ptr_bits I686) with 32. change (KERNEL_VIRTUAL_BASE I686) with (2 ^ 31).
  rewrite (Z.mod_small (bd + 2 ^ 31)), Z.mod_small by lia. lia.
Qed.

Lemma cloned_shows d d' h g h' g' A : cloned d d' h g h' g' -> own g !! d' = Some RLimbo -> acct (pm h) g -> shows (pmem (pm h)) g A -> shows (pmem (pm h')) g' A.
Proof.
  intros [L1 L2 L3 L4 L5 L6 L7 L8 L9 L10 L11] Hd' Ha Hs. apply (shows_ext (pmem (pm h)) _ g); [done|..].
  - intros f. destruct (L4 f) as [->|[-> ->]]; [done|]. split; congruence.
  - intros f v Hf. assert (Hne : f <> d') by congruence. pose proof (L5 (f, v) Hne) as Hsp.
    destruct (pages g !! (f, v)) as [e|] eqn:E, (pages g' !! (f, v)) as [e'|]; cbn in Hsp; try done. destruct Hsp as [S1 S2]. cbn. f_equal.
    apply apage_same; [done|done|]. pose proof (ac_refs _ _ Ha _ _ (or_introl E)) as Hof. apply (L7 _ RData); [done|done|congruence].
Qed.

(** The pages of one directory. *)
Lemma dir_view (m : mem) (pg : gmap (Z * Z) Z) (d : Z) : exists F : gmap Z apage, forall v, F !! v = apage_of m <$> pg !! (d, v).
Proof.
  set (c := map_curry (M1 := gmap Z) (M2 := gmap Z) pg). exists (apage_of m <$> default ∅ (c !! d)). intros v. rewrite lookup_fmap. f_equal.
  rewrite <- (lookup_map_curry (M1 := gmap Z) (M2 := gmap Z) pg d v). fold c. destruct (c !! d); [done|]. cbn. apply lookup_empty.
Qed.

(** The state of the machine when the loop over the tables has ended. *)
Definition flushed (s : vmm) (d last : Z) (h : mmu) : mmu :=
  if (d =? current_dir_phys s) && (0 <? last) then vmm_flush_tlb h 0 else h.

Lemma flushed_inv s d last h g : hinv bd h g -> hinv bd (flushed s d last h) g /\ cr3 (flushed s d last h) = cr3 h /\ pm (flushed s d last h) = pm h.
Proof. intros [H1 H2 H3 H4]. unfold flushed. by case_if. Qed.

Lemma flushed_tlb s g d d' h3 g1 last h g2 g3 : vinv bd s g -> cloned d d' h3 g1 h g2 -> pages g1 = pages g -> cr3 h3 = cr3 (hw s) -> tlb h3 = tlb (hw s) -> own g !! d' = None -> d' <> bd ->
  (last <= 0 -> forall k, k.1 <> d' -> pages g2 !! k = pages g1 !! k) -> pages g3 = pages g2 ->
  (own g3 !! cr3 (hw s) = Some RDir -> own g !! cr3 (hw s) = Some RDir) -> tlb_ok (flushed s d last h) g3.
Proof.
  intros Hv Hcl Hp1 Hc Ht Hd' Hbd Hlast Hp3 Ho. unfold flushed. destruct ((d =? current_dir_phys s) && (0 <? last)) eqn:Ef.
  - intros v e Hve. unfold vmm_flush_tlb in Hve. cbn in Hve. by rewrite lookup_empty in Hve.
  - apply (tlb_same (hw s) g); [apply Hv|by rewrite (cl_cr3 _ _ _ _ _ _ Hcl)|by rewrite (cl_tlb _ _ _ _ _ _ Hcl)|done|]. intros v. rewrite Hp3, <- Hp1.
    assert (Hne : cr3 (hw s) <> d') by (destruct (vi_cur _ _ _ Hv); congruence). rewrite <- (vi_current _ _ _ Hv) in Ef.
    destruct (decide (cr3 (hw s) = d)) as [E|Hnd]; [|by apply (cl_other _ _ _ _ _ _ Hcl)]. rewrite E, Z.eqb_refl in Ef. cbn in Ef. zify_bool. apply Hlast; [lia|]. cbn. congruence.
Qed.

(** The new directory as the loop leaves it, with the pages [Fc]. *)
Record grown (s : vmm) (g : spaces) (A : aspaces) (d' : Z) (Fc : gmap Z apage) (h : mmu) (g' : spaces) : Prop := Grown {
  gw_inv : hinv bd h g';
  gw_lrefs : lrefs g' = ∅;
  gw_limbo : forall f, own g' !! f <> Some RLimbo;
  gw_cr3 : cr3 h = cr3 (hw s);
  gw_tlb : tlb_ok h g';
  gw_kern : kern g' = kern g;
  gw_dir : forall f, own g' !! f = Some RDir <-> own g !! f = Some RDir \/ f = d';
  gw_prot : forall f, own g !! f = Some RDir -> protections (pm h) f <= protections (pm (hw s)) f;
  gw_bound : forall f, protections (pm h) f <= protections (pm (hw s)) f + 512;
  gw_zero : protections (pm h) d' = 0;
  gw_shows : shows (pmem (pm h)) g' (<[d' := Fc]> A)
}.

Lemma clone_core s g A F d d' h3 : vinv bd s g -> A !! d = Some F -> own g !! d = Some RDir -> new_dir bd (hw s) g A d' h3 ->
  d' <> bd -> Z.of_nat (size A) < 65534 ->
  exists r last h4 g3 Fc, clone_user_tables 512 h3 d d' 0 0 = Some (r, last, h4) /\ grown s g A d' Fc (flushed s d last h4) g3 /\ (r = false -> Fc = F) /\ (r = true -> frees (pm h3) < 512).
Proof.
  intros Hv HF Hd [N1 N2 N3 N4 N5 N6 N7 N8 (Nn & Nf & N0 & Nk & Nt) N10] Hbd Hsz. pose proof (hi_lay _ _ _ (vi_h _ _ _ Hv)) as Hl.
  set (g1 := add_own g d' RLimbo) in *. assert (Hd1 : own g1 !! d' = Some RLimbo) by (cbn; apply lookup_insert_eq). assert (Hdd : d <> d') by congruence.
  assert (Ho1 : forall f, f <> d' -> own g1 !! f = own g !! f) by (intros f Hf; cbn; by rewrite lookup_insert_ne).
  assert (HD : forall d1 v e, pages g1 !! (d1, v) = Some e -> d1 ∈ ({[d']} ∪ dom A : gset Z)).
  { intros d1 v e He. destruct (ly_in _ _ _ Hl _ _ _ He) as [_ [t Ht]]. destruct (ly_table _ _ _ Hl _ _ _ Ht) as ([Hx|Hx] & _); [|by destruct (vi_limbo _ _ _ Hv d1)].
    assert (d1 <> d') by congruence. rewrite <- Ho1 in Hx by done. destruct (shows_dir _ _ _ _ N2 Hx) as (Fx & HFx & _). apply elem_of_union_r, elem_of_dom. by exists Fx. }
  assert (HDs : Z.of_nat (size ({[d']} ∪ dom A : gset Z)) < 65535).
  { pose proof (size_union_alt ({[d']} : gset Z) (dom A)) as E. pose proof (subseteq_size (dom A ∖ {[d']}) (dom A) ltac:(set_solver)) as E2. rewrite size_singleton in E. rewrite size_dom in E2. lia. }
  destruct (clone_user_tables_ok d d' ({[d']} ∪ dom A) 512 h3 g1 0 0 N1 (vi_lrefs _ _ _ Hv)) as (r & last & h4 & g2 & i & E & Hcl & Hca & Hi & Hr & _ & Hlast & Hfree); try done; try lia.
  { by rewrite Ho1. } { split; [lia| |intros v Hv1 Hv2; destruct (user_page v Hv1); lia]. intros i' Hi'. rewrite N3 by lia. by rewrite Nt. } { set_solver. }
  assert (Hcl' := Hcl). destruct Hcl' as [L1 L2 L3 L4 L5 L6 L7 L8 L9 L10 L11].
  assert (Hd2 : own g2 !! d' = Some RLimbo) by (destruct (L4 d') as [->|[? _]]; congruence).
  assert (H3 : hinv bd h4 (add_own g2 d' RDir)).
  { apply (child_dir d d' i); try done. intros j Hj. rewrite L8 by done. unfold kernel_ok. rewrite L3. by apply N4. }
  set (g3 := add_own g2 d' RDir) in *. destruct (flushed_inv s d last h4 g3 H3) as (H5 & Hc5 & Hpm5).
  pose proof (cloned_shows d d' h3 g1 h4 g2 A Hcl Hd1 (hi_acct _ _ _ N1) N2) as Hs2. destruct (dir_view (pmem (pm h4)) (pages g2) d') as [Fc HFc].
  assert (Hdir : forall f, own g3 !! f = Some RDir <-> own g !! f = Some RDir \/ f = d').
  { intros f. destruct (decide (f = d')) as [->|Hne]; [cbn; rewrite lookup_insert_eq; split; auto|]. change (own g3) with (<[d' := RDir]> (own g2)). rewrite lookup_insert_ne by done.
    destruct (L4 f) as [->|[E1 E2]]; [rewrite Ho1 by done; split; [by left|by intros [|]]|]. rewrite Ho1 in E1 by done. rewrite E1, E2. split; [done|by intros [|]]. }
  exists r, last, h4, g3, Fc. split; [done|]. split; [split; try done|split; [|done]].
  - intros f Hf. change (own g3) with (<[d' := RDir]> (own g2)) in Hf. apply lookup_insert_Some in Hf as [[_ ?]|[Hne Hf]]; [done|].
    destruct (L4 f) as [E1|[_ E1]]; [|congruence]. rewrite E1, Ho1 in Hf by done. by apply (vi_limbo _ _ _ Hv f).
  - by rewrite Hc5, L9.
  - eapply (flushed_tlb s g d d' h3 g1 last h4 g2 g3 Hv Hcl); try done. intros Hx. apply Hdir in Hx as [|Hx]; [done|]. destruct (vi_cur _ _ _ Hv); congruence.
  - intros f Hf. assert (f <> d') by congruence. rewrite Hpm5, L11; [|destruct (L4 f) as [|[Hx _]]; [done|rewrite Ho1 in Hx by done; congruence]].
    rewrite N7; [lia|]. intros Hin. destruct (ac_kern _ _ (hi_acct _ _ _ (vi_h _ _ _ Hv)) f Hin). congruence.
  - intros f. rewrite Hpm5. destruct (L4 f) as [E1|[E1 E2]]; [rewrite L11 by done; apply N8|].
    destruct (ac_own _ _ (hi_acct _ _ _ L1) f _ E2) as (_ & _ & Hlim). cbn in Hlim. pose proof (prot_nonneg (pm (hw s)) f (ac_prot _ _ (hi_acct _ _ _ (vi_h _ _ _ Hv)))). lia.
  - rewrite Hpm5, L11 by congruence. done.
  - rewrite Hpm5. apply shows_add; [done|congruence|done].
  - intros Hrf. specialize (Hr Hrf). subst i. destruct Hca as [_ _ C3]. destruct (shows_some _ _ _ _ _ Hs2 HF) as [_ HFv].
    apply map_eq. intros v. rewrite HFc, HFv. f_equal. destruct (decide (0 <= v < 2 ^ 19)) as [Hvr|Hvr].
    + apply C3; [done|]. destruct (user_page v Hvr). lia.
    + assert (Hout : forall d1, pages g2 !! (d1, v) = None) by (intros d1; destruct (pages g2 !! (d1, v)) as [e|] eqn:Ee; [|done]; by destruct (ly_in _ _ _ (hi_lay _ _ _ L1) _ _ _ Ee)).
      by rewrite !Hout.
Qed.

Lemma set_hw_lock s h L h' : set_hw (set_vmm_lock (set_hw s h) L) h' = set_hw (set_vmm_lock s L) h'.
Proof. done. Qed.

(** The locked section, from the copied directory on. *)
Definition clone_rest (d d' : Z) (s : vmm) (h : mmu) : option (Z * vmm) :=
  h ← protect_directory_range 512 h d' KERNEL_PDE_START;
  '(clone_failed, last, h) ← clone_user_tables 512 h d d' 0 0;
  let h := if (d =? current_dir_phys s) && (0 <? last) then vmm_flush_tlb h 0 else h in
  let s := set_hw s h in
  if (clone_failed : bool) then Some (0, s)
  else s ← register_page_directory s (u32 d'); Some (u32 d', s).

Definition copied_dir (d d' : Z) (h : mmu) : mmu :=
  copy_kernel_entries 512 (set_pm h (set_pmem (pm h) (memset (pmem (pm h)) (kva d') 0 (Z.to_nat PAGE_SIZE)))) d' (kva d) 512.

Definition clone_section (d d' : Z) (s : vmm) : option (Z * vmm) := clone_rest d d' s (copied_dir d d' (hw s)).

Lemma clone_section_at d d' s h : hw s = h -> clone_section d d' s = clone_rest d d' s (copied_dir d d' h).
Proof. by intros <-. Qed.

Lemma clone_unfold pool s d : 0 < d < 2 ^ 31 ->
  vmm_clone_page_directory B pool s d =
    '(d', p) ← pmm_alloc_frame I686 (pm (hw s));
    let s := set_hw s (set_pm (hw s) p) in
    if d' =? PADDR_INVALID then Some (0, s)
    else if d' =? d then p ← pmm_free_frame (pm (hw s)) d'; Some (0, set_hw s (set_pm (hw s) p))
    else
      '(r, s) ← vmm_locked s (clone_section d d');
      if r =? 0 then '(_, s) ← vmm_free_page_directory B pool s (u32 d'); Some (0, s) else Some (r, s).
Proof.
  intros Hd. unfold vmm_clone_page_directory. rewrite (proj2 (Z.eqb_neq d 0)), (proj2 (Z.leb_gt 0x80000000 d)) by lia. cbn [orb].
  destruct (pmm_alloc_frame I686 (pm (hw s))) as [[d' p]|]; cbn [mbind option_bind]; [|done]. cbv zeta. destruct (d' =? PADDR_INVALID); [done|].
  destruct (d' =? d); [done|]. unfold clone_section, clone_rest, copied_dir. cbv zeta. reflexivity.
Qed.

Lemma clone_rest_run s s0 d d' h2 p3 last r h4 : current_dir_phys s0 = current_dir_phys s -> 0 < d' < 2 ^ 31 ->
  protect_directory_range 512 h2 d' KERNEL_PDE_START = Some (set_pm h2 p3) ->
  clone_user_tables 512 (set_pm h2 p3) d d' 0 0 = Some (r, last, h4) ->
  clone_rest d d' s0 h2 = if r then Some (0, set_hw s0 (flushed s d last h4)) else (s1 ← register_page_directory (set_hw s0 (flushed s d last h4)) d'; Some (d', s1)).
Proof.
  intros Hc0 Hd' E3 E4. unfold clone_rest, flushed. rewrite Hc0, (u32_small d') by lia. rewrite E3, opt_bind. cbv beta. rewrite E4, opt_bind. by destruct r.
Qed.

(** The run up to the end of the locked section. *)
Lemma clone_run s g A d d' p1 h2 p3 last r h4 pool : vinv bd s g -> own g !! d = Some RDir -> d' <> d -> fresh bd (hw s) g d' p1 ->
  pmm_alloc_frame I686 (pm (hw s)) = Some (d', p1) -> copied_dir d d' (set_pm (hw s) p1) = h2 ->
  protect_directory_range 512 h2 d' KERNEL_PDE_START = Some (set_pm h2 p3) -> new_dir bd (hw s) g A d' (set_pm h2 p3) ->
  clone_user_tables 512 (set_pm h2 p3) d d' 0 0 = Some (r, last, h4) ->
  let h5 := flushed s d last h4 in
  let L := LockSt SPINLOCK_LOCKED false in
  (r = true -> vmm_clone_page_directory B pool s d = ('(_, s) ← vmm_free_page_directory B pool (set_hw s h5) d'; Some (0, s))) /\
  (r = false -> forall s2, register_page_directory (set_hw (set_vmm_lock s L) h5) d' = Some s2 -> vmm_lock s2 = L ->
     vmm_clone_page_directory B pool s d = Some (d', set_vmm_lock s2 (vmm_lock s))).
Proof.
  intros Hv Hd Hne (F1 & [_ F2] & F3 & _) E1 Eh2 E3 N E4 h5 L. destruct (own_frame _ _ _ _ (hi_acct _ _ _ (vi_h _ _ _ Hv)) Hd) as [[_ Hdf] Hd0].
  rewrite clone_unfold, E1 by lia. cbn [mbind option_bind]. rewrite (proj2 (Z.eqb_neq d' _)), (proj2 (Z.eqb_neq d' d)) by done. rewrite (u32_small d') by lia.
  pose proof (clone_rest_run s (set_vmm_lock (set_hw s (set_pm (hw s) p1)) L) d d' h2 p3 last r h4 eq_refl ltac:(lia) E3 E4) as Hsec. rewrite <- Eh2 in Hsec.
  rewrite <- clone_section_at in Hsec by done. clear E1 Eh2 E3 E4.
  split; intros Hr; [|intros s2 E5 Hl2]; rewrite Hr in Hsec.
  - by rewrite (vmm_locked_run (set_hw s (set_pm (hw s) p1)) _ _ _ (vi_lock _ _ _ Hv) Hsec eq_refl).
  - rewrite (vmm_locked_run (set_hw s (set_pm (hw s) p1)) (clone_section d d') d' s2 (vi_lock _ _ _ Hv)); [|fold L; rewrite Hsec|done].
    + cbn [mbind option_bind]. by rewrite (proj2 (Z.eqb_neq d' 0)) by lia.
    + fold h5. by rewrite set_hw_lock, E5, opt_bind.
Qed.

Lemma clone_ok s g A F d pool : vinv bd s g -> shows (pmem (pm (hw s))) g A -> A !! d = Some F ->
  (forall f, protections (pm (hw s)) f + 512 < 2 ^ 32 - 1) -> Z.of_nat (size A) < 65534 ->
  (forall x, is_page_directory_in_use pool x = true -> is_Some (A !! x) \/ x = bd) ->
  exists r s' g', vmm_clone_page_directory B pool s d = Some (r, s') /\ made bd s A r F s' g' /\ (r = 0 -> frees (pm (hw s)) <= 512).
Proof.
  intros Hv Hs HF Hb Hsz Hpool. pose proof (vi_h _ _ _ Hv) as Hh. pose proof (hi_lay _ _ _ Hh) as Hl. destruct (shows_some _ _ _ _ _ Hs HF) as [Hd _].
  destruct (own_frame _ _ _ _ (hi_acct _ _ _ Hh) Hd) as [Hfd Hd0].
  destruct (hinv_alloc bd (hw s) g Hh) as (d' & p1 & E1 & Epf & [(-> & Hno & Hh' & Em)|Hfr]); destruct (alloc_free _ _ _ _ (hi_acct _ _ _ Hh) E1) as [Hfull Hfree].
  - exists 0, (set_hw s (set_pm (hw s) p1)), g. split; [|split; [|rewrite Hfull by done; lia]].
    + unfold vmm_clone_page_directory. rewrite (proj2 (Z.eqb_neq d 0)), (proj2 (Z.leb_gt 0x80000000 d)) by (destruct Hfd; lia). cbn [orb]. by rewrite E1.
    + unfold made. rewrite decide_True by done. split_and!; try done; [apply (vinv_hw bd s g); try done; apply Hv| |by cbn; rewrite Em].
      intros f. unfold protections. cbn. rewrite Epf. lia.
  - pose proof Hfr as (F1 & F2 & F3 & Fb & F4 & F5 & F6 & _). assert (Hne : d <> d') by congruence.
    destruct (new_dir_ok bd (hw s) g A d' p1 _ d Hh Hs Hfr Epf (page_zeroed (pmem p1) d') Hfd Hne) as (p3 & E3 & N & Hp3); [intros j Hj; by apply (ly_kern _ _ _ Hl)|done|].
    destruct (clone_core s g A F d d' _ Hv HF Hd N Fb Hsz) as (r & last & h4 & g3 & Fc & E4 & [G1 G2 G3 G4 G5 G6 G7 G8 G9 G10 G11] & Hr & Hrf).
    destruct (clone_run s g A d d' p1 _ p3 last r h4 pool Hv Hd (not_eq_sym Hne) Hfr E1 eq_refl E3 N E4) as [Hfail Hok]. cbn [pm set_pm] in Hrf. specialize (Hfree F1). clear E1 E3 E4 N. set (h5 := flushed s d last h4) in *.
    assert (HA : A !! d' = None) by (specialize (Hs d'); destruct (A !! d') as [Fx|]; [destruct Hs; congruence|done]).
    destruct (vi_active _ _ _ Hv) as (A1 & A2 & _). assert (Hact : d' ∉ active_page_directories s) by (intros Hin; destruct (A2 d' Hin) as [|Hin']; [congruence|]; rewrite <- G6 in Hin';
      destruct (ac_kern _ _ (hi_acct _ _ _ G1) d' Hin') as [Hx _]; rewrite (proj2 (G7 d') (or_intror eq_refl)) in Hx; done).
    destruct r.
    + assert (Hv5 : vinv bd (set_hw s h5) g3).
      { apply (vinv_new bd s g d' h5 g3 (active_page_directories s)); try done; [by left|]. rewrite decide_False by done. lia. }
      assert (Huse : is_page_directory_in_use pool d' = false).
      { destruct (is_page_directory_in_use pool d') eqn:Eu; [|done]. destruct (Hpool d' Eu) as [[Fx HFx]|]; congruence. }
      destruct (free_directory_ok bd B (boot_frame (proj1 (ly_bd _ _ _ Hl))) (set_hw s h5) g3 (<[d' := Fc]> A) d' pool Hv5 G11) as (s' & g' & Ef & (V1 & V2 & V3 & V4)); [by apply G7; right| |done|].
      { cbn. rewrite G4. destruct (vi_cur _ _ _ Hv); congruence. }
      exists 0, s', g'. split; [rewrite (Hfail eq_refl), Ef; done|]. split; [|specialize (Hrf eq_refl); lia]. unfold made. rewrite decide_True by done. rewrite delete_insert_id in V2 by done.
      split_and!; try done; [cbn in V3; by rewrite V3|]. intros f. specialize (V4 f). specialize (G9 f). cbn in V4. lia.
    + destruct (register_ok bd (set_vmm_lock s (LockSt SPINLOCK_LOCKED false)) h5 g3 d' G1) as (p & l & E5 & R1 & R2 & R3 & R4 & R5 & R6 & R7); [by apply G7; right|done|done|done|].
      exists d', (set_active (set_hw s (set_pm h5 p)) l), g3. split; [by rewrite (Hok eq_refl _ E5)|]. split; [|lia]. unfold made. rewrite decide_False by lia. rewrite (Hr eq_refl) in G11. split_and!; try done.
      * apply (vinv_new bd s g d'); try done. intros f Hf. cbn. rewrite R3 by congruence. by apply G8.
      * intros f. cbn. destruct (decide (f = d')) as [->|Hnf]; [|rewrite R3 by done; apply G9].
        pose proof (prot_nonneg (pm (hw s)) d' (ac_prot _ _ (hi_acct _ _ _ Hh))). destruct (decide (d' ∈ l)); lia.
      * cbn. by rewrite R2.
Qed.

End clone.
