(* ===== verification/SpaceProps.v ===== *)
(** * Address spaces

    Every process has its own memory.  The abstract machine of this file has
    a map of pages for every directory; creation, fork, exit, switching,
    mapping, unmapping, loads and stores are operations on these maps.  The
    theorems show that the code, with copy-on-write, reference counts, the
    translation cache and failing allocations, implements it. *)

From S2P Require Import Prelude Spinlock Mem Pmm PmmFacts PmmProps PmmSteps Task Paging Vmm MmCalls FrameMem Spaces Layout UserSpace SpaceOps.
From S2P Require Import SpaceMap SpaceNew SpaceClone.

(** ** Operations *)

Inductive space_op :=
| OCreate
| OFork (pool : list task) (d : Z)
| OExit (pool : list task) (d : Z)
| OSwitch (d : Z)
| OMap (d v : Z) (w : bool) (l : list Z)
| OUnmap (d v : Z)
| OLoad (a : Z)
| OStore (a c : Z)
| OFill (v : Z)
| OEvict (v : Z).

(** [B] is the boot directory.  The result of a load that faults is -1. *)
Definition run_op (B : Z) (o : space_op) (s : vmm) : option (Z * vmm) :=
  match o with
  | OCreate => vmm_create_page_directory B s
  | OFork pool d => vmm_clone_page_directory B pool s d
  | OExit pool d => '(_, s) ← vmm_free_page_directory B pool s d; Some (0, s)
  | OSwitch d => '(_, s) ← vmm_switch_page_directory s d; Some (0, s)
  | OMap d v w l => '(r, s) ← new_page s d (v * PAGE_SIZE) (page_flags w) (store_bytes l); Some (Z.b2z r, s)
  | OUnmap d v => s ← drop_page s d (v * PAGE_SIZE); Some (0, s)
  | OLoad a => Some (default (-1) (user_load s a), s)
  | OStore a c => '(r, s) ← user_store s B a c; Some (Z.b2z r, s)
  | OFill v => Some (0, set_hw s (cpu_fill (hw s) v))
  | OEvict v => Some (0, set_hw s (cpu_evict (hw s) v))
  end.

(** ** The abstract machine *)

Definition zero_pad (l : list Z) : list Z := l ++ replicate (Z.to_nat PAGE_SIZE - length l) 0.

(** When an operation makes sense in the spaces [A] with [cur] running. *)
Definition op_ok (bd : Z) (o : space_op) (A : aspaces) (cur : Z) : Prop :=
  match o with
  | OFork pool d =>
      is_Some (A !! d) /\ Z.of_nat (size A) <= MAX_TASKS /\ forall x, is_page_directory_in_use pool x = true -> is_Some (A !! x) \/ x = bd
  | OExit pool d => is_Some (A !! d) /\ d <> cur /\ is_page_directory_in_use pool d = false
  | OSwitch d => is_Some (A !! d) \/ d = bd
  | OMap d v w l => (exists F, A !! d = Some F /\ F !! v = None) /\ 0 <= v < 2 ^ 19 /\ (length l <= Z.to_nat PAGE_SIZE)%nat /\ Forall (fun c => 0 <= c < 256) l
  | OUnmap d v => is_Some (A !! d) /\ 0 <= v < 2 ^ 19
  | OLoad a => is_Some (A !! cur) /\ 0 <= a < 2 ^ 31
  | OStore a c => is_Some (A !! cur) /\ 0 <= a < 2 ^ 31 /\ 0 <= c < 256
  | OCreate | OFill _ | OEvict _ => True
  end.

(** What it does when [free] frames are free.  Creation and a store into a
    shared page need one frame, a mapping two and a fork one for the
    directory and one for each of up to 512 tables. *)
Definition op_spec (o : space_op) (free : Z) (A : aspaces) (cur r : Z) (A' : aspaces) (cur' : Z) : Prop :=
  match o with
  | OCreate => cur' = cur /\ if decide (r = 0) then free = 0 /\ A' = A else A !! r = None /\ A' = <[r := ∅]> A
  | OFork _ d => cur' = cur /\ if decide (r = 0) then free < 513 /\ A' = A else A !! r = None /\ exists F, A !! d = Some F /\ A' = <[r := F]> A
  | OExit _ d => cur' = cur /\ A' = delete d A
  | OSwitch d => cur' = d /\ A' = A
  | OMap d v w l =>
      cur' = cur /\ if decide (r = 0) then free < 2 /\ A' = A else exists F, A !! d = Some F /\ A' = <[d := <[v := APage (zero_pad l) w]> F]> A
  | OUnmap d v => cur' = cur /\ exists F, A !! d = Some F /\ A' = <[d := delete v F]> A
  | OLoad a =>
      cur' = cur /\ A' = A /\ exists F, A !! cur = Some F /\
      r = default (-1) (p ← F !! (a / PAGE_SIZE); ap_bytes p !! Z.to_nat (a mod PAGE_SIZE))
  | OStore a c => cur' = cur /\ if decide (r = 0) then A' = A /\ (unwritable A cur a \/ free = 0) else stored A cur a c A'
  | OFill _ | OEvict _ => cur' = cur /\ A' = A
  end.

(** Every operation that makes sense runs to its end and does what the
    abstract machine does, and so on for the rest. *)
Fixpoint refines_spaces (B bd : Z) (ops : list space_op) (s : vmm) (A : aspaces) (cur : Z) : Prop :=
  match ops with
  | [] => True
  | o :: ops =>
      op_ok bd o A cur ->
      exists r s' A' cur', run_op B o s = Some (r, s') /\ op_spec o (frees (pm (hw s))) A cur r A' cur' /\ refines_spaces B bd ops s' A' cur'
  end.

(** ** One step *)

Definition represents (bd : Z) (s : vmm) (A : aspaces) (cur : Z) : Prop := good bd s A /\ cr3 (hw s) = cur.

Lemma store_bytes_rd l : forall m p q, Forall (fun c => 0 <= c < 256) l ->
  rd (store_bytes l m p) q = if decide (p <= q < p + Z.of_nat (length l)) then default 0 (l !! Z.to_nat (q - p)) else rd m q.
Proof.
  induction l as [|c l IH]; intros m p q Hl; cbn [store_bytes length].
  - by rewrite decide_False by lia.
  - apply list.Forall_cons in Hl as [Hc Hl]. rewrite IH, rd_wr by done. destruct (Z.eqb_spec p q) as [<-|Hne].
    + rewrite decide_False, decide_True by lia. rewrite Z.sub_diag. cbn. unfold u8. by apply Z.mod_small.
    + destruct (decide (p + 1 <= q < _)).
      * rewrite decide_True by lia. replace (Z.to_nat (q - p)) with (S (Z.to_nat (q - (p + 1)))) by lia. done.
      * by rewrite decide_False by lia.
Qed.

Lemma store_fills l : Forall (fun c => 0 <= c < 256) l -> (length l <= Z.to_nat PAGE_SIZE)%nat -> fills (store_bytes l) (zero_pad l).
Proof.
  intros Hl Hlen m f Hf Hz. split.
  - apply list_eq. intros i. destruct (decide (Z.of_nat i < PAGE_SIZE)) as [Hi|Hi].
    + rewrite <- (Nat2Z.id i) at 1. rewrite page_bytes_at by lia. rewrite store_bytes_rd by done. replace (kva f + Z.of_nat i - kva f) with (Z.of_nat i) by lia. rewrite Nat2Z.id.
      unfold zero_pad. destruct (decide (i < length l)%nat) as [Hil|Hil].
      * rewrite decide_True by lia. rewrite lookup_app_l by done. destruct (lookup_lt_is_Some_2 l i Hil) as [c ->]. done.
      * rewrite decide_False by lia. rewrite Hz by lia. rewrite lookup_app_r by lia. rewrite lookup_replicate_2 by lia. done.
    + rewrite !lookup_ge_None_2; [done|unfold zero_pad; rewrite length_app, length_replicate; unfold PAGE_SIZE in *; lia|rewrite page_bytes_length; unfold PAGE_SIZE in *; lia].
  - intros f' Hf' Hne o Ho. rewrite store_bytes_rd by done. rewrite !kva_frame by done. destruct (frames_apart f f' Hf Hf' ltac:(congruence)); rewrite decide_False by (unfold PAGE_SIZE in *; lia); done.
Qed.

Section step.
Variables (bd B : Z).
Hypothesis HB : kva bd = B.

Definition steps_to (o : space_op) (s : vmm) (A : aspaces) (cur : Z) : Prop :=
  exists r s' A' cur', run_op B o s = Some (r, s') /\ op_spec o (frees (pm (hw s))) A cur r A' cur' /\ represents bd s' A' cur' /\
    forall f, protections (pm (hw s')) f <= protections (pm (hw s)) f + 512.

Lemma continues_step s A' s' g' cur : continues bd s A' s' g' -> cr3 (hw s) = cur ->
  represents bd s' A' cur /\ forall f, protections (pm (hw s')) f <= protections (pm (hw s)) f + 512.
Proof.
  intros (C1 & C2 & C3 & C4 & C5) Hc. split; [split; [by exists g'|by rewrite C3]|]. intros f. unfold protections. rewrite C4. lia.
Qed.

Lemma switch_ok s g A d : vinv bd s g -> shows (pmem (pm (hw s))) g A -> own g !! d = Some RDir \/ d = bd -> 0 < d < 2 ^ 31 ->
  exists s', vmm_switch_page_directory s d = Some (tt, s') /\ vinv bd s' g /\ cr3 (hw s') = d /\ pm (hw s') = pm (hw s).
Proof.
  intros Hv Hs Hd Hr. unfold vmm_switch_page_directory. rewrite (proj2 (Z.eqb_neq d 0)) by lia. eexists. split; [by erewrite vmm_locked_run; [done|apply Hv|done|done]|].
  split_and!; cbn; try done; [|apply u32_small; lia]. destruct Hv as [[V1 V2 V3 V4] V5 V6 V7 V8 V9 V10 V11].
  split; cbn; rewrite ?u32_small by lia; try done.
Qed.

Lemma vinv_tlb s g t : vinv bd s g -> tlb_ok (set_tlb (hw s) t) g -> vinv bd (set_hw s (set_tlb (hw s) t)) g.
Proof. intros [[V1 V2 V3 V4] V5 V6 V7 V8 V9 V10 V11] Ht. by split. Qed.

Lemma fill_ok s g v : vinv bd s g -> vinv bd (set_hw s (cpu_fill (hw s) v)) g.
Proof.
  intros Hv. unfold cpu_fill. destruct (cpu_entry (hw s) v) as [e|] eqn:E; [|by rewrite set_hw_same]. apply vinv_tlb; [done|].
  intros v' e' He Hr Hd. cbn in *. apply lookup_insert_Some in He as [[<- <-]|[_ He]]; [|by apply (vi_tlb _ _ _ Hv)].
  rewrite <- E. symmetry. apply (cpu_entry_page bd); [apply Hv|apply Hv|done|done].
Qed.

Lemma evict_ok s g v : vinv bd s g -> vinv bd (set_hw s (cpu_evict (hw s) v)) g.
Proof.
  intros Hv. apply vinv_tlb; [done|]. intros v' e' He Hr Hd. cbn in *. apply lookup_delete_Some in He as [_ He]. by apply (vi_tlb _ _ _ Hv).
Qed.

(** Operations that allocate directories. *)
Lemma made_step s g A r F s' g' cur : vinv bd s g -> made bd s A r F s' g' -> cr3 (hw s) = cur ->
  represents bd s' (if decide (r = 0) then A else <[r := F]> A) cur /\ (r <> 0 -> A !! r = None) /\
  forall f, protections (pm (hw s')) f <= protections (pm (hw s)) f + 512.
Proof.
  intros Hv (M1 & M2 & M3 & M4) Hc. destruct (decide (r = 0)) as [|Hr]; [|destruct M4 as [M4 M5]]; (split_and!; try done; split; [eexists; split; done|by rewrite M2]).
Qed.

Lemma op_step o s A cur : represents bd s A cur -> (forall f, protections (pm (hw s)) f + 512 < 2 ^ 32 - 1) -> op_ok bd o A cur -> steps_to o s A cur.
Proof.
  intros [(g & Hv & Hs) Hc] Hb Hok. pose proof (hi_lay _ _ _ (vi_h _ _ _ Hv)) as Hl. unfold steps_to.
  assert (Hbd : VIRT_TO_PHYS I686 B = bd) by (by apply boot_frame; [|apply Hl]).
  assert (Hkeep : forall s', vinv bd s' g -> pm (hw s') = pm (hw s) -> cr3 (hw s') = cur ->
    represents bd s' A cur /\ forall f, protections (pm (hw s')) f <= protections (pm (hw s)) f + 512).
  { intros s' Hv' Hp' Hc'. rewrite Hp'. split; [split; [exists g; by rewrite Hp'|done]|intros f; lia]. }
  assert (Hfull : no_free_frame (pm (hw s)) -> frees (pm (hw s)) = 0) by (intros Hn; unfold frees; rewrite (inv_free _ (ac_inv _ _ (hi_acct _ _ _ (vi_h _ _ _ Hv)))); by apply no_free_count).
  destruct o as [|pool d|pool d|d|d v w l|d v|a|a c|v|v]; cbn [op_ok run_op op_spec] in *.
  - destruct (create_ok bd B HB s g A Hv Hs Hb) as (r & s' & g' & -> & Hm & Hno). destruct (made_step _ _ _ _ _ _ _ _ Hv Hm Hc) as (H1 & H2 & H3).
    eexists r, s', _, cur. split; [done|]. split; [|done]. split; [done|]. destruct (decide (r = 0)); auto.
  - destruct Hok as ([F HF] & Hsz & Hpool). destruct (clone_ok bd B HB s g A F d pool Hv Hs HF Hb) as (r & s' & g' & -> & Hm & Hfr); [unfold MAX_TASKS in Hsz; lia|done|].
    destruct (made_step _ _ _ _ _ _ _ _ Hv Hm Hc) as (H1 & H2 & H3). eexists r, s', _, cur. split; [done|]. split; [|done]. split; [done|]. destruct (decide (r = 0)); [specialize (Hfr ltac:(done)); split; (done || lia)|].
    split; [by apply H2|by exists F].
  - destruct Hok as ([F HF] & Hne & Hpool). destruct (shows_some _ _ _ _ _ Hs HF) as [Hd _].
    destruct (free_directory_ok bd B Hbd s g A d pool Hv Hs Hd ltac:(congruence) Hpool) as (s' & g' & -> & (V1 & V2 & V3 & V4)).
    eexists 0, s', _, cur. split; [done|]. split; [done|]. split; [split; [by exists g'|congruence]|]. intros f. specialize (V4 f). lia.
  - assert (Hd : own g !! d = Some RDir \/ d = bd) by (destruct Hok as [[F HF]| ->]; [left; by apply (shows_some _ _ _ _ _ Hs HF)|by right]).
    assert (Hr : 0 < d < 2 ^ 31).
    { destruct Hd as [Hd| ->]; [destruct (own_frame _ _ _ _ (hi_acct _ _ _ (vi_h _ _ _ Hv)) Hd) as [[_ ?] ?]; lia|].
      destruct (ac_kern _ _ (hi_acct _ _ _ (vi_h _ _ _ Hv)) bd (hi_bd _ _ _ (vi_h _ _ _ Hv))) as (_ & _ & ? & _). destruct (ly_bd _ _ _ Hl) as [[_ ?] _]. lia. }
    destruct (switch_ok s g A d Hv Hs Hd Hr) as (s' & -> & H1 & H2 & H3). exists 0, s', A, d. split; [done|]. split; [done|]. rewrite H3. split; [split; [exists g; by rewrite H3|done]|]. intros f. lia.
  - destruct Hok as ((F & HF & Hn) & Hvr & Hlen & Hby). destruct (new_page_ok bd s g A d F v w (store_bytes l) (zero_pad l) Hv Hs HF Hvr Hn (store_fills l Hby Hlen)) as (r & s' & g' & -> & Hcont & Hfr).
    destruct (continues_step _ _ _ _ _ Hcont Hc) as [H1 H2]. eexists (Z.b2z r), s', _, cur. split; [done|]. split; [|done]. split; [done|]. destruct r; cbn; [by exists F|done].
  - destruct Hok as ([F HF] & Hvr). destruct (drop_page_ok bd s g A d F v Hv Hs HF Hvr) as (s' & g' & -> & Hcont). destruct (continues_step _ _ _ _ _ Hcont Hc) as [H1 H2].
    eexists 0, s', _, cur. split; [done|]. split; [|done]. split; [done|]. by exists F.
  - destruct Hok as ([F HF] & Ha). rewrite (user_load_ok bd s g A a F Hv Hs) by (by rewrite ?Hc). eexists _, s, A, cur. split; [done|].
    split; [split_and!; try done; by exists F|]. by apply Hkeep.
  - destruct Hok as ([F HF] & Ha & Hcr). destruct (shows_some _ _ _ _ _ Hs HF) as [Hd _]. rewrite <- Hc in Hd.
    destruct (user_store_ok bd s g A B a c Hv Hs Hd Ha Hcr) as (r & s' & g' & A' & -> & Hcont & Hres). destruct (continues_step _ _ _ _ _ Hcont Hc) as [H1 H2].
    rewrite Hc in Hres. eexists (Z.b2z r), s', A', cur. split; [done|]. split; [|done]. split; [done|]. destruct r; [done|]. rewrite decide_True by done. destruct Hres as [HA1 [Hu|Hn]]; (split; [done|]); [by left|right; by apply Hfull].
  - eexists 0, _, A, cur. split; [done|]. split; [done|]. apply Hkeep; [by apply fill_ok|unfold cpu_fill; by destruct (cpu_entry _ _)|unfold cpu_fill; by destruct (cpu_entry _ _)].
  - eexists 0, _, A, cur. split; [done|]. split; [done|]. apply Hkeep; [by apply evict_ok|done|done].
Qed.

Lemma refines_run ops : forall s A cur, represents bd s A cur -> (forall f, protections (pm (hw s)) f + 512 * Z.of_nat (length ops) < 2 ^ 32 - 1) ->
  refines_spaces B bd ops s A cur.
Proof.
  induction ops as [|o ops IH]; intros s A cur Hr Hb; cbn [refines_spaces length] in *; [done|]. intros Hok.
  destruct (op_step o s A cur Hr) as (r & s' & A' & cur' & E & Hsp & Hr' & Hb'); [intros f; specialize (Hb f); lia|done|].
  exists r, s', A', cur'. split_and!; try done. apply IH; [done|]. intros f. specialize (Hb f). specialize (Hb' f). lia.
Qed.

End step.

(** C1: The memory of the processes: from a state that represents the address
    spaces [A], every sequence of creations, forks, exits, switches, mappings,
    unmappings, loads and stores - with the processor filling and dropping
    its translation cache in between - runs to its end and behaves like the
    abstract machine, in which a store changes one page of one space and a
    fork copies all pages. *)
Theorem address_spaces_refine B s A cur ops :
  kva (VIRT_TO_PHYS I686 B) = B -> represents (VIRT_TO_PHYS I686 B) s A cur ->
  (forall f, prot_count (protected_frames (pm (hw s))) f + 512 * Z.of_nat (length ops) < 2 ^ 32 - 1) ->
  refines_spaces B (VIRT_TO_PHYS I686 B) ops s A cur.
Proof. intros HB Hr Hb. by apply refines_run. Qed.
