(* ===== verification/VmmInit.v ===== *)
(** * The start of the virtual memory manager

    [vmm_init] on a machine whose boot directory maps the kernel: it reaches
    a state that represents no address space, from which the theorems of
    SpaceProps start. *)

From S2P Require Import Prelude Spinlock Mem Pmm PmmFacts PmmProps PmmSteps Task Paging Vmm FrameMem Spaces Layout UserSpace SpaceOps SpaceMap SpaceNew SpaceClone SpaceProps.

(** No address space, the kernel's frames [K]. *)
Definition boot_spaces (K : gset Z) : spaces := Spaces ∅ ∅ ∅ ∅ K.

(** A frame the manager never hands out. *)
Definition kernel_frame (p : pmm) (f : Z) : Prop :=
  f mod PAGE_SIZE = 0 /\ 0 < f < 2 ^ 32 /\ (pfn f < total_frames p -> test_frame p (pfn f) = true).

Lemma boot_acct p K : inv p -> prot_ok p -> lock_free (pmm_lock p) -> total_frames p <= 2 ^ 19 -> test_frame p 0 = true ->
  (forall k, k ∈ K -> kernel_frame p k) -> acct p (boot_spaces K).
Proof.
  intros H1 H2 H3 H4 H5 H6. split; try done.
  - intros k e. cbn. rewrite lookup_empty. by intros [|].
  - intros k Hk. split; [done|]. by apply H6.
Qed.

(** A frame in limbo becomes one of the kernel's. *)
Lemma acct_kern p K f : acct p (add_own (boot_spaces K) f RLimbo) -> acct p (boot_spaces ({[f]} ∪ K)).
Proof.
  intros Ha. pose proof Ha as [A1 A2 A3 A4 A5 A6 A7 A8 A9]. apply boot_acct; try done. intros k Hk. apply elem_of_union in Hk as [Hk|Hk].
  - apply elem_of_singleton in Hk as ->. assert (Hf : own (add_own (boot_spaces K) f RLimbo) !! f = Some RLimbo) by (cbn; apply lookup_insert_eq).
    destruct (own_frame _ _ _ _ Ha Hf) as [[F1 F2] F3]. destruct (A6 f _ Hf) as [(_ & _ & Ht) _]. split_and!; try done; lia.
  - by destruct (A9 k Hk) as [_ ?].
Qed.

Section init.
Variable bd : Z.

Lemma boot_layout m K : is_frame bd -> (forall i, 512 <= i < 1024 -> kernel_ok (boot_spaces K) (word m bd i)) -> layout bd m (boot_spaces K).
Proof. intros Hb Hk. by split. Qed.

Lemma boot_hinv h K : acct (pm h) (boot_spaces K) -> is_frame bd -> bd ∈ K -> (forall i, 512 <= i < 1024 -> kernel_ok (boot_spaces K) (word (pmem (pm h)) bd i)) ->
  hinv bd h (boot_spaces K).
Proof. intros Ha Hf Hb Hk. split; [done|by apply boot_layout|by split|done]. Qed.

(** ** The direct map *)

(** The entry of page [j] of the table at entry [i] of the directory. *)
Definition direct_entry (i j : Z) : Z := ((i - 512) * 1024 + j) * PAGE_SIZE + 3.

Lemma direct_entry_made i j : 512 <= i < 1024 -> 0 <= j < 1024 ->
  Z.lor (Z.lor (u32 (u32 (Z.shiftl (i - 512) 22) + Z.shiftl j 12)) PAGE_PRESENT) PAGE_WRITE = direct_entry i j /\
  0 <= direct_entry i j < 2 ^ 32.
Proof.
  intros Hi Hj. rewrite !Z.shiftl_mul_pow2 by lia. unfold direct_entry, PAGE_SIZE.
  rewrite (u32_small ((i - 512) * 2 ^ 22)), u32_small by lia. split; [|lia].
  rewrite <- Z.lor_assoc. change (Z.lor PAGE_PRESENT PAGE_WRITE) with 3.
  replace ((i - 512) * 2 ^ 22 + j * 2 ^ 12) with (((i - 512) * 1024 + j) * 4096) by lia.
  rewrite lor_flags by (unfold PAGE_SIZE; (lia || apply Z.mod_mul; lia)). lia.
Qed.

Lemma fill_table_ok t i n : forall h g j, hinv bd h g -> own g !! t = Some RLimbo -> 512 <= i < 1024 -> 0 <= j -> j + Z.of_nat n <= 1024 ->
  let h' := fill_table n h t (u32 (Z.shiftl (i - 512) 22)) j in
  hinv bd h' g /\ cr3 h' = cr3 h /\ protected_frames (pm h') = protected_frames (pm h) /\
  (forall f, is_frame f -> f <> t -> same_frame (pmem (pm h)) (pmem (pm h')) f) /\
  forall k, 0 <= k < 1024 -> word (pmem (pm h')) t k = if decide (j <= k < j + Z.of_nat n) then direct_entry i k else word (pmem (pm h)) t k.
Proof.
  induction n as [|n IH]; intros h g j Hh Ht Hi Hj Hn; cbn [fill_table].
  { split_and!; try done. intros k Hk. by rewrite decide_False by lia. }
  destruct (direct_entry_made i j Hi ltac:(lia)) as [-> Hr].
  destruct (limbo_word bd h g t j (direct_entry i j) Hh Ht ltac:(lia)) as [H1 (_ & _ & _ & _ & K5 & _)].
  destruct (IH (set_pte h t j (direct_entry i j)) g (j + 1) H1 Ht Hi ltac:(lia) ltac:(lia)) as (I1 & I2 & I3 & I4 & I5). split_and!; try done.
  - intros f Hf Hne. eapply same_frame_trans; [by apply K5|by apply I4].
  - intros k Hk. rewrite I5 by done. change (word (pmem (pm (set_pte h t j (direct_entry i j)))) t k) with (word (put_word (pmem (pm h)) t j (direct_entry i j)) t k).
    rewrite put_word_word by lia. destruct (Z.eqb_spec j k) as [->|Hne].
    + by rewrite decide_False, decide_True by lia.
    + destruct (decide (j + 1 <= k < _)); [by rewrite decide_True by lia|by rewrite decide_False by lia].
Qed.

#[local] Opaque fill_table.

(** The 4 MB behind entry [i] of the boot directory map physical memory in
    order: a present table whose 1024 pages are present and writable. *)
Definition direct_mapped (m : mem) (i : Z) : Prop :=
  flag (word m bd i) PAGE_PRESENT = true /\
  forall j, 0 <= j < 1024 -> word m (i686_get_frame (word m bd i)) j = direct_entry i j.

(** A table of the direct map, reached from entry [i] of the boot directory. *)
Lemma direct_table h K t i : hinv bd h (add_own (boot_spaces K) t RLimbo) -> t <> bd -> bd ∈ K -> 512 <= i < 1024 ->
  (forall j, 512 <= j < 1024 -> kernel_ok (boot_spaces K) (word (pmem (pm h)) bd j)) ->
  (forall j, 0 <= j < 1024 -> word (pmem (pm h)) t j = direct_entry i j) ->
  let h' := set_pte h bd i (Z.lor (Z.lor (u32 t) PAGE_PRESENT) PAGE_WRITE) in
  hinv bd h' (boot_spaces ({[t]} ∪ K)) /\ direct_mapped (pmem (pm h')) i /\ i686_get_frame (word (pmem (pm h')) bd i) = t /\
  (forall j, 0 <= j < 1024 -> j <> i -> word (pmem (pm h')) bd j = word (pmem (pm h)) bd j) /\
  (forall f, is_frame f -> f <> bd -> same_frame (pmem (pm h)) (pmem (pm h')) f).
Proof.
  intros Hh Hne Hb Hi Hk Ht0. pose proof (hi_lay _ _ _ Hh) as Hl. assert (Ht : is_frame t) by (eapply ly_frames; [exact Hl|cbn; apply lookup_insert_eq]).
  rewrite u32_small by (destruct Ht; lia). rewrite <- Z.lor_assoc. change (Z.lor PAGE_PRESENT PAGE_WRITE) with 3. cbv zeta.
  destruct (entry_made t 3 (proj1 Ht) ltac:(destruct Ht; lia) ltac:(done)) as (E1 & E2 & E3).
  assert (Hbd : is_frame bd) by apply Hl. set (m := pmem (pm h)) in *. change (pmem (pm (set_pte h bd i (Z.lor t 3)))) with (put_word m bd i (Z.lor t 3)).
  assert (Hs : forall f, is_frame f -> f <> bd -> same_frame m (put_word m bd i (Z.lor t 3)) f) by (intros f Hf Hnf; apply put_word_other; (done || lia || congruence)).
  assert (Hw : word (put_word m bd i (Z.lor t 3)) bd i = Z.lor t 3) by (by rewrite put_word_word, Z.eqb_refl by lia).
  split_and!; try done.
  - apply boot_hinv; [apply acct_pmem, acct_kern, Hh|done|set_solver|]. intros j Hj.
    change (kernel_ok (boot_spaces ({[t]} ∪ K)) (word (put_word m bd i (Z.lor t 3)) bd j)). rewrite put_word_word by lia. case_if.
    + intros _. right. rewrite E2. cbn. set_solver.
    + intros Hp. destruct (Hk j Hj Hp) as [|Hin]; [by left|right]. cbn in *. set_solver.
  - split; [rewrite Hw, flag_mod by done; by rewrite E3|]. intros j Hj. rewrite Hw, E2. rewrite (word_same m) by (done || apply Hs; done). by apply Ht0.
  - by rewrite Hw.
  - intros j Hj Hnj. rewrite put_word_word by lia. by rewrite (proj2 (Z.eqb_neq i j)) by congruence.
Qed.

Lemma direct_table_full n h K t p1 i : Z.of_nat n = 1024 -> hinv bd h (boot_spaces K) -> fresh bd h (boot_spaces K) t p1 -> protected_frames p1 = protected_frames (pm h) -> 512 <= i < 1024 ->
  let h2 := vmm_flush_tlb (set_pte (fill_table n (set_pm h p1) t (u32 (Z.shiftl (i - 512) 22)) 0) bd i (Z.lor (Z.lor (u32 t) PAGE_PRESENT) PAGE_WRITE)) 0 in
  hinv bd h2 (boot_spaces ({[t]} ∪ K)) /\ cr3 h2 = cr3 h /\ protected_frames (pm h2) = protected_frames (pm h) /\
  direct_mapped (pmem (pm h2)) i /\ i686_get_frame (word (pmem (pm h2)) bd i) = t /\
  (forall j, 0 <= j < 1024 -> j <> i -> word (pmem (pm h2)) bd j = word (pmem (pm h)) bd j) /\
  (forall f, is_frame f -> f <> bd -> f <> t -> same_frame (pmem (pm h)) (pmem (pm h2)) f).
Proof.
  intros Hn Hh (F1 & F2 & F3 & Fb & F4 & F5 & F6 & F7 & F8 & F9) Epf Hi. pose proof (hi_lay _ _ _ Hh) as Hl.
  destruct (fill_table_ok t i n (set_pm h p1) _ 0 F7) as (G1 & G2 & G3 & G4 & G5); [cbn; apply lookup_insert_eq|lia|lia|lia|].
  remember (fill_table n (set_pm h p1) t (u32 (Z.shiftl (i - 512) 22)) 0) as h1 eqn:Eh1. clear Eh1.
  assert (Hsb : same_frame (pmem (pm h)) (pmem (pm h1)) bd) by (eapply same_frame_trans; [apply F9; [apply Hl|congruence]|apply G4; [apply Hl|congruence]]).
  assert (Hkw : forall j, 512 <= j < 1024 -> kernel_ok (boot_spaces K) (word (pmem (pm h1)) bd j)).
  { intros j Hj. rewrite (word_same (pmem (pm h))) by (done || lia). by apply (ly_boot _ _ _ Hl). }
  destruct (direct_table h1 K t i G1 Fb (hi_bd _ _ _ Hh) Hi Hkw) as ([D1 D2 D3 D4] & D5 & D6 & D7 & D8).
  { intros j Hj. rewrite G5 by done. by rewrite decide_True by lia. }
  split; [by split|]. split_and!; try done; [by rewrite <- Epf|..].
  - intros j Hj Hne. etransitivity; [by apply D7|]. by apply word_same.
  - intros f Hf Hnb Hnt. eapply same_frame_trans; [by apply F9|]. eapply same_frame_trans; [by apply G4|]. by apply D8.
Qed.

(** No memory for a table: no frame is free, or one that lies beyond the
    first 16 MB, which the boot mapping covers. *)
Definition table_exhausted (p : pmm) : Prop :=
  no_free_frame p \/ exists f, 0x1000000 <= f /\ is_frame f /\ pfn f < total_frames p /\ test_frame p (pfn f) = false.

(** The entries from [lo] that were absent in [m] map physical memory, up to
    [hi] or until memory runs out; the others are as in [m]. *)
Definition extended (m : mem) (p : pmm) (lo hi : Z) : Prop :=
  exists e, lo <= e <= hi /\
    (forall i, lo <= i < e -> flag (word m bd i) PAGE_PRESENT = false -> direct_mapped (pmem p) i) /\
    (forall i, 512 <= i < 1024 -> i < lo \/ e <= i \/ flag (word m bd i) PAGE_PRESENT = true -> word (pmem p) bd i = word m bd i) /\
    (e = hi \/ table_exhausted p).

Lemma fresh_not_kern h g t p1 : fresh bd h g t p1 -> t ∉ kern g.
Proof.
  intros (_ & _ & _ & _ & _ & _ & _ & F7 & _) Hin. destruct (ac_kern _ _ (hi_acct _ _ _ F7) t Hin) as [E _].
  cbn in E. by rewrite lookup_insert_eq in E.
Qed.

(** The allocation of a table fails. *)
Lemma no_table_frame p g p1 : acct p g -> pmm_alloc_frame I686 p = Some (PADDR_INVALID, p1) -> no_free_frame p -> no_free_frame p1.
Proof.
  intros Ha E Hn. destruct (pmm_alloc_frame_spec I686 p (ac_inv _ _ Ha) (ac_prot _ _ Ha) (ac_lock _ _ Ha)) as (r & s' & E' & (_ & _ & _ & Kt) & Hr).
  simplify_eq. destruct Hr as [(_ & Hs & _)|(i & Ei & Hi & Hf & _)]; [|by rewrite Hn in Hf].
  intros i Hi. rewrite Kt in Hi. rewrite Hs by lia. by apply Hn.
Qed.

Lemma extended_here m p i hi : pmem p = m -> i <= hi -> (i = hi \/ table_exhausted p) -> extended m p i hi.
Proof. intros <- Hi He. exists i. split_and!; try done; lia. Qed.

(** The frame of a table beyond 16 MB is given back. *)
Lemma table_given_back h K t p1 : hinv bd h (boot_spaces K) -> fresh bd h (boot_spaces K) t p1 -> protected_frames p1 = protected_frames (pm h) -> 0x1000000 <= t ->
  exists p2, pmm_free_frame p1 t = Some p2 /\ hinv bd (set_pm h p2) (boot_spaces K) /\ protected_frames p2 = protected_frames (pm h) /\
    table_exhausted p2 /\ (forall i, 512 <= i < 1024 -> word (pmem p2) bd i = word (pmem (pm h)) bd i) /\
    (forall f, is_frame f -> f <> t -> same_frame (pmem (pm h)) (pmem p2) f).
Proof.
  intros Hh (F1 & F2 & F3 & Fb & F4 & F5 & F6 & F7 & F8 & F9) Epf H16. pose proof (hi_lay _ _ _ Hh) as Hl. pose proof (hi_acct _ _ _ F7) as Ha.
  assert (Hlim : own (add_own (boot_spaces K) t RLimbo) !! t = Some RLimbo) by (cbn; apply lookup_insert_eq).
  destruct (free_limbo p1 _ t Ha Hlim F6) as (p2 & E2 & Ha2 & Ep2 & Em2). rewrite undo_own in Ha2 by done.
  destruct (free_run p1 _ t _ Ha Hlim F6) as (p3 & E3 & (_ & _ & _ & Kt) & _ & _ & _ & Et). assert (p3 = p2) as -> by congruence.
  destruct (ac_own _ _ Ha t _ Hlim) as ((_ & A2 & _) & A4 & _). cbn [hw pm set_pm] in *. rewrite decide_False in A4 by done.
  assert (Hw : forall i, 512 <= i < 1024 -> word (pmem p2) bd i = word (pmem (pm h)) bd i).
  { intros i Hi. rewrite Em2. apply word_same; [apply F9; [apply Hl|congruence]|lia]. }
  exists p2. split_and!; try done; [|by rewrite Ep2| |intros f Hf Hne; rewrite Em2; by apply F9].
  - apply boot_hinv; [done|apply Hl|apply Hh|]. intros j Hj. cbn. rewrite Hw by done. by apply (ly_boot _ _ _ Hl).
  - right. exists t. split_and!; try done; [by rewrite Kt; apply A2|]. rewrite Et, Z.eqb_refl by lia. by rewrite A4.
Qed.

Lemma extended_step m m2 p i hi : 512 <= i -> i < hi <= 1024 -> flag (word m bd i) PAGE_PRESENT = false ->
  direct_mapped m2 i -> (forall j, 0 <= j < 1024 -> j <> i -> word m2 bd j = word m bd j) ->
  same_frame m2 (pmem p) (i686_get_frame (word m2 bd i)) -> extended m2 p (i + 1) hi -> extended m p i hi.
Proof.
  intros Hi Hlt Hab [Dm Dw] Hw Hs (e & He & E1 & E2 & E3).
  exists e. split_and!; [lia|lia| | |done].
  - intros j Hj Hja. destruct (decide (j = i)) as [->|Hne]; [|apply E1; [lia|by rewrite Hw by lia]].
    assert (Hwi : word (pmem p) bd i = word m2 bd i) by (apply E2; lia). split; rewrite Hwi; [done|].
    intros k Hk. rewrite <- (Dw k Hk). by apply word_same.
  - intros j Hj Hc. destruct (decide (j = i)) as [->|Hne]; [destruct Hc as [|[|Hc]]; [lia|lia|congruence]|].
    rewrite E2; [by apply Hw; lia|done|]. rewrite Hw by lia. destruct Hc as [|[|]]; [lia|lia|auto].
Qed.

Lemma extend_direct_map_ok n : forall h K i, hinv bd h (boot_spaces K) -> 512 <= i -> i + Z.of_nat n <= 1024 ->
  exists h' K', extend_direct_map n h bd i = Some h' /\ hinv bd h' (boot_spaces K') /\ cr3 h' = cr3 h /\ protected_frames (pm h') = protected_frames (pm h) /\
    (forall f, f ∈ K -> is_frame f -> f <> bd -> same_frame (pmem (pm h)) (pmem (pm h')) f) /\
    extended (pmem (pm h)) (pm h') i (i + Z.of_nat n).
Proof.
  induction n as [|n IH]; intros h K i Hh Hi Hn; cbn [extend_direct_map].
  { exists h, K. split_and!; try done. apply extended_here; [done|lia|left; lia]. }
  change (pte_of h bd i) with (word (pmem (pm h)) bd i). unfold i686_is_present. destruct (flag (word (pmem (pm h)) bd i) PAGE_PRESENT) eqn:Hpr.
  { destruct (IH h K (i + 1) Hh ltac:(lia) ltac:(lia)) as (h' & K' & E & I1 & I2 & I3 & I4 & (e & I5 & I6 & I7 & I8)). exists h', K'. split_and!; try done.
    exists e. split_and!; [lia|lia|intros j Hj Hja; apply I6; [|done]; destruct (decide (j = i)); [subst; congruence|lia]|intros j Hj Hc; apply I7; [done|]|destruct I8; [left; lia|by right]].
    destruct (decide (j = i)) as [->|]; [lia|]. destruct Hc as [|[|]]; [lia|lia|auto]. }
  pose proof (hi_lay _ _ _ Hh) as Hl. destruct (hinv_alloc bd h _ Hh) as (t & p1 & Ea & Epf & [(-> & Hno & Hh' & Em)|Hfr]); rewrite Ea, opt_bind.
  { exists (set_pm h p1), K. split_and!; try done; [intros f _ _ _; cbn; rewrite Em; apply same_frame_refl|].
    apply extended_here; [done|lia|]. right. left. by eapply no_table_frame; [apply Hh|exact Ea|]. }
  pose proof Hfr as (F1 & F2 & F3 & Fb & _). pose proof (fresh_not_kern _ _ _ _ Hfr) as Hnk. cbn in Hnk. rewrite (proj2 (Z.eqb_neq t _)) by done. case_if.
  - destruct (table_given_back h K t p1 Hh Hfr Epf ltac:(lia)) as (p2 & E2 & H2 & Ep2 & Ht2 & Hw2 & Hs2). rewrite pm_set_pm, E2, opt_bind.
    exists (set_pm h p2), K. split_and!; try done; [intros f Hf Hff Hfb; apply Hs2; [done|congruence]|].
    exists i. split_and!; [lia|lia|lia|intros j Hj _; by apply Hw2|by right].
  - destruct (direct_table_full 1024 h K t p1 i eq_refl Hh Hfr Epf ltac:(lia)) as (D1 & D2 & D3 & D4 & D5 & D6 & D7). set (h2 := vmm_flush_tlb _ 0) in *. clearbody h2.
    destruct (IH _ _ (i + 1) D1 ltac:(lia) ltac:(lia)) as (h' & K' & E & I1 & I2 & I3 & I4 & I5). exists h', K'. split; [exact E|]. split; [exact I1|]. split; [by rewrite I2|]. split; [by rewrite I3|]. split.
    + intros f Hf Hff Hfb. eapply same_frame_trans; [apply D7; (done || congruence)|]. apply I4; [set_solver|done|done].
    + replace (i + Z.of_nat (S n)) with (i + 1 + Z.of_nat n) by lia.
      eapply (extended_step _ (pmem (pm h2))); try done; [lia|]. rewrite D5. apply I4; [set_solver|done|done].
Qed.

(** ** The initialisation *)

(** The frames that the kernel half of the boot directory points to. *)
Definition boot_frames (m : mem) : list Z :=
  i686_get_frame <$> filter (fun e => flag e PAGE_PRESENT = true /\ i686_get_frame e <> 0) (word m bd <$> seqZ 512 512).

Lemma boot_frames_spec m f : f ∈ boot_frames m <-> exists i, 512 <= i < 1024 /\ flag (word m bd i) PAGE_PRESENT = true /\ i686_get_frame (word m bd i) = f /\ f <> 0.
Proof.
  unfold boot_frames. rewrite list_elem_of_fmap. split.
  - intros (e & -> & He). apply list_elem_of_filter in He as [[Hp Hz] He]. apply list_elem_of_fmap in He as (i & -> & Hi). apply elem_of_seqZ in Hi. exists i. split_and!; (done || lia).
  - intros (i & Hi & Hp & <- & Hz). exists (word m bd i). split; [done|]. apply list_elem_of_filter. split; [done|]. apply list_elem_of_fmap. exists i. split; [done|]. apply elem_of_seqZ. lia.
Qed.

(** The machine as the boot code and [pmm_init] leave it. *)
Record boot_machine (s : vmm) : Prop := BootMachine {
  bm_inv : inv (pm (hw s));
  bm_prot : prot_ok (pm (hw s));
  bm_lock : lock_free (pmm_lock (pm (hw s)));
  bm_total : total_frames (pm (hw s)) <= 2 ^ 19;
  bm_zero : test_frame (pm (hw s)) 0 = true;
  bm_dir : kernel_frame (pm (hw s)) bd;
  bm_tables : forall i, 512 <= i < 1024 -> flag (pte_of (hw s) bd i) PAGE_PRESENT = true ->
    i686_get_frame (pte_of (hw s) bd i) = 0 \/ kernel_frame (pm (hw s)) (i686_get_frame (pte_of (hw s) bd i));
  bm_active : active_page_directories s = [];
  bm_counts : forall f, prot_count (protected_frames (pm (hw s))) f < 2 ^ 31
}.

Lemma boot_start s : is_frame bd -> boot_machine s -> hinv bd (hw s) (boot_spaces ({[bd]} ∪ list_to_set (boot_frames (pmem (pm (hw s)))))).
Proof.
  intros Hf [B1 B2 B3 B4 B5 B6 B7 B8 B9]. apply boot_hinv.
  - apply boot_acct; try done. intros k Hk. apply elem_of_union in Hk as [Hk|Hk]; [by apply elem_of_singleton in Hk as ->|].
    apply elem_of_list_to_set, boot_frames_spec in Hk as (i & Hi & Hp & <- & Hz). by destruct (B7 i Hi Hp).
  - done.
  - by apply elem_of_union_l, elem_of_singleton.
  - intros i Hi Hp. destruct (decide (i686_get_frame (word (pmem (pm (hw s))) bd i) = 0)) as [|Hz]; [by left|right]. cbn.
    apply elem_of_union_r, elem_of_list_to_set, boot_frames_spec. by exists i.
Qed.

(** The entry after the last that the direct map needs: one for every 1024 frames. *)
Definition direct_end (p : pmm) : Z := 512 + (total_frames p + 1023) / 1024.

(** What the start leaves, from the machine [s]. *)
Record vmm_started (s s' : vmm) : Prop := VmmStarted {
  vs_registered : active_page_directories s' = [bd];
  vs_current : current_dir_phys s' = bd /\ cr3 (hw s') = bd;
  vs_direct : extended (pmem (pm (hw s))) (pm (hw s')) 516 (Z.max 516 (direct_end (pm (hw s))));
  vs_protected : forall f, f = bd \/ f ∈ boot_frames (pmem (pm (hw s'))) -> held (pm (hw s')) f;
  vs_counts : forall f, prot_count (protected_frames (pm (hw s'))) f <= 2 ^ 31 + 513
}.

Lemma extended_protects m p p' lo hi : protects p p' -> pmem p' = pmem p -> extended m p lo hi -> extended m p' lo hi.
Proof.
  intros (Ht & Hu & _) Em (e & E1 & E2 & E3 & E4). exists e. rewrite Em. split_and!; try done; [lia..|].
  destruct E4 as [|[Hn|(f & F1 & F2 & F3 & F4)]]; [by left|right; left|right; right].
  - intros i Hi. rewrite Ht in Hi. rewrite Hu. by apply Hn.
  - exists f. by rewrite Ht, Hu.
Qed.

Variable B : Z.
Hypothesis HB : kva bd = B.

Lemma end_pde_spec p : inv p -> total_frames p <= 2 ^ 19 ->
  let m := u32 (pi_total_frames (info p) * PAGE_SIZE) in
  512 + Z.shiftr (u32 ((if 0x80000000 <? m then 0x80000000 else m) + 0x3FFFFF)) 22 = direct_end p.
Proof.
  intros Hi Ht. rewrite (inv_total p Hi). pose proof (sh_total p (inv_shape p Hi)). unfold direct_end, PAGE_SIZE. cbv zeta.
  rewrite (u32_small (total_frames p * 4096)) by lia. rewrite (proj2 (Z.ltb_ge _ _)) by lia.
  rewrite Z.shiftr_div_pow2 by lia. rewrite u32_small by lia. change (2 ^ 22) with 4194304. Z.to_euclidean_division_equations. lia.
Qed.

Lemma vmm_init_ok s : is_frame bd -> boot_machine s ->
  exists s', vmm_init B s = Some s' /\ represents bd s' ∅ bd /\ vmm_started s s'.
Proof.
  intros Hf Hbm. pose proof (boot_start s Hf Hbm) as H0. set (K := {[bd]} ∪ _) in *. destruct Hbm as [B1 B2 B3 B4 B5 B6 B7 B8 B9]. unfold vmm_init. rewrite (boot_frame bd B HB Hf).
  cbv zeta. set (s1 := if hal_mmu_get_current_page_table _ =? bd then _ else _).
  assert (H1 : hinv bd (hw s1) (boot_spaces K) /\ cr3 (hw s1) = bd /\ current_dir_phys s1 = bd /\ lock_free (vmm_lock s1) /\ active_page_directories s1 = [] /\ pm (hw s1) = pm (hw s)).
  { unfold s1. case_if; [done|]. cbn. rewrite u32_small by (destruct Hf; lia). destruct H0. by split_and!. }
  destruct H1 as (H1 & Hc1 & Hcur1 & Hl1 & Ha1 & Hp1). unfold pmm_get_info. rewrite Hp1, (end_pde_spec (pm (hw s))) by done.
  assert (Hend : direct_end (pm (hw s)) <= 1024) by (unfold direct_end; Z.to_euclidean_division_equations; lia).
  destruct (extend_direct_map_ok (Z.to_nat (direct_end (pm (hw s)) - 516)) (hw s1) K 516 H1 ltac:(lia) ltac:(lia)) as (h2 & K2 & E2 & H2 & Hc2 & Hpf2 & _ & Hext). rewrite E2, opt_bind.
  replace (516 + Z.of_nat _) with (Z.max 516 (direct_end (pm (hw s)))) in Hext by lia. rewrite Hp1 in Hext.
  pose proof (hi_bd _ _ _ H2) as Hbd2. assert (Hcnt : forall f, protections (pm h2) f < 2 ^ 31) by (intros f; unfold protections; rewrite Hpf2, Hp1; apply B9).
  unfold register_page_directory. cbn [active_page_directories set_hw]. rewrite Ha1. cbn [length]. change (MAX_PAGE_DIRECTORIES <=? Z.of_nat 0) with false. cbv iota. rewrite is_active_spec.
  cbn [active_page_directories set_hw]. rewrite Ha1. rewrite bool_decide_eq_false_2 by (by apply not_elem_of_nil). destruct B6 as (K1 & Kr & K3).
  unfold protect_phys_frame. rewrite frame_not_special by (done || lia). cbn [hw set_hw].
  destruct (protect_kern (pm h2) _ bd (hi_acct _ _ _ H2) Hbd2 ltac:(specialize (Hcnt bd); lia)) as (p3 & -> & Ha3 & Em3 & Hp3 & Hpp3 & Hhd3). rewrite !opt_bind. cbn [hw set_hw set_active].
  assert (H3 : hinv bd (set_pm h2 p3) (boot_spaces K2)) by (by apply hinv_pm).
  destruct (protect_range_ok bd _ bd 512 (set_pm h2 p3) 512 H3) as (p4 & E4 & H4 & Em4 & _ & Hp4 & _ & Hpp4 & Hhd4).
  { intros j Hj. apply (ly_boot _ _ _ (hi_lay _ _ _ H3)). lia. }
  { intros f. cbn. specialize (Hp3 f). specialize (Hcnt f). case_if_in Hp3; lia. }
  cbn [app]. cbv beta. change KERNEL_PDE_START with 512. cbn [hw set_hw set_active]. rewrite E4, opt_bind. cbn [pm set_pm] in *. eexists. split; [done|]. split; [split|split].
  - exists (boot_spaces K2). split; [|by intros d; rewrite lookup_empty]. split; cbn [hw set_hw set_active current_dir_phys vmm_lock active_page_directories cr3 set_pm]; try done.
    + by rewrite Hc2, Hc1, Hcur1.
    + right. by rewrite Hc2.
    + split_and!; [apply NoDup_singleton| |done]. intros x Hx. apply list_elem_of_singleton in Hx as ->. by right.
  - cbn. by rewrite Hc2.
  - done.
  - cbn. by rewrite Hc2.
  - cbn. apply (extended_protects _ (pm h2)); [by eapply protects_trans|congruence|exact Hext].
  - cbn. intros f [->|Hin]; [by apply Hpp4|]. apply boot_frames_spec in Hin as (i & Hi & Hpr & <- & Hz). rewrite Em4 in *. apply Hhd4; (done || lia).
  - intros f. cbn. specialize (Hp4 f). specialize (Hp3 f). specialize (Hcnt f). unfold protections in *. case_if_in Hp3; lia.
Qed.

End init.

