(* ===== verification/MmProps.v ===== *)
(** * Memory system calls and address spaces

    [sys_brk], [sys_mmap] and [sys_munmap] on a machine that represents
    address spaces: what each does to the space of the caller, on success and
    on every failure. *)

From S2P Require Import Prelude Spinlock Mem Pmm PmmFacts PmmProps PmmSteps Task Paging Vmm MmCalls FrameMem Spaces Layout UserSpace SpaceOps.
From S2P Require Import SpaceMap SpaceProps.

(** [F'] is [F] with the [n] pages from [v] on given by [P]. *)
Definition ranged (F F' : gmap Z apage) (v n : Z) (P : Z -> option apage) : Prop :=
  forall u, F' !! u = if decide (v <= u < v + n) then P u else F !! u.

Lemma ranged_none F F' v n P : n <= 0 -> ranged F F' v n P -> F' = F.
Proof. intros Hn H. apply map_eq. intros u. by rewrite H, decide_False by lia. Qed.

Lemma ranged_nil F v P : ranged F F v 0 P.
Proof. intros u. by rewrite decide_False by lia. Qed.

(** One page more at the end, or at the start. *)
Lemma ranged_snoc F F' v n P : 0 <= n -> ranged F F' v n P ->
  ranged F (partial_alter (fun _ => P (v + n)) (v + n) F') v (n + 1) P.
Proof.
  intros Hn H u. destruct (decide (u = v + n)) as [->|Hne].
  - by rewrite lookup_partial_alter_eq, decide_True by lia.
  - rewrite lookup_partial_alter_ne, H by done. destruct (decide (v <= u < v + n)); [by rewrite decide_True by lia|by rewrite decide_False by lia].
Qed.

Lemma ranged_cons F F1 F' v n P : 0 <= n -> F1 = partial_alter (fun _ => P v) v F -> ranged F1 F' (v + 1) n P -> ranged F F' v (n + 1) P.
Proof.
  intros Hn -> H u. rewrite H. destruct (decide (u = v)) as [->|Hne].
  - by rewrite decide_False, decide_True, lookup_partial_alter_eq by lia.
  - rewrite lookup_partial_alter_ne by done. destruct (decide (v + 1 <= u < _)); [by rewrite decide_True by lia|by rewrite decide_False by lia].
Qed.

Section calls.
Variable bd : Z.

Lemma continues_refl s g A : vinv bd s g -> shows (pmem (pm (hw s))) g A -> continues bd s A s g.
Proof. by intros. Qed.

Lemma continues_trans s A1 s1 g1 A2 s2 g2 : continues bd s A1 s1 g1 -> continues bd s1 A2 s2 g2 -> continues bd s A2 s2 g2.
Proof. intros (_ & _ & C3 & C4 & C5) (D1 & D2 & D3 & D4 & D5). unfold continues. by rewrite D3, D4, D5, C3, C4, C5. Qed.

(** ** Ranges of pages *)

Lemma drop_pages_ok n : forall s g A d F v, vinv bd s g -> shows (pmem (pm (hw s))) g A -> A !! d = Some F -> 0 <= v -> v + Z.of_nat n <= 2 ^ 19 ->
  exists s' g' F', drop_pages n s d (v * PAGE_SIZE) = Some s' /\ continues bd s (<[d := F']> A) s' g' /\ ranged F F' v (Z.of_nat n) (fun _ => None).
Proof.
  induction n as [|n IH]; intros s g A d F v Hv Hs HF Hv0 Hn; cbn [drop_pages].
  - exists s, g, F. rewrite insert_id by done. split_and!; try done. apply ranged_nil.
  - destruct (drop_page_ok bd s g A d F v Hv Hs HF ltac:(lia)) as (s1 & g1 & -> & C1). rewrite opt_bind. pose proof C1 as (V1 & S1 & _).
    destruct (IH s1 g1 _ d (delete v F) (v + 1) V1 S1 (lookup_insert_eq _ _ _) ltac:(lia) ltac:(lia)) as (s' & g' & F' & E & C2 & R).
    replace ((v + 1) * PAGE_SIZE) with (v * PAGE_SIZE + PAGE_SIZE) in E by lia. exists s', g', F'. rewrite insert_insert_eq in C2. split_and!; [done|by eapply continues_trans|].
    rewrite Nat2Z.inj_succ. unfold Z.succ. eapply ranged_cons; [lia| |exact R]. done.
Qed.

(** The pages [k ..] of a mapping, with [C k] in the [k]th. *)
Lemma mmap_pages_ok d A F v w fill C m : 0 <= v -> forall n s g F1 k, vinv bd s g -> shows (pmem (pm (hw s))) g (<[d := F1]> A) ->
  A !! d = Some F -> 0 <= k -> k + Z.of_nat n = m -> v + m <= 2 ^ 19 ->
  ranged F F1 v k (fun u => Some (APage (C (u - v)) w)) -> (forall j, 0 <= j < m -> fills (fill j) (C j)) -> (forall u, v <= u < v + m -> F !! u = None) ->
  exists r s' g', mmap_pages n s d (v * PAGE_SIZE) k (page_flags w) fill = Some (r, s') /\
    ((exists F', r = v * PAGE_SIZE /\ continues bd s (<[d := F']> A) s' g' /\ ranged F F' v m (fun u => Some (APage (C (u - v)) w))) \/
     r = MM_FAILED /\ continues bd s A s' g' /\ frees (pm (hw s)) < 2 * Z.of_nat n).
Proof.
  intros Hv0. induction n as [|n IH]; intros s g F1 k Hv Hs HF Hk Hn Hm R Hfill Hfree; cbn [mmap_pages].
  { exists (v * PAGE_SIZE), s, g. split; [done|]. left. exists F1. split; [done|]. split; [done|]. by replace m with k by lia. }
  replace (v * PAGE_SIZE + k * PAGE_SIZE) with ((v + k) * PAGE_SIZE) by lia.
  assert (HF1 : F1 !! (v + k) = None) by (rewrite R, decide_False by lia; apply Hfree; lia).
  destruct (new_page_ok bd s g _ d F1 (v + k) w (fill k) (C k) Hv Hs (lookup_insert_eq _ _ _) ltac:(lia) HF1 (Hfill k ltac:(lia))) as (r & s1 & g1 & -> & C1 & Hfr).
  rewrite opt_bind. pose proof C1 as (V1 & S1 & _). destruct r.
  - rewrite insert_insert_eq in S1, C1. pose proof (ranged_snoc _ _ _ _ _ Hk R) as R1. cbv beta in R1. replace (v + k - v) with k in R1 by lia.
    destruct (IH s1 g1 _ (k + 1) V1 S1 HF ltac:(lia) ltac:(lia) Hm R1 Hfill Hfree) as (r & s' & g' & E & Hc).
    exists r, s', g'. split; [done|]. destruct Hc as [(F' & Hr & C2 & R2)|(Hr & C2 & Hlt)]; [left; exists F'|right]; split_and!; try done; try lia; by eapply continues_trans.
  - destruct (drop_pages_ok (Z.to_nat k) s1 g1 _ d F1 v V1 S1 (lookup_insert_eq _ _ _) Hv0 ltac:(lia)) as (s' & g' & F' & -> & C2 & R2). rewrite opt_bind.
    exists MM_FAILED, s', g'. split; [done|]. right. split; [done|]. split; [|lia]. rewrite insert_insert_eq in C2.
    assert (F' = F) as ->; [|rewrite insert_id in C2 by done; by eapply continues_trans].
    apply map_eq. intros u. rewrite R2, Z2Nat.id by lia. destruct (decide (v <= u < v + k)) as [Hu|Hu]; [symmetry; apply Hfree; lia|]. by rewrite R, decide_False.
Qed.

(** The pages a growing heap gets. *)
Lemma grow_heap_ok d : forall n s g A F v, vinv bd s g -> shows (pmem (pm (hw s))) g A ->
  A !! d = Some F -> 0 <= v -> v + Z.of_nat n <= 2 ^ 19 -> (forall u, v <= u < v + Z.of_nat n -> F !! u = None) ->
  exists all k s' g' F', grow_heap n s d (v * PAGE_SIZE) = Some (all, (v + k) * PAGE_SIZE, s') /\ 0 <= k <= Z.of_nat n /\
    continues bd s (<[d := F']> A) s' g' /\ ranged F F' v k (fun _ => Some (APage (replicate (Z.to_nat PAGE_SIZE) 0) true)) /\
    (if all then k = Z.of_nat n else k < Z.of_nat n /\ frees (pm (hw s)) < 2 * Z.of_nat n).
Proof.
  induction n as [|n IH]; intros s g A F v Hv Hs HF Hv0 Hn Hfree; cbn [grow_heap].
  { exists true, 0, s, g, F. rewrite Z.add_0_r, insert_id by done. split_and!; try done. apply ranged_nil. }
  destruct (new_page_ok bd s g A d F v true (fun m _ => m) (replicate (Z.to_nat PAGE_SIZE) 0) Hv Hs HF ltac:(lia) (Hfree v ltac:(lia))) as (r & s1 & g1 & E1 & C1 & Hfr).
  { exact (store_fills [] (Forall_nil_2 _) (Nat.le_0_l _)). }
  change (Z.lor (Z.lor PAGE_PRESENT PAGE_WRITE) PAGE_USER) with (page_flags true). rewrite E1, opt_bind. pose proof C1 as (V1 & S1 & _). destruct r.
  - destruct (IH s1 g1 _ _ (v + 1) V1 S1 (lookup_insert_eq _ _ _) ltac:(lia) ltac:(lia)) as (all & k & s' & g' & F' & E & Hk & C2 & R & Hall).
    { intros u Hu. rewrite lookup_insert_ne by lia. apply Hfree. lia. }
    replace ((v + 1) * PAGE_SIZE) with (v * PAGE_SIZE + PAGE_SIZE) in E by lia. exists all, (k + 1), s', g', F'. rewrite E. rewrite insert_insert_eq in C2.
    split_and!; try lia; [do 2 f_equal; f_equal; lia|by eapply continues_trans|eapply ranged_cons; [lia|done|exact R]|]. destruct all; lia.
  - exists false, 0, s1, g1, F. rewrite Z.add_0_r, insert_id by done. split_and!; try done; try lia. apply ranged_nil.
Qed.

(** ** Free ranges *)

Lemma align_up_pages x : 0 <= x -> x + PAGE_SIZE <= 2 ^ 32 -> PAGE_ALIGN_UP I686 x = (x + PAGE_SIZE - 1) / PAGE_SIZE * PAGE_SIZE.
Proof.
  intros Hx Hlt. destruct (PAGE_ALIGN_UP_spec I686 x Hx ltac:(unfold PAGE_SIZE in *; cbn; lia)) as [H1 H2]. unfold PAGE_SIZE in *. Z.to_euclidean_division_equations. lia.
Qed.

Lemma align_down_pages x : 0 <= x < 2 ^ 32 -> PAGE_ALIGN_DOWN I686 x = x / PAGE_SIZE * PAGE_SIZE.
Proof.
  intros Hx. change (PAGE_ALIGN_DOWN I686 x) with (i686_get_frame x). destruct (mask_split x Hx) as [-> _]. unfold PAGE_SIZE. Z.to_euclidean_division_equations. lia.
Qed.

Lemma turns_pages v n : 0 <= v -> 0 <= n -> v + n < 2 ^ 20 -> turns_of (v * PAGE_SIZE) (n * PAGE_SIZE) = Z.to_nat n.
Proof.
  intros Hv Hn Hlt. unfold turns_of. rewrite u32_small by (unfold PAGE_SIZE; lia). f_equal. unfold PAGE_SIZE. Z.to_euclidean_division_equations. lia.
Qed.

Lemma range_free_spec h g d : layout bd (pmem (pm h)) g -> own g !! d = Some RDir -> forall n v, 0 <= v -> v + Z.of_nat n <= 2 ^ 19 ->
  is_vaddr_range_free n h d (v * PAGE_SIZE) = true <-> forall u, v <= u < v + Z.of_nat n -> pages g !! (d, u) = None.
Proof.
  intros Hl Hd. induction n as [|n IH]; intros v Hv Hn; cbn [is_vaddr_range_free]; [split; [lia|done]|].
  destruct (virt_indices (v * PAGE_SIZE) ltac:(unfold PAGE_SIZE; lia)) as [I1 I2]. unfold i686_pde_index, i686_pte_index in I1, I2. rewrite u32_small in I1, I2 by (unfold PAGE_SIZE; lia). rewrite I1, I2.
  destruct (page_start_of v ltac:(lia)) as (_ & _ & ->). destruct (user_page v ltac:(lia)) as [Hi Hj]. change (PAGE_MASK I686) with 0xFFFFF000. fold (i686_get_frame (pte_of h d (v / 1024))).
  pose proof (ly_dir _ _ _ Hl d (v / 1024) Hd Hi) as Hpde. unfold pde_ok in Hpde. change (word (pmem (pm h)) d (v / 1024)) with (pte_of h d (v / 1024)) in Hpde.
  assert (Hb : flag (pte_of h d (v / 1024)) PAGE_PRESENT && flag (pte_of h (i686_get_frame (pte_of h d (v / 1024))) (v mod 1024)) PAGE_PRESENT = bool_decide (is_Some (pages g !! (d, v)))).
  { destruct (tables g !! (d, v / 1024)) as [t|] eqn:Et.
    - destruct Hpde as (P1 & _ & P3 & _). rewrite P1, P3. pose proof (ly_page _ _ _ Hl d _ t _ Et Hj) as He. rewrite page_join in He.
      change (word (pmem (pm h)) t (v mod 1024)) with (pte_of h t (v mod 1024)) in He. destruct (pages g !! (d, v)) as [e|]; cbn in He; [destruct He as [-> ->]|rewrite He]; done.
    - rewrite Hpde. destruct (pages g !! (d, v)) as [e|] eqn:Ep; [|done]. destruct (ly_in _ _ _ Hl _ _ _ Ep) as [_ [t Ht]]. congruence. }
  rewrite Hb. clear Hb Hpde. replace (v * PAGE_SIZE + PAGE_SIZE) with ((v + 1) * PAGE_SIZE) by lia. case_bool_decide as Hp.
  - split; [done|]. intros H. destruct Hp as [e He]. rewrite H in He by lia. done.
  - rewrite IH by lia. split; intros H u Hu; [|apply H; lia]. destruct (decide (u = v)) as [->|]; [by apply eq_None_not_Some|apply H; lia].
Qed.

Definition region_first : Z := MMAP_REGION_START / PAGE_SIZE.
Definition region_last : Z := MMAP_REGION_END / PAGE_SIZE.

Lemma search_spec h g d n : layout bd (pmem (pm h)) g -> own g !! d = Some RDir -> 0 < n -> forall m v, 0 < v -> v + Z.of_nat m + n <= 2 ^ 19 + 1 ->
  let r := search_vaddr m h d (v * PAGE_SIZE) (n * PAGE_SIZE) in
  (r = 0 /\ forall u, v <= u < v + Z.of_nat m -> exists x, u <= x < u + n /\ is_Some (pages g !! (d, x))) \/
  exists u, r = u * PAGE_SIZE /\ v <= u < v + Z.of_nat m /\ forall x, u <= x < u + n -> pages g !! (d, x) = None.
Proof.
  intros Hl Hd Hn. induction m as [|m IH]; intros v Hv Hm; cbn [search_vaddr]; [left; split; [done|lia]|].
  rewrite turns_pages by lia. destruct (is_vaddr_range_free (Z.to_nat n) h d (v * PAGE_SIZE)) eqn:E.
  - right. exists v. split; [done|]. split; [lia|]. rewrite (range_free_spec h g d Hl Hd) in E by lia. by rewrite Z2Nat.id in E by lia.
  - replace (v * PAGE_SIZE + PAGE_SIZE) with ((v + 1) * PAGE_SIZE) by lia. destruct (IH (v + 1) ltac:(lia) ltac:(lia)) as [[Hr Hnone]|(u & Hr & Hu & Hfree)].
    + left. split; [done|]. intros u Hu. destruct (decide (u = v)) as [->|]; [|apply Hnone; lia].
      destruct (decide (Forall (fun x => pages g !! (d, x) = None) (seqZ v n))) as [Hall|Hnot].
      * exfalso. rewrite list.Forall_forall in Hall. apply not_true_iff_false in E. apply E. rewrite (range_free_spec h g d Hl Hd) by lia. intros x Hx. apply Hall. apply elem_of_seqZ. lia.
      * apply list.not_Forall_Exists, list.Exists_exists in Hnot as (x & Hx & Hp); [|intros x; apply _]. apply elem_of_seqZ in Hx. exists x. split; [lia|by apply not_eq_None_Some].
    + right. exists u. split; [done|]. split; [lia|done].
Qed.

(** What the search for [n] free pages yields. *)
Definition found (F : gmap Z apage) (n r : Z) : Prop :=
  (r = 0 /\ forall u, region_first <= u -> u + n <= region_last -> exists x, u <= x < u + n /\ is_Some (F !! x)) \/
  exists u, r = u * PAGE_SIZE /\ region_first <= u /\ u + n <= region_last /\ forall x, u <= x < u + n -> F !! x = None.

Lemma find_spec s g A d F hint n : vinv bd s g -> shows (pmem (pm (hw s))) g A -> A !! d = Some F ->
  0 <= hint -> 0 < n <= region_last - region_first -> hint + n * PAGE_SIZE + PAGE_SIZE <= 2 ^ 32 ->
  found F n (find_free_vaddr (hw s) d hint (n * PAGE_SIZE)).
Proof.
  intros Hv Hs HF Hh Hn Hlt. pose proof (hi_lay _ _ _ (vi_h _ _ _ Hv)) as Hl. destruct (shows_some _ _ _ _ _ Hs HF) as [Hd HFv]. change region_first with 0x40000 in *. change region_last with 0x70000 in *.
  assert (Hnone : forall x, pages g !! (d, x) = None <-> F !! x = None) by (intros x; rewrite HFv; by destruct (pages g !! (d, x))).
  unfold find_free_vaddr. rewrite align_up_pages by (unfold PAGE_SIZE in *; lia). set (u := (hint + PAGE_SIZE - 1) / PAGE_SIZE).
  assert (Hu : 0 <= u /\ u * PAGE_SIZE <= hint + PAGE_SIZE - 1) by (unfold u, PAGE_SIZE in *; Z.to_euclidean_division_equations; lia). clearbody u.
  rewrite turns_pages by (unfold PAGE_SIZE in *; lia). rewrite u32_small by (unfold PAGE_SIZE in *; lia). unfold found. change region_first with 0x40000. change region_last with 0x70000.
  destruct (negb (hint =? 0) && _ && _ && _) eqn:E.
  - rewrite !andb_true_iff in E. destruct E as [[[_ H1] H2] H3]. apply Z.leb_le in H1, H2. unfold MMAP_REGION_START, MMAP_REGION_END, PAGE_SIZE in H1, H2. right. exists u.
    rewrite (range_free_spec (hw s) g d Hl Hd) in H3 by lia. split_and!; try lia. intros x Hx. apply Hnone, H3. lia.
  - clear E. set (m := Z.to_nat _). assert (Hm : Z.of_nat m = 0x30000 - n + 1).
    { unfold m, MMAP_REGION_START, MMAP_REGION_END, PAGE_SIZE. Z.to_euclidean_division_equations. lia. }
    clearbody m. change MMAP_REGION_START with (0x40000 * PAGE_SIZE).
    destruct (search_spec (hw s) g d n Hl Hd ltac:(lia) m 0x40000 ltac:(lia) ltac:(lia)) as [[-> Hx]|(x & -> & Hx & Hfree)].
    + left. split; [done|]. intros y H1 H2. destruct (Hx y ltac:(lia)) as (z & Hz & Hp). exists z. split; [done|]. rewrite HFv. by apply fmap_is_Some.
    + right. exists x. split_and!; try lia. intros y Hy. by apply Hnone, Hfree.
Qed.

End calls.

(** ** Contents of a mapping *)

(** The file [f] may be mapped: the descriptor is a regular file whose access
    mode allows the protection, writes only where they are shared. *)
Definition may_map (fd prot flags : Z) (file : option mapped_file) (f : mapped_file) : Prop :=
  0 <= fd /\ file = Some f /\ mf_regular f = true /\
  (Z.testbit prot 0 = true -> mf_flags f mod 4 = 0 \/ mf_flags f mod 4 = 2) /\
  (Z.testbit prot 1 = true -> Z.testbit flags 1 = false -> mf_flags f mod 4 = 1 \/ mf_flags f mod 4 = 2).

(** A read returns at most what was asked for. *)
Definition reads_ok (f : mapped_file) : Prop :=
  0 <= mf_size f < 2 ^ 32 /\
  forall o n, 0 <= n -> Z.of_nat (length (mf_read f o n)) <= n /\ Forall (fun c => 0 <= c < 256) (mf_read f o n).

(** The bytes of page [k]: zeros, or the file from [offset] on. *)
Definition mapped_bytes (source : option mapped_file) (offset k : Z) : list Z :=
  zero_pad
    match source with
    | None => []
    | Some f =>
        let o := offset + k * PAGE_SIZE in
        if decide (o < mf_size f) then mf_read f o (Z.min PAGE_SIZE (mf_size f - o)) else []
    end.

Definition filler (source : option mapped_file) (offset : Z) : Z -> mem -> Z -> mem :=
  match source with None => fun _ m _ => m | Some f => file_page f offset end.

Lemma flag_bit x k : 0 <= k -> flag x (2 ^ k) = Z.testbit x k.
Proof.
  intros Hk. unfold flag. destruct (Z.testbit x k) eqn:E.
  - apply negb_true_iff, Z.eqb_neq. intros H. assert (Hb : Z.testbit (Z.land x (2 ^ k)) k = false) by (rewrite H; apply Z.bits_0).
    rewrite Z.land_spec, E, Z.pow2_bits_true in Hb by done. done.
  - apply negb_false_iff, Z.eqb_eq. apply Z.bits_inj'. intros n Hn. rewrite Z.land_spec, Z.bits_0, Z.pow2_bits_eqb by done. destruct (Z.eqb_spec k n) as [->|]; [by rewrite E|apply andb_false_r].
Qed.

Lemma file_allowed_spec fd prot flags file f : file_allowed fd prot flags file = Some f <-> may_map fd prot flags file f.
Proof.
  unfold file_allowed, may_map. destruct (Z.ltb_spec fd 0); [split; [done|lia]|]. destruct file as [f'|]; [rewrite opt_bind|split; [done|by intros (_ & ? & _)]].
  pose proof (flag_bit prot 0 ltac:(lia)) as E0. pose proof (flag_bit prot 1 ltac:(lia)) as E1. pose proof (flag_bit flags 1 ltac:(lia)) as E2.
  change (2 ^ 0) with PROT_READ in E0. change (2 ^ 1) with PROT_WRITE in E1. change (2 ^ 1) with MAP_PRIVATE in E2. rewrite E0, E1, E2.
  change 3 with (Z.ones 2). rewrite Z.land_ones by lia. change (2 ^ 2) with 4.
  destruct (mf_regular f') eqn:Er; cbn [negb]; [|split; [done|intros (_ & [= ->] & ? & _); congruence]]. split.
  - intros H0. destruct (Z.testbit prot 0), (Z.testbit prot 1), (Z.testbit flags 1), (Z.eqb_spec (mf_flags f' mod 4) 0), (Z.eqb_spec (mf_flags f' mod 4) 1), (Z.eqb_spec (mf_flags f' mod 4) 2);
      cbn in H0; try done; injection H0 as <-; (split_and!; [lia|done|done|intros ?; (done || lia)|intros ? ?; (done || lia)]).
  - intros (_ & [= ->] & _ & H1 & H2). destruct (Z.testbit prot 0), (Z.testbit prot 1), (Z.testbit flags 1), (Z.eqb_spec (mf_flags f mod 4) 0), (Z.eqb_spec (mf_flags f mod 4) 1), (Z.eqb_spec (mf_flags f mod 4) 2);
      cbn; try done; try (specialize (H1 eq_refl)); try (specialize (H2 eq_refl eq_refl)); lia.
Qed.

Lemma filler_fills source offset k : 0 <= offset -> 0 <= k -> offset + k * PAGE_SIZE + PAGE_SIZE < 2 ^ 32 -> (forall f, source = Some f -> reads_ok f) ->
  fills (filler source offset k) (mapped_bytes source offset k).
Proof.
  intros Ho Hk Hlt Hf. unfold filler, mapped_bytes. destruct source as [f|]; [|exact (store_fills [] (Forall_nil_2 _) (Nat.le_0_l _))].
  destruct (Hf f eq_refl) as [Hsz Hr]. unfold PAGE_SIZE in *. cbv zeta. set (o := offset + k * 4096) in *.
  assert (E : forall m p, file_page f offset k m p = store_bytes (if decide (o < mf_size f) then mf_read f o (Z.min 4096 (mf_size f - o)) else []) m p).
  { intros m p. unfold file_page, PAGE_SIZE. rewrite (u32_small (offset + k * 4096)) by lia. fold o. rewrite (u32_small (o + 4096)) by lia. destruct (Z.ltb_spec o (mf_size f)).
    - rewrite decide_True by done. f_equal. f_equal. destruct (Z.ltb_spec (mf_size f) (o + 4096)); lia.
    - by rewrite decide_False by lia. }
  assert (Hs : fills (store_bytes (if decide (o < mf_size f) then mf_read f o (Z.min 4096 (mf_size f - o)) else [])) (zero_pad (if decide (o < mf_size f) then mf_read f o (Z.min 4096 (mf_size f - o)) else []))).
  { apply store_fills; destruct (decide (o < mf_size f)); try done; [apply Hr; lia| |cbn; lia]. destruct (Hr o (Z.min 4096 (mf_size f - o)) ltac:(lia)) as [Hlen _]. unfold PAGE_SIZE. lia. }
  intros m fr Hfr Hz. rewrite E. exact (Hs m fr Hfr Hz).
Qed.

(** ** The calls *)

Lemma continues_represents bd s A s' g' cur : continues bd s A s' g' -> cr3 (hw s) = cur -> represents bd s' A cur.
Proof. intros Hc Hcur. by destruct (continues_step bd s A s' g' cur Hc Hcur). Qed.

(** Requests that fail before memory is touched. *)
Definition mmap_rejected (len prot flags fd offset : Z) (file : option mapped_file) : Prop :=
  len = 0 \/ MMAP_REGION_END - MMAP_REGION_START < len \/ offset mod PAGE_SIZE <> 0 \/
  Z.testbit flags 5 = false /\ ~ exists f, may_map fd prot flags file f.

(** The source of the pages: nothing for an anonymous mapping. *)
Definition mmap_source (prot flags fd : Z) (file source : option mapped_file) : Prop :=
  if Z.testbit flags 5 then source = None else exists f, source = Some f /\ may_map fd prot flags file f.

(** What [sys_mmap] leaves: [n] new pages in a hole of the mapping region, or
    the space as it was. *)
Definition mmap_result (bd : Z) (s : vmm) (A : aspaces) (cur : Z) (F : gmap Z apage) (d n len prot flags fd offset : Z) (file : option mapped_file) (r : Z) (s' : vmm) : Prop :=
  (exists v source F', r = v * PAGE_SIZE /\ region_first <= v /\ v + n <= region_last /\ (forall u, v <= u < v + n -> F !! u = None) /\
     ~ mmap_rejected len prot flags fd offset file /\ mmap_source prot flags fd file source /\ represents bd s' (<[d := F']> A) cur /\
     ranged F F' v n (fun u => Some (APage (mapped_bytes source offset (u - v)) (Z.testbit prot 1)))) \/
  r = MM_FAILED /\ represents bd s' A cur /\
    (mmap_rejected len prot flags fd offset file \/
     (forall v, region_first <= v -> v + n <= region_last -> exists u, v <= u < v + n /\ is_Some (F !! u)) \/
     frees (pm (hw s)) < 2 * n).

Lemma pages_of_length len : 0 < len -> len + 2 * PAGE_SIZE <= 2 ^ 32 ->
  let n := (len + PAGE_SIZE - 1) / PAGE_SIZE in 0 < n /\ n * PAGE_SIZE < len + PAGE_SIZE /\ (n <= region_last - region_first <-> len <= MMAP_REGION_END - MMAP_REGION_START).
Proof.
  intros H1 H2. cbv zeta. change (region_last - region_first) with 0x30000. unfold MMAP_REGION_START, MMAP_REGION_END, PAGE_SIZE in *. Z.to_euclidean_division_equations. lia.
Qed.

Lemma mmap_mapped bd s A cur F d n v len prot flags fd offset file source : represents bd s A cur -> A !! d = Some F ->
  0 < n -> region_first <= v -> v + n <= region_last -> (forall u, v <= u < v + n -> F !! u = None) ->
  ~ mmap_rejected len prot flags fd offset file -> mmap_source prot flags fd file source -> 0 <= offset -> offset + n * PAGE_SIZE < 2 ^ 32 -> (forall f, source = Some f -> reads_ok f) ->
  exists r s', mmap_pages (turns_of (v * PAGE_SIZE) (n * PAGE_SIZE)) s d (v * PAGE_SIZE) 0 (set_if (flag prot PROT_WRITE) PAGE_WRITE (Z.lor PAGE_PRESENT PAGE_USER)) (filler source offset) = Some (r, s') /\
    mmap_result bd s A cur F d n len prot flags fd offset file r s'.
Proof.
  intros [(g & Hv & Hs) Hc] HF Hn Hv1 Hv2 Hfree Hrej Hsrc Ho Hlt Hrd. change region_first with 0x40000 in *. change region_last with 0x70000 in *.
  change (flag prot PROT_WRITE) with (flag prot (2 ^ 1)). rewrite flag_bit by lia. fold (page_flags (Z.testbit prot 1)). rewrite turns_pages by lia.
  destruct (mmap_pages_ok bd d A F v (Z.testbit prot 1) (filler source offset) (mapped_bytes source offset) n ltac:(lia) (Z.to_nat n) s g F 0 Hv) as (r & s' & g' & E & Hr); try done; try lia.
  { by rewrite insert_id. } { apply ranged_nil. } { intros j Hj. apply filler_fills; try done; unfold PAGE_SIZE in *; lia. }
  exists r, s'. split; [exact E|]. destruct Hr as [(F' & -> & Hco & R)|(-> & Hco & Hlow)].
  - left. exists v, source, F'. split_and!; try done. by eapply continues_represents.
  - right. split; [done|]. split; [by eapply continues_represents|]. right. right. lia.
Qed.

(** What the checks of [sys_mmap] leave to do. *)
Lemma mmap_checks c s addr len prot flags fd offset file : pr_is_user_process c = true -> 0 < len -> len + 2 * PAGE_SIZE <= 2 ^ 32 ->
  let n := (len + PAGE_SIZE - 1) / PAGE_SIZE in
  (mmap_rejected len prot flags fd offset file /\ sys_mmap (Some c) s addr len prot flags fd offset file = Some (MM_FAILED, s)) \/
  (~ mmap_rejected len prot flags fd offset file /\ exists source, mmap_source prot flags fd file source /\
     sys_mmap (Some c) s addr len prot flags fd offset file =
       let vaddr := find_free_vaddr (hw s) (pr_page_dir_phys c) addr (n * PAGE_SIZE) in
       if vaddr =? 0 then Some (MM_FAILED, s)
       else mmap_pages (turns_of vaddr (n * PAGE_SIZE)) s (pr_page_dir_phys c) vaddr 0 (set_if (flag prot PROT_WRITE) PAGE_WRITE (Z.lor PAGE_PRESENT PAGE_USER)) (filler source offset)).
Proof.
  intros Hu Hl Hlt n. destruct (pages_of_length len Hl Hlt) as (Hn & Hn2 & Hn3). fold n in Hn, Hn2, Hn3. unfold sys_mmap. rewrite Hu. cbn [negb]. rewrite align_up_pages by (unfold PAGE_SIZE in *; lia).
  fold n. cbv zeta. rewrite (proj2 (Z.eqb_neq (n * PAGE_SIZE) 0)) by (unfold PAGE_SIZE; lia). change (region_last - region_first) with 0x30000 in Hn3.
  destruct (Z.ltb_spec (MMAP_REGION_END - MMAP_REGION_START) (n * PAGE_SIZE)) as [Hbig|Hbig].
  { left. split; [|done]. right. left. unfold MMAP_REGION_START, MMAP_REGION_END, PAGE_SIZE in *. lia. }
  assert (Ho : flag offset (PAGE_SIZE - 1) = negb (offset mod PAGE_SIZE =? 0)).
  { unfold flag, PAGE_SIZE. change (4096 - 1) with (Z.ones 12). by rewrite Z.land_ones by lia. }
  rewrite Ho. destruct (Z.eqb_spec (offset mod PAGE_SIZE) 0) as [Hoff|Hoff]; cbn [negb]; [|left; split; [by right; right; left|done]].
  change (flag flags MAP_ANONYMOUS) with (flag flags (2 ^ 5)). rewrite flag_bit by lia. unfold mmap_source, mmap_rejected.
  assert (Hlen : ~ (MMAP_REGION_END - MMAP_REGION_START < len)) by (unfold MMAP_REGION_START, MMAP_REGION_END, PAGE_SIZE in *; lia).
  destruct (Z.testbit flags 5) eqn:Ea; cbn [negb andb].
  - right. split; [by intros [?|[?|[?|[? _]]]]; [lia|..]|]. by exists None.
  - destruct (file_allowed fd prot flags file) as [f|] eqn:Ef.
    + right. apply file_allowed_spec in Ef. split; [intros [?|[?|[?|[_ Hno]]]]; [lia|done|done|by apply Hno; exists f]|]. exists (Some f). split; [by exists f|]. done.
    + left. split; [|done]. right; right; right. split; [done|]. intros [f Hf]. apply file_allowed_spec in Hf. congruence.
Qed.

(** C7: A memory mapping, of a length and at a hinted address and file
    offset whose sums do not wrap in 32 bits: on success the pages lie in a
    hole of the mapping region and hold zeros or the file; nothing else of any
    address space changes.  A failed call leaves every space as it was, and it
    fails only for a bad request, when no hole is large enough or when there
    are fewer free frames than two for each page.  (Sums that wrap are
    accepted by the code, see [mm_ranges_wrap].) *)
Theorem sys_mmap_correct bd s A cur c F addr len prot flags fd offset file :
  represents bd s A cur -> pr_is_user_process c = true -> A !! pr_page_dir_phys c = Some F ->
  0 <= addr -> 0 <= len -> addr + len + 2 * PAGE_SIZE <= 2 ^ 32 -> 0 <= offset -> offset + len + PAGE_SIZE <= 2 ^ 32 ->
  (forall f, file = Some f -> reads_ok f) ->
  exists r s', sys_mmap (Some c) s addr len prot flags fd offset file = Some (r, s') /\
    mmap_result bd s A cur F (pr_page_dir_phys c) ((len + PAGE_SIZE - 1) / PAGE_SIZE) len prot flags fd offset file r s'.
Proof.
  intros Hr Hu HF Ha Hl Hlt Ho Hoff Hrd. destruct (decide (len = 0)) as [->|Hl0].
  { exists MM_FAILED, s. split; [unfold sys_mmap; by rewrite Hu|]. right. split; [done|]. split; [done|]. left. by left. }
  set (n := (len + PAGE_SIZE - 1) / PAGE_SIZE). destruct (pages_of_length len ltac:(lia) ltac:(lia)) as (Hn & Hn2 & Hn3). fold n in Hn, Hn2, Hn3.
  destruct (mmap_checks c s addr len prot flags fd offset file Hu ltac:(lia) ltac:(lia)) as [[Hrej E]|(Hrej & source & Hsrc & E)].
  { exists MM_FAILED, s. split; [done|]. right. split; [done|]. split; [done|]. by left. }
  fold n in E. rewrite E. cbv zeta. pose proof Hr as [(g & Hv & Hs) _].
  assert (Hn4 : n <= region_last - region_first) by (apply Hn3; destruct (Z.le_gt_cases len (MMAP_REGION_END - MMAP_REGION_START)); [done|]; exfalso; apply Hrej; right; left; lia).
  destruct (find_spec bd s g A (pr_page_dir_phys c) F addr n Hv Hs HF Ha ltac:(lia) ltac:(lia)) as [[-> Hnone]|(v & -> & Hv1 & Hv2 & Hfree)].
  - exists MM_FAILED, s. split; [done|]. right. split; [done|]. split; [done|]. right. by left.
  - change region_first with 0x40000 in *. change region_last with 0x70000 in *. rewrite (proj2 (Z.eqb_neq (v * PAGE_SIZE) 0)) by (unfold PAGE_SIZE; lia).
    apply mmap_mapped; try done; [lia|]. unfold mmap_source in Hsrc. intros f ->. destruct (Z.testbit flags 5); [done|]. destruct Hsrc as (f' & [= ->] & (_ & Hfile & _)). by apply Hrd.
Qed.

(** C31: Unmapping a range whose address plus length, rounded up to pages,
    does not wrap in 32 bits: the pages that the range touches leave the space
    of the caller and nothing else changes; a range that leaves the user half
    is refused.  (A range that wraps is not refused, see [mm_ranges_wrap].) *)
Theorem sys_munmap_correct bd s A cur c F addr len :
  represents bd s A cur -> pr_is_user_process c = true -> A !! pr_page_dir_phys c = Some F ->
  0 <= addr -> 0 <= len -> addr + len + PAGE_SIZE <= 2 ^ 32 ->
  let first := addr / PAGE_SIZE in
  let last := (addr + len + PAGE_SIZE - 1) / PAGE_SIZE in
  exists r s', sys_munmap (Some c) s addr len = Some (r, s') /\
    if decide (first = last) then r = 0 /\ s' = s
    else if decide (USER_SPACE_END / PAGE_SIZE < last) then r = MM_FAILED /\ s' = s
    else exists F', r = 0 /\ represents bd s' (<[pr_page_dir_phys c := F']> A) cur /\ ranged F F' first (last - first) (fun _ => None).
Proof.
  intros [(g & Hv & Hs) Hc] Hu HF Ha Hl Hlt first last. unfold sys_munmap. rewrite Hu. cbn [negb]. rewrite align_down_pages by (unfold PAGE_SIZE in *; lia). fold first.
  assert (H1 : 0 <= first /\ first * PAGE_SIZE <= addr < first * PAGE_SIZE + PAGE_SIZE) by (unfold first, PAGE_SIZE; Z.to_euclidean_division_equations; lia).
  assert (H2 : first <= last /\ addr + len <= last * PAGE_SIZE < addr + len + PAGE_SIZE) by (unfold first, last, PAGE_SIZE; Z.to_euclidean_division_equations; lia).
  assert (Hlen : PAGE_ALIGN_UP I686 (u32 (len + (addr - first * PAGE_SIZE))) = (last - first) * PAGE_SIZE).
  { rewrite u32_small, align_up_pages by (unfold PAGE_SIZE in *; lia). f_equal. unfold last, PAGE_SIZE. replace (len + (addr - first * 4096) + 4096 - 1) with (addr + len + 4096 - 1 + - first * 4096) by lia.
    rewrite Z.div_add by lia. lia. }
  rewrite Hlen. clear Hlen. change (USER_SPACE_END / PAGE_SIZE) with (2 ^ 19). change USER_SPACE_END with (2 ^ 19 * PAGE_SIZE). unfold PAGE_SIZE in *. rewrite (u32_small (first * 4096 + _)) by lia.
  destruct (decide (first = last)) as [<-|Hne]; [rewrite Z.sub_diag; by exists 0, s|]. rewrite (proj2 (Z.eqb_neq ((last - first) * 4096) 0)) by lia. destruct (decide (2 ^ 19 < last)) as [Hbig|Hbig].
  - exists MM_FAILED, s. split; [|done]. rewrite (proj2 (Z.ltb_lt (2 ^ 19 * 4096) _)), orb_true_r by lia. done.
  - rewrite (proj2 (Z.ltb_ge (2 ^ 19 * 4096) _)), (proj2 (Z.leb_gt (2 ^ 19 * 4096) _)) by lia. cbn [orb]. pose proof (turns_pages first (last - first) ltac:(lia) ltac:(lia) ltac:(lia)) as Ht. unfold PAGE_SIZE in Ht. rewrite Ht.
    destruct (drop_pages_ok bd (Z.to_nat (last - first)) s g A (pr_page_dir_phys c) F first Hv Hs HF ltac:(lia) ltac:(lia)) as (s' & g' & F' & E & Hco & R).
    unfold PAGE_SIZE in E. rewrite E, opt_bind. exists 0, s'. split; [done|]. exists F'. split; [done|]. split; [by eapply continues_represents|]. by rewrite Z2Nat.id in R by lia.
Qed.

(** C30: The heap of a process whose growth meets no mapped page: the break
    moves within its limits; pages are added zeroed and writable, page by page
    until memory runs out, or removed, and the break that is returned is the
    one the process has.  That no page between the old break and the new one
    is mapped is required: the code does not look, and replaces a mapping that
    is there without freeing its frame. *)
Theorem sys_brk_correct bd s A cur c F addr :
  represents bd s A cur -> pr_is_user_process c = true -> A !! pr_page_dir_phys c = Some F ->
  0 < pr_heap_start c <= pr_heap_end c -> pr_heap_end c <= pr_heap_max c -> pr_heap_max c + PAGE_SIZE <= 2 ^ 31 -> 0 <= addr < 2 ^ 32 ->
  let old := (pr_heap_end c + PAGE_SIZE - 1) / PAGE_SIZE in
  let new := (addr + PAGE_SIZE - 1) / PAGE_SIZE in
  (forall u, old <= u < new -> u * PAGE_SIZE < pr_heap_max c -> F !! u = None) ->
  exists r c' s', sys_brk (Some c) s addr = Some (r, Some c', s') /\
    if decide (addr = 0) then r = pr_heap_end c /\ c' = c /\ s' = s
    else if decide (addr < pr_heap_start c \/ pr_heap_max c < addr) then r = MM_FAILED /\ c' = c /\ s' = s
    else exists F', c' = set_heap_end c r /\ represents bd s' (<[pr_page_dir_phys c := F']> A) cur /\
      if decide (new < old) then r = addr /\ ranged F F' new (old - new) (fun _ => None)
      else exists k, 0 <= k <= new - old /\ ranged F F' old k (fun _ => Some (APage (replicate (Z.to_nat PAGE_SIZE) 0) true)) /\
        if decide (k = new - old) then r = addr else r = (old + k) * PAGE_SIZE /\ frees (pm (hw s)) < 2 * (new - old).
Proof.
  intros [(g & Hv & Hs) Hc] Hu HF Hh1 Hh2 Hmax Ha old new Hfree. unfold sys_brk. rewrite Hu. cbn [negb]. destruct (decide (addr = 0)) as [->|Ha0].
  { exists (pr_heap_end c), c, s. rewrite Z.eqb_refl, u32_small by (unfold PAGE_SIZE in *; lia). done. }
  rewrite (proj2 (Z.eqb_neq addr 0)) by done. destruct (decide (addr < pr_heap_start c \/ pr_heap_max c < addr)) as [Hout|Hin].
  { exists MM_FAILED, c, s. split; [|done]. destruct (Z.ltb_spec addr (pr_heap_start c)); [done|]. by rewrite (proj2 (Z.ltb_lt (pr_heap_max c) addr)) by lia. }
  rewrite (proj2 (Z.ltb_ge addr _)), (proj2 (Z.ltb_ge (pr_heap_max c) _)) by lia. rewrite u32_small by (unfold PAGE_SIZE in *; lia). rewrite !align_up_pages by (unfold PAGE_SIZE in *; lia). fold old new.
  assert (Ho : 0 <= old < 2 ^ 19 /\ old * PAGE_SIZE < pr_heap_end c + PAGE_SIZE) by (unfold old, PAGE_SIZE in *; Z.to_euclidean_division_equations; lia).
  assert (Hn : 0 <= new < 2 ^ 19 /\ new * PAGE_SIZE < addr + PAGE_SIZE) by (unfold new, PAGE_SIZE in *; Z.to_euclidean_division_equations; lia). clearbody old new. cbv zeta.
  destruct (decide (new < old)) as [Hless|Hge].
  - rewrite (proj2 (Z.ltb_ge (old * PAGE_SIZE) _)) by (unfold PAGE_SIZE; lia). rewrite <- Z.mul_sub_distr_r, Z.div_mul by done.
    destruct (drop_pages_ok bd (Z.to_nat (old - new)) s g A (pr_page_dir_phys c) F new Hv Hs HF ltac:(lia) ltac:(lia)) as (s' & g' & F' & -> & Hco & R). rewrite opt_bind.
    eexists addr, _, s'. split; [done|]. exists F'. split; [done|]. split; [by eapply continues_represents|]. split; [done|]. by rewrite Z2Nat.id in R by lia.
  - destruct (Z.ltb_spec (old * PAGE_SIZE) (new * PAGE_SIZE)) as [Hlt|Heq].
    + rewrite <- Z.mul_sub_distr_r, Z.div_mul by done.
      destruct (grow_heap_ok bd (pr_page_dir_phys c) (Z.to_nat (new - old)) s g A F old Hv Hs HF ltac:(lia) ltac:(lia)) as (all & k & s' & g' & F' & -> & Hk & Hco & R & Hall).
      { intros u Hu'. apply Hfree; [lia|]. unfold PAGE_SIZE in *. lia. }
      rewrite opt_bind. rewrite Z2Nat.id in Hk, Hall by lia. exists (if all then addr else (old + k) * PAGE_SIZE), (set_heap_end c (if all then addr else (old + k) * PAGE_SIZE)), s'.
      split; [destruct all; [done|]; rewrite u32_small by (unfold PAGE_SIZE in *; lia); done|]. exists F'. split; [done|]. split; [by eapply continues_represents|]. exists k. split; [done|]. split; [done|].
      destruct all; [by rewrite decide_True|]. rewrite decide_False by lia. lia.
    + assert (new = old) as -> by (unfold PAGE_SIZE in *; lia). rewrite Z.sub_diag. cbn [drop_pages Z.div Z.to_nat]. eexists addr, _, s. split; [done|]. exists F. rewrite insert_id by done.
      split; [done|]. split; [by split; [exists g|]|]. exists 0. split; [lia|]. split; [apply ranged_nil|]. by rewrite decide_True by lia.
Qed.

(** Ranges that wrap around the address space: [sys_mmap] with a hint near
    its end returns that hint, an address of the kernel half, with nothing
    mapped, and [sys_munmap] reports success without unmapping anything. *)
Theorem mm_ranges_wrap c s v n prot flags fd file :
  pr_is_user_process c = true -> 0 <= v < 2 ^ 20 -> 0 < n ->
  (MMAP_REGION_START <= v * PAGE_SIZE -> n * PAGE_SIZE <= MMAP_REGION_END - MMAP_REGION_START -> 2 ^ 32 <= (v + n) * PAGE_SIZE -> Z.testbit flags 5 = true ->
     sys_mmap (Some c) s (v * PAGE_SIZE) (n * PAGE_SIZE) prot flags fd 0 file = Some (v * PAGE_SIZE, s)) /\
  (v * PAGE_SIZE < USER_SPACE_END -> n < 2 ^ 20 -> 2 ^ 32 <= (v + n) * PAGE_SIZE <= 2 ^ 32 + USER_SPACE_END ->
     sys_munmap (Some c) s (v * PAGE_SIZE) (n * PAGE_SIZE) = Some (0, s)).
Proof.
  intros Hu Hv Hn. assert (Hup : forall x, 0 <= x < 2 ^ 20 -> PAGE_ALIGN_UP I686 (x * PAGE_SIZE) = x * PAGE_SIZE).
  { intros x Hx. rewrite align_up_pages by (unfold PAGE_SIZE; lia). f_equal. unfold PAGE_SIZE. Z.to_euclidean_division_equations. lia. }
  assert (Hturn : 2 ^ 32 <= (v + n) * PAGE_SIZE -> n < 2 ^ 20 -> u32 (v * PAGE_SIZE + n * PAGE_SIZE) = (v + n) * PAGE_SIZE - 2 ^ 32 /\ turns_of (v * PAGE_SIZE) (n * PAGE_SIZE) = 0%nat).
  { intros H1 H2. assert (E : u32 (v * PAGE_SIZE + n * PAGE_SIZE) = (v + n) * PAGE_SIZE - 2 ^ 32) by (unfold u32, PAGE_SIZE in *; Z.to_euclidean_division_equations; lia).
    split; [done|]. unfold turns_of. rewrite E. unfold PAGE_SIZE in *. apply Z2Nat.nonpos. Z.to_euclidean_division_equations. lia. }
  split.
  - intros H1 H2 H3 H4. assert (Hn20 : n < 2 ^ 20) by (unfold MMAP_REGION_START, MMAP_REGION_END, PAGE_SIZE in *; lia). destruct (Hturn H3 Hn20) as [E1 E2].
    unfold sys_mmap. rewrite Hu. cbn [negb]. rewrite Hup by lia. rewrite (proj2 (Z.eqb_neq (n * PAGE_SIZE) 0)) by (unfold PAGE_SIZE; lia). rewrite (proj2 (Z.ltb_ge _ (n * PAGE_SIZE))) by lia.
    change (flag flags MAP_ANONYMOUS) with (flag flags (2 ^ 5)). rewrite flag_bit, H4 by lia. change (flag 0 (PAGE_SIZE - 1)) with false. cbn [negb andb]. cbv zeta.
    assert (Ef : find_free_vaddr (hw s) (pr_page_dir_phys c) (v * PAGE_SIZE) (n * PAGE_SIZE) = v * PAGE_SIZE).
    { unfold find_free_vaddr. rewrite Hup, E1, E2 by lia. cbn [is_vaddr_range_free]. rewrite (proj2 (Z.eqb_neq (v * PAGE_SIZE) 0)) by (unfold MMAP_REGION_START in *; lia).
      rewrite (proj2 (Z.leb_le MMAP_REGION_START _)), (proj2 (Z.leb_le _ MMAP_REGION_END)) by (unfold MMAP_REGION_START, MMAP_REGION_END, PAGE_SIZE in *; lia). done. }
    rewrite Ef. rewrite (proj2 (Z.eqb_neq (v * PAGE_SIZE) 0)) by (unfold MMAP_REGION_START in *; lia). unfold do_mmap_anonymous. by rewrite E2.
  - intros H1 H2 H3. destruct (Hturn ltac:(lia) H2) as [E1 E2]. unfold sys_munmap. rewrite Hu. cbn [negb]. rewrite align_down_pages by (unfold PAGE_SIZE; lia).
    rewrite Z.div_mul, Z.sub_diag, Z.add_0_r by done. rewrite (u32_small (n * PAGE_SIZE)), Hup by (unfold PAGE_SIZE; lia). rewrite (proj2 (Z.eqb_neq (n * PAGE_SIZE) 0)) by (unfold PAGE_SIZE; lia).
    rewrite E1, E2. rewrite (proj2 (Z.leb_gt _ _)), (proj2 (Z.ltb_ge _ _)) by (unfold USER_SPACE_END, PAGE_SIZE in *; lia). done.
Qed.
