(* ===== verification/SpaceExamples.v ===== *)
(** * Physical memory and address spaces on small machines

    The witnesses of the theorems about page frames and about address
    spaces. *)

From S2P Require Import Prelude Spinlock Mem Pmm PmmFacts PmmProps PmmSteps PmmInit.

(** ** The physical memory manager on a concrete machine

    A machine with 4 MB of memory, booted by [pmm_init_boot_info]: the
    instances at which the PMM theorems apply, and two computed runs that show
    defects: [pmm_free_huge_page] releases protected frames, and overlapping
    regions of the memory map are counted twice. *)

Definition pmm_zero : pmm :=
  Pmm [] 0 0 (PmmInfo 0 0 0 0 0 0) 0 (LockSt 0 true) [] [] 0 0 0 ∅.

Definition small_map : boot_info :=
  BootInfo true [BootMmapEntry 0 0x9F000 1; BootMmapEntry 0x9F000 0x61000 2; BootMmapEntry 0x100000 0x300000 1]
    [BootModule 0x180000 0x182800].
Definition small_kernel_end : Z := 0xFFFF800000150000.

Definition boot_pmm : pmm :=
  default pmm_zero (pmm_init_boot_info X86_64 0 small_kernel_end small_map pmm_zero).

Lemma small_map_disjoint :
  regions_disjoint id (ly_kernel_end (boot_layout X86_64 0 small_kernel_end small_map))
    (ly_refcount_end (boot_layout X86_64 0 small_kernel_end small_map)) (bi_mmap small_map).
Proof.
  change (ly_kernel_end _) with 0x150000.
  replace (ly_refcount_end _) with 0x152000 by (vm_compute; reflexivity).
  split; [|split; [|split; [|done]]]; intros i; [|done|].
  - intros Hi. exfalso. unfold in_region in Hi. vm_compute in Hi. done.
  - done.
Qed.

Lemma boot_pmm_good : good X86_64 boot_pmm.
Proof.
  unfold boot_pmm. rewrite pmm_init_boot_info_build by (vm_compute; done). cbn [default].
  apply build_good; [by intros x y|..|by repeat constructor]; try (vm_compute; done).
  intros t j Hj. by apply Z.ltb_lt.
Qed.

(** The parts of [good] as separate facts. *)
Lemma boot_inv : inv boot_pmm.
Proof. apply boot_pmm_good. Qed.
Lemma boot_prot : prot_ok boot_pmm.
Proof. apply boot_pmm_good. Qed.
Lemma boot_lock : lock_free (pmm_lock boot_pmm).
Proof. apply boot_pmm_good. Qed.
Lemma boot_addressable : addressable X86_64 boot_pmm.
Proof. apply boot_pmm_good. Qed.

Lemma pmm_alloc_frame_correct_witness :
  exists r s', pmm_alloc_frame X86_64 boot_pmm = Some (r, s') /\ keeps boot_pmm s' /\
    alloc_result X86_64 boot_pmm s' r.
Proof.
  apply pmm_alloc_frame_correct; [exact boot_inv|exact boot_prot|exact boot_lock].
Defined.

(** Frame 0x100000 belongs to the kernel image: it has one reference. *)
Lemma pmm_free_frame_correct_witness :
  exists s', pmm_free_frame boot_pmm 0x100000 = Some s' /\ test_frame s' 0x100 = false.
Proof.
  destruct (pmm_free_frame_correct boot_pmm 0x100000 boot_inv boot_prot boot_lock ltac:(lia))
    as (s' & E & _ & _ & H).
  exists s'. split; [exact E|].
  assert (freeable boot_pmm 0x100000 = true) as Hf by (vm_compute; reflexivity). rewrite Hf in H.
  destruct H as [_ H]. rewrite H by lia. vm_compute. reflexivity.
Defined.

Lemma cow_sharing_witness :
  exists s1 s2,
    (s ← times 3 (share 0x100000) boot_pmm; times 3 (unshare 0x100000) s) = Some s1 /\
    test_frame s1 (PADDR_TO_PFN 0x100000) = true /\
    unshare 0x100000 s1 = Some s2 /\ test_frame s2 (PADDR_TO_PFN 0x100000) = false /\
    pi_free_frames (info s2) = pi_free_frames (info s1) + 1.
Proof.
  apply (cow_sharing boot_pmm 0x100000 3 boot_inv boot_lock);
    [lia|vm_compute; reflexivity|vm_compute; reflexivity|lia].
Defined.

Lemma pmm_alloc_frames_correct_witness :
  exists r s', pmm_alloc_frames X86_64 boot_pmm 4 = Some (r, s') /\ keeps boot_pmm s' /\
    run_result X86_64 boot_pmm s' r 4 0 (total_frames boot_pmm).
Proof.
  apply (pmm_alloc_frames_correct X86_64 boot_pmm 4 boot_inv boot_prot boot_lock boot_addressable). lia.
Defined.

Lemma pmm_alloc_frames_zone_correct_witness :
  exists r s', pmm_alloc_frames_zone X86_64 boot_pmm 4 ZONE_DMA = Some (r, s') /\ keeps boot_pmm s' /\
    run_result X86_64 boot_pmm s' r 4 (zone_lo X86_64 ZONE_DMA) (zone_hi X86_64 boot_pmm ZONE_DMA).
Proof.
  apply (pmm_alloc_frames_zone_correct X86_64 boot_pmm 4 ZONE_DMA boot_inv boot_prot boot_lock boot_addressable). lia.
Defined.

Lemma pmm_alloc_huge_page_correct_witness :
  exists r s', pmm_alloc_huge_page X86_64 boot_pmm = Some (r, s') /\ keeps boot_pmm s' /\
    huge_result X86_64 boot_pmm s' r 0 (total_frames boot_pmm).
Proof.
  exact (proj1 (pmm_alloc_huge_page_correct X86_64 boot_pmm ZONE_DMA boot_inv boot_prot boot_lock boot_addressable)).
Defined.

Lemma protection_counted_set_witness :
  exists s', pmm_protect_frame boot_pmm 0x200123 = Some s' /\
    pmm_is_frame_protected s' 0x200123 = Some (true, s').
Proof.
  destruct (protection_counted_set boot_pmm 0x200123 boot_inv boot_prot boot_lock)
    as [(s' & E & _ & _ & _ & H) _].
  - unfold PADDR_INVALID. lia.
  - right. vm_compute. split; reflexivity.
  - exists s'. split; [exact E|exact H].
Defined.

(** A frame of the kernel image is shared, protected, given up once, a heap
    range is reserved, another frame is taken and the protection undone. *)
Definition busy_calls : list pmm_call :=
  [CallRefInc 0x100000; CallProtect 0x100000; CallFree 0x100000; CallReserve 0xFFFF800000300000 0xFFFF800000310000;
   CallAlloc; CallUnprotect 0x100000; CallRefDec 0x100000].

Lemma ref_inc_protected s f r s' : pmm_frame_ref_inc s f = Some (r, s') -> protected_frames s' = protected_frames s.
Proof.
  unfold pmm_frame_ref_inc, pmm_enter. intros H.
  repeat (case_match; simplify_option_eq; try done).
Qed.

Lemma busy_calls_careful s : protected_frames s = [] -> careful_calls X86_64 busy_calls s.
Proof.
  intros Hs. split; [exact I|]. intros s1 E1. simpl in E1.
  destruct (pmm_frame_ref_inc s 0x100000) as [[r s1']|] eqn:E; [|discriminate]. injection E1 as ->.
  split; [|repeat (split; [exact I|]; intros ? _); exact I].
  simpl. rewrite (ref_inc_protected _ _ _ _ E), Hs. reflexivity.
Qed.

Lemma pmm_reachable_good_witness :
  exists s, pmm_calls X86_64 busy_calls boot_pmm = Some s /\ inv s /\ lock_free (pmm_lock s) /\ prot_ok s.
Proof.
  destruct (pmm_reachable_good X86_64 busy_calls boot_pmm boot_pmm_good) as (s & E & Hi & Hl & _ & Hp).
  - repeat constructor; simpl; lia.
  - exists s. split; [exact E|]. split; [exact Hi|]. split; [exact Hl|]. apply Hp.
    apply busy_calls_careful. vm_compute. reflexivity.
Defined.

Lemma pmm_verify_consistency_correct_witness :
  exists b, pmm_verify_consistency boot_pmm = Some (b, boot_pmm) /\ b = true.
Proof.
  destruct (pmm_verify_consistency_correct boot_pmm (inv_shape _ boot_inv) boot_lock) as (b & E & H).
  exists b. split; [exact E|]. apply H. split; [exact (inv_free _ boot_inv)|]. split; [exact (inv_used _ boot_inv)|].
  intros e He. vm_compute in He. inversion He.
Defined.

Lemma pmm_init_boot_info_correct_witness :
  exists s, pmm_init_boot_info X86_64 0 small_kernel_end small_map pmm_zero = Some s /\ good X86_64 s.
Proof.
  destruct (pmm_init_boot_info_correct X86_64 0 small_kernel_end small_map pmm_zero) as (s & E & G & _).
  - reflexivity.
  - vm_compute. discriminate.
  - vm_compute. reflexivity.
  - reflexivity.
  - reflexivity.
  - exact small_map_disjoint.
  - repeat constructor. vm_compute. discriminate.
  - exists s. split; [exact E|exact G].
Defined.

(** The same machine booted by multiboot, on i686. *)
Definition small_mbi : multiboot_info := MultibootInfo 0x48 (bi_mmap small_map) (bi_modules small_map).

Lemma small_mbi_disjoint :
  regions_disjoint (clamp_2gb I686) (ly_kernel_end (mb_layout I686 0x80150000 small_mbi))
    (ly_refcount_end (mb_layout I686 0x80150000 small_mbi)) (mb_mmap small_mbi).
Proof.
  change (ly_kernel_end _) with 0x150000.
  replace (ly_refcount_end _) with 0x152000 by (vm_compute; reflexivity).
  split; [|split; [|split; [|done]]]; intros i; [|done|done].
  intros Hi. exfalso. unfold in_region in Hi. vm_compute in Hi. done.
Qed.

Lemma pmm_init_correct_witness :
  exists s, pmm_init I686 0x80150000 small_mbi pmm_zero = Some s /\ good I686 s.
Proof.
  destruct (pmm_init_correct I686 0x80150000 small_mbi pmm_zero) as (s & E & G & _).
  - vm_compute. discriminate.
  - vm_compute. reflexivity.
  - reflexivity.
  - reflexivity.
  - exact small_mbi_disjoint.
  - repeat constructor. vm_compute. discriminate.
  - exists s. split; [exact E|exact G].
Defined.

(** ** Defects *)

Definition huge_protected : pmm := default pmm_zero (pmm_protect_frame boot_pmm 0x200000).

(** A protected frame is released by [pmm_free_huge_page]: after
    protecting the frame at 2 MB, freeing the huge page there succeeds,
    although [pmm_free_frame] refuses the same frame.  The frame is then free
    in the bitmap while still protected, so the next huge allocation picks
    it again. *)
Theorem free_huge_page_ignores_protection :
  pmm_free_frame huge_protected 0x200000 = Some huge_protected /\
  exists s', pmm_free_huge_page huge_protected 0x200000 = Some s' /\
    is_protected s' 0x200000 = true /\ test_frame s' (PADDR_TO_PFN 0x200000) = false /\
    ~ prot_ok s' /\ find_huge_page_frames s' 0 (total_frames s') = PADDR_TO_PFN 0x200000.
Proof.
  split; [vm_compute; reflexivity|].
  exists (default pmm_zero (pmm_free_huge_page huge_protected 0x200000)).
  assert (is_protected (default pmm_zero (pmm_free_huge_page huge_protected 0x200000)) 0x200000 = true) as H1
    by (vm_compute; reflexivity).
  assert (test_frame (default pmm_zero (pmm_free_huge_page huge_protected 0x200000)) (PADDR_TO_PFN 0x200000) = false) as H2
    by (vm_compute; reflexivity).
  split_and!; [vm_compute; reflexivity|exact H1|exact H2| |vm_compute; reflexivity].
  intros Hp. apply is_protected_in in H1 as (e & He & Hf).
  pose proof (po_used _ Hp e He) as Hu. rewrite Hf, H2 in Hu. specialize (Hu ltac:(vm_compute; reflexivity)). discriminate.
Qed.

(** A map whose second usable region repeats part of the first. *)
Definition overlapping_mbi : multiboot_info :=
  MultibootInfo 0x40 [BootMmapEntry 0x100000 0x300000 1; BootMmapEntry 0x300000 0x100000 1] [].

(** Overlapping usable regions are counted twice: [pmm_init]
    leaves [free_frames] larger than the number of free frames of the bitmap
    and the PMM's own consistency check fails right after boot. *)
Theorem pmm_init_counts_overlap_twice :
  exists s, pmm_init I686 0x80150000 overlapping_mbi pmm_zero = Some s /\
    pi_free_frames (info s) = nfree s + 256 /\
    (exists s', pmm_verify_consistency s = Some (false, s')).
Proof.
  eexists. split; [vm_compute; reflexivity|]. split; [vm_compute; reflexivity|].
  eexists. vm_compute. reflexivity.
Qed.

(** ** Address spaces on a concrete machine

    A machine with 4 MB of memory: booted, with a first process, and with the
    calls of the memory theorems on it; two computed runs show defects. *)

From S2P Require Import Task Paging Vmm MmCalls FrameMem Spaces Layout UserSpace SpaceOps SpaceMap SpaceProps VmmInit MmProps.

(** ** The machine *)

Definition space_pmm : pmm := default pmm_zero (pmm_init_boot_info I686 0 0x80150000 small_map pmm_zero).

Lemma space_pmm_good : PmmSteps.good I686 space_pmm.
Proof.
  unfold space_pmm. rewrite pmm_init_boot_info_build by (vm_compute; done). cbn [default].
  apply build_good; [by intros x y|..|by repeat constructor]; try (vm_compute; done).
  intros t j Hj. by apply Z.ltb_lt.
Qed.

(** The boot directory lies at 0x101000 and maps the first 4 MB through the
    table at 0x102000. *)
Definition boot_dir : Z := 0x80101000.
Definition booted_on (p : pmm) : vmm :=
  Vmm.Vmm (Mmu (set_pmem p (put_word ∅ 0x101000 512 0x102003)) 0x101000 ∅) 0 (LockSt SPINLOCK_UNLOCKED true) [] 0xF0000000 false.

Lemma booted_pde p i : 512 <= i < 1024 -> pte_of (hw (booted_on p)) 0x101000 i = if 512 =? i then 0x102003 else 0.
Proof.
  intros Hi. change (pte_of (hw (booted_on p)) 0x101000 i) with (word (put_word ∅ 0x101000 512 0x102003) 0x101000 i). rewrite put_word_word by lia. case_if; [done|].
  unfold word, rd32, rd. by rewrite !lookup_empty.
Qed.

Lemma good_pmem p m : PmmSteps.good I686 p -> inv (set_pmem p m) /\ prot_ok (set_pmem p m) /\ lock_free (pmm_lock (set_pmem p m)).
Proof. intros (G1 & [P1 P2 P3] & G3 & G4). split; [by apply inv_pmem|]. split; [|done]. by split. Qed.

Lemma booted_on_machine p : PmmSteps.good I686 p -> total_frames p <= 2 ^ 19 -> test_frame p 0 = true ->
  test_frame p 0x101 = true -> test_frame p 0x102 = true -> protected_frames p = [] -> boot_machine 0x101000 (booted_on p).
Proof.
  intros Hg Ht H0 H1 H2 Hp. destruct (good_pmem p (put_word ∅ 0x101000 512 0x102003) Hg) as (G1 & G2 & G3).
  assert (Hk : forall f, f = 0x101000 \/ f = 0x102000 -> kernel_frame (pm (hw (booted_on p))) f).
  { intros f [-> | ->]; (split; [done|split; [lia|]]); intros _; assumption. }
  split; try assumption; [apply Hk; by left| |done|].
  - intros i Hi. rewrite booted_pde by done. case_if; [|done]. intros _. right. apply Hk. by right.
  - intros f. cbn. rewrite Hp. cbn. lia.
Qed.

Definition booted : vmm := booted_on space_pmm.

Lemma booted_machine : boot_machine 0x101000 booted.
Proof. apply booted_on_machine; [exact space_pmm_good|vm_compute; done|vm_compute; reflexivity..]. Qed.

(** A machine with 24 MB: the direct map gets two more tables. *)
Definition wide_map : boot_info :=
  BootInfo true [BootMmapEntry 0 0x9F000 1; BootMmapEntry 0x9F000 0x61000 2; BootMmapEntry 0x100000 0x1700000 1]
    [BootModule 0x180000 0x182800].
Definition wide_pmm : pmm := default pmm_zero (pmm_init_boot_info I686 0 0x80150000 wide_map pmm_zero).

Lemma wide_pmm_good : PmmSteps.good I686 wide_pmm.
Proof.
  unfold wide_pmm. rewrite pmm_init_boot_info_build by (vm_compute; done). cbn [default].
  apply build_good; [by intros x y|..|by repeat constructor]; try (vm_compute; done).
  intros t j Hj. by apply Z.ltb_lt.
Qed.


(** After the start. *)
Definition started : vmm := default booted (vmm_init boot_dir booted).

Lemma started_ok : represents 0x101000 started ∅ 0x101000 /\ forall f, protections (pm (hw started)) f <= 2 ^ 31 + 513.
Proof. unfold started. destruct (vmm_init_ok 0x101000 boot_dir eq_refl booted ltac:(by split) booted_machine) as (s' & -> & H & [_ _ _ _ V]). split; [exact H|exact V]. Qed.

Lemma counts_room s : (forall f, protections (pm (hw s)) f <= 2 ^ 31 + 513) -> forall f, prot_count (protected_frames (pm (hw s))) f + 512 * Z.of_nat 10 < 2 ^ 32 - 1.
Proof. intros H f. specialize (H f). unfold protections in H. lia. Qed.

(** A process is created, forks after a store, and both write. *)
Lemma address_spaces_refine_witness :
  refines_spaces boot_dir (VIRT_TO_PHYS I686 boot_dir)
    [OCreate; OMap 0x152000 5 true [1; 2; 3]; OSwitch 0x152000; OStore 0x5001 7; OFork [] 0x152000; OLoad 0x5001; OStore 0x5001 9; OLoad 0x5001; OSwitch 0x101000; OExit [] 0x152000]
    started ∅ 0x101000.
Proof.
  apply (address_spaces_refine boot_dir started ∅ 0x101000); [reflexivity|exact (proj1 started_ok)|exact (counts_room started (proj2 started_ok))].
Defined.

(** With the directory of a first process. *)
Definition first_process : vmm := snd (default (0, started) (vmm_create_page_directory boot_dir started)).

Lemma first_created B bd s cur : kva bd = B -> represents bd s ∅ cur -> (forall f, protections (pm (hw s)) f <= 2 ^ 31 + 513) ->
  exists r s', vmm_create_page_directory B s = Some (r, s') /\ (r <> 0 -> represents bd s' {[r := ∅]} cur).
Proof.
  intros HB Hr Hb. destruct (op_step bd B HB OCreate s ∅ cur Hr ltac:(intros f; specialize (Hb f); lia) I) as (r & s' & A' & cur' & E & Hs & Hr' & _).
  exists r, s'. split; [exact E|]. intros Hr0. cbn [op_spec] in Hs. rewrite decide_False in Hs by done. destruct Hs as (-> & _ & ->). done.
Qed.

Lemma pick_result (o : option (Z * vmm)) s0 d r s' : o = Some (r, s') -> fst (default (0, s0) o) = d -> r = d /\ snd (default (0, s0) o) = s'.
Proof. by intros -> <-. Qed.

Lemma first_process_dir : fst (default (0, started) (vmm_create_page_directory boot_dir started)) = 0x152000.
Proof. vm_compute. reflexivity. Qed.

Lemma first_process_ok : represents 0x101000 first_process {[0x152000 := ∅]} 0x101000.
Proof.
  destruct (first_created boot_dir 0x101000 started 0x101000 eq_refl (proj1 started_ok) (proj2 started_ok)) as (r & s' & E & Hr).
  destruct (pick_result _ started _ r s' E first_process_dir) as [-> Es]. unfold first_process. rewrite Es. apply Hr. lia.
Qed.

Definition demo_proc : proc := Proc true 0x152000 0x3FFFE000 0x3FFFE100 0x60000000.

(** There are frames enough for what follows. *)
Lemma first_process_frees : 6 <= frees (pm (hw first_process)).
Proof. vm_compute. congruence. Qed.

Lemma demo_accepted : ~ mmap_rejected 0x2345 3 0x20 (-1) 0 None.
Proof. intros [Hz|[Hb|[Ho|[Hf _]]]]; [discriminate Hz|vm_compute in Hb; discriminate Hb|by vm_compute in Ho|by vm_compute in Hf]. Qed.

Lemma sys_mmap_correct_witness :
  exists v s' F', sys_mmap (Some demo_proc) first_process 0 0x2345 3 0x20 (-1) 0 None = Some (v * PAGE_SIZE, s') /\
    region_first <= v /\ v + 3 <= region_last /\ represents 0x101000 s' (<[0x152000 := F']> {[0x152000 := ∅]}) 0x101000 /\
    ranged ∅ F' v 3 (fun u => Some (APage (mapped_bytes None 0 (u - v)) true)).
Proof.
  destruct (sys_mmap_correct 0x101000 first_process {[0x152000 := ∅]} 0x101000 demo_proc ∅ 0 0x2345 3 0x20 (-1) 0 None)
    as (r & s' & E & Hr); [exact first_process_ok|reflexivity|apply lookup_singleton_eq|lia|lia|unfold PAGE_SIZE; lia|lia|unfold PAGE_SIZE; lia|done|].
  change ((0x2345 + PAGE_SIZE - 1) / PAGE_SIZE) with 3 in Hr. change (pr_page_dir_phys demo_proc) with 0x152000 in Hr.
  destruct Hr as [(v & source & F' & -> & Hv1 & Hv2 & _ & _ & Hsrc & Hrep & Hrg)|(_ & _ & [Hrej|[Hnone|Hlow]])].
  - change (mmap_source 3 0x20 (-1) None source) with (source = None) in Hsrc. subst source. exists v, s', F'. exact (conj E (conj Hv1 (conj Hv2 (conj Hrep Hrg)))).
  - exfalso. exact (demo_accepted Hrej).
  - exfalso. destruct (Hnone region_first) as (u & _ & [x Hx]); [apply Z.le_refl|vm_compute; congruence|]. rewrite lookup_empty in Hx. discriminate Hx.
  - exfalso. exact (Z.lt_irrefl _ (Z.lt_le_trans _ _ _ Hlow first_process_frees)).
Defined.

Lemma sys_munmap_correct_witness :
  exists r s', sys_munmap (Some demo_proc) first_process 0x40000800 0x1000 = Some (r, s') /\
    exists F', r = 0 /\ represents 0x101000 s' (<[0x152000 := F']> {[0x152000 := ∅]}) 0x101000 /\ ranged ∅ F' 0x40000 2 (fun _ => None).
Proof.
  apply (sys_munmap_correct 0x101000 first_process _ _ demo_proc ∅ 0x40000800 0x1000); [exact first_process_ok|reflexivity|apply lookup_singleton_eq|lia|lia|unfold PAGE_SIZE; lia].
Defined.

Lemma sys_brk_correct_witness :
  exists s' F', sys_brk (Some demo_proc) first_process 0x40000001 = Some (0x40000001, Some (set_heap_end demo_proc 0x40000001), s') /\
    represents 0x101000 s' (<[0x152000 := F']> {[0x152000 := ∅]}) 0x101000 /\
    ranged ∅ F' 0x3FFFF 2 (fun _ => Some (APage (replicate (Z.to_nat PAGE_SIZE) 0) true)).
Proof.
  assert (H : exists r c' s', sys_brk (Some demo_proc) first_process 0x40000001 = Some (r, Some c', s') /\
    exists F', c' = set_heap_end demo_proc r /\ represents 0x101000 s' (<[0x152000 := F']> {[0x152000 := ∅]}) 0x101000 /\
      exists k, 0 <= k <= 2 /\ ranged ∅ F' 0x3FFFF k (fun _ => Some (APage (replicate (Z.to_nat PAGE_SIZE) 0) true)) /\
        if decide (k = 2) then r = 0x40000001 else r = (0x3FFFF + k) * PAGE_SIZE /\ frees (pm (hw first_process)) < 2 * 2).
  { apply (sys_brk_correct 0x101000 first_process _ _ demo_proc ∅ 0x40000001); [exact first_process_ok|reflexivity|apply lookup_singleton_eq|cbn; lia|cbn; lia|unfold PAGE_SIZE; cbn; lia|lia|].
    intros u _ _. apply lookup_empty. }
  destruct H as (r & c' & s' & E & F' & -> & Hrep & k & Hk & Hrg & Hr). destruct (decide (k = 2)) as [->|Hne].
  - subst r. exists s', F'. exact (conj E (conj Hrep Hrg)).
  - exfalso. destruct Hr as [_ Hlow]. exact (Z.lt_irrefl 4 (Z.le_lt_trans 4 6 4 ltac:(lia) (Z.le_lt_trans _ _ _ first_process_frees Hlow))).
Defined.

Lemma mm_ranges_wrap_witness :
  sys_mmap (Some demo_proc) first_process (0xF0000 * PAGE_SIZE) (0x20000 * PAGE_SIZE) 3 0x20 (-1) 0 None = Some (0xF0000 * PAGE_SIZE, first_process).
Proof. apply (mm_ranges_wrap demo_proc first_process 0xF0000 0x20000 3 0x20 (-1) None); (reflexivity || (unfold MMAP_REGION_START, MMAP_REGION_END, PAGE_SIZE; lia)). Defined.

(** ** Defects *)

(** A page is mapped at the start of the mapping region; then the heap grows
    over it.  The results of the calls, the frames at that address before and
    after, and the references to the first frame. *)
Definition brk_over_mapping : option (Z * Z * Z * Z * Z) :=
  '(r1, s1) ← sys_mmap (Some demo_proc) first_process 0 0x1000 3 0x20 (-1) 0 None;
  '(f1, _) ← hal_mmu_query (hw s1) 0x152000 r1;
  '(r2, _, s2) ← sys_brk (Some demo_proc) s1 0x40000001;
  '(f2, _) ← hal_mmu_query (hw s2) 0x152000 r1;
  Some (r1, f1, r2, f2, refcount (pm (hw s2)) (PADDR_TO_PFN f1)).

(** The heap grows over a mapping: [sys_brk] does not look at what is mapped
    above the break.  The page that [sys_mmap] mapped is replaced by one of
    the heap, its contents are gone from the address space, and its frame
    keeps its reference and is never freed. *)
Theorem brk_replaces_mapping : brk_over_mapping = Some (0x40000000, 0x153000, 0x40000001, 0x157000, 1).
Proof. vm_compute. reflexivity. Qed.

(** A process with one page forks; the child unmaps the page and its empty
    tables are cleaned up.  The child, its directory entry and its table, and
    the free frames before and after the cleanup. *)
Definition cleanup_after_fork : option (Z * Z * Z * Z * Z) :=
  '(_, s1) ← new_page first_process 0x152000 0x5000 (page_flags true) (fun m _ => m);
  '(child, s2) ← vmm_clone_page_directory boot_dir [] s1 0x152000;
  s3 ← drop_page s2 child 0x5000;
  let t := i686_get_frame (pte_of (hw s3) child 0) in
  '(_, s4) ← vmm_cleanup_empty_page_tables s3 child 0x5000 0x6000;
  Some (child, pte_of (hw s4) child 0, t, frees (pm (hw s3)), frees (pm (hw s4))).

(** [vmm_cleanup_empty_page_tables] loses the tables of a forked process:
    [vmm_clone_page_directory] protects them, [pmm_free_frame] refuses
    protected frames, and the directory entry is cleared all the same, so the
    frame is neither used nor free. *)
Theorem cleanup_leaks_cloned_table : cleanup_after_fork = Some (0x155000, 0, 0x156000, 678, 678).
Proof. vm_compute. reflexivity. Qed.
