(* ===== verification/TaskQueue.v ===== *)
(** * The ready queue as a list

    [queue c l] relates the doubly linked list that task.c threads through
    the task control blocks to the list [l] of its members, front first.
    Appending, popping and unlinking are [l ++ [i]], the tail and the removal
    of an element; [relinked] says that they touch nothing but the links. *)

From S2P Require Import Prelude Spinlock Task.

Section queue.
Context {W : Type}.
Implicit Types (c : tcore W) (l : list nat) (i j : nat).

(** ** Blocks *)

Lemma tget_tupd c i j f :
  tget (tupd c i f) j =
    if decide (i = j /\ (i < length (task_pool c))%nat) then f (tget c i) else tget c j.
Proof.
  unfold tget at 1, tupd, set_pool. cbn.
  destruct (decide _) as [[-> Hj]|Hn].
  - by rewrite list_lookup_insert_eq.
  - destruct (decide (i = j)) as [->|Hij]; [|by rewrite list_lookup_insert_ne].
    rewrite list_insert_ge; [done|]. destruct (decide (j < length (task_pool c))%nat); [tauto|lia].
Qed.

Lemma tget_tupd_same c i f : (i < length (task_pool c))%nat -> tget (tupd c i f) i = f (tget c i).
Proof. intros H. rewrite tget_tupd. by destruct (decide _) as [|[]]. Qed.

Lemma tget_tupd_ne c i j f : i <> j -> tget (tupd c i f) j = tget c j.
Proof. intros H. rewrite tget_tupd. by destruct (decide _) as [[]|]. Qed.

Lemma tupd_length c i f : length (task_pool (tupd c i f)) = length (task_pool c).
Proof. apply length_insert. Qed.

(** The queue ends are not in the blocks. *)
Lemma tget_set_head c h i : tget (set_head c h) i = tget c i.
Proof. done. Qed.
Lemma tget_set_tail c h i : tget (set_tail c h) i = tget c i.
Proof. done. Qed.

Lemma tail_tupd c i f : ready_queue_tail (tupd c i f) = ready_queue_tail c.
Proof. done. Qed.
Lemma head_tupd c i f : ready_queue_head (tupd c i f) = ready_queue_head c.
Proof. done. Qed.

(** A property of a field that [f] does not change. *)
Lemma tget_tupd_field {A} (g : task -> A) c i j f :
  (forall t, g (f t) = g t) -> g (tget (tupd c i f) j) = g (tget c j).
Proof. intros H. rewrite tget_tupd. destruct (decide _) as [[-> _]|]; [apply H|done]. Qed.

(** ** Chains *)

(** Where a segment starts when [n] follows it, and where it ends when [p]
    precedes it. *)
Definition first_of (l : list nat) (n : option nat) : option nat :=
  match l with [] => n | i :: _ => Some i end.
Fixpoint last_of (p : option nat) (l : list nat) : option nat :=
  match l with [] => p | i :: l => last_of (Some i) l end.

(** The blocks [l] are linked in order, [p] before the first and [n] after
    the last. *)
Fixpoint chain c (p : option nat) (l : list nat) (n : option nat) : Prop :=
  match l with
  | [] => True
  | i :: l => t_prev (tget c i) = p /\ t_next (tget c i) = first_of l n /\ chain c (Some i) l n
  end.

Record queue c l : Prop := Queue {
  q_chain : chain c None l None;
  q_head : ready_queue_head c = first_of l None;
  q_tail : ready_queue_tail c = last_of None l;
  q_nodup : NoDup l;
  q_bound : Forall (fun i => i < length (task_pool c))%nat l
}.

(** Only links differ. *)
Record relinked c c' : Prop := Relinked {
  rl_len : length (task_pool c') = length (task_pool c);
  rl_task : forall i, t_set_next None (t_set_prev None (tget c' i)) =
                      t_set_next None (t_set_prev None (tget c i));
  rl_current : current_task c' = current_task c;
  rl_next_pid : next_pid c' = next_pid c;
  rl_active : active_task_count c' = active_task_count c;
  rl_idle : idle_task c' = idle_task c;
  rl_init : scheduler_initialized c' = scheduler_initialized c;
  rl_pending : pending_cleanup_task c' = pending_cleanup_task c;
  rl_tick : tick_count c' = tick_count c;
  rl_world : world c' = world c
}.

#[export] Instance relinked_preorder : PreOrder relinked.
Proof.
  split.
  - intros c. by split.
  - intros c1 c2 c3 [] []. split; intros; congruence.
Qed.

Lemma relinked_tupd c i f :
  (forall t, t_set_next None (t_set_prev None (f t)) = t_set_next None (t_set_prev None t)) ->
  relinked c (tupd c i f).
Proof.
  intros Hf. split; try done; [apply tupd_length|].
  intros j. by apply (tget_tupd_field (fun t => t_set_next None (t_set_prev None t))).
Qed.

Lemma relinked_field {A} (g : task -> A) c c' i :
  (forall t, g (t_set_next None (t_set_prev None t)) = g t) ->
  relinked c c' -> g (tget c' i) = g (tget c i).
Proof. intros Hg Hr. by rewrite <- Hg, (rl_task _ _ Hr), Hg. Qed.

Lemma relinked_state c c' i : relinked c c' -> t_state (tget c' i) = t_state (tget c i).
Proof. by apply (relinked_field t_state). Qed.

Lemma first_of_app l1 l2 n : first_of (l1 ++ l2) n = first_of l1 (first_of l2 n).
Proof. by destruct l1. Qed.

Lemma last_of_app p l1 l2 : last_of p (l1 ++ l2) = last_of (last_of p l1) l2.
Proof. revert p. by induction l1 as [|i l1 IH]; intros p; [|apply IH]. Qed.

Lemma last_of_split p l :
  (l = [] /\ last_of p l = p) \/ exists l' i, l = l' ++ [i] /\ last_of p l = Some i.
Proof.
  destruct l as [|i l' _] using rev_ind; [by left|right].
  exists l', i. by rewrite last_of_app.
Qed.

Lemma chain_app c p l1 l2 n :
  chain c p (l1 ++ l2) n <-> chain c p l1 (first_of l2 n) /\ chain c (last_of p l1) l2 n.
Proof.
  revert p. induction l1 as [|i l1 IH]; intros p; [by split; [|intros []]|].
  cbn. rewrite IH, first_of_app. tauto.
Qed.

Lemma chain_ext c c' p l n :
  (forall i, i ∈ l -> t_prev (tget c' i) = t_prev (tget c i) /\ t_next (tget c' i) = t_next (tget c i)) ->
  chain c p l n -> chain c' p l n.
Proof.
  revert p. induction l as [|i l IH]; intros p He; [done|].
  intros (Hp & Hn & Hc). destruct (He i) as [E1 E2]; [left|]. cbn.
  rewrite E1, E2. split_and!; [done..|]. apply IH; [|done]. intros j Hj. apply He. by right.
Qed.

Lemma chain_tupd c i f p l n : i ∉ l -> chain c p l n -> chain (tupd c i f) p l n.
Proof.
  intros Hi. apply chain_ext. intros j Hj. rewrite tget_tupd_ne; [done|]. by intros ->.
Qed.

Lemma chain_set_tail c x p l n : chain c p l n -> chain (set_tail c x) p l n.
Proof. by apply chain_ext. Qed.
Lemma chain_set_head c x p l n : chain c p l n -> chain (set_head c x) p l n.
Proof. by apply chain_ext. Qed.

Lemma chain_set_next c p l i n n' :
  i ∉ l -> (i < length (task_pool c))%nat ->
  chain c p (l ++ [i]) n -> chain (tupd c i (t_set_next n')) p (l ++ [i]) n'.
Proof.
  intros Hi Hlt. rewrite !chain_app. intros [H1 (Hp & _ & _)]. split; [by apply chain_tupd|].
  cbn. rewrite tget_tupd_same by done. done.
Qed.

Lemma chain_set_prev c p l i n p' :
  i ∉ l -> (i < length (task_pool c))%nat ->
  chain c p (i :: l) n -> chain (tupd c i (t_set_prev p')) p' (i :: l) n.
Proof.
  intros Hi Hlt (_ & Hn & Hc). cbn. rewrite tget_tupd_same by done.
  split_and!; [done..|]. by apply chain_tupd.
Qed.

(** ** The operations *)

Lemma queue_relink c c' l :
  relinked c c' -> chain c' None l None ->
  ready_queue_head c' = first_of l None -> ready_queue_tail c' = last_of None l ->
  NoDup l -> Forall (fun i => i < length (task_pool c))%nat l -> queue c' l.
Proof. intros Hr Hc Hh Ht Hn Hb. split; try done. by rewrite (rl_len _ _ Hr). Qed.

Lemma queue_append_relinked c i : relinked c (queue_append i c).
Proof.
  unfold queue_append. etrans; [apply (relinked_tupd _ i (t_set_next None)); done|].
  set (c1 := tupd c i _). etrans; [apply (relinked_tupd _ i (t_set_prev (ready_queue_tail c1))); done|].
  set (c2 := tupd c1 i _). destruct (ready_queue_tail c2) as [q|]; [|by split].
  etrans; [by apply (relinked_tupd _ q (t_set_next (Some i)))|by split].
Qed.

Lemma queue_append_spec c l i :
  queue c l -> i ∉ l -> (i < length (task_pool c))%nat -> queue (queue_append i c) (l ++ [i]).
Proof.
  intros [Hc Hh Ht Hnd Hb] Hi Hlt.
  eapply queue_relink; [apply queue_append_relinked|..].
  5: { apply list.Forall_app. split; [done|]. by constructor. }
  4: { apply list.NoDup_app. split_and!; [done| |apply NoDup_singleton].
       intros x Hx ->%list_elem_of_singleton. done. }
  - unfold queue_append. rewrite !tail_tupd, Ht.
    destruct (last_of_split None l) as [[-> ->]|(l' & q & -> & ->)].
    + cbn. rewrite tget_set_tail, tget_set_head, !tget_tupd_same by (rewrite ?tupd_length; done). done.
    + pose proof Hi as Hi0. apply not_elem_of_app in Hi as [Hi Hq%not_elem_of_cons]. destruct Hq as [Hq _].
      apply list.NoDup_app in Hnd as (_ & Hq' & _).
      assert (q ∉ l') as Hql by (intros Hq2; apply (Hq' _ Hq2); left).
      apply list.Forall_app in Hb as [_ Hb]. apply list.Forall_cons in Hb as [Hb _].
      set (c2 := tupd (tupd c i _) i _).
      assert (chain c2 None (l' ++ [q]) None) as Hc2.
      { subst c2. by do 2 (apply chain_tupd; [done|]). }
      rewrite chain_app in Hc2 |- *. rewrite chain_app. destruct Hc2 as [H1 (H2 & _ & _)].
      assert (Hlen : (q < length (task_pool c2))%nat) by (subst c2; by rewrite !tupd_length).
      split; [split; [by apply chain_set_tail, chain_tupd|]|]; rewrite ?last_of_app; cbn;
        rewrite !tget_set_tail.
      * by rewrite tget_tupd_same.
      * rewrite tget_tupd_ne by done. subst c2.
        by rewrite !tget_tupd_same by (rewrite ?tupd_length; done).
  - unfold queue_append. rewrite !tail_tupd, Ht, first_of_app.
    destruct (last_of_split None l) as [[-> ->]|(l' & q & -> & ->)]; [done|].
    transitivity (ready_queue_head c); [done|]. rewrite Hh. by destruct l'.
  - unfold queue_append. cbn. by rewrite last_of_app.
Qed.

Lemma queue_pop_nil c : queue c [] -> queue_pop c = (None, c).
Proof. intros [_ Hh _ _ _]. unfold queue_pop. by rewrite Hh. Qed.

Lemma queue_pop_cons c i l :
  queue c (i :: l) ->
  exists c', queue_pop c = (Some i, c') /\ queue c' l /\ relinked c c' /\
    t_next (tget c' i) = None /\ t_prev (tget c' i) = None.
Proof.
  intros [(Hp & Hn & Hc) Hh Ht Hnd Hb]. apply list.NoDup_cons in Hnd as [Hi Hnd].
  apply list.Forall_cons in Hb as [Hbi Hb]. unfold queue_pop. rewrite Hh. cbn [first_of].
  rewrite Hn. cbn [ready_queue_head set_head].
  set (c1 := match first_of l None with Some h => _ | None => _ end).
  assert (relinked c c1) as Hr1.
  { subst c1. destruct (first_of l None) as [h|]; [|by split].
    etrans; [|by apply (relinked_tupd _ h (t_set_prev None))]. by split. }
  assert (Hr2 : relinked c (tupd (tupd c1 i (t_set_next None)) i (t_set_prev None))).
  { etrans; [exact Hr1|]. etrans; by eapply relinked_tupd. }
  pose proof (rl_len _ _ Hr1) as Hlen.
  eexists. split; [done|]. split_and!; [|done|..].
  2,3: rewrite ?tget_tupd_same by (rewrite ?tupd_length, Hlen; done); done.
  eapply (queue_relink c); [done|..]; [| | |done|done].
  - do 2 (apply chain_tupd; [done|]). subst c1. destruct l as [|h l]; [done|]. cbn [first_of].
    apply list.NoDup_cons in Hnd as [Hh' _]. apply list.Forall_cons in Hb as [Hbh _].
    apply chain_set_prev with (p := Some i); [done..|]. by apply chain_set_head.
  - rewrite !head_tupd. subst c1. by destruct l.
  - rewrite !tail_tupd. subst c1. destruct l; [done|]. cbn [first_of].
    rewrite tail_tupd. exact Ht.
Qed.

(** The two halves of [queue_unlink]: the predecessor skips the task, then
    the successor does. *)
Lemma unlink_left c l1 i l2 c1 :
  queue c (l1 ++ i :: l2) ->
  c1 = match last_of None l1 with
       | Some p => tupd c p (t_set_next (first_of l2 None))
       | None => set_head c (first_of l2 None)
       end ->
  relinked c c1 /\ t_next (tget c1 i) = first_of l2 None /\ t_prev (tget c1 i) = last_of None l1 /\
  chain c1 None l1 (first_of l2 None) /\ chain c1 (Some i) l2 None /\
  ready_queue_head c1 = first_of (l1 ++ l2) None /\ ready_queue_tail c1 = last_of None (l1 ++ i :: l2).
Proof.
  intros [Hc Hh Ht Hnd Hb] ->. apply chain_app in Hc as [Hc1 (Hp & Hn & Hc2)].
  destruct (last_of_split None l1) as [[-> ->]|(l' & p & -> & E)].
  { split_and!; try done; by apply chain_set_head. }
  rewrite E in Hp |- *. apply list.Forall_app in Hb as [[_ [Hbp _]%list.Forall_cons]%list.Forall_app _].
  rewrite <- app_assoc in Hnd. apply list.NoDup_app in Hnd as (_ & Hd & [Hpr _]%list.NoDup_cons).
  assert (p ∉ l') by (intros H; apply (Hd _ H); left).
  apply not_elem_of_cons in Hpr as [Hpi Hp2].
  split_and!.
  - by apply relinked_tupd.
  - by rewrite tget_tupd_ne.
  - by rewrite tget_tupd_ne.
  - by apply chain_set_next with (n := Some i).
  - by apply chain_tupd.
  - rewrite head_tupd, Hh. by destruct l'.
  - by rewrite tail_tupd.
Qed.

Lemma unlink_right c p l1 l2 c' :
  chain c None l1 (first_of l2 None) -> chain c (Some p) l2 None ->
  ready_queue_head c = first_of (l1 ++ l2) None -> ready_queue_tail c = last_of None (l1 ++ p :: l2) ->
  NoDup (l1 ++ l2) -> Forall (fun i => i < length (task_pool c))%nat l2 ->
  c' = match first_of l2 None with
       | Some n => tupd c n (t_set_prev (last_of None l1))
       | None => set_tail c (last_of None l1)
       end ->
  relinked c c' /\ chain c' None (l1 ++ l2) None /\
  ready_queue_head c' = first_of (l1 ++ l2) None /\ ready_queue_tail c' = last_of None (l1 ++ l2).
Proof.
  intros Hc1 Hc2 Hh Ht Hnd Hb ->. destruct l2 as [|n l2]; cbn [first_of].
  { rewrite app_nil_r in *. split_and!; try done; by apply chain_set_tail. }
  apply list.NoDup_app in Hnd as (_ & Hd & [Hn2 _]%list.NoDup_cons).
  assert (n ∉ l1) by (intros H; apply (Hd _ H); left).
  apply list.Forall_cons in Hb as [Hbn _]. split_and!.
  - by apply relinked_tupd.
  - apply chain_app. split; [by apply chain_tupd|]. by apply chain_set_prev with (p := Some p).
  - by rewrite head_tupd.
  - rewrite tail_tupd, Ht, !last_of_app. done.
Qed.

Lemma queue_unlink_spec c l1 i l2 :
  queue c (l1 ++ i :: l2) ->
  queue (queue_unlink i c) (l1 ++ l2) /\ relinked c (queue_unlink i c).
Proof.
  intros Hq. pose proof Hq as [Hc _ _ Hnd Hb]. apply chain_app in Hc as [_ (Hp & Hn & _)].
  rewrite <- Permutation_middle in Hnd, Hb.
  apply list.NoDup_cons in Hnd as [Hi Hnd]. apply list.Forall_cons in Hb as [Hbi Hb].
  unfold queue_unlink. rewrite Hp, Hn. set (c1 := match last_of None l1 with Some p => _ | None => _ end).
  destruct (unlink_left c l1 i l2 c1 Hq eq_refl) as (Hr1 & En & Ep & Ha & Hb1 & Eh & Et).
  rewrite En, Ep. set (c2 := match first_of l2 None with Some n => _ | None => _ end).
  destruct (unlink_right c1 i l1 l2 c2) as (Hr2 & Hc2 & Eh2 & Et2); try done.
  { rewrite (rl_len _ _ Hr1). by apply list.Forall_app in Hb as [_ Hb]. }
  assert (Hr : relinked c (tupd (tupd c2 i (t_set_next None)) i (t_set_prev None))).
  { etrans; [exact Hr1|]. etrans; [exact Hr2|]. etrans; by eapply relinked_tupd. }
  split; [|done]. apply (queue_relink c); try done.
  by do 2 (apply chain_tupd; [done|]).
Qed.

End queue.
