(* ===== verification/Process.v ===== *)
(** * Process system calls

    Models the creation of threads and processes of src/kernel/task.c, and
    [sys_fork], [sys_kill] and [sys_waitpid] of
    src/kernel/syscalls/process.c, on the scheduler of [Task].  The user
    registers that [sys_fork] copies are not part of the block; whether the
    x86 check of the parent's page directory fails is the argument
    [dir_corrupt]. *)

From S2P Require Import Prelude Spinlock Task.

Definition WNOHANG : Z := 1.
(** [sizeof(fd_table_t)]: the lock word and 512 entries of 16 or 24 bytes. *)
Definition sizeof_fd_table (a : arch) : Z :=
  match a with I686 => 4 + 512 * 16 | X86_64 | ARM64 => 8 + 512 * 24 end.

Section process.
Context {W : Type} `{!TaskResources W}.
Implicit Types (c : tcore W) (s : sched W).

Definition on_world {A} s (f : W -> A * W) : A * sched W :=
  let '(r, w) := f (world (core s)) in (r, on_core s (fun c => set_world c w)).
Definition do_world s (f : W -> W) : sched W := on_core s (fun c => set_world c (f (world c))).

(** ** Creation *)

(** Leaving with 0, the block released. *)
Definition create_fail (task : nat) s : option (Z * sched W) :=
  s ← task_free (Some task) s; Some (0, s).

(** The end of both functions: the task is ready and queued. *)
Definition create_done (task : nat) s : option (Z * sched W) :=
  let s := on_core s (fun c => tupd c task (t_set_state TASK_READY)) in
  s ← ready_queue_add (Some task) s;
  Some (t_pid (tget (core s) task), s).

Definition task_create_kernel_thread (entry : Z) s : option (Z * sched W) :=
  if entry =? 0 then Some (0, s)
  else
    '(task, s) ← task_alloc s;
    match task with
    | None => Some (0, s)
    | Some task =>
        let give dir stack top s :=
          on_core s (fun c => tupd c task (t_set_resources false dir stack top 0)) in
        let '(stack, s) := on_world s (tr_kmalloc KERNEL_STACK_SIZE) in
        let s := give 0 stack 0 s in
        if stack =? 0 then create_fail task s
        else
          let dir := tr_page_directory (world (core s)) in
          create_done task (give dir stack (stack + KERNEL_STACK_SIZE) s)
    end.

(** [name_null] says that no name is given; on ARM64 [page_dir] is the
    address space itself. *)
Definition task_create_user_process (a : arch) (name_null : bool) (entry_point page_dir : Z) s
    : option (Z * sched W) :=
  let no_space := match a with ARM64 => page_dir =? 2 ^ 64 - 1 | _ => page_dir =? 0 end in
  if name_null || no_space || (entry_point =? 0) then Some (0, s)
  else
    '(task, s) ← task_alloc s;
    match task with
    | None => Some (0, s)
    | Some task =>
        let give dir stack top fds s :=
          on_core s (fun c => tupd c task (t_set_resources true dir stack top fds)) in
        let '(stack, s) := on_world s (tr_kmalloc KERNEL_STACK_SIZE) in
        let s := give 0 stack 0 0 s in
        if stack =? 0 then create_fail task s
        else
          let top := stack + KERNEL_STACK_SIZE in
          let dir := match a with ARM64 => page_dir | _ => VIRT_TO_PHYS a page_dir end in
          let s := give dir stack top 0 s in
          let '(ok, s) := on_world s (tr_setup_user_stack dir) in
          if negb ok then create_fail task (do_world s (tr_kfree stack))
          else
            let '(fds, s) := on_world s (tr_kmalloc (sizeof_fd_table a)) in
            let s := give dir stack top fds s in
            if fds =? 0 then create_fail task (do_world s (tr_kfree stack))
            else
              let s := do_world s (tr_fd_table_init fds) in
              create_done task (do_world s (tr_open_stdio fds))
    end.

(** ** [sys_fork] *)

(** Leaving with an error: the block is released by [task_free]. *)
Definition fork_fail (child : nat) (prev_state : bool) (err : Z) s : option (Z * sched W) :=
  s ← task_free (Some child) s;
  Some (u32 err, irq_restore s prev_state).

(** [free_frames] is what [pmm_get_info] reports. *)
Definition sys_fork (a : arch) (free_frames : Z) (dir_corrupt : bool) s : option (Z * sched W) :=
  let '(prev_state, s) := irq_disable s in
  match current_task (core s) with
  | None => Some (u32 (-1), irq_restore s prev_state)
  | Some parent =>
      if negb (t_is_user_process (tget (core s) parent)) then Some (u32 (-1), irq_restore s prev_state)
      else if free_frames <? 64 then Some (u32 (-12), irq_restore s prev_state)
      else if dir_corrupt then Some (u32 (-1), irq_restore s prev_state)
      else
          '(child, s) ← task_alloc s;
          match child with
          | None => Some (u32 (-12), irq_restore s prev_state)
          | Some child =>
              let prio := t_priority (tget (core s) parent) in
              let give dir stack top fds par s :=
                on_core s (fun c => tupd c child (t_set_child true prio dir stack top fds par)) in
              let s := give 0 0 0 0 None s in
              let '(dir, s) := on_world s (tr_clone_page_directory (t_page_dir_phys (tget (core s) parent))) in
              let s := give dir 0 0 0 None s in
              if dir =? 0 then fork_fail child prev_state (-12) s
              else
                let '(stack, s) := on_world s (tr_kmalloc KERNEL_STACK_SIZE) in
                let s := give dir stack 0 0 None s in
                if stack =? 0 then
                  fork_fail child prev_state (-12) (do_world s (tr_free_page_directory dir))
                else
                  let top := stack + KERNEL_STACK_SIZE in
                  let s := give dir stack top 0 None s in
                  let src := t_fd_table (tget (core s) parent) in
                  let '(r, fds, s) :=
                    if src =? 0 then (0, 0, s)
                    else
                      let '(fds, s) := on_world s (tr_kmalloc (sizeof_fd_table a)) in
                      let s := give dir stack top fds None s in
                      if fds =? 0 then (-12, 0, s)
                      else
                        let s := do_world s (tr_fd_table_init fds) in
                        let '(r, s) := on_world s (tr_fd_table_copy src fds) in
                        (if r =? 0 then 0 else -1, fds, s) in
                  if negb (r =? 0) then
                    let s := if fds =? 0 then s else do_world s (tr_kfree fds) in
                    let s := do_world s (tr_kfree stack) in
                    let s := do_world s (tr_free_page_directory dir) in
                    fork_fail child prev_state r s
                  else
                    let s := give dir stack top fds (Some parent) s in
                    let s := on_core s (fun c => tupd c child (t_set_state TASK_READY)) in
                    s ← ready_queue_add (Some child) s;
                    Some (t_pid (tget (core s) child), irq_restore s prev_state)
          end
  end.

(** ** [sys_kill] *)

(** What happens to one task of the pool: a zombie child of the target is
    freed, another child is orphaned. *)
Definition kill_child (target : nat) (found : option nat) s : option (sched W) :=
  match found with
  | None => Some s
  | Some t =>
      if is_state TASK_UNUSED (tget (core s) t) then Some s
      else if bool_decide (t_parent (tget (core s) t) = Some target) then
        if is_state TASK_ZOMBIE (tget (core s) t) then task_free (Some t) s
        else Some (on_core s (fun c => tupd c t (t_set_parent None)))
      else Some s
  end.

(** The pass over the children, which looks them up by PID from [i] on;
    [n] PIDs are left. *)
Fixpoint kill_children (target : nat) (n : nat) (i : Z) s : option (sched W) :=
  match n with
  | O => Some s
  | S n =>
      '(found, s) ← task_get_by_pid i s;
      s ← kill_child target found s;
      kill_children target n (i + 1) s
  end.

(** The end of [sys_kill], once the children are taken care of. *)
Definition kill_finish (current target : nat) (prev_state : bool) s : option (Z * sched W) :=
  s ← (if is_state TASK_READY (tget (core s) target)
       then ready_queue_remove (Some target) s else Some s);
  if has_parent (core s) target then
    let s := on_core s (fun c => tupd c target (t_set_state TASK_ZOMBIE)) in
    Some (0, irq_restore s prev_state)
  else if bool_decide (target = current) then
    let s := on_core s (fun c => tupd c target (t_set_state TASK_TERMINATED)) in
    Some (0, irq_restore s prev_state)
  else
    s ← task_free (Some target) s;
    Some (0, irq_restore s prev_state).

(** Between the look-up and [interrupts_disable] nothing changes the state of
    the target here, so the second look at it is the first one. *)
Definition sys_kill (pid signal : Z) s : option (Z * sched W) :=
  match current_task (core s) with
  | None => Some (u32 (-1), s)
  | Some current =>
      if pid =? 0 then Some (u32 (-1), s)
      else
        '(found, s) ← task_get_by_pid pid s;
        match found with
        | None => Some (u32 (-1), s)
        | Some target =>
            match t_state (tget (core s) target) with
            | TASK_UNUSED | TASK_TERMINATED => Some (u32 (-1), s)
            | TASK_ZOMBIE => Some (0, s)
            | _ =>
                let '(prev_state, s) := irq_disable s in
                let s := on_core s (fun c => tupd c target (t_set_exit (u32 (128 + signal)) true signal)) in
                s ← kill_children target (Z.to_nat MAX_TASKS) 0 s;
                kill_finish current target prev_state s
            end
        end
  end.

(** ** [sys_waitpid] *)

(** The search for a child: the zombie found, and whether any child matched;
    [n] blocks are left. *)
Fixpoint wait_scan (current : nat) (pid : Z) (n : nat) (i : nat) c (has_waited_child : bool)
    : option nat * bool :=
  match n with
  | O => (None, has_waited_child)
  | S n =>
      let t := tget c i in
      if is_state TASK_UNUSED t then wait_scan current pid n (S i) c has_waited_child
      else if negb (bool_decide (t_parent t = Some current)) then
        wait_scan current pid n (S i) c has_waited_child
      else if (0 <? pid) && negb (s32 (t_pid t) =? pid) then
        wait_scan current pid n (S i) c has_waited_child
      else if is_state TASK_ZOMBIE t then (Some i, true)
      else wait_scan current pid n (S i) c true
  end.

(** One turn of the loop: [sys_waitpid] returns [ret] after storing [status],
    or it has yielded and tries again. *)
Inductive wait_turn :=
| Returns (ret : Z) (status : option Z)
| Retries (switch : option (option nat * nat)).

Definition wait_status (t : task) : Z :=
  if t_exit_signaled t then Z.land (t_exit_signal t) 0xFF
  else Z.shiftl (Z.land (t_exit_code t) 0xFF) 8.

Definition sys_waitpid (pid options : Z) s : option (wait_turn * sched W) :=
  match current_task (core s) with
  | None => Some (Returns (u32 (-1)) None, s)
  | Some current =>
      let non_blocking := negb (Z.land options WNOHANG =? 0) in
      let '(prev_state, s) := irq_disable s in
      match wait_scan current pid (Z.to_nat MAX_TASKS) 0 (core s) false with
      | (Some found_child, _) =>
          let t := tget (core s) found_child in
          s ← task_free (Some found_child) s;
          Some (Returns (t_pid t) (Some (wait_status t)), irq_restore s prev_state)
      | (None, has_waited_child) =>
          let s := irq_restore s prev_state in
          if negb has_waited_child then Some (Returns (u32 (-1)) None, s)
          else if non_blocking then Some (Returns 0 None, s)
          else
            '(switch, s) ← task_yield s;
            Some (Retries switch, s)
      end
  end.

End process.
