(* ===== verification/Sync.v ===== *)
(** * Mutexes and semaphores

    Models src/kernel/sync/mutex.c and src/kernel/sync/semaphore.c on top of
    the scheduler of [Task].  A pointer argument is an [option]: [None] is
    [NULL].  The word of the embedded spinlock is taken with [grab], which is
    [None] when the word is held (the CPU would spin for ever).  The CPU's
    interrupt flag is the one the scheduler state carries.  A blocking call is
    a loop; [mutex_lock] and [semaphore_wait] here are one turn of it: [Done]
    when the call returns, [Blocks switch] when the task has blocked and will
    take another turn once it runs again. *)

From S2P Require Import Prelude Spinlock Task.

(** [int32_t] limit (include/types.h). *)
Definition INT32_MAX : Z := 2147483647.

Record mutex := Mutex {
  mx_lock : Z;
  mx_locked : bool;
  mx_owner_pid : Z;
  mx_recursion : Z
}.

Record semaphore := Semaphore { sem_lock : Z; sem_count : Z }.

Inductive turn := Done | Blocks (switch : option (option nat * nat)).

(** [spinlock_lock]/[spinlock_unlock] on an embedded lock word. *)
Definition grab (w : Z) : option Z := r ← spinlock_lock 1 (Some w); r.
Definition drop_lock (w : Z) : Z := default w (spinlock_unlock (Some w)).

Section sync.
Context {W : Type} `{!TaskResources W}.
Implicit Types (s : sched W).

(** [current->pid], 0 without a current task. *)
Definition current_pid s : Z :=
  match task_get_current s with Some i => t_pid (tget (core s) i) | None => 0 end.

(** [current->fd_table], 0 without a current task. *)
Definition current_fd_table s : Z :=
  match task_get_current s with Some i => t_fd_table (tget (core s) i) | None => 0 end.

(** [current->state = TASK_BLOCKED] and the call of the scheduler; the flag
    is restored when the task goes on, at once if there is no switch. *)
Definition block_turn (current : nat) (irq_state : bool) s : option (turn * sched W) :=
  '(switch, s) ← task_schedule (on_core s (fun c => tupd c current (t_set_state TASK_BLOCKED)));
  Some (Blocks switch, match switch with None => irq_restore s irq_state | Some _ => s end).

(** ** Mutexes *)

Definition mutex_init (mx : option mutex) : option mutex :=
  match mx with
  | None => None
  | Some m => Some (Mutex (default 0 (spinlock_init (Some (mx_lock m)))) false 0 0)
  end.

Definition mutex_try_lock (mx : option mutex) s : option (bool * option mutex * sched W) :=
  match mx with
  | None => Some (false, None, s)
  | Some m =>
      let '(irq_state, s) := irq_disable s in
      let current := task_get_current s in
      w ← grab (mx_lock m);
      let '(acquired, locked, owner, recursion) :=
        if negb (mx_locked m) then (true, true, current_pid s, 1)
        else if bool_decide (current <> None) && (mx_owner_pid m =? current_pid s)
        then (true, mx_locked m, mx_owner_pid m, u32 (mx_recursion m + 1))
        else (false, mx_locked m, mx_owner_pid m, mx_recursion m) in
      Some (acquired, Some (Mutex (drop_lock w) locked owner recursion), irq_restore s irq_state)
  end.

(** One turn of the loop of [mutex_lock]. *)
Definition mutex_lock (mx : option mutex) s : option (turn * option mutex * sched W) :=
  match mx, task_get_current s with
  | None, _ | _, None => Some (Done, mx, s)
  | Some m, Some current =>
      let '(irq_state, s) := irq_disable s in
      w ← grab (mx_lock m);
      if negb (mx_locked m) then
        Some (Done, Some (Mutex (drop_lock w) true (current_pid s) 1), irq_restore s irq_state)
      else if mx_owner_pid m =? current_pid s then
        Some (Done, Some (Mutex (drop_lock w) (mx_locked m) (mx_owner_pid m) (u32 (mx_recursion m + 1))),
              irq_restore s irq_state)
      else
        let m := Mutex (drop_lock w) (mx_locked m) (mx_owner_pid m) (mx_recursion m) in
        '(t, s) ← block_turn current irq_state s;
        Some (t, Some m, s)
  end.

Definition mutex_unlock (mx : option mutex) s : option (option mutex * sched W) :=
  match mx, task_get_current s with
  | None, _ | _, None => Some (mx, s)
  | Some m, Some current =>
      let '(irq_state, s) := irq_disable s in
      w ← grab (mx_lock m);
      let '(locked, owner, recursion, should_wakeup) :=
        if negb (mx_locked m) then (mx_locked m, mx_owner_pid m, mx_recursion m, false)
        else if negb (mx_owner_pid m =? current_pid s)
        then (mx_locked m, mx_owner_pid m, mx_recursion m, false)
        else
          let recursion := u32 (mx_recursion m - 1) in
          if recursion =? 0 then (false, 0, recursion, true)
          else (mx_locked m, mx_owner_pid m, recursion, false) in
      let m := Mutex (drop_lock w) locked owner recursion in
      s ← (if should_wakeup : bool then task_wakeup s else Some s);
      Some (Some m, irq_restore s irq_state)
  end.

Definition mutex_is_locked (mx : option mutex) : bool :=
  match mx with None => false | Some m => mx_locked m end.

(** ** Semaphores *)

Definition semaphore_init (sem : option semaphore) (initial_count : Z) : option semaphore :=
  match sem with
  | None => None
  | Some x => Some (Semaphore (default 0 (spinlock_init (Some (sem_lock x)))) initial_count)
  end.

Definition semaphore_try_consume (count : Z) : bool * Z :=
  if 0 <? count then (true, count - 1) else (false, count).

(** One turn of the loop of [semaphore_wait]. *)
Definition semaphore_wait (sem : option semaphore) s : option (turn * option semaphore * sched W) :=
  match sem, task_get_current s with
  | None, _ | _, None => Some (Done, sem, s)
  | Some x, Some current =>
      let '(irq_state, s) := irq_disable s in
      w ← grab (sem_lock x);
      let '(ok, count) := semaphore_try_consume (sem_count x) in
      let x := Semaphore (drop_lock w) count in
      if ok : bool then Some (Done, Some x, irq_restore s irq_state)
      else
        '(t, s) ← block_turn current irq_state s;
        Some (t, Some x, s)
  end.

Definition semaphore_try_wait (sem : option semaphore) s : option (bool * option semaphore * sched W) :=
  match sem with
  | None => Some (false, None, s)
  | Some x =>
      let '(irq_state, s) := irq_disable s in
      w ← grab (sem_lock x);
      let '(acquired, count) := semaphore_try_consume (sem_count x) in
      Some (acquired, Some (Semaphore (drop_lock w) count), irq_restore s irq_state)
  end.

Definition semaphore_signal (sem : option semaphore) s : option (option semaphore * sched W) :=
  match sem with
  | None => Some (None, s)
  | Some x =>
      let '(irq_state, s) := irq_disable s in
      w ← grab (sem_lock x);
      let count := if sem_count x <? INT32_MAX then sem_count x + 1 else sem_count x in
      s ← task_wakeup s;
      Some (Some (Semaphore (drop_lock w) count), irq_restore s irq_state)
  end.

Definition semaphore_get_value (sem : option semaphore) s : option (Z * option semaphore * sched W) :=
  match sem with
  | None => Some (0, None, s)
  | Some x =>
      let '(irq_state, s) := irq_disable s in
      w ← grab (sem_lock x);
      Some (sem_count x, Some (Semaphore (drop_lock w) (sem_count x)), irq_restore s irq_state)
  end.

End sync.
