(* ===== verification/TaskFacts.v ===== *)
(** * Invariant of the task pool

    [cinv c l]: the ready queue is [l], its members are exactly the READY
    blocks (the idle task apart), the task awaiting clean-up is terminated,
    no block is its own parent and the active count is the number of blocks
    in use.  [cur_ok] ties the current task to the pool: only it and the idle
    task can be RUNNING.  The lemmas say how the invariant moves when one
    block is queued, dequeued, relabelled or cleared. *)

From S2P Require Import Prelude Spinlock Task TaskQueue.

Section facts.
Context {W : Type}.
Implicit Types (c : tcore W) (s : sched W) (l : list nat) (i j : nat).

Abbreviation st c i := (t_state (tget c i)).

Definition used c i : bool := negb (is_state TASK_UNUSED (tget c i)).
Definition used_count c : Z := cnt (fun z => used c (Z.to_nat z)) 256.

Record cinv c l : Prop := CInv {
  ci_len : length (task_pool c) = 256%nat;
  ci_queue : queue c l;
  ci_idle : idle_task c = Some 0%nat;
  ci_init : scheduler_initialized c = true;
  ci_idle_state : st c 0 = TASK_READY \/ st c 0 = TASK_RUNNING;
  ci_no_idle : 0%nat ∉ l;
  ci_ready : forall i, i <> 0%nat -> i ∈ l <-> st c i = TASK_READY;
  ci_pending : forall i, pending_cleanup_task c = Some i -> i <> 0%nat /\ st c i = TASK_TERMINATED;
  ci_parent : forall i, t_parent (tget c i) <> Some i;
  ci_count : active_task_count c = used_count c
}.

Record cur_ok c : Prop := CurOk {
  co_run : forall i, st c i = TASK_RUNNING -> i = 0%nat \/ current_task c = Some i;
  co_cur : forall i, current_task c = Some i -> i = 0%nat \/ (st c i <> TASK_READY /\ st c i <> TASK_UNUSED);
  co_pending : forall i, pending_cleanup_task c = Some i -> current_task c <> Some i
}.

Record sinv s l : Prop := SInv {
  si_lock : lock_free (task_lock s);
  si_core : cinv (core s) l;
  si_cur : cur_ok (core s)
}.

(** ** Counting *)

Lemma used_count_ext c c' : (forall i, used c' i = used c i) -> used_count c' = used_count c.
Proof. intros H. apply cnt_ext. intros i _. apply H. Qed.

Lemma used_count_flip c c' i :
  (i < 256)%nat -> used c i = true -> used c' i = false ->
  (forall j, j <> i -> used c' j = used c j) -> used_count c = used_count c' + 1.
Proof.
  intros Hi H1 H2 He. apply (cnt_flip _ _ _ (Z.of_nat i)); rewrite ?Nat2Z.id; [lia|done|done|].
  intros z Hz1 Hz2. symmetry. apply He. lia.
Qed.

Lemma used_count_range c : 0 <= used_count c <= 256.
Proof. apply cnt_range. Qed.

(** ** Queue and invariant under changes of one block *)

Lemma queue_tupd_out c l i f : queue c l -> i ∉ l -> queue (tupd c i f) l.
Proof.
  intros [Hc Hh Ht Hn Hb] Hi. split; try done; [by apply chain_tupd|].
  by rewrite tupd_length.
Qed.

Lemma queue_ext c c' l :
  length (task_pool c') = length (task_pool c) ->
  (forall i, t_prev (tget c' i) = t_prev (tget c i) /\ t_next (tget c' i) = t_next (tget c i)) ->
  ready_queue_head c' = ready_queue_head c -> ready_queue_tail c' = ready_queue_tail c ->
  queue c l -> queue c' l.
Proof.
  intros Hl He Hh Ht [Hc Hh' Ht' Hn Hb]. split; [by eapply chain_ext|congruence..| |].
  - done.
  - by rewrite Hl.
Qed.

Lemma used_iff c i : used c i = true <-> st c i <> TASK_UNUSED.
Proof. unfold used, is_state. case_bool_decide; naive_solver. Qed.

Lemma used_bound c i : length (task_pool c) = 256%nat -> st c i <> TASK_UNUSED -> (i < 256)%nat.
Proof.
  intros Hl Hu. destruct (decide (i < 256)%nat); [done|]. exfalso. apply Hu.
  unfold tget. by rewrite lookup_ge_None_2 by lia.
Qed.

Lemma used_st c c' i : (st c' i = TASK_UNUSED <-> st c i = TASK_UNUSED) -> used c' i = used c i.
Proof. intros H. apply eq_true_iff_eq. rewrite !used_iff. tauto. Qed.

Lemma tupd_st c i f j :
  (i < length (task_pool c))%nat ->
  st (tupd c i f) j = if decide (i = j) then t_state (f (tget c i)) else st c j.
Proof. intros Hi. rewrite tget_tupd. destruct (decide (i = j)); destruct (decide _); tauto. Qed.

Lemma used_count_pos c i : (i < 256)%nat -> st c i <> TASK_UNUSED -> 0 < used_count c.
Proof.
  intros Hi Hu. apply (cnt_pos _ _ (Z.of_nat i)); [lia|]. rewrite Nat2Z.id. by apply used_iff.
Qed.

Lemma used_count_one c k :
  (k < 256)%nat -> used c k = true -> (forall i, i <> k -> used c i = false) -> used_count c = 1.
Proof.
  intros Hk Hu Ho. unfold used_count. rewrite (cnt_flip _ (fun _ => false) 256 (Z.of_nat k)); try done; [lia|..].
  - by rewrite Nat2Z.id.
  - intros j Hj Hjk. apply Ho. lia.
Qed.

#[global] Opaque used_count.

(** The current task, the PID counter, the tick and the world are not part
    of the invariant. *)
Lemma cinv_same c c' l :
  task_pool c' = task_pool c -> ready_queue_head c' = ready_queue_head c ->
  ready_queue_tail c' = ready_queue_tail c -> idle_task c' = idle_task c ->
  scheduler_initialized c' = scheduler_initialized c ->
  (pending_cleanup_task c' = pending_cleanup_task c \/ pending_cleanup_task c' = None) ->
  active_task_count c' = active_task_count c -> cinv c l -> cinv c' l.
Proof.
  intros Ep Eh Et Ei En Epe Ea [Hl Hq Hid Hin His Hni Hrd Hpe Hpa Hct].
  assert (Eg : forall i, tget c' i = tget c i) by (intros i; unfold tget; by rewrite Ep).
  split; try congruence.
  - apply (queue_ext c); [congruence| |congruence..|done]. intros i. by rewrite Eg.
  - intros i. rewrite Eg. apply Hrd.
  - intros i. rewrite Eg. destruct Epe as [E|E]; rewrite E; [apply Hpe|done].
  - rewrite Ea, Hct. symmetry. apply used_count_ext. intros i. unfold used. by rewrite Eg.
Qed.

Definition weight (t : task_state) : Z := if decide (t = TASK_UNUSED) then 0 else 1.

Lemma used_count_move c c' i t :
  (i < 256)%nat -> (forall j, st c' j = if decide (i = j) then t else st c j) ->
  used_count c' = used_count c + weight t - weight (st c i).
Proof.
  intros Hi Hst. assert (Hne : forall j, j <> i -> used c' j = used c j).
  { intros j Hj. apply used_st. rewrite Hst. by destruct (decide (i = j)) as [<-|]. }
  pose proof (Hst i) as Hsi. destruct (decide (i = i)) as [_|]; [|done].
  unfold weight. rewrite <- Hsi.
  destruct (decide (st c' i = TASK_UNUSED)) as [E1|E1], (decide (st c i = TASK_UNUSED)) as [E2|E2].
  1,4: rewrite (used_count_ext c c'); [lia|]; intros j; destruct (decide (j = i)) as [->|];
    [apply used_st; tauto|by apply Hne].
  - pose proof (used_count_flip c c' i Hi). rewrite H; [lia|by apply used_iff| |done].
    apply not_true_iff_false. rewrite used_iff. tauto.
  - pose proof (used_count_flip c' c i Hi). rewrite H; [lia|by apply used_iff| |].
    + apply not_true_iff_false. rewrite used_iff. tauto.
    + intros j Hj. symmetry. by apply Hne.
Qed.

(** One block, not the idle one, takes the state [t] and is queued exactly
    when it is READY. *)
Lemma cinv_move c l c' l' i t :
  cinv c l -> i <> 0%nat -> (i < 256)%nat -> pending_cleanup_task c <> Some i ->
  length (task_pool c') = length (task_pool c) ->
  idle_task c' = idle_task c -> scheduler_initialized c' = scheduler_initialized c ->
  pending_cleanup_task c' = pending_cleanup_task c ->
  queue c' l' -> (forall j, st c' j = if decide (i = j) then t else st c j) ->
  (forall j, t_parent (tget c' j) = t_parent (tget c j) \/ t_parent (tget c' j) <> Some j) ->
  (forall j, j <> i -> j ∈ l' <-> j ∈ l) -> (i ∈ l' <-> t = TASK_READY) ->
  active_task_count c' = active_task_count c + weight t - weight (st c i) ->
  cinv c' l'.
Proof.
  intros [Hl Hq Hid Hin His Hni Hrd Hpe Hpa Hct] H0 Hi Hp El Eid Ein Epe Hq' Hst Hpar Hne Hil Hact.
  split; try congruence.
  - rewrite Hst. by destruct (decide (i = 0)%nat).
  - by rewrite Hne.
  - intros j Hj. rewrite Hst. destruct (decide (i = j)) as [<-|]; [done|].
    rewrite Hne by done. by apply Hrd.
  - rewrite Epe. intros j Hj. destruct (Hpe j Hj) as [Hj0 Hjt]. split; [done|].
    rewrite Hst. destruct (decide (i = j)) as [<-|]; [by destruct (Hp Hj)|done].
  - intros j. destruct (Hpar j) as [->|H]; [apply Hpa|done].
  - rewrite Hact, Hct. symmetry. by apply used_count_move.
Qed.

Lemma ready_iff c l i : cinv c l -> i <> 0%nat -> i ∈ l <-> st c i = TASK_READY.
Proof. intros H. apply (ci_ready _ _ H). Qed.

Lemma pending_not_ready c l i : cinv c l -> st c i = TASK_READY -> pending_cleanup_task c <> Some i.
Proof. intros H Hr Hp. apply (ci_pending _ _ H) in Hp as [_ Hp]. congruence. Qed.

(** A change that keeps states and links, and can only drop parents. *)
Lemma cinv_touch c l i f :
  (forall t, t_state (f t) = t_state t /\ t_next (f t) = t_next t /\ t_prev (f t) = t_prev t) ->
  (forall t, t_parent (f t) = t_parent t \/ t_parent (f t) = None) ->
  cinv c l -> cinv (tupd c i f) l.
Proof.
  intros Hf Hpar [Hl Hq Hid Hin His Hni Hrd Hpe Hpa Hct].
  assert (Hst : forall j, st (tupd c i f) j = st c j).
  { intros j. apply (tget_tupd_field t_state). apply Hf. }
  split; try done.
  - by rewrite tupd_length.
  - apply (queue_ext c); try done; [apply tupd_length|]. intros j.
    split; [apply (tget_tupd_field t_prev)|apply (tget_tupd_field t_next)]; apply Hf.
  - by rewrite Hst.
  - intros j. rewrite Hst. apply Hrd.
  - intros j. rewrite Hst. apply Hpe.
  - intros j. rewrite tget_tupd. destruct (decide _) as [[-> _]|]; [|apply Hpa].
    destruct (Hpar (tget c j)) as [E|E]; rewrite E; [apply Hpa|done].
  - transitivity (active_task_count c); [done|]. rewrite Hct. symmetry. apply used_count_ext.
    intros j. apply used_st. by rewrite Hst.
Qed.

(** The idle task runs. *)
Lemma cinv_idle_run c l : cinv c l -> cinv (tupd c 0 (t_set_state TASK_RUNNING)) l.
Proof.
  intros Hinv. pose proof Hinv as [Hl Hq Hid Hin His Hni Hrd Hpe Hpa Hct].
  assert (Hst : forall j, j <> 0%nat -> st (tupd c 0 (t_set_state TASK_RUNNING)) j = st c j).
  { intros j Hj. by rewrite tget_tupd_ne. }
  assert (H0 : st (tupd c 0 (t_set_state TASK_RUNNING)) 0 = TASK_RUNNING).
  { rewrite tget_tupd_same; [done|]. rewrite Hl. lia. }
  split; try done.
  - by rewrite tupd_length.
  - by apply queue_tupd_out.
  - by right.
  - intros j Hj. rewrite Hst by done. by apply Hrd.
  - intros j Hj. destruct (Hpe j Hj) as [Hj0 Hjt]. by rewrite Hst.
  - intros j. rewrite (tget_tupd_field t_parent) by done. apply Hpa.
  - transitivity (active_task_count c); [done|]. rewrite Hct. symmetry. apply used_count_ext.
    intros j. apply used_st. destruct (decide (j = 0%nat)) as [->|]; [|by rewrite Hst].
    rewrite H0. split; [done|]. by destruct His as [E|E]; rewrite E.
Qed.

(** One block leaves a non-ready state for another one. *)
Lemma cinv_relabel c l i f :
  cinv c l -> i <> 0%nat -> st c i <> TASK_READY -> st c i <> TASK_UNUSED ->
  pending_cleanup_task c <> Some i ->
  t_state (f (tget c i)) <> TASK_READY -> t_state (f (tget c i)) <> TASK_UNUSED ->
  t_parent (f (tget c i)) = t_parent (tget c i) ->
  cinv (tupd c i f) l.
Proof.
  intros Hinv H0 Hr Hu Hp Hf1 Hf2 Hpar. pose proof (used_bound _ _ (ci_len _ _ Hinv) Hu) as Hb.
  assert (i ∉ l) as Hil by (by rewrite (ready_iff _ _ _ Hinv)).
  eapply (cinv_move c l _ l i (t_state (f (tget c i)))); try done.
  - apply tupd_length.
  - apply queue_tupd_out; [apply Hinv|done].
  - intros j. apply tupd_st. by rewrite (ci_len _ _ Hinv).
  - intros j. rewrite tget_tupd. left. by destruct (decide _) as [[-> _]|].
  - change (active_task_count (tupd c i f)) with (active_task_count c).
    unfold weight. repeat destruct (decide _); try done. lia.
Qed.

(** A block in use goes to the back of the queue. *)
Lemma cinv_enqueue c l i f :
  cinv c l -> i <> 0%nat -> (i < 256)%nat -> st c i <> TASK_READY -> pending_cleanup_task c <> Some i ->
  st c i <> TASK_UNUSED -> t_state (f (tget c i)) = TASK_READY ->
  t_parent (f (tget c i)) = t_parent (tget c i) ->
  cinv (queue_append i (tupd c i f)) (l ++ [i]).
Proof.
  intros Hinv H0 Hb Hr Hp Hu Hf Hpar.
  assert (i ∉ l) as Hil by (by rewrite (ready_iff _ _ _ Hinv)).
  assert (Hb' : (i < length (task_pool c))%nat) by (by rewrite (ci_len _ _ Hinv)).
  pose proof (queue_append_relinked (tupd c i f) i) as Hrl.
  eapply (cinv_move c l _ _ i TASK_READY); try done.
  - rewrite (rl_len _ _ Hrl). apply tupd_length.
  - apply (rl_idle _ _ Hrl).
  - apply (rl_init _ _ Hrl).
  - apply (rl_pending _ _ Hrl).
  - apply queue_append_spec; [apply queue_tupd_out; [apply Hinv|done]|done|by rewrite tupd_length].
  - intros j. rewrite (relinked_state _ _ _ Hrl), tupd_st by done. by rewrite Hf.
  - intros j. left. rewrite (relinked_field t_parent _ _ j (fun _ => eq_refl) Hrl), tget_tupd.
    by destruct (decide _) as [[-> _]|].
  - intros j Hj. rewrite elem_of_app, list_elem_of_singleton. tauto.
  - rewrite elem_of_app, list_elem_of_singleton. tauto.
  - rewrite (rl_active _ _ Hrl). change (active_task_count (tupd c i f)) with (active_task_count c).
    unfold weight. repeat destruct (decide _); try done. lia.
Qed.

(** The front of the queue starts to run. *)
Lemma cinv_dequeue c i l :
  cinv c (i :: l) ->
  i <> 0%nat /\ exists c', queue_pop c = (Some i, c') /\ relinked c c' /\
    cinv (tupd c' i (t_set_state TASK_RUNNING)) l.
Proof.
  intros Hinv. assert (i <> 0%nat) as H0.
  { intros ->. apply (ci_no_idle _ _ Hinv). left. }
  split; [done|]. destruct (queue_pop_cons c i l (ci_queue _ _ Hinv)) as (c' & E & Hq & Hrl & _ & _).
  exists c'. split; [done|]. split; [done|].
  assert (Hr : st c i = TASK_READY) by (apply (ready_iff _ _ _ Hinv); [done|left]).
  assert (Hil : i ∉ l) by (eapply NoDup_cons_1_1, (q_nodup _ _ (ci_queue _ _ Hinv))).
  assert (Hb : (i < 256)%nat) by (apply (used_bound c); [apply Hinv|by rewrite Hr]).
  assert (Hb' : (i < length (task_pool c'))%nat) by (by rewrite (rl_len _ _ Hrl), (ci_len _ _ Hinv)).
  eapply (cinv_move c (i :: l) _ _ i TASK_RUNNING); try done.
  - by eapply pending_not_ready.
  - rewrite tupd_length. apply (rl_len _ _ Hrl).
  - apply (rl_idle _ _ Hrl).
  - apply (rl_init _ _ Hrl).
  - apply (rl_pending _ _ Hrl).
  - by apply queue_tupd_out.
  - intros j. rewrite tupd_st by done. by rewrite (relinked_state _ _ _ Hrl).
  - intros j. left. rewrite (tget_tupd_field t_parent) by done.
    apply (relinked_field t_parent); done.
  - intros j Hj. rewrite elem_of_cons. tauto.
  - change (active_task_count (tupd c' i (t_set_state TASK_RUNNING))) with (active_task_count c').
    rewrite (rl_active _ _ Hrl), Hr. unfold weight. repeat destruct (decide _); try done. lia.
Qed.

Lemma tget_clear c i j :
  (i < length (task_pool c))%nat ->
  tget (clear_block i c).2 j = if decide (i = j) then null_task else tget c j.
Proof.
  intros Hi. change (tget (clear_block i c).2 j) with
    (tget (tupd (tupd c i (fun _ => null_task)) i (t_set_state TASK_UNUSED)) j).
  rewrite tget_tupd, tupd_length. destruct (decide _) as [[-> _]|Hn].
  - rewrite tget_tupd_same by done. by destruct (decide (j = j)).
  - destruct (decide (i = j)) as [->|]; [tauto|]. by apply tget_tupd_ne.
Qed.

(** A block is cleared; [c] may already have it unlinked from the queue. *)
Lemma cinv_clear c0 l0 c l i :
  cinv c0 l0 -> relinked c0 c -> queue c l -> i <> 0%nat -> st c0 i <> TASK_UNUSED ->
  pending_cleanup_task c0 <> Some i -> i ∉ l -> (forall j, j <> i -> j ∈ l <-> j ∈ l0) ->
  cinv (clear_block i c).2 l.
Proof.
  intros Hinv Hrl Hq H0 Hu Hp Hil Hne.
  pose proof (used_bound _ _ (ci_len _ _ Hinv) Hu) as Hb.
  assert (Hb' : (i < length (task_pool c))%nat) by (by rewrite (rl_len _ _ Hrl), (ci_len _ _ Hinv)).
  pose proof (fun j => tget_clear c i j Hb') as E.
  eapply (cinv_move c0 l0 _ _ i TASK_UNUSED); try done.
  - change (length (task_pool (tupd (tupd c i (fun _ => null_task)) i (t_set_state TASK_UNUSED))) =
            length (task_pool c0)).
    by rewrite !tupd_length, (rl_len _ _ Hrl).
  - apply (rl_idle _ _ Hrl).
  - apply (rl_init _ _ Hrl).
  - apply (rl_pending _ _ Hrl).
  - eapply (queue_ext (tupd (tupd c i (fun _ => null_task)) i (t_set_state TASK_UNUSED))); try done.
    by do 2 (apply queue_tupd_out; [|done]).
  - intros j. rewrite E. destruct (decide (i = j)); [done|]. by rewrite (relinked_state _ _ _ Hrl).
  - intros j. rewrite E. destruct (decide (i = j)); [by right|left].
    apply (relinked_field t_parent); done.
  - change (active_task_count (clear_block i c).2) with (u32 (active_task_count c - 1)).
    rewrite (rl_active _ _ Hrl), (ci_count _ _ Hinv).
    pose proof (used_count_range c0). pose proof (used_count_pos c0 i Hb Hu).
    rewrite u32_small by lia. unfold weight. repeat destruct (decide _); try done. lia.
Qed.

Lemma cinv_clear_out c l i :
  cinv c l -> i <> 0%nat -> st c i <> TASK_READY -> st c i <> TASK_UNUSED ->
  pending_cleanup_task c <> Some i -> cinv (clear_block i c).2 l.
Proof.
  intros Hinv H0 Hr Hu Hp. apply (cinv_clear c l c); try done; [apply Hinv|].
  by rewrite (ready_iff _ _ _ Hinv).
Qed.

(** ** Blocks that are READY and not queued yet *)

(** As [cinv], with [x] the READY blocks still to be queued: the sleepers a
    timer tick has woken, or a child under construction. *)
Record linv c l (x : list nat) : Prop := LInv {
  li_len : length (task_pool c) = 256%nat;
  li_queue : queue c l;
  li_idle : idle_task c = Some 0%nat;
  li_init : scheduler_initialized c = true;
  li_idle_state : st c 0 = TASK_READY \/ st c 0 = TASK_RUNNING;
  li_no_idle : 0%nat ∉ l ++ x;
  li_nodup : NoDup (l ++ x);
  li_ready : forall i, i <> 0%nat -> i ∈ l ++ x <-> st c i = TASK_READY;
  li_pending : forall i, pending_cleanup_task c = Some i -> i <> 0%nat /\ st c i = TASK_TERMINATED;
  li_parent : forall i, t_parent (tget c i) <> Some i;
  li_count : active_task_count c = used_count c
}.

Lemma linv_nil c l : linv c l [] <-> cinv c l.
Proof.
  split.
  - intros [? ? ? ? ? Hn _ Hr ? ? ?]. rewrite app_nil_r in Hn. split; try assumption.
    intros i. rewrite <- (app_nil_r l). apply Hr.
  - intros [? Hq ? ? ? Hn Hr ? ? ?]. split; rewrite ?app_nil_r; try assumption. apply Hq.
Qed.

Lemma linv_move c l x c' l' x' i t :
  linv c l x -> i <> 0%nat -> (i < 256)%nat -> pending_cleanup_task c <> Some i ->
  length (task_pool c') = length (task_pool c) ->
  idle_task c' = idle_task c -> scheduler_initialized c' = scheduler_initialized c ->
  pending_cleanup_task c' = pending_cleanup_task c ->
  queue c' l' -> (forall j, st c' j = if decide (i = j) then t else st c j) ->
  (forall j, t_parent (tget c' j) = t_parent (tget c j) \/ t_parent (tget c' j) <> Some j) ->
  (forall j, j <> i -> j ∈ l' ++ x' <-> j ∈ l ++ x) -> (i ∈ l' ++ x' <-> t = TASK_READY) ->
  NoDup (l' ++ x') -> active_task_count c' = active_task_count c + weight t - weight (st c i) ->
  linv c' l' x'.
Proof.
  intros [Hl Hq Hid Hin His Hni Hnd Hrd Hpe Hpa Hct] H0 Hi Hp El Eid Ein Epe Hq' Hst Hpar Hne Hil Hnd' Hact.
  split; try congruence.
  - rewrite Hst. by destruct (decide (i = 0)%nat).
  - by rewrite Hne.
  - intros j Hj. rewrite Hst. destruct (decide (i = j)) as [<-|]; [done|].
    rewrite Hne by done. by apply Hrd.
  - rewrite Epe. intros j Hj. destruct (Hpe j Hj) as [Hj0 Hjt]. split; [done|].
    rewrite Hst. destruct (decide (i = j)) as [<-|]; [by destruct (Hp Hj)|done].
  - intros j. destruct (Hpar j) as [E|H]; [rewrite E; apply Hpa|done].
  - rewrite Hact, Hct. symmetry. by apply used_count_move.
Qed.

Lemma weight_used t : t <> TASK_UNUSED -> weight t = 1.
Proof. intros H. unfold weight. by destruct (decide _). Qed.

(** A block becomes READY without being queued. *)
Lemma linv_wake c l x i f :
  linv c l x -> i <> 0%nat -> st c i <> TASK_READY -> st c i <> TASK_UNUSED ->
  pending_cleanup_task c <> Some i ->
  t_state (f (tget c i)) = TASK_READY -> t_parent (f (tget c i)) = t_parent (tget c i) ->
  linv (tupd c i f) l (x ++ [i]).
Proof.
  intros Hinv H0 Hr Hu Hp Hf Hpar. pose proof (used_bound _ _ (li_len _ _ _ Hinv) Hu) as Hb.
  assert (Hil : i ∉ l ++ x) by (by rewrite (li_ready _ _ _ Hinv)).
  eapply (linv_move c l x _ l _ i TASK_READY); try done.
  - apply tupd_length.
  - apply queue_tupd_out; [apply Hinv|]. set_solver.
  - intros j. rewrite tupd_st by (by rewrite (li_len _ _ _ Hinv)). by rewrite Hf.
  - intros j. rewrite tget_tupd. left. by destruct (decide _) as [[-> _]|].
  - intros j Hj. set_solver.
  - set_solver.
  - rewrite app_assoc. apply list.NoDup_app. split_and!; [apply Hinv|set_solver|apply NoDup_singleton].
  - change (active_task_count (tupd c i f)) with (active_task_count c). rewrite !weight_used by done. lia.
Qed.

(** It is queued. *)
Lemma linv_add c l x i :
  linv c l (i :: x) -> linv (queue_append i c) (l ++ [i]) x.
Proof.
  intros Hinv. pose proof (queue_append_relinked c i) as Hrl.
  assert (H0 : i <> 0%nat) by (intros ->; apply (li_no_idle _ _ _ Hinv); set_solver).
  assert (Hr : st c i = TASK_READY) by (apply (li_ready _ _ _ Hinv); [done|set_solver]).
  pose proof (used_bound c i (li_len _ _ _ Hinv)) as Hb. rewrite Hr in Hb. specialize (Hb ltac:(done)).
  assert (Hnd : NoDup (l ++ [i] ++ x)) by apply Hinv.
  assert (Hil : i ∉ l).
  { intros Hi. apply list.NoDup_app in Hnd as (_ & Hd & _). by apply (Hd i Hi); left. }
  eapply (linv_move c l (i :: x) _ _ _ i TASK_READY); try done; try apply Hrl.
  - intros Hp. apply (li_pending _ _ _ Hinv) in Hp as [_ Hp]. congruence.
  - apply queue_append_spec; [apply Hinv|done|by rewrite (li_len _ _ _ Hinv)].
  - intros j. rewrite (relinked_state _ _ _ Hrl). by destruct (decide (i = j)) as [<-|].
  - intros j. left. apply (relinked_field t_parent); done.
  - intros j Hj. set_solver.
  - set_solver.
  - by rewrite <- app_assoc.
  - rewrite (rl_active _ _ Hrl), Hr. lia.
Qed.

Lemma linv_in c l x i :
  linv c l x -> i ∈ x -> i <> 0%nat /\ st c i = TASK_READY /\ i ∉ l /\ (i < 256)%nat /\
  pending_cleanup_task c <> Some i.
Proof.
  intros Hinv Hi. assert (H0 : i <> 0%nat) by (intros ->; apply (li_no_idle _ _ _ Hinv), elem_of_app; by right).
  assert (Hr : st c i = TASK_READY) by (apply (li_ready _ _ _ Hinv); [done|apply elem_of_app; by right]).
  split_and!; try done.
  - intros Hl. pose proof (li_nodup _ _ _ Hinv) as Hnd. apply list.NoDup_app in Hnd as (_ & Hd & _).
    by apply (Hd i).
  - apply (used_bound c); [apply Hinv|by rewrite Hr].
  - intros Hp. apply (li_pending _ _ _ Hinv) in Hp as [_ Hp]. congruence.
Qed.

(** The world, the PID counter and the tick are not part of it. *)
Lemma linv_same c c' l x :
  task_pool c' = task_pool c -> ready_queue_head c' = ready_queue_head c ->
  ready_queue_tail c' = ready_queue_tail c -> idle_task c' = idle_task c ->
  scheduler_initialized c' = scheduler_initialized c ->
  pending_cleanup_task c' = pending_cleanup_task c ->
  active_task_count c' = active_task_count c -> linv c l x -> linv c' l x.
Proof.
  intros Ep Eh Et Ei En Epe Ea [Hl Hq Hid Hin His Hni Hnd Hrd Hpe Hpa Hct].
  assert (Eg : forall i, tget c' i = tget c i) by (intros i; unfold tget; by rewrite Ep).
  split; try congruence.
  - apply (queue_ext c); [congruence| |congruence..|done]. intros i. by rewrite Eg.
  - intros i. rewrite Eg. apply Hrd.
  - intros i. rewrite Eg, Epe. apply Hpe.
  - rewrite Ea, Hct. symmetry. apply used_count_ext. intros i. unfold used. by rewrite Eg.
Qed.

(** A block under construction is filled in. *)
Lemma linv_touch c l x i f :
  linv c l x -> i ∈ x -> t_state (f (tget c i)) = TASK_READY -> t_parent (f (tget c i)) <> Some i ->
  linv (tupd c i f) l x.
Proof.
  intros Hinv Hi Hf Hpar. destruct (linv_in _ _ _ _ Hinv Hi) as (H0 & Hr & Hl & Hb & Hp).
  eapply (linv_move c l x _ l x i TASK_READY); try done.
  - apply tupd_length.
  - apply queue_tupd_out; [apply Hinv|done].
  - intros j. rewrite tupd_st by (by rewrite (li_len _ _ _ Hinv)). by rewrite Hf.
  - intros j. rewrite tget_tupd. destruct (decide _) as [[-> _]|]; [by right|by left].
  - split; [done|]. intros _. apply elem_of_app. by right.
  - apply Hinv.
  - change (active_task_count (tupd c i f)) with (active_task_count c). rewrite Hr. lia.
Qed.

(** It is given up. *)
Lemma linv_clear c l i : linv c l [i] -> cinv (clear_block i c).2 l.
Proof.
  intros Hinv. destruct (linv_in c l [i] i Hinv) as (H0 & Hr & Hl & Hb & Hp); [left|].
  assert (Hb' : (i < length (task_pool c))%nat) by (by rewrite (li_len _ _ _ Hinv)).
  pose proof (fun j => tget_clear c i j Hb') as E.
  apply linv_nil. eapply (linv_move c l [i] _ l [] i TASK_UNUSED); try done.
  - change (length (task_pool (tupd (tupd c i (fun _ => null_task)) i (t_set_state TASK_UNUSED))) =
            length (task_pool c)). by rewrite !tupd_length.
  - eapply (queue_ext (tupd (tupd c i (fun _ => null_task)) i (t_set_state TASK_UNUSED))); try done.
    do 2 (apply queue_tupd_out; [|done]). apply Hinv.
  - intros j. rewrite E. by destruct (decide (i = j)).
  - intros j. rewrite E. destruct (decide (i = j)); [by right|by left].
  - intros j Hj. rewrite !elem_of_app, list_elem_of_singleton, elem_of_nil. tauto.
  - rewrite app_nil_r. done.
  - rewrite app_nil_r. apply Hinv.
  - change (active_task_count (clear_block i c).2) with (u32 (active_task_count c - 1)).
    rewrite (li_count _ _ _ Hinv), Hr. pose proof (used_count_range c).
    pose proof (used_count_pos c i Hb) as Hpos. rewrite Hr in Hpos. specialize (Hpos ltac:(done)).
    rewrite u32_small by lia. rewrite (weight_used TASK_READY) by done. unfold weight. destruct (decide _); [lia|done].
Qed.

(** It is allocated. *)
Lemma linv_alloc c l i pid :
  cinv c l -> (i < 256)%nat -> st c i = TASK_UNUSED ->
  linv (set_active (set_next_pid (tupd c i (fun _ => fresh_task pid)) (u32 (pid + 1)))
          (u32 (active_task_count c + 1))) l [i].
Proof.
  intros Hinv Hb Hu. assert (H0 : i <> 0%nat) by (intros ->; destruct (ci_idle_state _ _ Hinv); congruence).
  assert (Hl : i ∉ l) by (rewrite (ready_iff _ _ _ Hinv) by done; by rewrite Hu).
  set (c1 := tupd c i (fun _ => fresh_task pid)).
  assert (Hst : forall j, st c1 j = if decide (i = j) then TASK_READY else st c j).
  { intros j. apply tupd_st. by rewrite (ci_len _ _ Hinv). }
  assert (Hcount : u32 (active_task_count c + 1) = active_task_count c + 1).
  { pose proof (used_count_move c c1 i TASK_READY Hb Hst) as E. rewrite Hu in E.
    rewrite weight_used in E by done. pose proof (used_count_range c1). pose proof (used_count_range c).
    rewrite (ci_count _ _ Hinv). apply u32_small. unfold weight in E. destruct (decide _) in E; [lia|done]. }
  eapply (linv_move c l [] _ l [i] i TASK_READY); try done.
  - by apply linv_nil.
  - intros Hp. apply (ci_pending _ _ Hinv) in Hp as [_ Hp]. congruence.
  - apply tupd_length.
  - eapply (queue_ext c1); try done. apply queue_tupd_out; [apply Hinv|done].
  - intros j. change (t_parent (tget c1 j) = t_parent (tget c j) \/ t_parent (tget c1 j) <> Some j).
    subst c1. rewrite tget_tupd. destruct (decide _); [by right|by left].
  - intros j Hj. rewrite !elem_of_app, list_elem_of_singleton, elem_of_nil. tauto.
  - split; [done|]. intros _. apply elem_of_app. right. left.
  - apply list.NoDup_app. split_and!; [apply Hinv|set_solver|apply NoDup_singleton].
  - cbn. rewrite Hcount, Hu, weight_used by done. unfold weight. destruct (decide _); [lia|done].
Qed.

End facts.
