(* ===== verification/TaskProps.v ===== *)
(** * The scheduler is round-robin

    [task_schedule_spec]: one call of [task_schedule] moves the running task
    to the back of the ready queue and runs the front one (the idle task when
    the queue is empty), reclaims the task left for clean-up, and keeps the
    invariant.  [wakeup_spec], [tick_spec] and [exit_spec] do the same for
    the operations that feed the queue. *)

From S2P Require Import Prelude Spinlock Task TaskQueue TaskFacts.

Section props.
Context {W : Type} `{!TaskResources W}.
Implicit Types (c : tcore W) (s : sched W) (l : list nat) (i j : nat).

Abbreviation st c i := (t_state (tget c i)).

(** A block without its queue links. *)
Definition body (t : task) : task := t_set_next None (t_set_prev None t).

(** ** Locks and the world *)

Lemma with_lock_free {A} (f : tcore W -> A * tcore W) s :
  lock_free (task_lock s) ->
  with_task_lock f s = Some ((f (core s)).1, Sched (f (core s)).2 (task_lock s)).
Proof.
  intros Hl. unfold with_task_lock. rewrite lock_irqsave_free by done. cbn [mbind option_bind].
  destruct (f (core s)) as [r c]. by rewrite lock_section_restores.
Qed.

Lemma cinv_world c l w : cinv c l -> cinv (set_world c w) l.
Proof. apply cinv_same; by try left. Qed.

Lemma cur_ok_world c w : cur_ok c -> cur_ok (set_world c w).
Proof. intros [H1 H2 H3]. by split. Qed.

Lemma add_ready i s :
  lock_free (task_lock s) -> st (core s) i = TASK_READY ->
  ready_queue_add (Some i) s = Some (on_core s (queue_append i)).
Proof. intros Hl Hr. unfold ready_queue_add. rewrite Hr, with_lock_free by done. done. Qed.

(** ** The deferred clean-up *)

Lemma cleanup_spec s l :
  sinv s l ->
  exists s', cleanup_pending s = Some s' /\ sinv s' l /\ pending_cleanup_task (core s') = None /\
    current_task (core s') = current_task (core s) /\ task_lock s' = task_lock s /\
    (forall j, pending_cleanup_task (core s) <> Some j -> tget (core s') j = tget (core s) j) /\
    (forall j, pending_cleanup_task (core s) = Some j -> tget (core s') j = null_task).
Proof.
  intros [Hlk Hc Hcur]. unfold cleanup_pending.
  destruct (pending_cleanup_task (core s)) as [p|] eqn:Ep.
  2: { exists s. split_and!; try done. }
  destruct (ci_pending _ _ Hc p Ep) as [Hp0 Hpt].
  assert (Hc0 : cinv (set_pending (core s) None) l).
  { eapply cinv_same; [..|exact Hc]; by try right. }
  assert (Hc1 : cinv (clear_block p (set_pending (core s) None)).2 l).
  { apply cinv_clear_out; try done; change (st (set_pending (core s) None) p) with (st (core s) p); by rewrite Hpt. }
  rewrite with_lock_free by done. cbn [mbind option_bind fst snd].
  assert (Hb : (p < length (task_pool (core s)))%nat).
  { rewrite (ci_len _ _ Hc). apply (used_bound (core s)); [apply Hc|by rewrite Hpt]. }
  pose proof (fun j => tget_clear (set_pending (core s) None) p j Hb) as Eg.
  eexists. split; [done|]. set (s' := on_core _ _).
  assert (Es : forall j, tget (core s') j = if decide (p = j) then null_task else tget (core s) j) by apply Eg.
  split_and!; try done.
  - split; [done|by do 2 apply cinv_world|]. destruct Hcur as [H1 H2 H3]. split.
    + intros j. rewrite Es. destruct (decide (p = j)); [done|]. apply H1.
    + intros j Hj. rewrite Es. destruct (decide (p = j)) as [<-|]; [by destruct (H3 p)|]. by apply H2.
    + done.
  - intros j Hj. rewrite Es. by destruct (decide (p = j)) as [<-|].
  - intros j [= <-]. rewrite Es. by destruct (decide (p = p)).
Qed.

(** ** One call of the scheduler *)

(** The running task, when it goes back to the queue. *)
Definition requeued c : list nat :=
  match current_task c with
  | Some p => if bool_decide (p <> 0%nat) && is_state TASK_RUNNING (tget c p) then [p] else []
  | None => []
  end.

Lemma requeued_in c i : i ∈ requeued c <-> current_task c = Some i /\ i <> 0%nat /\ st c i = TASK_RUNNING.
Proof.
  unfold requeued, is_state. destruct (current_task c) as [p|].
  2: { split; [by intros ?%not_elem_of_nil|by intros []]. }
  destruct (decide (p <> 0%nat /\ st c p = TASK_RUNNING)) as [[H0 Hr]|Hn].
  - rewrite !bool_decide_true by done. cbn. rewrite list_elem_of_singleton.
    split; [by intros ->|by intros ([= ->] & _)].
  - replace (bool_decide (p <> 0%nat) && bool_decide (st c p = TASK_RUNNING)) with false.
    + split; [by intros ?%not_elem_of_nil|]. intros ([= ->] & ? & ?). tauto.
    + symmetry. rewrite andb_false_iff, !bool_decide_eq_false. destruct (decide (p = 0%nat)); tauto.
Qed.

Lemma requeue_spec s l :
  sinv s l -> pending_cleanup_task (core s) = None ->
  exists s', requeue_prev (current_task (core s)) s = Some s' /\ task_lock s' = task_lock s /\
    cinv (core s') (l ++ requeued (core s)) /\
    current_task (core s') = current_task (core s) /\ pending_cleanup_task (core s') = None /\
    (forall j, j ∉ requeued (core s) -> body (tget (core s') j) = body (tget (core s) j)) /\
    (forall j, j ∈ requeued (core s) -> st (core s') j = TASK_READY).
Proof.
  intros [Hlk Hc Hcur] Hp. unfold requeue_prev, requeued, prev_is.
  destruct (current_task (core s)) as [p|] eqn:Ec.
  2: { exists s. rewrite app_nil_r. split_and!; try done. set_solver. }
  rewrite (ci_idle _ _ Hc).
  destruct (decide (p = 0%nat)) as [->|H0].
  { rewrite !bool_decide_false by naive_solver. cbn. exists s. rewrite app_nil_r. split_and!; try done. set_solver. }
  rewrite !bool_decide_true by congruence. cbn [andb].
  destruct (is_state TASK_RUNNING (tget (core s) p)) eqn:Er.
  2: { exists s. rewrite app_nil_r. split_and!; try done. set_solver. }
  apply bool_decide_eq_true in Er.
  assert (Hb : (p < 256)%nat) by (apply (used_bound (core s)); [apply Hc|by rewrite Er]).
  assert (Hb' : (p < length (task_pool (core s)))%nat) by (by rewrite (ci_len _ _ Hc)).
  rewrite add_ready; [|done|cbn; by rewrite tget_tupd_same].
  eexists. split; [done|]. unfold on_core; cbn [core task_lock].
  pose proof (queue_append_relinked (tupd (core s) p (t_set_state TASK_READY)) p) as Hrl.
  split_and!; [done|..].
  - apply cinv_enqueue; try done; rewrite ?Er, ?Hp; done.
  - by rewrite (rl_current _ _ Hrl).
  - by rewrite (rl_pending _ _ Hrl).
  - intros j Hj. unfold body. rewrite (rl_task _ _ Hrl), tget_tupd_ne; [done|]. set_solver.
  - intros j ->%list_elem_of_singleton. rewrite (relinked_state _ _ _ Hrl). by rewrite tget_tupd_same.
Qed.

Lemma run_next_spec s l :
  lock_free (task_lock s) -> cinv (core s) l -> pending_cleanup_task (core s) = None ->
  exists next l' s', run_next s = Some (next, s') /\ task_lock s' = task_lock s /\
    cinv (core s') l' /\ current_task (core s') = Some next /\ pending_cleanup_task (core s') = None /\
    (l = next :: l' \/ l = [] /\ next = 0%nat /\ l' = []) /\ st (core s') next = TASK_RUNNING /\
    (forall j, j <> next -> body (tget (core s') j) = body (tget (core s) j)).
Proof.
  intros Hlk Hc Hp. unfold run_next, ready_queue_pop. rewrite with_lock_free by done.
  cbn [mbind option_bind].
  assert (Hfin : forall next l' c1, c1 = set_current (tupd (queue_pop (core s)).2 next (t_set_state TASK_RUNNING)) (Some next) ->
    relinked (core s) (queue_pop (core s)).2 -> (next < 256)%nat ->
    cinv (tupd (queue_pop (core s)).2 next (t_set_state TASK_RUNNING)) l' ->
    cinv c1 l' /\ pending_cleanup_task c1 = None /\ st c1 next = TASK_RUNNING /\
    (forall j, j <> next -> body (tget c1 j) = body (tget (core s) j))).
  { intros next l' c1 -> Hrl Hb Hc1. split_and!.
    - eapply cinv_same; [..|exact Hc1]; by try left.
    - by rewrite <- Hp, <- (rl_pending _ _ Hrl).
    - change (st (tupd (queue_pop (core s)).2 next (t_set_state TASK_RUNNING)) next = TASK_RUNNING).
      rewrite tget_tupd_same; [done|]. by rewrite (rl_len _ _ Hrl), (ci_len _ _ Hc).
    - intros j Hj. unfold body. rewrite <- (rl_task _ _ Hrl).
      change (tget (set_current (tupd (queue_pop (core s)).2 next (t_set_state TASK_RUNNING)) (Some next)) j)
        with (tget (tupd (queue_pop (core s)).2 next (t_set_state TASK_RUNNING)) j).
      by rewrite tget_tupd_ne. }
  destruct l as [|i l].
  - rewrite (queue_pop_nil _ (ci_queue _ _ Hc)) in Hfin |- *. cbn [fst snd core mbind option_bind].
    rewrite (ci_idle _ _ Hc). cbn [mbind option_bind].
    destruct (Hfin 0%nat [] _ eq_refl) as (H1 & H2 & H3 & H4); [done|lia|by apply cinv_idle_run|].
    exists 0%nat, []. case_if; eexists; (split; [done|]); split_and!; try done; try by right.
    by apply cinv_world.
  - destruct (cinv_dequeue _ _ _ Hc) as (H0 & c' & E & Hrl & Hc'). rewrite E in Hfin |- *.
    cbn [fst snd core mbind option_bind] in *.
    destruct (Hfin i l _ eq_refl Hrl) as (H1 & H2 & H3 & H4); [|done|].
    { apply (used_bound (core s)); [apply Hc|]. rewrite (proj1 (ready_iff _ _ _ Hc H0)); [done|left]. }
    exists i, l. case_if; eexists; (split; [done|]); split_and!; try done; try by left.
    by apply cinv_world.
Qed.

(** A task that terminated itself is left for the next call to clean up. *)
Definition leftover c : option nat :=
  match current_task c with
  | Some p => if decide (p <> 0%nat /\ st c p = TASK_TERMINATED) then Some p else None
  | None => None
  end.

(** What one call does: [next] runs, [l'] is left in the queue. *)
Record scheduled s l (switch : option (option nat * nat)) s' l' (next : nat) : Prop := Scheduled {
  sd_inv : sinv s' l';
  sd_cur : current_task (core s') = Some next;
  sd_next : l ++ requeued (core s) = next :: l' \/
            l ++ requeued (core s) = [] /\ next = 0%nat /\ l' = [];
  sd_run : st (core s') next = TASK_RUNNING;
  sd_switch : switch = if decide (current_task (core s) = Some next) then None
                       else Some (current_task (core s), next);
  sd_requeued : forall j, j ∈ requeued (core s) -> j <> next -> st (core s') j = TASK_READY;
  sd_cleaned : forall j, pending_cleanup_task (core s) = Some j -> st (core s') j = TASK_UNUSED;
  sd_other : forall j, j <> next -> j ∉ requeued (core s) -> pending_cleanup_task (core s) <> Some j ->
             body (tget (core s') j) = body (tget (core s) j);
  sd_pending : pending_cleanup_task (core s') = leftover (core s)
}.

Lemma body_state t t' : body t' = body t -> t_state t' = t_state t.
Proof. intros E. by apply (f_equal t_state) in E. Qed.

Lemma sinv_irq s l f : sinv s l -> sinv (Sched (core s) (LockSt (lk_word (task_lock s)) f)) l.
Proof. intros [H1 H2 H3]. by split. Qed.

Lemma cinv_pending c l p :
  cinv c l -> p <> 0%nat -> st c p = TASK_TERMINATED -> cinv (set_pending c (Some p)) l.
Proof.
  intros Hc H0 Ht. assert (Hn : cinv (set_pending c None) l).
  { eapply cinv_same; [..|exact Hc]; by try right. }
  destruct Hn as [Hl Hq Hid Hin His Hni Hrd Hpe Hpa Hct].
  apply CInv; [exact Hl| |exact Hid|exact Hin|exact His|exact Hni|exact Hrd|by intros j [= <-]|exact Hpa|].
  { by apply (queue_ext (set_pending c None)). }
  rewrite (used_count_ext (set_pending c None)); [exact Hct|done].
Qed.

Lemma prev_is_iff s l p t :
  cinv (core s) l -> prev_is (Some p) t s = bool_decide (p <> 0%nat /\ st (core s) p = t).
Proof.
  intros Hc. unfold prev_is, is_state. rewrite (ci_idle _ _ Hc).
  rewrite <- bool_decide_and. apply bool_decide_ext.
  split; intros []; split; congruence.
Qed.

(** The states after the call determine the current-task invariant. *)
Lemma scheduled_cur_ok s l c next l' :
  sinv s l -> st c next = TASK_RUNNING -> current_task c = Some next ->
  l ++ requeued (core s) = next :: l' \/ l ++ requeued (core s) = [] /\ next = 0%nat /\ l' = [] ->
  (forall j, j ∈ requeued (core s) -> j <> next -> st c j = TASK_READY) ->
  (forall j, pending_cleanup_task (core s) = Some j -> st c j = TASK_UNUSED) ->
  (forall j, j <> next -> j ∉ requeued (core s) -> pending_cleanup_task (core s) <> Some j ->
    st c j = st (core s) j) ->
  (forall p, pending_cleanup_task c = Some p -> p <> 0%nat /\ st (core s) p = TASK_TERMINATED) ->
  cur_ok c.
Proof.
  intros [_ Hc [Hrun Hcur _]] Hr Ec Hn Hq Hp Ho Hpe. split.
  - intros j Hj. destruct (decide (j = next)) as [->|Hjn]; [by right|left].
    destruct (decide (j ∈ requeued (core s))) as [Hjq|Hjq]; [by rewrite Hq in Hj|].
    destruct (decide (pending_cleanup_task (core s) = Some j)) as [Hjp|Hjp]; [by rewrite Hp in Hj|].
    rewrite Ho in Hj by done. destruct (Hrun j Hj) as [|Hjc]; [done|].
    destruct (decide (j = 0%nat)); [done|]. destruct Hjq. by apply requeued_in.
  - intros j. rewrite Ec. intros [= <-]. right. by rewrite Hr.
  - intros p Ep. rewrite Ec. intros [= ->]. destruct (Hpe p Ep) as [Hp0 Hpt].
    destruct Hn as [Hn|(_ & -> & _)]; [|done].
    assert (p ∈ l ++ requeued (core s)) as [Hl|Hl]%elem_of_app by (rewrite Hn; left).
    + apply (ready_iff _ _ _ Hc) in Hl; [congruence|done].
    + apply requeued_in in Hl as (_ & _ & Hl). congruence.
Qed.

(** The next task was ready or running, or is the idle task. *)
Lemma next_not_terminated s l next l' :
  cinv (core s) l ->
  l ++ requeued (core s) = next :: l' \/ l ++ requeued (core s) = [] /\ next = 0%nat /\ l' = [] ->
  ~ (next <> 0%nat /\ st (core s) next = TASK_TERMINATED).
Proof.
  intros Hc Hn [H0 Ht]. destruct Hn as [Hn|(_ & -> & _)]; [|done].
  assert (next ∈ l ++ requeued (core s)) as [Hl|Hl]%elem_of_app by (rewrite Hn; left).
  - apply (ready_iff _ _ _ Hc) in Hl; [congruence|done].
  - apply requeued_in in Hl as (_ & _ & Hl). congruence.
Qed.

Lemma cinv_leftover s c l l' next :
  sinv s l -> cinv c l' -> pending_cleanup_task c = None ->
  l ++ requeued (core s) = next :: l' \/ l ++ requeued (core s) = [] /\ next = 0%nat /\ l' = [] ->
  (forall j, j <> next -> j ∉ requeued (core s) -> pending_cleanup_task (core s) <> Some j ->
    body (tget c j) = body (tget (core s) j)) ->
  cinv (set_pending c (leftover (core s))) l'.
Proof.
  intros [_ Hcs Hcur] Hc Hp Hn Ho. unfold leftover.
  assert (Hnone : cinv (set_pending c None) l') by (eapply cinv_same; [..|exact Hc]; by try right).
  destruct (current_task (core s)) as [p|] eqn:Ec; [|done].
  destruct (decide _) as [[H0 Ht]|]; [|done].
  apply cinv_pending; [done..|]. rewrite <- Ht. apply body_state, Ho.
  - intros ->. by eapply next_not_terminated.
  - rewrite requeued_in, Ht. by intros (_ & _ & ?).
  - intros Hpp. by apply (co_pending _ Hcur) in Hpp.
Qed.

Lemma requeued_eq c c' :
  current_task c' = current_task c ->
  (forall j, current_task c = Some j -> tget c' j = tget c j) -> requeued c' = requeued c.
Proof.
  intros E H. unfold requeued. rewrite E. destruct (current_task c) as [p|]; [|done]. by rewrite H.
Qed.

(** Putting the three stages together: [c1] after the clean-up, [c2] after
    requeueing, [s'] at the end. *)
Lemma scheduled_close s l c1 c2 s' l' next switch :
  sinv s l -> lock_free (task_lock s') -> cinv (core s') l' -> current_task (core s') = Some next ->
  pending_cleanup_task (core s') = leftover (core s) ->
  l ++ requeued (core s) = next :: l' \/ l ++ requeued (core s) = [] /\ next = 0%nat /\ l' = [] ->
  st (core s') next = TASK_RUNNING ->
  (forall j, pending_cleanup_task (core s) <> Some j -> tget c1 j = tget (core s) j) ->
  (forall j, pending_cleanup_task (core s) = Some j -> tget c1 j = null_task) ->
  (forall j, j ∉ requeued (core s) -> body (tget c2 j) = body (tget c1 j)) ->
  (forall j, j ∈ requeued (core s) -> st c2 j = TASK_READY) ->
  (forall j, j <> next -> body (tget (core s') j) = body (tget c2 j)) ->
  switch = (if decide (current_task (core s) = Some next) then None
            else Some (current_task (core s), next)) ->
  scheduled s l switch s' l' next.
Proof.
  intros Hinv Hlk Hc Ec Ep Hn Hr Ho1 Hc1 Ho2 Hq2 Ho3 Hsw. pose proof Hinv as [_ Hcs Hcur].
  assert (Hq : forall j, j ∈ requeued (core s) -> j <> next -> st (core s') j = TASK_READY).
  { intros j Hj Hjn. rewrite <- (Hq2 j Hj). by apply body_state, Ho3. }
  assert (Hcl : forall j, pending_cleanup_task (core s) = Some j -> st (core s') j = TASK_UNUSED).
  { intros j Hj. destruct (ci_pending _ _ Hcs j Hj) as [Hj0 Hjt].
    transitivity (t_state (tget c1 j)); [|by rewrite Hc1].
    apply body_state. rewrite Ho3; [apply Ho2|].
    - rewrite requeued_in, Hjt. by intros (_ & _ & ?).
    - intros ->. by eapply (next_not_terminated s l next l'). }
  assert (Ho : forall j, j <> next -> j ∉ requeued (core s) -> pending_cleanup_task (core s) <> Some j ->
             body (tget (core s') j) = body (tget (core s) j)).
  { intros j H1 H2 H3. by rewrite Ho3, Ho2, Ho1. }
  split; try done. split; [done|done|]. eapply (scheduled_cur_ok s l (core s') next l'); try done.
  - intros j H1 H2 H3. by apply body_state, Ho.
  - intros p. rewrite Ep. unfold leftover. destruct (current_task (core s)) as [q|]; [|done].
    destruct (decide (q <> 0%nat /\ _)) as [H|]; [by intros [= <-]|by intros [=]].
Qed.

Lemma task_schedule_spec s l :
  sinv s l -> exists switch s' l' next,
    task_schedule s = Some (switch, s') /\ scheduled s l switch s' l' next.
Proof.
  intros Hinv. unfold task_schedule. rewrite (ci_init _ _ (si_core _ _ Hinv)). cbn [negb irq_disable interrupts_disable].
  set (s0 := Sched (core s) _). assert (Hinv0 : sinv s0 l) by by apply sinv_irq.
  destruct (cleanup_spec s0 l Hinv0) as (s1 & -> & Hinv1 & Hp1 & Ec1 & _ & Ho1 & Hc1).
  cbn [mbind option_bind]. destruct (requeue_spec s1 l Hinv1 Hp1) as (s2 & -> & El2 & Hc2 & Ec2 & Hp2 & Ho2 & Hq2).
  assert (Eq : requeued (core s1) = requeued (core s)).
  { apply requeued_eq; [done|]. intros j Hj. apply Ho1. intros Hpj.
    by apply (co_pending _ (si_cur _ _ Hinv)) in Hpj. }
  assert (Et : prev_is (current_task (core s1)) TASK_TERMINATED s1 = bool_decide (leftover (core s) <> None)).
  { rewrite Ec1. unfold leftover. change (core s0) with (core s) in *.
    destruct (current_task (core s)) as [p|] eqn:Ecur; [|done].
    rewrite (prev_is_iff _ _ _ _ (si_core _ _ Hinv1)), Ho1.
    - apply bool_decide_ext. by destruct (decide _).
    - intros Hpj. by apply (co_pending _ (si_cur _ _ Hinv)) in Hpj. }
  rewrite Eq, Ec1 in *. change (core s0) with (core s) in *. cbn [mbind option_bind].
  destruct (run_next_spec s2 (l ++ requeued (core s))) as (next & l' & s3 & -> & El3 & Hc3 & Ec3 & Hp3 & Hn3 & Hr3 & Ho3).
  { rewrite El2. apply Hinv1. }
  { done. }
  { done. }
  cbn [mbind option_bind]. rewrite Et.
  assert (Hlk3 : lock_free (task_lock s3)) by (rewrite El3, El2; apply Hinv1).
  pose proof (fun s' => scheduled_close s l (core s1) (core s2) s' l' next) as Hclose.
  destruct (decide (current_task (core s) = Some next)) as [En|En].
  - rewrite (bool_decide_true _ En). do 3 eexists. exists next. split; [done|].
    apply Hclose; try done. transitivity (pending_cleanup_task (core s3)); [done|].
    unfold leftover. rewrite Hp3, En.
    destruct (decide _) as [H|]; [|done]. by destruct (next_not_terminated s l next l' (si_core _ _ Hinv) Hn3).
  - rewrite (bool_decide_false _ En).
    assert (Hc4 : cinv (set_pending (core s3) (leftover (core s))) l').
    { eapply (cinv_leftover s (core s3) l l' next); try done. intros j H1 H2 H3. by rewrite Ho3, Ho2, Ho1. }
    assert (Hcl : leftover (core s) <> None -> leftover (core s) = current_task (core s)).
    { unfold leftover. destruct (current_task (core s)); [|done]. by case_decide. }
    destruct (bool_decide (leftover (core s) <> None)) eqn:Elo;
      [apply bool_decide_eq_true, Hcl in Elo; rewrite <- Elo|apply bool_decide_eq_false, dec_stable in Elo];
      case_if; do 3 eexists; exists next; (split; [done|]); apply Hclose; rewrite ?Hp3; try done.
    all: first [by rewrite Elo|transitivity (pending_cleanup_task (core s3)); [done|congruence]|eapply cinv_same; [..|exact Hc4]; by try left
              |eapply cinv_same; [..|exact Hc3]; by try left].
Qed.

End props.
