(* ===== verification/TaskSteps.v ===== *)
(** * The other operations on the pool

    Each operation keeps [good], the invariant between operations, and says
    what it does to the queue: wake-ups and timer ticks append the tasks they
    wake, blocking and exiting end in one call of the scheduler. *)

From S2P Require Import Prelude Spinlock Task TaskQueue TaskFacts TaskProps.

Section steps.
Context {W : Type} `{!TaskResources W}.
Implicit Types (c : tcore W) (s : sched W) (l : list nat) (i j : nat).

Abbreviation st c i := (t_state (tget c i)).

(** Between operations the current task is not blocked. *)
Record good s l : Prop := Good {
  gd_inv : sinv s l;
  gd_cur : forall i, current_task (core s) = Some i -> st (core s) i <> TASK_BLOCKED
}.

Lemma scheduled_good s l switch s' l' next : scheduled s l switch s' l' next -> good s' l'.
Proof.
  intros H. split; [apply (sd_inv _ _ _ _ _ _ H)|]. intros i.
  rewrite (sd_cur _ _ _ _ _ _ H). intros [= <-]. by rewrite (sd_run _ _ _ _ _ _ H).
Qed.

(** ** Searching the pool *)

Lemma find_task_some p n c i k :
  find_task p n c i = Some k ->
  (i <= k < i + n)%nat /\ p (tget c k) = true /\ forall j, (i <= j < k)%nat -> p (tget c j) = false.
Proof.
  revert i. induction n as [|n IH]; intros i; cbn; [done|].
  destruct (p (tget c i)) eqn:E.
  - intros [= <-]. split_and!; [lia|lia|done|]. intros; lia.
  - intros H. destruct (IH _ H) as (H1 & H2 & H3). split_and!; [lia|lia|done|].
    intros j Hj. destruct (decide (j = i)) as [->|]; [done|apply H3; lia].
Qed.

Lemma find_task_none p n c i :
  find_task p n c i = None -> forall j, (i <= j < i + n)%nat -> p (tget c j) = false.
Proof.
  revert i. induction n as [|n IH]; intros i; cbn; [intros; lia|].
  destruct (p (tget c i)) eqn:E; [done|]. intros H j Hj.
  destruct (decide (j = i)) as [->|]; [done|apply (IH _ H); lia].
Qed.

(** ** Waking up *)

(** The tasks [ws] went from BLOCKED to the back of the queue. *)
Record woken s l s' (ws : list nat) : Prop := Woken {
  wk_good : good s' (l ++ ws);
  wk_cur : current_task (core s') = current_task (core s);
  wk_pending : pending_cleanup_task (core s') = pending_cleanup_task (core s);
  wk_in : forall j, j ∈ ws -> st (core s) j = TASK_BLOCKED /\ st (core s') j = TASK_READY;
  wk_out : forall j, j ∉ ws -> st (core s') j = st (core s) j
}.

Lemma woken_close s l s' ws :
  good s l -> lock_free (task_lock s') -> cinv (core s') (l ++ ws) ->
  current_task (core s') = current_task (core s) ->
  pending_cleanup_task (core s') = pending_cleanup_task (core s) ->
  (forall j, j ∈ ws -> st (core s) j = TASK_BLOCKED /\ st (core s') j = TASK_READY) ->
  (forall j, j ∉ ws -> st (core s') j = st (core s) j) -> woken s l s' ws.
Proof.
  intros [[_ _ [H1 H2 H3]] Hb] Hlk Hc Ec Ep Hin Hout.
  assert (Hcur : forall i, current_task (core s) = Some i -> st (core s') i = st (core s) i).
  { intros i Hi. apply Hout. intros Hw. by apply (Hb i Hi), Hin. }
  split; try done. split; [split; [done|done|split]|].
  - intros i Hi. rewrite Ec. apply H1. destruct (decide (i ∈ ws)) as [Hw|Hw].
    + apply Hin in Hw as [_ Hw]. congruence.
    + by rewrite <- Hout.
  - rewrite Ec. intros i Hi. rewrite Hcur by done. by apply H2.
  - rewrite Ec, Ep. apply H3.
  - rewrite Ec. intros i Hi. rewrite Hcur by done. by apply Hb.
Qed.

Lemma wakeup_spec s l :
  good s l -> exists s' ws, task_wakeup s = Some s' /\ woken s l s' ws /\
    ws = match find_task (fun t => is_state TASK_BLOCKED t && (t_sleep_until_ms t =? 0))
                 (Z.to_nat MAX_TASKS) (core s) 0 with
         | Some i => [i] | None => [] end.
Proof.
  intros Hg. pose proof Hg as [[Hlk Hc Hcur] Hb]. unfold task_wakeup. rewrite with_lock_free by done.
  destruct (find_task _ _ _ _) as [i|] eqn:E; cbn [fst snd mbind option_bind].
  - apply find_task_some in E as (_ & E & _). apply andb_true_iff in E as [E _].
    apply bool_decide_eq_true in E.
    assert (H0 : i <> 0%nat).
    { intros ->. destruct (ci_idle_state _ _ Hc); congruence. }
    assert (Hlt : (i < length (task_pool (core s)))%nat).
    { rewrite (ci_len _ _ Hc). apply (used_bound (core s)); [apply Hc|by rewrite E]. }
    assert (Hp : pending_cleanup_task (core s) <> Some i).
    { intros Hp. apply (ci_pending _ _ Hc) in Hp as [_ Hp]. congruence. }
    rewrite add_ready; [|done|cbn; by rewrite tget_tupd_same]. do 2 eexists. split; [done|]. split; [|done].
    pose proof (queue_append_relinked (tupd (core s) i (t_set_state TASK_READY)) i) as Hrl.
    apply woken_close; try done; [|apply Hrl..| |].
    + apply cinv_enqueue; try done; [|by rewrite E..]. by rewrite <- (ci_len _ _ Hc).
    + intros j ->%list_elem_of_singleton. split; [done|]. unfold on_core; cbn [core].
      rewrite (relinked_state _ _ _ Hrl). by rewrite tget_tupd_same.
    + intros j Hj. unfold on_core; cbn [core]. rewrite (relinked_state _ _ _ Hrl), tget_tupd_ne; [done|set_solver].
  - exists s, []. destruct s. split; [done|]. split; [|done]. apply woken_close; try done.
    + by rewrite app_nil_r.
    + intros j Hj. by apply not_elem_of_nil in Hj.
Qed.

(** ** The timer tick *)

Lemma wake_due_spec now n :
  forall i c l x, linv c l x ->
  linv (wake_due now n i c).2 l (x ++ (wake_due now n i c).1) /\
  current_task (wake_due now n i c).2 = current_task c /\
  pending_cleanup_task (wake_due now n i c).2 = pending_cleanup_task c /\
  (forall j, j ∈ (wake_due now n i c).1 ->
     st c j = TASK_BLOCKED /\ st (wake_due now n i c).2 j = TASK_READY /\
     0 < t_sleep_until_ms (tget c j) <= now) /\
  (forall j, j ∉ (wake_due now n i c).1 -> tget (wake_due now n i c).2 j = tget c j).
Proof.
  induction n as [|n IH]; intros i c l x Hinv; cbn.
  { rewrite app_nil_r. split_and!; try done. intros j Hj. by apply not_elem_of_nil in Hj. }
  destruct (is_state TASK_BLOCKED (tget c i) && _ && _) eqn:Hif; [|by apply IH].
  apply andb_true_iff in Hif as [[Hb Hs1]%andb_true_iff Hs2]. apply bool_decide_eq_true in Hb.
  set (c1 := tupd c i _).
  assert (H0 : i <> 0%nat) by (intros ->; destruct (li_idle_state _ _ _ Hinv); congruence).
  assert (Hlt : (i < length (task_pool c))%nat).
  { rewrite (li_len _ _ _ Hinv). apply (used_bound c); [apply Hinv|by rewrite Hb]. }
  assert (Hinv1 : linv c1 l (x ++ [i])).
  { apply linv_wake; try done; try by rewrite Hb. intros Hp.
    apply (li_pending _ _ _ Hinv) in Hp as [_ Hp]. congruence. }
  assert (Hi1 : st c1 i = TASK_READY) by (subst c1; by rewrite tget_tupd_same).
  destruct (IH (S i) c1 l _ Hinv1) as (I1 & I2 & I3 & I4 & I5).
  destruct (wake_due now n (S i) c1) as [ws c2]. cbn [fst snd] in *.
  rewrite <- app_assoc in I1. split_and!; try done.
  - intros j [->|Hj]%elem_of_cons.
    + split; [done|]. split; [|zify_bool; lia]. rewrite I5; [done|]. intros Hw.
      apply I4 in Hw as (Hw & _). congruence.
    + destruct (I4 j Hj) as (J1 & J2 & J3). assert (i <> j) by congruence.
      subst c1. by rewrite tget_tupd_ne in J1, J3.
  - intros j [Hji Hj]%not_elem_of_cons. rewrite I5 by done. subst c1. by rewrite tget_tupd_ne.
Qed.

Lemma add_all_spec ws :
  forall s l, lock_free (task_lock s) -> linv (core s) l ws ->
  exists s', add_all ws s = Some s' /\ task_lock s' = task_lock s /\
    linv (core s') (l ++ ws) [] /\ relinked (core s) (core s').
Proof.
  induction ws as [|i ws IH]; intros s l Hlk Hinv; cbn [add_all].
  { exists s. by rewrite app_nil_r. }
  assert (H0 : i <> 0%nat) by (intros ->; apply (li_no_idle _ _ _ Hinv); set_solver).
  assert (Hr : st (core s) i = TASK_READY) by (apply (li_ready _ _ _ Hinv); [done|set_solver]).
  rewrite add_ready by done. cbn [mbind option_bind].
  destruct (IH (on_core s (queue_append i)) (l ++ [i])) as (s' & -> & E1 & E2 & E3); [done|by apply linv_add|].
  exists s'. split_and!; try done; [by rewrite <- app_assoc in E2|].
  etrans; [apply queue_append_relinked|exact E3].
Qed.

Lemma cinv_tick c l v : cinv c l -> cinv (set_tick c v) l.
Proof. apply cinv_same; by try left. Qed.

(** A tick appends the sleepers that are due, in pool order. *)
Lemma tick_spec frequency now s l :
  good s l -> exists s' ws, task_timer_tick frequency now s = Some s' /\ woken s l s' ws /\
    forall j, j ∈ ws -> 0 < t_sleep_until_ms (tget (core s) j) <= now.
Proof.
  intros Hg. pose proof Hg as [[Hlk Hc Hcur] Hb]. unfold task_timer_tick.
  generalize (Z.to_nat MAX_TASKS). intros n. destruct (current_task (core s)) as [cur|] eqn:Ec.
  2: { exists s, []. split; [done|]. split; [|intros j Hj; by apply not_elem_of_nil in Hj].
       apply woken_close; try done; [by rewrite app_nil_r|]. intros j Hj. by apply not_elem_of_nil in Hj. }
  rewrite (ci_init _ _ Hc). cbn [negb]. set (f := fun t => t_set_runtime _ t).
  set (s1 := on_core s (fun c => tupd c cur f)).
  assert (Hst : forall j, st (core s1) j = st (core s) j).
  { intros j. by apply (tget_tupd_field t_state). }
  assert (Hsl : forall j, t_sleep_until_ms (tget (core s1) j) = t_sleep_until_ms (tget (core s) j)).
  { intros j. by apply (tget_tupd_field t_sleep_until_ms). }
  assert (Hc1 : linv (core s1) l []).
  { apply linv_nil, cinv_touch; [done|by left|done]. }
  rewrite with_lock_free by done. cbn [mbind option_bind fst snd].
  destruct (wake_due_spec now n 0 (core s1) l [] Hc1) as (I1 & I2 & I3 & I4 & I5).
  destruct (wake_due now n 0 (core s1)) as [ws c2]. cbn [fst snd] in *.
  destruct (add_all_spec ws (Sched c2 (task_lock s1)) l) as (s3 & -> & E1 & E2 & Hrl); [done|exact I1|].
  cbn [mbind option_bind core] in *. apply linv_nil in E2. eexists. exists ws. split; [done|].
  split; [|intros j Hj; rewrite <- Hsl; by apply I4].
  assert (Hin : forall j, j ∈ ws -> st (core s) j = TASK_BLOCKED /\ st (core s3) j = TASK_READY).
  { intros j Hj. rewrite (relinked_state _ _ _ Hrl), <- Hst. by destruct (I4 j Hj) as (? & ? & _). }
  assert (Hout : forall j, j ∉ ws -> st (core s3) j = st (core s) j).
  { intros j Hj. rewrite (relinked_state _ _ _ Hrl), I5, <- Hst; done. }
  assert (Ecur : current_task (core s3) = current_task (core s)) by (rewrite (rl_current _ _ Hrl), I2; done).
  assert (Epen : pending_cleanup_task (core s3) = pending_cleanup_task (core s)) by (rewrite (rl_pending _ _ Hrl), I3; done).
  case_if; apply woken_close; try done; try (unfold on_core; cbn [core task_lock]; by rewrite E1);
    repeat apply cinv_tick; done.
Qed.

(** ** Blocking *)

Lemma cur_ok_relabel c i f :
  cur_ok c -> current_task c = Some i -> i <> 0%nat -> (i < length (task_pool c))%nat ->
  t_state (f (tget c i)) <> TASK_READY -> t_state (f (tget c i)) <> TASK_UNUSED ->
  cur_ok (tupd c i f).
Proof.
  intros [H1 H2 H3] Ec H0 Hlt Hf1 Hf2. split.
  - intros j. destruct (decide (i = j)) as [<-|]; [by right|]. rewrite tget_tupd_ne by done. apply H1.
  - change (current_task (tupd c i f)) with (current_task c). rewrite Ec. intros j [= <-].
    right. by rewrite tget_tupd_same.
  - exact H3.
Qed.

(** The current task takes a state in which it does not run, then the
    scheduler is called. *)
Lemma block_relabel s l cur f :
  good s l -> current_task (core s) = Some cur -> cur <> 0%nat ->
  t_state (f (tget (core s) cur)) <> TASK_READY -> t_state (f (tget (core s) cur)) <> TASK_UNUSED ->
  t_parent (f (tget (core s) cur)) = t_parent (tget (core s) cur) ->
  sinv (on_core s (fun c => tupd c cur f)) l /\
  (cur < length (task_pool (core s)))%nat.
Proof.
  intros [[Hlk Hc Hcur] Hb] Ec H0 Hf1 Hf2 Hpar.
  destruct (co_cur _ Hcur cur Ec) as [|[Hr Hu]]; [done|].
  assert (Hlt : (cur < length (task_pool (core s)))%nat).
  { rewrite (ci_len _ _ Hc). by apply (used_bound (core s)); [apply Hc|]. }
  split; [|done]. split; [done|..].
  - apply cinv_relabel; try done. intros Hp. by apply (co_pending _ Hcur) in Hp.
  - by apply cur_ok_relabel.
Qed.

(** A terminated task that is neither running nor left for clean-up. *)
Definition stranded s i : Prop :=
  st (core s) i = TASK_TERMINATED /\ current_task (core s) <> Some i /\
  pending_cleanup_task (core s) <> Some i.

Lemma scheduled_stranded s l switch s' l' next i :
  sinv s l -> scheduled s l switch s' l' next -> stranded s i -> stranded s' i.
Proof.
  intros Hinv [Hi Hc Hn Hr _ Hq Hcl Ho Hp] (Ht & Hnc & Hnp).
  assert (H0 : i <> 0%nat).
  { intros ->. destruct (ci_idle_state _ _ (si_core _ _ Hinv)); congruence. }
  assert (Hin : i <> next) by (intros ->; by apply (next_not_terminated s l next l' (si_core _ _ Hinv) Hn)).
  split_and!.
  - rewrite <- Ht. apply body_state, Ho; try done. by rewrite requeued_in, Ht; intros (_ & _ & ?).
  - rewrite Hc. congruence.
  - rewrite Hp. unfold leftover. destruct (current_task (core s)); [|done]. case_decide; [congruence|done].
Qed.

Lemma good_irq s l b : good s l -> good (irq_restore s b) l.
Proof. intros [H1 H2]. split; [by apply sinv_irq|done]. Qed.

(** Blocking the current task: the front of the queue runs next. *)
Record blocked s l s' l' (next : nat) : Prop := Blocked {
  bl_good : good s' l';
  bl_cur : current_task (core s') = Some next;
  bl_next : l = next :: l' \/ l = [] /\ next = 0%nat /\ l' = [];
  bl_run : st (core s') next = TASK_RUNNING;
  bl_stranded : forall i, stranded s i -> stranded s' i
}.

Lemma block_close s l cur f :
  good s l -> current_task (core s) = Some cur -> cur <> 0%nat ->
  (forall t, t_state (f t) = TASK_BLOCKED) -> (forall t, t_parent (f t) = t_parent t) ->
  exists switch s' l' next,
    task_schedule (on_core s (fun c => tupd c cur f)) = Some (switch, s') /\ blocked s l s' l' next /\
    body (tget (core s') cur) = body (f (tget (core s) cur)).
Proof.
  intros Hg Ec H0 Hf Hpar.
  destruct (block_relabel s l cur f) as [Hinv Hlt]; try done; try by rewrite Hf.
  destruct (task_schedule_spec _ _ Hinv) as (sw & s' & l' & next & E & Hsd).
  exists sw, s', l', next. split; [done|].
  assert (Hnr : requeued (core (on_core s (fun c => tupd c cur f))) = []).
  { unfold requeued. cbn. change (current_task (tupd (core s) cur f)) with (current_task (core s)).
    rewrite Ec, tget_tupd_same by done. unfold is_state. rewrite Hf. cbn. by rewrite andb_false_r. }
  pose proof (sd_next _ _ _ _ _ _ Hsd) as Hn. rewrite Hnr, app_nil_r in Hn. split.
  - split; [by eapply scheduled_good|apply Hsd|done|apply Hsd|].
    intros i (Ht & Hc & Hp). eapply scheduled_stranded; [done..|]. split_and!; [|done..].
    cbn. rewrite tget_tupd_ne; [done|]. by intros ->.
  - rewrite (sd_other _ _ _ _ _ _ Hsd).
    + cbn. by rewrite tget_tupd_same.
    + intros <-. destruct Hn as [-> | (_ & ? & _)]; [|done].
      destruct Hg as [[_ Hc Hcur] _]. destruct (co_cur _ Hcur cur Ec) as [|[Hr _]]; [done|].
      apply Hr, (ready_iff _ _ _ Hc); [done|left].
    + by rewrite Hnr; apply not_elem_of_nil.
    + intros Hp. by apply (co_pending _ (si_cur _ _ (gd_inv _ _ Hg))) in Hp.
Qed.

Lemma good_irq_off s l : good s l -> good (irq_disable s).2 l.
Proof. intros [H1 H2]. split; [by apply sinv_irq|done]. Qed.

Lemma blocked_irq s l s' l' next b : blocked s l s' l' next -> blocked s l (irq_restore s' b) l' next.
Proof. intros [H1 H2 H3 H4 H5]. split; try done. by apply good_irq. Qed.

Lemma block_spec s l cur :
  good s l -> current_task (core s) = Some cur -> cur <> 0%nat ->
  exists switch s' l' next, task_block s = Some (switch, s') /\ blocked s l s' l' next /\
    st (core s') cur = TASK_BLOCKED.
Proof.
  intros Hg Ec H0. unfold task_block. rewrite Ec. apply good_irq_off in Hg.
  destruct (irq_disable s) as [prev s0] eqn:Es. cbn [snd] in Hg.
  assert (E0 : core s0 = core s) by (by injection Es as _ <-).
  destruct (block_close s0 l cur (t_set_state TASK_BLOCKED)) as (sw & s' & l' & next & -> & Hb & Hbody);
    [done|congruence|done..|]. cbn [mbind option_bind].
  assert (Hbl : blocked s l s' l' next).
  { destruct Hb as [B1 B2 B3 B4 B5]. split; try done. intros i Hi. apply B5. unfold stranded in *. by rewrite E0. }
  apply body_state in Hbody. exists sw. destruct sw; do 3 eexists; (split; [done|]); (split; [|done]);
    [done|by apply blocked_irq].
Qed.

Lemma sleep_spec ms now s l cur :
  good s l -> current_task (core s) = Some cur -> cur <> 0%nat -> ms <> 0 ->
  exists switch s' l' next, task_sleep ms now s = Some (switch, s') /\ blocked s l s' l' next /\
    st (core s') cur = TASK_BLOCKED /\ t_sleep_until_ms (tget (core s') cur) = u64 (now + ms).
Proof.
  intros Hg Ec H0 Hms. unfold task_sleep. rewrite Ec. rewrite (proj2 (Z.eqb_neq ms 0)) by done.
  apply good_irq_off in Hg.
  destruct (irq_disable s) as [prev s0] eqn:Es. cbn [snd] in Hg.
  assert (E0 : core s0 = core s) by (by injection Es as _ <-).
  destruct (block_close s0 l cur (fun t => t_set_state TASK_BLOCKED (t_set_sleep (u64 (now + ms)) t)))
    as (sw & s' & l' & next & -> & Hb & Hbody); [done|congruence|done..|]. cbn [mbind option_bind].
  assert (Hbl : blocked s l s' l' next).
  { destruct Hb as [B1 B2 B3 B4 B5]. split; try done. intros i Hi. apply B5. unfold stranded in *. by rewrite E0. }
  pose proof (f_equal t_sleep_until_ms Hbody) as Hsl. apply body_state in Hbody.
  exists sw. destruct sw; do 3 eexists; (split; [done|]); (split; [|done]);
    [done|by apply blocked_irq].
Qed.

End steps.
