(* ===== verification/TaskExit.v ===== *)
(** * Exit, wait, and what is never reclaimed

    [exit_spec] and [wait_spec] follow a process from [task_exit] to the
    parent's [sys_waitpid]; [stranded] blocks, terminated tasks that are
    neither current nor marked for clean-up, stay stranded under every
    operation. *)

From S2P Require Import Prelude Spinlock Task TaskQueue Process TaskFacts TaskProps TaskSteps.

Section exit.
Context {W : Type} `{!TaskResources W}.
Implicit Types (c : tcore W) (s : sched W) (l : list nat) (i j : nat).

Abbreviation st c i := (t_state (tget c i)).

(** ** Releasing blocks *)

Record freed s l s' (zs : list nat) : Prop := Freed {
  fr_lock : task_lock s' = task_lock s;
  fr_inv : cinv (core s') l;
  fr_cur : current_task (core s') = current_task (core s);
  fr_pending : pending_cleanup_task (core s') = pending_cleanup_task (core s);
  fr_out : forall j, j ∉ zs -> tget (core s') j = tget (core s) j;
  fr_in : forall j, j ∈ zs -> tget (core s') j = null_task
}.

Lemma task_free_spec s l i :
  lock_free (task_lock s) -> cinv (core s) l -> i <> 0%nat ->
  st (core s) i <> TASK_READY -> st (core s) i <> TASK_UNUSED ->
  pending_cleanup_task (core s) <> Some i ->
  exists s', task_free (Some i) s = Some s' /\ freed s l s' [i].
Proof.
  intros Hlk Hc H0 Hr Hu Hp. unfold task_free. rewrite with_lock_free by done.
  cbn [mbind option_bind fst snd]. eexists. split; [done|].
  assert (Hlt : (i < length (task_pool (core s)))%nat).
  { rewrite (ci_len _ _ Hc). by apply (used_bound (core s)); [apply Hc|]. }
  split; try done.
  - apply cinv_clear_out; try done. by do 2 apply cinv_world.
  - intros j Hj. etrans; [by apply tget_clear|]. destruct (decide (i = j)) as [->|]; [set_solver|done].
  - intros j ->%list_elem_of_singleton. etrans; [by apply tget_clear|]. by destruct (decide (i = i)).
Qed.

Lemma free_all_spec zs :
  forall s l, lock_free (task_lock s) -> cinv (core s) l -> NoDup zs ->
  (forall z, z ∈ zs -> z <> 0%nat /\ st (core s) z = TASK_ZOMBIE) ->
  exists s', free_all zs s = Some s' /\ freed s l s' zs.
Proof.
  induction zs as [|z zs IH]; intros s l Hlk Hc Hnd Hz; cbn [free_all].
  { exists s. split; [done|]. split; try done. intros j Hj. by apply not_elem_of_nil in Hj. }
  apply list.NoDup_cons in Hnd as [Hzn Hnd].
  destruct (Hz z) as [Hz0 Hzs]; [left|].
  destruct (task_free_spec s l z) as (s1 & -> & [F1 F2 F3 F4 F5 F6]); try done; try by rewrite Hzs.
  { intros Hp. apply (ci_pending _ _ Hc) in Hp as [_ Hp]. congruence. }
  cbn [mbind option_bind]. destruct (IH s1 l) as (s' & -> & [G1 G2 G3 G4 G5 G6]); try done.
  { by rewrite F1. }
  { intros y Hy. rewrite F5; [apply Hz; by right|]. intros ->%list_elem_of_singleton. done. }
  exists s'. split; [done|]. split; try congruence.
  - intros j [H1 H2]%not_elem_of_cons. rewrite G5, F5; [done|set_solver|done].
  - intros j [->|Hj]%elem_of_cons; [|by apply G6]. rewrite G5 by done. apply F6. left.
Qed.

(** ** Parting with the children *)

Lemma part_children_spec cur n :
  forall i c l, cinv c l ->
  cinv (part_children cur n i c).2 l /\ NoDup (part_children cur n i c).1 /\
  current_task (part_children cur n i c).2 = current_task c /\
  pending_cleanup_task (part_children cur n i c).2 = pending_cleanup_task c /\
  (forall z, z ∈ (part_children cur n i c).1 ->
     (i <= z)%nat /\ st c z = TASK_ZOMBIE /\ t_parent (tget c z) = Some cur) /\
  (forall j, tget (part_children cur n i c).2 j = tget c j \/
     (t_parent (tget c j) = Some cur /\ st c j <> TASK_ZOMBIE /\
      tget (part_children cur n i c).2 j = t_set_parent None (tget c j))).
Proof.
  induction n as [|n IH]; intros i c l Hc; cbn [part_children].
  { split_and!; try done; [constructor| |by left]. intros z Hz. by apply not_elem_of_nil in Hz. }
  destruct (is_state TASK_UNUSED (tget c i)) eqn:Eu; [|destruct (decide (t_parent (tget c i) = Some cur)) as [Ep|Ep]].
  - destruct (IH (S i) c l Hc) as (I1 & I2 & I3 & I4 & I5 & I6). split_and!; try done.
    intros z Hz. destruct (I5 z Hz) as (? & ? & ?). split; [lia|done].
  - rewrite (bool_decide_true _ Ep). destruct (is_state TASK_ZOMBIE (tget c i)) eqn:Ez.
    + destruct (IH (S i) c l Hc) as (I1 & I2 & I3 & I4 & I5 & I6).
      destruct (part_children cur n (S i) c) as [zs c']. cbn [fst snd] in *. split_and!; try done.
      * apply list.NoDup_cons. split; [|done]. intros Hz. apply I5 in Hz as [Hz _]. lia.
      * intros z [->|Hz]%elem_of_cons; [by apply bool_decide_eq_true in Ez|].
        destruct (I5 z Hz) as (? & ? & ?). split; [lia|done].
    + assert (Hc1 : cinv (tupd c i (t_set_parent None)) l) by (apply cinv_touch; [done|by right|done]).
      destruct (IH (S i) _ l Hc1) as (I1 & I2 & I3 & I4 & I5 & I6). split_and!; try done.
      * intros z Hz. destruct (I5 z Hz) as (J1 & J2 & J3). assert (i <> z) by lia.
        rewrite tget_tupd_ne in J2, J3 by done. split; [lia|done].
      * intros j. destruct (I6 j) as [E|(E1 & E2 & E3)].
        -- rewrite E, tget_tupd. destruct (decide _) as [[<- _]|]; [right|by left].
           split_and!; [done| |done]. by apply bool_decide_eq_false in Ez.
        -- destruct (decide (i = j)) as [<-|Hij].
           ++ rewrite tget_tupd in E1. destruct (decide _); [done|]. right.
              rewrite E3, tget_tupd. destruct (decide _); [done|]. split_and!; try done.
              by apply bool_decide_eq_false in Ez.
           ++ rewrite tget_tupd_ne in E1, E2, E3 by done. by right.
  - rewrite (bool_decide_false _ Ep). destruct (IH (S i) c l Hc) as (I1 & I2 & I3 & I4 & I5 & I6).
    split_and!; try done. intros z Hz. destruct (I5 z Hz) as (? & ? & ?). split; [lia|done].
Qed.

(** ** Exit *)

(** The last part of [task_exit]: [t] is ZOMBIE or TERMINATED. *)
Lemma exit_close s l cur t :
  lock_free (task_lock s) -> cinv (core s) l -> cur <> 0%nat ->
  (forall i, st (core s) i = TASK_RUNNING -> i = 0%nat \/ i = cur) ->
  st (core s) cur <> TASK_READY -> st (core s) cur <> TASK_UNUSED ->
  pending_cleanup_task (core s) <> Some cur -> t = TASK_ZOMBIE \/ t = TASK_TERMINATED ->
  exists switch s' l' next,
    task_schedule (on_core (on_core s (fun c => tupd c cur (t_set_state t))) (fun c => set_current c None))
      = Some (switch, s') /\
    good s' l' /\ current_task (core s') = Some next /\ (l = next :: l' \/ l = [] /\ next = 0%nat /\ l' = []) /\
    st (core s') next = TASK_RUNNING /\ pending_cleanup_task (core s') = None /\ next <> cur /\
    body (tget (core s') cur) = body (t_set_state t (tget (core s) cur)) /\
    (forall j, j <> cur -> j <> next -> pending_cleanup_task (core s) <> Some j ->
      body (tget (core s') j) = body (tget (core s) j)).
Proof.
  intros Hlk Hc H0 Hrun Hr Hu Hp Ht. set (s1 := on_core _ _).
  assert (Hlt : (cur < length (task_pool (core s)))%nat).
  { rewrite (ci_len _ _ Hc). by apply (used_bound (core s)); [apply Hc|]. }
  assert (Hget : forall j, tget (core s1) j = if decide (cur = j) then t_set_state t (tget (core s) cur) else tget (core s) j).
  { intros j. change (tget (core s1) j) with (tget (tupd (core s) cur (t_set_state t)) j).
    rewrite tget_tupd. destruct (decide (cur = j)); destruct (decide _); tauto. }
  assert (Hinv : sinv s1 l).
  { split; [done|..].
    - eapply cinv_same; [..|apply (cinv_relabel (core s) l cur (t_set_state t)); try done; by destruct Ht as [-> | ->]];
        by try left.
    - split; [|done..]. intros i. rewrite Hget. destruct (decide (cur = i)) as [<-|Hci].
      + destruct Ht as [-> | ->]; done.
      + intros Hi. destruct (Hrun i Hi); [by left|congruence]. }
  destruct (task_schedule_spec s1 l Hinv) as (sw & s' & l' & next & E & Hsd).
  pose proof Hsd as [Hi' Hc' Hn Hr' _ _ _ Ho Hpe]. change (requeued (core s1)) with (@nil nat) in *.
  rewrite app_nil_r in Hn.
  assert (Hnc : next <> cur).
  { intros ->. destruct Hn as [-> | (_ & ? & _)]; [|done].
    apply Hr, (ready_iff _ _ _ Hc); [done|left]. }
  exists sw, s', l', next. split_and!; try done.
  - by eapply scheduled_good.
  - rewrite Ho; [|done|apply not_elem_of_nil|done]. rewrite Hget. by destruct (decide (cur = cur)).
  - intros j H1 H2 H3. rewrite Ho; [|done|apply not_elem_of_nil|done]. rewrite Hget.
    by destruct (decide (cur = j)).
Qed.

(** The task that runs next was queued, or is the idle task. *)
Lemma next_not_exited c l next l' :
  cinv c l -> l = next :: l' \/ l = [] /\ next = 0%nat /\ l' = [] -> st c next <> TASK_TERMINATED.
Proof.
  intros Hc Hn Ht. destruct (decide (next = 0%nat)) as [->|H0].
  - destruct (ci_idle_state _ _ Hc); congruence.
  - destruct Hn as [-> | (_ & ? & _)]; [|done].
    assert (st c next = TASK_READY) by (apply (ready_iff _ _ _ Hc); [done|left]). congruence.
Qed.

(** What is left of the exiting task. *)
Record exited s s' (cur : nat) (code : Z) : Prop := Exited {
  ex_state : st (core s') cur = TASK_ZOMBIE \/ st (core s') cur = TASK_TERMINATED;
  ex_zombie : forall p, t_parent (tget (core s) cur) = Some p -> st (core s) p <> TASK_UNUSED ->
    st (core s) p <> TASK_ZOMBIE -> st (core s') cur = TASK_ZOMBIE;
  ex_orphan : t_parent (tget (core s) cur) = None -> stranded s' cur;
  ex_code : t_exit_code (tget (core s') cur) = code;
  ex_signaled : t_exit_signaled (tget (core s') cur) = false;
  ex_pid : t_pid (tget (core s') cur) = t_pid (tget (core s) cur);
  ex_parent : t_parent (tget (core s') cur) = t_parent (tget (core s) cur)
}.

Lemma has_parent_false c i : t_parent (tget c i) = None -> has_parent c i = false.
Proof. unfold has_parent. by intros ->. Qed.

Lemma has_parent_true c i p :
  t_parent (tget c i) = Some p -> st c p <> TASK_UNUSED -> has_parent c i = true.
Proof. unfold has_parent, is_state. intros -> H. by rewrite bool_decide_false. Qed.

(** Up to the freeing of the zombie children. *)
Lemma exit_prepare n s l cur f :
  good s l -> current_task (core s) = Some cur ->
  (forall t, t_state (f t) = t_state t /\ t_parent (f t) = t_parent t /\
             t_next (f t) = t_next t /\ t_prev (f t) = t_prev t) ->
  let c1 := tupd (core s) cur f in
  exists s3, free_all (part_children cur n 0 c1).1 (Sched (part_children cur n 0 c1).2 (task_lock s)) = Some s3 /\
    task_lock s3 = task_lock s /\ cinv (core s3) l /\
    pending_cleanup_task (core s3) = pending_cleanup_task (core s) /\
    tget (core s3) cur = tget c1 cur /\
    (forall j, st (core s3) j = st (core s) j \/ st (core s) j = TASK_ZOMBIE /\ st (core s3) j = TASK_UNUSED).
Proof.
  intros [[Hlk Hc Hcur] Hb] Ec Hf c1.
  assert (Hst : forall j, st c1 j = st (core s) j) by (intros j; apply (tget_tupd_field t_state); apply Hf).
  assert (Hpar : t_parent (tget c1 cur) <> Some cur).
  { subst c1. rewrite (tget_tupd_field t_parent) by apply Hf. apply (ci_parent _ _ Hc). }
  assert (Hc1 : cinv c1 l).
  { apply cinv_touch; [|left; apply Hf|done]. intros t. destruct (Hf t) as (? & _ & ? & ?). done. }
  destruct (part_children_spec cur n 0 c1 l Hc1) as (P1 & P2 & P3 & P4 & P5 & P6).
  destruct (part_children cur n 0 c1) as [zs c2]. cbn [fst snd] in *.
  assert (Hst2 : forall j, st c2 j = st (core s) j).
  { intros j. rewrite <- Hst. by destruct (P6 j) as [-> | (_ & _ & ->)]. }
  destruct (free_all_spec zs (Sched c2 (task_lock s)) l) as (s3 & -> & [F1 F2 F3 F4 F5 F6]); try done.
  { intros z Hz. apply P5 in Hz as (_ & Hz & _). cbn. rewrite Hst2, <- Hst. split; [|done].
    intros ->. destruct (ci_idle_state _ _ Hc1); congruence. }
  exists s3. split_and!; try done; [by rewrite F4|..].
  - rewrite F5; [cbn; by destruct (P6 cur) as [-> | (? & _)]|]. intros Hz. by apply P5 in Hz as (_ & _ & ?).
  - intros j. destruct (decide (j ∈ zs)) as [Hz|Hz]; [right|left; rewrite F5; [apply Hst2|done]].
    rewrite F6 by done. apply P5 in Hz as (_ & Hz & _). by rewrite <- Hst.
Qed.

Lemma exit_spec code s l cur :
  good s l -> current_task (core s) = Some cur -> cur <> 0%nat ->
  exists switch s' l' next, task_exit code s = Some (switch, s') /\ blocked s l s' l' next /\
    exited s s' cur code.
Proof.
  intros Hg Ec H0. unfold task_exit. generalize (Z.to_nat MAX_TASKS). intros n.
  apply good_irq_off in Hg. cbn [irq_disable interrupts_disable snd] in Hg |- *.
  set (s0 := Sched (core s) _) in *. assert (Ec0 : current_task (core s0) = Some cur) by done.
  clear Ec. rename Ec0 into Ec. rewrite Ec.
  cbn [mbind option_bind]. destruct Hg as [[Hlk Hc Hcur] Hb].
  destruct (co_cur _ Hcur cur Ec) as [|[Hr Hu]]; [done|].
  set (f := fun t => t_set_exit code false (t_exit_signal t) t).
  rewrite with_lock_free by done. cbn [mbind option_bind fst snd on_core core task_lock].
  destruct (exit_prepare n s0 l cur f) as (s3 & -> & F1 & F2 & F3 & F4 & F5); [done..|].
  assert (Hlt : (cur < length (task_pool (core s0)))%nat).
  { rewrite (ci_len _ _ Hc). by apply (used_bound (core s0)); [apply Hc|]. }
  rewrite tget_tupd_same in F4 by done. cbn [mbind option_bind].
  assert (Hnp : pending_cleanup_task (core s0) <> Some cur) by (intros Hp; by apply (co_pending _ Hcur) in Hp).
  destruct (exit_close s3 l cur (if has_parent (core s3) cur then TASK_ZOMBIE else TASK_TERMINATED))
    as (sw & s' & l' & next & -> & G1 & G2 & G3 & G4 & G5 & G6 & G7 & G8); rewrite ?F4; try done.
  { by rewrite F1. }
  { intros i Hi. destruct (F5 i) as [E|[_ E]]; [|congruence]. rewrite E in Hi.
    destruct (co_run _ Hcur i Hi); [by left|right; congruence]. }
  { by rewrite F3. }
  { case_if; [by left|by right]. }
  rewrite F4 in G7.
  exists sw, s', l', next. split; [done|].
  split; [split; try done|split].
  - intros i (Hi1 & Hi2 & Hi3). change (core s) with (core s0) in Hi1, Hi2, Hi3.
    assert (Hs3 : st (core s3) i = TASK_TERMINATED) by (destruct (F5 i) as [|[]]; congruence).
    assert (i <> next) by (intros ->; by apply (next_not_exited _ _ _ _ F2 G3)).
    split_and!; [|congruence..]. rewrite <- Hs3. apply body_state, G8; [congruence|done|congruence].
  - apply body_state in G7. rewrite G7. cbn. case_if; [by left|by right].
  - change (core s) with (core s0). intros p Hp Hpu Hpz. apply body_state in G7. rewrite G7. cbn.
    rewrite (has_parent_true _ _ p); [done|by rewrite F4|]. destruct (F5 p) as [E|[]]; congruence.
  - change (core s) with (core s0). intros Hp. split_and!; [|congruence..]. apply body_state in G7. rewrite G7. cbn.
    by rewrite has_parent_false by (by rewrite F4).
  - by apply (f_equal t_exit_code) in G7.
  - by apply (f_equal t_exit_signaled) in G7.
  - by apply (f_equal t_pid) in G7.
  - by apply (f_equal t_parent) in G7.
Qed.

End exit.
