(* ===== verification/ProcessProps.v ===== *)
(** * Process system calls keep the pool consistent

    [wait_reaps] and [wait_keeps] for [sys_waitpid], [kill_keeps] for
    [sys_kill], [fork_keeps] for [sys_fork]: each keeps [good], and a
    stranded block stays stranded. *)

From S2P Require Import Prelude Spinlock Task TaskQueue Process TaskFacts TaskProps TaskSteps TaskExit.

Section process.
Context {W : Type} `{!TaskResources W}.
Implicit Types (c : tcore W) (s : sched W) (l : list nat) (i j : nat).

Abbreviation st c i := (t_state (tget c i)).

(** States may only go from ZOMBIE to UNUSED; the current and the pending
    task stay. *)
Record reaped s l s' : Prop := Reaped {
  rp_lock : task_lock s' = task_lock s;
  rp_inv : cinv (core s') l;
  rp_cur : current_task (core s') = current_task (core s);
  rp_pending : pending_cleanup_task (core s') = pending_cleanup_task (core s);
  rp_st : forall j, st (core s') j = st (core s) j \/
                    st (core s) j = TASK_ZOMBIE /\ st (core s') j = TASK_UNUSED
}.

Lemma reaped_stranded s l s' i : reaped s l s' -> stranded s i -> stranded s' i.
Proof.
  intros [_ _ Ec Ep Hst] (H1 & H2 & H3). split_and!; [|congruence..].
  destruct (Hst i) as [|[]]; congruence.
Qed.

Lemma reaped_good s l s' :
  good s l -> (forall i, current_task (core s) = Some i -> st (core s) i <> TASK_ZOMBIE) ->
  reaped s l s' -> good s' l.
Proof.
  intros [[Hlk Hc [H1 H2 H3]] Hb] Hz [El Hc' Ec Ep Hst].
  assert (Hcur : forall i, current_task (core s) = Some i -> st (core s') i = st (core s) i).
  { intros i Hi. destruct (Hst i) as [|[]]; [done|]. by destruct (Hz i Hi). }
  split; [split; [by rewrite El|done|split]|]; rewrite ?Ec, ?Ep.
  - intros i Hi. apply H1. destruct (Hst i) as [|[]]; congruence.
  - intros i Hi. rewrite Hcur by done. by apply H2.
  - done.
  - intros i Hi. rewrite Hcur by done. by apply Hb.
Qed.

(** ** [sys_waitpid] *)

(** A child that [sys_waitpid(pid)] can reap. *)
Definition reapable c (cur : nat) (pid : Z) j : Prop :=
  st c j = TASK_ZOMBIE /\ t_parent (tget c j) = Some cur /\ (0 < pid -> s32 (t_pid (tget c j)) = pid).

Lemma wait_scan_spec cur pid c n :
  forall i h, match wait_scan cur pid n i c h with
  | (Some k, _) => (i <= k < i + n)%nat /\ reapable c cur pid k
  | (None, _) => forall j, (i <= j < i + n)%nat -> ~ reapable c cur pid j
  end.
Proof.
  induction n as [|n IH]; intros i h; cbn [wait_scan]; [intros; lia|].
  assert (Hskip : forall h', ~ reapable c cur pid i ->
    match wait_scan cur pid n (S i) c h' with
    | (Some k, _) => (i <= k < i + S n)%nat /\ reapable c cur pid k
    | (None, _) => forall j, (i <= j < i + S n)%nat -> ~ reapable c cur pid j
    end).
  { intros h' Hn. specialize (IH (S i) h'). destruct (wait_scan cur pid n (S i) c h') as [[k|] b].
    - destruct IH. split; [lia|done].
    - intros j Hj. destruct (decide (j = i)) as [->|]; [done|apply IH; lia]. }
  unfold reapable in Hskip at 1. unfold is_state in *.
  destruct (bool_decide (st c i = TASK_UNUSED)) eqn:Eu; [apply Hskip|].
  { apply bool_decide_eq_true in Eu. intros (H & _). congruence. }
  destruct (decide (t_parent (tget c i) = Some cur)) as [Ep|Ep];
    [rewrite (bool_decide_true _ Ep)|rewrite (bool_decide_false _ Ep); apply Hskip; tauto].
  cbn [negb]. destruct ((0 <? pid) && negb (s32 (t_pid (tget c i)) =? pid)) eqn:Em.
  { apply Hskip. intros (_ & _ & H). apply andb_true_iff in Em as [E1 E2]. zify_bool. lia. }
  destruct (bool_decide (st c i = TASK_ZOMBIE)) eqn:Ez.
  - apply bool_decide_eq_true in Ez. split; [lia|]. split_and!; [done..|]. intros Hp.
    apply andb_false_iff in Em as [E|E]; zify_bool; lia.
  - apply bool_decide_eq_false in Ez. apply Hskip. tauto.
Qed.

Lemma reap_one s l k :
  good s l -> st (core s) k = TASK_ZOMBIE ->
  exists s', task_free (Some k) s = Some s' /\ reaped s l s' /\ tget (core s') k = null_task /\
    forall j, j <> k -> tget (core s') j = tget (core s) j.
Proof.
  intros [[Hlk Hc Hcur] Hb] Hk.
  destruct (task_free_spec s l k) as (s' & E & [F1 F2 F3 F4 F5 F6]); try done; try by rewrite Hk.
  { intros ->. destruct (ci_idle_state _ _ Hc); congruence. }
  { intros Hp. apply (ci_pending _ _ Hc) in Hp as [_ Hp]. congruence. }
  exists s'. split; [done|]. split_and!; [split; try done|by apply F6; left|].
  - intros j. destruct (decide (j = k)) as [->|]; [right; by rewrite F6 by left|left].
    rewrite F5; [done|set_solver].
  - intros j Hj. apply F5. set_solver.
Qed.

Lemma irq_round s : irq_restore (Sched (core s) (LockSt (lk_word (task_lock s)) false)) (lk_irq (task_lock s)) = s.
Proof. by destruct s as [c [w []]]. Qed.

Lemma reaped_irq s l s' :
  reaped (Sched (core s) (LockSt (lk_word (task_lock s)) false)) l s' ->
  reaped s l (irq_restore s' (lk_irq (task_lock s))).
Proof.
  intros [E H1 H2 H3 H4]. split; try done. unfold irq_restore. cbn. rewrite E. cbn.
  by destruct (task_lock s) as [w []].
Qed.

(** One turn of [sys_waitpid]: the first reapable child is reaped and its
    status returned; without one nothing changes, or the task yields. *)
Lemma wait_spec pid options s l cur :
  good s l -> current_task (core s) = Some cur -> st (core s) cur = TASK_RUNNING ->
  (exists k s', reapable (core s) cur pid k /\
     sys_waitpid pid options s =
       Some (Returns (t_pid (tget (core s) k)) (Some (wait_status (tget (core s) k))), s') /\
     reaped s l s' /\ good s' l /\ tget (core s') k = null_task /\
     forall j, j <> k -> tget (core s') j = tget (core s) j) \/
  (forall j, ~ reapable (core s) cur pid j) /\
  ((exists r, (r = 0 \/ r = u32 (-1)) /\ sys_waitpid pid options s = Some (Returns r None, s)) \/
   sys_waitpid pid options s = '(sw, s') ← task_schedule s; Some (Retries sw, s')).
Proof.
  intros Hg Ec Hrun. unfold sys_waitpid. rewrite Ec. cbn [irq_disable interrupts_disable].
  set (s0 := Sched (core s) _). assert (Hg0 : good s0 l) by by apply (good_irq_off s).
  pose proof (wait_scan_spec cur pid (core s) (Z.to_nat MAX_TASKS) 0 false) as Hscan.
  change (core s0) with (core s). destruct (wait_scan _ _ _ _ _ _) as [[k|] has].
  - left. destruct Hscan as [_ Hk]. pose proof Hk as (Hz & _).
    destruct (reap_one s0 l k Hg0 Hz) as (s1 & -> & Hr & Hnull & Hsame). cbn [mbind option_bind].
    apply reaped_irq in Hr. do 2 eexists. split_and!; try done.
    eapply (reaped_good s); [done| |done]. intros i. rewrite Ec. intros [= <-]. by rewrite Hrun.
  - right. split.
    { intros j Hj. destruct (decide (j < 256)%nat).
      - apply (Hscan j); [|done]. change (Z.to_nat MAX_TASKS) with 256%nat. lia.
      - destruct Hj as (Hj & _). assert (j < 256)%nat; [|done].
        apply (used_bound (core s)); [apply Hg|by rewrite Hj]. }
    subst s0. rewrite irq_round. destruct has; cbn [negb]; [|left; eexists; split; [by right|done]].
    destruct (negb _); [left; eexists; split; [by left|done]|right; done].
Qed.

(** ** [sys_kill] *)

Lemma by_pid pid s :
  lock_free (task_lock s) ->
  task_get_by_pid pid s =
    Some (find_task (fun t => negb (is_state TASK_UNUSED t) && (t_pid t =? pid)) (Z.to_nat MAX_TASKS) (core s) 0, s).
Proof. intros H. unfold task_get_by_pid. rewrite with_lock_free by done. by destruct s. Qed.

Lemma reaped_refl s l : cinv (core s) l -> reaped s l s.
Proof. split; try done. by left. Qed.

Lemma reaped_trans s1 l s2 s3 : reaped s1 l s2 -> reaped s2 l s3 -> reaped s1 l s3.
Proof.
  intros [A1 A2 A3 A4 A5] [B1 B2 B3 B4 B5]. split; try congruence.
  intros j. destruct (A5 j) as [E|[E1 E2]], (B5 j) as [F|[F1 F2]]; [left|right|right|right]; try split; congruence.
Qed.

(** One child is freed or orphaned. *)
Lemma kill_child_spec s l target found :
  lock_free (task_lock s) -> cinv (core s) l ->
  exists s', kill_child target found s = Some s' /\ reaped s l s' /\
    tget (core s') target = tget (core s) target.
Proof.
  intros Hlk Hc. assert (Hid : exists s', Some s = Some s' /\ reaped s l s' /\ tget (core s') target = tget (core s) target).
  { exists s. split_and!; try done. by apply reaped_refl. }
  destruct found as [t|]; [|done]. cbn [kill_child].
  destruct (is_state TASK_UNUSED (tget (core s) t)) eqn:Eu; [done|].
  destruct (bool_decide (t_parent (tget (core s) t) = Some target)) eqn:Ep; [|done].
  apply bool_decide_eq_true in Ep. assert (Htt : t <> target).
  { intros ->. by apply (ci_parent _ _ Hc) in Ep. }
  destruct (is_state TASK_ZOMBIE (tget (core s) t)) eqn:Ez.
  - apply bool_decide_eq_true in Ez.
    destruct (task_free_spec s l t) as (s' & -> & [F1 F2 F3 F4 F5 F6]); try done; try by rewrite Ez.
    { intros ->. destruct (ci_idle_state _ _ Hc); congruence. }
    { intros Hp. apply (ci_pending _ _ Hc) in Hp as [_ Hp]. congruence. }
    exists s'. split; [done|]. split; [split; try done|apply F5; set_solver].
    intros j. destruct (decide (j = t)) as [->|]; [right; by rewrite F6 by left|left].
    rewrite F5; [done|set_solver].
  - eexists. split; [done|]. split; [split; try done|by apply tget_tupd_ne].
    + apply cinv_touch; [done|by right|done].
    + intros j. left. by apply (tget_tupd_field t_state).
Qed.

Lemma kill_children_spec target n :
  forall (i : Z) s l, lock_free (task_lock s) -> cinv (core s) l ->
  exists s', kill_children target n i s = Some s' /\ reaped s l s' /\
    tget (core s') target = tget (core s) target.
Proof.
  induction n as [|n IH]; intros i s l Hlk Hc; cbn [kill_children].
  { exists s. split_and!; try done. by apply reaped_refl. }
  rewrite by_pid by done. cbn [mbind option_bind].
  destruct (kill_child_spec s l target (find_task (fun t => negb (is_state TASK_UNUSED t) && (t_pid t =? i))
    (Z.to_nat MAX_TASKS) (core s) 0)) as (s1 & -> & Hr & Et); [done..|].
  cbn [mbind option_bind]. destruct (IH (i + 1) s1 l) as (s' & -> & Hr' & Et').
  { by rewrite (rp_lock _ _ _ Hr). }
  { apply Hr. }
  exists s'. split_and!; [done|by eapply reaped_trans|congruence].
Qed.

(** The effect of [sys_kill] on the queue: at most the target leaves it. *)
Record killed s l s' l' (target : nat) : Prop := Killed {
  kl_good : good s' l';
  kl_cur : current_task (core s') = current_task (core s);
  kl_queue : l' = l \/ exists l1 l2, l = l1 ++ target :: l2 /\ l' = l1 ++ l2 /\
             (st (core s') target = TASK_ZOMBIE \/ st (core s') target = TASK_UNUSED);
  kl_stranded : forall i, stranded s i -> stranded s' i
}.

(** After unlinking a ready target, or when it was not queued. *)
Lemma kill_unlink s l target :
  good s l -> target <> 0%nat ->
  exists s1 l1, (if is_state TASK_READY (tget (core s) target)
                 then ready_queue_remove (Some target) s else Some s) = Some s1 /\
    task_lock s1 = task_lock s /\ queue (core s1) l1 /\ relinked (core s) (core s1) /\
    target ∉ l1 /\ (forall j, j <> target -> j ∈ l1 <-> j ∈ l) /\
    (l1 = l \/ exists la lb, l = la ++ target :: lb /\ l1 = la ++ lb).
Proof.
  intros [[Hlk Hc Hcur] Hb] H0. unfold is_state. destruct (bool_decide _) eqn:Er.
  - apply bool_decide_eq_true in Er. apply (ready_iff _ _ _ Hc) in Er as (la & lb & ->)%list_elem_of_split; [|done].
    destruct (queue_unlink_spec _ _ _ _ (ci_queue _ _ Hc)) as [Hq Hrl].
    unfold ready_queue_remove. rewrite with_lock_free by done. cbn [mbind option_bind fst snd].
    pose proof (q_nodup _ _ (ci_queue _ _ Hc)) as Hnd. rewrite <- Permutation_middle in Hnd.
    apply list.NoDup_cons in Hnd as [Hn _].
    exists (Sched (queue_unlink target (core s)) (task_lock s)), (la ++ lb). split_and!; try done.
    + intros j Hj. set_solver.
    + right. by exists la, lb.
  - apply bool_decide_eq_false in Er. exists s, l. split_and!; try done; [apply Hc| |by left].
    by rewrite (ready_iff _ _ _ Hc).
Qed.

Lemma killed_close s l s' l' target :
  good s l -> target <> 0%nat -> st (core s) target <> TASK_TERMINATED ->
  lock_free (task_lock s') -> cinv (core s') l' ->
  current_task (core s') = current_task (core s) ->
  pending_cleanup_task (core s') = pending_cleanup_task (core s) ->
  (l' = l \/ exists l1 l2, l = l1 ++ target :: l2 /\ l' = l1 ++ l2) ->
  (forall j, j <> target -> st (core s') j = st (core s) j) ->
  (st (core s') target = TASK_ZOMBIE \/
   st (core s') target = TASK_TERMINATED /\ current_task (core s) = Some target \/
   st (core s') target = TASK_UNUSED /\ current_task (core s) <> Some target) ->
  killed s l s' l' target.
Proof.
  intros [[_ Hc [H1 H2 H3]] Hb] H0 Htt Hlk' Hc' Ec Ep Hl Hst Ht. split; try done.
  - split; [split; [done|done|split]|]; rewrite ?Ec, ?Ep.
    + intros i Hi. apply H1. rewrite <- Hst; [done|]. intros ->. destruct Ht as [?|[[? _]|[? _]]]; congruence.
    + intros i Hi. destruct (decide (i = target)) as [->|].
      * right. destruct Ht as [Ht|[[Ht _]|[_ ?]]]; [by rewrite Ht..|done].
      * rewrite Hst by done. by apply H2.
    + exact H3.
    + intros i Hi. destruct (decide (i = target)) as [->|]; [|rewrite Hst by done; by apply Hb].
      destruct Ht as [Ht|[[Ht _]|[Ht _]]]; by rewrite Ht.
  - destruct Hl as [|(l1 & l2 & -> & ->)]; [by left|right]. exists l1, l2. split_and!; [done..|].
    destruct Ht as [Ht|[[_ Hcur]|[Ht _]]]; [by left| |by right]. exfalso.
    destruct (H2 target Hcur) as [|[Hr _]]; [done|]. apply Hr, (ready_iff _ _ _ Hc); [done|].
    apply elem_of_app. right. left.
  - intros i (I1 & I2 & I3). split_and!; [|congruence..]. rewrite Hst; [done|]. congruence.
Qed.

(** The unlinked target takes a final state. *)
Lemma kill_relabel c l c1 l1 target t :
  cinv c l -> target <> 0%nat -> st c target <> TASK_UNUSED ->
  pending_cleanup_task c <> Some target -> queue c1 l1 -> relinked c c1 ->
  target ∉ l1 -> (forall j, j <> target -> j ∈ l1 <-> j ∈ l) ->
  t <> TASK_READY -> t <> TASK_UNUSED ->
  cinv (tupd c1 target (t_set_state t)) l1 /\
  (forall j, st (tupd c1 target (t_set_state t)) j = if decide (target = j) then t else st c j).
Proof.
  intros Hc H0 Hu Hnp Hq Hrl Hni Hne Ht1 Ht2.
  assert (Hlt : (target < length (task_pool c1))%nat).
  { rewrite (rl_len _ _ Hrl), (ci_len _ _ Hc). by apply (used_bound c); [apply Hc|]. }
  assert (Hst : forall j, st (tupd c1 target (t_set_state t)) j = if decide (target = j) then t else st c j).
  { intros j. rewrite tupd_st by done. by rewrite (relinked_state _ _ _ Hrl). }
  split; [|done]. eapply (cinv_move c l _ l1 target t); try done; try apply Hrl.
  - by apply (used_bound c); [apply Hc|].
  - rewrite tupd_length. apply Hrl.
  - by apply queue_tupd_out.
  - intros j. left. rewrite (tget_tupd_field t_parent) by done. apply (relinked_field t_parent); done.
  - change (active_task_count (tupd c1 target (t_set_state t))) with (active_task_count c1).
    rewrite (rl_active _ _ Hrl), !weight_used by done. lia.
Qed.

Lemma kill_finish_spec s l cur target b :
  good s l -> current_task (core s) = Some cur -> target <> 0%nat ->
  (st (core s) target = TASK_READY \/ st (core s) target = TASK_RUNNING \/ st (core s) target = TASK_BLOCKED) ->
  exists s' l', kill_finish cur target b s = Some (0, s') /\ killed s l s' l' target.
Proof.
  intros Hg Ec H0 Ht. unfold kill_finish.
  destruct (kill_unlink s l target Hg H0) as (s1 & l1 & -> & El & Hq & Hrl & Hni & Hne & Hl).
  cbn [mbind option_bind]. pose proof Hg as [[Hlk Hc Hcur] Hb].
  assert (Hu : st (core s) target <> TASK_UNUSED) by (destruct Ht as [E|[E|E]]; by rewrite E).
  assert (Htt : st (core s) target <> TASK_TERMINATED) by (destruct Ht as [E|[E|E]]; by rewrite E).
  assert (Hnp : pending_cleanup_task (core s) <> Some target).
  { intros Hp. apply (ci_pending _ _ Hc) in Hp as [_ Hp]. congruence. }
  assert (Hlab : forall t s', t = TASK_ZOMBIE \/ t = TASK_TERMINATED /\ target = cur ->
    s' = irq_restore (on_core s1 (fun c => tupd c target (t_set_state t))) b -> killed s l s' l1 target).
  { intros t s' Hz ->. destruct (kill_relabel (core s) l (core s1) l1 target t) as [Hc1 Hst]; try done;
      try by destruct Hz as [E|[E _]]; rewrite E.
    apply killed_close; try done; try apply Hrl.
    - unfold lock_free in *. cbn. by rewrite El.
    - intros j Hj. etrans; [apply Hst|]. by destruct (decide (target = j)).
    - pose proof (Hst target) as E. destruct (decide (target = target)); [|done].
      destruct Hz as [-> | [-> ->]]; [by left|by right; left]. }
  destruct (has_parent (core s1) target); [do 2 eexists; split; [done|]; apply (Hlab TASK_ZOMBIE); [by left|done]|].
  destruct (decide (target = cur)) as [Etc|Etc]; [rewrite bool_decide_true by done|rewrite bool_decide_false by done].
  { do 2 eexists; split; [done|]; apply (Hlab TASK_TERMINATED); [by right|done]. } unfold task_free.
  rewrite with_lock_free by (unfold lock_free in *; cbn; by rewrite El).
  cbn [mbind option_bind fst snd]. do 2 eexists. split; [done|].
  assert (Hlt : (target < length (task_pool (core s1)))%nat).
  { rewrite (rl_len _ _ Hrl), (ci_len _ _ Hc). by apply (used_bound (core s)); [apply Hc|]. }
  apply (killed_close s l _ l1); try done; try apply Hrl.
  - unfold lock_free in *. cbn. by rewrite El.
  - eapply cinv_same; [..|exact (cinv_clear _ _ _ _ _ Hc Hrl Hq H0 Hu Hnp Hni Hne)]; by try left.
  - intros j Hj. etrans; [apply (f_equal t_state), (tget_clear (core s1)); done|].
    destruct (decide (target = j)); [done|]. by apply relinked_state.
  - right; right. split; [|congruence]. etrans; [apply (f_equal t_state), (tget_clear (core s1)); done|].
    by destruct (decide (target = target)).
Qed.

Lemma killed_id s l t : good s l -> killed s l s l t.
Proof. intros Hg. split; try done. by left. Qed.

Lemma killed_trans s l s1 s' l' target :
  killed s1 l s' l' target -> reaped s l s1 -> killed s l s' l' target.
Proof.
  intros [K1 K2 K3 K4] Hr. split; try done.
  - by rewrite K2, (rp_cur _ _ _ Hr).
  - intros i Hi. apply K4. by eapply reaped_stranded.
Qed.

(** PID 0 belongs to the idle task. *)
Lemma kill_spec pid signal s l cur :
  good s l -> current_task (core s) = Some cur -> st (core s) cur = TASK_RUNNING ->
  t_pid (tget (core s) 0) = 0 ->
  exists r s' l' target, sys_kill pid signal s = Some (r, s') /\ killed s l s' l' target.
Proof.
  intros Hg Ec Hrun Hpid0. unfold sys_kill. rewrite Ec.
  assert (Hid : forall r : Z, exists r' s' l' target, Some (r, s) = Some (r', s') /\ killed s l s' l' target).
  { intros r. exists r, s, l, 0%nat. split; [done|by apply killed_id]. }
  destruct (pid =? 0) eqn:Ep0; [done|]. pose proof Hg as [[Hlk Hc Hcur] Hb].
  rewrite by_pid by done. cbn [mbind option_bind].
  destruct (find_task _ _ _ _) as [target|] eqn:Ef; [|done].
  apply find_task_some in Ef as (_ & Ef & _). apply andb_true_iff in Ef as [_ Ef].
  assert (H0 : target <> 0%nat) by (intros ->; zify_bool; lia).
  cbn [irq_disable interrupts_disable].
  set (s0 := Sched (core s) (LockSt (lk_word (task_lock s)) false)).
  set (f := t_set_exit (u32 (128 + signal)) true signal).
  set (s1 := on_core s0 (fun c => tupd c target f)).
  assert (Hr1 : reaped s0 l s1).
  { split; try done; [apply cinv_touch; [done|by left|done]|]. intros j. left. by apply (tget_tupd_field t_state). }
  destruct (kill_children_spec target (Z.to_nat MAX_TASKS) 0 s1 l) as (s2 & E2 & Hr2 & Et); [done|apply Hr1|].
  assert (Hr : reaped s0 l s2) by by eapply reaped_trans.
  assert (Hg2 : good s2 l).
  { apply (reaped_good s0); [by apply (good_irq_off s)| |done]. intros i. cbn. rewrite Ec. intros [= <-]. by rewrite Hrun. }
  assert (Hst2 : st (core s2) target = st (core s) target).
  { rewrite Et. by apply (tget_tupd_field t_state). }
  destruct (t_state (tget (core s) target)) eqn:Est; try done;
    cbv zeta; fold s1; rewrite E2; cbn [mbind option_bind].
  all: destruct (kill_finish_spec s2 l cur target (lk_irq (task_lock s))) as (s' & l' & -> & Hk);
    [done|by rewrite (rp_cur _ _ _ Hr)|done|rewrite Hst2; tauto|].
  all: apply (killed_trans s0) in Hk as [K1 K2 K3 K4]; [|done].
  all: do 4 eexists; split; [done|]; split; [exact K1|exact K2|exact K3|exact K4].
Qed.

(** ** [sys_fork] *)

(** The child's block is being filled in; nothing else has changed. *)
Record forking s0 l (child : nat) s : Prop := Forking {
  fk_lock : lock_free (task_lock s);
  fk_inv : linv (core s) l [child];
  fk_cur : current_task (core s) = current_task (core s0);
  fk_pending : pending_cleanup_task (core s) = pending_cleanup_task (core s0);
  fk_new : st (core s0) child = TASK_UNUSED;
  fk_other : forall j, j <> child -> st (core s) j = st (core s0) j
}.

Lemma forking_world s0 l child s w :
  forking s0 l child s -> forking s0 l child (on_core s (fun c => set_world c (w c))).
Proof. intros [F1 F2 F3 F4 F5 F6]. split; try done. by eapply linv_same; [..|exact F2]. Qed.

Lemma forking_on_world {A} s0 l child s (f : W -> A * W) :
  forking s0 l child s -> forking s0 l child (on_world s f).2.
Proof.
  intros H. unfold on_world. destruct (f _) as [r w]. cbn [snd]. by apply (forking_world _ _ _ _ (fun _ => w)).
Qed.

Lemma forking_touch s0 l child s f :
  forking s0 l child s -> t_state (f (tget (core s) child)) = TASK_READY ->
  t_parent (f (tget (core s) child)) <> Some child ->
  forking s0 l child (on_core s (fun c => tupd c child f)).
Proof.
  intros [F1 F2 F3 F4 F5 F6] Hf Hp. split; try done.
  - apply linv_touch; try done. left.
  - intros j Hj. cbn. rewrite tget_tupd_ne by done. by apply F6.
Qed.

Lemma forking_give s0 l child s prio dir stack top fds par :
  forking s0 l child s -> par <> Some child ->
  forking s0 l child (on_core s (fun c => tupd c child (t_set_child true prio dir stack top fds par))).
Proof.
  intros H Hp. apply forking_touch; [done| |done]. cbn.
  by destruct (linv_in _ _ _ child (fk_inv _ _ _ _ H)) as (_ & Hr & _); [left|].
Qed.

(** The end of the call: the child is queued, or its block is free again. *)
Record forked s l s' (new : list nat) : Prop := Forked {
  fd_good : good s' (l ++ new);
  fd_cur : current_task (core s') = current_task (core s);
  fd_stranded : forall i, stranded s i -> stranded s' i
}.

Lemma forked_close s l s' new child :
  good s l -> lock_free (task_lock s') -> cinv (core s') (l ++ new) ->
  st (core s) child = TASK_UNUSED ->
  current_task (core s') = current_task (core s) ->
  pending_cleanup_task (core s') = pending_cleanup_task (core s) ->
  (st (core s') child = TASK_UNUSED \/ st (core s') child = TASK_READY) ->
  (forall j, j <> child -> st (core s') j = st (core s) j) -> forked s l s' new.
Proof.
  intros [[_ Hc [H1 H2 H3]] Hb] Hlk Hc' Hu Ec Ep Hch Hst.
  assert (Hcc : forall i, current_task (core s) = Some i -> i <> child).
  { intros i Hi ->. destruct (H2 child Hi) as [->|[_ ?]]; [|done]. destruct (ci_idle_state _ _ Hc); congruence. }
  split; try done.
  - split; [split; [done|done|split]|]; rewrite ?Ec, ?Ep.
    + intros i Hi. apply H1. rewrite <- Hst; [done|]. intros ->. destruct Hch; congruence.
    + intros i Hi. rewrite Hst by auto. by apply H2.
    + exact H3.
    + intros i Hi. rewrite Hst by auto. by apply Hb.
  - intros i (I1 & I2 & I3). split_and!; [|congruence..]. rewrite Hst; [done|]. congruence.
Qed.

Lemma fork_free_spec s0 l child s :
  good s0 l -> forking s0 l child s ->
  exists s', task_free (Some child) s = Some s' /\ forall b, forked s0 l (irq_restore s' b) [].
Proof.
  intros Hg [Hlk F2 F3 F4 F5 F6].
  destruct (linv_in _ _ _ child F2) as (H0 & Hr & Hl & Hb & Hp); [left|].
  assert (Hlt : (child < length (task_pool (core s)))%nat) by (by rewrite (li_len _ _ _ F2)).
  unfold task_free. rewrite with_lock_free by done. cbn [mbind option_bind fst snd].
  eexists. split; [done|]. intros b. apply (forked_close s0 l _ _ child); try done.
  - rewrite app_nil_r. eapply cinv_same; [..|exact (linv_clear _ _ _ F2)]; by try left.
  - left. etrans; [apply (f_equal t_state), (tget_clear (core s)); done|].
    by destruct (decide (child = child)).
  - intros j Hj. etrans; [apply (f_equal t_state), (tget_clear (core s)); done|].
    destruct (decide (child = j)); [done|]. by apply F6.
Qed.

Lemma fork_fail_spec s0 l child s err b :
  good s0 l -> forking s0 l child s ->
  exists s', fork_fail child b err s = Some (u32 err, s') /\ forked s0 l s' [].
Proof.
  intros Hg Hf. destruct (fork_free_spec s0 l child s Hg Hf) as (s' & E & H). unfold fork_fail. rewrite E.
  eexists. split; [done|apply H].
Qed.

Lemma fork_add_spec s0 l child s :
  good s0 l -> forking s0 l child s ->
  exists s', ready_queue_add (Some child) s = Some s' /\ forall b, forked s0 l (irq_restore s' b) [child].
Proof.
  intros Hg [Hlk F2 F3 F4 F5 F6].
  destruct (linv_in _ _ _ child F2) as (H0 & Hr & Hl & Hb & Hp); [left|].
  rewrite add_ready by done. eexists. split; [done|]. intros b.
  pose proof (queue_append_relinked (core s) child) as Hrl.
  apply (forked_close s0 l _ _ child); try done.
  - by apply linv_nil, linv_add.
  - etrans; [apply Hrl|done].
  - etrans; [apply Hrl|done].
  - right. etrans; [by apply relinked_state|done].
  - intros j Hj. etrans; [by apply relinked_state|by apply F6].
Qed.

Lemma forked_id s l : good s l -> forked s l s [].
Proof. intros Hg. split; [by rewrite app_nil_r|done..]. Qed.

Lemma alloc_spec s0 l s :
  good s0 l -> core s = core s0 -> lock_free (task_lock s) ->
  task_alloc s = Some (None, s) \/
  exists child s1, task_alloc s = Some (Some child, s1) /\ forking s0 l child s1.
Proof.
  intros [[_ Hc Hcur] Hb] Ecs Hlk. destruct s as [c lk]. cbn in Ecs, Hlk. subst c.
  unfold task_alloc. rewrite with_lock_free by done. cbn [core task_lock].
  destruct (find_task _ _ _ _) as [i|] eqn:Ef; [right|by left].
  apply find_task_some in Ef as (Hi & Ef & _). apply bool_decide_eq_true in Ef.
  change (Z.to_nat MAX_TASKS) with 256%nat in Hi.
  exists i. eexists. split; [done|]. split; try done.
  - exact (linv_alloc (core s0) l i (next_pid (core s0)) Hc ltac:(lia) Ef).
  - intros j Hj. cbn. change (st (tupd (core s0) i (fun _ => fresh_task (next_pid (core s0)))) j = st (core s0) j).
    by rewrite tget_tupd_ne.
Qed.

(** Runs a world operation of [sys_fork], keeping [forking]. *)
Ltac fork_world Hfk r s1 :=
  match goal with
  | |- context [on_world ?s ?f] =>
      apply (forking_on_world _ _ _ _ f) in Hfk;
      destruct (on_world s f) as [r s1]; cbn [snd] in Hfk
  end.

(** ** Creation *)

Lemma forking_resources s0 l child s user dir stack top fds :
  forking s0 l child s -> forking s0 l child (on_core s (fun c => tupd c child (t_set_resources user dir stack top fds))).
Proof.
  intros H. apply forking_touch; [done| |apply (li_parent _ _ _ (fk_inv _ _ _ _ H))]. cbn.
  by destruct (linv_in _ _ _ child (fk_inv _ _ _ _ H)) as (_ & Hr & _); [left|].
Qed.

Lemma irq_restore_same s : irq_restore s (lk_irq (task_lock s)) = s.
Proof. by destruct s as [c [w []]]. Qed.

Lemma create_fail_spec s0 l child s :
  good s0 l -> forking s0 l child s -> exists s', create_fail child s = Some (0, s') /\ forked s0 l s' [].
Proof.
  intros Hg Hf. destruct (fork_free_spec s0 l child s Hg Hf) as (s' & E & H). unfold create_fail. rewrite E.
  exists s'. split; [done|]. by rewrite <- (irq_restore_same s').
Qed.

Lemma create_done_spec s0 l child s :
  good s0 l -> forking s0 l child s -> exists r s', create_done child s = Some (r, s') /\ forked s0 l s' [child].
Proof.
  intros Hg Hf. apply (forking_touch _ _ _ _ (t_set_state TASK_READY)) in Hf; [|done|apply (li_parent _ _ _ (fk_inv _ _ _ _ Hf))].
  destruct (fork_add_spec s0 l child _ Hg Hf) as (s' & E & H). unfold create_done. rewrite E.
  eexists _, s'. split; [done|]. by rewrite <- (irq_restore_same s').
Qed.

(** The ways out of a creation: nothing was allocated, the block was given
    back, the task is queued. *)
Lemma create_none s l (r : Z) : good s l -> exists r' s' new, Some (r, s) = Some (r', s') /\ forked s l s' new.
Proof. intros Hg. exists r, s, []. split; [done|by apply forked_id]. Qed.

Lemma create_failed s0 l child s :
  good s0 l -> forking s0 l child s -> exists r s' new, create_fail child s = Some (r, s') /\ forked s0 l s' new.
Proof. intros Hg Hf. destruct (create_fail_spec s0 l child s Hg Hf) as (s' & E & H). by exists 0, s', []. Qed.

Lemma created s0 l child s :
  good s0 l -> forking s0 l child s -> exists r s' new, create_done child s = Some (r, s') /\ forked s0 l s' new.
Proof. intros Hg Hf. destruct (create_done_spec s0 l child s Hg Hf) as (r & s' & E & H). by exists r, s', [child]. Qed.

Lemma thread_spec entry s l :
  good s l -> exists r s' new, task_create_kernel_thread entry s = Some (r, s') /\ forked s l s' new.
Proof.
  intros Hg. unfold task_create_kernel_thread. destruct (entry =? 0); [by apply create_none|].
  destruct (alloc_spec s l s Hg eq_refl (si_lock _ _ (gd_inv _ _ Hg))) as [-> | (task & s1 & -> & Hf)];
    cbn [mbind option_bind]; [by apply create_none|].
  fork_world Hf stack s2. destruct (stack =? 0); [by apply create_failed; [|apply forking_resources]|].
  by apply created; [|do 2 apply forking_resources].
Qed.

Lemma process_spec a name_null entry dir s l :
  good s l -> exists r s' new, task_create_user_process a name_null entry dir s = Some (r, s') /\ forked s l s' new.
Proof.
  intros Hg. unfold task_create_user_process. destruct (_ || _); [by apply create_none|].
  destruct (alloc_spec s l s Hg eq_refl (si_lock _ _ (gd_inv _ _ Hg))) as [-> | (task & s1 & -> & Hf)];
    cbn [mbind option_bind]; [by apply create_none|].
  fork_world Hf stack s2. apply (forking_resources _ _ _ _ true 0 stack 0 0) in Hf.
  destruct (stack =? 0); [by apply create_failed|]. set (d := match a with ARM64 => dir | _ => _ end).
  apply (forking_resources _ _ _ _ true d stack (stack + KERNEL_STACK_SIZE) 0) in Hf. fork_world Hf ok s3.
  destruct ok; cbn [negb]; [|by apply create_failed; [|apply forking_world]]. fork_world Hf fds s4.
  apply (forking_resources _ _ _ _ true d stack (stack + KERNEL_STACK_SIZE) fds) in Hf.
  destruct (fds =? 0); [by apply create_failed; [|apply forking_world]|].
  by apply created; [|do 2 apply forking_world].
Qed.

Lemma fork_spec a free_frames dir_corrupt s l :
  good s l -> exists r s' new, sys_fork a free_frames dir_corrupt s = Some (r, s') /\ forked s l s' new.
Proof.
  intros Hg. unfold sys_fork. cbn [irq_disable interrupts_disable].
  set (s0 := Sched (core s) (LockSt (lk_word (task_lock s)) false)).
  assert (Hid : forall r : Z, exists r' s' new, Some (r, irq_restore s0 (lk_irq (task_lock s))) = Some (r', s') /\ forked s l s' new).
  { intros r. exists r, s, []. unfold s0. rewrite irq_round. split; [done|by apply forked_id]. }
  change (core s0) with (core s). destruct (current_task (core s)) as [parent|] eqn:Ec; [|done].
  destruct (negb _); [done|]. destruct (free_frames <? 64); [done|]. destruct dir_corrupt; [done|].
  destruct (alloc_spec s l s0 Hg eq_refl (si_lock _ _ (gd_inv _ _ Hg))) as [-> | (child & s1 & -> & Hfk)]; cbn [mbind option_bind]; [done|].
  assert (Hpc : Some parent <> Some child).
  { intros [= ->]. destruct Hg as [[_ Hc Hcur] _]. pose proof (fk_new _ _ _ _ Hfk) as Hu.
    destruct (co_cur _ Hcur child Ec) as [->|[_ ?]]; [|done]. destruct (ci_idle_state _ _ Hc); congruence. }
  assert (Hfail : forall e s2, forking s l child s2 ->
    exists r s' new, fork_fail child (lk_irq (task_lock s)) e s2 = Some (r, s') /\ forked s l s' new).
  { intros e s2 H. destruct (fork_fail_spec s l child s2 e (lk_irq (task_lock s)) Hg H) as (s' & E & H'). by exists (u32 e), s', []. }
  set (prio := t_priority _). apply (forking_give _ _ _ _ prio 0 0 0 0 None) in Hfk; [|done].
  fork_world Hfk dir s2. apply (forking_give _ _ _ _ prio dir 0 0 0 None) in Hfk; [|done].
  destruct (dir =? 0); [by apply Hfail|]. fork_world Hfk stack s3.
  apply (forking_give _ _ _ _ prio dir stack 0 0 None) in Hfk; [|done].
  destruct (stack =? 0); [by apply Hfail, forking_world|].
  apply (forking_give _ _ _ _ prio dir stack (stack + KERNEL_STACK_SIZE) 0 None) in Hfk; [|done].
  set (s4 := on_core _ _) in *. clearbody s4.
  assert (Hok : forall fds s5, forking s l child s5 -> exists r s' new,
    (s6 ← ready_queue_add (Some child)
       (on_core (on_core s5 (fun c => tupd c child (t_set_child true prio dir stack (stack + KERNEL_STACK_SIZE) fds (Some parent))))
          (fun c => tupd c child (t_set_state TASK_READY)));
     Some (t_pid (tget (core s6) child), irq_restore s6 (lk_irq (task_lock s)))) = Some (r, s') /\ forked s l s' new).
  { intros fds s5 H. apply (forking_give _ _ _ _ prio dir stack (stack + KERNEL_STACK_SIZE) fds (Some parent)) in H; [|done].
    apply (forking_touch _ _ _ _ (t_set_state TASK_READY)) in H; [|done|].
    - destruct (fork_add_spec s l child _ Hg H) as (s' & -> & Hd). do 3 eexists. split; [done|apply Hd].
    - cbn. apply (li_parent _ _ _ (fk_inv _ _ _ _ H)). }
  destruct (_ =? 0); [by apply Hok|]. fork_world Hfk fds s5.
  apply (forking_give _ _ _ _ prio dir stack (stack + KERNEL_STACK_SIZE) fds None) in Hfk; [|done].
  destruct (fds =? 0) eqn:Efds; [by apply Hfail; do 2 apply forking_world|].
  apply (forking_world _ _ _ _ (fun c => tr_fd_table_init fds (world c))) in Hfk.
  set (s6 := on_core (on_core s5 _) _) in Hfk. fold s6 in Hfk.
  match goal with |- context [on_world ?x _] => change x with s6 end. clearbody s6.
  fork_world Hfk r s7. rewrite Efds. destruct (r =? 0) eqn:Er; cbn [Z.eqb negb].
  - by apply Hok.
  - by apply Hfail; do 3 apply forking_world.
Qed.

End process.
