(* ===== verification/SyncProps.v ===== *)
(** * What mutexes and semaphores guarantee

    Any number of tasks use any number of mutexes and semaphores, interleaved
    with the scheduler's own steps.  The history of a run is the list of its
    events; a mutex is compared with the recursive lock the history describes
    ([holds]), a semaphore with the balance of signals and waits. *)

From S2P Require Import Prelude Spinlock Task TaskQueue Process Sync TaskFacts TaskProps TaskSteps TaskExit ProcessProps SchedulerProps.

Section sync.
Context {W : Type} `{!TaskResources W}.
Implicit Types (s : sched W) (l : list nat) (m : mutex) (x : semaphore).

Abbreviation st c i := (t_state (tget c i)).

(** ** Single calls *)

Lemma grab_free : grab 0 = Some SPINLOCK_LOCKED.
Proof. done. Qed.

Lemma drop_grabbed : drop_lock SPINLOCK_LOCKED = 0.
Proof. done. Qed.

Lemma irq_roundtrip s : irq_restore (irq_disable s).2 (irq_disable s).1 = s.
Proof. by destruct s as [c [w []]]. Qed.

Lemma current_pid_core s s' : core s = core s' -> current_pid s = current_pid s'.
Proof. unfold current_pid, task_get_current. by intros ->. Qed.

Lemma current_fd_table_core s s' : core s = core s' -> current_fd_table s = current_fd_table s'.
Proof. unfold current_fd_table, task_get_current. by intros ->. Qed.

(** Waking up changes no PID and no descriptor table. *)
Lemma wakeup_field {A} (f : task -> A) s s' i :
  (forall t v, f (t_set_state v t) = f t) -> (forall t, f (body t) = f t) ->
  lock_free (task_lock s) -> task_wakeup s = Some s' -> f (tget (core s') i) = f (tget (core s) i).
Proof.
  intros Hf1 Hf2 Hl. unfold task_wakeup. rewrite with_lock_free by done.
  destruct (find_task _ _ _ _) as [k|]; cbn [fst snd mbind option_bind]; [|by intros [= <-]].
  unfold ready_queue_add. cbn [core].
  assert (Hp : f (tget (tupd (core s) k (t_set_state TASK_READY)) i) = f (tget (core s) i))
    by (apply (tget_tupd_field f); intros; apply Hf1).
  destruct (t_state _); try (intros [= <-]; exact Hp).
  rewrite with_lock_free by done. cbn [fst snd mbind option_bind core]. intros [= <-]. cbn [core].
  rewrite <- Hp. by rewrite (relinked_field f _ _ _ Hf2 (queue_append_relinked _ k)).
Qed.

Lemma wakeup_current_pid s s' :
  lock_free (task_lock s) -> task_wakeup s = Some s' -> current_task (core s') = current_task (core s) ->
  current_pid s' = current_pid s /\ current_fd_table s' = current_fd_table s.
Proof.
  intros Hl E Ec. unfold current_pid, current_fd_table, task_get_current. rewrite Ec.
  destruct (current_task (core s)); [|done]. split; [by apply (wakeup_field t_pid)|by apply (wakeup_field t_fd_table)].
Qed.

(** The turn that blocks leaves a good scheduler, the caller blocked. *)
Lemma block_turn_spec s l cur b :
  good s l -> current_task (core s) = Some cur -> cur <> 0%nat ->
  exists sw s' l', block_turn cur b s = Some (Blocks sw, s') /\ good s' l' /\ st (core s') cur = TASK_BLOCKED.
Proof.
  intros Hg Ec H0. unfold block_turn.
  destruct (block_close s l cur (t_set_state TASK_BLOCKED)) as (sw & s' & l' & next & -> & Hb & Hbody); try done.
  assert (Hst : st (core s') cur = TASK_BLOCKED) by (change TASK_BLOCKED with (t_state (body (t_set_state TASK_BLOCKED (tget (core s) cur)))); by rewrite <- Hbody).
  exists sw. destruct sw as [p|]; cbn [mbind option_bind].
  - exists s', l'. split_and!; [done|apply Hb|done].
  - exists (irq_restore s' b), l'. split_and!; [done|apply good_irq, Hb|done].
Qed.

(** What one turn of [mutex_lock] does: it takes a free mutex, counts a
    recursive acquisition, or blocks and leaves the mutex alone. *)
Inductive lock_turn m (pid : Z) : turn -> mutex -> Prop :=
| lt_free : mx_locked m = false -> lock_turn m pid Done (Mutex 0 true pid 1)
| lt_again : mx_locked m = true -> mx_owner_pid m = pid ->
    lock_turn m pid Done (Mutex 0 true pid (u32 (mx_recursion m + 1)))
| lt_blocks sw : mx_locked m = true -> mx_owner_pid m <> pid -> lock_turn m pid (Blocks sw) m.

Lemma mutex_lock_spec m s l cur :
  good s l -> current_task (core s) = Some cur -> cur <> 0%nat -> mx_lock m = 0 ->
  exists t m' s' l', mutex_lock (Some m) s = Some (t, Some m', s') /\ good s' l' /\
    lock_turn m (current_pid s) t m' /\
    match t with Done => s' = s | Blocks _ => st (core s') cur = TASK_BLOCKED end.
Proof.
  intros Hg Ec H0 Hm. destruct m as [w lk ow re]. cbn in Hm. subst w. unfold mutex_lock.
  pose proof (irq_roundtrip s) as Hrt. pose proof (good_irq_off s l Hg) as Hg0.
  change (task_get_current s) with (current_task (core s)). rewrite Ec.
  destruct (irq_disable s) as [b s0] eqn:Es. cbn [fst snd] in Hrt, Hg0.
  assert (E0 : core s0 = core s) by (by injection Es as _ <-).
  cbn [mx_lock sem_lock]. rewrite grab_free. cbn [mbind option_bind mx_locked mx_owner_pid mx_recursion mx_lock].
  rewrite drop_grabbed, (current_pid_core s0 s) by done. rewrite Hrt.
  destruct lk; cbn [negb].
  - destruct (ow =? current_pid s) eqn:Eo; zify_bool.
    + subst ow. eexists _, _, s, l. split_and!; [done|done|by apply lt_again|done].
    + destruct (block_turn_spec s0 l cur b) as (sw & s' & l' & -> & Hg' & Hb); [done|congruence|done|].
      eexists _, _, s', l'. split_and!; [done|done|by apply lt_blocks|done].
  - eexists _, _, s, l. split_and!; [done|done|by apply lt_free|done].
Qed.

Lemma mutex_try_lock_spec m s cur :
  current_task (core s) = Some cur -> mx_lock m = 0 ->
  exists (b : bool) m', mutex_try_lock (Some m) s = Some (b, Some m', s) /\
    if b then lock_turn m (current_pid s) Done m' else m' = m.
Proof.
  intros Ec Hm. destruct m as [w lk ow re]. cbn in Hm. subst w. unfold mutex_try_lock.
  pose proof (irq_roundtrip s) as Hrt.
  destruct (irq_disable s) as [b s0] eqn:Es. cbn [fst snd] in Hrt.
  assert (E0 : core s0 = core s) by (by injection Es as _ <-).
  change (task_get_current s0) with (current_task (core s0)). rewrite E0, Ec.
  cbn [mx_lock sem_lock]. rewrite grab_free. cbn [mbind option_bind mx_locked mx_owner_pid mx_recursion mx_lock].
  rewrite drop_grabbed, (current_pid_core s0 s), Hrt by done. rewrite bool_decide_true by done.
  destruct lk; cbn [negb andb].
  - destruct (ow =? current_pid s) eqn:Eo; zify_bool.
    + subst ow. eexists true, _. split; [done|by apply lt_again].
    + by eexists false, _.
  - eexists true, _. split; [done|by apply lt_free].
Qed.

(** [mutex_unlock]: only the owner's call counts; the last one opens the
    mutex and wakes a task. *)
Inductive unlocked m (pid : Z) : mutex -> Prop :=
| ul_ignored : mx_locked m = false \/ mx_owner_pid m <> pid -> unlocked m pid m
| ul_nested : mx_locked m = true -> mx_owner_pid m = pid -> u32 (mx_recursion m - 1) <> 0 ->
    unlocked m pid (Mutex 0 true pid (u32 (mx_recursion m - 1)))
| ul_open : mx_locked m = true -> mx_owner_pid m = pid -> u32 (mx_recursion m - 1) = 0 ->
    unlocked m pid (Mutex 0 false 0 0).

Lemma mutex_unlock_spec m s l cur :
  good s l -> current_task (core s) = Some cur -> mx_lock m = 0 ->
  exists m' s' l', mutex_unlock (Some m) s = Some (Some m', s') /\ good s' l' /\
    unlocked m (current_pid s) m' /\ current_task (core s') = current_task (core s) /\
    current_pid s' = current_pid s /\ current_fd_table s' = current_fd_table s.
Proof.
  intros Hg Ec Hm. destruct m as [w lk ow re]. cbn in Hm. subst w. unfold mutex_unlock.
  pose proof (irq_roundtrip s) as Hrt. pose proof (good_irq_off s l Hg) as Hg0.
  change (task_get_current s) with (current_task (core s)). rewrite Ec.
  destruct (irq_disable s) as [b s0] eqn:Es. cbn [fst snd] in Hrt, Hg0.
  assert (E0 : core s0 = core s) by (by injection Es as _ <-).
  cbn [mx_lock sem_lock]. rewrite grab_free. cbn [mbind option_bind mx_locked mx_owner_pid mx_recursion mx_lock].
  rewrite (current_pid_core s0 s) by done.
  destruct lk; cbn [negb].
  2: { rewrite drop_grabbed. cbn [mbind option_bind]. rewrite Hrt. eexists _, s, l.
       split_and!; [done|done|apply ul_ignored; by left|done..]. }
  destruct (ow =? current_pid s) eqn:Eo; cbn [negb]; zify_bool.
  2: { rewrite drop_grabbed. cbn [mbind option_bind]. rewrite Hrt. eexists _, s, l.
       split_and!; [done|done|apply ul_ignored; by right|done..]. }
  subst ow. destruct (u32 (re - 1) =? 0) eqn:Er; zify_bool; rewrite drop_grabbed; cbn [mbind option_bind].
  - destruct (wakeup_spec s0 l Hg0) as (s' & ws & Ew & Hw & _). rewrite Ew. cbn [mbind option_bind].
    eexists _, (irq_restore s' b), (l ++ ws). split_and!; [done|apply good_irq, Hw| | | |].
    + rewrite Er. by apply ul_open.
    + change (current_task (core s') = Some cur). rewrite (wk_cur _ _ _ _ Hw). congruence.
    + rewrite <- (current_pid_core s0 s) by done. apply (wakeup_current_pid s0 s'); [apply Hg0|done|apply Hw].
    + rewrite <- (current_fd_table_core s0 s) by done. apply (wakeup_current_pid s0 s'); [apply Hg0|done|apply Hw].
  - rewrite Hrt. eexists _, s, l. split_and!; [done|done|by apply ul_nested|done..].
Qed.

(** A semaphore call: the count after it. *)
Lemma semaphore_wait_spec x s l cur :
  good s l -> current_task (core s) = Some cur -> cur <> 0%nat -> sem_lock x = 0 ->
  exists t x' s' l', semaphore_wait (Some x) s = Some (t, Some x', s') /\ good s' l' /\ sem_lock x' = 0 /\
    match t with
    | Done => 0 < sem_count x /\ sem_count x' = sem_count x - 1 /\ s' = s
    | Blocks _ => sem_count x <= 0 /\ x' = x /\ st (core s') cur = TASK_BLOCKED
    end.
Proof.
  intros Hg Ec H0 Hm. destruct x as [w n]. cbn in Hm. subst w. unfold semaphore_wait, semaphore_try_consume.
  pose proof (irq_roundtrip s) as Hrt. pose proof (good_irq_off s l Hg) as Hg0.
  change (task_get_current s) with (current_task (core s)). rewrite Ec.
  destruct (irq_disable s) as [b s0] eqn:Es. cbn [fst snd] in Hrt, Hg0.
  assert (E0 : core s0 = core s) by (by injection Es as _ <-).
  cbn [mx_lock sem_lock]. rewrite grab_free. cbn [mbind option_bind sem_lock sem_count]. rewrite drop_grabbed.
  destruct (0 <? n) eqn:En; zify_bool.
  - rewrite Hrt. eexists _, _, s, l. by split_and!.
  - destruct (block_turn_spec s0 l cur b) as (sw & s' & l' & -> & Hg' & Hb); [done|congruence|done|].
    eexists _, _, s', l'. by split_and!.
Qed.

Lemma semaphore_try_wait_spec x s :
  sem_lock x = 0 ->
  exists (b : bool) x', semaphore_try_wait (Some x) s = Some (b, Some x', s) /\ sem_lock x' = 0 /\
    if b then 0 < sem_count x /\ sem_count x' = sem_count x - 1 else sem_count x <= 0 /\ x' = x.
Proof.
  intros Hm. destruct x as [w n]. cbn in Hm. subst w. unfold semaphore_try_wait, semaphore_try_consume.
  pose proof (irq_roundtrip s) as Hrt. destruct (irq_disable s) as [b s0]. cbn [fst snd] in Hrt.
  cbn [mx_lock sem_lock]. rewrite grab_free. cbn [mbind option_bind sem_lock sem_count]. rewrite drop_grabbed.
  destruct (0 <? n) eqn:En; zify_bool; rewrite Hrt; eexists _, _; by split_and!.
Qed.

Lemma semaphore_signal_spec x s l :
  good s l -> sem_lock x = 0 ->
  exists s' l', semaphore_signal (Some x) s =
      Some (Some (Semaphore 0 (Z.min INT32_MAX (sem_count x + 1) `max` sem_count x)), s') /\ good s' l' /\
    current_task (core s') = current_task (core s) /\ current_pid s' = current_pid s /\
    current_fd_table s' = current_fd_table s.
Proof.
  intros Hg Hm. destruct x as [w n]. cbn in Hm. subst w. unfold semaphore_signal.
  pose proof (good_irq_off s l Hg) as Hg0. destruct (irq_disable s) as [b s0] eqn:Es. cbn [fst snd] in Hg0.
  assert (E0 : core s0 = core s) by (by injection Es as _ <-).
  cbn [mx_lock sem_lock]. rewrite grab_free. cbn [mbind option_bind sem_lock sem_count]. rewrite drop_grabbed.
  destruct (wakeup_spec s0 l Hg0) as (s' & ws & Ew & Hw & _). rewrite Ew. cbn [mbind option_bind].
  exists (irq_restore s' b), (l ++ ws). split_and!; [|apply good_irq, Hw| | |].
  - do 4 f_equal. destruct (n <? INT32_MAX) eqn:E; zify_bool; lia.
  - change (current_task (core s') = current_task (core s)). rewrite (wk_cur _ _ _ _ Hw). congruence.
  - rewrite <- (current_pid_core s0 s) by done. apply (wakeup_current_pid s0 s'); [apply Hg0|done|apply Hw].
  - rewrite <- (current_fd_table_core s0 s) by done. apply (wakeup_current_pid s0 s'); [apply Hg0|done|apply Hw].
Qed.

(** ** Interleavings *)

Record sys := Sys { mxs : list mutex; sems : list semaphore; sc : sched W }.

Inductive sync_event :=
| ELock (pid : Z) (k : nat) | EUnlock (pid : Z) (k : nat)
| EWait (k : nat) | ESignal (k : nat) | ETau.

(** A call that has not returned is not an event of the history.  Calls are
    made by a running task other than idle. *)
Inductive sync_step : sync_event -> sys -> sys -> Prop :=
| sy_lock ms xs s k m cur t m' s' :
    ms !! k = Some m -> current_task (core s) = Some cur -> cur <> 0%nat ->
    mutex_lock (Some m) s = Some (t, Some m', s') ->
    sync_step (match t with Done => ELock (current_pid s) k | Blocks _ => ETau end)
      (Sys ms xs s) (Sys (<[k := m']> ms) xs s')
| sy_try_lock ms xs s k m cur (b : bool) m' s' :
    ms !! k = Some m -> current_task (core s) = Some cur -> cur <> 0%nat ->
    mutex_try_lock (Some m) s = Some (b, Some m', s') ->
    sync_step (if b then ELock (current_pid s) k else ETau) (Sys ms xs s) (Sys (<[k := m']> ms) xs s')
| sy_unlock ms xs s k m cur m' s' :
    ms !! k = Some m -> current_task (core s) = Some cur -> cur <> 0%nat ->
    mutex_unlock (Some m) s = Some (Some m', s') ->
    sync_step (EUnlock (current_pid s) k) (Sys ms xs s) (Sys (<[k := m']> ms) xs s')
| sy_wait ms xs s k x cur t x' s' :
    xs !! k = Some x -> current_task (core s) = Some cur -> cur <> 0%nat ->
    semaphore_wait (Some x) s = Some (t, Some x', s') ->
    sync_step (match t with Done => EWait k | Blocks _ => ETau end) (Sys ms xs s) (Sys ms (<[k := x']> xs) s')
| sy_try_wait ms xs s k x (b : bool) x' s' :
    xs !! k = Some x -> semaphore_try_wait (Some x) s = Some (b, Some x', s') ->
    sync_step (if b then EWait k else ETau) (Sys ms xs s) (Sys ms (<[k := x']> xs) s')
| sy_signal ms xs s k x x' s' :
    xs !! k = Some x -> semaphore_signal (Some x) s = Some (Some x', s') ->
    sync_step (ESignal k) (Sys ms xs s) (Sys ms (<[k := x']> xs) s')
| sy_sched ms xs s (b : bool) s' :
    step b s s' -> sync_step ETau (Sys ms xs s) (Sys ms xs s').

(** Runs, with the history of returned calls, latest first. *)
Inductive sync_run (y0 : sys) : list sync_event -> sys -> Prop :=
| sr_nil : sync_run y0 [] y0
| sr_step e h y y' : sync_run y0 h y -> sync_step e y y' -> sync_run y0 (e :: h) y'.

(** How often [pid] holds mutex [k] after the history: the abstract
    recursive lock. *)
Fixpoint holds (k : nat) (pid : Z) (h : list sync_event) : Z :=
  match h with
  | [] => 0
  | ELock q j :: h => holds k pid h + (if bool_decide (j = k) && (q =? pid) then 1 else 0)
  | EUnlock q j :: h =>
      let n := holds k pid h in if bool_decide (j = k) && (q =? pid) && (0 <? n) then n - 1 else n
  | _ :: h => holds k pid h
  end.

Definition count_ev (p : sync_event -> bool) (h : list sync_event) : Z := Z.of_nat (length (filter p h)).
Definition is_lock (k : nat) (e : sync_event) : bool :=
  match e with ELock _ j => bool_decide (j = k) | _ => false end.
Definition is_wait (k : nat) (e : sync_event) : bool :=
  match e with EWait j => bool_decide (j = k) | _ => false end.
Definition is_signal (k : nat) (e : sync_event) : bool :=
  match e with ESignal j => bool_decide (j = k) | _ => false end.

Lemma count_ev_cons p e h : count_ev p (e :: h) = count_ev p h + (if p e then 1 else 0).
Proof.
  unfold count_ev. rewrite filter_cons. destruct (decide (p e)) as [H|H]; destruct (p e); cbn [length]; try done; try lia.
Qed.

(** The mutex agrees with the history. *)
Record mutex_agrees m (k : nat) (h : list sync_event) : Prop := MutexAgrees {
  ma_word : mx_lock m = 0;
  ma_held : forall pid, holds k pid h = if mx_locked m && (mx_owner_pid m =? pid) then mx_recursion m else 0;
  ma_pos : mx_locked m = true -> 1 <= mx_recursion m <= count_ev (is_lock k) h
}.

Definition sem_agrees x (init : Z) (k : nat) (h : list sync_event) : Prop :=
  sem_lock x = 0 /\ 0 <= sem_count x <= INT32_MAX /\
  sem_count x <= init + count_ev (is_signal k) h - count_ev (is_wait k) h /\
  (init + count_ev (is_signal k) h <= INT32_MAX ->
   sem_count x = init + count_ev (is_signal k) h - count_ev (is_wait k) h).

Lemma mutex_agrees_lock m k h pid m' :
  mutex_agrees m k h -> count_ev (is_lock k) h < 2 ^ 32 - 1 -> lock_turn m pid Done m' ->
  mutex_agrees m' k (ELock pid k :: h).
Proof.
  intros [H1 H2 H3] Hb Ht. inversion Ht as [Hl|Hl Ho|]; subst; split; cbn [mx_lock mx_locked mx_owner_pid mx_recursion holds];
    try done; rewrite ?count_ev_cons; cbn [is_lock]; rewrite ?bool_decide_true by done; cbn [andb].
  - intros q. rewrite H2, Hl. cbn [andb]. case_if; lia.
  - intros _. unfold count_ev. lia.
  - specialize (H3 Hl). rewrite u32_small by lia. intros q. rewrite H2, Hl. cbn [andb]. case_if; lia.
  - specialize (H3 Hl). intros _. rewrite u32_small by lia. lia.
Qed.

Lemma mutex_agrees_unlock m k h pid m' :
  mutex_agrees m k h -> count_ev (is_lock k) h < 2 ^ 32 -> unlocked m pid m' ->
  mutex_agrees m' k (EUnlock pid k :: h).
Proof.
  intros [H1 H2 H3] Hb Ht.
  assert (Hu : mx_locked m = true -> u32 (mx_recursion m - 1) = mx_recursion m - 1) by (intros Hl; apply u32_small; specialize (H3 Hl); lia).
  inversion Ht as [Hi|Hl Ho Hr|Hl Ho Hr]; subst; split; cbn [mx_lock mx_locked mx_owner_pid mx_recursion holds];
    try done; rewrite ?count_ev_cons; cbn [is_lock]; rewrite ?bool_decide_true by done; cbn [andb].
  - intros q. rewrite H2. destruct (mx_locked m'); cbn [andb].
    + destruct Hi as [|Hi]; [done|]. destruct (pid =? q) eqn:E; cbn [andb]; [|done]. zify_bool. subst q.
      by rewrite (proj2 (Z.eqb_neq _ _) Hi).
    + by rewrite andb_false_r.
  - rewrite Hu in * by done. specialize (H3 Hl). intros q. rewrite H2, Hl. cbn [andb].
    destruct (mx_owner_pid m =? q) eqn:E; cbn [andb]; [|done]. case_if; lia.
  - rewrite Hu in * by done. specialize (H3 Hl). intros _. lia.
  - rewrite Hu in * by done. specialize (H3 Hl). intros q. rewrite H2, Hl. cbn [andb].
    destruct (mx_owner_pid m =? q) eqn:E; cbn [andb]; [|done]. case_if; lia.
Qed.

(** An event that is about something else changes nothing. *)
Lemma mutex_agrees_other m k h e :
  mutex_agrees m k h -> (forall q, e <> ELock q k) -> (forall q, e <> EUnlock q k) ->
  mutex_agrees m k (e :: h).
Proof.
  intros [H1 H2 H3] Hn1 Hn2.
  assert (Hh : forall pid, holds k pid (e :: h) = holds k pid h).
  { intros pid. destruct e as [q j|q j| | |]; cbn [holds]; try done.
    - rewrite bool_decide_false by (intros ->; by apply (Hn1 q)). cbn. lia.
    - by rewrite bool_decide_false by (intros ->; by apply (Hn2 q)). }
  split; [done|intros; by rewrite Hh|]. intros Hl. specialize (H3 Hl). rewrite count_ev_cons. case_if; lia.
Qed.

Lemma sem_agrees_other x init k h e :
  sem_agrees x init k h -> e <> EWait k -> e <> ESignal k -> sem_agrees x init k (e :: h).
Proof.
  intros H Hn1 Hn2. unfold sem_agrees. rewrite !count_ev_cons.
  assert (E1 : is_wait k e = false) by (destruct e; try done; apply bool_decide_false; congruence).
  assert (E2 : is_signal k e = false) by (destruct e; try done; apply bool_decide_false; congruence).
  rewrite E1, E2, !Z.add_0_r. done.
Qed.

Lemma sem_agrees_wait x x' init k h :
  sem_agrees x init k h -> 0 < sem_count x -> sem_count x' = sem_count x - 1 -> sem_lock x' = 0 ->
  sem_agrees x' init k (EWait k :: h).
Proof.
  intros (H1 & H2 & H3 & H4) Hp E E0. unfold sem_agrees. rewrite !count_ev_cons. cbn [is_wait is_signal].
  rewrite bool_decide_true by done. rewrite E. split_and!; try done; lia.
Qed.

Lemma sem_agrees_signal x init k h :
  sem_agrees x init k h ->
  sem_agrees (Semaphore 0 (Z.min INT32_MAX (sem_count x + 1) `max` sem_count x)) init k (ESignal k :: h).
Proof.
  intros (H1 & H2 & H3 & H4). unfold sem_agrees. rewrite !count_ev_cons. cbn [is_wait is_signal sem_count sem_lock].
  rewrite bool_decide_true by done. unfold count_ev in *. split_and!; try done; lia.
Qed.

(** ** The invariant of a run *)

Record sys_agrees (inits : list Z) (h : list sync_event) (y : sys) : Prop := SysAgrees {
  sa_sched : exists l, good (sc y) l;
  sa_mutex : forall k m, mxs y !! k = Some m -> mutex_agrees m k h;
  sa_sem : forall k x, sems y !! k = Some x -> exists init, inits !! k = Some init /\ sem_agrees x init k h
}.

Lemma agrees_mutex_step inits h ms xs s s' l' k m m' e :
  sys_agrees inits h (Sys ms xs s) -> ms !! k = Some m -> good s' l' ->
  mutex_agrees m' k (e :: h) -> (forall q j, j <> k -> e <> ELock q j /\ e <> EUnlock q j) ->
  (forall j, e <> EWait j /\ e <> ESignal j) ->
  sys_agrees inits (e :: h) (Sys (<[k := m']> ms) xs s').
Proof.
  intros [_ Hm Hx] Hk Hg Hm' Hne Hns. split; cbn [sc mxs sems] in *; [by exists l'| |].
  - intros j mj Hj. apply list_lookup_insert_Some in Hj as [(<- & <- & _)|[Hjk Hj]]; [done|].
    apply mutex_agrees_other; [by apply Hm|..]; intros q; by apply Hne.
  - intros j xj Hj. destruct (Hx j xj Hj) as (init & Hi & Ha). exists init.
    split; [done|]. apply sem_agrees_other; [done|apply Hns..].
Qed.

Lemma agrees_sem_step inits h ms xs s s' l' k x x' e :
  sys_agrees inits h (Sys ms xs s) -> xs !! k = Some x -> good s' l' ->
  (forall init, inits !! k = Some init -> sem_agrees x init k h -> sem_agrees x' init k (e :: h)) ->
  (forall j, j <> k -> e <> EWait j /\ e <> ESignal j) ->
  (forall q j, e <> ELock q j /\ e <> EUnlock q j) ->
  sys_agrees inits (e :: h) (Sys ms (<[k := x']> xs) s').
Proof.
  intros [_ Hm Hx] Hk Hg Hx' Hne Hns. split; cbn [sc mxs sems] in *; [by exists l'| |].
  - intros j mj Hj. apply mutex_agrees_other; [by apply Hm|..]; intros q; apply Hns.
  - intros j xj Hj. apply list_lookup_insert_Some in Hj as [(<- & <- & _)|[Hjk Hj]].
    { destruct (Hx k x Hk) as (init & Hi & Ha). exists init. auto. }
    destruct (Hx j xj Hj) as (init & Hi & Ha). exists init. split; [done|].
    apply sem_agrees_other; [done|..]; by apply Hne.
Qed.

Lemma mutex_agrees_tau m k h : mutex_agrees m k h -> mutex_agrees m k (ETau :: h).
Proof. intros H. by apply mutex_agrees_other. Qed.

Lemma lock_room pid k h :
  (forall j, count_ev (is_lock j) (ELock pid k :: h) < 2 ^ 32) -> count_ev (is_lock k) h < 2 ^ 32 - 1.
Proof. intros H. specialize (H k). rewrite count_ev_cons in H. cbn [is_lock] in H. rewrite bool_decide_true in H by done. lia. Qed.

Lemma sync_step_agrees inits h y e y' :
  sys_agrees inits h y -> (forall k, count_ev (is_lock k) (e :: h) < 2 ^ 32) -> sync_step e y y' ->
  sys_agrees inits (e :: h) y'.
Proof.
  intros Ha Hb Hst. pose proof Ha as [[l Hg] Hm Hx].
  destruct Hst as [ms xs s k m cur t m' s' Hk Ec H0 E|ms xs s k m cur b m' s' Hk Ec H0 E
    |ms xs s k m cur m' s' Hk Ec H0 E|ms xs s k x cur t x' s' Hk Ec H0 E|ms xs s k x b x' s' Hk E
    |ms xs s k x x' s' Hk E|ms xs s b s' E]; cbn [sc mxs sems] in *.
  - pose proof (Hm k m Hk) as Hmk.
    destruct (mutex_lock_spec m s l cur Hg Ec H0 (ma_word _ _ _ Hmk)) as (t1 & m1 & s1 & l1 & E1 & Hg1 & Ht & _).
    rewrite E in E1. injection E1 as <- <- <-. eapply agrees_mutex_step; [done..| | |].
    + destruct t; [eapply (mutex_agrees_lock m); [done|by apply (lock_room (current_pid s))|done]|].
      inversion Ht; subst. by apply mutex_agrees_tau.
    + by destruct t; intros q j Hj; split; congruence.
    + by destruct t.
  - pose proof (Hm k m Hk) as Hmk.
    destruct (mutex_try_lock_spec m s cur Ec (ma_word _ _ _ Hmk)) as (b1 & m1 & E1 & Ht).
    rewrite E in E1. injection E1 as <- <- ->. eapply agrees_mutex_step; [done..| | |].
    + destruct b; [eapply (mutex_agrees_lock m); [done|by apply (lock_room (current_pid s))|done]|].
      subst. by apply mutex_agrees_tau.
    + by destruct b; intros q j Hj; split; congruence.
    + by destruct b.
  - pose proof (Hm k m Hk) as Hmk. specialize (Hb k).
    destruct (mutex_unlock_spec m s l cur Hg Ec (ma_word _ _ _ Hmk)) as (m1 & s1 & l1 & E1 & Hg1 & Ht & _).
    rewrite E in E1. injection E1 as <- <-. eapply agrees_mutex_step; [done..| | |done].
    + apply (mutex_agrees_unlock m); [done|rewrite count_ev_cons in Hb; cbn [is_lock] in Hb; lia|done].
    + intros q j Hj; split; congruence.
  - destruct (Hx k x Hk) as (init & Hi & (Hw & Hr)).
    destruct (semaphore_wait_spec x s l cur Hg Ec H0 Hw) as (t1 & x1 & s1 & l1 & E1 & Hg1 & Hw1 & Ht).
    rewrite E in E1. injection E1 as <- <- <-. eapply agrees_sem_step; [done..| | |].
    + intros i0 _ Ha0. destruct t; [apply (sem_agrees_wait x); tauto|]. destruct Ht as (_ & -> & _).
      by apply sem_agrees_other.
    + by destruct t; intros j Hj; split; congruence.
    + by destruct t.
  - destruct (Hx k x Hk) as (init & Hi & (Hw & Hr)).
    destruct (semaphore_try_wait_spec x s Hw) as (b1 & x1 & E1 & Hw1 & Ht).
    rewrite E in E1. injection E1 as <- <- <-. eapply agrees_sem_step; [done..| | |].
    + intros i0 _ Ha0. destruct b; [apply (sem_agrees_wait x); tauto|]. destruct Ht as (_ & ->).
      by apply sem_agrees_other.
    + by destruct b; intros j Hj; split; congruence.
    + by destruct b.
  - destruct (Hx k x Hk) as (init & Hi & (Hw & Hr)).
    destruct (semaphore_signal_spec x s l Hg Hw) as (s1 & l1 & E1 & Hg1 & _).
    rewrite E in E1. injection E1 as -> <-. eapply agrees_sem_step; [done..| | |done].
    + intros i0 _ Ha0. by apply sem_agrees_signal.
    + intros j Hj; split; congruence.
  - destruct (step_moved b s l s' Hg E) as (l1 & Hg1 & _). split; cbn [sc mxs sems]; [by exists l1| |].
    + intros j m Hj. by apply mutex_agrees_tau, Hm.
    + intros j x Hj. destruct (Hx j x Hj) as (init & Hi & Ha0). exists init. split; [done|]. by apply sem_agrees_other.
Qed.

Lemma sync_run_agrees inits y0 h y :
  sys_agrees inits [] y0 -> sync_run y0 h y -> (forall k, count_ev (is_lock k) h < 2 ^ 32) ->
  sys_agrees inits h y.
Proof.
  intros H0 Hr. induction Hr as [|e h y y' Hr IH Hst]; intros Hb; [done|].
  eapply sync_step_agrees; [|done|done]. apply IH. intros k. specialize (Hb k).
  rewrite count_ev_cons in Hb. case_if_in Hb; lia.
Qed.

(** The start: every object initialised, the scheduler in a good state. *)
Record sync_start (inits : list Z) (y : sys) : Prop := SyncStart {
  ss_sched : exists l, good (sc y) l;
  ss_mutex : Forall (fun m => exists m0, mutex_init (Some m0) = Some m) (mxs y);
  ss_sem : Forall2 (fun x init => 0 <= init <= INT32_MAX /\ exists x0, semaphore_init (Some x0) init = Some x)
             (sems y) inits
}.

Lemma sync_start_agrees inits y : sync_start inits y -> sys_agrees inits [] y.
Proof.
  intros [Hg Hm Hx]. split; [done|..].
  - intros k m Hk. eapply Forall_lookup_1 in Hm as [m0 E]; [|done]. injection E as <-. split; [done|done|done].
  - intros k x Hk. destruct (Forall2_lookup_l _ _ _ _ _ Hx Hk) as (init & Hi & Hr & x0 & E).
    exists init. split; [done|]. injection E as <-. unfold sem_agrees, count_ev. cbn [filter list_filter length sem_lock sem_count]. split_and!; [done|lia..].
Qed.

(** ** Theorems *)

(** C32: Mutual exclusion, for any number of tasks, mutexes and semaphores and any
    interleaving with the scheduler: at most one PID holds a mutex, counting
    recursive acquisitions; the mutex knows whether it is held, by whom and
    how often; an unlock by another task changes nothing; and a call of
    [mutex_lock] returns in its first turn exactly when no other task holds
    the mutex. *)
Theorem mutex_mutual_exclusion inits y0 h y k m :
  sync_start inits y0 -> sync_run y0 h y -> (forall j, count_ev (is_lock j) h < 2 ^ 32) ->
  mxs y !! k = Some m ->
  (forall p q, 0 < holds k p h -> 0 < holds k q h -> p = q) /\
  (mutex_is_locked (Some m) = true <-> exists p, 0 < holds k p h) /\
  (forall p, 0 < holds k p h -> mx_owner_pid m = p /\ mx_recursion m = holds k p h) /\
  (forall cur, current_task (core (sc y)) = Some cur -> cur <> 0%nat ->
     exists t m' s', mutex_lock (Some m) (sc y) = Some (t, Some m', s') /\
       (t = Done <-> forall q, q <> current_pid (sc y) -> holds k q h = 0)).
Proof.
  intros Hs Hr Hb Hk. destruct (sync_run_agrees inits y0 h y) as [[l Hg] Hm _]; [by apply sync_start_agrees|done..|].
  pose proof (Hm k m Hk) as [Hw Hh Hp]. cbn [mutex_is_locked].
  assert (Hown : forall p, 0 < holds k p h -> mx_locked m = true /\ mx_owner_pid m = p /\ mx_recursion m = holds k p h).
  { intros p Hpos. rewrite Hh in *. destruct (mx_locked m); cbn [andb] in *; [|lia]. case_if_in Hpos; [|lia].
    done. }
  split_and!.
  - intros p q H1 H2. apply Hown in H1 as (_ & <- & _), H2 as (_ & <- & _). done.
  - split; [|intros [p H1]; by apply Hown in H1 as (-> & _)]. intros Hl. exists (mx_owner_pid m).
    rewrite Hh, Hl, Z.eqb_refl. cbn. specialize (Hp Hl). lia.
  - intros p H1. by apply Hown in H1 as (_ & ? & ?).
  - intros cur Ec H0. destruct (mutex_lock_spec m (sc y) l cur Hg Ec H0 Hw) as (t & m' & s' & l' & E & _ & Ht & _).
    exists t, m', s'. split; [done|]. inversion Ht as [Hl|Hl Ho|sw Hl Ho]; subst; (split; [intros Hd q Hq|intros Hd; try done]).
    + by rewrite Hh, Hl.
    + by rewrite Hh, Hl, (proj2 (Z.eqb_neq _ _)) by congruence.
    + done.
    + specialize (Hd (mx_owner_pid m') Ho). rewrite Hh, Hl, Z.eqb_refl in Hd. cbn in Hd. specialize (Hp Hl). lia.
Qed.

(** C33: Semaphores count: waits that returned never outnumber the initial count
    and the signals; as long as the counter does not reach its limit the
    count is exactly the balance, beyond that signals are dropped but the
    count stays in range; a wait returns in its first turn exactly when the
    count is positive. *)
Theorem semaphore_balance inits y0 h y k x init :
  sync_start inits y0 -> sync_run y0 h y -> (forall j, count_ev (is_lock j) h < 2 ^ 32) ->
  sems y !! k = Some x -> inits !! k = Some init ->
  0 <= sem_count x <= INT32_MAX /\
  count_ev (is_wait k) h <= init + count_ev (is_signal k) h /\
  (init + count_ev (is_signal k) h <= INT32_MAX ->
   sem_count x = init + count_ev (is_signal k) h - count_ev (is_wait k) h) /\
  (forall cur, current_task (core (sc y)) = Some cur -> cur <> 0%nat ->
     exists t x' s', semaphore_wait (Some x) (sc y) = Some (t, Some x', s') /\
       (t = Done <-> 0 < sem_count x)).
Proof.
  intros Hs Hr Hb Hk Hi. destruct (sync_run_agrees inits y0 h y) as [[l Hg] _ Hx]; [by apply sync_start_agrees|done..|].
  destruct (Hx k x Hk) as (init' & Hi' & Hw & Hc & Hle & Heq). rewrite Hi in Hi'. injection Hi' as <-.
  split_and!; [lia|lia|lia|done|]. intros cur Ec H0.
  destruct (semaphore_wait_spec x (sc y) l cur Hg Ec H0 Hw) as (t & x' & s' & l' & E & _ & _ & Ht).
  exists t, x', s'. split; [done|]. destruct t; [|destruct Ht as (Ht & _)]; split; try done; try lia; tauto.
Qed.

End sync.
