(* ===== verification/FsState.v ===== *)
(** * The state of the file layer

    Objects of src/fs (nodes, ramfs files and directories, pipes, descriptor
    tables) live in one heap of tagged objects indexed by address; a pointer
    is a [Z] and 0 is [NULL].  Reading through a pointer to an object that is
    not there, or freeing it twice, is [None]: what follows is undefined.
    Addresses come from an allocator reached through the class [ObjHeap].

    Operations run in the monad [K]: the file data [fsd], which the theorems
    are about, and the environment [env]: the mutexes and the scheduler.
    [with_lock] is a section between [mutex_lock] and [mutex_unlock] of
    [Sync]; it is [None] when the lock is taken by another task (the caller
    would block there).  [runs] says what an operation does to the data in
    every environment in which the needed locks are free; its rules give each
    construct one lemma, so that the proofs about operations never look at
    the scheduler. *)

From S2P Require Import Prelude Spinlock Task TaskQueue Process Sync TaskFacts TaskProps TaskSteps SyncProps.

(** ** Data *)

(** A C string without its terminator, as character codes. *)
Abbreviation str := (list Z).

Inductive fs_node_type := FS_FILE | FS_DIRECTORY | FS_CHARDEVICE | FS_BLOCKDEVICE | FS_PIPE | FS_SYMLINK.

#[global] Instance fs_node_type_eq_dec : EqDecision fs_node_type.
Proof. solve_decision. Defined.

Definition FS_PERM_READ : Z := 0x4.
Definition FS_PERM_WRITE : Z := 0x2.
Definition FS_PERM_EXEC : Z := 0x1.
Definition FS_NODE_FLAG_ALLOCATED : Z := 0x80000000.

(** The operation pointers of a node, as the set its creator installs. *)
Inductive node_ops := OpsRamFile | OpsRamDir | OpsPipeRead | OpsPipeWrite.

Record fs_node := FsNode {
  fn_name : str;
  fn_inode : Z;
  fn_type : fs_node_type;
  fn_size : Z;
  fn_permissions : Z;
  fn_uid : Z;
  fn_gid : Z;
  fn_flags : Z;
  fn_impl : Z;
  fn_impl_data : Z;
  fn_ref_count : Z;
  fn_ops : node_ops
}.

(** [ramfs_file_t]; its lock is [LObj] of its address. *)
Record ramfs_file := RamfsFile { rf_data : Z; rf_size : Z; rf_capacity : Z }.

(** An entry of a directory and the address it was allocated at. *)
Record ramfs_dirent := RamfsDirent { re_name : str; re_node : Z; re_addr : Z }.

(** [ramfs_dir_t]: the linked list of entries, head first. *)
Record ramfs_dir := RamfsDir { rd_entries : list ramfs_dirent; rd_count : Z }.

Record pipe := Pipe {
  p_buffer : list Z;
  p_read_pos : Z;
  p_write_pos : Z;
  p_count : Z;
  p_readers : Z;
  p_writers : Z;
  p_read_sem : semaphore;
  p_write_sem : semaphore;
  p_read_closed : bool;
  p_write_closed : bool
}.

Record fd_entry := FdEntry { fe_node : Z; fe_offset : Z; fe_flags : Z; fe_in_use : bool }.
Record fd_table := FdTable { ft_lock : Z; ft_entries : list fd_entry }.

Inductive obj :=
| ONode (n : fs_node) | OFile (f : ramfs_file) | ODir (r : ramfs_dir) | ODirent
| OPipe (p : pipe) | OTable (t : fd_table) | OBytes (l : list Z) | ORaw.

(** What is asked of [kmalloc]: [sizeof] of a structure, or bytes. *)
Inductive request := RNode | RFile | RDir | RDirent | RPipe | RBytes (n : Z).

(** The allocator: [oh_kmalloc] gives 0 or an address not in use;
    [oh_bytes p n h] is what a fresh block of [n] bytes at [p] holds. *)
Class ObjHeap (H : Type) := {
  oh_kmalloc : request -> H -> Z * H;
  oh_kfree : Z -> H -> H;
  oh_live : H -> gset Z;
  oh_bytes : Z -> Z -> H -> list Z
}.

Class ObjHeapLaws (H : Type) `{!ObjHeap H} : Prop := {
  oh_fail r h h' : oh_kmalloc r h = (0, h') -> oh_live h' = oh_live h;
  oh_fresh r h p h' : oh_kmalloc r h = (p, h') -> p <> 0 ->
    0 < p /\ p ∉ oh_live h /\ oh_live h' = {[p]} ∪ oh_live h;
  oh_freed p h : oh_live (oh_kfree p h) = oh_live h ∖ {[p]};
  oh_bytes_len p n h : 0 <= n -> Z.of_nat (length (oh_bytes p n h)) = n
}.

(** The static variables of vfs.c, ramfs.c and pipe.c and the heap. *)
Record fsd (H : Type) := Fsd {
  objs : gmap Z obj;
  heap : H;
  fs_root : Z;
  mount_table : list (str * Z);
  next_inode : Z;
  inode_alloc_lock : Z;
  pipe_inode_counter : Z
}.
Arguments Fsd {H}.
Arguments objs {H}.
Arguments heap {H}.
Arguments fs_root {H}.
Arguments mount_table {H}.
Arguments next_inode {H}.
Arguments inode_alloc_lock {H}.
Arguments pipe_inode_counter {H}.

(** [vfs_mount_mutex], [vfs_refcount_mutex], and the mutex inside an object. *)
Inductive lock_id := LMount | LRefcount | LObj (p : Z).

#[global] Instance lock_id_eq_dec : EqDecision lock_id.
Proof. solve_decision. Defined.
#[global] Instance lock_id_countable : Countable lock_id.
Proof.
  refine (inj_countable' (fun l => match l with LMount => inl false | LRefcount => inl true | LObj p => inr p end)
            (fun x => match x with inl false => LMount | inl true => LRefcount | inr p => LObj p end) _).
  by intros [].
Defined.

Record env (W : Type) := Env { locks : gmap lock_id mutex; sc : sched W }.
Arguments Env {W}.
Arguments locks {W}.
Arguments sc {W}.

Definition free_mutex : mutex := Mutex 0 false 0 0.

Section monad.
Context {H W : Type} `{!ObjHeap H} `{!TaskResources W}.
Implicit Types (d : fsd H) (e : env W).

Definition set_objs d (o : gmap Z obj) : fsd H :=
  Fsd o (heap d) (fs_root d) (mount_table d) (next_inode d) (inode_alloc_lock d) (pipe_inode_counter d).
Definition set_heap d (h : H) : fsd H :=
  Fsd (objs d) h (fs_root d) (mount_table d) (next_inode d) (inode_alloc_lock d) (pipe_inode_counter d).
Definition set_root d (p : Z) : fsd H :=
  Fsd (objs d) (heap d) p (mount_table d) (next_inode d) (inode_alloc_lock d) (pipe_inode_counter d).
Definition set_mounts d (l : list (str * Z)) : fsd H :=
  Fsd (objs d) (heap d) (fs_root d) l (next_inode d) (inode_alloc_lock d) (pipe_inode_counter d).
Definition set_inode d (n lock : Z) : fsd H :=
  Fsd (objs d) (heap d) (fs_root d) (mount_table d) n lock (pipe_inode_counter d).
Definition set_pipe_inode d (n : Z) : fsd H :=
  Fsd (objs d) (heap d) (fs_root d) (mount_table d) (next_inode d) (inode_alloc_lock d) n.

(** One object replaced. *)
Definition with_obj d (p : Z) (o : obj) : fsd H := set_objs d (<[p := o]> (objs d)).

Lemma with_obj_id d p o : objs d !! p = Some o -> with_obj d p o = d.
Proof. intros Hp. destruct d. unfold with_obj, set_objs. cbn in *. by rewrite insert_id. Qed.

Lemma with_obj_twice d p o o' : with_obj (with_obj d p o) p o' = with_obj d p o'.
Proof. unfold with_obj, set_objs. cbn. by rewrite insert_insert_eq. Qed.

Lemma with_obj_lookup d p o : objs (with_obj d p o) !! p = Some o.
Proof. cbn. by rewrite lookup_insert_eq. Qed.

Lemma with_obj_ne d p o q : q <> p -> objs (with_obj d p o) !! q = objs d !! q.
Proof. intros. cbn. by rewrite lookup_insert_ne. Qed.

(** ** The monad *)

Definition K (A : Type) : Type := fsd H -> env W -> option (A * fsd H * env W).

#[global] Instance K_ret : MRet K := fun A x d e => Some (x, d, e).
#[global] Instance K_bind : MBind K := fun A B f m d e => '(x, d, e) ← m d e; f x d e.

(** Behaviour the model gives no meaning to. *)
Definition undefined {A} : K A := fun _ _ => None.
Definition gets {A} (f : fsd H -> A) : K A := fun d e => Some (f d, d, e).
Definition modify (f : fsd H -> fsd H) : K unit := fun d e => Some (tt, f d, e).

(** Reading and writing objects. *)
Definition read_obj {A} (sel : obj -> option A) (p : Z) : K A :=
  fun d e => o ← objs d !! p; x ← sel o; Some (x, d, e).
Definition put (p : Z) (o : obj) : K unit := modify (fun d => set_objs d (<[p := o]> (objs d))).

Definition as_node (o : obj) := match o with ONode n => Some n | _ => None end.
Definition as_file (o : obj) := match o with OFile f => Some f | _ => None end.
Definition as_dir (o : obj) := match o with ODir r => Some r | _ => None end.
Definition as_pipe (o : obj) := match o with OPipe p => Some p | _ => None end.
Definition as_table (o : obj) := match o with OTable t => Some t | _ => None end.
Definition as_bytes (o : obj) := match o with OBytes l => Some l | _ => None end.

(** What a fresh block is until its owner initialises it. *)
Definition fresh_obj (r : request) (p : Z) (h : H) : obj :=
  match r with RBytes n => OBytes (oh_bytes p n h) | _ => ORaw end.

Definition kmalloc (r : request) : K Z :=
  fun d e =>
    let '(p, h) := oh_kmalloc r (heap d) in
    if p =? 0 then Some (0, set_heap d h, e)
    else Some (p, set_heap (set_objs d (<[p := fresh_obj r p h]> (objs d))) h, e).

(** [kfree]: nothing for [NULL], undefined for what is not an object. *)
Definition kfree (p : Z) : K unit :=
  fun d e =>
    if p =? 0 then Some (tt, d, e)
    else _ ← objs d !! p;
         Some (tt, set_heap (set_objs d (delete p (objs d))) (oh_kfree p (heap d)), e).

(** ** Locks *)

Definition lock_at e (id : lock_id) : mutex := default free_mutex (locks e !! id).
Definition set_lock e (id : lock_id) (m : mutex) : env W := Env (<[id := m]> (locks e)) (sc e).

Definition mutex_init_at (id : lock_id) : K unit :=
  fun d e => m ← mutex_init (Some (lock_at e id)); Some (tt, d, set_lock e id m).
Definition lock_mutex (id : lock_id) : K unit :=
  fun d e =>
    '(t, m, s) ← mutex_lock (Some (lock_at e id)) (sc e);
    m ← m;
    match t with
    | Done => Some (tt, d, Env (<[id := m]> (locks e)) s)
    | Blocks _ => None
    end.
Definition unlock_mutex (id : lock_id) : K unit :=
  fun d e =>
    '(m, s) ← mutex_unlock (Some (lock_at e id)) (sc e);
    m ← m; Some (tt, d, Env (<[id := m]> (locks e)) s).

(** A section under a mutex; every return inside the section unlocks first. *)
Definition with_lock {A} (id : lock_id) (body : K A) : K A :=
  _ ← lock_mutex id; x ← body; _ ← unlock_mutex id; mret x.

(** ** Evaluation *)

(** The scheduler is in order, a task runs, the locks [held] are its own
    and the others are free. *)
Record env_ok (held : gset lock_id) e : Prop := EnvOk {
  eo_sched : exists l cur, good (sc e) l /\ current_task (core (sc e)) = Some cur /\ cur <> 0%nat;
  eo_free : forall id, id ∉ held -> lock_at e id = free_mutex;
  eo_held : forall id, id ∈ held -> lock_at e id = Mutex 0 true (current_pid (sc e)) 1
}.

(** The environment after an operation of the current task: in order, and
    the task still has its descriptor table. *)
Definition env_next (held : gset lock_id) e e' : Prop :=
  env_ok held e' /\ current_fd_table (sc e') = current_fd_table (sc e).

Lemma env_next_refl held e : env_ok held e -> env_next held e e.
Proof. done. Qed.

(** [m] takes the data [d] to [d'] with result [r], whatever the environment. *)
Definition runs {A} (held : gset lock_id) (m : K A) d (r : A) d' : Prop :=
  forall e, env_ok held e -> exists e', m d e = Some (r, d', e') /\ env_next held e e'.

Lemma runs_ret {A} held (x : A) d : runs held (mret x) d x d.
Proof. intros e He. by exists e. Qed.

Lemma runs_bind {A B} held (m : K A) (f : A -> K B) d x d1 r d' :
  runs held m d x d1 -> runs held (f x) d1 r d' -> runs held (m ≫= f) d r d'.
Proof.
  intros H1 H2 e He. destruct (H1 e He) as (e1 & E1 & He1 & Et1). destruct (H2 e1 He1) as (e2 & E2 & He2 & Et2).
  exists e2. split; [|by split; [|congruence]]. unfold mbind, K_bind. rewrite E1. exact E2.
Qed.

Lemma runs_gets {A} held (f : fsd H -> A) d : runs held (gets f) d (f d) d.
Proof. intros e He. by exists e. Qed.

Lemma runs_modify held (f : fsd H -> fsd H) d : runs held (modify f) d tt (f d).
Proof. intros e He. by exists e. Qed.

Lemma runs_read {A} held (sel : obj -> option A) p d o x :
  objs d !! p = Some o -> sel o = Some x -> runs held (read_obj sel p) d x d.
Proof. intros E1 E2 e He. exists e. split; [|done]. unfold read_obj. by rewrite E1; cbn; rewrite E2. Qed.

Lemma runs_put held p o d : runs held (put p o) d tt (set_objs d (<[p := o]> (objs d))).
Proof. apply runs_modify. Qed.

Lemma runs_kmalloc held r d p h :
  oh_kmalloc r (heap d) = (p, h) -> p <> 0 ->
  runs held (kmalloc r) d p (set_heap (set_objs d (<[p := fresh_obj r p h]> (objs d))) h).
Proof.
  intros E Hp e He. exists e. split; [|done]. unfold kmalloc. by rewrite E, (proj2 (Z.eqb_neq p 0)).
Qed.

Lemma runs_kmalloc_fail held r d h :
  oh_kmalloc r (heap d) = (0, h) -> runs held (kmalloc r) d 0 (set_heap d h).
Proof. intros E e He. exists e. split; [|done]. unfold kmalloc. by rewrite E. Qed.

Lemma runs_kfree held p d o :
  p <> 0 -> objs d !! p = Some o ->
  runs held (kfree p) d tt (set_heap (set_objs d (delete p (objs d))) (oh_kfree p (heap d))).
Proof.
  intros Hp E e He. exists e. split; [|done]. unfold kfree. rewrite (proj2 (Z.eqb_neq p 0)) by done. by rewrite E.
Qed.

Lemma runs_kfree_null held d : runs held (kfree 0) d tt d.
Proof. intros e He. by exists e. Qed.

Lemma lock_at_set e id m j s : lock_at (Env (<[id := m]> (locks e)) s) j = if decide (j = id) then m else lock_at e j.
Proof.
  unfold lock_at. cbn [locks]. destruct (decide (j = id)) as [->|]; [by rewrite lookup_insert_eq|].
  by rewrite lookup_insert_ne.
Qed.

Lemma lock_mutex_ok held id d e :
  id ∉ held -> env_ok held e ->
  exists e', lock_mutex id d e = Some (tt, d, e') /\ env_next ({[id]} ∪ held) e e'.
Proof.
  intros Hid [(l & cur & Hg & Ec & H0) Hf Hh]. unfold lock_mutex. rewrite (Hf id Hid).
  destruct (mutex_lock_spec free_mutex (sc e) l cur Hg Ec H0 eq_refl) as (t & m & s & l' & -> & Hg' & Ht & Hs).
  cbn [mbind option_bind]. inversion Ht as [Hl|Hl|sw Hl]; subst; try done.
  rewrite Hs in *. eexists. split; [done|]. split; [|done]. split; [by exists l, cur|..]; intros j Hj; rewrite lock_at_set.
  - rewrite decide_False by set_solver. apply Hf. set_solver.
  - destruct (decide (j = id)); [done|]. apply Hh. set_solver.
Qed.

Lemma unlock_mutex_ok held id d e :
  id ∉ held -> env_ok ({[id]} ∪ held) e ->
  exists e', unlock_mutex id d e = Some (tt, d, e') /\ env_next held e e'.
Proof.
  intros Hid [(l & cur & Hg & Ec & H0) Hf Hh]. unfold unlock_mutex. rewrite (Hh id) by set_solver.
  destruct (mutex_unlock_spec (Mutex 0 true (current_pid (sc e)) 1) (sc e) l cur Hg Ec eq_refl)
    as (m & s & l' & -> & Hg' & Hu & Ec' & Ep & Et).
  cbn [mbind option_bind]. eexists. split; [done|]. split; [|done].
  assert (m = free_mutex) as -> by (inversion Hu as [[Hi|Hi]|Hl Ho Hr|]; try done; by destruct Hr).
  split; [exists l', cur; split_and!; [done|by rewrite <- Ec|done]|..]; intros j Hj; rewrite lock_at_set.
  - destruct (decide (j = id)); [done|]. apply Hf. set_solver.
  - rewrite decide_False by set_solver. cbn [sc]. rewrite Ep. apply Hh. set_solver.
Qed.

Lemma runs_lock {A} held id (body : K A) d r d' :
  id ∉ held -> runs ({[id]} ∪ held) body d r d' -> runs held (with_lock id body) d r d'.
Proof.
  intros Hid Hb e He. destruct (lock_mutex_ok held id d e Hid He) as (e1 & E1 & He1 & T1).
  destruct (Hb e1 He1) as (e2 & E2 & He2 & T2). destruct (unlock_mutex_ok held id d' e2 Hid He2) as (e3 & E3 & He3 & T3).
  exists e3. split; [|by split; [|congruence]]. unfold with_lock, mbind, K_bind. rewrite E1. cbn [mbind option_bind].
  rewrite E2. cbn [mbind option_bind]. by rewrite E3.
Qed.

Lemma runs_mutex_init held id d : id ∉ held -> runs held (mutex_init_at id) d tt d.
Proof.
  intros Hid e [Hs Hf Hh]. eexists. split; [done|]. split; [|done]. split; [done|..]; intros j Hj; unfold set_lock; rewrite lock_at_set.
  - destruct (decide (j = id)); [done|by apply Hf].
  - rewrite decide_False by set_solver. by apply Hh.
Qed.

(** Evaluation in one environment. *)
Lemma bind_some {A B} (m : K A) (f : A -> K B) d e x d1 e1 : m d e = Some (x, d1, e1) -> (m ≫= f) d e = f x d1 e1.
Proof. intros E. unfold mbind, K_bind. by rewrite E. Qed.

Lemma bind_none {A B} (m : K A) (f : A -> K B) d e : m d e = None -> (m ≫= f) d e = None.
Proof. intros E. unfold mbind, K_bind. by rewrite E. Qed.

Lemma read_some {A} (sel : obj -> option A) p d e o x :
  objs d !! p = Some o -> sel o = Some x -> read_obj sel p d e = Some (x, d, e).
Proof. intros E1 E2. unfold read_obj. rewrite E1. cbn. by rewrite E2. Qed.

Lemma read_none {A} (sel : obj -> option A) p d e : objs d !! p = None -> read_obj sel p d e = None.
Proof. intros E. unfold read_obj. by rewrite E. Qed.

(** Two evaluations of one operation agree. *)
Lemma runs_det {A} held (m : K A) d r1 d1 r2 d2 e :
  env_ok held e -> runs held m d r1 d1 -> runs held m d r2 d2 -> r1 = r2 /\ d1 = d2.
Proof.
  intros He H1 H2. destruct (H1 e He) as (e1 & E1 & _). destruct (H2 e He) as (e2 & E2 & _).
  rewrite E1 in E2. by injection E2 as -> -> _.
Qed.

End monad.

#[global] Arguments K : clear implicits.
#[global] Typeclasses Opaque K.

(** The data evaluates step by step: one rule of [runs] per construct; what
    is left are the lookups and the conditions. *)
Ltac rstep :=
  lazymatch goal with
  | |- runs _ (mret _) _ _ _ => apply runs_ret
  | |- runs _ (gets _) _ _ _ => apply runs_gets
  | |- runs _ (modify _) _ _ _ => apply runs_modify
  | |- runs _ (put _ _) _ _ _ => apply runs_put
  | |- runs _ (read_obj _ _) _ _ _ => eapply runs_read; [try done|try done]
  | |- runs _ (with_lock _ _) _ _ _ => apply runs_lock; [try set_solver|]
  | |- runs _ (mutex_init_at _) _ _ _ => apply runs_mutex_init; try set_solver
  | |- runs _ (_ ≫= _) _ _ _ => eapply runs_bind; [rstep|cbn beta iota]
  | |- _ => idtac
  end.
Ltac rsteps := repeat (progress rstep).

(** Uses a known evaluation [R] for the next step. *)
Tactic Notation "rbind" uconstr(R) :=
  eapply runs_bind; [eapply R|]; cbn beta iota; rewrite ?Z.eqb_refl; change (-1 =? 0) with false;
  cbn [negb]; cbn beta iota.

(** ** Reference counts of nodes

    Models [vfs_ref_node] and [vfs_release_node] of src/fs/vfs.c.  Only nodes
    with [FS_NODE_FLAG_ALLOCATED] are counted; the last release frees the
    private data and the node. *)

Definition n_set_size (v : Z) (n : fs_node) : fs_node :=
  FsNode (fn_name n) (fn_inode n) (fn_type n) v (fn_permissions n) (fn_uid n) (fn_gid n)
    (fn_flags n) (fn_impl n) (fn_impl_data n) (fn_ref_count n) (fn_ops n).
Definition n_set_ref (v : Z) (n : fs_node) : fs_node :=
  FsNode (fn_name n) (fn_inode n) (fn_type n) (fn_size n) (fn_permissions n) (fn_uid n) (fn_gid n)
    (fn_flags n) (fn_impl n) (fn_impl_data n) v (fn_ops n).
Definition n_set_name (v : str) (n : fs_node) : fs_node :=
  FsNode v (fn_inode n) (fn_type n) (fn_size n) (fn_permissions n) (fn_uid n) (fn_gid n)
    (fn_flags n) (fn_impl n) (fn_impl_data n) (fn_ref_count n) (fn_ops n).
Definition n_set_impl (v : Z) (n : fs_node) : fs_node :=
  FsNode (fn_name n) (fn_inode n) (fn_type n) (fn_size n) (fn_permissions n) (fn_uid n) (fn_gid n)
    (fn_flags n) v (fn_impl_data n) (fn_ref_count n) (fn_ops n).

(** [node->flags & FS_NODE_FLAG_ALLOCATED] *)
Definition counted (n : fs_node) : bool := negb (Z.land (fn_flags n) FS_NODE_FLAG_ALLOCATED =? 0).

Section node.
Context {H W : Type} `{!ObjHeap H} `{!TaskResources W}.

Definition vfs_ref_node (node : Z) : K H W unit :=
  if node =? 0 then mret tt
  else
    n ← read_obj as_node node;
    if negb (counted n) then mret tt
    else with_lock LRefcount
      (n ← read_obj as_node node; put node (ONode (n_set_ref (u32 (fn_ref_count n + 1)) n))).

Definition vfs_release_node (node : Z) : K H W unit :=
  if node =? 0 then mret tt
  else
    n ← read_obj as_node node;
    if negb (counted n) then mret tt
    else
      last ← with_lock LRefcount
        (n ← read_obj as_node node;
         if 0 <? fn_ref_count n then
           _ ← put node (ONode (n_set_ref (fn_ref_count n - 1) n));
           mret (fn_ref_count n - 1 =? 0)
         else mret false);
      if last : bool then
        n ← read_obj as_node node;
        _ ← kfree (fn_impl n);
        kfree node
      else mret tt.

End node.
