(* ===== verification/Pipe.v ===== *)
(** * Pipes

    Models src/fs/pipe.c.  A blocking read or write is a loop of sections
    under the pipe's mutex with waits on a semaphore between them.  A section
    is one definition, so that the sections of several tasks can be
    interleaved; [pipe_read] and [pipe_write] are the loops of one task, and
    like a lock that is taken, a wait that blocks is [None] there.  Each turn
    of the inner loop consumes one unit of the semaphore, which bounds the
    turns a task can make without blocking. *)

From S2P Require Import Prelude Spinlock Task Sync FsState.

Definition PIPE_BUFFER_SIZE : Z := 4096.

(** Which end, and the semaphore its users wait on. *)
Inductive pend := ReadEnd | WriteEnd.

Definition p_sem (x : pend) (p : pipe) : semaphore :=
  match x with ReadEnd => p_read_sem p | WriteEnd => p_write_sem p end.
Definition p_set_sem (x : pend) (s : semaphore) (p : pipe) : pipe :=
  match x with
  | ReadEnd => Pipe (p_buffer p) (p_read_pos p) (p_write_pos p) (p_count p) (p_readers p) (p_writers p)
                 s (p_write_sem p) (p_read_closed p) (p_write_closed p)
  | WriteEnd => Pipe (p_buffer p) (p_read_pos p) (p_write_pos p) (p_count p) (p_readers p) (p_writers p)
                  (p_read_sem p) s (p_read_closed p) (p_write_closed p)
  end.
Definition p_set_ring (buffer : list Z) (read_pos write_pos count : Z) (p : pipe) : pipe :=
  Pipe buffer read_pos write_pos count (p_readers p) (p_writers p)
    (p_read_sem p) (p_write_sem p) (p_read_closed p) (p_write_closed p).
Definition p_set_ends (readers writers : Z) (p : pipe) : pipe :=
  Pipe (p_buffer p) (p_read_pos p) (p_write_pos p) (p_count p) readers writers
    (p_read_sem p) (p_write_sem p) (p_read_closed p) (p_write_closed p).
Definition p_set_closed (read_closed write_closed : bool) (p : pipe) : pipe :=
  Pipe (p_buffer p) (p_read_pos p) (p_write_pos p) (p_count p) (p_readers p) (p_writers p)
    (p_read_sem p) (p_write_sem p) read_closed write_closed.

(** The pipe [pipe_create] initialises. *)
Definition new_pipe : pipe :=
  Pipe (replicate (Z.to_nat PIPE_BUFFER_SIZE) 0) 0 0 0 1 1 (Semaphore 0 0) (Semaphore 0 PIPE_BUFFER_SIZE) false false.

(** Strings pipe_read and pipe_write. *)
Definition name_pipe_read : str := [112; 105; 112; 101; 95; 114; 101; 97; 100].
Definition name_pipe_write : str := [112; 105; 112; 101; 95; 119; 114; 105; 116; 101].

Definition pipe_node (name : str) (inode impl impl_data : Z) (ops : node_ops) : fs_node :=
  FsNode name inode FS_PIPE 0 0x1A4 0 0 FS_NODE_FLAG_ALLOCATED impl impl_data 1 ops.

(** The end a node stands for. *)
Definition end_of (n : fs_node) : pend := if fn_impl_data n =? 1 then WriteEnd else ReadEnd.

(** How a section ends: bytes moved, end of file or broken pipe, or a wait. *)
Inductive section (A : Type) := Moved (x : A) | Closed | MustWait.
Arguments Moved {A}.
Arguments Closed {A}.
Arguments MustWait {A}.

Section pipe.
Context {H W : Type} `{!ObjHeap H} `{!TaskResources W}.
Abbreviation K := (K H W).

(** [semaphore_signal] and [semaphore_wait] on a semaphore inside the pipe. *)
Definition pipe_signal (x : pend) (p : Z) : K unit :=
  fun d e =>
    o ← objs d !! p; q ← as_pipe o;
    '(s, t) ← semaphore_signal (Some (p_sem x q)) (sc e);
    s ← s;
    Some (tt, set_objs d (<[p := OPipe (p_set_sem x s q)]> (objs d)), Env (locks e) t).
Definition pipe_wait (x : pend) (p : Z) : K unit :=
  fun d e =>
    o ← objs d !! p; q ← as_pipe o;
    '(r, s, t) ← semaphore_wait (Some (p_sem x q)) (sc e);
    s ← s;
    match r with
    | Done => Some (tt, set_objs d (<[p := OPipe (p_set_sem x s q)]> (objs d)), Env (locks e) t)
    | Blocks _ => None
    end.

Fixpoint pipe_signals (x : pend) (p : Z) (n : nat) : K unit :=
  match n with
  | O => mret tt
  | S n => _ ← pipe_signal x p; pipe_signals x p n
  end.

Definition pipe_on_dup (node : Z) : K unit :=
  if node =? 0 then mret tt
  else
    n ← read_obj as_node node;
    if negb (bool_decide (fn_type n = FS_PIPE)) || (fn_impl n =? 0) then mret tt
    else with_lock (LObj (fn_impl n))
      (p ← read_obj as_pipe (fn_impl n);
       put (fn_impl n) (OPipe
         (match end_of n with
          | WriteEnd => p_set_ends (p_readers p) (u32 (p_writers p + 1)) p
          | ReadEnd => p_set_ends (u32 (p_readers p + 1)) (p_writers p) p
          end))).

(** The two nodes, or [None]. *)
Definition pipe_create : K (option (Z * Z)) :=
  pipe ← kmalloc RPipe;
  if pipe =? 0 then mret None
  else
    _ ← put pipe (OPipe new_pipe);
    _ ← mutex_init_at (LObj pipe);
    inode ← gets pipe_inode_counter;
    _ ← modify (fun d => set_pipe_inode d (u32 (inode + 1)));
    rnode ← kmalloc RNode;
    if rnode =? 0 then _ ← kfree pipe; mret None
    else
      _ ← put rnode (ONode (pipe_node name_pipe_read inode pipe 0 OpsPipeRead));
      wnode ← kmalloc RNode;
      if wnode =? 0 then _ ← kfree rnode; _ ← kfree pipe; mret None
      else
        _ ← put wnode (ONode (pipe_node name_pipe_write inode pipe 1 OpsPipeWrite));
        mret (Some (rnode, wnode)).

(** ** Reading *)

(** The copying loop of [pipe_read]: [to_read] bytes, a signal for each. *)
Fixpoint ring_read (pipe : Z) (to_read : nat) : K (list Z) :=
  match to_read with
  | O => mret []
  | S n =>
      p ← read_obj as_pipe pipe;
      match p_buffer p !! Z.to_nat (p_read_pos p) with
      | None => undefined
      | Some c =>
          _ ← put pipe (OPipe (p_set_ring (p_buffer p) ((p_read_pos p + 1) mod PIPE_BUFFER_SIZE) (p_write_pos p)
                                 (u32 (p_count p - 1)) p));
          _ ← pipe_signal WriteEnd pipe;
          l ← ring_read pipe n;
          mret (c :: l)
      end
  end.

(** From taking the lock to releasing it; [resumed] after a wait. *)
Definition read_section (pipe size : Z) (resumed : bool) : K (section (list Z)) :=
  with_lock (LObj pipe)
    (p ← read_obj as_pipe pipe;
     if resumed && (p_count p =? 0) && p_write_closed p then mret Closed
     else if p_count p =? 0 then mret (if p_write_closed p then Closed else MustWait)
     else
       let to_read := if p_count p <? size then p_count p else size in
       l ← ring_read pipe (Z.to_nat to_read);
       mret (Moved l)).

Fixpoint read_loop (fuel : nat) (pipe size : Z) (resumed : bool) : K (list Z) :=
  match fuel with
  | O => undefined
  | S fuel =>
      r ← read_section pipe size resumed;
      match r with
      | Moved l => mret l
      | Closed => mret []
      | MustWait => _ ← pipe_wait ReadEnd pipe; read_loop fuel pipe size true
      end
  end.

(** The turns a task can make: the units of the semaphore, and one more. *)
Definition turns (x : pend) (pipe : Z) : K nat :=
  p ← read_obj as_pipe pipe; mret (S (Z.to_nat (sem_count (p_sem x p)))).

(** The bytes stored in [buffer]; the result is their number. *)
Definition pipe_read (node size : Z) : K (Z * list Z) :=
  n ← read_obj as_node node;
  if fn_impl n =? 0 then mret (0, [])
  else if 0 <? size then
    fuel ← turns ReadEnd (fn_impl n);
    l ← read_loop fuel (fn_impl n) size false;
    mret (Z.of_nat (length l), l)
  else mret (0, []).

(** ** Writing *)

Fixpoint ring_write (pipe : Z) (bytes : list Z) : K unit :=
  match bytes with
  | [] => mret tt
  | c :: bytes =>
      p ← read_obj as_pipe pipe;
      if p_write_pos p <? Z.of_nat (length (p_buffer p)) then
        _ ← put pipe (OPipe (p_set_ring (<[Z.to_nat (p_write_pos p) := c]> (p_buffer p)) (p_read_pos p)
                               ((p_write_pos p + 1) mod PIPE_BUFFER_SIZE) (u32 (p_count p + 1)) p));
        _ ← pipe_signal ReadEnd pipe;
        ring_write pipe bytes
      else undefined
  end.

(** [rest] is what is left to write; the number of bytes written of it. *)
Definition write_section (pipe : Z) (rest : list Z) (resumed : bool) : K (section nat) :=
  with_lock (LObj pipe)
    (p ← read_obj as_pipe pipe;
     if resumed && p_read_closed p then mret Closed
     else if p_count p =? PIPE_BUFFER_SIZE then mret (if p_read_closed p then Closed else MustWait)
     else
       let space_available := u32 (PIPE_BUFFER_SIZE - p_count p) in
       let to_write := if space_available <? Z.of_nat (length rest) then space_available else Z.of_nat (length rest) in
       _ ← ring_write pipe (take (Z.to_nat to_write) rest);
       mret (Moved (Z.to_nat to_write))).

Fixpoint write_loop (fuel : nat) (pipe : Z) (rest : list Z) (resumed : bool) (bytes_written : nat) : K nat :=
  match fuel with
  | O => undefined
  | S fuel =>
      match rest with
      | [] => mret bytes_written
      | _ :: _ =>
          r ← write_section pipe rest resumed;
          match r with
          | Moved k => write_loop fuel pipe (drop k rest) false (bytes_written + k)
          | Closed => mret bytes_written
          | MustWait => _ ← pipe_wait WriteEnd pipe; write_loop fuel pipe rest true bytes_written
          end
      end
  end.

(** The first section of [pipe_write] only looks at [read_closed]. *)
Definition pipe_write (node : Z) (buffer : list Z) : K Z :=
  n ← read_obj as_node node;
  if fn_impl n =? 0 then mret 0
  else
    closed ← with_lock (LObj (fn_impl n)) (p ← read_obj as_pipe (fn_impl n); mret (p_read_closed p));
    if closed : bool then mret 0
    else
      fuel ← turns WriteEnd (fn_impl n);
      w ← write_loop (fuel + length buffer) (fn_impl n) buffer false 0;
      mret (Z.of_nat w).

(** ** Closing *)

Definition close_section (pipe : Z) (x : pend) : K bool :=
  with_lock (LObj pipe)
    (p ← read_obj as_pipe pipe;
     _ ← (match x with
          | WriteEnd =>
              let writers := u32 (p_writers p - 1) in
              _ ← put pipe (OPipe (p_set_ends (p_readers p) writers p));
              if writers =? 0 then
                p ← read_obj as_pipe pipe;
                _ ← put pipe (OPipe (p_set_closed (p_read_closed p) true p));
                pipe_signals ReadEnd pipe 10
              else mret tt
          | ReadEnd =>
              let readers := u32 (p_readers p - 1) in
              _ ← put pipe (OPipe (p_set_ends readers (p_writers p) p));
              if readers =? 0 then
                p ← read_obj as_pipe pipe;
                _ ← put pipe (OPipe (p_set_closed true (p_write_closed p) p));
                pipe_signals WriteEnd pipe 10
              else mret tt
          end);
     p ← read_obj as_pipe pipe;
     mret ((p_readers p =? 0) && (p_writers p =? 0))).

Definition pipe_close (node : Z) : K unit :=
  if node =? 0 then mret tt
  else
    n ← read_obj as_node node;
    if fn_impl n =? 0 then mret tt
    else
      should_free ← close_section (fn_impl n) (end_of n);
      if should_free : bool then
        n ← read_obj as_node node;
        _ ← put node (ONode (n_set_impl 0 n));
        kfree (fn_impl n)
      else mret tt.

End pipe.
