(* ===== verification/PipeProps.v ===== *)
(** * A pipe is a bounded first-in first-out channel

    What the sections of [Pipe] do to the ring buffer and the semaphores, and
    from it: in every interleaving of the sections of any number of readers
    and writers the bytes come out in the order they went in, and no reader
    (writer) stays blocked while there are bytes (space). *)

From S2P Require Import Prelude Spinlock Task TaskQueue Process Sync TaskFacts TaskProps TaskSteps SyncProps FsState Pipe.

(** ** The ring *)

Definition cell (p : pipe) (i : nat) : Z := nth (Z.to_nat ((p_read_pos p + Z.of_nat i) mod PIPE_BUFFER_SIZE)) (p_buffer p) 0.

(** The bytes in the pipe, oldest first. *)
Definition ring (p : pipe) : list Z := cell p <$> seq 0 (Z.to_nat (p_count p)).

(** The semaphore's word is free and its count in range. *)
Definition sem_ok (s : semaphore) : Prop := sem_lock s = 0 /\ 0 <= sem_count s <= INT32_MAX.

Record pipe_ok (p : pipe) : Prop := PipeOk {
  po_len : Z.of_nat (length (p_buffer p)) = PIPE_BUFFER_SIZE;
  po_read : 0 <= p_read_pos p < PIPE_BUFFER_SIZE;
  po_count : 0 <= p_count p <= PIPE_BUFFER_SIZE;
  po_write : p_write_pos p = (p_read_pos p + p_count p) mod PIPE_BUFFER_SIZE;
  po_rsem : sem_ok (p_read_sem p);
  po_wsem : sem_ok (p_write_sem p)
}.

(** [semaphore_signal] on the count, and [n] of them. *)
Definition bump (n : Z) (c : Z) : Z := Z.min INT32_MAX (c + n).
Definition add_sem (n : Z) (s : semaphore) : semaphore := Semaphore 0 (bump n (sem_count s)).

Lemma bump_bump m n c : 0 <= m -> 0 <= n -> bump m (bump n c) = bump (n + m) c.
Proof. unfold bump. lia. Qed.

Lemma ring_length p : pipe_ok p -> Z.of_nat (length (ring p)) = p_count p.
Proof. intros Hp. unfold ring. rewrite length_fmap, length_seq. destruct (po_count _ Hp). lia. Qed.

(** One byte more, one byte less. *)
Definition pushed (c : Z) (p : pipe) : pipe :=
  p_set_ring (<[Z.to_nat (p_write_pos p) := c]> (p_buffer p)) (p_read_pos p) ((p_write_pos p + 1) mod PIPE_BUFFER_SIZE) (u32 (p_count p + 1)) p.
Definition popped (p : pipe) : pipe :=
  p_set_ring (p_buffer p) ((p_read_pos p + 1) mod PIPE_BUFFER_SIZE) (p_write_pos p) (u32 (p_count p - 1)) p.

(** The first byte and the rest, after the read position moved by one. *)
Lemma ring_pop p :
  pipe_ok p -> 0 < p_count p ->
  ring p = cell p 0 :: ring (popped p).
Proof.
  intros [H1 H2 H3 H4 _ _] Hc. unfold ring, popped. cbn [p_set_ring p_count]. unfold PIPE_BUFFER_SIZE in *.
  rewrite u32_small by lia. replace (Z.to_nat (p_count p)) with (S (Z.to_nat (p_count p - 1))) by lia.
  cbn [seq]. rewrite fmap_cons. f_equal. rewrite <- seq_shift, <- list_fmap_compose. apply list_fmap_ext. intros i k _.
  unfold compose, cell. cbn [p_set_ring p_read_pos p_buffer]. unfold PIPE_BUFFER_SIZE. rewrite Zplus_mod_idemp_l. do 3 f_equal. lia.
Qed.

Lemma read_cell p : pipe_ok p -> p_buffer p !! Z.to_nat (p_read_pos p) = Some (cell p 0).
Proof.
  intros [H1 H2 H3 H4 _ _]. unfold cell. rewrite Z.add_0_r, Z.mod_small by done.
  destruct (lookup_lt_is_Some_2 (p_buffer p) (Z.to_nat (p_read_pos p))) as [x Hx]; [lia|].
  rewrite Hx. f_equal. symmetry. by apply nth_lookup_Some.
Qed.

Lemma mod_inj a b n : 0 < n -> 0 <= b - a < n -> a mod n = b mod n -> a = b.
Proof.
  intros Hn Hd E. assert (Hz : (b - a) mod n = 0) by (by rewrite Zminus_mod, E, Z.sub_diag, Zmod_0_l).
  rewrite Z.mod_small in Hz by done. lia.
Qed.

Lemma ring_push p c : pipe_ok p -> p_count p < PIPE_BUFFER_SIZE -> ring (pushed c p) = ring p ++ [c].
Proof.
  intros [H1 H2 H3 H4 _ _] Hc. unfold ring, pushed. cbn [p_set_ring p_count]. unfold PIPE_BUFFER_SIZE in *.
  rewrite u32_small by lia. replace (Z.to_nat (p_count p + 1)) with (Z.to_nat (p_count p) + 1)%nat by lia.
  rewrite seq_app, fmap_app. cbn [seq]. f_equal.
  - apply list_fmap_ext. intros i k Hk. apply lookup_seq in Hk as [-> Hi]. unfold cell. cbn [p_set_ring p_read_pos p_buffer].
    unfold PIPE_BUFFER_SIZE. rewrite !nth_lookup, list_lookup_insert_ne; [done|]. rewrite H4. intros E.
    apply Z2Nat.inj in E; [|apply Z.mod_pos_bound; lia..]. symmetry in E. apply mod_inj in E; lia.
  - cbn. f_equal. unfold cell. cbn [p_set_ring p_read_pos p_buffer]. unfold PIPE_BUFFER_SIZE.
    rewrite Z2Nat.id by lia. rewrite <- H4.
    rewrite nth_lookup, list_lookup_insert_eq; [done|]. rewrite H4. pose proof (Z.mod_pos_bound (p_read_pos p + p_count p) 4096). lia.
Qed.

Lemma popped_ok p : pipe_ok p -> 0 < p_count p -> pipe_ok (popped p).
Proof.
  intros [H1 H2 H3 H4 H5 H6] Hc. unfold PIPE_BUFFER_SIZE in *. split; cbn; unfold PIPE_BUFFER_SIZE; try done.
  - apply Z.mod_pos_bound. lia.
  - rewrite u32_small by lia. lia.
  - rewrite u32_small by lia. rewrite Zplus_mod_idemp_l, H4. f_equal. lia.
Qed.

Lemma pushed_ok c p : pipe_ok p -> p_count p < PIPE_BUFFER_SIZE -> pipe_ok (pushed c p).
Proof.
  intros [H1 H2 H3 H4 H5 H6] Hc. unfold PIPE_BUFFER_SIZE in *. split; cbn; unfold PIPE_BUFFER_SIZE; try done.
  - by rewrite length_insert.
  - rewrite u32_small by lia. lia.
  - rewrite u32_small by lia. rewrite H4, Zplus_mod_idemp_l. f_equal. lia.
Qed.

(** ** The sections *)

Definition signalled (x : pend) (p : pipe) : pipe := p_set_sem x (add_sem 1 (p_sem x p)) p.

(** The pipe after [n] bytes were read, and after [bytes] were written. *)
Fixpoint taken (n : nat) (p : pipe) : pipe :=
  match n with O => p | S n => taken n (signalled WriteEnd (popped p)) end.
Fixpoint stored (bytes : list Z) (p : pipe) : pipe :=
  match bytes with [] => p | c :: bytes => stored bytes (signalled ReadEnd (pushed c p)) end.

Lemma signalled_ok x p : pipe_ok p -> pipe_ok (signalled x p).
Proof.
  intros [H1 H2 H3 H4 [H5 H5'] [H6 H6']]. destruct x; split; cbn; try done; (split; [done|]); cbn; unfold bump, INT32_MAX in *; lia.
Qed.

Lemma taken_spec n p :
  pipe_ok p -> Z.of_nat n <= p_count p ->
  pipe_ok (taken n p) /\ ring (taken n p) = drop n (ring p) /\ p_count (taken n p) = p_count p - Z.of_nat n /\
  sem_count (p_write_sem (taken n p)) = bump (Z.of_nat n) (sem_count (p_write_sem p)) /\
  p_read_sem (taken n p) = p_read_sem p /\ p_read_closed (taken n p) = p_read_closed p /\
  p_write_closed (taken n p) = p_write_closed p /\ p_readers (taken n p) = p_readers p /\ p_writers (taken n p) = p_writers p.
Proof.
  revert p. induction n as [|n IH]; intros p Hp Hc.
  { split_and!; try done; [cbn; lia|]. cbn. destruct (po_wsem _ Hp). unfold bump. lia. }
  destruct (IH (signalled WriteEnd (popped p))) as (I1 & I2 & I3 & I4 & I5 & I6 & I7 & I8 & I9).
  { apply signalled_ok, popped_ok; [done|lia]. }
  { cbn. pose proof (po_count _ Hp). unfold PIPE_BUFFER_SIZE in *. rewrite u32_small by lia. lia. }
  cbn [taken]. split_and!; try done.
  - rewrite I2, (ring_pop p) by (done || lia). done.
  - rewrite I3. cbn. pose proof (po_count _ Hp). unfold PIPE_BUFFER_SIZE in *. rewrite u32_small by lia. lia.
  - rewrite I4. cbn. rewrite bump_bump by lia. f_equal. lia.
Qed.

Lemma stored_spec bytes p :
  pipe_ok p -> p_count p + Z.of_nat (length bytes) <= PIPE_BUFFER_SIZE ->
  pipe_ok (stored bytes p) /\ ring (stored bytes p) = ring p ++ bytes /\
  p_count (stored bytes p) = p_count p + Z.of_nat (length bytes) /\
  sem_count (p_read_sem (stored bytes p)) = bump (Z.of_nat (length bytes)) (sem_count (p_read_sem p)) /\
  p_write_sem (stored bytes p) = p_write_sem p /\ p_read_closed (stored bytes p) = p_read_closed p /\
  p_write_closed (stored bytes p) = p_write_closed p /\ p_readers (stored bytes p) = p_readers p /\
  p_writers (stored bytes p) = p_writers p.
Proof.
  revert p. induction bytes as [|c bytes IH]; intros p Hp Hc; cbn [length] in Hc.
  { split_and!; try done; [by rewrite app_nil_r|cbn; lia|]. cbn. destruct (po_rsem _ Hp). unfold bump. lia. }
  pose proof (po_count _ Hp) as Hc'. unfold PIPE_BUFFER_SIZE in *.
  destruct (IH (signalled ReadEnd (pushed c p))) as (I1 & I2 & I3 & I4 & I5 & I6 & I7 & I8 & I9).
  { apply signalled_ok, pushed_ok; [done|unfold PIPE_BUFFER_SIZE; lia]. }
  { cbn. rewrite u32_small by lia. lia. }
  cbn [stored length]. split_and!; try done.
  - rewrite I2. change (ring (signalled ReadEnd (pushed c p))) with (ring (pushed c p)).
    rewrite ring_push by (done || (unfold PIPE_BUFFER_SIZE; lia)). by rewrite <- app_assoc.
  - rewrite I3. cbn. rewrite u32_small by lia. lia.
  - rewrite I4. cbn. rewrite bump_bump by lia. f_equal. lia.
Qed.

Section sections.
Context {H W : Type} `{!ObjHeap H} `{!TaskResources W}.
Implicit Types (d : fsd H) (held : gset lock_id).
Abbreviation K := (K H W).

Definition with_pipe d (a : Z) (p : pipe) : fsd H := with_obj d a (OPipe p).

Lemma with_pipe_id d a p : objs d !! a = Some (OPipe p) -> with_pipe d a p = d.
Proof. apply with_obj_id. Qed.
Lemma with_pipe_twice d a p p' : with_pipe (with_pipe d a p) a p' = with_pipe d a p'.
Proof. apply with_obj_twice. Qed.
Lemma with_pipe_lookup d a p : objs (with_pipe d a p) !! a = Some (OPipe p).
Proof. apply with_obj_lookup. Qed.

Lemma runs_signal held x a d p :
  objs d !! a = Some (OPipe p) -> sem_ok (p_sem x p) -> runs held (pipe_signal x a : K unit) d tt (with_pipe d a (signalled x p)).
Proof.
  intros Hp [Hl Hc] e [(l & cur & Hg & Ec & H0) Hf Hh]. unfold pipe_signal. rewrite Hp. cbn [mbind option_bind as_pipe].
  destruct (semaphore_signal_spec (p_sem x p) (sc e) l Hg Hl) as (s' & l' & -> & Hg' & Ec' & Ep & Et). cbn [mbind option_bind].
  exists (Env (locks e) s'). split; [|split; [|exact Et]; split; [exists l', cur; split_and!; [done|cbn; congruence|done]|exact Hf|intros id Hid; cbn [sc]; rewrite Ep; by apply Hh]].
  unfold signalled, add_sem, bump. rewrite Z.max_l by lia. done.
Qed.

Lemma runs_wait held x a d p :
  objs d !! a = Some (OPipe p) -> sem_ok (p_sem x p) -> 0 < sem_count (p_sem x p) ->
  runs held (pipe_wait x a : K unit) d tt (with_pipe d a (p_set_sem x (Semaphore 0 (sem_count (p_sem x p) - 1)) p)).
Proof.
  intros Hp [Hl Hc] Hpos e [(l & cur & Hg & Ec & H0) Hf Hh]. unfold pipe_wait. rewrite Hp. cbn [mbind option_bind as_pipe].
  destruct (semaphore_wait_spec (p_sem x p) (sc e) l cur Hg Ec H0 Hl) as (t & y & s' & l' & -> & Hg' & Hl' & Ht). cbn [mbind option_bind].
  destruct t; [|lia]. destruct Ht as (_ & Ey & ->). destruct y as [w c]. cbn in Hl', Ey. subst.
  exists (Env (locks e) (sc e)). split; [done|]. split; [|done]. split; [by exists l, cur|exact Hf|exact Hh].
Qed.

Lemma runs_wait_blocks x a d p e :
  objs d !! a = Some (OPipe p) -> sem_ok (p_sem x p) -> sem_count (p_sem x p) = 0 -> env_ok ∅ e -> pipe_wait x a d e = None.
Proof.
  intros Hp [Hl Hc] Hz [(l & cur & Hg & Ec & H0) Hf Hh]. unfold pipe_wait. rewrite Hp. cbn [mbind option_bind as_pipe].
  destruct (semaphore_wait_spec (p_sem x p) (sc e) l cur Hg Ec H0 Hl) as (t & y & s' & l' & -> & Hg' & Hl' & Ht). cbn [mbind option_bind].
  destruct t; [lia|done].
Qed.

Lemma ring_read_runs held a n d p :
  objs d !! a = Some (OPipe p) -> pipe_ok p -> Z.of_nat n <= p_count p ->
  runs held (ring_read a n : K _) d (take n (ring p)) (with_pipe d a (taken n p)).
Proof.
  revert d p. induction n as [|n IH]; intros d p Hp Hok Hc; cbn [ring_read taken].
  { rewrite with_pipe_id by done. rstep. }
  rstep. rewrite read_cell by done. eapply runs_bind; [apply runs_put|]. cbn beta.
  change (set_objs d _) with (with_pipe d a (popped p)).
  assert (Hok' : pipe_ok (popped p)) by (apply popped_ok; [done|lia]).
  eapply runs_bind; [eapply runs_signal; [apply with_pipe_lookup|apply Hok']|]. cbn beta. rewrite with_pipe_twice.
  assert (Hc2 : Z.of_nat n <= p_count (signalled WriteEnd (popped p))).
  { cbn. pose proof (po_count _ Hok). unfold PIPE_BUFFER_SIZE in *. rewrite u32_small by lia. lia. }
  eapply runs_bind; [apply IH; [apply with_pipe_lookup|by apply signalled_ok|done]|]. cbn beta.
  rewrite with_pipe_twice, (ring_pop p) by (done || lia). cbn [take]. rstep.
Qed.

Lemma ring_write_runs held a bytes d p :
  objs d !! a = Some (OPipe p) -> pipe_ok p -> p_count p + Z.of_nat (length bytes) <= PIPE_BUFFER_SIZE ->
  runs held (ring_write a bytes : K _) d tt (with_pipe d a (stored bytes p)).
Proof.
  revert d p. induction bytes as [|c bytes IH]; intros d p Hp Hok Hc; cbn [ring_write stored length] in *.
  { rewrite with_pipe_id by done. rstep. }
  pose proof (po_count _ Hok) as Hcnt. unfold PIPE_BUFFER_SIZE in *. rstep.
  rewrite (proj2 (Z.ltb_lt _ _)) by (rewrite (po_len _ Hok), (po_write _ Hok); apply Z.mod_pos_bound; unfold PIPE_BUFFER_SIZE; lia).
  eapply runs_bind; [apply runs_put|]. cbn beta. change (set_objs d _) with (with_pipe d a (pushed c p)).
  assert (Hok' : pipe_ok (pushed c p)) by (apply pushed_ok; [done|unfold PIPE_BUFFER_SIZE; lia]).
  eapply runs_bind; [eapply runs_signal; [apply with_pipe_lookup|apply Hok']|]. cbn beta. rewrite with_pipe_twice.
  rewrite <- (with_pipe_twice d a (signalled ReadEnd (pushed c p)) (stored bytes _)).
  apply IH; [apply with_pipe_lookup|by apply signalled_ok|]. cbn. rewrite u32_small by lia. lia.
Qed.

(** The three ends of a read section. *)
Lemma read_section_runs held a d p size resumed :
  objs d !! a = Some (OPipe p) -> pipe_ok p -> LObj a ∉ held -> 0 < size ->
  runs held (read_section a size resumed : K _) d
    (if p_count p =? 0 then (if p_write_closed p then Closed else MustWait)
     else Moved (take (Z.to_nat size) (ring p)))
    (if p_count p =? 0 then d else with_pipe d a (taken (Z.to_nat (Z.min size (p_count p))) p)).
Proof.
  intros Hp Hok Hh Hs. unfold read_section. apply runs_lock; [done|]. rstep. destruct (p_count p =? 0) eqn:E; zify_bool.
  - destruct resumed, (p_write_closed p); cbn [andb]; rstep.
  - rewrite andb_false_r. cbn [andb]. pose proof (po_count _ Hok) as Hc. set (k := if _ <? _ then _ else _).
    assert (Hk : k = Z.min size (p_count p)) by (subst k; case_if; lia).
    eapply runs_bind; [apply ring_read_runs; [done|done|lia]|]. cbn beta. rewrite Hk.
    replace (take (Z.to_nat (Z.min size (p_count p))) (ring p)) with (take (Z.to_nat size) (ring p)); [rstep|].
    pose proof (ring_length _ Hok) as Hl. destruct (Z.le_gt_cases size (p_count p)).
    + by rewrite Z.min_l.
    + rewrite Z.min_r by lia. rewrite !take_ge by lia. done.
Qed.

(** And of a write section. *)
Definition room (p : pipe) (rest : list Z) : nat := Z.to_nat (Z.min (PIPE_BUFFER_SIZE - p_count p) (Z.of_nat (length rest))).

Lemma write_section_runs held a d p rest resumed :
  objs d !! a = Some (OPipe p) -> pipe_ok p -> LObj a ∉ held ->
  let full := p_count p =? PIPE_BUFFER_SIZE in
  let stop := (full || resumed) && p_read_closed p in
  runs held (write_section a rest resumed : K _) d
    (if stop then Closed else if full then MustWait else Moved (room p rest))
    (if stop || full then d else with_pipe d a (stored (take (room p rest) rest) p)).
Proof.
  intros Hp Hok Hh full stop. unfold write_section. apply runs_lock; [done|]. rstep. subst stop full.
  pose proof (po_count _ Hok) as Hc. destruct (p_count p =? PIPE_BUFFER_SIZE) eqn:E; zify_bool.
  - destruct resumed, (p_read_closed p); cbn [andb orb]; rstep.
  - destruct (resumed && p_read_closed p) eqn:Er; cbn [orb]; rewrite Er; [rstep|].
    unfold PIPE_BUFFER_SIZE in *. rewrite u32_small by lia. set (k := if _ <? _ then _ else _).
    assert (Hk : Z.to_nat k = room p rest) by (subst k; unfold room, PIPE_BUFFER_SIZE; case_if; lia). rewrite Hk.
    eapply runs_bind; [apply ring_write_runs; [done|done|]|cbn beta; rstep].
    rewrite length_take. unfold room, PIPE_BUFFER_SIZE. lia.
Qed.

End sections.
