(* ===== verification/PipeRuns.v ===== *)
(** * Readers and writers of one pipe, interleaved

    Each reader or writer is at the entry of its loop, about to wait for its
    semaphore, or resumed after the wait; a closer is before its section or,
    when that has found both ends closed, about to free the pipe.  A step is
    one section of [pipe_read], [pipe_write] or [pipe_close], a wait that
    returns, or the free at the end of [pipe_close], evaluated in any
    environment in which the caller runs and nobody is inside a section; or
    anything that leaves the pipe alone.  A task that already sleeps in
    [semaphore_wait] is no user here: its wake-up is the matter of [SyncProps]. *)

From S2P Require Import Prelude Spinlock Task Sync SyncProps FsState Pipe PipeProps.

Inductive pc := AtEntry | AtWait | AtResume.
Inductive user := Reader (size : Z) (c : pc) | Writer (rest : list Z) (c : pc) | Closer (x : pend) | Freer | Gone.

Definition resumed (c : pc) : bool := match c with AtResume => true | _ => false end.

(** Users that consumed a unit of the semaphore and have not moved yet. *)
Definition is_resumed (x : pend) (u : user) : bool :=
  match x, u with
  | ReadEnd, Reader _ AtResume | WriteEnd, Writer _ AtResume => true
  | _, _ => false
  end.
Fixpoint resumers (x : pend) (us : list user) : Z :=
  match us with [] => 0 | u :: us => (if is_resumed x u then 1 else 0) + resumers x us end.

Lemma resumers_insert x us i u u' :
  us !! i = Some u ->
  resumers x (<[i := u']> us) = resumers x us - (if is_resumed x u then 1 else 0) + (if is_resumed x u' then 1 else 0).
Proof.
  revert i. induction us as [|v us IH]; [done|]. intros [|i] Hi; [injection Hi as ->; cbn; lia|].
  change (<[S i := u']> (v :: us)) with (v :: <[i := u']> us). cbn [resumers]. rewrite (IH i) by done. lia.
Qed.

Lemma resumers_nonneg x us : 0 <= resumers x us.
Proof. induction us as [|u us IH]; cbn; [lia|]. destruct (is_resumed x u); lia. Qed.

Lemma resumers_none x us : (forall u, u ∈ us -> is_resumed x u = false) -> resumers x us = 0.
Proof.
  induction us as [|u us IH]; cbn; [done|]. intros Hu. rewrite (Hu u), IH by set_solver. done.
Qed.

Section runs.
Context {H W : Type} `{!ObjHeap H} `{!TaskResources W}.
Implicit Types (d : fsd H) (us : list user).

(** The data, the users, and what was written and read so far. *)
Record channel := Channel { ch_data : fsd H; ch_users : list user; ch_in : list Z; ch_out : list Z }.

(** [m] run by a task of its own while no lock is held. *)
Definition section_run {A} (m : K H W A) d (r : A) d' : Prop :=
  exists e e', env_ok ∅ e /\ m d e = Some (r, d', e').

Inductive channel_step (a : Z) : channel -> channel -> Prop :=
| cs_read d us i o size c r d' l :
    us !! i = Some (Reader size c) -> c <> AtWait ->
    section_run (read_section a size (resumed c)) d r d' ->
    channel_step a (Channel d us l o)
      (Channel d' (<[i := match r with MustWait => Reader size AtWait | _ => Gone end]> us) l
         (match r with Moved b => o ++ b | _ => o end))
| cs_read_wait d us i o size d' l :
    us !! i = Some (Reader size AtWait) -> section_run (pipe_wait ReadEnd a) d tt d' ->
    channel_step a (Channel d us l o) (Channel d' (<[i := Reader size AtResume]> us) l o)
| cs_write d us i o rest c r d' l :
    us !! i = Some (Writer rest c) -> c <> AtWait ->
    section_run (write_section a rest (resumed c)) d r d' ->
    channel_step a (Channel d us l o)
      (Channel d' (<[i := match r with
                          | MustWait => Writer rest AtWait
                          | Moved k => if bool_decide (drop k rest = []) then Gone else Writer (drop k rest) AtEntry
                          | Closed => Gone
                          end]> us)
         (match r with Moved k => l ++ take k rest | _ => l end) o)
| cs_write_wait d us i o rest d' l :
    us !! i = Some (Writer rest AtWait) -> section_run (pipe_wait WriteEnd a) d tt d' ->
    channel_step a (Channel d us l o) (Channel d' (<[i := Writer rest AtResume]> us) l o)
| cs_close d us i o x r d' l :
    us !! i = Some (Closer x) -> section_run (close_section a x) d r d' ->
    channel_step a (Channel d us l o) (Channel d' (<[i := if r : bool then Freer else Gone]> us) l o)
| cs_free d us i o d' l :
    us !! i = Some Freer -> section_run (kfree a) d tt d' ->
    channel_step a (Channel d us l o) (Channel d' (<[i := Gone]> us) l o)
| cs_other d us o d' l :
    objs d' !! a = objs d !! a -> channel_step a (Channel d us l o) (Channel d' us l o).

Definition user_ok (u : user) : Prop :=
  match u with Reader size _ => 0 < size | Writer rest _ => rest <> [] | _ => True end.

Record channel_ok (a : Z) (s : channel) (p : pipe) : Prop := ChannelOk {
  co_pipe : objs (ch_data s) !! a = Some (OPipe p);
  co_ok : pipe_ok p;
  co_users : Forall user_ok (ch_users s);
  co_fifo : ch_in s = ch_out s ++ ring p;
  co_read : p_count p <= sem_count (p_read_sem p) + resumers ReadEnd (ch_users s);
  co_write : p_read_closed p = false ->
    PIPE_BUFFER_SIZE - p_count p <= sem_count (p_write_sem p) + resumers WriteEnd (ch_users s)
}.

Lemma section_det {A} (m : K H W A) d r d' r' d'' : section_run m d r d' -> runs ∅ m d r' d'' -> r = r' /\ d' = d''.
Proof.
  intros (e & e' & He & E) R. destruct (R e He) as (e2 & E2 & _). rewrite E in E2. by injection E2 as -> -> _.
Qed.

(** Moving a user keeps the others. *)
Lemma users_insert us i u : Forall user_ok us -> user_ok u -> Forall user_ok (<[i := u]> us).
Proof. intros. by apply Forall_insert. Qed.

Lemma bump_ge n c : 0 <= n -> 0 <= c <= INT32_MAX -> c <= bump n c /\ (bump n c = c + n \/ INT32_MAX <= bump n c).
Proof. unfold bump. lia. Qed.

Lemma read_step_ok a d us i o size c r d' l p :
  channel_ok a (Channel d us l o) p -> us !! i = Some (Reader size c) -> c <> AtWait ->
  section_run (read_section a size (resumed c)) d r d' ->
  exists p', channel_ok a (Channel d' (<[i := match r with MustWait => Reader size AtWait | _ => Gone end]> us) l
    (match r with Moved b => o ++ b | _ => o end)) p'.
Proof.
  intros [Hp Hok Hus Hf Hr Hw] Hi Hc Hs. cbn in *. pose proof (Forall_lookup_1 _ _ _ _ Hus Hi) as Hsize. cbn in Hsize.
  destruct (section_det _ _ _ _ _ _ Hs (read_section_runs ∅ a d p size (resumed c) Hp Hok ltac:(set_solver) Hsize)) as [-> ->].
  pose proof (resumers_insert ReadEnd us i (Reader size c)) as Hins1. pose proof (resumers_insert WriteEnd us i (Reader size c)) as Hins2.
  pose proof (resumers_nonneg ReadEnd (<[i := Reader size AtWait]> us)). pose proof (resumers_nonneg ReadEnd (<[i := Gone]> us)).
  destruct (po_rsem _ Hok) as [_ Hrs]. destruct (po_wsem _ Hok) as [_ Hws]. pose proof (po_count _ Hok) as Hcnt.
  destruct (p_count p =? 0) eqn:E; zify_bool.
  - exists p. destruct (p_write_closed p); (split; cbn; [done|done|by apply users_insert|done|lia|]);
      intros Hrc; rewrite Hins2 by done; cbn; specialize (Hw Hrc); lia.
  - destruct (taken_spec (Z.to_nat (Z.min size (p_count p))) p Hok) as (T1 & T2 & T3 & T4 & T5 & T6 & _); [lia|].
    set (p' := taken _ p) in *. exists p'. split; cbn; [apply with_pipe_lookup|done|by apply users_insert| | |].
    + rewrite Hf, T2, <- app_assoc. f_equal. pose proof (ring_length _ Hok) as Hl.
      rewrite <- (take_drop (Z.to_nat (Z.min size (p_count p))) (ring p)) at 1. f_equal.
      destruct (Z.le_gt_cases size (p_count p)); [by rewrite Z.min_l|]. rewrite Z.min_r, !take_ge by lia. done.
    + rewrite Hins1 by done. rewrite T3, T5. cbn. destruct c; cbn; lia.
    + rewrite T6. intros Hrc. specialize (Hw Hrc). rewrite Hins2 by done. cbn. rewrite T3, T4.
      destruct (bump_ge (Z.of_nat (Z.to_nat (Z.min size (p_count p)))) (sem_count (p_write_sem p))) as [B1 B2]; [lia|done|].
      pose proof (resumers_nonneg WriteEnd us). unfold PIPE_BUFFER_SIZE, INT32_MAX in *. lia.
Qed.

Lemma wait_step_ok a d us i o x d' l p u u' :
  channel_ok a (Channel d us l o) p -> us !! i = Some u -> is_resumed ReadEnd u = false -> is_resumed WriteEnd u = false ->
  user_ok u' -> is_resumed x u' = true -> section_run (pipe_wait x a) d tt d' ->
  exists p', channel_ok a (Channel d' (<[i := u']> us) l o) p'.
Proof.
  intros [Hp Hok Hus Hf Hr Hw] Hi Hu1 Hu2 Hu' Hx (e & e' & He & E). cbn in *.
  pose proof (resumers_insert ReadEnd us i u u' Hi) as Hins1. pose proof (resumers_insert WriteEnd us i u u' Hi) as Hins2.
  assert (Hsem : sem_ok (p_sem x p)) by (destruct x; apply Hok).
  destruct (decide (sem_count (p_sem x p) = 0)) as [Hz|Hz]; [by rewrite (runs_wait_blocks x a d p e Hp Hsem Hz He) in E|].
  destruct (runs_wait (W := W) ∅ x a d p Hp Hsem) with (e := e) as (e2 & E2 & _); [destruct Hsem; lia|done|].
  rewrite E in E2. injection E2 as -> _. eexists. split; cbn; [apply with_pipe_lookup| |by apply users_insert| | |].
  - destruct Hok as [H1 H2 H3 H4 H5 H6]. destruct Hsem as [S1 S2].
    destruct x; split; try done; (split; [done|]); cbn in *; lia.
  - by destruct x.
  - rewrite Hins1. destruct x, u'; cbn in *; try done; destruct c; cbn in *; try done; rewrite ?Hu1; lia.
  - intros Hrc. assert (p_read_closed p = false) by (by destruct x). rewrite Hins2.
    destruct x, u'; cbn in *; try done; destruct c; cbn in *; try done; rewrite ?Hu2; specialize (Hw ltac:(done)); lia.
Qed.

Lemma write_step_ok a d us i o rest c r d' l p :
  channel_ok a (Channel d us l o) p -> us !! i = Some (Writer rest c) -> c <> AtWait ->
  section_run (write_section a rest (resumed c)) d r d' ->
  exists p', channel_ok a (Channel d' (<[i := match r with
      | MustWait => Writer rest AtWait
      | Moved k => if bool_decide (drop k rest = []) then Gone else Writer (drop k rest) AtEntry
      | Closed => Gone end]> us) (match r with Moved k => l ++ take k rest | _ => l end) o) p'.
Proof.
  intros [Hp Hok Hus Hf Hr Hw] Hi Hc Hs. cbn in *. pose proof (Forall_lookup_1 _ _ _ _ Hus Hi) as Hrest. cbn in Hrest.
  destruct (section_det _ _ _ _ _ _ Hs (write_section_runs ∅ a d p rest (resumed c) Hp Hok ltac:(set_solver))) as [-> ->].
  pose proof (fun u => resumers_insert ReadEnd us i (Writer rest c) u Hi) as Hins1. pose proof (fun u => resumers_insert WriteEnd us i (Writer rest c) u Hi) as Hins2.
  destruct (po_rsem _ Hok) as [_ Hrs]. destruct (po_wsem _ Hok) as [_ Hws]. pose proof (po_count _ Hok) as Hcnt.
  pose proof (resumers_nonneg ReadEnd us) as Hnr. destruct rest as [|b rest]; [done|].
  set (full := p_count p =? PIPE_BUFFER_SIZE). destruct ((full || resumed c) && p_read_closed p) eqn:Es; cbn [orb].
  { exists p. split; cbn; [done|done|by apply users_insert|done|rewrite Hins1; cbn; lia|].
    intros Hrc. rewrite Hrc, andb_false_r in Es. done. }
  destruct full eqn:Ef; unfold full in Ef; zify_bool.
  - exists p. split; cbn; [done|done|by apply users_insert|done|rewrite Hins1; cbn; lia|].
    intros Hrc. pose proof (resumers_nonneg WriteEnd (<[i := Writer (b :: rest) AtWait]> us)). lia.
  - set (k := room p (b :: rest)). assert (Hk : Z.of_nat k = Z.min (PIPE_BUFFER_SIZE - p_count p) (Z.of_nat (length (b :: rest)))).
    { unfold k, room. lia. }
    assert (Hlk : length (take k (b :: rest)) = k) by (rewrite length_take; lia).
    assert (Hk1 : 1 <= Z.of_nat k) by (cbn [length] in Hk; lia).
    destruct (stored_spec (take k (b :: rest)) p Hok) as (T1 & T2 & T3 & T4 & T5 & T6 & _); [rewrite Hlk; lia|]. rewrite Hlk in *.
    set (p' := stored _ p) in *. exists p'. set (u' := if bool_decide _ then _ else _).
    assert (Hu' : user_ok u' /\ is_resumed ReadEnd u' = false /\ is_resumed WriteEnd u' = false) by (subst u'; case_bool_decide; done).
    destruct Hu' as (U1 & U2 & U3). split; cbn [ch_data ch_users ch_in ch_out]; [apply with_pipe_lookup|done|by apply users_insert| | |].
    + by rewrite Hf, T2, <- app_assoc.
    + rewrite Hins1, U2, T3, T4. cbn [is_resumed].
      destruct (bump_ge (Z.of_nat k) (sem_count (p_read_sem p))) as [B1 B2]; [lia|done|]. unfold PIPE_BUFFER_SIZE, INT32_MAX in *. lia.
    + rewrite T6. intros Hrc. specialize (Hw Hrc). rewrite Hins2, U3, T3, T5. destruct c; cbn [is_resumed]; lia.
Qed.

(** ** Closing an end *)

Lemma signals_runs held x a n d p :
  objs d !! a = Some (OPipe p) -> pipe_ok p ->
  runs held (pipe_signals x a n : K H W unit) d tt (with_pipe d a (Nat.iter n (signalled x) p)) /\ pipe_ok (Nat.iter n (signalled x) p).
Proof.
  revert d p. induction n as [|n IH]; intros d p Hp Hok; cbn [pipe_signals].
  { change (Nat.iter 0 (signalled x) p) with p. rewrite with_pipe_id by done. split; [apply runs_ret|done]. }
  rewrite Nat.iter_succ_r.
  destruct (IH (with_pipe d a (signalled x p)) (signalled x p)) as [R Hok']; [apply with_pipe_lookup|by apply signalled_ok|].
  split; [|done]. eapply runs_bind; [apply runs_signal; [done|destruct x; apply Hok]|]. cbn beta. by rewrite with_pipe_twice in R.
Qed.

(** What signalling and closing leave alone. *)
Record settled (p p' : pipe) : Prop := Settled {
  se_ok : pipe_ok p';
  se_ring : ring p' = ring p;
  se_count : p_count p' = p_count p;
  se_read : sem_count (p_read_sem p) <= sem_count (p_read_sem p');
  se_write : sem_count (p_write_sem p) <= sem_count (p_write_sem p');
  se_closed : p_read_closed p' = false -> p_read_closed p = false
}.

Lemma settled_signals x n p : pipe_ok p -> settled p (Nat.iter n (signalled x) p).
Proof.
  intros Hok. induction n as [|n [I1 I2 I3 I4 I5 I6]]; [by split|]. rewrite Nat.iter_succ.
  set (q := Nat.iter n _ p) in *. pose proof (signalled_ok x q I1) as Hq.
  destruct (po_rsem _ I1) as [_ ?], (po_wsem _ I1) as [_ ?]. split; [done|..]; destruct x; cbn; try done; unfold bump; lia.
Qed.

Lemma settled_trans p q r : settled p q -> settled q r -> settled p r.
Proof. intros [] []. split; [done|congruence|congruence|lia|lia|auto]. Qed.

Lemma runs_rewritten {A} held (m : K H W A) d a p q r d' :
  runs held m (with_pipe d a q) r d' -> runs held m (with_pipe (with_pipe d a p) a q) r d'.
Proof. by rewrite with_pipe_twice. Qed.

Lemma close_section_runs held a x d p :
  objs d !! a = Some (OPipe p) -> pipe_ok p -> LObj a ∉ held ->
  exists r p', runs held (close_section a x : K H W bool) d r (with_pipe d a p') /\ settled p p' /\
    (p_write_closed p' = p_write_closed p \/ x = WriteEnd).
Proof.
  intros Hp Hok Hh.
  set (p1 := match x with WriteEnd => p_set_ends (p_readers p) (u32 (p_writers p - 1)) p
                        | ReadEnd => p_set_ends (u32 (p_readers p - 1)) (p_writers p) p end).
  set (last := match x with WriteEnd => u32 (p_writers p - 1) =? 0 | ReadEnd => u32 (p_readers p - 1) =? 0 end).
  set (p2 := match x with WriteEnd => p_set_closed (p_read_closed p1) true p1 | ReadEnd => p_set_closed true (p_write_closed p1) p1 end).
  assert (S1 : settled p p1) by (destruct x; (split; [by destruct Hok; split|done..])).
  assert (S2 : settled p p2) by (destruct x; (split; [by destruct Hok; split|done..])).
  set (y := match x with WriteEnd => ReadEnd | ReadEnd => WriteEnd end).
  destruct (signals_runs ({[LObj a]} ∪ held) y a 10 (with_pipe d a p2) p2) as [R _]; [apply with_pipe_lookup|apply S2|].
  rewrite with_pipe_twice in R. set (p3 := Nat.iter 10 (signalled y) p2) in *.
  assert (S3 : settled p p3) by (eapply settled_trans; [exact S2|apply settled_signals, S2]).
  set (q := if last then p3 else p1). exists ((p_readers q =? 0) && (p_writers q =? 0)), q. split_and!.
  - unfold close_section. apply runs_lock; [done|]. rstep.
    eapply (runs_bind _ _ _ _ tt (with_pipe d a q)); [|eapply runs_bind; [by eapply runs_read; [apply with_pipe_lookup|]|cbn beta; apply runs_ret]].
    subst q last p2 p1 y. destruct x; (eapply runs_bind; [apply runs_put|]); cbn beta; (destruct (_ =? 0); [|apply runs_ret]);
      (eapply runs_bind; [by eapply runs_read; [apply with_pipe_lookup|]|]); cbn beta;
      (eapply runs_bind; [apply runs_put|]); cbn beta; apply runs_rewritten; exact R.
  - subst q. by destruct last.
  - subst q. destruct x; [left|by right]. destruct last; [|done]. subst p3 y. cbn. done.
Qed.

(** The last writer closes while a reader is there: the pipe stays. *)
Lemma close_last d a p :
  objs d !! a = Some (OPipe p) -> pipe_ok p -> p_readers p = 1 -> p_writers p = 1 ->
  exists p', runs ∅ (close_section a WriteEnd : K H W bool) d false (with_pipe d a p') /\ pipe_ok p'.
Proof.
  intros Hp Hok Hr Hw. set (p1 := p_set_ends (p_readers p) (u32 (p_writers p - 1)) p).
  set (p2 := p_set_closed (p_read_closed p1) true p1). assert (Hok2 : pipe_ok p2) by (by destruct Hok; split).
  destruct (signals_runs ({[LObj a]} ∪ ∅) ReadEnd a 10 (with_pipe d a p2) p2) as [R Hok3]; [apply with_pipe_lookup|done|].
  rewrite with_pipe_twice in R. set (p3 := Nat.iter 10 (signalled ReadEnd) p2) in *. exists p3. split; [|done].
  unfold close_section. apply runs_lock; [set_solver|]. rstep.
  eapply (runs_bind _ _ _ _ tt (with_pipe d a p3)).
  - replace (u32 (p_writers p - 1) =? 0) with true by (by rewrite Hw).
    eapply runs_bind; [apply runs_put|]. cbn beta. eapply runs_bind; [by eapply runs_read; [apply with_obj_lookup|]|]. cbn beta.
    eapply runs_bind; [apply runs_put|]. cbn beta. apply runs_rewritten. exact R.
  - cbn beta. eapply runs_bind; [by eapply runs_read; [apply with_pipe_lookup|]|]. cbn beta.
    replace (p_readers p3) with 1 by (by rewrite <- Hr). apply runs_ret.
Qed.

Lemma close_step_ok a d us i o x r d' l p :
  channel_ok a (Channel d us l o) p -> us !! i = Some (Closer x) -> section_run (close_section a x) d r d' ->
  exists p', channel_ok a (Channel d' (<[i := if r : bool then Freer else Gone]> us) l o) p'.
Proof.
  intros [Hp Hok Hus Hf Hr Hw] Hi Hs. cbn in *.
  destruct (close_section_runs ∅ a x d p Hp Hok) as (r' & p' & R & [S1 S2 S3 S4 S5 S6] & _); [set_solver|].
  destruct (section_det _ _ _ _ _ _ Hs R) as [-> ->]. exists p'.
  split; cbn; [apply with_pipe_lookup|done|by apply users_insert; [|destruct r']|congruence| |].
  - rewrite (resumers_insert _ _ _ _ _ Hi). destruct r'; cbn; lia.
  - intros Hrc. specialize (Hw (S6 Hrc)). rewrite (resumers_insert _ _ _ _ _ Hi). destruct r'; cbn; lia.
Qed.

(** ** After the pipe was freed *)

(** The bytes that were not read are lost. *)
Definition channel_gone (a : Z) (s : channel) : Prop :=
  objs (ch_data s) !! a = None /\ exists lost, ch_in s = ch_out s ++ lost /\ Z.of_nat (length lost) <= PIPE_BUFFER_SIZE.

Definition channel_inv (a : Z) (s : channel) : Prop := (exists p, channel_ok a s p) \/ channel_gone a s.

Lemma locked_gone {A} a (k : pipe -> K H W A) d e : objs d !! a = None ->
  with_lock (LObj a) (p ← read_obj as_pipe a; k p) d e = None.
Proof.
  intros Hg. unfold with_lock, lock_mutex, read_obj, mbind, K_bind, option_bind.
  destruct (mutex_lock _ _) as [[[t m] sc']|]; [|done]. destruct m as [m|]; [|done]. destruct t; [|done]. cbn. by rewrite Hg.
Qed.

Lemma section_gone {A} a (k : pipe -> K H W A) d r d' : objs d !! a = None ->
  section_run (with_lock (LObj a) (p ← read_obj as_pipe a; k p)) d r d' -> False.
Proof. intros Hg (e & e' & _ & E). by rewrite locked_gone in E. Qed.

Lemma wait_gone a x d r d' : objs d !! a = None -> section_run (pipe_wait x a : K H W _) d r d' -> False.
Proof. intros Hg (e & e' & _ & E). unfold pipe_wait in E. by rewrite Hg in E. Qed.

Lemma free_step_ok a d us i o d' l p :
  channel_ok a (Channel d us l o) p -> us !! i = Some Freer -> section_run (kfree a : K H W _) d tt d' ->
  channel_inv a (Channel d' (<[i := Gone]> us) l o).
Proof.
  intros [Hp Hok Hus Hf Hr Hw] Hi (e & e' & _ & E). cbn in *. unfold kfree in E. case_if_in E.
  - injection E as <- <-. left. exists p. split; cbn; [done|done|by apply users_insert|done|..];
      rewrite (resumers_insert _ _ _ _ _ Hi); cbn; [lia|]. intros Hrc. specialize (Hw Hrc). lia.
  - rewrite Hp in E. cbn [mbind option_bind] in E. injection E as <- _. right. split; [cbn; apply lookup_delete_eq|].
    exists (ring p). split; [done|]. rewrite ring_length by done. apply (po_count _ Hok).
Qed.

Lemma gone_step a s s' : channel_gone a s -> channel_step a s s' -> channel_gone a s'.
Proof.
  intros [Hg Hl] Hst. destruct Hst as [d us i o size c r d' l Hi Hc Hs|d us i o size d' l Hi Hs|d us i o rest c r d' l Hi Hc Hs
    |d us i o rest d' l Hi Hs|d us i o x r d' l Hi Hs|d us i o d' l Hi Hs|d us o d' l Hs]; cbn in *.
  - by apply section_gone in Hs.
  - by apply wait_gone in Hs.
  - by apply section_gone in Hs.
  - by apply wait_gone in Hs.
  - by apply section_gone in Hs.
  - destruct Hs as (e & e' & _ & E). unfold kfree in E. rewrite Hg in E. case_if_in E; [|done]. by injection E as <- <-.
  - split; [cbn; by rewrite Hs|done].
Qed.

Lemma channel_step_inv a s s' : channel_inv a s -> channel_step a s s' -> channel_inv a s'.
Proof.
  intros [[p Hok]|Hg] Hst; [|right; by apply (gone_step a s)].
  destruct Hst as [d us i o size c r d' l Hi Hc Hs|d us i o size d' l Hi Hs|d us i o rest c r d' l Hi Hc Hs
    |d us i o rest d' l Hi Hs|d us i o x r d' l Hi Hs|d us i o d' l Hi Hs|d us o d' l Hs].
  - left. by eapply read_step_ok.
  - left. eapply (wait_step_ok a d us i o ReadEnd d' l p (Reader size AtWait)); try done.
    exact (Forall_lookup_1 _ _ _ _ (co_users _ _ _ Hok) Hi).
  - left. by eapply write_step_ok.
  - left. eapply (wait_step_ok a d us i o WriteEnd d' l p (Writer rest AtWait)); try done.
    exact (Forall_lookup_1 _ _ _ _ (co_users _ _ _ Hok) Hi).
  - left. by eapply close_step_ok.
  - by eapply free_step_ok.
  - left. exists p. destruct Hok as [O1 O2 O3 O4 O5 O6]. split; try done. cbn in *. congruence.
Qed.

Lemma channel_run_inv a s s' : channel_inv a s -> rtc (channel_step a) s s' -> channel_inv a s'.
Proof. intros Hi Hr. induction Hr as [|s1 s2 s3 H1 _ IH]; [done|]. by apply IH, (channel_step_inv a s1). Qed.

Lemma new_pipe_ok : pipe_ok new_pipe.
Proof. split; cbn [new_pipe p_buffer p_read_pos p_write_pos p_count p_read_sem p_write_sem]; [by rewrite length_replicate|done|done|done|by split|by split]. Qed.

(** A fresh pipe with its users at the start. *)
Definition channel_start (a : Z) (s : channel) : Prop :=
  objs (ch_data s) !! a = Some (OPipe new_pipe) /\ ch_in s = [] /\ ch_out s = [] /\
  Forall (fun u => user_ok u /\ is_resumed ReadEnd u = false /\ is_resumed WriteEnd u = false) (ch_users s).

Lemma channel_start_ok a s : channel_start a s -> channel_ok a s new_pipe.
Proof.
  intros (Hp & Hi & Ho & Hu). split; [done|apply new_pipe_ok| |by rewrite Hi, Ho|..].
  - apply (list.Forall_impl _ _ _ Hu). by intros u (? & _).
  - cbn. pose proof (resumers_nonneg ReadEnd (ch_users s)). lia.
  - intros _. cbn. pose proof (resumers_nonneg WriteEnd (ch_users s)). lia.
Qed.

Lemma resumed_exists x us : 0 < resumers x us -> exists u, u ∈ us /\ is_resumed x u = true.
Proof.
  intros Hr. destruct (decide (Exists (fun u => is_resumed x u = true) us)) as [He|Hn].
  - by apply list.Exists_exists in He.
  - rewrite resumers_none in Hr; [lia|]. intros u Hu. destruct (is_resumed x u) eqn:E; [|done].
    exfalso. apply Hn, list.Exists_exists. by exists u.
Qed.

(** C14: A pipe is a bounded FIFO channel: in every interleaving of the
    sections of any readers, writers and closers from a fresh pipe, as long as
    the pipe has not been freed, what was written is what was read followed by
    the at most 4096 bytes still in the ring, and every reader and writer that
    is not waiting can make its section.  While there are bytes, a reader that
    now calls [semaphore_wait] gets through at once, or another reader has
    already got through and not yet read; likewise for a writer while there
    is space and the read end is open.  (A task that already sleeps in the
    semaphore is not spoken of.)  Once [pipe_close] has freed the pipe, what
    was read is still a prefix of what was written, and the at most 4096 bytes
    that are left are lost. *)
Theorem pipe_fifo a s s' :
  channel_start a s -> rtc (channel_step a) s s' ->
  channel_gone a s' \/
  exists p, objs (ch_data s') !! a = Some (OPipe p) /\
    ch_in s' = ch_out s' ++ ring p /\ Z.of_nat (length (ring p)) <= PIPE_BUFFER_SIZE /\
    (forall size c, Reader size c ∈ ch_users s' -> exists r d', runs ∅ (read_section a size (resumed c) : K H W _) (ch_data s') r d') /\
    (forall rest c, Writer rest c ∈ ch_users s' -> exists r d', runs ∅ (write_section a rest (resumed c) : K H W _) (ch_data s') r d') /\
    (ring p <> [] ->
       (exists d', runs ∅ (pipe_wait ReadEnd a : K H W _) (ch_data s') tt d') \/
       exists size, Reader size AtResume ∈ ch_users s') /\
    (Z.of_nat (length (ring p)) < PIPE_BUFFER_SIZE -> p_read_closed p = false ->
       (exists d', runs ∅ (pipe_wait WriteEnd a : K H W _) (ch_data s') tt d') \/
       exists rest, Writer rest AtResume ∈ ch_users s').
Proof.
  intros Hs Hr. destruct (channel_run_inv a s s' ltac:(left; eexists; exact (channel_start_ok _ _ Hs)) Hr) as [[p [O1 O2 O3 O4 O5 O6]]|Hg]; [right|by left].
  exists p. pose proof (ring_length _ O2) as Hl. pose proof (po_count _ O2) as Hc. split_and!; [done|done|lia|..].
  - intros size c Hin. eexists _, _. apply (read_section_runs ∅ a (ch_data s') p); [done|done|set_solver|].
    exact (proj1 (list.Forall_forall _ _) O3 _ Hin).
  - intros rest c Hin. eexists _, _. apply (write_section_runs ∅ a (ch_data s') p); [done|done|set_solver].
  - intros Hne. assert (Hlen : (0 < length (ring p))%nat) by (destruct (ring p); [done|cbn; lia]).
    destruct (Z.lt_ge_cases 0 (sem_count (p_read_sem p))) as [Hsem|Hsem].
    + left. eexists. apply (runs_wait ∅ ReadEnd a _ p O1 (po_rsem _ O2) Hsem).
    + right. destruct (resumed_exists ReadEnd (ch_users s')) as (u & Hu & E); [lia|].
      destruct u as [size []| | | |]; try done. by exists size.
  - intros Hlt Hrc. specialize (O6 Hrc). destruct (Z.lt_ge_cases 0 (sem_count (p_write_sem p))) as [Hsem|Hsem].
    + left. eexists. apply (runs_wait ∅ WriteEnd a _ p O1 (po_wsem _ O2) Hsem).
    + right. destruct (resumed_exists WriteEnd (ch_users s')) as (u & Hu & E); [lia|].
      destruct u as [|rest []| | |]; try done. by exists rest.
Qed.

End runs.
