(* ===== verification/Ramfs.v ===== *)
(** * The RAM file system

    Models src/fs/ramfs.c.  A directory's linked list of entries is the list
    of its entries, head first; file data is a block of bytes in the heap.  A
    copy that would leave its block is undefined.  Names longer than 127
    characters are cut where the code's [strncpy] cuts them. *)

From S2P Require Import Prelude Spinlock Task Sync FsState.

(** [int] results. *)
Abbreviation ok := 0.
Abbreviation err := (-1).

(** [strncpy(name, s, 127); name[127] = 0]. *)
Definition cut_name (s : str) : str := take 127 s.

(** [l] with [b] stored from index [i] on. *)
Definition splice (i : nat) (b l : list Z) : list Z := take i l ++ b ++ drop (i + length b) l.

(** Directory entry types (include/types.h). *)
Definition dtype (t : fs_node_type) : Z :=
  match t with
  | FS_FILE => 8 | FS_DIRECTORY => 4 | FS_CHARDEVICE => 2
  | FS_BLOCKDEVICE => 6 | FS_PIPE => 1 | FS_SYMLINK => 10
  end.

Record dirent := Dirent { d_ino : Z; d_off : Z; d_type : Z; d_name : str }.

Definition new_node (name : str) (inode : Z) (type : fs_node_type) (permissions impl : Z) (ops : node_ops) : fs_node :=
  FsNode (cut_name name) inode type 0 permissions 0 0 0 impl 0 0 ops.

(** ** Directory entries *)

Definition named (name : str) (x : ramfs_dirent) : bool := bool_decide (re_name x = name).

Fixpoint find_name (name : str) (l : list ramfs_dirent) : option ramfs_dirent :=
  match l with
  | [] => None
  | x :: l => if named name x then Some x else find_name name l
  end.

Definition ramfs_find_entry (dir : ramfs_dir) (name : str) : option ramfs_dirent :=
  find_name name (rd_entries dir).

(** The list without its first entry of that name. *)
Fixpoint unlink_name (name : str) (l : list ramfs_dirent) : list ramfs_dirent :=
  match l with
  | [] => []
  | x :: l => if named name x then l else x :: unlink_name name l
  end.

(** The list with the name of that entry overwritten. *)
Fixpoint rename_entry (old new : str) (l : list ramfs_dirent) : list ramfs_dirent :=
  match l with
  | [] => []
  | x :: l =>
      if named old x then RamfsDirent (cut_name new) (re_node x) (re_addr x) :: l
      else x :: rename_entry old new l
  end.

Section ramfs.
Context {H W : Type} `{!ObjHeap H} `{!TaskResources W}.
Abbreviation K := (K H W).

Definition ramfs_add_entry (dir : Z) (name : str) (node : Z) : K Z :=
  r ← read_obj as_dir dir;
  match ramfs_find_entry r name with
  | Some _ => mret err
  | None =>
      entry ← kmalloc RDirent;
      if entry =? 0 then mret err
      else
        _ ← put entry ODirent;
        r ← read_obj as_dir dir;
        _ ← put dir (ODir (RamfsDir (RamfsDirent (cut_name name) node entry :: rd_entries r) (u32 (rd_count r + 1))));
        mret ok
  end.

Definition ramfs_remove_entry (dir : Z) (name : str) : K Z :=
  r ← read_obj as_dir dir;
  match ramfs_find_entry r name with
  | None => mret err
  | Some x =>
      _ ← put dir (ODir (RamfsDir (unlink_name name (rd_entries r)) (rd_count r)));
      _ ← kfree (re_addr x);
      r ← read_obj as_dir dir;
      _ ← put dir (ODir (RamfsDir (rd_entries r) (u32 (rd_count r - 1))));
      mret ok
  end.

(** [next_inode++] under its spinlock. *)
Definition alloc_inode : K Z :=
  fun d e => w ← grab (inode_alloc_lock d);
    Some (next_inode d, set_inode d (u32 (next_inode d + 1)) (drop_lock w), e).

(** ** Files *)

(** [memcpy] out of, and into, a block of data; undefined outside it. *)
Definition copy_out (data offset count : Z) : K (list Z) :=
  l ← read_obj as_bytes data;
  if offset + count <=? Z.of_nat (length l)
  then mret (take (Z.to_nat count) (drop (Z.to_nat offset) l)) else undefined.
Definition copy_in (data offset : Z) (b : list Z) : K unit :=
  if bool_decide (b = []) then mret tt
  else
    l ← read_obj as_bytes data;
    if offset + Z.of_nat (length b) <=? Z.of_nat (length l)
    then put data (OBytes (splice (Z.to_nat offset) b l)) else undefined.

(** The result is the count and the bytes stored in [buffer]. *)
Definition ramfs_read (node offset size : Z) : K (Z * list Z) :=
  n ← read_obj as_node node;
  if negb (bool_decide (fn_type n = FS_FILE)) then mret (0, [])
  else if fn_impl n =? 0 then mret (0, [])
  else with_lock (LObj (fn_impl n))
    (f ← read_obj as_file (fn_impl n);
     if rf_data f =? 0 then mret (0, [])
     else if rf_size f <=? offset then mret (0, [])
     else
       let to_read := if rf_size f <? u32 (offset + size) then rf_size f - offset else size in
       b ← copy_out (rf_data f) offset to_read;
       mret (to_read, b)).

(** The growth of the data block in [ramfs_write]; false when out of memory. *)
Definition ramfs_grow (file : Z) (new_size : Z) : K bool :=
  f ← read_obj as_file file;
  if rf_capacity f <? new_size then
    let new_capacity := Z.land (u32 (new_size + 4095)) 0xFFFFF000 in
    new_data ← kmalloc (RBytes new_capacity);
    if new_data =? 0 then mret false
    else
      _ ← (if negb (rf_data f =? 0) && (0 <? rf_size f) then
             old ← copy_out (rf_data f) 0 (rf_size f); copy_in new_data 0 old
           else mret tt);
      _ ← kfree (rf_data f);
      _ ← put file (OFile (RamfsFile new_data (rf_size f) new_capacity));
      mret true
  else mret true.

(** [size] is the length of [buffer]. *)
Definition ramfs_write (node offset : Z) (buffer : list Z) : K Z :=
  let size := Z.of_nat (length buffer) in
  n ← read_obj as_node node;
  if negb (bool_decide (fn_type n = FS_FILE)) then mret 0
  else if fn_impl n =? 0 then mret 0
  else with_lock (LObj (fn_impl n))
    (let new_size := u32 (offset + size) in
     grown ← ramfs_grow (fn_impl n) new_size;
     if negb grown then mret 0
     else
       f ← read_obj as_file (fn_impl n);
       _ ← copy_in (rf_data f) offset buffer;
       _ ← (if rf_size f <? new_size then
              _ ← put (fn_impl n) (OFile (RamfsFile (rf_data f) new_size (rf_capacity f)));
              n ← read_obj as_node node;
              put node (ONode (n_set_size new_size n))
            else mret tt);
       mret size).

Definition ramfs_open (node flags : Z) : K unit := mret tt.
Definition ramfs_close (node : Z) : K unit := mret tt.

(** ** Directories *)

(** The first two tests of every directory operation; [NULL] [impl] fails. *)
Definition dir_impl (node : Z) : K (option Z) :=
  n ← read_obj as_node node;
  mret (if bool_decide (fn_type n = FS_DIRECTORY) && negb (fn_impl n =? 0) then Some (fn_impl n) else None).

Definition ramfs_readdir (node index : Z) : K (option dirent) :=
  impl ← dir_impl node;
  match impl with
  | None => mret None
  | Some dir => with_lock (LObj dir)
      (r ← read_obj as_dir dir;
       match rd_entries r !! Z.to_nat index with
       | None => mret None
       | Some x =>
           n ← read_obj as_node (re_node x);
           mret (Some (Dirent (fn_inode n) (u32 (index + 1)) (dtype (fn_type n)) (take 255 (re_name x))))
       end)
  end.

Definition ramfs_finddir (node : Z) (name : str) : K Z :=
  impl ← dir_impl node;
  match impl with
  | None => mret 0
  | Some dir =>
      result ← with_lock (LObj dir)
        (r ← read_obj as_dir dir;
         mret (match ramfs_find_entry r name with Some x => re_node x | None => 0 end));
      _ ← (if result =? 0 then mret tt else vfs_ref_node result);
      mret result
  end.

(** The common part of [ramfs_create_file] and [ramfs_mkdir], with the
    directory locked: a node and its private data [o] are allocated,
    initialised and entered; every failure frees what was allocated. *)
Definition new_child (dir : Z) (name : str) (req : request) (o : obj) (type : fs_node_type)
    (permissions : Z) (ops : node_ops) : K Z :=
  r ← read_obj as_dir dir;
  match ramfs_find_entry r name with
  | Some _ => mret err
  | None =>
      new ← kmalloc RNode;
      if new =? 0 then mret err
      else
        impl ← kmalloc req;
        if impl =? 0 then _ ← kfree new; mret err
        else
          _ ← put impl o;
          _ ← mutex_init_at (LObj impl);
          inode ← alloc_inode;
          _ ← put new (ONode (new_node name inode type permissions impl ops));
          r ← ramfs_add_entry dir name new;
          if negb (r =? 0) then _ ← kfree impl; _ ← kfree new; mret err
          else mret ok
  end.

Definition ramfs_create_file (node : Z) (name : str) : K Z :=
  impl ← dir_impl node;
  match impl with
  | None => mret err
  | Some dir => with_lock (LObj dir)
      (new_child dir name RFile (OFile (RamfsFile 0 0 0)) FS_FILE
         (Z.lor FS_PERM_READ FS_PERM_WRITE) OpsRamFile)
  end.

Definition ramfs_mkdir (node : Z) (name : str) (permissions : Z) : K Z :=
  impl ← dir_impl node;
  match impl with
  | None => mret err
  | Some parent_dir => with_lock (LObj parent_dir)
      (new_child parent_dir name RDir (ODir (RamfsDir [] 0)) FS_DIRECTORY permissions OpsRamDir)
  end.

Definition ramfs_rename (node : Z) (old_name new_name : str) : K Z :=
  impl ← dir_impl node;
  match impl with
  | None => mret err
  | Some dir =>
      if bool_decide (old_name = []) || bool_decide (new_name = []) then mret err
      else if bool_decide (old_name = new_name) then mret ok
      else with_lock (LObj dir)
        (r ← read_obj as_dir dir;
         match ramfs_find_entry r old_name with
         | None => mret err
         | Some x =>
             match ramfs_find_entry r new_name with
             | Some _ => mret err
             | None =>
                 _ ← put dir (ODir (RamfsDir (rename_entry old_name new_name (rd_entries r)) (rd_count r)));
                 n ← read_obj as_node (re_node x);
                 _ ← put (re_node x) (ONode (n_set_name (cut_name new_name) n));
                 mret ok
             end
         end)
  end.

(** What [ramfs_unlink] frees of a file. *)
Definition free_file (file : Z) : K unit :=
  if file =? 0 then mret tt
  else
    f ← read_obj as_file file;
    _ ← kfree (rf_data f);
    kfree file.

(** The private data of the node to be unlinked; false for a directory that
    is not empty. *)
Definition free_impl (n : fs_node) : K bool :=
  match fn_type n with
  | FS_DIRECTORY =>
      if fn_impl n =? 0 then mret true
      else
        t ← read_obj as_dir (fn_impl n);
        if 0 <? rd_count t then mret false
        else _ ← kfree (fn_impl n); mret true
  | FS_FILE => _ ← free_file (fn_impl n); mret true
  | _ => mret true
  end.

Definition ramfs_unlink (node : Z) (name : str) : K Z :=
  impl ← dir_impl node;
  match impl with
  | None => mret err
  | Some dir => with_lock (LObj dir)
      (r ← read_obj as_dir dir;
       match ramfs_find_entry r name with
       | None => mret err
       | Some x =>
           let target := re_node x in
           n ← read_obj as_node target;
           freed ← free_impl n;
           if negb freed then mret err
           else
             _ ← ramfs_remove_entry dir name;
             _ ← kfree target;
             mret ok
       end)
  end.

(** [name] is [None] for [NULL]. *)
Definition ramfs_create (name : option str) : K Z :=
  root ← kmalloc RNode;
  if root =? 0 then mret 0
  else
    root_dir ← kmalloc RDir;
    if root_dir =? 0 then _ ← kfree root; mret 0
    else
      _ ← put root_dir (ODir (RamfsDir [] 0));
      _ ← mutex_init_at (LObj root_dir);
      inode ← alloc_inode;
      _ ← put root (ONode (new_node (default [47] name) inode FS_DIRECTORY
                             (Z.lor (Z.lor FS_PERM_READ FS_PERM_WRITE) FS_PERM_EXEC) root_dir OpsRamDir));
      mret root.

Definition ramfs_init : K Z :=
  _ ← modify (fun d => set_inode d (next_inode d) (default 0 (spinlock_init (Some (inode_alloc_lock d)))));
  ramfs_create (Some [47]).

End ramfs.
