(* ===== verification/Vfs.v ===== *)
(** * The virtual file system

    Models src/fs/vfs.c.  The operation pointers of a node are those its
    creator installs ([node_ops]); a pointer that creator leaves [NULL] is a
    branch that returns at once.  A path is its characters (47 is the slash,
    46 the dot); path pointers are not [NULL] here, the system calls check.
    The loops over a path have the path's length as fuel: each turn consumes
    a character. *)

From S2P Require Import Prelude Spinlock Task Sync FsState Pipe Ramfs.

Definition MAX_MOUNTS : Z := 32.
Definition MAX_MOUNT_PATH : Z := 256.

Definition slash : str := [47].
Definition dot : str := [46].
Definition dotdot : str := [46; 46].

(** ** Paths *)

(** At most [n] characters up to a slash, and what follows. *)
Fixpoint span_token (n : nat) (path : str) : str * str :=
  match n, path with
  | S n, c :: rest =>
      if c =? 47 then ([], path)
      else let '(token, rest) := span_token n rest in (c :: token, rest)
  | _, _ => ([], path)
  end.

(** A component that does not end where the token buffer does. *)
Definition too_long (rest : str) : bool := match rest with c :: _ => negb (c =? 47) | [] => false end.

Fixpoint skip_slashes (path : str) : str :=
  match path with c :: rest => if c =? 47 then skip_slashes rest else path | [] => [] end.

(** The index of the last slash. *)
Fixpoint last_slash (path : str) : option nat :=
  match path with
  | [] => None
  | c :: rest =>
      match last_slash rest with
      | Some i => Some (S i)
      | None => if c =? 47 then Some 0%nat else None
      end
  end.

(** The parent's path and the last name; [None] when the parent's path does
    not fit its buffer. *)
Definition split_path (path : str) : option (str * str) :=
  match last_slash path with
  | None => Some (slash, path)
  | Some O => Some (slash, drop 1 path)
  | Some len => if 256 <=? Z.of_nat len then None else Some (take len path, drop (S len) path)
  end.

Section vfs.
Context {H W : Type} `{!ObjHeap H} `{!TaskResources W}.
Abbreviation K := (K H W).

Definition vfs_init : K unit :=
  _ ← modify (fun d => set_mounts (set_root d 0) []);
  _ ← mutex_init_at LMount;
  mutex_init_at LRefcount.

Fixpoint find_mount (path : str) (l : list (str * Z)) : Z :=
  match l with
  | [] => 0
  | (p, root) :: l => if bool_decide (p = path) then root else find_mount path l
  end.

Definition vfs_get_mounted_root_by_path (path : str) : K Z :=
  with_lock LMount (l ← gets mount_table; mret (find_mount path l)).

Definition vfs_get_root : K Z := gets fs_root.
Definition vfs_set_root (root : Z) : K unit := modify (fun d => set_root d root).

(** ** Operations through a node *)

Definition vfs_read (node offset size : Z) : K (Z * list Z) :=
  if node =? 0 then mret (0, [])
  else
    n ← read_obj as_node node;
    match fn_ops n with
    | OpsRamFile => ramfs_read node offset size
    | OpsPipeRead => pipe_read node size
    | OpsRamDir | OpsPipeWrite => mret (0, [])
    end.

Definition vfs_write (node offset : Z) (buffer : list Z) : K Z :=
  if node =? 0 then mret 0
  else
    n ← read_obj as_node node;
    match fn_ops n with
    | OpsRamFile => ramfs_write node offset buffer
    | OpsPipeWrite => pipe_write node buffer
    | OpsRamDir | OpsPipeRead => mret 0
    end.

Definition vfs_open (node flags : Z) : K unit :=
  if node =? 0 then mret tt
  else
    n ← read_obj as_node node;
    match fn_ops n with
    | OpsRamFile => ramfs_open node flags
    | _ => mret tt
    end.

Definition vfs_close (node : Z) : K unit :=
  if node =? 0 then mret tt
  else
    n ← read_obj as_node node;
    match fn_ops n with
    | OpsRamFile => ramfs_close node
    | OpsPipeRead | OpsPipeWrite => pipe_close node
    | OpsRamDir => mret tt
    end.

Definition vfs_readdir (node index : Z) : K (option dirent) :=
  if node =? 0 then mret None
  else
    n ← read_obj as_node node;
    if negb (bool_decide (fn_type n = FS_DIRECTORY)) then mret None
    else match fn_ops n with
         | OpsRamDir => ramfs_readdir node index
         | _ => mret None
         end.

Definition vfs_finddir (node : Z) (name : str) : K Z :=
  if node =? 0 then mret 0
  else
    n ← read_obj as_node node;
    if negb (bool_decide (fn_type n = FS_DIRECTORY)) then mret 0
    else if bool_decide (name = dot) then mret node
    else if bool_decide (name = dotdot) then
      parent ← (match fn_ops n with OpsRamDir => ramfs_finddir node dotdot | _ => mret 0 end);
      if negb (parent =? 0) then mret parent
      else
        root ← gets fs_root;
        if node =? root then mret root else mret 0
    else match fn_ops n with
         | OpsRamDir => ramfs_finddir node name
         | _ => mret 0
         end.

(** ** Path resolution *)

(** The node the walk leaves, unless it is the one it started from. *)
Definition release_unless (base current : Z) : K unit :=
  if current =? base then mret tt else vfs_release_node current.

(** The walk from [base] along [path].  Under a mount point ([mounted]) two
    of the failing branches release the node even when it is the base. *)
Fixpoint walk (fuel : nat) (mounted : bool) (base current : Z) (path : str) : K Z :=
  match path with
  | [] => mret current
  | _ :: _ =>
      match fuel with
      | O => undefined
      | S fuel =>
          let fails := if mounted then vfs_release_node current else release_unless base current in
          let '(token, rest) := span_token 127 path in
          if too_long rest then _ ← fails; mret 0
          else
            let rest := skip_slashes rest in
            if bool_decide (token = []) then walk fuel mounted base current rest
            else if bool_decide (token = dot) then walk fuel mounted base current rest
            else if bool_decide (token = dotdot) then
              parent ← vfs_finddir current dotdot;
              if parent =? 0 then _ ← fails; mret 0
              else _ ← release_unless base current; walk fuel mounted base parent rest
            else
              next ← vfs_finddir current token;
              if next =? 0 then _ ← release_unless base current; mret 0
              else _ ← release_unless base current; walk fuel mounted base next rest
      end
  end.

(** [path] continues after [mount_path] with a slash or ends there. *)
Definition under (mount_path path : str) : bool :=
  bool_decide (take (length mount_path) path = mount_path) &&
  match path !! length mount_path with Some c => c =? 47 | None => true end.

Fixpoint mount_scan (l : list (str * Z)) (path : str) : K (option Z) :=
  match l with
  | [] => mret None
  | (mount_path, root) :: l =>
      if under mount_path path then
        match path !! length mount_path with
        | None => mret (Some root)
        | Some _ =>
            let remaining := drop (S (length mount_path)) path in
            node ← walk (length remaining) true root root remaining; mret (Some node)
        end
      else mount_scan l path
  end.

Definition strip_slash (path : str) : str :=
  match path with c :: rest => if c =? 47 then rest else path | [] => [] end.

Definition vfs_path_to_node (path : str) : K Z :=
  root ← gets fs_root;
  if root =? 0 then mret 0
  else if bool_decide (path = slash) then mret root
  else
    mounted ← vfs_get_mounted_root_by_path path;
    if negb (mounted =? 0) then mret mounted
    else
      found ← with_lock LMount (l ← gets mount_table; mount_scan l path);
      match found with
      | Some node => mret node
      | None => let path := strip_slash path in walk (length path) false root root path
      end.

(** ** Operations on paths *)

(** The parent directory of a path that ends in a name: [None] when there is
    no such directory (and then its reference is already given back). *)
Definition parent_dir (parent_path : str) : K (option (Z * node_ops)) :=
  parent ← vfs_path_to_node parent_path;
  if parent =? 0 then _ ← vfs_release_node parent; mret None
  else
    n ← read_obj as_node parent;
    if negb (bool_decide (fn_type n = FS_DIRECTORY)) then _ ← vfs_release_node parent; mret None
    else mret (Some (parent, fn_ops n)).

(** [op] on the parent directory, when the file system has it. *)
Definition on_parent (parent_path : str) (op : Z -> K Z) : K Z :=
  p ← parent_dir parent_path;
  match p with
  | None => mret err
  | Some (parent, OpsRamDir) => result ← op parent; _ ← vfs_release_node parent; mret result
  | Some (parent, _) => _ ← vfs_release_node parent; mret err
  end.

Definition vfs_create (path : str) : K Z :=
  root ← gets fs_root;
  if root =? 0 then mret err
  else match split_path path with
       | None => mret err
       | Some (parent_path, file_name) => on_parent parent_path (fun parent => ramfs_create_file parent file_name)
       end.

Definition vfs_mkdir (path : str) (permissions : Z) : K Z :=
  root ← gets fs_root;
  if root =? 0 then mret err
  else match split_path path with
       | None => mret err
       | Some (parent_path, dir_name) => on_parent parent_path (fun parent => ramfs_mkdir parent dir_name permissions)
       end.

Definition vfs_unlink (path : str) : K Z :=
  root ← gets fs_root;
  if root =? 0 then mret err
  else if bool_decide (path = slash) then mret err
  else match split_path path with
       | None => mret err
       | Some (parent_path, file_name) => on_parent parent_path (fun parent => ramfs_unlink parent file_name)
       end.

(** No node of the model has a [truncate] operation of its own. *)
Definition vfs_truncate (node new_size : Z) : K Z :=
  if node =? 0 then mret err
  else
    n ← read_obj as_node node;
    if negb (bool_decide (fn_type n = FS_FILE)) then mret err
    else _ ← put node (ONode (n_set_size new_size n)); mret ok.

Definition vfs_rename (oldpath newpath : str) : K Z :=
  root ← gets fs_root;
  if root =? 0 then mret err
  else if bool_decide (oldpath = slash) || bool_decide (newpath = slash) then mret err
  else match split_path oldpath, split_path newpath with
       | Some (old_parent, old_name), Some (new_parent, new_name) =>
           if negb (bool_decide (old_parent = new_parent)) then mret err
           else on_parent old_parent (fun parent => ramfs_rename parent old_name new_name)
       | _, _ => mret err
       end.

Definition vfs_mount (path : str) (root : Z) : K Z :=
  r ← gets fs_root;
  if (root =? 0) || (r =? 0) then mret err
  else
    mount_point ← vfs_path_to_node path;
    if mount_point =? 0 then mret err
    else
      n ← read_obj as_node mount_point;
      if negb (bool_decide (fn_type n = FS_DIRECTORY)) then _ ← vfs_release_node mount_point; mret err
      else
        _ ← vfs_release_node mount_point;
        with_lock LMount
          (l ← gets mount_table;
           if existsb (fun '(p, _) => bool_decide (p = path)) l then mret err
           else if MAX_MOUNTS <=? Z.of_nat (length l) then mret err
           else
             _ ← modify (fun d => set_mounts d (l ++ [(take (Z.to_nat (MAX_MOUNT_PATH - 1)) path, root)]));
             mret ok).

End vfs.
