(* ===== verification/FsCalls.v ===== *)
(** * File descriptors and the file system calls

    Models src/kernel/fd_table.c and src/kernel/syscalls/fs.c. *)

From S2P Require Import Prelude Spinlock Task Sync FsState Pipe Ramfs Vfs.

(** ** Descriptor tables

    Models src/kernel/fd_table.c.  A table is an object with its spinlock
    word and [MAX_FDS] entries.  [fd_table_get] returns a pointer into the
    table: here whether there is an entry, which the caller then reads and
    writes in place with [get_entry] and [set_entry]. *)

Definition MAX_FDS : Z := 512.

Definition no_entry : fd_entry := FdEntry 0 0 0 false.
Definition e_set_offset (v : Z) (x : fd_entry) : fd_entry := FdEntry (fe_node x) v (fe_flags x) (fe_in_use x).

(** The first entry not in use. *)
Fixpoint first_free (l : list fd_entry) : option nat :=
  match l with
  | [] => None
  | x :: l => if fe_in_use x then S <$> first_free l else Some 0%nat
  end.

Section fds.
Context {H W : Type} `{!ObjHeap H} `{!TaskResources W}.
Abbreviation K := (K H W).

(** Memory at an address that was allocated, whatever it holds. *)
Definition touch (p : Z) : K obj := read_obj Some p.

Definition fd_table_init (table : Z) : K unit :=
  if table =? 0 then mret tt
  else _ ← touch table; put table (OTable (FdTable 0 (replicate (Z.to_nat MAX_FDS) no_entry))).

(** [spinlock_lock] and [spinlock_unlock] on the table's word. *)
Definition lock_table (table : Z) : K unit :=
  t ← read_obj as_table table;
  match grab (ft_lock t) with
  | Some w => put table (OTable (FdTable w (ft_entries t)))
  | None => undefined
  end.
Definition unlock_table (table : Z) : K unit :=
  t ← read_obj as_table table; put table (OTable (FdTable (drop_lock (ft_lock t)) (ft_entries t))).

(** [table->entries[fd]]. *)
Definition get_entry (table fd : Z) : K fd_entry :=
  t ← read_obj as_table table;
  match ft_entries t !! Z.to_nat fd with Some x => mret x | None => undefined end.
Definition set_entry (table fd : Z) (x : fd_entry) : K unit :=
  t ← read_obj as_table table;
  if Z.of_nat (length (ft_entries t)) <=? fd then undefined
  else put table (OTable (FdTable (ft_lock t) (<[Z.to_nat fd := x]> (ft_entries t)))).

Definition fd_table_alloc (table node flags : Z) : K Z :=
  if (table =? 0) || (node =? 0) then mret (-1)
  else
    _ ← lock_table table;
    t ← read_obj as_table table;
    result ← (match first_free (ft_entries t) with
              | None => mret (-1)
              | Some i =>
                  _ ← set_entry table (Z.of_nat i) (FdEntry node 0 flags true);
                  _ ← vfs_ref_node node;
                  mret (Z.of_nat i)
              end);
    _ ← unlock_table table;
    mret result.

Definition fd_table_get (table fd : Z) : K bool :=
  if (table =? 0) || (fd <? 0) || (MAX_FDS <=? fd) then mret false
  else
    _ ← lock_table table;
    x ← get_entry table fd;
    _ ← unlock_table table;
    mret (fe_in_use x).

(** [node->close] is tested here and again in [vfs_close]. *)
Definition close_node (node : Z) : K unit :=
  if node =? 0 then mret tt
  else
    _ ← vfs_close node;
    vfs_release_node node.

Definition fd_table_free (table fd : Z) : K Z :=
  if (table =? 0) || (fd <? 0) || (MAX_FDS <=? fd) then mret (-1)
  else
    _ ← lock_table table;
    x ← get_entry table fd;
    if negb (fe_in_use x) then _ ← unlock_table table; mret (-1)
    else
      _ ← set_entry table fd no_entry;
      _ ← unlock_table table;
      _ ← close_node (fe_node x);
      mret 0.

(** The effects of one more reference to a node: its count and, for a pipe,
    the count of its end. *)
Definition dup_node (node : Z) : K unit :=
  if node =? 0 then mret tt
  else
    _ ← vfs_ref_node node;
    n ← read_obj as_node node;
    if bool_decide (fn_type n = FS_PIPE) then pipe_on_dup node else mret tt.

(** Entries [i] to [i + n - 1] of the loop of [fd_table_copy]. *)
Fixpoint copy_entries (src dst : Z) (i : Z) (n : nat) : K unit :=
  match n with
  | O => mret tt
  | S n =>
      x ← get_entry src i;
      _ ← (if fe_in_use x then
             _ ← set_entry dst i (FdEntry (fe_node x) (fe_offset x) (fe_flags x) true);
             dup_node (fe_node x)
           else
             y ← get_entry dst i;
             set_entry dst i (FdEntry (fe_node y) (fe_offset y) (fe_flags y) false));
      copy_entries src dst (i + 1) n
  end.

(** The locks are taken in the order of the addresses. *)
Definition fd_table_copy (src dst : Z) : K Z :=
  if (src =? 0) || (dst =? 0) then mret (-1)
  else
    let '(first_lock, second_lock) := if src <? dst then (src, dst) else (dst, src) in
    _ ← lock_table first_lock;
    _ ← (if negb (src =? dst) then lock_table second_lock else mret tt);
    _ ← copy_entries src dst 0 (Z.to_nat MAX_FDS);
    _ ← (if negb (src =? dst) then unlock_table second_lock else mret tt);
    _ ← unlock_table first_lock;
    mret 0.

End fds.

(** ** System calls on files

    Models src/kernel/syscalls/fs.c.  Pointer arguments are options ([None]
    is [NULL]); bytes read or a filled structure are part of the result.  The
    descriptor table is the current task's; its working directory is passed
    and returned by the two calls that use it.  Results are 32-bit words. *)

Definition O_RDONLY : Z := 0x0.
Definition O_WRONLY : Z := 0x1.
Definition O_RDWR : Z := 0x2.
Definition O_CREAT : Z := 0x40.
Definition O_EXCL : Z := 0x80.
Definition O_TRUNC : Z := 0x200.
Definition O_APPEND : Z := 0x400.
Definition SEEK_SET : Z := 0.
Definition SEEK_CUR : Z := 1.
Definition SEEK_END : Z := 2.
Definition MAX_WRITE_SIZE : Z := 512.
Definition MAX_CWD_LENGTH : Z := 256.

(** [(uint32_t)-1] *)
Definition failure : Z := 0xFFFFFFFF.

(** [flags & mask] *)
Definition has (flags mask : Z) : bool := negb (Z.land flags mask =? 0).

Record stat := Stat {
  st_ino : Z; st_mode : Z; st_nlink : Z; st_uid : Z; st_gid : Z; st_size : Z; st_blksize : Z; st_blocks : Z
}.

(** [S_IFREG] and the like, in hexadecimal. *)
Definition type_bits (t : fs_node_type) : Z :=
  match t with
  | FS_FILE => 0x8000 | FS_DIRECTORY => 0x4000 | FS_CHARDEVICE => 0x2000
  | FS_BLOCKDEVICE => 0x6000 | FS_PIPE => 0x1000 | FS_SYMLINK => 0xA000
  end.

Definition fill_stat_from_node (n : fs_node) : stat :=
  Stat (fn_inode n) (Z.lor (type_bits (fn_type n)) (Z.land (fn_permissions n) 0x1FF)) 1 (fn_uid n) (fn_gid n)
    (fn_size n) 512 (u32 (fn_size n + 511) / 512).

(** ** Normal paths *)

(** Components are pushed and popped; [stack] has the last one first.  A
    component is at most 127 characters: the rest is the next component. *)
Fixpoint norm_components (fuel : nat) (path : str) (stack : list str) : option (list str) :=
  match fuel with
  | O => Some stack
  | S fuel =>
      match skip_slashes path with
      | [] => Some stack
      | path =>
          let '(current_component, rest) := span_token 127 path in
          if bool_decide (current_component = dot) then norm_components fuel rest stack
          else if bool_decide (current_component = dotdot) then norm_components fuel rest (drop 1 stack)
          else if (64 <=? length stack)%nat then None
          else norm_components fuel rest (current_component :: stack)
      end
  end.

(** Characters are stored while they fit. *)
Fixpoint store_chars (size : nat) (normalized chars : str) : str :=
  match chars with
  | [] => normalized
  | c :: chars => if (length normalized <? size - 1)%nat then store_chars size (normalized ++ [c]) chars else normalized
  end.

Definition add_component (size : nat) (normalized component : str) : str :=
  let normalized :=
    if negb (bool_decide (normalized = [])) && negb (bool_decide (list.last normalized = Some 47))
    then store_chars size normalized slash else normalized in
  store_chars size normalized component.

Definition normalize_path (path : str) (size : nat) : option str :=
  if (size =? 0)%nat then None
  else
    let is_absolute := match path with c :: _ => c =? 47 | [] => false end in
    components ← norm_components (length path) path [];
    let normalized := if is_absolute then store_chars size [] slash else [] in
    let normalized := foldl (add_component size) normalized (reverse components) in
    Some (if bool_decide (normalized = []) then (if is_absolute then slash else dot) else normalized).

Section calls.
Context {H W : Type} `{!ObjHeap H} `{!TaskResources W}.
Abbreviation K := (K H W).

(** [task_get_current()->fd_table], 0 without a current task. *)
Definition current_table : K Z :=
  fun d e => Some (current_fd_table (sc e), d, e).

(** The entry of [fd] in the current table when it is in use and has a node;
    the table and the entry's contents. *)
Definition current_entry (fd : Z) : K (option (Z * fd_entry)) :=
  table ← current_table;
  if table =? 0 then mret None
  else
    used ← fd_table_get table fd;
    if negb used then mret None
    else
      x ← get_entry table fd;
      mret (if fe_node x =? 0 then None else Some (table, x)).

Definition sys_stat (path : option str) (buf : bool) : K (Z * option stat) :=
  match path with
  | None => mret (failure, None)
  | Some path =>
      if negb buf then mret (failure, None)
      else
        node ← vfs_path_to_node path;
        if node =? 0 then mret (failure, None)
        else
          n ← read_obj as_node node;
          _ ← vfs_release_node node;
          mret (0, Some (fill_stat_from_node n))
  end.

Definition sys_fstat (fd : Z) (buf : bool) : K (Z * option stat) :=
  if negb buf then mret (failure, None)
  else
    entry ← current_entry fd;
    match entry with
    | None => mret (failure, None)
    | Some (_, x) => n ← read_obj as_node (fe_node x); mret (0, Some (fill_stat_from_node n))
    end.

(** The node [sys_open] opens: found, or created. *)
Definition open_node (path : str) (flags : Z) : K Z :=
  node ← vfs_path_to_node path;
  if (node =? 0) && has flags O_CREAT then
    r ← vfs_create path;
    if negb (r =? 0) then mret 0 else vfs_path_to_node path
  else mret node.

Definition sys_open (path : option str) (flags mode : Z) : K Z :=
  match path with
  | None => mret failure
  | Some path =>
      table ← current_table;
      if table =? 0 then mret failure
      else
        node ← open_node path flags;
        if node =? 0 then mret failure
        else if has flags O_CREAT && has flags O_EXCL then _ ← vfs_release_node node; mret failure
        else
          _ ← (if has flags O_TRUNC && has flags (Z.lor O_WRONLY O_RDWR) then
                 n ← read_obj as_node node;
                 if bool_decide (fn_type n = FS_FILE) then _ ← vfs_truncate node 0; mret tt else mret tt
               else mret tt);
          _ ← vfs_open node flags;
          fd ← fd_table_alloc table node flags;
          if fd <? 0 then
            _ ← vfs_close node;
            _ ← vfs_release_node node;
            mret failure
          else
            _ ← vfs_release_node node;
            _ ← (if has flags O_APPEND then
                   used ← fd_table_get table fd;
                   if used : bool then
                     x ← get_entry table fd;
                     n ← read_obj as_node node;
                     set_entry table fd (e_set_offset (fn_size n) x)
                   else mret tt
                 else mret tt);
            mret (u32 fd)
  end.

Definition sys_close (fd : Z) : K Z :=
  table ← current_table;
  if table =? 0 then mret failure
  else
    r ← fd_table_free table fd;
    mret (if negb (r =? 0) then failure else 0).

(** ** Reading and writing *)

Definition sys_read (fd : Z) (buf : bool) (count : Z) : K (Z * list Z) :=
  if negb buf then mret (failure, [])
  else
    entry ← current_entry fd;
    match entry with
    | None => mret (failure, [])
    | Some (table, x) =>
        if has (fe_flags x) O_WRONLY && negb (has (fe_flags x) O_RDWR) then mret (failure, [])
        else
          '(bytes_read, b) ← vfs_read (fe_node x) (fe_offset x) count;
          x ← get_entry table fd;
          _ ← set_entry table fd (e_set_offset (u32 (fe_offset x + bytes_read)) x);
          mret (bytes_read, b)
    end.

(** The loop of [sys_write]: chunks of at most [MAX_WRITE_SIZE] bytes. *)
Fixpoint write_chunks (fuel : nat) (table fd : Z) (rest : list Z) (total_written : Z) : K Z :=
  match rest with
  | [] => mret total_written
  | _ :: _ =>
      match fuel with
      | O => undefined
      | S fuel =>
          let kernel_buf := take (Z.to_nat MAX_WRITE_SIZE) rest in
          x ← get_entry table fd;
          bytes_written ← vfs_write (fe_node x) (fe_offset x) kernel_buf;
          if bytes_written =? 0 then mret total_written
          else
            x ← get_entry table fd;
            _ ← set_entry table fd (e_set_offset (u32 (fe_offset x + bytes_written)) x);
            let total_written := u32 (total_written + bytes_written) in
            if bytes_written <? Z.of_nat (length kernel_buf) then mret total_written
            else write_chunks fuel table fd (drop (Z.to_nat MAX_WRITE_SIZE) rest) total_written
      end
  end.

Definition sys_write (fd : Z) (buf : option (list Z)) : K Z :=
  match buf with
  | None => mret failure
  | Some buf =>
      entry ← current_entry fd;
      match entry with
      | None => mret failure
      | Some (table, x) =>
          if has (fe_flags x) O_RDONLY && negb (has (fe_flags x) O_RDWR) then mret failure
          else
            _ ← (if has (fe_flags x) O_APPEND then
                   n ← read_obj as_node (fe_node x); set_entry table fd (e_set_offset (fn_size n) x)
                 else mret tt);
            write_chunks (length buf) table fd buf 0
      end
  end.

Definition sys_lseek (fd offset whence : Z) : K Z :=
  entry ← current_entry fd;
  match entry with
  | None => mret failure
  | Some (table, x) =>
      n ← read_obj as_node (fe_node x);
      let new_offset :=
        if whence =? SEEK_SET then Some (u32 offset)
        else if whence =? SEEK_CUR then Some (u32 (fe_offset x + offset))
        else if whence =? SEEK_END then Some (u32 (fn_size n + offset))
        else None in
      match new_offset with
      | None => mret failure
      | Some new_offset =>
          if s32 new_offset <? 0 then mret failure
          else _ ← set_entry table fd (e_set_offset new_offset x); mret new_offset
      end
  end.

Definition sys_ftruncate (fd length : Z) : K Z :=
  entry ← current_entry fd;
  match entry with
  | None => mret failure
  | Some (table, x) =>
      n ← read_obj as_node (fe_node x);
      if negb (bool_decide (fn_type n = FS_FILE)) then mret failure
      else if has (fe_flags x) O_RDONLY && negb (has (fe_flags x) O_RDWR) then mret failure
      else
        r ← vfs_truncate (fe_node x) length;
        mret (if negb (r =? 0) then failure else 0)
  end.

Definition sys_getdents (fd index : Z) (buf : bool) : K (Z * option dirent) :=
  if negb buf then mret (failure, None)
  else
    entry ← current_entry fd;
    match entry with
    | None => mret (failure, None)
    | Some (table, x) =>
        n ← read_obj as_node (fe_node x);
        if negb (bool_decide (fn_type n = FS_DIRECTORY)) then mret (failure, None)
        else
          r ← vfs_readdir (fe_node x) index;
          mret (match r with None => (failure, None) | Some e => (0, Some e) end)
    end.

(** ** Paths *)

Definition sys_mkdir (path : option str) (mode : Z) : K Z :=
  match path with
  | None => mret failure
  | Some path => r ← vfs_mkdir path mode; mret (if negb (r =? 0) then failure else 0)
  end.

Definition sys_unlink (path : option str) : K Z :=
  match path with
  | None => mret failure
  | Some path => r ← vfs_unlink path; mret (if negb (r =? 0) then failure else 0)
  end.

Definition sys_rename (oldpath newpath : option str) : K Z :=
  match oldpath, newpath with
  | Some oldpath, Some newpath => r ← vfs_rename oldpath newpath; mret (if negb (r =? 0) then failure else 0)
  | _, _ => mret failure
  end.

(** The absolute path [sys_chdir] builds in a buffer of 512 bytes. *)
Definition absolute_path (cwd path : str) : option str :=
  if match path with c :: _ => c =? 47 | [] => false end then
    if (512 <=? length path)%nat then None else Some path
  else if (512 <=? length cwd + 1 + length path)%nat then None
  else Some ((if (1 <? length cwd)%nat && negb (bool_decide (list.last cwd = Some 47)) then cwd ++ slash else cwd) ++ path).

(** The result and the new working directory. *)
Definition sys_chdir (cwd : str) (path : option str) : K (Z * str) :=
  match path with
  | None => mret (failure, cwd)
  | Some path =>
      match absolute_path cwd path with
      | None => mret (failure, cwd)
      | Some abs_path =>
          node ← vfs_path_to_node abs_path;
          if node =? 0 then mret (failure, cwd)
          else
            n ← read_obj as_node node;
            _ ← vfs_release_node node;
            if negb (bool_decide (fn_type n = FS_DIRECTORY)) then mret (failure, cwd)
            else match normalize_path abs_path 512 with
                 | None => mret (failure, cwd)
                 | Some normalized =>
                     if MAX_CWD_LENGTH <=? Z.of_nat (length normalized) then mret (failure, cwd)
                     else mret (0, normalized)
                 end
      end
  end.

(** The string stored in the buffer; [None] when it does not fit. *)
Definition sys_getcwd (cwd : str) (buffer : bool) (size : Z) : option str :=
  if negb buffer then None
  else if size <=? Z.of_nat (length cwd) then None else Some cwd.

(** ** Pipes and duplicates *)

(** The two descriptors. *)
Definition sys_pipe (fds : bool) : K (Z * option (Z * Z)) :=
  if negb fds then mret (failure, None)
  else
    table ← current_table;
    if table =? 0 then mret (failure, None)
    else
      nodes ← pipe_create;
      match nodes with
      | None => mret (failure, None)
      | Some (read_node, write_node) =>
          read_fd ← fd_table_alloc table read_node O_RDONLY;
          if read_fd <? 0 then
            _ ← vfs_release_node read_node;
            _ ← vfs_release_node write_node;
            mret (failure, None)
          else
            _ ← vfs_release_node read_node;
            write_fd ← fd_table_alloc table write_node O_WRONLY;
            if write_fd <? 0 then
              _ ← fd_table_free table read_fd;
              _ ← vfs_release_node write_node;
              mret (failure, None)
            else
              _ ← vfs_release_node write_node;
              mret (0, Some (read_fd, write_fd))
      end.

Definition sys_dup (oldfd : Z) : K Z :=
  entry ← current_entry oldfd;
  match entry with
  | None => mret failure
  | Some (table, x) =>
      newfd ← fd_table_alloc table (fe_node x) (fe_flags x);
      if newfd <? 0 then mret failure
      else
        n ← read_obj as_node (fe_node x);
        _ ← (if bool_decide (fn_type n = FS_PIPE) then pipe_on_dup (fe_node x) else mret tt);
        used ← fd_table_get table newfd;
        _ ← (if used : bool then
               y ← get_entry table newfd;
               x ← get_entry table oldfd;
               set_entry table newfd (e_set_offset (fe_offset x) y)
             else mret tt);
        mret (u32 newfd)
  end.

Definition sys_dup2 (oldfd newfd : Z) : K Z :=
  if oldfd =? newfd then
    entry ← current_entry oldfd;
    mret (match entry with None => failure | Some _ => u32 newfd end)
  else
    table ← current_table;
    if table =? 0 then mret failure
    else if (newfd <? 0) || (MAX_FDS <=? newfd) then mret failure
    else
      entry ← current_entry oldfd;
      match entry with
      | None => mret failure
      | Some (_, _) =>
          existing ← fd_table_get table newfd;
          _ ← (if existing : bool then _ ← fd_table_free table newfd; mret tt else mret tt);
          _ ← lock_table table;
          x ← get_entry table oldfd;
          _ ← set_entry table newfd (FdEntry (fe_node x) (fe_offset x) (fe_flags x) true);
          _ ← dup_node (fe_node x);
          _ ← unlock_table table;
          mret (u32 newfd)
      end.

End calls.
