(* ===== verification/RamfsFacts.v ===== *)
(** * Evaluation of the ramfs operations

    What each operation of [Ramfs] does to the objects, by cases; every
    branch, the failing allocations included. *)

From S2P Require Import Prelude Spinlock Task Sync FsState Ramfs.

Section facts.
Context {H W : Type} `{!ObjHeap H} `{!ObjHeapLaws H} `{!TaskResources W}.
Implicit Types (d : fsd H) (held : gset lock_id).
Abbreviation K := (K H W).

(** Every object is live in the allocator, none is at [NULL], and the inode
    lock is free. *)
Record data_ok d : Prop := DataOk {
  do_live : dom (objs d) ⊆ oh_live (heap d);
  do_null : objs d !! 0 = None;
  do_inode : inode_alloc_lock d = 0
}.

(** The statics an operation on the tree leaves alone. *)
Record kept d d' : Prop := Kept {
  kp_ok : data_ok d';
  kp_root : fs_root d' = fs_root d;
  kp_mounts : mount_table d' = mount_table d;
  kp_pipe : pipe_inode_counter d' = pipe_inode_counter d
}.

Lemma kept_refl d : data_ok d -> kept d d.
Proof. by split. Qed.

Lemma kept_trans d1 d2 d3 : kept d1 d2 -> kept d2 d3 -> kept d1 d3.
Proof. intros [] []. split; [done|congruence..]. Qed.

Ltac kept_chain := first [eassumption | eapply kept_trans; [eassumption|kept_chain]].

Lemma kept_put d p o : data_ok d -> objs d !! p <> None -> kept d (set_objs d (<[p := o]> (objs d))).
Proof.
  intros [H1 H2 H3] Hp. split; [|done..]. split; cbn; [|rewrite lookup_insert_ne; [done|congruence]|done].
  rewrite dom_insert_L. apply not_eq_None_Some, elem_of_dom in Hp. set_solver.
Qed.

Lemma not_null d p o : data_ok d -> objs d !! p = Some o -> p <> 0.
Proof. intros Hd Hp ->. by rewrite (do_null _ Hd) in Hp. Qed.

(** One of the requests, made in this order from the heap [h] on, is refused. *)
Fixpoint refused (h : H) (rs : list request) : Prop :=
  match rs with
  | [] => False
  | r :: rs => (oh_kmalloc r h).1 = 0 \/ refused (oh_kmalloc r h).2 rs
  end.

Lemma refused_later h r p h' rs : oh_kmalloc r h = (p, h') -> p <> 0 -> refused h (r :: rs) <-> refused h' rs.
Proof. intros E Hp. cbn. rewrite E. cbn. tauto. Qed.

(** The two outcomes of [kmalloc]. *)
Lemma kmalloc_cases held r d :
  data_ok d ->
  (oh_kmalloc r (heap d)).1 = 0 /\ (exists d', runs held (kmalloc r : K Z) d 0 d' /\ kept d d' /\ objs d' = objs d) \/
  (exists p d' h, p <> 0 /\ objs d !! p = None /\ runs held (kmalloc r : K Z) d p d' /\ kept d d' /\
     objs d' = <[p := fresh_obj r p h]> (objs d) /\ oh_kmalloc r (heap d) = (p, heap d')).
Proof.
  intros [H1 H2 H3]. destruct (oh_kmalloc r (heap d)) as [p h] eqn:E. destruct (decide (p = 0)) as [->|Hp].
  - left. split; [done|]. eexists. split; [by apply runs_kmalloc_fail|].
    split; [|done]. split; [|done..]. split; [|done..]. cbn. by rewrite (oh_fail _ _ _ E).
  - right. destruct (oh_fresh _ _ _ _ E Hp) as (Hpos & Hn & Hl). eexists p, _, h. split_and!; [done| |by eapply runs_kmalloc| |done|done].
    + apply not_elem_of_dom. set_solver.
    + split; [|done..]. split; cbn; [rewrite dom_insert_L, Hl; set_solver|by rewrite lookup_insert_ne|done].
Qed.

Lemma kfree_runs held p d o :
  data_ok d -> objs d !! p = Some o ->
  exists d', runs held (kfree p : K unit) d tt d' /\ kept d d' /\ objs d' = delete p (objs d).
Proof.
  intros Hd Hp. eexists. split; [eapply runs_kfree; [by eapply not_null|done]|]. split; [|done].
  destruct Hd as [H1 H2 H3]. split; [|done..]. split; cbn; [rewrite dom_delete_L, oh_freed; set_solver| |done].
  by rewrite lookup_delete_None; right.
Qed.

Lemma inode_runs held d :
  data_ok d -> exists d', runs held (alloc_inode : K Z) d (next_inode d) d' /\ kept d d' /\ objs d' = objs d /\ heap d' = heap d.
Proof.
  intros [H1 H2 H3]. exists (set_inode d (u32 (next_inode d + 1)) 0). split; [|by split].
  intros e He. exists e. split; [|done]. unfold alloc_inode. by rewrite H3.
Qed.

(** ** Copies *)

Lemma copy_out_runs held p d l off n :
  objs d !! p = Some (OBytes l) -> off + n <= Z.of_nat (length l) ->
  runs held (copy_out p off n : K (list Z)) d (take (Z.to_nat n) (drop (Z.to_nat off) l)) d.
Proof.
  intros Hp Hle. unfold copy_out. rstep. rewrite (proj2 (Z.leb_le _ _)) by done. rstep.
Qed.

Lemma splice_nil i l : splice i [] l = l.
Proof. unfold splice. cbn. rewrite Nat.add_0_r. apply take_drop. Qed.

Lemma splice_length i b l : (i + length b <= length l)%nat -> length (splice i b l) = length l.
Proof. intros. unfold splice. rewrite !length_app, length_take, length_drop. lia. Qed.

(** [copy_in] splices; with nothing to copy it does not look at the block. *)
Lemma copy_in_runs held p d l off b :
  data_ok d -> objs d !! p = Some (OBytes l) -> 0 <= off -> off + Z.of_nat (length b) <= Z.of_nat (length l) ->
  exists d', runs held (copy_in p off b : K unit) d tt d' /\ kept d d' /\
    objs d' = <[p := OBytes (splice (Z.to_nat off) b l)]> (objs d).
Proof.
  intros Hd Hp Hoff Hle. unfold copy_in. destruct (decide (b = [])) as [->|Hb].
  - rewrite bool_decide_true by done. exists d. split; [rstep|]. split; [by apply kept_refl|].
    by rewrite splice_nil, insert_id.
  - rewrite bool_decide_false by done.
    exists (set_objs d (<[p := OBytes (splice (Z.to_nat off) b l)]> (objs d))). split; [|split; [|done]].
    + rstep. rewrite (proj2 (Z.leb_le _ _)) by done. rstep.
    + apply kept_put; [done|by rewrite Hp].
Qed.

Lemma copy_in_nil held p d off : runs held (copy_in p off [] : K unit) d tt d.
Proof. unfold copy_in. rewrite bool_decide_true by done. rstep. Qed.

(** ** Files *)

(** [node] is a file with contents [c]; [sz] is the size its node reports. *)
Record file_at d (node : Z) (n : fs_node) (f : ramfs_file) (c : list Z) : Prop := FileAt {
  fa_node : objs d !! node = Some (ONode n);
  fa_type : fn_type n = FS_FILE;
  fa_impl : objs d !! fn_impl n = Some (OFile f);
  fa_size : rf_size f = Z.of_nat (length c);
  fa_cap : 0 <= rf_size f <= rf_capacity f /\ rf_capacity f < 2 ^ 32;
  fa_data : (rf_data f = 0 /\ rf_capacity f = 0) \/
            exists l, rf_data f <> 0 /\ objs d !! rf_data f = Some (OBytes l) /\
              Z.of_nat (length l) = rf_capacity f /\ c = take (length c) l
}.

Lemma file_empty d node n f c : file_at d node n f c -> rf_data f = 0 -> c = [].
Proof.
  intros [_ _ _ Hs Hc [[_ E]|(l & H0 & _)]] Hz; [|done]. apply length_zero_iff_nil. lia.
Qed.

Lemma file_ptrs d node n f c :
  data_ok d -> file_at d node n f c -> node <> fn_impl n /\ node <> rf_data f /\ fn_impl n <> rf_data f.
Proof.
  intros Hd [H1 H2 H3 H4 H5 H6]. split; [congruence|]. destruct H6 as [[-> _]|(l & _ & El & _)]; [|split; congruence].
  split; by eapply not_null.
Qed.

(** The bytes of the file from [offset] on, at most [size] of them. *)
Lemma ramfs_read_spec d node n f c offset size :
  data_ok d -> file_at d node n f c -> 0 <= offset -> 0 <= size -> offset + size < 2 ^ 32 ->
  let b := take (Z.to_nat size) (drop (Z.to_nat offset) c) in
  runs ∅ (ramfs_read node offset size : K _) d (Z.of_nat (length b), b) d.
Proof.
  intros Hd Hf Ho Hsz Hlt b. pose proof Hf as [H1 H2 H3 H4 H5 H6]. unfold ramfs_read. rstep.
  rewrite bool_decide_true by done. cbn [negb]. rewrite (proj2 (Z.eqb_neq _ 0)) by (by eapply not_null).
  rstep. rstep.
  destruct (rf_data f =? 0) eqn:E0; zify_bool.
  { subst b. rewrite (file_empty _ _ _ _ _ Hf E0), drop_nil, take_nil. rstep. }
  destruct H6 as [[? _]|(l & _ & Hl & Hlen & Hc)]; [done|].
  destruct (rf_size f <=? offset) eqn:E1; zify_bool.
  { subst b. rewrite drop_ge by lia. rewrite take_nil. rstep. }
  set (k := if _ <? _ then _ else _). assert (Hk : k = Z.min size (rf_size f - offset)).
  { subst k. rewrite u32_small by lia. case_if; lia. }
  assert (Hb : b = take (Z.to_nat k) (drop (Z.to_nat offset) l)).
  { subst b. rewrite Hc at 1. rewrite skipn_firstn_comm, take_take. f_equal. lia. }
  rewrite Hb. eapply runs_bind; [eapply copy_out_runs; [done|lia]|]. cbn beta iota.
  replace (Z.of_nat (length _)) with k; [rstep|]. rewrite length_take, length_drop. lia.
Qed.

(** The rounded capacity. *)
Lemma round_up_4k v : 0 <= v < 2 ^ 32 - 4095 ->
  v <= Z.land (u32 (v + 4095)) 0xFFFFF000 < 2 ^ 32 /\ 0 <= Z.land (u32 (v + 4095)) 0xFFFFF000.
Proof.
  intros Hv. rewrite u32_small by lia. change 0xFFFFF000 with (2 ^ 32 - 2 ^ 12).
  rewrite land_high_mask by lia. pose proof (Z.mod_pos_bound (v + 4095) (2 ^ 12)). lia.
Qed.

(** The capacity for [n] bytes. *)
Definition page_round (n : Z) : Z := (n + 4095) / 4096 * 4096.

Lemma round_up_page v : 0 <= v < 2 ^ 32 - 4095 -> Z.land (u32 (v + 4095)) 0xFFFFF000 = page_round v.
Proof.
  intros Hv. rewrite u32_small by lia. change 0xFFFFF000 with (2 ^ 32 - 2 ^ 12). rewrite land_high_mask by lia.
  unfold page_round. change (2 ^ 12) with 4096. pose proof (Z.div_mod (v + 4095) 4096). lia.
Qed.

(** After [ramfs_grow] the block has room for [new_size] bytes and starts
    with the old contents; nothing else changes, and when memory runs out
    nothing changes at all. *)
Record grown d (file : Z) (f : ramfs_file) (c : list Z) (new_size : Z) d' (f' : ramfs_file) (l : list Z) : Prop := Grown {
  gr_file : objs d' !! file = Some (OFile f');
  gr_size : rf_size f' = rf_size f;
  gr_cap : new_size <= rf_capacity f' < 2 ^ 32 /\ rf_capacity f <= rf_capacity f';
  gr_data : rf_data f' <> 0 -> objs d' !! rf_data f' = Some (OBytes l);
  gr_null : rf_data f' = 0 -> rf_data f = 0 /\ rf_capacity f' = 0 /\ l = [];
  gr_len : Z.of_nat (length l) = rf_capacity f';
  gr_pre : c = take (length c) l;
  gr_new : rf_data f' = rf_data f \/ objs d !! rf_data f' = None /\ (rf_data f <> 0 -> objs d' !! rf_data f = None);
  gr_frame : forall q, q <> file -> q <> rf_data f -> q <> rf_data f' -> objs d' !! q = objs d !! q
}.

(** The copy into the fresh block: it starts with the old contents. *)
Lemma grow_copy held d d1 node n f c p l0 :
  file_at d node n f c -> data_ok d1 -> objs d !! p = None -> objs d1 = <[p := OBytes l0]> (objs d) ->
  rf_size f <= Z.of_nat (length l0) ->
  exists d2 l1, runs held (if negb (rf_data f =? 0) && (0 <? rf_size f)
      then (old ← copy_out (rf_data f) 0 (rf_size f); copy_in p 0 old) : K unit else mret tt) d1 tt d2 /\ kept d1 d2 /\
    objs d2 = <[p := OBytes l1]> (objs d) /\ length l1 = length l0 /\ c = take (length c) l1.
Proof.
  intros Hf Hd1 Hpn O1 Hsz. pose proof Hf as [H1 H2 H3 H4 H5 H6]. destruct (negb _ && _) eqn:Ec; zify_bool.
  - destruct H6 as [[? _]|(l & E0 & El & Hl & Hc)]; [done|]. assert (p <> rf_data f) by congruence.
    destruct (copy_in_runs held p d1 l0 0 (take (Z.to_nat (rf_size f)) l)) as (d2 & R2 & K2 & O2);
      [done|by rewrite O1, lookup_insert_eq|lia|rewrite length_take; lia|].
    exists d2, (splice 0 (take (Z.to_nat (rf_size f)) l) l0). split_and!; [|done| | |].
    + eapply runs_bind; [eapply copy_out_runs; [by rewrite O1, lookup_insert_ne|lia]|]. cbn beta iota. exact R2.
    + by rewrite O2, O1, insert_insert_eq.
    + by rewrite splice_length by (rewrite length_take; lia).
    + unfold splice. rewrite take_0, app_nil_l. rewrite take_app_le by (rewrite length_take; lia). rewrite take_take.
      rewrite Hc at 1. f_equal. lia.
  - exists d1, l0. split_and!; [rstep|by apply kept_refl|done|done|].
    assert (c = []) as ->; [|done]. destruct Ec as [Ec|Ec]; zify_bool.
    + by eapply file_empty.
    + apply length_zero_iff_nil. lia.
Qed.

(** The old block is freed, if there is one. *)
Lemma grow_free held d1 f :
  data_ok d1 -> (rf_data f = 0 \/ exists o, objs d1 !! rf_data f = Some o) ->
  exists d2, runs held (kfree (rf_data f) : K unit) d1 tt d2 /\ kept d1 d2 /\
    (forall q, q <> rf_data f -> objs d2 !! q = objs d1 !! q) /\ objs d2 !! rf_data f = None.
Proof.
  intros Hd [E|[o E]].
  - exists d1. rewrite E. split_and!; [apply runs_kfree_null|by apply kept_refl|done|apply (do_null _ Hd)].
  - destruct (kfree_runs held (rf_data f) d1 o Hd E) as (d2 & R & K & O). exists d2. split_and!; try done.
    + intros q Hq. by rewrite O, lookup_delete_ne.
    + by rewrite O, lookup_delete_eq.
Qed.

Lemma grow_fits held d node n f c new_size :
  data_ok d -> file_at d node n f c -> 0 <= new_size <= rf_capacity f ->
  exists l, runs held (ramfs_grow (fn_impl n) new_size : K bool) d true d /\
    grown d (fn_impl n) f c new_size d f l.
Proof.
  intros Hd Hf Hn. pose proof Hf as [H1 H2 H3 H4 H5 H6].
  exists (match objs d !! rf_data f with Some (OBytes l) => l | _ => [] end). split.
  - unfold ramfs_grow. rstep. rewrite (proj2 (Z.ltb_ge _ _)) by lia. rstep.
  - destruct H6 as [[E0 Ec]|(l & E0 & El & Hl & Hc)].
    + assert (c = []) as -> by (by eapply file_empty). rewrite E0, (do_null _ Hd).
      split; try done; try lia; by left.
    + rewrite El. split; try done; try lia; by left.
Qed.

Lemma ramfs_grow_spec held d node n f c new_size :
  data_ok d -> file_at d node n f c -> 0 <= new_size < 2 ^ 32 - 4095 ->
  refused (heap d) [RBytes (page_round new_size)] /\ (exists d', runs held (ramfs_grow (fn_impl n) new_size : K bool) d false d' /\ kept d d' /\ objs d' = objs d) \/
  (exists d' f' l, runs held (ramfs_grow (fn_impl n) new_size : K bool) d true d' /\ kept d d' /\
     grown d (fn_impl n) f c new_size d' f' l).
Proof.
  intros Hd Hf Hn. pose proof Hf as [H1 H2 H3 H4 H5 H6].
  destruct (decide (new_size <= rf_capacity f)) as [Hfit|Hbig].
  { right. destruct (grow_fits held d node n f c new_size Hd Hf) as (l & R & G); [lia|].
    exists d, f, l. split; [done|]. split; [by apply kept_refl|done]. }
  pose proof (round_up_4k new_size Hn) as Hcap. pose proof (round_up_page new_size Hn) as Hpage. set (cap := Z.land _ _) in *.
  destruct (kmalloc_cases held (RBytes cap) d Hd) as [(Hoom & d1 & R1 & K1 & O1)|(p & d1 & h & Hp & Hpn & R1 & K1 & O1 & _)].
  { left. split; [rewrite <- Hpage; by left|]. exists d1. split; [|done]. unfold ramfs_grow. rstep. rewrite (proj2 (Z.ltb_lt _ _)) by lia.
    rbind R1. rstep. }
  right. cbn [fresh_obj] in O1. set (l0 := oh_bytes p cap h) in *.
  assert (Hl0 : Z.of_nat (length l0) = cap) by (apply oh_bytes_len; lia).
  destruct (grow_copy held d d1 node n f c p l0) as (d2 & l1 & R2 & K2 & O2 & Hl1 & Hc1); [done|apply K1|done|done|lia|].
  assert (Hold : rf_data f = 0 \/ exists o, objs d2 !! rf_data f = Some o).
  { destruct H6 as [[E _]|(l & _ & El & _)]; [by left|right]. eexists. rewrite O2, lookup_insert_ne by congruence. exact El. }
  destruct (grow_free held d2 f (kp_ok _ _ K2) Hold) as (d3 & R3 & K3 & O3 & N3).
  destruct (file_ptrs d node n f c Hd Hf) as (Hn1 & Hn2 & Hn3).
  assert (Hi3 : objs d3 !! fn_impl n = Some (OFile f)).
  { rewrite O3, O2, lookup_insert_ne by congruence. done. }
  exists (set_objs d3 (<[fn_impl n := OFile (RamfsFile p (rf_size f) cap)]> (objs d3))), (RamfsFile p (rf_size f) cap), l1.
  assert (Hpd : p <> rf_data f) by (destruct H6 as [[-> _]|(l & _ & El & _)]; congruence).
  split; [|split].
  - unfold ramfs_grow. rstep. rewrite (proj2 (Z.ltb_lt _ _)) by lia. fold cap.
    rbind R1. rewrite (proj2 (Z.eqb_neq p 0)) by done. rbind R2. rbind R3. rstep. rstep.
  - eapply kept_trans; [exact K1|]. eapply kept_trans; [exact K2|]. eapply kept_trans; [exact K3|].
    apply kept_put; [apply K3|by rewrite Hi3].
  - split; cbn [rf_data rf_size rf_capacity objs set_objs]; try done; try lia.
    + by rewrite lookup_insert_eq.
    + intros _. rewrite lookup_insert_ne, O3, O2, lookup_insert_eq by congruence. done.
    + right. split; [done|]. intros _. by rewrite lookup_insert_ne.
    + intros q Q1 Q2 Q3. by rewrite lookup_insert_ne, O3, O2, lookup_insert_ne by congruence.
Qed.

(** The contents after storing [b] at [offset]; a gap between the old end
    and [offset] is filled with whatever the block held. *)
Record written d (node : Z) (n : fs_node) (f : ramfs_file) (c : list Z) (offset : Z) (b : list Z) d' : Prop := Written {
  wr_at : exists n' f' gap, Z.of_nat (length gap) = Z.max 0 (offset - Z.of_nat (length c)) /\
    fn_impl n' = fn_impl n /\ fn_ops n' = fn_ops n /\ fn_name n' = fn_name n /\ fn_flags n' = fn_flags n /\
    fn_size n' = (if rf_size f <? offset + Z.of_nat (length b) then offset + Z.of_nat (length b) else fn_size n) /\
    file_at d' node n' f' (splice (Z.to_nat offset) b (c ++ gap)) /\
    (rf_data f' = rf_data f \/ objs d !! rf_data f' = None /\ (rf_data f <> 0 -> objs d' !! rf_data f = None)) /\
    (forall q, q <> node -> q <> fn_impl n -> q <> rf_data f -> q <> rf_data f' -> objs d' !! q = objs d !! q)
}.

Lemma splice_prefix n off b l :
  (off + length b <= length l)%nat -> (n <= length l)%nat ->
  take (n `max` (off + length b)) (splice off b l) =
  splice off b (take n l ++ take (off - n) (drop n l)).
Proof.
  intros H1 H2. rewrite take_take_drop. unfold splice. set (m := (n + (off - n))%nat).
  rewrite (take_take l off m), (Nat.min_l off m) by lia.
  rewrite !take_app, take_take, !length_take, (Nat.min_r (_ `max` _) off) by lia. f_equal.
  rewrite (firstn_all2 b) by lia. f_equal. rewrite skipn_firstn_comm. f_equal. lia.
Qed.

Lemma splice_grown_length off b l : (off <= length l)%nat -> length (splice off b l) = (length l `max` (off + length b))%nat.
Proof. intros. unfold splice. rewrite !length_app, length_take, length_drop. lia. Qed.

(** The bytes are stored in the block [ramfs_grow] left. *)
Lemma write_store held d d1 file f c new_size f' l offset b :
  data_ok d1 -> grown d file f c new_size d1 f' l -> 0 <= offset -> new_size = offset + Z.of_nat (length b) ->
  exists d2, runs held (copy_in (rf_data f') offset b : K unit) d1 tt d2 /\ kept d1 d2 /\
    (forall q, q <> rf_data f' -> objs d2 !! q = objs d1 !! q) /\
    (rf_data f' <> 0 -> objs d2 !! rf_data f' = Some (OBytes (splice (Z.to_nat offset) b l))).
Proof.
  intros Hd [G1 G2 G3 G4 G5 G6 G7 G8 G9] Ho E. destruct (decide (rf_data f' = 0)) as [E0|E0].
  - assert (b = []) as -> by (apply length_zero_iff_nil; destruct (G5 E0); lia).
    exists d1. split_and!; [apply copy_in_nil|by apply kept_refl|done|done].
  - destruct (copy_in_runs held (rf_data f') d1 l offset b) as (d2 & R & K & O); [done|by apply G4|done|lia|].
    exists d2. split_and!; [done|done|intros q Hq; by rewrite O, lookup_insert_ne|intros _; by rewrite O, lookup_insert_eq].
Qed.

(** What is in the heap after the store and the update of the sizes. *)
Lemma write_contents d d1 d2 node n f c f' l offset b :
  data_ok d -> file_at d node n f c -> grown d (fn_impl n) f c (offset + Z.of_nat (length b)) d1 f' l ->
  0 <= offset -> node <> rf_data f' -> fn_impl n <> rf_data f' ->
  (forall q, q <> rf_data f' -> objs d2 !! q = objs d1 !! q) ->
  (rf_data f' <> 0 -> objs d2 !! rf_data f' = Some (OBytes (splice (Z.to_nat offset) b l))) ->
  let ns := offset + Z.of_nat (length b) in
  written d node n f c offset b
    (if rf_size f <? ns then
       set_objs d2 (<[node := ONode (if rf_size f <? ns then n_set_size ns n else n)]>
         (<[fn_impl n := OFile (if rf_size f <? ns then RamfsFile (rf_data f') ns (rf_capacity f') else f')]> (objs d2)))
     else d2).
Proof.
  intros Hd Hf [G1 G2 G3 G4 G5 G6 G7 G8 G9] Ho P1 P2 O2 D2 ns. pose proof Hf as [H1 H2 H3 H4 H5 H6].
  destruct (file_ptrs d node n f c Hd Hf) as (Hn1 & Hn2 & Hn3).
  set (d3 := if rf_size f <? ns then _ else _).
  assert (O3 : forall q, q <> node -> q <> fn_impl n -> objs d3 !! q = objs d2 !! q).
  { intros q Q1 Q2. subst d3. destruct (_ <? _); [|done]. cbn. by rewrite !lookup_insert_ne. }
  assert (N3 : objs d3 !! node = Some (ONode (if rf_size f <? ns then n_set_size ns n else n))).
  { subst d3. destruct (_ <? _); [cbn; by rewrite lookup_insert_eq|]. by rewrite O2, G9. }
  assert (F3 : objs d3 !! fn_impl n = Some (OFile (if rf_size f <? ns then RamfsFile (rf_data f') ns (rf_capacity f') else f'))).
  { subst d3. destruct (_ <? _); [cbn; by rewrite lookup_insert_ne, lookup_insert_eq|]. by rewrite O2. }
  set (nn := length c). set (gap := take (Z.to_nat offset - nn) (drop nn l)).
  assert (Hgap : Z.of_nat (length gap) = Z.max 0 (offset - Z.of_nat (length c))).
  { subst gap nn. rewrite length_take, length_drop. lia. }
  assert (Hcont : splice (Z.to_nat offset) b (c ++ gap) = take (nn `max` (Z.to_nat offset + length b)) (splice (Z.to_nat offset) b l)).
  { rewrite splice_prefix by lia. unfold gap, nn. by rewrite <- G7. }
  assert (Hclen : length (splice (Z.to_nat offset) b (c ++ gap)) = (nn `max` (Z.to_nat offset + length b))%nat).
  { rewrite Hcont, length_take, splice_length; lia. }
  split. exists (if rf_size f <? ns then n_set_size ns n else n),
    (if rf_size f <? ns then RamfsFile (rf_data f') ns (rf_capacity f') else f'), gap.
  assert (Hdat : rf_data (if rf_size f <? ns then RamfsFile (rf_data f') ns (rf_capacity f') else f') = rf_data f') by (by destruct (_ <? _)).
  rewrite Hdat. fold ns. split_and!; try (by destruct (rf_size f <? ns)).
  - split; rewrite ?Hdat; try (by destruct (rf_size f <? ns)).
    + rewrite Hclen. subst nn. destruct (rf_size f <? ns) eqn:E; zify_bool; cbn; lia.
    + destruct (rf_size f <? ns) eqn:E; zify_bool; cbn; lia.
    + destruct (decide (rf_data f' = 0)) as [E0|E0]; [left; split; [done|]|right].
      * destruct (G5 E0) as (_ & Hc0 & _). by destruct (_ <? _).
      * exists (splice (Z.to_nat offset) b l). split_and!; [done| | |].
        -- rewrite O3 by congruence. by apply D2.
        -- rewrite splice_length by lia. destruct (_ <? _); cbn; lia.
        -- rewrite Hclen. exact Hcont.
  - destruct G8 as [E|[E1 E2]]; [by left|right]. split; [done|]. intros Hz. rewrite O3 by congruence.
    destruct H6 as [[? _]|(l0 & _ & El0 & _)]; [done|]. rewrite O2 by congruence. by apply E2.
  - intros q Q1 Q2 Q3 Q4. by rewrite O3, O2, G9.
Qed.

Lemma ramfs_write_spec d node n f c offset b :
  data_ok d -> file_at d node n f c -> 0 <= offset -> offset + Z.of_nat (length b) < 2 ^ 32 - 4095 ->
  exists r d', runs ∅ (ramfs_write node offset b : K Z) d r d' /\ kept d d' /\
    ((r = 0 /\ refused (heap d) [RBytes (page_round (offset + Z.of_nat (length b)))] /\ objs d' = objs d) \/ (r = Z.of_nat (length b) /\ written d node n f c offset b d')).
Proof.
  intros Hd Hf Ho Hlt. pose proof Hf as [H1 H2 H3 H4 H5 H6].
  destruct (file_ptrs d node n f c Hd Hf) as (Hn1 & Hn2 & Hn3).
  set (ns := offset + Z.of_nat (length b)) in *.
  destruct (ramfs_grow_spec ({[LObj (fn_impl n)]} ∪ ∅) d node n f c ns Hd Hf ltac:(lia))
    as [(Hoom & d1 & R1 & K1 & O1)|(d1 & f' & l & R1 & K1 & G)].
  { exists 0, d1. split_and!; [|done|by left]. unfold ramfs_write. rstep.
    rewrite bool_decide_true by done. cbn [negb]. rewrite (proj2 (Z.eqb_neq _ 0)) by (by eapply not_null).
    rstep. rewrite u32_small by lia. rbind R1. cbn [negb]. rstep. }
  pose proof G as [G1 G2 G3 G4 G5 G6 G7 G8 G9].
  destruct (write_store ({[LObj (fn_impl n)]} ∪ ∅) d d1 (fn_impl n) f c ns f' l offset b) as (d2 & R2 & K2 & O2 & D2);
    [apply K1|done|done|done|].
  assert (Hp' : node <> rf_data f' /\ fn_impl n <> rf_data f').
  { destruct G8 as [->|[E _]]; [done|]. split; congruence. }
  destruct Hp' as [P1 P2].
  assert (N2 : objs d2 !! node = Some (ONode n)) by (rewrite O2, G9; done).
  assert (F2 : objs d2 !! fn_impl n = Some (OFile f')) by (rewrite O2; done).
  set (n' := if rf_size f <? ns then n_set_size ns n else n).
  set (f2 := if rf_size f <? ns then RamfsFile (rf_data f') ns (rf_capacity f') else f').
  set (d3 := if rf_size f <? ns then
               set_objs d2 (<[node := ONode n']> (<[fn_impl n := OFile f2]> (objs d2))) else d2).
  exists (Z.of_nat (length b)), d3. split_and!; [| |right; split; [done|]].
  - unfold ramfs_write. rstep. rewrite bool_decide_true by done. cbn [negb].
    rewrite (proj2 (Z.eqb_neq _ 0)) by (by eapply not_null). rstep. rewrite u32_small by lia. fold ns.
    rbind R1. cbn [negb]. rstep. rbind R2. rewrite G2. subst d3 f2 n'. destruct (rf_size f <? ns).
    + eapply runs_bind; [|rstep]. rstep. eapply runs_bind.
      * apply (runs_read _ _ _ _ (ONode n)); [|done]. cbn. by rewrite lookup_insert_ne.
      * exact (runs_put _ node _ (set_objs d2 _)).
    + rstep. rstep.
  - eapply kept_trans; [exact K1|]. eapply kept_trans; [exact K2|]. subst d3. destruct (rf_size f <? ns); [|apply kept_refl, K2].
    assert (K3 : kept d2 (set_objs d2 (<[fn_impl n := OFile f2]> (objs d2)))) by (apply kept_put; [apply K2|by rewrite F2]).
    eapply kept_trans; [exact K3|]. refine (kept_put (set_objs d2 _) node (ONode n') (kp_ok _ _ K3) _). cbn. by rewrite lookup_insert_ne, N2.
  - apply (write_contents d d1 d2 node n f c f' l offset b); done.
Qed.

(** ** Directories *)

Record dir_at d (node : Z) (n : fs_node) (r : ramfs_dir) : Prop := DirAt {
  da_node : objs d !! node = Some (ONode n);
  da_type : fn_type n = FS_DIRECTORY;
  da_impl : objs d !! fn_impl n = Some (ODir r)
}.

Lemma dir_impl_runs held d node n r :
  data_ok d -> dir_at d node n r -> runs held (dir_impl node : K _) d (Some (fn_impl n)) d.
Proof.
  intros Hd [H1 H2 H3]. unfold dir_impl. rstep. rewrite bool_decide_true by done.
  rewrite (proj2 (Z.eqb_neq _ 0)) by (by eapply not_null). rstep.
Qed.

Lemma add_entry_runs held d dir r name node :
  data_ok d -> objs d !! dir = Some (ODir r) -> ramfs_find_entry r name = None ->
  refused (heap d) [RDirent] /\ (exists d', runs held (ramfs_add_entry dir name node : K Z) d err d' /\ kept d d' /\ objs d' = objs d) \/
  ~ refused (heap d) [RDirent] /\ (exists d' p, runs held (ramfs_add_entry dir name node : K Z) d ok d' /\ kept d d' /\ objs d !! p = None /\
     objs d' = <[dir := ODir (RamfsDir (RamfsDirent (cut_name name) node p :: rd_entries r) (u32 (rd_count r + 1)))]>
                 (<[p := ODirent]> (objs d))).
Proof.
  intros Hd Hr Hf. destruct (kmalloc_cases held RDirent d Hd) as [(Hoom & d1 & R1 & K1 & O1)|(p & d1 & h & Hp & Hpn & R1 & K1 & O1 & A1)].
  - left. split; [by left|]. exists d1. split; [|done]. unfold ramfs_add_entry. rstep. rewrite Hf. rbind R1. rstep.
  - right. split; [rewrite (refused_later _ _ _ _ _ A1 Hp); by intros []|]. cbn [fresh_obj] in O1. set (r' := RamfsDir (RamfsDirent (cut_name name) node p :: rd_entries r) (u32 (rd_count r + 1))). set (d2 := set_objs d1 (<[p := ODirent]> (objs d1))).
    assert (Hdp : dir <> p) by congruence.
    assert (K2 : kept d1 d2) by (apply kept_put; [apply K1|by rewrite O1, lookup_insert_eq]).
    exists (set_objs d2 (<[dir := ODir r']> (objs d2))), p. split_and!; [| |done|].
    + unfold ramfs_add_entry. rstep. rewrite Hf. rbind R1. rewrite (proj2 (Z.eqb_neq p 0)) by done. rstep.
      eapply runs_bind; [apply (runs_read _ _ _ _ (ODir r)); [|done]|cbn beta; rstep; rstep].
      cbn. by rewrite lookup_insert_ne, O1, lookup_insert_ne.
    + eapply kept_trans; [exact K1|]. eapply kept_trans; [exact K2|]. apply kept_put; [apply K2|].
      cbn. by rewrite lookup_insert_ne, O1, lookup_insert_ne, Hr.
    + cbn. by rewrite O1, insert_insert_eq.
Qed.

(** A block that was just allocated is freed again. *)
Lemma kfree_fresh held d d1 p o :
  data_ok d1 -> objs d !! p = None -> objs d1 = <[p := o]> (objs d) ->
  exists d2, runs held (kfree p : K unit) d1 tt d2 /\ kept d1 d2 /\ objs d2 = objs d.
Proof.
  intros Hd Hn O. destruct (kfree_runs held p d1 o Hd) as (d2 & R & K & O2); [by rewrite O, lookup_insert_eq|].
  exists d2. split_and!; [done|done|]. by rewrite O2, O, delete_insert_eq, delete_id.
Qed.

(** The initialised node and private data, before they are entered. *)
Lemma child_init held d d2 dir new impl o name type permissions ops r0 r1 :
  data_ok d2 -> objs d !! new = None -> objs d !! impl = None -> new <> impl -> LObj impl ∉ held ->
  objs d2 = <[impl := r1]> (<[new := r0]> (objs d)) ->
  exists d3 inode, kept d2 d3 /\ heap d3 = heap d2 /\
    objs d3 = <[new := ONode (new_node name inode type permissions impl ops)]> (<[impl := o]> (objs d)) /\
    forall (k : Z -> K Z) r d', runs held (ramfs_add_entry dir name new ≫= k) d3 r d' ->
      runs held (_ ← put impl o; _ ← mutex_init_at (LObj impl); inode ← alloc_inode;
                 _ ← put new (ONode (new_node name inode type permissions impl ops));
                 r ← ramfs_add_entry dir name new; k r) d2 r d'.
Proof.
  intros Hd Hn Hi Hne Hh O2. set (d3 := set_objs d2 (<[impl := o]> (objs d2))).
  assert (K3 : kept d2 d3) by (apply kept_put; [done|by rewrite O2, lookup_insert_eq]).
  destruct (inode_runs held d3 (kp_ok _ _ K3)) as (d4 & R4 & K4 & O4 & H4).
  set (n := ONode (new_node name (next_inode d3) type permissions impl ops)).
  exists (set_objs d4 (<[new := n]> (objs d4))), (next_inode d3). split_and!.
  - eapply kept_trans; [exact K3|]. eapply kept_trans; [exact K4|]. apply kept_put; [apply K4|].
    rewrite O4. cbn. by rewrite lookup_insert_ne, O2, lookup_insert_ne, lookup_insert_eq.
  - by cbn; rewrite H4.
  - cbn. rewrite O4. cbn. rewrite O2, insert_insert_eq, (insert_insert_ne (objs d)), insert_insert_eq by done. done.
  - intros k r d' Hr. rstep. eapply runs_bind; [by apply runs_mutex_init|]. cbn beta. rbind R4. rstep. exact Hr.
Qed.

Lemma new_child_runs held d dir r name req o type permissions ops :
  data_ok d -> objs d !! dir = Some (ODir r) -> ramfs_find_entry r name = None ->
  (forall p, objs d !! p = None -> LObj p ∉ held) ->
  let op := new_child dir name req o type permissions ops : K Z in
  refused (heap d) [RNode; req; RDirent] /\ (exists d', runs held op d err d' /\ kept d d' /\ objs d' = objs d) \/
  ~ refused (heap d) [RNode; req; RDirent] /\ (exists d' new impl p inode, runs held op d ok d' /\ kept d d' /\
     objs d !! new = None /\ objs d !! impl = None /\ objs d !! p = None /\
     new <> impl /\ p <> new /\ p <> impl /\ new <> 0 /\
     objs d' = <[dir := ODir (RamfsDir (RamfsDirent (cut_name name) new p :: rd_entries r) (u32 (rd_count r + 1)))]>
                 (<[p := ODirent]> (<[new := ONode (new_node name inode type permissions impl ops)]>
                    (<[impl := o]> (objs d))))).
Proof.
  intros Hd Hr Hf Hh op. subst op.
  destruct (kmalloc_cases held RNode d Hd) as [(Hoom & d1 & R1 & K1 & O1)|(new & d1 & h & Hp & Hpn & R1 & K1 & O1 & A1)].
  { left. split; [by left|]. exists d1. split; [|done]. unfold new_child. rstep. rewrite Hf. rbind R1. rstep. }
  destruct (kmalloc_cases held req d1 (kp_ok _ _ K1)) as [(Hoom & d2 & R2 & K2 & O2)|(impl & d2 & h2 & Hi & Hin & R2 & K2 & O2 & A2)].
  { left. split; [rewrite (refused_later _ _ _ _ _ A1 Hp); by left|]. destruct (kfree_fresh held d d2 new ORaw) as (d3 & R3 & K3 & O3); [apply K2|done|by rewrite O2|].
    exists d3. split_and!; [|kept_chain|done].
    unfold new_child. rstep. rewrite Hf. rbind R1. rewrite (proj2 (Z.eqb_neq new 0)) by done. rbind R2. rbind R3. rstep. }
  rewrite O1 in Hin. apply lookup_insert_None in Hin as [Hin Hne].
  destruct (child_init held d d2 dir new impl o name type permissions ops ORaw (fresh_obj req impl h2))
    as (d3 & inode & K3 & H3 & O3 & R3); [apply K2|done|done|done|by apply Hh|by rewrite O2, O1|].
  assert (Hr3 : objs d3 !! dir = Some (ODir r)) by (rewrite O3, !lookup_insert_ne; congruence).
  assert (Hstart : forall x d', runs held (r ← ramfs_add_entry dir name new;
      if negb (r =? 0) then _ ← kfree impl; _ ← kfree new; mret err else mret ok : K Z) d3 x d' ->
      runs held (new_child dir name req o type permissions ops : K Z) d x d').
  { intros x d' Hx. unfold new_child. rstep. rewrite Hf. rbind R1. rewrite (proj2 (Z.eqb_neq new 0)) by done.
    rbind R2. rewrite (proj2 (Z.eqb_neq impl 0)) by done.
    exact (R3 (fun r => if negb (r =? 0) then _ ← kfree impl; _ ← kfree new; mret err else mret ok) x d' Hx). }
  destruct (add_entry_runs held d3 dir r name new (kp_ok _ _ K3) Hr3 Hf) as [(Hoom & d4 & R4 & K4 & O4)|(Hoom & d4 & p & R4 & K4 & Hpn4 & O4)];
    rewrite H3 in Hoom.
  - left. split; [by rewrite (refused_later _ _ _ _ _ A1 Hp), (refused_later _ _ _ _ _ A2 Hi)|]. destruct (kfree_runs held impl d4 o) as (d5 & R5 & K5 & O5); [apply K4|by rewrite O4, O3, lookup_insert_ne, lookup_insert_eq|].
    destruct (kfree_fresh held d d5 new (ONode (new_node name inode type permissions impl ops))) as (d6 & R6 & K6 & O6);
      [apply K5|done| |].
    { rewrite O5, O4, O3, delete_insert_ne, delete_insert_eq, delete_id by done. done. }
    exists d6. split_and!; [|kept_chain|done].
    apply Hstart. rbind R4. rbind R5. rbind R6. rstep.
  - right. split; [by rewrite (refused_later _ _ _ _ _ A1 Hp), (refused_later _ _ _ _ _ A2 Hi)|]. rewrite O3 in Hpn4. apply lookup_insert_None in Hpn4 as [Hpn4 ?]. apply lookup_insert_None in Hpn4 as [Hpn4 ?].
    exists d4, new, impl, p, inode. split_and!; try done.
    + apply Hstart. rbind R4. rstep.
    + kept_chain.
    + by rewrite O4, O3.
Qed.

End facts.
