(* ===== verification/RamfsTree.v ===== *)
(** * The ramfs tree stays a tree

    The ownership discipline of ramfs objects: a node owns its private data,
    a file its data block, a directory its entries and their nodes.  In a
    [tree_ok] state every owned pointer leads to a live object of the right
    kind, nothing has two owners, and every managed object is a root or has
    an owner: no dangling pointer, no double free, no leak.  The lemmas here
    show that each operation keeps this, on every branch. *)

From S2P Require Import Prelude Spinlock Task Sync FsState Ramfs RamfsFacts.

(** ** Ownership *)

Inductive okind := KNode | KFile | KDir | KDirent | KBytes (n : Z) | KOther.

Definition is_ram (n : fs_node) : bool := bool_decide (fn_type n = FS_FILE) || bool_decide (fn_type n = FS_DIRECTORY).

Definition kind (o : obj) : okind :=
  match o with
  | ONode n => if is_ram n then KNode else KOther
  | OFile _ => KFile | ODir _ => KDir | ODirent => KDirent
  | OBytes l => KBytes (Z.of_nat (length l))
  | _ => KOther
  end.

Definition entry_wants (x : ramfs_dirent) : list (Z * okind) := [(re_node x, KNode); (re_addr x, KDirent)].

(** The pointers an object owns, and what they must lead to. *)
Definition wants (o : obj) : list (Z * okind) :=
  match o with
  | ONode n =>
      match fn_type n with
      | FS_FILE => [(fn_impl n, KFile)]
      | FS_DIRECTORY => [(fn_impl n, KDir)]
      | _ => []
      end
  | OFile f => if rf_data f =? 0 then [] else [(rf_data f, KBytes (rf_capacity f))]
  | ODir r => rd_entries r ≫= entry_wants
  | _ => []
  end.

(** Nodes of ramfs are static and have the operations of their type. *)
Definition ops_of (t : fs_node_type) : node_ops := match t with FS_DIRECTORY => OpsRamDir | _ => OpsRamFile end.
Definition ram_ok (n : fs_node) : Prop := counted n = false /\ fn_ops n = ops_of (fn_type n).

(** The local condition on one object. *)
Definition local_ok (o : obj) : Prop :=
  match o with
  | OFile f => 0 <= rf_size f <= rf_capacity f /\ rf_capacity f < 2 ^ 32 /\ (rf_data f = 0 -> rf_capacity f = 0)
  | ODir r => rd_count r = Z.of_nat (length (rd_entries r)) /\ NoDup (re_name <$> rd_entries r) /\ rd_count r < 2 ^ 32
  | ONode n => is_ram n = true -> ram_ok n
  | ORaw => False
  | _ => True
  end.

Section tree.
Context {H W : Type} `{!ObjHeap H} `{!ObjHeapLaws H} `{!TaskResources W}.
Implicit Types (d : fsd H).
Abbreviation K := (K H W).

Definition owns d (p x : Z) (k : okind) : Prop := exists o, objs d !! p = Some o /\ (x, k) ∈ wants o.

Record tree_ok (roots : list Z) d : Prop := TreeOk {
  to_data : data_ok d;
  to_local : forall p o, objs d !! p = Some o -> local_ok o;
  to_typed : forall p x k, owns d p x k -> exists o, objs d !! x = Some o /\ kind o = k;
  to_nodup : forall p o, objs d !! p = Some o -> NoDup (wants o).*1;
  to_unique : forall p q x k k', owns d p x k -> owns d q x k' -> p = q;
  to_rooted : forall x o, objs d !! x = Some o -> kind o <> KOther -> x ∈ roots \/ exists p k, owns d p x k;
  to_roots : forall x, x ∈ roots -> (exists n, objs d !! x = Some (ONode n) /\ fn_type n = FS_DIRECTORY) /\
                                    forall p k, ~ owns d p x k
}.

(** An owned object, as file or directory. *)
Lemma tree_file roots d node n :
  tree_ok roots d -> objs d !! node = Some (ONode n) -> fn_type n = FS_FILE ->
  exists f c, file_at d node n f c.
Proof.
  intros Ht Hn Hty. destruct (to_typed _ _ Ht node (fn_impl n) KFile) as (o & Ho & Hk).
  { exists (ONode n). split; [done|]. cbn. rewrite Hty. set_solver. }
  assert (exists f, o = OFile f) as [f ->].
  { destruct o as [m|f| | | | | |]; try done; [|by exists f]. cbn in Hk. by destruct (is_ram m). }
  destruct (to_local _ _ Ht _ _ Ho) as (L1 & L2 & L3).
  destruct (decide (rf_data f = 0)) as [E|E].
  - exists f, []. split; try done; cbn; [specialize (L3 E); lia|]. left. auto.
  - destruct (to_typed _ _ Ht (fn_impl n) (rf_data f) (KBytes (rf_capacity f))) as (ob & Hb & Hkb).
    { exists (OFile f). split; [done|]. cbn. rewrite (proj2 (Z.eqb_neq _ 0)) by done. set_solver. }
    assert (exists l, ob = OBytes l /\ Z.of_nat (length l) = rf_capacity f) as (l & -> & Hl).
    { destruct ob as [m| | | | | |l|]; try done; cbn in Hkb; [by destruct (is_ram m)|]. exists l. split; [done|congruence]. }
    exists f, (take (Z.to_nat (rf_size f)) l).
    assert (Hlt : length (take (Z.to_nat (rf_size f)) l) = Z.to_nat (rf_size f)) by (rewrite length_take; lia).
    split; try done; [lia|]. right. exists l. rewrite Hlt. done.
Qed.

Lemma tree_dir roots d node n :
  tree_ok roots d -> objs d !! node = Some (ONode n) -> fn_type n = FS_DIRECTORY ->
  exists r, dir_at d node n r.
Proof.
  intros Ht Hn Hty. destruct (to_typed _ _ Ht node (fn_impl n) KDir) as (o & Ho & Hk).
  { exists (ONode n). split; [done|]. cbn. rewrite Hty. set_solver. }
  destruct o as [m| |r| | | | |]; try done; [cbn in Hk; by destruct (is_ram m)|]. by exists r.
Qed.

(** A directory's entry leads to a node with its dirent. *)
Lemma entry_owned d p r x :
  objs d !! p = Some (ODir r) -> x ∈ rd_entries r -> owns d p (re_node x) KNode /\ owns d p (re_addr x) KDirent.
Proof.
  intros Hp Hx. assert (Hin : forall y, y ∈ entry_wants x -> y ∈ wants (ODir r)).
  { intros y Hy. cbn. apply list_elem_of_bind. by exists x. }
  split; exists (ODir r); (split; [done|]; apply Hin; set_solver).
Qed.

Lemma tree_entry roots d p r x :
  tree_ok roots d -> objs d !! p = Some (ODir r) -> x ∈ rd_entries r ->
  (exists n, objs d !! re_node x = Some (ONode n) /\ is_ram n = true) /\ objs d !! re_addr x = Some ODirent.
Proof.
  intros Ht Hp Hx. destruct (entry_owned d p r x Hp Hx) as [O1 O2].
  destruct (to_typed _ _ Ht _ _ _ O1) as (o1 & E1 & K1). destruct (to_typed _ _ Ht _ _ _ O2) as (o2 & E2 & K2). split.
  - destruct o1 as [m| | | | | | |]; try done. exists m. split; [done|]. cbn in K1. by destruct (is_ram m).
  - destruct o2 as [m| | | | | | |]; try done. cbn in K2. by destruct (is_ram m).
Qed.

(** What is not in the heap is not owned. *)
Lemma fresh_unowned roots d p x k : tree_ok roots d -> objs d !! x = None -> ~ owns d p x k.
Proof. intros Ht Hx Ho. destruct (to_typed _ _ Ht _ _ _ Ho) as (o & E & _). congruence. Qed.

(** Every object keeps its kind and what it owns. *)
Lemma tree_relabel roots d d' :
  tree_ok roots d -> data_ok d' -> dom (objs d') = dom (objs d) ->
  (forall p o o', objs d !! p = Some o -> objs d' !! p = Some o' ->
     kind o' = kind o /\ wants o' = wants o /\ local_ok o' /\
     (forall n, o = ONode n -> exists n', o' = ONode n' /\ fn_type n' = fn_type n)) ->
  tree_ok roots d'.
Proof.
  intros Ht Hd' Hdom Hsame.
  assert (Hfwd : forall p o, objs d !! p = Some o -> exists o', objs d' !! p = Some o').
  { intros p o Hp. apply elem_of_dom. rewrite Hdom. by apply elem_of_dom_2 in Hp. }
  assert (Hbwd : forall p o', objs d' !! p = Some o' -> exists o, objs d !! p = Some o).
  { intros p o' Hp. apply elem_of_dom. rewrite <- Hdom. by apply elem_of_dom_2 in Hp. }
  assert (Hown : forall p x k, owns d' p x k <-> owns d p x k).
  { intros p x k. split; intros (o & Hp & Hin).
    - destruct (Hbwd _ _ Hp) as [o0 Hp0]. exists o0. split; [done|]. by destruct (Hsame _ _ _ Hp0 Hp) as (_ & <- & _).
    - destruct (Hfwd _ _ Hp) as [o0 Hp0]. exists o0. split; [done|]. by destruct (Hsame _ _ _ Hp Hp0) as (_ & -> & _). }
  split; [done|..].
  - intros p o Hp. destruct (Hbwd _ _ Hp) as [o0 Hp0]. by destruct (Hsame _ _ _ Hp0 Hp) as (_ & _ & ? & _).
  - intros p x k Ho. apply Hown, (to_typed _ _ Ht) in Ho as (o & Hx & Hk). destruct (Hfwd _ _ Hx) as [o' Hx'].
    exists o'. split; [done|]. by destruct (Hsame _ _ _ Hx Hx') as (-> & _).
  - intros p o Hp. destruct (Hbwd _ _ Hp) as [o0 Hp0]. destruct (Hsame _ _ _ Hp0 Hp) as (_ & -> & _). by apply (to_nodup _ _ Ht p).
  - intros p q x k k' H1%Hown H2%Hown. by eapply (to_unique _ _ Ht).
  - intros x o Hx Hk. destruct (Hbwd _ _ Hx) as [o0 Hx0]. destruct (Hsame _ _ _ Hx0 Hx) as (Ek & _).
    destruct (to_rooted _ _ Ht x o0 Hx0) as [?|(p & k & Ho)]; [congruence|by left|right]. exists p, k. by apply Hown.
  - intros x Hx. destruct (to_roots _ _ Ht x Hx) as [(n & Hn & Hty) Hno]. split.
    + destruct (Hfwd _ _ Hn) as [o' Ho']. destruct (Hsame _ _ _ Hn Ho') as (_ & _ & _ & Hs).
      destruct (Hs n eq_refl) as (n' & -> & Hty'). exists n'. split; [done|congruence].
    + intros p k Ho%Hown. by apply (Hno p k).
Qed.

(** ** Creation *)

(** The directory [r] of [dir] gets an entry for a fresh node [new] with
    fresh private data [impl]. *)
Record child_added d d' (dir : Z) (r : ramfs_dir) (name : str) (new impl p : Z) (n : fs_node) (o : obj) : Prop := ChildAdded {
  ca_objs : objs d' = <[dir := ODir (RamfsDir (RamfsDirent (cut_name name) new p :: rd_entries r) (u32 (rd_count r + 1)))]>
                        (<[p := ODirent]> (<[new := ONode n]> (<[impl := o]> (objs d))));
  ca_fresh : objs d !! new = None /\ objs d !! impl = None /\ objs d !! p = None;
  ca_ne : new <> impl /\ p <> new /\ p <> impl
}.

Lemma child_owns d d' dir r name new impl p n o ki :
  objs d !! dir = Some (ODir r) -> child_added d d' dir r name new impl p n o ->
  wants (ONode n) = [(impl, ki)] -> wants o = [] ->
  forall q x k, owns d' q x k <->
    owns d q x k \/ (q = dir /\ (x, k) ∈ [(new, KNode); (p, KDirent)]) \/ (q = new /\ x = impl /\ k = ki).
Proof.
  intros Hr [Ho (F1 & F2 & F3) (N1 & N2 & N3)] Hwn Hwo q x k. unfold owns. rewrite Ho.
  destruct (decide (q = dir)) as [->|Q1].
  { rewrite lookup_insert_eq. split.
    - intros (? & [= <-] & Hin). cbn [wants rd_entries] in Hin. rewrite bind_cons in Hin.
      apply elem_of_app in Hin as [Hin|Hin]; [by right; left|left]. by exists (ODir r).
    - intros [(? & Hq & Hin)|[[_ Hin]|(? & _)]]; [|eexists; split; [done|]..|congruence]; cbn [wants rd_entries]; rewrite ?bind_cons.
      + eexists; split; [done|]. cbn [wants rd_entries]. rewrite bind_cons. apply elem_of_app. right.
        rewrite Hr in Hq. by injection Hq as <-.
      + apply elem_of_app. by left. }
  rewrite lookup_insert_ne by done. destruct (decide (q = p)) as [->|Q2].
  { rewrite lookup_insert_eq. split; [intros (? & [= <-] & Hin); set_solver|].
    intros [(? & Hq & _)|[[? _]|(? & _)]]; congruence. }
  rewrite lookup_insert_ne by done. destruct (decide (q = new)) as [->|Q3].
  { rewrite lookup_insert_eq. split.
    - intros (? & [= <-] & Hin). right; right. rewrite Hwn in Hin. set_solver.
    - intros [(? & Hq & _)|[[? _]|(_ & -> & ->)]]; [congruence..|]. eexists; split; [done|]. rewrite Hwn. set_solver. }
  rewrite lookup_insert_ne by done. destruct (decide (q = impl)) as [->|Q4].
  { rewrite lookup_insert_eq. split; [intros (? & [= <-] & Hin); rewrite Hwo in Hin; set_solver|].
    intros [(? & Hq & _)|[[? _]|(? & _)]]; congruence. }
  rewrite lookup_insert_ne by done. split; [by left|]. intros [Hq|[[? _]|(? & _)]]; [done|congruence..].
Qed.

Lemma cut_name_short name : (length name <= 127)%nat -> cut_name name = name.
Proof. apply take_ge. Qed.

Lemma find_name_none name l : find_name name l = None -> name ∉ (re_name <$> l).
Proof.
  induction l as [|x l IH]; cbn [find_name fmap list_fmap]; [intros _; apply not_elem_of_nil|].
  unfold named. case_bool_decide; [done|]. intros Hf. apply not_elem_of_cons. split; [done|by apply IH].
Qed.

Lemma find_name_some name l x : find_name name l = Some x -> x ∈ l /\ re_name x = name.
Proof.
  induction l as [|y l IH]; cbn [find_name]; [done|]. unfold named. case_bool_decide.
  - intros [= <-]. split; [left|done].
  - intros [? ?]%IH. split; [by right|done].
Qed.

Definition with_child (r : ramfs_dir) (name : str) (new p : Z) : obj :=
  ODir (RamfsDir (RamfsDirent (cut_name name) new p :: rd_entries r) (u32 (rd_count r + 1))).

Lemma child_cases d d' dir r name new impl p n o :
  child_added d d' dir r name new impl p n o -> objs d !! dir = Some (ODir r) ->
  forall q ob, objs d' !! q = Some ob <->
    (q = dir /\ ob = with_child r name new p) \/ (q = new /\ ob = ONode n) \/ (q = impl /\ ob = o) \/
    (q = p /\ ob = ODirent) \/ (q <> dir /\ objs d !! q = Some ob).
Proof.
  intros [Ho (F1 & F2 & F3) (N1 & N2 & N3)] Hr q ob. rewrite Ho.
  assert (dir <> new /\ dir <> impl /\ dir <> p) as (D1 & D2 & D3) by (split_and!; congruence).
  rewrite !lookup_insert_Some. unfold with_child. naive_solver congruence.
Qed.

(** What is owned in the old state is none of the fresh addresses. *)
Lemma child_unowned roots d d' dir r name new impl p n o q x k :
  tree_ok roots d -> child_added d d' dir r name new impl p n o -> owns d q x k ->
  x <> new /\ x <> impl /\ x <> p.
Proof.
  intros Ht [_ (F1 & F2 & F3) _] Hq. split_and!; intros ->; by apply (fresh_unowned roots d q _ k Ht) in Hq.
Qed.

Section child.
Context (roots : list Z) (d d' : fsd H) (dir : Z) (r : ramfs_dir) (name : str) (new impl p : Z) (n : fs_node) (o : obj) (ki : okind).
Context (Ht : tree_ok roots d) (Hr : objs d !! dir = Some (ODir r)).
Context (Hca : child_added d d' dir r name new impl p n o).
Context (Hwn : wants (ONode n) = [(impl, ki)]) (Hwo : wants o = []) (Hki : kind o = ki).

Lemma child_nodup q ob : objs d' !! q = Some ob -> NoDup (wants ob).*1.
Proof.
  pose proof Hca as [_ _ (N1 & N2 & N3)].
  intros [[-> ->]|[[-> ->]|[[-> ->]|[[-> ->]|[_ Hq]]]]]%(child_cases _ _ _ _ _ _ _ _ _ _ Hca Hr).
  - cbn [wants with_child rd_entries]. rewrite bind_cons, fmap_app. cbn [entry_wants fmap list_fmap fst app re_node re_addr].
    assert (Hsub : forall y, y ∈ (wants (ODir r)).*1 -> y <> new /\ y <> p).
    { intros y ([y' k] & -> & Hy)%list_elem_of_fmap.
      destruct (child_unowned roots d d' dir r name new impl p n o dir y' k Ht Hca) as (? & _ & ?); [by exists (ODir r)|done]. }
    apply list.NoDup_cons. split; [|apply list.NoDup_cons; split; [|exact (to_nodup _ _ Ht _ _ Hr)]].
    + rewrite not_elem_of_cons. split; [done|]. intros Hin. by apply Hsub in Hin as [? _].
    + intros Hin. by apply Hsub in Hin as [_ ?].
  - rewrite Hwn. apply NoDup_singleton.
  - rewrite Hwo. constructor.
  - constructor.
  - by apply (to_nodup _ _ Ht q).
Qed.

Lemma child_unique q1 q2 x k k' : owns d' q1 x k -> owns d' q2 x k' -> q1 = q2.
Proof.
  pose proof (child_owns _ _ _ _ _ _ _ _ _ _ _ Hr Hca Hwn Hwo) as Hown.
  assert (Hnone : forall q x k, owns d q x k -> x <> new /\ x <> impl /\ x <> p) by (intros; by eapply child_unowned).
  pose proof Hca as [_ _ (N1 & N2 & N3)].
  assert (Hnew : forall q x k, (q = dir /\ (x, k) ∈ [(new, KNode); (p, KDirent)]) \/ (q = new /\ x = impl /\ k = ki) ->
     (q = dir /\ (x = new \/ x = p)) \/ (q = new /\ x = impl)) by set_solver.
  intros [H1|H1%Hnew]%Hown [H2|H2%Hnew]%Hown.
  - by eapply (to_unique _ _ Ht).
  - apply Hnone in H1. naive_solver.
  - apply Hnone in H2. naive_solver.
  - naive_solver.
Qed.

Lemma tree_child :
  data_ok d' -> ramfs_find_entry r name = None -> (length name <= 127)%nat ->
  Z.of_nat (length (rd_entries r)) < 2 ^ 32 - 1 -> is_ram n = true -> ram_ok n -> local_ok o -> tree_ok roots d'.
Proof.
  intros Hd' Hf Hlen Hcnt Hram Hfl Hlo. pose proof (child_owns _ _ _ _ _ _ _ _ _ _ _ Hr Hca Hwn Hwo) as Hown.
  pose proof (child_cases _ _ _ _ _ _ _ _ _ _ Hca Hr) as Hobj. pose proof Hca as [_ (F1 & F2 & F3) _].
  assert (Hold : forall q ob, objs d !! q = Some ob -> exists ob', objs d' !! q = Some ob' /\ kind ob' = kind ob).
  { intros q ob Hq. destruct (decide (q = dir)) as [->|].
    - exists (with_child r name new p). split; [apply Hobj; by left|]. rewrite Hr in Hq. by injection Hq as <-.
    - exists ob. split; [|done]. apply Hobj. auto 10. }
  split; [done|..].
  - intros q ob [[-> ->]|[[-> ->]|[[-> ->]|[[-> ->]|[_ Hq]]]]]%Hobj; try done; [|by intros _|by apply (to_local _ _ Ht q)].
    destruct (to_local _ _ Ht _ _ Hr) as (Hc & Hnd & Hcb). cbn [local_ok with_child rd_count rd_entries]. rewrite u32_small by lia.
    split_and!; [cbn [length]; lia| |lia]. rewrite fmap_cons. cbn [re_name]. rewrite cut_name_short by done.
    apply list.NoDup_cons. split; [by apply find_name_none|done].
  - intros q x k [Hq|[[-> Hin]|(-> & -> & ->)]]%Hown.
    + destruct (to_typed _ _ Ht _ _ _ Hq) as (ob & Hx & Hk). destruct (Hold _ _ Hx) as (ob' & Hx' & Hk').
      exists ob'. split; [done|congruence].
    + apply elem_of_cons in Hin as [[= -> ->]|Hin]; [|apply list_elem_of_singleton in Hin as [= -> ->]].
      * exists (ONode n). split; [apply Hobj; auto|]. cbn. by rewrite Hram.
      * exists ODirent. split; [apply Hobj; auto 10|done].
    + exists o. split; [apply Hobj; auto 10|done].
  - apply child_nodup.
  - apply child_unique.
  - intros x ob [[-> ->]|[[-> ->]|[[-> ->]|[[-> ->]|[_ Hx]]]]]%Hobj Hk.
    + destruct (to_rooted _ _ Ht _ _ Hr) as [?|(q & k & Hq)]; [done|by left|right]. exists q, k. apply Hown. by left.
    + right. exists dir, KNode. apply Hown. right; left. set_solver.
    + right. exists new, ki. apply Hown. auto.
    + right. exists dir, KDirent. apply Hown. right; left. set_solver.
    + destruct (to_rooted _ _ Ht _ _ Hx Hk) as [?|(q & k & Hq)]; [by left|right]. exists q, k. apply Hown. by left.
  - intros x Hx. destruct (to_roots _ _ Ht x Hx) as [(m & Hm & Hty) Hno]. split.
    + exists m. split; [|done]. apply Hobj. do 4 right. split; [congruence|done].
    + intros q k [Hq|[[-> Hin]|(-> & -> & ->)]]%Hown; [by apply (Hno q k)|..]; [|congruence].
      apply elem_of_cons in Hin as [[= -> ->]|[= -> ->]%list_elem_of_singleton]; congruence.
Qed.

End child.

(** ** Writing *)

Lemma file_owns d node n f c :
  file_at d node n f c -> rf_data f <> 0 -> owns d (fn_impl n) (rf_data f) (KBytes (rf_capacity f)).
Proof.
  intros Hf Hd. exists (OFile f). split; [apply Hf|]. cbn. rewrite (proj2 (Z.eqb_neq _ 0)) by done. by left.
Qed.

Section write.
Context (roots : list Z) (d d' : fsd H) (node : Z) (n n' : fs_node) (f f' : ramfs_file) (c c' : list Z).
Context (Ht : tree_ok roots d) (Hd' : data_ok d').
Context (Hf : file_at d node n f c) (Hf' : file_at d' node n' f' c') (Hi : fn_impl n' = fn_impl n).
Context (Hfl : fn_flags n' = fn_flags n) (Hop : fn_ops n' = fn_ops n).
Context (Hnew : rf_data f' = rf_data f \/ objs d !! rf_data f' = None /\ (rf_data f <> 0 -> objs d' !! rf_data f = None)).
Context (Hfr : forall q, q <> node -> q <> fn_impl n -> q <> rf_data f -> q <> rf_data f' -> objs d' !! q = objs d !! q).

(** What is at an address afterwards: the node, the file, its block, or
    what was there before. *)
Lemma write_cases q ob :
  objs d' !! q = Some ob ->
  (q = node /\ ob = ONode n') \/ (q = fn_impl n /\ ob = OFile f') \/
  (q = rf_data f' /\ rf_data f' <> 0 /\ kind ob = KBytes (rf_capacity f') /\ wants ob = []) \/
  (q <> node /\ q <> fn_impl n /\ q <> rf_data f /\ q <> rf_data f' /\ objs d !! q = Some ob).
Proof.
  intros Hq. pose proof Hf' as [F1 F2 F3 F4 F5 F6]. rewrite Hi in F3.
  destruct (decide (q = node)) as [->|Q1]; [left; split; congruence|].
  destruct (decide (q = fn_impl n)) as [->|Q2]; [right; left; split; congruence|].
  destruct (decide (q = rf_data f')) as [->|Q3].
  - right; right; left. assert (Hz : rf_data f' <> 0) by (intros E; rewrite E, (do_null _ Hd') in Hq; done).
    destruct F6 as [[? _]|(l & _ & El & Hl & _)]; [done|]. rewrite El in Hq. injection Hq as <-.
    split_and!; try done. cbn. congruence.
  - right; right; right. assert (Q4 : q <> rf_data f).
    { intros ->. destruct Hnew as [E|[_ E]]; [congruence|]. destruct (decide (rf_data f = 0)) as [E0|E0].
      - rewrite E0, (do_null _ Hd') in Hq. done.
      - rewrite (E E0) in Hq. done. }
    split_and!; try done. by rewrite <- Hfr.
Qed.

Lemma write_owns q x k :
  owns d' q x k <->
  (q = fn_impl n /\ rf_data f' <> 0 /\ x = rf_data f' /\ k = KBytes (rf_capacity f')) \/ (q <> fn_impl n /\ owns d q x k).
Proof.
  destruct (file_ptrs d node n f c (to_data _ _ Ht) Hf) as (P1 & P2 & P3).
  destruct (file_ptrs d' node n' f' c' Hd' Hf') as (_ & P4 & P5). rewrite Hi in P5.
  pose proof Hf as [G1 G2 G3 _ _ _]. pose proof Hf' as [F1 F2 F3 _ _ _]. rewrite Hi in F3. split.
  - intros (ob & Hq & Hin). destruct (write_cases q ob Hq) as [[-> ->]|[[-> ->]|[(-> & _ & _ & E)|(Q1 & Q2 & Q3 & Q4 & Hq0)]]].
    + right. split; [done|]. exists (ONode n). split; [done|]. cbn [wants] in *. rewrite F2, Hi in Hin. by rewrite G2.
    + left. cbn [wants] in Hin. case_if_in Hin; [set_solver|]. apply list_elem_of_singleton in Hin as [= -> ->]. done.
    + rewrite E in Hin. set_solver.
    + right. split; [done|]. by exists ob.
  - intros [(-> & Hz & -> & ->)|[Hq (ob & Hob & Hin)]].
    + rewrite <- Hi. by eapply file_owns.
    + destruct (decide (q = node)) as [->|Q1].
      { rewrite G1 in Hob. injection Hob as <-. exists (ONode n'). split; [done|]. cbn [wants] in *. by rewrite F2, Hi; rewrite G2 in Hin. }
      assert (Q2 : q <> rf_data f).
      { intros ->. destruct (decide (rf_data f = 0)) as [E0|E0]; [rewrite E0, (do_null _ (to_data _ _ Ht)) in Hob; done|].
        destruct (to_typed _ _ Ht _ _ _ (file_owns _ _ _ _ _ Hf E0)) as (o2 & Ho2 & Hk2). rewrite Hob in Ho2. injection Ho2 as <-.
        destruct ob as [m| | | | | | |]; cbn in *; try done; [by destruct (is_ram m)|set_solver]. }
      assert (Q3 : q <> rf_data f') by (intros ->; destruct Hnew as [E|[E _]]; congruence).
      exists ob. split; [by rewrite Hfr|done].
Qed.

Lemma write_keeps q x k : q <> fn_impl n -> owns d q x k ->
  exists ob ob', objs d !! x = Some ob /\ objs d' !! x = Some ob' /\ kind ob' = kind ob.
Proof.
  intros Hq Hx. destruct (to_typed _ _ Ht _ _ _ Hx) as (ob & Hob & _). exists ob.
  pose proof Hf as [G1 G2 G3 _ _ _]. pose proof Hf' as [F1 F2 F3 _ _ _]. rewrite Hi in F3.
  destruct (decide (x = node)) as [->|X1].
  { exists (ONode n'). split_and!; [done..|]. rewrite G1 in Hob. injection Hob as <-. cbn. unfold is_ram. by rewrite F2, G2. }
  destruct (decide (x = fn_impl n)) as [->|X2].
  { exists (OFile f'). split_and!; [done..|]. rewrite G3 in Hob. by injection Hob as <-. }
  exists ob. split_and!; [done| |done]. rewrite Hfr; try done.
  - intros ->. destruct (decide (rf_data f = 0)) as [E0|E0]; [rewrite E0, (do_null _ (to_data _ _ Ht)) in Hob; done|].
    apply Hq. eapply (to_unique _ _ Ht); [exact Hx|by eapply file_owns].
  - intros ->. destruct Hnew as [E|[E _]]; [|congruence]. rewrite E in *.
    destruct (decide (rf_data f = 0)) as [E0|E0]; [rewrite E0, (do_null _ (to_data _ _ Ht)) in Hob; done|].
    apply Hq. eapply (to_unique _ _ Ht); [exact Hx|by eapply file_owns].
Qed.

Lemma tree_write : tree_ok roots d'.
Proof.
  pose proof Hf as [G1 G2 G3 _ _ _]. pose proof Hf' as [F1 F2 F3 F4 F5 F6]. rewrite Hi in F3.
  split; [done|..].
  - intros q ob Hq. destruct (write_cases q ob Hq) as [[-> ->]|[[-> ->]|[(-> & Hz & E & _)|(_ & _ & _ & _ & Hq0)]]]; [| | |by apply (to_local _ _ Ht q)].
    + intros _. unfold ram_ok, counted. rewrite Hfl, Hop, F2, <- G2. apply (to_local _ _ Ht node (ONode n) G1). unfold is_ram. by rewrite G2.
    + split_and!; try apply F5. intros E0. destruct F6 as [[_ ?]|(l & ? & _)]; [done|done].
    + destruct ob as [mm| | | | | | |]; cbn in E |- *; try done. by destruct (is_ram mm).
  - intros q x k [(-> & Hz & -> & ->)|[Hq Hx]]%write_owns.
    + destruct F6 as [[? _]|(l & _ & El & Hl & _)]; [done|]. exists (OBytes l). split; [done|]. cbn. congruence.
    + destruct (write_keeps q x k Hq Hx) as (ob & ob' & Hob & Hob' & Ek). exists ob'. split; [done|].
      destruct (to_typed _ _ Ht _ _ _ Hx) as (o2 & Ho2 & Hk2). congruence.
  - intros q ob Hq. destruct (write_cases q ob Hq) as [[-> ->]|[[-> ->]|[(-> & _ & _ & E)|(_ & _ & _ & _ & Hq0)]]]; [..|by apply (to_nodup _ _ Ht q)].
    + cbn. rewrite F2. apply NoDup_singleton.
    + cbn. case_if; [constructor|apply NoDup_singleton].
    + rewrite E. constructor.
  - assert (Hx : forall q, q <> fn_impl n -> rf_data f' <> 0 -> forall k, ~ owns d q (rf_data f') k).
    { intros q Hq Hz k Ho. destruct Hnew as [E|[E _]]; [|by apply (fresh_unowned roots d q _ k Ht) in Ho].
      apply Hq. eapply (to_unique _ _ Ht); [exact Ho|]. rewrite E. eapply file_owns; [done|congruence]. }
    intros q1 q2 x k k' [(-> & Hz & -> & ->)|[Hq1 H1]]%write_owns [(-> & Hz2 & Ex & ->)|[Hq2 H2]]%write_owns; try done.
    + by apply Hx in H2.
    + subst x. by apply Hx in H1.
    + by eapply (to_unique _ _ Ht).
  - intros x ob Hx Hk.
    assert (Hold : forall ob0, objs d !! x = Some ob0 -> kind ob0 <> KOther -> x <> rf_data f \/ rf_data f = 0 -> x ∈ roots \/ exists p k, owns d' p x k).
    { intros ob0 Hx0 Hk0 Hne. destruct (to_rooted _ _ Ht x ob0 Hx0 Hk0) as [?|(p & k & Ho)]; [by left|right].
      exists p, k. apply write_owns. right. split; [|done]. intros ->. destruct Ho as (o2 & Ho2 & Hin). rewrite G3 in Ho2.
      injection Ho2 as <-. cbn in Hin. case_if_in Hin; [set_solver|]. apply list_elem_of_singleton in Hin as [= -> _]. naive_solver. }
    destruct (file_ptrs d node n f c (to_data _ _ Ht) Hf) as (P1 & P2 & P3).
    destruct (write_cases x ob Hx) as [[-> ->]|[[-> ->]|[(-> & Hz & _ & _)|(_ & _ & Q3 & _ & Hq0)]]].
    + apply (Hold (ONode n)); [done| |by left]. cbn. unfold is_ram. by rewrite G2.
    + apply (Hold (OFile f)); [done|done|by left].
    + right. exists (fn_impl n), (KBytes (rf_capacity f')). apply write_owns. by left.
    + apply (Hold ob); [done|done|by left].
  - intros x Hx. destruct (to_roots _ _ Ht x Hx) as [(m & Hm & Hty) Hno]. split.
    + exists m. split; [|done]. rewrite Hfr; try congruence; intros ->.
      * destruct (decide (rf_data f = 0)) as [E0|E0]; [rewrite E0, (do_null _ (to_data _ _ Ht)) in Hm; done|].
        by apply (Hno (fn_impl n) (KBytes (rf_capacity f))), (file_owns _ _ _ _ _ Hf).
      * destruct Hnew as [E|[E _]]; [|congruence]. destruct (decide (rf_data f = 0)) as [E0|E0].
        { rewrite E, E0, (do_null _ (to_data _ _ Ht)) in Hm. done. }
        apply (Hno (fn_impl n) (KBytes (rf_capacity f))). rewrite E. by apply (file_owns _ _ _ _ _ Hf).
    + intros q k [(-> & Hz & -> & ->)|[Hq Ho]]%write_owns; [|by apply (Hno q k)].
      destruct Hnew as [E|[E _]]; [|congruence]. apply (Hno (fn_impl n) (KBytes (rf_capacity f))). rewrite E in *.
      by apply (file_owns _ _ _ _ _ Hf).
Qed.

End write.

(** ** Renaming *)

Lemma rename_wants old new l : rename_entry old new l ≫= entry_wants = l ≫= entry_wants.
Proof.
  induction l as [|x l IH]; cbn [rename_entry]; [done|]. destruct (named old x); rewrite !bind_cons; [done|]. by rewrite IH.
Qed.

Lemma rename_length old new l : length (rename_entry old new l) = length l.
Proof. induction l as [|x l IH]; cbn [rename_entry]; [done|]. destruct (named old x); cbn; [done|by rewrite IH]. Qed.

Lemma rename_names old new l y :
  y ∈ (re_name <$> rename_entry old new l) -> y = cut_name new \/ y ∈ (re_name <$> l).
Proof.
  induction l as [|x l IH]; cbn [rename_entry]; [by right|]. destruct (named old x); rewrite !fmap_cons, !elem_of_cons; naive_solver.
Qed.

Lemma rename_nodup old new l :
  (length new <= 127)%nat -> new ∉ (re_name <$> l) -> NoDup (re_name <$> l) -> NoDup (re_name <$> rename_entry old new l).
Proof.
  intros Hlen. induction l as [|x l IH]; cbn [rename_entry]; [done|]. rewrite fmap_cons, not_elem_of_cons.
  intros [Hx Hl] [Hn Hd]%list.NoDup_cons. destruct (named old x); rewrite fmap_cons; apply list.NoDup_cons; cbn [re_name].
  - by rewrite cut_name_short.
  - split; [|by apply IH]. intros [E|?]%rename_names; [|done]. rewrite cut_name_short in E by done. congruence.
Qed.

Lemma rename_runs held d dir r old new x m :
  data_ok d -> objs d !! dir = Some (ODir r) -> ramfs_find_entry r old = Some x -> ramfs_find_entry r new = None ->
  objs d !! re_node x = Some (ONode m) ->
  let d1 := set_objs d (<[dir := ODir (RamfsDir (rename_entry old new (rd_entries r)) (rd_count r))]> (objs d)) in
  let d' := set_objs d1 (<[re_node x := ONode (n_set_name (cut_name new) m)]> (objs d1)) in
  kept d d' /\
  forall node n, objs d !! node = Some (ONode n) -> fn_type n = FS_DIRECTORY -> fn_impl n = dir -> LObj dir ∉ held ->
    old <> [] -> new <> [] -> old <> new -> runs held (ramfs_rename node old new : K Z) d ok d'.
Proof.
  intros Hd Hr Hf Hn Hm d1 d'. assert (Hne : dir <> re_node x) by congruence. split.
  - assert (K1 : kept d d1) by (apply kept_put; [done|by rewrite Hr]). eapply kept_trans; [exact K1|].
    apply kept_put; [apply K1|]. cbn. by rewrite lookup_insert_ne, Hm.
  - intros node n Hno Hty <- Hh H1 H2 H3. unfold ramfs_rename.
    eapply runs_bind; [by eapply dir_impl_runs|]. cbn beta iota.
    rewrite !bool_decide_false by done. cbn [orb]. apply runs_lock; [done|]. rstep. rewrite Hf, Hn. rstep.
    eapply runs_bind; [apply (runs_read _ _ _ _ (ONode m)); [|done]|cbn beta; rstep; rstep].
    cbn. by rewrite lookup_insert_ne.
Qed.

Lemma tree_rename roots d dir r old new x m :
  tree_ok roots d -> objs d !! dir = Some (ODir r) -> ramfs_find_entry r old = Some x -> ramfs_find_entry r new = None ->
  objs d !! re_node x = Some (ONode m) -> (length new <= 127)%nat ->
  let d1 := set_objs d (<[dir := ODir (RamfsDir (rename_entry old new (rd_entries r)) (rd_count r))]> (objs d)) in
  tree_ok roots (set_objs d1 (<[re_node x := ONode (n_set_name (cut_name new) m)]> (objs d1))).
Proof.
  intros Ht Hr Hf Hn Hm Hlen d1. set (d' := set_objs d1 _). assert (Hne : dir <> re_node x) by congruence.
  destruct (rename_runs ∅ d dir r old new x m (to_data _ _ Ht) Hr Hf Hn Hm) as [K _].
  apply (tree_relabel roots d d' Ht (kp_ok _ _ K)).
  { cbn. rewrite !dom_insert_L. apply elem_of_dom_2 in Hr, Hm. set_solver. }
  intros p o o' Hp Hp'. cbn in Hp'. destruct (decide (p = re_node x)) as [->|P1].
  - rewrite lookup_insert_eq in Hp'. injection Hp' as <-. rewrite Hm in Hp. injection Hp as <-.
    split_and!; [done|done|exact (to_local _ _ Ht _ _ Hm)|]. intros k [= <-]. by eexists.
  - rewrite lookup_insert_ne in Hp' by done. destruct (decide (p = dir)) as [->|P2].
    + rewrite lookup_insert_eq in Hp'. injection Hp' as <-. rewrite Hr in Hp. injection Hp as <-.
      destruct (to_local _ _ Ht _ _ Hr) as (Hc & Hnd & Hcb). split_and!; [done|cbn; apply rename_wants| |done].
      split_and!; cbn; [by rewrite rename_length| |done]. apply rename_nodup; [done|by apply find_name_none|done].
    + rewrite lookup_insert_ne in Hp' by done. rewrite Hp in Hp'. injection Hp' as <-.
      split_and!; try done; [by apply (to_local _ _ Ht p)|]. intros k ->. by exists k.
Qed.

End tree.
