(* ===== verification/RamfsUnlink.v ===== *)
(** * Unlinking

    [ramfs_unlink] frees exactly the objects of the entry it removes: the
    entry, its node, the node's private data and a file's data block.  The
    remaining objects still form a tree. *)

From S2P Require Import Prelude Spinlock Task Sync FsState Ramfs RamfsFacts RamfsTree.

Lemma unlink_wants name l x y k :
  find_name name l = Some x -> NoDup (l ≫= entry_wants).*1 ->
  (y, k) ∈ (unlink_name name l ≫= entry_wants) <->
  (y, k) ∈ (l ≫= entry_wants) /\ y <> re_node x /\ y <> re_addr x.
Proof.
  induction l as [|z l IH]; cbn [find_name unlink_name]; [done|]. rewrite bind_cons, fmap_app.
  cbn [entry_wants fmap list_fmap fst app]. intros Hf [N1 [N2 N3]%list.NoDup_cons]%list.NoDup_cons.
  assert (Hout : forall y k, (y, k) ∈ (l ≫= entry_wants) -> y <> re_node z /\ y <> re_addr z).
  { intros y0 k0 Hy. assert (y0 ∈ (l ≫= entry_wants).*1) by (by apply (list_elem_of_fmap_2 fst _ (y0, k0))).
    split; intros ->; [apply N1; by right|by apply N2]. }
  destruct (named name z).
  - injection Hf as <-. rewrite !elem_of_cons. split.
    + intros Hy. destruct (Hout y k Hy). auto.
    + intros [[[= -> ->]|[[= -> ->]|?]] [? ?]]; done.
  - rewrite bind_cons. cbn [entry_wants app]. rewrite !elem_of_cons, (IH Hf N3).
    assert (Hx : x ∈ l) by (by apply find_name_some in Hf as [? _]).
    assert (H1 : (re_node x, KNode) ∈ (l ≫= entry_wants)) by (apply list_elem_of_bind; exists x; split; [left|done]).
    assert (H2 : (re_addr x, KDirent) ∈ (l ≫= entry_wants)) by (apply list_elem_of_bind; exists x; split; [right; left|done]).
    destruct (Hout _ _ H1), (Hout _ _ H2). split.
    + intros [[= -> ->]|[[= -> ->]|(? & ? & ?)]]; auto 10.
    + intros [[?|[?|?]] [? ?]]; auto 10.
Qed.

Lemma unlink_wants_nodup name l : NoDup (l ≫= entry_wants).*1 -> NoDup (unlink_name name l ≫= entry_wants).*1.
Proof.
  induction l as [|z l IH]; cbn [unlink_name]; [done|]. rewrite bind_cons, fmap_app. intros Hn.
  destruct (named name z); [by apply list.NoDup_app in Hn as (_ & _ & ?)|].
  rewrite bind_cons, fmap_app. apply list.NoDup_app in Hn as (H1 & H2 & H3). apply list.NoDup_app.
  split_and!; [done| |by apply IH]. intros y Hy Hin. apply (H2 y Hy). apply list_elem_of_fmap in Hin as ([y' k] & -> & Hin).
  apply (list_elem_of_fmap_2 fst _ (y', k)). clear -Hin. induction l as [|w l IH]; cbn [unlink_name] in Hin; [done|].
  destruct (named name w); rewrite bind_cons in *; apply elem_of_app; [by right|].
  apply elem_of_app in Hin as [?|?]; [by left|right; by apply IH].
Qed.

Lemma unlink_names name l : NoDup (re_name <$> l) -> NoDup (re_name <$> unlink_name name l).
Proof.
  induction l as [|z l IH]; cbn [unlink_name]; [done|]. rewrite fmap_cons. intros [H1 H2]%list.NoDup_cons.
  destruct (named name z); [done|]. rewrite fmap_cons. apply list.NoDup_cons. split; [|by apply IH].
  intros Hin. apply H1. clear -Hin. induction l as [|w l IH]; cbn [unlink_name] in Hin; [done|].
  destruct (named name w); rewrite !fmap_cons in *; [by right|]. apply elem_of_cons in Hin as [->|?]; [left|right; by apply IH].
Qed.

Lemma unlink_length name l x : find_name name l = Some x -> length l = S (length (unlink_name name l)).
Proof.
  induction l as [|z l IH]; cbn [find_name unlink_name]; [done|]. destruct (named name z); [done|].
  intros Hf. cbn. by rewrite <- IH.
Qed.

Section unlink.
Context {H W : Type} `{!ObjHeap H} `{!ObjHeapLaws H} `{!TaskResources W}.
Implicit Types (d : fsd H).
Abbreviation K := (K H W).

Definition without (r : ramfs_dir) (name : str) : obj :=
  ODir (RamfsDir (unlink_name name (rd_entries r)) (u32 (rd_count r - 1))).

(** The objects [dead] are gone, the directory lost its entry, and the rest
    is as before. *)
Record unlinked d d' (dir : Z) (r : ramfs_dir) (name : str) (dead : list Z) : Prop := Unlinked {
  ul_dir : objs d' !! dir = Some (without r name);
  ul_dead : forall q, q ∈ dead -> objs d' !! q = None;
  ul_rest : forall q, q <> dir -> q ∉ dead -> objs d' !! q = objs d !! q
}.

(** What goes with the entry [x] of a node [m]. *)
Definition data_of d (m : fs_node) : list Z :=
  match fn_type m, objs d !! fn_impl m with
  | FS_FILE, Some (OFile f) => if rf_data f =? 0 then [] else [rf_data f]
  | _, _ => []
  end.
Definition dead_of d (x : ramfs_dirent) (m : fs_node) : list Z :=
  re_node x :: re_addr x :: fn_impl m :: data_of d m.

Lemma remove_entry_runs held d dir r name x :
  data_ok d -> objs d !! dir = Some (ODir r) -> ramfs_find_entry r name = Some x ->
  objs d !! re_addr x = Some ODirent ->
  exists d', runs held (ramfs_remove_entry dir name : K Z) d ok d' /\ kept d d' /\
    objs d' = <[dir := without r name]> (delete (re_addr x) (objs d)).
Proof.
  intros Hd Hr Hf Ha. assert (Hne : dir <> re_addr x) by congruence.
  set (o1 := ODir (RamfsDir (unlink_name name (rd_entries r)) (rd_count r))).
  set (d1 := set_objs d (<[dir := o1]> (objs d))).
  assert (K1 : kept d d1) by (apply kept_put; [done|by rewrite Hr]).
  destruct (kfree_runs (W := W) held (re_addr x) d1 ODirent (kp_ok _ _ K1)) as (d2 & R2 & K2 & O2); [cbn; by rewrite lookup_insert_ne|].
  assert (Hdir : objs d2 !! dir = Some o1) by (rewrite O2; cbn; by rewrite lookup_delete_ne, lookup_insert_eq).
  exists (set_objs d2 (<[dir := without r name]> (objs d2))). split_and!.
  - unfold ramfs_remove_entry. rstep. rewrite Hf. rstep. rbind R2.
    eapply runs_bind; [by apply (runs_read _ _ _ _ o1)|cbn beta; rstep; rstep].
  - eapply kept_trans; [exact K1|]. eapply kept_trans; [exact K2|]. apply kept_put; [apply K2|by rewrite Hdir].
  - cbn. rewrite O2. cbn. rewrite delete_insert_ne, insert_insert_eq by done. done.
Qed.

(** Freeing the private data of an empty directory or of a file. *)
Lemma free_impl_runs roots held d node m :
  tree_ok roots d -> objs d !! node = Some (ONode m) -> is_ram m = true ->
  (exists t, fn_type m = FS_DIRECTORY /\ objs d !! fn_impl m = Some (ODir t) /\ 0 < rd_count t /\
     runs held (free_impl m : K bool) d false d) \/
  (exists d', runs held (free_impl m : K bool) d true d' /\ kept d d' /\
     (forall q, q = fn_impl m \/ q ∈ data_of d m -> objs d' !! q = None) /\
     (forall q, q <> fn_impl m -> q ∉ data_of d m -> objs d' !! q = objs d !! q) /\
     (fn_type m = FS_DIRECTORY -> exists t, objs d !! fn_impl m = Some (ODir t) /\ rd_entries t = []) /\
     (exists o, objs d !! fn_impl m = Some o)).
Proof.
  intros Ht Hm Hram. unfold is_ram in Hram. apply orb_true_iff in Hram as [Hty%bool_decide_eq_true|Hty%bool_decide_eq_true].
  - right. destruct (tree_file roots d node m Ht Hm Hty) as (f & c & Hf). pose proof Hf as [_ _ F3 _ _ F6].
    destruct (file_ptrs d node m f c (to_data _ _ Ht) Hf) as (_ & _ & P3).
    destruct (grow_free (W := W) held d f (to_data _ _ Ht)) as (d1 & R1 & K1 & O1 & N1).
    { destruct F6 as [[E _]|(l & _ & El & _)]; [by left|right; by eexists]. }
    destruct (kfree_runs (W := W) held (fn_impl m) d1 (OFile f) (kp_ok _ _ K1)) as (d2 & R2 & K2 & O2); [by rewrite O1|].
    assert (Hdata : data_of d m = if rf_data f =? 0 then [] else [rf_data f]) by (unfold data_of; by rewrite Hty, F3).
    exists d2. split_and!; [|by eapply kept_trans| | |congruence|by eexists].
    + unfold free_impl. rewrite Hty. unfold free_file.
      rewrite (proj2 (Z.eqb_neq _ 0)) by (eapply not_null; [apply Ht|exact F3]).
      eapply runs_bind; [|cbn beta; rstep]. rstep. rbind R1. exact R2.
    + intros q Hq. rewrite O2. destruct (decide (q = fn_impl m)) as [->|]; [by rewrite lookup_delete_eq|].
      rewrite lookup_delete_ne by done. destruct Hq as [?|Hq]; [done|]. rewrite Hdata in Hq. case_if_in Hq; [set_solver|].
      apply list_elem_of_singleton in Hq as ->. done.
    + intros q Q1 Q2. rewrite O2, lookup_delete_ne by done. destruct (decide (q = rf_data f)) as [->|]; [|by apply O1].
      rewrite N1. rewrite Hdata in Q2. destruct (rf_data f =? 0) eqn:E; zify_bool; [|set_solver].
      rewrite E. symmetry. apply (do_null _ (to_data _ _ Ht)).
  - destruct (tree_dir roots d node m Ht Hm Hty) as (t & [_ _ D3]). destruct (to_local _ _ Ht _ _ D3) as (Hc & _).
    assert (Hnz : fn_impl m <> 0) by (eapply not_null; [apply Ht|exact D3]).
    destruct (0 <? rd_count t) eqn:E; zify_bool.
    + left. exists t. split_and!; try done. unfold free_impl. rewrite Hty, (proj2 (Z.eqb_neq _ 0)) by done.
      rstep. rewrite (proj2 (Z.ltb_lt _ _)) by done. rstep.
    + right. destruct (kfree_runs (W := W) held (fn_impl m) d (ODir t) (to_data _ _ Ht) D3) as (d1 & R1 & K1 & O1).
      assert (Hdata : data_of d m = []) by (unfold data_of; by rewrite Hty).
      exists d1. split_and!; [|done| | | |by eexists].
      * unfold free_impl. rewrite Hty, (proj2 (Z.eqb_neq _ 0)) by done. rstep.
        rewrite (proj2 (Z.ltb_ge _ _)) by done. rbind R1. rstep.
      * intros q [->|Hq]; [by rewrite O1, lookup_delete_eq|]. rewrite Hdata in Hq. set_solver.
      * intros q Q1 Q2. by rewrite O1, lookup_delete_ne.
      * intros _. exists t. split; [done|]. apply length_zero_iff_nil. lia.
Qed.

Lemma ram_impl roots d node m :
  tree_ok roots d -> objs d !! node = Some (ONode m) -> is_ram m = true ->
  (exists f, fn_type m = FS_FILE /\ objs d !! fn_impl m = Some (OFile f)) \/
  (exists t, fn_type m = FS_DIRECTORY /\ objs d !! fn_impl m = Some (ODir t)).
Proof.
  intros Ht Hm Hram. unfold is_ram in Hram. apply orb_true_iff in Hram as [Hty%bool_decide_eq_true|Hty%bool_decide_eq_true].
  - left. destruct (tree_file _ _ _ _ Ht Hm Hty) as (f & c & [_ _ F3 _ _ _]). by exists f.
  - right. destruct (tree_dir _ _ _ _ Ht Hm Hty) as (t & [_ _ D3]). by exists t.
Qed.

Lemma data_of_bytes roots d node m q :
  tree_ok roots d -> objs d !! node = Some (ONode m) -> q ∈ data_of d m -> exists l, objs d !! q = Some (OBytes l).
Proof.
  intros Ht Hm Hq. unfold data_of in Hq. destruct (fn_type m) eqn:Ety; try (by apply not_elem_of_nil in Hq).
  destruct (tree_file _ _ _ _ Ht Hm Ety) as (f & c & [_ _ F3 _ _ F6]). rewrite F3 in Hq.
  case_if_in Hq; [by apply not_elem_of_nil in Hq|]. apply list_elem_of_singleton in Hq as ->.
  destruct F6 as [[? _]|(l & _ & El & _)]; [done|by exists l].
Qed.

(** The objects that go are distinct from the directory, and the entry and
    its node from the private data. *)
Lemma dead_facts roots d dir r x m :
  tree_ok roots d -> objs d !! dir = Some (ODir r) -> x ∈ rd_entries r ->
  objs d !! re_node x = Some (ONode m) -> is_ram m = true ->
  (fn_type m = FS_DIRECTORY -> exists t, objs d !! fn_impl m = Some (ODir t) /\ rd_entries t = []) ->
  dir ∉ dead_of d x m /\ re_node x <> re_addr x /\
  (forall y, y = re_node x \/ y = re_addr x \/ y = dir -> y <> fn_impl m /\ y ∉ data_of d m).
Proof.
  intros Ht D3 Hx Hm Hram Hempty. destruct (tree_entry _ _ _ _ _ Ht D3 Hx) as [_ Ha].
  assert (Hfar : forall y, y = re_node x \/ y = re_addr x \/ y = dir -> y <> fn_impl m /\ y ∉ data_of d m).
  { intros y Hy. split.
    - intros ->. destruct (ram_impl _ _ _ _ Ht Hm Hram) as [(f & _ & E)|(t & Hty & E)].
      + destruct Hy as [Hy|[Hy|Hy]]; rewrite Hy in E; congruence.
      + destruct Hy as [Hy|[Hy|Hy]]; [rewrite Hy in E; congruence..|]. destruct (Hempty Hty) as (t' & E' & Hnil).
        rewrite Hy, D3 in E'. injection E' as ->. rewrite Hnil in Hx. by apply not_elem_of_nil in Hx.
    - intros Hin. destruct (data_of_bytes _ _ _ _ _ Ht Hm Hin) as [l El].
      destruct Hy as [Hy|[Hy|Hy]]; rewrite Hy in El; congruence. }
  split_and!; [|congruence|done]. destruct (Hfar dir) as [F1 F2]; [auto|]. unfold dead_of. rewrite !not_elem_of_cons.
  split_and!; try done; congruence.
Qed.

(** The evaluation: a non-empty directory stays; otherwise the entry and all
    that hangs on it go. *)
Lemma unlink_runs roots d node n r name x m :
  tree_ok roots d -> dir_at d node n r -> ramfs_find_entry r name = Some x ->
  objs d !! re_node x = Some (ONode m) ->
  (exists t, fn_type m = FS_DIRECTORY /\ objs d !! fn_impl m = Some (ODir t) /\ 0 < rd_count t /\
     runs ∅ (ramfs_unlink node name : K Z) d err d) \/
  (exists d', runs ∅ (ramfs_unlink node name : K Z) d ok d' /\ kept d d' /\
     unlinked d d' (fn_impl n) r name (dead_of d x m) /\ fn_impl n ∉ dead_of d x m /\
     (fn_type m = FS_DIRECTORY -> exists t, objs d !! fn_impl m = Some (ODir t) /\ rd_entries t = [])).
Proof.
  intros Ht Hdir Hf Hm. pose proof Hdir as [D1 D2 D3].
  assert (Hx : x ∈ rd_entries r) by (by apply find_name_some in Hf as [? _]).
  destruct (tree_entry _ _ _ _ _ Ht D3 Hx) as [(m' & Hm' & Hram) Ha]. rewrite Hm in Hm'. injection Hm' as <-.
  set (L := {[LObj (fn_impl n)]} ∪ ∅ : gset lock_id).
  assert (Hgo : forall r0 d', runs L (freed ← free_impl m; if negb freed then mret err
        else _ ← ramfs_remove_entry (fn_impl n) name; _ ← kfree (re_node x); mret ok : K Z) d r0 d' ->
      runs ∅ (ramfs_unlink node name : K Z) d r0 d').
  { intros r0 d' Hb. unfold ramfs_unlink. eapply runs_bind; [by eapply dir_impl_runs; [apply Ht|]|]. cbn beta iota.
    apply runs_lock; [set_solver|]. rstep. rewrite Hf. rstep. exact Hb. }
  destruct (free_impl_runs roots L d (re_node x) m Ht Hm Hram) as [(t & T1 & T2 & T3 & R)|(d1 & R1 & K1 & G1 & G2 & G3 & _)].
  { left. exists t. split_and!; try done. apply Hgo. rbind R. rstep. }
  right. destruct (dead_facts roots d (fn_impl n) r x m Ht D3 Hx Hm Hram G3) as (N1 & N2 & Hfar).
  assert (G2' : forall y, y = re_node x \/ y = re_addr x \/ y = fn_impl n -> objs d1 !! y = objs d !! y).
  { intros y Hy. destruct (Hfar y Hy). by apply G2. }
  destruct (remove_entry_runs L d1 (fn_impl n) r name x (kp_ok _ _ K1)) as (d2 & R2 & K2 & O2);
    [by rewrite G2' by auto|done|by rewrite G2' by auto|].
  assert (E1 : re_node x <> fn_impl n) by congruence.
  destruct (kfree_runs (W := W) L (re_node x) d2 (ONode m) (kp_ok _ _ K2)) as (d3 & R3 & K3 & O3).
  { rewrite O2, lookup_insert_ne, lookup_delete_ne by done. by rewrite G2' by auto. }
  exists d3. split_and!; [apply Hgo; rbind R1; rbind R2; rbind R3; rstep|repeat (eapply kept_trans; [eassumption|]); apply kept_refl, K3| |done|done].
  split.
  - by rewrite O3, lookup_delete_ne, O2, lookup_insert_eq.
  - intros q Hq. rewrite O3. destruct (decide (q = re_node x)) as [->|Q1]; [by rewrite lookup_delete_eq|].
    assert (Q2 : q <> fn_impl n) by congruence. rewrite lookup_delete_ne, O2, lookup_insert_ne by done.
    destruct (decide (q = re_addr x)) as [->|Q3]; [by rewrite lookup_delete_eq|]. rewrite lookup_delete_ne by done.
    apply G1. unfold dead_of in Hq. rewrite !elem_of_cons in Hq. naive_solver.
  - intros q Q1 Q2. unfold dead_of in Q2. rewrite !not_elem_of_cons in Q2. destruct Q2 as (Q2 & Q3 & Q4 & Q5).
    rewrite O3, lookup_delete_ne, O2, lookup_insert_ne, lookup_delete_ne by done. by apply G2.
Qed.

Section keeps.
Context (roots : list Z) (d d' : fsd H) (dir : Z) (r : ramfs_dir) (name : str) (x : ramfs_dirent) (m : fs_node).
Context (Ht : tree_ok roots d) (Hd' : data_ok d') (Hr : objs d !! dir = Some (ODir r)).
Context (Hf : ramfs_find_entry r name = Some x) (Hm : objs d !! re_node x = Some (ONode m)).
Context (Hu : unlinked d d' dir r name (dead_of d x m)) (Hdir : dir ∉ dead_of d x m).
Context (Hempty : fn_type m = FS_DIRECTORY -> exists t, objs d !! fn_impl m = Some (ODir t) /\ rd_entries t = []).

Lemma unlink_entry : x ∈ rd_entries r /\ is_ram m = true.
Proof.
  assert (Hx : x ∈ rd_entries r) by (by apply find_name_some in Hf as [? _]). split; [done|].
  destruct (tree_entry _ _ _ _ _ Ht Hr Hx) as [(m' & Hm' & Hram) _]. rewrite Hm in Hm'. by injection Hm' as <-.
Qed.

(** Who owns what goes: the directory, the node or the file. *)
Lemma dead_owner y :
  y ∈ dead_of d x m -> exists q k, owns d q y k /\ (q ∈ dead_of d x m \/ q = dir /\ (y = re_node x \/ y = re_addr x)).
Proof.
  destruct unlink_entry as [Hx Hram]. destruct (entry_owned d dir r x Hr Hx) as [O1 O2].
  unfold dead_of. rewrite !elem_of_cons. intros [->|[->|[->|Hy]]].
  - exists dir, KNode. auto.
  - exists dir, KDirent. auto.
  - destruct (ram_impl _ _ _ _ Ht Hm Hram) as [(f & Hty & _)|(t & Hty & _)].
    + exists (re_node x), KFile. split; [|left; by left]. exists (ONode m). split; [done|]. cbn. rewrite Hty. by left.
    + exists (re_node x), KDir. split; [|left; by left]. exists (ONode m). split; [done|]. cbn. rewrite Hty. by left.
  - unfold data_of in Hy. destruct (fn_type m) eqn:Hty; try (by apply not_elem_of_nil in Hy).
    destruct (tree_file _ _ _ _ Ht Hm Hty) as (f & c & Hfa). pose proof Hfa as [_ _ F3 _ _ _]. rewrite F3 in Hy.
    case_if_in Hy; [by apply not_elem_of_nil in Hy|]. apply list_elem_of_singleton in Hy as ->.
    exists (fn_impl m), (KBytes (rf_capacity f)). split; [by eapply file_owns|]. left. unfold dead_of. set_solver.
Qed.

(** And what goes owns only what goes. *)
Lemma dead_owns q y k : q ∈ dead_of d x m -> owns d q y k -> y ∈ dead_of d x m.
Proof.
  destruct unlink_entry as [Hx Hram]. destruct (tree_entry _ _ _ _ _ Ht Hr Hx) as [_ Ha].
  intros Hq (o & Ho & Hin). unfold dead_of in Hq. rewrite !elem_of_cons in Hq. destruct Hq as [->|[->|[->|Hq]]].
  - rewrite Hm in Ho. injection Ho as <-. cbn in Hin.
    assert (y = fn_impl m) as -> by (destruct (fn_type m); set_solver). unfold dead_of. set_solver.
  - rewrite Ha in Ho. injection Ho as <-. by apply not_elem_of_nil in Hin.
  - destruct (ram_impl _ _ _ _ Ht Hm Hram) as [(f & Hty & E)|(t & Hty & E)].
    + rewrite E in Ho. injection Ho as <-. cbn in Hin. unfold dead_of, data_of. rewrite Hty, E. case_if; set_solver.
    + destruct (Hempty Hty) as (t' & E' & Hnil). rewrite E' in Ho. injection Ho as <-. cbn in Hin. rewrite Hnil in Hin. by apply not_elem_of_nil in Hin.
  - destruct (data_of_bytes _ _ _ _ _ Ht Hm Hq) as [l El]. rewrite El in Ho. injection Ho as <-. by apply not_elem_of_nil in Hin.
Qed.

Lemma unlink_owns q y k : owns d' q y k <-> owns d q y k /\ q ∉ dead_of d x m /\ y ∉ dead_of d x m.
Proof.
  destruct Hu as [U1 U2 U3]. pose proof (to_nodup _ _ Ht _ _ Hr) as Hnd. cbn [wants] in Hnd.
  assert (Huniq : forall q y k, owns d q y k -> q ∉ dead_of d x m -> ~ (q = dir /\ (y = re_node x \/ y = re_addr x)) -> y ∉ dead_of d x m).
  { intros q0 y0 k0 Ho Hq Hn (q1 & k1 & Ho1 & Hq1)%dead_owner. assert (q0 = q1) as -> by (by eapply (to_unique _ _ Ht)). tauto. }
  destruct (decide (q = dir)) as [->|Qd].
  - assert (Hd1 : owns d' dir y k <-> (y, k) ∈ (unlink_name name (rd_entries r) ≫= entry_wants)).
    { split; [intros (o & Ho & Hin); rewrite U1 in Ho; by injection Ho as <-|]. intros Hin. by exists (without r name). }
    assert (Hd2 : owns d dir y k <-> (y, k) ∈ (rd_entries r ≫= entry_wants)).
    { split; [intros (o & Ho & Hin); rewrite Hr in Ho; by injection Ho as <-|]. intros Hin. by exists (ODir r). }
    rewrite Hd1, (unlink_wants name (rd_entries r) x y k Hf Hnd), <- Hd2. split.
    + intros (Ho & Y1 & Y2). split_and!; [done|done|]. eapply Huniq; [done|done|]. naive_solver.
    + intros (Ho & _ & Hy). split_and!; [done|..]; intros ->; apply Hy; unfold dead_of; set_solver.
  - split.
    + intros (o & Ho & Hin). assert (Hq : q ∉ dead_of d x m) by (intros Hq; apply U2 in Hq; congruence).
      rewrite U3 in Ho by done. assert (owns d q y k) by (by exists o). split_and!; [done..|]. eapply Huniq; [done|done|]. naive_solver.
    + intros ((o & Ho & Hin) & Hq & _). exists o. split; [by rewrite U3|done].
Qed.

Lemma tree_unlink : tree_ok roots d'.
Proof.
  destruct Hu as [U1 U2 U3]. destruct (to_local _ _ Ht _ _ Hr) as (Hc & Hnames & Hcb).
  pose proof (unlink_length name (rd_entries r) x Hf) as Hlen.
  assert (Hback : forall q o, objs d' !! q = Some o ->
    (q = dir /\ o = without r name) \/ (q <> dir /\ q ∉ dead_of d x m /\ objs d !! q = Some o)).
  { intros q o Hq. destruct (decide (q = dir)) as [->|]; [left; split; [done|congruence]|right].
    assert (q ∉ dead_of d x m) by (intros Hin; apply U2 in Hin; congruence). split_and!; [done..|]. by rewrite <- U3. }
  assert (Hkeep : forall y o, objs d !! y = Some o -> y ∉ dead_of d x m -> exists o', objs d' !! y = Some o' /\ kind o' = kind o).
  { intros y o Hy Hd. destruct (decide (y = dir)) as [->|]; [|exists o; by rewrite U3].
    exists (without r name). split; [done|]. rewrite Hr in Hy. by injection Hy as <-. }
  split; [done|..].
  - intros q o [[-> ->]|(_ & _ & Hq)]%Hback; [|by apply (to_local _ _ Ht q)]. cbn. rewrite u32_small by lia.
    split_and!; [lia|by apply unlink_names|lia].
  - intros q y k (Ho & Hq & Hy)%unlink_owns. destruct (to_typed _ _ Ht _ _ _ Ho) as (o & E & Ek).
    destruct (Hkeep y o E Hy) as (o' & E' & Ek'). exists o'. split; [done|congruence].
  - intros q o [[-> ->]|(_ & _ & Hq)]%Hback; [|by apply (to_nodup _ _ Ht q)].
    apply unlink_wants_nodup, (to_nodup _ _ Ht _ _ Hr).
  - intros q1 q2 y k k' (H1 & _)%unlink_owns (H2 & _)%unlink_owns. by eapply (to_unique _ _ Ht).
  - intros y o Hy Hk. assert (Hold : exists o0, objs d !! y = Some o0 /\ kind o0 <> KOther /\ y ∉ dead_of d x m).
    { apply Hback in Hy as [[-> ->]|(_ & ? & Hy)]; [exists (ODir r)|exists o]; done. }
    destruct Hold as (o0 & E0 & Hk0 & Hyd). destruct (to_rooted _ _ Ht y o0 E0 Hk0) as [?|(q & k & Ho)]; [by left|right].
    exists q, k. apply unlink_owns. split_and!; [done| |done]. intros Hq. by apply (dead_owns q y k Hq) in Ho.
  - intros y Hy. destruct (to_roots _ _ Ht y Hy) as [(n0 & Hn & Hty) Hno].
    assert (Hyd : y ∉ dead_of d x m) by (intros (q & k & Ho & _)%dead_owner; by apply (Hno q k)). split.
    + exists n0. split; [|done]. rewrite U3; [done|congruence|done].
    + intros q k (Ho & _)%unlink_owns. by apply (Hno q k).
Qed.

End keeps.

End unlink.
