(* ===== verification/RamfsView.v ===== *)
(** * What a ramfs looks like from outside

    [view] forgets addresses of private data, capacities and the order of
    directory entries: a file is its contents and a directory a finite map
    from names to nodes.  The frame lemmas say which objects a node's view
    depends on. *)

From S2P Require Import Prelude Spinlock Task Sync FsState Ramfs RamfsFacts RamfsTree RamfsUnlink.

Definition names_of (l : list ramfs_dirent) : gmap str Z := list_to_map ((fun x => (re_name x, re_node x)) <$> l).
Definition dir_map (r : ramfs_dir) : gmap str Z := names_of (rd_entries r).

Lemma names_cons x l : names_of (x :: l) = <[re_name x := re_node x]> (names_of l).
Proof. done. Qed.

Lemma find_names name l : re_node <$> find_name name l = names_of l !! name.
Proof.
  induction l as [|x l IH]; [done|]. cbn [find_name]. rewrite names_cons. unfold named. case_bool_decide as E.
  - subst. by rewrite lookup_insert_eq.
  - by rewrite lookup_insert_ne.
Qed.

Lemma names_none name l : name ∉ (re_name <$> l) -> names_of l !! name = None.
Proof.
  intros Hn. rewrite <- find_names. destruct (find_name name l) as [x|] eqn:E; [|done].
  apply find_name_some in E as [Hx <-]. exfalso. apply Hn. by apply list_elem_of_fmap_2.
Qed.

Lemma unlink_map name l : NoDup (re_name <$> l) -> names_of (unlink_name name l) = delete name (names_of l).
Proof.
  induction l as [|x l IH]; cbn [unlink_name]; [intros _; symmetry; apply delete_empty|].
  rewrite fmap_cons. intros [H1 H2]%list.NoDup_cons. unfold named. case_bool_decide as E.
  - subst. rewrite names_cons, delete_insert_eq, delete_id; [done|by apply names_none].
  - rewrite !names_cons, IH by done. by rewrite delete_insert_ne.
Qed.

Lemma rename_map old new l x :
  NoDup (re_name <$> l) -> find_name old l = Some x -> find_name new l = None -> (length new <= 127)%nat ->
  names_of (rename_entry old new l) = <[new := re_node x]> (delete old (names_of l)).
Proof.
  intros Hn Hf Hnew Hlen. induction l as [|y l IH]; cbn [rename_entry find_name] in *; [done|].
  rewrite fmap_cons in Hn. apply list.NoDup_cons in Hn as [H1 H2]. unfold named in *.
  destruct (bool_decide (re_name y = old)) eqn:E.
  - apply bool_decide_eq_true in E. injection Hf as <-. rewrite !names_cons. cbn [re_name re_node].
    rewrite cut_name_short by done. subst. by rewrite delete_insert_eq, delete_id by (by apply names_none).
  - apply bool_decide_eq_false in E. case_bool_decide as E2; [done|]. rewrite !names_cons, IH by done.
    rewrite (delete_insert_ne _ old) by done. by rewrite insert_insert_ne.
Qed.

Lemma names_size l : NoDup (re_name <$> l) -> size (names_of l) = length l.
Proof.
  induction l as [|x l IH]; [done|]. rewrite fmap_cons, names_cons. intros [H1 H2]%list.NoDup_cons.
  rewrite map_size_insert_None by (by apply names_none). cbn. by rewrite IH.
Qed.

Lemma names_lookup l i x : NoDup (re_name <$> l) -> l !! i = Some x -> names_of l !! re_name x = Some (re_node x).
Proof.
  revert i. induction l as [|y l IH]; [done|]. rewrite fmap_cons, names_cons. intros i [H1 H2]%list.NoDup_cons Hi.
  destruct i as [|i]; [injection Hi as ->; by rewrite lookup_insert_eq|]. rewrite lookup_insert_ne; [by eapply IH|].
  intros E. apply H1. rewrite E. apply list_elem_of_fmap_2, list_elem_of_lookup. by exists i.
Qed.

Inductive anode := AFile (c : list Z) | ADir (m : gmap str Z).

Section view.
Context {H W : Type} `{!ObjHeap H} `{!ObjHeapLaws H} `{!TaskResources W}.
Implicit Types (d : fsd H).

Definition contents d (f : ramfs_file) : list Z :=
  match objs d !! rf_data f with Some (OBytes l) => take (Z.to_nat (rf_size f)) l | _ => [] end.

Definition view_node d (n : fs_node) : option anode :=
  match fn_type n, objs d !! fn_impl n with
  | FS_FILE, Some (OFile f) => Some (AFile (contents d f))
  | FS_DIRECTORY, Some (ODir r) => Some (ADir (dir_map r))
  | _, _ => None
  end.

Definition view d (q : Z) : option anode :=
  match objs d !! q with Some (ONode n) => view_node d n | _ => None end.

Lemma view_file d node n f c : data_ok d -> file_at d node n f c -> view d node = Some (AFile c).
Proof.
  intros Hd Hf. pose proof Hf as [H1 H2 H3 H4 H5 H6]. unfold view, view_node, contents. rewrite H1, H2, H3.
  destruct H6 as [[E0 _]|(l & E0 & El & Hl & Hc)].
  - rewrite E0, (do_null _ Hd). by rewrite (file_empty _ _ _ _ _ Hf E0).
  - rewrite El. by rewrite H4, Nat2Z.id, <- Hc.
Qed.

Lemma view_dir d node n r : dir_at d node n r -> view d node = Some (ADir (dir_map r)).
Proof. intros [H1 H2 H3]. unfold view, view_node. by rewrite H1, H2, H3. Qed.

(** The view of a node depends on the node, its private data and, for a
    file, on its block. *)
Lemma view_node_frame d d' n :
  objs d' !! fn_impl n = objs d !! fn_impl n ->
  (forall f, fn_type n = FS_FILE -> objs d !! fn_impl n = Some (OFile f) -> objs d' !! rf_data f = objs d !! rf_data f) ->
  view_node d' n = view_node d n.
Proof.
  intros H1 H2. unfold view_node, contents. rewrite H1. destruct (fn_type n); try done.
  destruct (objs d !! fn_impl n) as [[]|]; try done. by rewrite H2.
Qed.

(** What the view of a node depends on besides the node itself. *)
Definition foot d (n : fs_node) : list Z := fn_impl n :: data_of d n.

Lemma foot_frame d d' n n' :
  data_ok d -> data_ok d' -> fn_type n' = fn_type n -> fn_impl n' = fn_impl n ->
  (forall p, p ∈ foot d n -> objs d' !! p = objs d !! p) -> view_node d' n' = view_node d n.
Proof.
  intros Hd Hd' Et Ei Hp. transitivity (view_node d' n); [unfold view_node; by rewrite Et, Ei|].
  apply view_node_frame; [apply Hp; by left|]. intros f Ef Hf. destruct (decide (rf_data f = 0)) as [E|E].
  - by rewrite E, (do_null _ Hd), (do_null _ Hd').
  - apply Hp. right. unfold data_of. rewrite Ef, Hf, (proj2 (Z.eqb_neq _ 0)) by done. by left.
Qed.

(** The footprint is private data, owned by the node or by its file. *)
Lemma foot_owned roots d q n p :
  tree_ok roots d -> objs d !! q = Some (ONode n) -> is_ram n = true -> p ∈ foot d n ->
  (exists o, objs d !! p = Some o /\ kind o <> KNode /\ kind o <> KDirent /\ kind o <> KOther) /\
  (p = fn_impl n /\ (exists k, owns d q p k) \/ (exists k, owns d (fn_impl n) p k) /\ exists l, objs d !! p = Some (OBytes l)).
Proof.
  intros Ht Hq Hr [->|Hp]%elem_of_cons.
  - assert (Ho : exists k, owns d q (fn_impl n) k /\ k <> KNode /\ k <> KDirent /\ k <> KOther).
    { destruct (ram_impl _ _ _ _ Ht Hq Hr) as [(f & Et & _)|(t & Et & _)]; eexists; (split; [exists (ONode n); (split; [done|]); cbn; rewrite Et; by left|done]). }
    destruct Ho as (k & Ho & Hk). destruct (to_typed _ _ Ht _ _ _ Ho) as (o & E & <-). split; [by exists o|]. left. eauto.
  - pose proof (data_of_bytes _ _ _ _ _ Ht Hq Hp) as [l Hl]. split; [by exists (OBytes l)|]. right. split; [|by exists l].
    unfold data_of in Hp. destruct (fn_type n); try by apply elem_of_nil in Hp.
    destruct (objs d !! fn_impl n) as [[|f| | | | | |]|] eqn:E; try by apply elem_of_nil in Hp.
    exists (KBytes (rf_capacity f)), (OFile f). split; [done|]. cbn. destruct (rf_data f =? 0); [by apply elem_of_nil in Hp|].
    apply list_elem_of_singleton in Hp as ->. by left.
Qed.

(** Two nodes share nothing. *)
Lemma foot_apart roots d q n q' n' p :
  tree_ok roots d -> objs d !! q = Some (ONode n) -> is_ram n = true -> objs d !! q' = Some (ONode n') -> is_ram n' = true ->
  p ∈ foot d n -> p ∈ foot d n' -> q = q'.
Proof.
  intros Ht Hq Hr Hq' Hr' Hp Hp'.
  assert (Himp : forall x m, objs d !! x = Some (ONode m) -> is_ram m = true -> exists k, owns d x (fn_impl m) k).
  { intros x m Hx Hm. destruct (foot_owned _ _ _ _ (fn_impl m) Ht Hx Hm) as [(o & Ho & Hk) [[_ ?]|[_ [l Hl]]]]; [by left|done|].
    destruct (ram_impl _ _ _ _ Ht Hx Hm) as [(f & _ & ?)|(t & _ & ?)]; congruence. }
  assert (Hnode : forall x m k y, objs d !! x = Some (ONode m) -> is_ram m = true -> owns d x p k -> fn_impl y = x ->
      (exists k', owns d (fn_impl y) p k') -> (exists l, objs d !! p = Some (OBytes l)) -> False).
  { intros x m k y Hx Hm (o & Ho & Hin) _ _ [l Hl]. rewrite Hx in Ho. injection Ho as <-.
    destruct (ram_impl _ _ _ _ Ht Hx Hm) as [(f & Et & E)|(t & Et & E)]; cbn in Hin; rewrite Et in Hin;
      apply list_elem_of_singleton in Hin as [= -> _]; congruence. }
  destruct (foot_owned _ _ _ _ p Ht Hq Hr Hp) as [_ [[E1 [k1 O1]]|[[k1 O1] Hb1]]],
    (foot_owned _ _ _ _ p Ht Hq' Hr' Hp') as [_ [[E2 [k2 O2]]|[[k2 O2] Hb2]]].
  - by eapply (to_unique _ _ Ht).
  - assert (q = fn_impl n') as E by (by eapply (to_unique _ _ Ht)). exfalso. eapply (Hnode q n k1 n'); eauto.
  - assert (q' = fn_impl n) as E by (by eapply (to_unique _ _ Ht)). exfalso. eapply (Hnode q' n' k2 n); eauto.
  - assert (E : fn_impl n = fn_impl n') by (by eapply (to_unique _ _ Ht)).
    destruct (Himp q n Hq Hr) as [k3 O3], (Himp q' n' Hq' Hr') as [k4 O4]. rewrite E in O3. by eapply (to_unique _ _ Ht).
Qed.

Lemma view_other d q : (forall n, objs d !! q = Some (ONode n) -> is_ram n = false) -> view d q = None.
Proof.
  intros Hq. unfold view. destruct (objs d !! q) as [[n| | | | | | |]|] eqn:E; try done. specialize (Hq n eq_refl).
  unfold is_ram in Hq. unfold view_node. destruct (fn_type n); cbn in Hq; done.
Qed.

(** The view is framed by a change that leaves alone the nodes other than
    [ch] and all of their footprints. *)
Lemma view_frame roots d d' q :
  tree_ok roots d -> data_ok d' ->
  (forall n, objs d !! q = Some (ONode n) -> is_ram n = true ->
     (exists n', objs d' !! q = Some (ONode n') /\ fn_type n' = fn_type n /\ fn_impl n' = fn_impl n) /\
     forall p, p ∈ foot d n -> objs d' !! p = objs d !! p) ->
  (forall n', objs d' !! q = Some (ONode n') -> is_ram n' = true -> exists n, objs d !! q = Some (ONode n) /\ is_ram n = true) ->
  view d' q = view d q.
Proof.
  intros Ht Hd' Hf Hb. destruct (objs d !! q) as [[n| | | | | | |]|] eqn:E.
  1: destruct (is_ram n) eqn:Hr.
  { destruct (Hf n eq_refl Hr) as [(n' & En' & Et & Ei) Hp]. unfold view. rewrite E, En'.
    apply foot_frame; try done. apply (to_data _ _ Ht). }
  all: rewrite !view_other; [done|intros m Hm; rewrite E in Hm; congruence|];
    intros m Hm; destruct (is_ram m) eqn:Em; [|done]; destruct (Hb m Hm Em) as (? & ? & ?); congruence.
Qed.

(** ** Frames of the operations *)

Lemma foot_impl d n : fn_impl n ∈ foot d n.
Proof. by left. Qed.

Lemma foot_data d node n f c : file_at d node n f c -> rf_data f <> 0 -> rf_data f ∈ foot d n.
Proof.
  intros [_ H2 H3 _ _ _] E. right. unfold data_of. rewrite H2, H3, (proj2 (Z.eqb_neq _ 0)) by done. by left.
Qed.

Lemma ram_file n : fn_type n = FS_FILE -> is_ram n = true.
Proof. unfold is_ram. by intros ->. Qed.
Lemma ram_dir n : fn_type n = FS_DIRECTORY -> is_ram n = true.
Proof. unfold is_ram. by intros ->. Qed.

(** No ram node is private data, and no private data is a ram node. *)
Lemma node_not_foot roots d q n q' n' :
  tree_ok roots d -> objs d !! q = Some (ONode n) -> is_ram n = true -> objs d !! q' = Some (ONode n') -> is_ram n' = true ->
  q ∉ foot d n'.
Proof.
  intros Ht Hq Hr Hq' Hr' Hp. destruct (foot_owned _ _ _ _ _ Ht Hq' Hr' Hp) as [(o & Ho & Hk & _) _].
  rewrite Hq in Ho. injection Ho as <-. cbn in Hk. by rewrite Hr in Hk.
Qed.

Lemma foot_live roots d q n p :
  tree_ok roots d -> objs d !! q = Some (ONode n) -> is_ram n = true -> p ∈ foot d n -> objs d !! p <> None.
Proof. intros Ht Hq Hr Hp. destruct (foot_owned _ _ _ _ _ Ht Hq Hr Hp) as [(o & -> & _) _]. done. Qed.

Lemma view_write roots d d' node n n' f f' c c' q :
  tree_ok roots d -> data_ok d' -> file_at d node n f c -> file_at d' node n' f' c' -> fn_impl n' = fn_impl n ->
  (rf_data f' = rf_data f \/ objs d !! rf_data f' = None /\ (rf_data f <> 0 -> objs d' !! rf_data f = None)) ->
  (forall q, q <> node -> q <> fn_impl n -> q <> rf_data f -> q <> rf_data f' -> objs d' !! q = objs d !! q) ->
  q <> node -> view d' q = view d q.
Proof.
  intros Ht Hd' Hf Hf' Hi Hnew Hfr Hq. pose proof (fa_node _ _ _ _ _ Hf) as Hn.
  assert (Hram : is_ram n = true) by (apply ram_file, (fa_type _ _ _ _ _ Hf)).
  assert (Hout : forall p, objs d !! p <> None -> p ∉ foot d n -> p <> node -> objs d' !! p = objs d !! p).
  { intros p Hp Hnf Hpn. assert (p <> rf_data f).
    { intros ->. destruct (decide (rf_data f = 0)) as [E|E]; [by rewrite E, (do_null _ (to_data _ _ Ht)) in Hp|].
      by apply Hnf, (foot_data _ _ _ _ _ Hf). }
    apply Hfr; [done|intros ->; by apply Hnf, foot_impl|done|]. destruct Hnew as [->|[E _]]; congruence. }
  apply (view_frame roots); [done|done|..].
  - intros m Hm Hr. split.
    + exists m. rewrite Hout; [done|congruence| |done]. by eapply node_not_foot.
    + intros p Hp. apply Hout; [by eapply foot_live|..].
      * intros Hp'. apply Hq. by eapply (foot_apart roots d q m node n).
      * intros ->. by apply (node_not_foot roots d node n q m).
  - intros m Hm Hr.
    destruct (write_cases d d' node n n' f f' c' Hd' Hf' Hi Hnew Hfr q (ONode m) Hm)
      as [[? _]|[[_ ?]|[(_ & _ & Hk & _)|(_ & _ & _ & _ & ?)]]]; try done; [|by exists m].
    cbn in Hk. by rewrite Hr in Hk.
Qed.

Lemma view_rename roots d dir r old new x m node n q :
  tree_ok roots d -> dir_at d node n r -> fn_impl n = dir -> objs d !! re_node x = Some (ONode m) -> is_ram m = true ->
  let d1 := set_objs d (<[dir := ODir (RamfsDir (rename_entry old new (rd_entries r)) (rd_count r))]> (objs d)) in
  let d' := set_objs d1 (<[re_node x := ONode (n_set_name (cut_name new) m)]> (objs d1)) in
  data_ok d' -> q <> node -> view d' q = view d q.
Proof.
  intros Ht [Hn Hty Hr] <- Hm Hrm d1 d' Hd' Hq. assert (Hrn := ram_dir _ Hty).
  assert (Hout : forall p, p <> re_node x -> p <> fn_impl n -> objs d' !! p = objs d !! p).
  { intros p P1 P2. cbn. by rewrite !lookup_insert_ne. }
  assert (Hx : objs d' !! re_node x = Some (ONode (n_set_name (cut_name new) m))) by (cbn; by rewrite lookup_insert_eq).
  apply (view_frame roots); [done|done|..].
  - intros k Hk Hrk. split.
    + destruct (decide (q = re_node x)) as [->|E]; [rewrite Hx; eexists; split; [done|]; by simplify_eq|].
      exists k. rewrite Hout; [done|done|congruence].
    + intros p Hp. apply Hout.
      * intros ->. by apply (node_not_foot roots d (re_node x) m q k).
      * intros ->. apply Hq. eapply (foot_apart roots d q k node n); try done. apply foot_impl.
  - intros k Hk Hrk. destruct (decide (q = re_node x)) as [->|E]; [by exists m|].
    destruct (decide (q = fn_impl n)) as [->|E2]; [|rewrite Hout in Hk by done; by exists k].
    cbn in Hk. rewrite lookup_insert_ne, lookup_insert_eq in Hk by done. done.
Qed.

Lemma view_child roots d d' dir r name new impl p n o node nd q :
  tree_ok roots d -> data_ok d' -> dir_at d node nd r -> fn_impl nd = dir -> child_added d d' dir r name new impl p n o ->
  (forall k, o <> ONode k) -> q <> node -> q <> new -> view d' q = view d q.
Proof.
  intros Ht Hd' Hda <- Hc Ho Hq Hqn. pose proof Hda as [Hn Hty Hr]. assert (Hrn := ram_dir _ Hty).
  pose proof Hc as [Eo (F1 & F2 & F3) _].
  assert (Hout : forall x, objs d !! x <> None -> x <> fn_impl nd -> objs d' !! x = objs d !! x).
  { intros x X1 X2. rewrite Eo, !lookup_insert_ne by congruence. done. }
  apply (view_frame roots); [done|done|..].
  - intros k Hk Hrk. split.
    + exists k. rewrite Hout; [done|congruence|congruence].
    + intros x Hx. apply Hout; [by eapply foot_live|]. intros ->. apply Hq.
      eapply (foot_apart roots d q k node nd); try done. apply foot_impl.
  - intros k Hk Hrk. apply (child_cases _ _ _ _ _ _ _ _ _ _ Hc Hr) in Hk as [[_ ?]|[[? _]|[[_ ?]|[[_ ?]|[_ ?]]]]]; try done; [|by exists k].
    exfalso. by apply (Ho k).
Qed.

Lemma view_unlink roots d d' r name x m node n q :
  tree_ok roots d -> data_ok d' -> dir_at d node n r -> objs d !! re_node x = Some (ONode m) -> is_ram m = true ->
  x ∈ rd_entries r -> unlinked d d' (fn_impl n) r name (dead_of d x m) -> q <> node -> q <> re_node x -> view d' q = view d q.
Proof.
  intros Ht Hd' [Hn Hty Hr] Hm Hrm Hx [U1 U2 U3] Hq Hqx. assert (Hrn := ram_dir _ Hty).
  destruct (tree_entry _ _ _ _ _ Ht Hr Hx) as [_ Ha].
  assert (Hdead : forall p k, objs d !! q = Some (ONode k) -> is_ram k = true -> p = q \/ p ∈ foot d k -> p ∉ dead_of d x m /\ p <> fn_impl n).
  { intros p k Hk Hrk Hp. unfold dead_of. rewrite !not_elem_of_cons. destruct Hp as [->|Hp].
    - pose proof (node_not_foot roots d q k _ m Ht Hk Hrk Hm Hrm) as Hnf. pose proof (node_not_foot roots d q k _ n Ht Hk Hrk Hn Hrn) as Hnf2.
      split; [split_and!; [done|congruence| |]|]; intros E; [apply Hnf; rewrite E; by left|apply Hnf; by right|apply Hnf2; rewrite E; by left].
    - assert (A : p ∉ foot d m) by (intros A; apply Hqx; by eapply (foot_apart roots d q k _ m)).
      assert (B : p ∉ foot d n) by (intros B; apply Hq; by eapply (foot_apart roots d q k node n)).
      unfold foot in A, B. rewrite not_elem_of_cons in A, B. destruct A as [A1 A2], B as [B1 B2].
      split; [split_and!; [| |done|done]|done].
      + intros ->. by apply (node_not_foot roots d (re_node x) m q k).
      + intros ->. destruct (foot_owned _ _ _ _ _ Ht Hk Hrk Hp) as [(o & Ho & _ & Hkd & _) _]. rewrite Ha in Ho. by injection Ho as <-. }
  apply (view_frame roots); [done|done|..].
  - intros k Hk Hrk. split.
    + exists k. destruct (Hdead q k Hk Hrk) as [D1 D2]; [by left|]. by rewrite U3.
    + intros p Hp. destruct (Hdead p k Hk Hrk) as [D1 D2]; [by right|]. by apply U3.
  - intros k Hk Hrk. destruct (decide (q ∈ dead_of d x m)) as [E|E]; [by rewrite U2 in Hk|].
    destruct (decide (q = fn_impl n)) as [->|E2]; [by rewrite U1 in Hk|]. rewrite U3 in Hk by done. by exists k.
Qed.

End view.
