(* ===== verification/RamfsProps.v ===== *)
(** * What ramfs guarantees

    The specification [fs_spec]: files are byte sequences and directories
    finite maps from names to nodes.  Every call of ramfs on a good tree
    returns, meets the specification and leaves a good tree, so that any
    sequence of calls from a freshly initialised ramfs is free of undefined
    behaviour, leaks and lost updates. *)

From S2P Require Import Prelude Spinlock Task Sync FsState Ramfs RamfsFacts RamfsTree RamfsUnlink RamfsView.

(** ** Calls and their specification

    [oom] says that one of the allocations of the call is refused. *)

Inductive ramfs_call :=
| CRead (node offset size : Z) | CWrite (node offset : Z) (buffer : list Z)
| CFind (node : Z) (name : str) | CReaddir (node index : Z)
| CCreate (node : Z) (name : str) | CMkdir (node : Z) (name : str) (permissions : Z)
| CRename (node : Z) (old_name new_name : str) | CUnlink (node : Z) (name : str).

Inductive reply := ACode (r : Z) | AData (r : Z) (b : list Z) | AEntry (o : option dirent).

Definition astate := Z -> option anode.

Definition same (v v' : astate) : Prop := forall q, v' q = v q.
Definition upd (p : Z) (x : option anode) (v : astate) : astate := fun q => if decide (q = p) then x else v q.

(** A new entry, unless the name is taken or memory runs out. *)
Definition add_spec (oom : Prop) (v : astate) (node : Z) (name : str) (x : anode) (a : reply) (v' : astate) : Prop :=
  match v node with
  | Some (ADir m) =>
      a = ACode (-1) /\ same v v' /\ (is_Some (m !! name) \/ oom) \/
      a = ACode 0 /\ ~ oom /\ m !! name = None /\ exists new, v new = None /\ new <> 0 /\
        same (upd new (Some x) (upd node (Some (ADir (<[name := new]> m))) v)) v'
  | _ => a = ACode (-1) /\ same v v'
  end.

Definition fs_spec (oom : Prop) (v : astate) (c : ramfs_call) (a : reply) (v' : astate) : Prop :=
  match c with
  | CRead node offset size =>
      same v v' /\
      a = match v node with
          | Some (AFile c) => let b := take (Z.to_nat size) (drop (Z.to_nat offset) c) in AData (Z.of_nat (length b)) b
          | _ => AData 0 []
          end
  | CWrite node offset b =>
      a = ACode 0 /\ same v v' /\ (oom \/ forall c, v node <> Some (AFile c)) \/
      exists c gap, v node = Some (AFile c) /\ a = ACode (Z.of_nat (length b)) /\
        Z.of_nat (length gap) = Z.max 0 (offset - Z.of_nat (length c)) /\
        same (upd node (Some (AFile (splice (Z.to_nat offset) b (c ++ gap)))) v) v'
  | CFind node name =>
      same v v' /\ a = ACode (match v node with Some (ADir m) => default 0 (m !! name) | _ => 0 end)
  | CReaddir node index =>
      same v v' /\
      match v node with
      | Some (ADir m) =>
          if index <? Z.of_nat (size m) then
            exists name q e, a = AEntry (Some e) /\ m !! name = Some q /\ d_name e = take 255 name /\ d_off e = u32 (index + 1) /\
              match v q with Some (AFile _) => d_type e = 8 | Some (ADir _) => d_type e = 4 | None => False end
          else a = AEntry None
      | _ => a = AEntry None
      end
  | CCreate node name => add_spec oom v node name (AFile []) a v'
  | CMkdir node name _ => add_spec oom v node name (ADir ∅) a v'
  | CRename node old new =>
      match v node with
      | Some (ADir m) =>
          if bool_decide (old = []) || bool_decide (new = []) then a = ACode (-1) /\ same v v'
          else if bool_decide (old = new) then a = ACode 0 /\ same v v'
          else match m !! old, m !! new with
               | Some q, None => a = ACode 0 /\ same (upd node (Some (ADir (<[new := q]> (delete old m)))) v) v'
               | _, _ => a = ACode (-1) /\ same v v'
               end
      | _ => a = ACode (-1) /\ same v v'
      end
  | CUnlink node name =>
      match v node with
      | Some (ADir m) =>
          match m !! name with
          | Some q =>
              if match v q with Some (AFile _) => true | Some (ADir mq) => bool_decide (mq = ∅) | None => false end
              then a = ACode 0 /\ same (upd q None (upd node (Some (ADir (delete name m))) v)) v'
              else a = ACode (-1) /\ same v v'
          | None => a = ACode (-1) /\ same v v'
          end
      | _ => a = ACode (-1) /\ same v v'
      end
  end.

(** The allocations of a call, in order; those of a write are made only if
    the file has to grow. *)
Definition call_requests (c : ramfs_call) : list request :=
  match c with
  | CWrite _ offset b => [RBytes (page_round (offset + Z.of_nat (length b)))]
  | CCreate _ _ => [RNode; RFile; RDirent]
  | CMkdir _ _ _ => [RNode; RDir; RDirent]
  | _ => []
  end.

Definition call_node (c : ramfs_call) : Z :=
  match c with
  | CRead node _ _ | CWrite node _ _ | CFind node _ | CReaddir node _ | CCreate node _ | CMkdir node _ _
  | CRename node _ _ | CUnlink node _ => node
  end.

Section props.
Context {H W : Type} `{!ObjHeap H} `{!ObjHeapLaws H} `{!TaskResources W}.
Implicit Types (d : fsd H) (roots : list Z).
Abbreviation K := (K H W).

Definition run_call (c : ramfs_call) : K reply :=
  match c with
  | CRead node offset size => '(r, b) ← ramfs_read node offset size; mret (AData r b)
  | CWrite node offset buffer => r ← ramfs_write node offset buffer; mret (ACode r)
  | CFind node name => r ← ramfs_finddir node name; mret (ACode r)
  | CReaddir node index => r ← ramfs_readdir node index; mret (AEntry r)
  | CCreate node name => r ← ramfs_create_file node name; mret (ACode r)
  | CMkdir node name permissions => r ← ramfs_mkdir node name permissions; mret (ACode r)
  | CRename node old_name new_name => r ← ramfs_rename node old_name new_name; mret (ACode r)
  | CUnlink node name => r ← ramfs_unlink node name; mret (ACode r)
  end.

(** The calls in range: a file or directory node, offsets that do not wrap,
    names that are not cut, and room in the count of entries. *)
Definition call_ok d (c : ramfs_call) : Prop :=
  (exists n, objs d !! call_node c = Some (ONode n) /\ is_ram n = true) /\
  match c with
  | CRead _ offset size => 0 <= offset /\ 0 <= size /\ offset + size < 2 ^ 32
  | CWrite _ offset b => 0 <= offset /\ offset + Z.of_nat (length b) < 2 ^ 32 - 4095
  | CReaddir _ index => 0 <= index
  | CCreate node name | CMkdir node name _ =>
      (length name <= 127)%nat /\
      match view d node with Some (ADir m) => Z.of_nat (size m) < 2 ^ 32 - 1 | _ => True end
  | CRename _ _ new => (length new <= 127)%nat
  | CFind _ _ | CUnlink _ _ => True
  end.

(** The tree and the statics of vfs.c after an operation on the tree. *)
Definition good_after roots d d' : Prop :=
  tree_ok roots d' /\ fs_root d' = fs_root d /\ mount_table d' = mount_table d.

Lemma kept_good roots d d' : tree_ok roots d' -> kept d d' -> good_after roots d d'.
Proof. by intros ? []. Qed.

(** A call that returns [a] in [d'], as specified, and keeps the tree. *)
Definition meets roots d (c : ramfs_call) (a : reply) d' : Prop :=
  runs ∅ (run_call c) d a d' /\ good_after roots d d' /\ fs_spec (refused (heap d) (call_requests c)) (view d) c a (view d').

Lemma tree_objs roots d d' : tree_ok roots d -> kept d d' -> objs d' = objs d -> tree_ok roots d'.
Proof.
  intros Ht Hk Ho. apply (tree_relabel roots d d' Ht (kp_ok _ _ Hk)); [by rewrite Ho|].
  intros p o o' Hp Hp'. rewrite Ho, Hp in Hp'. injection Hp' as <-. split_and!; [done|done|by apply (to_local _ _ Ht p)|].
  intros n ->. by exists n.
Qed.

Lemma view_objs d d' : objs d' = objs d -> same (view d) (view d').
Proof. intros E q. unfold view, view_node, contents. by rewrite E. Qed.

(** ** Files and directories in a tree *)

Lemma ram_cases roots d node n :
  tree_ok roots d -> objs d !! node = Some (ONode n) -> is_ram n = true ->
  (exists f c, file_at d node n f c /\ view d node = Some (AFile c)) \/
  (exists r, dir_at d node n r /\ view d node = Some (ADir (dir_map r)) /\ NoDup (re_name <$> rd_entries r)).
Proof.
  intros Ht Hn Hr. destruct (ram_impl _ _ _ _ Ht Hn Hr) as [(f & Et & _)|(r & Et & _)].
  - left. destruct (tree_file _ _ _ _ Ht Hn Et) as (f' & c & Hf). exists f', c. split; [done|].
    by eapply view_file; [apply (to_data _ _ Ht)|].
  - right. destruct (tree_dir _ _ _ _ Ht Hn Et) as (r' & Hd). exists r'. split_and!; [done|by eapply view_dir|].
    by destruct (to_local _ _ Ht _ _ (da_impl _ _ _ _ Hd)) as (_ & ? & _).
Qed.

(** A directory operation on a file fails at once. *)
Lemma dir_impl_file held d node n f c : file_at d node n f c -> runs held (dir_impl node : K _) d None d.
Proof.
  intros [H1 H2 _ _ _ _]. unfold dir_impl. rstep. rewrite bool_decide_false by (by rewrite H2). rstep.
Qed.

Lemma entry_map r name : dir_map r !! name = re_node <$> ramfs_find_entry r name.
Proof. symmetry. apply find_names. Qed.

(** ** Reading *)

Lemma read_meets roots d node offset size :
  tree_ok roots d -> call_ok d (CRead node offset size) -> exists a d', meets roots d (CRead node offset size) a d'.
Proof.
  intros Ht [(n & Hn & Hr) (H1 & H2 & H3)]. cbn [call_node] in Hn. destruct (ram_cases _ _ _ _ Ht Hn Hr) as [(f & c & Hf & Ev)|(r & Hd & Ev & _)].
  - eexists _, d. unfold meets. split_and!; [|done|split; [done|by rewrite Ev]]. cbn [run_call].
    rbind (ramfs_read_spec d node n f c offset size (to_data _ _ Ht) Hf H1 H2 H3). rstep.
  - eexists _, d. unfold meets. split_and!; [|done|split; [done|by rewrite Ev]]. cbn [run_call].
    eapply (runs_bind _ _ _ _ (0, [])); [|cbn beta iota; rstep]. unfold ramfs_read. rstep.
    rewrite bool_decide_false by (by rewrite (da_type _ _ _ _ Hd)). cbn [negb]. rstep.
Qed.

(** A write to a file: the whole of it, or nothing for want of memory. *)
Lemma file_write_runs roots d node n f c offset b :
  tree_ok roots d -> file_at d node n f c -> 0 <= offset -> offset + Z.of_nat (length b) < 2 ^ 32 - 4095 ->
  exists r d', runs ∅ (ramfs_write node offset b : K Z) d r d' /\ good_after roots d d' /\
    (forall q o, objs d !! q = Some o -> kind o = KOther -> objs d' !! q = Some o) /\
    (r = 0 /\ refused (heap d) (call_requests (CWrite node offset b)) /\ same (view d) (view d') \/
     r = Z.of_nat (length b) /\ exists gap, Z.of_nat (length gap) = Z.max 0 (offset - Z.of_nat (length c)) /\
       same (upd node (Some (AFile (splice (Z.to_nat offset) b (c ++ gap)))) (view d)) (view d')).
Proof.
  intros Ht Hf H1 H2.
  destruct (ramfs_write_spec (W := W) d node n f c offset b (to_data _ _ Ht) Hf H1 H2) as (r & d' & R & Hk & [(-> & Hoom & Ho)|[-> Hw]]).
  - exists 0, d'. split_and!; [done|apply kept_good; [by eapply tree_objs|done]|by rewrite Ho|].
    left. split_and!; [done|done|by apply view_objs].
  - destruct Hw as [(n' & f' & gap & Hg & Hi & Hop & _ & Hfl & _ & Hf' & Hnew & Hfr)].
    eexists _, d'. split_and!; [done| | |right; split; [done|]; exists gap; split; [done|]].
    + apply kept_good; [|done].
      by eapply (tree_write roots d d' node n n' f f'); [..|apply Hk|exact Hf|exact Hf'|done|done|done|done|done].
    + intros q o Hq Ho. pose proof Hf as [F1 F2 F3 _ _ F6]. rewrite Hfr; [done|..]; intros ->.
      * rewrite Hq in F1. injection F1 as ->. cbn in Ho. by rewrite (ram_file _ F2) in Ho.
      * rewrite Hq in F3. by injection F3 as ->.
      * destruct F6 as [[E _]|(l & _ & El & _)]; [by rewrite E, (do_null _ (to_data _ _ Ht)) in Hq|].
        rewrite Hq in El. by injection El as ->.
      * destruct Hnew as [E|[E _]]; [|congruence]. rewrite E in Hq.
        destruct F6 as [[E0 _]|(l & _ & El & _)]; [by rewrite E0, (do_null _ (to_data _ _ Ht)) in Hq|].
        rewrite Hq in El. by injection El as ->.
    + intros q. unfold upd. case_decide as E.
      * subst. by eapply view_file; [apply Hk|].
      * by eapply (view_write roots d d' node n n' f f'); [..|apply Hk|exact Hf|exact Hf'|done|done|done|done].
Qed.

Lemma write_meets roots d node offset b :
  tree_ok roots d -> call_ok d (CWrite node offset b) -> exists a d', meets roots d (CWrite node offset b) a d'.
Proof.
  intros Ht [(n & Hn & Hr) (H1 & H2)]. cbn [call_node] in Hn. destruct (ram_cases _ _ _ _ Ht Hn Hr) as [(f & c & Hf & Ev)|(r & Hd & Ev & _)].
  - destruct (file_write_runs roots d node n f c offset b Ht Hf H1 H2) as (r & d' & R & Hg & _ & Hcase).
    exists (ACode r), d'. unfold meets. split_and!; [cbn [run_call]; rbind R; rstep|done|].
    destruct Hcase as [(-> & Hoom & Hs)|(-> & gap & Hgap & Hs)]; [left; split_and!; [done|done|by left]|right].
    by exists c, gap.
  - exists (ACode 0), d. unfold meets. split_and!; [|done|left; split_and!; [done|done|right; by rewrite Ev]]. cbn [run_call]. eapply (runs_bind _ _ _ _ 0); [|cbn beta iota; rstep].
    unfold ramfs_write. rstep. rewrite bool_decide_false by (by rewrite (da_type _ _ _ _ Hd)). cbn [negb]. rstep.
Qed.

(** ** Directories *)

Lemma ref_static d node n : objs d !! node = Some (ONode n) -> counted n = false -> runs ∅ (vfs_ref_node node : K unit) d tt d.
Proof. intros Hn Hc. unfold vfs_ref_node. case_if; [rstep|]. rstep. rewrite Hc. cbn [negb]. rstep. Qed.

Lemma find_meets roots d node name :
  tree_ok roots d -> call_ok d (CFind node name) -> exists a d', meets roots d (CFind node name) a d'.
Proof.
  intros Ht [(n & Hn & Hr) _]. cbn [call_node] in Hn.
  destruct (ram_cases _ _ _ _ Ht Hn Hr) as [(f & c & Hf & Ev)|(r & Hd & Ev & _)].
  { exists (ACode 0), d. unfold meets. split_and!; [|done|split; [done|by rewrite Ev]]. cbn [run_call].
    eapply (runs_bind _ _ _ _ 0); [|cbn beta; rstep]. unfold ramfs_finddir. rbind (dir_impl_file _ _ _ _ _ _ Hf). rstep. }
  eexists _, d. unfold meets. split_and!; [|done|split; [done|by rewrite Ev, entry_map]]. cbn [run_call].
  eapply runs_bind; [|cbn beta; rstep]. unfold ramfs_finddir. rbind (dir_impl_runs _ _ _ _ _ (to_data _ _ Ht) Hd).
  pose proof (da_impl _ _ _ _ Hd) as Hi.
  eapply runs_bind; [apply runs_lock; [set_solver|]; rstep; rstep|]. cbn beta.
  destruct (ramfs_find_entry r name) as [x|] eqn:E; cbn [fmap option_fmap option_map default from_option id].
  - apply find_name_some in E as [Hx _]. destruct (tree_entry _ _ _ _ _ Ht Hi Hx) as [(m & Hm & Hrm) _].
    rewrite (proj2 (Z.eqb_neq _ 0)) by (eapply not_null; [apply (to_data _ _ Ht)|done]).
    eapply runs_bind; [eapply ref_static; [done|by apply (to_local _ _ Ht _ _ Hm)]|]. cbn beta. rstep.
  - rewrite Z.eqb_refl. rstep. rstep.
Qed.

Lemma readdir_meets roots d node index :
  tree_ok roots d -> call_ok d (CReaddir node index) -> exists a d', meets roots d (CReaddir node index) a d'.
Proof.
  intros Ht [(n & Hn & Hr) H0]. cbn [call_node] in Hn.
  destruct (ram_cases _ _ _ _ Ht Hn Hr) as [(f & c & Hf & Ev)|(r & Hd & Ev & Hnd)].
  { exists (AEntry None), d. unfold meets. split_and!; [|done|split; [done|by rewrite Ev]]. cbn [run_call].
    eapply runs_bind; [|cbn beta; rstep]. unfold ramfs_readdir. rbind (dir_impl_file _ _ _ _ _ _ Hf). rstep. }
  assert (Hrun : forall e, runs ({[LObj (fn_impl n)]} ∪ ∅) (match rd_entries r !! Z.to_nat index with
      | None => mret None
      | Some x => n ← read_obj as_node (re_node x);
          mret (Some (Dirent (fn_inode n) (u32 (index + 1)) (dtype (fn_type n)) (take 255 (re_name x)))) end : K _) d e d ->
      runs ∅ (run_call (CReaddir node index) : K _) d (AEntry e) d).
  { intros e He. cbn [run_call]. eapply runs_bind; [|cbn beta; rstep]. unfold ramfs_readdir.
    rbind (dir_impl_runs _ _ _ _ _ (to_data _ _ Ht) Hd). apply runs_lock; [set_solver|].
    eapply runs_bind; [apply (runs_read _ _ _ _ (ODir r)); [apply (da_impl _ _ _ _ Hd)|done]|exact He]. }
  pose proof (names_size _ Hnd) as Hsz. fold (dir_map r) in Hsz.
  destruct (rd_entries r !! Z.to_nat index) as [x|] eqn:E.
  - pose proof (lookup_lt_Some _ _ _ E). destruct (tree_entry _ _ _ _ x Ht (da_impl _ _ _ _ Hd)) as [(m & Hm & Hrm) _].
    { apply list_elem_of_lookup. by exists (Z.to_nat index). }
    eexists _, d. unfold meets. split_and!; [apply Hrun; rstep; rstep|done|]. split; [done|]. rewrite Ev, (proj2 (Z.ltb_lt _ _)) by lia.
    exists (re_name x), (re_node x). eexists. split_and!; [done|by eapply names_lookup|done|done|].
    destruct (ram_cases _ _ _ _ Ht Hm Hrm) as [(f & c & Hf & ->)|(r' & Hd' & -> & _)]; cbn.
    + by rewrite (fa_type _ _ _ _ _ Hf).
    + by rewrite (da_type _ _ _ _ Hd').
  - apply lookup_ge_None in E. eexists _, d. unfold meets. split_and!; [apply Hrun; rstep|done|]. split; [done|].
    by rewrite Ev, (proj2 (Z.ltb_ge _ _)) by lia.
Qed.

(** [ramfs_create_file] and [ramfs_mkdir] on a directory. *)
Lemma add_meets roots d node n r name req o type permissions ops x ki :
  tree_ok roots d -> dir_at d node n r -> (length name <= 127)%nat -> Z.of_nat (length (rd_entries r)) < 2 ^ 32 - 1 ->
  wants o = [] -> local_ok o -> kind o = ki -> (forall k, o <> ONode k) ->
  (forall nm i p, wants (ONode (new_node nm i type permissions p ops)) = [(p, ki)]) ->
  (forall nm i p, is_ram (new_node nm i type permissions p ops) = true /\ ram_ok (new_node nm i type permissions p ops)) ->
  (forall d' i p, data_ok d' -> objs d' !! p = Some o -> view_node d' (new_node name i type permissions p ops) = Some x) ->
  exists a d', runs ∅ (with_lock (LObj (fn_impl n)) (new_child (fn_impl n) name req o type permissions ops) : K Z) d a d' /\
    good_after roots d d' /\ add_spec (refused (heap d) [RNode; req; RDirent]) (view d) node name x (ACode a) (view d').
Proof.
  intros Ht Hd Hlen Hcnt Hwo Hlo Hko Hno Hwn Hrn Hv. pose proof (da_impl _ _ _ _ Hd) as Hi.
  unfold add_spec. rewrite (view_dir _ _ _ _ Hd), entry_map. destruct (ramfs_find_entry r name) as [y|] eqn:Ef.
  { exists (-1), d. split_and!; [|done|left; split_and!; [done|done|left; by exists (re_node y)]].
    rstep. unfold new_child. rstep. rewrite Ef. rstep. }
  destruct (new_child_runs (W := W) ({[LObj (fn_impl n)]} ∪ ∅) d (fn_impl n) r name req o type permissions ops (to_data _ _ Ht) Hi Ef)
    as [(Hoom & d' & R & Hk & Ho)|(Hoom & d' & new & impl & p & inode & R & Hk & F1 & F2 & F3 & N1 & N2 & N3 & N0 & Ho)].
  { intros p Hp. rewrite union_empty_r_L. intros [= ->]%elem_of_singleton. congruence. }
  - exists (-1), d'. split_and!; [by apply runs_lock; [set_solver|]|apply kept_good; [by eapply tree_objs|done]|]. left. split_and!; [done|by apply view_objs|by right].
  - set (nn := new_node name inode type permissions impl ops).
    assert (Hca : child_added d d' (fn_impl n) r name new impl p nn o) by (by split).
    exists 0, d'. split_and!; [by apply runs_lock; [set_solver|]| |right].
    + apply kept_good; [|done]. by eapply (tree_child roots d d' (fn_impl n) r name new impl p nn o ki); try done; [apply Hwn|apply Hk|apply Hrn|apply Hrn].
    + split_and!; [done|done|done|]. exists new. split_and!; [by rewrite view_other by (intros k Hk'; congruence)|done|].
      assert (Hnode : node <> new) by (intros ->; by rewrite (da_node _ _ _ _ Hd) in F1).
      assert (Hdn : fn_impl n <> node) by (intros E; rewrite E, (da_node _ _ _ _ Hd) in Hi; done).
      intros q. unfold upd. case_decide as E1; [|case_decide as E2].
      * subst q. unfold view. rewrite Ho, lookup_insert_ne, lookup_insert_ne, lookup_insert_eq by congruence.
        apply Hv; [apply Hk|]. rewrite Ho, !lookup_insert_ne, lookup_insert_eq by congruence. done.
      * subst q. rewrite (view_dir d' node n (RamfsDir (RamfsDirent (cut_name name) new p :: rd_entries r) (u32 (rd_count r + 1))));
          [|split; [|exact (da_type _ _ _ _ Hd)|]].
        -- unfold dir_map. cbn [rd_entries]. rewrite names_cons. cbn [re_name re_node]. by rewrite cut_name_short.
        -- pose proof (da_node _ _ _ _ Hd) as Hnn. by rewrite Ho, !lookup_insert_ne by congruence.
        -- by rewrite Ho, lookup_insert_eq.
      * by eapply (view_child roots d d' (fn_impl n) r name new impl p nn o node n); [..|apply Hk|exact Hd|done|done|done|done|done].
Qed.

Lemma create_meets roots d node name :
  tree_ok roots d -> call_ok d (CCreate node name) -> exists a d', meets roots d (CCreate node name) a d'.
Proof.
  intros Ht [(n & Hn & Hr) [Hlen Hcnt]]. cbn [call_node] in Hn.
  destruct (ram_cases _ _ _ _ Ht Hn Hr) as [(f & c & Hf & Ev)|(r & Hd & Ev & Hnd)].
  { exists (ACode (-1)), d. unfold meets. split_and!; [|done|by cbn; unfold add_spec; rewrite Ev]. cbn [run_call].
    eapply runs_bind; [|cbn beta; rstep]. unfold ramfs_create_file. rbind (dir_impl_file _ _ _ _ _ _ Hf). rstep. }
  rewrite Ev in Hcnt. unfold dir_map in Hcnt. rewrite names_size in Hcnt by done.
  destruct (add_meets roots d node n r name RFile (OFile (RamfsFile 0 0 0)) FS_FILE (Z.lor FS_PERM_READ FS_PERM_WRITE) OpsRamFile
    (AFile []) KFile Ht Hd Hlen Hcnt) as (a & d' & R & Ht' & Hs); try done.
  { intros d' i p Hd' Hp. unfold view_node, contents. cbn. rewrite Hp. cbn. by rewrite (do_null _ Hd'). }
  exists (ACode a), d'. unfold meets. split_and!; [|done|done]. cbn [run_call]. eapply runs_bind; [|cbn beta; rstep].
  unfold ramfs_create_file. rbind (dir_impl_runs _ _ _ _ _ (to_data _ _ Ht) Hd). exact R.
Qed.

Lemma mkdir_meets roots d node name permissions :
  tree_ok roots d -> call_ok d (CMkdir node name permissions) -> exists a d', meets roots d (CMkdir node name permissions) a d'.
Proof.
  intros Ht [(n & Hn & Hr) [Hlen Hcnt]]. cbn [call_node] in Hn.
  destruct (ram_cases _ _ _ _ Ht Hn Hr) as [(f & c & Hf & Ev)|(r & Hd & Ev & Hnd)].
  { exists (ACode (-1)), d. unfold meets. split_and!; [|done|by cbn; unfold add_spec; rewrite Ev]. cbn [run_call].
    eapply runs_bind; [|cbn beta; rstep]. unfold ramfs_mkdir. rbind (dir_impl_file _ _ _ _ _ _ Hf). rstep. }
  rewrite Ev in Hcnt. unfold dir_map in Hcnt. rewrite names_size in Hcnt by done.
  destruct (add_meets roots d node n r name RDir (ODir (RamfsDir [] 0)) FS_DIRECTORY permissions OpsRamDir
    (ADir ∅) KDir Ht Hd Hlen Hcnt) as (a & d' & R & Ht' & Hs); try done.
  { cbn. split_and!; [done|apply NoDup_nil_2|done]. }
  { intros d' i p Hd' Hp. unfold view_node. cbn. by rewrite Hp. }
  exists (ACode a), d'. unfold meets. split_and!; [|done|done]. cbn [run_call]. eapply runs_bind; [|cbn beta; rstep].
  unfold ramfs_mkdir. rbind (dir_impl_runs _ _ _ _ _ (to_data _ _ Ht) Hd). exact R.
Qed.

(** The renamed directory, seen from its node (which may be [re_node x]). *)
Lemma rename_self d dir r old new x m node n :
  dir_at d node n r -> fn_impl n = dir -> objs d !! re_node x = Some (ONode m) -> NoDup (re_name <$> rd_entries r) ->
  ramfs_find_entry r old = Some x -> ramfs_find_entry r new = None -> (length new <= 127)%nat ->
  let d1 := set_objs d (<[dir := ODir (RamfsDir (rename_entry old new (rd_entries r)) (rd_count r))]> (objs d)) in
  let d' := set_objs d1 (<[re_node x := ONode (n_set_name (cut_name new) m)]> (objs d1)) in
  view d' node = Some (ADir (<[new := re_node x]> (delete old (dir_map r)))).
Proof.
  intros [Hn Hty Hi] <- Hm Hnd F1 F2 Hlen d1 d'. assert (Hnx : node <> fn_impl n) by congruence.
  assert (Hk' : exists n', fn_type n' = FS_DIRECTORY /\ fn_impl n' = fn_impl n /\ objs d' !! node = Some (ONode n')).
  { destruct (decide (node = re_node x)) as [E4|E4].
    - exists (n_set_name (cut_name new) m). cbn. rewrite E4, lookup_insert_eq. rewrite E4 in Hn. simplify_eq. done.
    - exists n. cbn. by rewrite !lookup_insert_ne. }
  destruct Hk' as (n' & T1 & T2 & T3).
  rewrite (view_dir d' node n' (RamfsDir (rename_entry old new (rd_entries r)) (rd_count r))).
  - unfold dir_map. cbn [rd_entries]. by rewrite (rename_map old new _ x).
  - split; [done|done|]. cbn. rewrite T2, lookup_insert_ne, lookup_insert_eq by congruence. done.
Qed.

Lemma rename_meets roots d node old new :
  tree_ok roots d -> call_ok d (CRename node old new) -> exists a d', meets roots d (CRename node old new) a d'.
Proof.
  intros Ht [(n & Hn & Hr) Hlen]. cbn [call_node] in Hn.
  destruct (ram_cases _ _ _ _ Ht Hn Hr) as [(f & c & Hf & Ev)|(r & Hd & Ev & Hnd)].
  { exists (ACode (-1)), d. unfold meets. split_and!; [|done|by cbn; rewrite Ev]. cbn [run_call].
    eapply runs_bind; [|cbn beta; rstep]. unfold ramfs_rename. rbind (dir_impl_file _ _ _ _ _ _ Hf). rstep. }
  unfold meets. cbn [fs_spec run_call]. rewrite Ev, !entry_map.
  assert (Hstart : forall a d', runs ∅ (if bool_decide (old = []) || bool_decide (new = []) then mret (-1)
      else if bool_decide (old = new) then mret 0 else with_lock (LObj (fn_impl n))
        (r ← read_obj as_dir (fn_impl n);
         match ramfs_find_entry r old with
         | None => mret (-1)
         | Some x => match ramfs_find_entry r new with
             | Some _ => mret (-1)
             | None =>
                 _ ← put (fn_impl n) (ODir (RamfsDir (rename_entry old new (rd_entries r)) (rd_count r)));
                 n ← read_obj as_node (re_node x);
                 _ ← put (re_node x) (ONode (n_set_name (cut_name new) n));
                 mret 0
             end
         end) : K Z) d a d' -> runs ∅ (ramfs_rename node old new : K Z) d a d').
  { intros a d' R. unfold ramfs_rename. rbind (dir_impl_runs _ _ _ _ _ (to_data _ _ Ht) Hd). exact R. }
  pose proof (da_impl _ _ _ _ Hd) as Hi.
  destruct (bool_decide (old = []) || bool_decide (new = [])) eqn:E1.
  { exists (ACode (-1)), d. split_and!; [|done..]. eapply runs_bind; [apply Hstart; rstep|cbn beta; rstep]. }
  case_bool_decide as E2.
  { exists (ACode 0), d. split_and!; [|done..]. eapply runs_bind; [apply Hstart; rstep|cbn beta; rstep]. }
  destruct (ramfs_find_entry r old) as [x|] eqn:F1; cbn [fmap option_fmap option_map].
  2: { exists (ACode (-1)), d. split_and!; [|done..]. eapply runs_bind; [apply Hstart; rstep; rstep; rewrite F1; rstep|cbn beta; rstep]. }
  destruct (ramfs_find_entry r new) as [y|] eqn:F2; cbn [fmap option_fmap option_map].
  { exists (ACode (-1)), d. split_and!; [|done..]. eapply runs_bind; [apply Hstart; rstep; rstep; rewrite F1, F2; rstep|cbn beta; rstep]. }
  destruct (tree_entry _ _ _ _ x Ht Hi) as [(m & Hm & Hrm) _]; [by apply find_name_some in F1 as [? _]|].
  destruct (rename_runs (W := W) ∅ d (fn_impl n) r old new x m (to_data _ _ Ht) Hi F1 F2 Hm) as [Hk R].
  apply orb_false_iff in E1 as [E1 E3]. apply bool_decide_eq_false in E1, E3.
  eexists (ACode 0), _. split_and!; [|apply kept_good; [by apply (tree_rename roots d (fn_impl n) r old new x m)|done]|done|].
  - eapply runs_bind; [apply (R node n); try done; apply (da_type _ _ _ _ Hd)|cbn beta; rstep].
  - assert (Hnx : node <> fn_impl n) by (intros E; rewrite <- E in Hi; congruence).
    intros q. unfold upd. case_decide as E; [subst q|apply (view_rename roots d (fn_impl n) r old new x m node n); try done; apply Hk].
    by eapply (rename_self d (fn_impl n) r old new x m node n).
Qed.

Lemma unlink_view roots d d' node n r name x m :
  tree_ok roots d -> data_ok d' -> dir_at d node n r -> ramfs_find_entry r name = Some x -> NoDup (re_name <$> rd_entries r) ->
  objs d !! re_node x = Some (ONode m) -> is_ram m = true -> x ∈ rd_entries r ->
  unlinked d d' (fn_impl n) r name (dead_of d x m) -> fn_impl n ∉ dead_of d x m ->
  same (upd (re_node x) None (upd node (Some (ADir (delete name (dir_map r)))) (view d))) (view d').
Proof.
  intros Ht Hd' Hd F Hnd Hm Hrm Hx Hu Hdir q. unfold upd. case_decide as E1; [|case_decide as E2].
  - subst q. apply view_other. intros k Hk'. rewrite (ul_dead _ _ _ _ _ _ Hu) in Hk'; [done|]. by left.
  - subst q. rewrite (view_dir d' node n (RamfsDir (unlink_name name (rd_entries r)) (u32 (rd_count r - 1)))).
    + unfold dir_map. cbn [rd_entries]. by rewrite unlink_map.
    + split; [|apply (da_type _ _ _ _ Hd)|apply (ul_dir _ _ _ _ _ _ Hu)].
      pose proof (da_node _ _ _ _ Hd) as Hn. pose proof (da_impl _ _ _ _ Hd) as Hi.
      rewrite (ul_rest _ _ _ _ _ _ Hu); [done|congruence|].
      destruct (tree_entry _ _ _ _ x Ht Hi Hx) as [_ Ha].
      pose proof (node_not_foot roots d node n _ m Ht Hn (ram_dir _ (da_type _ _ _ _ Hd)) Hm Hrm) as Hnf.
      unfold foot in Hnf. rewrite not_elem_of_cons in Hnf. unfold dead_of. rewrite !not_elem_of_cons.
      split_and!; [done|congruence|apply Hnf|apply Hnf].
  - by apply (view_unlink roots d d' r name x m node n).
Qed.

Lemma unlink_meets roots d node name :
  tree_ok roots d -> call_ok d (CUnlink node name) -> exists a d', meets roots d (CUnlink node name) a d'.
Proof.
  intros Ht [(n & Hn & Hr) _]. cbn [call_node] in Hn.
  destruct (ram_cases _ _ _ _ Ht Hn Hr) as [(f & c & Hf & Ev)|(r & Hd & Ev & Hnd)].
  { exists (ACode (-1)), d. unfold meets. split_and!; [|done|by cbn; rewrite Ev]. cbn [run_call].
    eapply runs_bind; [|cbn beta; rstep]. unfold ramfs_unlink. rbind (dir_impl_file _ _ _ _ _ _ Hf). rstep. }
  unfold meets. cbn [fs_spec run_call]. rewrite Ev, !entry_map. pose proof (da_impl _ _ _ _ Hd) as Hi.
  destruct (ramfs_find_entry r name) as [x|] eqn:F; cbn [fmap option_fmap option_map].
  2: { exists (ACode (-1)), d. split_and!; [|done..]. eapply runs_bind; [|cbn beta; rstep].
       unfold ramfs_unlink. rbind (dir_impl_runs _ _ _ _ _ (to_data _ _ Ht) Hd). rstep. rstep. rewrite F. rstep. }
  pose proof (find_name_some _ _ _ F) as [Hx _]. destruct (tree_entry _ _ _ _ x Ht Hi Hx) as [(m & Hm & Hrm) _].
  destruct (unlink_runs (W := W) roots d node n r name x m Ht Hd F Hm) as [(t & Et & Eo & Hc & R)|(d' & R & Hk & Hu & Hdir & He)].
  - exists (ACode (-1)), d. split_and!; [eapply runs_bind; [exact R|cbn beta; rstep]|done|].
    rewrite (view_dir d (re_node x) m t) by done. rewrite bool_decide_false; [done|]. intros E.
    destruct (to_local _ _ Ht _ _ Eo) as (Ec & Hnt & _). pose proof (names_size _ Hnt) as Hs. fold (dir_map t) in Hs.
    rewrite E, map_size_empty in Hs. lia.
  - exists (ACode 0), d'. split_and!; [eapply runs_bind; [exact R|cbn beta; rstep]| |].
    + apply kept_good; [|done]. by eapply (tree_unlink roots d d' (fn_impl n) r name x m); try done; apply Hk.
    + assert (Hs : same (upd (re_node x) None (upd node (Some (ADir (delete name (dir_map r)))) (view d))) (view d')).
      { by apply (unlink_view roots d d' node n r name x m); try done; apply Hk. }
      destruct (ram_cases _ _ _ _ Ht Hm Hrm) as [(f & c & Hf & ->)|(t & Hdt & -> & _)]; [done|].
      destruct (He (da_type _ _ _ _ Hdt)) as (t' & Et & El). rewrite (da_impl _ _ _ _ Hdt) in Et. injection Et as <-.
      rewrite bool_decide_true; [done|]. unfold dir_map. by rewrite El.
Qed.

Lemma call_meets roots d c : tree_ok roots d -> call_ok d c -> exists a d', meets roots d c a d'.
Proof.
  destruct c; eauto using read_meets, write_meets, find_meets, readdir_meets, create_meets, mkdir_meets, rename_meets, unlink_meets.
Qed.

(** ** Initialisation *)

(** One more tree, of a fresh root. *)
Lemma root_tree roots d d' root impl n :
  tree_ok roots d -> data_ok d' -> objs d' = <[root := ONode n]> (<[impl := ODir (RamfsDir [] 0)]> (objs d)) -> impl <> root ->
  objs d !! root = None -> objs d !! impl = None ->
  fn_type n = FS_DIRECTORY -> fn_impl n = impl -> ram_ok n -> tree_ok (root :: roots) d'.
Proof.
  intros Ht Hd Ho Hne Hfr Hfi Hty Hi Hc.
  assert (Hold : forall p o, objs d !! p = Some o -> objs d' !! p = Some o) by (intros p o Hp; rewrite Ho, !lookup_insert_ne by congruence; done).
  assert (Hcase : forall p o, objs d' !! p = Some o ->
    (p = root /\ o = ONode n) \/ (p = impl /\ o = ODir (RamfsDir [] 0)) \/ objs d !! p = Some o).
  { intros p o Hp. rewrite Ho in Hp. apply lookup_insert_Some in Hp as [[<- <-]|[_ Hp]]; [by left|].
    apply lookup_insert_Some in Hp as [[<- <-]|[_ Hp]]; [by right; left|by right; right]. }
  assert (Hown : forall p x k, owns d' p x k <-> owns d p x k \/ (p = root /\ x = impl /\ k = KDir)).
  { intros p x k. split.
    - intros (o & Hp & Hin). destruct (Hcase _ _ Hp) as [[-> ->]|[[-> ->]|Hp']]; [|by apply elem_of_nil in Hin|left; by exists o].
      cbn in Hin. rewrite Hty, Hi in Hin. right. by apply list_elem_of_singleton in Hin as [= -> ->].
    - intros [(o & Hp & Hin)|(-> & -> & ->)]; [exists o; auto|]. exists (ONode n). split; [by rewrite Ho, lookup_insert_eq|]. cbn. rewrite Hty, Hi. by left. }
  assert (Hfresh : forall p k, ~ owns d p root k /\ ~ owns d p impl k) by (intros p k; split; by eapply fresh_unowned).
  split; [done|..].
  - intros p o [[-> ->]|[[-> ->]|Hp]]%Hcase; [exact (fun _ => Hc)| |by apply (to_local _ _ Ht p)]. cbn. split_and!; [done|apply NoDup_nil_2|done].
  - intros p x k [Hp|(-> & -> & ->)]%Hown; [destruct (to_typed _ _ Ht p x k Hp) as (o & Ex & Ek); exists o; auto|].
    exists (ODir (RamfsDir [] 0)). split; [|done]. by rewrite Ho, lookup_insert_ne, lookup_insert_eq.
  - intros p o [[-> ->]|[[-> ->]|Hp]]%Hcase; cbn; [rewrite Hty| |by apply (to_nodup _ _ Ht p)]; [apply NoDup_singleton|apply NoDup_nil_2].
  - intros p q x k k' [Hp|(-> & -> & ->)]%Hown [Hq|(-> & E & _)]%Hown; [by eapply (to_unique _ _ Ht)|subst; by apply Hfresh in Hp|by apply Hfresh in Hq|done].
  - intros x o [[-> ->]|[[-> ->]|Hx]]%Hcase Hk; [left; by left|right; exists root, KDir; apply Hown; by right|].
    destruct (to_rooted _ _ Ht x o Hx Hk) as [?|(p & k & Hp)]; [left; by right|right]. exists p, k. apply Hown. by left.
  - intros x [->|Hx]%elem_of_cons.
    + split; [exists n; split; [by rewrite Ho, lookup_insert_eq|done]|].
      intros p k [Hp|(_ & ? & _)]%Hown; [by apply Hfresh in Hp|congruence].
    + destruct (to_roots _ _ Ht x Hx) as [(m & Hm & Hmt) Hno]. split; [exists m; auto|].
      intros p k [Hp|(_ & -> & _)]%Hown; [by apply (Hno p k)|congruence].
Qed.

(** A heap without objects of ramfs is a tree with no roots. *)
Definition no_ramfs d : Prop :=
  dom (objs d) ⊆ oh_live (heap d) /\ objs d !! 0 = None /\ forall p o, objs d !! p = Some o -> kind o = KOther /\ local_ok o.

Lemma no_ramfs_tree d i : no_ramfs d -> tree_ok [] (set_inode d i 0).
Proof.
  intros (H1 & H2 & H3).
  assert (Hno : forall p x k, ~ owns (set_inode d i 0) p x k).
  { intros p x k (o & Hp & Hin). destruct (H3 p o Hp) as [Hk _].
    destruct o as [n|f|r| | | | |]; cbn in *; try done; try by apply elem_of_nil in Hin.
    unfold is_ram in Hk. destruct (fn_type n); cbn in *; try done; by apply elem_of_nil in Hin. }
  split.
  - done.
  - intros p o Hp. by apply (H3 p o).
  - intros p x k Hp. by apply Hno in Hp.
  - intros p o Hp. destruct (wants o) as [|[x k] l] eqn:E; [apply NoDup_nil_2|]. exfalso. apply (Hno p x k). exists o. rewrite E. split; [done|by left].
  - intros p q x k k' Hp. by apply Hno in Hp.
  - intros x o Hx Hk. by destruct (H3 x o Hx).
  - intros x Hx. by apply elem_of_nil in Hx.
Qed.

Lemma create_root roots d :
  tree_ok roots d ->
  (refused (heap d) [RNode; RDir] /\ exists d', runs ∅ (ramfs_create (Some [47]) : K Z) d 0 d' /\ kept d d' /\ objs d' = objs d) \/
  exists root d', root <> 0 /\ runs ∅ (ramfs_create (Some [47]) : K Z) d root d' /\ kept d d' /\
    tree_ok (root :: roots) d' /\ view d' root = Some (ADir ∅) /\
    (forall q o, objs d !! q = Some o -> objs d' !! q = Some o).
Proof.
  intros Ht. pose proof (to_data _ _ Ht) as Hd. destruct (kmalloc_cases (W := W) ∅ RNode d Hd) as [(Hoom & d1 & R1 & K1 & O1)|(root & d1 & h & Hp & Hpn & R1 & K1 & O1 & A1)].
  { left. split; [by left|]. exists d1. split_and!; [|done|congruence]. unfold ramfs_create. rbind R1. rstep. }
  destruct (kmalloc_cases (W := W) ∅ RDir d1 (kp_ok _ _ K1)) as [(Hoom & d2 & R2 & K2 & O2)|(impl & d2 & h2 & Hi & Hin & R2 & K2 & O2 & _)].
  { left. split; [rewrite (refused_later _ _ _ _ _ A1 Hp); by left|]. destruct (kfree_fresh (W := W) ∅ d d2 root ORaw) as (d3 & R3 & K3 & O3); [apply K2|done|by rewrite O2|].
    exists d3. split_and!; [|eapply kept_trans; [exact K1|]; eapply kept_trans; eassumption|congruence].
    unfold ramfs_create. rbind R1. rewrite (proj2 (Z.eqb_neq root 0)) by done. rbind R2. rbind R3. rstep. }
  right. rewrite O1 in O2, Hin. apply lookup_insert_None in Hin as [Hin Hne']. assert (Hne : impl <> root) by congruence.
  set (d3 := set_objs d2 (<[impl := ODir (RamfsDir [] 0)]> (objs d2))).
  assert (K3 : kept d2 d3) by (apply kept_put; [apply K2|by rewrite O2, lookup_insert_eq]).
  destruct (inode_runs (W := W) ∅ d3 (kp_ok _ _ K3)) as (d4 & R4 & K4 & O4 & _).
  set (n := new_node [47] (next_inode d3) FS_DIRECTORY (Z.lor (Z.lor FS_PERM_READ FS_PERM_WRITE) FS_PERM_EXEC) impl OpsRamDir).
  set (d5 := set_objs d4 (<[root := ONode n]> (objs d4))).
  assert (K5 : kept d4 d5).
  { apply kept_put; [apply K4|]. rewrite O4. cbn. by rewrite lookup_insert_ne, O2, lookup_insert_ne, lookup_insert_eq. }
  assert (O5 : objs d5 = <[root := ONode n]> (<[impl := ODir (RamfsDir [] 0)]> (objs d))).
  { cbn. rewrite O4. cbn. rewrite O2. rewrite insert_insert_eq. rewrite (insert_insert_ne _ impl root) by done.
    by rewrite insert_insert_eq. }
  exists root, d5. split_and!; [done| | |by apply (root_tree roots d d5 root impl n); [done|apply K5|..]| |].
  - unfold ramfs_create. rbind R1. rewrite (proj2 (Z.eqb_neq root 0)) by done. rbind R2.
    rewrite (proj2 (Z.eqb_neq impl 0)) by done. eapply runs_bind; [apply runs_put|]. cbn beta. rstep. rbind R4.
    eapply runs_bind; [apply runs_put|]. cbn beta. rstep.
  - repeat (eapply kept_trans; [eassumption|]). apply kept_refl, K5.
  - apply (view_dir d5 root n (RamfsDir [] 0)). split; [by rewrite O5, lookup_insert_eq|done|].
    by rewrite O5, lookup_insert_ne, lookup_insert_eq.
  - intros q o Hq. by rewrite O5, !lookup_insert_ne by congruence.
Qed.

(** ** Theorems *)

(** C5: Each call of ramfs on a good tree returns, and the answer and the new
    contents are those of the specification in which a file is a byte
    sequence and a directory a finite map; every other node looks as before,
    and the objects again form a tree: nothing dangling, shared or leaked.  A
    creation fails exactly when the name is taken or one of its own three
    allocations is refused, a write to a file only when the block it has to
    grow to is refused.  The call is in range: the offset plus the size does
    not wrap in 32 bits, a new name has at most 127 bytes (a longer one is
    stored cut), and the directory has fewer than [2^32 - 1] entries. *)
Theorem ramfs_refines roots d c :
  tree_ok roots d -> call_ok d c ->
  exists a d', runs ∅ (run_call c : K _) d a d' /\ tree_ok roots d' /\
    fs_spec (refused (heap d) (call_requests c)) (view d) c a (view d').
Proof. intros Ht Hc. destruct (call_meets roots d c Ht Hc) as (a & d' & R & [Ht' _] & Hs). by exists a, d'. Qed.

Definition fs_step (s s' : fsd H * env W) : Prop :=
  exists c a, call_ok s.1 c /\ run_call c s.1 s.2 = Some (a, s'.1, s'.2).

Lemma fs_step_keeps roots s s' :
  tree_ok roots s.1 -> env_ok ∅ s.2 -> fs_step s s' -> tree_ok roots s'.1 /\ env_ok ∅ s'.2.
Proof.
  intros Ht He (c & a & Hc & E). destruct (call_meets roots _ c Ht Hc) as (a' & d' & R & [Ht' _] & _).
  destruct (R _ He) as (e' & E' & He' & _). rewrite E in E'. injection E' as _ -> ->. done.
Qed.

Lemma steps_keep roots s s' :
  rtc fs_step s s' -> tree_ok roots s.1 -> env_ok ∅ s.2 -> tree_ok roots s'.1 /\ env_ok ∅ s'.2.
Proof.
  induction 1 as [|s1 s2 s3 H1 _ IH]; [done|]. intros Ht He. destruct (fs_step_keeps _ _ _ Ht He H1). by apply IH.
Qed.

(** From initialisation on: [ramfs_init] returns a root that is an empty
    directory (or fails for want of memory), and after any sequence of calls
    the objects form a tree under that root and the next call returns with
    the answer and effect of the specification. *)
Theorem ramfs_boot_safe d e :
  no_ramfs d -> env_ok ∅ e ->
  exists root d1 e1, ramfs_init d e = Some (root, d1, e1) /\
    (root = 0 /\ refused (heap d) [RNode; RDir] \/
     root <> 0 /\ view d1 root = Some (ADir ∅) /\
     forall d2 e2, rtc fs_step (d1, e1) (d2, e2) ->
       tree_ok [root] d2 /\
       forall c, call_ok d2 c ->
         exists a d3 e3, run_call c d2 e2 = Some (a, d3, e3) /\
           fs_spec (refused (heap d2) (call_requests c)) (view d2) c a (view d3)).
Proof.
  intros Ho He. set (d0 := set_inode d (next_inode d) 0).
  pose proof (no_ramfs_tree d (next_inode d) Ho) as Ht0. fold d0 in Ht0.
  assert (Hinit : forall root d1, runs ∅ (ramfs_create (Some [47]) : K Z) d0 root d1 ->
      exists e1, ramfs_init d e = Some (root, d1, e1) /\ env_next ∅ e e1).
  { intros root d1 R. eapply (runs_bind ∅ (modify _) (fun _ => ramfs_create (Some [47])) d tt d0 root d1); [apply runs_modify|exact R|done]. }
  destruct (create_root [] d0 Ht0) as [(Hoom & d1 & R & _)|(root & d1 & Hr & R & _ & Ht & Hv & _)];
    destruct (Hinit _ _ R) as (e1 & E1 & He1 & _); eexists _, d1, e1; (split; [exact E1|]); [by left|right].
  split_and!; [done|done|]. intros d2 e2 Hs. destruct (steps_keep [root] _ _ Hs Ht He1) as [Ht2 He2]. split; [done|].
  intros c Hc. destruct (call_meets [root] d2 c Ht2 Hc) as (a & d3 & R3 & _ & Hsp). destruct (R3 e2 He2) as (e3 & E3 & _).
  by exists a, d3, e3.
Qed.

(** A write that succeeds stores its bytes: a read of the same range gives
    them back, and a read of any range ending before it is unaffected. *)
Theorem ramfs_write_read roots d e node c offset b r d1 e1 :
  tree_ok roots d -> env_ok ∅ e -> call_ok d (CWrite node offset b) -> view d node = Some (AFile c) ->
  ramfs_write node offset b d e = Some (r, d1, e1) -> r <> 0 ->
  (exists e2, ramfs_read node offset (Z.of_nat (length b)) d1 e1 = Some ((Z.of_nat (length b), b), d1, e2)) /\
  (forall o n, 0 <= o -> 0 <= n -> o + n <= offset -> o + n <= Z.of_nat (length c) ->
     exists e2, ramfs_read node o n d1 e1 = Some ((n, take (Z.to_nat n) (drop (Z.to_nat o) c)), d1, e2)).
Proof.
  intros Ht He [(n & Hn & Hram) [H1 H2]] Hv E Hr. cbn [call_node] in Hn.
  destruct (ram_cases _ _ _ _ Ht Hn Hram) as [(f & c' & Hf & Ev)|(? & _ & Ev & _)]; rewrite Ev in Hv; [|done]. injection Hv as ->.
  destruct (ramfs_write_spec (W := W) d node n f c offset b (to_data _ _ Ht) Hf H1 H2) as (r' & d' & R & Hk & Hcase).
  destruct (R e He) as (e' & E' & He' & _). rewrite E in E'. injection E' as <- <- <-.
  destruct Hcase as [[? _]|[-> [(n' & f' & gap & Hg & _ & _ & _ & _ & _ & Hf' & _)]]]; [done|].
  assert (Hread : forall o k, 0 <= o -> 0 <= k -> o + k < 2 ^ 32 ->
      let b' := take (Z.to_nat k) (drop (Z.to_nat o) (splice (Z.to_nat offset) b (c ++ gap))) in
      exists e2, ramfs_read node o k d1 e1 = Some ((Z.of_nat (length b'), b'), d1, e2)).
  { intros o k Ho Hk2 Hlt b'. destruct (ramfs_read_spec (W := W) d1 node n' f' _ o k (kp_ok _ _ Hk) Hf' Ho Hk2 Hlt e1 He') as (e2 & -> & _).
    by exists e2. }
  assert (Hl : (Z.to_nat offset <= length (c ++ gap))%nat) by (rewrite length_app; lia). split.
  - destruct (Hread offset (Z.of_nat (length b))) as [e2 E2]; [lia..|]. exists e2. rewrite E2, Nat2Z.id. unfold splice.
    rewrite drop_app_length' by (rewrite length_take; lia). by rewrite take_app_length.
  - intros o k Ho Hk2 Hlt Hc. destruct (Hread o k) as [e2 E2]; [lia..|]. exists e2. rewrite E2.
    assert (Eb : take (Z.to_nat k) (drop (Z.to_nat o) (splice (Z.to_nat offset) b (c ++ gap))) = take (Z.to_nat k) (drop (Z.to_nat o) c)).
    { unfold splice. rewrite drop_app_le by (rewrite length_take; lia). rewrite take_app_le by (rewrite length_drop, length_take; lia).
      rewrite skipn_firstn_comm, take_take, drop_app_le, take_app_le by (rewrite ?length_drop; lia). f_equal. lia. }
    rewrite Eb. replace (Z.of_nat (length _)) with k; [done|]. rewrite length_take, length_drop. lia.
Qed.

End props.
