(* ===== verification/VfsProps.v ===== *)
(** * Paths

    The resolution of a path is the fold of directory lookups along its
    components, and the operations on paths are the ramfs operations on the
    directory the parent's path resolves to. *)

From S2P Require Import Prelude Spinlock Task Sync FsState Pipe Ramfs Vfs FsCalls RamfsFacts RamfsTree RamfsUnlink RamfsView.
From S2P Require Import RamfsProps.

(** ** The reference: components and lookups *)

(** The pieces between slashes. *)
Fixpoint parts (path : str) : list str :=
  match path with
  | [] => [[]]
  | c :: rest =>
      if c =? 47 then [] :: parts rest
      else match parts rest with [] => [[c]] | x :: xs => (c :: x) :: xs end
  end.

(** One component from [cur]: an entry of that name; without one, the
    parent of the root is the root. *)
Definition lookup_part (v : astate) (root cur : Z) (t : str) : Z :=
  match v cur with
  | Some (ADir m) =>
      match m !! t with
      | Some q => q
      | None => if bool_decide (t = dotdot) && (cur =? root) then root else 0
      end
  | _ => 0
  end.

(** 0 when a component is too long or not there. *)
Fixpoint resolve (v : astate) (root cur : Z) (ts : list str) : Z :=
  match ts with
  | [] => cur
  | t :: ts =>
      if (127 <? length t)%nat then 0
      else if bool_decide (t = []) || bool_decide (t = dot) then resolve v root cur ts
      else
        let next := lookup_part v root cur t in
        if next =? 0 then 0 else resolve v root next ts
  end.

Definition lookup_path (v : astate) (root : Z) (path : str) : Z := resolve v root root (parts path).

(** In the first file system whose mount point's components the path begins
    with, along the components behind them. *)
Fixpoint lookup_mounted (v : astate) (root : Z) (mounts : list (str * Z)) (ts : list str) : option Z :=
  match mounts with
  | [] => None
  | (p, r) :: l =>
      if bool_decide (parts p `prefix_of` ts) then Some (resolve v root r (drop (length (parts p)) ts))
      else lookup_mounted v root l ts
  end.

(** A file system mounted at exactly this path comes first. *)
Definition lookup_vfs (v : astate) (root : Z) (mounts : list (str * Z)) (path : str) : Z :=
  if root =? 0 then 0
  else if bool_decide (path = slash) then root
  else
    let at_path := default 0 (snd <$> head (filter (fun m => m.1 = path) mounts)) in
    if negb (at_path =? 0) then at_path
    else default (lookup_path v root path) (lookup_mounted v root mounts (parts path)).

(** The last component, and the path of the directory it is in; [None] when
    the latter has 256 characters or more. *)
Definition base_name (path : str) : str := default [] (list.last (parts path)).
Definition dir_name (path : str) : str :=
  let p := take (length path - S (length (base_name path))) path in if bool_decide (p = []) then slash else p.
Definition named_in (path : str) : option (str * str) :=
  if (256 <=? length (dir_name path))%nat then None else Some (dir_name path, base_name path).

(** ** Tokens are components *)

Lemma parts_cons path : exists x xs, parts path = x :: xs.
Proof.
  induction path as [|c path (x & xs & E)]; cbn; [by eexists _, _|]. case_if; [by eexists _, _|]. rewrite E. by eexists _, _.
Qed.

(** The first component and the path behind it. *)
Fixpoint head_part (path : str) : str :=
  match path with [] => [] | c :: rest => if c =? 47 then [] else c :: head_part rest end.
Fixpoint tail_part (path : str) : str :=
  match path with [] => [] | c :: rest => if c =? 47 then path else tail_part rest end.

Lemma parts_head path :
  parts path = head_part path :: match tail_part path with [] => [] | _ :: rest => parts rest end.
Proof.
  induction path as [|c path IH]; cbn; [done|]. case_if; [done|]. by rewrite IH.
Qed.

Lemma span_short n path :
  (length (head_part path) <= n)%nat -> span_token n path = (head_part path, tail_part path).
Proof.
  revert n. induction path as [|c path IH]; intros n Hn; cbn [head_part tail_part] in *; [by destruct n|].
  destruct n as [|n]; cbn [span_token].
  - destruct (c =? 47); [done|]. cbn in Hn. lia.
  - destruct (c =? 47); [done|]. cbn in Hn. rewrite IH by lia. done.
Qed.

Lemma span_long n path :
  (n < length (head_part path))%nat -> too_long (snd (span_token n path)) = true.
Proof.
  revert n. induction path as [|c path IH]; intros n Hn; cbn [head_part] in *; [cbn in Hn; lia|].
  destruct (c =? 47) eqn:E; [cbn in Hn; lia|]. destruct n as [|n]; cbn [span_token snd too_long]; [by rewrite E|].
  rewrite E. cbn in Hn. specialize (IH n ltac:(lia)). by destruct (span_token n path).
Qed.

Lemma tail_slash path : too_long (tail_part path) = false.
Proof. induction path as [|c path IH]; cbn; [done|]. destruct (c =? 47) eqn:E; [cbn; by rewrite E|done]. Qed.

Lemma tail_length path : (length (head_part path) + length (tail_part path) = length path)%nat.
Proof. induction path as [|c path IH]; cbn; [done|]. destruct (c =? 47); cbn; lia. Qed.

(** Slashes only separate. *)
Lemma resolve_skip v root cur path : resolve v root cur (parts (skip_slashes path)) = resolve v root cur (parts path).
Proof.
  induction path as [|c path IH]; cbn [skip_slashes]; [done|]. destruct (c =? 47) eqn:E; [|done].
  cbn [parts]. rewrite E, IH. done.
Qed.

Lemma skip_length path : (length (skip_slashes path) <= length path)%nat.
Proof. induction path as [|c path IH]; cbn; [lia|]. destruct (c =? 47); cbn; lia. Qed.

Lemma resolve_rest v root cur path :
  resolve v root cur (match tail_part path with [] => [] | _ :: rest => parts rest end) =
  resolve v root cur (parts (skip_slashes (tail_part path))).
Proof.
  rewrite resolve_skip. pose proof (tail_slash path) as Ht. destruct (tail_part path) as [|c rest]; [done|].
  cbn in Ht. apply negb_false_iff in Ht. cbn [parts]. rewrite Ht. done.
Qed.

(** ** Walking *)

Section walking.
Context {H W : Type} `{!ObjHeap H} `{!ObjHeapLaws H} `{!TaskResources W}.
Implicit Types (d : fsd H) (roots : list Z).
Abbreviation K := (K H W).

(** A node of the tree. *)
Definition ram_at d (q : Z) : Prop := exists n, objs d !! q = Some (ONode n) /\ is_ram n = true.

Lemma ram_release roots held d q : tree_ok roots d -> ram_at d q -> runs held (vfs_release_node q : K unit) d tt d.
Proof.
  intros Ht (n & Hn & Hr). unfold vfs_release_node. case_if; [rstep|]. rstep.
  rewrite (proj1 (to_local _ _ Ht _ _ Hn Hr)). cbn [negb]. rstep.
Qed.

Lemma release_unless_runs roots held d base q :
  tree_ok roots d -> ram_at d q -> runs held (release_unless base q : K unit) d tt d.
Proof. intros Ht Hq. unfold release_unless. case_if; [rstep|]. by eapply ram_release. Qed.

Lemma dir_entry roots d node n r name q :
  tree_ok roots d -> dir_at d node n r -> dir_map r !! name = Some q -> ram_at d q /\ q <> 0.
Proof.
  intros Ht Hd Hq. rewrite entry_map in Hq. destruct (ramfs_find_entry r name) as [x|] eqn:E; [|done]. injection Hq as <-.
  apply find_name_some in E as [Hx _]. destruct (tree_entry _ _ _ _ _ Ht (da_impl _ _ _ _ Hd) Hx) as [(m & Hm & Hrm) _].
  split; [by exists m|]. eapply not_null; [apply (to_data _ _ Ht)|done].
Qed.

(** [ramfs_finddir], with other locks held. *)
Lemma finddir_runs roots held d node n r name :
  tree_ok roots d -> dir_at d node n r -> (forall p, LObj p ∉ held) ->
  runs held (ramfs_finddir node name : K Z) d (default 0 (dir_map r !! name)) d.
Proof.
  intros Ht Hd Hh. unfold ramfs_finddir. rbind (dir_impl_runs _ _ _ _ _ (to_data _ _ Ht) Hd).
  pose proof (da_impl _ _ _ _ Hd) as Hi. eapply runs_bind; [apply runs_lock; [apply Hh|]; rstep; rstep|]. cbn beta.
  replace (match ramfs_find_entry r name with Some x => re_node x | None => 0 end) with (default 0 (dir_map r !! name))
    by (rewrite entry_map; by destruct (ramfs_find_entry r name)).
  destruct (dir_map r !! name) as [q|] eqn:E; cbn [default from_option id]; [|rewrite Z.eqb_refl; rstep; rstep].
  destruct (dir_entry _ _ _ _ _ _ _ Ht Hd E) as [(m & Hm & Hrm) Hq]. rewrite (proj2 (Z.eqb_neq q 0)) by done.
  eapply (runs_bind _ _ _ _ tt); [|cbn beta; rstep]. unfold vfs_ref_node. rewrite (proj2 (Z.eqb_neq q 0)) by done. rstep.
  rewrite (proj1 (to_local _ _ Ht _ _ Hm Hrm)). cbn [negb]. rstep.
Qed.

Lemma lookup_ram roots d root cur t :
  tree_ok roots d -> ram_at d root -> lookup_part (view d) root cur t <> 0 -> ram_at d cur -> ram_at d (lookup_part (view d) root cur t).
Proof.
  intros Ht Hroot Hne (n & Hn & Hr). unfold lookup_part in *.
  destruct (ram_cases _ _ _ _ Ht Hn Hr) as [(f & c & Hf & Ev)|(r & Hd & Ev & _)]; rewrite Ev in *; [done|].
  destruct (dir_map r !! t) as [q|] eqn:E; [by eapply dir_entry|]. destruct (bool_decide (t = dotdot) && (cur =? root)); done.
Qed.

Lemma vfs_finddir_runs roots held d cur t :
  tree_ok roots d -> ram_at d cur -> (forall p, LObj p ∉ held) -> t <> dot ->
  runs held (vfs_finddir cur t : K Z) d (lookup_part (view d) (fs_root d) cur t) d.
Proof.
  intros Ht (n & Hn & Hr) Hh Hdot. unfold vfs_finddir.
  rewrite (proj2 (Z.eqb_neq cur 0)) by (eapply not_null; [apply (to_data _ _ Ht)|done]). rstep.
  unfold lookup_part. destruct (ram_cases _ _ _ _ Ht Hn Hr) as [(f & c & Hf & Ev)|(r & Hd & Ev & _)]; rewrite Ev.
  { rewrite (bool_decide_false (fn_type n = _)) by (by rewrite (fa_type _ _ _ _ _ Hf)). cbn [negb]. rstep. }
  rewrite (bool_decide_true (fn_type n = _)) by apply (da_type _ _ _ _ Hd). cbn [negb]. rewrite (bool_decide_false (t = dot)) by done.
  assert (Hops : fn_ops n = OpsRamDir).
  { rewrite (proj2 (to_local _ _ Ht _ _ Hn Hr)). by rewrite (da_type _ _ _ _ Hd). }
  rewrite Hops. case_bool_decide as E.
  - subst t. rbind (finddir_runs roots held d cur n r dotdot Ht Hd Hh).
    destruct (dir_map r !! dotdot) as [q|] eqn:Eq; cbn [default from_option id andb].
    + destruct (dir_entry _ _ _ _ _ _ _ Ht Hd Eq) as [_ Hq]. rewrite (proj2 (Z.eqb_neq q 0)) by done. cbn [negb]. rstep.
    + cbn [Z.eqb negb]. rstep. destruct (cur =? fs_root d) eqn:Ec; rstep.
  - replace (match dir_map r !! t with Some q => q | None => _ end) with (default 0 (dir_map r !! t)); [by eapply finddir_runs|].
    by destruct (dir_map r !! t).
Qed.

Lemma walk_runs roots held d fuel mounted base cur path :
  tree_ok roots d -> ram_at d (fs_root d) -> ram_at d cur -> (forall p, LObj p ∉ held) -> (length path <= fuel)%nat ->
  runs held (walk fuel mounted base cur path : K Z) d (resolve (view d) (fs_root d) cur (parts path)) d.
Proof.
  intros Ht Hroot Hcur Hh. revert cur path Hcur. induction fuel as [|fuel IH]; intros cur path Hcur Hlen.
  { destruct path; [apply runs_ret|cbn in Hlen; lia]. }
  destruct path as [|c path']; [apply runs_ret|]. set (path := c :: path') in *. cbn [walk].
  rewrite (parts_head path). cbn [resolve].
  assert (Hfail : runs held (if mounted then vfs_release_node cur else release_unless base cur : K unit) d tt d).
  { destruct mounted; [by eapply ram_release|by eapply release_unless_runs]. }
  destruct (Nat.ltb_spec 127 (length (head_part path))) as [El|El].
  { pose proof (span_long 127 path ltac:(lia)) as Hl. destruct (span_token 127 path) as [token rest]. cbn [snd] in Hl. rewrite Hl.
    rbind Hfail. rstep. }
  rewrite (span_short 127 path) by lia. rewrite tail_slash.
  pose proof (tail_length path) as Htl. pose proof (skip_length (tail_part path)) as Hsk.
  assert (Hnext : forall q, ram_at d q -> head_part path <> [] ->
      runs held (walk fuel mounted base q (skip_slashes (tail_part path)) : K Z) d
        (resolve (view d) (fs_root d) q (match tail_part path with [] => [] | _ :: rest => parts rest end)) d).
  { intros q Hq Hne. rewrite resolve_rest. apply IH; [done|]. destruct (head_part path); [done|]. cbn [length] in Htl. lia. }
  case_bool_decide as E1; cbn [orb].
  { rewrite resolve_rest. apply IH; [done|]. subst path. rewrite E1 in Htl. cbn [head_part] in E1.
    destruct (c =? 47) eqn:Ec; [|done]. cbn [tail_part]. rewrite Ec. cbn [skip_slashes]. rewrite Ec.
    pose proof (skip_length path'). cbn in Hlen. lia. }
  case_bool_decide as E2; [by apply Hnext|].
  assert (Hstep : forall m1 m2 : K Z, (forall q, ram_at d q -> q <> 0 -> q = lookup_part (view d) (fs_root d) cur (head_part path) ->
        runs held m2 d (resolve (view d) (fs_root d) q (match tail_part path with [] => [] | _ :: rest => parts rest end)) d) ->
      runs held m1 d 0 d -> runs held (if lookup_part (view d) (fs_root d) cur (head_part path) =? 0 then m1 else m2) d
        (let next := lookup_part (view d) (fs_root d) cur (head_part path) in
         if next =? 0 then 0 else resolve (view d) (fs_root d) next (match tail_part path with [] => [] | _ :: rest => parts rest end)) d).
  { intros m1 m2 H2 H1. cbn zeta. case_if; [done|]. apply H2; [by eapply lookup_ram|done|done]. }
  case_bool_decide as E3.
  - rewrite <- E3. rbind (vfs_finddir_runs roots held d cur (head_part path) Ht Hcur Hh E2). apply Hstep.
    + intros q Hq Hq0 ->. rbind (release_unless_runs roots held d base cur Ht Hcur). by apply Hnext.
    + rbind Hfail. rstep.
  - rbind (vfs_finddir_runs roots held d cur (head_part path) Ht Hcur Hh E2). apply Hstep.
    + intros q Hq Hq0 ->. rbind (release_unless_runs roots held d base cur Ht Hcur). by apply Hnext.
    + rbind (release_unless_runs roots held d base cur Ht Hcur). rstep.
Qed.

(** The root and every mounted file system are trees of ramfs. *)
Record vfs_ok roots d : Prop := VfsOk {
  vo_tree : tree_ok roots d;
  vo_root : fs_root d ∈ roots;
  vo_mounts : Forall (fun m => m.2 ∈ roots) (mount_table d)
}.

Lemma root_ram roots d q : tree_ok roots d -> q ∈ roots -> ram_at d q.
Proof. intros Ht Hq. destruct (to_roots _ _ Ht q Hq) as [(n & Hn & Hty) _]. exists n. split; [done|by apply ram_dir]. Qed.

Lemma find_mount_in path l : find_mount path l <> 0 -> exists p, (p, find_mount path l) ∈ l.
Proof.
  induction l as [|[p r] l IH]; [done|]. cbn [find_mount]. case_bool_decide.
  - intros _. exists p. by left.
  - intros Hne. destruct (IH Hne) as [p' Hp']. exists p'. by right.
Qed.

(** ** Mount points are prefixes of components *)

Lemma parts_prefix p path : parts p `prefix_of` parts path <-> path = p \/ exists rest, path = p ++ 47 :: rest.
Proof.
  revert path. induction p as [|c p IH]; intros path.
  - change (parts []) with [([] : str)]. destruct path as [|d path]; [split; [by left|done]|]. cbn [parts].
    case_if; zify_bool.
    + split; [intros _; right; exists path; by subst|]. intros _. by exists (parts path).
    + destruct (parts_cons path) as (y & ys & Ep). rewrite Ep. split.
      * intros Hp. by apply prefix_cons_inv_1 in Hp.
      * intros [?|(rest & E)]; [done|]. by injection E as -> _.
  - destruct path as [|d path].
    { split; [|by intros [?|(? & ?)]]. intros [k Hk]. exfalso. destruct (parts_cons p) as (x & xs & Ep). cbn [parts] in Hk.
      case_if_in Hk; [|rewrite Ep in Hk; by destruct xs]. rewrite Ep in Hk. by destruct xs. }
    assert (Hiff : (path = p \/ (exists rest, path = p ++ 47 :: rest)) /\ d = c <->
                   d :: path = c :: p \/ exists rest, d :: path = (c :: p) ++ 47 :: rest).
    { split; [intros [[->|(rest & ->)] ->]; [by left|right; by exists rest]|].
      intros [E|(rest & E)]; injection E as -> ->; (split; [|done]); [by left|right; by exists rest]. }
    rewrite <- Hiff, <- IH. destruct (parts_cons path) as (y & ys & Ey), (parts_cons p) as (x & xs & Ex).
    cbn [parts]. rewrite Ex, Ey. destruct (Z.eqb_spec c 47), (Z.eqb_spec d 47).
    + subst. split; [intros Hp; apply prefix_cons_inv_2 in Hp; done|]. intros [Hp _]. by apply prefix_cons.
    + split; [intros Hp; by apply prefix_cons_inv_1 in Hp|]. by intros [_ ->].
    + split; [intros Hp; by apply prefix_cons_inv_1 in Hp|]. by intros [_ ->].
    + split.
      * intros Hp. pose proof (prefix_cons_inv_1 _ _ _ _ Hp) as E. injection E as -> ->. split; [|done].
        apply prefix_cons_inv_2 in Hp. by apply prefix_cons.
      * intros [Hp ->]. pose proof (prefix_cons_inv_1 _ _ _ _ Hp) as ->. apply prefix_cons_inv_2 in Hp. by apply prefix_cons.
Qed.

Lemma parts_app p rest : parts (p ++ 47 :: rest) = parts p ++ parts rest.
Proof.
  induction p as [|c p IH]; [done|]. cbn [parts app]. rewrite IH. case_if; [done|].
  destruct (parts_cons p) as (x & xs & ->). done.
Qed.

Lemma under_prefix p path : under p path = bool_decide (parts p `prefix_of` parts path).
Proof.
  unfold under. apply eq_bool_prop_intro. rewrite bool_decide_spec, parts_prefix. split.
  - intros [Ht Hl]%andb_True. apply bool_decide_unpack in Ht. rewrite <- (take_drop (length p) path), Ht.
    rewrite <- (Nat.add_0_r (length p)), <- lookup_drop in Hl. destruct (drop (length p) path) as [|c rest]; [left; by rewrite app_nil_r|].
    cbn in Hl. apply Is_true_true in Hl. zify_bool. subst. right. by exists rest.
  - intros [->|(rest & ->)]; apply andb_True; rewrite bool_decide_spec.
    + by rewrite firstn_all, (lookup_ge_None_2 p) by lia.
    + rewrite take_app_length. by rewrite lookup_app_r, Nat.sub_diag by lia.
Qed.

(** ** The last component *)

Lemma last_slash_parts path :
  match last_slash path with
  | None => parts path = [path]
  | Some i => (i < length path)%nat /\ exists y ys, parts path = (y :: ys) ++ [drop (S i) path]
  end.
Proof.
  induction path as [|c rest IH]; [done|]. cbn [last_slash parts].
  destruct (last_slash rest) as [i|].
  - destruct IH as (Hi & y & ys & E). split; [cbn; lia|]. rewrite E. cbn [drop app]. case_if; [by exists [], (y :: ys)|by exists (c :: y), ys].
  - rewrite IH. case_if; [|done]. split; [cbn; lia|]. by exists [], [].
Qed.

Lemma split_path_names path : split_path path = named_in path.
Proof.
  pose proof (last_slash_parts path) as Hl. unfold split_path, named_in, dir_name, base_name. destruct (last_slash path) as [i|].
  - destruct Hl as (Hi & y & ys & ->). rewrite last_snoc. cbn [default from_option id].
    rewrite length_drop. replace (length path - S (length path - S i))%nat with i by lia.
    destruct i as [|i]; [done|]. rewrite bool_decide_false by (destruct path; [cbn in Hi; lia|done]).
    rewrite length_take, Nat.min_l by lia. destruct (Z.leb_spec 256 (Z.of_nat (S i))), (Nat.leb_spec 256 (S i)); [done|lia|lia|done].
  - rewrite Hl. cbn [list.last default from_option id]. by rewrite (proj2 (Nat.sub_0_le _ _)) by lia.
Qed.

Lemma mount_scan_runs roots held d l path :
  vfs_ok roots d -> Forall (fun m => m.2 ∈ roots) l -> (forall p, LObj p ∉ held) ->
  runs held (mount_scan l path : K _) d (lookup_mounted (view d) (fs_root d) l (parts path)) d.
Proof.
  intros [Ht Hr _] Hl Hh. induction Hl as [|[p r] l Hm _ IH]; cbn [mount_scan lookup_mounted]; [rstep|].
  cbn [snd] in Hm. rewrite under_prefix. case_bool_decide as Hp; [|done]. apply parts_prefix in Hp as [->|(rest & ->)].
  - rewrite (lookup_ge_None_2 p), drop_ge by lia. rstep.
  - rewrite lookup_app_r, Nat.sub_diag by lia. cbn [lookup list_lookup]. rewrite parts_app, drop_app_length.
    assert (E : drop (S (length p)) (p ++ 47 :: rest) = rest) by (rewrite cons_middle, app_assoc; apply drop_app_length'; rewrite length_app; cbn; lia).
    rewrite E. eapply runs_bind; [apply (walk_runs roots); [done|by eapply root_ram..|done|done]|]. cbn beta. rstep.
Qed.

(** The exact match, as the code finds it. *)
Lemma find_mount_head path l : default 0 (snd <$> head (filter (fun m => m.1 = path) l)) = find_mount path l.
Proof.
  induction l as [|[p r] l IH]; [done|]. rewrite filter_cons. cbn [find_mount fst]. case_bool_decide; [by rewrite decide_True|by rewrite decide_False].
Qed.

Lemma lookup_path_strip v root path : lookup_path v root path = resolve v root root (parts (strip_slash path)).
Proof. unfold lookup_path. destruct path as [|c rest]; [done|]. cbn [strip_slash]. case_if; [zify_bool; by subst|done]. Qed.

Lemma path_runs roots d path :
  vfs_ok roots d -> runs ∅ (vfs_path_to_node path : K Z) d (lookup_vfs (view d) (fs_root d) (mount_table d) path) d.
Proof.
  intros Hok. pose proof Hok as [Ht Hr Hm]. unfold vfs_path_to_node, lookup_vfs. cbn zeta. rewrite find_mount_head, lookup_path_strip. rstep. case_if; [rstep|]. case_bool_decide; [rstep|].
  eapply runs_bind; [unfold vfs_get_mounted_root_by_path; rstep; rstep; rstep|]. cbn beta. case_if; [rstep|].
  eapply runs_bind; [apply runs_lock; [set_solver|]; rstep; apply (mount_scan_runs roots); [done|done|set_solver]|]. cbn beta.
  destruct (lookup_mounted _ _ _ _); cbn [default from_option id]; [rstep|].
  apply (walk_runs roots); [done|by eapply root_ram..|set_solver|done].
Qed.

(** C28: A path resolves to what the reference lookup finds: the root for a
    slash, the root of a file system mounted there, or the fold of directory
    lookups along the components from the root or from the first mount point
    above; and 0 when a component is missing, too long or not below a
    directory.  Nothing changes. *)
Theorem vfs_path_to_node_resolves roots d path :
  vfs_ok roots d -> runs ∅ (vfs_path_to_node path : K Z) d (lookup_vfs (view d) (fs_root d) (mount_table d) path) d.
Proof. apply path_runs. Qed.

(** ** Operations on paths *)

Inductive vfs_call := VCreate (path : str) | VMkdir (path : str) (permissions : Z) | VUnlink (path : str) | VRename (oldpath newpath : str).

Definition run_vfs (c : vfs_call) : K Z :=
  match c with
  | VCreate path => vfs_create path
  | VMkdir path permissions => vfs_mkdir path permissions
  | VUnlink path => vfs_unlink path
  | VRename oldpath newpath => vfs_rename oldpath newpath
  end.

(** The parent's path and the call on the parent; [None] is refused. *)
Definition on_dir (c : vfs_call) : option (str * (Z -> ramfs_call)) :=
  match c with
  | VCreate path => '(p, name) ← named_in path; Some (p, fun q => CCreate q name)
  | VMkdir path permissions => '(p, name) ← named_in path; Some (p, fun q => CMkdir q name permissions)
  | VUnlink path =>
      if bool_decide (path = slash) then None
      else '(p, name) ← named_in path; Some (p, fun q => CUnlink q name)
  | VRename oldpath newpath =>
      if bool_decide (oldpath = slash) || bool_decide (newpath = slash) then None
      else '(p, old) ← named_in oldpath; '(p', new) ← named_in newpath;
           if bool_decide (p = p') then Some (p, fun q => CRename q old new) else None
  end.

(** The allocations of a call: those of the call on the parent. *)
Definition vfs_requests (c : vfs_call) : list request :=
  match c with
  | VCreate _ => [RNode; RFile; RDirent]
  | VMkdir _ _ => [RNode; RDir; RDirent]
  | VUnlink _ | VRename _ _ => []
  end.

Definition vfs_spec (oom : Prop) (v : astate) (root : Z) (mounts : list (str * Z)) (c : vfs_call) (r : Z) (v' : astate) : Prop :=
  match on_dir c with
  | None => r = -1 /\ same v v'
  | Some (p, call) =>
      match v (lookup_vfs v root mounts p) with
      | Some (ADir _) => fs_spec oom v (call (lookup_vfs v root mounts p)) (ACode r) v'
      | _ => r = -1 /\ same v v'
      end
  end.

Lemma resolve_ram roots d cur ts :
  tree_ok roots d -> ram_at d (fs_root d) -> ram_at d cur ->
  resolve (view d) (fs_root d) cur ts <> 0 -> ram_at d (resolve (view d) (fs_root d) cur ts).
Proof.
  intros Ht Hroot. revert cur. induction ts as [|t ts IH]; intros cur Hc; cbn [resolve]; [done|].
  destruct (127 <? length t)%nat; [done|]. destruct (bool_decide (t = []) || _); [by apply IH|]. cbn zeta. case_if; [done|].
  apply IH. by eapply lookup_ram.
Qed.

Lemma lookup_vfs_ram roots d path :
  vfs_ok roots d -> let q := lookup_vfs (view d) (fs_root d) (mount_table d) path in q <> 0 -> ram_at d q.
Proof.
  intros [Ht Hr Hm] q Hq. subst q. assert (Hroot := root_ram _ _ _ Ht Hr). unfold lookup_vfs in *. cbn zeta in *. rewrite find_mount_head in *.
  destruct (fs_root d =? 0); [done|]. destruct (bool_decide (path = slash)); [done|].
  destruct (find_mount path (mount_table d) =? 0) eqn:E; zify_bool; cbn [negb] in *.
  - revert Hq. generalize (mount_table d) Hm. clear E Hm. intros l Hm. induction Hm as [|[p r] l Hp _ IH]; cbn [lookup_mounted].
    + cbn. by apply resolve_ram with (roots := roots).
    + case_bool_decide; [|done]. cbn [default from_option id]. apply resolve_ram with (roots := roots); [done|done|].
      by eapply root_ram.
  - destruct (find_mount_in _ _ E) as [p Hp]. apply (root_ram roots); [done|].
    exact (proj1 (list.Forall_forall _ _) Hm _ Hp).
Qed.

Lemma view_ram d q x : view d q = Some x -> ram_at d q.
Proof.
  unfold view, view_node. destruct (objs d !! q) as [[n| | | | | | |]|] eqn:E; try done. intros Hv. exists n. split; [done|].
  unfold is_ram. destruct (fn_type n); done.
Qed.

(** The calls that answer a code, and keep the directory they are made on. *)
Definition on_node (call : Z -> ramfs_call) : Prop :=
  forall q, call_node (call q) = q /\
    match call q with CRead _ _ _ | CReaddir _ _ | CWrite _ _ _ | CFind _ _ => False | _ => True end.

Lemma spec_code oom v call q a v' m :
  on_node call -> v q = Some (ADir m) -> fs_spec oom v (call q) a v' -> (exists r, a = ACode r) /\ v' q <> None.
Proof.
  intros Hon Hv Hs. destruct (Hon q) as [Hq Hc]. destruct (call q); try done; cbn in Hq; subst; cbn in Hs; unfold add_spec in Hs; rewrite Hv in Hs.
  - destruct Hs as [(-> & Hsame & _)|(-> & _ & _ & new & _ & _ & Hsame)]; (split; [by eexists|]); rewrite Hsame; [by rewrite Hv|].
    unfold upd. repeat case_decide; done.
  - destruct Hs as [(-> & Hsame & _)|(-> & _ & _ & new & _ & _ & Hsame)]; (split; [by eexists|]); rewrite Hsame; [by rewrite Hv|].
    unfold upd. repeat case_decide; done.
  - destruct (_ || _); [|destruct (bool_decide _)]; [| |destruct (m !! old_name), (m !! new_name)]; destruct Hs as [-> Hsame];
      (split; [by eexists|]); rewrite Hsame; unfold upd; repeat case_decide; by rewrite ?Hv.
  - destruct (m !! name) as [t|] eqn:Em; [|destruct Hs as [-> Hsame]; split; [by eexists|]; by rewrite Hsame, Hv].
    destruct (match v t with Some (AFile _) => true | Some (ADir mq) => bool_decide (mq = ∅) | None => false end) eqn:Et;
      destruct Hs as [-> Hsame]; (split; [by eexists|]); rewrite Hsame; [|by rewrite Hv].
    unfold upd. case_decide as E; [|by rewrite decide_True]. subst t. rewrite Hv in Et. apply bool_decide_eq_true in Et. by rewrite Et in Em.
Qed.

Lemma runs_code (m : K Z) d r d' : runs ∅ (x ← m; mret (ACode x)) d (ACode r) d' -> runs ∅ m d r d'.
Proof.
  intros R e He. destruct (R e He) as (e' & E & He'). exists e'. split; [|done]. unfold mbind, K_bind in E.
  destruct (m d e) as [[[x d1] e1]|]; [|done]. cbn in E. by injection E as -> -> ->.
Qed.

Lemma on_parent_runs roots d p op call :
  vfs_ok roots d -> on_node call -> (forall q, run_call (call q) = (r ← op q; mret (ACode r)) :> K _) ->
  let q := lookup_vfs (view d) (fs_root d) (mount_table d) p in
  call_ok d (call q) \/ (forall m, view d q <> Some (ADir m)) ->
  exists r d', runs ∅ (on_parent p op : K Z) d r d' /\ vfs_ok roots d' /\
    match view d q with
    | Some (ADir _) => fs_spec (refused (heap d) (call_requests (call q))) (view d) (call q) (ACode r) (view d')
    | _ => r = -1 /\ same (view d) (view d')
    end.
Proof.
  intros Hok Hon Hcall q Hc. pose proof Hok as [Ht Hr Hm]. pose proof (path_runs roots d p Hok) as R. fold q in R.
  unfold on_parent, parent_dir. destruct (Z.eq_dec q 0) as [E0|E0].
  { exists (-1), d. split_and!; [|done|rewrite E0, view_other by (intros n; by rewrite (do_null _ (to_data _ _ Ht))); done].
    eapply (runs_bind _ _ _ _ None); [|cbn beta; rstep]. rbind R. rewrite E0. cbn [Z.eqb]. unfold vfs_release_node. cbn [Z.eqb]. rstep. rstep. }
  destruct (lookup_vfs_ram roots d p Hok E0) as (n & Hn & Hrm). fold q in Hn.
  destruct (ram_cases _ _ _ _ Ht Hn Hrm) as [(f & c & Hf & Ev)|(t & Hd & Ev & _)]; rewrite Ev.
  { exists (-1), d. split_and!; [|done|done|done]. eapply (runs_bind _ _ _ _ None); [|cbn beta; rstep].
    rbind R. rewrite (proj2 (Z.eqb_neq q 0)) by done. rstep. rewrite bool_decide_false by (by rewrite (fa_type _ _ _ _ _ Hf)). cbn [negb].
    eapply runs_bind; [eapply ram_release; [done|by exists n]|cbn beta; rstep]. }
  destruct Hc as [Hc|Hc]; [|by apply Hc in Ev].
  destruct (call_meets (W := W) roots d (call q) Ht Hc) as (a & d' & Ra & (Ht' & Hr' & Hm') & Hs).
  destruct (spec_code _ _ _ _ _ _ _ Hon Ev Hs) as [[r ->] Hv']. rewrite Hcall in Ra. apply runs_code in Ra.
  exists r, d'. split_and!; [|split; [done|by rewrite Hr'|by rewrite Hm']|done].
  eapply (runs_bind _ _ _ _ (Some (q, OpsRamDir)) d).
  - rbind R. rewrite (proj2 (Z.eqb_neq q 0)) by done. rstep. rewrite bool_decide_true by apply (da_type _ _ _ _ Hd). cbn [negb].
    rewrite (proj2 (to_local _ _ Ht _ _ Hn Hrm)), (da_type _ _ _ _ Hd). rstep.
  - cbn beta iota. rbind Ra. destruct (view d' q) as [x|] eqn:Ex; [|done].
    eapply runs_bind; [eapply ram_release; [done|by eapply view_ram]|cbn beta; rstep].
Qed.


End walking.

(** ** Normal paths

    [normalize_path] of an absolute path is the canonical path of its
    components: empty components and dots dropped, each dot-dot removing the
    component before it; normalising once more changes nothing. *)

(** ** The reference *)

(** The components left on the stack, last first. *)
Fixpoint canonical (ts : list str) (stack : list str) : list str :=
  match ts with
  | [] => stack
  | t :: ts =>
      if bool_decide (t = []) || bool_decide (t = dot) then canonical ts stack
      else if bool_decide (t = dotdot) then canonical ts (drop 1 stack)
      else canonical ts (t :: stack)
  end.

(** Each component behind a slash; a single slash for none. *)
Definition render (ts : list str) : str :=
  match ts with [] => slash | _ => mbind (fun t => 47 :: t) ts end.

(** A component of a canonical path. *)
Definition proper (t : str) : Prop := t <> [] /\ t <> dot /\ t <> dotdot /\ 47 ∉ t /\ (length t <= 127)%nat.

(** ** Components *)

Lemma norm_skip fuel path stack : norm_components fuel (skip_slashes path) stack = norm_components fuel path stack.
Proof.
  assert (E : forall p, skip_slashes (skip_slashes p) = skip_slashes p).
  { induction p as [|c p IH]; [done|]. cbn [skip_slashes]. destruct (c =? 47) eqn:Ec; [done|]. cbn [skip_slashes]. by rewrite Ec. }
  destruct fuel; cbn [norm_components]; [done|]. by rewrite E.
Qed.

Lemma canonical_skip path stack : canonical (parts (skip_slashes path)) stack = canonical (parts path) stack.
Proof.
  induction path as [|c path IH]; [done|]. cbn [skip_slashes]. destruct (c =? 47) eqn:E; [|done]. cbn [parts]. rewrite E. by rewrite IH.
Qed.

Lemma parts_skip_length path : (length (parts (skip_slashes path)) <= length (parts path))%nat.
Proof.
  induction path as [|c path IH]; [done|]. cbn [skip_slashes]. destruct (c =? 47) eqn:E; [|done]. cbn [parts]. rewrite E. cbn. lia.
Qed.

Lemma parts_skip_forall (P : str -> Prop) path : Forall P (parts path) -> Forall P (parts (skip_slashes path)).
Proof.
  induction path as [|c path IH]; [done|]. cbn [skip_slashes parts]. destruct (c =? 47) eqn:E; [|cbn [parts]; by rewrite E].
  intros HF. apply IH. by inversion HF.
Qed.

Lemma skip_head c path rest : skip_slashes path = c :: rest -> (c =? 47) = false.
Proof.
  induction path as [|x path IH]; [done|]. cbn [skip_slashes]. destruct (x =? 47) eqn:E; [done|]. by intros [= <- _].
Qed.

Lemma norm_canonical fuel path stack :
  (length path <= fuel)%nat -> Forall (fun t => (length t <= 127)%nat) (parts path) -> (length stack + length (parts path) <= 64)%nat ->
  norm_components fuel path stack = Some (canonical (parts path) stack).
Proof.
  revert path stack. induction fuel as [|fuel IH]; intros path stack Hl Hs Hn.
  { destruct path; [done|cbn in Hl; lia]. }
  cbn [norm_components]. rewrite <- canonical_skip. pose proof (skip_length path) as Hsl. pose proof (parts_skip_length path) as Hpl.
  apply parts_skip_forall in Hs. destruct (skip_slashes path) as [|c rest] eqn:Esk; [done|].
  pose proof (skip_head _ _ _ Esk) as Hc. set (p := c :: rest) in *. rewrite (parts_head p) in *.
  apply list.Forall_cons in Hs as [Hh Hs]. rewrite (span_short 127 p) by lia.
  assert (Hne : head_part p <> []) by (unfold p; cbn [head_part]; rewrite Hc; done).
  assert (Htl := tail_length p). cbn [canonical]. rewrite (bool_decide_false (head_part p = [])) by done. cbn [orb].
  assert (Hgo : forall stk, (length stk <= S (length stack))%nat -> norm_components fuel (tail_part p) stk =
      Some (canonical (match tail_part p with [] => [] | _ :: r => parts r end) stk)).
  { intros stk Hstk. pose proof (tail_slash p) as Hts. destruct (tail_part p) as [|c' r] eqn:Et; [by destruct fuel|].
    cbn in Hts. apply negb_false_iff in Hts. rewrite <- norm_skip. cbn [skip_slashes]. rewrite Hts, norm_skip. apply IH; [|done|].
    - assert (length (head_part p) <> 0%nat) by (by destruct (head_part p)). cbn [length] in Htl. lia.
    - cbn [length] in Hpl. lia. }
  case_bool_decide as E1; [by apply Hgo; lia|]. case_bool_decide as E2; [apply Hgo; rewrite length_drop; lia|].
  cbn [length] in Hpl. destruct (Nat.leb_spec 64 (length stack)); [lia|]. apply Hgo. cbn. lia.
Qed.

(** What is left are proper components of the path. *)
Lemma parts_noslash path t : t ∈ parts path -> 47 ∉ t.
Proof.
  revert t. induction path as [|c path IH]; cbn [parts]; intros t Ht.
  - apply list_elem_of_singleton in Ht as ->. set_solver.
  - destruct (c =? 47) eqn:E; zify_bool; [apply elem_of_cons in Ht as [->|Ht]; [set_solver|by apply IH]|].
    destruct (parts path) as [|x xs]; [apply list_elem_of_singleton in Ht as ->; set_solver|].
    apply elem_of_cons in Ht as [->|Ht]; [|apply IH; set_solver]. specialize (IH x ltac:(set_solver)). set_solver.
Qed.

Lemma canonical_proper ts stack :
  Forall (fun t => 47 ∉ t /\ (length t <= 127)%nat) ts -> Forall proper stack -> Forall proper (canonical ts stack).
Proof.
  intros Hts. revert stack. induction Hts as [|t ts [H1 H2] _ IH]; intros stack Hst; cbn [canonical]; [done|].
  case_bool_decide as E1; cbn [orb]; [by apply IH|]. case_bool_decide as E2; [by apply IH|].
  case_bool_decide as E3; [by apply IH, Forall_drop|]. apply IH. by constructor.
Qed.

Lemma canonical_weight ts stack (w : str -> nat) :
  (sum_list_with w (canonical ts stack) <= sum_list_with w stack + sum_list_with (fun t => if bool_decide (t = []) then 0 else w t) ts)%nat.
Proof.
  revert stack. induction ts as [|t ts IH]; intros stack; cbn [canonical sum_list_with]; [lia|].
  case_bool_decide as E1; cbn [orb]; [specialize (IH stack); lia|]. case_bool_decide; [specialize (IH stack); lia|].
  case_bool_decide.
  - specialize (IH (drop 1 stack)). destruct stack as [|s stack]; cbn [drop sum_list_with] in *; rewrite ?drop_0 in *; lia.
  - specialize (IH (t :: stack)). cbn [sum_list_with] in IH. lia.
Qed.

(** A proper stack is canonical already. *)
Lemma canonical_id ts stack : Forall proper ts -> canonical ts stack = reverse ts ++ stack.
Proof.
  intros Hts. revert stack. induction Hts as [|t ts (H1 & H2 & H3 & _) _ IH]; intros stack; cbn [canonical]; [done|].
  rewrite !bool_decide_false by done. cbn [orb]. by rewrite IH, reverse_cons, <- app_assoc.
Qed.

(** ** Rendering *)

Definition joined (ts : list str) : str := mbind (fun t => 47 :: t) ts.

Lemma joined_cons t ts : joined (t :: ts) = (47 :: t) ++ joined ts.
Proof. done. Qed.

Lemma joined_length ts : length (joined ts) = sum_list_with (fun t => S (length t)) ts.
Proof. induction ts as [|t ts IH]; [done|]. rewrite joined_cons, length_app, IH. done. Qed.

Lemma store_fits size out s : (length out + length s <= size - 1)%nat -> store_chars size out s = out ++ s.
Proof.
  revert out. induction s as [|c s IH]; intros out Hl; cbn [store_chars]; [by rewrite app_nil_r|]. cbn [length] in Hl.
  destruct (Nat.ltb_spec (length out) (size - 1)); [|lia]. rewrite IH by (rewrite length_app; cbn; lia). by rewrite <- app_assoc.
Qed.

Lemma proper_last t : proper t -> list.last t <> Some 47.
Proof. intros (_ & _ & _ & H & _) E. apply H. by eapply last_Some_elem_of. Qed.

Lemma fold_joined size out ts :
  out <> [] -> list.last out <> Some 47 -> Forall proper ts -> (length out + length (joined ts) <= size - 1)%nat ->
  foldl (add_component size) out ts = out ++ joined ts.
Proof.
  intros Ho Hla Hts. revert out Ho Hla. induction Hts as [|t ts Ht _ IH]; intros out Ho Hla Hl; [by rewrite app_nil_r|].
  cbn [foldl]. rewrite joined_cons, length_app in Hl. cbn [length] in Hl.
  assert (E : add_component size out t = out ++ 47 :: t).
  { unfold add_component. rewrite !bool_decide_false by done. cbn [negb andb]. rewrite (store_fits size out slash) by (cbn; lia).
    rewrite store_fits by (rewrite length_app; cbn; lia). by rewrite <- app_assoc. }
  rewrite E, IH.
  - by rewrite joined_cons, <- app_assoc.
  - by destruct out.
  - change (out ++ 47 :: t) with (out ++ [47] ++ t). rewrite app_assoc. rewrite last_app.
    pose proof (proper_last _ Ht). destruct (list.last t) eqn:El; [done|]. apply last_None in El. by destruct Ht.
  - rewrite length_app. cbn [length]. lia.
Qed.

Lemma fold_render size ts :
  Forall proper ts -> (S (length (joined ts)) <= size - 1)%nat -> foldl (add_component size) slash ts = render ts.
Proof.
  intros Hts Hl. destruct Hts as [|t ts Ht Hts]; [done|]. cbn [foldl render]. rewrite joined_cons, length_app in Hl. cbn [length] in Hl.
  assert (E : add_component size slash t = 47 :: t).
  { unfold add_component. rewrite (bool_decide_true (list.last slash = Some 47)) by done. rewrite andb_false_r.
    rewrite store_fits; [done|]. cbn [slash length]. lia. }
  rewrite E. fold (joined (t :: ts)). rewrite joined_cons. apply fold_joined; [done| |done|cbn [length]; lia].
  change (47 :: t) with ([47] ++ t). rewrite last_app. pose proof (proper_last _ Ht).
  destruct (list.last t) eqn:El; [done|]. apply last_None in El. by destruct Ht.
Qed.

Lemma parts_weight path : sum_list_with (fun t => S (length t)) (parts path) = S (length path).
Proof.
  induction path as [|c path IH]; [done|]. cbn [parts]. destruct (c =? 47); cbn [sum_list_with length]; [by rewrite IH|].
  destruct (parts path) as [|x xs]; cbn [sum_list_with length] in *; lia.
Qed.

Lemma nonempty_weight (w : str -> nat) ts :
  (sum_list_with (fun t => if bool_decide (t = []) then 0 else w t) ts <= sum_list_with w ts)%nat.
Proof. induction ts as [|t ts IH]; cbn [sum_list_with]; [lia|]. case_bool_decide; lia. Qed.

Lemma weight_one (ts : list str) : sum_list_with (fun _ => 1%nat) ts = length ts.
Proof. induction ts as [|t ts IH]; cbn; [done|]. by rewrite IH. Qed.

Lemma weight_reverse (w : str -> nat) ts : sum_list_with w (reverse ts) = sum_list_with w ts.
Proof. apply sum_list_with_reverse. Qed.

Lemma parts_joined ts : Forall (fun t => 47 ∉ t) ts -> parts (joined ts) = [] :: ts.
Proof.
  assert (Hp : forall t p, 47 ∉ t -> parts (t ++ p) = match parts p with [] => [t] | x :: xs => (t ++ x) :: xs end).
  { induction t as [|c t IH]; intros p Ht; [cbn [app]; by destruct (parts_cons p) as (x & xs & ->)|]. apply not_elem_of_cons in Ht as [Hc Ht].
    cbn [app parts]. rewrite (proj2 (Z.eqb_neq c 47)) by done. rewrite IH by done. by destruct (parts_cons p) as (x & xs & ->). }
  induction 1 as [|t ts Ht _ IH]; [done|]. rewrite joined_cons. cbn [app parts]. rewrite Hp by done. rewrite IH. by rewrite app_nil_r.
Qed.

(** The absolute paths [normalize_path] handles exactly. *)
Definition fits (path : str) : Prop :=
  Forall (fun t => (length t <= 127)%nat) (parts path) /\ (length (parts path) <= 64)%nat /\ (length path <= 510)%nat.

Lemma normalize_canonical rest :
  let path := 47 :: rest in
  fits path -> normalize_path path 512 = Some (render (reverse (canonical (parts path) []))).
Proof.
  intros path (H1 & H2 & H3). unfold normalize_path. cbn [Nat.eqb]. rewrite norm_canonical by (done || (cbn; lia)). cbn [mbind option_bind].
  assert (Hab : match path with c :: _ => c =? 47 | [] => false end = true) by done. rewrite Hab.
  change (store_chars 512 [] slash) with slash.
  set (ts := reverse (canonical (parts path) [])). assert (Hts : Forall proper ts).
  { apply Forall_reverse, canonical_proper; [|constructor]. apply list.Forall_forall. intros t Ht. split; [by eapply parts_noslash|].
    exact (proj1 (list.Forall_forall _ _) H1 t Ht). }
  rewrite fold_render; [|done|].
  - rewrite bool_decide_false; [done|]. destruct ts; done.
  - rewrite joined_length. unfold ts. rewrite weight_reverse.
    pose proof (canonical_weight (parts path) [] (fun t => S (length t))) as Hw. cbn [sum_list_with] in Hw.
    pose proof (nonempty_weight (fun t => S (length t)) (parts path)) as Hne. rewrite parts_weight in Hne.
    assert (Hstrict : (sum_list_with (fun t => if bool_decide (t = []) then 0 else S (length t)) (parts path) <= length path)%nat).
    { unfold path. cbn [parts]. change (47 =? 47) with true. cbn [sum_list_with]. rewrite bool_decide_true by done.
      pose proof (nonempty_weight (fun t => S (length t)) (parts rest)) as Hn2. rewrite parts_weight in Hn2. cbn [length]. lia. }
    lia.
Qed.

(** The canonical path fits again, and its components are those kept. *)
Lemma render_fits path :
  fits (47 :: path) -> let ts := reverse (canonical (parts (47 :: path)) []) in
  exists rest, render ts = 47 :: rest /\ fits (47 :: rest) /\ canonical (parts (47 :: rest)) [] = reverse ts.
Proof.
  intros (H1 & H2 & H3) ts. assert (Hts : Forall proper ts).
  { apply Forall_reverse, canonical_proper; [|constructor]. apply list.Forall_forall. intros t Ht. split; [by eapply parts_noslash|].
    exact (proj1 (list.Forall_forall _ _) H1 t Ht). }
  assert (Hns : Forall (fun t => 47 ∉ t) ts) by (apply (list.Forall_impl _ _ _ Hts); by intros t (_ & _ & _ & ? & _)).
  assert (Hlen : (length ts <= length (parts path))%nat).
  { unfold ts. rewrite length_reverse. pose proof (canonical_weight (parts (47 :: path)) [] (fun _ => 1%nat)) as Hw.
    rewrite weight_one in Hw. cbn [sum_list_with parts] in Hw. change (47 =? 47) with true in Hw. cbn [sum_list_with] in Hw.
    rewrite bool_decide_true in Hw by done. pose proof (nonempty_weight (fun _ => 1%nat) (parts path)) as Hn. rewrite weight_one in Hn.
    cbn [parts] in *. change (47 =? 47) with true in *. lia. }
  assert (Hjl : (length (joined ts) <= S (length path))%nat).
  { rewrite joined_length. unfold ts. rewrite weight_reverse. pose proof (canonical_weight (parts (47 :: path)) [] (fun t => S (length t))) as Hw.
    cbn [sum_list_with parts] in Hw. change (47 =? 47) with true in Hw. cbn [sum_list_with] in Hw. rewrite bool_decide_true in Hw by done.
    pose proof (nonempty_weight (fun t => S (length t)) (parts path)) as Hn. rewrite parts_weight in Hn.
    cbn [parts] in *. change (47 =? 47) with true in *. lia. }
  cbn [parts length] in H2. change (47 =? 47) with true in H2. cbn [length] in H2, H3.
  assert (Hs : Forall (fun t => (length t <= 127)%nat) ts) by (apply (list.Forall_impl _ _ _ Hts); by intros t (_ & _ & _ & _ & ?)).
  destruct ts as [|t ts'] eqn:Ets.
  { exists []. split_and!; [done| |done]. split_and!; [repeat constructor; cbn; lia|cbn; lia|cbn; lia]. }
  exists (t ++ joined ts'). assert (E : 47 :: t ++ joined ts' = joined (t :: ts')) by done. rewrite E.
  assert (Hp := parts_joined (t :: ts') Hns). split_and!; [done| |].
  - split_and!; rewrite ?Hp; [constructor; [cbn; lia|done]|cbn [length] in *; lia|lia].
  - rewrite Hp. revert Hts. generalize (t :: ts') as us. intros us Hus. cbn [canonical]. rewrite bool_decide_true by done. cbn [orb]. rewrite canonical_id by done. by rewrite app_nil_r.
Qed.

(** C34: [normalize_path] of an absolute path with components of at most 127
    characters, at most 64 of them, is the canonical path of its components,
    and normalising a canonical path gives it back. *)
Theorem normalize_path_correct rest :
  fits (47 :: rest) ->
  let r := render (reverse (canonical (parts (47 :: rest)) [])) in
  normalize_path (47 :: rest) 512 = Some r /\ normalize_path r 512 = Some r.
Proof.
  intros Hf r. split; [by apply normalize_canonical|]. destruct (render_fits rest Hf) as (rest' & E & Hf' & Ec).
  unfold r. rewrite E, normalize_canonical by done. rewrite Ec, reverse_involutive. by rewrite E.
Qed.
