(* ===== verification/FdProps.v ===== *)
(** * Descriptors

    What the system calls do through a descriptor of the current task: the
    lowest free descriptor is taken, reads and writes of a file happen at the
    entry's offset and advance it, [lseek] moves it. *)

From S2P Require Import Prelude Spinlock Task Sync SyncProps FsState Pipe Ramfs Vfs FsCalls.
From S2P Require Import RamfsFacts RamfsTree RamfsUnlink RamfsView RamfsProps VfsProps.

Section fds.
Context {H W : Type} `{!ObjHeap H} `{!ObjHeapLaws H} `{!TaskResources W}.
Implicit Types (d : fsd H) (roots : list Z).
Abbreviation K := (K H W).

(** ** Evaluation by the task with descriptor table [tbl] *)

Definition task_runs {A} (tbl : Z) (m : K A) d (r : A) d' : Prop :=
  forall e, env_ok ∅ e -> current_fd_table (sc e) = tbl -> exists e', m d e = Some (r, d', e') /\ env_next ∅ e e'.

Lemma task_any {A} tbl (m : K A) d r d' : runs ∅ m d r d' -> task_runs tbl m d r d'.
Proof. intros R e He _. by apply R. Qed.

Lemma task_bind {A B} tbl (m : K A) (f : A -> K B) d x d1 r d' :
  task_runs tbl m d x d1 -> task_runs tbl (f x) d1 r d' -> task_runs tbl (m ≫= f) d r d'.
Proof.
  intros R1 R2 e He Et. destruct (R1 e He Et) as (e1 & E1 & He1 & T1). destruct (R2 e1 He1 ltac:(congruence)) as (e2 & E2 & He2 & T2).
  exists e2. split; [by erewrite bind_some by exact E1|]. split; [done|congruence].
Qed.

Lemma task_table tbl d : task_runs tbl (current_table : K Z) d tbl d.
Proof. intros e He <-. by exists e. Qed.

(** ** Tables *)

Record table_at d (tbl : Z) (l : list fd_entry) : Prop := TableAt {
  ta_obj : objs d !! tbl = Some (OTable (FdTable 0 l));
  ta_len : Z.of_nat (length l) = MAX_FDS
}.

Definition with_table d (tbl : Z) (l : list fd_entry) : fsd H := with_obj d tbl (OTable (FdTable 0 l)).

Lemma with_table_at d tbl l : Z.of_nat (length l) = MAX_FDS -> table_at (with_table d tbl l) tbl l.
Proof. intros. split; [apply with_obj_lookup|done]. Qed.

Lemma lock_table_runs held d tbl l w :
  objs d !! tbl = Some (OTable (FdTable w l)) -> w = 0 ->
  runs held (lock_table tbl : K unit) d tt (with_obj d tbl (OTable (FdTable SPINLOCK_LOCKED l))).
Proof. intros Ht ->. unfold lock_table. rstep. cbn [ft_lock]. rewrite grab_free. rstep. Qed.

Lemma unlock_table_runs held d tbl l :
  objs d !! tbl = Some (OTable (FdTable SPINLOCK_LOCKED l)) ->
  runs held (unlock_table tbl : K unit) d tt (with_table d tbl l).
Proof. intros Ht. unfold unlock_table. rstep. cbn [ft_lock]. rewrite drop_grabbed. rstep. Qed.

(** A section under the table's lock. *)
Lemma locked_runs {A B} held d tbl l (m : K A) (k : A -> K B) x d1 l1 r d' :
  objs d !! tbl = Some (OTable (FdTable 0 l)) ->
  runs held m (with_obj d tbl (OTable (FdTable SPINLOCK_LOCKED l))) x d1 ->
  objs d1 !! tbl = Some (OTable (FdTable SPINLOCK_LOCKED l1)) ->
  runs held (k x) (with_table d1 tbl l1) r d' ->
  runs held (_ ← lock_table tbl; x ← m; _ ← unlock_table tbl; k x) d r d'.
Proof.
  intros Ht Hm Ht1 Hk. eapply runs_bind; [by eapply lock_table_runs|]. cbn beta. eapply runs_bind; [exact Hm|]. cbn beta.
  eapply runs_bind; [by apply unlock_table_runs|]. cbn beta. exact Hk.
Qed.

Lemma get_entry_runs held d tbl w l fd x :
  objs d !! tbl = Some (OTable (FdTable w l)) -> l !! Z.to_nat fd = Some x -> runs held (get_entry tbl fd : K _) d x d.
Proof. intros Ht Hx. unfold get_entry. rstep. cbn [ft_entries]. rewrite Hx. rstep. Qed.

Lemma set_entry_runs held d tbl w l fd x :
  objs d !! tbl = Some (OTable (FdTable w l)) -> 0 <= fd < Z.of_nat (length l) ->
  runs held (set_entry tbl fd x : K _) d tt (with_obj d tbl (OTable (FdTable w (<[Z.to_nat fd := x]> l)))).
Proof. intros Ht Hfd. unfold set_entry. rstep. cbn [ft_entries ft_lock]. rewrite (proj2 (Z.leb_gt _ _)) by lia. rstep. Qed.

Lemma table_get_runs held d tbl l fd x :
  table_at d tbl l -> tbl <> 0 -> 0 <= fd -> l !! Z.to_nat fd = Some x -> runs held (fd_table_get tbl fd : K _) d (fe_in_use x) d.
Proof.
  intros [Ht Hl] H0 Hfd Hx. pose proof (lookup_lt_Some _ _ _ Hx) as Hlt. unfold fd_table_get.
  rewrite (proj2 (Z.eqb_neq _ _)), (proj2 (Z.ltb_ge _ _)), (proj2 (Z.leb_gt _ _)) by lia. cbn [orb].
  eapply (locked_runs held d tbl l (get_entry tbl fd) (fun x => mret (fe_in_use x)) x _ l).
  - done.
  - eapply get_entry_runs; [apply with_obj_lookup|done].
  - apply with_obj_lookup.
  - unfold with_table. rewrite with_obj_twice, with_obj_id by done. rstep.
Qed.

Lemma current_entry_runs d tbl l fd x :
  table_at d tbl l -> tbl <> 0 -> 0 <= fd -> l !! Z.to_nat fd = Some x -> fe_in_use x = true -> fe_node x <> 0 ->
  task_runs tbl (current_entry fd : K _) d (Some (tbl, x)) d.
Proof.
  intros Ht H0 Hfd Hx Hu Hn. unfold current_entry. eapply task_bind; [apply task_table|]. cbn beta.
  rewrite (proj2 (Z.eqb_neq tbl 0)) by done. apply task_any. eapply runs_bind; [by eapply table_get_runs|]. cbn beta. rewrite Hu. cbn [negb].
  eapply runs_bind; [eapply get_entry_runs; [apply Ht|done]|]. cbn beta. rewrite (proj2 (Z.eqb_neq _ 0)) by done. rstep.
Qed.

(** ** Allocation *)

Lemma first_free_spec l :
  match first_free l with
  | Some i => (exists x, l !! i = Some x /\ fe_in_use x = false) /\ forall j y, (j < i)%nat -> l !! j = Some y -> fe_in_use y = true
  | None => forall j y, l !! j = Some y -> fe_in_use y = true
  end.
Proof.
  induction l as [|x l IH]; cbn [first_free]; [done|]. destruct (fe_in_use x) eqn:E.
  - destruct (first_free l) as [i|]; cbn [fmap option_fmap option_map].
    + destruct IH as [IH1 IH2]. split; [done|]. intros [|j] y Hj Hy; [by injection Hy as <-|]. eapply IH2; [|done]. lia.
    + intros [|j] y Hy; [by injection Hy as <-|]. by eapply IH.
  - split; [by exists x|]. intros j y Hj. lia.
Qed.

(** Static nodes are not counted. *)
Lemma ref_ram roots held d q : tree_ok roots d -> ram_at d q -> runs held (vfs_ref_node q : K unit) d tt d.
Proof.
  intros Ht (n & Hn & Hr). unfold vfs_ref_node. case_if; [rstep|]. rstep.
  rewrite (proj1 (to_local _ _ Ht _ _ Hn Hr)). cbn [negb]. rstep.
Qed.

Lemma ram_with_table roots d tbl w l q : tree_ok roots d -> table_at d tbl l -> ram_at d q ->
  forall l', ram_at (with_obj d tbl (OTable (FdTable w l'))) q.
Proof.
  intros Ht Hta (n & Hn & Hr) l'. exists n. split; [|done]. rewrite with_obj_ne; [done|].
  intros ->. rewrite (ta_obj _ _ _ Hta) in Hn. done.
Qed.

(** Changing a table keeps the tree and its view. *)
Lemma tree_with_table roots d tbl w l l' : tree_ok roots d -> table_at d tbl l -> tree_ok roots (with_obj d tbl (OTable (FdTable w l'))).
Proof.
  intros Ht Hta. pose proof (ta_obj _ _ _ Hta) as Ho.
  apply (tree_relabel roots d); [done|apply kept_put; [apply (to_data _ _ Ht)|by rewrite Ho]| |].
  - cbn. rewrite dom_insert_L. apply elem_of_dom_2 in Ho. set_solver.
  - intros p o o' Hp Hp'. cbn in Hp'. destruct (decide (p = tbl)) as [->|E].
    + rewrite lookup_insert_eq in Hp'. rewrite Ho in Hp. by simplify_eq.
    + rewrite lookup_insert_ne, Hp in Hp' by done. injection Hp' as <-. split_and!; [done|done|by apply (to_local _ _ Ht p)|].
      intros n ->. by exists n.
Qed.

Lemma view_with_table d tbl w l l' : table_at d tbl l -> same (view d) (view (with_obj d tbl (OTable (FdTable w l')))).
Proof.
  intros Hta q. pose proof (ta_obj _ _ _ Hta) as Ho. unfold view, view_node, contents. cbn.
  destruct (decide (q = tbl)) as [->|E]; [by rewrite lookup_insert_eq, Ho|]. rewrite lookup_insert_ne by done.
  destruct (objs d !! q) as [[n| | | | | | |]|]; try done.
  destruct (decide (fn_impl n = tbl)) as [->|E2]; [rewrite lookup_insert_eq, Ho; by destruct (fn_type n)|].
  rewrite lookup_insert_ne by done. destruct (fn_type n); try done. destruct (objs d !! fn_impl n) as [[|f| | | | | |]|]; try done.
  destruct (decide (rf_data f = tbl)) as [->|E3]; [by rewrite lookup_insert_eq, Ho|]. by rewrite lookup_insert_ne.
Qed.

Lemma good_with_table roots d tbl l l' :
  vfs_ok roots d -> table_at d tbl l -> vfs_ok roots (with_table d tbl l') /\ same (view d) (view (with_table d tbl l')).
Proof.
  intros [Ht Hr Hm] Hta. split; [|by apply (view_with_table d tbl 0 l)]. split; [by apply (tree_with_table roots d tbl 0 l)|done|done].
Qed.

Lemma alloc_runs roots d tbl l q flags :
  tree_ok roots d -> table_at d tbl l -> tbl <> 0 -> ram_at d q ->
  runs ∅ (fd_table_alloc tbl q flags : K Z) d (match first_free l with Some i => Z.of_nat i | None => -1 end)
    (with_table d tbl (match first_free l with Some i => <[i := FdEntry q 0 flags true]> l | None => l end)).
Proof.
  intros Ht Hta H0 Hq. unfold fd_table_alloc.
  assert (Hq0 : q <> 0) by (destruct Hq as (n & Hn & _); eapply not_null; [apply (to_data _ _ Ht)|done]).
  rewrite !(proj2 (Z.eqb_neq _ 0)) by done. cbn [orb].
  eapply runs_bind; [eapply lock_table_runs; [apply Hta|done]|]. cbn beta.
  eapply runs_bind; [eapply runs_read; [apply with_obj_lookup|done]|]. cbn [ft_entries].
  pose proof (first_free_spec l) as Hff. destruct (first_free l) as [i|].
  - destruct Hff as [(x & Hx & _) _]. apply lookup_lt_Some in Hx. eapply runs_bind.
    + eapply runs_bind; [eapply set_entry_runs; [apply with_obj_lookup|lia]|]. cbn beta. rewrite with_obj_twice.
      eapply runs_bind; [eapply ref_ram; [by eapply (tree_with_table roots d tbl)|by eapply (ram_with_table roots)]|]. cbn beta. rstep.
    + cbn beta. eapply runs_bind; [apply unlock_table_runs, with_obj_lookup|]. cbn beta. unfold with_table. rewrite with_obj_twice, Nat2Z.id. rstep.
  - eapply runs_bind; [rstep|]. cbn beta. eapply runs_bind; [apply unlock_table_runs, with_obj_lookup|]. cbn beta.
    unfold with_table. rewrite with_obj_twice. rstep.
Qed.

(** ** Reading and writing through a descriptor *)

(** Descriptor [fd] of the table is an open file with contents [c]. *)
Record open_on roots d (tbl fd : Z) (l : list fd_entry) (x : fd_entry) (c : list Z) : Prop := OpenOn {
  oo_vfs : vfs_ok roots d;
  oo_table : table_at d tbl l;
  oo_null : tbl <> 0;
  oo_fd : 0 <= fd /\ l !! Z.to_nat fd = Some x;
  oo_used : fe_in_use x = true;
  oo_view : view d (fe_node x) = Some (AFile c);
  oo_range : 0 <= fe_offset x
}.

Lemma open_file_at roots d tbl fd l x c :
  open_on roots d tbl fd l x c -> exists n f, file_at d (fe_node x) n f c /\ fn_ops n = OpsRamFile /\ fe_node x <> 0.
Proof.
  intros [[Ht _ _] _ _ _ _ Hv _]. destruct (view_ram _ _ _ Hv) as (n & Hn & Hr).
  destruct (ram_cases _ _ _ _ Ht Hn Hr) as [(f & c' & Hf & Ev)|(r & _ & Ev & _)]; rewrite Ev in Hv; [|done]. injection Hv as ->.
  exists n, f. split_and!; [done| |by eapply not_null; [apply (to_data _ _ Ht)|]].
  rewrite (proj2 (to_local _ _ Ht _ _ Hn Hr)). by rewrite (fa_type _ _ _ _ _ Hf).
Qed.

Lemma read_runs roots d tbl fd l x c count :
  open_on roots d tbl fd l x c -> has (fe_flags x) O_WRONLY && negb (has (fe_flags x) O_RDWR) = false ->
  0 <= count -> fe_offset x + count < 2 ^ 32 ->
  let b := take (Z.to_nat count) (drop (Z.to_nat (fe_offset x)) c) in
  task_runs tbl (sys_read fd true count : K _) d (Z.of_nat (length b), b)
    (with_table d tbl (<[Z.to_nat fd := e_set_offset (fe_offset x + Z.of_nat (length b)) x]> l)).
Proof.
  intros Hoo Hfl Hc Hlt b. destruct (open_file_at _ _ _ _ _ _ _ Hoo) as (n & f & Hf & Hops & H0).
  destruct Hoo as [[Ht _ _] Hta Htbl [Hfd Hx] Hu Hv Hr]. unfold sys_read. cbn [negb].
  eapply task_bind; [by eapply current_entry_runs|]. cbn beta iota. rewrite Hfl. apply task_any.
  eapply (runs_bind _ _ _ _ (Z.of_nat (length b), b)).
  - unfold vfs_read. rewrite (proj2 (Z.eqb_neq _ 0)) by done. eapply runs_bind; [eapply runs_read; [apply (fa_node _ _ _ _ _ Hf)|done]|].
    cbn beta. rewrite Hops. by apply (ramfs_read_spec d _ n f c); [apply (to_data _ _ Ht)|..].
  - cbn beta iota. eapply runs_bind; [eapply get_entry_runs; [apply Hta|done]|]. cbn beta.
    pose proof (lookup_lt_Some _ _ _ Hx). eapply runs_bind; [eapply set_entry_runs; [apply Hta|lia]|]. cbn beta.
    rewrite u32_small; [rstep|]. assert (Hb : (length b <= Z.to_nat count)%nat) by (subst b; rewrite length_take; lia). lia.
Qed.

(** ** Writing in chunks *)

Lemma splice_app off b1 b2 l :
  (off <= length l)%nat -> splice (off + length b1) b2 (splice off b1 l) = splice off (b1 ++ b2) l.
Proof.
  intros Hl. unfold splice. assert (Ht : length (take off l) = off) by (rewrite length_take; lia).
  rewrite (take_app_ge (take off l)) by lia. rewrite Ht. replace (off + length b1 - off)%nat with (length b1) by lia.
  rewrite take_app_length. rewrite length_app. rewrite (drop_app_ge (take off l)) by lia. rewrite Ht.
  rewrite (drop_app_ge b1) by lia. rewrite drop_drop, <- !app_assoc. do 3 f_equal. f_equal. lia.
Qed.

(** [k] of the bytes [b] stored at [off] in a file with contents [c]. *)
Definition stored_bytes (off : Z) (k : nat) (b c c' : list Z) : Prop :=
  if (k =? 0)%nat then c' = c
  else exists gap, Z.of_nat (length gap) = Z.max 0 (off - Z.of_nat (length c)) /\ c' = splice (Z.to_nat off) (take k b) (c ++ gap).

Lemma stored_more off b1 b2 k c c1 c2 :
  0 <= off -> (0 < length b1)%nat -> stored_bytes off (length b1) b1 c c1 -> stored_bytes (off + Z.of_nat (length b1)) k b2 c1 c2 ->
  (k <= length b2)%nat -> stored_bytes off (length b1 + k) (b1 ++ b2) c c2.
Proof.
  unfold stored_bytes. intros Ho Hb H1 H2 Hk. rewrite (proj2 (Nat.eqb_neq (length b1) 0)) in H1 by lia.
  rewrite (proj2 (Nat.eqb_neq (length b1 + k) 0)) by lia. destruct H1 as (gap & Hg & ->). exists gap. split; [done|].
  rewrite firstn_all in H2. rewrite take_app_add.
  assert (Hl : (Z.to_nat off <= length (c ++ gap))%nat) by (rewrite length_app; lia).
  destruct (Nat.eqb_spec k 0) as [->|Hk0].
  - subst c2. by rewrite take_0, app_nil_r.
  - destruct H2 as (gap' & Hg' & ->).
    assert (gap' = []) as ->.
    { apply length_zero_iff_nil. pose proof (splice_grown_length (Z.to_nat off) b1 (c ++ gap) Hl) as E. lia. }
    rewrite app_nil_r. replace (Z.to_nat (off + Z.of_nat (length b1))) with (Z.to_nat off + length b1)%nat by lia.
    by rewrite splice_app.
Qed.

(** One chunk. *)
Lemma chunk_runs roots d tbl fd l x c b :
  open_on roots d tbl fd l x c -> (0 < length b)%nat -> fe_offset x + Z.of_nat (length b) < 2 ^ 32 - 4095 ->
  exists r d1, runs ∅ (vfs_write (fe_node x) (fe_offset x) b : K Z) d r d1 /\ vfs_ok roots d1 /\ table_at d1 tbl l /\
    (r = 0 /\ refused (heap d) [RBytes (page_round (fe_offset x + Z.of_nat (length b)))] /\ same (view d) (view d1) \/
     r = Z.of_nat (length b) /\ exists c1, stored_bytes (fe_offset x) (length b) b c c1 /\
       same (upd (fe_node x) (Some (AFile c1)) (view d)) (view d1)).
Proof.
  intros Hoo Hb Hlt. destruct (open_file_at _ _ _ _ _ _ _ Hoo) as (n & f & Hf & Hops & H0).
  destruct Hoo as [[Ht Hr Hm] Hta Htbl [Hfd Hx] Hu Hv Hrng].
  destruct (file_write_runs (W := W) roots d (fe_node x) n f c (fe_offset x) b Ht Hf Hrng Hlt) as (r & d1 & R & (Ht1 & Hr1 & Hm1) & Hoth & Hcase).
  exists r, d1. split_and!.
  - unfold vfs_write. rewrite (proj2 (Z.eqb_neq _ 0)) by done. eapply runs_bind; [eapply runs_read; [apply (fa_node _ _ _ _ _ Hf)|done]|].
    cbn beta. by rewrite Hops.
  - split; [done|congruence|by rewrite Hm1].
  - split; [by apply (Hoth _ _ (ta_obj _ _ _ Hta))|apply Hta].
  - destruct Hcase as [?|(-> & gap & Hg & Hs)]; [by left|right]. split; [done|]. eexists. split; [|exact Hs].
    unfold stored_bytes. rewrite (proj2 (Nat.eqb_neq _ 0)) by lia. exists gap. by rewrite firstn_all.
Qed.

Lemma e_set_offset_twice o o' x : e_set_offset o (e_set_offset o' x) = e_set_offset o x.
Proof. done. Qed.

(** The block that the chunk after the first [k] of [len] bytes makes a file
    grow to, from the offset [off]. *)
Definition next_chunk (off : Z) (k len : nat) : request :=
  RBytes (page_round (off + Z.of_nat (k + Nat.min (Z.to_nat MAX_WRITE_SIZE) (len - k)))).

(** The first [k] bytes of [rest] go through, and then memory is refused to
    the next chunk. *)
Definition chunks_stop d tbl fd (off : Z) (rest : list Z) (total : Z) (k : nat) : Prop :=
  exists dm, refused (heap dm) [next_chunk off k (length rest)] /\
    forall fuel, (k <= fuel)%nat -> runs ∅ (write_chunks fuel tbl fd (take k rest) total : K Z) d (total + Z.of_nat k) dm.

(** A list of which the first chunk is [b], cut behind it. *)
Lemma chunk_cut N (rest : list Z) k : (k <= length (drop N rest))%nat ->
  let p := take (length (take N rest) + k) rest in take N p = take N rest /\ drop N p = take k (drop N rest).
Proof.
  intros Hk p. unfold p. rewrite length_drop in Hk. rewrite length_take, skipn_firstn_comm, take_take. destruct (decide (N <= length rest)%nat) as [Hl|Hl].
  - rewrite (Nat.min_l N (length rest)) by lia. split; f_equal; lia.
  - rewrite (Nat.min_r N (length rest)) by lia. rewrite !(drop_ge rest) by lia. split; [|by rewrite !take_nil]. rewrite !take_ge by lia. done.
Qed.

(** A chunk that goes through, and the rest. *)
Lemma chunk_step d d1 tbl fd l x b p total fuel r d' :
  table_at d tbl l -> 0 <= fd /\ l !! Z.to_nat fd = Some x -> table_at d1 tbl l ->
  runs ∅ (vfs_write (fe_node x) (fe_offset x) b : K Z) d (Z.of_nat (length b)) d1 ->
  take (Z.to_nat MAX_WRITE_SIZE) p = b -> (0 < length b)%nat ->
  0 <= fe_offset x -> fe_offset x + Z.of_nat (length b) < 2 ^ 32 -> 0 <= total -> total + Z.of_nat (length b) < 2 ^ 32 ->
  runs ∅ (write_chunks fuel tbl fd (drop (Z.to_nat MAX_WRITE_SIZE) p) (total + Z.of_nat (length b)) : K Z)
    (with_table d1 tbl (<[Z.to_nat fd := e_set_offset (fe_offset x + Z.of_nat (length b)) x]> l)) r d' ->
  runs ∅ (write_chunks (S fuel) tbl fd p total : K Z) d r d'.
Proof.
  intros Hta [Hfd Hx] Hta1 R Hb Hpos H1 H2 H3 H4 R'. destruct p as [|p0 p]; [subst b; rewrite take_nil in Hpos; cbn in Hpos; lia|]. set (q := p0 :: p) in *.
  cbn [write_chunks]. fold q. rewrite Hb. pose proof (lookup_lt_Some _ _ _ Hx).
  eapply runs_bind; [eapply get_entry_runs; [apply Hta|done]|]. cbn beta. rbind R.
  rewrite (proj2 (Z.eqb_neq _ 0)) by lia. eapply runs_bind; [eapply get_entry_runs; [apply Hta1|done]|]. cbn beta.
  rewrite u32_small by lia. eapply runs_bind; [eapply set_entry_runs; [apply Hta1|lia]|]. cbn beta.
  rewrite u32_small by lia. by rewrite Z.ltb_irrefl.
Qed.

Lemma chunks_runs roots tbl fd fuel rest d l x c total :
  open_on roots d tbl fd l x c -> (length rest <= fuel)%nat -> fe_offset x + Z.of_nat (length rest) < 2 ^ 32 - 4095 ->
  0 <= total -> total + Z.of_nat (length rest) < 2 ^ 32 ->
  exists k d' c', (k <= length rest)%nat /\ (k = length rest \/ chunks_stop d tbl fd (fe_offset x) rest total k) /\
    runs ∅ (write_chunks fuel tbl fd rest total : K Z) d (total + Z.of_nat k) d' /\
    open_on roots d' tbl fd (<[Z.to_nat fd := e_set_offset (fe_offset x + Z.of_nat k) x]> l) (e_set_offset (fe_offset x + Z.of_nat k) x) c' /\
    stored_bytes (fe_offset x) k rest c c' /\ same (upd (fe_node x) (Some (AFile c')) (view d)) (view d').
Proof.
  revert rest d l x c total. induction fuel as [|fuel IH]; intros rest d l x c total Hoo Hfuel Hoff Ht0 Ht1.
  all: destruct rest as [|b0 rest0].
  all: try (cbn in Hfuel; lia).
  1,2: exists 0%nat, d, c; (split_and!; [cbn; lia|by left|rewrite Z.add_0_r; apply runs_ret| |done|]);
    [rewrite Z.add_0_r; destruct Hoo as [? ? ? [? Hx] ? ? ?], x; unfold e_set_offset; cbn in *; by rewrite list_insert_id
    |intros q; unfold upd; case_decide as E; [subst; apply Hoo|done]].
  set (rest := b0 :: rest0) in *. set (b := take (Z.to_nat MAX_WRITE_SIZE) rest).
  assert (Hb : (0 < length b <= length rest)%nat) by (unfold b, rest; rewrite length_take; unfold MAX_WRITE_SIZE; cbn [length]; lia).
  destruct (chunk_runs roots d tbl fd l x c b Hoo) as (r & d1 & R & Hv1 & Hta1 & Hcase); [lia|lia|].
  pose proof Hoo as [Hvfs Hta Htbl [Hfd Hx] Hu Hv Hrng].
  assert (Hlen := lookup_lt_Some _ _ _ Hx).
  destruct Hcase as [(-> & Hoom & Hs)|(-> & c1 & Hst & Hs)].
  - exists 0%nat, d1, c. split_and!; [lia|right; exists d; split; [|intros fu _; rewrite Z.add_0_r; destruct fu; apply runs_ret]| | |done|].
    + unfold next_chunk. rewrite Nat.add_0_l, Nat.sub_0_r. unfold b in Hoom. by rewrite length_take in Hoom.
    + rewrite Z.add_0_r. cbn [write_chunks]. fold rest b. eapply runs_bind; [eapply get_entry_runs; [apply Hta|done]|]. cbn beta.
      rbind R. rstep.
    + rewrite Z.add_0_r. replace (e_set_offset (fe_offset x) x) with x by (by destruct x). rewrite list_insert_id by done.
      split; try done. by rewrite Hs.
    + intros q. rewrite Hs. unfold upd. case_decide as E; [by subst|done].
  - set (x1 := e_set_offset (fe_offset x + Z.of_nat (length b)) x). set (l1 := <[Z.to_nat fd := x1]> l).
    destruct (good_with_table roots d1 tbl l l1 Hv1 Hta1) as [Hv2 Hs2].
    assert (Hoo2 : open_on roots (with_table d1 tbl l1) tbl fd l1 x1 c1).
    { split; try done; [apply with_table_at; unfold l1; rewrite length_insert; apply Hta| |rewrite Hs2, Hs; unfold upd; by rewrite decide_True|].
      - split; [done|]. unfold l1. by rewrite list_lookup_insert_eq.
      - unfold x1. cbn. lia. }
    destruct (IH (drop (Z.to_nat MAX_WRITE_SIZE) rest) (with_table d1 tbl l1) l1 x1 c1 (total + Z.of_nat (length b)) Hoo2)
      as (k & d' & c' & Hk & Hkr & R' & Hoo' & Hst' & Hs'); try (unfold x1; cbn [fe_offset e_set_offset]); try (rewrite ?length_drop; unfold b in *; rewrite ?length_take in *; lia).
    assert (Hbr : b ++ drop (Z.to_nat MAX_WRITE_SIZE) rest = rest) by apply take_drop.
    assert (Hbl : (length b + length (drop (Z.to_nat MAX_WRITE_SIZE) rest) = length rest)%nat) by (rewrite <- length_app; by rewrite Hbr).
    exists (length b + k)%nat, d', c'. split_and!; [lia|destruct Hkr as [->|Hst1]; [left; lia|right]| | | |].
    + destruct Hst1 as (dm & Hrf & Hdm). exists dm. split.
      * replace (next_chunk _ _ _) with (next_chunk (fe_offset x1) k (length (drop (Z.to_nat MAX_WRITE_SIZE) rest))); [done|].
        unfold next_chunk, x1. cbn [fe_offset e_set_offset]. do 2 f_equal. unfold b in Hbl |- *. rewrite length_drop, length_take in *. lia.
      * intros fu Hfu. destruct fu as [|fu]; [lia|]. destruct (chunk_cut (Z.to_nat MAX_WRITE_SIZE) rest k Hk) as [Hc1 Hc2]. fold b in Hc1, Hc2.
        replace (total + Z.of_nat (length b + k)) with (total + Z.of_nat (length b) + Z.of_nat k) by lia.
        apply (chunk_step d d1 tbl fd l x b); try done; try lia. rewrite Hc2. apply Hdm. lia.
    + replace (total + Z.of_nat (length b + k)) with (total + Z.of_nat (length b) + Z.of_nat k) by lia.
      apply (chunk_step d d1 tbl fd l x b); (done || lia).
    + unfold l1, x1 in Hoo'. rewrite list_insert_insert_eq, e_set_offset_twice in Hoo'. cbn [fe_offset e_set_offset] in Hoo'.
      by replace (fe_offset x + Z.of_nat (length b + k)) with (fe_offset x + Z.of_nat (length b) + Z.of_nat k) by lia.
    + rewrite <- Hbr. by apply (stored_more _ _ _ _ _ c1); [|lia|..].
    + intros q. rewrite Hs'. unfold upd. change (fe_node x1) with (fe_node x). case_decide; [done|]. rewrite Hs2, Hs. unfold upd. by rewrite decide_False.
Qed.

(** The first [k] bytes of the buffer, written on their own, go through; from
    the state this leaves, memory is refused to the next chunk. *)
Definition write_stops d tbl fd (x : fd_entry) (b : list Z) (k : nat) : Prop :=
  exists dm, task_runs tbl (sys_write fd (Some (take k b)) : K Z) d (Z.of_nat k) dm /\
    refused (heap dm) [next_chunk (fe_offset x) k (length b)].

Lemma write_runs roots d tbl fd l x c b :
  open_on roots d tbl fd l x c -> has (fe_flags x) O_APPEND = false -> fe_offset x + Z.of_nat (length b) < 2 ^ 32 - 4095 ->
  exists k d' c', (k <= length b)%nat /\ (k = length b \/ write_stops d tbl fd x b k) /\
    task_runs tbl (sys_write fd (Some b) : K Z) d (Z.of_nat k) d' /\
    open_on roots d' tbl fd (<[Z.to_nat fd := e_set_offset (fe_offset x + Z.of_nat k) x]> l) (e_set_offset (fe_offset x + Z.of_nat k) x) c' /\
    stored_bytes (fe_offset x) k b c c' /\ same (upd (fe_node x) (Some (AFile c')) (view d)) (view d').
Proof.
  intros Hoo Happ Hlt. pose proof Hoo as [Hvfs Hta Htbl [Hfd Hx] Hu Hv Hrng].
  destruct (open_file_at _ _ _ _ _ _ _ Hoo) as (n & f & _ & _ & H0).
  destruct (chunks_runs roots tbl fd (length b) b d l x c 0 Hoo) as (k & d' & c' & Hk & Hkr & R & Hoo' & Hst & Hs); [lia..|].
  assert (Hgo : forall b' r dm, runs ∅ (write_chunks (length b') tbl fd b' 0 : K Z) d r dm -> task_runs tbl (sys_write fd (Some b') : K Z) d r dm).
  { intros b' r dm R'. unfold sys_write. eapply task_bind; [by eapply current_entry_runs|]. cbn beta iota.
    replace (has (fe_flags x) O_RDONLY) with false by (unfold has; by rewrite Z.land_0_r). cbn [andb]. rewrite Happ.
    apply task_any. eapply runs_bind; [apply runs_ret|]. exact R'. }
  exists k, d', c'. split_and!; try done; [|by apply Hgo]. destruct Hkr as [?|(dm & Hrf & Hdm)]; [by left|right].
  exists dm. split; [|done]. apply Hgo. apply Hdm. rewrite length_take. lia.
Qed.

Lemma seek_runs roots d tbl fd l x c o :
  open_on roots d tbl fd l x c -> 0 <= o < 2 ^ 31 ->
  task_runs tbl (sys_lseek fd o SEEK_SET : K Z) d o (with_table d tbl (<[Z.to_nat fd := e_set_offset o x]> l)) /\
  open_on roots (with_table d tbl (<[Z.to_nat fd := e_set_offset o x]> l)) tbl fd (<[Z.to_nat fd := e_set_offset o x]> l) (e_set_offset o x) c.
Proof.
  intros Hoo Ho. pose proof Hoo as [Hvfs Hta Htbl [Hfd Hx] Hu Hv Hrng]. pose proof (lookup_lt_Some _ _ _ Hx) as Hlen.
  destruct (open_file_at _ _ _ _ _ _ _ Hoo) as (n & f & Hf & _ & H0).
  destruct (good_with_table roots d tbl l (<[Z.to_nat fd := e_set_offset o x]> l) Hvfs Hta) as [Hv2 Hs2]. split.
  - unfold sys_lseek. eapply task_bind; [by eapply current_entry_runs|]. cbn beta iota. apply task_any.
    eapply runs_bind; [eapply runs_read; [apply (fa_node _ _ _ _ _ Hf)|done]|]. cbn beta. rewrite Z.eqb_refl, u32_small by lia.
    rewrite (proj2 (Z.ltb_ge _ _)) by (rewrite s32_small; lia).
    eapply runs_bind; [eapply set_entry_runs; [apply Hta|lia]|]. cbn beta. apply runs_ret.
  - split; try done; [apply with_table_at; rewrite length_insert; apply Hta| |by rewrite Hs2|cbn; lia].
    split; [done|]. by rewrite list_lookup_insert_eq.
Qed.

(** Reading through a descriptor gives the bytes of the file at its offset,
    at most [count], and advances the offset by their number; nothing else
    changes. *)
Theorem sys_read_correct roots d tbl fd l x c count :
  open_on roots d tbl fd l x c -> has (fe_flags x) O_WRONLY && negb (has (fe_flags x) O_RDWR) = false ->
  0 <= count -> fe_offset x + count < 2 ^ 32 ->
  let b := take (Z.to_nat count) (drop (Z.to_nat (fe_offset x)) c) in
  task_runs tbl (sys_read fd true count : K _) d (Z.of_nat (length b), b)
    (with_table d tbl (<[Z.to_nat fd := e_set_offset (fe_offset x + Z.of_nat (length b)) x]> l)).
Proof. apply read_runs. Qed.

(** C29: Writing through a descriptor without [O_APPEND], in chunks of 512
    bytes and up to an end below [2^32 - 4095], stores a prefix of the buffer
    at the descriptor's offset and advances it; no other node changes.  The
    prefix is the whole buffer unless, in the state that writing the prefix
    alone leaves, the block that the next chunk has to grow the file to is
    refused. *)
Theorem sys_write_correct roots d tbl fd l x c b :
  open_on roots d tbl fd l x c -> has (fe_flags x) O_APPEND = false -> fe_offset x + Z.of_nat (length b) < 2 ^ 32 - 4095 ->
  exists k d' c', (k <= length b)%nat /\ (k = length b \/ write_stops d tbl fd x b k) /\
    task_runs tbl (sys_write fd (Some b) : K Z) d (Z.of_nat k) d' /\
    open_on roots d' tbl fd (<[Z.to_nat fd := e_set_offset (fe_offset x + Z.of_nat k) x]> l) (e_set_offset (fe_offset x + Z.of_nat k) x) c' /\
    stored_bytes (fe_offset x) k b c c' /\ same (upd (fe_node x) (Some (AFile c')) (view d)) (view d').
Proof. apply write_runs. Qed.

(** A write, a seek back and a read through one descriptor. *)
Definition write_seek_read (fd : Z) (b : list Z) (off : Z) : K (Z * Z * (Z * list Z)) :=
  w ← sys_write fd (Some b);
  o ← sys_lseek fd off SEEK_SET;
  r ← sys_read fd true w;
  mret (w, o, r).


End fds.
