(* ===== verification/SchedulerExamples.v ===== *)
(** * A small process history

    A world that records what is released and answers allocations from a
    script, and the states of a short history on it: boot, one user process,
    a fork, the child's exit and the parent's wait.  The witnesses of the
    scheduler theorems run on it, and so does the failing fork. *)

From S2P Require Import Prelude Spinlock Task TaskQueue Process Sync TaskFacts TaskProps TaskSteps TaskExit ProcessProps SchedulerProps.
From S2P Require Import SyncProps.

Inductive event := Kfree (p : Z) | CloseFds (p : Z) | FreeDirectory (p : Z).

#[global] Instance event_eq_dec : EqDecision event.
Proof. solve_decision. Defined.

(** The answers still to give, and the releases so far, last one first. *)
Record log := Log { answers : list Z; released : list event }.

Definition record (e : event) (w : log) : log := Log (answers w) (e :: released w).
Definition answer (w : log) : Z * log :=
  match answers w with [] => (0, w) | a :: l => (a, Log l (released w)) end.

#[global] Instance log_resources : TaskResources log := {|
  tr_kfree p := record (Kfree p);
  tr_close_fds p := record (CloseFds p);
  tr_free_page_directory p := record (FreeDirectory p);
  tr_set_kernel_stack _ w := w;
  tr_sync_current_dir _ w := w;
  tr_kmalloc _ := answer;
  tr_clone_page_directory _ := answer;
  tr_fd_table_init _ w := w;
  tr_fd_table_copy _ _ w := (0, w);
  tr_page_directory _ := 0x2000;
  tr_setup_user_stack _ w := (true, w);
  tr_open_stdio _ w := w
|}.

(** ** The history *)

Definition off : sched log :=
  Sched (TCore [] None None None 0 0 None false None 0 (Log [] [])) (LockSt 0 false).

Definition boot : sched log := task_init 0x10000 0x2000 off.

(** A user process in block 1. *)
Definition process_block : task -> task := t_set_child true 10 0x7000 0x8000 0xA000 0x9000 None.
Definition spawn (s : sched log) : option (sched log) :=
  '(child, s) ← task_alloc s;
  i ← child;
  ready_queue_add child (on_core s (fun c => tupd c i process_block)).

(** [boot] with the process ready, and with it running; [a] are the answers
    the allocators will give. *)
Definition with_answers (a : list Z) (s : sched log) : sched log :=
  on_core s (fun c => set_world c (Log a [])).
Definition ready1 : sched log := Eval vm_compute in default off (spawn boot).
Definition running1 : sched log := Eval vm_compute in
  default off (snd <$> task_schedule ready1).
Definition fork_ready : sched log := Eval vm_compute in with_answers [0xB000; 0xC000; 0xD000] running1.
Definition forked2 : sched log := Eval vm_compute in
  default off (snd <$> sys_fork X86_64 100 false fork_ready).
Definition running2 : sched log := Eval vm_compute in default off (snd <$> task_schedule forked2).
Definition exited2 : sched log := Eval vm_compute in default off (snd <$> task_exit 7 running2).

Lemma boot_good : good boot [].
Proof. by apply init_good. Qed.

Lemma ready1_good : good ready1 [1%nat].
Proof.
  destruct (alloc_spec boot [] boot boot_good) as [E|(child & s1 & E & Hfk)]; [done|done|vm_compute in E; done|].
  assert (child = 1%nat) as -> by (vm_compute in E; by injection E as <- _).
  apply (forking_give _ _ _ _ 10 0x7000 0x8000 0xA000 0x9000 None) in Hfk; [|done].
  destruct (fork_add_spec boot [] 1 _ boot_good Hfk) as (s2 & E2 & Hd).
  assert (Hs : spawn boot = Some s2) by (unfold spawn; by rewrite E).
  specialize (Hd false). assert (ready1 = irq_restore s2 false) as ->.
  { assert (spawn boot = Some ready1) as Hr by (vm_compute; reflexivity).
    rewrite Hs in Hr. injection Hr as ->. vm_compute. reflexivity. }
  exact (fd_good _ _ _ _ Hd).
Qed.

Lemma step_good b (s s' : sched log) l : good s l -> step b s s' -> exists l', good s' l'.
Proof. intros Hg Hst. destruct (step_moved b s l s' Hg Hst) as (l' & H & _). by exists l'. Qed.

Lemma answers_good a (s : sched log) l : good s l -> good (with_answers a s) l.
Proof.
  intros [[H1 H2 H3] H4]. split; [split; [done|by apply cinv_world|by apply cur_ok_world]|done].
Qed.

Lemma running1_step : step true ready1 running1.
Proof. apply (step_schedule _ (Some (None, 1%nat))). vm_compute. reflexivity. Qed.
Lemma forked2_step : step false fork_ready forked2.
Proof. apply (step_fork _ X86_64 100 false 2). vm_compute. reflexivity. Qed.
Lemma running2_step : step true forked2 running2.
Proof. apply (step_schedule _ (Some (Some 1, 2)%nat)). vm_compute. reflexivity. Qed.
Lemma exited2_step : step true running2 exited2.
Proof. apply (step_exit _ 2 7 (Some (None, 1%nat))); [done|lia|]. vm_compute. reflexivity. Qed.

Lemma running1_good : exists l, good running1 l.
Proof. exact (step_good _ _ _ _ ready1_good running1_step). Qed.
Lemma fork_ready_good : exists l, good fork_ready l.
Proof.
  destruct running1_good as [l Hg]. exists l. exact (answers_good [0xB000; 0xC000; 0xD000] _ _ Hg).
Qed.
Lemma forked2_good : exists l, good forked2 l.
Proof. destruct fork_ready_good as [l Hg]. exact (step_good _ _ _ _ Hg forked2_step). Qed.
Lemma running2_good : exists l, good running2 l.
Proof. destruct forked2_good as [l Hg]. exact (step_good _ _ _ _ Hg running2_step). Qed.
Lemma exited2_good : exists l, good exited2 l.
Proof. destruct running2_good as [l Hg]. exact (step_good _ _ _ _ Hg exited2_step). Qed.

(** ** Witnesses *)

(** The process of [ready1] runs. *)
Lemma task_schedule_round_robin_witness :
  exists switch s' l' next, task_schedule ready1 = Some (switch, s') /\ scheduled ready1 [1%nat] switch s' l' next.
Proof. apply task_schedule_round_robin. exact (gd_inv _ _ ready1_good). Defined.

(** A kernel thread and a user process are created after the start, and the
    thread is scheduled. *)
Definition supplied : sched log := with_answers [0x8000; 0xA000; 0xC000] off.
Definition begun : sched log := task_init 0x10000 0x2000 supplied.
Definition threaded : sched log := Eval vm_compute in default off (snd <$> task_create_kernel_thread 0x4000 begun).
Definition peopled : sched log := Eval vm_compute in
  default off (snd <$> task_create_user_process X86_64 false 0x400000 0xFFFF800000007000 threaded).
Definition occupied : sched log := Eval vm_compute in default off (snd <$> task_schedule peopled).

Lemma occupied_run : run begun [threaded; peopled; occupied] 1.
Proof.
  apply (run_step _ _ _ 1 false); [by apply (step_thread _ 0x4000 1); vm_compute|].
  apply (run_step _ _ _ 1 false); [by apply (step_process _ X86_64 false 0x400000 0xFFFF800000007000 2); vm_compute|].
  apply (run_step _ _ _ 0 true); [|apply run_nil]. by apply (step_schedule _ (Some (None, 1%nat))); vm_compute.
Qed.


Lemma scheduler_fair_witness :
  exists s', s' ∈ [running1] /\
    (current_task (core s') = Some 1%nat \/ t_state (tget (core s') 1) = TASK_ZOMBIE \/
     t_state (tget (core s') 1) = TASK_UNUSED).
Proof.
  apply (scheduler_fair ready1 [1%nat] 0 1 [running1] 1).
  - exact ready1_good.
  - reflexivity.
  - apply (run_step _ running1 [] 0 true running1_step). apply run_nil.
  - lia.
Defined.

(** The process of [running1], which has no parent, exits. *)
Definition lost1 : sched log := Eval vm_compute in default off (snd <$> task_exit 0 running1).
Lemma exited_orphan_never_reclaimed_witness : t_state (tget (core lost1) 1) = TASK_TERMINATED.
Proof.
  destruct running1_good as [l Hg].
  apply (exited_orphan_never_reclaimed 0 running1 l 1 (Some (None, 0%nat)) lost1 [] 0 lost1 Hg).
  - reflexivity.
  - lia.
  - vm_compute. reflexivity.
  - vm_compute. reflexivity.
  - apply run_nil.
  - left.
Defined.

Lemma only_child : forall j, reapable (core exited2) 1 (-1) j <-> j = 2%nat.
Proof.
  intros j. split; [|intros ->; split_and!; [vm_compute; reflexivity..|lia]].
  intros (Hz & _). do 3 (destruct j as [|j]; [by vm_compute in Hz|]).
  exfalso. revert Hz. unfold tget. change (task_pool (core exited2)) with
    (take 3 (task_pool (core exited2)) ++ repeat null_task 253).
  rewrite lookup_app_r by (cbn; lia). by rewrite blank_block.
Qed.

(** The child of [forked2] exits with 7; the parent gets status [7 << 8]. *)
Lemma exit_wait_roundtrip_witness :
  exists s3, sys_waitpid (-1) 0 exited2 = Some (Returns 2 (Some 0x700), s3) /\
    tget (core s3) 2 = null_task.
Proof.
  destruct running2_good as [l Hg]. destruct exited2_good as [l2 Hg2].
  destruct (exit_wait_roundtrip 7 running2 l 2 1 (Some (None, 1%nat)) exited2 exited2 l2 (-1) 0)
    as (s3 & H1 & _ & H2 & _).
  - exact Hg.
  - reflexivity.
  - lia.
  - vm_compute. reflexivity.
  - vm_compute. discriminate.
  - vm_compute. discriminate.
  - vm_compute. reflexivity.
  - exact Hg2.
  - reflexivity.
  - vm_compute. reflexivity.
  - reflexivity.
  - exact only_child.
  - exists s3. exact (conj H1 H2).
Defined.

(** ** The failing fork *)

(** The page directory is cloned and the kernel stack allocated, the
    descriptor table is not. *)
Definition fork_short : sched log := Eval vm_compute in with_answers [0xB000; 0xC000; 0] running1.

(** When [sys_fork] cannot allocate the descriptor table it frees the
    child's kernel stack and page directory itself and then calls
    [task_free], which frees both again. *)
Theorem fork_failure_frees_twice :
  exists s', sys_fork X86_64 100 false fork_short = Some (u32 (-12), s') /\
    released (world (core s')) =
      [FreeDirectory 0xB000; Kfree 0xC000; FreeDirectory 0xB000; Kfree 0xC000].
Proof. eexists. split; vm_compute; reflexivity. Qed.

(** ** Synchronisation on a small history

    The witnesses of the mutex and semaphore theorems on the processes of
    [SchedulerExamples], and a history in which a wake-up is lost. *)

Definition new_mutex : mutex := Mutex 0 false 0 0.
Definition new_sem (n : Z) : semaphore := Semaphore 0 n.

(** ** Witnesses *)

(** The running process takes mutex 0 and semaphore 0. *)
Definition start1 : sys := Sys [new_mutex] [new_sem 1] running1.
Definition taken1 : sys := Sys [Mutex 0 true 1 1] [new_sem 0] running1.

Lemma start1_ok : sync_start [1] start1.
Proof.
  split; [exact running1_good|..].
  - constructor; [|constructor]. exists new_mutex. reflexivity.
  - constructor; [|constructor]. split; [by vm_compute|]. exists (new_sem 0). reflexivity.
Qed.

Lemma taken1_run : sync_run start1 [EWait 0; ELock 1 0] taken1.
Proof.
  apply (sr_step _ _ _ (Sys [Mutex 0 true 1 1] [new_sem 1] running1)).
  - apply (sr_step _ _ _ start1); [apply sr_nil|].
    apply (sy_lock [new_mutex] [new_sem 1] running1 0 new_mutex 1 Done); [done..|lia|]. vm_compute. reflexivity.
  - apply (sy_wait [Mutex 0 true 1 1] [new_sem 1] running1 0 (new_sem 1) 1 Done); [done..|lia|]. vm_compute. reflexivity.
Qed.

Lemma taken1_bound j : count_ev (is_lock j) [EWait 0; ELock 1 0] < 2 ^ 32.
Proof. rewrite !count_ev_cons. cbn [is_lock]. unfold count_ev. cbn. case_if; lia. Qed.

Lemma mutex_mutual_exclusion_witness :
  mx_owner_pid (Mutex 0 true 1 1) = 1 /\
  (forall q, 0 < holds 0 q [EWait 0; ELock 1 0] -> 1 = q).
Proof.
  destruct (mutex_mutual_exclusion [1] start1 [EWait 0; ELock 1 0] taken1 0 (Mutex 0 true 1 1))
    as (H1 & _ & H2 & _).
  - exact start1_ok.
  - exact taken1_run.
  - exact taken1_bound.
  - reflexivity.
  - split; [apply (H2 1); reflexivity|]. intros q Hq. apply (H1 1 q); [reflexivity|exact Hq].
Defined.

Lemma semaphore_balance_witness : sem_count (new_sem 0) = 1 + 0 - 1.
Proof.
  destruct (semaphore_balance [1] start1 [EWait 0; ELock 1 0] taken1 0 (new_sem 0) 1)
    as (_ & _ & H & _).
  - exact start1_ok.
  - exact taken1_run.
  - exact taken1_bound.
  - reflexivity.
  - reflexivity.
  - apply H. vm_compute. discriminate.
Defined.

(** ** A lost wake-up *)

(** Three processes, the first running. *)
Definition three : sched log := Eval vm_compute in
  default off (s ← snd <$> sys_fork X86_64 100 false (with_answers [0xB000; 0xC000; 0xD000; 0xE000; 0xF000; 0x11000] running1);
               snd <$> sys_fork X86_64 100 false s).

(** Process 1 waits on semaphore A, process 2 on semaphore B, both 0.
    Process 3 signals B and then waits on A.  Process 1, which the signal
    has woken, retries its own wait. *)
Definition lost_wakeup : option (semaphore * semaphore * sched log) :=
  '(_, A, s) ← semaphore_wait (Some (new_sem 0)) three;
  '(_, B, s) ← semaphore_wait (Some (new_sem 0)) s;
  '(B, s) ← semaphore_signal B s;
  '(_, A, s) ← semaphore_wait A s;
  '(_, A, s) ← semaphore_wait A s;
  A ← A; B ← B; Some (A, B, s).

(** A signal can be lost: [semaphore_signal] wakes the first blocked task of
    the pool, whatever it waits for.  At the end of this history semaphore B
    has count 1 and process 2, which waits for B, is still blocked; nobody is
    ready and the idle task runs. *)
Theorem semaphore_wakeup_lost :
  exists A B s', lost_wakeup = Some (A, B, s') /\
    sem_count A = 0 /\ sem_count B = 1 /\
    t_state (tget (core s') 2) = TASK_BLOCKED /\ t_sleep_until_ms (tget (core s') 2) = 0 /\
    ready_queue_head (core s') = None /\ current_task (core s') = Some 0%nat.
Proof. eexists _, _, _. split; [vm_compute; reflexivity|]. vm_compute. split_and!; reflexivity. Qed.
