(* ===== verification/FsExamples.v ===== *)
(** * The file layer on a small machine

    ramfs, the VFS, pipes and descriptors over a small allocator and a machine
    in which a process runs: the witnesses of their theorems, and the calls
    whose effect is not what the sources say. *)

From S2P Require Import Prelude Spinlock Task TaskQueue Process Sync TaskFacts TaskProps TaskSteps SyncProps FsState Pipe PipeProps.
From S2P Require Import PipeRuns Ramfs Vfs FsCalls RamfsFacts RamfsTree RamfsUnlink RamfsView RamfsProps VfsProps.
From S2P Require Import FdProps SchedulerExamples.

(** ** ramfs on a small heap

    An allocator that satisfies the laws of [ObjHeapLaws] and refuses memory
    at 64 blocks, a freshly initialised ramfs in an environment in which a
    process runs, and on them the witnesses of [RamfsProps]; then the calls
    outside the ranges of the theorems on which ramfs goes wrong. *)

(** ** The allocator: the live addresses *)

Definition top (h : gset Z) : Z := set_fold Z.max 0 h.

#[global] Instance demo_heap : ObjHeap (gset Z) := {
  oh_kmalloc r h := if decide (size h < 64)%nat then (top h + 1, {[top h + 1]} ∪ h) else (0, h);
  oh_kfree p h := h ∖ {[p]};
  oh_live h := h;
  oh_bytes p n h := replicate (Z.to_nat n) 0xCC
}.

Lemma top_bound h p : p ∈ h -> p <= top h.
Proof.
  revert p. unfold top.
  apply (set_fold_ind_L (fun b h => forall p, p ∈ h -> p <= b)).
  - intros p Hp. set_solver.
  - intros x X r Hx IH p [->%elem_of_singleton|Hp]%elem_of_union; [lia|]. specialize (IH p Hp). lia.
Qed.

Lemma top_nonneg h : 0 <= top h.
Proof. unfold top. apply (set_fold_ind_L (fun b _ => 0 <= b)); intros; lia. Qed.

#[global] Instance demo_heap_laws : ObjHeapLaws (gset Z).
Proof.
  split.
  - intros r h h'. cbn. pose proof (top_nonneg h). case_decide; intros E; simplify_eq; [lia|done].
  - intros r h p h'. cbn. pose proof (top_nonneg h). case_decide; intros E ?; simplify_eq. split_and!; [lia| |done].
    intros Hp%top_bound. lia.
  - done.
  - intros p n h Hn. cbn. rewrite length_replicate. lia.
Qed.

(** ** A small tree *)

Abbreviation demo := (fsd (gset Z) * env log)%type.

Definition blank : demo := (Fsd ∅ ∅ 0 [] 1 0 0, Env ∅ running1).
Definition run_on {A} (m : K (gset Z) log A) (s : demo) : option (A * demo) :=
  '(x, d, e) ← m s.1 s.2; Some (x, (d, e)).
Definition after {A} (m : K (gset Z) log A) (s : demo) : demo := default blank (snd <$> run_on m s).

Definition booted : demo := Eval vm_compute in after ramfs_init blank.
Definition root : Z := Eval vm_compute in default 0 (fst <$> run_on ramfs_init blank).
Definition with_file : demo := Eval vm_compute in after (ramfs_create_file root [97]) booted.
Definition file_a : Z := Eval vm_compute in default 0 (fst <$> run_on (ramfs_finddir root [97]) with_file).
Definition filled : demo := Eval vm_compute in after (ramfs_write file_a 0 [1; 2; 3; 4]) with_file.

Lemma blank_env : env_ok ∅ blank.2.
Proof.
  destruct running1_good as [l Hg]. split; [exists l, 1%nat; by split_and!|done|]. intros id Hid. set_solver.
Qed.

Lemma blank_no_ramfs : no_ramfs blank.1.
Proof. split_and!; [set_solver|done|]. intros p o Hp. cbn in Hp. by rewrite lookup_empty in Hp. Qed.

Lemma booted_ok : tree_ok [root] booted.1 /\ env_ok ∅ booted.2.
Proof.
  destruct (create_root (W := log) [] (set_inode blank.1 1 0)) as [(_ & d1 & R & _)|(r & d1 & Hr & R & _ & Ht & _)]; [apply no_ramfs_tree, blank_no_ramfs|..];
    destruct (R blank.2 blank_env) as (e1 & E & He & _); vm_compute in E; [done|].
  injection E as <- <- <-. done.
Qed.

Lemma booted_file : fs_step booted with_file.
Proof.
  exists (CCreate root [97]), (ACode 0). split.
  - split; [eexists; split; vm_compute; reflexivity|]. split; [cbn; lia|]. vm_compute. reflexivity.
  - vm_compute. reflexivity.
Qed.

Lemma filled_step : fs_step with_file filled.
Proof.
  exists (CWrite file_a 0 [1; 2; 3; 4]), (ACode 4). split; [|vm_compute; reflexivity].
  split; [eexists; split; vm_compute; reflexivity|]. cbn. lia.
Qed.

Lemma with_file_ok : tree_ok [root] with_file.1 /\ env_ok ∅ with_file.2.
Proof. destruct booted_ok. apply (fs_step_keeps [root] booted with_file); auto using booted_file. Qed.
Lemma filled_ok : tree_ok [root] filled.1 /\ env_ok ∅ filled.2.
Proof. destruct with_file_ok. apply (fs_step_keeps [root] with_file filled); auto using filled_step. Qed.

(** ** Witnesses *)

(** A second file: the name is free and memory is left, so the call succeeds. *)
Lemma ramfs_refines_witness :
  exists d' new, runs ∅ (run_call (CCreate root [98]) : K (gset Z) log _) filled.1 (ACode 0) d' /\ tree_ok [root] d' /\
    view d' root = Some (ADir (<[[98] := new]> {[ [97] := file_a ]})) /\ view d' new = Some (AFile []).
Proof.
  destruct (ramfs_refines (W := log) [root] filled.1 (CCreate root [98])) as (a & d' & R & Ht & Hs).
  - exact (proj1 filled_ok).
  - split; [eexists; split; vm_compute; reflexivity|]. split; [cbn; lia|]. vm_compute. reflexivity.
  - assert (Ev : view filled.1 root = Some (ADir {[ [97] := file_a ]})) by (vm_compute; reflexivity).
    cbn [fs_spec] in Hs. unfold add_spec in Hs. rewrite Ev in Hs.
    destruct Hs as [(_ & _ & [[q Hq]|Hoom])|(-> & _ & _ & new & Hn & _ & Hs)].
    + exfalso. vm_compute in Hq. discriminate.
    + exfalso. destruct Hoom as [H|[H|[H|[]]]]; vm_compute in H; discriminate.
    + assert (Hne : root <> new) by (intros <-; rewrite Ev in Hn; discriminate).
      exists d', new. split; [exact R|]. split; [exact Ht|]. rewrite !Hs. unfold upd.
      rewrite (decide_False _ _ Hne), !(decide_True _ _ eq_refl). split; reflexivity.
Defined.

Lemma ramfs_boot_safe_witness :
  exists a d3 e3, run_call (CRead file_a 1 2) filled.1 filled.2 = Some (a, d3, e3) /\ a = AData 2 [2; 3].
Proof.
  destruct (ramfs_boot_safe blank.1 blank.2 blank_no_ramfs blank_env) as (r & d1 & e1 & E & Hcase).
  assert (E' : Some (r, d1, e1) = Some (root, booted.1, booted.2)) by (rewrite <- E; vm_compute; reflexivity).
  injection E' as -> -> ->. destruct Hcase as [[Hr _]|(_ & _ & Hall)]; [discriminate Hr|].
  destruct (Hall filled.1 filled.2) as [_ Hc].
  - exact (rtc_l _ _ _ _ booted_file (rtc_once _ _ filled_step)).
  - destruct (Hc (CRead file_a 1 2)) as (a & d3 & e3 & R & _ & Ha).
    + split; [eexists; split; vm_compute; reflexivity|]. cbn. lia.
    + exists a, d3, e3. split; [exact R|]. rewrite Ha. vm_compute. reflexivity.
Defined.

Lemma ramfs_write_read_witness :
  exists e2, ramfs_read file_a 0 4 filled.1 filled.2 = Some ((4, [1; 2; 3; 4]), filled.1, e2).
Proof.
  destruct with_file_ok as [Ht He].
  apply (ramfs_write_read [root] with_file.1 with_file.2 file_a [] 0 [1; 2; 3; 4] 4 filled.1 filled.2 Ht He).
  - split; [eexists; split; vm_compute; reflexivity|]. cbn. lia.
  - vm_compute. reflexivity.
  - vm_compute. reflexivity.
  - lia.
Defined.

(** ** Outside the ranges *)

Section wrong.
Context {H W : Type} `{!ObjHeap H} `{!ObjHeapLaws H} `{!TaskResources W}.
Implicit Types (d : fsd H) (e : env W).

(** A read whose end wraps past 2^32 is not cut at the end of the file: for
    every file and every offset inside it, a size chosen so that the sum
    wraps makes [ramfs_read] copy bytes from behind the file's block. *)
Theorem ramfs_read_wraps d e node n f c offset size :
  data_ok d -> env_ok ∅ e -> file_at d node n f c ->
  0 <= offset < Z.of_nat (length c) -> size < 2 ^ 32 -> 2 ^ 32 <= offset + size ->
  ramfs_read node offset size d e = None.
Proof.
  intros Hd He Hf Ho Hs Hw. pose proof Hf as [H1 H2 H3 H4 H5 H6]. unfold ramfs_read.
  erewrite bind_some by (by eapply read_some). rewrite bool_decide_true by done. cbn [negb].
  rewrite (proj2 (Z.eqb_neq _ 0)) by (by eapply not_null).
  destruct (lock_mutex_ok ∅ (LObj (fn_impl n)) d e) as (e1 & E1 & _); [set_solver|done|].
  unfold with_lock. erewrite bind_some by exact E1. apply bind_none. erewrite bind_some by (by eapply read_some).
  destruct H6 as [[_ E0]|(l & E0 & El & Hl & Hc)]; [lia|].
  rewrite (proj2 (Z.eqb_neq _ 0)) by done. rewrite (proj2 (Z.leb_gt _ _)) by lia.
  assert (Hu : u32 (offset + size) = offset + size - 2 ^ 32).
  { unfold u32. rewrite <- (Z.mod_small (offset + size - 2 ^ 32) (2 ^ 32)) by lia.
    rewrite <- (Z_mod_plus_full (offset + size - 2 ^ 32) 1 (2 ^ 32)). f_equal. lia. }
  rewrite Hu, (proj2 (Z.ltb_ge _ _)) by lia. apply bind_none. unfold copy_out. erewrite bind_some by (by eapply read_some).
  rewrite (proj2 (Z.leb_gt _ _)) by lia. done.
Qed.

(** [ramfs_unlink] frees the node whoever still uses it: reading through a
    node that was looked up before its name was removed reaches freed memory. *)
Theorem ramfs_unlink_dangles roots d e node name m q c d1 e1 offset size :
  tree_ok roots d -> env_ok ∅ e -> call_ok d (CUnlink node name) ->
  view d node = Some (ADir m) -> m !! name = Some q -> view d q = Some (AFile c) ->
  ramfs_unlink node name d e = Some (0, d1, e1) ->
  ramfs_read q offset size d1 e1 = None.
Proof.
  intros Ht He [(n & Hn & Hr) _] Hv Hm Hq E. cbn [call_node] in Hn.
  destruct (ram_cases _ _ _ _ Ht Hn Hr) as [(f & c' & Hf & Ev)|(r & Hd & Ev & Hnd)]; rewrite Ev in Hv; [done|]. injection Hv as <-.
  rewrite entry_map in Hm. destruct (ramfs_find_entry r name) as [x|] eqn:F; [|done]. injection Hm as <-.
  pose proof (find_name_some _ _ _ F) as [Hx _].
  destruct (tree_entry _ _ _ _ x Ht (da_impl _ _ _ _ Hd) Hx) as [(k & Hk & Hrk) _].
  destruct (unlink_runs (W := W) roots d node n r name x k Ht Hd F Hk) as [(t & _ & _ & _ & R)|(d' & R & _ & Hu & _)];
    destruct (R e He) as (e' & E' & _); rewrite E in E'; [done|]. injection E' as <- <-.
  apply bind_none, read_none, (ul_dead _ _ _ _ _ _ Hu). by left.
Qed.

End wrong.

Lemma ramfs_read_wraps_witness : ramfs_read file_a 1 0xFFFFFFFF filled.1 filled.2 = None.
Proof.
  destruct filled_ok as [Ht He].
  destruct (ram_cases [root] filled.1 file_a (default (new_node [] 0 FS_FILE 0 0 OpsRamFile) (objs filled.1 !! file_a ≫= as_node)) Ht)
    as [(f & c & Hf & Ev)|(r & _ & Ev & _)]; [vm_compute; reflexivity..| |].
  - assert (Ec : Some (AFile c) = Some (AFile [1; 2; 3; 4])) by (rewrite <- Ev; vm_compute; reflexivity). injection Ec as ->.
    apply (ramfs_read_wraps _ _ _ _ f [1; 2; 3; 4] 1 0xFFFFFFFF (to_data _ _ Ht) He Hf); cbn; lia.
  - vm_compute in Ev. discriminate Ev.
Defined.

Definition unlinked_a : demo := Eval vm_compute in after (ramfs_unlink root [97]) filled.
Lemma ramfs_unlink_dangles_witness : ramfs_read file_a 0 4 unlinked_a.1 unlinked_a.2 = None.
Proof.
  destruct filled_ok as [Ht He].
  apply (ramfs_unlink_dangles [root] filled.1 filled.2 root [97] {[ [97] := file_a ]} file_a [1; 2; 3; 4] unlinked_a.1 unlinked_a.2 0 4 Ht He).
  - split; [eexists; split; vm_compute; reflexivity|exact I].
  - vm_compute. reflexivity.
  - vm_compute. reflexivity.
  - vm_compute. reflexivity.
  - vm_compute. reflexivity.
Defined.

(** Names are cut to 127 characters when stored but not when searched: a
    longer name is created twice, and is found by neither search. *)
Definition long_name : str := replicate 130 98.
Theorem ramfs_long_names_duplicate :
  exists s1 s2, run_on (ramfs_create_file root long_name) booted = Some (0, s1) /\
    run_on (ramfs_create_file root long_name) s1 = Some (0, s2) /\
    fst <$> run_on (ramfs_finddir root long_name) s2 = Some 0 /\
    match objs s2.1 !! (root + 1) with Some (ODir r) => ~ NoDup (re_name <$> rd_entries r) | _ => False end.
Proof.
  eexists _, _. split_and!; [vm_compute; reflexivity..|]. vm_compute. intros HN. apply list.NoDup_cons in HN as [HN _].
  apply HN. left.
Qed.

(** ** Where the file layer departs from its documentation

    Calls whose effect is not what the comments of the sources, or the
    POSIX calls they name, say. *)

Section limits.
Context {H W : Type} `{!ObjHeap H} `{!ObjHeapLaws H} `{!TaskResources W}.
Implicit Types (d : fsd H) (e : env W).
Abbreviation K := (K H W).

(** [sys_open] with [O_CREAT | O_EXCL] never opens anything: the test whether
    the file existed is made after it was created. *)
Theorem open_excl_always_fails path flags mode d e r d' e' :
  has flags O_CREAT = true -> has flags O_EXCL = true ->
  sys_open (Some path) flags mode d e = Some (r, d', e') -> r = failure.
Proof.
  intros Hc Hx. unfold sys_open, mbind, K_bind. cbn [current_table mbind option_bind]. destruct (_ =? 0); [by intros [= <- _ _]|].
  destruct (open_node path flags d e) as [[[node d1] e1]|]; cbn [mbind option_bind]; [|done].
  destruct (node =? 0); [by intros [= <- _ _]|]. rewrite Hc, Hx. cbn [andb].
  destruct (vfs_release_node node d1 e1) as [[[[] d2] e2]|]; cbn [mbind option_bind]; [|done]. by intros [= <- _ _].
Qed.

(** Truncating a file of ramfs changes the size its node reports and not its
    contents: the old bytes are still read. *)
Theorem truncate_keeps_contents roots d node c new_size :
  tree_ok roots d -> view d node = Some (AFile c) ->
  exists d', runs ∅ (vfs_truncate node new_size : K Z) d 0 d' /\ tree_ok roots d' /\
    (exists n, objs d' !! node = Some (ONode n) /\ fn_size n = new_size) /\
    runs ∅ (ramfs_read node 0 (Z.of_nat (length c)) : K _) d' (Z.of_nat (length c), c) d'.
Proof.
  intros Ht Hv. destruct (view_ram _ _ _ Hv) as (n & Hn & Hr).
  destruct (ram_cases _ _ _ _ Ht Hn Hr) as [(f & c' & Hf & Ev)|(r & _ & Ev & _)]; rewrite Ev in Hv; [|done]. injection Hv as ->.
  set (n' := n_set_size new_size n). set (d' := with_obj d node (ONode n')).
  assert (Ht' : tree_ok roots d').
  { apply (tree_relabel roots d); [done|apply kept_put; [apply (to_data _ _ Ht)|by rewrite Hn]| |].
    - cbn. rewrite dom_insert_L. apply elem_of_dom_2 in Hn. set_solver.
    - intros p o o' Hp Hp'. cbn in Hp'. destruct (decide (p = node)) as [->|E].
      + rewrite lookup_insert_eq in Hp'. rewrite Hn in Hp. injection Hp as <-. injection Hp' as <-.
        split_and!; [done|done|exact (to_local _ _ Ht _ _ Hn)|]. intros k [= <-]. by exists n'.
      + rewrite lookup_insert_ne, Hp in Hp' by done. injection Hp' as <-. split_and!; [done|done|by apply (to_local _ _ Ht p)|].
        intros k ->. by exists k. }
  pose proof Hf as [F1 F2 F3 F4 F5 F6].
  assert (Hf' : file_at d' node n' f c).
  { destruct (file_ptrs _ _ _ _ _ (to_data _ _ Ht) Hf) as (P1 & P2 & P3).
    split; [apply with_obj_lookup|done|unfold d'; by rewrite with_obj_ne by (by apply not_eq_sym)|done|done|].
    destruct F6 as [?|(l & E0 & El & ?)]; [by left|right]. exists l. split; [done|]. unfold d'. by rewrite with_obj_ne by (by apply not_eq_sym). }
  exists d'. split_and!; [|done|exists n'; split; [apply with_obj_lookup|done]|].
  - unfold vfs_truncate. rewrite (proj2 (Z.eqb_neq node 0)) by (eapply not_null; [apply (to_data _ _ Ht)|done]). rstep.
    rewrite bool_decide_true by done. cbn [negb]. eapply runs_bind; [apply runs_put|]. cbn beta. apply runs_ret.
  - pose proof (ramfs_read_spec (W := W) d' node n' f c 0 (Z.of_nat (length c)) (to_data _ _ Ht') Hf') as R.
    rewrite drop_0, Nat2Z.id, firstn_all in R. apply R; lia.
Qed.

(** Closing the last descriptor of one end of a pipe frees the pipe itself,
    which the other end still uses: a read from that end, which should give
    the bytes in the pipe and then the end of file, reaches freed memory. *)
Theorem pipe_close_frees_shared d e p rnode wnode inode q size :
  data_ok d -> env_ok ∅ e -> p <> rnode -> p <> wnode -> rnode <> wnode -> 0 < size ->
  objs d !! p = Some (OPipe q) -> pipe_ok q -> p_readers q = 1 -> p_writers q = 1 ->
  objs d !! rnode = Some (ONode (pipe_node name_pipe_read inode p 0 OpsPipeRead)) ->
  objs d !! wnode = Some (ONode (pipe_node name_pipe_write inode p 1 OpsPipeWrite)) ->
  exists d1 e1, close_node wnode d e = Some (tt, d1, e1) /\ objs d1 !! p = None /\ pipe_read rnode size d1 e1 = None.
Proof.
  intros Hd He P1 P2 P3 Hs Hp Hok Hr Hw Hrn Hwn. pose proof (not_null _ _ _ Hd Hwn) as W0. pose proof (not_null _ _ _ Hd Hp) as P0.
  set (wn := pipe_node name_pipe_write inode p 1 OpsPipeWrite) in *.
  destruct (close_last (W := W) d p q Hp Hok Hr Hw) as (q' & R & Hok').
  set (d1 := with_pipe d p q') in *.
  assert (Hwn1 : objs d1 !! wnode = Some (ONode wn)) by (unfold d1, with_pipe; by rewrite with_obj_ne by (by apply not_eq_sym)).
  set (d2 := with_obj d1 wnode (ONode (n_set_ref 0 wn))).
  set (d3 := set_heap (set_objs d2 (delete p (objs d2))) (oh_kfree p (heap d2))).
  set (d4 := set_heap (set_objs d3 (delete wnode (objs d3))) (oh_kfree wnode (heap d3))).
  assert (Rall : runs ∅ (close_node wnode : K unit) d tt d4).
  { unfold close_node. rewrite (proj2 (Z.eqb_neq wnode 0)) by done. eapply runs_bind.
    - unfold vfs_close. rewrite (proj2 (Z.eqb_neq wnode 0)) by done. rstep. cbn [wn pipe_node fn_ops]. unfold pipe_close.
      rewrite (proj2 (Z.eqb_neq wnode 0)) by done. rstep. cbn [wn pipe_node fn_impl]. rewrite (proj2 (Z.eqb_neq p 0)) by done.
      eapply runs_bind; [exact R|]. cbn beta iota. apply runs_ret.
    - cbn beta. unfold vfs_release_node. rewrite (proj2 (Z.eqb_neq wnode 0)) by done. rstep.
      change (counted wn) with true. cbn [negb].
      eapply (runs_bind _ _ _ _ true d2).
      + apply runs_lock; [set_solver|]. rstep. cbn [wn pipe_node fn_ref_count Z.ltb Z.compare].
        eapply runs_bind; [apply runs_put|]. cbn beta. apply runs_ret.
      + cbn beta iota. eapply runs_bind; [apply (runs_read _ _ _ _ (ONode (n_set_ref 0 wn))); [apply with_obj_lookup|done]|]. cbn beta.
        eapply runs_bind; [apply (runs_kfree _ p d2 (OPipe q')); [done|]|].
        { unfold d2, d1. rewrite with_obj_ne by done. apply with_pipe_lookup. }
        cbn beta. apply (runs_kfree _ wnode d3 (ONode (n_set_ref 0 wn))); [done|]. unfold d3. cbn [objs set_heap set_objs]. rewrite lookup_delete_ne by done. apply with_obj_lookup. }
  destruct (Rall e He) as (e1 & E1 & He1 & _). exists d4, e1. split; [done|].
  assert (Hgone : objs d4 !! p = None) by (cbn; rewrite lookup_delete_ne by done; apply lookup_delete_eq).
  split; [done|]. unfold pipe_read.
  assert (Hrn4 : objs d4 !! rnode = Some (ONode (pipe_node name_pipe_read inode p 0 OpsPipeRead))).
  { cbn. rewrite !lookup_delete_ne, !lookup_insert_ne by done. exact Hrn. }
  erewrite bind_some by (by eapply read_some).
  cbn [pipe_node fn_impl]. rewrite (proj2 (Z.eqb_neq p 0)) by done. rewrite (proj2 (Z.ltb_lt 0 size)) by done.
  by apply bind_none, bind_none, read_none.
Qed.

(** A descriptor opened with [O_RDONLY] can be written through: the flag is
    zero, so the test for it never holds. *)
Theorem read_only_descriptor_writes roots d tbl fd l x c b :
  open_on roots d tbl fd l x c -> fe_flags x = O_RDONLY -> fe_offset x + Z.of_nat (length b) < 2 ^ 32 - 4095 ->
  exists k d' c', (k = length b \/ write_stops d tbl fd x b k) /\ task_runs tbl (sys_write fd (Some b) : K Z) d (Z.of_nat k) d' /\
    stored_bytes (fe_offset x) k b c c' /\ view d' (fe_node x) = Some (AFile c').
Proof.
  intros Hoo Hfl Hlt. destruct (write_runs roots d tbl fd l x c b Hoo) as (k & d' & c' & _ & Hk & R & _ & Hst & Hs); [by rewrite Hfl|done|].
  exists k, d', c'. split_and!; [done|done|done|]. rewrite Hs. unfold upd. by rewrite decide_True.
Qed.

End limits.

(** ** Files, paths, descriptors and pipes on a small system

    The process of [SchedulerExamples] with a descriptor table and a ramfs as
    root, and on it the witnesses of the theorems on paths, descriptors and
    pipes; then histories in which a call does the wrong thing. *)

(** ** The system *)

(** The table of the running process. *)
Definition desk_table : Z := 0x9000.
Definition empty_table : list fd_entry := replicate 512 no_entry.

Definition desk : demo :=
  (Fsd {[ desk_table := OTable (FdTable 0 empty_table) ]} {[ desk_table ]} 0 [] 1 0 0x10000, Env ∅ running1).

Definition start_fs : K (gset Z) log Z := _ ← vfs_init; r ← ramfs_init; _ ← vfs_set_root r; mret r.
Definition mounted : demo := Eval vm_compute in after start_fs desk.
Definition top_dir : Z := Eval vm_compute in default 0 (fst <$> run_on start_fs desk).

(** The file a, and it open for reading and writing as descriptor 0. *)
Definition created : demo := Eval vm_compute in after (ramfs_create_file top_dir [97]) mounted.
Definition node_a : Z := Eval vm_compute in default 0 (fst <$> run_on (vfs_path_to_node [47; 97]) created).
Definition flags_a : Z := Z.lor O_CREAT O_RDWR.
Definition entry_a : fd_entry := FdEntry node_a 0 flags_a true.
Definition table_a : list fd_entry := <[0%nat := entry_a]> empty_table.
Definition opened : demo := Eval vm_compute in after (sys_open (Some [47; 97]) flags_a 0) mounted.

Lemma desk_env : env_ok ∅ desk.2.
Proof. exact blank_env. Qed.

Lemma desk_no_ramfs : no_ramfs desk.1.
Proof.
  assert (Hall : forall p o, objs desk.1 !! p = Some o -> p = desk_table /\ o = OTable (FdTable 0 empty_table)).
  { intros p o Hp. cbn [desk fst objs] in Hp. by apply lookup_singleton_Some in Hp as [<- <-]. }
  split_and!.
  - intros p Hp. apply elem_of_dom in Hp as [o Hp]. apply Hall in Hp as [-> _].
    change (desk_table ∈ ({[ desk_table ]} : gset Z)). by apply elem_of_singleton.
  - done.
  - intros p o Hp. by apply Hall in Hp as [_ ->].
Qed.

Lemma set_root_tree roots (d : fsd (gset Z)) r : tree_ok roots d -> tree_ok roots (set_root d r).
Proof.
  intros Ht. apply (tree_relabel roots d); [done|by destruct (to_data _ _ Ht)|done|].
  intros p o o' Hp Hp'. cbn in Hp'. rewrite Hp in Hp'. injection Hp' as <-. split_and!; [done|done|by apply (to_local _ _ Ht p)|].
  intros n ->. by exists n.
Qed.

Lemma some_triple {A B C} (a a' : A) (b b' : B) (c c' : C) : Some (a, b, c) = Some (a', b', c') -> a = a' /\ b = b' /\ c = c'.
Proof. by intros [= -> -> ->]. Qed.

Lemma mounted_ok : vfs_ok [top_dir] mounted.1 /\ env_ok ∅ mounted.2.
Proof.
  set (d0 := set_inode (set_mounts (set_root desk.1 0) []) 1 0).
  assert (Hstart : forall r d1, runs ∅ (ramfs_create (Some [47]) : K (gset Z) log Z) d0 r d1 -> runs ∅ start_fs desk.1 r (set_root d1 r)).
  { intros r d1 R. unfold start_fs, vfs_init. eapply runs_bind.
    - eapply runs_bind; [apply runs_modify|]. cbn beta. eapply runs_bind; [apply runs_mutex_init; set_solver|]. cbn beta. apply runs_mutex_init. set_solver.
    - cbn beta. eapply runs_bind; [|cbn beta; eapply runs_bind; [apply runs_modify|cbn beta; apply runs_ret]].
      eapply runs_bind; [apply runs_modify|exact R]. }
  destruct (create_root (W := log) [] d0) as [(_ & d1 & R & _)|(r & d1 & Hr & R & K1 & Ht & _)]; [apply no_ramfs_tree, desk_no_ramfs|..];
    destruct (Hstart _ _ R desk.2 desk_env) as (e1 & E & He & _).
  - vm_compute in E. done.
  - assert (E' : start_fs desk.1 desk.2 = Some (top_dir, mounted.1, mounted.2)) by (vm_compute; reflexivity).
    rewrite E in E'. apply some_triple in E' as (E1 & E2 & E3). rewrite <- E2, <- E3, <- E1. split; [|done].
    split; [by apply set_root_tree|by left|]. change (mount_table (set_root d1 r)) with (mount_table d1). rewrite (kp_mounts _ _ K1). constructor.
Qed.

Lemma created_step : fs_step mounted created.
Proof.
  exists (CCreate top_dir [97]), (ACode 0). split.
  - split; [eexists; split; vm_compute; reflexivity|]. split; [cbn; lia|]. vm_compute. reflexivity.
  - vm_compute. reflexivity.
Qed.

Lemma created_ok : vfs_ok [top_dir] created.1 /\ env_ok ∅ created.2.
Proof.
  destruct mounted_ok as [[Ht _ _] He]. destruct (fs_step_keeps [top_dir] mounted created Ht He created_step) as [Ht' He'].
  split; [|done]. split; [done|by left|constructor].
Qed.

Lemma created_table : table_at created.1 desk_table empty_table.
Proof. split; [vm_compute; reflexivity|reflexivity]. Qed.

Lemma opened_data : opened.1 = with_table created.1 desk_table table_a.
Proof. vm_compute. reflexivity. Qed.

Lemma opened_on : open_on [top_dir] opened.1 desk_table 0 table_a entry_a [].
Proof.
  rewrite opened_data. destruct created_ok as [Hv _].
  destruct (good_with_table [top_dir] created.1 desk_table empty_table table_a Hv created_table) as [Hv' Hs].
  split; [done|by apply with_table_at|done|by split|done| |done]. rewrite Hs. vm_compute. reflexivity.
Qed.

(** ** Witnesses: paths *)

Lemma vfs_path_to_node_resolves_witness :
  runs ∅ (vfs_path_to_node [47; 97] : K (gset Z) log Z) created.1 node_a created.1.
Proof.
  pose proof (vfs_path_to_node_resolves (W := log) [top_dir] created.1 [47; 97] (proj1 created_ok)) as R.
  assert (E : lookup_vfs (view created.1) (fs_root created.1) (mount_table created.1) [47; 97] = node_a) by (vm_compute; reflexivity).
  rewrite E in R. exact R.
Defined.


(** The path /a/../b//. *)
Lemma normalize_path_correct_witness : normalize_path [47; 97; 47; 46; 46; 47; 98; 47; 47; 46] 512 = Some [47; 98].
Proof.
  apply (normalize_path_correct [97; 47; 46; 46; 47; 98; 47; 47; 46]).
  split_and!; [repeat constructor; cbn; lia|cbn; lia|cbn; lia].
Defined.

(** ** Witnesses: descriptors *)

(** No chunk of a write of two bytes is refused here. *)
Lemma two_bytes_written k :
  (k <= 2)%nat -> k = 2%nat \/ write_stops opened.1 desk_table 0 entry_a [5; 6] k -> k = 2%nat.
Proof.
  intros Hk [?|(dm & R & Hrf)]; [done|]. destruct (R blank.2 blank_env eq_refl) as (e' & E & _).
  destruct k as [|[|[|k]]]; [| |done|lia]; vm_compute in E; injection E as <- _;
    destruct Hrf as [Hrf|[]]; vm_compute in Hrf; discriminate.
Qed.

Lemma sys_write_correct_witness :
  exists d' c', task_runs desk_table (sys_write 0 (Some [5; 6]) : K (gset Z) log Z) opened.1 2 d' /\
    stored_bytes 0 2 [5; 6] [] c' /\ view d' (fe_node entry_a) = Some (AFile c').
Proof.
  destruct (sys_write_correct (W := log) [top_dir] opened.1 desk_table 0 table_a entry_a [] [5; 6] opened_on) as (k & d' & c' & H1 & Hk & H2 & Ho & H3 & _).
  - vm_compute. reflexivity.
  - cbn. lia.
  - assert (k = 2%nat) as -> by (apply two_bytes_written; assumption).
    exists d', c'. split; [exact H2|]. split; [exact H3|]. exact (oo_view _ _ _ _ _ _ _ Ho).
Defined.

Lemma sys_read_correct_witness :
  task_runs desk_table (sys_read 0 true 9 : K (gset Z) log _) opened.1 (0, []) (with_table opened.1 desk_table table_a).
Proof.
  pose proof (sys_read_correct (W := log) [top_dir] opened.1 desk_table 0 table_a entry_a [] 9 opened_on) as R.
  cbn zeta in R. apply R; [vm_compute; reflexivity|lia|cbn; lia].
Defined.


(** ** Witnesses: departures *)

Definition excl : Z := Z.lor (Z.lor O_CREAT O_EXCL) O_RDWR.
Definition excl_after : demo := Eval vm_compute in after (sys_open (Some [47; 98]) excl 0) opened.

(** The file b was not there, is created, and the call fails. *)
Lemma open_excl_always_fails_witness :
  exists r, sys_open (Some [47; 98]) excl 0 opened.1 opened.2 = Some (r, excl_after.1, excl_after.2) /\ r = failure.
Proof.
  assert (E : exists r, sys_open (Some [47; 98]) excl 0 opened.1 opened.2 = Some (r, excl_after.1, excl_after.2))
    by (eexists; vm_compute; reflexivity).
  destruct E as [r E]. exists r. split; [exact E|].
  apply (open_excl_always_fails [47; 98] excl 0 opened.1 opened.2 r excl_after.1 excl_after.2); [vm_compute; reflexivity..|exact E].
Defined.

Lemma truncate_keeps_contents_witness :
  exists d', runs ∅ (vfs_truncate file_a 0 : K (gset Z) log Z) filled.1 0 d' /\
    runs ∅ (ramfs_read file_a 0 4 : K (gset Z) log _) d' (4, [1; 2; 3; 4]) d'.
Proof.
  destruct (truncate_keeps_contents (W := log) [root] filled.1 file_a [1; 2; 3; 4] 0) as (d' & H1 & _ & _ & H2).
  - exact (proj1 filled_ok).
  - vm_compute. reflexivity.
  - exists d'. split; assumption.
Defined.

Definition entry_ro : fd_entry := FdEntry node_a 0 O_RDONLY true.
Lemma read_only_on : open_on [top_dir] (with_table created.1 desk_table (<[0%nat := entry_ro]> empty_table)) desk_table 0
  (<[0%nat := entry_ro]> empty_table) entry_ro [].
Proof.
  destruct created_ok as [Hv _].
  destruct (good_with_table [top_dir] created.1 desk_table empty_table (<[0%nat := entry_ro]> empty_table) Hv created_table) as [Hv' Hs].
  split; [done|by apply with_table_at|done|by split|done| |done]. rewrite Hs. vm_compute. reflexivity.
Qed.

Lemma read_only_descriptor_writes_witness :
  exists k d' c', task_runs desk_table (sys_write 0 (Some [5]) : K (gset Z) log Z)
    (with_table created.1 desk_table (<[0%nat := entry_ro]> empty_table)) (Z.of_nat k) d' /\ stored_bytes 0 k [5] [] c'.
Proof.
  destruct (read_only_descriptor_writes (W := log) [top_dir] _ desk_table 0 _ entry_ro [] [5] read_only_on) as (k & d' & c' & _ & H1 & H2 & _).
  - reflexivity.
  - cbn. lia.
  - exists k, d', c'. split; assumption.
Defined.

(** ** Witnesses: pipes *)

(** A fresh pipe, the state of its two nodes included. *)
Definition piped : demo := Eval vm_compute in after pipe_create desk.
Definition pipe_ends : Z * Z := Eval vm_compute in default (0, 0) (default None (fst <$> run_on pipe_create desk)).
Definition pipe_at : Z := Eval vm_compute in default 0 (o ← objs piped.1 !! pipe_ends.1; n ← as_node o; Some (fn_impl n)).

Lemma piped_objs :
  objs piped.1 !! pipe_at = Some (OPipe new_pipe) /\
  objs piped.1 !! pipe_ends.1 = Some (ONode (pipe_node name_pipe_read 0x10000 pipe_at 0 OpsPipeRead)) /\
  objs piped.1 !! pipe_ends.2 = Some (ONode (pipe_node name_pipe_write 0x10000 pipe_at 1 OpsPipeWrite)).
Proof. split_and!; vm_compute; reflexivity. Qed.

Lemma piped_data : data_ok piped.1.
Proof. split; [|vm_compute; reflexivity..]. apply (bool_decide_unpack _). vm_compute. exact I. Qed.

(** A writer puts three bytes in, a reader takes two out. *)
Definition wrote : demo := Eval vm_compute in after (write_section pipe_at [7; 8; 9] false) piped.
Definition read_two : demo := Eval vm_compute in after (read_section pipe_at 2 false) wrote.

Lemma wrote_run : section_run (W := log) (write_section pipe_at [7; 8; 9] false) piped.1 (Moved 3%nat) wrote.1.
Proof. exists desk.2, wrote.2. split; [exact desk_env|]. vm_compute. reflexivity. Qed.
Lemma read_two_run : section_run (W := log) (read_section pipe_at 2 false) wrote.1 (Moved [7; 8]) read_two.1.
Proof. exists desk.2, read_two.2. split; [exact desk_env|]. vm_compute. reflexivity. Qed.

Lemma pipe_fifo_witness :
  exists p, objs read_two.1 !! pipe_at = Some (OPipe p) /\ [7; 8; 9] = [7; 8] ++ ring p /\
    exists d', runs ∅ (pipe_wait ReadEnd pipe_at : K (gset Z) log unit) read_two.1 tt d'.
Proof.
  set (s0 := Channel piped.1 [Writer [7; 8; 9] AtEntry; Reader 2 AtEntry] [] []).
  destruct (pipe_fifo (W := log) pipe_at s0 (Channel read_two.1 [Gone; Gone] [7; 8; 9] [7; 8])) as [[Hg _]|(p & H1 & H2 & _ & _ & _ & H3 & _)].
  - split_and!; [exact (proj1 piped_objs)|reflexivity|reflexivity|]. repeat constructor; cbn; done.
  - eapply (rtc_l _ _ (Channel wrote.1 [Gone; Reader 2 AtEntry] [7; 8; 9] [])).
    + exact (cs_write pipe_at piped.1 [Writer [7; 8; 9] AtEntry; Reader 2 AtEntry] 0 [] [7; 8; 9] AtEntry (Moved 3%nat) wrote.1 []
               eq_refl ltac:(done) wrote_run).
    + apply rtc_once. exact (cs_read pipe_at wrote.1 [Gone; Reader 2 AtEntry] 1 [] 2 AtEntry (Moved [7; 8]) read_two.1 [7; 8; 9]
               eq_refl ltac:(done) read_two_run).
  - exfalso. vm_compute in Hg. discriminate Hg.
  - exists p. split_and!; [exact H1|exact H2|]. cbn [ch_in ch_out] in H2. destruct H3 as [H3|(size & H3)].
    + intros E. rewrite E in H2. discriminate H2.
    + exact H3.
    + exfalso. cbn [ch_users] in H3. by rewrite !elem_of_cons, elem_of_nil in H3; destruct H3 as [|[|[]]].
Defined.

Lemma pipe_close_frees_shared_witness :
  exists d1 e1, close_node pipe_ends.2 piped.1 desk.2 = Some (tt, d1, e1) /\ objs d1 !! pipe_at = None /\
    pipe_read pipe_ends.1 4 d1 e1 = None.
Proof.
  destruct piped_objs as (H1 & H2 & H3).
  apply (pipe_close_frees_shared piped.1 desk.2 pipe_at pipe_ends.1 pipe_ends.2 0x10000 new_pipe 4);
    [exact piped_data|exact desk_env|done|done|done|lia|exact H1|exact new_pipe_ok|reflexivity|reflexivity|exact H2|exact H3].
Defined.

(** ** Two more histories *)

(** A ramfs directory has no entry for its parent and [vfs_finddir] has no
    case for it: the parent of a directory cannot be named, neither from
    inside nor by a path through it. *)
Definition with_dir : demo := Eval vm_compute in after (sys_mkdir (Some [47; 100]) 7) created.

Theorem parent_unreachable :
  run_on (sys_mkdir (Some [47; 100]) 7) created = Some (0, with_dir) /\
  (fst <$> run_on (sys_chdir [47] (Some [100])) with_dir) = Some (0, [47; 100]) /\
  (fst <$> run_on (sys_chdir [47; 100] (Some [46; 46])) with_dir) = Some (failure, [47; 100]) /\
  (fst <$> run_on (vfs_path_to_node [47; 100; 47; 46; 46; 47; 97]) with_dir) = Some 0 /\
  normalize_path [47; 100; 47; 46; 46; 47; 97] 512 = Some [47; 97].
Proof. split_and!; vm_compute; reflexivity. Qed.

(** With one descriptor left, [sys_pipe] frees the pipe with the read end and
    then closes the write end of the freed pipe. *)
Definition nearly_full : list fd_entry := no_entry :: replicate 511 entry_a.
Definition crowded : demo := Eval vm_compute in (with_table created.1 desk_table nearly_full, created.2).

Theorem pipe_failure_frees_twice :
  is_Some (run_on (fd_table_alloc desk_table node_a O_RDONLY) crowded) /\ run_on (sys_pipe true) crowded = None.
Proof. split; [eexists|]; vm_compute; reflexivity. Qed.
