(* ===== verification/NetBytes.v ===== *)
(** * Bytes of packets

    Byte order (the macros of include/net/ip.h and the static helpers of
    ethernet.c and arp.c), the windows of memory a packet occupies as lists
    of bytes, and the checksum of a window as a sum over its bytes.  A store,
    whichever routine performs it, replaces a segment of the window:
    [splice]. *)

From S2P Require Import Prelude Mem Checksum.

(** ** Byte order *)

Definition htons (x : Z) : Z := u16 (Z.lor (Z.shiftl x 8) (Z.land (Z.shiftr x 8) 0xFF)).
Definition ntohs (x : Z) : Z := htons x.

Definition htonl (x : Z) : Z :=
  u32 (Z.lor (Z.lor (Z.lor (Z.shiftl x 24) (Z.land (Z.shiftr x 8) 0xFF00))
         (Z.land (Z.shiftl x 8) 0xFF0000)) (Z.land (Z.shiftr x 24) 0xFF)).
Definition ntohl (x : Z) : Z := htonl x.

(** [eth_ntohs] and [arp_ntohs]. *)
Definition eth_ntohs (n : Z) : Z :=
  u16 (Z.lor (Z.shiftl (Z.land n 0xFF) 8) (Z.land (Z.shiftr n 8) 0xFF)).
Definition eth_htons (h : Z) : Z := eth_ntohs h.

(** An address, first octet in the lowest byte. *)
Definition IP_ADDR (a b c d : Z) : Z :=
  u32 (Z.lor (Z.lor (Z.lor (u32 a) (u32 (Z.shiftl (u32 b) 8))) (u32 (Z.shiftl (u32 c) 16)))
         (u32 (Z.shiftl (u32 d) 24))).

(** ** Windows of memory *)

Fixpoint read_bytes (m : mem) (p : Z) (n : nat) : list Z :=
  match n with
  | O => []
  | S n => rd m p :: read_bytes m (p + 1) n
  end.

(** A copy whose source is not in [m]: the MAC address of a device structure,
    a DMA buffer. *)
Fixpoint write_bytes (m : mem) (p : Z) (l : list Z) : mem :=
  match l with
  | [] => m
  | v :: l => write_bytes (wr m p v) (p + 1) l
  end.

(** Big- and little-endian bytes of a word. *)
Definition be16 (x : Z) : list Z := [x / 256; x mod 256].
Definition le16 (x : Z) : list Z := [u8 x; u8 (Z.shiftr x 8)].
Definition le32 (x : Z) : list Z := [u8 x; u8 (Z.shiftr x 8); u8 (Z.shiftr x 16); u8 (Z.shiftr x 24)].
Definition be32 (x : Z) : list Z := [u8 (Z.shiftr x 24); u8 (Z.shiftr x 16); u8 (Z.shiftr x 8); u8 x].

(** [l] replaces the segment of [w] at [k]. *)
Definition splice (k : nat) (l w : list Z) : list Z := take k w ++ l ++ drop (k + length l) w.

(** [m'] is [m] with the bytes [l] stored at [q]. *)
Definition stored (m m' : mem) (q : Z) (l : list Z) : Prop :=
  forall x, rd m' x = if (q <=? x) && (x <? q + Z.of_nat (length l)) then nth (Z.to_nat (x - q)) l 0 else rd m x.

Definition is_byte (v : Z) : Prop := 0 <= v < 256.

Lemma u8_small v : is_byte v -> u8 v = v.
Proof. unfold is_byte, u8. intros. by apply Z.mod_small. Qed.

Lemma u8_is_byte v : is_byte (u8 v).
Proof. unfold is_byte, u8. apply Z.mod_pos_bound. lia. Qed.

Lemma le16_bytes x : Forall is_byte (le16 x).
Proof. repeat constructor; apply u8_is_byte. Qed.
Lemma le32_bytes x : Forall is_byte (le32 x).
Proof. repeat constructor; apply u8_is_byte. Qed.

Lemma read_bytes_length m n : forall p, length (read_bytes m p n) = n.
Proof. induction n as [|n IH]; intros p; simpl; [done|]. by rewrite IH. Qed.

Lemma read_bytes_app m n1 n2 : forall p,
  read_bytes m p (n1 + n2) = read_bytes m p n1 ++ read_bytes m (p + Z.of_nat n1) n2.
Proof.
  induction n1 as [|n1 IH]; intros p; cbn [read_bytes Nat.add app].
  - by replace (p + Z.of_nat 0) with p by lia.
  - rewrite IH. by replace (p + 1 + Z.of_nat n1) with (p + Z.of_nat (S n1)) by lia.
Qed.

Lemma read_bytes_lookup m n : forall p i, (i < n)%nat -> read_bytes m p n !! i = Some (rd m (p + Z.of_nat i)).
Proof.
  induction n as [|n IH]; intros p i Hi; [lia|]. destruct i as [|i]; cbn [read_bytes].
  - by replace (p + Z.of_nat 0) with p by lia.
  - change ((rd m p :: read_bytes m (p + 1) n) !! S i) with (read_bytes m (p + 1) n !! i).
    rewrite IH by lia. do 2 f_equal. lia.
Qed.

Lemma read_bytes_ext m m' n p p' :
  (forall i, 0 <= i < Z.of_nat n -> rd m (p + i) = rd m' (p' + i)) -> read_bytes m p n = read_bytes m' p' n.
Proof.
  intros H. apply list_eq. intros i. destruct (decide (i < n)%nat).
  - rewrite !read_bytes_lookup by done. f_equal. apply H. lia.
  - by rewrite !lookup_ge_None_2 by (rewrite read_bytes_length; lia).
Qed.

Lemma read_bytes_bytes m n p : Forall is_byte (read_bytes m p n).
Proof. revert p. induction n as [|n IH]; intros p; cbn [read_bytes]; constructor; [apply rd_range|apply IH]. Qed.

Lemma read_bytes_take m n k p : (k <= n)%nat -> take k (read_bytes m p n) = read_bytes m p k.
Proof.
  intros Hk. replace n with (k + (n - k))%nat by lia. rewrite read_bytes_app.
  by rewrite take_app_length' by (by rewrite read_bytes_length).
Qed.

Lemma read_bytes_drop m n k p : (k <= n)%nat ->
  drop k (read_bytes m p n) = read_bytes m (p + Z.of_nat k) (n - k).
Proof.
  intros Hk. replace n with (k + (n - k))%nat at 1 by lia. rewrite read_bytes_app.
  by rewrite drop_app_length' by (by rewrite read_bytes_length).
Qed.

(** ** Stores *)

Lemma stored_rd m m' q l x v : stored m m' q l -> l !! Z.to_nat (x - q) = Some v -> q <= x -> rd m' x = v.
Proof.
  intros Hs Hl Hx. rewrite Hs. pose proof (lookup_lt_Some _ _ _ Hl).
  rewrite (proj2 (Z.leb_le _ _)), (proj2 (Z.ltb_lt _ _)) by lia. simpl. rewrite nth_lookup, Hl. done.
Qed.

Lemma stored_read m m' q l : stored m m' q l -> read_bytes m' q (length l) = l.
Proof.
  intros Hs. apply list_eq. intros i. destruct (decide (i < length l)%nat) as [Hi|Hi].
  - rewrite read_bytes_lookup by done. destruct (lookup_lt_is_Some_2 _ _ Hi) as [v Hv]. rewrite Hv. f_equal.
    apply (stored_rd m m' q l); [done| |lia]. replace (Z.to_nat (q + Z.of_nat i - q)) with i by lia. done.
  - rewrite !lookup_ge_None_2; [done|lia|rewrite read_bytes_length; lia].
Qed.

(** A store outside a window. *)
Lemma stored_other m m' q l p n : stored m m' q l ->
  p + Z.of_nat n <= q \/ q + Z.of_nat (length l) <= p -> read_bytes m' p n = read_bytes m p n.
Proof. intros Hs Hd. apply read_bytes_ext. intros i Hi. rewrite Hs. zcases. Qed.

(** A store inside a window. *)
Lemma stored_window m m' p k l n : stored m m' (p + Z.of_nat k) l -> (k + length l <= n)%nat ->
  read_bytes m' p n = splice k l (read_bytes m p n).
Proof.
  intros Hs Hn. unfold splice. replace n with (k + (length l + (n - k - length l)))%nat at 1 by lia.
  rewrite !read_bytes_app. rewrite (stored_read _ _ _ _ Hs). rewrite read_bytes_take, read_bytes_drop by lia.
  rewrite (stored_other _ _ _ _ p k Hs), (stored_other _ _ _ _ _ (n - k - length l) Hs) by lia.
  replace (p + Z.of_nat k + Z.of_nat (length l)) with (p + Z.of_nat (k + length l)) by lia.
  by replace (n - k - length l)%nat with (n - (k + length l))%nat by lia.
Qed.

Lemma stored_wr m p v : stored m (wr m p v) p [u8 v].
Proof.
  intros x. rewrite rd_wr. cbn [length]. repeat case_if; try lia; try done.
  subst. by rewrite Z.sub_diag.
Qed.

Lemma stored_wr16 m p v : stored m (wr16 m p v) p (le16 v).
Proof.
  intros x. rewrite rd_wr16. unfold le16. cbn [length].
  destruct (decide (x = p)) as [->|]; [rewrite Z.eqb_refl, Z.sub_diag; by zcases|].
  destruct (decide (x = p + 1)) as [->|]; [|zcases].
  replace (p + 1 - p) with 1 by lia. rewrite Z.eqb_refl. zcases.
Qed.

Lemma stored_wr32 m p v : stored m (wr32 m p v) p (le32 v).
Proof.
  intros x. rewrite rd_wr32. unfold le32. cbn [length].
  change (Z.of_nat 4) with 4. destruct ((p <=? x) && (x <? p + 4)) eqn:E; [|done]. zify_bool.
  assert (x - p = 0 \/ x - p = 1 \/ x - p = 2 \/ x - p = 3) as Hq by lia.
  destruct Hq as [Hq | [Hq | [Hq | Hq]]]; by rewrite Hq.
Qed.

Lemma stored_bytes m p l : Forall is_byte l -> stored m (write_bytes m p l) p l.
Proof.
  intros Hl. revert m p. induction Hl as [|v l Hv Hl IH]; intros m p x; cbn [write_bytes length].
  - zcases.
  - rewrite IH, rd_wr, (u8_small v) by done. destruct (decide (x = p)) as [->|].
    + rewrite Z.sub_diag, Z.eqb_refl. zcases.
    + destruct (decide (p < x)); [|zcases].
      replace (Z.to_nat (x - p)) with (S (Z.to_nat (x - (p + 1)))) by lia. cbn [nth]. zcases.
Qed.

Lemma stored_copied m m' d s n : copied m m' d s (Z.of_nat n) -> stored m m' d (read_bytes m s n).
Proof.
  intros Hc x. rewrite Hc, read_bytes_length. case_if; [|done].
  rewrite nth_lookup, read_bytes_lookup by lia. simpl. f_equal. lia.
Qed.

Lemma stored_filled m m' p v n : filled m m' p v (Z.of_nat n) -> stored m m' p (replicate n v).
Proof.
  intros Hf x. rewrite length_replicate. specialize (Hf x).
  destruct ((p <=? x) && (x <? p + Z.of_nat n)) eqn:E; rewrite Hf; [zify_bool|done].
  by rewrite nth_lookup, lookup_replicate_2 by lia.
Qed.

Lemma net_splice_length k l w : (k + length l <= length w)%nat -> length (splice k l w) = length w.
Proof. intros Hk. unfold splice. rewrite !length_app, length_take, length_drop. lia. Qed.

(** A store into the first part of a window. *)
Lemma net_splice_app k l w1 w2 : (k + length l <= length w1)%nat -> splice k l (w1 ++ w2) = splice k l w1 ++ w2.
Proof. intros Hk. unfold splice. rewrite take_app_le, drop_app_le by lia. by rewrite !app_assoc. Qed.

Lemma splice_app_r k l w1 w2 : (length w1 <= k)%nat ->
  splice k l (w1 ++ w2) = w1 ++ splice (k - length w1) l w2.
Proof.
  intros Hk. unfold splice. rewrite take_app_ge, drop_app_ge by lia. rewrite <- !app_assoc.
  do 4 f_equal. lia.
Qed.

Lemma splice_all l w : length l = length w -> splice 0 l w = l.
Proof. intros Hl. unfold splice. simpl. rewrite Hl, drop_all. apply app_nil_r. Qed.

(** ** Words in network order *)

Lemma lor_shifted a k b : 0 <= k -> 0 <= b < 2 ^ k -> Z.lor (Z.shiftl a k) b = a * 2 ^ k + b.
Proof.
  intros Hk Hb. assert (Z.land (Z.shiftl a k) b = 0) as E.
  { assert (b = Z.land b (Z.ones k)) as -> by (rewrite Z.land_ones by lia; by rewrite Z.mod_small).
    apply Z.bits_inj'. intros i Hi. rewrite !Z.land_spec, Z.bits_0, Z.shiftl_spec, Z.testbit_ones_nonneg by lia.
    destruct (i <? k) eqn:Eik; zify_bool; [by rewrite Z.testbit_neg_r by lia|by rewrite !andb_false_r]. }
  rewrite <- Z.lxor_lor, <- Z.add_nocarry_lxor by done. by rewrite Z.shiftl_mul_pow2.
Qed.

Lemma htons_swap x : 0 <= x < 2 ^ 16 -> htons x = x mod 256 * 256 + x / 256.
Proof.
  intros Hx. unfold htons, u16. rewrite Z.shiftr_div_pow2 by lia. change (2 ^ 8) with 256.
  change 0xFF with (Z.ones 8). rewrite Z.land_ones by lia. change (2 ^ 8) with 256.
  assert (0 <= x / 256 < 256) by (split; [apply Z.div_pos; lia|apply Z.div_lt_upper_bound; lia]).
  rewrite (Z.mod_small (x / 256)), lor_shifted by lia. change (2 ^ 8) with 256.
  pose proof (Z.div_mod x 256 ltac:(lia)). pose proof (Z.mod_pos_bound x 256 ltac:(lia)).
  replace (x * 256 + x / 256) with (x mod 256 * 256 + x / 256 + x / 256 * 2 ^ 16) by lia.
  rewrite Z.mod_add, Z.mod_small by lia. done.
Qed.

Lemma htons_range x : 0 <= htons x < 2 ^ 16.
Proof. unfold htons, u16. apply Z.mod_pos_bound. lia. Qed.

Lemma eth_ntohs_htons x : 0 <= x < 2 ^ 16 -> eth_ntohs x = htons x.
Proof.
  intros Hx. rewrite htons_swap by done. unfold eth_ntohs, u16. rewrite Z.shiftr_div_pow2 by lia.
  change 0xFF with (Z.ones 8). rewrite !Z.land_ones by lia. change (2 ^ 8) with 256.
  assert (0 <= x / 256 < 256) by (split; [apply Z.div_pos; lia|apply Z.div_lt_upper_bound; lia]).
  pose proof (Z.mod_pos_bound x 256 ltac:(lia)).
  rewrite (Z.mod_small (x / 256)), lor_shifted by lia. apply Z.mod_small. lia.
Qed.

Lemma be16_bytes x : 0 <= x < 2 ^ 16 -> Forall is_byte (be16 x).
Proof.
  intros Hx. unfold be16, is_byte. repeat constructor; try (apply Z.mod_pos_bound; lia).
  - apply Z.div_pos; lia.
  - apply Z.div_lt_upper_bound; lia.
Qed.

(** Storing [htons x] leaves the bytes of [x], most significant first. *)
Lemma le16_htons x : 0 <= x < 2 ^ 16 -> le16 (htons x) = be16 x.
Proof.
  intros Hx. rewrite htons_swap by done. unfold le16, be16, u8. rewrite Z.shiftr_div_pow2 by lia.
  change (2 ^ 8) with 256. pose proof (be16_bytes x Hx) as Hb. unfold be16, is_byte in Hb.
  apply Forall_cons_1 in Hb as [H1 Hb]. apply Forall_cons_1 in Hb as [H2 _]. f_equal; [|f_equal].
  - rewrite Z.add_comm, Z.mod_add by lia. by apply Z.mod_small.
  - rewrite Z.div_add_l, (Z.div_small (x / 256)), Z.add_0_r by lia. by apply Z.mod_small.
Qed.

(** Loading them and applying [ntohs] gives [x] back. *)
Lemma ntohs_be16 m p x : 0 <= x < 2 ^ 16 -> read_bytes m p 2 = be16 x -> ntohs (rd16 m p) = x.
Proof.
  intros Hx Hr. unfold be16 in Hr. cbn [read_bytes] in Hr. injection Hr as R0 R1.
  unfold rd16, ntohs. rewrite R0, R1. pose proof (be16_bytes x Hx) as Hb. unfold be16, is_byte in Hb.
  apply Forall_cons_1 in Hb as [H1 Hb]. apply Forall_cons_1 in Hb as [H2 _].
  rewrite htons_swap by lia. pose proof (Z.div_mod x 256 ltac:(lia)).
  replace (x / 256 + 256 * (x mod 256)) with (x / 256 + x mod 256 * 256) by lia.
  replace ((x / 256 + x mod 256 * 256) mod 256) with (x / 256).
  2:{ rewrite Z.mod_add by lia. by rewrite Z.mod_small. }
  replace ((x / 256 + x mod 256 * 256) / 256) with (x mod 256).
  2:{ rewrite Z.div_add by lia. rewrite Z.div_small by lia. lia. }
  lia.
Qed.

Lemma rd32_le32 m p x : 0 <= x < 2 ^ 32 -> read_bytes m p 4 = le32 x -> rd32 m p = x.
Proof.
  intros Hx Hr. unfold le32 in Hr. cbn [read_bytes] in Hr. injection Hr as R0 R1 R2 R3.
  replace (p + 1 + 1) with (p + 2) in * by lia. replace (p + 2 + 1) with (p + 3) in * by lia.
  unfold rd32. rewrite R0, R1, R2, R3. unfold u8. rewrite !Z.shiftr_div_pow2 by lia.
  Z.to_euclidean_division_equations. lia.
Qed.

(** ** The checksum of a window *)

(** The sum of the 16-bit words of a list of bytes, a last odd byte as the
    low byte of a word. *)
Fixpoint lsum (l : list Z) : Z :=
  match l with
  | a :: b :: r => a + 256 * b + lsum r
  | [a] => a
  | [] => 0
  end.

(** The checksum of a sum. *)
Definition csum (s : Z) : Z := default 0 (checksum_finish s).

Lemma lsum_app l1 : forall l2, Nat.even (length l1) = true -> lsum (l1 ++ l2) = lsum l1 + lsum l2.
Proof.
  induction l1 as [l1 IH] using (well_founded_induction (well_founded_ltof _ length)). intros l2 He.
  destruct l1 as [|a [|b r]]; [done|done|]. cbn [lsum app]. rewrite IH; [lia|unfold ltof; simpl; lia|done].
Qed.

Lemma wsum_lsum m n : forall p, wsum n m p = lsum (read_bytes m p (2 * n)).
Proof.
  induction n as [|n IH]; intros p; [done|]. replace (2 * S n)%nat with (S (S (2 * n))) by lia.
  cbn [wsum read_bytes lsum]. rewrite IH. unfold rd16. by replace (p + 1 + 1) with (p + 2) by lia.
Qed.

Lemma packet_sum_lsum m p n : packet_sum m p (Z.of_nat n) = lsum (read_bytes m p n).
Proof.
  unfold packet_sum. destruct (len_parity (Z.of_nat n) ltac:(lia)) as [E Hd].
  set (k := Z.to_nat (Z.of_nat n / 2)). rewrite wsum_lsum. destruct (Z.odd (Z.of_nat n)).
  - replace n with (2 * k + 1)%nat at 2 by lia. rewrite read_bytes_app, lsum_app; cycle 1.
    { rewrite read_bytes_length. by rewrite Nat.even_mul. }
    cbn [read_bytes lsum]. do 2 f_equal. lia.
  - replace n with (2 * k)%nat at 1 by lia. lia.
Qed.

Lemma lsum_range l : Forall is_byte l -> 0 <= lsum l <= 32768 * (Z.of_nat (length l) + 1).
Proof.
  induction l as [l IH] using (well_founded_induction (well_founded_ltof _ length)). intros Hl.
  destruct l as [|a [|b r]]; cbn [lsum length]; [lia|apply Forall_cons_1 in Hl as [Ha _]; unfold is_byte in Ha; lia|].
  apply Forall_cons_1 in Hl as [Ha Hl]. apply Forall_cons_1 in Hl as [Hb Hl]. unfold is_byte in *.
  specialize (IH r ltac:(unfold ltof; simpl; lia) Hl). lia.
Qed.

Lemma csum_spec s : 0 <= s < 2 ^ 32 -> checksum_finish s = Some (csum s) /\ 0 <= csum s < 2 ^ 16 /\
  (csum s + s) mod 65535 = 0 /\ (csum s = 65535 <-> s = 0).
Proof.
  intros Hs. unfold csum, checksum_finish. destruct (checksum_fold_spec s Hs) as (r & -> & Hr & Hm & Hz).
  cbn [mbind option_bind default]. rewrite complement16 by done. cbn [id].
  split; [done|]. split; [lia|]. split; [|lia].
  rewrite Zplus_mod, <- Hm, <- Zplus_mod. by replace (65535 - r + r) with 65535 by lia.
Qed.

(** The sum of a window that contains its own checksum has checksum 0. *)
Lemma csum_filled s : 0 < s < 2 ^ 31 -> csum (csum s + s) = 0.
Proof.
  intros Hs. pose proof (csum_spec s ltac:(lia)) as (_ & Hr & Hm & Hz).
  pose proof (csum_spec (csum s + s) ltac:(lia)) as (_ & Hr' & Hm' & Hz').
  rewrite Zplus_mod, Hm, Z.add_0_r, Z.mod_mod in Hm' by lia.
  destruct (decide (csum (csum s + s) = 65535)) as [E|]; [apply Hz' in E; lia|].
  rewrite Z.mod_small in Hm' by lia. done.
Qed.

Lemma checksum_window m p n : Z.of_nat n <= 65535 ->
  checksum m p (Z.of_nat n) = Some (csum (lsum (read_bytes m p n))).
Proof.
  intros Hn. unfold checksum. rewrite checksum_partial_sum, packet_sum_lsum by lia.
  apply csum_spec. pose proof (lsum_range _ (read_bytes_bytes m n p)) as Hr. rewrite read_bytes_length in Hr. lia.
Qed.

(** An accumulated sum. *)
Lemma checksum_partial_window m s p n : 0 <= s < 2 ^ 24 -> Z.of_nat n <= 65535 ->
  checksum_partial m s p (Z.of_nat n) = s + lsum (read_bytes m p n).
Proof.
  intros Hs Hn. rewrite <- packet_sum_lsum. destruct (len_parity (Z.of_nat n) ltac:(lia)) as [E Hd].
  unfold checksum_partial, packet_sum. cbv zeta. rewrite Z2Nat.id by done.
  pose proof (wsum_range (Z.to_nat (Z.of_nat n / 2)) m p). pose proof (rd_range m (p + 2 * (Z.of_nat n / 2))).
  assert (Z.of_nat n / 2 <= 32767) by (destruct (Z.odd (Z.of_nat n)); lia).
  rewrite checksum_words_sum by lia. destruct (Z.odd (Z.of_nat n)).
  - rewrite (proj2 (Z.eqb_eq _ _)) by lia. rewrite u32_small by lia. lia.
  - rewrite (proj2 (Z.eqb_neq _ _)) by lia. lia.
Qed.

(** ** Sequences of stores *)

Lemma in_range p x q : p <= x < q -> (p <=? x) && (x <? q) = true.
Proof. intros [H1 H2]. by rewrite (proj2 (Z.leb_le _ _)), (proj2 (Z.ltb_lt _ _)). Qed.

Lemma out_range p x q : ~ (p <= x < q) -> (p <=? x) && (x <? q) = false.
Proof. intros Hx. apply andb_false_iff. rewrite Z.leb_gt, Z.ltb_ge. lia. Qed.

(** Adjacent stores. *)
Lemma stored_app m m1 m2 p l1 l2 q :
  stored m m1 p l1 -> stored m1 m2 q l2 -> q = p + Z.of_nat (length l1) -> stored m m2 p (l1 ++ l2).
Proof.
  intros H1 H2 -> x. rewrite H2, H1, length_app.
  destruct (decide (p + Z.of_nat (length l1) <= x < p + Z.of_nat (length l1) + Z.of_nat (length l2))).
  - rewrite !in_range by lia. rewrite app_nth2 by lia. f_equal. lia.
  - rewrite (out_range (p + _)) by done. destruct (decide (p <= x < p + Z.of_nat (length l1))).
    + rewrite !in_range, app_nth1 by lia. done.
    + by rewrite !out_range by lia.
Qed.

(** A store over part of an earlier one. *)
Lemma stored_over m m1 m2 p l k l2 q :
  stored m m1 p l -> stored m1 m2 q l2 -> q = p + Z.of_nat k -> (k + length l2 <= length l)%nat ->
  stored m m2 p (splice k l2 l).
Proof.
  intros H1 H2 -> Hk x. rewrite H2, H1, net_splice_length by done. unfold splice.
  destruct (decide (p + Z.of_nat k <= x < p + Z.of_nat k + Z.of_nat (length l2))).
  - rewrite !in_range by lia. rewrite app_nth2, length_take by (rewrite length_take; lia).
    rewrite app_nth1 by lia. f_equal. lia.
  - rewrite (out_range (p + _)) by done.
    destruct (decide (p <= x < p + Z.of_nat (length l))); [|by rewrite !out_range by lia].
    rewrite !in_range by lia. destruct (decide (x < p + Z.of_nat k)).
    + rewrite app_nth1 by (rewrite length_take; lia). rewrite !nth_lookup, lookup_take_lt by lia. done.
    + rewrite app_nth2, app_nth2 by (rewrite ?length_take; lia). rewrite !nth_lookup, lookup_drop.
      do 2 f_equal. rewrite length_take. lia.
Qed.

Lemma stored_nil m p : stored m m p [].
Proof. intros x. cbn [length]. by rewrite out_range by lia. Qed.

(** The second store comes before the first. *)
Lemma stored_before m m1 m2 p l1 l2 q :
  stored m m1 q l2 -> stored m1 m2 p l1 -> q = p + Z.of_nat (length l1) -> stored m m2 p (l1 ++ l2).
Proof.
  intros H1 H2 -> x. rewrite H2, H1, length_app.
  destruct (decide (p <= x < p + Z.of_nat (length l1))).
  - rewrite !in_range by lia. by rewrite app_nth1 by lia.
  - rewrite (out_range p x (p + Z.of_nat (length l1))) by done.
    destruct (decide (p + Z.of_nat (length l1) <= x < p + Z.of_nat (length l1) + Z.of_nat (length l2))).
    + rewrite !in_range, app_nth2 by lia. f_equal. lia.
    + by rewrite !out_range by lia.
Qed.
