(* ===== verification/NetState.v ===== *)
(** * State of the network stack

    The data of src/net and of the E1000 driver: devices with their
    descriptor rings, the ARP cache, the routing and reassembly tables, the
    ICMP echo state and the UDP control blocks.  A queue linked through
    [next] fields is a list, a pointer to a device or a control block an
    address, 0 for NULL.  [H] is the kernel heap, [T] the state of TCP. *)

From S2P Require Import Prelude Mem HeapInterface Checksum Netbuf.

(** ** E1000 descriptor rings (include/drivers/x86/e1000.h) *)

Definition E1000_NUM_RX_DESC : Z := 32.
Definition E1000_NUM_TX_DESC : Z := 32.
Definition E1000_RX_BUFFER_SIZE : Z := 2048.

(** A descriptor with the contents of its DMA buffer, which the driver only
    reaches through the ring. *)
Record tx_desc := TxDesc { td_length : Z; td_cmd : Z; td_status : Z; td_buffer : list Z }.
Record rx_desc := RxDesc { rx_length : Z; rx_status : Z; rx_buffer : list Z }.

Record e1000_device := E1000 {
  tx_descs : list tx_desc; tx_cur : Z; reg_tdt : Z;
  rx_descs : list rx_desc; rx_cur : Z; reg_rdt : Z;
  e_rx_packets : Z; e_tx_packets : Z; e_rx_bytes : Z; e_tx_bytes : Z
}.

(** ** Devices (include/net/netdev.h) *)

Definition MAX_NETDEV : Z := 4.

Inductive netdev_state := NETDEV_DOWN | NETDEV_UP.

#[export] Instance netdev_state_eq_dec : EqDecision netdev_state.
Proof. solve_decision. Defined.

(** [nd_ops] says whether a driver with a transmit function is attached;
    [nd_priv] is its private data. *)
Record netdev := Netdev {
  nd_mac : list Z; nd_ip_addr : Z; nd_netmask : Z; nd_gateway : Z;
  nd_state : netdev_state; nd_mtu : Z;
  rx_packets : Z; tx_packets : Z; rx_bytes : Z; tx_bytes : Z;
  rx_errors : Z; tx_errors : Z; rx_dropped : Z; tx_dropped : Z;
  nd_ops : bool; nd_priv : e1000_device
}.

(** ** ARP (include/net/arp.h) *)

Definition ARP_CACHE_SIZE : nat := 32.
Definition ARP_CACHE_TIMEOUT : Z := 300000.
Definition ARP_MAX_RETRIES : Z := 3.

Inductive arp_state := ARP_STATE_FREE | ARP_STATE_PENDING | ARP_STATE_RESOLVED.

#[export] Instance arp_state_eq_dec : EqDecision arp_state.
Proof. solve_decision. Defined.

Record arp_entry := ArpEntry {
  ae_ip : Z; ae_mac : list Z; ae_timestamp : Z; ae_state : arp_state; ae_retries : Z;
  ae_pending : list netbuf
}.

(** An entry of zeros, as [memset] leaves it. *)
Definition arp_entry_zero : arp_entry := ArpEntry 0 (replicate 6 0) 0 ARP_STATE_FREE 0 [].

(** ** IP (include/net/ip.h) *)

Definition IP_REASS_MAX_ENTRIES : nat := 8.
Definition IP_REASS_TIMEOUT : Z := 30000.
Definition IP_ROUTE_MAX : nat := 16.

(** A fragment structure at [fr_self], its bytes in the block at [fr_data]. *)
Record ip_fragment := IpFragment { fr_self : Z; fr_offset : Z; fr_len : Z; fr_data : Z }.

Record ip_reassembly := IpReassembly {
  ra_src : Z; ra_dst : Z; ra_id : Z; ra_protocol : Z;
  ra_total_len : Z; ra_received_len : Z;
  ra_fragments : list ip_fragment;
  ra_timeout : Z; ra_valid : bool
}.

Definition ip_reassembly_zero : ip_reassembly := IpReassembly 0 0 0 0 0 0 [] 0 false.

Record ip_route := IpRoute {
  rt_dest : Z; rt_netmask : Z; rt_gateway : Z; rt_dev : Z; rt_metric : Z; rt_valid : bool
}.

Definition ip_route_zero : ip_route := IpRoute 0 0 0 0 0 false.

Record ip_state := IpState {
  ip_id_counter : Z;
  reass_table : list ip_reassembly;
  route_table : list ip_route
}.

(** ** ICMP (icmp.c and the ping result of net.c) *)

Record icmp_state := IcmpState {
  ping_callback : bool;
  lp_id : Z; lp_seq : Z; lp_send_time : Z; lp_waiting : bool;
  last_rtt : Z;
  pr_received : bool; pr_rtt : Z; pr_src_ip : Z
}.

(** ** UDP (include/net/udp.h) *)

(** A buffer in a receive queue, with the two fields of [netbuf_t] that only
    [udp_input] fills in. *)
Record datagram := Datagram { dg_buf : netbuf; dg_src_ip : Z; dg_src_port : Z }.

(** A callback is a function address, 0 for none. *)
Record udp_pcb := UdpPcb {
  up_local_ip : Z; up_local_port : Z; up_remote_ip : Z; up_remote_port : Z;
  up_recv_queue : list datagram; up_recv_queue_len : Z;
  up_recv_callback : Z; up_callback_arg : Z
}.

Definition udp_pcb_zero : udp_pcb := UdpPcb 0 0 0 0 [] 0 0 0.

(** The list [udp_pcbs] in order, the control blocks by address. *)
Record udp_state := UdpState {
  udp_pcbs : list Z;
  udp_objs : gmap Z udp_pcb;
  next_ephemeral_port : Z
}.

(** ** The stack *)

Record net (H T : Type) := Net {
  n_heap : H;
  n_devs : gmap Z netdev;
  n_netdevs : list Z;
  n_default : Z;
  n_arp : list arp_entry;
  n_ip : ip_state;
  n_icmp : icmp_state;
  n_udp : udp_state;
  n_tcp : T;
  n_uptime : Z
}.
Arguments Net {H T}.
Arguments n_heap {H T}. Arguments n_devs {H T}. Arguments n_netdevs {H T}. Arguments n_default {H T}.
Arguments n_arp {H T}. Arguments n_ip {H T}. Arguments n_icmp {H T}. Arguments n_udp {H T}.
Arguments n_tcp {H T}. Arguments n_uptime {H T}.

Section setters.
Context {H T : Type} `{!KHeap H}.
Implicit Types n : net H T.

Definition set_heap n h : net H T := Net h (n_devs n) (n_netdevs n) (n_default n) (n_arp n) (n_ip n) (n_icmp n) (n_udp n) (n_tcp n) (n_uptime n).
Definition set_devs n d : net H T := Net (n_heap n) d (n_netdevs n) (n_default n) (n_arp n) (n_ip n) (n_icmp n) (n_udp n) (n_tcp n) (n_uptime n).
Definition set_registry n l d : net H T := Net (n_heap n) (n_devs n) l d (n_arp n) (n_ip n) (n_icmp n) (n_udp n) (n_tcp n) (n_uptime n).
Definition set_arp n c : net H T := Net (n_heap n) (n_devs n) (n_netdevs n) (n_default n) c (n_ip n) (n_icmp n) (n_udp n) (n_tcp n) (n_uptime n).
Definition set_ip n i : net H T := Net (n_heap n) (n_devs n) (n_netdevs n) (n_default n) (n_arp n) i (n_icmp n) (n_udp n) (n_tcp n) (n_uptime n).
Definition set_icmp n i : net H T := Net (n_heap n) (n_devs n) (n_netdevs n) (n_default n) (n_arp n) (n_ip n) i (n_udp n) (n_tcp n) (n_uptime n).
Definition set_udp n u : net H T := Net (n_heap n) (n_devs n) (n_netdevs n) (n_default n) (n_arp n) (n_ip n) (n_icmp n) u (n_tcp n) (n_uptime n).
Definition set_tcp n t : net H T := Net (n_heap n) (n_devs n) (n_netdevs n) (n_default n) (n_arp n) (n_ip n) (n_icmp n) (n_udp n) t (n_uptime n).

(** The memory of the stack is that of the heap. *)
Definition n_mem n : mem := kh_mem (n_heap n).
Definition set_mem n (m : mem) : net H T := set_heap n (kh_set_mem (n_heap n) m).

(** [(uint32_t)timer_get_uptime_ms()]. *)
Definition now_ms n : Z := u32 (n_uptime n).

(** [netbuf_free] on the heap of the stack. *)
Definition free_buf n (b : netbuf) : option (net H T) := h ← netbuf_free (n_heap n) (Some b); Some (set_heap n h).

Definition set_dev_at n (d : Z) (nd : netdev) : net H T := set_devs n (<[d := nd]> (n_devs n)).

End setters.

(** A field access through a pointer: NULL faults. *)
Definition deref {A : Type} (p : Z) (k : option A) : option A := if p =? 0 then None else k.

Definition set_mac_header (b : netbuf) (p : Z) : netbuf :=
  Netbuf (nb_self b) (nb_head b) (nb_data b) (nb_tail b) (nb_end b) (nb_len b) (nb_total_size b)
    p (nb_network_header b) (nb_transport_header b) (nb_dev b) (nb_next b).
Definition set_network_header (b : netbuf) (p : Z) : netbuf :=
  Netbuf (nb_self b) (nb_head b) (nb_data b) (nb_tail b) (nb_end b) (nb_len b) (nb_total_size b)
    (nb_mac_header b) p (nb_transport_header b) (nb_dev b) (nb_next b).
Definition set_transport_header (b : netbuf) (p : Z) : netbuf :=
  Netbuf (nb_self b) (nb_head b) (nb_data b) (nb_tail b) (nb_end b) (nb_len b) (nb_total_size b)
    (nb_mac_header b) (nb_network_header b) p (nb_dev b) (nb_next b).
