(* ===== verification/Netdev.v ===== *)
(** * Network devices

    Models the transmit side of src/drivers/x86/e1000.c, the device registry
    and the transmit entry of src/net/netdev.c, and the output half and the
    address helpers of src/net/ethernet.c.  The mutexes of the device and of
    the driver are not modelled: each function is one atomic step.  While
    the driver polls a transmit descriptor the hardware is taken to make no
    progress, so a busy descriptor is a timeout. *)

From S2P Require Import Prelude Mem HeapInterface Checksum Netbuf NetBytes NetState.

(** ** The E1000 transmit ring *)

Definition E1000_TXD_STAT_DD : Z := 1.
Definition E1000_TXD_CMD : Z := Z.lor (Z.lor 1 2) 8.

Definition e1000_netdev_transmit (m : mem) (dev : e1000_device) (buf : netbuf) : option (Z * e1000_device) :=
  if (nb_len buf =? 0) || (1518 <? nb_len buf) then Some (-1, dev)
  else
    let cur := tx_cur dev in
    desc ← tx_descs dev !! Z.to_nat cur;
    if Z.land (td_status desc) E1000_TXD_STAT_DD =? 0 then Some (-1, dev)
    else
      let data := read_bytes m (nb_data buf) (Z.to_nat (nb_len buf)) in
      let desc := TxDesc (u16 (nb_len buf)) E1000_TXD_CMD 0 (splice 0 data (td_buffer desc)) in
      let next := (cur + 1) mod E1000_NUM_TX_DESC in
      Some (0, E1000 (<[Z.to_nat cur := desc]> (tx_descs dev)) next next
                 (rx_descs dev) (rx_cur dev) (reg_rdt dev)
                 (e_rx_packets dev) (u64 (e_tx_packets dev + 1))
                 (e_rx_bytes dev) (u64 (e_tx_bytes dev + nb_len buf))).

(** ** netdev.c *)

Definition set_nic (nd : netdev) (e : e1000_device) : netdev :=
  Netdev (nd_mac nd) (nd_ip_addr nd) (nd_netmask nd) (nd_gateway nd) (nd_state nd) (nd_mtu nd)
    (rx_packets nd) (tx_packets nd) (rx_bytes nd) (tx_bytes nd)
    (rx_errors nd) (tx_errors nd) (rx_dropped nd) (tx_dropped nd) (nd_ops nd) e.
Definition count_tx (nd : netdev) (packets bytes errors dropped : Z) : netdev :=
  Netdev (nd_mac nd) (nd_ip_addr nd) (nd_netmask nd) (nd_gateway nd) (nd_state nd) (nd_mtu nd)
    (rx_packets nd) (u64 (tx_packets nd + packets)) (rx_bytes nd) (u64 (tx_bytes nd + bytes))
    (rx_errors nd) (u64 (tx_errors nd + errors)) (rx_dropped nd) (u64 (tx_dropped nd + dropped))
    (nd_ops nd) (nd_priv nd).
Definition count_rx (nd : netdev) (packets bytes dropped : Z) : netdev :=
  Netdev (nd_mac nd) (nd_ip_addr nd) (nd_netmask nd) (nd_gateway nd) (nd_state nd) (nd_mtu nd)
    (u64 (rx_packets nd + packets)) (tx_packets nd) (u64 (rx_bytes nd + bytes)) (tx_bytes nd)
    (rx_errors nd) (tx_errors nd) (u64 (rx_dropped nd + dropped)) (tx_dropped nd)
    (nd_ops nd) (nd_priv nd).
Definition set_addrs (nd : netdev) (ip netmask gateway : Z) : netdev :=
  Netdev (nd_mac nd) ip netmask gateway (nd_state nd) (nd_mtu nd)
    (rx_packets nd) (tx_packets nd) (rx_bytes nd) (tx_bytes nd)
    (rx_errors nd) (tx_errors nd) (rx_dropped nd) (tx_dropped nd) (nd_ops nd) (nd_priv nd).

Section netdev.
Context (a : arch) {H T : Type} `{!KHeap H}.
Implicit Types n : net H T.

Definition netdev_init n : net H T := set_registry n [] 0.

Definition netdev_register n (dev : Z) : Z * net H T :=
  if dev =? 0 then (-1, n)
  else if MAX_NETDEV <=? Z.of_nat (length (n_netdevs n)) then (-1, n)
  else if existsb (Z.eqb dev) (n_netdevs n) then (-1, n)
  else
    let l := n_netdevs n ++ [dev] in
    (0, set_registry n l (if n_default n =? 0 then dev else n_default n)).

(** The first occurrence of [dev] is removed and the rest moved up. *)
Fixpoint remove_dev (dev : Z) (l : list Z) : list Z :=
  match l with
  | [] => []
  | d :: l => if d =? dev then l else d :: remove_dev dev l
  end.

Definition netdev_unregister n (dev : Z) : Z * net H T :=
  if dev =? 0 then (-1, n)
  else if negb (existsb (Z.eqb dev) (n_netdevs n)) then (-1, n)
  else
    let def := if n_default n =? dev then 0 else n_default n in
    let l := remove_dev dev (n_netdevs n) in
    (0, set_registry n l (if def =? 0 then default 0 (head l) else def)).

Definition netdev_get_default n : Z := n_default n.
Definition netdev_set_default n (dev : Z) : net H T := set_registry n (n_netdevs n) dev.

(** The devices stored through [devs], in order. *)
Definition netdev_get_all n (max_count : Z) : list Z :=
  if max_count <=? 0 then [] else take (Z.to_nat max_count) (n_netdevs n).

Definition netdev_set_ipaddr n (dev ip : Z) : option (net H T) :=
  if dev =? 0 then Some n
  else nd ← n_devs n !! dev; Some (set_dev_at n dev (set_addrs nd ip (nd_netmask nd) (nd_gateway nd))).
Definition netdev_set_netmask n (dev netmask : Z) : option (net H T) :=
  if dev =? 0 then Some n
  else nd ← n_devs n !! dev; Some (set_dev_at n dev (set_addrs nd (nd_ip_addr nd) netmask (nd_gateway nd))).
Definition netdev_set_gateway n (dev gateway : Z) : option (net H T) :=
  if dev =? 0 then Some n
  else nd ← n_devs n !! dev; Some (set_dev_at n dev (set_addrs nd (nd_ip_addr nd) (nd_netmask nd) gateway)).

Definition netdev_transmit n (dev : Z) (buf : netbuf) : option (Z * net H T) :=
  if dev =? 0 then Some (-1, n)
  else
    nd ← n_devs n !! dev;
    if bool_decide (nd_state nd <> NETDEV_UP) then Some (-1, set_dev_at n dev (count_tx nd 0 0 0 1))
    else if negb (nd_ops nd) then Some (-1, set_dev_at n dev (count_tx nd 0 0 1 0))
    else
      '(ret, e) ← e1000_netdev_transmit (n_mem n) (nd_priv nd) buf;
      let nd := set_nic nd e in
      let nd := if ret <? 0 then count_tx nd 0 0 1 0 else count_tx nd 1 (nb_len buf) 0 0 in
      Some (ret, set_dev_at n dev nd).

(** ** ethernet.c *)

Definition ETH_HEADER_LEN : Z := 14.
Definition ETH_TYPE_IP : Z := 0x0800.
Definition ETH_TYPE_ARP : Z := 0x0806.
Definition ETH_TYPE_IPV6 : Z := 0x86DD.
Definition ETH_BROADCAST_ADDR : list Z := replicate 6 0xFF.
Definition ETH_ZERO_ADDR : list Z := replicate 6 0.

(** [memcmp] of two 6-byte addresses: the first difference. *)
Fixpoint mac_addr_cmp (x y : list Z) : Z :=
  match x, y with
  | b :: x, c :: y => if b =? c then mac_addr_cmp x y else b - c
  | _, _ => 0
  end.

Definition mac_addr_is_broadcast (addr : list Z) : bool := mac_addr_cmp addr ETH_BROADCAST_ADDR =? 0.
Definition mac_addr_is_multicast (addr : list Z) : bool := negb (Z.land (nth 0 addr 0) 0x01 =? 0).
Definition mac_addr_is_zero (addr : list Z) : bool := mac_addr_cmp addr ETH_ZERO_ADDR =? 0.

Definition mac_at (m : mem) (p : Z) : list Z := read_bytes m p 6.

(** Every caller passes an array for [dst_mac], and frees the buffer itself
    when the result is negative. *)
Definition ethernet_output n (dev : Z) (buf : netbuf) (dst_mac : list Z) (type : Z) : option (Z * net H T) :=
  if dev =? 0 then Some (-1, n)
  else
    nd ← n_devs n !! dev;
    match netbuf_push a (Some buf) ETH_HEADER_LEN with
    | (header_ptr, Some buf) =>
        if header_ptr =? 0 then Some (-1, n)
        else
          let eth := nb_data buf in
          let m := n_mem n in
          let m := write_bytes m eth dst_mac in
          let m := write_bytes m (eth + 6) (nd_mac nd) in
          let m := wr16 m (eth + 12) (eth_htons type) in
          netdev_transmit (set_mem n m) dev (set_mac_header buf eth)
    | (_, None) => None
    end.

End netdev.
