(* ===== verification/Arp.v ===== *)
(** * ARP

    Models src/net/arp.c.  A cache entry is named by its index; the pending
    queue of an entry is a list of buffers.  The sections under
    [arp_cache_lock] contain no second acquisition of it and are modelled as
    atomic. *)

From S2P Require Import Prelude Mem HeapInterface Checksum Netbuf NetBytes NetState Netdev.

Definition ARP_HARDWARE_ETHERNET : Z := 1.
Definition ARP_PROTOCOL_IP : Z := 0x0800.
Definition ARP_OP_REQUEST : Z := 1.
Definition ARP_OP_REPLY : Z := 2.
Definition sizeof_arp_header : Z := 28.

(** ** Entries *)

Definition set_pending (e : arp_entry) (q : list netbuf) : arp_entry :=
  ArpEntry (ae_ip e) (ae_mac e) (ae_timestamp e) (ae_state e) (ae_retries e) q.
Definition set_timestamp (e : arp_entry) (t : Z) : arp_entry :=
  ArpEntry (ae_ip e) (ae_mac e) t (ae_state e) (ae_retries e) (ae_pending e).
Definition set_arp_state (e : arp_entry) (s : arp_state) : arp_entry :=
  ArpEntry (ae_ip e) (ae_mac e) (ae_timestamp e) s (ae_retries e) (ae_pending e).

(** The scan of [arp_cache_find_free]: the first free entry, else the first
    one with the smallest timestamp below [oldest_time]. *)
Fixpoint find_free_from (i : nat) (l : list arp_entry) (oldest : option nat) (oldest_time : Z) : option nat :=
  match l with
  | [] => oldest
  | e :: l =>
      if bool_decide (ae_state e = ARP_STATE_FREE) then Some i
      else if ae_timestamp e <? oldest_time then find_free_from (S i) l (Some i) (ae_timestamp e)
      else find_free_from (S i) l oldest oldest_time
  end.

Definition arp_cache_find_free (c : list arp_entry) : option nat := find_free_from 0 c None 0xFFFFFFFF.

(** The test of the scan in [arp_cache_find]. *)
Definition arp_live_for (ip : Z) (e : arp_entry) : bool :=
  bool_decide (ae_state e <> ARP_STATE_FREE) && (ae_ip e =? ip).

Definition arp_cache_find (c : list arp_entry) (ip : Z) : option nat :=
  fst <$> list_find (fun e => arp_live_for ip e = true) c.

Section arp.
Context (a : arch) {H T : Type} `{!KHeap H}.
Implicit Types n : net H T.

Definition upd_arp n (i : nat) (f : arp_entry -> arp_entry) : net H T := set_arp n (alter f i (n_arp n)).

(** ** The pending queue *)

Fixpoint send_queue n (dev : Z) (mac : list Z) (q : list netbuf) : option (net H T) :=
  match q with
  | [] => Some n
  | buf :: q =>
      '(ret, n) ← ethernet_output a n dev buf mac ETH_TYPE_IP;
      n ← (if ret <? 0 then free_buf n buf else Some n);
      send_queue n dev mac q
  end.

Definition arp_send_pending n (i : nat) (dev : Z) : option (net H T) :=
  e ← n_arp n !! i;
  n ← send_queue n dev (ae_mac e) (ae_pending e);
  Some (upd_arp n i (fun e => set_pending e [])).

Fixpoint free_queue n (q : list netbuf) : option (net H T) :=
  match q with
  | [] => Some n
  | buf :: q => n ← free_buf n buf; free_queue n q
  end.

Definition arp_free_pending n (i : nat) : option (net H T) :=
  e ← n_arp n !! i;
  n ← free_queue n (ae_pending e);
  Some (upd_arp n i (fun e => set_pending e [])).

Definition arp_init n : net H T := set_arp n (replicate ARP_CACHE_SIZE arp_entry_zero).

(** ** Requests and replies *)

(** The packet both build: [op], the device as sender, the given target. *)
Definition fill_arp (m : mem) (arp : Z) (nd : netdev) (op : Z) (target_mac : list Z) (target_ip : Z) : mem :=
  let m := wr16 m arp (eth_htons ARP_HARDWARE_ETHERNET) in
  let m := wr16 m (arp + 2) (eth_htons ARP_PROTOCOL_IP) in
  let m := wr m (arp + 4) 6 in
  let m := wr m (arp + 5) 4 in
  let m := wr16 m (arp + 6) (eth_htons op) in
  let m := write_bytes m (arp + 8) (nd_mac nd) in
  let m := wr32 m (arp + 14) (nd_ip_addr nd) in
  let m := write_bytes m (arp + 18) target_mac in
  wr32 m (arp + 24) target_ip.

Definition send_arp n (dev op : Z) (target_mac dst_mac : list Z) (target_ip : Z) : option (Z * net H T) :=
  if dev =? 0 then Some (-1, n)
  else
    '(buf, h) ← netbuf_alloc a (n_heap n) sizeof_arp_header;
    let n := set_heap n h in
    match buf with
    | None => Some (-1, n)
    | Some buf =>
        nd ← n_devs n !! dev;
        match netbuf_put a (Some buf) sizeof_arp_header with
        | (data, Some buf) =>
            deref data (
              let n := set_mem n (fill_arp (n_mem n) data nd op target_mac target_ip) in
              '(ret, n) ← ethernet_output a n dev buf dst_mac ETH_TYPE_ARP;
              n ← (if ret <? 0 then free_buf n buf else Some n);
              Some (ret, n))
        | (_, None) => None
        end
    end.

(** The target's address is unknown and set to zero; the frame goes to all. *)
Definition arp_request n (dev target_ip : Z) : option (Z * net H T) :=
  send_arp n dev ARP_OP_REQUEST ETH_ZERO_ADDR ETH_BROADCAST_ADDR target_ip.

Definition arp_reply n (dev target_ip : Z) (target_mac : list Z) : option (Z * net H T) :=
  send_arp n dev ARP_OP_REPLY target_mac target_mac target_ip.

(** ** The cache *)

Definition arp_cache_update n (ip : Z) (mac : list Z) : option (net H T) :=
  if mac_addr_is_zero mac then Some n
  else
    let slot :=
      match arp_cache_find (n_arp n) ip with
      | Some i => Some (i, n)
      | None =>
          i ← arp_cache_find_free (n_arp n);
          Some (i, upd_arp n i (fun e => ArpEntry ip (ae_mac e) (ae_timestamp e) (ae_state e) (ae_retries e) []))
      end in
    match slot with
    | None => Some n
    | Some (i, n) =>
        e ← n_arp n !! i;
        let had_pending := bool_decide (ae_state e = ARP_STATE_PENDING) && negb (bool_decide (ae_pending e = [])) in
        let dev := netdev_get_default n in
        let n := upd_arp n i (fun e => ArpEntry (ae_ip e) mac (now_ms n) ARP_STATE_RESOLVED 0 (ae_pending e)) in
        if had_pending && negb (dev =? 0) then arp_send_pending n i dev else Some n
    end.

Definition arp_cache_add_static n (ip : Z) (mac : list Z) : option (Z * net H T) :=
  n ← arp_cache_update n ip mac; Some (0, n).

Definition arp_input n (dev : Z) (buf : netbuf) : option (net H T) :=
  if dev =? 0 then Some n
  else if nb_len buf <? sizeof_arp_header then free_buf n buf
  else
    let arp := nb_data buf in
    let m := n_mem n in
    if negb (eth_ntohs (rd16 m arp) =? ARP_HARDWARE_ETHERNET) || negb (eth_ntohs (rd16 m (arp + 2)) =? ARP_PROTOCOL_IP)
       || negb (rd m (arp + 4) =? 6) || negb (rd m (arp + 5) =? 4)
    then free_buf n buf
    else
      let op := eth_ntohs (rd16 m (arp + 6)) in
      n ← arp_cache_update n (rd32 m (arp + 14)) (mac_at m (arp + 8));
      let m := n_mem n in
      nd ← n_devs n !! dev;
      if negb (rd32 m (arp + 24) =? nd_ip_addr nd) then free_buf n buf
      else
        '(_, n) ← (if op =? ARP_OP_REQUEST then arp_reply n dev (rd32 m (arp + 14)) (mac_at m (arp + 8))
                   else Some (0, n));
        free_buf n buf.

(** The address is the one copied out, when the result is 0. *)
Definition arp_resolve n (dev ip : Z) : option (Z * list Z * net H T) :=
  if dev =? 0 then Some (-2, [], n)
  else
    let known :=
      i ← arp_cache_find (n_arp n) ip;
      e ← n_arp n !! i;
      match ae_state e with
      | ARP_STATE_RESOLVED => Some (0, ae_mac e, upd_arp n i (fun e => set_timestamp e (now_ms n)))
      | ARP_STATE_PENDING => Some (-1, [], n)
      | ARP_STATE_FREE => None
      end in
    match known with
    | Some r => Some r
    | None =>
        n ← match arp_cache_find_free (n_arp n) with
            | None => Some n
            | Some i =>
                n ← arp_free_pending n i;
                Some (upd_arp n i (fun _ => ArpEntry ip (replicate 6 0) (now_ms n) ARP_STATE_PENDING 0 []))
            end;
        '(_, n) ← arp_request n dev ip;
        Some (-1, [], n)
    end.

Definition arp_cache_lookup n (ip : Z) : option (list Z) :=
  i ← arp_cache_find (n_arp n) ip;
  e ← n_arp n !! i;
  if bool_decide (ae_state e = ARP_STATE_RESOLVED) then Some (ae_mac e) else None.

Definition arp_cache_delete n (ip : Z) : option (Z * net H T) :=
  match arp_cache_find (n_arp n) ip with
  | None => Some (-1, n)
  | Some i => n ← arp_free_pending n i; Some (0, upd_arp n i (fun _ => arp_entry_zero))
  end.

(** One turn of the loop of [arp_cache_cleanup]. *)
Definition cleanup_entry n (now : Z) (i : nat) : option (net H T) :=
  e ← n_arp n !! i;
  match ae_state e with
  | ARP_STATE_RESOLVED =>
      Some (if ARP_CACHE_TIMEOUT <? u32 (now - ae_timestamp e) then upd_arp n i (fun e => set_arp_state e ARP_STATE_FREE) else n)
  | ARP_STATE_PENDING =>
      if ARP_MAX_RETRIES <=? ae_retries e then
        n ← arp_free_pending n i; Some (upd_arp n i (fun e => set_arp_state e ARP_STATE_FREE))
      else Some n
  | ARP_STATE_FREE => Some n
  end.

Fixpoint for_entries (f : net H T -> nat -> option (net H T)) (idx : list nat) n : option (net H T) :=
  match idx with
  | [] => Some n
  | i :: idx => n ← f n i; for_entries f idx n
  end.

Definition arp_cache_cleanup n : option (net H T) :=
  for_entries (fun n' => cleanup_entry n' (now_ms n)) (seq 0 ARP_CACHE_SIZE) n.

Definition arp_cache_clear n : option (net H T) :=
  for_entries (fun n i => n ← arp_free_pending n i; Some (upd_arp n i (fun _ => arp_entry_zero))) (seq 0 ARP_CACHE_SIZE) n.

Definition arp_cache_count n : Z :=
  Z.of_nat (length (filter (fun e => ae_state e <> ARP_STATE_FREE) (n_arp n))).

Definition arp_cache_get_entry n (index : Z) : option (Z * list Z * arp_state) :=
  if (index <? 0) || (Z.of_nat ARP_CACHE_SIZE <=? index) then None
  else
    e ← n_arp n !! Z.to_nat index;
    if bool_decide (ae_state e = ARP_STATE_FREE) then None else Some (ae_ip e, ae_mac e, ae_state e).

Definition arp_queue_packet n (ip : Z) (buf : netbuf) : Z * net H T :=
  let queued :=
    i ← arp_cache_find (n_arp n) ip;
    e ← n_arp n !! i;
    if bool_decide (ae_state e = ARP_STATE_PENDING) then Some (upd_arp n i (fun e => set_pending e (ae_pending e ++ [buf])))
    else None in
  match queued with Some n => (0, n) | None => (-1, n) end.

End arp.
