(* ===== verification/Ip.v ===== *)
(** * IPv4: routing, output, addresses, reassembly

    Models src/net/ip.c except its input function, which dispatches to the
    protocols above and is in [NetInput], and the printing of the tables.
    [n_ip] holds the reassembly table, the route table and the identification
    counter. *)

From S2P Require Import Prelude Mem HeapInterface Checksum Netbuf NetBytes NetState Netdev Arp.

Definition IP_VERSION_4 : Z := 4.
Definition IP_HEADER_MIN_LEN : Z := 20.
Definition IP_DEFAULT_TTL : Z := 64.
Definition IP_PROTO_ICMP : Z := 1.
Definition IP_PROTO_TCP : Z := 6.
Definition IP_PROTO_UDP : Z := 17.
Definition IP_FLAG_DF : Z := 0x4000.
Definition IP_FLAG_MF : Z := 0x2000.
Definition IP_FRAG_OFFSET_MASK : Z := 0x1FFF.

(** [sizeof(ip_fragment_t)], padding included. *)
Definition sizeof_ip_fragment (a : arch) : Z := match a with I686 => 12 | X86_64 | ARM64 => 24 end.

Definition ip_header_len (m : mem) (ip : Z) : Z := u8 (Z.land (rd m ip) 0x0F * 4).
Definition ip_version (m : mem) (ip : Z) : Z := Z.land (Z.shiftr (rd m ip) 4) 0x0F.

Definition ip_checksum (m : mem) (header len : Z) : option Z := checksum m header len.

(** ** Addresses *)

(** The digits of one number: value, how many there were, what follows. *)
Fixpoint parse_octet (fuel : nat) (m : mem) (p v count : Z) : option (Z * Z * Z) :=
  match fuel with
  | O => None
  | S fuel =>
      let c := rd m p in
      if (48 <=? c) && (c <=? 57) then parse_octet fuel m (p + 1) (u32 (v * 10 + (c - 48))) (count + 1)
      else Some (v, count, p)
  end.

(** 0 and the address, or -1. *)
Definition str_to_ip (fuel : nat) (m : mem) (str : Z) : option (Z * Z) :=
  if str =? 0 then Some (-1, 0)
  else
    '(a, count, p) ← parse_octet fuel m str 0 0;
    if negb (rd m p =? 46) || (255 <? a) || (count =? 0) then Some (-1, 0) else
    '(b, count, p) ← parse_octet fuel m (p + 1) 0 0;
    if negb (rd m p =? 46) || (255 <? b) || (count =? 0) then Some (-1, 0) else
    '(c, count, p) ← parse_octet fuel m (p + 1) 0 0;
    if negb (rd m p =? 46) || (255 <? c) || (count =? 0) then Some (-1, 0) else
    '(d, count, p) ← parse_octet fuel m (p + 1) 0 0;
    if (255 <? d) || (count =? 0) then Some (-1, 0) else
    if negb (rd m p =? 0) then Some (-1, 0) else
    Some (0, IP_ADDR a b c d).

Definition ip_same_subnet (ip1 ip2 netmask : Z) : bool := Z.land ip1 netmask =? Z.land ip2 netmask.

(** The next hop through a device that exists. *)
Definition ip_get_next_hop (nd : netdev) (dst_ip : Z) : Z :=
  if ip_same_subnet (nd_ip_addr nd) dst_ip (nd_netmask nd) then dst_ip
  else if negb (nd_gateway nd =? 0) then nd_gateway nd
  else dst_ip.

(** ** Routes *)

(** while (mask) { mask_len += (mask & 1); mask >>= 1; } *)
Fixpoint ones_of (p : positive) : Z :=
  match p with
  | xH => 1
  | xO p => ones_of p
  | xI p => 1 + ones_of p
  end.
Definition mask_len (mask : Z) : Z := match mask with Zpos p => ones_of p | _ => 0 end.

(** The locals of the search: device, mask, gateway and metric. *)
Record best_route := BestRoute { br_dev : Z; br_mask : Z; br_gateway : Z; br_metric : Z }.

Definition route_matches (dst_ip : Z) (r : ip_route) : bool :=
  rt_valid r && (Z.land dst_ip (rt_netmask r) =? rt_dest r).

Definition route_step (dst_ip : Z) (best : best_route) (r : ip_route) : best_route :=
  if route_matches dst_ip r then
    let better :=
      if br_dev best =? 0 then true
      else if mask_len (br_mask best) <? mask_len (rt_netmask r) then true
      else (mask_len (rt_netmask r) =? mask_len (br_mask best)) && (rt_metric r <? br_metric best) in
    if better then BestRoute (rt_dev r) (rt_netmask r) (rt_gateway r) (rt_metric r) else best
  else best.

Definition route_search (dst_ip : Z) (t : list ip_route) : best_route :=
  fold_left (route_step dst_ip) t (BestRoute 0 0 0 0xFFFFFFFF).

(** The update in place of an existing route, else the first free entry. *)
Definition route_insert (t : list ip_route) (dest netmask gateway dev metric : Z) : Z * list ip_route :=
  match list_find (fun r => rt_valid r = true /\ rt_dest r = dest /\ rt_netmask r = netmask) t with
  | Some (i, r) => (0, <[i := IpRoute (rt_dest r) (rt_netmask r) gateway dev metric (rt_valid r)]> t)
  | None =>
      match list_find (fun r => rt_valid r = false) t with
      | Some (i, _) => (0, <[i := IpRoute dest netmask gateway dev metric true]> t)
      | None => (-1, t)
      end
  end.

Definition route_delete (t : list ip_route) (dest netmask : Z) : Z * list ip_route :=
  match list_find (fun r => rt_valid r = true /\ rt_dest r = dest /\ rt_netmask r = netmask) t with
  | Some (i, r) =>
      (0, <[i := IpRoute (rt_dest r) (rt_netmask r) (rt_gateway r) (rt_dev r) (rt_metric r) false]> t)
  | None => (-1, t)
  end.

(** ** Fragments *)

(** The insertion into the list sorted by offset; [None] for a duplicate. *)
Fixpoint insert_fragment (f : ip_fragment) (l : list ip_fragment) : option (list ip_fragment) :=
  match l with
  | [] => Some [f]
  | g :: l' =>
      if fr_offset g <? fr_offset f then l' ← insert_fragment f l'; Some (g :: l')
      else if (fr_offset g =? fr_offset f) && (fr_len g =? fr_len f) then None
      else Some (f :: l)
  end.

(** The check for holes: the end of the last fragment. *)
Fixpoint fragments_end (expected_offset : Z) (l : list ip_fragment) : option Z :=
  match l with
  | [] => Some expected_offset
  | f :: l => if negb (fr_offset f =? expected_offset) then None else fragments_end (u16 (expected_offset + fr_len f)) l
  end.

(** memcpy(dest + f->offset, f->data, f->len) for every fragment. *)
Fixpoint copy_fragments (a : arch) (m : mem) (dest : Z) (l : list ip_fragment) : mem :=
  match l with
  | [] => m
  | f :: l => copy_fragments a (memcpy m (uptr a (dest + fr_offset f)) (fr_data f) (Z.to_nat (fr_len f))) dest l
  end.

Section ip.
Context (a : arch) {H T : Type} `{!KHeap H}.
Implicit Types n : net H T.

Definition set_routes n (t : list ip_route) : net H T :=
  set_ip n (IpState (ip_id_counter (n_ip n)) (reass_table (n_ip n)) t).
Definition set_reass n (t : list ip_reassembly) : net H T :=
  set_ip n (IpState (ip_id_counter (n_ip n)) t (route_table (n_ip n))).
Definition set_entry n (i : nat) (r : ip_reassembly) : net H T := set_reass n (<[i := r]> (reass_table (n_ip n))).

Definition ip_init n : net H T :=
  set_ip n (IpState 0 (replicate IP_REASS_MAX_ENTRIES ip_reassembly_zero) (replicate IP_ROUTE_MAX ip_route_zero)).

Definition ip_route_add n (dest netmask gateway dev metric : Z) : Z * net H T :=
  let '(ret, t) := route_insert (route_table (n_ip n)) dest netmask gateway dev metric in (ret, set_routes n t).
Definition ip_route_del n (dest netmask : Z) : Z * net H T :=
  let '(ret, t) := route_delete (route_table (n_ip n)) dest netmask in (ret, set_routes n t).

(** The device (0 for none) and the next hop. *)
Definition ip_route_lookup n (dst_ip : Z) : option (Z * Z) :=
  let best := route_search dst_ip (route_table (n_ip n)) in
  if negb (br_dev best =? 0) then
    Some (br_dev best, if negb (br_gateway best =? 0) then br_gateway best else dst_ip)
  else
    let dev := netdev_get_default n in
    if dev =? 0 then Some (0, dst_ip)
    else
      nd ← n_devs n !! dev;
      Some (dev, if ip_same_subnet (nd_ip_addr nd) dst_ip (nd_netmask nd) then dst_ip
                 else if negb (nd_gateway nd =? 0) then nd_gateway nd else dst_ip).

(** ** Output *)

(** The header [ip_output] writes, up to its checksum. *)
Definition fill_ip (m : mem) (ip len id protocol src dst : Z) : mem :=
  let m := wr m ip (Z.lor (Z.shiftl IP_VERSION_4 4) (IP_HEADER_MIN_LEN / 4)) in
  let m := wr m (ip + 1) 0 in
  let m := wr16 m (ip + 2) (htons len) in
  let m := wr16 m (ip + 4) (htons id) in
  let m := wr16 m (ip + 6) (htons IP_FLAG_DF) in
  let m := wr m (ip + 8) IP_DEFAULT_TTL in
  let m := wr m (ip + 9) protocol in
  let m := wr16 m (ip + 10) 0 in
  let m := wr32 m (ip + 12) src in
  wr32 m (ip + 16) dst.

(** From the filled header on: resolve the next hop, send or queue. *)
Definition ip_send n (dev next_hop : Z) (buf : netbuf) : option (Z * net H T) :=
  '(ret, dst_mac, n) ← arp_resolve a n dev next_hop;
  if ret =? 0 then ethernet_output a n dev buf dst_mac ETH_TYPE_IP
  else if ret =? -1 then
    let '(queued, n) := arp_queue_packet n next_hop buf in
    if queued =? 0 then Some (0, n)
    else
      match arp_cache_lookup n next_hop with
      | Some dst_mac => ethernet_output a n dev buf dst_mac ETH_TYPE_IP
      | None => Some (-1, n)
      end
  else Some (-1, n).

Definition ip_output n (dev : Z) (buf : netbuf) (dst_ip protocol : Z) : option (Z * net H T) :=
  '(dev, next_hop) ← (if dev =? 0 then ip_route_lookup n dst_ip
                       else nd ← n_devs n !! dev; Some (dev, ip_get_next_hop nd dst_ip));
  if dev =? 0 then Some (-1, n)
  else
    nd ← n_devs n !! dev;
    if nd_ip_addr nd =? 0 then Some (-1, n)
    else
      match netbuf_push a (Some buf) IP_HEADER_MIN_LEN with
      | (header_ptr, Some buf) =>
          if header_ptr =? 0 then Some (-1, n)
          else
            let ip := nb_data buf in
            let id := ip_id_counter (n_ip n) in
            let m := fill_ip (n_mem n) ip (nb_len buf) id protocol (nd_ip_addr nd) dst_ip in
            ck ← ip_checksum m ip IP_HEADER_MIN_LEN;
            let n := set_ip n (IpState (u16 (id + 1)) (reass_table (n_ip n)) (route_table (n_ip n))) in
            let n := set_mem n (wr16 m (ip + 10) ck) in
            ip_send n dev next_hop (set_network_header buf ip)
      | (_, None) => None
      end.

(** ** Reassembly *)

Fixpoint free_fragments (h : H) (l : list ip_fragment) : option H :=
  match l with
  | [] => Some h
  | f :: l =>
      h ← (if negb (fr_data f =? 0) then kh_free h (fr_data f) else Some h);
      h ← kh_free h (fr_self f);
      free_fragments h l
  end.

Definition ip_reass_free n (i : nat) : option (net H T) :=
  r ← reass_table (n_ip n) !! i;
  h ← free_fragments (n_heap n) (ra_fragments r);
  Some (set_entry (set_heap n h) i
          (IpReassembly (ra_src r) (ra_dst r) (ra_id r) (ra_protocol r) (ra_total_len r) (ra_received_len r)
             [] (ra_timeout r) false)).

Definition fresh_entry (src dst id proto timeout : Z) : ip_reassembly :=
  IpReassembly src dst id proto 0 0 [] timeout true.

(** An existing entry, else a free one, else one that has timed out. *)
Definition ip_reass_find n (src dst id proto : Z) : option (option nat * net H T) :=
  let t := reass_table (n_ip n) in
  let now := now_ms n in
  match list_find (fun r => ra_valid r = true /\ ra_src r = src /\ ra_dst r = dst /\ ra_id r = id /\ ra_protocol r = proto) t with
  | Some (i, _) => Some (Some i, n)
  | None =>
      match list_find (fun r => ra_valid r = false) t with
      | Some (i, _) => Some (Some i, set_entry n i (fresh_entry src dst id proto (u32 (now + IP_REASS_TIMEOUT))))
      | None =>
          match list_find (fun r => ra_valid r = true /\ ra_timeout r <= now) t with
          | Some (i, r) =>
              h ← free_fragments (n_heap n) (ra_fragments r);
              Some (Some i, set_entry (set_heap n h) i (fresh_entry src dst id proto (u32 (now + IP_REASS_TIMEOUT))))
          | None => Some (None, n)
          end
      end
  end.

Definition ip_reass_add_fragment n (i : nat) (offset data len : Z) (more_frags : bool) : option (Z * net H T) :=
  r ← reass_table (n_ip n) !! i;
  let total := if more_frags then ra_total_len r else u16 (offset + len) in
  let entry received frags :=
    IpReassembly (ra_src r) (ra_dst r) (ra_id r) (ra_protocol r) total received frags (ra_timeout r) (ra_valid r) in
  let n := set_entry n i (entry (ra_received_len r) (ra_fragments r)) in
  '(frag, h) ← kh_malloc (n_heap n) (sizeof_ip_fragment a);
  let n := set_heap n h in
  if frag =? 0 then Some (-1, n)
  else
    '(fdata, h) ← kh_malloc (n_heap n) len;
    let n := set_heap n h in
    if fdata =? 0 then h ← kh_free (n_heap n) frag; Some (-1, set_heap n h)
    else
      let n := set_mem n (memcpy (n_mem n) fdata data (Z.to_nat len)) in
      match insert_fragment (IpFragment frag offset len fdata) (ra_fragments r) with
      | None =>
          h ← kh_free (n_heap n) fdata;
          h ← kh_free h frag;
          Some (0, set_heap n h)
      | Some l => Some (0, set_entry n i (entry (u16 (ra_received_len r + len)) l))
      end.

Definition ip_reass_complete n (i : nat) (dev : Z) : option (option netbuf * net H T) :=
  r ← reass_table (n_ip n) !! i;
  if ra_total_len r =? 0 then Some (None, n)
  else if bool_decide (fragments_end 0 (ra_fragments r) <> Some (ra_total_len r)) then Some (None, n)
  else
    '(buf, h) ← netbuf_alloc a (n_heap n) (ra_total_len r);
    let n := set_heap n h in
    match buf with
    | None => Some (None, n)
    | Some buf =>
        match netbuf_put a (Some buf) (ra_total_len r) with
        | (dest, Some buf) =>
            deref dest (
              let n := set_mem n (copy_fragments a (n_mem n) dest (ra_fragments r)) in
              n ← ip_reass_free n i;
              Some (Some (set_dev buf dev), n))
        | (_, None) => None
        end
    end.

(** The header at [ip] lies in [buf], which is freed on every path. *)
Definition ip_reassemble n (dev : Z) (buf : netbuf) (ip : Z) : option (option netbuf * net H T) :=
  let m := n_mem n in
  let flags_frag := ntohs (rd16 m (ip + 6)) in
  let offset := u16 (Z.land flags_frag IP_FRAG_OFFSET_MASK * 8) in
  let more_frags := negb (Z.land flags_frag IP_FLAG_MF =? 0) in
  '(r, n) ← ip_reass_find n (rd32 m (ip + 12)) (rd32 m (ip + 16)) (ntohs (rd16 m (ip + 4))) (rd m (ip + 9));
  match r with
  | None => n ← free_buf n buf; Some (None, n)
  | Some i =>
      let m := n_mem n in
      let hdr_len := ip_header_len m ip in
      let data_len := u16 (ntohs (rd16 m (ip + 2)) - hdr_len) in
      '(ret, n) ← ip_reass_add_fragment n i offset (ip + hdr_len) data_len more_frags;
      n ← free_buf n buf;
      if ret <? 0 then Some (None, n) else ip_reass_complete n i dev
  end.

Definition ip_reass_timer n : option (net H T) :=
  for_entries (fun n' i =>
      r ← reass_table (n_ip n') !! i;
      if ra_valid r && (ra_timeout r <=? now_ms n) then ip_reass_free n' i else Some n')
    (seq 0 IP_REASS_MAX_ENTRIES) n.

End ip.
