(* ===== verification/Icmp.v ===== *)
(** * ICMP

    Models src/net/icmp.c and the ping callback of src/net/net.c, the only
    function ever registered. *)

From S2P Require Import Prelude Mem HeapInterface Checksum Netbuf NetBytes NetState Netdev Arp Ip.

Definition ICMP_ECHO_REPLY : Z := 0.
Definition ICMP_DEST_UNREACHABLE : Z := 3.
Definition ICMP_ECHO_REQUEST : Z := 8.
Definition ICMP_PORT_UNREACHABLE : Z := 3.
Definition sizeof_icmp_header : Z := 8.

Section icmp.
Context (a : arch) {H T : Type} `{!KHeap H}.
Implicit Types n : net H T.

Definition icmp_init n : net H T :=
  let i := n_icmp n in
  set_icmp n (IcmpState false (lp_id i) (lp_seq i) (lp_send_time i) false (-1)
                (pr_received i) (pr_rtt i) (pr_src_ip i)).

(** Sending, and freeing the buffer when that fails. *)
Definition icmp_output n (buf : netbuf) (dst_ip : Z) : option (Z * net H T) :=
  '(ret, n) ← ip_output a n 0 buf dst_ip IP_PROTO_ICMP;
  n ← (if ret <? 0 then free_buf n buf else Some n);
  Some (ret, n).

(** The echo packet: header, data, checksum; [None] when there is no buffer. *)
Definition build_echo n (type id seq data len : Z) : option (option netbuf * net H T) :=
  let icmp_len := u32 (sizeof_icmp_header + len) in
  '(buf, h) ← netbuf_alloc a (n_heap n) icmp_len;
  let n := set_heap n h in
  match buf with
  | None => Some (None, n)
  | Some buf =>
      match netbuf_put a (Some buf) icmp_len with
      | (pkt, Some buf) =>
          deref pkt (
            let m := wr (n_mem n) pkt type in
            let m := wr m (pkt + 1) 0 in
            let m := wr16 m (pkt + 2) 0 in
            let m := wr16 m (pkt + 4) (htons id) in
            let m := wr16 m (pkt + 6) (htons seq) in
            let m := if negb (data =? 0) && (0 <? len) then memcpy m (pkt + sizeof_icmp_header) data (Z.to_nat len) else m in
            ck ← checksum m pkt icmp_len;
            Some (Some buf, set_mem n (wr16 m (pkt + 2) ck)))
      | (_, None) => None
      end
  end.

Definition icmp_send_echo_request n (dst_ip id seq data len : Z) : option (Z * net H T) :=
  '(buf, n) ← build_echo n ICMP_ECHO_REQUEST id seq data len;
  match buf with
  | None => Some (-1, n)
  | Some buf =>
      let i := n_icmp n in
      let n := set_icmp n (IcmpState (ping_callback i) id seq (now_ms n) true (-1)
                             (pr_received i) (pr_rtt i) (pr_src_ip i)) in
      '(ret, n) ← ip_output a n 0 buf dst_ip IP_PROTO_ICMP;
      if ret <? 0 then
        n ← free_buf n buf;
        let i := n_icmp n in
        Some (ret, set_icmp n (IcmpState (ping_callback i) (lp_id i) (lp_seq i) (lp_send_time i) false (last_rtt i)
                                 (pr_received i) (pr_rtt i) (pr_src_ip i)))
      else Some (ret, n)
  end.

Definition icmp_send_echo_reply n (dst_ip id seq data len : Z) : option (Z * net H T) :=
  '(buf, n) ← build_echo n ICMP_ECHO_REPLY id seq data len;
  match buf with
  | None => Some (-1, n)
  | Some buf => icmp_output n buf dst_ip
  end.

Definition icmp_send_dest_unreachable n (dst_ip code orig_header orig_data : Z) : option (Z * net H T) :=
  let icmp_len := sizeof_icmp_header + (IP_HEADER_MIN_LEN + 8) in
  '(buf, h) ← netbuf_alloc a (n_heap n) icmp_len;
  let n := set_heap n h in
  match buf with
  | None => Some (-1, n)
  | Some buf =>
      match netbuf_put a (Some buf) icmp_len with
      | (pkt, Some buf) =>
          deref pkt (
            let m := wr (n_mem n) pkt ICMP_DEST_UNREACHABLE in
            let m := wr m (pkt + 1) code in
            let m := wr16 m (pkt + 2) 0 in
            let m := wr32 m (pkt + 4) 0 in
            let payload := pkt + sizeof_icmp_header in
            let m := if negb (orig_header =? 0) then memcpy m payload orig_header (Z.to_nat IP_HEADER_MIN_LEN) else m in
            let m := if negb (orig_data =? 0) then memcpy m (payload + IP_HEADER_MIN_LEN) orig_data 8 else m in
            ck ← checksum m pkt icmp_len;
            icmp_output (set_mem n (wr16 m (pkt + 2) ck)) buf dst_ip)
      | (_, None) => None
      end
  end.

(** The registered callback stores the result of the ping. *)
Definition echo_reply_received n (src_ip id seq : Z) : net H T :=
  let i := n_icmp n in
  if lp_waiting i && (lp_id i =? id) && (lp_seq i =? seq) then
    let rtt := u32 (now_ms n - lp_send_time i) in
    set_icmp n (if ping_callback i
                then IcmpState true (lp_id i) (lp_seq i) (lp_send_time i) false (s32 rtt) true rtt src_ip
                else IcmpState false (lp_id i) (lp_seq i) (lp_send_time i) false (s32 rtt)
                       (pr_received i) (pr_rtt i) (pr_src_ip i))
  else n.

Definition icmp_input n (dev : Z) (buf : netbuf) (src_ip : Z) : option (net H T) :=
  if dev =? 0 then Some n
  else if nb_len buf <? sizeof_icmp_header then free_buf n buf
  else
    let icmp := nb_data buf in
    let m := n_mem n in
    ck ← checksum m icmp (nb_len buf);
    if negb (ck =? 0) then free_buf n buf
    else
      let type := rd m icmp in
      let id := ntohs (rd16 m (icmp + 4)) in
      let seq := ntohs (rd16 m (icmp + 6)) in
      n ← (if type =? ICMP_ECHO_REQUEST then
             let data_len := nb_len buf - sizeof_icmp_header in
             let data := if 0 <? data_len then icmp + sizeof_icmp_header else 0 in
             '(_, n) ← icmp_send_echo_reply n src_ip id seq data data_len; Some n
           else if type =? ICMP_ECHO_REPLY then Some (echo_reply_received n src_ip id seq)
           else Some n);
      free_buf n buf.

Definition icmp_register_ping_callback n (callback : bool) : net H T :=
  let i := n_icmp n in
  set_icmp n (IcmpState callback (lp_id i) (lp_seq i) (lp_send_time i) (lp_waiting i) (last_rtt i)
                (pr_received i) (pr_rtt i) (pr_src_ip i)).
Definition icmp_get_last_rtt n : Z := last_rtt (n_icmp n).

End icmp.
