(* ===== verification/Udp.v ===== *)
(** * UDP

    Models src/net/udp.c except the printing of the control blocks.  A
    receive callback is a function of another component: the parameter
    [recv_callback] of the input function. *)

From S2P Require Import Prelude Mem HeapInterface Checksum Netbuf NetBytes NetState Netdev Arp Ip Icmp.

Definition UDP_HEADER_LEN : Z := 8.
Definition UDP_EPHEMERAL_PORT_MIN : Z := 49152.
Definition UDP_EPHEMERAL_PORT_MAX : Z := 65535.

(** [sizeof(udp_pcb_t)], padding included. *)
Definition sizeof_udp_pcb (a : arch) : Z := match a with I686 => 36 | X86_64 | ARM64 => 56 end.

(** ** Control blocks *)

(** The score of a control block for a datagram; [None] when it does not
    match. *)
Definition pcb_score (p : udp_pcb) (local_ip local_port remote_ip remote_port : Z) : option Z :=
  if negb (up_local_port p =? local_port) then None
  else if negb (up_local_ip p =? 0) && negb (up_local_ip p =? local_ip) then None
  else if negb (up_remote_port p =? 0) && negb (up_remote_port p =? remote_port) then None
  else if negb (up_remote_ip p =? 0) && negb (up_remote_ip p =? remote_ip) then None
  else Some ((if up_local_ip p =? 0 then 0 else 1) + (if up_remote_port p =? 0 then 0 else 2)
             + (if up_remote_ip p =? 0 then 0 else 4)).

(** The loop of [udp_find_pcb]: best match so far and its score; [None] when
    the list holds an address that is no control block. *)
Fixpoint find_pcb_loop (objs : gmap Z udp_pcb) (l : list Z) (local_ip local_port remote_ip remote_port : Z)
    (best best_score : Z) : option Z :=
  match l with
  | [] => Some best
  | q :: l =>
      p ← objs !! q;
      let '(best, best_score) :=
        match pcb_score p local_ip local_port remote_ip remote_port with
        | Some s => if best_score <? s then (q, s) else (best, best_score)
        | None => (best, best_score)
        end in
      find_pcb_loop objs l local_ip local_port remote_ip remote_port best best_score
  end.

(** The address of the best match, 0 for none. *)
Definition udp_find_pcb (u : udp_state) (local_ip local_port remote_ip remote_port : Z) : option Z :=
  find_pcb_loop (udp_objs u) (udp_pcbs u) local_ip local_port remote_ip remote_port 0 (-1).

Definition set_obj (u : udp_state) (q : Z) (p : udp_pcb) : udp_state :=
  UdpState (udp_pcbs u) (<[q := p]> (udp_objs u)) (next_ephemeral_port u).

Definition port_in_use (u : udp_state) (port : Z) : bool :=
  existsb (fun q => match udp_objs u !! q with Some p => up_local_port p =? port | None => false end) (udp_pcbs u).

(** The loop of [udp_alloc_port]; [start_port] is where it began. *)
Fixpoint alloc_port_loop (fuel : nat) (u : udp_state) (next start_port : Z) : option (Z * Z) :=
  match fuel with
  | O => None
  | S fuel =>
      let port := u16 next in
      let next := u32 (next + 1) in
      let next := if UDP_EPHEMERAL_PORT_MAX <? next then UDP_EPHEMERAL_PORT_MIN else next in
      if negb (port_in_use u port) then Some (port, next)
      else if negb (next =? start_port) then alloc_port_loop fuel u next start_port
      else Some (0, next)
  end.

(** As many turns as there are ephemeral ports. *)
Definition udp_alloc_port (u : udp_state) : option (Z * udp_state) :=
  '(port, next) ← alloc_port_loop (Z.to_nat 16384) u (next_ephemeral_port u) (u16 (next_ephemeral_port u));
  Some (port, UdpState (udp_pcbs u) (udp_objs u) next).

(** The pseudo header on the stack of [udp_checksum], at address 0. *)
Definition udp_pseudo_header (src_ip dst_ip len : Z) : mem :=
  let m := wr32 ∅ 0 src_ip in
  let m := wr32 m 4 dst_ip in
  let m := wr m 8 0 in
  let m := wr m 9 IP_PROTO_UDP in
  wr16 m 10 (htons len).

Definition udp_checksum (m : mem) (src_ip dst_ip udp len : Z) : option Z :=
  let sum := checksum_partial (udp_pseudo_header src_ip dst_ip len) 0 0 12 in
  checksum_finish (checksum_partial m sum udp len).

(** The header the two senders write, up to its checksum. *)
Definition fill_udp (m : mem) (udp src_port dst_port len : Z) : mem :=
  let m := wr16 m udp (htons src_port) in
  let m := wr16 m (udp + 2) (htons dst_port) in
  let m := wr16 m (udp + 4) (htons len) in
  wr16 m (udp + 6) 0.

Section udp.
Context (a : arch) {H T : Type} `{!KHeap H}.
Implicit Types n : net H T.

Definition udp_init n : net H T := set_udp n (UdpState [] (udp_objs (n_udp n)) UDP_EPHEMERAL_PORT_MIN).

(** [net_init] of net.c, up to TCP, the sockets and the timer. *)
Definition net_init n : net H T := udp_init (icmp_init (ip_init (arp_init (netdev_init n)))).

Definition udp_pcb_new n : option (Z * net H T) :=
  '(pcb, h) ← kh_malloc (n_heap n) (sizeof_udp_pcb a);
  let n := set_heap n h in
  if pcb =? 0 then Some (0, n)
  else
    let u := n_udp n in
    Some (pcb, set_udp n (UdpState (pcb :: udp_pcbs u) (<[pcb := udp_pcb_zero]> (udp_objs u)) (next_ephemeral_port u))).

Definition udp_pcb_free n (pcb : Z) : option (net H T) :=
  if pcb =? 0 then Some n
  else
    let u := n_udp n in
    p ← udp_objs u !! pcb;
    let n := set_udp n (UdpState (remove_dev pcb (udp_pcbs u)) (udp_objs u) (next_ephemeral_port u)) in
    n ← free_queue n (dg_buf <$> up_recv_queue p);
    h ← kh_free (n_heap n) pcb;
    let u := n_udp n in
    Some (set_udp (set_heap n h) (UdpState (udp_pcbs u) (delete pcb (udp_objs u)) (next_ephemeral_port u))).

(** The conflict test of [udp_bind] against one other control block. *)
Definition bind_conflict (p : udp_pcb) (local_ip local_port : Z) : bool :=
  (up_local_port p =? local_port)
  && ((up_local_ip p =? 0) || (local_ip =? 0) || (up_local_ip p =? local_ip)).

Definition udp_bind n (pcb local_ip local_port : Z) : option (Z * net H T) :=
  if pcb =? 0 then Some (-1, n)
  else
    let u := n_udp n in
    p ← udp_objs u !! pcb;
    if existsb (fun q => negb (q =? pcb) &&
                  match udp_objs u !! q with Some p => bind_conflict p local_ip local_port | None => false end)
         (udp_pcbs u)
    then Some (-1, n)
    else Some (0, set_udp n (set_obj u pcb
           (UdpPcb local_ip local_port (up_remote_ip p) (up_remote_port p)
              (up_recv_queue p) (up_recv_queue_len p) (up_recv_callback p) (up_callback_arg p)))).

Definition set_remote (p : udp_pcb) (ip port : Z) : udp_pcb :=
  UdpPcb (up_local_ip p) (up_local_port p) ip port
    (up_recv_queue p) (up_recv_queue_len p) (up_recv_callback p) (up_callback_arg p).
Definition set_local_port (p : udp_pcb) (port : Z) : udp_pcb :=
  UdpPcb (up_local_ip p) port (up_remote_ip p) (up_remote_port p)
    (up_recv_queue p) (up_recv_queue_len p) (up_recv_callback p) (up_callback_arg p).

(** The local port of [pcb], an ephemeral one when there is none yet; 0 when
    none is left. *)
Definition ensure_port (u : udp_state) (pcb : Z) : option (Z * udp_state) :=
  p ← udp_objs u !! pcb;
  if up_local_port p =? 0 then
    '(port, u) ← udp_alloc_port u;
    Some (port, set_obj u pcb (set_local_port p port))
  else Some (up_local_port p, u).

Definition udp_connect n (pcb remote_ip remote_port : Z) : option (Z * net H T) :=
  if pcb =? 0 then Some (-1, n)
  else
    let u := n_udp n in
    p ← udp_objs u !! pcb;
    '(port, u) ← ensure_port (set_obj u pcb (set_remote p remote_ip remote_port)) pcb;
    Some (if port =? 0 then -1 else 0, set_udp n u).

Definition udp_disconnect n (pcb : Z) : option (net H T) :=
  if pcb =? 0 then Some n
  else
    let u := n_udp n in
    p ← udp_objs u !! pcb;
    Some (set_udp n (set_obj u pcb (set_remote p 0 0))).

Definition udp_recv n (pcb callback arg : Z) : option (net H T) :=
  if pcb =? 0 then Some n
  else
    let u := n_udp n in
    p ← udp_objs u !! pcb;
    Some (set_udp n (set_obj u pcb
      (UdpPcb (up_local_ip p) (up_local_port p) (up_remote_ip p) (up_remote_port p)
         (up_recv_queue p) (up_recv_queue_len p) callback arg))).

Definition set_queue (p : udp_pcb) (q : list datagram) (len : Z) : udp_pcb :=
  UdpPcb (up_local_ip p) (up_local_port p) (up_remote_ip p) (up_remote_port p) q len
    (up_recv_callback p) (up_callback_arg p).

Definition udp_recv_poll n (pcb : Z) : option (option datagram * net H T) :=
  if pcb =? 0 then Some (None, n)
  else
    let u := n_udp n in
    p ← udp_objs u !! pcb;
    match up_recv_queue p with
    | [] => Some (None, n)
    | d :: q => Some (Some d, set_udp n (set_obj u pcb (set_queue p q (u32 (up_recv_queue_len p - 1)))))
    end.

Definition udp_has_data n (pcb : Z) : option bool :=
  if pcb =? 0 then Some false
  else p ← udp_objs (n_udp n) !! pcb; Some (negb (bool_decide (up_recv_queue p = []))).

(** ** Output *)

Definition udp_output n (src_port dst_ip dst_port data len : Z) : option (Z * net H T) :=
  let dev := netdev_get_default n in
  if dev =? 0 then Some (-1, n)
  else
    let udp_len := u32 (UDP_HEADER_LEN + len) in
    '(buf, h) ← netbuf_alloc a (n_heap n) udp_len;
    let n := set_heap n h in
    match buf with
    | None => Some (-1, n)
    | Some buf =>
        match netbuf_put a (Some buf) udp_len with
        | (pkt, Some buf) =>
            deref pkt (
              let m := fill_udp (n_mem n) pkt src_port dst_port udp_len in
              let m := if negb (data =? 0) && (0 <? len) then memcpy m (pkt + UDP_HEADER_LEN) data (Z.to_nat len) else m in
              nd ← n_devs n !! dev;
              ck ← udp_checksum m (nd_ip_addr nd) dst_ip pkt (u16 udp_len);
              let n := set_mem n (wr16 m (pkt + 6) ck) in
              '(ret, n) ← ip_output a n dev buf dst_ip IP_PROTO_UDP;
              n ← (if ret <? 0 then free_buf n buf else Some n);
              Some (ret, n))
        | (_, None) => None
        end
    end.

(** The caller keeps the buffer when the result is negative. *)
Definition udp_sendto n (pcb : Z) (buf : netbuf) (dst_ip dst_port : Z) : option (Z * net H T) :=
  if pcb =? 0 then Some (-1, n)
  else
    let dev := netdev_get_default n in
    if dev =? 0 then Some (-1, n)
    else
      '(port, u) ← ensure_port (n_udp n) pcb;
      let n := set_udp n u in
      if port =? 0 then Some (-1, n)
      else
        p ← udp_objs u !! pcb;
        match netbuf_push a (Some buf) UDP_HEADER_LEN with
        | (header_ptr, Some buf) =>
            if header_ptr =? 0 then Some (-1, n)
            else
              let udp := nb_data buf in
              let udp_len := u16 (nb_len buf) in
              let m := fill_udp (n_mem n) udp port dst_port udp_len in
              nd ← n_devs n !! dev;
              let src_ip := if negb (up_local_ip p =? 0) then up_local_ip p else nd_ip_addr nd in
              ck ← udp_checksum m src_ip dst_ip udp udp_len;
              ip_output a (set_mem n (wr16 m (udp + 6) ck)) dev buf dst_ip IP_PROTO_UDP
        | (_, None) => None
        end.

Definition udp_send n (pcb : Z) (buf : netbuf) : option (Z * net H T) :=
  if pcb =? 0 then Some (-1, n)
  else
    p ← udp_objs (n_udp n) !! pcb;
    if (up_remote_ip p =? 0) || (up_remote_port p =? 0) then Some (-1, n)
    else udp_sendto n pcb buf (up_remote_ip p) (up_remote_port p).

(** ** Input *)

Context (recv_callback : Z -> net H T -> Z -> netbuf -> Z -> Z -> option (net H T)).

(** The verification of the checksum; the field is restored afterwards. *)
Definition udp_checksum_ok (m : mem) (src_ip dst_ip udp udp_len : Z) : option bool :=
  let orig := rd16 m (udp + 6) in
  if orig =? 0 then Some true
  else ck ← udp_checksum (wr16 m (udp + 6) 0) src_ip dst_ip udp udp_len; Some (ck =? orig).

Definition udp_deliver n (pcb : Z) (p : udp_pcb) (buf : netbuf) (src_ip src_port : Z) : option (net H T) :=
  match netbuf_pull a (Some buf) UDP_HEADER_LEN with
  | (_, Some buf) =>
      if negb (up_recv_callback p =? 0) then recv_callback (up_recv_callback p) n pcb buf src_ip src_port
      else
        let p := set_queue p (up_recv_queue p ++ [Datagram buf src_ip src_port]) (u32 (up_recv_queue_len p + 1)) in
        Some (set_udp n (set_obj (n_udp n) pcb p))
  | (_, None) => None
  end.

Definition udp_input n (dev : Z) (buf : netbuf) (src_ip dst_ip : Z) : option (net H T) :=
  if dev =? 0 then Some n
  else if nb_len buf <? UDP_HEADER_LEN then free_buf n buf
  else
    let udp := nb_data buf in
    let buf := set_transport_header buf udp in
    let m := n_mem n in
    let src_port := ntohs (rd16 m udp) in
    let dst_port := ntohs (rd16 m (udp + 2)) in
    let udp_len := ntohs (rd16 m (udp + 4)) in
    if (udp_len <? UDP_HEADER_LEN) || (nb_len buf <? udp_len) then free_buf n buf
    else
      ok ← udp_checksum_ok m src_ip dst_ip udp udp_len;
      if negb ok then free_buf (set_mem n (wr16 m (udp + 6) 0)) buf
      else
        pcb ← udp_find_pcb (n_udp n) dst_ip dst_port src_ip src_port;
        if negb (pcb =? 0) then
          p ← udp_objs (n_udp n) !! pcb;
          udp_deliver n pcb p buf src_ip src_port
        else
          '(_, n) ← icmp_send_dest_unreachable a n src_ip ICMP_PORT_UNREACHABLE (nb_network_header buf) udp;
          free_buf n buf.

End udp.
