(* ===== verification/NetInput.v ===== *)
(** * The receive path

    Models [ip_input] of src/net/ip.c, [ethernet_input] of
    src/net/ethernet.c, [netdev_receive] of src/net/netdev.c and
    [e1000_receive] of src/drivers/x86/e1000.c: a frame in the receive ring
    travels from the driver to the protocol it is for.  [tcp_input] and the
    callbacks of UDP control blocks are parameters. *)

From S2P Require Import Prelude Mem HeapInterface Checksum Netbuf NetBytes NetState Netdev Arp Ip Icmp Udp.

Definition E1000_RXD_STAT_DD : Z := 1.
Definition E1000_RXD_STAT_EOP : Z := 2.

Section input.
Context (a : arch) {H T : Type} `{!KHeap H}.
Context (tcp_input : net H T -> Z -> netbuf -> Z -> Z -> option (net H T)).
Context (recv_callback : Z -> net H T -> Z -> netbuf -> Z -> Z -> option (net H T)).
Implicit Types n : net H T.

(** The destinations a device accepts. *)
Definition is_for_us (nd : netdev) (dst : Z) : bool :=
  (dst =? nd_ip_addr nd) || (dst =? 0xFFFFFFFF)
  || (Z.land dst (u32 (Z.lnot (nd_netmask nd))) =? u32 (Z.lnot (nd_netmask nd))).

(** The switch on the protocol. *)
Definition ip_dispatch n (dev : Z) (buf : netbuf) (protocol src_ip dst_ip : Z) : option (net H T) :=
  if protocol =? IP_PROTO_ICMP then icmp_input a n dev buf src_ip
  else if protocol =? IP_PROTO_UDP then udp_input a recv_callback n dev buf src_ip dst_ip
  else if protocol =? IP_PROTO_TCP then tcp_input n dev buf src_ip dst_ip
  else free_buf n buf.

Definition ip_input n (dev : Z) (buf : netbuf) : option (net H T) :=
  if dev =? 0 then Some n
  else if nb_len buf <? IP_HEADER_MIN_LEN then free_buf n buf
  else
    let ip := nb_data buf in
    let buf := set_network_header buf ip in
    let m := n_mem n in
    if negb (ip_version m ip =? IP_VERSION_4) then free_buf n buf
    else
      let hdr_len := ip_header_len m ip in
      if (hdr_len <? IP_HEADER_MIN_LEN) || (nb_len buf <? hdr_len) then free_buf n buf
      else
        ck ← ip_checksum m ip hdr_len;
        if negb (ck =? 0) then free_buf n buf
        else
          let total_len := ntohs (rd16 m (ip + 2)) in
          if (total_len <? hdr_len) || (nb_len buf <? total_len) then free_buf n buf
          else
            nd ← n_devs n !! dev;
            let dst := rd32 m (ip + 16) in
            if negb (is_for_us nd dst) then free_buf n buf
            else
              let flags_frag := ntohs (rd16 m (ip + 6)) in
              let protocol := rd m (ip + 9) in
              let src_ip := rd32 m (ip + 12) in
              if negb (Z.land flags_frag IP_FLAG_MF =? 0) || negb (Z.land flags_frag IP_FRAG_OFFSET_MASK =? 0) then
                '(whole, n) ← ip_reassemble a n dev buf ip;
                match whole with
                | None => Some n
                | Some buf => ip_dispatch n dev (set_transport_header buf (nb_data buf)) protocol src_ip dst
                end
              else
                match netbuf_pull a (Some buf) hdr_len with
                | (_, Some buf) => ip_dispatch n dev (set_transport_header buf (nb_data buf)) protocol src_ip dst
                | (_, None) => None
                end.

Definition ethernet_input n (dev : Z) (buf : netbuf) : option (net H T) :=
  if dev =? 0 then Some n
  else if nb_len buf <? ETH_HEADER_LEN then free_buf n buf
  else
    nd ← n_devs n !! dev;
    let eth := nb_data buf in
    let buf := set_mac_header buf eth in
    let m := n_mem n in
    let dst := mac_at m eth in
    if negb (mac_addr_is_broadcast dst) && negb (mac_addr_is_multicast dst) && negb (mac_addr_cmp dst (nd_mac nd) =? 0)
    then free_buf n buf
    else
      let type := eth_ntohs (rd16 m (eth + 12)) in
      match netbuf_pull a (Some buf) ETH_HEADER_LEN with
      | (_, Some buf) =>
          let buf := set_network_header buf (nb_data buf) in
          if type =? ETH_TYPE_ARP then arp_input a n dev buf
          else if type =? ETH_TYPE_IP then ip_input n dev buf
          else free_buf n buf
      | (_, None) => None
      end.

Definition netdev_receive n (dev : Z) (buf : netbuf) : option (net H T) :=
  if dev =? 0 then Some n
  else
    nd ← n_devs n !! dev;
    if bool_decide (nd_state nd <> NETDEV_UP) then
      n ← free_buf n buf;
      nd ← n_devs n !! dev;
      Some (set_dev_at n dev (count_rx nd 0 0 1))
    else
      let n := set_dev_at n dev (count_rx nd 1 (nb_len buf) 0) in
      ethernet_input n dev (set_dev buf dev).

(** ** The receive ring *)

Definition count_nic_rx (e : e1000_device) (len : Z) : e1000_device :=
  E1000 (tx_descs e) (tx_cur e) (reg_tdt e) (rx_descs e) (rx_cur e) (reg_rdt e)
    (u64 (e_rx_packets e + 1)) (e_tx_packets e) (u64 (e_rx_bytes e + len)) (e_tx_bytes e).

(** The frame of a descriptor copied into a buffer and passed up. *)
Definition e1000_take n (dev : Z) (desc : rx_desc) : option (net H T) :=
  let len := rx_length desc in
  if (0 <? len) && (len <=? E1000_RX_BUFFER_SIZE) then
    '(buf, h) ← netbuf_alloc a (n_heap n) len;
    let n := set_heap n h in
    match buf with
    | None => Some n
    | Some buf =>
        match netbuf_put a (Some buf) len with
        | (p, Some buf) =>
            deref p (
              let n := set_mem n (write_bytes (n_mem n) p (take (Z.to_nat len) (rx_buffer desc))) in
              nd ← n_devs n !! dev;
              let n := set_dev_at n dev (set_nic nd (count_nic_rx (nd_priv nd) len)) in
              netdev_receive n dev (set_dev buf dev))
        | (_, None) => None
        end
    end
  else Some n.

(** The descriptor is handed back and the ring advances. *)
Definition e1000_advance (e : e1000_device) (cur : Z) : e1000_device :=
  E1000 (tx_descs e) (tx_cur e) (reg_tdt e)
    (alter (fun d => RxDesc (rx_length d) 0 (rx_buffer d)) (Z.to_nat cur) (rx_descs e))
    ((cur + 1) mod E1000_NUM_RX_DESC) (rx_cur e)
    (e_rx_packets e) (e_tx_packets e) (e_rx_bytes e) (e_tx_bytes e).

(** What the device writes into the ring: completed descriptors. *)
Definition dma_write (rx : list rx_desc) (w : list (nat * rx_desc)) : list rx_desc :=
  fold_left (fun rx x => <[x.1 := x.2]> rx) w rx.

Definition e1000_dma (e : e1000_device) (w : list (nat * rx_desc)) : e1000_device :=
  E1000 (tx_descs e) (tx_cur e) (reg_tdt e) (dma_write (rx_descs e) w) (rx_cur e) (reg_rdt e)
    (e_rx_packets e) (e_tx_packets e) (e_rx_bytes e) (e_tx_bytes e).

(** The loop, against a schedule of the device: the list says for each turn
    what the device has written into the ring since the turn before.  [None]
    when the schedule is used up, so its length is the fuel. *)
Fixpoint e1000_receive (hw : list (list (nat * rx_desc))) n (dev : Z) : option (net H T) :=
  match hw with
  | [] => None
  | w :: hw =>
      nd ← n_devs n !! dev;
      let nd := set_nic nd (e1000_dma (nd_priv nd) w) in
      let n := set_dev_at n dev nd in
      let cur := rx_cur (nd_priv nd) in
      desc ← rx_descs (nd_priv nd) !! Z.to_nat cur;
      if Z.land (rx_status desc) E1000_RXD_STAT_DD =? 0 then Some n
      else
        n ← (if negb (Z.land (rx_status desc) E1000_RXD_STAT_EOP =? 0) then e1000_take n dev desc else Some n);
        nd ← n_devs n !! dev;
        e1000_receive hw (set_dev_at n dev (set_nic nd (e1000_advance (nd_priv nd) cur))) dev
  end.

(** A turn in which the device has written nothing. *)
Lemma receive_idle hw n dev nd : n_devs n !! dev = Some nd ->
  e1000_receive ([] :: hw) n dev =
    (let cur := rx_cur (nd_priv nd) in
     desc ← rx_descs (nd_priv nd) !! Z.to_nat cur;
     if Z.land (rx_status desc) E1000_RXD_STAT_DD =? 0 then Some n
     else
       n ← (if negb (Z.land (rx_status desc) E1000_RXD_STAT_EOP =? 0) then e1000_take n dev desc else Some n);
       nd ← n_devs n !! dev;
       e1000_receive hw (set_dev_at n dev (set_nic nd (e1000_advance (nd_priv nd) cur))) dev).
Proof.
  intros Hn. cbn [e1000_receive]. rewrite Hn. cbn [mbind option_bind].
  assert (set_nic nd (e1000_dma (nd_priv nd) []) = nd) as -> by (by destruct nd as [? ? ? ? ? ? ? ? ? ? ? ? ? ? ? []]).
  assert (set_dev_at n dev nd = n) as ->; [|done].
  destruct n. unfold set_dev_at, set_devs. cbn in *. by rewrite insert_id.
Qed.

End input.
