(* ===== verification/NetSend.v ===== *)
(** * What the send path puts on the wire

    The bytes of the Ethernet, IP and UDP headers as lists, and the frames
    that [ethernet_output], [ip_output] and [udp_output] leave in the transmit
    ring of the device. *)

From S2P Require Import Prelude Mem HeapFacts HeapInterface Checksum Netbuf NetBytes NetState Netdev Arp Ip Icmp Udp.

Lemma list_alter_some {A} (f : A -> A) (l : list A) (i : nat) x : l !! i = Some x -> alter f i l = <[i := f x]> l.
Proof.
  intros Hx. rewrite list_insert_alter. apply list_eq. intros j. destruct (decide (i = j)) as [<-|].
  - by rewrite !list_lookup_alter_eq, Hx.
  - by rewrite !list_lookup_alter_ne.
Qed.

(** ** Headers *)

Definition eth_hdr (dst src : list Z) (type : Z) : list Z := dst ++ src ++ be16 type.

Definition ip_hdr (len id proto ck src dst : Z) : list Z :=
  [0x45; 0] ++ be16 len ++ be16 id ++ be16 IP_FLAG_DF ++ [64; proto] ++ le16 ck ++ le32 src ++ le32 dst.
Definition ip_ck (len id proto src dst : Z) : Z := csum (lsum (ip_hdr len id proto 0 src dst)).
Definition ip_header (len id proto src dst : Z) : list Z := ip_hdr len id proto (ip_ck len id proto src dst) src dst.

Definition udp_hdr (sport dport len ck : Z) : list Z := be16 sport ++ be16 dport ++ be16 len ++ le16 ck.
Definition pseudo_hdr (src dst proto len : Z) : list Z := le32 src ++ le32 dst ++ [0; proto] ++ be16 len.
Definition udp_ck (src dst sport dport : Z) (payload : list Z) : Z :=
  let len := 8 + Z.of_nat (length payload) in
  csum (lsum (pseudo_hdr src dst IP_PROTO_UDP len) + lsum (udp_hdr sport dport len 0 ++ payload)).

(** A datagram as [udp_output] builds it. *)
Definition udp_packet (src dst sport dport : Z) (payload : list Z) : list Z :=
  udp_hdr sport dport (8 + Z.of_nat (length payload)) (udp_ck src dst sport dport payload) ++ payload.

Definition ip_packet (id proto src dst : Z) (body : list Z) : list Z :=
  ip_header (20 + Z.of_nat (length body)) id proto src dst ++ body.

Definition is_mac (l : list Z) : Prop := length l = 6%nat /\ Forall is_byte l.

(** ** The stores of the header writers *)

Ltac chain :=
  repeat match goal with
  | |- stored _ (wr ?m ?p ?v) _ _ => eapply stored_app; [|apply (stored_wr m p v)|]
  | |- stored _ (wr16 ?m ?p ?v) _ _ => eapply stored_app; [|apply (stored_wr16 m p v)|]
  | |- stored _ (wr32 ?m ?p ?v) _ _ => eapply stored_app; [|apply (stored_wr32 m p v)|]
  end.

Lemma stored_eq m m' p l l' : stored m m' p l -> l = l' -> stored m m' p l'.
Proof. by intros ? <-. Qed.

Lemma fill_ip_stored m p len id proto src dst :
  0 <= len < 2 ^ 16 -> 0 <= id < 2 ^ 16 -> 0 <= proto < 256 ->
  stored m (fill_ip m p len id proto src dst) p (ip_hdr len id proto 0 src dst).
Proof.
  intros Hl Hi Hp. unfold fill_ip. cbv zeta. eapply stored_eq.
  - chain; [apply (stored_nil m p)|..]; simpl; lia.
  - rewrite !le16_htons by (try lia; by vm_compute). rewrite (u8_small proto) by done. reflexivity.
Qed.

Lemma fill_udp_stored m p sport dport len :
  0 <= sport < 2 ^ 16 -> 0 <= dport < 2 ^ 16 -> 0 <= len < 2 ^ 16 ->
  stored m (fill_udp m p sport dport len) p (udp_hdr sport dport len 0).
Proof.
  intros Hs Hd Hl. unfold fill_udp. cbv zeta. eapply stored_eq.
  - chain; [apply (stored_nil m p)|..]; simpl; lia.
  - by rewrite !le16_htons by done.
Qed.

Lemma udp_pseudo_bytes src dst len : 0 <= len < 2 ^ 16 ->
  read_bytes (udp_pseudo_header src dst len) 0 12 = pseudo_hdr src dst IP_PROTO_UDP len.
Proof.
  intros Hl. assert (stored ∅ (udp_pseudo_header src dst len) 0 (pseudo_hdr src dst IP_PROTO_UDP len)) as Hs.
  { unfold udp_pseudo_header. cbv zeta. eapply stored_eq.
    - chain; [apply (stored_nil ∅ 0)|..]; simpl; lia.
    - by rewrite !le16_htons by done. }
  exact (stored_read _ _ _ _ Hs).
Qed.

Lemma pseudo_hdr_bytes src dst proto len : 0 <= proto < 256 -> 0 <= len < 2 ^ 16 ->
  Forall is_byte (pseudo_hdr src dst proto len).
Proof.
  intros Hp Hl. unfold pseudo_hdr. rewrite !Forall_app. split_and!; try apply le32_bytes; [|by apply be16_bytes].
  repeat constructor; unfold is_byte; lia.
Qed.

Lemma udp_checksum_window m src dst p n : Z.of_nat n < 2 ^ 16 ->
  udp_checksum m src dst p (Z.of_nat n) =
    Some (csum (lsum (pseudo_hdr src dst IP_PROTO_UDP (Z.of_nat n)) + lsum (read_bytes m p n))).
Proof.
  intros Hn. unfold udp_checksum. cbv zeta.
  change 12 with (Z.of_nat 12). rewrite (checksum_partial_window _ 0) by lia. rewrite Z.add_0_l, udp_pseudo_bytes by lia.
  pose proof (lsum_range _ (pseudo_hdr_bytes src dst IP_PROTO_UDP (Z.of_nat n) ltac:(unfold IP_PROTO_UDP; lia) ltac:(lia))) as H1.
  change (length (pseudo_hdr src dst IP_PROTO_UDP (Z.of_nat n))) with 12%nat in H1.
  pose proof (lsum_range _ (read_bytes_bytes m n p)) as H2. rewrite read_bytes_length in H2.
  rewrite checksum_partial_window by lia. apply csum_spec. lia.
Qed.

(** ** Ethernet *)

(** A device that can send: up, with a driver, and a free descriptor at the
    current position of the ring. *)
Record dev_ready (nd : netdev) : Prop := {
  dr_up : nd_state nd = NETDEV_UP;
  dr_ops : nd_ops nd = true;
  dr_mac : is_mac (nd_mac nd);
  dr_cur : 0 <= tx_cur (nd_priv nd) < Z.of_nat (length (tx_descs (nd_priv nd)));
  dr_free : forall d, tx_descs (nd_priv nd) !! Z.to_nat (tx_cur (nd_priv nd)) = Some d ->
              Z.land (td_status d) E1000_TXD_STAT_DD <> 0
}.

(** The ring after a frame has been queued. *)
Definition ring_put (e : e1000_device) (frame : list Z) : e1000_device :=
  let cur := tx_cur e in
  E1000 (alter (fun d => TxDesc (u16 (Z.of_nat (length frame))) E1000_TXD_CMD 0 (splice 0 frame (td_buffer d)))
           (Z.to_nat cur) (tx_descs e))
    ((cur + 1) mod E1000_NUM_TX_DESC) ((cur + 1) mod E1000_NUM_TX_DESC)
    (rx_descs e) (rx_cur e) (reg_rdt e)
    (e_rx_packets e) (u64 (e_tx_packets e + 1)) (e_rx_bytes e) (u64 (e_tx_bytes e + Z.of_nat (length frame))).

(** The device after a frame has been sent. *)
Definition dev_sent (nd : netdev) (frame : list Z) : netdev :=
  count_tx (set_nic nd (ring_put (nd_priv nd) frame)) 1 (Z.of_nat (length frame)) 0 0.

Lemma e1000_transmit_spec m nd buf l :
  dev_ready nd -> nb_len buf = Z.of_nat (length l) -> read_bytes m (nb_data buf) (length l) = l ->
  0 < nb_len buf <= 1518 ->
  e1000_netdev_transmit m (nd_priv nd) buf = Some (0, ring_put (nd_priv nd) l).
Proof.
  intros [_ _ _ Hc Hf] Hlen Hw Hb. unfold e1000_netdev_transmit.
  rewrite (proj2 (Z.eqb_neq _ _)), (proj2 (Z.ltb_ge _ _)) by lia. cbn [orb].
  destruct (lookup_lt_is_Some_2 (tx_descs (nd_priv nd)) (Z.to_nat (tx_cur (nd_priv nd))) ltac:(lia)) as [d Hd].
  rewrite Hd. cbn [mbind option_bind]. rewrite (proj2 (Z.eqb_neq _ _)) by by apply Hf.
  unfold ring_put. rewrite Hlen, Nat2Z.id, Hw. do 3 f_equal.
  by rewrite (list_alter_some _ _ _ _ Hd).
Qed.

(** The header fields of a buffer play no part in its window. *)
Lemma wf_mac_header a b p : nb_wf a b -> nb_wf a (set_mac_header b p).
Proof. intros []. by constructor. Qed.
Lemma wf_network_header a b p : nb_wf a b -> nb_wf a (set_network_header b p).
Proof. intros []. by constructor. Qed.
Lemma wf_transport_header a b p : nb_wf a b -> nb_wf a (set_transport_header b p).
Proof. intros []. by constructor. Qed.
Lemma wf_set_dev a b d : nb_wf a b -> nb_wf a (set_dev b d).
Proof. intros []. by constructor. Qed.
#[export] Hint Resolve wf_mac_header wf_network_header wf_transport_header wf_set_dev : castor.

Section send.
Context (a : arch) {H T : Type} `{!KHeap H} `{!KHeapLaws H}.
Implicit Types n : net H T.

Lemma n_mem_set n m : n_mem (set_mem n m) = m.
Proof. unfold n_mem, set_mem. simpl. apply law_mem_get. Qed.

Lemma netdev_transmit_spec n dev nd buf l :
  dev <> 0 -> n_devs n !! dev = Some nd -> dev_ready nd ->
  nb_len buf = Z.of_nat (length l) -> read_bytes (n_mem n) (nb_data buf) (length l) = l -> 0 < nb_len buf <= 1518 ->
  netdev_transmit n dev buf = Some (0, set_dev_at n dev (dev_sent nd l)).
Proof.
  intros Hd Hn Hr Hl Hw Hb. pose proof Hr as [Hup Hops _ _ _]. unfold netdev_transmit.
  rewrite (proj2 (Z.eqb_neq _ _)), Hn by done. cbn [mbind option_bind].
  rewrite bool_decide_eq_false_2, Hops by (rewrite Hup; auto). cbn [negb].
  rewrite (e1000_transmit_spec _ _ _ l) by done. cbn [mbind option_bind]. unfold dev_sent. by rewrite Hl.
Qed.

Lemma eth_fill_stored m p dst src type :
  is_mac dst -> is_mac src -> 0 <= type < 2 ^ 16 ->
  stored m (wr16 (write_bytes (write_bytes m p dst) (p + 6) src) (p + 12) (eth_htons type)) p (eth_hdr dst src type).
Proof.
  intros [Ld Bd] [Ls Bs] Ht. unfold eth_hdr, eth_htons. rewrite eth_ntohs_htons, app_assoc by done.
  eapply stored_app; [eapply stored_app; [by apply stored_bytes|by apply stored_bytes|]|rewrite <- le16_htons by done; apply stored_wr16|].
  - rewrite Ld. lia.
  - rewrite length_app, Ld, Ls. lia.
Qed.

Lemma push_spec buf k : nb_wf a buf -> 0 <= k < 2 ^ 31 -> k <= nb_data buf - nb_head buf ->
  netbuf_push a (Some buf) k = (nb_data buf - k, Some (set_window buf (nb_data buf - k) (nb_tail buf) (nb_len buf + k))) /\
  nb_wf a (set_window buf (nb_data buf - k) (nb_tail buf) (nb_len buf + k)).
Proof.
  intros Hwf Hk Hroom. pose proof Hwf as [H1 H2 H3 H4 H5 H6]. unfold NETBUF_HEADROOM, NETBUF_MAX_SIZE in *.
  unfold netbuf_push. rewrite s32_small, (proj2 (Z.ltb_ge _ _)) by lia.
  rewrite (wf_addr a buf) by (done || lia). rewrite u32_small by lia. split; [done|].
  constructor; simpl; unfold NETBUF_HEADROOM, NETBUF_MAX_SIZE; lia.
Qed.

Lemma ethernet_output_spec n dev nd buf dst type l :
  dev <> 0 -> n_devs n !! dev = Some nd -> dev_ready nd -> is_mac dst -> 0 <= type < 2 ^ 16 ->
  nb_wf a buf -> 14 <= nb_data buf - nb_head buf ->
  nb_len buf = Z.of_nat (length l) -> read_bytes (n_mem n) (nb_data buf) (length l) = l -> nb_len buf <= 1504 ->
  exists m', stored (n_mem n) m' (nb_data buf - 14) (eth_hdr dst (nd_mac nd) type) /\
    ethernet_output a n dev buf dst type =
      Some (0, set_dev_at (set_mem n m') dev (dev_sent nd (eth_hdr dst (nd_mac nd) type ++ l))).
Proof.
  intros Hd Hn Hr Hm Ht Hwf Hroom Hl Hw Hb. pose proof Hwf as [H1 H2 H3 H4 H5 H6].
  unfold ethernet_output. rewrite (proj2 (Z.eqb_neq _ _)), Hn by done. cbn [mbind option_bind].
  unfold ETH_HEADER_LEN. destruct (push_spec buf 14 Hwf ltac:(lia) Hroom) as [-> Hwf'].
  rewrite (proj2 (Z.eqb_neq (nb_data buf - 14) 0)) by lia. cbv zeta. cbn [nb_data set_window].
  pose proof (eth_fill_stored (n_mem n) (nb_data buf - 14) dst (nd_mac nd) type Hm (dr_mac _ Hr) Ht) as Hst.
  set (m' := wr16 _ _ _) in *. exists m'. split; [exact Hst|].
  assert (length (eth_hdr dst (nd_mac nd) type) = 14%nat) as Hhl.
  { unfold eth_hdr. rewrite !length_app. destruct Hm as [-> _], (dr_mac _ Hr) as [-> _]. done. }
  apply (netdev_transmit_spec (set_mem n m')); try done.
  - cbn [nb_len set_window set_mac_header]. rewrite length_app, Hhl. lia.
  - cbn [nb_data set_window set_mac_header]. rewrite n_mem_set, length_app, read_bytes_app.
    rewrite (stored_read _ _ _ _ Hst). f_equal. rewrite Hhl. replace (nb_data buf - 14 + Z.of_nat 14) with (nb_data buf) by lia.
    rewrite (stored_other _ _ _ _ _ _ Hst); [exact Hw|]. rewrite Hhl. lia.
  - cbn [nb_len set_window set_mac_header]. lia.
Qed.

(** ** IP *)

(** What a successful send changes: the ring of one device, the bytes of the
    buffer, the age of an ARP entry and the identification counter. *)
Record frame_sent n (dev : Z) (nd : netdev) (frame : list Z) (p : Z) (hdr : list Z) (n' : net H T) : Prop := {
  fs_devs : n_devs n' = <[dev := dev_sent nd frame]> (n_devs n);
  fs_mem : stored (n_mem n) (n_mem n') p hdr;
  fs_live : forall L, kh_live (n_heap n) L -> kh_live (n_heap n') L;
  fs_ready : forall k, kh_ready (n_heap n) k -> kh_ready (n_heap n') k;
  fs_reg : n_netdevs n' = n_netdevs n /\ n_default n' = n_default n;
  fs_udp : n_udp n' = n_udp n;
  fs_icmp : n_icmp n' = n_icmp n;
  fs_tcp : n_tcp n' = n_tcp n;
  fs_uptime : n_uptime n' = n_uptime n;
  fs_ip : reass_table (n_ip n') = reass_table (n_ip n) /\ route_table (n_ip n') = route_table (n_ip n) /\
          ip_id_counter (n_ip n') = u16 (ip_id_counter (n_ip n) + 1);
  fs_arp : exists i, n_arp n' = alter (fun e => set_timestamp e (now_ms n)) i (n_arp n)
}.

(** The hop [ip_output] takes: device and address to resolve. *)
Definition ip_hop n (dev dst_ip : Z) : option (Z * Z) :=
  if dev =? 0 then ip_route_lookup n dst_ip
  else nd ← n_devs n !! dev; Some (dev, ip_get_next_hop nd dst_ip).

(** The cache knows the address of [ip]. *)
Definition resolved (c : list arp_entry) (ip : Z) (mac : list Z) : Prop :=
  exists i e, arp_cache_find c ip = Some i /\ c !! i = Some e /\ ae_state e = ARP_STATE_RESOLVED /\ ae_mac e = mac.

Lemma arp_resolve_known n dev ip mac : dev <> 0 -> resolved (n_arp n) ip mac ->
  exists i, arp_resolve a n dev ip = Some (0, mac, upd_arp n i (fun e => set_timestamp e (now_ms n))).
Proof.
  intros Hd (i & e & Hf & Hi & Hs & <-). exists i. unfold arp_resolve.
  rewrite (proj2 (Z.eqb_neq _ _)), Hf by done. cbn [mbind option_bind]. rewrite Hi. cbn [mbind option_bind].
  by rewrite Hs.
Qed.

Lemma ip_hdr_length len id proto ck src dst : length (ip_hdr len id proto ck src dst) = 20%nat.
Proof. done. Qed.

Lemma ip_hdr_patch len id proto ck src dst :
  splice 10 (le16 ck) (ip_hdr len id proto 0 src dst) = ip_hdr len id proto ck src dst.
Proof. done. Qed.

Lemma ip_output_spec n dev0 dev nd hop mac buf dst proto l :
  ip_hop n dev0 dst = Some (dev, hop) -> dev <> 0 -> n_devs n !! dev = Some nd -> dev_ready nd ->
  nd_ip_addr nd <> 0 -> resolved (n_arp n) hop mac -> is_mac mac ->
  0 <= proto < 256 -> 0 <= ip_id_counter (n_ip n) < 2 ^ 16 ->
  nb_wf a buf -> 34 <= nb_data buf - nb_head buf ->
  nb_len buf = Z.of_nat (length l) -> read_bytes (n_mem n) (nb_data buf) (length l) = l -> nb_len buf <= 1484 ->
  let hdr := eth_hdr mac (nd_mac nd) ETH_TYPE_IP ++
             ip_header (20 + nb_len buf) (ip_id_counter (n_ip n)) proto (nd_ip_addr nd) dst in
  exists n', ip_output a n dev0 buf dst proto = Some (0, n') /\
    frame_sent n dev nd (hdr ++ l) (nb_data buf - 34) hdr n'.
Proof.
  intros Hhop Hd Hn Hr Hip Hres Hmac Hp Hid Hwf Hroom Hl Hw Hb hdr. pose proof Hwf as [H1 H2 H3 H4 H5 H6].
  unfold ip_output. change (if dev0 =? 0 then _ else _) with (ip_hop n dev0 dst). rewrite Hhop. cbn [mbind option_bind].
  rewrite (proj2 (Z.eqb_neq dev 0)), Hn by done. cbn [mbind option_bind]. rewrite (proj2 (Z.eqb_neq _ 0) Hip).
  unfold IP_HEADER_MIN_LEN. destruct (push_spec buf 20 Hwf ltac:(lia) ltac:(lia)) as [-> Hwf'].
  set (buf' := set_window buf _ _ _) in *. rewrite (proj2 (Z.eqb_neq (nb_data buf - 20) 0)) by lia. cbv zeta.
  change (nb_data buf') with (nb_data buf - 20). change (nb_len buf') with (nb_len buf + 20).
  set (id := ip_id_counter (n_ip n)) in *. set (src := nd_ip_addr nd) in *.
  pose proof (fill_ip_stored (n_mem n) (nb_data buf - 20) (nb_len buf + 20) id proto src dst ltac:(lia) Hid Hp) as Hst.
  set (m := fill_ip _ _ _ _ _ _ _) in *. unfold ip_checksum.
  pose proof (checksum_window m (nb_data buf - 20) 20 ltac:(lia)) as Hck. change (Z.of_nat 20) with 20 in Hck.
  pose proof (stored_read _ _ _ _ Hst) as Hrd. rewrite ip_hdr_length in Hrd. rewrite Hck, Hrd. cbn [mbind option_bind].
  fold (ip_ck (nb_len buf + 20) id proto src dst).
  pose proof (stored_over _ _ _ _ _ 10 _ _ Hst
    (stored_wr16 m (nb_data buf - 20 + 10) (ip_ck (nb_len buf + 20) id proto src dst)) ltac:(lia) ltac:(simpl; lia)) as Hst2.
  rewrite ip_hdr_patch in Hst2. fold (ip_header (nb_len buf + 20) id proto src dst) in Hst2.
  set (m2 := wr16 m _ _) in *. unfold ip_send. set (n1 := set_mem _ m2).
  destruct (arp_resolve_known n1 dev hop mac Hd Hres) as (i & ->). cbn [mbind option_bind]. rewrite Z.eqb_refl.
  assert (length (ip_header (nb_len buf + 20) id proto src dst) = 20%nat) as Hhl by done.
  assert (length (eth_hdr mac (nd_mac nd) ETH_TYPE_IP) = 14%nat) as Hel.
  { unfold eth_hdr. rewrite !length_app. destruct Hmac as [-> _], (dr_mac _ Hr) as [-> _]. done. }
  destruct (ethernet_output_spec (upd_arp n1 i (fun e => set_timestamp e (now_ms n1))) dev nd
    (set_network_header buf' (nb_data buf - 20)) mac ETH_TYPE_IP (ip_header (nb_len buf + 20) id proto src dst ++ l))
    as (m' & Hst' & ->); try done; [auto with castor|..].
  - simpl. lia.
  - rewrite length_app, Hhl. cbn [nb_len set_network_header]. change (nb_len buf') with (nb_len buf + 20). lia.
  - change (n_mem (upd_arp n1 i (fun e => set_timestamp e (now_ms n1)))) with (n_mem n1).
    unfold n1. rewrite n_mem_set. rewrite length_app, read_bytes_app. change (nb_data (set_network_header _ _)) with (nb_data buf - 20).
    rewrite (stored_read _ _ _ _ Hst2). f_equal. rewrite Hhl. replace (nb_data buf - 20 + Z.of_nat 20) with (nb_data buf) by lia.
    rewrite (stored_other _ _ _ _ _ _ Hst2); [exact Hw|]. rewrite Hhl. lia.
  - simpl. lia.
  - eexists. split; [reflexivity|]. unfold hdr. rewrite (Z.add_comm 20). constructor; try done.
    + rewrite <- app_assoc. reflexivity.
    + change (n_mem (set_dev_at ?x _ _)) with (n_mem x). rewrite n_mem_set.
      change (n_mem (upd_arp n1 i (fun e => set_timestamp e (now_ms n1)))) with (n_mem n1) in Hst'.
      unfold n1 in Hst'. rewrite n_mem_set in Hst'. change (nb_data (set_network_header _ _)) with (nb_data buf - 20) in Hst'.
      eapply stored_before; [exact Hst2|replace (nb_data buf - 34) with (nb_data buf - 20 - 14) by lia; exact Hst'|].
      rewrite Hel. lia.
    + intros L HL. simpl. apply law_mem_live. by apply law_mem_live.
    + intros k Hk. simpl. apply law_mem_ready. by apply law_mem_ready.
    + simpl. by exists i.
Qed.

(** ** UDP *)

Lemma put_spec buf k : nb_wf a buf -> 0 <= k < 2 ^ 31 -> k <= nb_end buf - nb_tail buf ->
  netbuf_put a (Some buf) k = (nb_tail buf, Some (set_window buf (nb_data buf) (nb_tail buf + k) (nb_len buf + k))) /\
  nb_wf a (set_window buf (nb_data buf) (nb_tail buf + k) (nb_len buf + k)).
Proof.
  intros Hwf Hk Hroom. pose proof Hwf as [H1 H2 H3 H4 H5 H6]. unfold NETBUF_HEADROOM, NETBUF_MAX_SIZE in *.
  unfold netbuf_put. rewrite s32_small, (proj2 (Z.ltb_ge _ _)) by lia.
  rewrite (wf_addr a buf) by (done || lia). rewrite u32_small by lia. split; [done|].
  constructor; simpl; unfold NETBUF_HEADROOM, NETBUF_MAX_SIZE; lia.
Qed.

(** The bytes at [data] lie in one of the live blocks. *)
Definition in_block (L : list block) (data len : Z) : Prop :=
  exists q sz, (q, sz) ∈ L /\ q <= data /\ data + len <= q + sz.

Lemma udp_hdr_patch sport dport len ck payload :
  splice 6 (le16 ck) (udp_hdr sport dport len 0 ++ payload) = udp_hdr sport dport len ck ++ payload.
Proof. by rewrite net_splice_app by done. Qed.

(** Header, data and checksum of a datagram in memory: [udp_packet]. *)
Lemma udp_fill_spec m p sport dport data len src dst :
  0 <= sport < 2 ^ 16 -> 0 <= dport < 2 ^ 16 -> 0 <= len <= 1472 -> data <> 0 ->
  data + len <= p \/ p + 8 + len <= data ->
  let payload := read_bytes m data (Z.to_nat len) in
  let m1 := fill_udp m p sport dport (8 + len) in
  let m2 := if negb (data =? 0) && (0 <? len) then memcpy m1 (p + 8) data (Z.to_nat len) else m1 in
  exists ck, udp_checksum m2 src dst p (8 + len) = Some ck /\
    stored m (wr16 m2 (p + 6) ck) p (udp_packet src dst sport dport payload).
Proof.
  intros Hs Hd Hl H0 Hdis payload m1 m2. assert (length payload = Z.to_nat len) as Hpl by apply read_bytes_length.
  pose proof (fill_udp_stored m p sport dport (8 + len) Hs Hd ltac:(lia)) as S1. fold m1 in S1.
  assert (stored m m2 p (udp_hdr sport dport (8 + len) 0 ++ payload)) as S2.
  { unfold m2. rewrite (proj2 (Z.eqb_neq _ _) H0). cbn [negb andb]. case_if.
    - eapply stored_app; [exact S1| |reflexivity].
      replace payload with (read_bytes m1 data (Z.to_nat len)).
      2:{ apply (stored_other _ _ _ _ _ _ S1). simpl. lia. }
      change (Z.of_nat (length _)) with 8. apply stored_copied, memcpy_copied. unfold fwd_safe. lia.
    - assert (payload = []) as -> by (apply nil_length_inv; rewrite Hpl; lia). by rewrite app_nil_r. }
  eexists. split.
  - replace (8 + len) with (Z.of_nat (8 + Z.to_nat len)) by lia. rewrite udp_checksum_window by lia.
    replace (8 + Z.to_nat len)%nat with (length (udp_hdr sport dport (8 + len) 0 ++ payload))
      by (rewrite length_app, Hpl; done).
    by rewrite (stored_read _ _ _ _ S2).
  - unfold udp_packet. eapply stored_eq; [eapply (stored_over _ _ _ _ _ 6); [exact S2|apply stored_wr16|done|simpl; lia]|].
    rewrite udp_hdr_patch. unfold udp_ck. rewrite Hpl, length_app, Hpl.
    replace (8 + Z.of_nat (Z.to_nat len)) with (8 + len) by lia.
    replace (Z.of_nat (length (udp_hdr sport dport (8 + len) 0) + Z.to_nat len)) with (8 + len) by (simpl length; lia). done.
Qed.

Hypothesis Hlimit : kh_limit <= 2 ^ ptr_bits a.

(** The frame of a datagram. *)
Definition udp_frame (nd : netdev) (mac : list Z) (id sport dst dport : Z) (payload : list Z) : list Z :=
  eth_hdr mac (nd_mac nd) ETH_TYPE_IP ++
  ip_packet id IP_PROTO_UDP (nd_ip_addr nd) dst (udp_packet (nd_ip_addr nd) dst sport dport payload).

Lemma udp_packet_length src dst sport dport payload :
  length (udp_packet src dst sport dport payload) = (8 + length payload)%nat.
Proof. unfold udp_packet. rewrite length_app. done. Qed.

(** A device and a cache that can carry a datagram to [dst]. *)
Record can_send n (dst : Z) (nd : netdev) (mac : list Z) : Prop := {
  cs_dev : n_default n <> 0;
  cs_nd : n_devs n !! n_default n = Some nd;
  cs_ready : dev_ready nd;
  cs_ip : nd_ip_addr nd <> 0;
  cs_arp : resolved (n_arp n) (ip_get_next_hop nd dst) mac;
  cs_mac : is_mac mac;
  cs_id : 0 <= ip_id_counter (n_ip n) < 2 ^ 16
}.

(** A buffer filled to [size] bytes: two blocks of its own, away from the
    others. *)
Record filled_buf (h : H) (L : list block) (size : Z) (buf : netbuf) : Prop := {
  fb_wf : nb_wf a buf;
  fb_len : nb_len buf = size;
  fb_data : nb_data buf = nb_head buf + 128;
  fb_tail : nb_tail buf = nb_data buf + size;
  fb_live : exists s1 s2 L', kh_live h L' /\ L' ≡ₚ (nb_head buf, s2) :: (nb_self buf, s1) :: L;
  fb_apart : forall q sz, (q, sz) ∈ L -> q + sz <= nb_head buf \/ nb_end buf <= q
}.

Lemma alloc_put_spec h L size : kh_live h L -> 0 <= size <= 1920 -> alloc_ready a h (alloc_size size) ->
  exists r h', netbuf_alloc a h size = Some (r, h') /\ Forall (same_block (kh_mem h) (kh_mem h')) L /\
    match r with
    | None => exists L', kh_live h' L' /\ L' ≡ₚ L
    | Some b => exists buf, netbuf_put a (Some b) size = (nb_data buf, Some buf) /\ filled_buf h' L size buf
    end.
Proof.
  intros HL Hs Hrdy.
  destruct (netbuf_alloc_spec a Hlimit h L size HL ltac:(unfold NETBUF_HEADROOM; lia) Hrdy) as (r & h' & E & Hsame & Hres).
  exists r, h'. split; [done|]. split; [done|]. destruct r as [b|]; [|done].
  destruct Hres as (s1 & s2 & L' & Hwf & Htot & Hdata & Hlen & HL' & HP & Hs2 & Hdis & _).
  pose proof Hwf as [W1 W2 W3 W4 W5 W6]. unfold alloc_size, NETBUF_HEADROOM, NETBUF_MAX_SIZE in *.
  destruct (put_spec b size Hwf ltac:(lia) ltac:(lia)) as [-> Hwf'].
  eexists. split; [f_equal; simpl; lia|]. constructor; simpl; try lia; [done|by eauto|].
  apply Forall_cons_1 in Hdis as [_ Hdis]. intros q sz Hin.
  pose proof (proj1 (Forall_forall _ _) Hdis _ (proj1 (list_elem_of_In _ _) Hin)) as Hdq.
  unfold ranges_disjoint in Hdq. simpl in Hdq. lia.
Qed.

(** There is no memory for a buffer. *)
Definition no_memory (h : H) (size : Z) : Prop := exists h', netbuf_alloc a h size = Some (None, h').

Lemma udp_output_spec n L nd mac sport dst dport data len :
  can_send n dst nd mac -> 0 <= sport < 2 ^ 16 -> 0 <= dport < 2 ^ 16 -> 0 <= len <= 1472 ->
  kh_live (n_heap n) L -> alloc_ready a (n_heap n) (alloc_size (8 + len)) -> in_block L data len -> data <> 0 ->
  let payload := read_bytes (n_mem n) data (Z.to_nat len) in
  exists ret n' L', udp_output a n sport dst dport data len = Some (ret, n') /\ kh_live (n_heap n') L' /\
    ((ret = -1 /\ L' ≡ₚ L /\ n_devs n' = n_devs n /\ no_memory (n_heap n) (8 + len)) \/
     (ret = 0 /\ (exists b1 b2, L' ≡ₚ b1 :: b2 :: L) /\
      n_devs n' = <[n_default n := dev_sent nd (udp_frame nd mac (ip_id_counter (n_ip n)) sport dst dport payload)]> (n_devs n))).
Proof.
  intros [Hd Hn Hr Hip Harp Hmac Hid] Hsp Hdp Hl HL Hrdy (q & sz & Hin & Hq1 & Hq2) H0 payload. unfold udp_output, netdev_get_default.
  rewrite (proj2 (Z.eqb_neq _ _) Hd). cbv zeta. unfold UDP_HEADER_LEN. rewrite u32_small by lia.
  destruct (alloc_put_spec (n_heap n) L (8 + len) HL ltac:(lia) Hrdy) as (r & h & Ealloc & Hsame & Hres).
  rewrite Ealloc. cbn [mbind option_bind]. destruct r as [b|]; cycle 1.
  { destruct Hres as (L' & HL' & HP). exists (-1), (set_heap n h), L'. split_and!; try done. left. split_and!; try done. by exists h. }
  destruct Hres as (buf & -> & [Hwf Hlen Hdata Htail (s1 & s2 & L' & HL' & HP) Hap]).
  pose proof Hwf as [W1 W2 W3 W4 W5 W6]. specialize (Hap _ _ Hin).
  pose proof (proj1 (Forall_forall _ _) Hsame _ (proj1 (list_elem_of_In _ _) Hin)) as Hsq.
  unfold deref. rewrite (proj2 (Z.eqb_neq (nb_data buf) 0)) by lia.
  change (n_devs (set_heap n h)) with (n_devs n). rewrite Hn. cbn [mbind option_bind].
  change (n_mem (set_heap n h)) with (kh_mem h).
  assert (read_bytes (kh_mem h) data (Z.to_nat len) = payload) as Hpay.
  { apply read_bytes_ext. intros i Hi. apply Hsq. simpl. lia. }
  unfold u16. rewrite Z.mod_small by lia.
  destruct (udp_fill_spec (kh_mem h) (nb_data buf) sport dport data len (nd_ip_addr nd) dst Hsp Hdp Hl H0 ltac:(lia)) as (ck & -> & Hst).
  cbn [mbind option_bind]. rewrite Hpay in Hst. set (m3 := wr16 _ _ ck) in *. set (pkt := udp_packet _ _ _ _ _) in *.
  assert (length pkt = Z.to_nat (8 + len)) as Hpl.
  { unfold pkt. rewrite udp_packet_length. unfold payload. rewrite read_bytes_length. lia. }
  destruct (ip_output_spec (set_mem (set_heap n h) m3) (n_default n) (n_default n) nd (ip_get_next_hop nd dst) mac
    buf dst IP_PROTO_UDP pkt) as (n' & -> & Hfs); try done; try lia.
  - unfold ip_hop. rewrite (proj2 (Z.eqb_neq _ _) Hd). simpl. by rewrite Hn.
  - rewrite n_mem_set. exact (stored_read _ _ _ _ Hst).
  - cbn [mbind option_bind]. exists 0, n', L'. split; [done|].
    split; [apply (fs_live _ _ _ _ _ _ _ Hfs); simpl; by apply law_mem_live|]. right. split; [done|].
    split; [by eauto|]. rewrite (fs_devs _ _ _ _ _ _ _ Hfs). unfold udp_frame, ip_packet. rewrite <- app_assoc.
    fold pkt. rewrite Hpl, Hlen, Z2Nat.id by lia. done.
Qed.

End send.
