(* ===== verification/NetProps.v ===== *)
(** * A datagram from one machine to another

    The receive path, the composition of the send path with it, and the
    packets that the stack does not check. *)

From S2P Require Import Prelude Mem HeapFacts HeapInterface Checksum Netbuf NetBytes NetState Netdev Arp Ip Icmp Udp NetInput.
From S2P Require Import NetSend.

(** ** What the receive path does with a frame

    The receive functions on a buffer whose window holds the bytes the send
    path produces, possibly followed by padding. *)

(** The bytes of a buffer. *)
Definition window {H T} `{!KHeap H} (n : net H T) (b : netbuf) : list Z :=
  read_bytes (n_mem n) (nb_data b) (Z.to_nat (nb_len b)).

Lemma part_of m p k l1 l2 l3 :
  read_bytes m p k = l1 ++ l2 ++ l3 -> read_bytes m (p + Z.of_nat (length l1)) (length l2) = l2.
Proof.
  intros Hw. assert (k = (length l1 + (length l2 + length l3))%nat) as ->.
  { rewrite <- (read_bytes_length m k p), Hw, !length_app. done. }
  rewrite !read_bytes_app in Hw. apply app_inj_1 in Hw as [_ Hw]; [|apply read_bytes_length].
  apply app_inj_1 in Hw as [Hw _]; [done|apply read_bytes_length].
Qed.

(** Part of a window. *)
Lemma slice m p k l i j : read_bytes m p k = l -> (i + j <= k)%nat ->
  read_bytes m (p + Z.of_nat i) j = take j (drop i l).
Proof. intros <- Hk. by rewrite read_bytes_drop, read_bytes_take by lia. Qed.

Lemma rd16_le16 m p v : 0 <= v < 2 ^ 16 -> read_bytes m p 2 = le16 v -> rd16 m p = v.
Proof.
  intros Hv Hr. unfold le16 in Hr. cbn [read_bytes] in Hr. injection Hr as R0 R1.
  unfold rd16. rewrite R0, R1. by apply u8_shift.
Qed.

Lemma rd_one m p v : read_bytes m p 1 = [v] -> rd m p = v.
Proof. cbn [read_bytes]. by intros [= ->]. Qed.

(** The fields of a header in memory. *)
Lemma ip_fields m p len id proto ck src dst : read_bytes m p 20 = ip_hdr len id proto ck src dst ->
  0 <= len < 2 ^ 16 -> 0 <= id < 2 ^ 16 -> 0 <= src < 2 ^ 32 -> 0 <= dst < 2 ^ 32 ->
  rd m p = 0x45 /\ ntohs (rd16 m (p + 2)) = len /\ ntohs (rd16 m (p + 4)) = id /\
  ntohs (rd16 m (p + 6)) = IP_FLAG_DF /\ rd m (p + 9) = proto /\ rd32 m (p + 12) = src /\ rd32 m (p + 16) = dst.
Proof.
  intros Hw Hl Hi Hs Hd. pose proof (fun i j => slice m p 20 _ i j Hw) as Hp.
  split; [rewrite <- (Z.add_0_r p); apply rd_one, (Hp 0%nat 1%nat); lia|].
  split; [apply ntohs_be16; [done|]; apply (Hp 2%nat 2%nat); lia|].
  split; [apply ntohs_be16; [done|]; apply (Hp 4%nat 2%nat); lia|].
  split; [apply ntohs_be16; [by vm_compute|]; apply (Hp 6%nat 2%nat); lia|].
  split; [apply rd_one, (Hp 9%nat 1%nat); lia|].
  split; (apply rd32_le32; [done|]); [apply (Hp 12%nat 4%nat)|apply (Hp 16%nat 4%nat)]; lia.
Qed.

Lemma udp_fields m p sport dport len ck : read_bytes m p 8 = udp_hdr sport dport len ck ->
  0 <= sport < 2 ^ 16 -> 0 <= dport < 2 ^ 16 -> 0 <= len < 2 ^ 16 -> 0 <= ck < 2 ^ 16 ->
  ntohs (rd16 m p) = sport /\ ntohs (rd16 m (p + 2)) = dport /\ ntohs (rd16 m (p + 4)) = len /\ rd16 m (p + 6) = ck.
Proof.
  intros Hw Hs Hd Hl Hc. pose proof (fun i j => slice m p 8 _ i j Hw) as Hp.
  split; [rewrite <- (Z.add_0_r p); apply ntohs_be16; [done|]; apply (Hp 0%nat 2%nat); lia|].
  split; [apply ntohs_be16; [done|]; apply (Hp 2%nat 2%nat); lia|].
  split; [apply ntohs_be16; [done|]; apply (Hp 4%nat 2%nat); lia|].
  apply rd16_le16; [done|]. apply (Hp 6%nat 2%nat). lia.
Qed.

(** ** The headers are accepted *)

Lemma lsum_patch k ck l : Nat.even k = true -> (k + 2 <= length l)%nat -> 0 <= ck < 2 ^ 16 ->
  take 2 (drop k l) = [0; 0] -> lsum (splice k (le16 ck) l) = ck + lsum l.
Proof.
  intros Hk Hl Hck Hz. unfold splice. change (length (le16 ck)) with 2%nat.
  rewrite <- (take_drop k l) at 3. rewrite <- (take_drop 2 (drop k l)) at 1. rewrite Hz, drop_drop.
  rewrite !lsum_app; try done; try (rewrite length_take, Nat.min_l by lia; done).
  cbn [le16 lsum]. pose proof (u8_shift ck Hck). lia.
Qed.

Lemma ip_hdr_bytes len id proto ck src dst : 0 <= len < 2 ^ 16 -> 0 <= id < 2 ^ 16 -> 0 <= proto < 256 ->
  Forall is_byte (ip_hdr len id proto ck src dst).
Proof.
  intros Hl Hi Hp. unfold ip_hdr. rewrite !Forall_app.
  split_and!; try apply le16_bytes; try apply le32_bytes; try (by apply be16_bytes);
    repeat constructor; unfold is_byte; try lia; by vm_compute.
Qed.

Lemma lsum_pos v l : Forall is_byte (v :: l) -> 0 < v -> 0 < lsum (v :: l).
Proof.
  intros Hb Hv. apply Forall_cons_1 in Hb as [_ Hb]. destruct l as [|w l]; cbn [lsum]; [done|].
  apply Forall_cons_1 in Hb as [Hw Hb]. unfold is_byte in Hw. pose proof (lsum_range _ Hb). lia.
Qed.

(** The checksum of a filled header is 0. *)
Lemma ip_header_sum len id proto src dst : 0 <= len < 2 ^ 16 -> 0 <= id < 2 ^ 16 -> 0 <= proto < 256 ->
  csum (lsum (ip_header len id proto src dst)) = 0.
Proof.
  intros Hl Hi Hp. unfold ip_header, ip_ck. set (l := ip_hdr len id proto 0 src dst).
  pose proof (lsum_range _ (ip_hdr_bytes len id proto 0 src dst Hl Hi Hp)) as Hr. fold l in Hr.
  change (length l) with 20%nat in Hr.
  assert (0 < lsum l) as Hpos by (apply (lsum_pos 0x45 _ (ip_hdr_bytes len id proto 0 src dst Hl Hi Hp)); lia).
  pose proof (csum_spec (lsum l) ltac:(lia)) as (_ & Hc & _).
  rewrite <- ip_hdr_patch. fold l. rewrite lsum_patch; [apply csum_filled; lia|done|change (length l) with 20%nat; lia|done|done].
Qed.

(** ** Layer by layer *)

Lemma mac_addr_cmp_refl l : mac_addr_cmp l l = 0.
Proof. induction l as [|x l IH]; cbn [mac_addr_cmp]; [done|]. by rewrite Z.eqb_refl. Qed.

(** The same storage. *)
Definition same_buf (b b' : netbuf) : Prop :=
  nb_self b' = nb_self b /\ nb_head b' = nb_head b /\ nb_end b' = nb_end b /\ nb_tail b' = nb_tail b.

Section receive.
Context (a : arch) {H T : Type} `{!KHeap H} `{!KHeapLaws H}.
Context (tcp_input : net H T -> Z -> netbuf -> Z -> Z -> option (net H T)).
Context (recv_callback : Z -> net H T -> Z -> netbuf -> Z -> Z -> option (net H T)).
Implicit Types n : net H T.

Lemma pull_spec buf k : nb_wf a buf -> 0 <= k <= nb_len buf ->
  netbuf_pull a (Some buf) k = (nb_data buf + k, Some (set_window buf (nb_data buf + k) (nb_tail buf) (nb_len buf - k))) /\
  nb_wf a (set_window buf (nb_data buf + k) (nb_tail buf) (nb_len buf - k)).
Proof.
  intros Hwf Hk. pose proof Hwf as [H1 H2 H3 H4 H5 H6]. unfold NETBUF_HEADROOM, NETBUF_MAX_SIZE in *.
  unfold netbuf_pull. rewrite (proj2 (Z.ltb_ge _ _)) by lia.
  rewrite (wf_addr a buf) by (done || lia). rewrite u32_small by lia. split; [done|].
  constructor; simpl; unfold NETBUF_HEADROOM, NETBUF_MAX_SIZE; lia.
Qed.

Lemma window_length n buf l : nb_wf a buf -> window n buf = l -> nb_len buf = Z.of_nat (length l).
Proof. intros [H1 H2 H3 H4 H5 H6] <-. unfold window. rewrite read_bytes_length. lia. Qed.

(** The window after a header has been pulled. *)
Lemma window_pull n buf hdr rest b' : nb_wf a buf -> window n buf = hdr ++ rest ->
  nb_data b' = nb_data buf + Z.of_nat (length hdr) -> nb_len b' = nb_len buf - Z.of_nat (length hdr) ->
  window n b' = rest.
Proof.
  intros Hwf Hw Hd Hl. pose proof (window_length n buf _ Hwf Hw) as Hlen. rewrite length_app in Hlen.
  unfold window in *. rewrite Hd, Hl. replace (Z.to_nat (nb_len buf)) with (length hdr + length rest)%nat in Hw by lia.
  rewrite read_bytes_app in Hw. apply app_inj_1 in Hw as [_ Hw]; [|apply read_bytes_length].
  replace (Z.to_nat (nb_len buf - Z.of_nat (length hdr))) with (length rest) by lia. exact Hw.
Qed.

Lemma ethernet_input_ip n dev nd buf dst src rest :
  dev <> 0 -> n_devs n !! dev = Some nd -> nb_wf a buf ->
  is_mac dst -> is_mac src -> window n buf = eth_hdr dst src ETH_TYPE_IP ++ rest ->
  dst = nd_mac nd \/ mac_addr_is_broadcast dst = true ->
  exists buf', ethernet_input a tcp_input recv_callback n dev buf = ip_input a tcp_input recv_callback n dev buf' /\
    nb_wf a buf' /\ window n buf' = rest /\ same_buf buf buf'.
Proof.
  intros Hd Hn Hwf [Ld Bd] [Ls Bs] Hw Hfor. pose proof (window_length n buf _ Hwf Hw) as Hlen.
  assert (length (eth_hdr dst src ETH_TYPE_IP) = 14%nat) as Hhl by (unfold eth_hdr; rewrite !length_app, Ld, Ls; done).
  rewrite length_app, Hhl in Hlen. unfold ethernet_input, ETH_HEADER_LEN.
  rewrite (proj2 (Z.eqb_neq _ _) Hd), (proj2 (Z.ltb_ge _ _)), Hn by lia. cbn [mbind option_bind]. cbv zeta.
  pose proof Hw as Hw'. unfold window, eth_hdr in Hw'. rewrite <- !app_assoc in Hw'.
  assert (mac_at (n_mem n) (nb_data buf) = dst) as ->.
  { pose proof (part_of _ _ _ [] dst _ Hw') as E. rewrite Ld in E. cbn [length] in E.
    by replace (nb_data buf + Z.of_nat 0) with (nb_data buf) in E by lia. }
  replace (negb (mac_addr_is_broadcast dst) && negb (mac_addr_is_multicast dst) && negb (mac_addr_cmp dst (nd_mac nd) =? 0)) with false.
  2:{ destruct Hfor as [->| ->]; [rewrite mac_addr_cmp_refl; by rewrite andb_false_r|done]. }
  assert (eth_ntohs (rd16 (n_mem n) (nb_data buf + 12)) = ETH_TYPE_IP) as ->.
  { rewrite eth_ntohs_htons by apply rd16_range. rewrite app_assoc in Hw'. pose proof (part_of _ _ _ _ _ _ Hw') as E.
    rewrite length_app, Ld, Ls in E. apply ntohs_be16; [by vm_compute|exact E]. }
  destruct (pull_spec (set_mac_header buf (nb_data buf)) 14 ltac:(auto with castor) ltac:(simpl; lia)) as [-> Hwf'].
  change (ETH_TYPE_IP =? ETH_TYPE_ARP) with false. change (ETH_TYPE_IP =? ETH_TYPE_IP) with true. cbv iota.
  eexists. split; [reflexivity|]. split; [auto with castor|]. split; [|done].
  apply (window_pull n buf (eth_hdr dst src ETH_TYPE_IP)); [done|done|by rewrite Hhl|by rewrite Hhl].
Qed.

(** A whole packet, with whatever follows it in the frame. *)
Lemma ip_input_whole n dev nd buf id proto src dst body pad :
  dev <> 0 -> n_devs n !! dev = Some nd -> nb_wf a buf ->
  0 <= id < 2 ^ 16 -> 0 <= proto < 256 -> 0 <= src < 2 ^ 32 -> 0 <= dst < 2 ^ 32 ->
  window n buf = ip_packet id proto src dst body ++ pad -> is_for_us nd dst = true ->
  exists buf', ip_input a tcp_input recv_callback n dev buf = ip_dispatch a tcp_input recv_callback n dev buf' proto src dst /\
    nb_wf a buf' /\ window n buf' = body ++ pad /\ same_buf buf buf'.
Proof.
  intros Hd Hn Hwf Hid Hp Hs Hdst Hw Hus. pose proof (window_length n buf _ Hwf Hw) as Hlen.
  pose proof Hwf as [W1 W2 W3 W4 W5 W6]. unfold NETBUF_HEADROOM, NETBUF_MAX_SIZE in *.
  unfold ip_packet in Hw, Hlen. set (len := 20 + Z.of_nat (length body)) in *.
  rewrite !length_app in Hlen. change (length (ip_header _ _ _ _ _)) with 20%nat in Hlen. rewrite <- app_assoc in Hw.
  assert (read_bytes (n_mem n) (nb_data buf) 20 = ip_header len id proto src dst) as Hhdr.
  { pose proof (part_of _ _ _ [] (ip_header len id proto src dst) _ Hw) as E. cbn [length] in E.
    by replace (nb_data buf + Z.of_nat 0) with (nb_data buf) in E by lia. }
  destruct (ip_fields _ _ _ _ _ _ _ _ Hhdr ltac:(lia) Hid Hs Hdst) as (F0 & F2 & F4 & F6 & F9 & F12 & F16).
  unfold ip_input, IP_HEADER_MIN_LEN, ip_version, ip_header_len.
  rewrite (proj2 (Z.eqb_neq _ _) Hd), (proj2 (Z.ltb_ge _ _)), F0 by lia. cbv zeta.
  change (nb_len (set_network_header _ _)) with (nb_len buf).
  change (negb (Z.land (Z.shiftr 69 4) 15 =? IP_VERSION_4)) with false. change (u8 (Z.land 69 15 * 4)) with 20.
  change (20 <? 20) with false. rewrite (proj2 (Z.ltb_ge (nb_len buf) 20)) by lia. cbn [orb].
  assert (ip_checksum (n_mem n) (nb_data buf) 20 = Some 0) as ->.
  { unfold ip_checksum. pose proof (checksum_window (n_mem n) (nb_data buf) 20 ltac:(lia)) as E.
    change (Z.of_nat 20) with 20 in E. rewrite E, Hhdr, ip_header_sum by lia. done. }
  cbn [mbind option_bind]. change (negb (0 =? 0)) with false. cbv iota.
  rewrite F2, F6, F9, F12, F16, Hn. rewrite (proj2 (Z.ltb_ge len 20)), (proj2 (Z.ltb_ge (nb_len buf) len)) by lia.
  cbn [orb mbind option_bind]. rewrite Hus. cbn [negb].
  change (negb (Z.land IP_FLAG_DF IP_FLAG_MF =? 0) || negb (Z.land IP_FLAG_DF IP_FRAG_OFFSET_MASK =? 0)) with false. cbv iota.
  destruct (pull_spec (set_network_header buf (nb_data buf)) 20 ltac:(auto with castor) ltac:(simpl; lia)) as [-> Hwf'].
  eexists. split; [reflexivity|]. split; [auto with castor|]. split; [|done].
  by apply (window_pull n buf (ip_header len id proto src dst)).
Qed.

Lemma udp_ck_range src dst sport dport payload : Z.of_nat (length payload) <= 2048 -> Forall is_byte payload ->
  0 <= sport < 2 ^ 16 -> 0 <= dport < 2 ^ 16 -> 0 <= udp_ck src dst sport dport payload < 2 ^ 16.
Proof.
  intros Hl Hb Hs Hd. unfold udp_ck. cbv zeta. set (len := 8 + Z.of_nat (length payload)).
  assert (Forall is_byte (udp_hdr sport dport len 0 ++ payload)) as Hb1.
  { unfold udp_hdr. rewrite !Forall_app. split_and!; try done; try apply le16_bytes; apply be16_bytes; try done. lia. }
  pose proof (lsum_range _ Hb1) as R1. rewrite length_app in R1. change (length (udp_hdr _ _ _ _)) with 8%nat in R1.
  pose proof (lsum_range _ (pseudo_hdr_bytes src dst IP_PROTO_UDP len ltac:(unfold IP_PROTO_UDP; lia) ltac:(lia))) as R2.
  change (length (pseudo_hdr _ _ _ _)) with 12%nat in R2. apply csum_spec. lia.
Qed.

(** The checksum of a datagram in memory is accepted. *)
Lemma udp_checksum_accepted m p src dst sport dport payload :
  Z.of_nat (length payload) <= 2048 -> Forall is_byte payload -> 0 <= sport < 2 ^ 16 -> 0 <= dport < 2 ^ 16 ->
  read_bytes m p (8 + length payload) = udp_packet src dst sport dport payload ->
  udp_checksum_ok m src dst p (8 + Z.of_nat (length payload)) = Some true.
Proof.
  intros Hl Hb Hs Hd Hw. pose proof (udp_ck_range src dst sport dport payload Hl Hb Hs Hd) as Hck.
  assert (rd16 m (p + 6) = udp_ck src dst sport dport payload) as Hrd.
  { apply rd16_le16; [done|]. pose proof (slice m p _ _ 6 2 Hw ltac:(lia)) as E. exact E. }
  unfold udp_checksum_ok. cbv zeta. rewrite Hrd. case_if; [done|].
  replace (8 + Z.of_nat (length payload)) with (Z.of_nat (8 + length payload)) by lia.
  rewrite udp_checksum_window by lia.
  rewrite (stored_window m (wr16 m (p + 6) 0) p 6 (le16 0) (8 + length payload) (stored_wr16 m (p + 6) 0)) by (simpl; lia).
  rewrite Hw. unfold udp_packet. rewrite net_splice_app by done.
  change (splice 6 (le16 0) (udp_hdr ?x ?y ?z ?c)) with (udp_hdr x y z 0). cbn [mbind option_bind].
  unfold udp_ck. cbv zeta. replace (Z.of_nat (8 + length payload)) with (8 + Z.of_nat (length payload)) by lia.
  by rewrite Z.eqb_refl.
Qed.

Lemma udp_input_deliver n dev buf src dst sport dport payload pad pcb p :
  dev <> 0 -> nb_wf a buf -> 0 <= sport < 2 ^ 16 -> 0 <= dport < 2 ^ 16 ->
  window n buf = udp_packet src dst sport dport payload ++ pad ->
  udp_find_pcb (n_udp n) dst dport src sport = Some pcb -> pcb <> 0 ->
  udp_objs (n_udp n) !! pcb = Some p -> up_recv_callback p = 0 ->
  exists buf', udp_input a recv_callback n dev buf src dst =
      Some (set_udp n (set_obj (n_udp n) pcb
        (set_queue p (up_recv_queue p ++ [Datagram buf' src sport]) (u32 (up_recv_queue_len p + 1))))) /\
    nb_wf a buf' /\ window n buf' = payload ++ pad /\ same_buf buf buf'.
Proof.
  intros Hd Hwf Hs Hdp Hw Hfind Hpcb Hobj Hcb. pose proof (window_length n buf _ Hwf Hw) as Hlen.
  pose proof Hwf as [W1 W2 W3 W4 W5 W6]. unfold NETBUF_HEADROOM, NETBUF_MAX_SIZE in *.
  rewrite length_app, udp_packet_length in Hlen. set (len := 8 + Z.of_nat (length payload)) in *.
  assert (Forall is_byte payload) as Hb.
  { pose proof (read_bytes_bytes (n_mem n) (Z.to_nat (nb_len buf)) (nb_data buf)) as Hb. unfold window in Hw. rewrite Hw in Hb.
    unfold udp_packet in Hb. rewrite !Forall_app in Hb. tauto. }
  pose proof (udp_ck_range src dst sport dport payload ltac:(lia) Hb Hs Hdp) as Hck.
  assert (read_bytes (n_mem n) (nb_data buf) (8 + length payload) = udp_packet src dst sport dport payload) as Hpk.
  { pose proof (part_of _ _ _ [] _ _ Hw) as E. rewrite udp_packet_length in E. cbn [length] in E.
    by replace (nb_data buf + Z.of_nat 0) with (nb_data buf) in E by lia. }
  pose proof (slice _ _ _ _ 0 8 Hpk ltac:(lia)) as Hh. replace (nb_data buf + Z.of_nat 0) with (nb_data buf) in Hh by lia.
  change (take 8 (drop 0 (udp_packet src dst sport dport payload))) with (udp_hdr sport dport len (udp_ck src dst sport dport payload)) in Hh.
  destruct (udp_fields _ _ _ _ _ _ Hh Hs Hdp ltac:(lia) Hck) as (F0 & F2 & F4 & F6).
  unfold udp_input, UDP_HEADER_LEN. rewrite (proj2 (Z.eqb_neq _ _) Hd), (proj2 (Z.ltb_ge _ _)) by lia. cbv zeta.
  change (nb_len (set_transport_header _ _)) with (nb_len buf). rewrite F0, F2, F4.
  rewrite (proj2 (Z.ltb_ge len 8)), (proj2 (Z.ltb_ge (nb_len buf) len)) by lia. cbn [orb].
  unfold len. rewrite (udp_checksum_accepted _ _ src dst sport dport payload) by (done || lia). cbn [mbind option_bind negb].
  rewrite Hfind. cbn [mbind option_bind]. rewrite (proj2 (Z.eqb_neq _ _) Hpcb), Hobj. cbn [negb mbind option_bind].
  unfold udp_deliver, UDP_HEADER_LEN.
  destruct (pull_spec (set_transport_header buf (nb_data buf)) 8 ltac:(auto with castor) ltac:(simpl; lia)) as [-> Hwf'].
  rewrite Hcb. cbn [negb Z.eqb]. eexists. split; [reflexivity|]. split; [done|]. split; [|done].
  apply (window_pull n buf (udp_hdr sport dport len (udp_ck src dst sport dport payload))); [done| |done|done].
  rewrite Hw. unfold udp_packet. by rewrite <- app_assoc.
Qed.

End receive.

(** ** A datagram from one machine to another

    The send path and the receive path composed: what [udp_output] leaves in
    the transmit ring of one machine, put into the receive ring of another,
    ends in the receive queue of the control block it is for. *)

(** ** The rings *)

(** The frame a transmit descriptor holds. *)
Definition tx_frame (e : e1000_device) (i : Z) : option (list Z) :=
  d ← tx_descs e !! Z.to_nat i; Some (take (Z.to_nat (td_length d)) (td_buffer d)).

Lemma ring_put_frame nd frame : dev_ready nd -> Z.of_nat (length frame) < 2 ^ 16 ->
  tx_frame (nd_priv (dev_sent nd frame)) (tx_cur (nd_priv nd)) = Some frame.
Proof.
  intros [_ _ _ Hc _] Hl. unfold tx_frame, dev_sent, ring_put. cbn [nd_priv count_tx set_nic tx_descs].
  destruct (lookup_lt_is_Some_2 (tx_descs (nd_priv nd)) (Z.to_nat (tx_cur (nd_priv nd))) ltac:(lia)) as [d Hd].
  rewrite list_lookup_alter_eq, Hd. cbn [fmap option_fmap option_map mbind option_bind td_length td_buffer].
  unfold u16. rewrite Z.mod_small, Nat2Z.id by lia. f_equal. rewrite (eq_refl : splice 0 frame (td_buffer d) = frame ++ drop (length frame) (td_buffer d)).
  by rewrite take_app_length.
Qed.

(** A receive ring with one frame: at the current position, complete; the
    next descriptor is still the hardware's. *)
Record one_frame (e : e1000_device) (frame : list Z) : Prop := {
  of_cur : 0 <= rx_cur e < E1000_NUM_RX_DESC;
  of_size : length (rx_descs e) = Z.to_nat E1000_NUM_RX_DESC;
  of_desc : exists d, rx_descs e !! Z.to_nat (rx_cur e) = Some d /\ rx_status d = 3 /\
      rx_length d = Z.of_nat (length frame) /\ take (length frame) (rx_buffer d) = frame;
  of_next : forall d, rx_descs e !! Z.to_nat ((rx_cur e + 1) mod E1000_NUM_RX_DESC) = Some d ->
      Z.land (rx_status d) E1000_RXD_STAT_DD = 0
}.

Section deliver.
Context (a : arch) {H T : Type} `{!KHeap H} `{!KHeapLaws H}.
Context (tcp_input : net H T -> Z -> netbuf -> Z -> Z -> option (net H T)).
Context (recv_callback : Z -> net H T -> Z -> netbuf -> Z -> Z -> option (net H T)).
Hypothesis Hlimit : kh_limit <= 2 ^ ptr_bits a.
Implicit Types n : net H T.

(** A device and a control block that take datagrams for [dst], [dport] from
    [src], [sport]. *)
Record can_receive n (dev : Z) (nd : netdev) (src dst sport dport pcb : Z) (p : udp_pcb) : Prop := {
  cr_dev : dev <> 0;
  cr_nd : n_devs n !! dev = Some nd;
  cr_up : nd_state nd = NETDEV_UP;
  cr_mac : is_mac (nd_mac nd);
  cr_us : is_for_us nd dst = true;
  cr_find : udp_find_pcb (n_udp n) dst dport src sport = Some pcb;
  cr_pcb : pcb <> 0;
  cr_obj : udp_objs (n_udp n) !! pcb = Some p;
  cr_cb : up_recv_callback p = 0
}.

(** What delivery does to the receiver: one more datagram in the queue, with
    the bytes [l]. *)
Definition delivered n n' (pcb : Z) (p : udp_pcb) (src sport : Z) (l : list Z) : Prop :=
  exists b p', udp_objs (n_udp n') !! pcb = Some p' /\
    up_recv_queue p' = up_recv_queue p ++ [Datagram b src sport] /\ up_recv_queue_len p' = u32 (up_recv_queue_len p + 1) /\
    nb_wf a b /\ window n' b = l /\ udp_pcbs (n_udp n') = udp_pcbs (n_udp n).

Lemma netdev_receive_udp n dev nd src dst sport dport pcb p buf smac id payload pad :
  can_receive n dev nd src dst sport dport pcb p -> nb_wf a buf -> is_mac smac ->
  0 <= src < 2 ^ 32 -> 0 <= dst < 2 ^ 32 -> 0 <= sport < 2 ^ 16 -> 0 <= dport < 2 ^ 16 -> 0 <= id < 2 ^ 16 ->
  window n buf = eth_hdr (nd_mac nd) smac ETH_TYPE_IP ++
    (ip_packet id IP_PROTO_UDP src dst (udp_packet src dst sport dport payload) ++ pad) ->
  exists n', netdev_receive a tcp_input recv_callback n dev buf = Some n' /\
    delivered n n' pcb p src sport (payload ++ pad) /\
    n_devs n' = <[dev := count_rx nd 1 (nb_len buf) 0]> (n_devs n) /\ n_heap n' = n_heap n.
Proof.
  intros [Hd Hn Hup Hmac Hus Hfind Hpcb Hobj Hcb] Hwf Hsm Hs Hdst Hsp Hdp Hid Hw. unfold netdev_receive.
  rewrite (proj2 (Z.eqb_neq _ _) Hd), Hn. cbn [mbind option_bind].
  rewrite bool_decide_eq_false_2 by (rewrite Hup; auto). cbv zeta.
  set (n1 := set_dev_at n dev (count_rx nd 1 (nb_len buf) 0)). set (nd1 := count_rx nd 1 (nb_len buf) 0).
  assert (n_devs n1 !! dev = Some nd1) as Hn1 by (unfold n1, set_dev_at; simpl; by rewrite lookup_insert_eq).
  destruct (ethernet_input_ip a tcp_input recv_callback n1 dev nd1 (set_dev buf dev) (nd_mac nd) smac _ Hd Hn1
    (wf_set_dev _ _ _ Hwf) Hmac Hsm Hw (or_introl eq_refl)) as (b1 & -> & Hwf1 & Hw1 & _).
  destruct (ip_input_whole a tcp_input recv_callback n1 dev nd1 b1 id IP_PROTO_UDP src dst _ pad Hd Hn1 Hwf1 Hid
    ltac:(unfold IP_PROTO_UDP; lia) Hs Hdst Hw1 Hus) as (b2 & -> & Hwf2 & Hw2 & _).
  change (ip_dispatch a tcp_input recv_callback n1 dev b2 IP_PROTO_UDP src dst) with (udp_input a recv_callback n1 dev b2 src dst).
  destruct (udp_input_deliver a tcp_input recv_callback n1 dev b2 src dst sport dport payload pad pcb p Hd Hwf2 Hsp Hdp Hw2 Hfind Hpcb Hobj Hcb)
    as (b3 & -> & Hwf3 & Hw3 & _).
  eexists. split; [reflexivity|]. split; [|done]. eexists b3, _. simpl. rewrite lookup_insert_eq. split; [done|].
  split_and!; done.
Qed.

(** A frame taken from the ring: dropped when there is no memory for a
    buffer, else delivered. *)
Lemma e1000_take_udp n L dev nd src dst sport dport pcb p d smac id payload pad :
  can_receive n dev nd src dst sport dport pcb p -> is_mac smac ->
  0 <= src < 2 ^ 32 -> 0 <= dst < 2 ^ 32 -> 0 <= sport < 2 ^ 16 -> 0 <= dport < 2 ^ 16 -> 0 <= id < 2 ^ 16 ->
  let frame := eth_hdr (nd_mac nd) smac ETH_TYPE_IP ++
    (ip_packet id IP_PROTO_UDP src dst (udp_packet src dst sport dport payload) ++ pad) in
  Forall is_byte frame -> Z.of_nat (length frame) <= 1920 ->
  rx_length d = Z.of_nat (length frame) -> take (length frame) (rx_buffer d) = frame ->
  kh_live (n_heap n) L -> alloc_ready a (n_heap n) (alloc_size (Z.of_nat (length frame))) ->
  exists n', e1000_take a tcp_input recv_callback n dev d = Some n' /\
    ((n_udp n' = n_udp n /\ n_devs n' = n_devs n /\ no_memory a (n_heap n) (Z.of_nat (length frame))) \/
     (delivered n n' pcb p src sport (payload ++ pad) /\
      exists nd', n_devs n' = <[dev := nd']> (n_devs n) /\ rx_cur (nd_priv nd') = rx_cur (nd_priv nd) /\
        rx_descs (nd_priv nd') = rx_descs (nd_priv nd))).
Proof.
  intros Hcr Hsm Hs Hdst Hsp Hdp Hid frame Hb Hfl Hdl Hdb HL Hrdy. pose proof Hcr as [Hd Hn Hup Hmac Hus Hfind Hpcb Hobj Hcb].
  assert (0 < Z.of_nat (length frame)) as Hpos by (unfold frame; rewrite length_app; unfold eth_hdr; rewrite !length_app; simpl; lia).
  unfold e1000_take. rewrite Hdl, (proj2 (Z.ltb_lt _ _)), (proj2 (Z.leb_le _ _)) by (unfold E1000_RX_BUFFER_SIZE; lia).
  cbn [andb]. destruct (alloc_put_spec a Hlimit (n_heap n) L (Z.of_nat (length frame)) HL ltac:(lia) Hrdy) as (r & h & Ealloc & _ & Hres).
  rewrite Ealloc. cbn [mbind option_bind]. destruct r as [b|]; cycle 1.
  { eexists. split; [reflexivity|]. left. split_and!; try done. by exists h. }
  destruct Hres as (buf & -> & [Hwf Hlen Hdata _ _ _]). pose proof Hwf as [W1 W2 W3 W4 W5 W6].
  unfold deref. rewrite (proj2 (Z.eqb_neq (nb_data buf) 0)) by lia. rewrite Nat2Z.id, Hdb.
  change (n_devs (set_mem (set_heap n h) ?m)) with (n_devs n). rewrite Hn. cbn [mbind option_bind].
  set (m := write_bytes _ _ frame). set (nd1 := set_nic nd _). set (n1 := set_dev_at _ dev nd1).
  assert (window n1 (set_dev buf dev) = frame) as Hw.
  { unfold window. change (n_mem n1) with (n_mem (set_mem (set_heap n h) m)). rewrite n_mem_set.
    cbn [nb_data nb_len set_dev]. rewrite Hlen, Nat2Z.id. exact (stored_read _ _ _ _ (stored_bytes _ _ _ Hb)). }
  destruct (netdev_receive_udp n1 dev nd1 src dst sport dport pcb p (set_dev buf dev) smac id payload pad) as (n' & -> & Hdel & Hdevs & _);
    try done.
  - constructor; try done. unfold n1. simpl. by rewrite lookup_insert_eq.
  - eexists. split; [reflexivity|]. right. split; [exact Hdel|].
    exists (count_rx nd1 1 (nb_len buf) 0). split; [|done].
    rewrite Hdevs. unfold n1, set_dev_at. cbn [n_devs set_devs]. rewrite insert_insert_eq. done.
Qed.

(** The turn of the receive loop that finds the next descriptor empty. *)
Lemma receive_stops n dev nd e cur hw frame :
  one_frame e frame -> cur = rx_cur e -> n_devs n !! dev = Some nd ->
  rx_cur (nd_priv nd) = rx_cur e -> rx_descs (nd_priv nd) = rx_descs e ->
  let n' := set_dev_at n dev (set_nic nd (e1000_advance (nd_priv nd) cur)) in
  e1000_receive a tcp_input recv_callback ([] :: hw) n' dev = Some n'.
Proof.
  intros [Hc Hsz (d & Hd & _) Hnext] -> Hn Hcur Hdescs n'. unfold E1000_NUM_RX_DESC in *.
  rewrite (receive_idle _ _ _ _ _ _ (set_nic nd (e1000_advance (nd_priv nd) (rx_cur e)))).
  2:{ unfold n', set_dev_at. cbn [n_devs set_devs]. by rewrite lookup_insert_eq. }
  cbv zeta. cbn [mbind option_bind nd_priv set_nic rx_cur rx_descs e1000_advance]. unfold E1000_NUM_RX_DESC.
  pose proof (Z.mod_pos_bound (rx_cur e + 1) 32 ltac:(lia)).
  rewrite list_lookup_alter_ne, Hdescs.
  2:{ intros E. apply Z2Nat.inj in E; [|lia|lia].
      destruct (decide (rx_cur e = 31)) as [E31|]; [rewrite E31 in E; done|]. rewrite Z.mod_small in E by lia. lia. }
  destruct (lookup_lt_is_Some_2 (rx_descs e) (Z.to_nat ((rx_cur e + 1) mod 32)) ltac:(lia)) as [d' Hd'].
  rewrite Hd'. cbn [mbind option_bind]. by rewrite (Hnext _ Hd').
Qed.

Lemma e1000_receive_udp n L dev nd src dst sport dport pcb p smac id payload pad hw :
  can_receive n dev nd src dst sport dport pcb p -> is_mac smac ->
  0 <= src < 2 ^ 32 -> 0 <= dst < 2 ^ 32 -> 0 <= sport < 2 ^ 16 -> 0 <= dport < 2 ^ 16 -> 0 <= id < 2 ^ 16 ->
  let frame := eth_hdr (nd_mac nd) smac ETH_TYPE_IP ++
    (ip_packet id IP_PROTO_UDP src dst (udp_packet src dst sport dport payload) ++ pad) in
  Forall is_byte frame -> Z.of_nat (length frame) <= 1920 -> one_frame (nd_priv nd) frame ->
  kh_live (n_heap n) L -> alloc_ready a (n_heap n) (alloc_size (Z.of_nat (length frame))) ->
  exists n', e1000_receive a tcp_input recv_callback ([] :: [] :: hw) n dev = Some n' /\
    ((n_udp n' = n_udp n /\ no_memory a (n_heap n) (Z.of_nat (length frame))) \/
     delivered n n' pcb p src sport (payload ++ pad)).
Proof.
  intros Hcr Hsm Hs Hdst Hsp Hdp Hid frame Hb Hfl Hof HL Hrdy. pose proof Hof as [Hc Hsz (d & Hd & Hst & Hdl & Hdb) _].
  rewrite (receive_idle _ _ _ _ _ _ nd (cr_nd _ _ _ _ _ _ _ _ _ Hcr)). cbv zeta.
  rewrite Hd. cbn [mbind option_bind]. rewrite Hst.
  change (Z.land 3 E1000_RXD_STAT_DD =? 0) with false. change (negb (Z.land 3 E1000_RXD_STAT_EOP =? 0)) with true. cbv iota.
  destruct (e1000_take_udp n L dev nd src dst sport dport pcb p d smac id payload pad Hcr Hsm Hs Hdst Hsp Hdp Hid Hb Hfl Hdl Hdb HL Hrdy)
    as (n' & -> & [(Hu & Hdv & Hno)|(Hdel & nd' & Hdv & Hcur & Hdescs)]); cbn [mbind option_bind].
  - rewrite Hdv, (cr_nd _ _ _ _ _ _ _ _ _ Hcr). cbn [mbind option_bind].
    rewrite (receive_stops n' dev nd (nd_priv nd) (rx_cur (nd_priv nd)) hw frame Hof eq_refl); try done.
    + eexists. split; [reflexivity|]. by left.
    + by rewrite Hdv, (cr_nd _ _ _ _ _ _ _ _ _ Hcr).
  - assert (n_devs n' !! dev = Some nd') as Hn' by (by rewrite Hdv, lookup_insert_eq). rewrite Hn'. cbn [mbind option_bind].
    rewrite (receive_stops n' dev nd' (nd_priv nd) (rx_cur (nd_priv nd)) hw frame Hof eq_refl) by done.
    eexists. split; [reflexivity|]. by right.
Qed.

(** ** End to end *)

Lemma udp_frame_bytes nd mac id sport dst dport payload :
  is_mac mac -> is_mac (nd_mac nd) -> 0 <= id < 2 ^ 16 -> 0 <= sport < 2 ^ 16 -> 0 <= dport < 2 ^ 16 ->
  Forall is_byte payload -> Z.of_nat (length payload) <= 2048 ->
  Forall is_byte (udp_frame nd mac id sport dst dport payload).
Proof.
  intros [_ Hm] [_ Hn] Hid Hs Hd Hp Hl. unfold udp_frame, ip_packet, ip_header, udp_packet. rewrite length_app.
  change (length (udp_hdr _ _ _ _)) with 8%nat. set (len := 20 + Z.of_nat (8 + length payload)).
  assert (Forall is_byte (eth_hdr mac (nd_mac nd) ETH_TYPE_IP)) as H1.
  { unfold eth_hdr. rewrite !Forall_app. split_and!; [done|done|]. apply be16_bytes. unfold ETH_TYPE_IP. lia. }
  assert (forall ck, Forall is_byte (udp_hdr sport dport (8 + Z.of_nat (length payload)) ck)) as H2.
  { intros ck. unfold udp_hdr. rewrite !Forall_app. split_and!; try apply le16_bytes; apply be16_bytes; try done. lia. }
  rewrite !Forall_app. split_and!; [done| |apply H2|done].
  apply ip_hdr_bytes; [unfold len; lia|done|unfold IP_PROTO_UDP; lia].
Qed.

(** C2: UDP from one machine to another, through two drivers.  The sender
    has its device up with a free transmit descriptor and an address, its
    address resolution knows the next hop, and the data, up to 1472 bytes,
    lies in a live block.  Then [udp_output] returns -1 only when its buffer
    cannot be allocated, and else the frame in its transmit ring is such that
    every machine which has that hardware address and the destination's IP
    address (or a broadcast is meant), whose search for a control block gives
    one without a callback, and which finds the frame in its receive ring,
    possibly followed by padding, and no other frame after it, appends one
    datagram to the queue of that control block: from the sender's address
    and port, holding the sender's bytes and then the padding of the frame,
    which the stack does not cut off.  It drops the frame only when its own
    buffer cannot be allocated.  The headers, both checksums and the byte
    order of every field thus agree between the two paths.  The heaps are in
    a state in which the allocation of these buffers returns. *)
Theorem udp_end_to_end (nA : net H T) LA ndA mac sport dst dport data len :
  can_send nA dst ndA mac -> 0 <= sport < 2 ^ 16 -> 0 <= dport < 2 ^ 16 -> 0 <= len <= 1472 ->
  0 <= nd_ip_addr ndA < 2 ^ 32 -> 0 <= dst < 2 ^ 32 ->
  kh_live (n_heap nA) LA -> alloc_ready a (n_heap nA) (alloc_size (8 + len)) -> in_block LA data len -> data <> 0 ->
  exists ret nA', udp_output a nA sport dst dport data len = Some (ret, nA') /\
    ((ret = -1 /\ no_memory a (n_heap nA) (8 + len)) \/
     (ret = 0 /\ exists ndA' frame, n_devs nA' !! n_default nA = Some ndA' /\
        tx_frame (nd_priv ndA') (tx_cur (nd_priv ndA)) = Some frame /\
        forall (nB : net H T) LB dev ndB pcb p pad hw,
          can_receive nB dev ndB (nd_ip_addr ndA) dst sport dport pcb p -> nd_mac ndB = mac ->
          Forall is_byte pad -> Z.of_nat (length (frame ++ pad)) <= 1920 -> one_frame (nd_priv ndB) (frame ++ pad) ->
          kh_live (n_heap nB) LB -> alloc_ready a (n_heap nB) (alloc_size (Z.of_nat (length (frame ++ pad)))) ->
          exists nB', e1000_receive a tcp_input recv_callback ([] :: [] :: hw) nB dev = Some nB' /\
            ((n_udp nB' = n_udp nB /\ no_memory a (n_heap nB) (Z.of_nat (length (frame ++ pad)))) \/
             delivered nB nB' pcb p (nd_ip_addr ndA) sport (read_bytes (n_mem nA) data (Z.to_nat len) ++ pad)))).
Proof.
  intros Hcs Hsp Hdp Hl Hs Hd HL Hrdy Hin H0.
  destruct (udp_output_spec a Hlimit nA LA ndA mac sport dst dport data len Hcs Hsp Hdp Hl HL Hrdy Hin H0)
    as (ret & nA' & L' & E & _ & [(-> & _ & _ & Hno)|(-> & _ & Hdv)]).
  { exists (-1), nA'. split; [done|]. by left. }
  exists 0, nA'. split; [done|]. right. split; [done|]. set (payload := read_bytes _ _ _) in *.
  assert (length payload = Z.to_nat len) as Hpl by apply read_bytes_length.
  pose proof (cs_mac _ _ _ _ Hcs) as Hmac. pose proof (dr_mac _ (cs_ready _ _ _ _ Hcs)) as HmA.
  pose proof (udp_frame_bytes ndA mac (ip_id_counter (n_ip nA)) sport dst dport payload Hmac HmA (cs_id _ _ _ _ Hcs) Hsp Hdp
    (read_bytes_bytes _ _ _) ltac:(lia)) as Hb.
  set (frame := udp_frame _ _ _ _ _ _ _) in *. eexists _, frame. split; [by rewrite Hdv, lookup_insert_eq|]. split.
  { apply ring_put_frame; [apply Hcs|]. unfold frame, udp_frame, eth_hdr, ip_packet, udp_packet. rewrite !length_app.
    destruct Hmac as [-> _], HmA as [-> _]. simpl. lia. }
  intros nB LB dev ndB pcb p pad hw Hcr <- Hpad Hfl Hof HLB HrB.
  assert (frame ++ pad = eth_hdr (nd_mac ndB) (nd_mac ndA) ETH_TYPE_IP ++ (ip_packet (ip_id_counter (n_ip nA)) IP_PROTO_UDP
    (nd_ip_addr ndA) dst (udp_packet (nd_ip_addr ndA) dst sport dport payload) ++ pad)) as Ef.
  { unfold frame, udp_frame. by rewrite <- app_assoc. }
  rewrite Ef in *. apply (e1000_receive_udp nB LB dev ndB); try done; [apply Hcs|].
  rewrite <- Ef. by apply Forall_app.
Qed.

End deliver.

(** ** What the stack does not check

    A buffer holds 1920 bytes after its headroom.  [netbuf_put] returns NULL
    for more, and its callers in src/net write through the result without a
    test.  A packet handed to the driver is never freed. *)

Section faults.
Context (a : arch) {H T : Type} `{!KHeap H} `{!KHeapLaws H}.
Hypothesis Hlimit : kh_limit <= 2 ^ ptr_bits a.
Implicit Types n : net H T.

(** A request beyond the largest buffer. *)
Lemma put_oversize h L size b h' : kh_live h L -> 1920 < size < 2 ^ 31 -> alloc_ready a h (alloc_size size) ->
  netbuf_alloc a h size = Some (Some b, h') -> netbuf_put a (Some b) size = (0, Some b).
Proof.
  intros HL Hs Hrdy E.
  destruct (netbuf_alloc_spec a Hlimit h L size HL ltac:(unfold NETBUF_HEADROOM; lia) Hrdy) as (r & h1 & E1 & _ & Hres).
  rewrite E in E1. injection E1 as <- <-. destruct Hres as (s1 & s2 & L' & Hwf & Htot & Hdata & Hlen & _).
  pose proof Hwf as [W1 W2 W3 W4 W5 W6]. unfold alloc_size, NETBUF_HEADROOM, NETBUF_MAX_SIZE in *.
  unfold netbuf_put. rewrite s32_small by lia. by rewrite (proj2 (Z.ltb_lt _ _)) by lia.
Qed.

(** C40: Packets that do not fit a buffer fault.  Sending a datagram of more than
    1912 bytes, and completing a reassembly of more than 1920, ask
    [netbuf_put] for more than the buffer holds and write through the NULL it
    returns, whenever the buffer itself could be allocated.  The second is
    reached by fragments from the network. *)
Theorem oversize_packets_fault n L :
  kh_live (n_heap n) L ->
  (forall sport dst dport data len b h', 1912 < len < 2 ^ 30 -> n_default n <> 0 -> alloc_ready a (n_heap n) (alloc_size (8 + len)) ->
     netbuf_alloc a (n_heap n) (8 + len) = Some (Some b, h') -> udp_output a n sport dst dport data len = None) /\
  (forall i r dev b h', reass_table (n_ip n) !! i = Some r -> 1920 < ra_total_len r < 2 ^ 16 ->
     fragments_end 0 (ra_fragments r) = Some (ra_total_len r) -> alloc_ready a (n_heap n) (alloc_size (ra_total_len r)) ->
     netbuf_alloc a (n_heap n) (ra_total_len r) = Some (Some b, h') -> ip_reass_complete a n i dev = None).
Proof.
  intros HL. split.
  - intros sport dst dport data len b h' Hlen Hd Hrdy E. unfold udp_output, netdev_get_default, UDP_HEADER_LEN.
    rewrite (proj2 (Z.eqb_neq _ _) Hd). cbv zeta. rewrite u32_small by lia. rewrite E. cbn [mbind option_bind].
    by rewrite (put_oversize _ L (8 + len) b h' HL ltac:(lia) Hrdy E).
  - intros i r dev b h' Hi Hlen Hend Hrdy E. unfold ip_reass_complete. rewrite Hi. cbn [mbind option_bind].
    rewrite (proj2 (Z.eqb_neq (ra_total_len r) 0)) by lia. rewrite bool_decide_eq_false_2 by (rewrite Hend; auto). rewrite E. cbn [mbind option_bind].
    by rewrite (put_oversize _ L (ra_total_len r) b h' HL ltac:(lia) Hrdy E).
Qed.

(** Every datagram sent costs two blocks of the heap.  When [udp_output]
    succeeds, the live blocks are those from before and two more, the buffer
    and its structure, which nothing refers to any more: the driver copies
    the frame into its ring and does not free the buffer, and its callers
    leave that to it. *)
Theorem udp_output_leaks n L nd mac sport dst dport data len :
  can_send n dst nd mac -> 0 <= sport < 2 ^ 16 -> 0 <= dport < 2 ^ 16 -> 0 <= len <= 1472 ->
  kh_live (n_heap n) L -> alloc_ready a (n_heap n) (alloc_size (8 + len)) -> in_block L data len -> data <> 0 ->
  exists ret n' L', udp_output a n sport dst dport data len = Some (ret, n') /\ kh_live (n_heap n') L' /\
    ((ret = -1 /\ L' ≡ₚ L /\ no_memory a (n_heap n) (8 + len)) \/ (ret = 0 /\ exists b1 b2, L' ≡ₚ b1 :: b2 :: L)).
Proof.
  intros Hcs Hsp Hdp Hl HL Hrdy Hin H0.
  destruct (udp_output_spec a Hlimit n L nd mac sport dst dport data len Hcs Hsp Hdp Hl HL Hrdy Hin H0)
    as (ret & n' & L' & E & HL' & [(-> & HP & _ & Hno)|(-> & Hb & _)]).
  - exists (-1), n', L'. auto 10.
  - exists 0, n', L'. auto 10.
Qed.

End faults.
