(* ===== verification/NetShape.v ===== *)
(** * What the stack leaves alone, and the end of the receive loop

    The send and receive functions never resize a table, never change the
    addresses or the receive ring of a device and never touch the registry
    or the routes: the [n_shape] of the state stays the same.  So the loop of
    [e1000_receive] finds at most as many frames as the ring holds and the
    device adds while it runs. *)

From S2P Require Import Prelude Mem HeapInterface Checksum Netbuf NetBytes NetState Netdev Arp Ip Icmp Udp NetInput.

(** The part of a device that sending and receiving keep. *)
Definition dev_shape (nd : netdev) :=
  (nd_mac nd, nd_ip_addr nd, nd_netmask nd, nd_gateway nd, nd_state nd, nd_mtu nd, nd_ops nd,
   rx_descs (nd_priv nd), rx_cur (nd_priv nd), length (tx_descs (nd_priv nd))).

Definition n_shape {H T} (n : net H T) :=
  (dev_shape <$> n_devs n, n_netdevs n, n_default n, length (n_arp n), length (reass_table (n_ip n)),
   route_table (n_ip n), n_uptime n).

(** Sending moreover leaves the transport protocols alone. *)
Definition n_sent {H T} (n : net H T) := (n_shape n, n_udp n, n_tcp n).

(** Walks through the branches of a computation that succeeded. *)
Ltac run E :=
  repeat (cbv zeta in E; cbn [mbind option_bind] in E;
    match type of E with
    | None = Some _ => discriminate E
    | Some _ = Some _ => injection E as E; subst
    | deref _ _ = Some _ => unfold deref in E
    | ((if ?b then _ else _) ≫= _) = Some _ => let Hb := fresh "Hb" in destruct b eqn:Hb
    | (match ?o with _ => _ end ≫= _) = Some _ => let Ho := fresh "Ho" in destruct o eqn:Ho
    | ((?x ≫= _) ≫= _) = Some _ => let v := fresh "v" in let Hv := fresh "Hv" in destruct x as [v|] eqn:Hv; [|discriminate E]
    | (?x ≫= _) = Some _ => let v := fresh "v" in let Hv := fresh "Hv" in destruct x as [v|] eqn:Hv; [|discriminate E]
    | (if ?b then _ else _) = Some _ => let Hb := fresh "Hb" in destruct b eqn:Hb
    | match ?o with _ => _ end = Some _ => let Ho := fresh "Ho" in destruct o eqn:Ho
    end).

Section shape.
Context (a : arch) {H T : Type} `{!KHeap H}.
Implicit Types n : net H T.

Lemma shape_heap n h : n_sent (set_heap n h) = n_sent n.
Proof. done. Qed.
Lemma shape_mem n m : n_sent (set_mem n m) = n_sent n.
Proof. done. Qed.
Lemma shape_icmp n i : n_sent (set_icmp n i) = n_sent n.
Proof. done. Qed.

Lemma shape_arp n i f : n_sent (upd_arp n i f) = n_sent n.
Proof. unfold n_sent, n_shape, upd_arp. simpl. by rewrite length_alter. Qed.

Lemma shape_entry n i r : n_sent (set_entry n i r) = n_sent n.
Proof. unfold n_sent, n_shape, set_entry. simpl. by rewrite length_insert. Qed.

Lemma shape_dev n d nd nd' : n_devs n !! d = Some nd -> dev_shape nd' = dev_shape nd ->
  n_sent (set_dev_at n d nd') = n_sent n.
Proof.
  intros Hn Hs. unfold n_sent, n_shape, set_dev_at. simpl. rewrite fmap_insert, Hs, insert_id; [done|].
  by rewrite lookup_fmap, Hn.
Qed.

Lemma shape_free n b n' : free_buf n b = Some n' -> n_sent n' = n_sent n.
Proof. unfold free_buf. intros E. by run E. Qed.

Lemma e1000_transmit_shape m nd b r e : e1000_netdev_transmit m (nd_priv nd) b = Some (r, e) ->
  dev_shape (set_nic nd e) = dev_shape nd.
Proof.
  unfold e1000_netdev_transmit. intros E. run E; try done. unfold dev_shape. simpl. by rewrite length_insert.
Qed.

Lemma shape_transmit n d b r n' : netdev_transmit n d b = Some (r, n') -> n_sent n' = n_sent n.
Proof.
  unfold netdev_transmit. intros E. run E; try done; try by apply (shape_dev _ _ v).
  apply e1000_transmit_shape in Hv0. apply (shape_dev _ _ v); [done|]. rewrite <- Hv0. by destruct (r <? 0).
Qed.

Lemma shape_ethernet n d b mac t r n' : ethernet_output a n d b mac t = Some (r, n') -> n_sent n' = n_sent n.
Proof. unfold ethernet_output. intros E. run E; try done. apply shape_transmit in E. exact E. Qed.

(** The equation of a call, for the functions treated so far. *)
Ltac shape_call E := first [apply shape_free in E | apply shape_ethernet in E].

(** Collects the equations of the calls made and chains them. *)
Ltac shapes :=
  repeat match goal with E : _ = Some _ |- _ => shape_call E end;
  repeat progress (rewrite ?shape_heap, ?shape_mem, ?shape_icmp, ?shape_arp, ?shape_entry in *);
  try congruence.

Lemma shape_send_queue d mac q : forall n n', send_queue a n d mac q = Some n' -> n_sent n' = n_sent n.
Proof.
  induction q as [|b q IH]; intros n n' E; cbn [send_queue] in E; [by run E|].
  run E; apply IH in E; shapes.
Qed.

Lemma shape_send_pending n i d n' : arp_send_pending a n i d = Some n' -> n_sent n' = n_sent n.
Proof. unfold arp_send_pending. intros E. run E. apply shape_send_queue in Hv0. shapes. Qed.

Lemma shape_free_queue q : forall n n', free_queue n q = Some n' -> n_sent n' = n_sent n.
Proof. induction q as [|b q IH]; intros n n' E; cbn [free_queue] in E; run E; [done|]. apply IH in E. shapes. Qed.

Lemma shape_free_pending n i n' : arp_free_pending n i = Some n' -> n_sent n' = n_sent n.
Proof. unfold arp_free_pending. intros E. run E. apply shape_free_queue in Hv0. shapes. Qed.

Lemma shape_send_arp n d op tm dm ip r n' : send_arp a n d op tm dm ip = Some (r, n') -> n_sent n' = n_sent n.
Proof. unfold send_arp. intros E. run E; shapes. Qed.

Ltac shape_call E ::=
  first [apply shape_free in E | apply shape_ethernet in E | apply shape_send_pending in E
        |apply shape_free_pending in E | apply shape_send_arp in E].

Lemma shape_update n ip mac n' : arp_cache_update a n ip mac = Some n' -> n_sent n' = n_sent n.
Proof.
  unfold arp_cache_update. intros E. case_if_in E; [by run E|]. cbv zeta in E.
  destruct (arp_cache_find (n_arp n) ip) as [i|]; [run E; shapes|].
  destruct (arp_cache_find_free (n_arp n)) as [i|]; run E; shapes.
Qed.

Lemma shape_arp_input n d b n' : arp_input a n d b = Some n' -> n_sent n' = n_sent n.
Proof.
  unfold arp_input. intros E. run E; shapes. all: apply shape_update in Hv; shapes.
Qed.

Lemma shape_resolve n d ip r mac n' : arp_resolve a n d ip = Some (r, mac, n') -> n_sent n' = n_sent n.
Proof.
  unfold arp_resolve, arp_request. intros E. case_if_in E; [by run E|]. cbv zeta in E.
  destruct (i ← arp_cache_find (n_arp n) ip; _) as [[[r1 m1] n1]|] eqn:Ek.
  - injection E as <- <- <-. run Ek; shapes; done.
  - run E; shapes.
Qed.

Lemma shape_queue n ip b : n_sent (arp_queue_packet n ip b).2 = n_sent n.
Proof.
  unfold arp_queue_packet. destruct (arp_cache_find (n_arp n) ip) as [i|]; [|done]. cbn [mbind option_bind].
  destruct (n_arp n !! i) as [e|]; [|done]. cbn [mbind option_bind]. case_bool_decide; [apply shape_arp|done].
Qed.

Ltac shape_call E ::=
  first [apply shape_free in E | apply shape_ethernet in E | apply shape_send_pending in E
        |apply shape_free_pending in E | apply shape_send_arp in E | apply shape_resolve in E].

Lemma shape_ip_send n d hop b r n' : ip_send a n d hop b = Some (r, n') -> n_sent n' = n_sent n.
Proof.
  unfold ip_send. intros E. destruct (arp_resolve a n d hop) as [[[r0 mac] n0]|] eqn:Er; [|done].
  cbn [mbind option_bind] in E. case_if_in E; [shapes|]. case_if_in E; [|run E; shapes].
  pose proof (shape_queue n0 hop b) as Hq. destruct (arp_queue_packet n0 hop b) as [q n1]. simpl in Hq. run E; shapes.
Qed.

Lemma shape_ip_output n d b ip pr r n' : ip_output a n d b ip pr = Some (r, n') -> n_sent n' = n_sent n.
Proof. unfold ip_output. intros E. run E; try apply shape_ip_send in E; shapes. all: exact E. Qed.

Ltac shape_call E ::=
  first [apply shape_free in E | apply shape_ip_output in E].

Lemma shape_build_echo n ty id sq dt len r n' : build_echo a n ty id sq dt len = Some (r, n') -> n_sent n' = n_sent n.
Proof. unfold build_echo. intros E. run E; shapes. Qed.

Lemma shape_icmp_output n b ip r n' : icmp_output a n b ip = Some (r, n') -> n_sent n' = n_sent n.
Proof. unfold icmp_output. intros E. run E; shapes. Qed.

Lemma shape_unreachable n ip c p q r n' : icmp_send_dest_unreachable a n ip c p q = Some (r, n') -> n_sent n' = n_sent n.
Proof. unfold icmp_send_dest_unreachable. intros E. run E; try apply shape_icmp_output in E; shapes. Qed.

Lemma shape_echo_reply n ip id sq dt len r n' : icmp_send_echo_reply a n ip id sq dt len = Some (r, n') -> n_sent n' = n_sent n.
Proof.
  unfold icmp_send_echo_reply. intros E. run E; apply shape_build_echo in Hv; [|shapes].
  apply shape_icmp_output in E. congruence.
Qed.

Lemma shape_echo_received n ip id sq : n_sent (echo_reply_received n ip id sq) = n_sent n.
Proof. unfold echo_reply_received. by case_if. Qed.

Ltac shape_call E ::=
  first [apply shape_free in E | apply shape_ip_output in E | apply shape_echo_reply in E | apply shape_unreachable in E
        |apply shape_free_pending in E | apply shape_update in E].

Lemma shape_icmp_input n d b ip n' : icmp_input a n d b ip = Some n' -> n_sent n' = n_sent n.
Proof. unfold icmp_input. intros E. run E; shapes. by rewrite shape_echo_received in E. Qed.

(** ** Receiving *)

Lemma sent_shape n n' : n_sent n' = n_sent n -> n_shape n' = n_shape n.
Proof. unfold n_sent. congruence. Qed.

Lemma keep_heap n h : n_shape (set_heap n h) = n_shape n.
Proof. done. Qed.
Lemma keep_mem n m : n_shape (set_mem n m) = n_shape n.
Proof. done. Qed.
Lemma keep_udp n u : n_shape (set_udp n u) = n_shape n.
Proof. done. Qed.
Lemma keep_entry n i r : n_shape (set_entry n i r) = n_shape n.
Proof. apply sent_shape, shape_entry. Qed.
Lemma keep_dev n d nd nd' : n_devs n !! d = Some nd -> dev_shape nd' = dev_shape nd ->
  n_shape (set_dev_at n d nd') = n_shape n.
Proof. intros Hn Hs. by eapply sent_shape, shape_dev. Qed.

Ltac shapes ::=
  repeat match goal with
  | E : _ = Some _ |- _ => shape_call E
  | E : n_sent _ = n_sent _ |- _ => apply sent_shape in E
  end;
  repeat progress (rewrite ?keep_heap, ?keep_mem, ?keep_udp, ?keep_entry in *);
  try congruence.

(** The parameters are held to the same. *)
Context (tcp_input : net H T -> Z -> netbuf -> Z -> Z -> option (net H T)).
Context (recv_callback : Z -> net H T -> Z -> netbuf -> Z -> Z -> option (net H T)).
Hypothesis tcp_shape : forall n d b s t n', tcp_input n d b s t = Some n' -> n_shape n' = n_shape n.
Hypothesis callback_shape : forall f n q b s t n', recv_callback f n q b s t = Some n' -> n_shape n' = n_shape n.

Lemma shape_udp_input n d b s t n' : udp_input a recv_callback n d b s t = Some n' -> n_shape n' = n_shape n.
Proof.
  unfold udp_input, udp_deliver. intros E. run E; shapes. by apply callback_shape in E.
Qed.

Lemma shape_reass_find n s t i p r n' : ip_reass_find n s t i p = Some (r, n') -> n_shape n' = n_shape n.
Proof. unfold ip_reass_find. intros E. run E; shapes. Qed.

Lemma shape_add_fragment n i o dt l mf r n' : ip_reass_add_fragment a n i o dt l mf = Some (r, n') -> n_shape n' = n_shape n.
Proof. unfold ip_reass_add_fragment. intros E. run E; shapes. Qed.

Lemma shape_reass_free n i n' : ip_reass_free n i = Some n' -> n_shape n' = n_shape n.
Proof. unfold ip_reass_free. intros E. run E; shapes. Qed.

Lemma shape_complete n i d r n' : ip_reass_complete a n i d = Some (r, n') -> n_shape n' = n_shape n.
Proof. unfold ip_reass_complete. intros E. run E; try apply shape_reass_free in Hv1; shapes. Qed.

Lemma shape_reassemble n d b p r n' : ip_reassemble a n d b p = Some (r, n') -> n_shape n' = n_shape n.
Proof.
  unfold ip_reassemble. intros E. run E; apply shape_reass_find in Hv; try apply shape_add_fragment in Hv0; try apply shape_complete in E; shapes.
Qed.

Lemma shape_ip_input n d b n' : ip_input a tcp_input recv_callback n d b = Some n' -> n_shape n' = n_shape n.
Proof.
  unfold ip_input, ip_dispatch. intros E. run E; shapes;
    try apply shape_icmp_input in E; try apply shape_udp_input in E; try apply tcp_shape in E;
    try match goal with R : ip_reassemble _ _ _ _ _ = Some _ |- _ => apply shape_reassemble in R end; shapes.
Qed.

Lemma shape_ethernet_input n d b n' : ethernet_input a tcp_input recv_callback n d b = Some n' -> n_shape n' = n_shape n.
Proof.
  unfold ethernet_input. intros E. run E; shapes; try apply shape_arp_input in E; try apply shape_ip_input in E; shapes.
Qed.

Lemma shape_receive n d b n' : netdev_receive a tcp_input recv_callback n d b = Some n' -> n_shape n' = n_shape n.
Proof.
  unfold netdev_receive. intros E. run E; shapes.
  - rewrite (keep_dev _ _ v1) by done. done.
  - apply shape_ethernet_input in E. rewrite E. by apply (keep_dev _ _ v).
Qed.

Lemma shape_take n d ds n' : e1000_take a tcp_input recv_callback n d ds = Some n' -> n_shape n' = n_shape n.
Proof.
  unfold e1000_take. intros E. run E; shapes. apply shape_receive in E. rewrite E. by rewrite (keep_dev _ _ v0).
Qed.

(** ** The receive loop ends *)

(** How many descriptors of a ring are complete. *)
Fixpoint done_descs (l : list rx_desc) : nat :=
  match l with
  | [] => O
  | d :: l => (if Z.land (rx_status d) E1000_RXD_STAT_DD =? 0 then 0 else 1) + done_descs l
  end.

Lemma done_descs_alter l : forall i d, l !! i = Some d -> Z.land (rx_status d) E1000_RXD_STAT_DD <> 0 ->
  done_descs l = S (done_descs (alter (fun d => RxDesc (rx_length d) 0 (rx_buffer d)) i l)).
Proof.
  induction l as [|x l IH]; intros i d Hi Hs; [done|]. destruct i as [|i].
  - injection Hi as ->. cbn [done_descs alter list_alter]. by rewrite (proj2 (Z.eqb_neq _ _) Hs).
  - cbn [done_descs alter list_alter]. change (list_alter _ i l) with (alter (fun d => RxDesc (rx_length d) 0 (rx_buffer d)) i l).
    rewrite (IH i d Hi Hs). lia.
Qed.

Lemma done_descs_bound l : (done_descs l <= length l)%nat.
Proof. induction l as [|d l IH]; cbn [done_descs length]; [lia|]. case_if; lia. Qed.

(** The device after a frame has been taken: the same receive ring. *)
Lemma take_ring n d nd n1 nd1 : n_shape n1 = n_shape n -> n_devs n !! d = Some nd -> n_devs n1 !! d = Some nd1 ->
  rx_descs (nd_priv nd1) = rx_descs (nd_priv nd).
Proof.
  intros Hs Hn Hn1. unfold n_shape in Hs. injection Hs as Hs _ _ _ _ _ _. pose proof (f_equal (lookup d) Hs) as El.
  rewrite !lookup_fmap, Hn, Hn1 in El. simpl in El. injection El. unfold dev_shape. congruence.
Qed.

Lemma take_dev n d nd n1 : n_shape n1 = n_shape n -> n_devs n !! d = Some nd -> exists nd1, n_devs n1 !! d = Some nd1.
Proof.
  intros Hs Hn. unfold n_shape in Hs. injection Hs as Hs _ _ _ _ _ _. pose proof (f_equal (lookup d) Hs) as El.
  rewrite !lookup_fmap, Hn in El. destruct (n_devs n1 !! d); [by eexists|done].
Qed.

Lemma done_descs_insert l : forall i d, (done_descs (<[i := d]> l) <= S (done_descs l))%nat.
Proof.
  induction l as [|x l IH]; intros i d; [destruct i; cbn; lia|]. destruct i as [|i].
  - change (<[O := d]> (x :: l)) with (d :: l). cbn [done_descs]. destruct (_ =? 0), (Z.land (rx_status x) _ =? 0); lia.
  - change (<[S i := d]> (x :: l)) with (x :: <[i := d]> l). cbn [done_descs]. specialize (IH i d). lia.
Qed.

Lemma dma_length w : forall rx, length (dma_write rx w) = length rx.
Proof. induction w as [|x w IH]; intros rx; [done|]. etransitivity; [apply (IH (<[x.1 := x.2]> rx))|apply length_insert]. Qed.

Lemma dma_done w : forall rx, (done_descs (dma_write rx w) <= done_descs rx + length w)%nat.
Proof.
  induction w as [|x w IH]; intros rx; [cbn; lia|]. cbn [dma_write fold_left length]. specialize (IH (<[x.1 := x.2]> rx)).
  pose proof (done_descs_insert rx x.1 x.2). unfold dma_write in IH. lia.
Qed.

(** How many descriptors a schedule of the device completes. *)
Definition writes (hw : list (list (nat * rx_desc))) : nat := sum_list_with length hw.

(** A schedule with more turns than complete descriptors reaches the end of
    the loop. *)
Lemma receive_end hw' hw : forall n d nd,
  n_devs n !! d = Some nd -> length (rx_descs (nd_priv nd)) = Z.to_nat E1000_NUM_RX_DESC ->
  0 <= rx_cur (nd_priv nd) < E1000_NUM_RX_DESC -> (done_descs (rx_descs (nd_priv nd)) + writes hw < length hw)%nat ->
  e1000_receive a tcp_input recv_callback (hw ++ hw') n d = e1000_receive a tcp_input recv_callback hw n d /\
  (e1000_receive a tcp_input recv_callback hw n d = None -> exists n1 ds, e1000_take a tcp_input recv_callback n1 d ds = None).
Proof.
  induction hw as [|w hw IH]; intros n d nd Hn Hl Hc Hf; [cbn in Hf; lia|].
  cbn [e1000_receive app]. rewrite Hn. cbn [mbind option_bind]. cbv zeta. set (nd0 := set_nic nd (e1000_dma (nd_priv nd) w)).
  pose proof (dma_done w (rx_descs (nd_priv nd))) as Hw. pose proof (dma_length w (rx_descs (nd_priv nd))) as Hl0.
  change (dma_write (rx_descs (nd_priv nd)) w) with (rx_descs (nd_priv nd0)) in Hw, Hl0. cbn [writes sum_list_with length] in Hf.
  change (rx_cur (nd_priv nd)) with (rx_cur (nd_priv nd0)) in Hc.
  destruct (lookup_lt_is_Some_2 (rx_descs (nd_priv nd0)) (Z.to_nat (rx_cur (nd_priv nd0)))) as [ds Hd];
    [unfold E1000_NUM_RX_DESC in *; lia|]. rewrite Hd. cbn [mbind option_bind].
  destruct (decide (Z.land (rx_status ds) E1000_RXD_STAT_DD = 0)) as [Hs|Hs]; [by rewrite (proj2 (Z.eqb_eq _ _) Hs)|].
  rewrite (proj2 (Z.eqb_neq _ _) Hs). set (n0 := set_dev_at n d nd0).
  assert (n_devs n0 !! d = Some nd0) as Hn0 by (unfold n0, set_dev_at; cbn [n_devs set_devs]; by rewrite lookup_insert_eq).
  destruct (if negb _ then e1000_take a tcp_input recv_callback n0 d ds else Some n0) as [n1|] eqn:Ht; cycle 1.
  { split; [done|]. intros _. case_if_in Ht; [|done]. eauto. }
  assert (n_shape n1 = n_shape n0) as Hsh by (case_if_in Ht; [by apply shape_take in Ht|by injection Ht as <-]).
  destruct (take_dev _ _ _ _ Hsh Hn0) as [nd1 Hn1]. pose proof (take_ring n0 d nd0 n1 nd1 Hsh Hn0 Hn1) as Hr.
  cbn [mbind option_bind]. rewrite Hn1. cbn [mbind option_bind].
  apply (IH _ d (set_nic nd1 (e1000_advance (nd_priv nd1) (rx_cur (nd_priv nd0))))); cbn [nd_priv set_nic rx_descs rx_cur e1000_advance].
  - unfold set_dev_at. cbn [n_devs set_devs]. by rewrite lookup_insert_eq.
  - rewrite length_alter, Hr. lia.
  - unfold E1000_NUM_RX_DESC. apply Z.mod_pos_bound. lia.
  - rewrite Hr. rewrite (done_descs_alter _ _ _ Hd Hs) in Hw. unfold writes. lia.
Qed.

(** The receive loop of the driver ends.  Each turn hands one complete
    descriptor back, and nothing the stack does with a frame (replies,
    queueing, reassembly) changes the receive ring; so as many turns are
    enough as there are descriptors, the ones the device completes while the
    loop runs included, and one more.  A longer schedule gives the same
    result, which is [None] only when handling some frame does not return.
    The functions outside the model that a frame can reach are held to leave
    the ring alone as well. *)
Theorem e1000_receive_terminates n d nd hw hw' :
  n_devs n !! d = Some nd -> length (rx_descs (nd_priv nd)) = Z.to_nat E1000_NUM_RX_DESC ->
  0 <= rx_cur (nd_priv nd) < E1000_NUM_RX_DESC -> (32 + writes hw < length hw)%nat ->
  e1000_receive a tcp_input recv_callback (hw ++ hw') n d = e1000_receive a tcp_input recv_callback hw n d /\
  (e1000_receive a tcp_input recv_callback hw n d = None -> exists n1 ds, e1000_take a tcp_input recv_callback n1 d ds = None).
Proof.
  intros Hn Hl Hc Hw. apply (receive_end hw' hw n d nd Hn Hl Hc). pose proof (done_descs_bound (rx_descs (nd_priv nd))).
  change (Z.to_nat E1000_NUM_RX_DESC) with 32%nat in Hl. lia.
Qed.
End shape.
