(* ===== verification/RouteProps.v ===== *)
(** * Routes

    The table of src/net/ip.c as a finite map from networks to routes, and
    the search as longest-prefix match. *)

From S2P Require Import Prelude Mem HeapInterface Netbuf NetBytes NetState Netdev Arp Ip.


(** ** Longest prefix *)

(** A route is at least as good as another one: a longer mask, or the same
    length and no larger metric. *)
Definition at_least (m1 k1 m2 k2 : Z) : Prop := mask_len m2 < mask_len m1 \/ (mask_len m2 = mask_len m1 /\ k1 <= k2).

(** What the locals of the search mean after the routes [t]: either none
    matched, or they describe the first of the best matching ones. *)
Definition search_inv (dst : Z) (t : list ip_route) (b : best_route) : Prop :=
  (br_dev b = 0 /\ forall r, r ∈ t -> route_matches dst r = false) \/
  (br_dev b <> 0 /\ exists i r, t !! i = Some r /\ route_matches dst r = true /\
     b = BestRoute (rt_dev r) (rt_netmask r) (rt_gateway r) (rt_metric r) /\
     (forall r', r' ∈ t -> route_matches dst r' = true -> at_least (rt_netmask r) (rt_metric r) (rt_netmask r') (rt_metric r')) /\
     forall j r', (j < i)%nat -> t !! j = Some r' -> route_matches dst r' = true ->
       ~ at_least (rt_netmask r') (rt_metric r') (rt_netmask r) (rt_metric r)).

Definition devs_valid (t : list ip_route) : Prop := Forall (fun r => rt_valid r = true -> rt_dev r <> 0) t.

Lemma search_step dst t b r : search_inv dst t b -> (rt_valid r = true -> rt_dev r <> 0) ->
  search_inv dst (t ++ [r]) (route_step dst b r).
Proof.
  intros Hinv Hr. unfold route_step. destruct (route_matches dst r) eqn:Hm; cycle 1.
  { destruct Hinv as [[H0 Hall]|(H0 & i & s & Hi & Hs & -> & Hbest & Hfirst)]; [left|right].
    - split; [done|]. intros r' [Hin|Hin%list_elem_of_singleton]%elem_of_app; [auto|by subst].
    - split; [done|]. exists i, s. split; [by apply lookup_app_l_Some|]. split; [done|]. split; [done|]. split.
      + intros r' [Hin|Hin%list_elem_of_singleton]%elem_of_app Hm'; [auto|by subst; congruence].
      + intros j r' Hj. rewrite lookup_app_l by (apply lookup_lt_Some in Hi; lia). eauto. }
  assert (rt_dev r <> 0) as Hd by (apply Hr; unfold route_matches in Hm; by zify_bool).
  destruct Hinv as [[H0 Hall]|(H0 & i & s & Hi & Hs & -> & Hbest & Hfirst)].
  - rewrite H0. cbn [Z.eqb]. right. split; [done|]. exists (length t), r.
    split; [by rewrite lookup_app_r, Nat.sub_diag by lia|]. split; [done|]. split; [done|]. split.
    + intros r' [Hin|Hin%list_elem_of_singleton]%elem_of_app Hm'; [rewrite Hall in Hm' by done; done|subst; right; lia].
    + intros j r' Hj. rewrite lookup_app_l by lia. intros Hl%list_elem_of_lookup_2 Hm'. rewrite Hall in Hm' by done. done.
  - cbn [br_dev br_mask br_metric] in *. rewrite (proj2 (Z.eqb_neq _ _) H0). cbv zeta.
    destruct (if mask_len (rt_netmask s) <? mask_len (rt_netmask r) then true else _) eqn:Hb; right.
    + split; [done|]. exists (length t), r. split; [by rewrite lookup_app_r, Nat.sub_diag by lia|].
      split; [done|]. split; [done|].
      assert (~ at_least (rt_netmask s) (rt_metric s) (rt_netmask r) (rt_metric r)) as Hlt.
      { unfold at_least. case_if_in Hb; zify_bool; lia. }
      split.
      * intros r' [Hin|Hin%list_elem_of_singleton]%elem_of_app Hm'; [|subst; right; lia].
        specialize (Hbest _ Hin Hm'). unfold at_least in *. lia.
      * intros j r' Hj. rewrite lookup_app_l by lia. intros Hl%list_elem_of_lookup_2 Hm'.
        specialize (Hbest _ Hl Hm'). unfold at_least in *. lia.
    + split; [done|]. exists i, s. split; [by apply lookup_app_l_Some|]. split; [done|]. split; [done|]. split.
      * intros r' [Hin|Hin%list_elem_of_singleton]%elem_of_app Hm'; [auto|]. subst. unfold at_least.
        case_if_in Hb; [done|]. zify_bool. lia.
      * intros j r' Hj. rewrite lookup_app_l by (apply lookup_lt_Some in Hi; lia). eauto.
Qed.

Lemma route_search_spec dst t : devs_valid t -> search_inv dst t (route_search dst t).
Proof.
  intros Hv. unfold route_search. induction t as [|r t IH] using rev_ind.
  - left. split; [done|]. intros r Hr. by apply elem_of_nil in Hr.
  - apply Forall_app in Hv as [Hv Hr]. rewrite fold_left_app. cbn [fold_left]. apply search_step; [auto|].
    by apply Forall_cons_1 in Hr as [Hr _].
Qed.

(** ** The table as a map *)

Definition route_key (r : ip_route) : Z * Z := (rt_dest r, rt_netmask r).
Definition route_value (r : ip_route) : Z * Z * Z := (rt_gateway r, rt_dev r, rt_metric r).
Definition live_routes (t : list ip_route) : list ip_route := filter (fun r => rt_valid r = true) t.
Definition route_pairs (t : list ip_route) : list ((Z * Z) * (Z * Z * Z)) := (fun r => (route_key r, route_value r)) <$> live_routes t.
Definition routes_of (t : list ip_route) : gmap (Z * Z) (Z * Z * Z) := list_to_map (route_pairs t).
(** No network has two valid routes. *)
Definition routes_wf (t : list ip_route) : Prop := NoDup (route_key <$> live_routes t) /\ devs_valid t.

Lemma pairs_fst t : (route_pairs t).*1 = route_key <$> live_routes t.
Proof. unfold route_pairs. rewrite <- list_fmap_compose. by apply list_fmap_ext. Qed.

(** Position [i] split off from the valid routes. *)
Lemma route_split t i r : t !! i = Some r -> exists l, forall r',
  live_routes (<[i := r']> t) ≡ₚ (if rt_valid r' then [r'] else []) ++ l.
Proof.
  intros Hi. exists (live_routes (take i t) ++ live_routes (drop (S i) t)). intros r'.
  rewrite insert_take_drop by (by apply lookup_lt_Some in Hi). unfold live_routes. rewrite list.filter_app, filter_cons.
  destruct (rt_valid r') eqn:E; [rewrite decide_True by done|rewrite decide_False by congruence; done].
  by rewrite <- Permutation_middle.
Qed.

Lemma route_split' t i r : t !! i = Some r -> exists l,
  live_routes t ≡ₚ (if rt_valid r then [r] else []) ++ l /\
  forall r', live_routes (<[i := r']> t) ≡ₚ (if rt_valid r' then [r'] else []) ++ l.
Proof.
  intros Hi. destruct (route_split t i r Hi) as [l Hl]. exists l. split; [|done]. rewrite <- (Hl r). by rewrite list_insert_id.
Qed.

Lemma routes_of_perm t l : NoDup (route_key <$> live_routes t) -> live_routes t ≡ₚ l ->
  routes_of t = list_to_map ((fun r => (route_key r, route_value r)) <$> l).
Proof.
  intros Hnd Hp. apply list_to_map_proper; [by rewrite pairs_fst|]. unfold route_pairs. by rewrite Hp.
Qed.

Lemma routes_of_missing l k : k ∉ (route_key <$> l) ->
  (list_to_map ((fun r => (route_key r, route_value r)) <$> l) : gmap _ (Z * Z * Z)) !! k = None.
Proof. intros Hk. apply not_elem_of_list_to_map_1. by rewrite <- list_fmap_compose. Qed.

Lemma routes_lookup t k : routes_of t !! k = None <-> forall r, r ∈ t -> rt_valid r = true -> route_key r <> k.
Proof.
  unfold routes_of. rewrite <- not_elem_of_list_to_map, pairs_fst. split.
  - intros Hk r Hr Hv <-. apply Hk. apply list_elem_of_fmap_2, list_elem_of_filter. done.
  - intros Hk (r & -> & [Hv Hr]%list_elem_of_filter)%list_elem_of_fmap. by eapply Hk.
Qed.

Lemma devs_valid_insert t i r : devs_valid t -> (rt_valid r = true -> rt_dev r <> 0) -> devs_valid (<[i := r]> t).
Proof. intros Ht Hr. by apply Forall_insert. Qed.

(** A route under a new key may be put in place of an invalid one. *)
Lemma live_fresh t i r r' : t !! i = Some r -> rt_valid r = false -> rt_valid r' = true ->
  Forall (fun x => ~ (rt_valid x = true /\ rt_dest x = rt_dest r' /\ rt_netmask x = rt_netmask r')) t ->
  NoDup (route_key <$> live_routes t) -> NoDup (route_key <$> live_routes (<[i := r']> t)).
Proof.
  intros Hi Hr Hr' Hf Hnd. destruct (route_split' t i r Hi) as (l & Hl & Hl').
  rewrite Hl'. rewrite Hl, Hr in Hnd. rewrite Hr'. cbn. apply list.NoDup_cons. split; [|done].
  intros (x & Hk & Hin)%list_elem_of_fmap.
  assert (x ∈ live_routes t) as [Hv Ht]%list_elem_of_filter by (rewrite Hl, Hr; done).
  apply (proj1 (list.Forall_forall _ _) Hf x Ht). unfold route_key in Hk. by simplify_eq.
Qed.

Lemma route_insert_nodup t dest netmask gateway dev metric : NoDup (route_key <$> live_routes t) ->
  NoDup (route_key <$> live_routes (route_insert t dest netmask gateway dev metric).2).
Proof.
  intros Hnd. unfold route_insert. destruct (list_find _ t) as [[i r]|] eqn:Hf.
  - apply list_find_Some in Hf as (Hi & (Hr & _ & _) & _). destruct (route_split' t i r Hi) as (l & Hl & Hl').
    cbn [snd]. rewrite Hl'. rewrite Hl in Hnd. cbn [rt_valid]. by rewrite Hr in *.
  - apply list_find_None in Hf. destruct (list_find (fun r => rt_valid r = false) t) as [[i r]|] eqn:Hg; [|done].
    apply list_find_Some in Hg as (Hi & Hr & _). by apply (live_fresh t i r).
Qed.

Lemma route_insert_map t dest netmask gateway dev metric : NoDup (route_key <$> live_routes t) ->
  let '(ret, t') := route_insert t dest netmask gateway dev metric in
  (ret = 0 /\ routes_of t' = <[(dest, netmask) := (gateway, dev, metric)]> (routes_of t)) \/
  (ret = -1 /\ t' = t /\ routes_of t !! (dest, netmask) = None /\ Forall (fun r => rt_valid r = true) t).
Proof.
  intros Hnd. pose proof (route_insert_nodup t dest netmask gateway dev metric Hnd) as Hnd'.
  unfold route_insert in *. destruct (list_find _ t) as [[i r]|] eqn:Hf.
  - apply list_find_Some in Hf as (Hi & (Hr & Hd & Hm) & _). destruct (route_split' t i r Hi) as (l & Hl & Hl').
    left. split; [done|]. rewrite (routes_of_perm _ _ Hnd Hl). cbn [snd] in Hnd'.
    rewrite (routes_of_perm _ _ Hnd' (Hl' _)). cbn [rt_valid]. rewrite Hr. cbn.
    unfold route_key at 1 3. cbn. subst. by rewrite insert_insert_eq.
  - apply list_find_None in Hf. destruct (list_find (fun r => rt_valid r = false) t) as [[i r]|] eqn:Hg.
    + apply list_find_Some in Hg as (Hi & Hr & _). destruct (route_split' t i r Hi) as (l & Hl & Hl').
      left. split; [done|]. rewrite (routes_of_perm _ _ Hnd Hl), Hr.
      cbn [snd] in Hnd'. by rewrite (routes_of_perm _ _ Hnd' (Hl' _)).
    + right. split; [done|]. split; [done|]. split.
      * apply routes_lookup. intros r Hr Hval Hk. apply (proj1 (list.Forall_forall _ _) Hf r Hr).
        unfold route_key in Hk. by simplify_eq.
      * apply list_find_None in Hg. eapply list.Forall_impl; [exact Hg|]. intros r Hr. by apply not_false_is_true.
Qed.

Lemma route_delete_map t dest netmask : NoDup (route_key <$> live_routes t) ->
  let '(ret, t') := route_delete t dest netmask in
  NoDup (route_key <$> live_routes t') /\ routes_of t' = delete (dest, netmask) (routes_of t) /\
  ret = match routes_of t !! (dest, netmask) with Some _ => 0 | None => -1 end.
Proof.
  intros Hnd. unfold route_delete. destruct (list_find _ t) as [[i r]|] eqn:Hf.
  - apply list_find_Some in Hf as (Hi & (Hr & Hd & Hm) & _). destruct (route_split' t i r Hi) as (l & Hl & Hl').
    rewrite Hr in Hl. cbn in Hl. pose proof Hnd as Hnd0. rewrite Hl in Hnd0. apply list.NoDup_cons in Hnd0 as [Hnot Hnd0].
    specialize (Hl' (IpRoute (rt_dest r) (rt_netmask r) (rt_gateway r) (rt_dev r) (rt_metric r) false)). cbn in Hl'.
    assert (NoDup (route_key <$> live_routes (<[i := IpRoute (rt_dest r) (rt_netmask r) (rt_gateway r) (rt_dev r) (rt_metric r) false]> t)))
      as Hnd' by (by rewrite Hl'). split; [done|].
    rewrite (routes_of_perm _ _ Hnd Hl), (routes_of_perm _ _ Hnd' Hl'). cbn. subst.
    change (rt_dest r, rt_netmask r) with (route_key r). rewrite lookup_insert_eq. split; [|done].
    rewrite delete_insert_id; [done|]. by apply routes_of_missing.
  - apply list_find_None in Hf. assert (routes_of t !! (dest, netmask) = None) as Hn.
    { apply routes_lookup. intros r Hr Hval Hk. apply (proj1 (list.Forall_forall _ _) Hf r Hr). unfold route_key in Hk. by simplify_eq. }
    by rewrite delete_id, Hn.
Qed.

(** ** The properties *)

(** The network mask of a prefix, in network byte order, has that length. *)
Lemma mask_len_prefix k : 0 <= k <= 32 -> mask_len (htonl (2 ^ 32 - 2 ^ (32 - k))) = k.
Proof.
  intros Hk. assert (k ∈ seqZ 0 33) as Hin by (apply elem_of_seqZ; lia).
  assert (forallb (fun k => mask_len (htonl (2 ^ 32 - 2 ^ (32 - k))) =? k) (seqZ 0 33) = true) as Hall by reflexivity.
  rewrite forallb_forall in Hall. apply Z.eqb_eq, Hall. by apply list_elem_of_In.
Qed.

Section props.
Context {H T : Type} `{KHeap H}.
Implicit Types (n : net H T) (dest netmask dst_ip : Z).

(** C22: The table of a state refines a map: adding a route inserts its network,
    or fails when the network is new and every entry is taken; deleting a
    route removes its network, or fails when there is none; both keep the
    invariant that no network has two valid routes, and initialisation
    establishes it with the empty map. *)
Theorem route_table_refines_map n dest netmask gateway dev metric :
  NoDup (route_key <$> live_routes (route_table (n_ip n))) ->
  let m := routes_of (route_table (n_ip n)) in
  let '(ra, na) := ip_route_add n dest netmask gateway dev metric in
  let '(rd, nd) := ip_route_del n dest netmask in
  let ma := routes_of (route_table (n_ip na)) in
  ((ra = 0 /\ ma = <[(dest, netmask) := (gateway, dev, metric)]> m) \/
   (ra = -1 /\ ma = m /\ m !! (dest, netmask) = None /\ Forall (fun r => rt_valid r = true) (route_table (n_ip n)))) /\
  NoDup (route_key <$> live_routes (route_table (n_ip na))) /\
  rd = (match m !! (dest, netmask) with Some _ => 0 | None => -1 end) /\
  routes_of (route_table (n_ip nd)) = delete (dest, netmask) m /\
  NoDup (route_key <$> live_routes (route_table (n_ip nd))).
Proof.
  intros Hnd m. unfold ip_route_add, ip_route_del.
  pose proof (route_insert_map _ dest netmask gateway dev metric Hnd) as Ha.
  pose proof (route_insert_nodup _ dest netmask gateway dev metric Hnd) as Hna.
  pose proof (route_delete_map _ dest netmask Hnd) as Hd.
  destruct (route_insert _ _ _ _ _ _) as [ra ta], (route_delete _ _ _) as [rd td].
  destruct Hd as (Hdn & Hdm & Hr). split_and!; [|done..]. destruct Ha as [Ha|(Hra & -> & Hm & Hfull)]; [by left|by right].
Qed.

(** C23: The lookup is a longest-prefix match: the device and the gateway (the
    destination itself for a route without one) of the first valid route
    among those that match with the longest mask and the smallest metric;
    when no route matches, the default device, with its gateway for
    destinations outside its subnet. *)
Theorem route_lookup_longest_prefix n dst_ip : devs_valid (route_table (n_ip n)) ->
  let t := route_table (n_ip n) in
  (exists i r, t !! i = Some r /\ route_matches dst_ip r = true /\
     (forall r', r' ∈ t -> route_matches dst_ip r' = true -> at_least (rt_netmask r) (rt_metric r) (rt_netmask r') (rt_metric r')) /\
     (forall j r', (j < i)%nat -> t !! j = Some r' -> route_matches dst_ip r' = true ->
        ~ at_least (rt_netmask r') (rt_metric r') (rt_netmask r) (rt_metric r)) /\
     ip_route_lookup n dst_ip = Some (rt_dev r, if rt_gateway r =? 0 then dst_ip else rt_gateway r)) \/
  ((forall r, r ∈ t -> route_matches dst_ip r = false) /\
   ((n_default n = 0 /\ ip_route_lookup n dst_ip = Some (0, dst_ip)) \/
    (n_default n <> 0 /\ ip_route_lookup n dst_ip =
       (fun nd => (n_default n, if ip_same_subnet (nd_ip_addr nd) dst_ip (nd_netmask nd) || (nd_gateway nd =? 0) then dst_ip
                                else nd_gateway nd)) <$> (n_devs n !! n_default n)))).
Proof.
  intros Hv t. unfold ip_route_lookup. fold t. destruct (route_search_spec dst_ip t Hv) as [[Hz Hall]|(Hz & i & r & Hi & Hm & Hb & Hbest & Hfirst)].
  - right. split; [done|]. rewrite Hz. cbn [Z.eqb negb]. unfold netdev_get_default. destruct (Z.eqb_spec (n_default n) 0) as [Hd|Hd]; [by left; rewrite Hd|].
    right. split; [done|]. destruct (n_devs n !! n_default n) as [nd|]; [|done]. cbn. do 2 f_equal.
    destruct (ip_same_subnet _ _ _); [done|]. by destruct (nd_gateway nd =? 0).
  - left. exists i, r. rewrite (proj2 (Z.eqb_neq _ _) Hz). cbn [negb]. rewrite Hb. cbn [br_dev br_gateway].
    split_and!; [done..|]. by destruct (rt_gateway r =? 0).
Qed.

End props.
