(* ===== verification/UdpProps.v ===== *)
(** * UDP control blocks

    The demultiplexing of datagrams, the allocation of ephemeral ports and
    the invariant that two control blocks never share an address, over the
    model of src/net/udp.c. *)

From S2P Require Import Prelude Mem HeapInterface Checksum Netbuf NetBytes NetState Netdev Arp Ip Icmp Udp NetShape.

(** ** Demultiplexing *)

Section find.
Context (objs : gmap Z udp_pcb) (local_ip local_port remote_ip remote_port : Z).

(** The score of the control block at an address, -1 when it does not match. *)
Definition score_of (q : Z) : Z :=
  match objs !! q with
  | Some p => default (-1) (pcb_score p local_ip local_port remote_ip remote_port)
  | None => -1
  end.

Lemma pcb_score_pos p s : pcb_score p local_ip local_port remote_ip remote_port = Some s -> 0 <= s <= 7.
Proof. unfold pcb_score. intros E. repeat case_if_in E; simplify_eq; repeat case_if; lia. Qed.

(** The loop keeps the first address with the best score so far. *)
Lemma find_pcb_loop_spec l : forall best, (forall q, q ∈ l -> is_Some (objs !! q)) ->
  let s := if best =? 0 then -1 else score_of best in
  (best = 0 \/ 0 <= s) -> 0 ∉ l ->
  exists r, find_pcb_loop objs l local_ip local_port remote_ip remote_port best s = Some r /\
    ((r = best /\ forall q, q ∈ l -> score_of q <= s) \/
     (exists i, l !! i = Some r /\ s < score_of r /\ 0 <= score_of r /\ (forall q, q ∈ l -> score_of q <= score_of r) /\
        forall j q, (j < i)%nat -> l !! j = Some q -> score_of q < score_of r)).
Proof.
  induction l as [|x l IH]; intros best Hl s Hs H0.
  { exists best. split; [done|]. left. split; [done|]. intros q Hq. by apply elem_of_nil in Hq. }
  destruct (Hl x ltac:(left)) as [p Hp]. cbn [find_pcb_loop]. rewrite Hp. cbn [mbind option_bind].
  assert (x <> 0 /\ 0 ∉ l) as [Hx H0'] by (apply not_elem_of_cons in H0; intuition congruence).
  assert (score_of x = default (-1) (pcb_score p local_ip local_port remote_ip remote_port)) as Hsx by (unfold score_of; by rewrite Hp).
  assert (-1 <= s) as Hs1 by (unfold s in *; destruct (Z.eqb_spec best 0); lia).
  destruct (decide (s < score_of x)) as [Hlt|Hge].
  - destruct (pcb_score p local_ip local_port remote_ip remote_port) as [sc|] eqn:Esc; [|rewrite Hsx in Hlt; simpl in Hlt; lia].
    simpl in Hsx. rewrite (proj2 (Z.ltb_lt _ _)) by lia. apply pcb_score_pos in Esc.
    destruct (IH x ltac:(intros; apply Hl; by right)) as (r & Hr & Hcase); [right; rewrite (proj2 (Z.eqb_neq _ _) Hx); lia|done|].
    rewrite (proj2 (Z.eqb_neq _ _) Hx) in *. rewrite Hsx in Hr. exists r. split; [done|]. right. destruct Hcase as [[-> Hle]|(i & Hi & Hbr & Hr0 & Hle & Hfirst)].
    + exists O. split_and!; [done|lia|lia| |intros; lia]. intros q [->|Hq]%elem_of_cons; [lia|auto].
    + exists (S i). split_and!; [done|lia|lia| |].
      * intros q [->|Hq]%elem_of_cons; [lia|auto].
      * intros [|j] q Hj Hq; [injection Hq as <-; lia|]. eapply Hfirst; [|exact Hq]. lia.
  - assert (match pcb_score p local_ip local_port remote_ip remote_port with
            | Some s0 => if s <? s0 then (x, s0) else (best, s) | None => (best, s) end = (best, s)) as ->.
    { destruct (pcb_score _ _ _ _ _) as [sc|]; [|done]. simpl in Hsx. rewrite (proj2 (Z.ltb_ge _ _)) by lia. done. }
    destruct (IH best ltac:(intros; apply Hl; by right) Hs H0') as (r & Hr & Hcase). exists r. split; [done|].
    destruct Hcase as [[-> Hle]|(i & Hi & Hbr & Hr0 & Hle & Hfirst)]; [left|right].
    + split; [done|]. intros q [->|Hq]%elem_of_cons; [lia|auto].
    + exists (S i). fold s in Hbr. split_and!; [done|lia|lia| |].
      * intros q [->|Hq]%elem_of_cons; [lia|auto].
      * intros [|j] q Hj Hq; [injection Hq as <-; lia|]. eapply Hfirst; [|exact Hq]. lia.
Qed.

End find.

(** A datagram goes to the control block that fits it best.  The search
    returns the first of those with the highest score, where a match of the
    remote address counts more than one of the remote port, and that more
    than one of the local address; it returns NULL exactly when no control
    block accepts the datagram. *)
Theorem udp_find_pcb_best u local_ip local_port remote_ip remote_port :
  (forall q, q ∈ udp_pcbs u -> q <> 0 /\ is_Some (udp_objs u !! q)) ->
  let score := score_of (udp_objs u) local_ip local_port remote_ip remote_port in
  exists r, udp_find_pcb u local_ip local_port remote_ip remote_port = Some r /\
    ((r = 0 /\ forall q, q ∈ udp_pcbs u -> score q = -1) \/
     (r <> 0 /\ exists i, udp_pcbs u !! i = Some r /\ 0 <= score r /\ (forall q, q ∈ udp_pcbs u -> score q <= score r) /\
        forall j q, (j < i)%nat -> udp_pcbs u !! j = Some q -> score q < score r)).
Proof.
  intros Hl score. unfold udp_find_pcb.
  destruct (find_pcb_loop_spec (udp_objs u) local_ip local_port remote_ip remote_port (udp_pcbs u) 0) as (r & Hr & Hcase).
  { intros q Hq. by apply Hl. } { by left. } { intros Hq%Hl. by destruct Hq. }
  exists r. split; [done|]. destruct Hcase as [[-> Hle]|(i & Hi & _ & Hr0 & Hle & Hfirst)]; [left|right].
  - split; [done|]. intros q Hq. specialize (Hle q Hq). cbn [Z.eqb] in Hle. unfold score, score_of in *.
    destruct (udp_objs u !! q) as [p|]; [|done]. destruct (pcb_score _ _ _ _ _) as [s|] eqn:E; [|done].
    apply pcb_score_pos in E. simpl in Hle. lia.
  - split; [by apply (Hl r), (list_elem_of_lookup_2 _ i)|]. by exists i.
Qed.

(** ** Ephemeral ports *)

Definition ephemeral (port : Z) : Prop := UDP_EPHEMERAL_PORT_MIN <= port <= UDP_EPHEMERAL_PORT_MAX.

(** The port of turn [k] of a search that starts at [s]. *)
Definition port_at (s k : Z) : Z := UDP_EPHEMERAL_PORT_MIN + (s - UDP_EPHEMERAL_PORT_MIN + k) mod 16384.

Lemma port_at_ephemeral s k : ephemeral (port_at s k).
Proof.
  unfold ephemeral, port_at, UDP_EPHEMERAL_PORT_MIN, UDP_EPHEMERAL_PORT_MAX.
  pose proof (Z.mod_pos_bound (s - 49152 + k) 16384). lia.
Qed.

Lemma port_at_next s k : port_at s (k + 1) =
  (let next := u32 (port_at s k + 1) in if UDP_EPHEMERAL_PORT_MAX <? next then UDP_EPHEMERAL_PORT_MIN else next).
Proof.
  pose proof (port_at_ephemeral s k) as He. unfold ephemeral, port_at, UDP_EPHEMERAL_PORT_MIN, UDP_EPHEMERAL_PORT_MAX, u32 in *.
  cbv zeta. rewrite (Z.mod_small _ (2 ^ 32)) by lia.
  replace (s - 49152 + (k + 1)) with (s - 49152 + k + 1) by lia. rewrite <- (Zplus_mod_idemp_l (s - 49152 + k) 1).
  set (m := (s - 49152 + k) mod 16384) in *. destruct (Z.ltb_spec 65535 (49152 + m + 1)).
  - replace (m + 1) with (1 * 16384) by lia. rewrite Z_mod_mult. lia.
  - rewrite Z.mod_small by lia. lia.
Qed.

Lemma port_at_start s : ephemeral s -> port_at s 0 = s /\ port_at s 16384 = s.
Proof.
  unfold ephemeral, port_at, UDP_EPHEMERAL_PORT_MIN, UDP_EPHEMERAL_PORT_MAX. intros Hs.
  replace (s - 49152 + 16384) with (s - 49152 + 1 * 16384) by lia. rewrite Z_mod_plus_full, Z.add_0_r.
  rewrite Z.mod_small by lia. lia.
Qed.

Lemma port_at_cover s p : ephemeral s -> ephemeral p -> exists k, 0 <= k < 16384 /\ port_at s k = p.
Proof.
  unfold ephemeral, port_at, UDP_EPHEMERAL_PORT_MIN, UDP_EPHEMERAL_PORT_MAX. intros Hs Hp.
  exists ((p - s) mod 16384). split; [apply Z.mod_pos_bound; lia|]. rewrite Zplus_mod_idemp_r.
  replace (s - 49152 + (p - s)) with (p - 49152) by lia. rewrite Z.mod_small by lia. lia.
Qed.

Lemma port_at_other s k : ephemeral s -> 0 < k < 16384 -> port_at s k <> s.
Proof.
  unfold ephemeral, port_at, UDP_EPHEMERAL_PORT_MIN, UDP_EPHEMERAL_PORT_MAX. intros Hs Hk.
  destruct (Z_lt_dec (s - 49152 + k) 16384).
  - rewrite Z.mod_small by lia. lia.
  - rewrite <- (Z_mod_plus_full _ (-1)), Z.mod_small by lia. lia.
Qed.

Lemma alloc_port_loop_spec u s : ephemeral s -> forall fuel k, 0 <= k -> k + Z.of_nat fuel = 16384 -> (0 < fuel)%nat ->
  (forall j, 0 <= j < k -> port_in_use u (port_at s j) = true) ->
  exists port next, alloc_port_loop fuel u (port_at s k) s = Some (port, next) /\ ephemeral next /\
    ((ephemeral port /\ port_in_use u port = false) \/
     (port = 0 /\ forall p, ephemeral p -> port_in_use u p = true)).
Proof.
  intros Hs. induction fuel as [|fuel IH]; intros k Hk Hf H0 Hused; [lia|]. cbn [alloc_port_loop]. cbv zeta.
  pose proof (port_at_ephemeral s k) as He. pose proof (port_at_ephemeral s (k + 1)) as He'.
  assert (u16 (port_at s k) = port_at s k) as ->.
  { unfold u16, ephemeral, UDP_EPHEMERAL_PORT_MIN, UDP_EPHEMERAL_PORT_MAX in *. apply Z.mod_small. lia. }
  pose proof (port_at_next s k) as Hn. cbv zeta in Hn. rewrite <- Hn.
  destruct (port_in_use u (port_at s k)) eqn:Hp; cbn [negb].
  2: { do 2 eexists. split; [done|]. split; [done|]. by left. }
  assert (forall j, 0 <= j < k + 1 -> port_in_use u (port_at s j) = true) as Hused'.
  { intros j Hj. destruct (decide (j = k)) as [->|]; [done|]. apply Hused. lia. }
  destruct (decide (fuel = 0%nat)) as [->|Hne].
  - replace (k + 1) with 16384 in * by lia. rewrite (proj2 (port_at_start s Hs)), Z.eqb_refl. cbn [negb].
    do 2 eexists. split; [done|]. split; [done|]. right. split; [done|]. intros p Hp'.
    destruct (port_at_cover s p Hs Hp') as (j & Hj & <-). apply Hused'. lia.
  - rewrite (proj2 (Z.eqb_neq _ _)) by (apply port_at_other; [done|lia]). cbn [negb]. apply IH; [lia|lia|lia|done].
Qed.

Lemma alloc_port_spec u : ephemeral (next_ephemeral_port u) ->
  exists port u', udp_alloc_port u = Some (port, u') /\ ephemeral (next_ephemeral_port u') /\
    udp_pcbs u' = udp_pcbs u /\ udp_objs u' = udp_objs u /\
    ((ephemeral port /\ port_in_use u port = false) \/
     (port = 0 /\ forall p, ephemeral p -> port_in_use u p = true)).
Proof.
  intros Hs. unfold udp_alloc_port.
  assert (u16 (next_ephemeral_port u) = next_ephemeral_port u) as ->.
  { unfold u16, ephemeral, UDP_EPHEMERAL_PORT_MIN, UDP_EPHEMERAL_PORT_MAX in *. apply Z.mod_small. lia. }
  destruct (alloc_port_loop_spec u _ Hs (Z.to_nat 16384) 0 ltac:(lia) ltac:(lia) ltac:(lia)) as (port & next & El & Hn & Hp).
  { intros; lia. }
  rewrite (proj1 (port_at_start _ Hs)) in El. rewrite El.
  cbn [mbind option_bind]. do 2 eexists. split; [done|]. done.
Qed.

(** ** No two control blocks share an address *)

(** The local addresses a control block stands for: its port, at its address
    or at any when it has none. *)
Definition claims (p : udp_pcb) (ip port : Z) : Prop :=
  up_local_port p = port /\ (up_local_ip p = 0 \/ up_local_ip p = ip).

(** No local address belongs to two of the listed control blocks. *)
Definition udp_exclusive (u : udp_state) : Prop :=
  forall q1 q2 p1 p2 ip port, q1 ∈ udp_pcbs u -> q2 ∈ udp_pcbs u ->
    udp_objs u !! q1 = Some p1 -> udp_objs u !! q2 = Some p2 ->
    port <> 0 -> claims p1 ip port -> claims p2 ip port -> q1 = q2.

Definition udp_inv (u : udp_state) : Prop := udp_exclusive u /\ ephemeral (next_ephemeral_port u).

(** The test of [udp_bind] finds every address that is taken. *)
Lemma conflict_claims p ip port ip' port' p' : bind_conflict p ip port = false -> up_local_ip p' = ip -> up_local_port p' = port ->
  claims p ip' port' -> claims p' ip' port' -> False.
Proof. unfold bind_conflict, claims. intros Hc <- <- [<- C1] [E C2]. rewrite E, Z.eqb_refl in Hc. lia. Qed.

(** A control block that accepts a datagram stands for its address. *)
Lemma score_claims p lip lport rip rport x : pcb_score p lip lport rip rport = Some x -> claims p lip lport.
Proof. unfold pcb_score, claims. intros E. repeat case_if_in E; simplify_eq; lia. Qed.

(** Replacing a control block by one that stands for no address of another. *)
Lemma exclusive_set u q p : udp_exclusive u ->
  (forall q' p' ip port, q ∈ udp_pcbs u -> q' ∈ udp_pcbs u -> q' <> q -> udp_objs u !! q' = Some p' -> port <> 0 ->
     claims p' ip port -> claims p ip port -> False) ->
  udp_exclusive (set_obj u q p).
Proof.
  intros Hu Hp q1 q2 p1 p2 ip port H1 H2 E1 E2 H0 C1 C2. cbn [udp_pcbs udp_objs set_obj] in *.
  destruct (decide (q1 = q)) as [->|N1], (decide (q2 = q)) as [->|N2]; [done| | |];
    rewrite ?lookup_insert_eq in *; rewrite ?lookup_insert_ne in * by done; simplify_eq.
  - by destruct (Hp q2 p2 ip port).
  - by destruct (Hp q1 p1 ip port).
  - by apply (Hu q1 q2 p1 p2 ip port).
Qed.

(** A change that leaves the local address alone. *)
Lemma exclusive_same u q p p' : udp_exclusive u -> udp_objs u !! q = Some p -> up_local_ip p' = up_local_ip p ->
  up_local_port p' = up_local_port p -> udp_exclusive (set_obj u q p').
Proof.
  intros Hu Hq Hip Hport. apply exclusive_set; [done|]. intros q2 p2 ip port Hin H2 Hne E2 H0 C2 C1.
  apply Hne, (Hu q2 q p2 p ip port); try done. unfold claims in *. by rewrite <- Hip, <- Hport.
Qed.

Lemma exclusive_sub u l objs next : udp_exclusive u -> (forall q, q ∈ l -> q ∈ udp_pcbs u) ->
  (forall q p, objs !! q = Some p -> udp_objs u !! q = Some p) -> udp_exclusive (UdpState l objs next).
Proof. intros Hu Hl Ho q1 q2 p1 p2 ip port H1 H2 E1 E2 H0. cbn in *. apply (Hu q1 q2 p1 p2 ip port); auto. Qed.

Lemma not_in_use u port q p : port_in_use u port = false -> q ∈ udp_pcbs u -> udp_objs u !! q = Some p -> up_local_port p <> port.
Proof.
  unfold port_in_use. intros Hf Hq Hp <-. apply not_true_iff_false in Hf. apply Hf, existsb_exists.
  exists q. split; [by apply list_elem_of_In|]. by rewrite Hp, Z.eqb_refl.
Qed.

Lemma ensure_port_inv u q p : udp_inv u -> udp_objs u !! q = Some p ->
  exists port u', ensure_port u q = Some (port, u') /\ udp_inv u'.
Proof.
  intros [Hu Hn] Hq. unfold ensure_port. rewrite Hq. cbn [mbind option_bind].
  destruct (Z.eqb_spec (up_local_port p) 0) as [H0|H0]; [|by eexists _, _].
  destruct (alloc_port_spec u Hn) as (port & u' & -> & Hn' & Hl & Ho & Hp). cbn [mbind option_bind].
  do 2 eexists. split; [done|]. split; [|done]. apply exclusive_set.
  - intros q1 q2 p1 p2 ip' port'. rewrite Hl, Ho. apply Hu.
  - rewrite Hl, Ho. intros q' p' ip' port' _ Hq' _ Hp' Hne [C1 _] [C2 _]. cbn [up_local_port set_local_port] in C2. subst port'.
    destruct Hp as [[He Hfree]|[-> _]]; [|done]. by eapply not_in_use.
Qed.

Lemma remove_dev_sub d l q : q ∈ remove_dev d l -> q ∈ l.
Proof.
  induction l as [|x l IH]; cbn [remove_dev]; [done|]. case_if; [by right|].
  intros [->|Hq]%elem_of_cons; [left|right; auto].
Qed.

Section steps.
Context (a : arch) {H T : Type} `{!KHeap H}.
Context (recv_callback : Z -> net H T -> Z -> netbuf -> Z -> Z -> option (net H T)).
Implicit Types n : net H T.

(** What runs in the kernel between two datagrams: the calls of the protocol,
    and work elsewhere that leaves its control blocks alone. *)
Inductive udp_call : net H T -> net H T -> Prop :=
| call_new n pcb n' : udp_pcb_new a n = Some (pcb, n') -> udp_call n n'
| call_free n pcb n' : udp_pcb_free n pcb = Some n' -> udp_call n n'
| call_bind n pcb ip port r n' : udp_bind n pcb ip port = Some (r, n') -> udp_call n n'
| call_connect n pcb ip port r n' : udp_connect n pcb ip port = Some (r, n') -> udp_call n n'
| call_disconnect n pcb n' : udp_disconnect n pcb = Some n' -> udp_call n n'
| call_recv n pcb f arg n' : udp_recv n pcb f arg = Some n' -> udp_call n n'
| call_poll n pcb r n' : udp_recv_poll n pcb = Some (r, n') -> udp_call n n'
| call_output n sp ip dp data len r n' : udp_output a n sp ip dp data len = Some (r, n') -> udp_call n n'
| call_sendto n pcb b ip port r n' : udp_sendto a n pcb b ip port = Some (r, n') -> udp_call n n'
| call_send n pcb b r n' : udp_send a n pcb b = Some (r, n') -> udp_call n n'
| call_elsewhere n n' : n_udp n' = n_udp n -> udp_call n n'.

(** These and the datagrams that arrive. *)
Inductive udp_step : net H T -> net H T -> Prop :=
| step_call n n' : udp_call n n' -> udp_step n n'
| step_input n d b s t n' : udp_input a recv_callback n d b s t = Some n' -> udp_step n n'.

(** A callback is code of the kernel: it does what code outside the protocol can. *)
Hypothesis callback_calls : forall f n q b s t n', recv_callback f n q b s t = Some n' -> rtc udp_call n n'.

Lemma sent_udp n n' : n_sent n' = n_sent n -> n_udp n' = n_udp n.
Proof. unfold n_sent. congruence. Qed.

Lemma bind_inv n pcb ip port r n' : udp_bind n pcb ip port = Some (r, n') -> udp_inv (n_udp n) -> udp_inv (n_udp n').
Proof.
  unfold udp_bind. intros E [Hu Hn]. run E; [done|done|]. split; [|done]. apply exclusive_set; [done|].
  intros q' p' ip' port' _ Hq' Hne Hp' H0. destruct (bind_conflict p' ip port) eqn:Hc; [|by eapply conflict_claims].
  exfalso. apply not_true_iff_false in Hb0. apply Hb0, existsb_exists.
  exists q'. split; [by apply list_elem_of_In|]. by rewrite Hp', Hc, (proj2 (Z.eqb_neq _ _) Hne).
Qed.

Lemma sendto_inv n pcb b ip port r n' : udp_sendto a n pcb b ip port = Some (r, n') -> udp_inv (n_udp n) -> udp_inv (n_udp n').
Proof.
  unfold udp_sendto. intros E Hi. case_if_in E; [by run E|]. cbv zeta in E. case_if_in E; [by run E|].
  destruct (ensure_port (n_udp n) pcb) as [[port' u]|] eqn:Ee; [|done]. cbn [mbind option_bind] in E.
  assert (udp_inv u) as Hu.
  { destruct (udp_objs (n_udp n) !! pcb) as [p|] eqn:Hp; [|by unfold ensure_port in Ee; rewrite Hp in Ee].
    destruct (ensure_port_inv _ _ _ Hi Hp) as (? & ? & Ee' & Hu). congruence. }
  run E; try done. apply shape_ip_output, sent_udp in E. by rewrite E.
Qed.

Lemma output_inv n sp ip dp data len r n' : udp_output a n sp ip dp data len = Some (r, n') -> n_udp n' = n_udp n.
Proof.
  unfold udp_output. intros E. run E; try done; apply shape_ip_output, sent_udp in Hv2; rewrite ?Hv2; try done.
  apply shape_free, sent_udp in Hv3. by rewrite Hv3, Hv2.
Qed.

Lemma new_inv n pcb n' : udp_pcb_new a n = Some (pcb, n') -> udp_inv (n_udp n) -> udp_inv (n_udp n').
Proof.
  unfold udp_pcb_new. intros E [Hu Hn]. run E; [done|]. split; [|done]. intros q1 q2 p1 p2 ip port H1 H2 E1 E2 H0 C1 C2. cbn in *.
  assert (forall q p, q ∈ pcb :: udp_pcbs (n_udp n) -> <[pcb := udp_pcb_zero]> (udp_objs (n_udp n)) !! q = Some p -> claims p ip port ->
            q ∈ udp_pcbs (n_udp n) /\ udp_objs (n_udp n) !! q = Some p) as Hold.
  { intros q p Hq Hp [Hc _]. destruct (decide (q = pcb)) as [->|Hd]; [rewrite lookup_insert_eq in Hp; injection Hp as <-; cbn in Hc; lia|].
    rewrite lookup_insert_ne in Hp by done. by apply elem_of_cons in Hq as [?|?]. }
  destruct (Hold _ _ H1 E1 C1), (Hold _ _ H2 E2 C2). by apply (Hu q1 q2 p1 p2 ip port).
Qed.

Lemma free_inv n pcb n' : udp_pcb_free n pcb = Some n' -> udp_inv (n_udp n) -> udp_inv (n_udp n').
Proof.
  unfold udp_pcb_free. intros E [Hu Hn]. run E; [done|]. apply shape_free_queue, sent_udp in Hv0. cbn in Hv0.
  cbn [n_udp set_udp set_heap]. rewrite Hv0. split; [|done]. eapply exclusive_sub; [exact Hu| |].
  - intros q Hq. by apply remove_dev_sub in Hq.
  - intros q p [_ Hp]%lookup_delete_Some. done.
Qed.

Lemma connect_inv n pcb ip port r n' : udp_connect n pcb ip port = Some (r, n') -> udp_inv (n_udp n) -> udp_inv (n_udp n').
Proof.
  unfold udp_connect. intros E [Hu Hn]. case_if_in E; [by run E|]. cbv zeta in E.
  destruct (udp_objs (n_udp n) !! pcb) as [p|] eqn:Hp; [|done]. cbn [mbind option_bind] in E.
  destruct (ensure_port_inv (set_obj (n_udp n) pcb (set_remote p ip port)) pcb (set_remote p ip port)) as (q & u & Eq & Hi).
  - split; [|done]. by eapply exclusive_same.
  - apply lookup_insert_eq.
  - rewrite Eq in E. by run E.
Qed.

Lemma call_inv n n' : udp_call n n' -> udp_inv (n_udp n) -> udp_inv (n_udp n').
Proof.
  intros Hs. destruct Hs as [n pcb n' E|n pcb n' E|n pcb ip port r n' E|n pcb ip port r n' E|n pcb n' E|n pcb f arg n' E
    |n pcb r n' E|n sp ip dp data len r n' E|n pcb b ip port r n' E|n pcb b r n' E|n n' E]; intros Hi.
  - by eapply new_inv.
  - by eapply free_inv.
  - by eapply bind_inv.
  - by eapply connect_inv.
  - unfold udp_disconnect in E. destruct Hi as [Hu Hn]. run E; [done|]. split; [by eapply exclusive_same|done].
  - unfold udp_recv in E. destruct Hi as [Hu Hn]. run E; [done|]. split; [by eapply exclusive_same|done].
  - unfold udp_recv_poll in E. destruct Hi as [Hu Hn]. run E; [done|done|]. split; [by eapply exclusive_same|done].
  - apply output_inv in E. by rewrite E.
  - by eapply sendto_inv.
  - unfold udp_send in E. run E; [done|done|]. by eapply sendto_inv.
  - by rewrite E.
Qed.

Lemma calls_inv n n' : rtc udp_call n n' -> udp_inv (n_udp n) -> udp_inv (n_udp n').
Proof. induction 1 as [|x y z Hxy _ IH]; [done|]. intros Hi. by apply IH, (call_inv x). Qed.

Lemma input_inv n d b s t n' : udp_input a recv_callback n d b s t = Some n' -> udp_inv (n_udp n) -> udp_inv (n_udp n').
Proof.
  unfold udp_input, udp_deliver. intros E Hi. run E; try done.
  all: try match goal with E : free_buf _ _ = Some _ |- _ => apply shape_free, sent_udp in E; by rewrite E end.
  - by eapply calls_inv; [eapply callback_calls|].
  - destruct Hi as [Hu Hn]. split; [by eapply exclusive_same|done].
  - match goal with E : free_buf _ _ = Some _, U : icmp_send_dest_unreachable _ _ _ _ _ _ = Some _ |- _ =>
      apply shape_free, sent_udp in E; apply shape_unreachable, sent_udp in U; by rewrite E, U end.
Qed.

(** C24: From the initialisation on, no local address ever belongs to two
    control blocks: whatever calls are made and whatever datagrams arrive, no
    address with a nonzero port is claimed by two of them, where a control
    block bound to no address claims its port at every one.  So a datagram
    has at most one control block that accepts it, and the counter for
    ephemeral ports stays in its range.  A receive callback may make any call
    of the protocol, and touches the control blocks in no other way. *)
Theorem udp_ports_exclusive n n' : rtc udp_step (udp_init n) n' ->
  udp_exclusive (n_udp n') /\ ephemeral (next_ephemeral_port (n_udp n')) /\
  (forall lip lport rip rport q1 q2, lport <> 0 -> q1 ∈ udp_pcbs (n_udp n') -> q2 ∈ udp_pcbs (n_udp n') ->
     0 <= score_of (udp_objs (n_udp n')) lip lport rip rport q1 ->
     0 <= score_of (udp_objs (n_udp n')) lip lport rip rport q2 -> q1 = q2).
Proof.
  intros Hr. assert (udp_inv (n_udp n')) as [Hu He].
  { assert (udp_inv (n_udp (udp_init n))) as Hi by (split; [intros q1 q2 p1 p2 ip port H1; by apply elem_of_nil in H1|by vm_compute]).
    revert Hi. induction Hr as [|x y z Hxy _ IH]; [done|]. intros Hi. apply IH.
    destruct Hxy as [x y Hc|x d b s t y Hc]; [by apply (call_inv x)|by eapply input_inv]. }
  split; [done|]. split; [done|]. intros lip lport rip rport q1 q2 H0 H1 H2. unfold score_of.
  destruct (udp_objs (n_udp n') !! q1) as [p1|] eqn:E1, (udp_objs (n_udp n') !! q2) as [p2|] eqn:E2; [|lia..].
  destruct (pcb_score p1 _ _ _ _) eqn:S1, (pcb_score p2 _ _ _ _) eqn:S2; cbn; [|lia..]. intros _ _.
  apply (Hu q1 q2 p1 p2 lip lport); [done..|by eapply score_claims|by eapply score_claims].
Qed.

End steps.

(** C25: The search for an ephemeral port ends within as many turns as there are
    ephemeral ports, and finds one that no control block uses unless all are
    taken, when it returns 0.  The counter stays in the range. *)
Theorem udp_alloc_port_total u : ephemeral (next_ephemeral_port u) ->
  exists port u', udp_alloc_port u = Some (port, u') /\ ephemeral (next_ephemeral_port u') /\
    udp_pcbs u' = udp_pcbs u /\ udp_objs u' = udp_objs u /\
    ((ephemeral port /\ port_in_use u port = false) \/
     (port = 0 /\ forall p, ephemeral p -> port_in_use u p = true)).
Proof. apply alloc_port_spec. Qed.
