(* ===== verification/ReassProps.v ===== *)
(** * Reassembly of fragments

    Fragments of a packet may arrive in any order: the reassembly entry of
    src/net/ip.c stands for the set of parts received so far, and the packet
    handed on when the set is complete is their concatenation. *)

From S2P Require Import Prelude Mem HeapFacts HeapInterface Checksum Netbuf NetBytes NetState Netdev Arp Ip.
From S2P Require Import NetSend.

(** ** The parts of a packet *)

Section parts.
Context (parts : list (list Z)).

Definition part_count : nat := length parts.
Definition nth_part (k : nat) : list Z := nth k parts [].
Definition nth_len (k : nat) : Z := Z.of_nat (length (nth_part k)).
Definition part_off (k : nat) : Z := Z.of_nat (length (concat (take k parts))).
Definition whole_len : Z := Z.of_nat (length (concat parts)).

(** The parts of a set, in order. *)
Definition in_order (got : gset nat) : list nat := filter (fun k => k ∈ got) (seq 0 part_count).

Hypothesis nonempty : Forall (fun p => p <> []) parts.

Lemma part_lookup k : (k < part_count)%nat -> parts !! k = Some (nth_part k).
Proof. intros Hk. unfold nth_part. destruct (lookup_lt_is_Some_2 parts k Hk) as [p Hp]. by rewrite Hp, nth_lookup, Hp. Qed.

Lemma off_next k : (k < part_count)%nat -> part_off (S k) = part_off k + nth_len k.
Proof.
  intros Hk. unfold part_off, nth_len. rewrite (take_S_r parts k (nth_part k)) by by apply part_lookup.
  rewrite concat_app, length_app. simpl. rewrite app_nil_r. lia.
Qed.

Lemma part_len_pos k : (k < part_count)%nat -> 0 < nth_len k.
Proof.
  intros Hk. unfold nth_len. pose proof (proj1 (Forall_lookup _ _) nonempty k _ (part_lookup k Hk)) as Hne. simpl in Hne.
  destruct (nth_part k); [done|]. simpl. lia.
Qed.

Lemma off_mono j k : (j < k <= part_count)%nat -> part_off j < part_off k.
Proof.
  intros [Hj Hk]. induction k as [|k IH]; [lia|]. rewrite off_next by lia. pose proof (part_len_pos k ltac:(lia)).
  destruct (decide (j = k)) as [->|]; [lia|]. specialize (IH ltac:(lia) ltac:(lia)). lia.
Qed.

Lemma off_all : part_off part_count = whole_len.
Proof. unfold part_off, whole_len, part_count. by rewrite firstn_all. Qed.

Lemma off_total k : (k <= part_count)%nat -> 0 <= part_off k <= whole_len.
Proof.
  intros Hk. rewrite <- off_all. split; [unfold part_off; lia|]. destruct (decide (k = part_count)) as [->|]; [lia|].
  pose proof (off_mono k part_count ltac:(lia)). lia.
Qed.

Lemma filter_agree {A} (P Q : A -> Prop) `{!forall x, Decision (P x)} `{!forall x, Decision (Q x)} (l : list A) :
  Forall (fun x => P x <-> Q x) l -> filter P l = filter Q l.
Proof.
  induction 1 as [|x l Hx _ IH]; [done|]. rewrite !filter_cons, IH. repeat case_decide; tauto.
Qed.

(** A new part goes between the smaller and the larger ones. *)
Lemma received_insert got k : (k < part_count)%nat -> k ∉ got -> exists l1 l2,
  in_order got = l1 ++ l2 /\ in_order ({[k]} ∪ got) = l1 ++ k :: l2 /\
  Forall (fun j => (j < k)%nat) l1 /\ Forall (fun j => (k < j < part_count)%nat) l2.
Proof.
  intros Hk Hn. unfold in_order. assert (seq 0 part_count = seq 0 k ++ k :: seq (S k) (part_count - S k)) as ->.
  { replace part_count with (k + S (part_count - S k))%nat at 1 by lia. by rewrite seq_app. }
  exists (filter (fun j => j ∈ got) (seq 0 k)), (filter (fun j => j ∈ got) (seq (S k) (part_count - S k))).
  rewrite !list.filter_app, !filter_cons. rewrite decide_False, decide_True by set_solver. split; [done|]. split.
  - f_equal; [|f_equal]; apply filter_agree, list.Forall_forall; intros j Hj%elem_of_seq; set_solver by lia.
  - split; apply list.Forall_forall; intros j [_ Hj%elem_of_seq]%list_elem_of_filter; lia.
Qed.

End parts.

(** ** The sorted list *)

Lemma insert_split f l1 l2 : Forall (fun g => fr_offset g < fr_offset f) l1 ->
  Forall (fun g => fr_offset f < fr_offset g) l2 -> insert_fragment f (l1 ++ l2) = Some (l1 ++ f :: l2).
Proof.
  intros H1 H2. induction H1 as [|g l1 Hg _ IH]; cbn [insert_fragment app].
  - destruct H2 as [|g l2 Hg _]; [done|]. cbn [insert_fragment].
    rewrite (proj2 (Z.ltb_ge _ _)), (proj2 (Z.eqb_neq _ _)) by lia. done.
  - rewrite (proj2 (Z.ltb_lt _ _) Hg), IH. done.
Qed.

(** ** What an entry holds *)

Section entry.
Context (a : arch) {H T : Type} `{!KHeap H} `{!KHeapLaws H}.
Context (parts : list (list Z)).
Hypothesis nonempty : Forall (fun p => p <> []) parts.
Hypothesis fits : whole_len parts <= 1920.
Implicit Types (n : net H T) (got : gset nat) (m : mem) (h : H).

#[local] Abbreviation N := (part_count parts).
#[local] Abbreviation part := (nth_part parts).
#[local] Abbreviation part_len := (nth_len parts).
#[local] Abbreviation off := (part_off parts).
#[local] Abbreviation total := (whole_len parts).
#[local] Abbreviation received := (in_order parts).

(** The fragment stands for part [k], its bytes are in its block. *)
Definition frag_ok m (f : ip_fragment) (k : nat) : Prop :=
  fr_offset f = off k /\ fr_len f = part_len k /\ fr_data f <> 0 /\ read_bytes m (fr_data f) (length (part k)) = part k.

(** The two blocks of each fragment, with their sizes. *)
Definition frag_blocks (fs : list ip_fragment) (ss : list (Z * Z)) : list block :=
  concat (zip_with (fun f s => [(fr_data f, s.1); (fr_self f, s.2)]) fs ss).

(** [r] has received the parts in [got]; [L] are the other live blocks. *)
Record holds h (r : ip_reassembly) (L : list block) got : Prop := {
  ho_valid : ra_valid r = true;
  ho_frags : Forall2 (frag_ok (kh_mem h)) (ra_fragments r) (received got);
  ho_live : exists ss L', Forall2 (fun f s => fr_len f <= s.1) (ra_fragments r) ss /\ kh_live h L' /\
              L' ≡ₚ frag_blocks (ra_fragments r) ss ++ L;
  ho_total : ra_total_len r = 0 \/ ra_total_len r = total;
  ho_last : pred N ∈ got -> ra_total_len r = total
}.

Lemma off_u16 k : (k <= N)%nat -> u16 (off k) = off k.
Proof. intros Hk. pose proof (off_total parts nonempty k Hk). unfold u16. apply Z.mod_small. lia. Qed.

(** The check for holes succeeds with the length of the packet exactly when
    every part is there. *)
Lemma fragments_end_from got m cnt : forall j fs, (j + cnt = N)%nat -> (0 < N)%nat ->
  Forall2 (frag_ok m) fs (filter (fun k => k ∈ got) (seq j cnt)) ->
  fragments_end (off j) fs = Some total <-> Forall (fun k => k ∈ got) (seq j cnt).
Proof.
  induction cnt as [|cnt IH]; intros j fs Hj HN Hf; cbn [seq] in *.
  - apply Forall2_nil_inv_r in Hf as ->. cbn [fragments_end]. replace j with N by lia. rewrite (off_all parts). split; [by constructor|done].
  - rewrite filter_cons in Hf. case_decide as Hin.
    + apply Forall2_cons_inv_r in Hf as (f & fs' & (Ho & Hl & _ & _) & Hf & ->). cbn [fragments_end].
      rewrite Ho, Z.eqb_refl, Hl. cbn [negb]. rewrite <- (off_next parts) by lia. rewrite off_u16 by lia.
      rewrite (IH (S j) fs') by (done || lia). split; [by constructor|]. by intros [_ ?]%list.Forall_cons.
    + split; [|intros [? _]%list.Forall_cons; done]. intros E. exfalso.
      destruct fs as [|f fs]; cbn [fragments_end] in E.
      * injection E as E. pose proof (off_mono parts nonempty j N ltac:(lia)). rewrite (off_all parts) in *. lia.
      * apply Forall2_cons_inv_l in Hf as (k & ks & (Ho & _) & _ & Ek).
        assert (k ∈ filter (fun k => k ∈ got) (seq (S j) cnt)) as [_ Hk%elem_of_seq]%list_elem_of_filter by (rewrite Ek; left).
        pose proof (off_mono parts nonempty j k ltac:(lia)). rewrite Ho, (proj2 (Z.eqb_neq _ _)) in E by lia. done.
Qed.

Lemma fragments_end_all got m fs : (0 < N)%nat -> Forall2 (frag_ok m) fs (received got) ->
  fragments_end 0 fs = Some total <-> (forall k, (k < N)%nat -> k ∈ got).
Proof.
  intros HN Hf. change 0 with (off 0). rewrite (fragments_end_from got m N 0 fs) by done. rewrite list.Forall_forall. split.
  - intros Hall k Hk. apply Hall, elem_of_seq. lia.
  - intros Hall k Hk%elem_of_seq. apply Hall. lia.
Qed.

(** Copying the fragments of a complete entry to a place of its own. *)
Lemma copy_fragments_from m0 dest cnt : forall m j fs, (j + cnt = N)%nat -> 0 <= dest -> dest + total < 2 ^ ptr_bits a ->
  stored m0 m dest (concat (take j parts)) ->
  Forall2 (frag_ok m0) fs (seq j cnt) ->
  Forall (fun f => fr_data f + fr_len f <= dest \/ dest + total <= fr_data f) fs ->
  stored m0 (copy_fragments a m dest fs) dest (concat parts).
Proof.
  induction cnt as [|cnt IH]; intros m j fs Hj Hd Hlim Hst Hf Hdis; cbn [seq] in Hf.
  - apply Forall2_nil_inv_r in Hf as ->. cbn [copy_fragments]. assert (take j parts = parts) as Ht.
    { apply take_ge. change (length parts) with N. lia. } by rewrite Ht in Hst.
  - apply Forall2_cons_inv_r in Hf as (f & fs' & (Ho & Hl & _ & Hr) & Hf & ->). cbn [copy_fragments].
    apply list.Forall_cons in Hdis as [Hd1 Hdis]. pose proof (off_total parts nonempty j ltac:(lia)).
    pose proof (off_total parts nonempty (S j) ltac:(lia)). pose proof (off_next parts j ltac:(lia)) as Hon.
    rewrite Ho, uptr_small by lia. apply (IH _ (S j)); try done; [lia|].
    rewrite (take_S_r parts j (part j)) by (apply part_lookup; change (length parts) with N; lia).
    rewrite concat_app. cbn [concat]. rewrite app_nil_r. eapply stored_app; [exact Hst| |done].
    assert (read_bytes m (fr_data f) (length (part j)) = part j) as Hrm.
    { rewrite <- Hr at 2. apply (stored_other _ _ _ _ _ _ Hst). unfold nth_len, part_off in *. lia. }
    eapply stored_eq; [|exact Hrm]. rewrite Hl. replace (Z.to_nat (part_len j)) with (length (part j)) by (unfold nth_len; lia).
    apply stored_copied, memcpy_copied. unfold fwd_safe. unfold nth_len, part_off in *. lia.
Qed.

(** Freeing the fragments gives their blocks back. *)
Lemma free_fragments_spec fs : forall h ss L L', Forall (fun f => fr_data f <> 0) fs -> length ss = length fs -> kh_live h L' -> L' ≡ₚ frag_blocks fs ss ++ L ->
  exists h' L'', free_fragments h fs = Some h' /\ kh_live h' L'' /\ L'' ≡ₚ L /\ kh_mem h' = kh_mem h.
Proof.
  induction fs as [|f fs IH]; intros h ss L L' Hnz Hss HL HP; destruct ss as [|s ss]; try done.
  - exists h, L'. done.
  - apply list.Forall_cons in Hnz as [Hz Hnz]. cbn [free_fragments]. rewrite (proj2 (Z.eqb_neq _ _) Hz). cbn [negb]. change (frag_blocks (f :: fs) (s :: ss)) with ((fr_data f, s.1) :: (fr_self f, s.2) :: frag_blocks fs ss) in HP.
    destruct (law_free h L' (fr_data f) s.1 HL) as (h1 & L1 & E1 & HL1 & HP1 & Hm1); [rewrite HP; left|].
    rewrite HP in HP1. cbn [app] in HP1. apply Permutation_cons_inv in HP1.
    destruct (law_free h1 L1 (fr_self f) s.2 HL1) as (h2 & L2 & E2 & HL2 & HP2 & Hm2); [rewrite <- HP1; left|].
    rewrite E1. cbn [mbind option_bind]. rewrite E2. cbn [mbind option_bind].
    rewrite <- HP1 in HP2. apply Permutation_cons_inv in HP2.
    destruct (IH h2 ss L L2 Hnz ltac:(by injection Hss) HL2 ltac:(by symmetry)) as (h' & L'' & -> & HL'' & HP'' & Hm'').
    exists h', L''. split; [done|]. split; [done|]. split; [done|]. congruence.
Qed.

Lemma frags_same m m' fs ks ss : Forall2 (frag_ok m) fs ks -> Forall2 (fun f s => fr_len f <= s.1) fs ss ->
  Forall (same_block m m') (frag_blocks fs ss) -> Forall2 (frag_ok m') fs ks.
Proof.
  intros Hf. revert ss. induction Hf as [|f k fs ks (Ho & Hl & Hz & Hr) _ IH]; intros ss Hs Hm; [done|].
  apply Forall2_cons_inv_l in Hs as (s & ss' & Hs & Hss & ->).
  change (frag_blocks (f :: fs) (s :: ss')) with ((fr_data f, s.1) :: (fr_self f, s.2) :: frag_blocks fs ss') in Hm.
  apply list.Forall_cons in Hm as [Hm Hm']. apply list.Forall_cons in Hm' as [_ Hm']. constructor; [|by eapply IH].
  split_and!; [done..|]. rewrite <- Hr at 2. apply read_bytes_ext. intros j Hj. apply Hm. simpl.
  unfold nth_len in Hl. lia.
Qed.

Lemma frag_blocks_insert fs1 fs2 ss1 ss2 f s : length fs1 = length ss1 ->
  frag_blocks (fs1 ++ f :: fs2) (ss1 ++ s :: ss2) ≡ₚ (fr_data f, s.1) :: (fr_self f, s.2) :: frag_blocks (fs1 ++ fs2) (ss1 ++ ss2).
Proof.
  intros Hl. unfold frag_blocks. rewrite !zip_with_app by done. rewrite !concat_app. cbn [zip_with concat app].
  symmetry. by rewrite <- !Permutation_middle.
Qed.

(** The entry after [ip_reass_add_fragment] has noted the end of the packet. *)
Definition with_fragments (r : ip_reassembly) (tot rcv : Z) (fs : list ip_fragment) : ip_reassembly :=
  IpReassembly (ra_src r) (ra_dst r) (ra_id r) (ra_protocol r) tot rcv fs (ra_timeout r) (ra_valid r).

Definition more (k : nat) : bool := negb (bool_decide (k = pred N)).
Definition noted (r : ip_reassembly) (k : nat) : Z := if more k then ra_total_len r else u16 (off k + part_len k).

Lemma noted_total r k : (k < N)%nat -> ra_total_len r = 0 \/ ra_total_len r = total ->
  (noted r k = 0 \/ noted r k = total) /\ (k = pred N -> noted r k = total) /\ (ra_total_len r = total -> noted r k = total).
Proof.
  intros Hk Hr. unfold noted, more. case_bool_decide as Hl; cbn [negb]; [|tauto].
  rewrite <- (off_next parts) by done. rewrite off_u16 by lia. replace (S k) with N by lia. rewrite (off_all parts). tauto.
Qed.

(** The entry keeps its fragments when the heap changes elsewhere. *)
Lemma holds_elsewhere h h' r L got ss L' Lr k rcv : (k < N)%nat -> holds h r L got ->
  Forall2 (fun f s => fr_len f <= s.1) (ra_fragments r) ss -> L' ≡ₚ frag_blocks (ra_fragments r) ss ++ L ->
  Forall (same_block (kh_mem h) (kh_mem h')) L' -> kh_live h' Lr -> Lr ≡ₚ L' ->
  holds h' (with_fragments r (noted r k) rcv (ra_fragments r)) L got.
Proof.
  intros Hk [Hv Hf _ Ht Hl] Hs HP Hm HL HR. destruct (noted_total r k Hk Ht) as (N1 & N2 & N3).
  rewrite HP in Hm. apply Forall_app in Hm as [Hm _]. constructor; cbn [ra_valid ra_fragments ra_total_len with_fragments]; try done.
  - by eapply frags_same.
  - exists ss, Lr. split_and!; [done..|]. by rewrite HR.
  - intros Hin. auto.
Qed.

(** Two blocks for a fragment of [len] bytes can be allocated. *)
Definition fragment_ready h (len : Z) : Prop :=
  kh_ready h (sizeof_ip_fragment a) /\
  forall p h', kh_malloc h (sizeof_ip_fragment a) = Some (p, h') -> kh_ready h' len.

(** One of the two blocks is not to be had. *)
Definition fragment_no_memory h (len : Z) : Prop :=
  exists p h1, kh_malloc h (sizeof_ip_fragment a) = Some (p, h1) /\ (p = 0 \/ exists h2, kh_malloc h1 len = Some (0, h2)).

(** The new part in its place. *)
Lemma holds_added h h' r L got k f s ss Lr rcv : (k < N)%nat -> k ∉ got -> holds h r L got ->
  Forall2 (fun f s => fr_len f <= s.1) (ra_fragments r) ss ->
  Forall (same_block (kh_mem h) (kh_mem h')) (frag_blocks (ra_fragments r) ss) ->
  kh_live h' Lr -> Lr ≡ₚ (fr_data f, s.1) :: (fr_self f, s.2) :: frag_blocks (ra_fragments r) ss ++ L ->
  frag_ok (kh_mem h') f k -> fr_len f <= s.1 ->
  exists fs, insert_fragment f (ra_fragments r) = Some fs /\
    holds h' (with_fragments r (noted r k) rcv fs) L ({[k]} ∪ got).
Proof.
  intros Hk Hn [Hv Hf _ Ht Hl] Hs Hm HL HP Hok Hfit. destruct (noted_total r k Hk Ht) as (N1 & N2 & N3).
  destruct (received_insert parts nonempty got k Hk Hn) as (l1 & l2 & R1 & R2 & B1 & B2).
  pose proof (frags_same _ _ _ _ _ Hf Hs Hm) as Hf'. rewrite R1 in Hf'. apply Forall2_app_inv_r in Hf' as (f1 & f2 & F1 & F2 & Ef).
  assert (fr_offset f = off k) as Ho by apply Hok. exists (f1 ++ f :: f2). rewrite Ef in *. split.
  - apply insert_split; rewrite Ho.
    + eapply Forall2_Forall_l; [exact F1|]. eapply list.Forall_impl; [exact B1|]. intros j Hj g (-> & _). simpl in Hj. apply off_mono; [done|lia].
    + eapply Forall2_Forall_l; [exact F2|]. eapply list.Forall_impl; [exact B2|]. intros j Hj g (-> & _). simpl in Hj. apply off_mono; [done|lia].
  - apply Forall2_app_inv_l in Hs as (s1 & s2 & S1 & S2 & ->).
    constructor; cbn [ra_valid ra_fragments ra_total_len with_fragments]; try done.
    + rewrite R2. apply Forall2_app; [done|]. by constructor.
    + exists (s1 ++ s :: s2), Lr. split_and!; [apply Forall2_app; [done|by constructor]|done|].
      rewrite HP, frag_blocks_insert by by eapply Forall2_length. done.
    + intros Hin. apply elem_of_union in Hin as [Hin%elem_of_singleton|Hin]; [by apply N2|auto].
Qed.

Lemma stored_blocks m m' q l sz L : stored m m' q l -> Z.of_nat (length l) <= sz ->
  Forall (fun b => ranges_disjoint b (q, sz)) L -> Forall (same_block m m') L.
Proof.
  intros Hst Hl Hd. eapply list.Forall_impl; [exact Hd|]. intros b Hb x Hx. rewrite Hst.
  unfold ranges_disjoint in Hb. simpl in Hb. rewrite out_range by lia. done.
Qed.

Lemma block_bytes m m' L data len l : Forall (same_block m m') L -> in_block L data len -> Z.of_nat (length l) <= len ->
  read_bytes m data (length l) = l -> read_bytes m' data (length l) = l.
Proof.
  intros Hs (q & sz & Hin & H1 & H2) Hl Hr. rewrite <- Hr at 2. apply read_bytes_ext. intros i Hi.
  apply (proj1 (list.Forall_forall _ _) Hs _ Hin). simpl. lia.
Qed.

(** The second half of the addition: the block for the bytes, with the
    structure [frag] allocated. *)
Lemma add_bytes_spec h h1 r L got k data frag sz1 ss L' L1 rcv : (k < N)%nat -> k ∉ got -> holds h r L got ->
  Forall2 (fun f s => fr_len f <= s.1) (ra_fragments r) ss -> L' ≡ₚ frag_blocks (ra_fragments r) ss ++ L ->
  Forall (same_block (kh_mem h) (kh_mem h1)) L' -> kh_live h1 L1 -> L1 ≡ₚ (frag, sz1) :: L' -> kh_ready h1 (part_len k) ->
  in_block L data (part_len k) -> read_bytes (kh_mem h) data (length (part k)) = part k ->
  exists fdata h2, kh_malloc h1 (part_len k) = Some (fdata, h2) /\
    ((fdata = 0 /\ exists h3, kh_free h2 frag = Some h3 /\ Forall (same_block (kh_mem h) (kh_mem h3)) L' /\
        holds h3 (with_fragments r (noted r k) rcv (ra_fragments r)) L got) \/
     (fdata <> 0 /\ let h3 := kh_set_mem h2 (memcpy (kh_mem h2) fdata data (Z.to_nat (part_len k))) in
        Forall (same_block (kh_mem h) (kh_mem h3)) L' /\
        forall rcv, exists fs, insert_fragment (IpFragment frag (off k) (part_len k) fdata) (ra_fragments r) = Some fs /\
          holds h3 (with_fragments r (noted r k) rcv fs) L ({[k]} ∪ got))).
Proof.
  intros Hk Hn Hh Hs HP Hm HL1 HP1 Rdy Hblk Hdata.
  destruct (law_malloc _ _ _ HL1 Rdy) as (fdata & h2 & E2 & Hm2 & Hc). exists fdata, h2. split; [done|].
  assert (Forall (same_block (kh_mem h) (kh_mem h2)) L') as Hm02.
  { eapply same_blocks_trans; [exact Hm|]. rewrite HP1 in Hm2. by apply list.Forall_cons in Hm2 as [_ Hm2]. }
  destruct Hc as [[-> HL2]|(Hf0 & sz2 & L2 & Hsz2 & _ & HL2 & HP2 & Hd2)]; [left|right].
  - split; [done|]. destruct (law_free h2 L1 frag sz1 HL2) as (h3 & L3 & -> & HL3 & HP3 & Hm3); [rewrite HP1; left|].
    rewrite HP1 in HP3. apply Permutation_cons_inv in HP3. exists h3. rewrite Hm3. split; [done|]. split; [done|].
    eapply holds_elsewhere; try done. by rewrite Hm3.
  - split; [lia|]. intros h3. assert (read_bytes (kh_mem h2) data (length (part k)) = part k) as Hd.
    { eapply (block_bytes _ _ L'); [exact Hm02| |unfold nth_len; reflexivity|done].
      destruct Hblk as (q & sz & Hin & Hr). exists q, sz. split; [rewrite HP; set_solver|exact Hr]. }
    assert (stored (kh_mem h2) (kh_mem h3) fdata (part k)) as Hst.
    { unfold h3. rewrite law_mem_get. eapply stored_eq; [|exact Hd]. unfold nth_len. rewrite Nat2Z.id.
      apply stored_copied, memcpy_copied. destruct Hblk as (q & sz & Hin & H1 & H2).
      assert ((q, sz) ∈ L1) as Hin1 by (rewrite HP1, HP; set_solver).
      pose proof (proj1 (list.Forall_forall _ _) Hd2 _ Hin1) as Hdq. unfold ranges_disjoint in Hdq. simpl in Hdq.
      unfold fwd_safe. unfold nth_len in *. lia. }
    assert (Forall (same_block (kh_mem h) (kh_mem h3)) L') as Hm3.
    { eapply same_blocks_trans; [exact Hm02|]. eapply stored_blocks; [exact Hst|exact Hsz2|].
      rewrite HP1 in Hd2. by apply list.Forall_cons in Hd2 as [_ Hd2]. }
    split; [done|]. intros rcv'. rewrite HP in Hm3. apply Forall_app in Hm3 as [Hm3 _].
    apply (holds_added h h3 r L got k _ (sz2, sz1) ss L2); try done.
    + unfold h3. by apply law_mem_live.
    + cbn [fr_data fr_self fst snd]. by rewrite HP2, HP1, HP.
    + unfold frag_ok. cbn [fr_offset fr_len fr_data]. split_and!; [done|done|lia|]. by eapply stored_read.
Qed.

Lemma add_fragment_spec n i r L got k data : (k < N)%nat -> k ∉ got ->
  reass_table (n_ip n) !! i = Some r -> holds (n_heap n) r L got ->
  in_block L data (part_len k) -> read_bytes (n_mem n) data (length (part k)) = part k ->
  fragment_ready (n_heap n) (part_len k) ->
  exists ret h' r', ip_reass_add_fragment a n i (off k) data (part_len k) (more k) = Some (ret, set_entry (set_heap n h') i r') /\
    (exists tot rcv fs, r' = with_fragments r tot rcv fs) /\ Forall (same_block (n_mem n) (kh_mem h')) L /\
    ((ret = 0 /\ holds h' r' L ({[k]} ∪ got)) \/
     (ret = -1 /\ holds h' r' L got /\ fragment_no_memory (n_heap n) (part_len k))).
Proof.
  intros Hk Hn Hr Hh Hblk Hdata [Rdy1 Rdy2]. pose proof Hh as [_ _ (ss & L' & Hs & HL & HP) _ _].
  unfold ip_reass_add_fragment. rewrite Hr. cbn [mbind option_bind]. cbv zeta.
  change (if more k then ra_total_len r else u16 (off k + part_len k)) with (noted r k).
  cbn [n_heap set_entry set_reass set_ip].
  destruct (law_malloc _ _ _ HL Rdy1) as (frag & h1 & E1 & Hsame1 & Hc1). specialize (Rdy2 _ _ E1). rewrite E1. cbn [mbind option_bind].
  assert (forall m', Forall (same_block (n_mem n) m') L' -> Forall (same_block (n_mem n) m') L) as HsubL.
  { intros m' Hm. rewrite HP in Hm. by apply Forall_app in Hm as [_ Hm]. }
  destruct Hc1 as [[-> HL1]|(Hf0 & sz1 & L1 & Hsz1 & _ & HL1 & HP1 & Hdis1)].
  { exists (-1), h1, (with_fragments r (noted r k) (ra_received_len r) (ra_fragments r)). split; [done|]. split; [eauto|].
    split; [by apply HsubL|]. right. split; [done|]. split; [by eapply holds_elsewhere|]. eexists _, _. split; [exact E1|by left]. }
  rewrite (proj2 (Z.eqb_neq frag 0)) by lia. cbn [n_heap set_heap set_ip set_entry set_reass].
  destruct (add_bytes_spec (n_heap n) h1 r L got k data frag sz1 ss L' L1 (ra_received_len r))
    as (fdata & h2 & E2 & Hc2); try done. rewrite E2. cbn [mbind option_bind].
  destruct Hc2 as [[-> (h3 & E3 & Hm3 & Hh3)]|(Hfd & Hm3 & Hins)].
  - rewrite Z.eqb_refl. cbn [n_heap set_heap set_ip set_entry set_reass]. rewrite E3. cbn [mbind option_bind].
    exists (-1), h3, (with_fragments r (noted r k) (ra_received_len r) (ra_fragments r)). split; [done|]. split; [eauto|].
    split; [by apply HsubL|]. right. split; [done|]. split; [done|]. eexists _, _. split; [exact E1|]. right. by eexists.
  - rewrite (proj2 (Z.eqb_neq fdata 0) Hfd). destruct (Hins (u16 (ra_received_len r + part_len k))) as (fs & -> & Hh3).
    eexists 0, _, (with_fragments r (noted r k) (u16 (ra_received_len r + part_len k)) fs). split.
    + do 2 f_equal. unfold set_entry, set_reass, set_ip, set_mem, set_heap. cbn. by rewrite list_insert_insert_eq.
    + split; [eauto|]. split; [by apply HsubL|]. left. split; [done|]. exact Hh3.
Qed.

(** ** Completion *)

Hypothesis Hlimit : kh_limit <= 2 ^ ptr_bits a.
Hypothesis some_part : (0 < N)%nat.

Definition complete_set got : Prop := forall k, (k < N)%nat -> k ∈ got.

Lemma total_pos : 0 < total.
Proof. pose proof (off_mono parts nonempty 0 N ltac:(lia)) as Hm. rewrite (off_all parts) in Hm. exact Hm. Qed.

Lemma received_all got : complete_set got -> received got = seq 0 N.
Proof.
  intros Hall. unfold in_order. transitivity (filter (fun _ : nat => True) (seq 0 N)).
  - apply filter_agree, list.Forall_forall. intros k Hk%elem_of_seq. split; [done|]. intros _. apply Hall. lia.
  - clear. induction (seq 0 N) as [|x l IH]; [done|]. rewrite filter_cons, decide_True by done. by rewrite IH.
Qed.

Lemma incomplete_spec n i r L got dev : reass_table (n_ip n) !! i = Some r -> holds (n_heap n) r L got ->
  ~ complete_set got -> ip_reass_complete a n i dev = Some (None, n).
Proof.
  intros Hr [_ Hf _ Ht _] Hnot. unfold ip_reass_complete. rewrite Hr. cbn [mbind option_bind].
  destruct (Z.eqb_spec (ra_total_len r) 0) as [|Hz]; [done|]. destruct Ht as [Ht|Ht]; [done|]. rewrite Ht.
  rewrite bool_decide_eq_true_2; [done|]. rewrite (fragments_end_all got _ _ some_part Hf). done.
Qed.

(** The fragments stay clear of a new buffer. *)
Lemma fragments_apart h L fs ss buf : Forall2 (fun f s => fr_len f <= s.1) fs ss ->
  filled_buf a h (frag_blocks fs ss ++ L) total buf ->
  Forall (fun f => fr_data f + fr_len f <= nb_data buf \/ nb_data buf + total <= fr_data f) fs.
Proof.
  intros Hs [Hwf Hlen Hd Ht _ Hap]. pose proof Hwf as [W1 W2 W3 W4 W5 W6].
  assert (forall q sz, (q, sz) ∈ frag_blocks fs ss -> q + sz <= nb_head buf \/ nb_end buf <= q) as Hap'.
  { intros q sz Hin. apply Hap. set_solver. }
  clear Hap. revert Hap'. induction Hs as [|f s fs ss Hfs _ IH]; intros Hap; [constructor|].
  change (frag_blocks (f :: fs) (s :: ss)) with ((fr_data f, s.1) :: (fr_self f, s.2) :: frag_blocks fs ss) in Hap.
  constructor; [|apply IH; intros q sz Hin; apply Hap; by do 2 right].
  destruct (Hap (fr_data f) s.1 ltac:(left)); lia.
Qed.

(** A packet in a buffer of its own. *)
Record packet_in (h : H) (L : list block) (dev : Z) (l : list Z) (buf : netbuf) : Prop := {
  pi_wf : nb_wf a buf;
  pi_len : nb_len buf = Z.of_nat (length l);
  pi_bytes : read_bytes (kh_mem h) (nb_data buf) (length l) = l;
  pi_dev : nb_dev buf = dev;
  pi_live : exists s1 s2 L', kh_live h L' /\ L' ≡ₚ (nb_head buf, s2) :: (nb_self buf, s1) :: L
}.

(** A freed entry. *)
Definition released (r : ip_reassembly) : ip_reassembly :=
  IpReassembly (ra_src r) (ra_dst r) (ra_id r) (ra_protocol r) (ra_total_len r) (ra_received_len r) [] (ra_timeout r) false.

(** The copy into the new buffer and the release of the fragments. *)
Lemma copy_complete h h1 L L' r ss got buf : holds h r L got -> complete_set got ->
  Forall2 (fun f s => fr_len f <= s.1) (ra_fragments r) ss -> L' ≡ₚ frag_blocks (ra_fragments r) ss ++ L ->
  Forall (same_block (kh_mem h) (kh_mem h1)) L' -> filled_buf a h1 L' total buf ->
  let h2 := kh_set_mem h1 (copy_fragments a (kh_mem h1) (nb_data buf) (ra_fragments r)) in
  nb_data buf <> 0 /\ stored (kh_mem h1) (kh_mem h2) (nb_data buf) (concat parts) /\
  exists h3 s1 s2 L3, free_fragments h2 (ra_fragments r) = Some h3 /\ kh_mem h3 = kh_mem h2 /\ kh_live h3 L3 /\
    L3 ≡ₚ (nb_head buf, s2) :: (nb_self buf, s1) :: L /\ Forall (same_block (kh_mem h) (kh_mem h3)) L.
Proof.
  intros [Hv Hf _ _ _] Hall Hs HP Hm Hfb h2. pose proof Hfb as [Hwf Hlen Hd Ht (s1 & s2 & L1 & HL1 & HP1) Hap].
  pose proof Hwf as [W1 W2 W3 W4 W5 W6].
  assert (Forall2 (frag_ok (kh_mem h1)) (ra_fragments r) (seq 0 N)) as Hf1.
  { rewrite <- (received_all got Hall). eapply frags_same; [exact Hf|exact Hs|]. rewrite HP in Hm. by apply Forall_app in Hm as [Hm _]. }
  assert (stored (kh_mem h1) (kh_mem h2) (nb_data buf) (concat parts)) as Hst.
  { unfold h2. rewrite law_mem_get. apply (copy_fragments_from (kh_mem h1) _ N _ 0); [done|lia|lia|apply stored_nil|exact Hf1|].
    eapply (fragments_apart h1 L _ ss); [done|]. constructor; try done.
    - exists s1, s2, L1. split; [done|]. by rewrite HP1, HP.
    - intros q sz Hin. apply Hap. by rewrite HP. }
  split; [lia|]. split; [exact Hst|].
  destruct (free_fragments_spec (ra_fragments r) h2 ss ((nb_head buf, s2) :: (nb_self buf, s1) :: L) L1)
    as (h3 & L3 & E3 & HL3 & HP3 & Hm3).
  - eapply Forall2_Forall_l; [exact Hf1|]. apply list.Forall_forall. intros k _ f (_ & _ & Hz & _). done.
  - symmetry. by eapply Forall2_length.
  - unfold h2. by apply law_mem_live.
  - rewrite HP1, HP. by rewrite <- !Permutation_middle.
  - exists h3, s1, s2, L3. split_and!; [done..|]. rewrite Hm3. apply (same_blocks_trans _ (kh_mem h1)).
    + rewrite HP in Hm. by apply Forall_app in Hm as [_ Hm].
    + eapply (stored_blocks _ _ _ _ total); [exact Hst|reflexivity|]. apply list.Forall_forall. intros [q sz] Hin.
      assert ((q, sz) ∈ L') as Hin' by (rewrite HP; set_solver). specialize (Hap q sz Hin'). unfold ranges_disjoint. simpl. lia.
Qed.

Lemma complete_spec n i r L got dev : reass_table (n_ip n) !! i = Some r -> holds (n_heap n) r L got ->
  complete_set got -> alloc_ready a (n_heap n) (alloc_size total) ->
  exists h', Forall (same_block (n_mem n) (kh_mem h')) L /\
    ((ip_reass_complete a n i dev = Some (None, set_heap n h') /\ holds h' r L got /\ no_memory a (n_heap n) total) \/
     (exists buf, ip_reass_complete a n i dev = Some (Some buf, set_entry (set_heap n h') i (released r)) /\
        packet_in h' L dev (concat parts) buf)).
Proof.
  intros Hr Hh Hall Hrdy. pose proof Hh as [Hv Hf (ss & L' & Hs & HL & HP) Ht Hlast]. pose proof total_pos as Hpos.
  assert (ra_total_len r = total) as Etot by (apply Hlast, Hall; lia).
  unfold ip_reass_complete. rewrite Hr. cbn [mbind option_bind]. rewrite Etot, (proj2 (Z.eqb_neq total 0)) by lia.
  rewrite bool_decide_eq_false_2 by (intros Hx; apply Hx; by apply (fragments_end_all got _ _ some_part Hf)).
  destruct (alloc_put_spec a Hlimit (n_heap n) L' total HL ltac:(lia) Hrdy) as (b & h1 & Ea & Hm1 & Hb).
  rewrite Ea. cbn [mbind option_bind].
  destruct b as [b|]; cycle 1.
  { destruct Hb as (L1 & HL1 & HP1). exists h1. assert (Forall (same_block (kh_mem (n_heap n)) (kh_mem h1)) L) as HmL.
    { rewrite HP in Hm1. by apply Forall_app in Hm1 as [_ Hm1]. } split; [exact HmL|]. left. split; [done|].
    split; [|by exists h1]. rewrite HP in Hm1. apply Forall_app in Hm1 as [Hm1 _]. constructor; try done; [by eapply frags_same|].
    exists ss, L1. split_and!; [done..|]. by rewrite HP1. }
  destruct Hb as (buf & -> & Hfb).
  destruct (copy_complete (n_heap n) h1 L L' r ss got buf) as (Hne & Hst & h3 & s1 & s2 & L3 & Efree & Hm3 & HL3 & HP3 & Hs3); try done.
  unfold deref. rewrite (proj2 (Z.eqb_neq _ _) Hne). cbv zeta. unfold ip_reass_free. cbn [n_ip reass_table set_mem set_heap n_heap].
  change (n_mem (set_heap n h1)) with (kh_mem h1). rewrite Hr. cbn [mbind option_bind]. rewrite Efree. cbn [mbind option_bind].
  exists h3. split; [done|]. right. exists (set_dev buf dev). split; [done|]. destruct Hfb as [Hwf Hlen _ _ _ _].
  constructor; cbn [nb_len nb_data nb_dev nb_head nb_self set_dev]; [auto with castor|done| |done|by eauto].
  rewrite Hm3. by eapply stored_read.
Qed.

(** ** One fragment *)

Context (src dst id proto : Z).

#[local] Abbreviation is_key := (fun r => ra_valid r = true /\ ra_src r = src /\ ra_dst r = dst /\ ra_id r = id /\ ra_protocol r = proto).

(** Entry [i] is the one for the packet, and has received the parts in
    [got]: it exists already, or it is the free one that will be taken. *)
Definition slot n (i : nat) (L : list block) got : Prop :=
  (exists r, list_find is_key (reass_table (n_ip n)) = Some (i, r) /\ holds (n_heap n) r L got) \/
  (got = ∅ /\ list_find is_key (reass_table (n_ip n)) = None /\
   (exists r, list_find (fun r => ra_valid r = false) (reass_table (n_ip n)) = Some (i, r)) /\
   exists L', kh_live (n_heap n) L' /\ L' ≡ₚ L).

(** The buffer of part [k], with its header at [ip]; its block has [s] bytes. *)
Record carries m (k : nat) (buf : netbuf) (ip s : Z) : Prop := {
  ca_addr : rd32 m (ip + 12) = src /\ rd32 m (ip + 16) = dst;
  ca_id : ntohs (rd16 m (ip + 4)) = id /\ rd m (ip + 9) = proto;
  ca_offset : Z.land (ntohs (rd16 m (ip + 6))) IP_FRAG_OFFSET_MASK * 8 = off k;
  ca_more : (Z.land (ntohs (rd16 m (ip + 6))) IP_FLAG_MF =? 0) = bool_decide (k = pred N);
  ca_len : ntohs (rd16 m (ip + 2)) = ip_header_len m ip + part_len k;
  ca_bytes : read_bytes m (ip + ip_header_len m ip) (length (part k)) = part k;
  ca_head : nb_head buf <> 0;
  ca_block : nb_head buf <= ip + ip_header_len m ip /\ ip + ip_header_len m ip + part_len k <= nb_head buf + s
}.

Lemma find_insert t i r r' : list_find is_key t = Some (i, r) -> is_key r' -> list_find is_key (<[i := r']> t) = Some (i, r').
Proof.
  intros (Hi & Hr & Hb)%list_find_Some Hr'. apply list_find_Some. pose proof (lookup_lt_Some _ _ _ Hi).
  split; [by apply list_lookup_insert_eq|]. split; [done|]. intros j y Hj Hlt. rewrite list_lookup_insert_ne in Hj by lia. by eapply Hb.
Qed.

(** The entry the fragment is added to. *)
Lemma slot_find n i L got : slot n i L got -> exists n0 r, ip_reass_find n src dst id proto = Some (Some i, n0) /\
  n_heap n0 = n_heap n /\ list_find is_key (reass_table (n_ip n0)) = Some (i, r) /\ holds (n_heap n0) r L got /\
  (exists r0, n0 = set_entry n i r0) /\ (i < length (reass_table (n_ip n)))%nat.
Proof.
  unfold ip_reass_find. intros [(r & Hf & Hh)|(-> & Hf & (r & Hg) & L' & HL & HP)].
  - rewrite Hf. exists n, r. split_and!; try done.
    + exists r. apply list_find_Some in Hf as (Hi & _ & _). destruct n as [h d nd df ar [c t rt] ic u tc up]. unfold set_entry, set_reass, set_ip. cbn in *.
      by rewrite list_insert_id.
    + apply list_find_Some in Hf as (Hi & _ & _). by apply lookup_lt_Some in Hi.
  - cbv zeta. rewrite Hf, Hg. eexists _, _. pose proof Hg as (Hi & Hr & _)%list_find_Some. pose proof (lookup_lt_Some _ _ _ Hi) as Hlt.
    split; [done|]. split; [done|]. split; [|split; [|split; [by eexists|done]]].
    + cbn. apply list_find_Some. split; [by apply list_lookup_insert_eq|]. split; [done|]. intros j y Hj Hjl Hk.
      rewrite list_lookup_insert_ne in Hj by lia. apply list_find_None in Hf. by apply (proj1 (Forall_lookup _ _) Hf j y).
    + cbn. constructor; cbn; try done; [|by exists [], L'|by left].
      unfold in_order. clear. induction (seq 0 N) as [|x l IH]; [constructor|]. by rewrite filter_cons, decide_False by set_solver.
Qed.

Lemma holds_free h r L got buf s1 s2 : holds h r ((nb_head buf, s2) :: (nb_self buf, s1) :: L) got -> nb_head buf <> 0 ->
  exists h', netbuf_free h (Some buf) = Some h' /\ kh_mem h' = kh_mem h /\ holds h' r L got.
Proof.
  intros [Hv Hf (ss & L' & Hs & HL & HP) Ht Hl] Hz. unfold netbuf_free. rewrite (proj2 (Z.eqb_neq _ _) Hz). cbn [negb].
  destruct (law_free h L' (nb_head buf) s2 HL) as (h1 & L1 & E1 & HL1 & HP1 & Hm1); [rewrite HP; set_solver|].
  rewrite HP, <- Permutation_middle in HP1. apply Permutation_cons_inv in HP1.
  destruct (law_free h1 L1 (nb_self buf) s1 HL1) as (h2 & L2 & E2 & HL2 & HP2 & Hm2); [rewrite <- HP1; set_solver|].
  rewrite <- HP1, <- Permutation_middle in HP2. apply Permutation_cons_inv in HP2. rewrite E1. cbn [mbind option_bind].
  exists h2. split; [done|]. split; [congruence|]. constructor; try done; [by rewrite Hm2, Hm1|]. exists ss, L2. done.
Qed.

(** A buffer for the whole packet can be allocated once the fragment is in. *)
Definition packet_ready n (k : nat) (buf : netbuf) (ip : Z) : Prop :=
  forall i n0 ret n1 n2, ip_reass_find n src dst id proto = Some (Some i, n0) ->
    ip_reass_add_fragment a n0 i (off k) (ip + ip_header_len (n_mem n) ip) (part_len k) (more k) = Some (ret, n1) ->
    free_buf n1 buf = Some n2 -> alloc_ready a (n_heap n2) (alloc_size total).

(** The fragment added and its buffer freed. *)
Lemma add_free_spec n0 i r L got k buf ip s1 s2 : (k < N)%nat -> k ∉ got ->
  list_find is_key (reass_table (n_ip n0)) = Some (i, r) -> holds (n_heap n0) r ((nb_head buf, s2) :: (nb_self buf, s1) :: L) got ->
  carries (n_mem n0) k buf ip s2 -> fragment_ready (n_heap n0) (part_len k) ->
  exists ret n1 h2 r', ip_reass_add_fragment a n0 i (off k) (ip + ip_header_len (n_mem n0) ip) (part_len k) (more k) = Some (ret, n1) /\
    free_buf n1 buf = Some (set_entry (set_heap n0 h2) i r') /\ is_key r' /\ Forall (same_block (n_mem n0) (kh_mem h2)) L /\
    ((ret = 0 /\ holds h2 r' L ({[k]} ∪ got)) \/ (ret = -1 /\ holds h2 r' L got /\ fragment_no_memory (n_heap n0) (part_len k))).
Proof.
  intros Hk Hn Hf Hh Hc Hrdy. pose proof Hf as (Hi & Hkey & _)%list_find_Some.
  destruct (add_fragment_spec n0 i r _ got k (ip + ip_header_len (n_mem n0) ip) Hk Hn Hi Hh) as (ret & h1 & r' & E & (tot & rcv & fs & Er) & Hm & Hcase).
  { exists (nb_head buf), s2. split; [left|]. apply Hc. } { apply Hc. } { done. }
  assert (exists got', holds h1 r' ((nb_head buf, s2) :: (nb_self buf, s1) :: L) got' /\
    ((ret = 0 /\ got' = {[k]} ∪ got) \/ (ret = -1 /\ got' = got /\ fragment_no_memory (n_heap n0) (part_len k)))) as (got' & Hh1 & Hg).
  { destruct Hcase as [[-> Hx]|(-> & Hx & Hno)]; eexists; (split; [exact Hx|]); [by left|by right]. }
  destruct (holds_free h1 r' L got' buf s1 s2 Hh1 (ca_head _ _ _ _ _ Hc)) as (h2 & Efree & Hm2 & Hh2).
  exists ret, (set_entry (set_heap n0 h1) i r'), h2, r'. split; [exact E|]. split; [unfold free_buf; cbn [n_heap set_entry set_reass set_ip set_heap]; by rewrite Efree|]. split; [by rewrite Er|]. split.
  - rewrite Hm2. apply list.Forall_cons in Hm as [_ Hm]. by apply list.Forall_cons in Hm as [_ Hm].
  - destruct Hg as [[-> ->]|(-> & -> & Hno)]; [by left|by right].
Qed.

Lemma reassemble_steps n i n0 k buf ip s dev ret n1 n2 : (k < N)%nat -> n_mem n0 = n_mem n ->
  ip_reass_find n src dst id proto = Some (Some i, n0) -> carries (n_mem n) k buf ip s ->
  ip_reass_add_fragment a n0 i (off k) (ip + ip_header_len (n_mem n) ip) (part_len k) (more k) = Some (ret, n1) ->
  free_buf n1 buf = Some n2 ->
  ip_reassemble a n dev buf ip = if ret <? 0 then Some (None, n2) else ip_reass_complete a n2 i dev.
Proof.
  intros Hk Em Ef Hc Ea Efree. unfold ip_reassemble. cbv zeta. destruct Hc as [[-> ->] [-> ->] Hoff Hmore Hlen _ _ _].
  rewrite Ef. cbn [mbind option_bind]. rewrite Em, Hoff, off_u16, Hmore, Hlen by lia.
  replace (ip_header_len (n_mem n) ip + part_len k - ip_header_len (n_mem n) ip) with (part_len k) by lia.
  assert (u16 (part_len k) = part_len k) as ->.
  { pose proof (off_next parts k Hk). pose proof (off_total parts nonempty (S k) ltac:(lia)).
    pose proof (off_total parts nonempty k ltac:(lia)). pose proof (part_len_pos parts nonempty k Hk). unfold u16. apply Z.mod_small. lia. }
  fold (more k). rewrite Ea. cbn [mbind option_bind]. rewrite Efree. done.
Qed.

Lemma complete_dec got : complete_set got \/ ~ complete_set got.
Proof.
  destruct (decide (Forall (fun k => k ∈ got) (seq 0 N))) as [Hf|Hf]; [left|right].
  - intros k Hk. apply (proj1 (list.Forall_forall _ _) Hf), elem_of_seq. lia.
  - intros Hc. apply Hf, list.Forall_forall. intros k Hk%elem_of_seq. apply Hc. lia.
Qed.

(** The entry of a state whose table and heap are known. *)
Lemma slot_at n0 i r r' h L got : list_find is_key (reass_table (n_ip n0)) = Some (i, r) -> is_key r' -> holds h r' L got ->
  slot (set_entry (set_heap n0 h) i r') i L got.
Proof. intros Hf Hkey Hh. left. exists r'. split; [by eapply find_insert|done]. Qed.

(** C10: Fragments may arrive in any order.  A packet of at most 1920 bytes
    is cut into parts, none empty, that neither overlap nor repeat, and the
    table has its entry or a free one.  When the entry has received a set of
    parts and one of the others arrives, the buffer of the fragment is freed
    and the entry has received the larger set, until the set is complete: then
    the packet handed on is the concatenation of all the parts, whatever the
    order they came in, in a new buffer, and the entry and its blocks are free
    again.  Otherwise the copy of the fragment could not be allocated, and the
    fragment is dropped, or the buffer for the packet could not, and the entry
    stays.  No other block and no other entry changes.  The heap is in a state
    in which these allocations return. *)
Theorem ip_reassemble_any_order n i L got k buf ip s1 s2 dev : (k < N)%nat -> k ∉ got ->
  slot n i ((nb_head buf, s2) :: (nb_self buf, s1) :: L) got -> carries (n_mem n) k buf ip s2 ->
  fragment_ready (n_heap n) (part_len k) -> packet_ready n k buf ip ->
  exists res n', ip_reassemble a n dev buf ip = Some (res, n') /\ Forall (same_block (n_mem n) (n_mem n')) L /\
    (forall j, j <> i -> reass_table (n_ip n') !! j = reass_table (n_ip n) !! j) /\
    match res with
    | Some packet => complete_set ({[k]} ∪ got) /\ packet_in (n_heap n') L dev (concat parts) packet /\
        exists r, reass_table (n_ip n') !! i = Some r /\ ra_valid r = false
    | None =>
        (slot n' i L ({[k]} ∪ got) /\ (complete_set ({[k]} ∪ got) -> 
           exists n2, slot n2 i L ({[k]} ∪ got) /\ no_memory a (n_heap n2) total /\ n' = set_heap n2 (n_heap n'))) \/
        (slot n' i L got /\ fragment_no_memory (n_heap n) (part_len k))
    end.
Proof.
  intros Hk Hn Hslot Hc Hfr Hpr. destruct (slot_find _ _ _ _ Hslot) as (n0 & r & Ef & Eh & Hf & Hh & (r0 & En0) & Hlt).
  assert (n_mem n0 = n_mem n) as Em by (unfold n_mem; by rewrite Eh).
  pose proof Hc as Hc0. rewrite <- Em in Hc. rewrite <- Eh in *.
  destruct (add_free_spec n0 i r L got k buf ip s1 s2 Hk Hn Hf Hh Hc Hfr) as (ret & n1 & h2 & r' & Ea & Efree & Hkey & Hm & Hcase).
  rewrite Em in Ea, Hm. rewrite (reassemble_steps n i n0 k buf ip s2 dev ret n1 _ Hk Em Ef Hc0 Ea Efree).
  specialize (Hpr i n0 ret n1 _ Ef Ea Efree).
  assert (forall h x j, j <> i -> reass_table (n_ip (set_entry (set_heap n0 h) i x)) !! j = reass_table (n_ip n) !! j) as Htab.
  { intros h x j Hj. rewrite En0. cbn. by rewrite !list_lookup_insert_ne. }
  assert (reass_table (n_ip (set_entry (set_heap n0 h2) i r')) !! i = Some r') as Hi'.
  { rewrite En0. cbn. apply list_lookup_insert_eq. by rewrite length_insert. }
  destruct Hcase as [[-> Hh2]|(-> & Hh2 & Hno)]; cbn [Z.ltb Z.compare].
  2: { exists None. eexists. split; [done|]. split; [done|]. split; [auto|]. right. split; [by eapply slot_at|done]. }
  destruct (complete_dec ({[k]} ∪ got)) as [Hall|Hnot]; cycle 1.
  { rewrite (incomplete_spec _ _ _ _ _ _ Hi' Hh2 Hnot). exists None. eexists. split; [done|]. split; [done|]. split; [auto|].
    left. split; [by eapply slot_at|done]. }
  destruct (complete_spec _ i r' L _ dev Hi' Hh2 Hall Hpr) as (h3 & Hm3 & Hres).
  assert (Forall (same_block (n_mem n) (kh_mem h3)) L) as Hm03 by (by eapply same_blocks_trans).
  destruct Hres as [(-> & Hh3 & Hno)|(pk & -> & Hpk)].
  - exists None. eexists. split; [done|]. split; [done|]. split; [apply (Htab h3)|]. left.
    split; [by apply (slot_at n0 i r r' h3)|]. intros _. exists (set_entry (set_heap n0 h2) i r'). split; [by eapply slot_at|done].
  - exists (Some pk). eexists. split; [done|]. split; [done|]. split; [intros j Hj; rewrite <- (Htab h3 r' j Hj); cbn; by rewrite list_lookup_insert_ne|].
    split; [done|]. split; [done|]. exists (released r'). split; [|done]. cbn. apply list_lookup_insert_eq. rewrite length_insert, En0. cbn. by rewrite length_insert.
Qed.

End entry.
