(* ===== verification/ArpProps.v ===== *)
(** * The ARP cache

    The cache of src/net/arp.c as a map from addresses to hardware
    addresses: no address has two live entries, an update is what later
    lookups find, and only the oldest entry of a full cache is evicted. *)

From S2P Require Import Prelude Mem HeapInterface Checksum Netbuf NetBytes NetState Netdev Arp NetShape.

(** ** Entries *)

Definition live (e : arp_entry) : Prop := ae_state e <> ARP_STATE_FREE.

(** No two live entries for one address. *)
Definition arp_unique (c : list arp_entry) : Prop :=
  forall i j e1 e2, c !! i = Some e1 -> c !! j = Some e2 -> live e1 -> live e2 -> ae_ip e1 = ae_ip e2 -> i = j.

Lemma arp_live_for_spec ip e : arp_live_for ip e = true <-> live e /\ ae_ip e = ip.
Proof. unfold arp_live_for, live. rewrite andb_true_iff, bool_decide_eq_true, Z.eqb_eq. done. Qed.

Lemma arp_find_some c ip i : arp_cache_find c ip = Some i -> exists e, c !! i = Some e /\ live e /\ ae_ip e = ip.
Proof.
  unfold arp_cache_find. intros (k & Hk & ->)%fmap_Some. destruct k as [j e]. apply list_find_Some in Hk as (Hi & Hl & _).
  exists e. split; [done|]. by apply arp_live_for_spec.
Qed.

Lemma arp_find_none c ip : arp_cache_find c ip = None -> forall i e, c !! i = Some e -> live e -> ae_ip e <> ip.
Proof.
  unfold arp_cache_find. intros Hn%fmap_None i e Hi Hl Hip. apply list_find_None in Hn.
  apply (proj1 (Forall_lookup _ _) Hn i e Hi). by apply arp_live_for_spec.
Qed.

Lemma arp_find_unique c ip i e : arp_unique c -> c !! i = Some e -> live e -> ae_ip e = ip -> arp_cache_find c ip = Some i.
Proof.
  intros Hu Hi Hl Hip. destruct (arp_cache_find c ip) as [j|] eqn:Hf.
  - apply arp_find_some in Hf as (e' & Hj & Hl' & Hip'). f_equal. apply (Hu j i e' e); congruence.
  - by destruct (arp_find_none c ip Hf i e Hi Hl).
Qed.

(** The choice of an entry for a new address: a free one if there is one,
    else one with the smallest timestamp. *)
Lemma find_free_from_spec l : forall k oldest ot, (forall i, find_free_from k l oldest ot = Some i ->
    (exists e, (k <= i)%nat /\ l !! (i - k)%nat = Some e /\ ae_state e = ARP_STATE_FREE) \/
    (Forall live l /\ ((oldest = Some i /\ Forall (fun e => ot <= ae_timestamp e) l) \/
       exists e, (k <= i)%nat /\ l !! (i - k)%nat = Some e /\ ae_timestamp e < ot /\ Forall (fun e' => ae_timestamp e <= ae_timestamp e') l))) /\
  (find_free_from k l oldest ot = None -> oldest = None /\ Forall (fun e => live e /\ ot <= ae_timestamp e) l).
Proof.
  induction l as [|e l IH]; intros k oldest ot; cbn [find_free_from]; [by split; [right|]; auto|].
  case_bool_decide as Hs.
  { split; [|done]. intros i [= <-]. left. exists e. by rewrite Nat.sub_diag. }
  destruct (Z.ltb_spec (ae_timestamp e) ot) as [Hlt|Hge].
  - destruct (IH (S k) (Some k) (ae_timestamp e)) as [I1 I2]. split; [|by intros E; apply I2 in E as [? _]].
    intros i E. destruct (I1 i E) as [(x & Hk & Hx & Hf)|[Hl [[[= <-] Ha]|(x & Hk & Hx & Ht & Ha)]]].
    + left. exists x. split; [lia|]. by replace (i - k)%nat with (S (i - S k)) by lia.
    + right. split; [by constructor|]. right. exists e. rewrite Nat.sub_diag. split_and!; [lia|done|done|]. by constructor.
    + right. split; [by constructor|]. right. exists x. replace (i - k)%nat with (S (i - S k)) by lia. split_and!; [lia|done|lia|].
      constructor; [lia|done].
  - destruct (IH (S k) oldest ot) as [I1 I2]. split.
    + intros i E. destruct (I1 i E) as [(x & Hk & Hx & Hf)|[Hl [[-> Ha]|(x & Hk & Hx & Ht & Ha)]]].
      * left. exists x. split; [lia|]. by replace (i - k)%nat with (S (i - S k)) by lia.
      * right. split; [by constructor|]. left. split; [done|]. by constructor.
      * right. split; [by constructor|]. right. exists x. replace (i - k)%nat with (S (i - S k)) by lia. split_and!; [lia|done|lia|].
        constructor; [lia|done].
    + intros E. apply I2 in E as [-> Ha]. split; [done|]. by constructor.
Qed.

Lemma find_free_spec c i : arp_cache_find_free c = Some i -> exists e, c !! i = Some e /\
  (ae_state e = ARP_STATE_FREE \/ (Forall live c /\ Forall (fun e' => ae_timestamp e <= ae_timestamp e') c)).
Proof.
  unfold arp_cache_find_free. intros E. destruct (find_free_from_spec c 0 None 0xFFFFFFFF) as [I1 _].
  destruct (I1 i E) as [(e & _ & He & Hs)|[Hl [[? _]|(e & _ & He & _ & Ha)]]]; [|done|]; rewrite Nat.sub_0_r in He; exists e; auto.
Qed.

Lemma find_free_none c : arp_cache_find_free c = None -> Forall (fun e => live e /\ 0xFFFFFFFF <= ae_timestamp e) c.
Proof. unfold arp_cache_find_free. intros E. by apply (find_free_from_spec c 0 None 0xFFFFFFFF) in E as [_ ?]. Qed.

(** ** Uniqueness under changes of one entry *)

Lemma unique_alter c i (f : arp_entry -> arp_entry) : arp_unique c ->
  (forall e, c !! i = Some e -> live (f e) -> (live e /\ ae_ip (f e) = ae_ip e) \/
     forall j e', j <> i -> c !! j = Some e' -> live e' -> ae_ip e' <> ae_ip (f e)) ->
  arp_unique (alter f i c).
Proof.
  intros Hu Hf x y e1 e2 Hx Hy L1 L2 Hip. destruct (decide (x = i)) as [->|Nx], (decide (y = i)) as [->|Ny]; [done|..].
  - rewrite list_lookup_alter_eq in Hx. rewrite list_lookup_alter_ne in Hy by done. apply fmap_Some in Hx as (e & Hx & ->).
    destruct (Hf e Hx L1) as [[Le He]|Hno]; [apply (Hu i y e e2); congruence|by destruct (Hno y e2)].
  - rewrite list_lookup_alter_eq in Hy. rewrite list_lookup_alter_ne in Hx by done. apply fmap_Some in Hy as (e & Hy & ->).
    destruct (Hf e Hy L2) as [[Le He]|Hno]; [apply (Hu x i e1 e); congruence|by destruct (Hno x e1)].
  - rewrite list_lookup_alter_ne in Hx, Hy by done. by apply (Hu x y e1 e2).
Qed.

Lemma alter_twice (c : list arp_entry) i f g : alter f i (alter g i c) = alter (fun e => f (g e)) i c.
Proof.
  apply list_eq. intros j. destruct (decide (j = i)) as [->|].
  - rewrite !list_lookup_alter_eq. by destruct (c !! i).
  - by rewrite !list_lookup_alter_ne.
Qed.

(** A change that keeps the address and brings nothing to life. *)
Lemma unique_keep c i (f : arp_entry -> arp_entry) : arp_unique c ->
  (forall e, live (f e) -> live e /\ ae_ip (f e) = ae_ip e) -> arp_unique (alter f i c).
Proof. intros Hu Hf. apply unique_alter; [done|]. intros e _ Hl. left. auto. Qed.

(** ** The calls *)

Section calls.
Context (a : arch) {H T : Type} `{!KHeap H}.
Implicit Types n : net H T.

Lemma arp_free_buf n b n' : free_buf n b = Some n' -> n_arp n' = n_arp n.
Proof. unfold free_buf. intros E. by run E. Qed.

Lemma arp_transmit n d b r n' : netdev_transmit n d b = Some (r, n') -> n_arp n' = n_arp n.
Proof. unfold netdev_transmit. intros E. by run E. Qed.

Lemma arp_ethernet n d b mac t r n' : ethernet_output a n d b mac t = Some (r, n') -> n_arp n' = n_arp n.
Proof. unfold ethernet_output. intros E. run E; try done. apply arp_transmit in E. exact E. Qed.

Lemma arp_send_queue d mac q : forall n n', send_queue a n d mac q = Some n' -> n_arp n' = n_arp n.
Proof.
  induction q as [|b q IH]; intros n n' E; cbn [send_queue] in E; [by run E|].
  run E; apply IH in E; apply arp_ethernet in Hv; [apply arp_free_buf in Hv0|]; congruence.
Qed.

Lemma arp_free_queue q : forall n n', free_queue n q = Some n' -> n_arp n' = n_arp n.
Proof. induction q as [|b q IH]; intros n n' E; cbn [free_queue] in E; run E; [done|]. apply IH in E. apply arp_free_buf in Hv. congruence. Qed.

Lemma arp_send_arp n d op tm dm ip r n' : send_arp a n d op tm dm ip = Some (r, n') -> n_arp n' = n_arp n.
Proof.
  unfold send_arp. intros E. run E; try done.
  all: match goal with Q : ethernet_output _ _ _ _ _ _ = Some _ |- _ => apply arp_ethernet in Q; simpl in Q end.
  - match goal with Q : free_buf _ _ = Some _ |- _ => apply arp_free_buf in Q end. congruence.
  - congruence.
Qed.

(** Sending or freeing the queue of an entry leaves the rest of the cache. *)
Lemma arp_pending_sent n i d n' : arp_send_pending a n i d = Some n' -> n_arp n' = alter (fun e => set_pending e []) i (n_arp n).
Proof. unfold arp_send_pending. intros E. run E. apply arp_send_queue in Hv0. simpl. by rewrite Hv0. Qed.

Lemma arp_pending_freed n i n' : arp_free_pending n i = Some n' -> n_arp n' = alter (fun e => set_pending e []) i (n_arp n).
Proof. unfold arp_free_pending. intros E. run E. apply arp_free_queue in Hv0. simpl. by rewrite Hv0. Qed.

Lemma unique_pending c i : arp_unique c -> arp_unique (alter (fun e => set_pending e []) i c).
Proof. intros Hu. by apply unique_keep. Qed.

(** The cache after an update. *)
Lemma arp_update_cache n ip mac n' : arp_cache_update a n ip mac = Some n' ->
  (n_arp n' = n_arp n /\ (mac_addr_is_zero mac = true \/ arp_cache_find_free (n_arp n) = None)) \/
  exists i f, n_arp n' = alter f i (n_arp n) /\ mac_addr_is_zero mac = false /\
    (forall e, live (f e) /\ ae_state (f e) = ARP_STATE_RESOLVED /\ ae_mac (f e) = mac) /\
    ((arp_cache_find (n_arp n) ip = Some i /\ forall e, ae_ip (f e) = ae_ip e) \/
     (arp_cache_find (n_arp n) ip = None /\ arp_cache_find_free (n_arp n) = Some i /\ forall e, ae_ip (f e) = ip)).
Proof.
  unfold arp_cache_update. intros E. destruct (mac_addr_is_zero mac) eqn:Hz; [run E; left; by split; [|left]|]. cbv zeta in E.
  assert (forall n1 i f, n_arp n1 = alter f i (n_arp n) ->
    (e ← n_arp n1 !! i;
      if (bool_decide (ae_state e = ARP_STATE_PENDING) && negb (bool_decide (ae_pending e = []))) && negb (netdev_get_default n1 =? 0)
      then arp_send_pending a (upd_arp n1 i (fun e => ArpEntry (ae_ip e) mac (now_ms n1) ARP_STATE_RESOLVED 0 (ae_pending e))) i (netdev_get_default n1)
      else Some (upd_arp n1 i (fun e => ArpEntry (ae_ip e) mac (now_ms n1) ARP_STATE_RESOLVED 0 (ae_pending e)))) = Some n' ->
    exists g, n_arp n' = alter g i (n_arp n) /\ (forall e, ae_ip (g e) = ae_ip (f e)) /\
      forall e, live (g e) /\ ae_state (g e) = ARP_STATE_RESOLVED /\ ae_mac (g e) = mac) as Hgen.
  { intros n1 i f Hf E1. destruct (n_arp n1 !! i) as [e|]; [|done]. cbn [mbind option_bind] in E1. case_if_in E1.
    - apply arp_pending_sent in E1. cbn [n_arp upd_arp set_arp] in E1. rewrite E1, Hf, !alter_twice. by eexists.
    - injection E1 as <-. cbn [n_arp upd_arp set_arp]. rewrite Hf, alter_twice. by eexists. }
  destruct (arp_cache_find (n_arp n) ip) as [i|] eqn:Hfind.
  - right. destruct (Hgen n i id) as (g & Hg & Hip & Hres); [symmetry; by apply list_alter_id|exact E|]. exists i, g. split_and!; try done. left. done.
  - destruct (arp_cache_find_free (n_arp n)) as [i|] eqn:Hfree; cbn [mbind option_bind] in E; [|injection E as <-; left; by split; [|right]].
    right. set (f0 := fun e => ArpEntry ip (ae_mac e) (ae_timestamp e) (ae_state e) (ae_retries e) []) in E.
    destruct (Hgen (upd_arp n i f0) i f0 eq_refl E) as (g & Hg & Hip & Hres). exists i, g. split_and!; try done. by right.
Qed.

Lemma arp_update_unique n ip mac n' : arp_cache_update a n ip mac = Some n' -> arp_unique (n_arp n) -> arp_unique (n_arp n').
Proof.
  intros E Hu. destruct (arp_update_cache _ _ _ _ E) as [[-> _]|(i & f & -> & _ & Hf & [[Hi Hip]|(Hn & _ & Hip)])]; [done|..].
  - apply unique_alter; [done|]. intros e He _. left. split; [|done]. apply arp_find_some in Hi as (e' & He' & Hl & _). congruence.
  - apply unique_alter; [done|]. intros e He _. right. intros j e' _ Hj Hl. rewrite Hip. by eapply arp_find_none.
Qed.

Lemma arp_resolve_unique n d ip r mac n' : arp_resolve a n d ip = Some (r, mac, n') -> arp_unique (n_arp n) -> arp_unique (n_arp n').
Proof.
  unfold arp_resolve, arp_request. intros E Hu. case_if_in E; [by run E|]. cbv zeta in E.
  destruct (i ← arp_cache_find (n_arp n) ip; _) as [[[r1 m1] n1]|] eqn:Ek.
  - injection E as <- <- <-. run Ek; [done|]. by apply unique_keep.
  - assert (arp_cache_find (n_arp n) ip = None) as Hno.
    { destruct (arp_cache_find (n_arp n) ip) as [i|] eqn:Hf; [|done]. apply arp_find_some in Hf as (e & He & Hl & _).
      cbn [mbind option_bind] in Ek. rewrite He in Ek. cbn [mbind option_bind] in Ek. unfold live in Hl. by destruct (ae_state e). }
    destruct (arp_cache_find_free (n_arp n)) as [i|] eqn:Hfree; run E;
      match goal with Q : send_arp _ _ _ _ _ _ _ = Some _ |- _ => apply arp_send_arp in Q; rewrite Q end; [|done].
    match goal with Q : arp_free_pending _ _ = Some _ |- _ => apply arp_pending_freed in Q; cbn [n_arp upd_arp set_arp]; rewrite Q end.
    rewrite alter_twice. apply unique_alter; [done|]. intros e _ _. right. intros j e' _ Hj Hl. by eapply arp_find_none.
Qed.

Lemma for_entries_ind (P : net H T -> Prop) f idx : (forall n i n', f n i = Some n' -> P n -> P n') ->
  forall n n', for_entries f idx n = Some n' -> P n -> P n'.
Proof.
  intros Hf. induction idx as [|i idx IH]; intros n n' E Hn; cbn [for_entries] in E; run E; [done|]. eauto.
Qed.

Lemma arp_free_zero n i n' : arp_free_pending n i = Some n' -> arp_unique (n_arp n) -> arp_unique (n_arp (upd_arp n' i (fun _ => arp_entry_zero))).
Proof.
  intros E Hu. apply arp_pending_freed in E. cbn [n_arp upd_arp set_arp]. rewrite E. apply unique_keep; [by apply unique_pending|].
  intros e Hl. by destruct Hl.
Qed.

Lemma arp_cleanup_unique n now i n' : cleanup_entry n now i = Some n' -> arp_unique (n_arp n) -> arp_unique (n_arp n').
Proof.
  unfold cleanup_entry. intros E Hu. run E; try done.
  - match goal with Q : arp_free_pending _ _ = Some _ |- _ => apply arp_pending_freed in Q; cbn [n_arp upd_arp set_arp]; rewrite Q end.
    apply unique_keep; [by apply unique_pending|]. intros e Hl. by destruct Hl.
  - case_if; [|done]. apply unique_keep; [done|]. intros e Hl. by destruct Hl.
Qed.

(** The calls that change the cache, from the send path, the receive path,
    the timer and the console. *)
Inductive arp_step : net H T -> net H T -> Prop :=
| arp_step_update n ip mac n' : arp_cache_update a n ip mac = Some n' -> arp_step n n'
| arp_step_static n ip mac r n' : arp_cache_add_static a n ip mac = Some (r, n') -> arp_step n n'
| arp_step_input n d b n' : arp_input a n d b = Some n' -> arp_step n n'
| arp_step_resolve n d ip r mac n' : arp_resolve a n d ip = Some (r, mac, n') -> arp_step n n'
| arp_step_queue n ip b : arp_step n (arp_queue_packet n ip b).2
| arp_step_delete n ip r n' : arp_cache_delete n ip = Some (r, n') -> arp_step n n'
| arp_step_cleanup n n' : arp_cache_cleanup n = Some n' -> arp_step n n'
| arp_step_clear n n' : arp_cache_clear n = Some n' -> arp_step n n'.

Lemma arp_step_unique n n' : arp_step n n' -> arp_unique (n_arp n) -> arp_unique (n_arp n').
Proof.
  intros Hs Hu. destruct Hs as [n ip mac n' E|n ip mac r n' E|n d b n' E|n d ip r mac n' E|n ip b|n ip r n' E|n n' E|n n' E].
  - by eapply arp_update_unique.
  - unfold arp_cache_add_static in E. run E. by eapply arp_update_unique.
  - unfold arp_input in E. run E; try done.
    all: repeat match goal with
      | Q : free_buf _ _ = Some _ |- _ => apply arp_free_buf in Q; rewrite Q
      | Q : arp_reply _ _ _ _ _ = Some _ |- _ => unfold arp_reply in Q; apply arp_send_arp in Q; rewrite Q
      end; try done; try by eapply arp_update_unique.
    cbn [mbind option_bind] in E. apply arp_free_buf in E. rewrite E. by eapply arp_update_unique.
  - by eapply arp_resolve_unique.
  - unfold arp_queue_packet. destruct (arp_cache_find (n_arp n) ip) as [i|]; [|done]. cbn [mbind option_bind].
    destruct (n_arp n !! i) as [e|]; [|done]. cbn [mbind option_bind]. case_bool_decide; [|done]. by apply unique_keep.
  - unfold arp_cache_delete in E. run E; [|done]. by eapply arp_free_zero.
  - unfold arp_cache_cleanup in E. eapply (for_entries_ind (fun n => arp_unique (n_arp n))); [|exact E|done].
    intros n1 i n2. apply arp_cleanup_unique.
  - unfold arp_cache_clear in E. eapply (for_entries_ind (fun n => arp_unique (n_arp n))); [|exact E|done].
    intros n1 i n2 E1. run E1. by apply arp_free_zero.
Qed.

(** C27: The cache is a map at all times: from the initialisation on, whatever
    calls the send path, the receive path, the timer and the console make, no
    address has two live entries. *)
Theorem arp_cache_unique n n' : rtc arp_step (arp_init n) n' -> arp_unique (n_arp n').
Proof.
  intros Hr. assert (arp_unique (n_arp (arp_init n))) as Hi.
  { intros i j e1 e2 He1 _ Hl. apply lookup_replicate in He1 as [-> _]. by destruct Hl. }
  revert Hi. induction Hr as [|x y z Hxy _ IH]; [done|]. intros Hi. apply IH. by eapply arp_step_unique.
Qed.

Lemma lookup_resolved n ip i e : arp_unique (n_arp n) -> n_arp n !! i = Some e -> ae_state e = ARP_STATE_RESOLVED -> ae_ip e = ip ->
  arp_cache_lookup n ip = Some (ae_mac e).
Proof.
  intros Hu Hi Hs Hip. unfold arp_cache_lookup. rewrite (arp_find_unique _ ip i e) by (done || unfold live; congruence).
  cbn [mbind option_bind]. rewrite Hi. cbn [mbind option_bind]. by rewrite bool_decide_eq_true_2.
Qed.

(** A lookup depends on the live entries for its address. *)
Lemma lookup_ext n n' ip : arp_unique (n_arp n) -> arp_unique (n_arp n') ->
  (forall i e, live e -> ae_ip e = ip -> n_arp n' !! i = Some e <-> n_arp n !! i = Some e) ->
  arp_cache_lookup n' ip = arp_cache_lookup n ip.
Proof.
  intros Hu Hu' Hx. unfold arp_cache_lookup. destruct (arp_cache_find (n_arp n) ip) as [i|] eqn:Hf.
  - apply arp_find_some in Hf as (e & He & Hl & Hip). rewrite (arp_find_unique _ ip i e) by (done || by apply Hx).
    cbn [mbind option_bind]. by rewrite He, (proj2 (Hx i e Hl Hip) He).
  - destruct (arp_cache_find (n_arp n') ip) as [i|] eqn:Hf'; [|done]. apply arp_find_some in Hf' as (e & He & Hl & Hip).
    apply Hx in He; [|done..]. by destruct (arp_find_none _ _ Hf i e He Hl).
Qed.

(** C26: What is put into the cache is found there.  After an update with a
    nonzero hardware address the lookup of the address gives it; every other
    address gives what it gave before, except that when the address is new
    and no entry is free, the entry with the smallest timestamp is given up.
    (A cache full of entries with the largest timestamp stays as it is.) *)
Theorem arp_update_lookup n ip mac n' : arp_unique (n_arp n) -> mac_addr_is_zero mac = false ->
  Exists (fun e => ae_timestamp e < 0xFFFFFFFF) (n_arp n) -> arp_cache_update a n ip mac = Some n' ->
  arp_cache_lookup n' ip = Some mac /\
  forall ip', ip' <> ip -> arp_cache_lookup n' ip' = arp_cache_lookup n ip' \/
    (arp_cache_lookup n' ip' = None /\ arp_cache_find (n_arp n) ip = None /\ Forall live (n_arp n) /\
     exists i e, n_arp n !! i = Some e /\ ae_ip e = ip' /\ Forall (fun e' => ae_timestamp e <= ae_timestamp e') (n_arp n)).
Proof.
  intros Hu Hz Hex E. pose proof (arp_update_unique _ _ _ _ E Hu) as Hu'.
  destruct (arp_update_cache _ _ _ _ E) as [[_ Hno]|(i & f & Hc & _ & Hf & Hcase)].
  { exfalso. destruct Hno as [|Hno]; [congruence|]. apply find_free_none in Hno. apply Exists_exists in Hex as (e & Hin%list_elem_of_In & Ht).
    destruct (proj1 (list.Forall_forall _ _) Hno e Hin) as [_ Hge]. lia. }
  assert (exists e, n_arp n !! i = Some e /\ ae_ip (f e) = ip /\ (ae_ip e = ip \/ ~ live e \/
    (arp_cache_find (n_arp n) ip = None /\ Forall live (n_arp n) /\ Forall (fun e' => ae_timestamp e <= ae_timestamp e') (n_arp n)))) as (e & He & Hip & Hold).
  { destruct Hcase as [[Hi Hk]|(Hn & Hi & Hk)].
    - apply arp_find_some in Hi as (e & He & _ & <-). exists e. auto.
    - apply find_free_spec in Hi as (e & He & [Hs|[Hl Ht]]); exists e; split_and!; try done; [|auto].
      right. left. intros Hl. by destruct Hl. }
  destruct (Hf e) as (Hl' & Hs' & Hm').
  assert (n_arp n' !! i = Some (f e)) as He' by (rewrite Hc, list_lookup_alter_eq, He; done). split.
  { by rewrite <- Hm', (lookup_resolved n' ip i (f e)). }
  intros ip' Hne. destruct (decide (ae_state e <> ARP_STATE_FREE /\ ae_ip e = ip')) as [[Hl Hx]|Hno].
  - right. destruct Hold as [|[|(Hn & Hall & Hmin)]]; [congruence|done|]. split; [|eauto 10].
    unfold arp_cache_lookup. destruct (arp_cache_find (n_arp n') ip') as [j|] eqn:Hj; [|done]. exfalso.
    apply arp_find_some in Hj as (e' & Hj & Lj & Ij). destruct (decide (j = i)) as [->|Hji]; [congruence|].
    rewrite Hc, list_lookup_alter_ne in Hj by done. apply Hji. apply (Hu j i e' e); congruence.
  - left. apply lookup_ext; [done..|]. intros j e' Lj Ij. rewrite Hc. destruct (decide (j = i)) as [->|Hji].
    + rewrite list_lookup_alter_eq, He. cbn. split; intros [= <-]; [congruence|]. by destruct Hno.
    + by rewrite list_lookup_alter_ne.
Qed.

End calls.
