(* ===== verification/NetTypes.v ===== *)
(** * Well-typed states of the network stack

    The sizes of the tables, the widths of the fields and the shape of the
    queues that the declarations of include/net promise, as an invariant of
    every function of the receive path and of the calls of UDP. *)

From Stdlib Require Import Sorting.Sorted.
From S2P Require Import Prelude Mem HeapInterface Checksum Netbuf NetBytes NetState Netdev Arp Ip Icmp Udp NetInput NetShape.

Create HintDb typed.

(** ** The invariant *)

Definition is_u16 (x : Z) : Prop := 0 <= x < 2 ^ 16.
Definition is_u32 (x : Z) : Prop := 0 <= x < 2 ^ 32.
Definition is_u64 (x : Z) : Prop := 0 <= x < 2 ^ 64.
Definition is_s32 (x : Z) : Prop := - 2 ^ 31 <= x < 2 ^ 31.

Lemma u16_typed x : is_u16 (u16 x).
Proof. unfold is_u16, u16. apply Z.mod_pos_bound. lia. Qed.
Lemma u32_typed x : is_u32 (u32 x).
Proof. unfold is_u32, u32. apply Z.mod_pos_bound. lia. Qed.
Lemma u64_typed x : is_u64 (u64 x).
Proof. unfold is_u64, u64. apply Z.mod_pos_bound. lia. Qed.
Lemma s32_typed x : is_u32 x -> is_s32 (s32 x).
Proof. unfold is_u32, is_s32, s32, u32. intros Hx. rewrite Z.mod_small by lia. case_if; lia. Qed.
Lemma rd32_typed m p : is_u32 (rd32 m p).
Proof. unfold is_u32, rd32. pose proof (rd_range m p). pose proof (rd_range m (p + 1)). pose proof (rd_range m (p + 2)). pose proof (rd_range m (p + 3)). lia. Qed.

(** A hardware address. *)
Definition mac_typed (mac : list Z) : Prop := length mac = 6%nat /\ Forall is_byte mac.

(** The driver: both rings have their size, its positions and the tail
    registers lie in them, the lengths have 16 bits, the counters 64. *)
Record nic_typed (e : e1000_device) : Prop := {
  et_tx : length (tx_descs e) = Z.to_nat E1000_NUM_TX_DESC;
  et_tx_cur : 0 <= tx_cur e < E1000_NUM_TX_DESC;
  et_tdt : 0 <= reg_tdt e < E1000_NUM_TX_DESC;
  et_tx_descs : Forall (fun d => is_u16 (td_length d)) (tx_descs e);
  et_rx : length (rx_descs e) = Z.to_nat E1000_NUM_RX_DESC;
  et_rx_cur : 0 <= rx_cur e < E1000_NUM_RX_DESC;
  et_rdt : 0 <= reg_rdt e < E1000_NUM_RX_DESC;
  et_rx_descs : Forall (fun d => is_u16 (rx_length d)) (rx_descs e);
  et_counters : is_u64 (e_rx_packets e) /\ is_u64 (e_tx_packets e) /\ is_u64 (e_rx_bytes e) /\ is_u64 (e_tx_bytes e)
}.

Record dev_typed (nd : netdev) : Prop := {
  dt_mac : mac_typed (nd_mac nd);
  dt_addrs : is_u32 (nd_ip_addr nd) /\ is_u32 (nd_netmask nd) /\ is_u32 (nd_gateway nd);
  dt_mtu : is_u16 (nd_mtu nd);
  dt_counts : is_u64 (rx_packets nd) /\ is_u64 (tx_packets nd) /\ is_u64 (rx_bytes nd) /\ is_u64 (tx_bytes nd);
  dt_errors : is_u64 (rx_errors nd) /\ is_u64 (tx_errors nd) /\ is_u64 (rx_dropped nd) /\ is_u64 (tx_dropped nd);
  dt_nic : nic_typed (nd_priv nd)
}.

Record arp_typed (e : arp_entry) : Prop := {
  at_ip : is_u32 (ae_ip e);
  at_mac : mac_typed (ae_mac e);
  at_timestamp : is_u32 (ae_timestamp e);
  at_retries : is_byte (ae_retries e)
}.

Record route_typed (r : ip_route) : Prop := {
  ot_dest : is_u32 (rt_dest r);
  ot_netmask : is_u32 (rt_netmask r);
  ot_gateway : is_u32 (rt_gateway r);
  ot_metric : is_u32 (rt_metric r)
}.

Definition fragment_typed (f : ip_fragment) : Prop := is_u16 (fr_offset f) /\ is_u16 (fr_len f).

(** The fragments of an entry are sorted by offset. *)
Record reass_typed (r : ip_reassembly) : Prop := {
  rt_addrs : is_u32 (ra_src r) /\ is_u32 (ra_dst r);
  rt_ident : is_u16 (ra_id r) /\ is_byte (ra_protocol r);
  rt_total : is_u16 (ra_total_len r);
  rt_received : is_u16 (ra_received_len r);
  rt_timeout : is_u32 (ra_timeout r);
  rt_fragments : Forall fragment_typed (ra_fragments r);
  rt_sorted : Sorted (fun f g => fr_offset f <= fr_offset g) (ra_fragments r)
}.

Record icmp_typed (i : icmp_state) : Prop := {
  it_ident : is_u16 (lp_id i) /\ is_u16 (lp_seq i);
  it_time : is_u32 (lp_send_time i);
  it_last : is_s32 (last_rtt i);
  it_result : is_u32 (pr_rtt i) /\ is_u32 (pr_src_ip i)
}.

(** The length field of a receive queue is the length of the queue. *)
Record pcb_typed (p : udp_pcb) : Prop := {
  pt_addrs : is_u32 (up_local_ip p) /\ is_u32 (up_remote_ip p);
  pt_lport : is_u16 (up_local_port p);
  pt_rport : is_u16 (up_remote_port p);
  pt_queue : up_recv_queue_len p = u32 (Z.of_nat (length (up_recv_queue p)));
  pt_senders : Forall (fun d => is_u32 (dg_src_ip d) /\ is_u16 (dg_src_port d)) (up_recv_queue p)
}.

Record net_typed {H T} (n : net H T) : Prop := {
  nt_devs : map_Forall (fun _ => dev_typed) (n_devs n);
  nt_arp_size : length (n_arp n) = ARP_CACHE_SIZE;
  nt_arp : Forall arp_typed (n_arp n);
  nt_reass_size : length (reass_table (n_ip n)) = IP_REASS_MAX_ENTRIES;
  nt_reass : Forall reass_typed (reass_table (n_ip n));
  nt_routes_size : length (route_table (n_ip n)) = IP_ROUTE_MAX;
  nt_routes : Forall route_typed (route_table (n_ip n));
  nt_id : is_u16 (ip_id_counter (n_ip n));
  nt_icmp : icmp_typed (n_icmp n);
  nt_udp : map_Forall (fun _ => pcb_typed) (udp_objs (n_udp n));
  nt_port : is_u32 (next_ephemeral_port (n_udp n))
}.

Section typed.
Context (a : arch) {H T : Type} `{!KHeap H}.
Implicit Types n : net H T.

(** ** The setters *)

Lemma typed_heap n h : net_typed n -> net_typed (set_heap n h).
Proof. intros []. by constructor. Qed.
Lemma typed_mem n m : net_typed n -> net_typed (set_mem n m).
Proof. intros []. by constructor. Qed.
Lemma typed_icmp n i : net_typed n -> icmp_typed i -> net_typed (set_icmp n i).
Proof. intros [] ?. by constructor. Qed.
Lemma typed_tcp n t : net_typed n -> net_typed (set_tcp n t).
Proof. intros []. by constructor. Qed.

Lemma typed_arp n i f : net_typed n -> (forall e, arp_typed e -> arp_typed (f e)) -> net_typed (upd_arp n i f).
Proof.
  intros [] Hf. constructor; try done; cbn [n_arp upd_arp set_arp]; [by rewrite length_alter|].
  apply Forall_alter; [done|]. intros e _ He. by apply Hf.
Qed.

Lemma typed_entry n i r : net_typed n -> reass_typed r -> net_typed (set_entry n i r).
Proof. intros [] Hr. constructor; try done; cbn; [by rewrite length_insert|by apply Forall_insert]. Qed.

Lemma typed_dev n d nd : net_typed n -> dev_typed nd -> net_typed (set_dev_at n d nd).
Proof. intros [] Hd. constructor; try done. cbn. by apply map_Forall_insert_2. Qed.

Lemma typed_udp n u : net_typed n -> map_Forall (fun _ => pcb_typed) (udp_objs u) -> is_u32 (next_ephemeral_port u) -> net_typed (set_udp n u).
Proof. intros [] ? ?. by constructor. Qed.

Lemma typed_get_dev n d nd : net_typed n -> n_devs n !! d = Some nd -> dev_typed nd.
Proof. intros Hn Hd. exact (nt_devs _ Hn _ _ Hd). Qed.
Lemma typed_get_pcb n q p : net_typed n -> udp_objs (n_udp n) !! q = Some p -> pcb_typed p.
Proof. intros Hn Hq. exact (nt_udp _ Hn _ _ Hq). Qed.
Lemma typed_get_entry n i r : net_typed n -> reass_table (n_ip n) !! i = Some r -> reass_typed r.
Proof. intros Hn Hi. exact (proj1 (Forall_lookup _ _) (nt_reass _ Hn) _ _ Hi). Qed.

#[local] Hint Resolve typed_heap typed_mem typed_dev rd32_typed u16_typed u32_typed u64_typed : typed.

(** ** Sending *)

Lemma typed_free n b n' : free_buf n b = Some n' -> net_typed n -> net_typed n'.
Proof. unfold free_buf. intros E Hn. run E. auto with typed. Qed.

Lemma dev_count_tx nd p b e d : dev_typed nd -> dev_typed (count_tx nd p b e d).
Proof. intros [? ? ? (? & ? & ? & ?) (? & ? & ? & ?) ?]. constructor; try done; cbn; split_and!; auto with typed. Qed.
Lemma dev_count_rx nd p b d : dev_typed nd -> dev_typed (count_rx nd p b d).
Proof. intros [? ? ? (? & ? & ? & ?) (? & ? & ? & ?) ?]. constructor; try done; cbn; split_and!; auto with typed. Qed.
Lemma dev_set_nic nd e : dev_typed nd -> nic_typed e -> dev_typed (set_nic nd e).
Proof. intros [] ?. by constructor. Qed.

Lemma typed_nic m nd b r e : e1000_netdev_transmit m (nd_priv nd) b = Some (r, e) -> dev_typed nd -> dev_typed (set_nic nd e).
Proof.
  unfold e1000_netdev_transmit. intros E Hd. apply dev_set_nic; [done|]. destruct (dt_nic _ Hd) as [? ? ? ? ? ? ? ? (? & ? & ? & ?)].
  run E; [by constructor..|].
  assert (0 <= (tx_cur (nd_priv nd) + 1) mod E1000_NUM_TX_DESC < E1000_NUM_TX_DESC)
    by (apply Z.mod_pos_bound; unfold E1000_NUM_TX_DESC; lia).
  constructor; try done; cbn.
  - by rewrite length_insert.
  - apply Forall_insert; [done|]. apply u16_typed.
  - auto with typed.
Qed.
#[local] Hint Resolve dev_count_tx dev_count_rx typed_get_dev typed_nic : typed.

Lemma typed_transmit n d b r n' : netdev_transmit n d b = Some (r, n') -> net_typed n -> net_typed n'.
Proof. unfold netdev_transmit. intros E Hn. run E; try done; try case_if; eauto 8 with typed. Qed.

Lemma typed_ethernet n d b mac t r n' : ethernet_output a n d b mac t = Some (r, n') -> net_typed n -> net_typed n'.
Proof. unfold ethernet_output. intros E Hn. run E; try done. eapply typed_transmit; eauto with typed. Qed.

#[local] Hint Resolve typed_free typed_ethernet : typed.

Lemma typed_send_queue d mac q : forall n n', send_queue a n d mac q = Some n' -> net_typed n -> net_typed n'.
Proof. induction q as [|b q IH]; intros n n' E Hn; cbn [send_queue] in E; run E; try done; eauto with typed. Qed.

Lemma typed_free_queue q : forall n n', free_queue n q = Some n' -> net_typed n -> net_typed n'.
Proof. induction q as [|b q IH]; intros n n' E Hn; cbn [free_queue] in E; run E; try done; eauto with typed. Qed.

#[local] Hint Resolve typed_send_queue typed_free_queue : typed.

Lemma typed_pending e q : arp_typed e -> arp_typed (set_pending e q).
Proof. intros []. by constructor. Qed.
Lemma typed_arp_state e st : arp_typed e -> arp_typed (set_arp_state e st).
Proof. intros []. by constructor. Qed.
#[local] Hint Resolve typed_pending typed_arp_state : typed.

Lemma typed_send_pending n i d n' : arp_send_pending a n i d = Some n' -> net_typed n -> net_typed n'.
Proof. unfold arp_send_pending. intros E Hn. run E. apply typed_arp; eauto with typed. Qed.

Lemma typed_free_pending n i n' : arp_free_pending n i = Some n' -> net_typed n -> net_typed n'.
Proof. unfold arp_free_pending. intros E Hn. run E. apply typed_arp; eauto with typed. Qed.

Lemma typed_send_arp n d op tm dm ip r n' : send_arp a n d op tm dm ip = Some (r, n') -> net_typed n -> net_typed n'.
Proof. unfold send_arp. intros E Hn. run E; eauto 8 with typed. Qed.

#[local] Hint Resolve typed_send_pending typed_free_pending typed_send_arp : typed.

Lemma typed_update n ip mac n' : arp_cache_update a n ip mac = Some n' -> is_u32 ip -> mac_typed mac -> net_typed n -> net_typed n'.
Proof.
  unfold arp_cache_update. intros E Hip Hm Hn. case_if_in E; [by run E|]. cbv zeta in E.
  assert (forall i n1, net_typed n1 -> net_typed (upd_arp n1 i (fun e => ArpEntry (ae_ip e) mac (now_ms n1) ARP_STATE_RESOLVED 0 (ae_pending e)))) as Hu.
  { intros i n1 Hn1. apply typed_arp; [done|]. intros e []. constructor; try done. apply u32_typed. }
  destruct (arp_cache_find (n_arp n) ip) as [i|]; [run E; eauto with typed|].
  destruct (arp_cache_find_free (n_arp n)) as [i|]; [|by run E]. cbn [mbind option_bind] in E.
  assert (net_typed (upd_arp n i (fun e => ArpEntry ip (ae_mac e) (ae_timestamp e) (ae_state e) (ae_retries e) []))) as Hn1.
  { apply typed_arp; [done|]. intros e []. by constructor. }
  run E; eauto with typed.
Qed.

Lemma mac_at_typed m p : mac_typed (mac_at m p).
Proof. split; [apply read_bytes_length|apply read_bytes_bytes]. Qed.
#[local] Hint Resolve typed_update mac_at_typed : typed.

Lemma typed_arp_input n d b n' : arp_input a n d b = Some n' -> net_typed n -> net_typed n'.
Proof. unfold arp_input, arp_reply. intros E Hn. run E; eauto 8 with typed. Qed.

Lemma typed_resolve n d ip r mac n' : arp_resolve a n d ip = Some (r, mac, n') -> is_u32 ip -> net_typed n -> net_typed n'.
Proof.
  unfold arp_resolve, arp_request. intros E Hip Hn. case_if_in E; [by run E|]. cbv zeta in E.
  destruct (i ← arp_cache_find (n_arp n) ip; _) as [[[r1 m1] n1]|] eqn:Ek.
  - injection E as <- <- <-. run Ek; [done|]. apply typed_arp; [done|]. intros e []. constructor; try done. apply u32_typed.
  - run E; eauto with typed. eapply typed_send_arp; [eassumption|]. apply typed_arp; [eauto with typed|]. intros e _.
    constructor; [done|split; [done|by apply (Forall_replicate is_byte 6 0)]|apply u32_typed|done].
Qed.

Lemma typed_queue n ip b : net_typed n -> net_typed (arp_queue_packet n ip b).2.
Proof.
  intros Hn. unfold arp_queue_packet. destruct (arp_cache_find (n_arp n) ip) as [i|]; [|done]. cbn [mbind option_bind].
  destruct (n_arp n !! i) as [e|]; [|done]. cbn [mbind option_bind]. case_bool_decide; [apply typed_arp; auto with typed|done].
Qed.

#[local] Hint Resolve typed_resolve : typed.

Lemma typed_ip_send n d hop b r n' : ip_send a n d hop b = Some (r, n') -> is_u32 hop -> net_typed n -> net_typed n'.
Proof.
  unfold ip_send. intros E Hh Hn. destruct (arp_resolve a n d hop) as [[[r0 mac] n0]|] eqn:Er; [|done].
  assert (net_typed n0) as Hn0 by eauto with typed.
  cbn [mbind option_bind] in E. case_if_in E; [eauto with typed|]. case_if_in E; [|run E; eauto with typed].
  pose proof (typed_queue n0 hop b Hn0) as Hq. destruct (arp_queue_packet n0 hop b) as [q n1]. simpl in Hq. run E; eauto with typed.
Qed.

Lemma route_search_typed ip l : forall best, Forall route_typed l -> is_u32 (br_gateway best) ->
  is_u32 (br_gateway (fold_left (route_step ip) l best)).
Proof.
  induction l as [|x l IH]; intros best Hl Hb; [done|]. apply list.Forall_cons in Hl as [Hx Hl]. cbn [fold_left]. apply IH; [done|].
  unfold route_step. cbv zeta. destruct (route_matches ip x); [|done].
  match goal with |- context [if ?b then BestRoute _ _ _ _ else _] => destruct b end; [apply Hx|done].
Qed.

Lemma typed_route_lookup n ip d hop : ip_route_lookup n ip = Some (d, hop) -> is_u32 ip -> net_typed n -> is_u32 hop.
Proof.
  unfold ip_route_lookup. intros E Hip Hn.
  pose proof (route_search_typed ip (route_table (n_ip n)) (BestRoute 0 0 0 0xFFFFFFFF) (nt_routes _ Hn) ltac:(done)) as Hg.
  fold (route_search ip (route_table (n_ip n))) in Hg. run E; repeat case_if; try done.
  match goal with Q : n_devs n !! _ = Some _ |- _ => apply (nt_devs _ Hn _ _ Q) end.
Qed.

Lemma typed_next_hop nd ip : dev_typed nd -> is_u32 ip -> is_u32 (ip_get_next_hop nd ip).
Proof. intros Hd Hip. unfold ip_get_next_hop. repeat case_if; try done. apply Hd. Qed.

#[local] Hint Resolve typed_ip_send typed_route_lookup typed_next_hop : typed.

Lemma typed_next_id n : net_typed n ->
  net_typed (set_ip n (IpState (u16 (ip_id_counter (n_ip n) + 1)) (reass_table (n_ip n)) (route_table (n_ip n)))).
Proof. intros []. constructor; try done. apply u16_typed. Qed.
#[local] Hint Resolve typed_next_id : typed.

Lemma typed_ip_output n d b ip pr r n' : ip_output a n d b ip pr = Some (r, n') -> is_u32 ip -> net_typed n -> net_typed n'.
Proof.
  unfold ip_output. intros E Hip Hn. destruct (if d =? 0 then _ else _) as [[d1 hop]|] eqn:Eh; [|done]. cbn [mbind option_bind] in E.
  assert (is_u32 hop) as Hhop by (destruct (d =? 0); [|run Eh]; eauto with typed). run E; eauto 8 with typed.
Qed.

#[local] Hint Resolve typed_ip_output : typed.

(** ** ICMP *)

Lemma typed_build_echo n ty id sq dt len r n' : build_echo a n ty id sq dt len = Some (r, n') -> net_typed n -> net_typed n'.
Proof. unfold build_echo. intros E Hn. run E; eauto with typed. Qed.

Lemma typed_icmp_output n b ip r n' : icmp_output a n b ip = Some (r, n') -> is_u32 ip -> net_typed n -> net_typed n'.
Proof. unfold icmp_output. intros E Hip Hn. run E; eauto with typed. Qed.

#[local] Hint Resolve typed_build_echo typed_icmp_output : typed.

Lemma typed_unreachable n ip c p q r n' : icmp_send_dest_unreachable a n ip c p q = Some (r, n') -> is_u32 ip -> net_typed n -> net_typed n'.
Proof. unfold icmp_send_dest_unreachable. intros E Hip Hn. run E; eauto 8 with typed. Qed.

Lemma typed_echo_reply n ip id sq dt len r n' : icmp_send_echo_reply a n ip id sq dt len = Some (r, n') -> is_u32 ip -> net_typed n -> net_typed n'.
Proof. unfold icmp_send_echo_reply. intros E Hip Hn. run E; eauto with typed. Qed.

Lemma typed_echo_received n ip id sq : is_u32 ip -> net_typed n -> net_typed (echo_reply_received n ip id sq).
Proof.
  intros Hip Hn. unfold echo_reply_received. case_if; [|done]. apply typed_icmp; [done|]. destruct (nt_icmp _ Hn).
  assert (forall x, is_s32 (s32 (u32 x))) by (intros; apply s32_typed, u32_typed). case_if; constructor; cbn; auto with typed.
Qed.

Lemma typed_echo_request n ip id sq data len r n' : icmp_send_echo_request a n ip id sq data len = Some (r, n') ->
  is_u32 ip -> is_u16 id -> is_u16 sq -> net_typed n -> net_typed n'.
Proof.
  unfold icmp_send_echo_request. intros E Hip Hid Hsq Hn.
  destruct (build_echo _ _ _ _ _ _ _) as [[buf n0]|] eqn:Eb; [|done]. cbn [mbind option_bind] in E.
  apply typed_build_echo in Eb; [|done]. destruct buf as [buf|]; [|by run E]. cbv zeta in E.
  set (n1 := set_icmp n0 _) in E. assert (net_typed n1) as H1.
  { apply typed_icmp; [done|]. destruct (nt_icmp _ Eb). constructor; cbn; try done. apply u32_typed. }
  run E; [|by eapply typed_ip_output].
  match goal with Q : free_buf ?x _ = Some ?y |- _ => assert (net_typed y) as H3 by eauto with typed end.
  apply typed_icmp; [done|]. destruct (nt_icmp _ H3). by constructor.
Qed.

#[local] Hint Resolve typed_unreachable typed_echo_reply typed_echo_received : typed.

Lemma typed_icmp_input n d b ip n' : icmp_input a n d b ip = Some n' -> is_u32 ip -> net_typed n -> net_typed n'.
Proof. unfold icmp_input. intros E Hip Hn. run E; eauto 8 with typed. Qed.

(** ** Reassembly *)

Lemma insert_fragment_typed f l l' : insert_fragment f l = Some l' -> fragment_typed f -> Forall fragment_typed l -> Forall fragment_typed l'.
Proof.
  revert l'. induction l as [|g l IH]; intros l' E Hf Hl; cbn [insert_fragment] in E; run E; [by constructor| |by constructor].
  apply list.Forall_cons in Hl as [Hg Hl]. constructor; [done|]. by apply IH.
Qed.

Lemma insert_fragment_sorted f l l' : insert_fragment f l = Some l' -> Sorted (fun f g => fr_offset f <= fr_offset g) l ->
  Sorted (fun f g => fr_offset f <= fr_offset g) l' /\ forall x, HdRel (fun f g => fr_offset f <= fr_offset g) x l ->
    fr_offset x <= fr_offset f -> HdRel (fun f g => fr_offset f <= fr_offset g) x l'.
Proof.
  revert l'. induction l as [|g l IH]; intros l' E Hs; cbn [insert_fragment] in E.
  - run E. split; [by repeat constructor|]. intros x _ Hx. by constructor.
  - apply Sorted_inv in Hs as [Hs Hg]. destruct (Z.ltb_spec (fr_offset g) (fr_offset f)) as [Hlt|Hge].
    + run E. destruct (IH _ eq_refl Hs) as [I1 I2]. split; [constructor; [done|apply I2; [done|lia]]|].
      intros x Hx _. apply HdRel_inv in Hx. by constructor.
    + run E. split; [constructor; [by constructor|by constructor]|]. intros x _ Hx. by constructor.
Qed.

Lemma typed_release r : reass_typed r ->
  reass_typed (IpReassembly (ra_src r) (ra_dst r) (ra_id r) (ra_protocol r) (ra_total_len r) (ra_received_len r) [] (ra_timeout r) false).
Proof. intros []. by constructor. Qed.

Lemma typed_fresh src dst id proto t : is_u32 src -> is_u32 dst -> is_u16 id -> is_byte proto -> is_u32 t ->
  reass_typed (fresh_entry src dst id proto t).
Proof. intros. by constructor. Qed.

Lemma typed_reass_find n s t i p r n' : ip_reass_find n s t i p = Some (r, n') ->
  is_u32 s -> is_u32 t -> is_u16 i -> is_byte p -> net_typed n -> net_typed n'.
Proof. unfold ip_reass_find. intros E Hs Ht Hi Hp Hn. run E; try done; apply typed_entry; auto using typed_fresh with typed. Qed.

Lemma typed_add_fragment n i o dt l mf r n' : ip_reass_add_fragment a n i o dt l mf = Some (r, n') -> is_u16 o -> is_u16 l ->
  net_typed n -> net_typed n'.
Proof.
  unfold ip_reass_add_fragment. intros E Ho Hl Hn. run E.
  all: match goal with Q : reass_table _ !! _ = Some _ |- _ => pose proof (typed_get_entry _ _ _ Hn Q) as [] end.
  all: assert (is_u16 (if mf then ra_total_len v else u16 (o + l))) as Ht by (destruct mf; [done|apply u16_typed]).
  all: repeat first [apply typed_heap | apply typed_mem | apply typed_entry]; try done.
  constructor; cbn; try done; [apply u16_typed|by eapply insert_fragment_typed|by eapply insert_fragment_sorted].
Qed.

Lemma typed_reass_free n i n' : ip_reass_free n i = Some n' -> net_typed n -> net_typed n'.
Proof. unfold ip_reass_free. intros E Hn. run E. apply typed_entry; [auto with typed|]. apply typed_release. by eapply typed_get_entry. Qed.

#[local] Hint Resolve typed_reass_free typed_add_fragment typed_reass_find : typed.

Lemma typed_complete n i d r n' : ip_reass_complete a n i d = Some (r, n') -> net_typed n -> net_typed n'.
Proof. unfold ip_reass_complete. intros E Hn. run E; eauto 8 with typed. Qed.

Lemma ntohs_typed x : is_u16 (ntohs x).
Proof. apply htons_range. Qed.
Lemma rd_typed m p : is_byte (rd m p).
Proof. apply rd_range. Qed.
#[local] Hint Resolve typed_complete ntohs_typed rd_typed : typed.

Lemma typed_reassemble n d b p r n' : ip_reassemble a n d b p = Some (r, n') -> net_typed n -> net_typed n'.
Proof. unfold ip_reassemble. intros E Hn. run E; eauto 10 with typed. Qed.

(** ** Tables *)

Lemma typed_for_entries f idx : (forall n i n', f n i = Some n' -> net_typed n -> net_typed n') ->
  forall n n', for_entries f idx n = Some n' -> net_typed n -> net_typed n'.
Proof. intros Hf. induction idx as [|i idx IH]; intros n n' E Hn; cbn [for_entries] in E; run E; [done|]. eauto. Qed.

Lemma zero_entry_typed : arp_typed arp_entry_zero.
Proof. constructor; try done. split; [done|]. by apply (Forall_replicate is_byte 6 0). Qed.
Lemma typed_zero_entry n i : net_typed n -> net_typed (upd_arp n i (fun _ => arp_entry_zero)).
Proof. intros Hn. apply typed_arp; [done|]. intros _ _. exact zero_entry_typed. Qed.
#[local] Hint Resolve typed_zero_entry : typed.

Lemma typed_cleanup n now i n' : cleanup_entry n now i = Some n' -> net_typed n -> net_typed n'.
Proof.
  unfold cleanup_entry. intros E Hn. run E; try done; [|case_if; [|done]]; (apply typed_arp; eauto with typed).
Qed.

Lemma typed_routes n t : net_typed n -> length t = length (route_table (n_ip n)) -> Forall route_typed t -> net_typed (set_routes n t).
Proof. intros [] Hl Ht. constructor; try done. cbn. congruence. Qed.

Lemma typed_addrs nd ip mask gw : dev_typed nd -> is_u32 ip -> is_u32 mask -> is_u32 gw -> dev_typed (set_addrs nd ip mask gw).
Proof. intros []. by constructor. Qed.

Lemma typed_route_add n dest mask gw dev metric : is_u32 dest -> is_u32 mask -> is_u32 gw -> is_u32 metric ->
  net_typed n -> net_typed (ip_route_add n dest mask gw dev metric).2.
Proof.
  intros Hd Hm Hg Hx Hn. pose proof (nt_routes _ Hn) as Hr. unfold ip_route_add, route_insert.
  destruct (list_find _ _) as [[i r]|] eqn:El.
  - apply list_find_Some in El as (Hi & _ & _). apply typed_routes; [done|by rewrite length_insert|]. apply Forall_insert; [done|].
    destruct (proj1 (list.Forall_lookup _ _) Hr _ _ Hi). by constructor.
  - clear El. destruct (list_find _ _) as [[i r]|]; apply typed_routes; try done; [by rewrite length_insert|by apply Forall_insert].
Qed.

Lemma typed_route_del n dest mask : net_typed n -> net_typed (ip_route_del n dest mask).2.
Proof.
  intros Hn. pose proof (nt_routes _ Hn) as Hr. unfold ip_route_del, route_delete.
  destruct (list_find _ _) as [[i r]|] eqn:El; apply typed_routes; try done; [by rewrite length_insert|].
  apply list_find_Some in El as (Hi & _ & _). apply Forall_insert; [done|]. destruct (proj1 (list.Forall_lookup _ _) Hr _ _ Hi). by constructor.
Qed.

(** ** The calls of UDP *)

Lemma typed_set_obj n q p : net_typed n -> pcb_typed p -> net_typed (set_udp n (set_obj (n_udp n) q p)).
Proof. intros Hn Hp. apply typed_udp; [done|cbn; apply map_Forall_insert_2; [done|apply Hn]|apply Hn]. Qed.

Lemma typed_enqueue p d : pcb_typed p -> is_u32 (dg_src_ip d) -> is_u16 (dg_src_port d) ->
  pcb_typed (set_queue p (up_recv_queue p ++ [d]) (u32 (up_recv_queue_len p + 1))).
Proof.
  intros [] Hd. constructor; try done; cbn [up_recv_queue_len up_recv_queue set_queue].
  - rewrite pt_queue0, length_app. unfold u32. rewrite Zplus_mod_idemp_l. f_equal. simpl. lia.
  - apply Forall_app. split; [done|]. by constructor.
Qed.

Lemma typed_pcb_new n pcb n' : udp_pcb_new a n = Some (pcb, n') -> net_typed n -> net_typed n'.
Proof.
  unfold udp_pcb_new. intros E Hn. run E; [auto with typed|]. apply typed_udp; [auto with typed| |apply Hn].
  cbn. apply map_Forall_insert_2; [by constructor|apply Hn].
Qed.

Lemma typed_pcb_free n pcb n' : udp_pcb_free n pcb = Some n' -> net_typed n -> net_typed n'.
Proof.
  unfold udp_pcb_free. intros E Hn. run E; [done|].
  match goal with Q : free_queue _ _ = Some ?m |- _ => assert (net_typed m) as Hm end.
  { eapply typed_free_queue; [eassumption|]. apply typed_udp; [done|apply Hn..]. }
  apply typed_udp; [auto with typed| |apply Hm]. cbn. apply map_Forall_delete, Hm.
Qed.

Lemma alloc_loop_typed fuel u : forall next start p x, alloc_port_loop fuel u next start = Some (p, x) -> is_u16 p /\ is_u32 x.
Proof.
  induction fuel as [|fuel IH]; intros next start p x E; [done|]. cbn [alloc_port_loop] in E. cbv zeta in E.
  set (nx := if UDP_EPHEMERAL_PORT_MAX <? u32 (next + 1) then UDP_EPHEMERAL_PORT_MIN else u32 (next + 1)) in *.
  assert (is_u32 nx) as Hx by (unfold nx; case_if; [done|apply u32_typed]).
  run E; [|by eapply IH|]; (split; [|done]); [apply u16_typed|done].
Qed.

Lemma typed_ensure_port u pcb port u' : ensure_port u pcb = Some (port, u') -> map_Forall (fun _ => pcb_typed) (udp_objs u) ->
  is_u32 (next_ephemeral_port u) -> map_Forall (fun _ => pcb_typed) (udp_objs u') /\ is_u32 (next_ephemeral_port u').
Proof.
  unfold ensure_port, udp_alloc_port. intros E Ho Hx. run E; [|done].
  match goal with Q : alloc_port_loop _ _ _ _ = Some _ |- _ => apply alloc_loop_typed in Q as [Hp Hn] end. split; [|done].
  cbn. apply map_Forall_insert_2; [|done]. destruct (Ho _ _ Hv). by constructor.
Qed.

Lemma typed_sendto n pcb b ip port r n' : udp_sendto a n pcb b ip port = Some (r, n') -> is_u32 ip -> net_typed n -> net_typed n'.
Proof.
  unfold udp_sendto. intros E Hip Hn. case_if_in E; [by run E|]. cbv zeta in E. case_if_in E; [by run E|].
  destruct (ensure_port (n_udp n) pcb) as [[port' u]|] eqn:Ee; [|done]. cbn [mbind option_bind] in E.
  destruct (typed_ensure_port _ _ _ _ Ee (nt_udp _ Hn) (nt_port _ Hn)) as [Ho Hx].
  assert (net_typed (set_udp n u)) as Hu by by apply typed_udp. run E; try done. eauto with typed.
Qed.

Lemma typed_send n pcb b r n' : udp_send a n pcb b = Some (r, n') -> net_typed n -> net_typed n'.
Proof.
  unfold udp_send. intros E Hn. run E; [done|done|]. eapply typed_sendto; [exact E| |done].
  match goal with Q : udp_objs _ !! _ = Some _ |- _ => apply (typed_get_pcb _ _ _ Hn Q) end.
Qed.

Lemma typed_output n sp ip dp data len r n' : udp_output a n sp ip dp data len = Some (r, n') -> is_u32 ip -> net_typed n -> net_typed n'.
Proof. unfold udp_output. intros E Hip Hn. run E; eauto 8 with typed. Qed.

Lemma typed_bind n pcb ip port r n' : udp_bind n pcb ip port = Some (r, n') -> is_u32 ip -> is_u16 port -> net_typed n -> net_typed n'.
Proof.
  unfold udp_bind. intros E Hip Hp Hn. run E; try done. apply typed_set_obj; [done|].
  destruct (typed_get_pcb _ _ _ Hn Hv) as [[] ? ? ? ?]. by constructor.
Qed.

Lemma typed_connect n pcb ip port r n' : udp_connect n pcb ip port = Some (r, n') -> is_u32 ip -> is_u16 port -> net_typed n -> net_typed n'.
Proof.
  unfold udp_connect. intros E Hip Hp Hn. case_if_in E; [by run E|]. cbv zeta in E.
  destruct (udp_objs (n_udp n) !! pcb) as [p|] eqn:Hv; [|done]. cbn [mbind option_bind] in E.
  destruct (ensure_port _ _) as [[q u]|] eqn:Ee; [|done]. cbn [mbind option_bind] in E. injection E as _ <-.
  destruct (typed_ensure_port _ _ _ _ Ee) as [Ho Hx]; [|apply Hn|by apply typed_udp].
  cbn. apply map_Forall_insert_2; [|apply Hn]. destruct (typed_get_pcb _ _ _ Hn Hv) as [[] ? ? ? ?]. by constructor.
Qed.

Lemma typed_poll n pcb r n' : udp_recv_poll n pcb = Some (r, n') -> net_typed n -> net_typed n'.
Proof.
  unfold udp_recv_poll. intros E Hn. run E; try done. apply typed_set_obj; [done|].
  destruct (typed_get_pcb _ _ _ Hn Hv) as [P0 P1 P2 P3 P4]. rewrite Ho in P3, P4. apply list.Forall_cons in P4 as [_ P4].
  constructor; try done. cbn [up_recv_queue_len up_recv_queue set_queue]. rewrite P3. unfold u32.
  rewrite Zminus_mod_idemp_l. f_equal. cbn [length]. lia.
Qed.

(** ** The calls into the stack *)

(** Time passes. *)
Definition ticked n (t : Z) : net H T :=
  Net (n_heap n) (n_devs n) (n_netdevs n) (n_default n) (n_arp n) (n_ip n) (n_icmp n) (n_udp n) (n_tcp n) t.

(** What the system calls, the timer, the console and TCP do to the stack:
    they call its functions, with arguments of the C types, use the kernel
    heap and keep the state of TCP. *)
Inductive net_call : net H T -> net H T -> Prop :=
| net_heap n h : net_call n (set_heap n h)
| net_tcp n t : net_call n (set_tcp n t)
| net_tick n t : net_call n (ticked n t)
| net_output n d b ip pr r n' : is_u32 ip -> ip_output a n d b ip pr = Some (r, n') -> net_call n n'
| net_ping n ip id sq data len r n' : is_u32 ip -> is_u16 id -> is_u16 sq ->
    icmp_send_echo_request a n ip id sq data len = Some (r, n') -> net_call n n'
| net_ping_callback n b : net_call n (icmp_register_ping_callback n b)
| net_arp_static n ip mac r n' : is_u32 ip -> mac_typed mac -> arp_cache_add_static a n ip mac = Some (r, n') -> net_call n n'
| net_arp_delete n ip r n' : arp_cache_delete n ip = Some (r, n') -> net_call n n'
| net_arp_cleanup n n' : arp_cache_cleanup n = Some n' -> net_call n n'
| net_arp_clear n n' : arp_cache_clear n = Some n' -> net_call n n'
| net_reass_timer n n' : ip_reass_timer n = Some n' -> net_call n n'
| net_route_add n dest mask gw dev metric : is_u32 dest -> is_u32 mask -> is_u32 gw -> is_u32 metric ->
    net_call n (ip_route_add n dest mask gw dev metric).2
| net_route_del n dest mask : net_call n (ip_route_del n dest mask).2
| net_register n d : net_call n (netdev_register n d).2
| net_unregister n d : net_call n (netdev_unregister n d).2
| net_set_default n d : net_call n (netdev_set_default n d)
| net_set_ip n d ip n' : is_u32 ip -> netdev_set_ipaddr n d ip = Some n' -> net_call n n'
| net_set_mask n d ip n' : is_u32 ip -> netdev_set_netmask n d ip = Some n' -> net_call n n'
| net_set_gateway n d ip n' : is_u32 ip -> netdev_set_gateway n d ip = Some n' -> net_call n n'
| net_udp_new n pcb n' : udp_pcb_new a n = Some (pcb, n') -> net_call n n'
| net_udp_free n pcb n' : udp_pcb_free n pcb = Some n' -> net_call n n'
| net_udp_bind n pcb ip port r n' : is_u32 ip -> is_u16 port -> udp_bind n pcb ip port = Some (r, n') -> net_call n n'
| net_udp_connect n pcb ip port r n' : is_u32 ip -> is_u16 port -> udp_connect n pcb ip port = Some (r, n') -> net_call n n'
| net_udp_disconnect n pcb n' : udp_disconnect n pcb = Some n' -> net_call n n'
| net_udp_recv n pcb f arg n' : udp_recv n pcb f arg = Some n' -> net_call n n'
| net_udp_poll n pcb r n' : udp_recv_poll n pcb = Some (r, n') -> net_call n n'
| net_udp_output n sp ip dp data len r n' : is_u32 ip -> udp_output a n sp ip dp data len = Some (r, n') -> net_call n n'
| net_udp_sendto n pcb b ip port r n' : is_u32 ip -> udp_sendto a n pcb b ip port = Some (r, n') -> net_call n n'
| net_udp_send n pcb b r n' : udp_send a n pcb b = Some (r, n') -> net_call n n'.

Lemma typed_registry n l d : net_typed n -> net_typed (set_registry n l d).
Proof. intros []. by constructor. Qed.

Lemma typed_set_addrs n d nd ip mask gw : net_typed n -> n_devs n !! d = Some nd -> is_u32 ip -> is_u32 mask -> is_u32 gw ->
  net_typed (set_dev_at n d (set_addrs nd ip mask gw)).
Proof. intros Hn Hd Hi Hm Hg. apply typed_dev; [done|]. apply typed_addrs; try done. exact (typed_get_dev _ _ _ Hn Hd). Qed.

Lemma typed_change_pcb n q p p' : net_typed n -> udp_objs (n_udp n) !! q = Some p ->
  (pcb_typed p -> pcb_typed p') -> net_typed (set_udp n (set_obj (n_udp n) q p')).
Proof. intros Hn Hq Hp. apply typed_set_obj; [done|]. by apply Hp, (typed_get_pcb n q). Qed.

Lemma net_call_typed n n' : net_call n n' -> net_typed n -> net_typed n'.
Proof.
  intros Hs Hn. destruct Hs as [| | |n d b ip pr r n' Hi E|n ip id sq data len r n' Hi Hid Hsq E| |n ip mac r n' Hi Hm E|n ip r n' E|n n' E|n n' E|n n' E
    | | | | | |n d ip n' Hi E|n d ip n' Hi E|n d ip n' Hi E|n pcb n' E|n pcb n' E|n pcb ip port r n' Hi Hp E|n pcb ip port r n' Hi Hp E|n pcb n' E
    |n pcb f arg n' E|n pcb r n' E|n sp ip dp data len r n' Hi E|n pcb b ip port r n' Hi E|n pcb b r n' E].
  - by apply typed_heap.
  - by apply typed_tcp.
  - destruct Hn. by constructor.
  - by eapply typed_ip_output.
  - by eapply typed_echo_request.
  - apply typed_icmp; [done|]. destruct (nt_icmp _ Hn). by constructor.
  - unfold arp_cache_add_static in E. run E. eauto with typed.
  - unfold arp_cache_delete in E. run E; eauto with typed.
  - eapply typed_for_entries; [|exact E|done]. intros n1 i n2. apply typed_cleanup.
  - eapply typed_for_entries; [|exact E|done]. intros n1 i n2 E1 H1. run E1. eauto with typed.
  - eapply typed_for_entries; [|exact E|done]. intros n1 i n2 E1 H1. run E1; eauto with typed.
  - by apply typed_route_add.
  - by apply typed_route_del.
  - unfold netdev_register. do 3 (case_if; [done|]). by apply typed_registry.
  - unfold netdev_unregister. do 2 (case_if; [done|]). by apply typed_registry.
  - by apply typed_registry.
  - unfold netdev_set_ipaddr in E. run E; [done|]. destruct (dt_addrs _ (typed_get_dev _ _ _ Hn Hv)) as (? & ? & ?). by apply typed_set_addrs.
  - unfold netdev_set_netmask in E. run E; [done|]. destruct (dt_addrs _ (typed_get_dev _ _ _ Hn Hv)) as (? & ? & ?). by apply typed_set_addrs.
  - unfold netdev_set_gateway in E. run E; [done|]. destruct (dt_addrs _ (typed_get_dev _ _ _ Hn Hv)) as (? & ? & ?). by apply typed_set_addrs.
  - by eapply typed_pcb_new.
  - by eapply typed_pcb_free.
  - by eapply typed_bind.
  - by eapply typed_connect.
  - unfold udp_disconnect in E. run E; [done|]. eapply typed_change_pcb; [done|done|]. intros [[] ? ? ? ?]. by constructor.
  - unfold udp_recv in E. run E; [done|]. eapply typed_change_pcb; [done|done|]. intros []. by constructor.
  - by eapply typed_poll.
  - by eapply typed_output.
  - by eapply typed_sendto.
  - by eapply typed_send.
Qed.

Lemma net_calls_typed n n' : rtc net_call n n' -> net_typed n -> net_typed n'.
Proof. induction 1 as [|x y z Hxy _ IH]; [done|]. intros Hi. by apply IH, (net_call_typed x). Qed.

(** ** The receive path *)

(** [tcp_input] and a receive callback are code of the kernel: they act on the
    stack through its calls. *)
Context (tcp_input : net H T -> Z -> netbuf -> Z -> Z -> option (net H T)).
Context (recv_callback : Z -> net H T -> Z -> netbuf -> Z -> Z -> option (net H T)).
Hypothesis tcp_calls : forall n d b s t n', tcp_input n d b s t = Some n' -> rtc net_call n n'.
Hypothesis callback_calls : forall f n q b s t n', recv_callback f n q b s t = Some n' -> rtc net_call n n'.

Lemma tcp_typed n d b s t n' : tcp_input n d b s t = Some n' -> net_typed n -> net_typed n'.
Proof. intros E. by eapply net_calls_typed, tcp_calls. Qed.
Lemma callback_typed f n q b s t n' : recv_callback f n q b s t = Some n' -> net_typed n -> net_typed n'.
Proof. intros E. by eapply net_calls_typed, callback_calls. Qed.
#[local] Hint Resolve callback_typed : typed.

Lemma typed_udp_input n d b s t n' : udp_input a recv_callback n d b s t = Some n' -> is_u32 s -> net_typed n -> net_typed n'.
Proof.
  unfold udp_input, udp_deliver. intros E Hs Hn. run E; eauto 8 with typed.
  apply typed_set_obj; [done|]. apply typed_enqueue; [by eapply typed_get_pcb|done|apply ntohs_typed].
Qed.

#[local] Hint Resolve typed_reassemble typed_icmp_input typed_udp_input typed_arp_input tcp_typed : typed.

Lemma typed_ip_input n d b n' : ip_input a tcp_input recv_callback n d b = Some n' -> net_typed n -> net_typed n'.
Proof. unfold ip_input, ip_dispatch. intros E Hn. run E; eauto 8 with typed. Qed.

#[local] Hint Resolve typed_ip_input : typed.

Lemma typed_ethernet_input n d b n' : ethernet_input a tcp_input recv_callback n d b = Some n' -> net_typed n -> net_typed n'.
Proof. unfold ethernet_input. intros E Hn. run E; eauto 8 with typed. Qed.

#[local] Hint Resolve typed_ethernet_input : typed.

Lemma typed_receive n d b n' : netdev_receive a tcp_input recv_callback n d b = Some n' -> net_typed n -> net_typed n'.
Proof.
  unfold netdev_receive. intros E Hn. run E; [done| |].
  - match goal with Q : free_buf _ _ = Some ?x |- _ => assert (net_typed x) as Hx by eauto with typed end. eauto with typed.
  - eapply typed_ethernet_input; [exact E|]. eauto with typed.
Qed.

Lemma typed_count_nic nd len : dev_typed nd -> dev_typed (set_nic nd (count_nic_rx (nd_priv nd) len)).
Proof.
  intros Hd. apply dev_set_nic; [done|]. destruct (dt_nic _ Hd) as [? ? ? ? ? ? ? ? (? & ? & ? & ?)].
  constructor; try done. cbn. auto with typed.
Qed.

Lemma typed_advance nd : dev_typed nd -> forall cur, dev_typed (set_nic nd (e1000_advance (nd_priv nd) cur)).
Proof.
  intros Hd cur. apply dev_set_nic; [done|]. destruct (dt_nic _ Hd). constructor; try done; cbn.
  - by rewrite length_alter.
  - apply Z.mod_pos_bound. unfold E1000_NUM_RX_DESC. lia.
  - by apply Forall_alter.
Qed.

#[local] Hint Resolve typed_receive typed_count_nic typed_advance : typed.

Lemma typed_take n d ds n' : e1000_take a tcp_input recv_callback n d ds = Some n' -> net_typed n -> net_typed n'.
Proof. unfold e1000_take. intros E Hn. run E; eauto 10 with typed. Qed.

#[local] Hint Resolve typed_take : typed.

(** What the device writes has the widths of a descriptor. *)
Definition dma_typed (w : list (nat * rx_desc)) : Prop := Forall (fun x => is_u16 (rx_length x.2)) w.

Lemma dma_write_typed w : forall rx, dma_typed w -> Forall (fun d => is_u16 (rx_length d)) rx ->
  Forall (fun d => is_u16 (rx_length d)) (dma_write rx w) /\ length (dma_write rx w) = length rx.
Proof.
  induction w as [|x w IH]; intros rx Hw Hr; [done|]. apply list.Forall_cons in Hw as [Hx Hw].
  destruct (IH (<[x.1 := x.2]> rx) Hw) as [I1 I2]; [by apply Forall_insert|]. rewrite length_insert in I2. done.
Qed.

Lemma typed_dma nd w : dev_typed nd -> dma_typed w -> dev_typed (set_nic nd (e1000_dma (nd_priv nd) w)).
Proof.
  intros Hd Hw. apply dev_set_nic; [done|]. destruct (dt_nic _ Hd). destruct (dma_write_typed w (rx_descs (nd_priv nd))) as [? E]; [done..|].
  constructor; try done. cbn. congruence.
Qed.

Lemma typed_loop hw : forall n d n', e1000_receive a tcp_input recv_callback hw n d = Some n' -> Forall dma_typed hw -> net_typed n -> net_typed n'.
Proof.
  induction hw as [|w hw IH]; intros n d n' E Hw Hn; [done|]. apply list.Forall_cons in Hw as [Hw Hhw]. cbn [e1000_receive] in E.
  destruct (n_devs n !! d) as [nd|] eqn:Hd; [|done]. cbn [mbind option_bind] in E. cbv zeta in E.
  pose proof (typed_dma nd w (typed_get_dev _ _ _ Hn Hd) Hw) as Hnd. set (nd0 := set_nic nd _) in *.
  pose proof (typed_dev n d nd0 Hn Hnd) as Hn0. set (n0 := set_dev_at n d nd0) in *. run E; [done|..].
  all: cbn [mbind option_bind] in E; eapply IH; [exact E|done|].
  all: match goal with Q : n_devs ?x !! _ = Some _ |- net_typed (set_dev_at ?x _ _) =>
    assert (net_typed x) as Hx by eauto with typed; pose proof (typed_get_dev _ _ _ Hx Q) end.
  all: auto with typed.
Qed.

(** ** Every entry point *)

(** The device has filled receive descriptors and sent transmit ones: it
    writes anything into the rings, in fields of their widths. *)
Definition hardware (e : e1000_device) (tx : list tx_desc) (rx : list rx_desc) : e1000_device :=
  E1000 tx (tx_cur e) (reg_tdt e) rx (rx_cur e) (reg_rdt e) (e_rx_packets e) (e_tx_packets e) (e_rx_bytes e) (e_tx_bytes e).

Inductive net_step : net H T -> net H T -> Prop :=
| net_called n n' : net_call n n' -> net_step n n'
| net_frames n d nd tx rx : n_devs n !! d = Some nd ->
    length tx = Z.to_nat E1000_NUM_TX_DESC -> Forall (fun x => is_u16 (td_length x)) tx ->
    length rx = Z.to_nat E1000_NUM_RX_DESC -> Forall (fun x => is_u16 (rx_length x)) rx ->
    net_step n (set_dev_at n d (set_nic nd (hardware (nd_priv nd) tx rx)))
| net_receive hw n d n' : Forall dma_typed hw -> e1000_receive a tcp_input recv_callback hw n d = Some n' -> net_step n n'.

Lemma step_typed n n' : net_step n n' -> net_typed n -> net_typed n'.
Proof.
  intros Hs Hn. destruct Hs as [n n' E|n d nd tx rx Hd T1 T2 R1 R2|hw n d n' Hw E].
  - by apply (net_call_typed n).
  - pose proof (typed_get_dev _ _ _ Hn Hd) as Hnd. apply typed_dev, dev_set_nic; [done|done|]. destruct (dt_nic _ Hnd). by constructor.
  - by eapply typed_loop.
Qed.

(** C6: The stack stays well typed.  After the initialisation of net.c, and
    whatever frames the devices put into their rings, also while the receive
    loop runs, and whatever calls are made, in any order, the tables keep the sizes they are declared with, the
    ring positions and tail registers of every device lie in its rings,
    hardware addresses have six bytes, the addresses, ports, identifiers,
    lengths, times and counters of the devices, the ARP cache, the routes, the
    reassembly table, the ping state and the UDP control blocks stay in the
    range of their C types, the fragments of each reassembly entry are sorted
    by offset, and the length field of every UDP receive queue is the length
    of the queue.  [tcp_input] and the receive callbacks are functions of
    which only this is used: they act through the calls of the stack, the
    heap and the state of TCP. *)
Theorem net_stack_typed n n' : map_Forall (fun _ => dev_typed) (n_devs n) -> icmp_typed (n_icmp n) -> udp_objs (n_udp n) = ∅ ->
  rtc net_step (net_init n) n' -> net_typed n'.
Proof.
  intros Hd Hc Hu Hr. assert (net_typed (net_init n)) as Hi.
  { constructor; try done.
    - apply (Forall_replicate arp_typed ARP_CACHE_SIZE arp_entry_zero), zero_entry_typed.
    - by apply (Forall_replicate reass_typed IP_REASS_MAX_ENTRIES ip_reassembly_zero).
    - by apply (Forall_replicate route_typed IP_ROUTE_MAX ip_route_zero).
    - destruct Hc. by constructor.
    - cbn. rewrite Hu. apply map_Forall_empty. }
  revert Hi. induction Hr as [|x y z Hxy _ IH]; [done|]. intros Hi. apply IH. by eapply step_typed.
Qed.

End typed.
