(* ===== verification/NetExamples.v ===== *)
(** * Concrete machines on the network

    Two i686 machines on their boot heaps, with an E1000 device each, on
    which the properties of the network stack are applied. *)

From S2P Require Import Prelude Mem Heap HeapFacts HeapProps HeapInterface Checksum Netbuf NetBytes NetState Netdev Arp Ip Icmp.
From S2P Require Import Udp NetInput NetSend NetProps NetShape RouteProps UdpProps ReassProps ArpProps NetTypes.

Section concrete.
#[local] Existing Instance CountingPages.

#[local] Abbreviation machine := (arch_heap I686 Z).

(** A stack without TCP: a segment is dropped, and so is a datagram given to
    a callback. *)
Definition drop_tcp (n : net machine unit) (dev : Z) (b : netbuf) (src dst : Z) : option (net machine unit) := free_buf n b.
Definition drop_callback (f : Z) (n : net machine unit) (pcb : Z) (b : netbuf) (src sport : Z) : option (net machine unit) := free_buf n b.

Definition mac_a : list Z := [2; 0; 0; 0; 0; 1].
Definition mac_b : list Z := [2; 0; 0; 0; 0; 2].
Definition ip_a : Z := IP_ADDR 10 0 0 1.
Definition ip_b : Z := IP_ADDR 10 0 0 2.
Definition mask24 : Z := IP_ADDR 255 255 255 0.

(** A device with free transmit descriptors and the given receive ring. *)
Definition ex_dev (mac : list Z) (ip : Z) (rx : list rx_desc) : netdev :=
  Netdev mac ip mask24 0 NETDEV_UP 1500 0 0 0 0 0 0 0 0 true
    (E1000 (replicate 32 (TxDesc 0 0 1 [])) 0 0 rx 0 31 0 0 0 0).
Definition no_rx : list rx_desc := replicate 32 (RxDesc 0 0 []).

Definition ex_arp (ip : Z) (mac : list Z) : list arp_entry :=
  ArpEntry ip mac 7 ARP_STATE_RESOLVED 0 [] :: replicate 31 arp_entry_zero.
Definition ex_ip : ip_state := IpState 0 (replicate IP_REASS_MAX_ENTRIES ip_reassembly_zero) (replicate IP_ROUTE_MAX ip_route_zero).
Definition ex_icmp : icmp_state := IcmpState false 0 0 0 false 0 false 0 0.
(** A control block for port 53 at 0x5000. *)
Definition ex_pcb : udp_pcb := UdpPcb 0 53 0 0 [] 0 0 0.
Definition ex_udp : udp_state := UdpState [0x5000] {[0x5000 := ex_pcb]} UDP_EPHEMERAL_PORT_MIN.

Definition ex_net (h : machine) (nd : netdev) (c : list arp_entry) : net machine unit :=
  Net h {[1 := nd]} [1] 1 c ex_ip ex_icmp ex_udp tt 1000.

(** ** A datagram from A to B *)

Definition net_a : net machine unit := ex_net nb_heap1 (ex_dev mac_a ip_a no_rx) (ex_arp ip_b mac_b).

Lemma mac_a_is_mac : is_mac mac_a.
Proof. split; [done|]. repeat constructor; done. Qed.
Lemma mac_b_is_mac : is_mac mac_b.
Proof. split; [done|]. repeat constructor; done. Qed.

Lemma ex_dev_ready mac ip rx : is_mac mac -> dev_ready (ex_dev mac ip rx).
Proof. intros Hm. constructor; try done. intros d Hd. apply (lookup_replicate_1 32) in Hd as [-> _]. done. Qed.

Lemma net_a_can_send : can_send net_a ip_b (ex_dev mac_a ip_a no_rx) mac_b.
Proof.
  constructor; try done; [apply ex_dev_ready, mac_a_is_mac| |apply mac_b_is_mac].
  exists 0%nat, (ArpEntry ip_b mac_b 7 ARP_STATE_RESOLVED 0 []). done.
Qed.

Lemma net_a_ready : alloc_ready I686 nb_heap1 (alloc_size (8 + 5)).
Proof. refine (alloc_ready_fit I686 nb_h1 nb_heap_b _ _ _ _ nb_h1_wf _ _ nb_heap_b_wf _ _ _); by vm_compute. Qed.

(** The five bytes lie in the second block of A's heap. *)
Lemma net_a_data : in_block [(0x80400014, 52); (0x8040005C, 136)] 0x8040005C 5.
Proof. exists 0x8040005C, 136. split; [right; left|lia]. Qed.

(** The frame A sends, and B with the frame in its ring. *)
Definition frame_ab : list Z :=
  Eval vm_compute in udp_frame (ex_dev mac_a ip_a no_rx) mac_b 0 4000 ip_b 53 (read_bytes (n_mem net_a) 0x8040005C 5).
Definition net_b : net machine unit :=
  ex_net nb_heap1 (ex_dev mac_b ip_b (RxDesc (Z.of_nat (length frame_ab)) 3 frame_ab :: replicate 31 (RxDesc 0 0 []))) (ex_arp ip_a mac_a).

Lemma net_a_sends : (r ← udp_output I686 net_a 4000 ip_b 53 0x8040005C 5; nd ← n_devs r.2 !! 1; tx_frame (nd_priv nd) 0) = Some frame_ab.
Proof. vm_compute. reflexivity. Qed.

Lemma net_b_can_receive rx : can_receive (ex_net nb_heap1 (ex_dev mac_b ip_b rx) (ex_arp ip_a mac_a)) 1 (ex_dev mac_b ip_b rx) ip_a ip_b 4000 53 0x5000 ex_pcb.
Proof. constructor; try done. apply mac_b_is_mac. Qed.

Lemma net_b_frame : one_frame (nd_priv (ex_dev mac_b ip_b (RxDesc (Z.of_nat (length frame_ab)) 3 frame_ab :: replicate 31 (RxDesc 0 0 [])))) (frame_ab ++ []).
Proof.
  rewrite app_nil_r. constructor; try done.
  - eexists. split; [reflexivity|]. done.
  - intros d Hd. change (Z.to_nat _) with 1%nat in Hd. by injection Hd as <-.
Qed.

Lemma net_b_ready : alloc_ready I686 nb_heap1 (alloc_size (Z.of_nat (length (frame_ab ++ [])))).
Proof. refine (alloc_ready_fit I686 nb_h1 nb_heap_b _ _ _ _ nb_h1_wf _ _ nb_heap_b_wf _ _ _); by vm_compute. Qed.

(** Both heaps have room for the buffer. *)
Lemma some_memory (h : machine) size : is_Some (r ← netbuf_alloc I686 h size; r.1) -> ~ no_memory I686 h size.
Proof. intros [b Hb] (h' & E). rewrite E in Hb. discriminate Hb. Qed.

Lemma udp_end_to_end_witness :
  exists nA' nB', udp_output I686 net_a 4000 ip_b 53 0x8040005C 5 = Some (0, nA') /\
    e1000_receive I686 drop_tcp drop_callback [[]; []] net_b 1 = Some nB' /\
    delivered I686 net_b nB' 0x5000 ex_pcb ip_a 4000 (read_bytes (n_mem net_a) 0x8040005C 5 ++ []).
Proof.
  destruct (udp_end_to_end I686 drop_tcp drop_callback i686_limit net_a [(0x80400014, 52); (0x8040005C, 136)]
    (ex_dev mac_a ip_a no_rx) mac_b 4000 ip_b 53 0x8040005C 5 net_a_can_send ltac:(lia) ltac:(lia) ltac:(lia)
    ltac:(vm_compute; split; congruence) ltac:(vm_compute; split; congruence) nb_heap1_live net_a_ready net_a_data ltac:(lia))
    as (ret & nA' & E & [[_ Hno]|(-> & nd' & frame & Hnd & Hf & Hrecv)]).
  - exfalso. revert Hno. apply some_memory. vm_compute. by eexists.
  - assert (frame = frame_ab) as ->.
    { pose proof net_a_sends as Hs. rewrite E in Hs. cbn [mbind option_bind snd] in Hs. change (n_default net_a) with 1 in Hnd.
      rewrite Hnd in Hs. cbn [mbind option_bind] in Hs. change (tx_cur _) with 0 in Hf. congruence. }
    destruct (Hrecv net_b [(0x80400014, 52); (0x8040005C, 136)] 1 (ex_dev mac_b ip_b (RxDesc (Z.of_nat (length frame_ab)) 3 frame_ab :: replicate 31 (RxDesc 0 0 [])))
      0x5000 ex_pcb [] []) as (nB' & E' & [[_ Hno]|Hdel]);
      [apply net_b_can_receive|reflexivity|constructor|vm_compute; congruence|exact net_b_frame|exact nb_heap1_live|exact net_b_ready| |].
    + exfalso. revert Hno. apply some_memory. vm_compute. by eexists.
    + exists nA', nB'. split; [exact E|]. split; [exact E'|exact Hdel].
Defined.

Lemma udp_output_leaks_witness : exists ret n' L', udp_output I686 net_a 4000 ip_b 53 0x8040005C 5 = Some (ret, n') /\
  kh_live (n_heap n') L' /\
  ((ret = -1 /\ L' ≡ₚ [(0x80400014, 52); (0x8040005C, 136)] /\ no_memory I686 (n_heap net_a) (8 + 5)) \/
   (ret = 0 /\ exists b1 b2, L' ≡ₚ b1 :: b2 :: [(0x80400014, 52); (0x8040005C, 136)])).
Proof.
  exact (udp_output_leaks I686 i686_limit net_a [(0x80400014, 52); (0x8040005C, 136)] (ex_dev mac_a ip_a no_rx) mac_b 4000 ip_b 53
    0x8040005C 5 net_a_can_send ltac:(lia) ltac:(lia) ltac:(lia) nb_heap1_live net_a_ready net_a_data ltac:(lia)).
Defined.

Lemma big_ready : alloc_ready I686 nb_heap1 (alloc_size (8 + 2000)).
Proof. refine (alloc_ready_fit I686 nb_h1 nb_heap_b _ _ _ _ nb_h1_wf _ _ nb_heap_b_wf _ _ _); by vm_compute. Qed.

Lemma big_alloc : exists b h', netbuf_alloc I686 nb_heap1 (8 + 2000) = Some (Some b, h').
Proof.
  assert (is_Some (r ← netbuf_alloc I686 nb_heap1 (8 + 2000); r.1)) as Hs by (vm_compute; by eexists).
  destruct (netbuf_alloc I686 nb_heap1 (8 + 2000)) as [[[b|] h']|]; [by eexists _, _| |]; by destruct Hs.
Qed.

Lemma oversize_packets_fault_witness : udp_output I686 net_a 4000 ip_b 53 0x8040005C 2000 = None.
Proof.
  destruct big_alloc as (b & h' & E).
  refine (proj1 (oversize_packets_fault I686 i686_limit net_a _ nb_heap1_live) 4000 ip_b 53 0x8040005C 2000 b h'
    ltac:(lia) _ big_ready E).
  vm_compute. congruence.
Defined.

(** ** The receive loop *)

Lemma drop_tcp_shape n d b s t n' : drop_tcp n d b s t = Some n' -> n_shape n' = n_shape n.
Proof. intros E. by apply sent_shape, (shape_free _ b). Qed.
Lemma drop_callback_shape f n q b s t n' : drop_callback f n q b s t = Some n' -> n_shape n' = n_shape n.
Proof. intros E. by apply sent_shape, (shape_free _ b). Qed.

(** The device completes a second descriptor while the loop runs. *)
Definition busy_hw : list (list (nat * rx_desc)) := [] :: [(1%nat, RxDesc 60 3 (replicate 60 0))] :: replicate 32 [].

Lemma e1000_receive_terminates_witness :
  e1000_receive I686 drop_tcp drop_callback (busy_hw ++ [[]]) net_b 1 = e1000_receive I686 drop_tcp drop_callback busy_hw net_b 1.
Proof.
  refine (proj1 (e1000_receive_terminates I686 drop_tcp drop_callback drop_tcp_shape drop_callback_shape net_b 1 _ busy_hw [[]] _ _ _ _)).
  - reflexivity.
  - reflexivity.
  - vm_compute. split; congruence.
  - vm_compute. lia.
Defined.

(** ** Routes *)

(** A host route and a network route on top of each other. *)
Definition net_r : net machine unit :=
  (ip_route_add (ip_route_add net_a (IP_ADDR 10 1 0 0) (IP_ADDR 255 255 0 0) (IP_ADDR 10 0 0 9) 1 5).2
     (IP_ADDR 10 1 2 3) (IP_ADDR 255 255 255 255) 0 1 9).2.

Lemma route_table_refines_map_witness :
  let '(ra, na) := ip_route_add net_r (IP_ADDR 10 1 0 0) (IP_ADDR 255 255 0 0) 0 1 1 in
  ra = 0 /\ routes_of (route_table (n_ip na)) !! (IP_ADDR 10 1 0 0, IP_ADDR 255 255 0 0) = Some (0, 1, 1).
Proof.
  pose proof (route_table_refines_map net_r (IP_ADDR 10 1 0 0) (IP_ADDR 255 255 0 0) 0 1 1) as Hp.
  destruct (ip_route_add net_r (IP_ADDR 10 1 0 0) (IP_ADDR 255 255 0 0) 0 1 1) as [ra na].
  destruct (ip_route_del net_r (IP_ADDR 10 1 0 0) (IP_ADDR 255 255 0 0)) as [rd nd].
  destruct Hp as [[[Hr Hm]|(_ & _ & Hn & _)] _].
  - apply (bool_decide_unpack _). vm_compute. exact I.
  - split; [exact Hr|]. rewrite Hm. apply lookup_insert_eq.
  - exfalso. vm_compute in Hn. discriminate Hn.
Defined.

Lemma route_lookup_longest_prefix_witness :
  ip_route_lookup net_r (IP_ADDR 10 1 2 3) = Some (1, IP_ADDR 10 1 2 3) /\
  exists r, r ∈ route_table (n_ip net_r) /\ route_matches (IP_ADDR 10 1 2 3) r = true.
Proof.
  split; [vm_compute; reflexivity|].
  destruct (route_lookup_longest_prefix net_r (IP_ADDR 10 1 2 3)) as [(i & r & Hi & Hm & _)|[Hno _]].
  - vm_compute. repeat (constructor; [intros E; discriminate E || congruence|]). constructor.
  - exists r. split; [exact (list_elem_of_lookup_2 _ _ _ Hi)|exact Hm].
  - exfalso. pose proof (Hno (IpRoute (IP_ADDR 10 1 2 3) (IP_ADDR 255 255 255 255) 0 1 9 true)) as Hr.
    assert (route_matches (IP_ADDR 10 1 2 3) (IpRoute (IP_ADDR 10 1 2 3) (IP_ADDR 255 255 255 255) 0 1 9 true) = true) as Ht by (vm_compute; reflexivity).
    rewrite Hr in Ht; [discriminate Ht|]. apply (list_elem_of_lookup_2 _ 1). vm_compute. reflexivity.
Defined.

(** ** Control blocks *)

Lemma udp_find_pcb_best_witness : exists r, udp_find_pcb ex_udp ip_b 53 ip_a 4000 = Some r.
Proof.
  destruct (udp_find_pcb_best ex_udp ip_b 53 ip_a 4000) as (r & Hr & _).
  - intros q [->|Hq]%elem_of_cons; [split; [lia|by eexists]|by apply elem_of_nil in Hq].
  - exists r. exact Hr.
Defined.

(** The first ephemeral port is taken: the search goes on to the next. *)
Definition taken_udp : udp_state := UdpState [0x5000] {[0x5000 := UdpPcb 0 UDP_EPHEMERAL_PORT_MIN 0 0 [] 0 0 0]} UDP_EPHEMERAL_PORT_MIN.

Lemma udp_alloc_port_total_witness : exists u', udp_alloc_port taken_udp = Some (49153, u') /\
  next_ephemeral_port u' = 49154 /\ port_in_use taken_udp 49152 = true /\ port_in_use taken_udp 49153 = false.
Proof.
  destruct (udp_alloc_port_total taken_udp) as (port & u' & E & _ & _ & _ & Hp).
  - vm_compute. split; congruence.
  - assert (Some (port, next_ephemeral_port u') = Some (49153, 49154)) as [= -> Hn].
    { transitivity ('(x, u) ← udp_alloc_port taken_udp; Some (x, next_ephemeral_port u)); [by rewrite E|vm_compute; reflexivity]. }
    exists u'. split; [exact E|]. split; [exact Hn|]. split; [vm_compute; reflexivity|].
    destruct Hp as [[_ Hf]|[Hz _]]; [exact Hf|discriminate Hz].
Defined.

Lemma drop_callback_udp f n q b s t n' : drop_callback f n q b s t = Some n' -> rtc (udp_call I686) n n'.
Proof. intros E. apply rtc_once, call_elsewhere. by apply (shape_free _ b), sent_udp in E. Qed.

(** Two control blocks are made and bound to the same port at different
    addresses; a binding to that port at every address is refused. *)
Definition run_pcb (n : net machine unit) (ip : Z) : Z * net machine unit :=
  default (0, n) ('(pcb, n) ← udp_pcb_new I686 n; '(_, n) ← udp_bind n pcb ip 53; Some (pcb, n)).
Definition first_pcb : Z * net machine unit := Eval vm_compute in run_pcb (udp_init net_a) ip_a.
Definition second_pcb : Z * net machine unit := Eval vm_compute in run_pcb first_pcb.2 ip_b.

Lemma run_pcb_steps (n n' : net machine unit) ip pcb :
  ('(pcb, n) ← udp_pcb_new I686 n; '(_, n) ← udp_bind n pcb ip 53; Some (pcb, n)) = Some (pcb, n') ->
  rtc (udp_step I686 drop_callback) n n'.
Proof.
  intros E. destruct (udp_pcb_new I686 n) as [[q n1]|] eqn:E1; [|done]. cbn [mbind option_bind] in E.
  destruct (udp_bind n1 q ip 53) as [[x n2]|] eqn:E2; [|done]. cbn [mbind option_bind] in E. injection E as _ <-.
  eapply rtc_l; [apply step_call; exact (call_new _ _ _ _ E1)|]. apply rtc_once, step_call. exact (call_bind _ _ _ _ _ _ _ E2).
Qed.

Lemma udp_ports_exclusive_witness : udp_exclusive (n_udp second_pcb.2) /\
  udp_pcbs (n_udp second_pcb.2) = [second_pcb.1; first_pcb.1] /\
  (fun q => p ← udp_objs (n_udp second_pcb.2) !! q; Some (up_local_ip p, up_local_port p)) <$> [second_pcb.1; first_pcb.1]
    = [Some (ip_b, 53); Some (ip_a, 53)].
Proof.
  destruct (udp_ports_exclusive I686 drop_callback drop_callback_udp net_a second_pcb.2) as (He & _ & _).
  - transitivity first_pcb.2; [apply (run_pcb_steps _ _ ip_a first_pcb.1)|apply (run_pcb_steps _ _ ip_b second_pcb.1)]; vm_compute; reflexivity.
  - split; [exact He|]. split; vm_compute; reflexivity.
Defined.

(** ** Address resolution *)

Definition resolve_state : net machine unit := Eval vm_compute in default net_a (snd <$> arp_resolve I686 (arp_init net_a) 1 ip_b).
Definition update_state : net machine unit := Eval vm_compute in default net_a (arp_cache_update I686 resolve_state ip_b mac_b).

Lemma resolve_state_eq : arp_resolve I686 (arp_init net_a) 1 ip_b = Some (-1, [], resolve_state).
Proof. vm_compute. reflexivity. Qed.
Lemma update_state_eq : arp_cache_update I686 resolve_state ip_b mac_b = Some update_state.
Proof. vm_compute. reflexivity. Qed.

Lemma resolve_steps : rtc (arp_step I686) (arp_init net_a) resolve_state.
Proof. eapply rtc_l; [exact (arp_step_resolve _ _ _ _ _ _ _ resolve_state_eq)|]. apply rtc_refl. Qed.

Lemma arp_cache_unique_witness : arp_unique (n_arp update_state).
Proof.
  apply (arp_cache_unique I686 net_a). eapply rtc_r; [exact resolve_steps|exact (arp_step_update _ _ _ _ _ update_state_eq)].
Defined.

Lemma resolve_unique : arp_unique (n_arp resolve_state).
Proof. apply (arp_resolve_unique I686 _ _ _ _ _ _ resolve_state_eq). intros i j e1 e2 He1 _ Hl. apply lookup_replicate in He1 as [-> _]. by destruct Hl. Qed.

Lemma arp_update_lookup_witness : arp_cache_lookup update_state ip_b = Some mac_b.
Proof.
  refine (proj1 (arp_update_lookup I686 resolve_state ip_b mac_b update_state resolve_unique _ _ update_state_eq)).
  - vm_compute. reflexivity.
  - apply Exists_cons_hd. vm_compute. reflexivity.
Defined.

(** ** Typing *)

Lemma free_buf_call (n : net machine unit) b n' : free_buf n b = Some n' -> rtc (net_call I686) n n'.
Proof. unfold free_buf. intros E. run E. apply rtc_once, net_heap. Qed.
Lemma drop_tcp_calls n d b s t n' : drop_tcp n d b s t = Some n' -> rtc (net_call I686) n n'.
Proof. apply free_buf_call. Qed.
Lemma drop_callback_calls f n q b s t n' : drop_callback f n q b s t = Some n' -> rtc (net_call I686) n n'.
Proof. apply free_buf_call. Qed.

(** The machine B before the initialisation; then a control block is made and
    bound, and the receive loop finds A's frame, which the device has just
    written. *)
Definition net_c : net machine unit := set_udp (ex_net nb_heap1 (ex_dev mac_b ip_b no_rx) (ex_arp ip_a mac_a)) (UdpState [] ∅ 0).
Definition hw_c : list (list (nat * rx_desc)) := [[(0%nat, RxDesc (Z.of_nat (length frame_ab)) 3 frame_ab)]; []].
Definition new_c : Z * net machine unit := Eval vm_compute in default (0, net_c) (udp_pcb_new I686 (net_init net_c)).
Definition bound_c : net machine unit := Eval vm_compute in default net_c (snd <$> udp_bind new_c.2 new_c.1 ip_b 53).
Definition recv_c : net machine unit := Eval vm_compute in default net_c (e1000_receive I686 drop_tcp drop_callback hw_c bound_c 1).

Lemma new_c_eq : udp_pcb_new I686 (net_init net_c) = Some (new_c.1, new_c.2).
Proof. vm_compute. reflexivity. Qed.
Lemma bound_c_eq : udp_bind new_c.2 new_c.1 ip_b 53 = Some (0, bound_c).
Proof. vm_compute. reflexivity. Qed.
Lemma recv_c_eq : e1000_receive I686 drop_tcp drop_callback hw_c bound_c 1 = Some recv_c.
Proof. vm_compute. reflexivity. Qed.

Lemma ex_dev_typed mac ip : is_mac mac -> is_u32 ip -> dev_typed (ex_dev mac ip no_rx).
Proof.
  intros Hm Hi. constructor; try done; constructor; try done; apply Forall_replicate; done.
Qed.

Lemma net_stack_typed_witness : net_typed recv_c /\
  (p ← udp_objs (n_udp recv_c) !! new_c.1; Some (up_recv_queue_len p)) = Some 1.
Proof.
  split; [|vm_compute; reflexivity].
  apply (net_stack_typed I686 drop_tcp drop_callback drop_tcp_calls drop_callback_calls net_c).
  - apply map_Forall_singleton, ex_dev_typed; [apply mac_b_is_mac|vm_compute; split; congruence].
  - by constructor.
  - reflexivity.
  - eapply rtc_l; [apply net_called; exact (net_udp_new _ _ _ _ new_c_eq)|].
    eapply rtc_l; [apply net_called; refine (net_udp_bind _ _ _ _ _ _ _ _ _ bound_c_eq); vm_compute; split; congruence|].
    apply rtc_once. refine (net_receive _ _ _ hw_c _ _ _ _ recv_c_eq).
    repeat constructor; vm_compute; congruence.
Defined.

End concrete.

(** ** A fragment on the i686 boot heap

    The last part of a packet of two arrives first: the reassembly entry is
    taken and waits for the other part. *)

Section concrete.
#[local] Existing Instance CountingPages.

#[local] Abbreviation machine := (arch_heap I686 Z).

Definition fr_parts : list (list Z) := [[1; 2; 3; 4; 5; 6; 7; 8]; [9; 8; 7]].

(** The header and the three bytes of the second part, inside the buffer
    of [nb_heap1]. *)
Definition fr_ip : Z := 0x8040005C + 100.
Definition fr_bytes : list Z :=
  [0x45; 0] ++ be16 23 ++ be16 7 ++ be16 1 ++ [64; 17; 0; 0] ++ le32 ip_a ++ le32 ip_b ++ [9; 8; 7].
Definition fr_h0 : heap Z := Eval vm_compute in set_hmem nb_h1 (write_bytes (hmem nb_h1) fr_ip fr_bytes).
Definition fr_net : net machine unit := ex_net (ArchHeap fr_h0) (ex_dev mac_b ip_b no_rx) (ex_arp ip_a mac_a).

(** The heap after the first request, and at the end. *)
Definition fr_h1 : heap Z := Eval vm_compute in default fr_h0 (snd <$> kmalloc I686 fr_h0 (sizeof_ip_fragment I686)).
Definition fr_end (n : net machine unit) : option (net machine unit) :=
  '(i, n0) ← ip_reass_find n ip_a ip_b 7 17;
  i ← i;
  '(_, n1) ← ip_reass_add_fragment I686 n0 i 8 (fr_ip + 20) 3 false;
  free_buf n1 nb_buf1.
Definition fr_h2 : heap Z := Eval vm_compute in default fr_h0 (n ← fr_end fr_net; Some (the_heap_of (n_heap n))).
Definition fr_h3 : heap Z := Eval vm_compute in default fr_h2 (snd <$> kmalloc I686 fr_h2 (sizeof_netbuf I686)).

Lemma fr_h0_wf : wf I686 fr_h0 [(52, false); (136, false); (3848, true)].
Proof. split; try (vm_compute; done). repeat constructor; simpl; lia. Qed.

Lemma fr_h1_wf : wf I686 fr_h1 [(52, false); (136, false); (12, false); (3816, true)].
Proof. split; try (vm_compute; done). repeat constructor; simpl; lia. Qed.
Lemma fr_h2_wf : wf I686 fr_h2 [(208, true); (12, false); (4, false); (3792, true)].
Proof. split; try (vm_compute; done). repeat constructor; simpl; lia. Qed.
Lemma fr_h3_wf : wf I686 fr_h3 [(52, false); (136, true); (12, false); (4, false); (3792, true)].
Proof. split; try (vm_compute; done). repeat constructor; simpl; lia. Qed.

Lemma fr_live : kh_live (ArchHeap (a := I686) fr_h0) [(0x80400014, 52); (0x8040005C, 136)].
Proof. exists [(52, false); (136, false); (3848, true)]. split; [exact fr_h0_wf|]. split; by vm_compute. Qed.

Lemma fr_fragment_ready : fragment_ready I686 (ArchHeap (a := I686) fr_h0) 3.
Proof.
  split.
  - apply (ready_fit I686 fr_h0 _ _ fr_h0_wf); by vm_compute.
  - intros p h' ->%kh_malloc_inv. assert (default fr_h0 (snd <$> kmalloc I686 fr_h0 (sizeof_ip_fragment I686)) = fr_h1) as -> by (vm_compute; reflexivity).
    apply (ready_fit I686 fr_h1 _ _ fr_h1_wf); by vm_compute.
Qed.

Lemma fr_end_eq : (n_heap <$> fr_end fr_net) = Some (ArchHeap fr_h2).
Proof. vm_compute. reflexivity. Qed.

Lemma fr_packet_ready : packet_ready I686 fr_parts ip_a ip_b 7 17 fr_net 1 nb_buf1 fr_ip.
Proof.
  intros i n0 ret n1 n2 E1 E2 E3. assert (fr_end fr_net = Some n2) as E.
  { unfold fr_end. rewrite E1. cbn [mbind option_bind].
    assert (ip_header_len (n_mem fr_net) fr_ip = 20) as Eh by (vm_compute; reflexivity). rewrite Eh in E2.
    change (part_off fr_parts 1) with 8 in E2. change (nth_len fr_parts 1) with 3 in E2. change (more fr_parts 1) with false in E2.
    rewrite E2. exact E3. }
  pose proof fr_end_eq as Ef. rewrite E in Ef. injection Ef as Ef. rewrite Ef.
  refine (alloc_ready_fit I686 fr_h2 fr_h3 _ _ _ _ fr_h2_wf _ _ fr_h3_wf _ _ _); by vm_compute.
Qed.

Lemma fr_carries : carries fr_parts ip_a ip_b 7 17 (n_mem fr_net) 1 nb_buf1 fr_ip 136.
Proof. constructor; try (vm_compute; done). Qed.

Lemma fr_slot : slot fr_parts ip_a ip_b 7 17 fr_net 0 [(nb_head nb_buf1, 136); (nb_self nb_buf1, 52)] ∅.
Proof.
  right. split; [done|]. split; [done|]. split; [by eexists|]. exists [(0x80400014, 52); (0x8040005C, 136)].
  split; [exact fr_live|]. vm_compute. apply Permutation_swap.
Qed.

(** The heap has room for the copy of the fragment. *)
Lemma fr_memory : ~ fragment_no_memory I686 (n_heap fr_net) 3.
Proof.
  intros (p & h1 & E & Hp).
  assert (('(p, h) ← kh_malloc (n_heap fr_net) (sizeof_ip_fragment I686); '(q, _) ← kh_malloc h 3; Some ((p =? 0) || (q =? 0))) = Some false) as Hc
    by (vm_compute; reflexivity).
  rewrite E in Hc. cbn [mbind option_bind] in Hc. destruct Hp as [->|(h2 & E2)]; [destruct (kh_malloc h1 3) as [[q h2]|]; done|].
  rewrite E2 in Hc. cbn [mbind option_bind] in Hc. rewrite orb_true_r in Hc. done.
Qed.

Lemma ip_reassemble_any_order_witness : exists n', ip_reassemble I686 fr_net 1 nb_buf1 fr_ip = Some (None, n') /\
    slot fr_parts ip_a ip_b 7 17 n' 0 [] ({[1%nat]} ∪ ∅).
Proof.
  destruct (ip_reassemble_any_order I686 fr_parts ltac:(repeat constructor; congruence) ltac:(vm_compute; congruence)
    (H := machine) i686_limit ltac:(vm_compute; lia) ip_a ip_b 7 17 fr_net 0 [] ∅ 1 nb_buf1 fr_ip 52 136 1)
    as (res & n' & E & _ & _ & Hres).
  - vm_compute. lia.
  - set_solver.
  - exact fr_slot.
  - exact fr_carries.
  - exact fr_fragment_ready.
  - exact fr_packet_ready.
  - destruct res as [packet|].
    + exfalso. destruct Hres as (Hc & _). specialize (Hc 0%nat ltac:(vm_compute; lia)).
      apply elem_of_union in Hc as [Hc|Hc]; [apply elem_of_singleton in Hc; discriminate Hc|exact (not_elem_of_empty _ Hc)].
    + exists n'. split; [exact E|]. destruct Hres as [[Hs _]|[_ Hno]]; [exact Hs|by destruct (fr_memory Hno)].
Defined.

End concrete.
