(* ===== verification/Blockdev.v ===== *)
(** * Block devices and partitions

    Models src/fs/blockdev.c and src/fs/partition.c: the registry of devices
    with its reference counts, bounded reads and writes, partitions as devices
    on top of other devices, and the tables of an MBR and of a GPT.

    A device is driven by a driver or is a partition; the sources set the
    operation pointers and the private data together, and [bd_backend] stands
    for both.  What a driver does is the class [BlockDriver].  A read returns
    the bytes that were stored through [buffer], a write takes the bytes of
    its buffer; every caller passes an array or an allocation it has tested.
    The sections under the registry mutex and the lock of the counts are one
    step. *)

From S2P Require Import Prelude Mem HeapInterface Checksum NetBytes.

Definition BLOCKDEV_MAX_DEVICES : Z := 32.
Definition MAX_PARTITIONS : Z := 4.
Definition UINT32_MAX : Z := 0xFFFFFFFF.

(** ** Data *)

Inductive backend := BdNone | BdDriver (i : nat) | BdPartition (data : Z).
#[export] Instance backend_eq_dec : EqDecision backend.
Proof. solve_decision. Defined.

Record blockdev := Blockdev {
  bd_name : list Z;
  bd_backend : backend;
  bd_block_size : Z;
  bd_total_sectors : Z;
  bd_ref_count : Z;
  bd_registered : bool
}.

Record partition := Partition {
  pt_index : Z;
  pt_start_lba : Z;
  pt_sector_count : Z;
  pt_type : Z;
  pt_active : bool;
  pt_is_gpt : bool;
  pt_type_guid : list Z;
  pt_parent_dev : Z
}.

(** Sizes of [blockdev_t], [partition_t] and [partition_blockdev_data_t]. *)
Definition sizeof_blockdev (a : arch) : Z := match a with I686 => 100 | X86_64 | ARM64 => 120 end.
Definition sizeof_partition (a : arch) : Z := match a with I686 => 44 | X86_64 | ARM64 => 56 end.
Definition sizeof_gpt_partition_entry : Z := 128.

(** What a driver does with a request: the returned value, the bytes it
    stored, its new state. *)
Class BlockDriver (D : Type) := {
  drv_read : D -> nat -> Z -> Z -> option (Z * list Z * D);
  drv_write : D -> nat -> Z -> Z -> list Z -> option (Z * D)
}.

(** The objects by address, the private data of partition devices being the
    address of their partition; the registry; the heap; the drivers. *)
Record blk (H D : Type) := Blk {
  b_devs : gmap Z blockdev;
  b_data : gmap Z Z;
  b_parts : gmap Z partition;
  b_registry : list Z;
  b_heap : H;
  b_driver : D
}.
Arguments Blk {H D}.
Arguments b_devs {H D}.
Arguments b_data {H D}.
Arguments b_parts {H D}.
Arguments b_registry {H D}.
Arguments b_heap {H D}.
Arguments b_driver {H D}.

Definition rd64 (m : mem) (p : Z) : Z := rd32 m p + 2 ^ 32 * rd32 m (p + 4).

(** The digits [snprintf] writes for a non-negative [%d]. *)
Fixpoint decimal (fuel : nat) (n : Z) : list Z :=
  match fuel with
  | O => []
  | S fuel => (if 10 <=? n then decimal fuel (n / 10) else []) ++ [48 + n mod 10]
  end.

(** The format is partition%d; the index has at most three digits. *)
Definition partition_name (index : Z) : list Z :=
  [112; 97; 114; 116; 105; 116; 105; 111; 110] ++ decimal 3 index.

Section blockdev.
Context (a : arch) {H D : Type} `{!KHeap H} `{!BlockDriver D}.
Implicit Types s : blk H D.

Definition set_devs s (x : gmap Z blockdev) : blk H D := Blk x (b_data s) (b_parts s) (b_registry s) (b_heap s) (b_driver s).
Definition set_bregistry s (l : list Z) : blk H D := Blk (b_devs s) (b_data s) (b_parts s) l (b_heap s) (b_driver s).
Definition set_bheap s (h : H) : blk H D := Blk (b_devs s) (b_data s) (b_parts s) (b_registry s) h (b_driver s).
Definition set_driver s (d : D) : blk H D := Blk (b_devs s) (b_data s) (b_parts s) (b_registry s) (b_heap s) d.
Definition put_dev s (p : Z) (d : blockdev) : blk H D := set_devs s (<[p := d]> (b_devs s)).

Definition set_ref (d : blockdev) (r : Z) : blockdev :=
  Blockdev (bd_name d) (bd_backend d) (bd_block_size d) (bd_total_sectors d) r (bd_registered d).
Definition set_registered (d : blockdev) (b : bool) : blockdev :=
  Blockdev (bd_name d) (bd_backend d) (bd_block_size d) (bd_total_sectors d) (bd_ref_count d) b.

(** ** Requests *)

(** The read and write functions of a partition device, over those of its
    parent. *)
Definition partition_blockdev_read (read : blk H D -> Z -> Z -> Z -> option (Z * list Z * blk H D))
    s (data sector count : Z) : option (Z * list Z * blk H D) :=
  q ← b_data s !! data;
  part ← b_parts s !! q;
  let request_last := u64 (sector + count) in
  if pt_sector_count part <? request_last then Some (-1, [], s)
  else
    let parent_sector := u64 (pt_start_lba part + sector) in
    if UINT32_MAX <? parent_sector then Some (-1, [], s)
    else read s (pt_parent_dev part) (u32 parent_sector) count.

Definition partition_blockdev_write (write : blk H D -> Z -> Z -> Z -> list Z -> option (Z * blk H D))
    s (data sector count : Z) (buffer : list Z) : option (Z * blk H D) :=
  q ← b_data s !! data;
  part ← b_parts s !! q;
  let request_last := u64 (sector + count) in
  if pt_sector_count part <? request_last then Some (-1, s)
  else
    let parent_sector := u64 (pt_start_lba part + sector) in
    if UINT32_MAX <? parent_sector then Some (-1, s)
    else write s (pt_parent_dev part) (u32 parent_sector) count buffer.

(** [fuel] bounds how deep partitions are nested. *)
Fixpoint blockdev_read (fuel : nat) s (dev sector count : Z) : option (Z * list Z * blk H D) :=
  match fuel with
  | O => None
  | S fuel =>
      if dev =? 0 then Some (-1, [], s)
      else
        d ← b_devs s !! dev;
        if bool_decide (bd_backend d = BdNone) then Some (-1, [], s)
        else if bd_total_sectors d <? u32 (sector + count) then Some (-1, [], s)
        else
          match bd_backend d with
          | BdNone => Some (-1, [], s)
          | BdDriver i => '(r, l, x) ← drv_read (b_driver s) i sector count; Some (r, l, set_driver s x)
          | BdPartition data => partition_blockdev_read (blockdev_read fuel) s data sector count
          end
  end.

Fixpoint blockdev_write (fuel : nat) s (dev sector count : Z) (buffer : list Z) : option (Z * blk H D) :=
  match fuel with
  | O => None
  | S fuel =>
      if dev =? 0 then Some (-1, s)
      else
        d ← b_devs s !! dev;
        if bool_decide (bd_backend d = BdNone) then Some (-1, s)
        else if bd_total_sectors d <? u32 (sector + count) then Some (-1, s)
        else
          match bd_backend d with
          | BdNone => Some (-1, s)
          | BdDriver i => '(r, x) ← drv_write (b_driver s) i sector count buffer; Some (r, set_driver s x)
          | BdPartition data => partition_blockdev_write (blockdev_write fuel) s data sector count buffer
          end
  end.

(** The drivers of the sources leave [get_size] and [get_block_size] empty. *)
Definition partition_blockdev_get_size s (data : Z) : option Z :=
  q ← b_data s !! data;
  part ← b_parts s !! q;
  Some (if UINT32_MAX <? pt_sector_count part then UINT32_MAX else u32 (pt_sector_count part)).

Definition blockdev_get_size s (dev : Z) : option Z :=
  if dev =? 0 then Some 0
  else
    d ← b_devs s !! dev;
    match bd_backend d with
    | BdPartition data => partition_blockdev_get_size s data
    | _ => Some (bd_total_sectors d)
    end.

Definition partition_blockdev_get_block_size (get : Z -> option Z) s (data : Z) : option Z :=
  q ← b_data s !! data;
  part ← b_parts s !! q;
  get (pt_parent_dev part).

Fixpoint blockdev_get_block_size (fuel : nat) s (dev : Z) : option Z :=
  match fuel with
  | O => None
  | S fuel =>
      if dev =? 0 then Some 0
      else
        d ← b_devs s !! dev;
        match bd_backend d with
        | BdPartition data => partition_blockdev_get_block_size (blockdev_get_block_size fuel s) s data
        | _ => Some (bd_block_size d)
        end
  end.

(** ** The registry *)

(** The first device of the name, 0 for none; [None] for an address without
    a device. *)
Fixpoint find_by_name (devs : gmap Z blockdev) (l : list Z) (name : list Z) : option Z :=
  match l with
  | [] => Some 0
  | p :: l => d ← devs !! p; if bool_decide (bd_name d = name) then Some p else find_by_name devs l name
  end.

Definition blockdev_find_by_name_internal s (name : list Z) : option Z := find_by_name (b_devs s) (b_registry s) name.

Definition blockdev_register s (dev : Z) : option (Z * blk H D) :=
  if dev =? 0 then Some (-1, s)
  else
    d ← b_devs s !! dev;
    if bd_registered d then Some (-1, s)
    else if BLOCKDEV_MAX_DEVICES <=? Z.of_nat (length (b_registry s)) then Some (-1, s)
    else if bool_decide (bd_name d = []) then Some (-1, s)
    else
      other ← blockdev_find_by_name_internal s (bd_name d);
      if negb (other =? 0) then Some (-1, s)
      else Some (0, set_bregistry (put_dev s dev (set_registered (set_ref d 1) true)) (b_registry s ++ [dev])).

Definition blockdev_retain s (dev : Z) : option (Z * blk H D) :=
  if dev =? 0 then Some (0, s)
  else d ← b_devs s !! dev; Some (dev, put_dev s dev (set_ref d (u32 (bd_ref_count d + 1)))).

Definition blockdev_release s (dev : Z) : option (blk H D) :=
  if dev =? 0 then Some s
  else
    d ← b_devs s !! dev;
    if bd_ref_count d =? 0 then Some s
    else Some (put_dev s dev (set_ref d (bd_ref_count d - 1))).

(** The devices after the removed one move up. *)
Fixpoint remove_first (dev : Z) (l : list Z) : list Z :=
  match l with
  | [] => []
  | p :: l => if p =? dev then l else p :: remove_first dev l
  end.

Definition blockdev_unregister s (dev : Z) : option (blk H D) :=
  if dev =? 0 then Some s
  else
    d ← b_devs s !! dev;
    if negb (bd_registered d) then Some s
    else if negb (existsb (Z.eqb dev) (b_registry s)) then Some (put_dev s dev (set_registered d false))
    else
      let s := set_bregistry s (remove_first dev (b_registry s)) in
      let s := put_dev s dev (set_registered d false) in
      blockdev_release s dev.

Definition blockdev_get_by_name s (name : list Z) : option (Z * blk H D) :=
  dev ← blockdev_find_by_name_internal s name;
  if dev =? 0 then Some (0, s) else blockdev_retain s dev.

(** ** Partition tables *)

(** A parsed table: the returned value, and the partitions stored with their
    number in [*count]; [None] when [*count] is not written. *)
#[local] Abbreviation parsed := (Z * option (list partition))%type.

Definition MBR_PARTITIONS : Z := 446.

(** Entry [i] of a boot sector at address 0. *)
Definition mbr_entry (m : mem) (dev i : Z) : partition :=
  let e := MBR_PARTITIONS + 16 * i in
  Partition i (rd32 m (e + 8)) (rd32 m (e + 12)) (rd m (e + 4)) (rd m e =? 0x80) false (replicate 16 0) dev.

Definition gpt_signature : list Z := [69; 70; 73; 32; 80; 65; 82; 84].

(** The loop over the entries from [i] on; [n] are left. *)
Fixpoint gpt_entries (n : nat) (m : mem) (entry_buf size dev i : Z) (found : list partition) : list partition :=
  match n with
  | O => found
  | S n =>
      if negb (Z.of_nat (length found) <? MAX_PARTITIONS) then found
      else
        let e := uptr a (entry_buf + uptr a (i * size)) in
        let type_guid := read_bytes m e 16 in
        let first_lba := rd64 m (e + 32) in
        let last_lba := rd64 m (e + 40) in
        let sectors := u64 (last_lba - first_lba + 1) in
        let next := gpt_entries n m entry_buf size dev (i + 1) in
        if bool_decide (type_guid = replicate 16 0) then next found
        else if (first_lba =? 0) && (last_lba =? 0) then next found
        else if last_lba <? first_lba then next found
        else if sectors =? 0 then next found
        else next (found ++ [Partition i first_lba sectors 0 false true type_guid dev])
  end.

Definition bfree s (p : Z) : option (blk H D) := h ← kh_free (b_heap s) p; Some (set_bheap s h).
Definition fail_parse s (buf : Z) : option (parsed * blk H D) := s ← bfree s buf; Some ((-1, None), s).
Definition store s (p : Z) (l : list Z) : blk H D := set_bheap s (kh_set_mem (b_heap s) (write_bytes (kh_mem (b_heap s)) p l)).

Definition partition_parse_gpt (fuel : nat) s (dev : Z) : option (parsed * blk H D) :=
  if dev =? 0 then Some ((-1, None), s)
  else
    block_size ← blockdev_get_block_size fuel s dev;
    let block_size := if block_size =? 0 then 512 else block_size in
    '(header_buf, h) ← kh_malloc (b_heap s) block_size;
    let s := set_bheap s h in
    if header_buf =? 0 then Some ((-1, None), s)
    else
      '(r, l, s) ← blockdev_read fuel s dev 1 1;
      let s := store s header_buf l in
      if negb (r =? 0) then fail_parse s header_buf
      else
        let m := kh_mem (b_heap s) in
        let num_partition_entries := rd32 m (header_buf + 80) in
        let size := rd32 m (header_buf + 84) in
        if negb (bool_decide (read_bytes m header_buf 8 = gpt_signature)) then fail_parse s header_buf
        else if (size <? sizeof_gpt_partition_entry) || (num_partition_entries =? 0) then fail_parse s header_buf
        else
          let entries_to_copy := Z.min num_partition_entries MAX_PARTITIONS in
          let entries_lba := rd64 m (header_buf + 72) in
          if UINT32_MAX <? entries_lba then fail_parse s header_buf
          else
            let bytes_needed := u64 (entries_to_copy * size) in
            let sectors_to_read := u32 (u64 (bytes_needed + block_size - 1) / block_size) in
            let sectors_to_read := if sectors_to_read =? 0 then 1 else sectors_to_read in
            '(entry_buf, h) ← kh_malloc (b_heap s) (uptr a (sectors_to_read * block_size));
            let s := set_bheap s h in
            if entry_buf =? 0 then fail_parse s header_buf
            else
              '(r, l, s) ← blockdev_read fuel s dev (u32 entries_lba) sectors_to_read;
              let s := store s entry_buf l in
              if negb (r =? 0) then s ← bfree s entry_buf; fail_parse s header_buf
              else
                let m := kh_mem (b_heap s) in
                let size := rd32 m (header_buf + 84) in
                let found := gpt_entries (Z.to_nat entries_to_copy) m entry_buf size dev 0 [] in
                s ← bfree s entry_buf;
                s ← bfree s header_buf;
                Some ((if (length found =? 0)%nat then -1 else 0, Some found), s).

(** The boot sector is read into a structure of 512 bytes on the stack: a
    device that stores more overruns it, one that stores less leaves it
    uninitialised. *)
Definition partition_parse_mbr (fuel : nat) s (dev : Z) : option (parsed * blk H D) :=
  if dev =? 0 then Some ((-1, None), s)
  else
    '(r, l, s) ← blockdev_read fuel s dev 0 1;
    if negb (r =? 0) then Some ((-1, None), s)
    else if negb (Z.of_nat (length l) =? 512) then None
    else
      let mbr := write_bytes ∅ 0 l in
      let entries := mbr_entry mbr dev <$> [0; 1; 2; 3] in
      if negb (rd16 mbr 510 =? 0xAA55) then Some ((-1, None), s)
      else if existsb (fun p => pt_type p =? 0xEE) entries then partition_parse_gpt fuel s dev
      else Some ((0, Some (List.filter (fun p => negb (pt_type p =? 0)) entries)), s).

Definition partition_parse (fuel : nat) s (dev : Z) : option (parsed * blk H D) := partition_parse_mbr fuel s dev.

(** ** Partition devices *)

Definition blockdev_zero : blockdev := Blockdev [] BdNone 0 0 0 false.

Definition put_data s (p q : Z) : blk H D := Blk (b_devs s) (<[p := q]> (b_data s)) (b_parts s) (b_registry s) (b_heap s) (b_driver s).
Definition put_part s (q : Z) (part : partition) : blk H D := Blk (b_devs s) (b_data s) (<[q := part]> (b_parts s)) (b_registry s) (b_heap s) (b_driver s).

Definition free_dev s (p : Z) : option (blk H D) := s ← bfree s p; Some (set_devs s (delete p (b_devs s))).
Definition free_data s (p : Z) : option (blk H D) :=
  s ← bfree s p; Some (Blk (b_devs s) (delete p (b_data s)) (b_parts s) (b_registry s) (b_heap s) (b_driver s)).
Definition free_part s (p : Z) : option (blk H D) :=
  s ← bfree s p; Some (Blk (b_devs s) (b_data s) (delete p (b_parts s)) (b_registry s) (b_heap s) (b_driver s)).

(** The address of the new device, 0 for none. *)
Definition partition_create_blockdev (fuel : nat) s (part : partition) : option (Z * blk H D) :=
  if pt_parent_dev part =? 0 then Some (0, s)
  else if (UINT32_MAX <? pt_start_lba part) || (UINT32_MAX <? pt_sector_count part) then Some (0, s)
  else
    '(dev, h) ← kh_malloc (b_heap s) (sizeof_blockdev a);
    let s := set_bheap s h in
    if dev =? 0 then Some (0, s)
    else
      let s := put_dev s dev blockdev_zero in
      '(data, h) ← kh_malloc (b_heap s) (ptr_size a);
      let s := set_bheap s h in
      if data =? 0 then s ← free_dev s dev; Some (0, s)
      else
        '(part_copy, h) ← kh_malloc (b_heap s) (sizeof_partition a);
        let s := set_bheap s h in
        if part_copy =? 0 then s ← bfree s data; s ← free_dev s dev; Some (0, s)
        else
          let s := put_data (put_part s part_copy part) data part_copy in
          block_size ← blockdev_get_block_size fuel s (pt_parent_dev part);
          let s := put_dev s dev (Blockdev (partition_name (pt_index part)) (BdPartition data) block_size
                                    (u32 (pt_sector_count part)) 0 false) in
          '(r, s) ← blockdev_register s dev;
          if negb (r =? 0) then s ← free_data s data; s ← free_dev s dev; Some (0, s)
          else '(_, s) ← blockdev_retain s dev; Some (dev, s).

Definition partition_destroy_blockdev s (dev : Z) : option (blk H D) :=
  if dev =? 0 then Some s
  else
    d ← b_devs s !! dev;
    s ← blockdev_unregister s dev;
    d' ← b_devs s !! dev;
    if bd_ref_count d' =? 0 then
      match bd_backend d with
      | BdPartition data =>
          q ← b_data s !! data;
          s ← free_part s q;
          s ← free_data s data;
          free_dev s dev
      | _ => None
      end
    else Some s.

End blockdev.
