(* ===== verification/Ata.v ===== *)
(** * The ATA disk driver

    Models src/drivers/x86/ata.c: programmed I/O with the task-file registers
    of two channels.  The processor's port instructions are the class [Ports];
    what a disk does with them is [AtaLaws] in [AtaProps].  The channel mutex
    makes a request one step.  A write whose buffer ends too early reads
    memory outside it: [None]. *)

From S2P Require Import Prelude Mem HeapInterface Checksum NetBytes Blockdev.

Definition ATA_REG_DATA : Z := 0.
Definition ATA_REG_FEATURES : Z := 1.
Definition ATA_REG_SECCOUNT0 : Z := 2.
Definition ATA_REG_LBA0 : Z := 3.
Definition ATA_REG_LBA1 : Z := 4.
Definition ATA_REG_LBA2 : Z := 5.
Definition ATA_REG_HDDEVSEL : Z := 6.
Definition ATA_REG_COMMAND : Z := 7.
Definition ATA_REG_STATUS : Z := 7.

Definition ATA_SR_ERR : Z := 0x01.
Definition ATA_SR_DRQ : Z := 0x08.
Definition ATA_SR_DF : Z := 0x20.
Definition ATA_SR_BSY : Z := 0x80.

Definition ATA_CMD_READ_SECTORS : Z := 0x20.
Definition ATA_CMD_WRITE_SECTORS : Z := 0x30.
Definition ATA_CMD_IDENTIFY : Z := 0xEC.

Definition ATA_SECTOR_SIZE : Z := 512.

Record ata_device := AtaDevice {
  ad_io_base : Z;
  ad_ctrl_base : Z;
  ad_drive : Z;
  ad_present : bool;
  ad_total_sectors : Z;
  ad_channel : Z
}.

Definition ata_devices : list ata_device :=
  [AtaDevice 0x1F0 0x3F6 0 false 0 0; AtaDevice 0x1F0 0x3F6 1 false 0 0;
   AtaDevice 0x170 0x376 0 false 0 1; AtaDevice 0x170 0x376 1 false 0 1].

(** The port instructions of include/kernel/io.h. *)
Class Ports (P : Type) := {
  outb : P -> Z -> Z -> P;
  outw : P -> Z -> Z -> P;
  inb : P -> Z -> Z * P;
  inw : P -> Z -> Z * P
}.

(** The devices and the ports they are behind. *)
Record ata (P : Type) := Ata { at_devices : list ata_device; at_ports : P }.
Arguments Ata {P}.
Arguments at_devices {P}.
Arguments at_ports {P}.

Section ata.
Context {P : Type} `{!Ports P}.
Implicit Types (p : P) (dev : ata_device).

Definition ata_io_wait p dev : P :=
  let '(_, p) := inb p (ad_ctrl_base dev) in
  let '(_, p) := inb p (ad_ctrl_base dev) in
  let '(_, p) := inb p (ad_ctrl_base dev) in
  let '(_, p) := inb p (ad_ctrl_base dev) in
  p.

Fixpoint wait_status (turns : nat) p dev (mask expected : Z) (allow_err : bool) : Z * P :=
  match turns with
  | O => (-1, p)
  | S turns =>
      let '(status, p) := inb p (ad_io_base dev + ATA_REG_STATUS) in
      if negb allow_err && negb (Z.land status ATA_SR_ERR =? 0) then (-1, p)
      else if negb (Z.land status ATA_SR_DF =? 0) then (-1, p)
      else if Z.land status mask =? expected then (0, p)
      else wait_status turns p dev mask expected allow_err
  end.

Definition ata_wait_status p dev (mask expected : Z) (allow_err : bool) : Z * P :=
  wait_status (Z.to_nat 100000) p dev mask expected allow_err.

Definition ata_poll_ready p dev : Z * P :=
  let '(r, p) := ata_wait_status p dev ATA_SR_BSY 0 false in
  if negb (r =? 0) then (-1, p)
  else ata_wait_status p dev ATA_SR_DRQ ATA_SR_DRQ false.

Definition ata_select_drive p dev (lba : Z) : P :=
  let p := outb p (ad_io_base dev + ATA_REG_HDDEVSEL)
             (u8 (Z.lor (Z.lor 0xE0 (Z.shiftl (ad_drive dev) 4)) (Z.land (Z.shiftr lba 24) 0x0F))) in
  ata_io_wait p dev.

(** [n] words from the data port. *)
Fixpoint in_words (n : nat) p dev : list Z * P :=
  match n with
  | O => ([], p)
  | S n =>
      let '(w, p) := inw p (ad_io_base dev + ATA_REG_DATA) in
      let '(ws, p) := in_words n p dev in
      (w :: ws, p)
  end.

(** [n] words of the buffer from word [i] on, to the data port. *)
Fixpoint out_words (n : nat) p dev (buffer : list Z) : option P :=
  match n with
  | O => Some p
  | S n =>
      match buffer with
      | lo :: hi :: buffer => out_words n (outw p (ad_io_base dev + ATA_REG_DATA) (lo + 256 * hi)) dev buffer
      | _ => None
      end
  end.

(** The registers both transfers set before their command. *)
Definition ata_setup p dev (lba command : Z) : P :=
  let p := ata_select_drive p dev lba in
  let p := outb p (ad_io_base dev + ATA_REG_FEATURES) 0 in
  let p := outb p (ad_io_base dev + ATA_REG_SECCOUNT0) 1 in
  let p := outb p (ad_io_base dev + ATA_REG_LBA0) (Z.land lba 0xFF) in
  let p := outb p (ad_io_base dev + ATA_REG_LBA1) (Z.land (Z.shiftr lba 8) 0xFF) in
  let p := outb p (ad_io_base dev + ATA_REG_LBA2) (Z.land (Z.shiftr lba 16) 0xFF) in
  outb p (ad_io_base dev + ATA_REG_COMMAND) command.

(** The returned value and the bytes stored. *)
Definition ata_pio_read_sector p dev (lba : Z) : Z * list Z * P :=
  let p := ata_setup p dev lba ATA_CMD_READ_SECTORS in
  let '(r, p) := ata_poll_ready p dev in
  if negb (r =? 0) then (-1, [], p)
  else
    let '(ws, p) := in_words (Z.to_nat (ATA_SECTOR_SIZE / 2)) p dev in
    (0, ws ≫= le16, ata_io_wait p dev).

Definition ata_pio_write_sector p dev (lba : Z) (buffer : list Z) : option (Z * P) :=
  let p := ata_setup p dev lba ATA_CMD_WRITE_SECTORS in
  let '(r, p) := ata_poll_ready p dev in
  if negb (r =? 0) then Some (-1, p)
  else
    p ← out_words (Z.to_nat (ATA_SECTOR_SIZE / 2)) p dev buffer;
    let p := ata_io_wait p dev in
    let '(r, p) := ata_wait_status p dev ATA_SR_BSY 0 false in
    Some (if negb (r =? 0) then -1 else 0, p).

(** The loops over [count] sectors from [lba] on. *)
Fixpoint read_sectors (n : nat) p dev (lba : Z) : Z * list Z * P :=
  match n with
  | O => (0, [], p)
  | S n =>
      let '(r, l, p) := ata_pio_read_sector p dev lba in
      if negb (r =? 0) then (-1, l, p)
      else let '(r, l', p) := read_sectors n p dev (u32 (lba + 1)) in (r, l ++ l', p)
  end.

Fixpoint write_sectors (n : nat) p dev (lba : Z) (buffer : list Z) : option (Z * P) :=
  match n with
  | O => Some (0, p)
  | S n =>
      '(r, p) ← ata_pio_write_sector p dev lba buffer;
      if negb (r =? 0) then Some (-1, p)
      else write_sectors n p dev (u32 (lba + 1)) (drop (Z.to_nat ATA_SECTOR_SIZE) buffer)
  end.

Definition ata_blockdev_read (s : ata P) (i : nat) (sector count : Z) : option (Z * list Z * ata P) :=
  dev ← at_devices s !! i;
  if negb (ad_present dev) || (count =? 0) then Some (-1, [], s)
  else if ad_total_sectors dev <? u32 (sector + count) then Some (-1, [], s)
  else
    let '(r, l, p) := read_sectors (Z.to_nat count) (at_ports s) dev sector in
    Some (r, l, Ata (at_devices s) p).

Definition ata_blockdev_write (s : ata P) (i : nat) (sector count : Z) (buffer : list Z) : option (Z * ata P) :=
  dev ← at_devices s !! i;
  if negb (ad_present dev) || (count =? 0) then Some (-1, s)
  else if ad_total_sectors dev <? u32 (sector + count) then Some (-1, s)
  else
    '(r, p) ← write_sectors (Z.to_nat count) (at_ports s) dev sector buffer;
    Some (r, Ata (at_devices s) p).

#[export] Instance ata_driver : BlockDriver (ata P) := {
  drv_read := ata_blockdev_read;
  drv_write := ata_blockdev_write
}.

(** ** Start-up *)

(** The wait for the end of BSY, which the code does not bound: [None] when
    [fuel] status reads do not suffice. *)
Fixpoint wait_idle (fuel : nat) p dev (status : Z) : option P :=
  if Z.land status ATA_SR_BSY =? 0 then Some p
  else
    match fuel with
    | O => None
    | S fuel => let '(status, p) := inb p (ad_io_base dev + ATA_REG_STATUS) in wait_idle fuel p dev status
    end.

(** The returned value, the device with its size, the ports. *)
Definition ata_identify (fuel : nat) p dev : option (Z * ata_device * P) :=
  let p := ata_select_drive p dev 0 in
  let p := outb p (ad_io_base dev + ATA_REG_SECCOUNT0) 0 in
  let p := outb p (ad_io_base dev + ATA_REG_LBA0) 0 in
  let p := outb p (ad_io_base dev + ATA_REG_LBA1) 0 in
  let p := outb p (ad_io_base dev + ATA_REG_LBA2) 0 in
  let p := outb p (ad_io_base dev + ATA_REG_COMMAND) ATA_CMD_IDENTIFY in
  let p := ata_io_wait p dev in
  let '(status, p) := inb p (ad_io_base dev + ATA_REG_STATUS) in
  if status =? 0 then Some (-1, dev, p)
  else
    p ← wait_idle fuel p dev status;
    let '(cl, p) := inb p (ad_io_base dev + ATA_REG_LBA1) in
    let '(ch, p) := inb p (ad_io_base dev + ATA_REG_LBA2) in
    if negb (cl =? 0) || negb (ch =? 0) then Some (-1, dev, p)
    else
      let '(r, p) := ata_poll_ready p dev in
      if negb (r =? 0) then Some (-1, dev, p)
      else
        let '(identify_buffer, p) := in_words 256 p dev in
        let total_sectors := Z.lor (u32 (Z.shiftl (nth 61 identify_buffer 0) 16)) (nth 60 identify_buffer 0) in
        if total_sectors =? 0 then Some (-1, dev, p)
        else Some (0, AtaDevice (ad_io_base dev) (ad_ctrl_base dev) (ad_drive dev) true total_sectors (ad_channel dev), p).

Section init.
Context (a : arch) {H : Type} `{!KHeap H}.

(** The address of the static array [ata_blockdevs]. *)
Context (ata_blockdevs : Z).

(** The names ata0 to ata3. *)
Definition device_name (i : nat) : list Z := [97; 116; 97; 48 + Z.of_nat i].

(** The turn of the loop for device [i]. *)
Definition ata_probe (fuel : nat) (s : blk H (ata P)) (i : nat) : option (blk H (ata P)) :=
  dev ← at_devices (b_driver s) !! i;
  '(r, dev, p) ← ata_identify fuel (at_ports (b_driver s)) dev;
  let s := set_driver s (Ata (<[i := dev]> (at_devices (b_driver s))) p) in
  if r =? 0 then
    let q := ata_blockdevs + Z.of_nat i * sizeof_blockdev a in
    let s := put_dev s q (Blockdev (device_name i) (BdDriver i) ATA_SECTOR_SIZE (ad_total_sectors dev) 0 false) in
    '(_, s) ← blockdev_register s q;
    Some s
  else Some s.

(** Interrupt line 14 is masked first; requests poll. *)
Definition ata_init (fuel : nat) (s : blk H (ata P)) : option (blk H (ata P)) :=
  s ← ata_probe fuel s 0; s ← ata_probe fuel s 1; s ← ata_probe fuel s 2; ata_probe fuel s 3.

End init.
End ata.
