(* ===== verification/AtaProps.v ===== *)
(** * The ATA driver against the registers of a disk

    [AtaLaws] states what the ATA standard says of a disk in programmed I/O:
    task-file registers, the phases of a command, the busy time after it.
    Over any ports with these laws the driver transfers the sectors it is
    asked for and touches no other, which makes it a driver in the sense of
    [BlockDriverLaws]. *)

From S2P Require Import Prelude Mem HeapInterface Checksum NetBytes Blockdev Ata.

(** ** Drivers as block devices see them *)

(** The bytes of [count] sectors from [sector] on. *)
Definition sectors_from (f : Z -> list Z) (sector : Z) (count : nat) : list Z :=
  seqZ sector (Z.of_nat count) ≫= f.

(** Sector [x] after [buffer] was written at [sector]. *)
Definition over (f : Z -> list Z) (sector : Z) (count : nat) (buffer : list Z) (x : Z) : list Z :=
  if (sector <=? x) && (x <? sector + Z.of_nat count)
  then take 512 (drop (Z.to_nat (x - sector) * 512) buffer) else f x.

Class BlockDriverLaws (D : Type) `{!BlockDriver D} := {
  drv_ok : D -> Prop;
  drv_sectors : D -> nat -> Z;
  drv_sector : D -> nat -> Z -> list Z;
  law_drv_sector : forall d i x, drv_ok d -> 0 <= x < drv_sectors d i -> length (drv_sector d i x) = 512%nat;
  law_drv_read : forall d i sector count, drv_ok d -> 0 <= sector -> 0 < count -> sector + count <= drv_sectors d i ->
    exists d', drv_read d i sector count = Some (0, sectors_from (drv_sector d i) sector (Z.to_nat count), d') /\
      drv_ok d' /\ (forall j, drv_sectors d' j = drv_sectors d j) /\
      (forall j x, 0 <= x < drv_sectors d j -> drv_sector d' j x = drv_sector d j x);
  law_drv_write : forall d i sector count buffer, drv_ok d -> 0 <= sector -> 0 < count ->
    sector + count <= drv_sectors d i -> Z.of_nat (length buffer) = count * 512 -> Forall is_byte buffer ->
    exists d', drv_write d i sector count buffer = Some (0, d') /\
      drv_ok d' /\ (forall j, drv_sectors d' j = drv_sectors d j) /\
      (forall j x, 0 <= x < drv_sectors d j ->
         drv_sector d' j x = if (j =? i)%nat then over (drv_sector d i) sector (Z.to_nat count) buffer x
                             else drv_sector d j x)
}.

(** ** A channel as the standard describes it *)

(** Words still to be read, or words received so far. *)
Inductive phase := Idle | DataIn (ws : list Z) | DataOut (ws : list Z).

(** [c_busy] is the number of status reads that will still show BSY. *)
Record channel := Channel {
  c_head : Z;
  c_count : Z;
  c_lba0 : Z;
  c_lba1 : Z;
  c_lba2 : Z;
  c_phase : phase;
  c_busy : nat;
  c_media : gmap (Z * Z) (list Z)
}.

Definition c_lba (c : channel) : Z :=
  c_lba0 c + 2 ^ 8 * c_lba1 c + 2 ^ 16 * c_lba2 c + 2 ^ 24 * Z.land (c_head c) 0x0F.
Definition c_drive (c : channel) : Z := Z.land (Z.shiftr (c_head c) 4) 1.

Definition with_reg (c : channel) (r v : Z) : channel :=
  Channel (if r =? 6 then v else c_head c) (if r =? 2 then v else c_count c) (if r =? 3 then v else c_lba0 c)
    (if r =? 4 then v else c_lba1 c) (if r =? 5 then v else c_lba2 c) (c_phase c) (c_busy c) (c_media c).
Definition with_phase (c : channel) (ph : phase) (busy : nat) : channel :=
  Channel (c_head c) (c_count c) (c_lba0 c) (c_lba1 c) (c_lba2 c) ph busy (c_media c).
Definition with_sector (c : channel) (ws : list Z) : channel :=
  Channel (c_head c) (c_count c) (c_lba0 c) (c_lba1 c) (c_lba2 c) (c_phase c) (c_busy c)
    (<[(c_drive c, c_lba c) := ws]> (c_media c)).

(** The command block and control ports of the two channels. *)
Definition bases : list (Z * Z) := [(0x1F0, 0x3F6); (0x170, 0x376)].

(** A disk is busy for less than the reads the driver waits for. *)
Definition BUSY_LIMIT : nat := Z.to_nat 100000.

Class AtaLaws (P : Type) `{!Ports P} := {
  chan : P -> Z -> channel;
  law_reg : forall p io ctrl r v, (io, ctrl) ∈ bases -> 1 <= r <= 6 ->
    c_phase (chan p io) = Idle -> c_busy (chan p io) = 0%nat ->
    chan (outb p (io + r) v) io = with_reg (chan p io) r v;
  law_command : forall p io ctrl v ws, (io, ctrl) ∈ bases -> v = ATA_CMD_READ_SECTORS \/ v = ATA_CMD_WRITE_SECTORS ->
    c_phase (chan p io) = Idle -> c_busy (chan p io) = 0%nat -> c_count (chan p io) = 1 ->
    c_media (chan p io) !! (c_drive (chan p io), c_lba (chan p io)) = Some ws ->
    exists k, (k < BUSY_LIMIT)%nat /\
      chan (outb p (io + 7) v) io =
        with_phase (chan p io) (if v =? ATA_CMD_READ_SECTORS then DataIn ws else DataOut []) k;
  law_busy : forall p io ctrl k, (io, ctrl) ∈ bases -> c_busy (chan p io) = S k ->
    Z.land (inb p (io + 7)).1 ATA_SR_BSY = ATA_SR_BSY /\ Z.land (inb p (io + 7)).1 ATA_SR_ERR = 0 /\
    Z.land (inb p (io + 7)).1 ATA_SR_DF = 0 /\
    chan (inb p (io + 7)).2 io = with_phase (chan p io) (c_phase (chan p io)) k;
  law_status : forall p io ctrl, (io, ctrl) ∈ bases -> c_busy (chan p io) = 0%nat ->
    Z.land (inb p (io + 7)).1 ATA_SR_BSY = 0 /\ Z.land (inb p (io + 7)).1 ATA_SR_ERR = 0 /\
    Z.land (inb p (io + 7)).1 ATA_SR_DF = 0 /\
    Z.land (inb p (io + 7)).1 ATA_SR_DRQ = (match c_phase (chan p io) with Idle => 0 | _ => ATA_SR_DRQ end) /\
    chan (inb p (io + 7)).2 io = chan p io;
  law_alternate : forall p io ctrl, (io, ctrl) ∈ bases -> chan (inb p ctrl).2 io = chan p io;
  law_data_in : forall p io ctrl w ws, (io, ctrl) ∈ bases -> c_busy (chan p io) = 0%nat ->
    c_phase (chan p io) = DataIn (w :: ws) ->
    (inw p (io + 0)).1 = w /\
    chan (inw p (io + 0)).2 io = with_phase (chan p io) (match ws with [] => Idle | _ => DataIn ws end) 0;
  law_data_out : forall p io ctrl w ws, (io, ctrl) ∈ bases -> c_busy (chan p io) = 0%nat ->
    c_phase (chan p io) = DataOut ws ->
    exists k, (k < BUSY_LIMIT)%nat /\
      chan (outw p (io + 0) w) io =
        (if (length ws =? 255)%nat then with_sector (with_phase (chan p io) Idle k) (ws ++ [w])
         else with_phase (chan p io) (DataOut (ws ++ [w])) 0);
  law_apart : forall p io ctrl io' ctrl' r v, (io, ctrl) ∈ bases -> (io', ctrl') ∈ bases -> io <> io' -> 0 <= r <= 7 ->
    chan (outb p (io + r) v) io' = chan p io' /\ chan (inb p (io + r)).2 io' = chan p io' /\
    chan (inb p ctrl).2 io' = chan p io' /\
    chan (inw p (io + 0)).2 io' = chan p io' /\ chan (outw p (io + 0) v) io' = chan p io'
}.

Section disk.
Context {P : Type} `{!Ports P} `{!AtaLaws P}.
Implicit Types (p : P) (dev : ata_device).

(** From [p] to [p'] the channel at [io] became [c], the other one is the same. *)
Definition becomes p p' (io : Z) (c : channel) : Prop :=
  chan p' io = c /\ forall io' ctrl', (io', ctrl') ∈ bases -> io <> io' -> chan p' io' = chan p io'.

Lemma becomes_trans p p1 p2 io c1 c2 : becomes p p1 io c1 -> becomes p1 p2 io c2 -> becomes p p2 io c2.
Proof. intros [_ H1] [H2 H3]. split; [done|]. intros io' ctrl' Hin Hne. by rewrite (H3 io' ctrl'), (H1 io' ctrl'). Qed.

(** The device is one of the four of the table, and its channel has no
    command under way. *)
Record wired (dev : ata_device) : Prop := {
  wi_base : (ad_io_base dev, ad_ctrl_base dev) ∈ bases;
  wi_drive : ad_drive dev = 0 \/ ad_drive dev = 1
}.

Definition quiet p (io : Z) : Prop := c_phase (chan p io) = Idle /\ c_busy (chan p io) = 0%nat.

Context (dev : ata_device) (Hdev : wired dev).
#[local] Abbreviation io := (ad_io_base dev).
#[local] Abbreviation ctrl := (ad_ctrl_base dev).

Lemma apart p r v io' ctrl' : 0 <= r <= 7 -> (io', ctrl') ∈ bases -> io <> io' ->
    chan (outb p (io + r) v) io' = chan p io' /\ chan (inb p (io + r)).2 io' = chan p io' /\
    chan (inb p ctrl).2 io' = chan p io' /\
    chan (inw p (io + 0)).2 io' = chan p io' /\ chan (outw p (io + 0) v) io' = chan p io'.
Proof. intros Hr Hin Hne. exact (law_apart p io ctrl io' ctrl' r v (wi_base _ Hdev) Hin Hne Hr). Qed.

Lemma reg_becomes p r v : 1 <= r <= 6 -> quiet p io -> becomes p (outb p (io + r) v) io (with_reg (chan p io) r v).
Proof.
  intros Hr [H1 H2]. split; [by apply (law_reg p io ctrl r v (wi_base _ Hdev))|].
  intros io' ctrl' Hin Hne. apply (apart p r v io' ctrl'); [lia|done..].
Qed.

Lemma reg_quiet p p' r v : becomes p p' io (with_reg (chan p io) r v) -> quiet p io -> quiet p' io.
Proof. intros [E _] [H1 H2]. unfold quiet. by rewrite E. Qed.

Lemma alternate_becomes p : becomes p (inb p ctrl).2 io (chan p io).
Proof.
  split; [apply (law_alternate p io ctrl (wi_base _ Hdev))|]. intros io' ctrl' Hin Hne. by apply (apart p 0 0 io' ctrl').
Qed.

Lemma io_wait_becomes p : becomes p (ata_io_wait p dev) io (chan p io).
Proof.
  unfold ata_io_wait. destruct (inb p ctrl) as [x1 p1] eqn:E1, (inb p1 ctrl) as [x2 p2] eqn:E2,
    (inb p2 ctrl) as [x3 p3] eqn:E3, (inb p3 ctrl) as [x4 p4] eqn:E4.
  pose proof (alternate_becomes p) as B1. pose proof (alternate_becomes p1) as B2.
  pose proof (alternate_becomes p2) as B3. pose proof (alternate_becomes p3) as B4.
  rewrite E1 in B1. rewrite E2 in B2. rewrite E3 in B3. rewrite E4 in B4. cbn [snd] in *.
  pose proof (becomes_trans _ _ _ _ _ _ (becomes_trans _ _ _ _ _ _ (becomes_trans _ _ _ _ _ _ B1 B2) B3) B4) as [H1 H2].
  split; [|done]. destruct B1 as [B1 _], B2 as [B2 _], B3 as [B3 _]. congruence.
Qed.

(** ** Waiting *)

Lemma wait_idle_ok turns : forall p, (c_busy (chan p io) < turns)%nat ->
  exists p', wait_status turns p dev ATA_SR_BSY 0 false = (0, p') /\
    becomes p p' io (with_phase (chan p io) (c_phase (chan p io)) 0).
Proof.
  induction turns as [|turns IH]; intros p Hk; [lia|]. cbn [wait_status].
  change ATA_REG_STATUS with 7. destruct (inb p (io + 7)) as [st p1] eqn:E.
  assert (Ha : forall io' ctrl', (io', ctrl') ∈ bases -> io <> io' -> chan p1 io' = chan p io').
  { intros io' ctrl' Hin Hne. pose proof (apart p 7 0 io' ctrl' ltac:(lia) Hin Hne) as (_ & Hx & _). by rewrite E in Hx. }
  destruct (c_busy (chan p io)) as [|k] eqn:Eb.
  - destruct (law_status p io ctrl (wi_base _ Hdev) Eb) as (S1 & S2 & S3 & _ & S5). rewrite E in *. cbn [fst snd] in *.
    rewrite S1, S2, S3. cbn. exists p1. split; [done|]. split; [|done]. rewrite S5. destruct (chan p io); cbn in *. by subst.
  - destruct (law_busy p io ctrl k (wi_base _ Hdev) Eb) as (S1 & S2 & S3 & S5). rewrite E in *. cbn [fst snd] in *.
    rewrite S1, S2, S3. cbn. destruct (IH p1) as (p' & R & B); [rewrite S5; cbn; lia|].
    exists p'. split; [done|]. destruct B as [B1 B2]. split.
    + rewrite B1, S5. done.
    + intros io' ctrl' Hin Hne. by rewrite (B2 io' ctrl'), (Ha io' ctrl').
Qed.

Lemma wait_data_ok turns p : (0 < turns)%nat -> c_busy (chan p io) = 0%nat -> c_phase (chan p io) <> Idle ->
  exists p', wait_status turns p dev ATA_SR_DRQ ATA_SR_DRQ false = (0, p') /\ becomes p p' io (chan p io).
Proof.
  intros Ht Eb Hp. destruct turns as [|turns]; [lia|]. cbn [wait_status].
  change ATA_REG_STATUS with 7. destruct (inb p (io + 7)) as [st p1] eqn:E.
  destruct (law_status p io ctrl (wi_base _ Hdev) Eb) as (S1 & S2 & S3 & S4 & S5). rewrite E in *. cbn [fst snd] in *.
  assert (Z.land st ATA_SR_DRQ = ATA_SR_DRQ) as -> by (rewrite S4; by destruct (c_phase (chan p io))).
  rewrite S2, S3. cbn. exists p1. split; [done|]. split; [done|]. intros io' ctrl' Hin Hne.
  pose proof (apart p 7 0 io' ctrl' ltac:(lia) Hin Hne) as (_ & Hx & _). by rewrite E in Hx.
Qed.

Lemma poll_ready_ok p : (c_busy (chan p io) < BUSY_LIMIT)%nat -> c_phase (chan p io) <> Idle ->
  exists p', ata_poll_ready p dev = (0, p') /\ becomes p p' io (with_phase (chan p io) (c_phase (chan p io)) 0).
Proof.
  intros Hb Hp. unfold ata_poll_ready, ata_wait_status.
  destruct (wait_idle_ok (Z.to_nat 100000) p Hb) as (p1 & -> & B1). cbn [Z.eqb negb].
  destruct B1 as [C1 O1]. destruct (wait_data_ok (Z.to_nat 100000) p1) as (p2 & -> & B2).
  - apply Nat2Z.inj_lt. rewrite Z2Nat.id; lia.
  - by rewrite C1.
  - by rewrite C1.
  - exists p2. split; [done|]. rewrite C1 in B2. exact (becomes_trans _ _ _ _ _ _ (conj C1 O1) B2).
Qed.

(** ** One sector *)

Lemma head_ok lba : 0 <= lba < 2 ^ 28 ->
  let h := u8 (Z.lor (Z.lor 0xE0 (Z.shiftl (ad_drive dev) 4)) (Z.land (Z.shiftr lba 24) 0x0F)) in
  Z.land h 0x0F = lba / 2 ^ 24 /\ Z.land (Z.shiftr h 4) 1 = ad_drive dev.
Proof.
  intros Hl h. subst h. rewrite Z.shiftr_div_pow2 by lia.
  assert (Hq : 0 <= lba / 2 ^ 24 < 16) by (split; [apply Z.div_pos; lia|apply Z.div_lt_upper_bound; lia]).
  assert (exists q, (q < 16)%nat /\ lba / 2 ^ 24 = Z.of_nat q) as (q & Hqn & ->) by (exists (Z.to_nat (lba / 2 ^ 24)); lia).
  destruct (wi_drive _ Hdev) as [-> | ->]; do 16 (destruct q as [|q]; [by vm_compute|]); lia.
Qed.

Lemma lba_bytes lba : 0 <= lba ->
  Z.land lba 0xFF + 2 ^ 8 * Z.land (Z.shiftr lba 8) 0xFF + 2 ^ 16 * Z.land (Z.shiftr lba 16) 0xFF + 2 ^ 24 * (lba / 2 ^ 24) = lba.
Proof.
  intros Hl. rewrite !Z.shiftr_div_pow2 by lia. change 0xFF with (Z.ones 8). rewrite !Z.land_ones by lia.
  change (2 ^ 8) with 256. change (2 ^ 16) with (256 * 256). change (2 ^ 24) with (256 * 256 * 256).
  rewrite <- !Z.div_div by lia. pose proof (Z.div_mod lba 256). pose proof (Z.div_mod (lba / 256) 256).
  pose proof (Z.div_mod (lba / 256 / 256) 256). lia.
Qed.

(** A sequence of register writes. *)
Definition outbs (l : list (Z * Z)) p : P := fold_left (fun p x => outb p (io + x.1) x.2) l p.

Lemma outbs_ok l : forall p, Forall (fun x => 1 <= x.1 <= 6) l -> quiet p io ->
  becomes p (outbs l p) io (fold_left (fun c x => with_reg c x.1 x.2) l (chan p io)) /\ quiet (outbs l p) io.
Proof.
  induction l as [|[r v] l IH]; intros p Hl Hq; [split; [by split|done]|].
  apply Forall_cons_1 in Hl as [Hr Hl]. cbn [fst] in Hr. pose proof (reg_becomes p r v Hr Hq) as B.
  destruct (IH (outb p (io + r) v) Hl (reg_quiet _ _ _ _ B Hq)) as [B' Q']. split; [|done].
  pose proof (becomes_trans _ _ _ _ _ _ B B') as B2. by rewrite (proj1 B) in B2.
Qed.

Lemma setup_regs p lba : quiet p io -> 0 <= lba < 2 ^ 28 ->
  exists p1 c, (forall cmd, ata_setup p dev lba cmd = outb p1 (io + 7) cmd) /\ becomes p p1 io c /\
    c_phase c = Idle /\ c_busy c = 0%nat /\ c_count c = 1 /\ c_media c = c_media (chan p io) /\
    c_lba c = lba /\ c_drive c = ad_drive dev.
Proof.
  intros Hq Hl. destruct (head_ok lba Hl) as [Hh1 Hh2].
  set (hd := u8 (Z.lor (Z.lor 0xE0 (Z.shiftl (ad_drive dev) 4)) (Z.land (Z.shiftr lba 24) 0x0F))) in *.
  destruct (outbs_ok [(6, hd)] p) as [B0 Q0]; [by repeat constructor|done|]. set (p0 := outbs _ p) in *.
  pose proof (io_wait_becomes p0) as B1. set (p1 := ata_io_wait p0 dev) in *.
  assert (Q1 : quiet p1 io) by (unfold quiet; by rewrite (proj1 B1)).
  set (l := [(1, 0); (2, 1); (3, Z.land lba 0xFF); (4, Z.land (Z.shiftr lba 8) 0xFF); (5, Z.land (Z.shiftr lba 16) 0xFF)]).
  destruct (outbs_ok l p1) as [B2 Q2]; [subst l; by repeat constructor|done|].
  exists (outbs l p1), (chan (outbs l p1) io). split; [done|].
  assert (C : chan (outbs l p1) io = fold_left (fun c x => with_reg c x.1 x.2) l (with_reg (chan p io) 6 hd)).
  { rewrite (proj1 B2), (proj1 B1), (proj1 B0). done. }
  split; [|split; [apply Q2|split; [apply Q2|]]].
  - pose proof (becomes_trans _ _ _ _ _ _ (becomes_trans _ _ _ _ _ _ B0 B1) B2) as [_ B]. by split.
  - rewrite C. split_and!; try done. unfold c_lba. cbn -[Z.land Z.shiftr Z.mul Z.pow Z.add]. rewrite Hh1. apply lba_bytes. lia.
Qed.

Lemma setup_ok p lba cmd ws : quiet p io -> 0 <= lba < 2 ^ 28 ->
  cmd = ATA_CMD_READ_SECTORS \/ cmd = ATA_CMD_WRITE_SECTORS ->
  c_media (chan p io) !! (ad_drive dev, lba) = Some ws ->
  exists c, becomes p (ata_setup p dev lba cmd) io c /\ (c_busy c < BUSY_LIMIT)%nat /\
    c_phase c = (if cmd =? ATA_CMD_READ_SECTORS then DataIn ws else DataOut []) /\
    c_media c = c_media (chan p io) /\ c_lba c = lba /\ c_drive c = ad_drive dev.
Proof.
  intros Hq Hl Hc Hm. destruct (setup_regs p lba Hq Hl) as (p1 & c & E & B & H1 & H2 & H3 & H4 & H5 & H6).
  pose proof (proj1 B) as C. rewrite E.
  destruct (law_command p1 io ctrl cmd ws (wi_base _ Hdev) Hc) as (k & Hk & Ek); [by rewrite C..|by rewrite C, H4, H5, H6|].
  exists (with_phase c (if cmd =? ATA_CMD_READ_SECTORS then DataIn ws else DataOut []) k). split.
  - apply (becomes_trans _ p1 _ _ c); [done|]. split; [by rewrite Ek, C|].
    intros io' ctrl' Hin Hne. apply (apart p1 7 cmd io' ctrl'); [lia|done..].
  - split_and!; done.
Qed.

Lemma in_words_ok ws : forall p, ws <> [] -> c_busy (chan p io) = 0%nat -> c_phase (chan p io) = DataIn ws ->
  exists p', in_words (length ws) p dev = (ws, p') /\ becomes p p' io (with_phase (chan p io) Idle 0).
Proof.
  induction ws as [|w ws IH]; intros p Hne Hb Hp; [done|]. cbn [in_words length].
  change ATA_REG_DATA with 0. destruct (law_data_in p io ctrl w ws (wi_base _ Hdev) Hb Hp) as [E1 E2].
  destruct (inw p (io + 0)) as [x p1] eqn:E. cbn [fst snd] in *. subst x.
  assert (B : becomes p p1 io (with_phase (chan p io) (match ws with [] => Idle | _ => DataIn ws end) 0)).
  { split; [done|]. intros io' ctrl' Hin Hn. pose proof (apart p 0 0 io' ctrl' ltac:(lia) Hin Hn) as (_ & _ & _ & Hx & _). by rewrite E in Hx. }
  destruct ws as [|w' ws]; [by exists p1|].
  destruct (IH p1) as (p2 & -> & B2); [done|by rewrite (proj1 B)|by rewrite (proj1 B)|].
  exists p2. split; [done|]. pose proof (becomes_trans _ _ _ _ _ _ B B2) as B'. rewrite (proj1 B) in B'. exact B'.
Qed.

(** The words of a buffer of bytes. *)
Fixpoint words (l : list Z) : list Z :=
  match l with
  | lo :: hi :: l => (lo + 256 * hi) :: words l
  | _ => []
  end.

Lemma out_words_ok n : forall p ws buffer, (0 < n)%nat -> (length ws + n = 256)%nat -> (2 * n <= length buffer)%nat ->
  c_busy (chan p io) = 0%nat -> c_phase (chan p io) = DataOut ws ->
  exists p' k, out_words n p dev buffer = Some p' /\ (k < BUSY_LIMIT)%nat /\
    becomes p p' io (with_sector (with_phase (chan p io) Idle k) (ws ++ words (take (2 * n) buffer))).
Proof.
  induction n as [|n IH]; intros p ws buffer Hn Hlen Hbuf Hb Hp; [lia|].
  destruct buffer as [|lo [|hi buffer]]; [cbn in Hbuf; lia..|]. cbn [out_words]. change ATA_REG_DATA with 0.
  destruct (law_data_out p io ctrl (lo + 256 * hi) ws (wi_base _ Hdev) Hb Hp) as (k & Hk & E).
  set (p1 := outw p (io + 0) (lo + 256 * hi)) in *.
  assert (O1 : forall io' ctrl', (io', ctrl') ∈ bases -> io <> io' -> chan p1 io' = chan p io').
  { intros io' ctrl' Hin Hne. apply (apart p 0 (lo + 256 * hi) io' ctrl'); [lia|done..]. }
  replace (2 * S n)%nat with (S (S (2 * n))) by lia. cbn [take words]. destruct n as [|n].
  - replace (length ws =? 255)%nat with true in E by (symmetry; apply Nat.eqb_eq; lia).
    exists p1, k. split; [done|]. split; [done|]. split; [|done]. rewrite E. done.
  - replace (length ws =? 255)%nat with false in E by (symmetry; apply Nat.eqb_neq; lia).
    destruct (IH p1 (ws ++ [lo + 256 * hi]) buffer) as (p' & k' & E' & Hk' & B').
    + lia.
    + rewrite length_app. cbn. lia.
    + cbn in Hbuf. lia.
    + by rewrite E.
    + by rewrite E.
    + exists p', k'. split; [done|]. split; [done|]. destruct B' as [C' O']. split.
      * rewrite C', E, <- app_assoc. done.
      * intros io' ctrl' Hin Hne. by rewrite (O' io' ctrl'), (O1 io' ctrl').
Qed.

(** The channel is quiet again with the media [M]; the other is the same. *)
Definition leaves p p' (M : gmap (Z * Z) (list Z)) : Prop :=
  quiet p' io /\ c_media (chan p' io) = M /\
  forall io' ctrl', (io', ctrl') ∈ bases -> io <> io' -> chan p' io' = chan p io'.

Lemma becomes_leaves p p' c : becomes p p' io c -> c_phase c = Idle -> c_busy c = 0%nat -> leaves p p' (c_media c).
Proof. intros [C O] H1 H2. split; [|split; [by rewrite C|done]]. split; by rewrite C. Qed.

Lemma read_sector_ok p lba ws : quiet p io -> 0 <= lba < 2 ^ 28 ->
  c_media (chan p io) !! (ad_drive dev, lba) = Some ws -> length ws = 256%nat ->
  exists p', ata_pio_read_sector p dev lba = (0, ws ≫= le16, p') /\ leaves p p' (c_media (chan p io)).
Proof.
  intros Hq Hl Hm Hlen.
  destruct (setup_ok p lba _ ws Hq Hl (or_introl eq_refl) Hm) as (c & B0 & Hb & Hp & Hmed & _).
  unfold ata_pio_read_sector. set (p0 := ata_setup _ _ _ _) in *. pose proof (proj1 B0) as C0. cbn in Hp.
  destruct (poll_ready_ok p0) as (p1 & -> & B1); [by rewrite C0|by rewrite C0, Hp|]. cbn [Z.eqb negb].
  rewrite C0 in B1. pose proof (proj1 B1) as C1.
  change (Z.to_nat (ATA_SECTOR_SIZE / 2)) with 256%nat. rewrite <- Hlen.
  destruct (in_words_ok ws p1) as (p2 & -> & B2); [by destruct ws|by rewrite C1|by rewrite C1|].
  exists (ata_io_wait p2 dev). split; [done|]. pose proof (io_wait_becomes p2) as B3.
  rewrite (proj1 B2) in B3.
  pose proof (becomes_trans _ _ _ _ _ _ (becomes_trans _ _ _ _ _ _ (becomes_trans _ _ _ _ _ _ B0 B1) B2) B3) as B.
  apply becomes_leaves in B; [|done..]. rewrite C1 in B. rewrite <- Hmed. exact B.
Qed.

Lemma write_sector_ok p lba ws buffer : quiet p io -> 0 <= lba < 2 ^ 28 ->
  c_media (chan p io) !! (ad_drive dev, lba) = Some ws -> (512 <= length buffer)%nat ->
  exists p', ata_pio_write_sector p dev lba buffer = Some (0, p') /\
    leaves p p' (<[(ad_drive dev, lba) := words (take 512 buffer)]> (c_media (chan p io))).
Proof.
  intros Hq Hl Hm Hlen.
  destruct (setup_ok p lba _ ws Hq Hl (or_intror eq_refl) Hm) as (c & B0 & Hb & Hp & Hmed & Hlba & Hdrv).
  unfold ata_pio_write_sector. set (p0 := ata_setup _ _ _ _) in *. pose proof (proj1 B0) as C0. cbn in Hp.
  destruct (poll_ready_ok p0) as (p1 & -> & B1); [by rewrite C0|by rewrite C0, Hp|]. cbn [Z.eqb negb].
  rewrite C0 in B1. pose proof (proj1 B1) as C1. change (Z.to_nat (ATA_SECTOR_SIZE / 2)) with 256%nat.
  destruct (out_words_ok 256 p1 [] buffer) as (p2 & k & -> & Hk & B2); [lia|done|lia|by rewrite C1|by rewrite C1|].
  cbn [mbind option_bind app] in *. pose proof (io_wait_becomes p2) as B3. set (p3 := ata_io_wait p2 dev) in *.
  assert (C3 : chan p3 io = with_sector (with_phase c Idle k) (words (take 512 buffer))) by (rewrite (proj1 B3), (proj1 B2), C1; done).
  destruct (wait_idle_ok (Z.to_nat 100000) p3) as (p4 & E & B4); [by rewrite C3|].
  unfold ata_wait_status. rewrite E. exists p4. split; [done|]. rewrite C3 in B4.
  pose proof (becomes_trans _ _ _ _ _ _ (becomes_trans _ _ _ _ _ _ (becomes_trans _ _ _ _ _ _ (becomes_trans _ _ _ _ _ _ B0 B1) B2) B3) B4) as B.
  apply becomes_leaves in B; [|done..]. cbn [with_phase with_sector c_media] in B.
  rewrite <- Hmed, <- Hlba, <- Hdrv. exact B.
Qed.

(** ** Requests *)

(** The bytes of a sector of the media. *)
Definition sector_of (M : gmap (Z * Z) (list Z)) (drive x : Z) : list Z := default [] (M !! (drive, x)) ≫= le16.

(** Every sector below [total] is there. *)
Definition formatted (M : gmap (Z * Z) (list Z)) (drive total : Z) : Prop :=
  forall x, 0 <= x < total -> exists ws, M !! (drive, x) = Some ws /\ length ws = 256%nat.

Lemma sectors_from_S f sector n : sectors_from f sector (S n) = f sector ++ sectors_from f (sector + 1) n.
Proof.
  unfold sectors_from. rewrite seqZ_cons by lia. cbn. do 3 f_equal. lia.
Qed.

Lemma read_sectors_ok total n : forall p lba, quiet p io -> 0 <= lba -> lba + Z.of_nat n <= total -> total <= 2 ^ 28 ->
  formatted (c_media (chan p io)) (ad_drive dev) total ->
  exists p', read_sectors n p dev lba = (0, sectors_from (sector_of (c_media (chan p io)) (ad_drive dev)) lba n, p') /\
    leaves p p' (c_media (chan p io)).
Proof.
  induction n as [|n IH]; intros p lba Hq Hl Hn Ht Hf; [exists p; by repeat split; try apply Hq|].
  cbn [read_sectors]. destruct (Hf lba ltac:(lia)) as (ws & Hm & Hlen).
  destruct (read_sector_ok p lba ws Hq ltac:(lia) Hm Hlen) as (p1 & -> & Q1 & M1 & O1). cbn [Z.eqb negb].
  assert (u32 (lba + 1) = lba + 1) as -> by (apply Z.mod_small; lia).
  destruct (IH p1 (lba + 1) Q1 ltac:(lia) ltac:(lia) Ht ltac:(by rewrite M1)) as (p2 & -> & Q2 & M2 & O2).
  exists p2. rewrite M1, sectors_from_S. unfold sector_of at 2. rewrite Hm. split; [done|].
  split; [done|]. split; [congruence|]. intros io' ctrl' Hin Hne. by rewrite (O2 io' ctrl'), (O1 io' ctrl').
Qed.

(** The media after a request to write. *)
Definition written (M M' : gmap (Z * Z) (list Z)) (drive lba : Z) (n : nat) (buffer : list Z) : Prop :=
  forall dr x, M' !! (dr, x) =
    if (dr =? drive) && ((lba <=? x) && (x <? lba + Z.of_nat n))
    then Some (words (take 512 (drop (Z.to_nat (x - lba) * 512) buffer))) else M !! (dr, x).

Lemma words_length n : forall l, length l = (2 * n)%nat -> length (words l) = n.
Proof.
  induction n as [|n IH]; intros l Hl; [by destruct l|]. destruct l as [|lo [|hi l]]; cbn in Hl; [lia..|].
  cbn. f_equal. apply IH. lia.
Qed.

Lemma words_bytes n : forall l, length l = (2 * n)%nat -> Forall is_byte l -> words l ≫= le16 = l.
Proof.
  induction n as [|n IH]; intros l Hl Hb; [by destruct l|]. destruct l as [|lo [|hi l]]; cbn in Hl; [lia..|].
  apply Forall_cons_1 in Hb as [H1 Hb]. apply Forall_cons_1 in Hb as [H2 Hb]. cbn [words mbind list_bind].
  rewrite (IH l) by (done || lia). unfold le16. rewrite Z.shiftr_div_pow2 by lia. unfold is_byte, u8 in *. change (2 ^ 8) with 256.
  cbn [app]. f_equal; [|f_equal].
  - rewrite Z.mul_comm, Z.mod_add by lia. apply Z.mod_small. lia.
  - rewrite Z.mul_comm, Z.div_add, Z.div_small by lia. apply Z.mod_small. lia.
Qed.

Lemma write_sectors_ok total n : forall p lba buffer, quiet p io -> 0 <= lba -> lba + Z.of_nat n <= total -> total <= 2 ^ 28 ->
  formatted (c_media (chan p io)) (ad_drive dev) total -> (n * 512 <= length buffer)%nat ->
  exists p' M', write_sectors n p dev lba buffer = Some (0, p') /\ leaves p p' M' /\
    written (c_media (chan p io)) M' (ad_drive dev) lba n buffer.
Proof.
  induction n as [|n IH]; intros p lba buffer Hq Hl Hn Ht Hf Hb.
  { exists p, (c_media (chan p io)). split; [done|]. split; [by repeat split; try apply Hq|].
    intros dr x. assert ((lba <=? x) && (x <? lba + Z.of_nat 0) = false) as -> by (apply out_range; lia). by rewrite andb_false_r. }
  cbn [write_sectors]. destruct (Hf lba ltac:(lia)) as (ws & Hm & Hlen).
  destruct (write_sector_ok p lba ws buffer Hq ltac:(lia) Hm ltac:(lia)) as (p1 & -> & Q1 & M1 & O1).
  cbn [mbind option_bind Z.eqb negb].
  assert (u32 (lba + 1) = lba + 1) as -> by (apply Z.mod_small; lia).
  change (Z.to_nat ATA_SECTOR_SIZE) with 512%nat.
  destruct (IH p1 (lba + 1) (drop 512 buffer)) as (p2 & M2 & -> & (Q2 & E2 & O2) & W2); [done|lia|lia|done| |rewrite length_drop; lia|].
  { rewrite M1. intros x Hx. destruct (decide (x = lba)) as [->|Hne].
    - rewrite lookup_insert_eq. eexists. split; [done|]. apply words_length. rewrite length_take. lia.
    - rewrite lookup_insert_ne by congruence. by apply Hf. }
  exists p2, M2. split; [done|]. split.
  { split; [done|]. split; [done|]. intros io' ctrl' Hin Hne. by rewrite (O2 io' ctrl'), (O1 io' ctrl'). }
  intros dr x. rewrite W2, M1. destruct (dr =? ad_drive dev) eqn:Ed; zify_bool; cbn [andb].
  - subst dr. destruct (decide (x = lba)) as [->|Hne].
    + rewrite (out_range (lba + 1) lba), (in_range lba lba) by lia. rewrite lookup_insert_eq, Z.sub_diag. done.
    + rewrite lookup_insert_ne by congruence. destruct (decide (lba < x < lba + Z.of_nat (S n))).
      * rewrite !in_range by lia. rewrite drop_drop. do 4 f_equal. lia.
      * rewrite !out_range by lia. done.
  - rewrite lookup_insert_ne by congruence. done.
Qed.

End disk.

(** ** The driver of all disks *)

Section driver.
Context {P : Type} `{!Ports P} `{!AtaLaws P}.
Implicit Types s : ata P.

(** The media behind a device. *)
Definition media_of (p : P) (dev : ata_device) : gmap (Z * Z) (list Z) := c_media (chan p (ad_io_base dev)).

(** Every detected disk is wired as in the table, idle, and has the size it
    was detected with; the four addresses differ. *)
Record ata_ok s : Prop := {
  ao_disk : forall i dev, at_devices s !! i = Some dev -> ad_present dev = true ->
    wired dev /\ quiet (at_ports s) (ad_io_base dev) /\ 0 <= ad_total_sectors dev <= 2 ^ 28 /\
    formatted (media_of (at_ports s) dev) (ad_drive dev) (ad_total_sectors dev);
  ao_apart : forall i j dev dev', at_devices s !! i = Some dev -> at_devices s !! j = Some dev' ->
    ad_io_base dev = ad_io_base dev' -> ad_drive dev = ad_drive dev' -> i = j
}.

Definition ata_sectors s (i : nat) : Z :=
  match at_devices s !! i with Some dev => if ad_present dev then ad_total_sectors dev else 0 | None => 0 end.
Definition ata_sector s (i : nat) (x : Z) : list Z :=
  match at_devices s !! i with Some dev => sector_of (media_of (at_ports s) dev) (ad_drive dev) x | None => [] end.

Lemma le16_bind_length ws : length (ws ≫= le16) = (2 * length ws)%nat.
Proof. induction ws as [|w ws IH]; [done|]. cbn [mbind list_bind] in *. rewrite length_app, IH. cbn. lia. Qed.

Lemma ata_sector_length s i x : ata_ok s -> 0 <= x < ata_sectors s i -> length (ata_sector s i x) = 512%nat.
Proof.
  unfold ata_sectors, ata_sector. destruct (at_devices s !! i) as [dev|] eqn:E; [|lia].
  destruct (ad_present dev) eqn:Ep; [|lia]. intros Ho Hx. destruct (ao_disk _ Ho i dev E Ep) as (_ & _ & _ & Hf).
  destruct (Hf x Hx) as (ws & Hm & Hl). unfold sector_of. rewrite Hm. change (default [] (Some ws)) with ws. rewrite le16_bind_length, Hl. done.
Qed.

(** A request leaves the other disks alone. *)
Lemma ata_ok_step s i dev p' M' : ata_ok s -> at_devices s !! i = Some dev -> ad_present dev = true ->
  leaves dev (at_ports s) p' M' ->
  (forall dr total, formatted (media_of (at_ports s) dev) dr total -> formatted M' dr total) ->
  (forall dr x, dr <> ad_drive dev -> M' !! (dr, x) = media_of (at_ports s) dev !! (dr, x)) ->
  ata_ok (Ata (at_devices s) p') /\
  (forall x, ata_sector (Ata (at_devices s) p') i x = sector_of M' (ad_drive dev) x) /\
  (forall j x, j <> i -> 0 <= x < ata_sectors s j -> ata_sector (Ata (at_devices s) p') j x = ata_sector s j x).
Proof.
  intros Ho Ei Ep (Q & EM & O) Hf Hdr. destruct (ao_disk _ Ho i dev Ei Ep) as (Hw & _).
  assert (Hother : forall j dj, at_devices s !! j = Some dj -> ad_present dj = true -> ad_io_base dev <> ad_io_base dj ->
    chan p' (ad_io_base dj) = chan (at_ports s) (ad_io_base dj)).
  { intros j dj Ej Pj Hne. destruct (ao_disk _ Ho j dj Ej Pj) as (Hwj & _). apply (O _ _ (wi_base _ Hwj) Hne). }
  split; [split|split].
  - cbn. intros j dj Ej Pj. destruct (ao_disk _ Ho j dj Ej Pj) as (Hwj & Qj & Tj & Fj). split; [done|].
    unfold media_of, quiet in *. destruct (decide (ad_io_base dev = ad_io_base dj)) as [Heq|Hne].
    + rewrite <- Heq in *. rewrite EM. split; [done|]. split; [done|]. by apply Hf.
    + by rewrite (Hother j dj).
  - apply (ao_apart _ Ho).
  - intros x. unfold ata_sector. cbn. rewrite Ei. unfold media_of. by rewrite EM.
  - intros j x Hj Hx. unfold ata_sectors, ata_sector in *. cbn. destruct (at_devices s !! j) as [dj|] eqn:Ej; [|done].
    destruct (ad_present dj) eqn:Pj; [|lia]. unfold media_of. destruct (decide (ad_io_base dev = ad_io_base dj)) as [Heq|Hne].
    + rewrite <- Heq, EM. unfold sector_of. rewrite Hdr; [unfold media_of; done|].
      intros Hd. apply Hj. exact (ao_apart _ Ho j i dj dev Ej Ei (eq_sym Heq) Hd).
    + by rewrite (Hother j dj).
Qed.

Lemma ata_read_ok s i sector count : ata_ok s -> 0 <= sector -> 0 < count -> sector + count <= ata_sectors s i ->
  exists s', ata_blockdev_read s i sector count = Some (0, sectors_from (ata_sector s i) sector (Z.to_nat count), s') /\
    ata_ok s' /\ (forall j, ata_sectors s' j = ata_sectors s j) /\
    (forall j x, 0 <= x < ata_sectors s j -> ata_sector s' j x = ata_sector s j x).
Proof.
  unfold ata_sectors at 1. intros Ho Hs Hc Hr. destruct (at_devices s !! i) as [dev|] eqn:Ei; [|lia].
  destruct (ad_present dev) eqn:Ep; [|lia]. destruct (ao_disk _ Ho i dev Ei Ep) as (Hw & Hq & Ht & Hf).
  unfold ata_blockdev_read. rewrite Ei. cbn [mbind option_bind]. rewrite Ep. cbn [negb orb].
  replace (count =? 0) with false by lia. assert (u32 (sector + count) = sector + count) as -> by (apply Z.mod_small; lia).
  replace (ad_total_sectors dev <? sector + count) with false by lia.
  destruct (read_sectors_ok dev Hw (ad_total_sectors dev) (Z.to_nat count) (at_ports s) sector) as (p' & E & L);
    [done|done|lia|lia|done|].
  rewrite E. destruct (ata_ok_step s i dev p' _ Ho Ei Ep L) as (K1 & K2 & K3); [done..|].
  exists (Ata (at_devices s) p'). split; [|split; [done|split; [done|]]].
  - do 4 f_equal. unfold sectors_from, ata_sector. by rewrite Ei.
  - intros j x Hx. destruct (decide (j = i)) as [->|Hj]; [|by apply K3]. rewrite K2. unfold ata_sector. by rewrite Ei.
Qed.

Lemma written_formatted M M' drive lba n buffer dr total : written M M' drive lba n buffer -> (n * 512 <= length buffer)%nat ->
  formatted M dr total -> formatted M' dr total.
Proof.
  intros Hw Hb Hf x Hx. rewrite Hw. destruct ((dr =? drive) && _) eqn:E; [|by apply Hf].
  eexists. split; [done|]. apply words_length. zify_bool. rewrite length_take, length_drop. nia.
Qed.

Lemma written_sector M M' drive lba n buffer x : written M M' drive lba n buffer -> length buffer = (n * 512)%nat ->
  Forall is_byte buffer -> sector_of M' drive x = over (sector_of M drive) lba n buffer x.
Proof.
  intros Hw Hb Hby. unfold sector_of, over. rewrite Hw, Z.eqb_refl. cbn [andb].
  destruct ((lba <=? x) && _) eqn:E; [|done]. change (default [] (Some ?w)) with w. zify_bool.
  apply (words_bytes 256); [rewrite length_take, length_drop; nia|]. by apply Forall_take, Forall_drop.
Qed.

Lemma ata_write_ok s i sector count buffer : ata_ok s -> 0 <= sector -> 0 < count -> sector + count <= ata_sectors s i ->
  Z.of_nat (length buffer) = count * 512 -> Forall is_byte buffer ->
  exists s', ata_blockdev_write s i sector count buffer = Some (0, s') /\
    ata_ok s' /\ (forall j, ata_sectors s' j = ata_sectors s j) /\
    (forall j x, 0 <= x < ata_sectors s j ->
       ata_sector s' j x = if (j =? i)%nat then over (ata_sector s i) sector (Z.to_nat count) buffer x else ata_sector s j x).
Proof.
  unfold ata_sectors at 1. intros Ho Hs Hc Hr Hlen Hb. destruct (at_devices s !! i) as [dev|] eqn:Ei; [|lia].
  destruct (ad_present dev) eqn:Ep; [|lia]. destruct (ao_disk _ Ho i dev Ei Ep) as (Hw & Hq & Ht & Hf).
  unfold ata_blockdev_write. rewrite Ei. cbn [mbind option_bind]. rewrite Ep. cbn [negb orb].
  replace (count =? 0) with false by lia. assert (u32 (sector + count) = sector + count) as -> by (apply Z.mod_small; lia).
  replace (ad_total_sectors dev <? sector + count) with false by lia.
  destruct (write_sectors_ok dev Hw (ad_total_sectors dev) (Z.to_nat count) (at_ports s) sector buffer) as (p' & M' & E & L & W);
    [done|done|lia|lia|done|lia|].
  rewrite E. cbn [mbind option_bind]. destruct (ata_ok_step s i dev p' M' Ho Ei Ep L) as (K1 & K2 & K3).
  { intros dr total. apply (written_formatted _ _ _ _ _ _ _ _ W). lia. }
  { intros dr x Hd. rewrite W. replace (dr =? ad_drive dev) with false by lia. done. }
  exists (Ata (at_devices s) p'). split; [done|]. split; [done|]. split; [done|].
  intros j x Hx. destruct (j =? i)%nat eqn:Ej; [apply Nat.eqb_eq in Ej as ->|apply Nat.eqb_neq in Ej; by apply K3].
  rewrite K2, (written_sector _ _ _ _ _ _ x W) by (done || lia). unfold over, ata_sector. by rewrite Ei.
Qed.

#[export] Instance ata_driver_laws : BlockDriverLaws (ata P) := {
  drv_ok := ata_ok;
  drv_sectors := ata_sectors;
  drv_sector := ata_sector;
  law_drv_sector := ata_sector_length;
  law_drv_read := ata_read_ok;
  law_drv_write := ata_write_ok
}.

Lemma sectors_from_eq g n : forall sector buffer, length buffer = (n * 512)%nat ->
  (forall j, (j < n)%nat -> g (sector + Z.of_nat j) = take 512 (drop (j * 512) buffer)) -> sectors_from g sector n = buffer.
Proof.
  induction n as [|n IH]; intros sector buffer Hl Hg; [by destruct buffer|].
  rewrite sectors_from_S. rewrite <- (take_drop 512 buffer) at 1. f_equal.
  - pose proof (Hg 0%nat ltac:(lia)) as H0. by rewrite Z.add_0_r in H0.
  - apply IH; [rewrite length_drop; lia|]. intros j Hj. rewrite drop_drop.
    replace (sector + 1 + Z.of_nat j) with (sector + Z.of_nat (S j)) by lia. by rewrite Hg by lia.
Qed.

Lemma sectors_from_over f sector n buffer : length buffer = (n * 512)%nat ->
  sectors_from (over f sector n buffer) sector n = buffer.
Proof.
  intros Hl. apply sectors_from_eq; [done|]. intros j Hj. unfold over. rewrite in_range by lia. do 3 f_equal. lia.
Qed.

Lemma sectors_from_ext f g sector n : (forall x, sector <= x < sector + Z.of_nat n -> f x = g x) ->
  sectors_from f sector n = sectors_from g sector n.
Proof.
  revert sector. induction n as [|n IH]; intros sector H; [done|]. rewrite !sectors_from_S, H by lia. f_equal.
  apply IH. intros x Hx. apply H. lia.
Qed.

(** C12: A request that lies on a detected disk is carried out through the ports:
    what [ata_blockdev_write] stores, [ata_blockdev_read] returns, and no other
    sector of any disk changes. *)
Theorem ata_disk_correct s i sector count buffer : ata_ok s -> 0 <= sector -> 0 < count ->
  sector + count <= ata_sectors s i -> Z.of_nat (length buffer) = count * 512 -> Forall is_byte buffer ->
  exists s1 s2, ata_blockdev_write s i sector count buffer = Some (0, s1) /\
    ata_blockdev_read s1 i sector count = Some (0, buffer, s2) /\ ata_ok s2 /\
    forall j x, 0 <= x < ata_sectors s j -> j <> i \/ ~ (sector <= x < sector + count) ->
      ata_sector s2 j x = ata_sector s j x.
Proof.
  intros Ho Hs Hc Hr Hl Hb. destruct (ata_write_ok s i sector count buffer Ho Hs Hc Hr Hl Hb) as (s1 & E1 & K1 & S1 & W1).
  destruct (ata_read_ok s1 i sector count K1 Hs Hc) as (s2 & E2 & K2 & S2 & W2); [by rewrite S1|].
  exists s1, s2. split; [done|]. split; [|split; [done|]].
  - rewrite E2. do 3 f_equal. etransitivity; [|apply (sectors_from_over (ata_sector s i) sector (Z.to_nat count) buffer); lia].
    apply sectors_from_ext. intros x Hx. rewrite W1 by lia. by rewrite Nat.eqb_refl.
  - intros j x Hx Hout. rewrite W2, W1 by (done || by rewrite S1). destruct (j =? i)%nat eqn:Ej; [|done].
    apply Nat.eqb_eq in Ej as ->. unfold over. rewrite out_range by lia. done.
Qed.

End driver.
