(* ===== verification/BlockProps.v ===== *)
(** * Partitions as disks of their own

    Requests to partition devices, nested to any depth, become requests to
    the driver of the disk below; partitions that do not overlap on it are
    independent arrays of sectors.  Then the partition tables, and what the
    registry keeps. *)

From S2P Require Import Prelude Mem HeapFacts HeapInterface Checksum NetBytes Blockdev Ata AtaProps.

Section placed.
Context {H D : Type} `{!KHeap H} `{!BlockDriver D} `{!BlockDriverLaws D}.
Implicit Types s : blk H D.

(** Device [dev], at depth [k], is the sectors [base, base + len) of disk [i]. *)
Inductive placed s : nat -> Z -> nat -> Z -> Z -> Prop :=
| placed_disk dev d i :
    dev <> 0 -> b_devs s !! dev = Some d -> bd_backend d = BdDriver i ->
    0 <= bd_total_sectors d < 2 ^ 32 -> bd_total_sectors d <= drv_sectors (b_driver s) i ->
    placed s 0 dev i 0 (bd_total_sectors d)
| placed_part k dev d data q part i base len :
    dev <> 0 -> b_devs s !! dev = Some d -> bd_backend d = BdPartition data ->
    b_data s !! data = Some q -> b_parts s !! q = Some part ->
    placed s k (pt_parent_dev part) i base len ->
    0 <= pt_start_lba part -> 0 <= pt_sector_count part -> pt_start_lba part + pt_sector_count part <= len ->
    bd_total_sectors d = pt_sector_count part ->
    placed s (S k) dev i (base + pt_start_lba part) (pt_sector_count part).

Lemma placed_range s k dev i base len : placed s k dev i base len ->
  0 <= base /\ 0 <= len /\ base + len < 2 ^ 32 /\ base + len <= drv_sectors (b_driver s) i.
Proof. induction 1; lia. Qed.

(** Where a device is does not depend on the contents of the disks. *)
Lemma placed_driver s x k dev i base len : (forall j, drv_sectors x j = drv_sectors (b_driver s) j) ->
  placed s k dev i base len -> placed (set_driver s x) k dev i base len.
Proof.
  intros Hx. induction 1.
  - eapply placed_disk; try done. cbn. by rewrite Hx.
  - by eapply placed_part.
Qed.

Lemma placed_driver_inv s x k dev i base len : (forall j, drv_sectors x j = drv_sectors (b_driver s) j) ->
  placed (set_driver s x) k dev i base len -> placed s k dev i base len.
Proof.
  intros Hx Hp. apply (placed_driver _ (b_driver s)) in Hp; [|done]. by destruct s.
Qed.

(** Into the partition device of a request that lies inside it. *)
Ltac enter_part Hp Hq Hpt d part sector count :=
  pose proof (placed_range _ _ _ _ _ _ Hp); unfold u32 at 1; rewrite Z.mod_small by lia;
  replace (bd_total_sectors d <? sector + count) with false by lia;
  unfold partition_blockdev_read, partition_blockdev_write; rewrite Hq; cbn [mbind option_bind];
  rewrite Hpt; cbn [mbind option_bind]; unfold u64, UINT32_MAX; rewrite !Z.mod_small by lia;
  replace (pt_sector_count part <? sector + count) with false by lia;
  replace (0xFFFFFFFF <? pt_start_lba part + sector) with false by lia; unfold u32; rewrite Z.mod_small by lia.

Lemma placed_read s k dev i base len : placed s k dev i base len -> forall fuel sector count, (k < fuel)%nat ->
  0 <= sector -> 0 <= count -> sector + count <= len ->
  blockdev_read fuel s dev sector count =
    ('(r, l, x) ← drv_read (b_driver s) i (base + sector) count; Some (r, l, set_driver s x)).
Proof.
  induction 1 as [dev d i Hne Hd Hb Ht Hs|k dev d data q part i base len Hne Hd Hb Hq Hpt Hp IH H1 H2 H3 H4];
    intros fuel sector count Hk Hs0 Hc0 Hr; (destruct fuel as [|fuel]; [lia|]); cbn [blockdev_read];
    replace (dev =? 0) with false by lia; rewrite Hd; cbn [mbind option_bind]; rewrite Hb;
    rewrite bool_decide_eq_false_2 by done.
  - unfold u32. rewrite Z.mod_small by lia. by replace (bd_total_sectors d <? sector + count) with false by lia.
  - enter_part Hp Hq Hpt d part sector count. rewrite IH by lia. by rewrite Z.add_assoc.
Qed.

Lemma placed_write s k dev i base len : placed s k dev i base len -> forall fuel sector count buffer, (k < fuel)%nat ->
  0 <= sector -> 0 <= count -> sector + count <= len ->
  blockdev_write fuel s dev sector count buffer =
    ('(r, x) ← drv_write (b_driver s) i (base + sector) count buffer; Some (r, set_driver s x)).
Proof.
  induction 1 as [dev d i Hne Hd Hb Ht Hs|k dev d data q part i base len Hne Hd Hb Hq Hpt Hp IH H1 H2 H3 H4];
    intros fuel sector count buffer Hk Hs0 Hc0 Hr; (destruct fuel as [|fuel]; [lia|]); cbn [blockdev_write];
    replace (dev =? 0) with false by lia; rewrite Hd; cbn [mbind option_bind]; rewrite Hb;
    rewrite bool_decide_eq_false_2 by done.
  - unfold u32. rewrite Z.mod_small by lia. by replace (bd_total_sectors d <? sector + count) with false by lia.
  - enter_part Hp Hq Hpt d part sector count. rewrite IH by lia. by rewrite Z.add_assoc.
Qed.

(** A request beyond the end of a partition is refused, also when the sum of
    sector and count wraps in the first test. *)
Lemma placed_beyond s k dev i base len : placed s (S k) dev i base len -> forall fuel sector count buffer, (k < fuel)%nat ->
  0 <= sector < 2 ^ 32 -> 0 <= count < 2 ^ 32 -> len < sector + count ->
  blockdev_read (S fuel) s dev sector count = Some (-1, [], s) /\
  blockdev_write (S fuel) s dev sector count buffer = Some (-1, s).
Proof.
  intros Hp fuel sector count buffer Hk Hs Hc Hr. inversion Hp as [|? ? d data q part ? ? ? Hne Hd Hb Hq Hpt Hp' H1 H2 H3 H4]; subst.
  cbn [blockdev_read blockdev_write]. replace (dev =? 0) with false by lia. rewrite Hd. cbn [mbind option_bind].
  rewrite Hb, bool_decide_eq_false_2 by done. destruct (bd_total_sectors d <? u32 (sector + count)); [done|].
  unfold partition_blockdev_read, partition_blockdev_write. rewrite Hq. cbn [mbind option_bind]. rewrite Hpt. cbn [mbind option_bind].
  unfold u64. rewrite Z.mod_small by lia. replace (pt_sector_count part <? sector + count) with true by lia. done.
Qed.

(** ** Partitions as independent arrays *)

Inductive disk_request :=
| RdSectors (dev sector count : Z)
| WrSectors (dev sector count : Z) (buffer : list Z).

Definition serve (fuel : nat) s (q : disk_request) : option (Z * list Z * blk H D) :=
  match q with
  | RdSectors dev sector count => blockdev_read fuel s dev sector count
  | WrSectors dev sector count buffer => '(r, s) ← blockdev_write fuel s dev sector count buffer; Some (r, [], s)
  end.

Fixpoint serve_all (fuel : nat) s (l : list disk_request) : option (list (Z * list Z) * blk H D) :=
  match l with
  | [] => Some ([], s)
  | q :: l =>
      '(r, b, s) ← serve fuel s q;
      '(rs, s) ← serve_all fuel s l;
      Some ((r, b) :: rs, s)
  end.

(** The sectors of a buffer. *)
Definition chunks (n : nat) (buffer : list Z) : list (list Z) := (fun j => take 512 (drop (j * 512) buffer)) <$> seq 0 n.

(** The specification: every device an array of sectors of its own. *)
Definition ideal (A : gmap Z (list (list Z))) (q : disk_request) : Z * list Z * gmap Z (list (list Z)) :=
  match q with
  | RdSectors dev sector count =>
      let c := default [] (A !! dev) in
      if sector + count <=? Z.of_nat (length c)
      then (0, mjoin (take (Z.to_nat count) (drop (Z.to_nat sector) c)), A) else (-1, [], A)
  | WrSectors dev sector count buffer =>
      let c := default [] (A !! dev) in
      if sector + count <=? Z.of_nat (length c)
      then (0, [], <[dev := list_inserts (Z.to_nat sector) (chunks (Z.to_nat count) buffer) c]> A) else (-1, [], A)
  end.

Fixpoint ideal_all (A : gmap Z (list (list Z))) (l : list disk_request) : list (Z * list Z) * gmap Z (list (list Z)) :=
  match l with
  | [] => ([], A)
  | q :: l => let '(r, b, A) := ideal A q in let '(rs, A) := ideal_all A l in ((r, b) :: rs, A)
  end.

(** Requests of 32-bit sectors and counts to the devices of [A]. *)
Definition valid_request (A : gmap Z (list (list Z))) (q : disk_request) : Prop :=
  match q with
  | RdSectors dev sector count => is_Some (A !! dev) /\ 0 <= sector < 2 ^ 32 /\ 0 < count < 2 ^ 32
  | WrSectors dev sector count buffer =>
      is_Some (A !! dev) /\ 0 <= sector < 2 ^ 32 /\ 0 < count < 2 ^ 32 /\
      Z.of_nat (length buffer) = count * 512 /\ Forall is_byte buffer
  end.

(** The devices of [A] are partitions at depth below [fuel], each inside its
    parent, their contents are those of [A], and no two of them share a
    sector.  This is what a sound partition table gives; the code does not
    check it. *)
Record volumes (fuel : nat) s (A : gmap Z (list (list Z))) : Prop := {
  vo_ok : drv_ok (b_driver s);
  vo_at : forall dev c, A !! dev = Some c -> exists k i base, (S k < fuel)%nat /\
    placed s (S k) dev i base (Z.of_nat (length c)) /\
    forall j, (j < length c)%nat -> c !! j = Some (drv_sector (b_driver s) i (base + Z.of_nat j));
  vo_apart : forall dev dev' k k' i base base' len len', is_Some (A !! dev) -> is_Some (A !! dev') -> dev <> dev' ->
    placed s k dev i base len -> placed s k' dev' i base' len' -> base + len <= base' \/ base' + len' <= base
}.

Lemma join_sectors f base c : (forall j, (j < length c)%nat -> c !! j = Some (f (base + Z.of_nat j))) ->
  forall n sec, (sec + n <= length c)%nat -> mjoin (take n (drop sec c)) = sectors_from f (base + Z.of_nat sec) n.
Proof.
  intros Hc n. induction n as [|n IH]; intros sec Hs; [done|].
  rewrite sectors_from_S, (drop_S c (f (base + Z.of_nat sec))) by (apply Hc; lia). cbn [take mjoin list_join]. f_equal.
  rewrite IH by lia. f_equal. lia.
Qed.

Lemma volumes_step fuel s A x A' : volumes fuel s A -> drv_ok x -> (forall j, drv_sectors x j = drv_sectors (b_driver s) j) ->
  (forall dev, is_Some (A' !! dev) -> is_Some (A !! dev)) ->
  (forall dev c' k i base, A' !! dev = Some c' -> placed s k dev i base (Z.of_nat (length (default [] (A !! dev)))) ->
     (forall j, (j < length (default [] (A !! dev)))%nat ->
        default [] (A !! dev) !! j = Some (drv_sector (b_driver s) i (base + Z.of_nat j))) ->
     length c' = length (default [] (A !! dev)) /\
     forall j, (j < length c')%nat -> c' !! j = Some (drv_sector x i (base + Z.of_nat j))) ->
  volumes fuel (set_driver s x) A'.
Proof.
  intros [V1 V2 V3] Hx Hsz Hdom Hc. split; [done| |].
  - intros dev c' Hd. destruct (Hdom dev ltac:(by eexists)) as [c HA]. destruct (V2 dev c HA) as (k & i & base & Hk & Hp & Hl).
    specialize (Hc dev c' (S k) i base Hd). rewrite HA in Hc. destruct (Hc Hp Hl) as [Hlen Hl']. cbn in Hlen.
    exists k, i, base. split; [done|]. split; [|done]. rewrite Hlen. by apply placed_driver.
  - intros dev dev' k k' i base base' len len' H1 H2 Hne P1 P2. apply placed_driver_inv in P1, P2; [|done..].
    by eapply (V3 dev dev'); eauto.
Qed.

Lemma placed_fun s k dev i base len : placed s k dev i base len -> forall k' i' base' len',
  placed s k' dev i' base' len' -> i' = i /\ base' = base /\ len' = len.
Proof.
  induction 1 as [dev d i Hne Hd Hb Ht Hs|k dev d data q part i base len Hne Hd Hb Hq Hpt Hp IH H1 H2 H3 H4];
    intros k' i' base' len' Hp'; inversion Hp' as [? d' ? ? Hd' Hb'|? ? d' data' q' part' ? ? ? ? Hd' Hb' Hq' Hpt' Hp2]; subst;
    rewrite Hd in Hd'; injection Hd' as <-; rewrite Hb in Hb'; try discriminate Hb'; injection Hb' as <-; [done|].
  rewrite Hq in Hq'. injection Hq' as <-. rewrite Hpt in Hpt'. injection Hpt' as <-. destruct (IH _ _ _ _ Hp2) as (-> & -> & _). done.
Qed.

Lemma serve_read fuel s A dev sector count r b A' : volumes fuel s A -> valid_request A (RdSectors dev sector count) ->
  ideal A (RdSectors dev sector count) = (r, b, A') ->
  exists s', blockdev_read fuel s dev sector count = Some (r, b, s') /\ volumes fuel s' A' /\ A' = A.
Proof.
  intros V ([c HA] & Hs & Hc). cbn [ideal]. rewrite HA. cbn [default from_option id].
  destruct (vo_at _ _ _ V dev c HA) as (k & i & base & Hk & Hp & Hl). pose proof (placed_range _ _ _ _ _ _ Hp) as Hrg.
  destruct (sector + count <=? Z.of_nat (length c)) eqn:E; intros [= <- <- <-]; zify_bool.
  - destruct (law_drv_read (b_driver s) i (base + sector) count (vo_ok _ _ _ V)) as (x & Ex & K1 & K2 & K3); [lia..|].
    rewrite (placed_read _ _ _ _ _ _ Hp) by lia. rewrite Ex. cbn [mbind option_bind]. exists (set_driver s x). split; [|split; [|done]].
    + do 3 f_equal. rewrite (join_sectors _ _ _ Hl) by lia. f_equal. lia.
    + apply (volumes_step fuel s A x A V K1 K2); [done|]. intros dev' c' k' i' base' HA' Hp' Hl'. rewrite HA' in *. cbn in *.
      split; [done|]. intros j Hj. pose proof (placed_range _ _ _ _ _ _ Hp'). rewrite K3 by lia. by apply Hl'.
  - destruct fuel as [|fuel]; [lia|]. exists s. split; [|done].
    by apply (placed_beyond _ _ _ _ _ _ Hp fuel sector count []); lia || done.
Qed.

(** The array of the written device. *)
Lemma inserts_over f base c sector n buffer : (forall j, (j < length c)%nat -> c !! j = Some (f (base + Z.of_nat j))) ->
  (sector + n <= length c)%nat -> forall j, (j < length c)%nat ->
  list_inserts sector (chunks n buffer) c !! j = Some (over f (base + Z.of_nat sector) n buffer (base + Z.of_nat j)).
Proof.
  intros Hc Hs j Hj. assert (Hlen : length (chunks n buffer) = n) by (unfold chunks; by rewrite length_fmap, length_seq).
  unfold over. destruct (decide (sector <= j < sector + n)%nat) as [Hin|Hout].
  - rewrite in_range by lia. rewrite list_lookup_inserts by lia. unfold chunks. rewrite list_lookup_fmap, lookup_seq_lt by lia.
    cbn. do 4 f_equal. lia.
  - rewrite out_range by lia. rewrite <- (Hc j Hj). destruct (decide (j < sector)%nat).
    + by apply list_lookup_inserts_lt.
    + apply list_lookup_inserts_ge. lia.
Qed.

Lemma serve_write fuel s A dev sector count buffer r b A' : volumes fuel s A ->
  valid_request A (WrSectors dev sector count buffer) -> ideal A (WrSectors dev sector count buffer) = (r, b, A') ->
  exists s', blockdev_write fuel s dev sector count buffer = Some (r, s') /\ volumes fuel s' A' /\ b = [] /\
    (forall dev, is_Some (A !! dev) -> is_Some (A' !! dev)).
Proof.
  intros V ([c HA] & Hs & Hc & Hlen & Hby). cbn [ideal]. rewrite HA. cbn [default from_option id].
  destruct (vo_at _ _ _ V dev c HA) as (k & i & base & Hk & Hp & Hl). pose proof (placed_range _ _ _ _ _ _ Hp) as Hrg.
  destruct (sector + count <=? Z.of_nat (length c)) eqn:E; intros [= <- <- <-]; zify_bool.
  2:{ destruct fuel as [|fuel]; [lia|]. exists s. split; [|done].
      by apply (placed_beyond _ _ _ _ _ _ Hp fuel sector count buffer); lia || done. }
  destruct (law_drv_write (b_driver s) i (base + sector) count buffer (vo_ok _ _ _ V)) as (x & Ex & K1 & K2 & K3); [lia..|done|].
  rewrite (placed_write _ _ _ _ _ _ Hp) by lia. rewrite Ex. cbn [mbind option_bind]. exists (set_driver s x).
  split; [done|]. split; [|split; [done|intros dev' Hd'; destruct (decide (dev' = dev)) as [->|]; [rewrite lookup_insert_eq|rewrite lookup_insert_ne by done]; done]].
  apply (volumes_step fuel s A x _ V K1 K2).
  { intros dev'. destruct (decide (dev' = dev)) as [->|]; [by rewrite HA|by rewrite lookup_insert_ne]. }
  intros dev' c' k' i' base' HA' Hp' Hl'. pose proof (placed_range _ _ _ _ _ _ Hp') as Hrg'.
  destruct (decide (dev' = dev)) as [->|Hne].
  - rewrite lookup_insert_eq in HA'. injection HA' as <-. rewrite HA in *. cbn [default from_option id] in *.
    destruct (placed_fun _ _ _ _ _ _ Hp _ _ _ _ Hp') as (-> & -> & _). rewrite length_inserts. split; [done|].
    intros j Hj. rewrite (inserts_over _ _ _ _ _ _ Hl) by lia. rewrite K3, Nat.eqb_refl by lia. by rewrite Z2Nat.id by lia.
  - rewrite lookup_insert_ne in HA' by done. rewrite HA' in *. cbn [default from_option id] in *. split; [done|].
    intros j Hj. rewrite K3 by lia. rewrite Hl' by done. destruct (i' =? i)%nat eqn:Ei; [|done]. apply Nat.eqb_eq in Ei as ->.
    unfold over. rewrite out_range; [done|].
    destruct (vo_apart _ _ _ V dev dev' _ _ _ _ _ _ _ ltac:(by rewrite HA) ltac:(by rewrite HA') (not_eq_sym Hne) Hp Hp'); lia.
Qed.

(** C9: Requests for at least one sector to partitions, nested to any
    depth, on disks shared by several of them, where every partition lies
    inside its parent and the ones in use are pairwise disjoint (so a
    partition and one nested in it are not both used): the results, and the
    contents of every partition afterwards, are those of one array of sectors
    per partition.  A request beyond the end of a partition fails and changes
    nothing.  The code that creates partitions checks neither disjointness nor
    that they lie inside the parent. *)
Theorem partitions_refine fuel l : forall s A, volumes fuel s A -> Forall (valid_request A) l ->
  exists s', serve_all fuel s l = Some ((ideal_all A l).1, s') /\ volumes fuel s' (ideal_all A l).2.
Proof.
  induction l as [|q l IH]; intros s A V Hl; [by exists s|]. apply Forall_cons_1 in Hl as [Hq Hl].
  cbn [ideal_all serve_all]. destruct (ideal A q) as [[r b] A1] eqn:E.
  assert (exists s1, serve fuel s q = Some (r, b, s1) /\ volumes fuel s1 A1 /\ forall dev, is_Some (A !! dev) -> is_Some (A1 !! dev))
    as (s1 & Es & V1 & Hdom).
  { destruct q as [dev sector count|dev sector count buffer]; cbn [serve].
    - destruct (serve_read _ _ _ _ _ _ _ _ _ V Hq E) as (s1 & E1 & V1 & ->). by exists s1.
    - destruct (serve_write _ _ _ _ _ _ _ _ _ _ V Hq E) as (s1 & E1 & V1 & -> & Hd). exists s1. by rewrite E1. }
  destruct (IH s1 A1 V1) as (s' & E' & V').
  { eapply list.Forall_impl; [exact Hl|]. intros [] Hv; cbn in *; naive_solver. }
  exists s'. rewrite Es. cbn [mbind option_bind]. rewrite E'. destruct (ideal_all A1 l). done.
Qed.

End placed.

(** ** The table of a boot sector *)

(** The bytes of a segment of what was stored. *)
Lemma stored_part m m' p l pre x post : stored m m' p l -> l = pre ++ x ++ post ->
  read_bytes m' (p + Z.of_nat (length pre)) (length x) = x.
Proof.
  intros Hs ->. pose proof (stored_read _ _ _ _ Hs) as Hr. rewrite !length_app, read_bytes_app in Hr.
  apply app_inj_1 in Hr as [_ Hr]; [|by rewrite read_bytes_length]. rewrite read_bytes_app in Hr.
  apply app_inj_1 in Hr as [Hr _]; [done|by rewrite read_bytes_length].
Qed.

(** What a tool that partitions disks writes: one entry of the table. *)
Record mbr_slot := MbrSlot {
  ms_flag : Z; ms_first : list Z; ms_type : Z; ms_last : list Z; ms_start : Z; ms_count : Z
}.

Record slot_ok (e : mbr_slot) : Prop := {
  so_flag : is_byte (ms_flag e); so_type : is_byte (ms_type e);
  so_first : length (ms_first e) = 3%nat /\ Forall is_byte (ms_first e);
  so_last : length (ms_last e) = 3%nat /\ Forall is_byte (ms_last e);
  so_start : 0 <= ms_start e < 2 ^ 32; so_count : 0 <= ms_count e < 2 ^ 32
}.

Definition slot_bytes (e : mbr_slot) : list Z :=
  [ms_flag e] ++ ms_first e ++ [ms_type e] ++ ms_last e ++ le32 (ms_start e) ++ le32 (ms_count e).

Definition mbr_image (boot : list Z) (es : list mbr_slot) : list Z := boot ++ (es ≫= slot_bytes) ++ [0x55; 0xAA].

(** The partition of entry [i]. *)
Definition slot_partition (dev : Z) (i : nat) (e : mbr_slot) : partition :=
  Partition (Z.of_nat i) (ms_start e) (ms_count e) (ms_type e) (ms_flag e =? 0x80) false (replicate 16 0) dev.

Lemma slot_length e : slot_ok e -> length (slot_bytes e) = 16%nat.
Proof. intros [? ? [H1 _] [H2 _] ? ?]. unfold slot_bytes. rewrite !length_app, H1, H2. done. Qed.

Lemma slots_length es : Forall slot_ok es -> length (es ≫= slot_bytes) = (16 * length es)%nat.
Proof.
  induction 1 as [|e es He Hes IH]; [done|]. cbn [mbind list_bind length]. rewrite length_app, (slot_length e He).
  cbn [mbind] in IH. rewrite IH. lia.
Qed.

Lemma slots_bytes es : Forall slot_ok es -> Forall is_byte (es ≫= slot_bytes).
Proof.
  intros Hes. apply Forall_bind. eapply list.Forall_impl; [exact Hes|]. intros e [? ? [_ ?] [_ ?] ? ?].
  unfold compose, slot_bytes. rewrite !list.Forall_app, !list.Forall_singleton. split_and!; try done; apply le32_bytes.
Qed.

Lemma mbr_entry_slot m l boot es dev i e : stored ∅ m 0 l -> l = mbr_image boot es -> length boot = 446%nat ->
  Forall slot_ok es -> es !! i = Some e -> mbr_entry m dev (Z.of_nat i) = slot_partition dev i e.
Proof.
  intros Hs -> Hb Hes Hi. pose proof (proj1 (list.Forall_lookup _ _) Hes i e Hi) as He.
  destruct He as [He1 He2 [He3 _] [He4 _] He5 He6]. apply list_elem_of_split_length in Hi as (es1 & es2 & -> & ->).
  apply list.Forall_app in Hes as [Hes1 Hes2].
  assert (Hpre : forall a x b, slot_bytes e = a ++ x ++ b ->
    read_bytes m (MBR_PARTITIONS + 16 * Z.of_nat (length es1) + Z.of_nat (length a)) (length x) = x).
  { intros a x b E. replace (MBR_PARTITIONS + 16 * Z.of_nat (length es1) + Z.of_nat (length a))
      with (0 + Z.of_nat (length (boot ++ (es1 ≫= slot_bytes) ++ a)))
      by (rewrite !length_app, Hb, slots_length by done; unfold MBR_PARTITIONS; lia).
    apply (stored_part _ _ _ _ _ x (b ++ (es2 ≫= slot_bytes) ++ [0x55; 0xAA]) Hs).
    unfold mbr_image. rewrite bind_app. cbn [mbind list_bind]. rewrite E, <- !app_assoc. done. }
  unfold mbr_entry, slot_partition. set (b := MBR_PARTITIONS + 16 * Z.of_nat (length es1)) in *.
  pose proof (Hpre [] [ms_flag e] _ eq_refl) as R1.
  pose proof (Hpre ([ms_flag e] ++ ms_first e) [ms_type e] (ms_last e ++ le32 (ms_start e) ++ le32 (ms_count e)) ltac:(by rewrite <- app_assoc)) as R2.
  pose proof (Hpre ([ms_flag e] ++ ms_first e ++ [ms_type e] ++ ms_last e) (le32 (ms_start e)) (le32 (ms_count e)) ltac:(by rewrite <- !app_assoc)) as R3.
  pose proof (Hpre ([ms_flag e] ++ ms_first e ++ [ms_type e] ++ ms_last e ++ le32 (ms_start e)) (le32 (ms_count e)) [] ltac:(by rewrite <- !app_assoc, app_nil_r)) as R4.
  assert (L2 : length ([ms_flag e] ++ ms_first e) = 4%nat) by (by rewrite !length_app, He3).
  assert (L3 : length ([ms_flag e] ++ ms_first e ++ [ms_type e] ++ ms_last e) = 8%nat) by (by rewrite !length_app, He3, He4).
  assert (L4 : length ([ms_flag e] ++ ms_first e ++ [ms_type e] ++ ms_last e ++ le32 (ms_start e)) = 12%nat) by (by rewrite !length_app, He3, He4).
  rewrite L2 in R2. rewrite L3 in R3. rewrite L4 in R4. change (Z.of_nat 4) with 4 in R2. cbn [length read_bytes] in R1, R2.
  rewrite Z.add_0_r in R1. injection R1 as ->. injection R2 as ->. f_equal; apply rd32_le32; done.
Qed.

Lemma mbr_image_facts boot es : length boot = 446%nat -> Forall is_byte boot -> length es = 4%nat -> Forall slot_ok es ->
  length (mbr_image boot es) = 512%nat /\ rd16 (write_bytes ∅ 0 (mbr_image boot es)) 510 = 0xAA55 /\
  forall dev, mbr_entry (write_bytes ∅ 0 (mbr_image boot es)) dev <$> [0; 1; 2; 3] = imap (slot_partition dev) es.
Proof.
  intros Hb Hby Hl Hes. assert (Hlen : length (mbr_image boot es) = 512%nat).
  { unfold mbr_image. rewrite !length_app, Hb, slots_length, Hl by done. done. }
  assert (Hs : stored ∅ (write_bytes ∅ 0 (mbr_image boot es)) 0 (mbr_image boot es)).
  { apply stored_bytes. unfold mbr_image. rewrite !list.Forall_app. split_and!; [done|by apply slots_bytes|].
    repeat constructor; unfold is_byte; lia. }
  split; [done|]. split.
  - pose proof (stored_part _ _ _ _ (boot ++ (es ≫= slot_bytes)) [0x55; 0xAA] [] Hs ltac:(by rewrite app_nil_r, <- app_assoc)) as R.
    rewrite length_app, Hb, slots_length, Hl in R by done. change (0 + Z.of_nat (446 + 16 * 4)) with 510 in R.
    cbn [length read_bytes] in R. injection R as R1 R2. unfold rd16. by rewrite R1, R2.
  - intros dev. destruct es as [|e0 [|e1 [|e2 [|e3 [|]]]]]; try done. cbn [fmap list_fmap imap].
    repeat f_equal; [exact (mbr_entry_slot _ _ _ _ dev 0 e0 Hs eq_refl Hb Hes eq_refl)
      |exact (mbr_entry_slot _ _ _ _ dev 1 e1 Hs eq_refl Hb Hes eq_refl)
      |exact (mbr_entry_slot _ _ _ _ dev 2 e2 Hs eq_refl Hb Hes eq_refl)
      |exact (mbr_entry_slot _ _ _ _ dev 3 e3 Hs eq_refl Hb Hes eq_refl)].
Qed.

Section tables.
Context (a : arch) {H D : Type} `{!KHeap H} `{!BlockDriver D} `{!BlockDriverLaws D}.
Implicit Types s : blk H D.

(** Only the state of the drivers differs, and the disks hold the same. *)
Definition same_disks s s' : Prop :=
  drv_ok (b_driver s') /\ (forall j, drv_sectors (b_driver s') j = drv_sectors (b_driver s) j) /\
  forall j x, 0 <= x < drv_sectors (b_driver s) j -> drv_sector (b_driver s') j x = drv_sector (b_driver s) j x.

Lemma placed_sector s k dev i base len fuel sector : drv_ok (b_driver s) -> placed s k dev i base len -> (k < fuel)%nat ->
  0 <= sector < len ->
  exists x, blockdev_read fuel s dev sector 1 = Some (0, drv_sector (b_driver s) i (base + sector), set_driver s x) /\
    same_disks s (set_driver s x).
Proof.
  intros Ho Hp Hk Hs. pose proof (placed_range _ _ _ _ _ _ Hp) as Hr.
  destruct (law_drv_read (b_driver s) i (base + sector) 1 Ho) as (x & E & K1 & K2 & K3); [lia..|].
  exists x. rewrite (placed_read _ _ _ _ _ _ Hp), E by lia. cbn [mbind option_bind]. split; [|done].
  change (Z.to_nat 1) with 1%nat. rewrite sectors_from_S. do 3 f_equal. unfold sectors_from. cbn. by rewrite app_nil_r.
Qed.

(** C21: A boot sector that describes four entries, none of them the protective
    entry of a GPT, is parsed into its entries in use, in order; the disk is
    not changed. *)
Theorem partition_parse_mbr_table fuel s k dev i base len boot es :
  drv_ok (b_driver s) -> placed s k dev i base len -> (k < fuel)%nat -> 1 <= len ->
  drv_sector (b_driver s) i base = mbr_image boot es ->
  length boot = 446%nat -> Forall is_byte boot -> length es = 4%nat -> Forall slot_ok es ->
  Forall (fun e => ms_type e <> 0xEE) es ->
  exists s', partition_parse a fuel s dev =
      Some ((0, Some (List.filter (fun p => negb (pt_type p =? 0)) (imap (slot_partition dev) es))), s') /\
    same_disks s s'.
Proof.
  intros Ho Hp Hk Hlen Hsec Hb Hby Hl Hes Hee. destruct (mbr_image_facts boot es Hb Hby Hl Hes) as (F1 & F2 & F3).
  destruct (placed_sector s k dev i base len fuel 0 Ho Hp Hk) as (x & E & Hd); [lia|].
  exists (set_driver s x). split; [|done]. unfold partition_parse, partition_parse_mbr.
  replace (dev =? 0) with false by (destruct Hp; lia). rewrite Z.add_0_r, Hsec in E. rewrite E. cbn [mbind option_bind].
  rewrite F1, F2, F3. cbn [Z.eqb negb]. change (Z.of_nat 512 =? 512) with true. cbn [negb]. change (0xAA55 =? 0xAA55) with true. cbn [negb].
  destruct (existsb _ _) eqn:Ex; [|done]. exfalso. apply existsb_exists in Ex as (p & Hin & Hty).
  apply list_elem_of_In, elem_of_lookup_imap in Hin as (j & e & -> & He). cbn in Hty.
  apply (proj1 (list.Forall_lookup _ _) Hee j e He). lia.
Qed.

End tables.

(** ** The entries of a GPT *)

Definition le64 (x : Z) : list Z := le32 (x mod 2 ^ 32) ++ le32 (x / 2 ^ 32).

Lemma le64_length x : length (le64 x) = 8%nat.
Proof. done. Qed.

Lemma rd64_le64 m p x : 0 <= x < 2 ^ 64 -> read_bytes m p 8 = le64 x -> rd64 m p = x.
Proof.
  intros Hx Hr. change 8%nat with (4 + 4)%nat in Hr. rewrite read_bytes_app in Hr.
  apply app_inj_1 in Hr as [R1 R2]; [|done]. unfold rd64. change (p + Z.of_nat 4) with (p + 4) in R2.
  assert (0 <= x / 2 ^ 32 < 2 ^ 32) by (split; [apply Z.div_pos; lia|apply Z.div_lt_upper_bound; lia]).
  rewrite (rd32_le32 _ _ _ (Z.mod_pos_bound x (2 ^ 32) ltac:(lia)) R1), (rd32_le32 _ _ (x / 2 ^ 32)) by done.
  pose proof (Z.div_mod x (2 ^ 32)). lia.
Qed.

Record gpt_slot := GptSlot { gs_type : list Z; gs_unique : list Z; gs_first : Z; gs_last : Z; gs_rest : list Z }.

Record gslot_ok (size : Z) (e : gpt_slot) : Prop := {
  go_type : length (gs_type e) = 16%nat; go_unique : length (gs_unique e) = 16%nat;
  go_first : 0 <= gs_first e < 2 ^ 64; go_last : 0 <= gs_last e < 2 ^ 64;
  go_rest : Z.of_nat (length (gs_rest e)) = size - 48
}.

Definition gslot_bytes (e : gpt_slot) : list Z :=
  gs_type e ++ gs_unique e ++ le64 (gs_first e) ++ le64 (gs_last e) ++ gs_rest e.

(** Entries in use have a type, a start or an end, and at least one sector. *)
Definition gslot_used (e : gpt_slot) : bool :=
  negb (bool_decide (gs_type e = replicate 16 0)) && negb ((gs_first e =? 0) && (gs_last e =? 0)) &&
  (gs_first e <=? gs_last e) && negb ((gs_first e =? 0) && (gs_last e =? 2 ^ 64 - 1)).

Fixpoint gpt_found (dev i : Z) (es : list gpt_slot) : list partition :=
  match es with
  | [] => []
  | e :: es =>
      (if gslot_used e
       then [Partition i (gs_first e) (gs_last e - gs_first e + 1) 0 false true (gs_type e) dev] else [])
      ++ gpt_found dev (i + 1) es
  end.

Lemma gslot_length size e : gslot_ok size e -> Z.of_nat (length (gslot_bytes e)) = size.
Proof. intros [H1 H2 _ _ H5]. unfold gslot_bytes. rewrite !length_app, H1, H2. cbn [length le64 app le32]. lia. Qed.

(** The fields of an entry in memory. *)
Lemma gslot_fields m p size e : gslot_ok size e -> read_bytes m p (length (gslot_bytes e)) = gslot_bytes e ->
  read_bytes m p 16 = gs_type e /\ rd64 m (p + 32) = gs_first e /\ rd64 m (p + 40) = gs_last e.
Proof.
  intros [H1 H2 H3 H4 _] Hr. unfold gslot_bytes in Hr. rewrite !length_app, H1, H2, !le64_length in Hr.
  rewrite !read_bytes_app in Hr. apply app_inj_1 in Hr as [R1 Hr]; [|by rewrite read_bytes_length].
  apply app_inj_1 in Hr as [R2 Hr]; [|by rewrite read_bytes_length].
  apply app_inj_1 in Hr as [R3 Hr]; [|by rewrite read_bytes_length].
  apply app_inj_1 in Hr as [R4 _]; [|by rewrite read_bytes_length].
  split; [done|]. split; apply rd64_le64; try done.
  - rewrite <- R3. f_equal; lia.
  - rewrite <- R4. f_equal; lia.
Qed.

Lemma gpt_entries_ok a m dev size entry_buf : 0 <= entry_buf -> 0 <= size -> forall es i found, Forall (gslot_ok size) es -> 0 <= i ->
  (length found + length es <= 4)%nat -> entry_buf + (i + Z.of_nat (length es)) * size < 2 ^ ptr_bits a ->
  read_bytes m (entry_buf + i * size) (length (es ≫= gslot_bytes)) = (es ≫= gslot_bytes) ->
  gpt_entries a (length es) m entry_buf size dev i found = found ++ gpt_found dev i es.
Proof.
  intros Hb Hsz. induction es as [|e es IH]; intros i found Hes Hi Hl Hlim Hr; [by rewrite app_nil_r|].
  apply Forall_cons_1 in Hes as [He Hes]. cbn [gpt_entries length] in *. pose proof (gslot_length size e He) as Hlen.
  replace (Z.of_nat (length found) <? MAX_PARTITIONS) with true by (unfold MAX_PARTITIONS; lia). cbn [negb].
  assert (uptr a (entry_buf + uptr a (i * size)) = entry_buf + i * size) as ->.
  { unfold uptr. rewrite (Z.mod_small (i * size)) by nia. apply Z.mod_small. nia. }
  cbn [mbind list_bind] in Hr. rewrite length_app, read_bytes_app in Hr.
  apply app_inj_1 in Hr as [R1 R2]; [|by rewrite read_bytes_length].
  destruct (gslot_fields m _ size e He R1) as (-> & -> & ->).
  assert (Hnext : forall found', (length found' + length es <= 4)%nat ->
    gpt_entries a (length es) m entry_buf size dev (i + 1) found' = found' ++ gpt_found dev (i + 1) es).
  { intros found' Hl'. apply IH; [done|lia|done|nia|]. cbn [mbind] in *. rewrite <- R2 at 2. f_equal. nia. }
  cbn [gpt_found]. unfold gslot_used. destruct He as [_ _ G3 G4 _].
  case_bool_decide; cbn [negb andb app]; [apply Hnext; lia|].
  destruct ((gs_first e =? 0) && (gs_last e =? 0)) eqn:E1; cbn [negb andb app]; [apply Hnext; lia|].
  destruct (gs_last e <? gs_first e) eqn:E2.
  { replace (gs_first e <=? gs_last e) with false by lia. cbn [app andb]. apply Hnext; lia. }
  replace (gs_first e <=? gs_last e) with true by lia. cbn [andb].
  destruct ((gs_first e =? 0) && (gs_last e =? 2 ^ 64 - 1)) eqn:E3; cbn [negb].
  - assert (u64 (gs_last e - gs_first e + 1) = 0) as ->; [|apply Hnext; lia].
    zify_bool. replace (gs_last e) with (2 ^ 64 - 1) by lia. replace (gs_first e) with 0 by lia. done.
  - assert (u64 (gs_last e - gs_first e + 1) = gs_last e - gs_first e + 1) as -> by (apply Z.mod_small; zify_bool; lia).
    replace (gs_last e - gs_first e + 1 =? 0) with false by lia.
    rewrite Hnext by (rewrite length_app; cbn; lia). by rewrite <- app_assoc.
Qed.

(** The header, of which the code reads four fields. *)
Definition gpt_header (h1 : list Z) (lba num size : Z) (h2 : list Z) : list Z :=
  gpt_signature ++ h1 ++ le64 lba ++ le32 num ++ le32 size ++ h2.

Lemma gpt_header_fields m p h1 lba num size h2 : length h1 = 64%nat -> length h2 = 424%nat ->
  0 <= lba < 2 ^ 64 -> 0 <= num < 2 ^ 32 -> 0 <= size < 2 ^ 32 ->
  read_bytes m p 512 = gpt_header h1 lba num size h2 ->
  read_bytes m p 8 = gpt_signature /\ rd64 m (p + 72) = lba /\ rd32 m (p + 80) = num /\ rd32 m (p + 84) = size.
Proof.
  intros L1 L2 Hl Hn Hs Hr. change 512%nat with (8 + (64 + (8 + (4 + (4 + 424)))))%nat in Hr.
  unfold gpt_header in Hr. rewrite !(read_bytes_app m) in Hr.
  apply app_inj_1 in Hr as [R1 Hr]; [|by rewrite read_bytes_length].
  apply app_inj_1 in Hr as [_ Hr]; [|by rewrite read_bytes_length].
  apply app_inj_1 in Hr as [R2 Hr]; [|by rewrite read_bytes_length].
  apply app_inj_1 in Hr as [R3 Hr]; [|by rewrite read_bytes_length].
  apply app_inj_1 in Hr as [R4 _]; [|by rewrite read_bytes_length].
  split; [done|]. split; [|split].
  - apply rd64_le64; [done|]. rewrite <- R2. f_equal; lia.
  - apply rd32_le32; [done|]. rewrite <- R3. f_equal; lia.
  - apply rd32_le32; [done|]. rewrite <- R4. f_equal; lia.
Qed.

Section gpt.
Context (a : arch) {H D : Type} `{!KHeap H} `{!KHeapLaws H} `{!BlockDriver D} `{!BlockDriverLaws D}.
Hypothesis Hlimit : kh_limit <= 2 ^ ptr_bits a.
Implicit Types s : blk H D.

Lemma placed_heap s h k dev i base len : placed s k dev i base len -> placed (set_bheap s h) k dev i base len.
Proof. induction 1; [by eapply placed_disk|by eapply placed_part]. Qed.

(** A buffer is allocated and filled: it holds the bytes, and the blocks that
    were live keep theirs. *)
Lemma filled_buffer h L n l : kh_live h L -> kh_ready h n -> Z.of_nat (length l) <= n -> Forall is_byte l ->
  exists r h1, kh_malloc h n = Some (r, h1) /\
    ((r = 0 /\ kh_live h1 L) \/
     (0 < r /\ exists sz L', n <= sz /\ r + sz < kh_limit /\ L' ≡ₚ (r, sz) :: L /\
        let h2 := kh_set_mem h1 (write_bytes (kh_mem h1) r l) in
        kh_live h2 L' /\ read_bytes (kh_mem h2) r (length l) = l /\ Forall (same_block (kh_mem h) (kh_mem h2)) L)).
Proof.
  intros HL Hr Hl Hb. destruct (law_malloc h L n HL Hr) as (r & h1 & E & Hs & Hc). exists r, h1. split; [done|].
  destruct Hc as [Hc|(Hr0 & sz & L' & Hn & Hlim & HL' & HP & Hd)]; [by left|right]. split; [done|]. exists sz, L'.
  split; [done|]. split; [done|]. split; [done|]. cbn zeta. rewrite law_mem_get.
  pose proof (stored_bytes (kh_mem h1) r l Hb) as Hst. split; [by apply law_mem_live|]. split; [by apply (stored_read (kh_mem h1))|].
  apply list.Forall_forall. intros [b bn] Hin q Hq. cbn in Hq. rewrite Hst, out_range.
  - by apply (proj1 (list.Forall_forall _ _) Hs _ Hin).
  - pose proof (proj1 (list.Forall_forall _ _) Hd _ Hin) as Hx. unfold ranges_disjoint in Hx. cbn in Hx. lia.
Qed.

Lemma bfree_ok s L p sz : kh_live (b_heap s) L -> (p, sz) ∈ L ->
  exists h' L', bfree s p = Some (set_bheap s h') /\ kh_live h' L' /\ L ≡ₚ (p, sz) :: L'.
Proof.
  intros HL Hin. destruct (law_free _ _ _ _ HL Hin) as (h' & L' & E & HL' & HP & _). exists h', L'. unfold bfree. by rewrite E.
Qed.

Lemma free_head s L p sz L0 : kh_live (b_heap s) L -> L ≡ₚ (p, sz) :: L0 ->
  exists h' L', bfree s p = Some (set_bheap s h') /\ kh_live h' L' /\ L' ≡ₚ L0.
Proof.
  intros HL HP. destruct (bfree_ok s L p sz HL) as (h' & L' & E & HL' & HP'); [rewrite HP; by left|].
  exists h', L'. split; [done|]. split; [done|]. apply (Permutation_cons_inv (a := (p, sz))). by rewrite <- HP', HP.
Qed.

(** How many sectors the entries take. *)
Definition gpt_sectors (num size : Z) : Z := (Z.min num 4 * size + 511) / 512.

Lemma gpt_sectors_eq num size : 1 <= num -> 128 <= size -> 4 * size + 512 < 2 ^ 31 ->
  u32 (u64 (u64 (Z.min num MAX_PARTITIONS * size) + 512 - 1) / 512) = gpt_sectors num size /\
  0 < gpt_sectors num size /\ gpt_sectors num size * 512 < 2 ^ 31 /\ Z.min num 4 * size <= gpt_sectors num size * 512.
Proof.
  intros Hn Hs Hb. unfold MAX_PARTITIONS. assert (Hm : 1 <= Z.min num 4 <= 4) by lia.
  assert (Hp : 128 <= Z.min num 4 * size <= 4 * size) by nia. unfold gpt_sectors, u64, u32.
  rewrite (Z.mod_small (Z.min num 4 * size)), (Z.mod_small (_ + 512 - 1)) by lia.
  replace (Z.min num 4 * size + 512 - 1) with (Z.min num 4 * size + 511) by lia.
  pose proof (Z.div_mod (Z.min num 4 * size + 511) 512). pose proof (Z.mod_pos_bound (Z.min num 4 * size + 511) 512).
  split; [apply Z.mod_small|]; lia.
Qed.

(** A disk with a GPT: header and entries on device [dev]. *)
Record gpt_disk s (i : nat) (base len : Z) (h1 h2 : list Z) (lba size : Z) (es : list gpt_slot) (pad : list Z) : Prop := {
  gd_h1 : length h1 = 64%nat; gd_h2 : length h2 = 424%nat;
  gd_num : (0 < length es)%nat /\ Z.of_nat (length es) < 2 ^ 32;
  gd_size : 128 <= size /\ 4 * size + 512 < 2 ^ 31;
  gd_lba : 0 <= lba /\ lba + gpt_sectors (Z.of_nat (length es)) size <= len /\ 1 < len;
  gd_header : drv_sector (b_driver s) i (base + 1) = gpt_header h1 lba (Z.of_nat (length es)) size h2 /\
    Forall is_byte (gpt_header h1 lba (Z.of_nat (length es)) size h2);
  gd_slots : Forall (gslot_ok size) (take 4 es);
  gd_entries : sectors_from (drv_sector (b_driver s) i) (base + lba) (Z.to_nat (gpt_sectors (Z.of_nat (length es)) size))
      = (take 4 es ≫= gslot_bytes) ++ pad /\ Forall is_byte ((take 4 es ≫= gslot_bytes) ++ pad)
}.

(** Whether one of the two buffers of the call is refused: the one of the
    header, then, with the header stored in it, the one of the [n] bytes of the
    entries. *)
Definition gpt_no_memory (h : H) (header : list Z) (n : Z) : bool :=
  match kh_malloc h 512 with
  | Some (q, h1) =>
      (q =? 0) || match kh_malloc (kh_set_mem h1 (write_bytes (kh_mem h1) q header)) n with
                  | Some (q2, _) => q2 =? 0
                  | None => false
                  end
  | None => false
  end.

(** What the parse of the table returns: the entries in use among the first
    four, and failure when a buffer is refused or no entry is in use. *)
Definition gpt_result dev (es : list gpt_slot) (no_memory : bool) : Z * option (list partition) :=
  let found := gpt_found dev 0 (take 4 es) in
  if no_memory then (-1, None) else (if (length found =? 0)%nat then -1 else 0, Some found).

Lemma sectors_bytes_length s i base lba n : drv_ok (b_driver s) -> 0 <= base + lba ->
  base + lba + Z.of_nat n <= drv_sectors (b_driver s) i ->
  Z.of_nat (length (sectors_from (drv_sector (b_driver s) i) (base + lba) n)) = Z.of_nat n * 512.
Proof.
  intros Ho. generalize (base + lba) as x. induction n as [|n IH]; intros x Hx Hr; [done|].
  rewrite sectors_from_S, length_app, (law_drv_sector _ _ _ Ho) by lia. specialize (IH (x + 1)). lia.
Qed.

Lemma same_disks_heap s x h : same_disks s (set_driver s x) -> same_disks s (set_bheap (set_driver s x) h).
Proof. done. Qed.

(** The second half: the entries are read into their own buffer and parsed,
    and both buffers are released. *)
Lemma gpt_entries_phase fuel s k dev i base len h1 h2 lba size es pad L p1 sz1 L0 :
  drv_ok (b_driver s) -> placed s k dev i base len -> (k < fuel)%nat -> gpt_disk s i base len h1 h2 lba size es pad ->
  kh_live (b_heap s) L -> L ≡ₚ (p1, sz1) :: L0 -> 512 <= sz1 -> kh_ready (b_heap s) (gpt_sectors (Z.of_nat (length es)) size * 512) ->
  read_bytes (kh_mem (b_heap s)) p1 512 = gpt_header h1 lba (Z.of_nat (length es)) size h2 ->
  exists res s' L',
    ('(entry_buf, h) ← kh_malloc (b_heap s) (gpt_sectors (Z.of_nat (length es)) size * 512);
     let s := set_bheap s h in
     if entry_buf =? 0 then fail_parse s p1
     else
       '(r, l, s) ← blockdev_read fuel s dev (u32 lba) (gpt_sectors (Z.of_nat (length es)) size);
       let s := store s entry_buf l in
       if negb (r =? 0) then s ← bfree s entry_buf; fail_parse s p1
       else
         let m := kh_mem (b_heap s) in
         let size := rd32 m (p1 + 84) in
         let found := gpt_entries a (Z.to_nat (Z.min (Z.of_nat (length es)) MAX_PARTITIONS)) m entry_buf size dev 0 [] in
         s ← bfree s entry_buf;
         s ← bfree s p1;
         Some ((if (length found =? 0)%nat then -1 else 0, Some found), s)) = Some (res, s') /\
    res = gpt_result dev es
      match kh_malloc (b_heap s) (gpt_sectors (Z.of_nat (length es)) size * 512) with Some (q2, _) => q2 =? 0 | None => false end /\
    kh_live (b_heap s') L' /\ L' ≡ₚ L0 /\ same_disks s s'.
Proof.
  intros Ho Hp Hk [G1 G2 G3 [G4 G4'] [G5 [G5' _]] [_ _] G7 [G8 G8']] HL HP Hsz1 Hrdy Hhdr.
  set (cnt := gpt_sectors (Z.of_nat (length es)) size) in *. pose proof (placed_range _ _ _ _ _ _ Hp) as Hrg.
  destruct (gpt_sectors_eq (Z.of_nat (length es)) size ltac:(lia) ltac:(lia) ltac:(lia)) as (_ & C1 & C2 & C3). fold cnt in C1, C2, C3.
  pose proof (sectors_bytes_length s i base lba (Z.to_nat cnt) Ho ltac:(lia) ltac:(lia)) as Hlen. rewrite G8 in Hlen.
  destruct (filled_buffer (b_heap s) L (cnt * 512) ((take 4 es ≫= gslot_bytes) ++ pad) HL Hrdy ltac:(rewrite Hlen, Z2Nat.id; lia) G8')
    as (r & ha & E & [(-> & HLa)|(Hr & sz2 & L2 & S1 & S2 & HP2 & HL2 & R2 & B2)]); rewrite E; cbn [mbind option_bind].
  { unfold fail_parse. destruct (free_head (set_bheap s ha) L p1 sz1 L0 HLa HP) as (hb & Lb & -> & HLb & HPb).
    eexists _, _, Lb. split; [done|]. by repeat split. }
  replace (r =? 0) with false by lia. assert (u32 lba = lba) as -> by (apply Z.mod_small; lia).
  destruct (law_drv_read (b_driver s) i (base + lba) cnt Ho) as (x & Ex & K1 & K2 & K3); [lia..|].
  rewrite (placed_read _ _ _ _ _ _ (placed_heap s ha _ _ _ _ _ Hp)) by lia. cbn [b_driver set_bheap]. rewrite Ex. cbn [mbind option_bind].
  rewrite G8. cbn [negb Z.eqb]. unfold store. cbn [b_heap set_driver set_bheap]. set (h2' := kh_set_mem ha _) in *.
  assert (Hhdr' : read_bytes (kh_mem h2') p1 512 = gpt_header h1 lba (Z.of_nat (length es)) size h2).
  { rewrite <- Hhdr. apply read_bytes_ext. intros j Hj.
    apply (proj1 (list.Forall_forall _ _) B2 (p1, sz1)); [rewrite HP; by left|cbn; lia]. }
  destruct (gpt_header_fields (kh_mem h2') p1 h1 lba (Z.of_nat (length es)) size h2 G1 G2 ltac:(lia) ltac:(lia) ltac:(lia) Hhdr') as (_ & _ & _ & ->).
  assert (Hes : length (take 4 es) = Z.to_nat (Z.min (Z.of_nat (length es)) MAX_PARTITIONS)) by (rewrite length_take; unfold MAX_PARTITIONS; lia).
  rewrite <- Hes. rewrite gpt_entries_ok; [|lia|lia|done|lia|rewrite length_take; cbn [length]; lia| |].
  2:{ rewrite Z.add_0_l, Hes. unfold MAX_PARTITIONS. rewrite Z2Nat.id by lia. lia. }
  2:{ rewrite Z.mul_0_l, Z.add_0_r. rewrite length_app, read_bytes_app in R2. apply app_inj_1 in R2 as [R2 _]; [done|by rewrite read_bytes_length]. }
  destruct (free_head (set_bheap (set_driver (set_bheap s ha) x) h2') L2 r sz2 L HL2 HP2) as (hb & Lb & -> & HLb & HPb).
  cbn [mbind option_bind].
  destruct (free_head (set_bheap (set_bheap (set_driver (set_bheap s ha) x) h2') hb) Lb p1 sz1 L0 HLb) as (hc & Lc & -> & HLc & HPc).
  { by rewrite HPb. }
  eexists _, _, Lc. split; [done|]. split; [done|]. split; [done|]. split; [done|]. by repeat split.
Qed.

Lemma block_size_driver fuel s x h : forall dev,
  blockdev_get_block_size fuel (set_bheap (set_driver s x) h) dev = blockdev_get_block_size fuel s dev.
Proof.
  induction fuel as [|fuel IH]; intros dev; [done|]. cbn [blockdev_get_block_size]. destruct (dev =? 0); [done|].
  cbn [b_devs set_bheap set_driver]. destruct (b_devs s !! dev) as [d|]; [|done]. cbn [mbind option_bind].
  destruct (bd_backend d); [done|done|]. unfold partition_blockdev_get_block_size. cbn [b_data b_parts set_bheap set_driver].
  destruct (b_data s !! data) as [q|]; [|done]. cbn [mbind option_bind]. destruct (b_parts s !! q) as [part|]; [|done]. apply IH.
Qed.

Lemma gpt_disk_same s s' k dev i base len h1 h2 lba size es pad : placed s k dev i base len -> same_disks s s' ->
  gpt_disk s i base len h1 h2 lba size es pad -> gpt_disk s' i base len h1 h2 lba size es pad.
Proof.
  intros Hp (_ & _ & Hs) [G1 G2 G3 G4 G5 G6 G7 G8]. pose proof (placed_range _ _ _ _ _ _ Hp).
  pose proof (gpt_sectors_eq (Z.of_nat (length es)) size ltac:(lia) ltac:(lia) ltac:(lia)) as (_ & C1 & _).
  split; try done.
  - by rewrite Hs by lia.
  - rewrite <- (sectors_from_ext (drv_sector (b_driver s) i)); [done|]. intros x Hx. rewrite Hs by lia. done.
Qed.

Lemma same_disks_trans s1 s2 s3 : same_disks s1 s2 -> same_disks s2 s3 -> same_disks s1 s3.
Proof.
  intros (_ & A2 & A3) (B1 & B2 & B3). split; [done|]. split; [intros j; by rewrite B2, A2|].
  intros j x Hx. rewrite B3, A3; [done|done|by rewrite A2].
Qed.

Lemma gpt_parse_ok fuel s k dev i base len h1 h2 lba size es pad L :
  drv_ok (b_driver s) -> placed s k dev i base len -> (k < fuel)%nat -> blockdev_get_block_size fuel s dev = Some 512 ->
  gpt_disk s i base len h1 h2 lba size es pad -> kh_live (b_heap s) L -> kh_ready (b_heap s) 512 ->
  (forall q h, kh_malloc (b_heap s) 512 = Some (q, h) -> kh_ready h (gpt_sectors (Z.of_nat (length es)) size * 512)) ->
  exists s' L', partition_parse_gpt a fuel s dev =
      Some (gpt_result dev es (gpt_no_memory (b_heap s) (gpt_header h1 lba (Z.of_nat (length es)) size h2)
        (gpt_sectors (Z.of_nat (length es)) size * 512)), s') /\
    kh_live (b_heap s') L' /\ L' ≡ₚ L /\ same_disks s s'.
Proof.
  intros Ho Hp Hk Hbs HG HL Hr1 Hr2. pose proof HG as [G1 G2 G3 G4 G5 [G6 G6'] _ _]. pose proof (placed_range _ _ _ _ _ _ Hp) as Hrg.
  destruct (gpt_sectors_eq (Z.of_nat (length es)) size ltac:(lia) ltac:(lia) ltac:(lia)) as (C0 & C1 & C2 & C3).
  assert (Hlen : length (gpt_header h1 lba (Z.of_nat (length es)) size h2) = 512%nat).
  { unfold gpt_header. rewrite !length_app, G1, G2. done. }
  unfold partition_parse_gpt. replace (dev =? 0) with false by (destruct Hp; lia). rewrite Hbs. cbn [mbind option_bind].
  change (512 =? 0) with false. cbn iota.
  destruct (filled_buffer (b_heap s) L 512 _ HL Hr1 ltac:(rewrite Hlen; lia) G6')
    as (r & ha & E & [(-> & HLa)|(Hr & sz1 & L1 & S1 & S2 & HP1 & HL1 & R1 & B1)]); rewrite E; cbn [mbind option_bind].
  { exists (set_bheap s ha), L. unfold gpt_no_memory. rewrite E. by repeat split. }
  unfold gpt_no_memory. rewrite E. replace (r =? 0) with false by lia. cbn [orb].
  destruct (placed_sector (set_bheap s ha) k dev i base len fuel 1 Ho (placed_heap _ _ _ _ _ _ _ Hp) Hk ltac:(lia)) as (x & Ex & Hd).
  cbn [b_driver set_bheap] in Ex. rewrite G6 in Ex. rewrite Ex. cbn [mbind option_bind]. cbn [negb Z.eqb].
  rewrite Hlen in R1. cbv zeta. change (store (set_driver (set_bheap s ha) x) r (gpt_header h1 lba (Z.of_nat (length es)) size h2))
    with (set_bheap (set_driver (set_bheap s ha) x) (kh_set_mem ha (write_bytes (kh_mem ha) r (gpt_header h1 lba (Z.of_nat (length es)) size h2)))).
  set (h2' := kh_set_mem ha _) in *. set (s2 := set_bheap (set_driver (set_bheap s ha) x) h2'). change (b_heap s2) with h2'.
  destruct (gpt_header_fields (kh_mem h2') r h1 lba (Z.of_nat (length es)) size h2 G1 G2 ltac:(lia) ltac:(lia) ltac:(lia) R1) as (F1 & F2 & F3 & F4).
  rewrite F1, F2, F3, F4. rewrite bool_decide_eq_true_2 by done. cbn [negb].
  replace (size <? sizeof_gpt_partition_entry) with false by (unfold sizeof_gpt_partition_entry; lia).
  replace (Z.of_nat (length es) =? 0) with false by lia. cbn [orb].
  replace (UINT32_MAX <? lba) with false by (unfold UINT32_MAX; lia). rewrite C0.
  replace (gpt_sectors (Z.of_nat (length es)) size =? 0) with false by lia.
  assert (uptr a (gpt_sectors (Z.of_nat (length es)) size * 512) = gpt_sectors (Z.of_nat (length es)) size * 512) as ->.
  { apply Z.mod_small. split; [lia|]. apply (Z.lt_le_trans _ (2 ^ 32)); [lia|]. apply Z.pow_le_mono_r; [lia|destruct a; cbn; lia]. }
  destruct (gpt_entries_phase fuel s2 k dev i base len h1 h2 lba size es pad L1 r sz1 L) as (res & s' & L' & E' & Q1 & Q2 & Q3 & Q4);
    [apply Hd|apply placed_heap, placed_driver; [apply Hd|by apply placed_heap]|done|by apply (gpt_disk_same s _ k dev)|done|done|lia
    |apply law_mem_ready, (Hr2 r ha E)|done|].
  exists s', L'. split; [rewrite Q1 in E'; exact E'|]. split; [done|]. split; [done|]. exact (same_disks_trans s s2 s' Hd Q4).
Qed.

(** C20: On a device of 512-byte blocks with a protective boot sector and a
    valid GPT header, with its entries on the device, the parse of the
    partition table returns exactly the entries in use among the first four,
    -1 with an empty table when there is none.  It fails without a table only
    when one of its own two buffers is refused, and in all these cases it has
    released what it allocated and left the disks as they were. *)
Theorem partition_parse_gpt_table fuel s k dev i base len boot ms h1 h2 lba size es pad L :
  drv_ok (b_driver s) -> placed s k dev i base len -> (k < fuel)%nat -> blockdev_get_block_size fuel s dev = Some 512 ->
  drv_sector (b_driver s) i base = mbr_image boot ms ->
  length boot = 446%nat -> Forall is_byte boot -> length ms = 4%nat -> Forall slot_ok ms -> Exists (fun e => ms_type e = 0xEE) ms ->
  gpt_disk s i base len h1 h2 lba size es pad -> kh_live (b_heap s) L -> kh_ready (b_heap s) 512 ->
  (forall q h, kh_malloc (b_heap s) 512 = Some (q, h) -> kh_ready h (gpt_sectors (Z.of_nat (length es)) size * 512)) ->
  exists s' L', partition_parse a fuel s dev =
      Some (gpt_result dev es (gpt_no_memory (b_heap s) (gpt_header h1 lba (Z.of_nat (length es)) size h2)
        (gpt_sectors (Z.of_nat (length es)) size * 512)), s') /\
    kh_live (b_heap s') L' /\ L' ≡ₚ L /\ same_disks s s'.
Proof.
  intros Ho Hp Hk Hbs Hsec Hb Hby Hl Hms Hee HG HL Hr1 Hr2. destruct (mbr_image_facts boot ms Hb Hby Hl Hms) as (F1 & F2 & F3).
  destruct (placed_sector s k dev i base len fuel 0 Ho Hp Hk) as (x & E & Hd); [pose proof (gd_lba _ _ _ _ _ _ _ _ _ _ HG); lia|].
  unfold partition_parse, partition_parse_mbr. replace (dev =? 0) with false by (destruct Hp; lia).
  rewrite Z.add_0_r, Hsec in E. rewrite E. cbn [mbind option_bind]. rewrite F1, F2, F3. cbn [Z.eqb negb].
  change (Z.of_nat 512 =? 512) with true. cbn [negb]. change (0xAA55 =? 0xAA55) with true. cbn [negb].
  assert (existsb (fun p => pt_type p =? 0xEE) (imap (slot_partition dev) ms) = true) as ->.
  { apply existsb_exists. apply Exists_exists in Hee as (e & Hin & Hty). apply list_elem_of_In, list_elem_of_lookup_1 in Hin as [j Hj].
    exists (slot_partition dev j e). split; [|cbn; lia]. apply list_elem_of_In, elem_of_lookup_imap. by exists j, e. }
  destruct (gpt_parse_ok fuel (set_driver s x) k dev i base len h1 h2 lba size es pad L) as (s' & L' & E' & Q1 & Q2 & Q3);
    [apply Hd|apply placed_driver; [apply Hd|done]|done| |by apply (gpt_disk_same s _ k dev)|done|done|done|].
  - exact (eq_trans (block_size_driver fuel s x (b_heap s) dev) Hbs).
  - exists s', L'. split; [exact E'|]. split; [done|]. split; [done|]. exact (same_disks_trans _ _ _ Hd Q3).
Qed.


End gpt.

(** ** What the block layer does not do *)

Section limits.
Context (a : arch) {H D : Type} `{!KHeap H} `{!BlockDriver D}.
Implicit Types s : blk H D.

(** A created device is in the registry with two references. *)
Lemma create_state fuel s part dev s' : partition_create_blockdev a fuel s part = Some (dev, s') -> dev <> 0 ->
  exists d, b_devs s' !! dev = Some d /\ bd_ref_count d = 2 /\ bd_registered d = true /\ dev ∈ b_registry s'.
Proof.
  unfold partition_create_blockdev. intros E Hne.
  destruct (pt_parent_dev part =? 0); [by injection E|]. destruct (_ || _); [by injection E|].
  destruct (kh_malloc _ _) as [[q1 g1]|]; [|done]. cbn [mbind option_bind] in E. destruct (q1 =? 0) eqn:Eq1; [by injection E|].
  destruct (kh_malloc _ _) as [[q2 g2]|]; [|done]. cbn [mbind option_bind] in E.
  destruct (q2 =? 0); [destruct (free_dev _ _); [by injection E|done]|].
  destruct (kh_malloc _ _) as [[q3 g3]|]; [|done]. cbn [mbind option_bind] in E.
  destruct (q3 =? 0); [destruct (bfree _ _) as [t|]; [cbn [mbind option_bind] in E; destruct (free_dev _ _); [by injection E|done]|done]|].
  destruct (blockdev_get_block_size _ _ _) as [bs|]; [|done]. cbn [mbind option_bind] in E.
  unfold blockdev_register in E at 1. rewrite Eq1 in E. cbn [b_devs put_dev set_devs] in E. rewrite lookup_insert_eq in E.
  cbn [mbind option_bind bd_registered bd_name] in E.
  assert (Hfail : forall t : blk H D,
    (if negb (-1 =? 0) then s0 ← free_data t q2; s1 ← free_dev s0 q1; Some (0, s1)
     else '(_, s0) ← blockdev_retain t q1; Some (q1, s0)) = Some (dev, s') -> False).
  { intros t. cbn. destruct (free_data _ _) as [t1|]; [|done]. cbn. destruct (free_dev _ _); [|done]. by intros [= <-]. }
  destruct (BLOCKDEV_MAX_DEVICES <=? _); [by apply Hfail in E|]. case_bool_decide; [by apply Hfail in E|].
  destruct (blockdev_find_by_name_internal _ _) as [o|]; [|done]. cbn [mbind option_bind] in E.
  destruct (negb (o =? 0)); [by apply Hfail in E|]. cbn [mbind option_bind negb Z.eqb] in E.
  unfold blockdev_retain in E. rewrite Eq1 in E. cbn [b_devs put_dev set_devs set_bregistry] in E. rewrite lookup_insert_eq in E.
  cbn [mbind option_bind] in E. injection E as <- <-. eexists. split; [apply lookup_insert_eq|]. split; [done|]. split; [done|].
  cbn. apply elem_of_app. right. by left.
Qed.

(** [partition_destroy_blockdev] on a device as [partition_create_blockdev]
    returns it drops only one of its two references, so that nothing is ever
    freed: the device is unregistered and its memory is lost. *)
Theorem partition_destroy_leaks fuel s part dev s1 : partition_create_blockdev a fuel s part = Some (dev, s1) -> dev <> 0 ->
  exists s2 d, partition_destroy_blockdev s1 dev = Some s2 /\ b_heap s2 = b_heap s1 /\
    b_devs s2 !! dev = Some d /\ bd_ref_count d = 1 /\ bd_registered d = false.
Proof.
  intros E Hne. destruct (create_state fuel s part dev s1 E Hne) as (d & Hd & Hr & Hreg & Hin).
  unfold partition_destroy_blockdev. replace (dev =? 0) with false by lia. rewrite Hd. cbn [mbind option_bind].
  unfold blockdev_unregister. replace (dev =? 0) with false by lia. rewrite Hd. cbn [mbind option_bind]. rewrite Hreg. cbn [negb].
  assert (existsb (Z.eqb dev) (b_registry s1) = true) as ->.
  { apply existsb_exists. exists dev. split; [by apply list_elem_of_In|lia]. }
  cbn [negb]. unfold blockdev_release. replace (dev =? 0) with false by lia.
  cbn [b_devs put_dev set_devs set_bregistry]. rewrite lookup_insert_eq. cbn [mbind option_bind bd_ref_count set_registered].
  rewrite Hr. cbn [Z.eqb]. cbn [b_devs put_dev set_devs set_bregistry mbind option_bind]. rewrite lookup_insert_eq. cbn [mbind option_bind].
  cbn [bd_ref_count set_ref Z.sub Z.add Z.opp Z.eqb]. eexists _, _. split; [done|]. split; [done|].
  split; [apply lookup_insert_eq|]. done.
Qed.

(** A table may describe a partition that runs past the last 32-bit sector.
    The test of the disk below wraps, and its driver is asked for sectors the
    disk does not have. *)
Theorem partition_past_disk fuel s dev d data q part disk dd i sector count :
  dev <> 0 -> b_devs s !! dev = Some d -> bd_backend d = BdPartition data -> b_data s !! data = Some q -> b_parts s !! q = Some part ->
  pt_parent_dev part = disk -> disk <> 0 -> b_devs s !! disk = Some dd -> bd_backend dd = BdDriver i ->
  0 <= sector -> 0 <= count < 2 ^ 32 -> 0 <= pt_start_lba part -> sector + count <= bd_total_sectors d < 2 ^ 32 ->
  sector + count <= pt_sector_count part -> pt_start_lba part + sector < 2 ^ 32 ->
  2 ^ 32 <= pt_start_lba part + sector + count <= 2 ^ 32 + bd_total_sectors dd -> bd_total_sectors dd < 2 ^ 32 ->
  blockdev_read (S (S fuel)) s dev sector count =
    ('(r, l, x) ← drv_read (b_driver s) i (pt_start_lba part + sector) count; Some (r, l, set_driver s x)) /\
  bd_total_sectors dd < pt_start_lba part + sector + count.
Proof.
  intros H1 H2 H3 H4 H5 H6 H7 H8 H9 Hs Hc Hst Ht Hsc H32 Hw Hdd. split; [|lia]. cbn [blockdev_read].
  replace (dev =? 0) with false by lia. rewrite H2. cbn [mbind option_bind]. rewrite H3, bool_decide_eq_false_2 by done.
  unfold u32 at 1. rewrite Z.mod_small by lia. replace (bd_total_sectors d <? sector + count) with false by lia.
  unfold partition_blockdev_read. rewrite H4. cbn [mbind option_bind]. rewrite H5. cbn [mbind option_bind].
  unfold u64, UINT32_MAX. rewrite !Z.mod_small by lia. replace (pt_sector_count part <? sector + count) with false by lia.
  replace (0xFFFFFFFF <? pt_start_lba part + sector) with false by lia. rewrite H6. replace (disk =? 0) with false by lia.
  rewrite H8. cbn [mbind option_bind]. rewrite H9, bool_decide_eq_false_2 by done.
  assert (u32 (pt_start_lba part + sector) = pt_start_lba part + sector) as -> by (apply Z.mod_small; lia).
  assert (u32 (pt_start_lba part + sector + count) = pt_start_lba part + sector + count - 2 ^ 32) as ->.
  { unfold u32. symmetry. apply (Z.mod_unique_pos _ _ 1); lia. }
  by replace (bd_total_sectors dd <? _) with false by lia.
Qed.

End limits.
