(* ===== verification/BlockExamples.v ===== *)
(** * Disks on the ports of a PC

    Ports with a disk of sixteen sectors behind the first channel, which
    satisfy [AtaLaws]; the disk is detected by [ata_init], its table parsed and
    devices made for its partitions: the machine on which the theorems about
    drivers, partitions and tables are applied. *)

From S2P Require Import Prelude Mem Heap HeapFacts HeapProps HeapInterface Checksum Netbuf NetBytes Blockdev Ata AtaProps BlockProps.

(** ** The ports *)

Definition pc_ports : Type := channel * channel.

Definition has_disk (c : channel) : bool := bool_decide (is_Some (c_media c !! (c_drive c, 0))).

(** Words 60 and 61 hold the number of sectors. *)
Definition identify_words : list Z := replicate 60 0 ++ [16; 0] ++ replicate 194 0.

Definition command (c : channel) (v : Z) : channel :=
  if v =? ATA_CMD_READ_SECTORS then with_phase c (DataIn (default [] (c_media c !! (c_drive c, c_lba c)))) 2
  else if v =? ATA_CMD_WRITE_SECTORS then with_phase c (DataOut []) 1
  else if (v =? ATA_CMD_IDENTIFY) && has_disk c then with_phase c (DataIn identify_words) 1
  else c.

Definition reg_out (c : channel) (r v : Z) : channel := if r =? 7 then command c v else with_reg c r v.

Definition status (c : channel) : Z :=
  match c_busy c, c_phase c with
  | S _, _ => 0x80
  | O, Idle => if has_disk c then 0x50 else 0
  | O, _ => 0x58
  end.

Definition reg_in (c : channel) (r : Z) : Z * channel :=
  if r =? 7 then (status c, match c_busy c with S k => with_phase c (c_phase c) k | O => c end)
  else (if r =? 4 then c_lba1 c else if r =? 5 then c_lba2 c else 0, c).

Definition data_in (c : channel) : Z * channel :=
  match c_phase c with
  | DataIn (w :: ws) => (w, with_phase c (match ws with [] => Idle | _ => DataIn ws end) 0)
  | _ => (0, c)
  end.

Definition data_out (c : channel) (w : Z) : channel :=
  match c_phase c with
  | DataOut ws => if (length ws =? 255)%nat then with_sector (with_phase c Idle 1) (ws ++ [w]) else with_phase c (DataOut (ws ++ [w])) 0
  | _ => c
  end.

Definition at_port (lo port : Z) : bool := (lo <=? port) && (port <=? lo + 7).

#[export] Instance PcPorts : Ports pc_ports := {
  outb p port v := if at_port 0x1F0 port then (reg_out p.1 (port - 0x1F0) v, p.2)
                   else if at_port 0x170 port then (p.1, reg_out p.2 (port - 0x170) v) else p;
  outw p port v := if port =? 0x1F0 then (data_out p.1 v, p.2) else if port =? 0x170 then (p.1, data_out p.2 v) else p;
  inb p port := if at_port 0x1F0 port then let '(v, c) := reg_in p.1 (port - 0x1F0) in (v, (c, p.2))
                else if at_port 0x170 port then let '(v, c) := reg_in p.2 (port - 0x170) in (v, (p.1, c)) else (0, p);
  inw p port := if port =? 0x1F0 then let '(v, c) := data_in p.1 in (v, (c, p.2))
                else if port =? 0x170 then let '(v, c) := data_in p.2 in (v, (p.1, c)) else (0, p)
}.

Definition pc_chan (p : pc_ports) (io : Z) : channel := if io =? 0x1F0 then p.1 else p.2.

Lemma at_port_in lo r : 0 <= r <= 7 -> at_port lo (lo + r) = true.
Proof. intros Hr. unfold at_port. by rewrite (proj2 (Z.leb_le _ _)), (proj2 (Z.leb_le _ _)) by lia. Qed.

Lemma at_port_out r : 0 <= r <= 7 -> at_port 0x1F0 (0x170 + r) = false.
Proof. intros Hr. unfold at_port. apply andb_false_iff. left. apply Z.leb_gt. lia. Qed.

(** A register of either channel. *)
Lemma pc_reg p io ctrl r : (io, ctrl) ∈ bases -> 0 <= r <= 7 ->
  (forall v, pc_chan (outb p (io + r) v) io = reg_out (pc_chan p io) r v) /\
  (inb p (io + r)).1 = (reg_in (pc_chan p io) r).1 /\ pc_chan (inb p (io + r)).2 io = (reg_in (pc_chan p io) r).2 /\
  (forall io' ctrl', (io', ctrl') ∈ bases -> io <> io' ->
     (forall v, pc_chan (outb p (io + r) v) io' = pc_chan p io') /\ pc_chan (inb p (io + r)).2 io' = pc_chan p io').
Proof.
  intros Hin Hr. unfold bases in *. assert (Hc : io = 0x1F0 \/ io = 0x170) by set_solver. cbn [outb inb PcPorts].
  destruct Hc as [-> | ->].
  - rewrite at_port_in by done. replace (0x1F0 + r - 0x1F0) with r by lia. unfold pc_chan. cbn [Z.eqb Pos.eqb].
    destruct (reg_in p.1 r) as [v c]. repeat split; try done; intros; assert (io' = 0x170) as -> by set_solver; done.
  - rewrite at_port_out, at_port_in by done. replace (0x170 + r - 0x170) with r by lia. unfold pc_chan. cbn [Z.eqb Pos.eqb].
    destruct (reg_in p.2 r) as [v c]. repeat split; try done; intros; assert (io' = 0x1F0) as -> by set_solver; done.
Qed.

(** The data port of either channel. *)
Lemma pc_data p io ctrl : (io, ctrl) ∈ bases ->
  (forall v, pc_chan (outw p (io + 0) v) io = data_out (pc_chan p io) v) /\
  (inw p (io + 0)).1 = (data_in (pc_chan p io)).1 /\ pc_chan (inw p (io + 0)).2 io = (data_in (pc_chan p io)).2 /\
  (forall io' ctrl', (io', ctrl') ∈ bases -> io <> io' ->
     (forall v, pc_chan (outw p (io + 0) v) io' = pc_chan p io') /\ pc_chan (inw p (io + 0)).2 io' = pc_chan p io').
Proof.
  intros Hin. unfold bases in *. assert (Hc : io = 0x1F0 \/ io = 0x170) by set_solver. unfold pc_chan.
  destruct Hc as [-> | ->]; cbn [outw inw PcPorts Z.add Z.eqb Pos.eqb].
  - destruct (data_in p.1) as [v c]. repeat split; try done; intros; assert (io' = 0x170) as -> by set_solver; done.
  - destruct (data_in p.2) as [v c]. repeat split; try done; intros; assert (io' = 0x1F0) as -> by set_solver; done.
Qed.

Lemma pc_alternate p io ctrl io' : (io, ctrl) ∈ bases -> pc_chan (inb p ctrl).2 io' = pc_chan p io'.
Proof. intros Hin. unfold bases in Hin. assert (Hc : ctrl = 0x3F6 \/ ctrl = 0x376) by set_solver. by destruct Hc as [-> | ->]. Qed.

Lemma busy_small k : (k < 100)%nat -> (k < BUSY_LIMIT)%nat.
Proof. intros Hk. unfold BUSY_LIMIT. lia. Qed.

#[export] Instance PcLaws : AtaLaws pc_ports.
Proof.
  refine {| chan := pc_chan |}.
  - intros p io ctrl r v Hin Hr Hi Hb. destruct (pc_reg p io ctrl r Hin ltac:(lia)) as (-> & _). unfold reg_out.
    by replace (r =? 7) with false by lia.
  - intros p io ctrl v ws Hin Hv Hi Hb Hc Hm. destruct (pc_reg p io ctrl 7 Hin ltac:(lia)) as (E & _). rewrite E.
    unfold reg_out, command. cbn [Z.eqb Pos.eqb]. destruct Hv as [-> | ->]; cbn [Z.eqb Pos.eqb ATA_CMD_READ_SECTORS ATA_CMD_WRITE_SECTORS].
    + exists 2%nat. split; [by apply busy_small; lia|]. by rewrite Hm.
    + exists 1%nat. split; [by apply busy_small; lia|]. done.
  - intros p io ctrl k Hin Hb. destruct (pc_reg p io ctrl 7 Hin ltac:(lia)) as (_ & -> & -> & _). unfold reg_in, status.
    cbn [Z.eqb Pos.eqb fst snd]. by rewrite Hb.
  - intros p io ctrl Hin Hb. destruct (pc_reg p io ctrl 7 Hin ltac:(lia)) as (_ & -> & -> & _). unfold reg_in, status.
    cbn [Z.eqb Pos.eqb fst snd]. rewrite Hb. destruct (c_phase _); [by destruct (has_disk _)|done..].
  - intros p io ctrl Hin. by apply (pc_alternate p io ctrl).
  - intros p io ctrl w ws Hin Hb Hp. destruct (pc_data p io ctrl Hin) as (_ & -> & -> & _). unfold data_in. by rewrite Hp.
  - intros p io ctrl w ws Hin Hb Hp. destruct (pc_data p io ctrl Hin) as (E & _). rewrite E. exists 1%nat.
    split; [by apply busy_small; lia|]. unfold data_out. by rewrite Hp.
  - intros p io ctrl io' ctrl' r v Hin Hin' Hne Hr. destruct (pc_reg p io ctrl r Hin Hr) as (_ & _ & _ & R).
    destruct (R io' ctrl' Hin' Hne) as [R1 R2]. destruct (pc_data p io ctrl Hin) as (_ & _ & _ & Q).
    destruct (Q io' ctrl' Hin' Hne) as [Q1 Q2]. split_and!; [apply R1|apply R2|by apply (pc_alternate p io ctrl)|apply Q2|apply Q1].
Defined.

(** ** A disk with two partitions *)

Definition ex_boot : list Z := replicate 446 0.
Definition ex_slots : list mbr_slot :=
  [MbrSlot 0x80 [0; 0; 0] 0x0C [0; 0; 0] 2 4; MbrSlot 0 [0; 0; 0] 0x83 [0; 0; 0] 8 6;
   MbrSlot 0 [0; 0; 0] 0 [0; 0; 0] 0 0; MbrSlot 0 [0; 0; 0] 0 [0; 0; 0] 0 0].

Definition ex_media : gmap (Z * Z) (list Z) :=
  list_to_map (((0, 0), words (mbr_image ex_boot ex_slots)) :: ((fun x => ((0, x), replicate 256 0)) <$> seqZ 1 15)).

Definition ex_ports : pc_ports := (Channel 0 0 0 0 0 Idle 0 ex_media, Channel 0 0 0 0 0 Idle 0 ∅).

Section concrete.
#[local] Existing Instance CountingPages.

#[local] Abbreviation machine := (arch_heap I686 Z).

(** Detection finds the disk, the table its partitions. *)
Definition ex_start : blk machine (ata pc_ports) := Blk ∅ ∅ ∅ [] nb_heap1 (Ata ata_devices ex_ports).
Definition ex_disk : blk machine (ata pc_ports) := default ex_start (ata_init I686 0x200000 10 ex_start).
Definition ex_parts : list partition := default [] (r ← partition_parse I686 5 ex_disk 0x200000; r.1.2).
Definition ex_part (i : nat) : partition := nth i ex_parts (Partition 0 0 0 0 false false [] 0).
Definition ex_res : option (Z * Z * blk machine (ata pc_ports)) :=
  '(p, s) ← partition_create_blockdev I686 5 ex_disk (ex_part 0);
  '(q, s) ← partition_create_blockdev I686 5 s (ex_part 1);
  Some (p, q, s).
Definition ex_devs : Z * Z := Eval vm_compute in default (0, 0) (fst <$> ex_res).
Definition ex_state : blk machine (ata pc_ports) := default ex_start (snd <$> ex_res).

Definition summary (p : partition) : Z * Z * Z * bool := (pt_start_lba p, pt_sector_count p, pt_type p, pt_active p).

Lemma ex_created : ex_devs = (0x804000F8, 0x804001C8) /\ (summary <$> ex_parts) = [(2, 4, 0x0C, true); (8, 6, 0x83, false)].
Proof. split; vm_compute; reflexivity. Qed.

(** One of the first [n] integers. *)
Lemma seqZ_cases (Q : Z -> Prop) n x : Forall Q (seqZ 0 n) -> 0 <= x < n -> Q x.
Proof. intros HF Hx. apply (proj1 (list.Forall_forall _ _) HF). apply elem_of_seqZ. lia. Qed.

Definition sector_there (M : gmap (Z * Z) (list Z)) (x : Z) : bool :=
  match M !! (0, x) with Some ws => (length ws =? 256)%nat | None => false end.

Lemma formatted_check (M : gmap (Z * Z) (list Z)) n : forallb (sector_there M) (seqZ 0 n) = true -> formatted M 0 n.
Proof.
  intros HF x Hx. apply (seqZ_cases (fun x => exists ws, M !! (0, x) = Some ws /\ length ws = 256%nat) n x); [|done].
  apply list.Forall_forall. intros y Hy. rewrite forallb_forall in HF. specialize (HF y (proj1 (list_elem_of_In _ _) Hy)).
  unfold sector_there in HF. destruct (M !! (0, y)) as [ws|]; [|done]. exists ws. split; [done|by apply Nat.eqb_eq].
Qed.

(** The device table after detection. *)
Definition ex_table : list ata_device :=
  [AtaDevice 0x1F0 0x3F6 0 true 16 0; AtaDevice 0x1F0 0x3F6 1 false 0 0;
   AtaDevice 0x170 0x376 0 false 0 1; AtaDevice 0x170 0x376 1 false 0 1].

Lemma ata_ok_check (s : ata pc_ports) : at_devices s = ex_table -> quiet (at_ports s) 0x1F0 ->
  forallb (sector_there (c_media (chan (at_ports s) 0x1F0))) (seqZ 0 16) = true -> ata_ok s.
Proof.
  intros Ht Hq Hf. split; rewrite Ht.
  - intros i dev Hi Hp. destruct i as [|[|[|[|i]]]]; try discriminate Hi; injection Hi as <-; try discriminate Hp.
    split; [split; [by left|by left]|]. split; [done|]. split; [cbn; lia|]. by apply formatted_check.
  - intros i j dev dev' Hi Hj. destruct i as [|[|[|[|i]]]]; try discriminate Hi; injection Hi as <-;
      (destruct j as [|[|[|[|j]]]]; try discriminate Hj; injection Hj as <-; done).
Qed.

Lemma ex_state_ok : drv_ok (b_driver ex_state).
Proof. apply ata_ok_check; [vm_compute; reflexivity|split; vm_compute; reflexivity|vm_compute; reflexivity]. Qed.

Lemma ex_disk_placed : placed ex_state 0 0x200000 0 0 16.
Proof.
  refine (placed_disk ex_state 0x200000 (Blockdev [97; 116; 97; 48] (BdDriver 0) 512 16 1 true) 0 _ _ _ _ _);
    [done|vm_compute; reflexivity|done|done|vm_compute; congruence].
Qed.

(** The parent, start and size of a partition device. *)
Definition part_of (s : blk machine (ata pc_ports)) (dev : Z) : option (Z * Z * Z * Z) :=
  d ← b_devs s !! dev;
  match bd_backend d with
  | BdPartition data =>
      q ← b_data s !! data;
      p ← b_parts s !! q;
      Some (pt_parent_dev p, pt_start_lba p, pt_sector_count p, bd_total_sectors d)
  | _ => None
  end.

Lemma part_placed s k dev parent i base len start count : part_of s dev = Some (parent, start, count, count) -> dev <> 0 ->
  placed s k parent i base len -> 0 <= start -> 0 <= count -> start + count <= len -> placed s (S k) dev i (base + start) count.
Proof.
  unfold part_of. destruct (b_devs s !! dev) as [d|] eqn:Ed; [|done]. cbn [mbind option_bind].
  destruct (bd_backend d) as [| |data] eqn:Eb; [done|done|]. destruct (b_data s !! data) as [q|] eqn:Eq; [|done]. cbn [mbind option_bind].
  destruct (b_parts s !! q) as [p|] eqn:Ep; [|done]. intros [= <- <- <- Et] Hne Hp H1 H2 H3. by eapply placed_part.
Qed.

Lemma ex_part0_placed : placed ex_state 1 0x804000F8 0 2 4.
Proof. apply (part_placed ex_state 0 0x804000F8 0x200000 0 0 16 2 4); [vm_compute; reflexivity|lia|exact ex_disk_placed|lia..]. Qed.

Lemma ex_part1_placed : placed ex_state 1 0x804001C8 0 8 6.
Proof. apply (part_placed ex_state 0 0x804001C8 0x200000 0 0 16 8 6); [vm_compute; reflexivity|lia|exact ex_disk_placed|lia..]. Qed.

Definition ex_volume0 : list (list Z) := replicate 4 (replicate 512 0).
Definition ex_volume1 : list (list Z) := replicate 6 (replicate 512 0).
Definition ex_volumes : gmap Z (list (list Z)) := <[0x804000F8 := ex_volume0]> {[0x804001C8 := ex_volume1]}.

Lemma ex_volumes_inv dev c : ex_volumes !! dev = Some c -> (dev = 0x804000F8 /\ c = ex_volume0) \/ (dev = 0x804001C8 /\ c = ex_volume1).
Proof.
  unfold ex_volumes. destruct (decide (dev = 0x804000F8)) as [->|H0]; [rewrite lookup_insert_eq; intros [= <-]; by left|].
  rewrite lookup_insert_ne by done. destruct (decide (dev = 0x804001C8)) as [->|H1]; [rewrite lookup_singleton_eq; intros [= <-]; by right|].
  by rewrite lookup_singleton_ne.
Qed.

(** Every sector from 2 to 13 is empty. *)
Definition ex_sector (x : Z) : list Z := drv_sector (b_driver ex_state) 0 x.
Lemma ex_sectors_zero : (ex_sector <$> seqZ 2 12) = replicate 12 (replicate 512 0).
Proof. vm_compute. reflexivity. Qed.

Lemma ex_sector_zero x : 2 <= x < 14 -> ex_sector x = replicate 512 0.
Proof.
  intros Hx. assert (Hl : (ex_sector <$> seqZ 2 12) !! Z.to_nat (x - 2) = Some (ex_sector x)).
  { rewrite list_lookup_fmap, lookup_seqZ_lt by lia. cbn. do 2 f_equal. lia. }
  rewrite ex_sectors_zero in Hl. apply lookup_replicate_1 in Hl as [Hl _]. exact Hl.
Qed.

#[local] Strategy 1000 [ex_state].

Lemma ex_state_volumes : volumes 3 ex_state ex_volumes.
Proof.
  split; [exact ex_state_ok| |].
  - intros dev c [[-> ->]|[-> ->]]%ex_volumes_inv.
    + exists 0%nat, 0%nat, 2. split; [lia|]. split; [exact ex_part0_placed|]. intros j Hj.
      pose proof (ex_sector_zero (2 + Z.of_nat j)) as Hz. unfold ex_sector in Hz.
      unfold ex_volume0 in *. rewrite length_replicate in Hj. rewrite Hz by lia. by apply lookup_replicate_2.
    + exists 0%nat, 0%nat, 8. split; [lia|]. split; [exact ex_part1_placed|]. intros j Hj.
      pose proof (ex_sector_zero (8 + Z.of_nat j)) as Hz. unfold ex_sector in Hz.
      unfold ex_volume1 in *. rewrite length_replicate in Hj. rewrite Hz by lia. by apply lookup_replicate_2.
  - intros dev dev' k k' i base base' len len' [c Hc%ex_volumes_inv] [c' Hc'%ex_volumes_inv] Hne P P'.
    destruct Hc as [[-> _]|[-> _]], Hc' as [[-> _]|[-> _]]; try done.
    + destruct (placed_fun _ _ _ _ _ _ ex_part0_placed _ _ _ _ P) as (_ & -> & ->).
      destruct (placed_fun _ _ _ _ _ _ ex_part1_placed _ _ _ _ P') as (_ & -> & ->). lia.
    + destruct (placed_fun _ _ _ _ _ _ ex_part1_placed _ _ _ _ P) as (_ & -> & ->).
      destruct (placed_fun _ _ _ _ _ _ ex_part0_placed _ _ _ _ P') as (_ & -> & ->). lia.
Qed.

(** Two sectors of the first partition are written, then read, then a sector
    of the other one, then a range that does not fit. *)
Definition ex_requests : list disk_request :=
  [WrSectors 0x804000F8 1 2 (replicate 1024 7); RdSectors 0x804000F8 2 1; RdSectors 0x804001C8 0 1; RdSectors 0x804000F8 3 2].

Lemma ex_requests_valid : Forall (valid_request ex_volumes) ex_requests.
Proof.
  assert (S0 : is_Some (ex_volumes !! 0x804000F8)) by (eexists; apply lookup_insert_eq).
  assert (S1 : is_Some (ex_volumes !! 0x804001C8)) by (eexists; unfold ex_volumes; rewrite lookup_insert_ne by done; apply lookup_singleton_eq).
  unfold ex_requests. rewrite !list.Forall_cons. split_and!; try done; cbn [valid_request]; try (split_and!; lia || done).
  split_and!; try lia; try done. apply Forall_replicate. unfold is_byte. lia.
Qed.

Lemma partitions_refine_witness : exists s',
  serve_all 3 ex_state ex_requests = Some ([(0, []); (0, replicate 512 7); (0, replicate 512 0); (-1, [])], s') /\
  volumes 3 s' (ideal_all ex_volumes ex_requests).2.
Proof.
  destruct (partitions_refine 3 ex_requests ex_state ex_volumes ex_state_volumes ex_requests_valid) as (s' & E & V).
  exists s'. split; [|exact V]. rewrite E. f_equal.
Defined.

Lemma ata_disk_correct_witness : exists s1 s2,
  ata_blockdev_write (b_driver ex_state) 0 5 2 (replicate 1024 9) = Some (0, s1) /\
  ata_blockdev_read s1 0 5 2 = Some (0, replicate 1024 9, s2) /\ ata_ok s2 /\
  forall j x, 0 <= x < ata_sectors (b_driver ex_state) j -> j <> 0%nat \/ ~ (5 <= x < 5 + 2) ->
    ata_sector s2 j x = ata_sector (b_driver ex_state) j x.
Proof.
  apply (ata_disk_correct (b_driver ex_state) 0 5 2 (replicate 1024 9) ex_state_ok);
    [lia|lia|vm_compute; congruence|vm_compute; reflexivity|apply Forall_replicate; unfold is_byte; lia].
Defined.

Lemma ex_boot_sector : drv_sector (b_driver ex_state) 0 0 = mbr_image ex_boot ex_slots.
Proof. vm_compute. reflexivity. Qed.

Lemma slot_ok_simple flag type start count : is_byte flag -> is_byte type -> 0 <= start < 2 ^ 32 -> 0 <= count < 2 ^ 32 ->
  slot_ok (MbrSlot flag [0; 0; 0] type [0; 0; 0] start count).
Proof. intros. split; try done; (split; [done|]); repeat constructor; unfold is_byte; lia. Qed.

Lemma ex_slots_ok : Forall slot_ok ex_slots.
Proof. unfold ex_slots. rewrite !list.Forall_cons. split_and!; try (apply slot_ok_simple; unfold is_byte; lia). constructor. Qed.

Lemma partition_parse_mbr_table_witness : exists s',
  partition_parse I686 1 ex_state 0x200000 = Some ((0, Some ([slot_partition 0x200000 0 (MbrSlot 0x80 [0; 0; 0] 0x0C [0; 0; 0] 2 4);
     slot_partition 0x200000 1 (MbrSlot 0 [0; 0; 0] 0x83 [0; 0; 0] 8 6)])), s') /\ same_disks ex_state s'.
Proof.
  apply (partition_parse_mbr_table I686 1 ex_state 0 0x200000 0 0 16 ex_boot ex_slots ex_state_ok ex_disk_placed);
    [lia|lia|exact ex_boot_sector|done|apply Forall_replicate; unfold is_byte; lia|done|exact ex_slots_ok|repeat constructor; done].
Defined.

(** ** A disk with a GPT *)

Definition gpt_ms : list mbr_slot :=
  [MbrSlot 0 [0; 0; 0] 0xEE [0; 0; 0] 1 15; MbrSlot 0 [0; 0; 0] 0 [0; 0; 0] 0 0;
   MbrSlot 0 [0; 0; 0] 0 [0; 0; 0] 0 0; MbrSlot 0 [0; 0; 0] 0 [0; 0; 0] 0 0].
Definition gpt_es : list gpt_slot :=
  [GptSlot (replicate 16 1) (replicate 16 2) 4 7 (replicate 80 0); GptSlot (replicate 16 0) (replicate 16 0) 0 0 (replicate 80 0);
   GptSlot (replicate 16 3) (replicate 16 2) 9 5 (replicate 80 0); GptSlot (replicate 16 3) (replicate 16 4) 8 8 (replicate 80 0)].
Definition gpt_h1 : list Z := replicate 64 0.
Definition gpt_h2 : list Z := replicate 424 0.
Definition gpt_media : gmap (Z * Z) (list Z) :=
  list_to_map (((0, 0), words (mbr_image ex_boot gpt_ms)) :: ((0, 1), words (gpt_header gpt_h1 2 4 128 gpt_h2))
    :: ((0, 2), words (gpt_es ≫= gslot_bytes)) :: ((fun x => ((0, x), replicate 256 0)) <$> seqZ 3 13)).
Definition gpt_dev : blockdev := Blockdev [97; 116; 97; 48] (BdDriver 0) 512 16 1 true.
Definition gpt_state : blk machine (ata pc_ports) :=
  Blk {[0x200000 := gpt_dev]} ∅ ∅ [0x200000] nb_heap1
    (Ata ex_table (Channel 0 0 0 0 0 Idle 0 gpt_media, Channel 0 0 0 0 0 Idle 0 ∅)).

Lemma gpt_state_ok : drv_ok (b_driver gpt_state).
Proof. apply ata_ok_check; [done|done|vm_compute; reflexivity]. Qed.

Lemma gpt_placed : placed gpt_state 0 0x200000 0 0 16.
Proof. refine (placed_disk gpt_state 0x200000 gpt_dev 0 _ _ _ _ _); [done|vm_compute; reflexivity|done|done|vm_compute; congruence]. Qed.

Definition bytes_check (l : list Z) : bool := forallb (fun v => (0 <=? v) && (v <? 256)) l.
Lemma bytes_checked l : bytes_check l = true -> Forall is_byte l.
Proof.
  intros Hc. apply list.Forall_forall. intros v Hv. unfold bytes_check in Hc. rewrite forallb_forall in Hc.
  specialize (Hc v (proj1 (list_elem_of_In _ _) Hv)). unfold is_byte. lia.
Qed.

Lemma gpt_on_disk : gpt_disk gpt_state 0 0 16 gpt_h1 gpt_h2 2 128 gpt_es [].
Proof.
  assert (Hb : Forall is_byte (gpt_header gpt_h1 2 4 128 gpt_h2) /\ Forall is_byte ((gpt_es ≫= gslot_bytes) ++ []))
    by (split; apply bytes_checked; vm_compute; reflexivity).
  split; [done|done|cbn; lia|lia|split; [lia|split; [vm_compute; congruence|lia]]| | |].
  - split; [vm_compute; reflexivity|exact (proj1 Hb)].
  - change (take 4 gpt_es) with gpt_es. unfold gpt_es. rewrite !list.Forall_cons. split_and!; try (split; cbn; lia || done). constructor.
  - split; [vm_compute; reflexivity|exact (proj2 Hb)].
Qed.

Definition gpt_heap : heap Z := Eval vm_compute in default nb_h1 (snd <$> kmalloc I686 nb_h1 512).
Lemma gpt_heap_wf : wf I686 gpt_heap [(52, false); (136, false); (512, false); (3316, true)].
Proof. split; try (vm_compute; done). repeat constructor; simpl; lia. Qed.

(** The heap serves both buffers. *)
Lemma gpt_memory : gpt_no_memory nb_heap1 (gpt_header gpt_h1 2 4 128 gpt_h2) (gpt_sectors 4 128 * 512) = false.
Proof. vm_compute. reflexivity. Qed.

Lemma partition_parse_gpt_table_witness : exists s' L',
  partition_parse I686 1 gpt_state 0x200000 = Some ((0, Some (gpt_found 0x200000 0 gpt_es)), s') /\
  length (gpt_found 0x200000 0 gpt_es) = 2%nat /\
  kh_live (b_heap s') L' /\ L' ≡ₚ [(0x80400014, 52); (0x8040005C, 136)] /\ same_disks gpt_state s'.
Proof.
  destruct (partition_parse_gpt_table I686 i686_limit 1 gpt_state 0 0x200000 0 0 16 ex_boot gpt_ms gpt_h1 gpt_h2 2 128 gpt_es []
    [(0x80400014, 52); (0x8040005C, 136)] gpt_state_ok gpt_placed) as (s' & L' & E & HL);
    [lia|vm_compute; reflexivity|vm_compute; reflexivity|done|apply Forall_replicate; unfold is_byte; lia|done| | |exact gpt_on_disk|exact nb_heap1_live| | |].
  - unfold gpt_ms. rewrite !list.Forall_cons. split_and!; try (apply slot_ok_simple; unfold is_byte; lia). constructor.
  - left. done.
  - apply (ready_fit I686 nb_h1 _ 512 nb_h1_wf); vm_compute; congruence.
  - intros q h E%kh_malloc_inv. subst h. apply (ready_fit I686 gpt_heap _ _ gpt_heap_wf); vm_compute; congruence.
  - change (length gpt_es) with 4%nat in E. change (Z.of_nat 4) with 4 in E. change (b_heap gpt_state) with nb_heap1 in E.
    rewrite gpt_memory in E. exists s', L'. split; [exact E|]. split; [vm_compute; reflexivity|exact HL].
Defined.

End concrete.
